(* ===== verification/_CoqProject ===== *)
-Q . S2P
Prelude.v
Mmu.v
Pmap.v
PmapInv.v
PmapOps.v
PmapDir.v
PmapBoot.v
MemInit.v
UserMem.v
PmapProps.v
Env.v
Sched.v
SchedFair.v
EnvFree.v
EnvInv.v
EnvAlloc.v
KDemo.v
Syscall.v
SyscallInv.v
EnvProps.v
SyscallProps.v
IpcProps.v
Console.v
Spinlock.v
Machine.v
Trap.v
UserAccess.v
TrapProps.v
DeviceProps.v
Div64.v
BlockCache.v
BlockImage.v
Fs.v
FsBitmap.v
FsFile.v
FsRw.v
FsTrunc.v
FsDir.v
FsCreate.v
FsTree.v
FsRemove.v
FsMount.v
FsDemo.v
FsProps.v
FsTreeProps.v
Serv.v
ServInv.v
ServProps.v
Malloc.v
MallocInv.v
MallocProps.v
Math.v
Str.v
PrintFmt.v
Print.v
Buddy.v
BuddyInv.v
BuddyProps.v
Pipe.v
Fork.v
ForkInv.v
ForkFinish.v
ForkProps.v
Inet.v
Chksum.v
Pbuf.v
PbufProps.v
LwipMem.v
LwipMemProps.v
PbufHeap.v
Thread.v
Itc.v
Timeouts.v
Format.v
FormatProps.v
