(* ===== verification/Prelude.v ===== *)
(** * Toynix: a verification development

    Toynix is a small operating system for 32-bit x86: a kernel that offers environments
    (processes), address spaces and messages, and user-level servers above it, among them a
    file server and a network server built on the lwIP stack.  This library models the
    program, written in C under [src/], as functions of Rocq and proves what makes it
    correct.  The definitions keep the names of the source; constants are named after their
    macros.

    ** How C becomes Rocq

    Code that changes state is a function in the monad [M S A] below: a run on a state [S]
    returns ([Ret]), stops the system at a failed assertion ([Panic]), does what the
    language or the hardware leaves undefined, such as an access through a null pointer or
    outside an array ([Fault]), or gives the processor away and never returns ([Switch]).  A
    theorem that a call returns therefore also says that it neither panics nor faults.
    Machine integers are numbers in [Z]; [u8], [u16], [u32] and [s32] reduce to the width
    wherever an operation of the code may leave it.  Arrays and memory are functions from
    indices or addresses; pointers to elements of an array are indices, null is [None].
    Loops are recursive; where the recursion is not structural they have fuel, and running
    out of it is an outcome of its own, so that the theorems show that the fuel is enough.

    ** The parts and their files

    Memory ([kernel/pmap.c], [include/mmu.h], [include/memlayout.h]).  [Mmu] has the paging
    macros.  [Pmap] has the page array with its free list, the words of physical memory,
    the TLB, and [page_alloc], [page_free], [pgdir_walk], [page_insert], [page_lookup],
    [page_remove] and the rest; [UserMem] has [user_mem_check]; [MemInit] has [mem_init]
    and the five self-tests it runs.  [PmapInv] states the invariant [mm_inv]: the
    reference count of every page is the number of entries, tables and directories that
    refer to it, free pages are exactly those on the list, and tables are not shared.
    [PmapOps], [PmapDir] and [PmapBoot] show that every operation keeps it;
    [PmapProps] has the properties: [page_insert] and [page_remove] change exactly one
    entry of the address space, which is abstractly a partial map.

    Environments and the scheduler ([kernel/env.c], [kernel/sched.c], [kernel/vm.c]).
    [Env] and [Sched] have the environments, their life, loading of programs and
    [sched_yield].  [EnvFree], [EnvInv] and [EnvAlloc] show that creation and destruction
    keep the invariant [kinv] of the whole kernel, which ties address spaces to
    environments.  [EnvProps] and [SchedFair] have the properties: nothing is leaked by
    [env_free], and an environment that stays runnable is run.  The scheduler takes the
    runnable environment that has run least, the first one in circular order among equals.

    System calls and traps ([kernel/syscall.c], [kernel/trap.c]).  [Syscall] has the
    handlers, [Machine] and [Trap] the dispatcher and the trap entry over kernel and
    devices.  [SyscallInv] shows that the handlers keep [kinv] for all arguments;
    [SyscallProps], [IpcProps], [UserAccess] and [TrapProps] have their effects, error by
    error.  [KDemo] is a small running kernel on which the properties are exhibited.

    Devices and locks ([kernel/console.c], [kernel/e1000.c], [kernel/time.c],
    [kernel/spinlock.c]).  [Console] is a queue between interrupts and readers and a
    screen; [Machine] and [DeviceProps] have the card's descriptor rings; [Spinlock] has
    the interleaved steps of any number of processors, of which at most one holds the lock.

    File system ([fs/block_cache.c], [fs/ide.c], [fs/fs.c]).  [BlockCache] has the cache
    of disk blocks that page faults fill; [BlockImage] shows that it behaves as one flat
    array of bytes and gives the rules [iwp] for code above it.  [Fs] has the file system;
    [FsBitmap], [FsFile], [FsRw], [FsTrunc], [FsDir], [FsCreate], [FsTree], [FsRemove] and
    [FsMount] prove its operations against the image: the contents of a file as a function
    of the offset, a directory as a partial map of names, the volume as a tree in which no
    block belongs to two files.  [FsProps] and [FsTreeProps] have the properties, over the
    small disk of [FsDemo]: reading gives back what was written, an operation changes
    exactly the file it is for, and what [fs_sync] left on the disk is the file system but
    for blocks that were put into a hole and never written.
    [Format] is the program that makes the first volume ([fs/fsformat.c]); [FormatProps]
    shows that the server mounts what it wrote, finds it sound and finds the files in it.

    File server ([fs/serv.c]).  [Serv] has the table of open files and every request;
    [ServInv] and [ServProps] show that over any sequence of requests within the limits of
    [request_ok], which the code does not check itself, and of actions of clients on the
    shared pages the volume stays sound and open files stay in the tree.

    User library ([lib/]).  [Malloc], [MallocInv], [MallocProps]: the heap of a program,
    call by call on the list of its blocks and along any sequence of calls.
    [Math], [Buddy], [BuddyInv], [BuddyProps]: the buddy allocator, whose array of orders
    represents a tree of blocks.  [Str]: strings and memory blocks.  [PrintFmt], [Print]:
    formatted printing, up to the devices.  [Div64]: 64-bit division.  [Fork], [ForkInv],
    [ForkFinish], [ForkProps]: copy-on-write fork as a program over the handlers of
    [Syscall], from [sys_exofork] to the child that is ready to run.  [Pipe]: pipes, as interleaved steps of reader and writer.  [Thread], [Itc]: threads, and the
    semaphores and mailboxes between them.

    Network server ([net/lwip/]).  [Inet]: addresses and byte order.  [Chksum]: the three
    versions of the Internet checksum against the sum in one's complement, and checksums of
    chains.  [LwipMem], [LwipMemProps]: the heap.  [Pbuf], [PbufProps]: packet buffers and
    pools, with the heap as a parameter that has laws; [PbufHeap] puts the real heap there.
    [Timeouts] ([core/sys.c]): the lists of timeouts and the waits that run them off, over
    the semaphores and mailboxes of [Itc].

    ** What the theorems show

    Invariants: [mm_inv], [kinv], the sound volume, the heaps and the buddy tree are kept
    by every operation that changes them, for all arguments.  Refinement: address spaces
    are partial maps, the cache is an array, files are functions and directories maps,
    allocators hand out disjoint blocks, mailboxes, pipes and the console are queues,
    lists of differences are sets of timeouts with their due times.
    Functional behaviour: the result and the effect of each call on every branch.  Round
    trips: write and read, format and mount, print and parse, allocate and release.  Termination: every loop
    with fuel ends within it.  Liveness: environments and threads that are ready are run.
    Where the code does not do what it means to, a lemma shows the input on which it fails.

    ** Bounds and fuel

    [user_mem_fuel] is one more than the pages of an address space.  [loop] of [Prelude],
    with 2^32 rounds, serves the loops that count through an address space.  [cons_intr]
    has one round more than the device has characters, [tx_fuel] one for each frame of a
    message and one more.  The division loops have 64
    and 65 rounds, one per bit.  [bc_pgfault] has 4 rounds, one per nested fault that can
    occur.  Path walks are bounded by the length of the path, [read_name] by the page
    of the request.  [malloc] searches as many blocks as the heap has.  Strings and formats
    are bounded by their length, numbers by 64 digits; the nesting of formats by 2, since
    only an error code without a name starts one inside another.  Along a sequence of calls
    a quarter of the bytes of the heap is enough for [malloc] and for the words [realloc]
    copies.
    The buddy tree is at most 33 levels deep.  Walks along packet buffers are bounded by
    the number of allocated buffers, those of two chains by twice that, the walk of the
    network server's heap by the number of blocks that fit in it ([MEM_SIZE] over 24, plus
    2).  [sem_fuel] is 8 although a wait goes round at most three times between two
    switches.  The waits of [Timeouts] take one of their fuel for each timeout that runs
    off: the theorem about timers holds for every fuel, also of waits cut short, and two
    are enough for [sys_msleep].  Interleavings are lists of steps of any length.

    ** Assumptions

    The memory in which the formatter builds the directory entries is zero before it is
    written.  The clock of the threads is below 2^31 milliseconds in the theorems about
    mailboxes.
    A program's heap gets every page it asks for.  Threads do not free semaphores that
    others wait on in the theorems about timeouts.
    The memory that processors share is sequentially consistent.  Linker symbols and the
    sizes of structures the compiler chooses are parameters.  Functional extensionality is
    used in [BlockImage], [FsMount] and [FsProps] for images as functions.

    ** Not modelled

    Assembly ([kernel/trapentry.S], [boot/boot.S], context switches), hardware set-up
    ([kernel/mpconfig.c], [kernel/lapic.c], [kernel/pci.c], the boot loader), the kernel
    monitor and its symbol tables, which only print, and what the network card and the disk
    drive do by themselves: their answers are arguments.  What the kernel prints about
    itself ([cprintf]) is left out but for the text of the keyboard driver.  The counts of
    characters printed and the widths of fields are not cut to 32 bits, and the queues of
    threads, linked through the threads in the code, are lists.
    Of the network stack the protocols above packet buffers (TCP, UDP, DHCP, ARP,
    sockets) are left out: they are third-party code, most of it behind function pointers
    and timers, of which this port uses a part.  The thin wrappers of [lib/] around system
    calls and server requests and the demonstration programs of [user/] are left out.  *)

From stdpp Require Import base gmap list strings sorting.
From Stdlib Require Import ZArith Lia.

Open Scope Z_scope.

(** ** Machine integers

    The kernel is compiled with [-m32]: [int], [long] and pointers are 32 bits
    wide, [unsigned char] 8, [uint16_t] 16 and [unsigned long long] 64.  A value
    of an unsigned type is a [Z] in range; every arithmetic operation that may
    leave the range wraps explicitly. *)
Definition u8 (x : Z) : Z := x mod 2 ^ 8.
Definition u16 (x : Z) : Z := x mod 2 ^ 16.
Definition u32 (x : Z) : Z := x mod 2 ^ 32.
Definition u64 (x : Z) : Z := x mod 2 ^ 64.

(** Conversion to a signed 32-bit integer. *)
Definition s32 (x : Z) : Z := (x + 2 ^ 31) mod 2 ^ 32 - 2 ^ 31.

Definition is_u32 (x : Z) : Prop := 0 ≤ x < 2 ^ 32.

(** A C condition on an integer: nonzero is true. *)
Definition ctrue (x : Z) : bool := negb (x =? 0).

(** ** The monad of kernel code

    A C function that works on a state [S] either returns a value ([Ret]),
    reaches [panic] or a failed [assert] ([Panic]), accesses memory it must not
    ([Fault]), or gives the processor away and never returns to its caller
    ([Switch]: [env_run], [sched_halt]). *)
Inductive outcome (S A : Type) : Type :=
| Ret (a : A) (s : S)
| Panic (why : string)
| Fault
| Switch (s : S).

Arguments Ret {S A} a s.
Arguments Panic {S A} why.
Arguments Fault {S A}.
Arguments Switch {S A} s.

Definition M (S A : Type) : Type := S → outcome S A.

Definition ret {S A} (a : A) : M S A := λ s, Ret a s.

Definition bind {S A B} (m : M S A) (f : A → M S B) : M S B := λ s,
  match m s with
  | Ret a s' => f a s'
  | Panic why => Panic why
  | Fault => Fault
  | Switch s' => Switch s'
  end.

Definition gets {S A} (f : S → A) : M S A := λ s, Ret (f s) s.
Definition modify {S} (f : S → S) : M S unit := λ s, Ret tt (f s).
Definition panic {S A} (why : string) : M S A := λ _, Panic why.
Definition fault {S A} : M S A := λ _, Fault.
Definition switch {S A} : M S A := λ s, Switch s.

(** The value behind a pointer that must not be dangling. *)
Definition deref {S A} (o : option A) : M S A :=
  match o with Some a => ret a | None => fault end.

Declare Scope kmonad_scope.
Delimit Scope kmonad_scope with kmonad.

Notation "'let*' x := m 'in' k" := (bind m (λ x, k))
  (at level 200, x pattern, m at level 100, k at level 200,
   format "'[v' 'let*'  x  :=  m  'in' '/' k ']'") : kmonad_scope.
Notation "'do*' m 'in' k" := (bind m (λ _, k))
  (at level 200, m at level 100, k at level 200,
   format "'[v' 'do*'  m  'in' '/' k ']'") : kmonad_scope.

Open Scope kmonad_scope.

(** [assert(b)] of [include/assert.h]: it panics when [b] is false. *)
Definition massert {S} (b : bool) : M S unit :=
  if b then ret tt else panic "assertion failed".

(** [for (i = lo; i < lo + n; i++) body(i)]. *)
Fixpoint for_up {S} (n : nat) (lo : Z) (body : Z → M S unit) : M S unit :=
  match n with
  | O => ret tt
  | S n' => do* body lo in for_up n' (lo + 1) body
  end.

(** A loop over [lo <= i < lo + n] that [body] leaves by yielding a value. *)
Fixpoint search {S A} (n : nat) (lo : Z) (body : Z → M S (option A)) : M S (option A) :=
  match n with
  | O => ret None
  | S n' =>
      let* r := body lo in
      match r with Some a => ret (Some a) | None => search n' (lo + 1) body end
  end.

(** A loop that [f] leaves with [inr], run at most [fuel] times.  The bound is
    binary, so that a bound of the size of the address space costs nothing when
    the loop ends early. *)
Fixpoint loop {S A B} (fuel : positive) (f : A → M S (A + B)) (a : A) : M S (A + B) :=
  match fuel with
  | xH => f a
  | xO p =>
      let* r := loop p f a in
      match r with inl a' => loop p f a' | inr b => ret (inr b) end
  | xI p =>
      let* r := f a in
      match r with
      | inl a' =>
          let* r' := loop p f a' in
          match r' with inl a'' => loop p f a'' | inr b => ret (inr b) end
      | inr b => ret (inr b)
      end
  end.

(** Running code of a component on a larger state, through a lens. *)
Definition zoom {S T A} (get : T → S) (put : S → T → T) (m : M S A) : M T A := λ t,
  match m (get t) with
  | Ret a s => Ret a (put s t)
  | Panic why => Panic why
  | Fault => Fault
  | Switch s => Switch (put s t)
  end.

(** ** Memory as a function of the address

    [upd] changes one cell, [patch] the [n] cells from [o] on. *)
Definition upd {A} (f : Z → A) (k : Z) (v : A) : Z → A := λ j, if j =? k then v else f j.

Definition patch (f : Z → Z) (o n : Z) (g : Z → Z) : Z → Z :=
  λ a, if (o <=? a) && (a <? o + n) then g (a - o) else f a.

(** ** Weakest preconditions

    [wp m Q X s]: run from [s], [m] neither panics nor faults; it returns a value
    and state that satisfy [Q], or leaves the kernel in a state that satisfies
    [X].  Termination is built in, [M] being total. *)
Definition wp {S A} (m : M S A) (Q : A → S → Prop) (X : S → Prop) (s : S) : Prop :=
  match m s with
  | Ret a s' => Q a s'
  | Panic _ => False
  | Fault => False
  | Switch s' => X s'
  end.

(** Code that never gives the processor away. *)
Abbreviation wpr m Q := (wp m Q (λ _, False)).

Section wp_rules.
Context {S A B : Type}.
Implicit Types (m : M S A) (f : A → M S B) (s : S) (X : S → Prop).

Lemma wp_ret (a : A) (Q : A → S → Prop) X s : Q a s → wp (ret a) Q X s.
Proof. done. Qed.

Lemma wp_bind m f (Q : B → S → Prop) X s :
  wp m (λ a, wp (f a) Q X) X s → wp (bind m f) Q X s.
Proof. unfold wp, bind. by destruct (m s). Qed.

Lemma wp_gets (g : S → A) (Q : A → S → Prop) X s : Q (g s) s → wp (gets g) Q X s.
Proof. done. Qed.

Lemma wp_modify (g : S → S) (Q : unit → S → Prop) X s :
  Q tt (g s) → wp (modify g) Q X s.
Proof. done. Qed.

Lemma wp_switch (Q : A → S → Prop) X s : X s → wp switch Q X s.
Proof. done. Qed.

Lemma wp_deref (o : option A) (a : A) (Q : A → S → Prop) X s :
  o = Some a → Q a s → wp (deref o) Q X s.
Proof. by intros ->. Qed.

Lemma wp_mono m (Q Q' : A → S → Prop) X X' s :
  wp m Q X s → (∀ a s', Q a s' → Q' a s') → (∀ s', X s' → X' s') → wp m Q' X' s.
Proof. unfold wp. destruct (m s); naive_solver. Qed.

Lemma wp_mono_ret m (Q Q' : A → S → Prop) X s :
  wp m Q X s → (∀ a s', Q a s' → Q' a s') → wp m Q' X s.
Proof. intros H1 H2. by eapply wp_mono. Qed.

Lemma wp_and m (Q Q' : A → S → Prop) X s :
  wp m Q X s → wp m Q' X s → wp m (λ a s', Q a s' ∧ Q' a s') X s.
Proof. unfold wp. destruct (m s); naive_solver. Qed.

Lemma wpr_inv m (Q : A → S → Prop) s :
  wpr m Q s → ∃ a s', m s = Ret a s' ∧ Q a s'.
Proof. unfold wp. destruct (m s); naive_solver. Qed.

Lemma wp_intro m a s' (Q : A → S → Prop) X s : m s = Ret a s' → Q a s' → wp m Q X s.
Proof. unfold wp. by intros ->. Qed.
End wp_rules.

Lemma bind_ret_inv {S A B} (m : M S A) (f : A → M S B) s b s'' :
  bind m f s = Ret b s'' → ∃ a s', m s = Ret a s' ∧ f a s' = Ret b s''.
Proof. unfold bind. destruct (m s); naive_solver. Qed.

Lemma bind_eq {S A B} (m : M S A) (f : A → M S B) s a s' :
  m s = Ret a s' → bind m f s = f a s'.
Proof. unfold bind. by intros ->. Qed.

Lemma wp_massert {S} b (Q : unit → S → Prop) X s :
  b = true → Q tt s → wp (massert b) Q X s.
Proof. by intros ->. Qed.

(** A loop invariant [I i] that holds before iteration [i]. *)
Lemma wp_for_up {S} (I : Z → S → Prop) (n : nat) (lo : Z) body (X : S → Prop) s :
  I lo s →
  (∀ i s, lo ≤ i < lo + Z.of_nat n → I i s → wp (body i) (λ _, I (i + 1)) X s) →
  wp (for_up n lo body) (λ _, I (lo + Z.of_nat n)) X s.
Proof.
  revert lo s; induction n as [|n IH]; intros lo s HI Hstep; cbn [for_up].
  - apply wp_ret. by rewrite Z.add_0_r.
  - apply wp_bind. eapply wp_mono_ret.
    + apply Hstep; [lia|done].
    + intros [] s' HI'. replace (lo + Z.of_nat (Datatypes.S n)) with (lo + 1 + Z.of_nat n) by lia.
      apply IH; [done|]. intros i s'' Hi. apply Hstep. lia.
Qed.

Lemma wp_zoom {S T A} (get : T → S) (put : S → T → T) (m : M S A)
    (Q : A → T → Prop) (X : T → Prop) t :
  wp m (λ a s, Q a (put s t)) (λ s, X (put s t)) (get t) → wp (zoom get put m) Q X t.
Proof. unfold wp, zoom. by destruct (m (get t)). Qed.

(** ** Automation *)
Create HintDb toynix.

(** [lia] modulo [/] and [mod]. *)
Ltac dlia := Z.div_mod_to_equations; lia.

(** Run the wp rules through straight-line code. *)
Ltac wp_step :=
  match goal with
  | |- wp (bind _ _) _ _ _ => apply wp_bind
  | |- wp (ret _) _ _ _ => apply wp_ret
  | |- wp (gets _) _ _ _ => apply wp_gets
  | |- wp (modify _) _ _ _ => apply wp_modify
  | |- wp switch _ _ _ => apply wp_switch
  end.

Ltac wp_steps := repeat (wp_step; cbn beta).

(** Boolean comparisons to propositions. *)
Ltac zbool :=
  repeat match goal with
  | H : (_ && _)%bool = true |- _ => apply andb_prop in H as [? ?]
  | H : (_ =? _) = true |- _ => apply Z.eqb_eq in H
  | H : (_ =? _) = false |- _ => apply Z.eqb_neq in H
  | H : (_ <? _) = true |- _ => apply Z.ltb_lt in H
  | H : (_ <? _) = false |- _ => apply Z.ltb_ge in H
  | H : (_ <=? _) = true |- _ => apply Z.leb_le in H
  | H : (_ <=? _) = false |- _ => apply Z.leb_gt in H
  end.

(** Case analysis on the integer comparisons of the goal. *)
Ltac zcases :=
  repeat match goal with
  | |- context [?a <=? ?b] => destruct (Z.leb_spec a b)
  | |- context [?a <? ?b] => destruct (Z.ltb_spec a b)
  | |- context [?a =? ?b] => destruct (Z.eqb_spec a b)
  end; cbn [andb orb negb].

(** ** Integer lemmas *)
Lemma u32_small x : is_u32 x → u32 x = x.
Proof. intros. by apply Z.mod_small. Qed.

Lemma u32_range x : is_u32 (u32 x).
Proof. unfold is_u32, u32. apply Z.mod_pos_bound. lia. Qed.

Lemma u16_small x : 0 ≤ x < 2 ^ 16 → u16 x = x.
Proof. intros. by apply Z.mod_small. Qed.

Lemma s32_small x : - 2 ^ 31 ≤ x < 2 ^ 31 → s32 x = x.
Proof. intros. unfold s32. rewrite Z.mod_small; lia. Qed.

Lemma ctrue_true x : ctrue x = true ↔ x ≠ 0.
Proof. unfold ctrue. rewrite negb_true_iff, Z.eqb_neq. done. Qed.

Lemma ctrue_false x : ctrue x = false ↔ x = 0.
Proof. unfold ctrue. rewrite negb_false_iff, Z.eqb_eq. done. Qed.

(** Putting the bits of [b] below those of [a]. *)
Lemma lor_shiftl_add a b n :
  0 ≤ n → 0 ≤ b < 2 ^ n → Z.lor (Z.shiftl a n) b = a * 2 ^ n + b.
Proof.
  intros Hn Hb. rewrite <- Z.shiftl_mul_pow2 by done. symmetry.
  rewrite Z.add_nocarry_lxor, Z.lxor_lor; [done| |].
  all: apply Z.bits_inj'; intros i Hi; rewrite Z.land_spec, Z.bits_0.
  all: destruct (Z.lt_ge_cases i n).
  1,3: by rewrite Z.shiftl_spec_low.
  all: rewrite <- (Z.mod_small b (2 ^ n)), Z.mod_pow2_bits_high by lia;
    apply andb_false_r.
Qed.

(** ** Memory lemmas *)
Lemma upd_eq {A} (f : Z → A) k v j : j = k → upd f k v j = v.
Proof. intros ->. unfold upd. by rewrite Z.eqb_refl. Qed.
Lemma upd_ne {A} (f : Z → A) k v j : j ≠ k → upd f k v j = f j.
Proof. intros H. unfold upd. by rewrite (proj2 (Z.eqb_neq _ _) H). Qed.

Lemma patch_out f o n g a : a < o ∨ o + n ≤ a → patch f o n g a = f a.
Proof. intros. unfold patch. zcases; (done || lia). Qed.

Lemma patch_in f o n g i : 0 ≤ i < n → patch f o n g (o + i) = g i.
Proof. intros. unfold patch. zcases; try lia. f_equal. lia. Qed.

#[export] Hint Resolve u32_range : toynix.
