(* ===== verification/Mmu.v ===== *)
(** * The x86 paging macros and the memory layout

    [include/mmu.h], [include/memlayout.h], the rounding macros of
    [include/types.h] and the error codes of [include/error.h].  The second half
    gives the arithmetic meaning of the macros: page number, directory index,
    table index and offset decompose a linear address, and the permission bits
    of an entry do not disturb its frame. *)

From stdpp Require Import base gmap list strings.
From Stdlib Require Import ZArith Lia.
From S2P Require Import Prelude.

(** ** Constants *)
Definition NPDENTRIES : Z := 1024.
Definition NPTENTRIES : Z := 1024.
Definition PGSIZE : Z := 4096.
Definition PGSHIFT : Z := 12.
Definition PTSIZE : Z := PGSIZE * NPTENTRIES.
Definition PTXSHIFT : Z := 12.
Definition PDXSHIFT : Z := 22.

Definition PTE_P : Z := 0x001.
Definition PTE_W : Z := 0x002.
Definition PTE_U : Z := 0x004.
Definition PTE_PWT : Z := 0x008.
Definition PTE_PCD : Z := 0x010.
Definition PTE_D : Z := 0x040.
Definition PTE_PS : Z := 0x080.
Definition PTE_COW : Z := 0x800.
Definition PTE_AVAIL : Z := 0xE00.
Definition PTE_SYSCALL : Z := Z.lor (Z.lor (Z.lor PTE_AVAIL PTE_P) PTE_W) PTE_U.

Definition GD_KT : Z := 0x08.
Definition GD_KD : Z := 0x10.
Definition GD_UT : Z := 0x18.
Definition GD_UD : Z := 0x20.
Definition FL_IF : Z := 0x00000200.
Definition FL_IOPL_MASK : Z := 0x00003000.
Definition FL_IOPL_3 : Z := 0x00003000.

Definition KERNBASE : Z := 0xF0000000.
Definition IOPHYSMEM : Z := 0x0A0000.
Definition EXTPHYSMEM : Z := 0x100000.
Definition KSTACKTOP : Z := KERNBASE.
Definition KSTKSIZE : Z := 8 * PGSIZE.
Definition KSTKGAP : Z := 8 * PGSIZE.
Definition MMIOLIM : Z := KSTACKTOP - PTSIZE.
Definition MMIOBASE : Z := MMIOLIM - PTSIZE.
Definition ULIM : Z := MMIOBASE.
Definition UVPT : Z := ULIM - PTSIZE.
Definition UPAGES : Z := UVPT - PTSIZE.
Definition UENVS : Z := UPAGES - PTSIZE.
Definition UTOP : Z := UENVS.
Definition UXSTACKTOP : Z := UTOP.
Definition USTACKTOP : Z := UTOP - 2 * PGSIZE.
Definition USTKSIZE : Z := 8 * PGSIZE.
Definition MPENTRY_PADDR : Z := 0x7000.

(** Error codes. *)
Definition E_UNSPECIFIED : Z := 1.
Definition E_BAD_ENV : Z := 2.
Definition E_INVAL : Z := 3.
Definition E_NO_MEM : Z := 4.
Definition E_NO_FREE_ENV : Z := 5.
Definition E_FAULT : Z := 6.
Definition E_IPC_NOT_RECV : Z := 7.
Definition E_EOF : Z := 8.
Definition E_NO_DISK : Z := 9.
Definition E_MAX_OPEN : Z := 10.
Definition E_NOT_FOUND : Z := 11.
Definition E_BAD_PATH : Z := 12.
Definition E_FILE_EXISTS : Z := 13.
Definition E_NOT_EXEC : Z := 14.
Definition E_NOT_SUPP : Z := 15.
Definition E_BUSY : Z := 16.
Definition E_BAD_REQ : Z := 17.
Definition MAXERROR : Z := 18.

(** ** Macros *)
Definition PGNUM (la : Z) : Z := Z.shiftr la PTXSHIFT.
Definition PDX (la : Z) : Z := Z.land (Z.shiftr la PDXSHIFT) 0x3FF.
Definition PTX (la : Z) : Z := Z.land (Z.shiftr la PTXSHIFT) 0x3FF.
Definition PGOFF (la : Z) : Z := Z.land la 0xFFF.
Definition PGADDR (d t o : Z) : Z :=
  u32 (Z.lor (Z.lor (Z.shiftl d PDXSHIFT) (Z.shiftl t PTXSHIFT)) o).
Definition PTE_ADDR (pte : Z) : Z := Z.land pte (Z.lnot 0xFFF).

Definition ROUNDDOWN (a n : Z) : Z := u32 a - u32 a mod n.
Definition ROUNDUP (a n : Z) : Z := ROUNDDOWN (u32 a + n - 1) n.

(** ** What the macros compute *)
Lemma PGNUM_div la : PGNUM la = la / 4096.
Proof. unfold PGNUM, PTXSHIFT. by rewrite Z.shiftr_div_pow2 by lia. Qed.

Lemma PDX_div la : PDX la = (la / 2 ^ 22) mod 1024.
Proof.
  unfold PDX, PDXSHIFT. change 0x3FF with (Z.ones 10).
  by rewrite Z.land_ones, Z.shiftr_div_pow2 by lia.
Qed.

Lemma PTX_div la : PTX la = (la / 4096) mod 1024.
Proof.
  unfold PTX, PTXSHIFT. change 0x3FF with (Z.ones 10).
  by rewrite Z.land_ones, Z.shiftr_div_pow2 by lia.
Qed.

Lemma PGOFF_mod la : PGOFF la = la mod 4096.
Proof. unfold PGOFF. change 0xFFF with (Z.ones 12). by rewrite Z.land_ones by lia. Qed.

Lemma PTE_ADDR_div pte : PTE_ADDR pte = pte / 4096 * 4096.
Proof.
  unfold PTE_ADDR. change 0xFFF with (Z.ones 12).
  rewrite <- Z.ldiff_land, Z.ldiff_ones_r by lia.
  by rewrite Z.shiftl_mul_pow2, Z.shiftr_div_pow2 by lia.
Qed.

Lemma PGNUM_PTE_ADDR pte : PGNUM (PTE_ADDR pte) = pte / 4096.
Proof. rewrite PGNUM_div, PTE_ADDR_div, Z.div_mul; lia. Qed.

Lemma PDX_range la : 0 ≤ PDX la < 1024.
Proof. rewrite PDX_div. apply Z.mod_pos_bound. lia. Qed.

Lemma PTX_range la : 0 ≤ PTX la < 1024.
Proof. rewrite PTX_div. apply Z.mod_pos_bound. lia. Qed.

Lemma PDX_small la : is_u32 la → PDX la = la / 2 ^ 22.
Proof. intros [? ?]. rewrite PDX_div, Z.mod_small; [done|]. dlia. Qed.

(** The page number splits into directory and table index. *)
Lemma PGNUM_split la : is_u32 la → PGNUM la = PDX la * 1024 + PTX la.
Proof. intros ?. rewrite PGNUM_div, PDX_small, PTX_div by done. dlia. Qed.

Lemma page_index_inj va va' :
  is_u32 va → is_u32 va' → PDX va = PDX va' → PTX va = PTX va' → PGNUM va = PGNUM va'.
Proof. intros. rewrite !PGNUM_split by done. congruence. Qed.

(** [va] lies below [UTOP] exactly when its directory index does. *)
Lemma PDX_lt_UTOP va : is_u32 va → PDX va < PDX UTOP ↔ va < UTOP.
Proof.
  intros H. rewrite PDX_small by done. change (PDX UTOP) with (UTOP / 2 ^ 22).
  destruct H. change UTOP with (955 * 2 ^ 22). dlia.
Qed.

(** [PGADDR] rebuilds the address its indices came from. *)
Lemma PGADDR_sum d t o :
  0 ≤ d < 1024 → 0 ≤ t < 1024 → 0 ≤ o < 4096 →
  PGADDR d t o = d * 2 ^ 22 + t * 4096 + o.
Proof.
  intros. unfold PGADDR, PDXSHIFT, PTXSHIFT.
  replace (Z.shiftl d 22) with (Z.shiftl (Z.shiftl d 10) 12)
    by (rewrite Z.shiftl_shiftl by lia; done).
  rewrite <- Z.shiftl_lor, (lor_shiftl_add d t 10) by lia.
  rewrite lor_shiftl_add by lia. rewrite u32_small; unfold is_u32; lia.
Qed.

Lemma PDX_PGADDR d t o :
  0 ≤ d < 1024 → 0 ≤ t < 1024 → 0 ≤ o < 4096 → PDX (PGADDR d t o) = d.
Proof. intros. rewrite PGADDR_sum, PDX_div by done. dlia. Qed.

Lemma PTX_PGADDR d t o :
  0 ≤ d < 1024 → 0 ≤ t < 1024 → 0 ≤ o < 4096 → PTX (PGADDR d t o) = t.
Proof. intros. rewrite PGADDR_sum, PTX_div by done. dlia. Qed.

Lemma PGADDR_u32 d t o : is_u32 (PGADDR d t o).
Proof. apply u32_range. Qed.

Lemma ROUNDDOWN_page a : is_u32 a → ROUNDDOWN a PGSIZE = a / 4096 * 4096.
Proof. intros. unfold ROUNDDOWN. rewrite u32_small by done. unfold PGSIZE. dlia. Qed.

Lemma ROUNDUP_page a :
  0 ≤ a ≤ 2 ^ 32 - 4096 → ROUNDUP a PGSIZE = (a + 4095) / 4096 * 4096.
Proof.
  intros. unfold ROUNDUP. rewrite (u32_small a) by (unfold is_u32; lia).
  unfold PGSIZE. rewrite ROUNDDOWN_page by (unfold is_u32; lia). f_equal. f_equal. lia.
Qed.

(** ** Entries

    A permission word below 4096 joined to a page-aligned frame address leaves
    the frame readable from the entry. *)
Lemma lor_small a b n : 0 ≤ n → 0 ≤ a < 2 ^ n → 0 ≤ b < 2 ^ n → 0 ≤ Z.lor a b < 2 ^ n.
Proof.
  intros Hn Ha Hb. enough (Z.lor a b mod 2 ^ n = Z.lor a b) as <-.
  { apply Z.mod_pos_bound. lia. }
  apply Z.bits_inj'. intros i Hi. rewrite Z.testbit_mod_pow2 by done.
  destruct (Z.ltb_spec i n); [done|].
  rewrite <- (Z.mod_small a (2 ^ n)), <- (Z.mod_small b (2 ^ n)) by done.
  by rewrite Z.lor_spec, !Z.mod_pow2_bits_high by lia.
Qed.

Lemma entry_frame p perm :
  0 ≤ perm < 4096 → Z.lor (Z.shiftl p PGSHIFT) perm / 4096 = p.
Proof. intros. unfold PGSHIFT. rewrite lor_shiftl_add by lia. dlia. Qed.

Lemma land_lor_bit a b k : Z.land (Z.lor a b) k = Z.lor (Z.land a k) (Z.land b k).
Proof. apply Z.land_lor_distr_l. Qed.

(** Or-ing permission bits into an entry keeps its frame. *)
Lemma lor_frame x perm : 0 ≤ perm < 4096 → Z.lor x perm / 4096 = x / 4096.
Proof.
  intros. rewrite <- !(Z.shiftr_div_pow2 _ 12) by lia.
  rewrite Z.shiftr_lor. replace (Z.shiftr perm 12) with 0; [apply Z.lor_0_r|].
  rewrite Z.shiftr_div_pow2 by lia. dlia.
Qed.

(** The present bit survives or-ing and is what [ctrue] tests. *)
Definition present (e : Z) : bool := ctrue (Z.land e PTE_P).

Lemma present_odd e : present e = Z.odd e.
Proof.
  unfold present, PTE_P, ctrue. change 1 with (Z.ones 1).
  rewrite Z.land_ones, Zmod_odd by lia. by destruct (Z.odd e).
Qed.

Lemma present_lor a b : present (Z.lor a b) = present a || present b.
Proof. rewrite !present_odd, <- !Z.bit0_odd. apply Z.lor_spec. Qed.

Lemma present_0 : present 0 = false.
Proof. done. Qed.

#[export] Hint Resolve PDX_range PTX_range PGADDR_u32 : toynix.
