(* ===== verification/Pmap.v ===== *)
(** * Physical pages and page tables ([kernel/pmap.c], [include/kernel/pmap.h])

    State: the [pages] array with its free list threaded through [pp_link], the
    contents of physical memory as 32-bit words by page frame, the boot
    allocator's and the MMIO allocator's static variables, and the two pieces of
    hardware the code drives, [%cr3] and the TLB.

    Pointers.  A [struct PageInfo *] is the index of the page; [NULL] is [None].
    The kernel virtual address of a page-aligned physical address is represented
    by the frame number ([page2kva], [KADDR], [env_pgdir], [kern_pgdir]), and a
    [pte_t *] by the pair of a frame and a word index in it. *)

From stdpp Require Import base gmap list strings.
From Stdlib Require Import ZArith Lia.
From S2P Require Import Prelude Mmu.

(** ** State *)
Record PageInfo := MkPageInfo {
  pp_link : option Z;   (* next page on the free list *)
  pp_ref : Z            (* uint16_t *)
}.

Record memst := MkMem {
  npages : Z;
  npages_basemem : Z;
  pages : gmap Z PageInfo;
  page_free_list : option Z;
  frames : gmap Z (gmap Z Z);
  nextfree : Z;                 (* static in boot_alloc, 0 for NULL *)
  kern_pgdir : Z;
  mmio_base : Z;                (* static base in mmio_map_region *)
  user_mem_check_addr : Z;
  cr3 : Z;                      (* frame of the directory in use *)
  cr4 : Z;
  cr0 : Z;
  tlb : gmap Z Z                (* page number to cached entry *)
}.

Definition set_npages (x y : Z) (m : memst) : memst :=
  MkMem x y (pages m) (page_free_list m) (frames m) (nextfree m) (kern_pgdir m)
    (mmio_base m) (user_mem_check_addr m) (cr3 m) (cr4 m) (cr0 m) (tlb m).
Definition set_pages (x : gmap Z PageInfo) (m : memst) : memst :=
  MkMem (npages m) (npages_basemem m) x (page_free_list m) (frames m) (nextfree m)
    (kern_pgdir m) (mmio_base m) (user_mem_check_addr m) (cr3 m) (cr4 m) (cr0 m) (tlb m).
Definition set_page_free_list (x : option Z) (m : memst) : memst :=
  MkMem (npages m) (npages_basemem m) (pages m) x (frames m) (nextfree m)
    (kern_pgdir m) (mmio_base m) (user_mem_check_addr m) (cr3 m) (cr4 m) (cr0 m) (tlb m).
Definition set_frames (x : gmap Z (gmap Z Z)) (m : memst) : memst :=
  MkMem (npages m) (npages_basemem m) (pages m) (page_free_list m) x (nextfree m)
    (kern_pgdir m) (mmio_base m) (user_mem_check_addr m) (cr3 m) (cr4 m) (cr0 m) (tlb m).
Definition set_nextfree (x : Z) (m : memst) : memst :=
  MkMem (npages m) (npages_basemem m) (pages m) (page_free_list m) (frames m) x
    (kern_pgdir m) (mmio_base m) (user_mem_check_addr m) (cr3 m) (cr4 m) (cr0 m) (tlb m).
Definition set_mmio_base (x : Z) (m : memst) : memst :=
  MkMem (npages m) (npages_basemem m) (pages m) (page_free_list m) (frames m)
    (nextfree m) (kern_pgdir m) x (user_mem_check_addr m) (cr3 m) (cr4 m) (cr0 m) (tlb m).
Definition set_user_mem_check_addr (x : Z) (m : memst) : memst :=
  MkMem (npages m) (npages_basemem m) (pages m) (page_free_list m) (frames m)
    (nextfree m) (kern_pgdir m) (mmio_base m) x (cr3 m) (cr4 m) (cr0 m) (tlb m).
Definition set_cr3 (x : Z) (m : memst) : memst :=
  MkMem (npages m) (npages_basemem m) (pages m) (page_free_list m) (frames m)
    (nextfree m) (kern_pgdir m) (mmio_base m) (user_mem_check_addr m) x (cr4 m) (cr0 m) (tlb m).
Definition set_cr4 (x : Z) (m : memst) : memst :=
  MkMem (npages m) (npages_basemem m) (pages m) (page_free_list m) (frames m)
    (nextfree m) (kern_pgdir m) (mmio_base m) (user_mem_check_addr m) (cr3 m) x (cr0 m) (tlb m).
Definition set_cr0 (x : Z) (m : memst) : memst :=
  MkMem (npages m) (npages_basemem m) (pages m) (page_free_list m) (frames m)
    (nextfree m) (kern_pgdir m) (mmio_base m) (user_mem_check_addr m) (cr3 m) (cr4 m) x (tlb m).
Definition set_kern_pgdir (x : Z) (m : memst) : memst :=
  MkMem (npages m) (npages_basemem m) (pages m) (page_free_list m) (frames m)
    (nextfree m) x (mmio_base m) (user_mem_check_addr m) (cr3 m) (cr4 m) (cr0 m) (tlb m).
Definition set_tlb (x : gmap Z Z) (m : memst) : memst :=
  MkMem (npages m) (npages_basemem m) (pages m) (page_free_list m) (frames m)
    (nextfree m) (kern_pgdir m) (mmio_base m) (user_mem_check_addr m) (cr3 m) (cr4 m) (cr0 m) x.

(** Words of physical memory; a word never written reads as 0. *)
Definition rd (m : memst) (f i : Z) : Z := default 0 (default ∅ (frames m !! f) !! i).
Definition wr (f i v : Z) (m : memst) : memst :=
  set_frames (<[f := <[i := v]> (default ∅ (frames m !! f))]> (frames m)) m.

(** [memset(page2kva(pp), 0, PGSIZE)]. *)
Definition zero_frame (f : Z) (m : memst) : memst := set_frames (<[f := ∅]> (frames m)) m.

Definition ptr := (Z * Z)%type.
Definition load (p : ptr) : M memst Z := gets (λ m, rd m p.1 p.2).
Definition store (p : ptr) (v : Z) : M memst unit := modify (wr p.1 p.2 v).

Definition page_at (p : Z) : M memst PageInfo := λ m, deref (pages m !! p) m.
Definition set_page (p : Z) (pi : PageInfo) : M memst unit :=
  modify (λ m, set_pages (<[p := pi]> (pages m)) m).

(** ** Hardware: loading [%cr3] empties the TLB, [invlpg] drops one entry. *)
Definition lcr3 (d : Z) : M memst unit := modify (λ m, set_tlb ∅ (set_cr3 d m)).
Definition invlpg (va : Z) : M memst unit :=
  modify (λ m, set_tlb (delete (PGNUM va) (tlb m)) m).

(** An access by the processor, in kernel mode with [CR0_WP] set, to [va]: the
    cached translation when there is one, else a walk of the directory in [%cr3]
    that fills the cache.  A missing translation, or a write through a read-only
    one, is a page fault in the kernel. *)
Definition mmu_entry (va : Z) : M memst Z :=
  let* t := gets tlb in
  match t !! PGNUM va with
  | Some e => ret e
  | None =>
      let* d := gets cr3 in
      let* pde := load (d, PDX va) in
      if negb (ctrue (Z.land pde PTE_P)) then fault else
      let* e := load (PGNUM pde, PTX va) in
      if negb (ctrue (Z.land e PTE_P)) then fault else
      do* modify (λ m, set_tlb (<[PGNUM va := e]> (tlb m)) m) in
      ret e
  end.

(** Byte [k] of a little-endian word, and the word with that byte replaced. *)
Definition get_byte (w k : Z) : Z := Z.land (Z.shiftr w (8 * k)) 0xFF.
Definition put_byte (w k b : Z) : Z :=
  Z.lor (Z.ldiff w (Z.shiftl 0xFF (8 * k))) (Z.shiftl b (8 * k)).

Definition va_load8 (va : Z) : M memst Z :=
  let* e := mmu_entry va in
  let* w := load (PGNUM e, PGOFF va / 4) in
  ret (get_byte w (va mod 4)).
Definition va_store8 (va b : Z) : M memst unit :=
  let* e := mmu_entry va in
  if negb (ctrue (Z.land e PTE_W)) then fault else
  let* w := load (PGNUM e, PGOFF va / 4) in
  store (PGNUM e, PGOFF va / 4) (put_byte w (va mod 4) b).

(** Little-endian words, at any alignment. *)
Definition va_load32 (va : Z) : M memst Z :=
  let* b0 := va_load8 va in
  let* b1 := va_load8 (u32 (va + 1)) in
  let* b2 := va_load8 (u32 (va + 2)) in
  let* b3 := va_load8 (u32 (va + 3)) in
  ret (b0 + 2 ^ 8 * b1 + 2 ^ 16 * b2 + 2 ^ 24 * b3).
Definition va_store32 (va v : Z) : M memst unit :=
  for_up 4 0 (λ k, va_store8 (u32 (va + k)) (get_byte v k)).

(** ** Address conversions *)
Definition PADDR (kva : Z) : Z := u32 (Z.shiftl kva PGSHIFT).
Definition KADDR (pa : Z) : M memst Z :=
  let* n := gets npages in
  if n <=? PGNUM pa then panic "KADDR called with invalid pa" else ret (PGNUM pa).
Definition page2pa (pp : Z) : Z := u32 (Z.shiftl pp PGSHIFT).
Definition pa2page (pa : Z) : M memst Z :=
  let* n := gets npages in
  if n <=? PGNUM pa then panic "pa2page called with invalid pa" else ret (PGNUM pa).
Definition page2kva (pp : Z) : M memst Z := KADDR (page2pa pp).

(** ** Memory detection: [cmos r] is the byte register [r] of the clock chip
    returns ([mc146818_read]). *)
Definition OS_MAX_MEMORY : Z := 256 * 1024.
Definition NVRAM_BASELO : Z := 0x15.
Definition NVRAM_EXTLO : Z := 0x17.
Definition NVRAM_EXT16LO : Z := 0x34.

Definition nvram_read (cmos : Z → Z) (r : Z) : Z :=
  Z.lor (cmos r) (Z.shiftl (cmos (r + 1)) 8).

Definition i386_detect_memory (cmos : Z → Z) : M memst unit :=
  let basemem := nvram_read cmos NVRAM_BASELO in
  let extmem := nvram_read cmos NVRAM_EXTLO in
  let ext16mem := u32 (nvram_read cmos NVRAM_EXT16LO * 64) in
  let totalmem :=
    if ctrue ext16mem then u32 (16 * 1024 + ext16mem)
    else if ctrue extmem then u32 (1 * 1024 + extmem)
    else basemem in
  let totalmem := if OS_MAX_MEMORY <? totalmem then OS_MAX_MEMORY else totalmem in
  modify (set_npages (totalmem / (PGSIZE / 1024)) (basemem / (PGSIZE / 1024))).

(** ** The boot allocator; [kend] is the linker symbol [end]. *)
Definition boot_alloc (kend n : Z) : M memst Z :=
  let* nf0 := gets nextfree in
  let nf := if nf0 =? 0 then ROUNDUP kend PGSIZE else nf0 in
  let temp := nf in
  let alloc_size := ROUNDUP n PGSIZE in
  let nf' := u32 (nf + alloc_size) in
  do* modify (set_nextfree nf') in
  let* np := gets npages in
  if u32 (np * PGSIZE) <? u32 (nf' - KERNBASE) then panic "Out of memory"
  else ret temp.

(** ** The page allocator *)
Definition ALLOC_ZERO : Z := 1.

Definition page_init_body (nbase iohole_pgnum allocated_pgnum i : Z) : M memst unit :=
  let* pi := page_at i in
  if (i =? 0) || (i =? PGNUM MPENTRY_PADDR) then
    set_page i (MkPageInfo (pp_link pi) 1)
  else if (nbase <=? i) && (i <? nbase + iohole_pgnum + allocated_pgnum) then
    set_page i (MkPageInfo (pp_link pi) 1)
  else
    let* fl := gets page_free_list in
    do* set_page i (MkPageInfo fl (pp_ref pi)) in
    modify (set_page_free_list (Some i)).

Definition page_init (kend : Z) : M memst unit :=
  let* b := boot_alloc kend 0 in
  let allocated_pgnum := PGNUM (u32 (b - KERNBASE)) in
  let iohole_pgnum := PGNUM (EXTPHYSMEM - IOPHYSMEM) in
  let* np := gets npages in
  let* nbase := gets npages_basemem in
  for_up (Z.to_nat np) 0 (page_init_body nbase iohole_pgnum allocated_pgnum).

Definition page_alloc (alloc_flags : Z) : M memst (option Z) :=
  let* fl := gets page_free_list in
  match fl with
  | None => ret None
  | Some pp =>
      let* pi := page_at pp in
      do* modify (set_page_free_list (pp_link pi)) in
      do* set_page pp (MkPageInfo None (pp_ref pi)) in
      do* (if ctrue (Z.land alloc_flags ALLOC_ZERO) then
             let* kva := page2kva pp in modify (zero_frame kva)
           else ret tt) in
      ret (Some pp)
  end.

Definition page_free (pp : Z) : M memst unit :=
  let* pi := page_at pp in
  if negb (ctrue (pp_ref pi)) && negb (bool_decide (is_Some (pp_link pi))) then
    let* fl := gets page_free_list in
    do* set_page pp (MkPageInfo fl (pp_ref pi)) in
    modify (set_page_free_list (Some pp))
  else if ctrue (pp_ref pi) then panic "Busy page"
  else panic "Free twice".

Definition page_decref (pp : Z) : M memst unit :=
  let* pi := page_at pp in
  let r := u16 (pp_ref pi - 1) in
  do* set_page pp (MkPageInfo (pp_link pi) r) in
  if r =? 0 then page_free pp else ret tt.

(** [pp->pp_ref++] *)
Definition page_incref (pp : option Z) : M memst unit :=
  let* p := deref pp in
  let* pi := page_at p in
  set_page p (MkPageInfo (pp_link pi) (u16 (pp_ref pi + 1))).

(** ** Page tables *)
Definition pgdir_walk (pgdir va : Z) (create : bool) : M memst (option ptr) :=
  let pd_off := PDX va in
  let pt_off := PTX va in
  let* pde := load (pgdir, pd_off) in
  if negb (ctrue (Z.land pde PTE_P)) then
    if negb create then ret None else
    let* new_page := page_alloc ALLOC_ZERO in
    match new_page with
    | None => ret None
    | Some np =>
        do* store (pgdir, pd_off)
              (Z.lor (Z.lor (Z.lor (page2pa np) PTE_P) PTE_W) PTE_U) in
        do* page_incref (Some np) in
        let* pde' := load (pgdir, pd_off) in
        let* pt := KADDR (PTE_ADDR pde') in
        ret (Some (pt, pt_off))
    end
  else
    let* pt := KADDR (PTE_ADDR pde) in
    ret (Some (pt, pt_off)).

Definition boot_map_region (pgdir va size pa perm : Z) : M memst unit :=
  for_up (Z.to_nat (ROUNDUP size PGSIZE / PGSIZE)) 0 (λ i,
    let* pt_entry := pgdir_walk pgdir (u32 (va + i * PGSIZE)) true in
    let* e := deref pt_entry in
    store e (Z.lor (Z.lor (PTE_ADDR (u32 (pa + i * PGSIZE))) PTE_P) perm)).

Definition CR4_PSE : Z := 0x10.

Definition enable_cr4_pse : M memst unit :=
  modify (λ m, set_cr4 (Z.lor (cr4 m) CR4_PSE) m).

Definition boot_map_region_by_hugepage (pgdir va size pa perm : Z) : M memst unit :=
  do* enable_cr4_pse in
  for_up (Z.to_nat (Z.shiftr size PDXSHIFT)) 0 (λ i,
    store (pgdir, PDX (u32 (va + i * PTSIZE)))
      (Z.lor (Z.lor (Z.lor (u32 (pa + i * PTSIZE)) PTE_P) PTE_PS) perm)).

(** The page mapped at [va] and, when there is one, the address of its entry. *)
Definition page_lookup (pgdir va : Z) : M memst (option (Z * ptr)) :=
  let* pt_entry := pgdir_walk pgdir va false in
  match pt_entry with
  | None => ret None
  | Some p =>
      let* e := load p in
      if negb (ctrue (Z.land e PTE_P)) then ret None else
      let* pp := pa2page (PTE_ADDR e) in
      ret (Some (pp, p))
  end.

Section with_curenv.
(** [curenv->env_pgdir], [None] when there is no current environment. *)
Context (cur_pgdir : option Z).

Definition tlb_invalidate (pgdir va : Z) : M memst unit :=
  if bool_decide (cur_pgdir = None) || bool_decide (cur_pgdir = Some pgdir)
  then invlpg va else ret tt.

Definition page_remove (pgdir va : Z) : M memst unit :=
  let* r := page_lookup pgdir va in
  match r with
  | None => ret tt
  | Some (page, pt_entry) =>
      do* page_decref page in
      do* store pt_entry 0 in
      tlb_invalidate pgdir va
  end.

(** The part of [page_insert] before the label [out]: which page the entry [e]
    will point to, the old mapping removed and the new reference counted. *)
Definition page_insert_ref (pgdir : Z) (pp : option Z) (va e : Z) : M memst (option Z) :=
  if ctrue (Z.land e PTE_P) then
    let* q := page_lookup pgdir va in
    match pp with
    | None => ret (fst <$> q)                     (* remap perm *)
    | Some p =>
        if bool_decide (fst <$> q = Some p) then ret (Some p) else
        do* page_remove pgdir va in
        do* page_incref (Some p) in
        ret (Some p)
    end
  else
    do* page_incref pp in ret pp.

Definition page_insert (pgdir : Z) (pp : option Z) (va perm : Z) : M memst Z :=
  let* w := pgdir_walk pgdir va true in
  match w with
  | None => ret (- E_NO_MEM)
  | Some pt_entry =>
      let* e := load pt_entry in
      let* pp' := page_insert_ref pgdir pp va e in
      let* p := deref pp' in
      do* store pt_entry (Z.lor (Z.lor (page2pa p) PTE_P) perm) in
      let* pde := load (pgdir, PDX va) in
      do* store (pgdir, PDX va) (Z.lor pde (Z.lor perm PTE_P)) in
      ret 0
  end.
End with_curenv.

Definition mmio_map_region (pa size : Z) : M memst Z :=
  let* va := gets mmio_base in
  let size := ROUNDUP size PGSIZE in
  let base := u32 (va + size) in
  do* modify (set_mmio_base base) in
  if MMIOLIM <=? base then panic "overflow MMIOLIM" else
  let* kd := gets kern_pgdir in
  do* boot_map_region kd va size pa (Z.lor (Z.lor PTE_PCD PTE_PWT) PTE_W) in
  ret va.

(** ** User memory *)

(** The loop of [user_mem_check]; it stops at the first page that fails a test,
    [Some start], or at the end, [None].  [fuel] bounds the number of pages. *)
Fixpoint user_mem_check_loop (fuel : nat) (pgdir start end_ perm : Z)
    : M memst (option Z) :=
  if end_ <=? start then ret None else
  match fuel with
  | O => fault
  | S fuel' =>
      let* cur_pte := pgdir_walk pgdir start false in
      match cur_pte with
      | None => ret (Some start)
      | Some p =>
          let* e := load p in
          if negb (ctrue (Z.land e PTE_P)) then ret (Some start)
          else if negb (Z.land e perm =? perm) then ret (Some start)
          else if ULIM <=? start then ret (Some start)
          else user_mem_check_loop fuel' pgdir (u32 (start + PGSIZE)) end_ perm
      end
  end.

(** One more than the number of pages of the address space. *)
Definition user_mem_fuel : nat := Z.to_nat (2 ^ 20 + 1).

Definition user_mem_check (env_pgdir va len perm : Z) : M memst Z :=
  let perm := Z.lor perm PTE_P in
  let end0 := u32 (va + len) in
  let start := if ctrue (Z.land va (PGSIZE - 1)) then ROUNDDOWN va PGSIZE else va in
  let end_ := if ctrue (Z.land end0 (PGSIZE - 1)) then ROUNDUP end0 PGSIZE else end0 in
  let* r := user_mem_check_loop user_mem_fuel env_pgdir start end_ perm in
  match r with
  | None => ret 0
  | Some bad =>
      do* modify (set_user_mem_check_addr
                    (if bad =? ROUNDDOWN va PGSIZE then va else bad)) in
      ret (- E_FAULT)
  end.

(** The physical address behind [va] in the current address space, [None] for
    the error return. *)
Definition user_mem_phy_addr (cur_dir va : Z) : M memst (option Z) :=
  let* pp := page_lookup cur_dir va in
  match pp with
  | None => ret None
  | Some (p, _) => ret (Some (Z.lor (page2pa p) (PGOFF va)))
  end.
