(* ===== verification/PmapInv.v ===== *)
(** * The reference-count invariant of [kernel/pmap.c]

    What makes the page code correct: every physical page knows exactly how many
    page-table entries, directory entries and page directories refer to it, free
    pages are referred to by nobody and are exactly the pages threaded on
    [page_free_list], and the frames that hold page tables and directories are
    referred to once, so no write to a table can change another address space.

    This file defines the reference sites of a set of address spaces, counts
    them, states the invariant [mm_inv] and shows what each elementary update of
    the state does to it.  [PmapOps.v] lifts this to the operations. *)

From stdpp Require Import base gmap list strings.
From Stdlib Require Import ZArith Lia.
From S2P Require Import Prelude Mmu Pmap.

Set Default Proof Using "Type".

(** ** Reading and writing memory *)
Lemma rd_wr f i v f' i' m :
  rd (wr f i v m) f' i' = if decide (f = f' ∧ i = i') then v else rd m f' i'.
Proof.
  unfold rd, wr; cbn. destruct (decide (f = f')) as [<-|Hf].
  - rewrite lookup_insert_eq; cbn. destruct (decide (i = i')) as [<-|Hi].
    + rewrite lookup_insert_eq. by rewrite decide_True.
    + rewrite lookup_insert_ne by done. by rewrite decide_False by naive_solver.
  - rewrite lookup_insert_ne by done. by rewrite decide_False by naive_solver.
Qed.

Lemma rd_wr_eq f i v m : rd (wr f i v m) f i = v.
Proof. rewrite rd_wr. by rewrite decide_True. Qed.

Lemma rd_wr_ne f i v f' i' m : f ≠ f' ∨ i ≠ i' → rd (wr f i v m) f' i' = rd m f' i'.
Proof. intros. rewrite rd_wr. rewrite decide_False; naive_solver. Qed.

Lemma rd_wr_pair f i v f' i' m : (f', i') ≠ (f, i) → rd (wr f i v m) f' i' = rd m f' i'.
Proof. intros Hne. rewrite rd_wr, decide_False; [done|]. by intros [-> ->]. Qed.

Lemma rd_zero_frame f f' i m :
  rd (zero_frame f m) f' i = if decide (f = f') then 0 else rd m f' i.
Proof.
  unfold rd, zero_frame; cbn. destruct (decide (f = f')) as [<-|Hf].
  - by rewrite lookup_insert_eq.
  - by rewrite lookup_insert_ne.
Qed.

(** ** The free list as a chain of [pp_link]s *)
Fixpoint free_chain (pg : gmap Z PageInfo) (head : option Z) (l : list Z) : Prop :=
  match l with
  | [] => head = None
  | p :: l' => head = Some p ∧ ∃ pi, pg !! p = Some pi ∧ free_chain pg (pp_link pi) l'
  end.

Lemma free_chain_ext pg pg' head l :
  (∀ p, p ∈ l → pg' !! p = pg !! p) → free_chain pg head l → free_chain pg' head l.
Proof.
  revert head. induction l as [|p l IH]; intros head Hext; cbn; [done|].
  intros [-> (pi & Hp & Hc)]. split; [done|]. exists pi. split.
  - rewrite Hext; [done|]. left.
  - apply IH; [|done]. intros. apply Hext. by right.
Qed.

Lemma free_chain_insert pg p pi head l :
  p ∉ l → free_chain pg head l → free_chain (<[p := pi]> pg) head l.
Proof.
  intros Hp. apply free_chain_ext. intros q Hq. apply lookup_insert_ne. by intros ->.
Qed.

Lemma free_chain_det pg head l l' :
  free_chain pg head l → free_chain pg head l' → l = l'.
Proof.
  revert head l'. induction l as [|p l IH]; intros head [|p' l']; cbn; naive_solver.
Qed.

Lemma free_chain_lookup pg head l p :
  free_chain pg head l → p ∈ l → is_Some (pg !! p).
Proof.
  revert head. induction l as [|q l IH]; intros head; [by rewrite elem_of_nil|].
  intros [-> (pi & Hq & Hc)] [->|Hp]%elem_of_cons; eauto.
Qed.

Lemma free_chain_head pg h l : free_chain pg h l → h = head l.
Proof. destruct l; cbn; naive_solver. Qed.

(** ** Reference sites

    [SDir d]: directory [d] itself, held by its environment; [STab d i]: entry
    [i] of directory [d]; [SPage d i j]: entry [j] of the table there. *)
Inductive site :=
| SDir (d : Z)
| STab (d i : Z)
| SPage (d i j : Z).

#[export] Instance site_eq_dec : EqDecision site.
Proof. solve_decision. Defined.

(** Directory entries below [UTOP]; the rest is the kernel's, shared by all. *)
Definition NUSER : Z := PDX UTOP.

Definition frame_of (e : Z) : option Z := if present e then Some (e / 4096) else None.

Definition target (m : memst) (s : site) : option Z :=
  match s with
  | SDir d => Some d
  | STab d i => frame_of (rd m d i)
  | SPage d i j =>
      match frame_of (rd m d i) with
      | None => None
      | Some t => frame_of (rd m t j)
      end
  end.

Definition is_table_site (s : site) : bool :=
  match s with SPage _ _ _ => false | _ => true end.

Definition table_sites (d i : Z) : list site :=
  STab d i :: (SPage d i <$> seqZ 0 1024).

Definition dir_sites (d : Z) : list site :=
  SDir d :: (seqZ 0 NUSER ≫= table_sites d).

Definition sites (D : list Z) : list site := D ≫= dir_sites.

Definition refs (D : list Z) (m : memst) (p : Z) : Z :=
  Z.of_nat (length (filter (λ s, target m s = Some p) (sites D))).

Definition site_dir (s : site) : Z :=
  match s with SDir d => d | STab d _ => d | SPage d _ _ => d end.

Definition site_wf (s : site) : Prop :=
  match s with
  | SDir _ => True
  | STab _ i => 0 ≤ i < NUSER
  | SPage _ i j => 0 ≤ i < NUSER ∧ 0 ≤ j < 1024
  end.

Lemma elem_of_table_sites d i s :
  s ∈ table_sites d i ↔ s = STab d i ∨ ∃ j, s = SPage d i j ∧ 0 ≤ j < 1024.
Proof.
  unfold table_sites. rewrite elem_of_cons, list_elem_of_fmap.
  by setoid_rewrite elem_of_seqZ.
Qed.

Lemma elem_of_dir_sites d s : s ∈ dir_sites d ↔ site_dir s = d ∧ site_wf s.
Proof.
  unfold dir_sites. rewrite elem_of_cons, list_elem_of_bind.
  setoid_rewrite elem_of_table_sites. setoid_rewrite elem_of_seqZ.
  split.
  - intros [->|(i & [->|(j & -> & ?)] & ?)]; cbn; repeat split; lia.
  - destruct s as [d'|d' i|d' i j]; cbn; [by left; intros; destruct_and?; subst|..].
    + intros [-> Hi]. right. exists i. split; [by left|lia].
    + intros [-> [Hi Hj]]. right. exists i. split; [right; by exists j|lia].
Qed.

Lemma elem_of_sites D s : s ∈ sites D ↔ site_dir s ∈ D ∧ site_wf s.
Proof.
  unfold sites. rewrite list_elem_of_bind. setoid_rewrite elem_of_dir_sites. naive_solver.
Qed.

Lemma NoDup_dir_sites d : NoDup (dir_sites d).
Proof.
  apply NoDup_cons. split.
  - rewrite list_elem_of_bind. setoid_rewrite elem_of_table_sites.
    intros (i & [[=]|(j & [=] & _)] & _).
  - apply NoDup_bind.
    + intros i1 i2 s _ _. rewrite !elem_of_table_sites.
      intros [->|(j & -> & _)] [[=]|(j' & [=] & _)]; done.
    + intros i _. apply NoDup_cons. split; [rewrite list_elem_of_fmap; naive_solver|].
      apply NoDup_fmap_2; [|apply NoDup_seqZ]. intros ?? [=]; done.
    + apply NoDup_seqZ.
Qed.

Lemma NoDup_sites D : NoDup D → NoDup (sites D).
Proof.
  intros HD. apply NoDup_bind; [|intros; apply NoDup_dir_sites|done].
  intros d1 d2 s _ _. rewrite !elem_of_dir_sites. naive_solver.
Qed.

(** ** Counting *)
Definition ind (P : Prop) `{Decision P} : Z := if decide P then 1 else 0.

Lemma ind_range P `{Decision P} : 0 ≤ ind P ≤ 1.
Proof. unfold ind. case_decide; lia. Qed.

Lemma ind_true P `{Decision P} : P → ind P = 1.
Proof. intros. unfold ind. by rewrite decide_True. Qed.

Lemma ind_false P `{Decision P} : ¬ P → ind P = 0.
Proof. intros. unfold ind. by rewrite decide_False. Qed.

Lemma filter_length_ext {A} (P Q : A → Prop) `{∀ x, Decision (P x)} `{∀ x, Decision (Q x)}
    (l : list A) :
  (∀ x, x ∈ l → P x ↔ Q x) → length (filter P l) = length (filter Q l).
Proof.
  induction l as [|x l IH]; intros Hl; [done|].
  rewrite !filter_cons. assert (P x ↔ Q x) by (apply Hl; left).
  assert (length (filter P l) = length (filter Q l)) by (apply IH; intros; apply Hl; by right).
  repeat case_decide; cbn; naive_solver lia.
Qed.

(** Changing the target of one site. *)
Lemma refs_update D m m' s0 p :
  NoDup D → s0 ∈ sites D →
  (∀ s, s ∈ sites D → s ≠ s0 → target m' s = target m s) →
  refs D m' p =
    refs D m p - ind (target m s0 = Some p) + ind (target m' s0 = Some p).
Proof.
  intros HD Hin Hoth. pose proof (NoDup_sites D HD) as Hnd. unfold refs.
  apply list_elem_of_split in Hin as (l1 & l2 & Heq). rewrite Heq in *.
  apply NoDup_app in Hnd as (_ & Hl1 & Hnd). apply NoDup_cons in Hnd as [Hl2 _].
  assert (∀ l, l ⊆ l1 ++ l2 → length (filter (λ s, target m' s = Some p) l) =
    length (filter (λ s, target m s = Some p) l)) as Hl.
  { intros l Hsub. apply filter_length_ext. intros s Hs. rewrite Hoth; [done|set_solver|].
    intros ->. set_solver. }
  pose proof (Hl l1 ltac:(set_solver)). pose proof (Hl l2 ltac:(set_solver)).
  rewrite !filter_app, !length_app, !filter_cons.
  unfold ind. repeat case_decide; cbn [length]; lia.
Qed.

Lemma refs_same D m m' p :
  (∀ s, s ∈ sites D → target m' s = target m s) → refs D m' p = refs D m p.
Proof.
  intros H. unfold refs. f_equal. apply filter_length_ext. intros s Hs. by rewrite H.
Qed.

Lemma refs_nonneg D m p : 0 ≤ refs D m p.
Proof. unfold refs. lia. Qed.

Lemma refs_pos D m p s : s ∈ sites D → target m s = Some p → 1 ≤ refs D m p.
Proof.
  intros Hs Ht. unfold refs.
  assert (s ∈ filter (λ s, target m s = Some p) (sites D)) as Hf
    by by apply list_elem_of_filter.
  destruct (filter _ _); [by apply elem_of_nil in Hf|]. cbn. lia.
Qed.

Lemma refs_zero D m p s : refs D m p = 0 → s ∈ sites D → target m s ≠ Some p.
Proof. intros H Hs Ht. pose proof (refs_pos _ _ _ _ Hs Ht). lia. Qed.

(** A page with one reference has one site. *)
Lemma refs_one D m p s s' :
  refs D m p = 1 → s ∈ sites D → s' ∈ sites D →
  target m s = Some p → target m s' = Some p → s = s'.
Proof.
  unfold refs. intros H1 Hs Hs' Ht Ht'.
  assert (s ∈ filter (λ s, target m s = Some p) (sites D)) as Hf
    by by apply list_elem_of_filter.
  assert (s' ∈ filter (λ s, target m s = Some p) (sites D)) as Hf'
    by by apply list_elem_of_filter.
  destruct (filter _ _) as [|x [|y l]]; cbn in H1; try lia.
  apply list_elem_of_singleton in Hf, Hf'. congruence.
Qed.

(** ** The invariant

    [D] lists the page directories in use (one per environment), [R p] is the
    number of references the boot code keeps to page [p] for good, [fl] is the
    free list. *)
Record mm_inv (D : list Z) (R : Z → Z) (fl : list Z) (m : memst) : Prop := MkInv {
  inv_np : 0 < npages m ≤ 2 ^ 16;
  inv_dom : ∀ p, is_Some (pages m !! p) ↔ 0 ≤ p < npages m;
  inv_dirs : NoDup D;
  inv_R : ∀ p, 0 ≤ R p;
  inv_chain : free_chain (pages m) (page_free_list m) fl;
  inv_nodup : NoDup fl;
  inv_free : ∀ p, p ∈ fl → refs D m p = 0 ∧ R p = 0;
  inv_link : ∀ p pi, pages m !! p = Some pi → p ∉ fl → pp_link pi = None;
  inv_ref : ∀ p pi, pages m !! p = Some pi →
    pp_ref pi = refs D m p + R p ∧ pp_ref pi < 2 ^ 16;
  inv_target : ∀ s p, s ∈ sites D → target m s = Some p → 0 ≤ p < npages m;
  inv_table : ∀ s t, s ∈ sites D → is_table_site s = true → target m s = Some t →
    refs D m t = 1 ∧ R t = 0
}.

(** Frames that hold a directory or a table of one of the address spaces. *)
Definition is_table (D : list Z) (m : memst) (f : Z) : Prop :=
  ∃ s, s ∈ sites D ∧ is_table_site s = true ∧ target m s = Some f.

Section site_facts.
Context (D : list Z).
Implicit Types (m : memst) (fl : list Z).

Lemma sdir_in d : d ∈ D → SDir d ∈ sites D.
Proof. intros. by apply elem_of_sites. Qed.

Lemma stab_in d i : d ∈ D → 0 ≤ i < NUSER → STab d i ∈ sites D.
Proof. intros. by apply elem_of_sites. Qed.

Lemma spage_in d i j : d ∈ D → 0 ≤ i < NUSER → 0 ≤ j < 1024 → SPage d i j ∈ sites D.
Proof. intros. by apply elem_of_sites. Qed.

Lemma spage_stab d i j : SPage d i j ∈ sites D → STab d i ∈ sites D ∧ SDir d ∈ sites D.
Proof. rewrite !elem_of_sites. cbn. tauto. Qed.

Lemma stab_sdir d i : STab d i ∈ sites D → SDir d ∈ sites D.
Proof. rewrite !elem_of_sites. cbn. tauto. Qed.

(** Targets only depend on the words of table frames. *)
Lemma target_agree m m' :
  (∀ f, is_table D m f → ∀ i, rd m' f i = rd m f i) →
  ∀ s, s ∈ sites D → target m' s = target m s.
Proof.
  intros Hrd [d|d i|d i j] Hs; cbn; [done|..].
  - rewrite Hrd; [done|]. exists (SDir d). eauto using stab_sdir.
  - destruct (spage_stab _ _ _ Hs) as [Ht Hd].
    rewrite Hrd by (by exists (SDir d)).
    destruct (frame_of (rd m d i)) as [t|] eqn:E; [|done].
    rewrite Hrd; [done|]. by exists (STab d i).
Qed.

Lemma dir_is_table m d : d ∈ D → is_table D m d.
Proof. intros. exists (SDir d). auto using sdir_in. Qed.
End site_facts.

(** *** Taking a page off the free list *)
Definition alloc_st (zero : bool) (p : Z) (fl : list Z) (m : memst) : memst :=
  let m1 := set_pages (<[p := MkPageInfo None 0]> (pages m))
              (set_page_free_list (head fl) m) in
  if zero then zero_frame p m1 else m1.

Lemma rd_alloc_st zero p fl m f i :
  rd (alloc_st zero p fl m) f i = if decide (zero = true ∧ p = f) then 0 else rd m f i.
Proof.
  unfold alloc_st. destruct zero.
  - rewrite rd_zero_frame. repeat case_decide; tauto.
  - by rewrite decide_False by (intros [[=] _]).
Qed.

(** *** Returning a page to the free list *)
Definition free_st (p : Z) (m : memst) : memst :=
  set_page_free_list (Some p)
    (set_pages (<[p := MkPageInfo (page_free_list m) 0]> (pages m)) m).

Section inv.
Context (D : list Z) (R : Z → Z).
Implicit Types (m : memst) (fl : list Z).

Lemma table_refs fl m f : mm_inv D R fl m → is_table D m f → refs D m f = 1 ∧ R f = 0.
Proof. intros Hinv (s & ? & ? & ?). by eapply inv_table. Qed.

Lemma free_not_table fl m p : mm_inv D R fl m → p ∈ fl → ¬ is_table D m p.
Proof.
  intros Hinv Hp Ht. apply (table_refs fl) in Ht as [? _]; [|done].
  destruct (inv_free _ _ _ _ Hinv p Hp). lia.
Qed.

(** The invariant only looks at the page array, the free list and the targets. *)
Lemma mm_inv_targets fl m m' :
  mm_inv D R fl m →
  npages m' = npages m → pages m' = pages m → page_free_list m' = page_free_list m →
  (∀ s, s ∈ sites D → target m' s = target m s) →
  mm_inv D R fl m'.
Proof.
  intros [] En Ep Ef Ht.
  assert (∀ p, refs D m' p = refs D m p) as Er by (intros; by apply refs_same).
  split; rewrite ?En, ?Ep, ?Ef; auto.
  - intros. rewrite Er. auto.
  - intros. rewrite Er. auto.
  - intros s p Hs. rewrite Ht by done. eauto.
  - intros s t Hs. rewrite Ht, Er by done. eauto.
Qed.

(** A write outside the tables is invisible to it. *)
Lemma mm_inv_rd fl m m' :
  mm_inv D R fl m →
  npages m' = npages m → pages m' = pages m → page_free_list m' = page_free_list m →
  (∀ f, is_table D m f → ∀ i, rd m' f i = rd m f i) →
  mm_inv D R fl m'.
Proof. intros ????? . eapply mm_inv_targets; eauto using target_agree. Qed.

Lemma alloc_target zero p fl m s :
  mm_inv D R (p :: fl) m → s ∈ sites D → target (alloc_st zero p fl m) s = target m s.
Proof.
  intros Hinv. apply target_agree. intros f Hf i. rewrite rd_alloc_st.
  rewrite decide_False; [done|]. intros [_ ->].
  by apply (free_not_table _ _ _ Hinv) in Hf; [|left].
Qed.

Lemma free_page_info fl m p :
  mm_inv D R fl m → p ∈ fl → ∃ pi, pages m !! p = Some pi ∧ pp_ref pi = 0.
Proof.
  intros Hinv Hp. destruct (inv_free _ _ _ _ Hinv p Hp) as [H0 HR].
  destruct (free_chain_lookup _ _ _ p (inv_chain _ _ _ _ Hinv) Hp) as [pi Hpi].
  exists pi. split; [done|]. destruct (inv_ref _ _ _ _ Hinv p pi Hpi). lia.
Qed.

Lemma alloc_st_inv zero p fl m :
  mm_inv D R (p :: fl) m → mm_inv D R fl (alloc_st zero p fl m).
Proof.
  intros Hinv.
  assert (∀ s, s ∈ sites D → target (alloc_st zero p fl m) s = target m s) as Ht
    by (intros; by apply alloc_target).
  assert (∀ q, refs D (alloc_st zero p fl m) q = refs D m q) as Er
    by (intros; by apply refs_same).
  destruct (free_page_info _ _ p Hinv) as (pi & Hpi & Href); [left|].
  assert (p ∉ fl ∧ NoDup fl) as [Hp Hnd] by (apply NoDup_cons, (inv_nodup _ _ _ _ Hinv)).
  assert (npages (alloc_st zero p fl m) = npages m) as En by by destruct zero.
  assert (pages (alloc_st zero p fl m) = <[p := MkPageInfo None 0]> (pages m)) as Ep
    by by destruct zero.
  assert (page_free_list (alloc_st zero p fl m) = head fl) as Ef by by destruct zero.
  pose proof (inv_chain _ _ _ _ Hinv) as [Hh (pi' & Hpi' & Hc)].
  destruct Hinv. split; rewrite ?En, ?Ep, ?Ef; auto.
  - intros q. destruct (decide (p = q)) as [->|Hne].
    + rewrite lookup_insert_eq. rewrite <- inv_dom0. naive_solver.
    + by rewrite lookup_insert_ne.
  - apply free_chain_insert; [done|]. by rewrite <- (free_chain_head _ _ _ Hc).
  - intros q Hq. rewrite Er. apply inv_free0. by right.
  - intros q qi Hq Hqfl. destruct (decide (p = q)) as [<-|Hne].
    + rewrite lookup_insert_eq in Hq. by injection Hq as <-.
    + rewrite lookup_insert_ne in Hq by done. apply (inv_link0 q); [done|]. set_solver.
  - intros q qi Hq. rewrite Er. destruct (decide (p = q)) as [<-|Hne].
    + rewrite lookup_insert_eq in Hq. injection Hq as <-. cbn.
      destruct (inv_ref0 p pi Hpi). lia.
    + rewrite lookup_insert_ne in Hq by done. by apply inv_ref0.
  - intros s q Hs. rewrite Ht by done. by apply inv_target0.
  - intros s t Hs. rewrite Ht, Er by done. by apply inv_table0.
Qed.

Lemma free_st_inv fl m p pi :
  mm_inv D R fl m → p ∉ fl → pages m !! p = Some pi → pp_ref pi = 0 →
  mm_inv D R (p :: fl) (free_st p m).
Proof.
  intros Hinv Hp Hpi Href. destruct (inv_ref _ _ _ _ Hinv p pi Hpi) as [Hr _].
  pose proof (refs_nonneg D m p). pose proof (inv_R _ _ _ _ Hinv p).
  destruct Hinv. split; cbn [free_st npages pages page_free_list set_pages set_page_free_list]; auto.
  - intros q. destruct (decide (p = q)) as [->|Hne].
    + rewrite lookup_insert_eq, <- inv_dom0. naive_solver.
    + by rewrite lookup_insert_ne.
  - split; [done|]. exists (MkPageInfo (page_free_list m) 0).
    rewrite lookup_insert_eq. split; [done|]. by apply free_chain_insert.
  - by apply NoDup_cons.
  - intros q [->|Hq]%elem_of_cons; [|by apply inv_free0].
    change (refs D m p = 0 ∧ R p = 0). lia.
  - intros q qi Hq Hqfl. rewrite lookup_insert_ne in Hq by set_solver.
    apply (inv_link0 q); [done|set_solver].
  - intros q qi Hq. change (refs D (free_st p m) q) with (refs D m q).
    destruct (decide (p = q)) as [<-|Hne].
    + rewrite lookup_insert_eq in Hq. injection Hq as <-. cbn. lia.
    + rewrite lookup_insert_ne in Hq by done. by apply inv_ref0.
Qed.

(** *** Changing one reference

    Site [s0] starts or stops referring to page [p], whose count follows. *)
Lemma mm_inv_update fl m m' s0 p pi r :
  mm_inv D R fl m →
  pages m !! p = Some pi → p ∉ fl →
  s0 ∈ sites D →
  (∀ s, s ∈ sites D → s ≠ s0 → target m' s = target m s) →
  npages m' = npages m → page_free_list m' = page_free_list m →
  pages m' = <[p := MkPageInfo None r]> (pages m) →
  (target m s0 = None ∧ target m' s0 = Some p ∧ r = pp_ref pi + 1 ∧ r < 2 ^ 16 ∧
     (if is_table_site s0 then pp_ref pi = 0 else ¬ is_table D m p)
   ∨ target m s0 = Some p ∧ target m' s0 = None ∧ r = pp_ref pi - 1) →
  mm_inv D R fl m'.
Proof.
  intros Hinv Hpi Hp Hs0 Hoth En Ef Ep Hcase.
  destruct (inv_ref _ _ _ _ Hinv p pi Hpi) as [Hr Hr16].
  pose proof (refs_nonneg D m p) as Hnn. pose proof (inv_R _ _ _ _ Hinv p) as HRp.
  assert (∀ q, refs D m' q = refs D m q - ind (target m s0 = Some q)
                             + ind (target m' s0 = Some q)) as Er.
  { intros q. apply refs_update; auto. apply (inv_dirs _ _ _ _ Hinv). }
  assert (∀ q, q ≠ p → refs D m' q = refs D m q) as Erne.
  { intros q Hq. rewrite Er, !ind_false by naive_solver. lia. }
  assert (refs D m' p + R p = r ∧ 0 ≤ r < 2 ^ 16) as [Erp Hr0].
  { rewrite Er. unfold ind. destruct Hcase as [(E & E' & -> & ? & _)|(E & E' & ->)].
    - rewrite decide_False, decide_True by congruence. lia.
    - rewrite decide_True, decide_False by congruence.
      pose proof (refs_pos D m p s0 Hs0 E). lia. }
  assert (0 ≤ p < npages m) as Hrange by (apply (inv_dom _ _ _ _ Hinv); eauto).
  pose proof Hinv as []. split; rewrite ?En, ?Ef, ?Ep; auto.
  - intros q. destruct (decide (p = q)) as [->|Hne].
    + rewrite lookup_insert_eq, <- inv_dom0. naive_solver.
    + by rewrite lookup_insert_ne.
  - by apply free_chain_insert.
  - intros q Hq. rewrite Erne by (by intros ->). auto.
  - intros q qi Hq Hqfl. destruct (decide (p = q)) as [<-|Hne].
    + rewrite lookup_insert_eq in Hq. by injection Hq as <-.
    + rewrite lookup_insert_ne in Hq by done. eauto.
  - intros q qi Hq. destruct (decide (p = q)) as [<-|Hne].
    + rewrite lookup_insert_eq in Hq. injection Hq as <-. cbn. lia.
    + rewrite lookup_insert_ne in Hq by done. rewrite Erne by done. auto.
  - intros s q Hs. destruct (decide (s = s0)) as [->|Hne].
    + intros Ht. replace q with p by naive_solver. done.
    + rewrite Hoth by done. eauto.
  - intros s t Hs Htab. destruct (decide (s = s0)) as [->|Hne].
    + intros Ht. destruct Hcase as [(E & Ht' & -> & _ & Hc)|(_ & ? & _)]; [|congruence].
      rewrite Htab in Hc. rewrite Ht' in Ht. injection Ht as <-. lia.
    + rewrite Hoth by done. intros Ht.
      destruct (inv_table0 s t Hs Htab Ht) as [H1 HR].
      rewrite Erne; [done|]. intros ->.
      destruct Hcase as [(E & Ht' & -> & _ & Hc)|(E & _ & _)].
      * destruct (is_table_site s0); [lia|]. apply Hc. by exists s.
      * apply Hne. by eapply refs_one.
Qed.

(** *** Writing table entries *)
Section writes.
Context (fl : list Z) (m : memst) (Hinv : mm_inv D R fl m).

(** Two table sites with the same frame are the same site. *)
Lemma table_site_inj s s' t :
  s ∈ sites D → s' ∈ sites D → is_table_site s = true →
  target m s = Some t → target m s' = Some t → s = s'.
Proof using Type*.
  intros ??? Ht ?. eapply refs_one; eauto.
  by destruct (inv_table _ _ _ _ Hinv s t).
Qed.

Lemma target_wr_pte d i j t e :
  SPage d i j ∈ sites D → target m (STab d i) = Some t →
  target (wr t j e m) (SPage d i j) = frame_of e ∧
  ∀ s, s ∈ sites D → s ≠ SPage d i j → target (wr t j e m) s = target m s.
Proof using Type*.
  intros Hin Ht. destruct (spage_stab _ _ _ _ Hin) as [Htab Hdir].
  assert (∀ d', SDir d' ∈ sites D → t ≠ d') as Hnd.
  { intros d' Hd' ->. discriminate (table_site_inj (STab d i) (SDir d') d'); auto. }
  split.
  - cbn in *. rewrite rd_wr_ne by auto. rewrite Ht. by rewrite rd_wr_eq.
  - intros [d'|d' i'|d' i' j'] Hs Hne; [done|..]; cbn.
    + rewrite rd_wr_ne; [done|]. left. apply Hnd. by eapply stab_sdir.
    + destruct (spage_stab _ _ _ _ Hs) as [Htab' Hdir'].
      rewrite rd_wr_ne by auto.
      destruct (frame_of (rd m d' i')) as [t'|] eqn:E'; [|done].
      rewrite rd_wr_ne; [done|]. destruct (decide (t = t')) as [<-|]; [|by left].
      right. assert (STab d i = STab d' i') by by eapply table_site_inj. naive_solver.
Qed.

Lemma target_wr_pde d i e :
  STab d i ∈ sites D →
  target (wr d i e m) (STab d i) = frame_of e ∧
  ∀ s, s ∈ sites D → s ≠ STab d i → (∀ j, s ≠ SPage d i j) →
    target (wr d i e m) s = target m s.
Proof using Type*.
  intros Hin. pose proof (stab_sdir _ _ _ Hin) as Hdir. split; [cbn; by rewrite rd_wr_eq|].
  intros [d'|d' i'|d' i' j'] Hs Hne Hnp; [done|..]; cbn.
  - rewrite rd_wr_ne; [done|]. destruct (decide (d = d')) as [<-|]; [|by left].
    right. by intros ->.
  - destruct (spage_stab _ _ _ _ Hs) as [Htab' Hdir'].
    rewrite rd_wr_ne.
    2:{ destruct (decide (d = d')) as [<-|]; [|by left]. right. intros ->. by apply (Hnp j'). }
    destruct (frame_of (rd m d' i')) as [t'|] eqn:E'; [|done].
    rewrite rd_wr_ne; [done|]. left. intros <-.
    discriminate (table_site_inj (STab d' i') (SDir d) d); auto.
Qed.

(** Or-ing permission bits into a directory entry changes no target. *)
Lemma target_or_pde d i perm s :
  STab d i ∈ sites D → present (rd m d i) = true → 0 ≤ perm < 4096 → s ∈ sites D →
  target (wr d i (Z.lor (rd m d i) perm) m) s = target m s.
Proof using Type*.
  intros Hin Hpres Hperm Hs. destruct (target_wr_pde d i (Z.lor (rd m d i) perm) Hin) as [Hself Hoth].
  assert (frame_of (Z.lor (rd m d i) perm) = frame_of (rd m d i)) as Hf.
  { unfold frame_of. by rewrite present_lor, Hpres, lor_frame by done. }
  destruct (decide (s = STab d i)) as [->|Hne]; [by rewrite Hself, Hf|].
  destruct s as [d'|d' i'|d' i' j']; [done|by apply Hoth|].
  destruct (decide (d' = d ∧ i' = i)) as [[-> ->]|Hdi]; [|apply Hoth; naive_solver].
  cbn. rewrite rd_wr_eq, Hf. destruct (frame_of (rd m d i)) as [t|] eqn:E; [|done].
  rewrite rd_wr_ne; [done|]. left. intros <-. pose proof (stab_sdir _ _ _ Hin).
  discriminate (table_site_inj (STab d i) (SDir d) d); auto.
Qed.
End writes.
End inv.
