(* ===== verification/PmapOps.v ===== *)
(** * The page operations preserve the invariant and implement address spaces

    Specifications of [page_alloc], [page_free], [page_decref], [pgdir_walk],
    [page_lookup], [page_remove] and [page_insert] on states that satisfy
    [mm_inv].  An address space is abstractly a partial map from (directory
    index, table index) to entries, [pte_of]; [page_lookup] reads it,
    [page_insert] updates one point of it and [page_remove] removes one. *)

From stdpp Require Import base gmap list strings.
From Stdlib Require Import ZArith Lia.
From S2P Require Import Prelude Mmu Pmap PmapInv.

Set Default Proof Using "Type".

(** ** Address arithmetic *)
Lemma page2pa_small p : 0 ≤ p < 2 ^ 20 → page2pa p = Z.shiftl p PGSHIFT.
Proof.
  intros. unfold page2pa, PGSHIFT. rewrite Z.shiftl_mul_pow2 by lia.
  apply u32_small. unfold is_u32. lia.
Qed.

Lemma PGNUM_page2pa p : 0 ≤ p < 2 ^ 20 → PGNUM (page2pa p) = p.
Proof.
  intros. rewrite page2pa_small, PGNUM_div by done. unfold PGSHIFT.
  rewrite Z.shiftl_mul_pow2 by lia. dlia.
Qed.

(** The entry [page_insert] stores. *)
Definition mk_pte (p perm : Z) : Z := Z.lor (Z.lor (page2pa p) PTE_P) perm.

Lemma mk_pte_frame p perm : 0 ≤ p < 2 ^ 20 → 0 ≤ perm < 4096 → mk_pte p perm / 4096 = p.
Proof.
  intros. unfold mk_pte. rewrite page2pa_small by done.
  rewrite lor_frame by done. rewrite entry_frame; [done|]. unfold PTE_P. lia.
Qed.

Lemma mk_pte_present p perm : present (mk_pte p perm) = true.
Proof. unfold mk_pte. rewrite !present_lor. by rewrite orb_true_r. Qed.

Lemma frame_of_mk_pte p perm :
  0 ≤ p < 2 ^ 20 → 0 ≤ perm < 4096 → frame_of (mk_pte p perm) = Some p.
Proof. intros. unfold frame_of. by rewrite mk_pte_present, mk_pte_frame. Qed.

Lemma frame_of_present e t : frame_of e = Some t → present e = true ∧ t = e / 4096.
Proof. unfold frame_of. destruct (present e); naive_solver. Qed.

(** ** Address spaces *)
Definition pte_of (m : memst) (d i j : Z) : option Z :=
  match frame_of (rd m d i) with
  | None => None
  | Some t => let e := rd m t j in if present e then Some e else None
  end.

Lemma target_pte_of m d i j : target m (SPage d i j) = (λ e, e / 4096) <$> pte_of m d i j.
Proof.
  cbn. unfold pte_of. destruct (frame_of (rd m d i)); [|done].
  unfold frame_of. by destruct (present _).
Qed.

Lemma pte_of_ext m m' d i j :
  (∀ f k, rd m f k = rd m' f k) → pte_of m d i j = pte_of m' d i j.
Proof. intros H. unfold pte_of. rewrite H. destruct (frame_of _); [|done]. by rewrite H. Qed.

(** [m'] is [m] with the entry of [(d, i, j)] replaced by [o], in every address
    space of [D]. *)
Definition pte_upd (D : list Z) (m m' : memst) (d i j : Z) (o : option Z) : Prop :=
  ∀ d' i' j', SPage d' i' j' ∈ sites D →
    pte_of m' d' i' j' = if decide ((d', i', j') = (d, i, j)) then o else pte_of m d' i' j'.

Definition pte_same (D : list Z) (m m' : memst) : Prop :=
  ∀ d i j, SPage d i j ∈ sites D → pte_of m' d i j = pte_of m d i j.

(** Entries only depend on the words of table frames. *)
Lemma pte_same_tables D m m' :
  (∀ f, is_table D m f → ∀ i, rd m' f i = rd m f i) → pte_same D m m'.
Proof.
  intros Hrd d i j Hs. destruct (spage_stab _ _ _ _ Hs) as [Ht Hd]. unfold pte_of.
  rewrite Hrd by (by exists (SDir d)).
  destruct (frame_of (rd m d i)) as [t|] eqn:E; [|done].
  rewrite Hrd; [done|]. by exists (STab d i).
Qed.

(** Fields the page operations never touch. *)
Definition same_static (m m' : memst) : Prop :=
  npages m' = npages m ∧ npages_basemem m' = npages_basemem m ∧
  nextfree m' = nextfree m ∧ kern_pgdir m' = kern_pgdir m ∧ mmio_base m' = mmio_base m ∧
  user_mem_check_addr m' = user_mem_check_addr m ∧ cr3 m' = cr3 m ∧ cr4 m' = cr4 m ∧
  cr0 m' = cr0 m.

Lemma same_static_refl m : same_static m m.
Proof. done. Qed.

Lemma same_static_trans m1 m2 m3 : same_static m1 m2 → same_static m2 m3 → same_static m1 m3.
Proof. unfold same_static. intuition congruence. Qed.

#[export] Hint Resolve same_static_refl : toynix.

(** Words outside the tables and the free pages are not written. *)
Definition data_same (D : list Z) (fl : list Z) (m m' : memst) : Prop :=
  ∀ f i, f ∉ fl → ¬ is_table D m f → rd m' f i = rd m f i.

(** ** The walk, read-only *)
Lemma KADDR_ok m pa : PGNUM pa < npages m → KADDR pa m = Ret (PGNUM pa) m.
Proof. intros. unfold KADDR, bind, gets. by destruct (Z.leb_spec (npages m) (PGNUM pa)); [lia|]. Qed.

Lemma pa2page_ok m pa : PGNUM pa < npages m → pa2page pa m = Ret (PGNUM pa) m.
Proof. intros. unfold pa2page, bind, gets. by destruct (Z.leb_spec (npages m) (PGNUM pa)); [lia|]. Qed.

Lemma pgdir_walk_false m d va :
  (∀ t, frame_of (rd m d (PDX va)) = Some t → t < npages m) →
  pgdir_walk d va false m = Ret ((λ t, (t, PTX va)) <$> frame_of (rd m d (PDX va))) m.
Proof.
  intros Hb. unfold pgdir_walk, load, gets, bind; cbn -[KADDR PDX PTX PTE_ADDR].
  change (ctrue (Z.land (rd m d (PDX va)) PTE_P)) with (present (rd m d (PDX va))).
  unfold frame_of in *. destruct (present (rd m d (PDX va))); cbn -[KADDR PDX PTX PTE_ADDR]; [|done].
  rewrite KADDR_ok; rewrite PGNUM_PTE_ADDR; [done|]. auto.
Qed.

(** The present case does not depend on [create]. *)
Lemma pgdir_walk_present m d va create t :
  frame_of (rd m d (PDX va)) = Some t → t < npages m →
  pgdir_walk d va create m = Ret (Some (t, PTX va)) m.
Proof.
  intros Hf Ht. unfold pgdir_walk, load, gets, bind; cbn -[KADDR PDX PTX PTE_ADDR].
  change (ctrue (Z.land (rd m d (PDX va)) PTE_P)) with (present (rd m d (PDX va))).
  apply frame_of_present in Hf as [-> ->]. cbn -[KADDR PDX PTX PTE_ADDR].
  rewrite KADDR_ok; by rewrite PGNUM_PTE_ADDR.
Qed.

Lemma page_lookup_eq m d va :
  (∀ t, frame_of (rd m d (PDX va)) = Some t → t < npages m) →
  (∀ e, pte_of m d (PDX va) (PTX va) = Some e → e / 4096 < npages m) →
  page_lookup d va m =
    Ret (match frame_of (rd m d (PDX va)) with
         | None => None
         | Some t => (λ p, (p, (t, PTX va))) <$> frame_of (rd m t (PTX va))
         end) m.
Proof.
  intros Hb Hb2. unfold page_lookup, bind at 1. rewrite pgdir_walk_false by done.
  unfold pte_of in Hb2. destruct (frame_of (rd m d (PDX va))) as [t|]; [|done].
  unfold load, gets, bind; cbn -[pa2page PTE_ADDR PTX].
  change (ctrue (Z.land (rd m t (PTX va)) PTE_P)) with (present (rd m t (PTX va))).
  unfold frame_of in *. destruct (present (rd m t (PTX va))); cbn -[pa2page PTE_ADDR PTX]; [|done].
  rewrite pa2page_ok; rewrite PGNUM_PTE_ADDR; [done|]. auto.
Qed.

Lemma tlb_invalidate_eq cur d va m :
  tlb_invalidate cur d va m =
    Ret tt (if decide (cur = None ∨ cur = Some d)
            then set_tlb (delete (PGNUM va) (tlb m)) m else m).
Proof. unfold tlb_invalidate. repeat case_bool_decide; case_decide; naive_solver. Qed.

(** ** The allocator *)
Section ops.
Context (D : list Z) (R : Z → Z).
Implicit Types (m : memst) (fl : list Z).

Lemma page_range fl m p : mm_inv D R fl m → is_Some (pages m !! p) → 0 ≤ p < 2 ^ 20.
Proof.
  intros Hinv Hp. apply (inv_dom _ _ _ _ Hinv) in Hp. pose proof (inv_np _ _ _ _ Hinv). lia.
Qed.

Lemma page_alloc_eq fl m flags :
  mm_inv D R fl m →
  page_alloc flags m =
    match fl with
    | [] => Ret None m
    | p :: fl' => Ret (Some p) (alloc_st (ctrue (Z.land flags ALLOC_ZERO)) p fl' m)
    end.
Proof.
  intros Hinv. pose proof (inv_chain _ _ _ _ Hinv) as Hc. unfold page_alloc, bind, gets.
  destruct fl as [|p fl']; cbn in Hc; [by rewrite Hc|].
  destruct Hc as [-> (pi & Hpi & Hc)].
  destruct (free_page_info _ _ _ _ p Hinv) as (pi' & Hpi' & Href); [left|].
  rewrite Hpi in Hpi'. injection Hpi' as <-.
  unfold page_at. rewrite Hpi; cbn -[page2kva]. rewrite Href, (free_chain_head _ _ _ Hc).
  unfold alloc_st. destruct (ctrue _); [|done].
  unfold page2kva, bind. assert (0 ≤ p < 2 ^ 20) by (eapply page_range; eauto).
  rewrite KADDR_ok; rewrite PGNUM_page2pa by done; [done|].
  cbn. by apply (inv_dom _ _ _ _ Hinv).
Qed.

Lemma page_free_eq fl m p pi :
  pages m !! p = Some pi → pp_ref pi = 0 → pp_link pi = None →
  page_free p m = Ret tt (free_st p m).
Proof.
  intros Hpi Href Hl. unfold page_free, bind, page_at, gets. rewrite Hpi; cbn.
  by rewrite Href, Hl.
Qed.

(** The count drops by one; the last reference returns the page. *)
Definition decref_st (p : Z) (pi : PageInfo) (m : memst) : memst :=
  let m1 := set_pages (<[p := MkPageInfo None (pp_ref pi - 1)]> (pages m)) m in
  if pp_ref pi - 1 =? 0 then free_st p m1 else m1.

Lemma page_decref_eq m p pi :
  pages m !! p = Some pi → 1 ≤ pp_ref pi < 2 ^ 16 → pp_link pi = None →
  page_decref p m = Ret tt (decref_st p pi m).
Proof.
  intros Hpi Href Hl. unfold page_decref, bind, page_at. rewrite Hpi; cbn -[page_free].
  rewrite Hl, u16_small by lia. unfold decref_st.
  destruct (Z.eqb_spec (pp_ref pi - 1) 0) as [E|E]; [|done].
  erewrite page_free_eq; [done|exact []|cbn; by rewrite lookup_insert_eq|done|done].
Qed.

(** ** Unmapping *)
Lemma target_bound fl m d i t :
  mm_inv D R fl m → d ∈ D → 0 ≤ i < NUSER → frame_of (rd m d i) = Some t → t < npages m.
Proof.
  intros Hinv Hd Hi Ht.
  apply (inv_target _ _ _ _ Hinv (STab d i) t); [by apply stab_in|done].
Qed.

Lemma pte_bound fl m d i j e :
  mm_inv D R fl m → SPage d i j ∈ sites D → pte_of m d i j = Some e → 0 ≤ e / 4096 < npages m.
Proof.
  intros Hinv Hs He. apply (inv_target _ _ _ _ Hinv (SPage d i j)); [done|].
  by rewrite target_pte_of, He.
Qed.

Lemma user_sites d va :
  d ∈ D → is_u32 va → va < UTOP → SPage d (PDX va) (PTX va) ∈ sites D.
Proof.
  intros. apply spage_in; [done| |auto with toynix].
  split; [apply PDX_range|]. by apply PDX_lt_UTOP.
Qed.

Lemma pte_of_wr_pte fl m d i j t e :
  mm_inv D R fl m → SPage d i j ∈ sites D → frame_of (rd m d i) = Some t →
  pte_upd D m (wr t j e m) d i j (if present e then Some e else None) ∧
  (∀ d' i', d' ∈ D → rd (wr t j e m) d' i' = rd m d' i').
Proof.
  intros Hinv Hs Ht. destruct (spage_stab _ _ _ _ Hs) as [Htab _].
  assert (∀ d' i', d' ∈ D → rd (wr t j e m) d' i' = rd m d' i') as Hdir.
  { intros d' i' Hd'. apply rd_wr_ne. left. intros ->.
    discriminate (table_site_inj D R fl m Hinv (STab d i) (SDir d') d'); auto using sdir_in. }
  split; [|done]. intros d' i' j' Hs'. unfold pte_of.
  assert (d' ∈ D) as Hd' by (by apply elem_of_sites in Hs' as [? _]).
  rewrite Hdir by done. destruct (decide _) as [[= -> -> ->]|Hne].
  - by rewrite Ht, rd_wr_eq.
  - destruct (frame_of (rd m d' i')) as [t'|] eqn:E; [|done].
    rewrite rd_wr_ne; [done|]. destruct (decide (t = t')) as [<-|]; [right|by left].
    destruct (spage_stab _ _ _ _ Hs') as [Htab' _].
    assert (STab d i = STab d' i') by (by eapply table_site_inj). congruence.
Qed.

(** What [page_remove] leaves behind. *)
Record removed (cur : option Z) fl m (d va : Z) m' fl' : Prop := MkRemoved {
  rm_inv : mm_inv D R fl' m';
  rm_pte : pte_upd D m m' d (PDX va) (PTX va) None;
  rm_fl : fl' = match pte_of m d (PDX va) (PTX va) with
                | None => fl
                | Some e => if decide (refs D m (e / 4096) + R (e / 4096) = 1)
                            then e / 4096 :: fl else fl
                end;
  rm_dirs : ∀ d' i, d' ∈ D → rd m' d' i = rd m d' i;
  rm_data : data_same D [] m m';
  rm_static : same_static m m';
  rm_tlb : tlb m' =
    if decide (pte_of m d (PDX va) (PTX va) = None) then tlb m
    else if decide (cur = None ∨ cur = Some d) then delete (PGNUM va) (tlb m) else tlb m
}.

Lemma removed_none cur fl m d va :
  mm_inv D R fl m → pte_of m d (PDX va) (PTX va) = None → removed cur fl m d va m fl.
Proof.
  intros Hinv E. split; rewrite ?E; auto with toynix; [|done].
  intros d' i' j' _. case_decide; naive_solver.
Qed.

(** The state of [page_remove] after the entry is cleared. *)
Lemma decref_clear_inv fl m d i j t e pi :
  mm_inv D R fl m → SPage d i j ∈ sites D → frame_of (rd m d i) = Some t →
  pte_of m d i j = Some e → pages m !! (e / 4096) = Some pi →
  mm_inv D R (if decide (pp_ref pi = 1) then e / 4096 :: fl else fl)
    (wr t j 0 (decref_st (e / 4096) pi m)).
Proof.
  intros Hinv Hs Ht He Hpi. set (q := e / 4096) in *.
  assert (target m (SPage d i j) = Some q) as Htq by (by rewrite target_pte_of, He).
  assert (q ∉ fl) as Hq.
  { intros Hq. destruct (inv_free _ _ _ _ Hinv q Hq) as [H0 _].
    by apply (refs_zero D m q (SPage d i j)). }
  set (m1 := set_pages (<[q := MkPageInfo None (pp_ref pi - 1)]> (pages m)) (wr t j 0 m)).
  assert (mm_inv D R fl m1) as Hinv1.
  { destruct (target_wr_pte D R fl m Hinv d i j t 0 Hs Ht) as [Hself Hoth].
    eapply (mm_inv_update D R fl m m1 (SPage d i j) q pi (pp_ref pi - 1)); auto. }
  unfold decref_st. destruct (Z.eqb_spec (pp_ref pi - 1) 0) as [E|E].
  - rewrite decide_True by lia.
    replace (wr t j 0 _) with (free_st q m1); [|done].
    eapply free_st_inv; [done|done|cbn; by rewrite lookup_insert_eq|done].
  - by rewrite decide_False by lia.
Qed.

Lemma page_remove_spec cur fl m d va :
  mm_inv D R fl m → d ∈ D → is_u32 va → va < UTOP →
  ∃ m' fl', page_remove cur d va m = Ret tt m' ∧ removed cur fl m d va m' fl'.
Proof.
  intros Hinv Hd Hva Hut. pose proof (user_sites d va Hd Hva Hut) as Hs.
  assert (0 ≤ PDX va < NUSER) as Hi by (apply elem_of_sites in Hs; cbn in Hs; tauto).
  unfold page_remove, bind at 1.
  rewrite page_lookup_eq; [|eauto using target_bound|intros; eapply pte_bound; eauto].
  destruct (pte_of m d (PDX va) (PTX va)) as [e|] eqn:He.
  2:{ exists m, fl. split; [|by apply removed_none]. unfold pte_of in He.
      destruct (frame_of (rd m d (PDX va))); [|done]. unfold frame_of.
      by destruct (present _). }
  pose proof He as He'. unfold pte_of in He'.
  destruct (frame_of (rd m d (PDX va))) as [t|] eqn:Ht; [|done].
  unfold frame_of. destruct (present (rd m t (PTX va))) eqn:Hpres; [|done].
  injection He' as He'. cbn -[page_decref tlb_invalidate PTX PDX]. rewrite He'.
  assert (is_Some (pages m !! (e / 4096))) as [pi Hpi].
  { apply (inv_dom _ _ _ _ Hinv). eapply pte_bound; eauto. }
  assert (target m (SPage d (PDX va) (PTX va)) = Some (e / 4096)) as Htq
    by (by rewrite target_pte_of, He).
  destruct (inv_ref _ _ _ _ Hinv _ _ Hpi) as [Hr Hr16].
  pose proof (refs_pos D m _ _ Hs Htq). pose proof (inv_R _ _ _ _ Hinv (e / 4096)).
  assert (pp_link pi = None) as Hl.
  { apply (inv_link _ _ _ _ Hinv (e / 4096)); [done|]. intros Hq.
    destruct (inv_free _ _ _ _ Hinv _ Hq). lia. }
  unfold bind. rewrite (page_decref_eq m _ pi) by (done || lia).
  pose proof (decref_clear_inv _ _ _ _ _ _ _ _ Hinv Hs Ht He Hpi) as Hinv'.
  unfold store, modify. set (m2 := wr t (PTX va) 0 _) in *.
  set (fl' := if decide (pp_ref pi = 1) then _ else _) in *.
  assert (∀ x, mm_inv D R fl' (set_tlb x m2)) as Hinv'' by
    (intros; by eapply mm_inv_targets).
  destruct (pte_of_wr_pte fl m d (PDX va) (PTX va) t 0 Hinv Hs Ht) as [Hupd Hdirs].
  assert (∀ f i, rd m2 f i = rd (wr t (PTX va) 0 m) f i) as Hrd.
  { intros f i. unfold m2. rewrite !rd_wr. unfold decref_st. by destruct (_ =? 0). }
  assert (pte_upd D m m2 d (PDX va) (PTX va) None) as Hupd2.
  { intros d' i' j' Hs'. transitivity (pte_of (wr t (PTX va) 0 m) d' i' j').
    - by apply pte_of_ext.
    - apply (Hupd d' i' j' Hs'). }
  assert (data_same D [] m m2) as Hdata.
  { intros f i _ Hf. rewrite Hrd. apply rd_wr_ne. left. intros ->. apply Hf.
    exists (STab d (PDX va)). split; [by apply stab_in|done]. }
  assert (same_static m m2 ∧ tlb m2 = tlb m) as [Hstat Htlb]
    by (unfold m2, decref_st; by destruct (_ =? 0)).
  assert (fl' = if decide (refs D m (e / 4096) + R (e / 4096) = 1)
                then e / 4096 :: fl else fl) as Hfl.
  { unfold fl'. by rewrite Hr. }
  exists (if decide (cur = None ∨ cur = Some d)
          then set_tlb (delete (PGNUM va) (tlb m2)) m2 else m2), fl'.
  split; [apply tlb_invalidate_eq|]. clearbody m2.
  assert (∀ d' i, d' ∈ D → rd m2 d' i = rd m d' i) by
    (intros; rewrite <- Hdirs by done; apply Hrd).
  destruct (decide (cur = None ∨ cur = Some d)) as [Hc|Hc]; split; rewrite ?He; auto.
  - rewrite decide_False by done. rewrite decide_True by done. cbn. by rewrite Htlb.
  - rewrite decide_False by done. by rewrite decide_False.
Qed.

(** ** Walking with creation *)
Record walked fl m (d va : Z) m' fl' (t : Z) : Prop := MkWalked {
  wk_inv : mm_inv D R fl' m';
  wk_tab : frame_of (rd m' d (PDX va)) = Some t;
  wk_same : pte_same D m m';
  wk_fl : fl' = fl ∧ m' = m ∨ fl = t :: fl' ∧ frame_of (rd m d (PDX va)) = None;
  wk_table : ∀ f, is_table D m' f → is_table D m f ∨ f ∈ fl;
  wk_refs : ∀ p, p ∉ fl → refs D m' p = refs D m p;
  wk_pages : ∀ p, p ∉ fl → pages m' !! p = pages m !! p;
  wk_dirs : ∀ d' i, d' ∈ D → (d', i) ≠ (d, PDX va) → rd m' d' i = rd m d' i;
  wk_data : data_same D fl m m';
  wk_static : same_static m m' ∧ tlb m' = tlb m
}.

(** A fresh, zeroed page becomes the table of an empty directory entry. *)
Definition install_st (d i p : Z) (m : memst) : memst :=
  set_pages (<[p := MkPageInfo None 1]> (pages m))
    (wr d i (mk_pte p (Z.lor PTE_W PTE_U)) m).

Lemma install_inv fl m d i p :
  mm_inv D R fl m → STab d i ∈ sites D → p ∉ fl →
  pages m !! p = Some (MkPageInfo None 0) → (∀ j, rd m p j = 0) →
  frame_of (rd m d i) = None →
  mm_inv D R fl (install_st d i p m) ∧
  target (install_st d i p m) (STab d i) = Some p ∧
  (∀ s, s ∈ sites D → s ≠ STab d i → target (install_st d i p m) s = target m s).
Proof.
  intros Hinv Hs Hp Hpi Hz He.
  assert (0 ≤ p < 2 ^ 20) as Hrange by (eapply page_range; eauto).
  assert (frame_of (mk_pte p (Z.lor PTE_W PTE_U)) = Some p) as Hf
    by (by apply frame_of_mk_pte).
  destruct (target_wr_pde D R fl m Hinv d i (mk_pte p (Z.lor PTE_W PTE_U)) Hs) as [Hself Hoth].
  rewrite Hf in Hself.
  destruct (inv_ref _ _ _ _ Hinv p _ Hpi) as [Hr _]. cbn in Hr.
  pose proof (refs_nonneg D m p). pose proof (inv_R _ _ _ _ Hinv p).
  assert (d ≠ p) as Hdp.
  { intros ->. pose proof (refs_pos D m p (SDir p)) as Hpos.
    rewrite (elem_of_sites D (STab p i)) in Hs. cbn in Hs.
    specialize (Hpos (sdir_in D p (proj1 Hs)) eq_refl). lia. }
  assert (∀ s, s ∈ sites D → s ≠ STab d i →
            target (wr d i (mk_pte p (Z.lor PTE_W PTE_U)) m) s = target m s) as Hoth'.
  { intros s Hs' Hne. destruct s as [d'|d' i'|d' i' j']; [done|by apply Hoth|].
    destruct (decide (d' = d ∧ i' = i)) as [[-> ->]|Hdi].
    - cbn. rewrite rd_wr_eq, Hf, He. rewrite rd_wr_ne by auto. by rewrite Hz.
    - apply Hoth; [done|done|]. intros j [= -> -> _]. by apply Hdi. }
  split; [|done].
  eapply (mm_inv_update D R fl m _ (STab d i) p _ 1); eauto. left. cbn. auto with lia.
Qed.

Lemma walk_same_entries fl m m2 d i p :
  mm_inv D R (p :: fl) m → frame_of (rd m d i) = None →
  frame_of (rd m2 d i) = Some p → (∀ k, rd m2 p k = 0) →
  (∀ f k, f ≠ p → (f, k) ≠ (d, i) → rd m2 f k = rd m f k) →
  d ∈ D → pte_same D m m2.
Proof.
  intros Hinv Hd Hd2 Hz Hrd HdD d' i' j' Hs. unfold pte_of.
  assert (∀ f, is_table D m f → f ≠ p) as Htp.
  { intros f Hf ->. by apply (free_not_table _ _ _ _ _ Hinv) in Hf; [|left]. }
  destruct (spage_stab _ _ _ _ Hs) as [Htab Hdir].
  destruct (decide ((d', i') = (d, i))) as [[= -> ->]|Hne].
  - rewrite Hd, Hd2. by rewrite Hz.
  - assert (d' ∈ D) as Hd' by (by apply elem_of_sites in Hdir as [? _]).
    rewrite Hrd; [|by apply Htp, dir_is_table|done].
    destruct (frame_of (rd m d' i')) as [t'|] eqn:E; [|done].
    rewrite Hrd; [done| |].
    + apply Htp. exists (STab d' i'). auto.
    + intros [= -> _].
      discriminate (table_site_inj D R _ m Hinv (STab d' i') (SDir d) d); auto using sdir_in.
Qed.

Lemma pgdir_walk_create fl m d va :
  mm_inv D R fl m → d ∈ D → is_u32 va → va < UTOP →
  (pgdir_walk d va true m = Ret None m ∧ fl = [] ∧ frame_of (rd m d (PDX va)) = None) ∨
  ∃ m' fl' t, pgdir_walk d va true m = Ret (Some (t, PTX va)) m' ∧
    walked fl m d va m' fl' t.
Proof.
  intros Hinv Hd Hva Hut. pose proof (user_sites d va Hd Hva Hut) as Hs.
  destruct (spage_stab _ _ _ _ Hs) as [Htab _].
  destruct (frame_of (rd m d (PDX va))) as [t|] eqn:Ht.
  { right. exists m, fl, t. split.
    - apply pgdir_walk_present; [done|]. by apply (inv_target _ _ _ _ Hinv (STab d (PDX va))).
    - split; auto with toynix; done. }
  unfold pgdir_walk, load, gets, bind; cbn -[KADDR PDX PTX PTE_ADDR page_alloc page_incref store].
  change (ctrue (Z.land (rd m d (PDX va)) PTE_P)) with (present (rd m d (PDX va))).
  assert (present (rd m d (PDX va)) = false) as ->
    by (unfold frame_of in Ht; by destruct (present _)).
  cbn -[KADDR PDX PTX PTE_ADDR page_alloc page_incref store].
  rewrite (page_alloc_eq fl) by done.
  destruct fl as [|p fl']; [by left|]. right.
  change (ctrue (Z.land ALLOC_ZERO ALLOC_ZERO)) with true.
  set (m1 := alloc_st true p fl' m).
  assert (mm_inv D R fl' m1) as Hinv1 by (by apply alloc_st_inv).
  assert (p ∉ fl') as Hp by (by apply NoDup_cons, (inv_nodup _ _ _ _ Hinv)).
  assert (pages m1 !! p = Some (MkPageInfo None 0)) as Hpi by (cbn; apply lookup_insert_eq).
  assert (∀ j, rd m1 p j = 0) as Hz
    by (intros; unfold m1; rewrite rd_alloc_st; by rewrite decide_True).
  assert (∀ s, s ∈ sites D → target m1 s = target m s) as Ht1
    by (intros; by eapply alloc_target).
  assert (frame_of (rd m1 d (PDX va)) = None) as Ht1'
    by (rewrite <- Ht; apply (Ht1 (STab d (PDX va)) Htab)).
  destruct (install_inv fl' m1 d (PDX va) p Hinv1 Htab Hp Hpi Hz Ht1') as (Hinv2 & Hself & Hoth).
  set (m2 := install_st d (PDX va) p m1) in *.
  assert (0 ≤ p < 2 ^ 20) as Hrange by (apply (page_range fl' m1); [done|by rewrite Hpi]).
  exists m2, fl', p. split.
  - unfold page_incref, bind, deref, ret, page_at, store, modify.
    cbn [pages wr set_frames fst snd]. rewrite Hpi. cbn [deref ret set_page modify].
    change (u16 (pp_ref (MkPageInfo None 0) + 1)) with 1. cbn [pp_link].
    rewrite <- (Z.lor_assoc _ PTE_W PTE_U).
    change (set_pages _ (wr d (PDX va) _ m1)) with m2.
    assert (rd m2 d (PDX va) / 4096 = p) as Hfr.
    { cbn in Hself. by apply frame_of_present in Hself as [_ ?]. }
    rewrite KADDR_ok; rewrite PGNUM_PTE_ADDR, Hfr; [done|].
    apply (inv_target _ _ _ _ Hinv2 (STab d (PDX va)) p Htab Hself).
  - assert (∀ f k, f ≠ p → (f, k) ≠ (d, PDX va) → rd m2 f k = rd m f k) as Hrd.
    { intros f k Hf Hne. unfold m2, install_st. cbn -[wr rd PDX].
      change (rd (wr d (PDX va) (mk_pte p (Z.lor PTE_W PTE_U)) m1) f k = rd m f k).
      rewrite rd_wr_pair by done. unfold m1. rewrite rd_alloc_st.
      by rewrite decide_False by (by intros [_ ->]). }
    assert (∀ f, is_table D m f → f ≠ p) as Htp.
    { intros f Hf ->. by apply (free_not_table _ _ _ _ _ Hinv) in Hf; [|left]. }
    split; auto.
    + apply (walk_same_entries fl' m m2 d (PDX va) p); auto.
      unfold m2. intros k. transitivity (rd m1 p k); [|done].
      apply (rd_wr_ne d (PDX va) _ p k m1). left. by apply Htp, dir_is_table.
    + intros f (s & Hs' & Hts & Hf). destruct (decide (s = STab d (PDX va))) as [->|Hne].
      * right. rewrite Hself in Hf. injection Hf as <-. left.
      * left. exists s. split; [done|]. split; [done|].
        rewrite <- (Ht1 s Hs'). by rewrite <- Hoth.
    + intros q Hq. apply not_elem_of_cons in Hq as [Hq _].
      rewrite (refs_update D m m2 (STab d (PDX va))).
      * rewrite Hself. cbn. rewrite Ht. rewrite !ind_false by congruence. lia.
      * apply (inv_dirs _ _ _ _ Hinv).
      * done.
      * intros s Hs' Hne. by rewrite Hoth, Ht1.
    + intros q Hq. apply not_elem_of_cons in Hq as [Hq _]. cbn.
      by rewrite !lookup_insert_ne by done.
    + intros d' i' Hd' Hne. apply Hrd; [|done]. by apply Htp, dir_is_table.
    + intros f k Hf Hnt. apply not_elem_of_cons in Hf as [Hf _]. apply Hrd; [done|].
      intros [= -> _]. by apply Hnt, dir_is_table.
    + done.
Qed.

(** ** Mapping *)

(** [pgdir[PDX(va)] |= perm | PTE_P] *)
Definition or_pde_st (d i perm : Z) (m : memst) : memst :=
  wr d i (Z.lor (rd m d i) (Z.lor perm PTE_P)) m.

Lemma or_pde_inv fl m d i t perm :
  mm_inv D R fl m → STab d i ∈ sites D → frame_of (rd m d i) = Some t → 0 ≤ perm < 4096 →
  mm_inv D R fl (or_pde_st d i perm m) ∧ pte_same D m (or_pde_st d i perm m) ∧
  (∀ s, s ∈ sites D → target (or_pde_st d i perm m) s = target m s).
Proof.
  intros Hinv Hs Ht Hperm. destruct (frame_of_present _ _ Ht) as [Hpres _].
  assert (0 ≤ Z.lor perm PTE_P < 4096) as Hperm' by (apply (lor_small _ _ 12); unfold PTE_P; lia).
  assert (∀ s, s ∈ sites D → target (or_pde_st d i perm m) s = target m s) as Htgt
    by (intros; by apply (target_or_pde D R fl m Hinv)).
  split; [by eapply mm_inv_targets|]. split; [|done].
  intros d' i' j' Hs'. destruct (spage_stab _ _ _ _ Hs') as [Htab' _].
  unfold pte_of. pose proof (Htgt _ Htab') as Hf. cbn in Hf. rewrite Hf.
  destruct (frame_of (rd m d' i')) as [t'|] eqn:E; [|done].
  unfold or_pde_st. rewrite rd_wr_ne; [done|]. left. intros <-.
  discriminate (table_site_inj D R fl m Hinv (STab d' i') (SDir d) d); eauto using stab_sdir.
Qed.

(** Storing an entry for [p] where nothing was mapped, [p] counted once more. *)
Definition map_st (t j p : Z) (pi : PageInfo) (perm : Z) (m : memst) : memst :=
  wr t j (mk_pte p perm)
    (set_pages (<[p := MkPageInfo None (pp_ref pi + 1)]> (pages m)) m).

Lemma map_inv fl m d i j t p pi perm :
  mm_inv D R fl m → SPage d i j ∈ sites D → frame_of (rd m d i) = Some t →
  pte_of m d i j = None → 0 ≤ perm < 4096 →
  pages m !! p = Some pi → p ∉ fl → ¬ is_table D m p → pp_ref pi < 2 ^ 16 - 1 →
  mm_inv D R fl (map_st t j p pi perm m) ∧
  pte_upd D m (map_st t j p pi perm m) d i j (Some (mk_pte p perm)) ∧
  (∀ d' i', d' ∈ D → rd (map_st t j p pi perm m) d' i' = rd m d' i').
Proof.
  intros Hinv Hs Ht He Hperm Hpi Hp Hnt Hr.
  assert (0 ≤ p < 2 ^ 20) as Hrange by (eapply page_range; eauto).
  pose proof (frame_of_mk_pte p perm Hrange Hperm) as Hf.
  destruct (target_wr_pte D R fl m Hinv d i j t (mk_pte p perm) Hs Ht) as [Hself Hoth].
  destruct (pte_of_wr_pte fl m d i j t (mk_pte p perm) Hinv Hs Ht) as [Hupd Hdirs].
  rewrite mk_pte_present in Hupd. rewrite Hf in Hself.
  split; [|split; [exact Hupd|exact Hdirs]].
  eapply (mm_inv_update D R fl m _ (SPage d i j) p pi); eauto. left.
  split; [by rewrite target_pte_of, He|]. split; [exact Hself|]. cbn. auto with lia.
Qed.

(** Storing another entry for the same page. *)
Lemma remap_inv fl m d i j t e perm :
  mm_inv D R fl m → SPage d i j ∈ sites D → frame_of (rd m d i) = Some t →
  pte_of m d i j = Some e → 0 ≤ perm < 4096 →
  mm_inv D R fl (wr t j (mk_pte (e / 4096) perm) m) ∧
  pte_upd D m (wr t j (mk_pte (e / 4096) perm) m) d i j (Some (mk_pte (e / 4096) perm)) ∧
  (∀ d' i', d' ∈ D → rd (wr t j (mk_pte (e / 4096) perm) m) d' i' = rd m d' i') ∧
  (∀ s, s ∈ sites D → target (wr t j (mk_pte (e / 4096) perm) m) s = target m s).
Proof.
  intros Hinv Hs Ht He Hperm. pose proof (pte_bound _ _ _ _ _ _ Hinv Hs He) as Hb.
  assert (0 ≤ e / 4096 < 2 ^ 20) as Hrange by (pose proof (inv_np _ _ _ _ Hinv); lia).
  pose proof (frame_of_mk_pte _ perm Hrange Hperm) as Hf.
  destruct (target_wr_pte D R fl m Hinv d i j t (mk_pte (e / 4096) perm) Hs Ht) as [Hself Hoth].
  destruct (pte_of_wr_pte fl m d i j t (mk_pte (e / 4096) perm) Hinv Hs Ht) as [Hupd Hdirs].
  rewrite mk_pte_present in Hupd. rewrite Hf in Hself.
  assert (∀ s, s ∈ sites D → target (wr t j (mk_pte (e / 4096) perm) m) s = target m s).
  { intros s Hs'. destruct (decide (s = SPage d i j)) as [->|]; [|by apply Hoth].
    rewrite Hself, target_pte_of, He. done. }
  split; [by eapply mm_inv_targets|auto].
Qed.

Lemma pte_upd_trans m1 m2 m3 d i j o1 o2 :
  pte_upd D m1 m2 d i j o1 → pte_upd D m2 m3 d i j o2 → pte_upd D m1 m3 d i j o2.
Proof. intros H1 H2 d' i' j' Hs. rewrite H2, H1 by done. by case_decide. Qed.

Lemma pte_same_upd m1 m2 m3 d i j o :
  pte_same D m1 m2 → pte_upd D m2 m3 d i j o → pte_upd D m1 m3 d i j o.
Proof. intros H1 H2 d' i' j' Hs. rewrite H2 by done. case_decide; [done|]. by apply H1. Qed.

Lemma pte_upd_same m1 m2 m3 d i j o :
  pte_upd D m1 m2 d i j o → pte_same D m2 m3 → pte_upd D m1 m3 d i j o.
Proof. intros H1 H2 d' i' j' Hs. rewrite H2 by done. by apply H1. Qed.

(** What a successful [page_insert] of page [p] leaves behind. *)
Record inserted fl m (d p va perm : Z) m' fl' : Prop := MkInserted {
  ins_inv : mm_inv D R fl' m';
  ins_pte : pte_upd D m m' d (PDX va) (PTX va) (Some (mk_pte p perm));
  ins_fl : ∀ q, q ∈ fl' → q ∈ fl ∨ (λ e, e / 4096) <$> pte_of m d (PDX va) (PTX va) = Some q;
  ins_dirs : ∀ d' i, d' ∈ D → (d', i) ≠ (d, PDX va) → rd m' d' i = rd m d' i;
  ins_table : ∀ f, is_table D m' f → is_table D m f ∨ f ∈ fl;
  ins_data : data_same D fl m m';
  ins_static : same_static m m'
}.

(** Page [p] may be mapped once more. *)
Record mappable fl m (p : Z) : Prop := MkMappable {
  mp_page : is_Some (pages m !! p);
  mp_alloc : p ∉ fl;
  mp_table : ¬ is_table D m p;
  mp_room : refs D m p + R p < 2 ^ 16 - 1
}.

Lemma walked_mappable fl m d va m' fl' t p :
  walked fl m d va m' fl' t → mappable fl m p → mappable fl' m' p.
Proof.
  intros W [Hpg Hp Hnt Hr]. split.
  - by rewrite (wk_pages _ _ _ _ _ _ _ W).
  - intros Hin. apply Hp. destruct (wk_fl _ _ _ _ _ _ _ W) as [[-> _]|[-> _]]; [done|by right].
  - intros Ht. by apply (wk_table _ _ _ _ _ _ _ W) in Ht as [?|?].
  - by rewrite (wk_refs _ _ _ _ _ _ _ W).
Qed.

(** The last three statements of [page_insert]. *)
Definition finish_st (t j d i p perm : Z) (m : memst) : memst :=
  or_pde_st d i perm (wr t j (mk_pte p perm) m).

Lemma inserted_finish fl m d va m1 fl1 t m2 fl2 p perm :
  d ∈ D → is_u32 va → va < UTOP → 0 ≤ perm < 4096 →
  walked fl m d va m1 fl1 t →
  (* before the entry is stored *)
  (∀ q, q ∈ fl2 → q ∈ fl1 ∨ (λ e, e / 4096) <$> pte_of m1 d (PDX va) (PTX va) = Some q) →
  (∀ d' i, d' ∈ D → rd m2 d' i = rd m1 d' i) →
  (∀ f, is_table D m2 f → is_table D m1 f) → data_same D [] m1 m2 → same_static m1 m2 →
  (* after it is stored *)
  let m3 := wr t (PTX va) (mk_pte p perm) m2 in
  mm_inv D R fl2 m3 →
  pte_upd D m1 m3 d (PDX va) (PTX va) (Some (mk_pte p perm)) →
  (∀ d' i, d' ∈ D → rd m3 d' i = rd m2 d' i) →
  (∀ f, is_table D m3 f → is_table D m2 f) →
  inserted fl m d p va perm (finish_st t (PTX va) d (PDX va) p perm m2) fl2.
Proof.
  intros Hd Hva Hut Hperm W Hfl2 Hdirs2 Htab2 Hdata2 Hst2 m3 Hinv3 Hupd3 Hdirs3 Htab3.
  pose proof (user_sites d va Hd Hva Hut) as Hs. destruct (spage_stab _ _ _ _ Hs) as [Htab _].
  assert (frame_of (rd m3 d (PDX va)) = Some t) as Ht3.
  { rewrite Hdirs3, Hdirs2 by done. apply (wk_tab _ _ _ _ _ _ _ W). }
  destruct (or_pde_inv fl2 m3 d (PDX va) t perm Hinv3 Htab Ht3 Hperm) as (Hinv4 & Hsame4 & Htgt4).
  change (finish_st t (PTX va) d (PDX va) p perm m2) with (or_pde_st d (PDX va) perm m3).
  assert (∀ f, is_table D (or_pde_st d (PDX va) perm m3) f → is_table D m f ∨ f ∈ fl) as Htabs.
  { intros f (s & Hs' & Hts & Hf). apply (wk_table _ _ _ _ _ _ _ W), Htab2, Htab3.
    exists s. rewrite <- (Htgt4 s Hs'). done. }
  split; auto.
  - eapply pte_same_upd; [apply (wk_same _ _ _ _ _ _ _ W)|]. by eapply pte_upd_same.
  - intros q [Hq|Hq]%Hfl2.
    + left. destruct (wk_fl _ _ _ _ _ _ _ W) as [[-> _]|[-> _]]; [done|by right].
    + right. by rewrite <- (wk_same _ _ _ _ _ _ _ W).
  - intros d' i' Hd' Hne. unfold or_pde_st. rewrite rd_wr_pair, Hdirs3, Hdirs2 by done.
    by apply (wk_dirs _ _ _ _ _ _ _ W).
  - intros f k Hf Hnt. unfold or_pde_st, m3.
    assert (¬ is_table D m1 f) as Hnt1
      by (intros H; by apply (wk_table _ _ _ _ _ _ _ W) in H as [?|?]).
    rewrite !rd_wr_ne, Hdata2.
    + by apply (wk_data _ _ _ _ _ _ _ W).
    + apply not_elem_of_nil.
    + done.
    + left. intros ->. apply Hnt1. exists (STab d (PDX va)). repeat split; [done|].
      apply (wk_tab _ _ _ _ _ _ _ W).
    + left. intros ->. by apply Hnt, dir_is_table.
  - destruct (wk_static _ _ _ _ _ _ _ W) as [Hst1 _].
    eapply same_static_trans; [exact Hst1|]. eapply same_static_trans; [exact Hst2|]. done.
Qed.

(** Sites other than the removed one keep their target. *)
Lemma removed_targets cur fl m d va m' fl' :
  removed cur fl m d va m' fl' →
  ∀ s, s ∈ sites D → s ≠ SPage d (PDX va) (PTX va) → target m' s = target m s.
Proof.
  intros Rm s Hs Hne. pose proof (elem_of_sites D s) as Hin.
  destruct s as [d'|d' i|d' i j]; cbn in Hin.
  - done.
  - cbn. rewrite (rm_dirs _ _ _ _ _ _ _ Rm); [done|]. tauto.
  - rewrite !target_pte_of, (rm_pte _ _ _ _ _ _ _ Rm) by done.
    by rewrite decide_False by congruence.
Qed.

Lemma removed_target_gone cur fl m d va m' fl' :
  removed cur fl m d va m' fl' → SPage d (PDX va) (PTX va) ∈ sites D →
  target m' (SPage d (PDX va) (PTX va)) = None.
Proof.
  intros Rm Hs. rewrite target_pte_of, (rm_pte _ _ _ _ _ _ _ Rm) by done.
  by rewrite decide_True.
Qed.

Lemma removed_tables cur fl m d va m' fl' f :
  removed cur fl m d va m' fl' → is_table D m' f → is_table D m f.
Proof.
  intros Rm (s & Hs & Hts & Hf). exists s. split; [done|]. split; [done|].
  rewrite <- (removed_targets _ _ _ _ _ _ _ Rm s Hs); [done|]. by intros ->.
Qed.

(** Removing the mapping of another page leaves [p] mappable. *)
Lemma removed_mappable cur fl m d va m' fl' p e :
  mm_inv D R fl m → SPage d (PDX va) (PTX va) ∈ sites D →
  removed cur fl m d va m' fl' → pte_of m d (PDX va) (PTX va) = Some e → e / 4096 ≠ p →
  mappable fl m p → mappable fl' m' p.
Proof.
  intros Hinv Hs Rm He Hne [Hpg Hp Hnt Hr].
  pose proof (rm_static _ _ _ _ _ _ _ Rm) as [Hnp _]. split.
  - apply (inv_dom _ _ _ _ (rm_inv _ _ _ _ _ _ _ Rm)). rewrite Hnp.
    by apply (inv_dom _ _ _ _ Hinv).
  - rewrite (rm_fl _ _ _ _ _ _ _ Rm), He. case_decide; [|done].
    by apply not_elem_of_cons.
  - intros Ht. by eapply Hnt, removed_tables.
  - rewrite (refs_update D m m' (SPage d (PDX va) (PTX va)));
      [|apply (inv_dirs _ _ _ _ Hinv)|done|by eapply removed_targets].
    rewrite (removed_target_gone _ _ _ _ _ _ _ Rm Hs), target_pte_of, He. cbn.
    rewrite !ind_false by congruence. lia.
Qed.

(** Counting and storing in one step, from a state where nothing is mapped. *)
Lemma incref_map fl m d va t p perm :
  mm_inv D R fl m → SPage d (PDX va) (PTX va) ∈ sites D →
  frame_of (rd m d (PDX va)) = Some t → pte_of m d (PDX va) (PTX va) = None →
  0 ≤ perm < 4096 → mappable fl m p →
  ∃ m2, page_incref (Some p) m = Ret tt m2 ∧
    (∀ f i, rd m2 f i = rd m f i) ∧ same_static m m2 ∧ tlb m2 = tlb m ∧
    mm_inv D R fl (wr t (PTX va) (mk_pte p perm) m2) ∧
    pte_upd D m (wr t (PTX va) (mk_pte p perm) m2) d (PDX va) (PTX va) (Some (mk_pte p perm)) ∧
    (∀ d' i', d' ∈ D → rd (wr t (PTX va) (mk_pte p perm) m2) d' i' = rd m d' i').
Proof.
  intros Hinv Hs Ht He Hperm [[pi Hpi] Hp Hnt Hr].
  destruct (inv_ref _ _ _ _ Hinv p pi Hpi) as [Href _].
  pose proof (refs_nonneg D m p). pose proof (inv_R _ _ _ _ Hinv p).
  exists (set_pages (<[p := MkPageInfo None (pp_ref pi + 1)]> (pages m)) m). split.
  { unfold page_incref, bind, deref, ret, page_at. rewrite Hpi. cbn.
    by rewrite u16_small, (inv_link _ _ _ _ Hinv p pi) by (done || lia). }
  split; [done|]. split; [done|]. split; [done|].
  by apply (map_inv fl m d (PDX va) (PTX va) t p pi perm); try done; lia.
Qed.

Lemma page_insert_eq cur m m1 m2 d pp va perm t p :
  pgdir_walk d va true m = Ret (Some (t, PTX va)) m1 →
  page_insert_ref cur d pp va (rd m1 t (PTX va)) m1 = Ret (Some p) m2 →
  page_insert cur d pp va perm m = Ret 0 (finish_st t (PTX va) d (PDX va) p perm m2).
Proof.
  intros Hw Href. unfold page_insert, bind at 1. rewrite Hw.
  unfold bind, load, gets; cbn [fst snd]. by rewrite Href.
Qed.

Lemma pte_of_tab m d i j t :
  frame_of (rd m d i) = Some t →
  pte_of m d i j = if present (rd m t j) then Some (rd m t j) else None.
Proof. intros Ht. unfold pte_of. by rewrite Ht. Qed.

(** [page_lookup] returns the page of the abstract entry. *)
Lemma page_lookup_pte fl m d va t :
  mm_inv D R fl m → d ∈ D → is_u32 va → va < UTOP → frame_of (rd m d (PDX va)) = Some t →
  page_lookup d va m =
    Ret ((λ e, (e / 4096, (t, PTX va))) <$> pte_of m d (PDX va) (PTX va)) m.
Proof.
  intros Hinv Hd Hva Hut Ht. pose proof (user_sites d va Hd Hva Hut) as Hs.
  rewrite page_lookup_eq.
  - rewrite Ht, (pte_of_tab _ _ _ _ t Ht). unfold frame_of. by destruct (present _).
  - intros t' Ht'. eapply (inv_target _ _ _ _ Hinv (STab d (PDX va))); [|done].
    by destruct (spage_stab _ _ _ _ Hs).
  - intros e He. eapply pte_bound; eauto.
Qed.

(** Before the label [out], a page not mapped at [va] yet. *)
Lemma insert_ref_new cur fl m d va t p perm :
  mm_inv D R fl m → d ∈ D → is_u32 va → va < UTOP → 0 ≤ perm < 4096 →
  frame_of (rd m d (PDX va)) = Some t → mappable fl m p →
  (λ e, e / 4096) <$> pte_of m d (PDX va) (PTX va) ≠ Some p →
  ∃ m1 fl1 m2, removed cur fl m d va m1 fl1 ∧
    page_insert_ref cur d (Some p) va (rd m t (PTX va)) m = Ret (Some p) m2 ∧
    (∀ f i, rd m2 f i = rd m1 f i) ∧ same_static m1 m2 ∧
    mm_inv D R fl1 (wr t (PTX va) (mk_pte p perm) m2) ∧
    pte_upd D m1 (wr t (PTX va) (mk_pte p perm) m2) d (PDX va) (PTX va) (Some (mk_pte p perm)) ∧
    (∀ d' i', d' ∈ D → rd (wr t (PTX va) (mk_pte p perm) m2) d' i' = rd m1 d' i').
Proof.
  intros Hinv Hd Hva Hut Hperm Ht Hmp Hne. pose proof (user_sites d va Hd Hva Hut) as Hs.
  pose proof (pte_of_tab m d (PDX va) (PTX va) t Ht) as Hpte. unfold page_insert_ref.
  change (ctrue (Z.land (rd m t (PTX va)) PTE_P)) with (present (rd m t (PTX va))).
  destruct (present (rd m t (PTX va))) eqn:Hpres.
  - unfold bind at 1. rewrite (page_lookup_pte fl _ _ _ t) by done. rewrite Hpte.
    rewrite Hpte in Hne. cbn -[page_remove page_incref PTX PDX].
    rewrite bool_decide_eq_false_2 by done.
    destruct (page_remove_spec cur fl m d va) as (m1 & fl1 & Hrm & Rm); [done..|].
    unfold bind at 1. rewrite Hrm.
    destruct (incref_map fl1 m1 d va t p perm) as (m2 & Hm2 & ? & ? & _ & ?).
    + apply (rm_inv _ _ _ _ _ _ _ Rm).
    + done.
    + by rewrite (rm_dirs _ _ _ _ _ _ _ Rm).
    + by rewrite (rm_pte _ _ _ _ _ _ _ Rm), decide_True by done.
    + done.
    + eapply removed_mappable; eauto. intros <-. by apply Hne.
    + exists m1, fl1, m2. split; [done|]. split; [|done]. unfold bind. by rewrite Hm2.
  - destruct (incref_map fl m d va t p perm) as (m2 & Hm2 & ? & ? & _ & ?); [done..|].
    exists m, fl, m2. split; [by apply removed_none|]. split; [|done].
    unfold bind. by rewrite Hm2.
Qed.

Lemma page_insert_spec cur fl m d p va perm :
  mm_inv D R fl m → d ∈ D → is_u32 va → va < UTOP → 0 ≤ perm < 4096 → mappable fl m p →
  (page_insert cur d (Some p) va perm m = Ret (- E_NO_MEM) m ∧ fl = [] ∧
     frame_of (rd m d (PDX va)) = None) ∨
  ∃ m' fl', page_insert cur d (Some p) va perm m = Ret 0 m' ∧
    inserted fl m d p va perm m' fl'.
Proof.
  intros Hinv Hd Hva Hut Hperm Hmp. pose proof (user_sites d va Hd Hva Hut) as Hs.
  destruct (pgdir_walk_create fl m d va) as [(Hw & Hfl & Hf)|(m1 & fl1 & t & Hw & W)]; [done..| |].
  { left. split; [|done]. unfold page_insert, bind. by rewrite Hw. }
  right. pose proof (wk_inv _ _ _ _ _ _ _ W) as Hinv1. pose proof (wk_tab _ _ _ _ _ _ _ W) as Ht.
  pose proof (walked_mappable _ _ _ _ _ _ _ _ W Hmp) as Hmp1.
  destruct (decide ((λ e, e / 4096) <$> pte_of m1 d (PDX va) (PTX va) = Some p)) as [Hp|Hp].
  - destruct (pte_of m1 d (PDX va) (PTX va)) as [e|] eqn:He; [|done]. injection Hp as <-.
    destruct (remap_inv fl1 m1 d (PDX va) (PTX va) t e perm) as (Hi & Hu & Hdirs & Htgt); [done..|].
    exists (finish_st t (PTX va) d (PDX va) (e / 4096) perm m1), fl1. split.
    + eapply page_insert_eq; [done|]. unfold page_insert_ref.
      pose proof (pte_of_tab _ _ _ (PTX va) t Ht) as E. rewrite He in E.
      change (ctrue (Z.land (rd m1 t (PTX va)) PTE_P)) with (present (rd m1 t (PTX va))).
      destruct (present _); [|done]. unfold bind.
      rewrite (page_lookup_pte fl1 _ _ _ t) by done. rewrite He. cbn -[PTX].
      by rewrite bool_decide_eq_true_2.
    + eapply inserted_finish; eauto with toynix; try done.
      intros f (s & Hs' & Hts & Hf). exists s. by rewrite <- (Htgt s Hs').
  - destruct (insert_ref_new cur fl1 m1 d va t p perm)
      as (mr & flr & m2 & Rm & Href & Hrd & Hst & Hi & Hu & Hdirs); [done..|].
    exists (finish_st t (PTX va) d (PDX va) p perm m2), flr.
    split; [by eapply page_insert_eq|]. eapply inserted_finish; eauto.
    + intros q Hq. rewrite (rm_fl _ _ _ _ _ _ _ Rm) in Hq.
      destruct (pte_of m1 d (PDX va) (PTX va)); [|by left]. case_decide; [|by left].
      apply elem_of_cons in Hq as [->|?]; [by right|by left].
    + intros d' i Hd'. rewrite Hrd. by apply (rm_dirs _ _ _ _ _ _ _ Rm).
    + intros f (s & Hs' & Hts & Hf). eapply removed_tables; [done|]. exists s.
      split; [done|]. split; [done|]. rewrite <- Hf.
      destruct s; cbn; [done|by rewrite Hrd|done].
    + intros f k Hf Hnt. rewrite Hrd. by apply (rm_data _ _ _ _ _ _ _ Rm).
    + eapply same_static_trans; [apply (rm_static _ _ _ _ _ _ _ Rm)|done].
    + eapply pte_upd_trans; [apply (rm_pte _ _ _ _ _ _ _ Rm)|done].
    + intros d' i Hd'. by rewrite Hdirs, Hrd.
    + intros f (s & Hs' & Hts & Hf). exists s. split; [done|]. split; [done|]. rewrite <- Hf.
      destruct s as [d'|d' i|]; [done| |done]. cbn. rewrite Hdirs, Hrd; [done|].
      by apply elem_of_sites in Hs' as [? _].
Qed.
End ops.
