(* ===== verification/PmapDir.v ===== *)
(** * Creating and destroying address spaces

    A zeroed page becomes a directory ([env_setup_vm]); an emptied directory
    stops being one ([env_free]); an emptied table is detached from its
    directory.  Each step preserves [mm_inv], with the list of directories
    growing or shrinking. *)

From stdpp Require Import base gmap list strings.
From Stdlib Require Import ZArith Lia.
From S2P Require Import Prelude Mmu Pmap PmapInv PmapOps.

Set Default Proof Using "Type".

(** Directory [d] has no table below [UTOP]. *)
Definition empty_dir (m : memst) (d : Z) : Prop :=
  ∀ i, 0 ≤ i < NUSER → frame_of (rd m d i) = None.

Lemma refs_cons d D m p : refs (d :: D) m p = refs [d] m p + refs D m p.
Proof.
  unfold refs, sites. cbn [mbind list_bind]. rewrite app_nil_r, filter_app, length_app. lia.
Qed.

Lemma empty_dir_target m d s :
  empty_dir m d → s ∈ sites [d] → target m s = if decide (s = SDir d) then Some d else None.
Proof.
  intros He Hs. apply elem_of_sites in Hs as [Hd Hwf]. apply list_elem_of_singleton in Hd.
  destruct s as [d'|d' i|d' i j]; cbn in *; subst.
  - by rewrite decide_True.
  - by rewrite He by lia.
  - by rewrite He by lia.
Qed.

Lemma filter_none {A} (P : A → Prop) `{∀ x, Decision (P x)} (l : list A) :
  (∀ x, x ∈ l → ¬ P x) → length (filter P l) = 0%nat.
Proof.
  induction l as [|x l IH]; intros H'; [done|]. rewrite filter_cons_False by (apply H'; left).
  apply IH. intros y Hy. apply H'. by right.
Qed.

Lemma refs_empty_dir m d p : empty_dir m d → refs [d] m p = ind (p = d).
Proof.
  intros He. pose proof (NoDup_dir_sites d) as Hnd.
  assert (∀ s, s ∈ dir_sites d → target m s = if decide (s = SDir d) then Some d else None) as Ht.
  { intros s Hs. apply empty_dir_target; [done|]. apply elem_of_sites.
    apply elem_of_dir_sites in Hs as [-> ?]. split; [left|done]. }
  unfold refs, sites. cbn [mbind list_bind]. rewrite app_nil_r.
  unfold dir_sites in *. set (l := seqZ 0 NUSER ≫= table_sites d) in *. clearbody l.
  apply NoDup_cons in Hnd as [Hnd _]. rewrite filter_cons.
  assert (length (filter (λ s, target m s = Some p) l) = 0%nat) as E.
  { apply filter_none. intros s Hs. rewrite Ht by (by right).
    by rewrite decide_False by (intros ->; done). }
  unfold ind. cbn [target]. repeat case_decide; cbn; rewrite ?E; naive_solver.
Qed.

Section dirs.
Context (R : Z → Z).
Implicit Types (m : memst) (fl D : list Z).

(** A page without references becomes the directory of a new address space. *)
Lemma add_dir_inv D fl m d :
  mm_inv D R fl m → d ∉ fl → pages m !! d = Some (MkPageInfo None 0) → empty_dir m d →
  mm_inv (d :: D) R fl (set_pages (<[d := MkPageInfo None 1]> (pages m)) m).
Proof.
  intros Hinv Hd Hpi He. set (m' := set_pages _ m).
  destruct (inv_ref _ _ _ _ Hinv d _ Hpi) as [Hr _]. cbn in Hr.
  pose proof (refs_nonneg D m d). pose proof (inv_R _ _ _ _ Hinv d).
  assert (∀ s, target m' s = target m s) as Ht by done.
  assert (∀ p, refs (d :: D) m' p = ind (p = d) + refs D m p) as Er.
  { intros p. rewrite refs_cons. change (refs D m' p) with (refs D m p).
    by rewrite refs_empty_dir. }
  assert (∀ s p, s ∈ sites (d :: D) → target m' s = Some p →
            (s = SDir d ∧ p = d) ∨ s ∈ sites D ∧ target m s = Some p) as Hcase.
  { intros s p Hs Hp. rewrite (elem_of_sites D). rewrite elem_of_sites in Hs.
    destruct Hs as [[Hs|Hs]%elem_of_cons Hwf]; [|by right]. left.
    rewrite Ht, (empty_dir_target m d) in Hp; [|done|].
    - destruct (decide (s = SDir d)); [|done]. by injection Hp as <-.
    - apply elem_of_sites. rewrite Hs. split; [left|done]. }
  assert (d ∉ D) as HdD.
  { intros Hin. pose proof (refs_pos D m d (SDir d) (sdir_in D d Hin) eq_refl). lia. }
  assert (0 ≤ d < npages m) as Hrange by (apply (inv_dom _ _ _ _ Hinv); eauto).
  destruct Hinv as [? Hdom HD HR Hchain Hndup Hfree Hlink Href Htgt Htable]. split; auto.
  - intros p. cbn. destruct (decide (d = p)) as [<-|Hne].
    + rewrite lookup_insert_eq. split; [done|]. by eexists.
    + by rewrite lookup_insert_ne.
  - by apply NoDup_cons.
  - cbn. by apply free_chain_insert.
  - intros p Hp. rewrite Er, ind_false by (intros ->; done). by apply Hfree.
  - intros p pi. cbn. destruct (decide (d = p)) as [<-|Hne].
    + rewrite lookup_insert_eq. intros [= <-] _. done.
    + rewrite lookup_insert_ne by done. by apply Hlink.
  - intros p pi. cbn. rewrite Er. destruct (decide (d = p)) as [<-|Hne].
    + rewrite lookup_insert_eq. intros [= <-]. cbn. rewrite ind_true by done. lia.
    + rewrite lookup_insert_ne, ind_false by done. by apply Href.
  - intros s p Hs Hp. destruct (Hcase s p Hs Hp) as [[_ ->]|[??]]; [done|by eapply Htgt].
  - intros s t Hs Hts Hp. rewrite Er. destruct (Hcase s t Hs Hp) as [[_ ->]|[Hs' Hp']].
    + rewrite ind_true by done. lia.
    + destruct (Htable s t Hs' Hts Hp') as [Ht1 HRt].
      rewrite ind_false by (intros ->; lia). lia.
Qed.

(** The last reference to an emptied directory is dropped. *)
Lemma drop_dir_inv D fl m d :
  mm_inv (d :: D) R fl m → empty_dir m d →
  mm_inv D R fl (set_pages (<[d := MkPageInfo None 0]> (pages m)) m) ∧
  pages m !! d = Some (MkPageInfo None 1) ∧ d ∉ fl.
Proof.
  intros Hinv He. set (m' := set_pages _ m).
  assert (∀ p, refs (d :: D) m p = ind (p = d) + refs D m p) as Er.
  { intros p. by rewrite refs_cons, refs_empty_dir. }
  assert (SDir d ∈ sites (d :: D)) as Hsd by (apply sdir_in; left).
  destruct (inv_table _ _ _ _ Hinv (SDir d) d Hsd eq_refl eq_refl) as [Hr1 HR0].
  pose proof (inv_target _ _ _ _ Hinv (SDir d) d Hsd eq_refl) as Hrange.
  assert (d ∉ fl) as Hd by (intros Hd; destruct (inv_free _ _ _ _ Hinv d Hd); lia).
  destruct (proj2 (inv_dom _ _ _ _ Hinv d) Hrange) as [pi Hpi].
  pose proof (inv_ref _ _ _ _ Hinv d pi Hpi) as [Hrf _].
  pose proof (inv_link _ _ _ _ Hinv d pi Hpi Hd) as Hl.
  assert (pages m !! d = Some (MkPageInfo None 1)) as Hpi'.
  { rewrite Hpi. destruct pi as [l r]. cbn in *. do 2 f_equal; [done|lia]. }
  split; [|done]. rewrite Er, ind_true in Hr1 by done.
  assert (∀ s, s ∈ sites D → s ∈ sites (d :: D)) as Hsub.
  { intros s. rewrite !elem_of_sites, elem_of_cons. tauto. }
  destruct Hinv as [? Hdom HD HR Hchain Hndup Hfree Hlink Href Htgt Htable]. split; auto.
  - intros p. cbn. destruct (decide (d = p)) as [<-|Hne].
    + rewrite lookup_insert_eq. split; [done|]. by eexists.
    + by rewrite lookup_insert_ne.
  - by apply NoDup_cons in HD as [_ ?].
  - cbn. by apply free_chain_insert.
  - intros p Hp. destruct (Hfree p Hp) as [H0 ?]. rewrite Er in H0.
    pose proof (ind_range (p = d)). pose proof (refs_nonneg D m p).
    change (refs D m' p) with (refs D m p). lia.
  - intros p qi. cbn. destruct (decide (d = p)) as [<-|Hne].
    + rewrite lookup_insert_eq. intros [= <-] _. done.
    + rewrite lookup_insert_ne by done. by apply Hlink.
  - intros p qi. cbn. change (refs D m' p) with (refs D m p).
    destruct (decide (d = p)) as [<-|Hne].
    + rewrite lookup_insert_eq. intros [= <-]. cbn. lia.
    + rewrite lookup_insert_ne by done. intros Hq. destruct (Href p qi Hq) as [H1 ?].
      rewrite Er, ind_false in H1 by done. lia.
  - intros s p Hs. by apply Htgt, Hsub.
  - intros s t Hs Hts Ht. destruct (Htable s t (Hsub s Hs) Hts Ht) as [H1 ?].
    change (refs D m' t) with (refs D m t). rewrite Er in H1.
    pose proof (refs_pos D m t s Hs Ht). pose proof (ind_range (t = d)). lia.
Qed.
End dirs.

(** The order of the directories does not matter. *)
Lemma refs_perm D D' m p : D ≡ₚ D' → refs D m p = refs D' m p.
Proof.
  intros H. unfold refs. f_equal. apply Permutation_length. apply filter_Permutation.
  unfold sites. by apply bind_Permutation.
Qed.

Lemma mm_inv_perm D D' R fl m : D ≡ₚ D' → mm_inv D R fl m → mm_inv D' R fl m.
Proof.
  intros H [? Hdom HD HR Hchain Hndup Hfree Hlink Href Htgt Htable].
  assert (∀ p, refs D' m p = refs D m p) as Er by (intros; by apply refs_perm).
  assert (∀ s, s ∈ sites D' → s ∈ sites D) as Hs.
  { intros s. rewrite !elem_of_sites. by rewrite H. }
  split; auto.
  - by rewrite <- H.
  - intros p. rewrite Er. apply Hfree.
  - intros p pi. rewrite Er. apply Href.
  - intros s p ?. apply Htgt. auto.
  - intros s t ?. rewrite Er. apply Htable. auto.
Qed.

Lemma is_table_perm D D' m f : D ≡ₚ D' → is_table D m f → is_table D' m f.
Proof.
  intros H (s & Hs & Hts & Hf). exists s. split; [|done]. rewrite elem_of_sites in *.
  by rewrite <- H.
Qed.

Section kernel_half.
Context (D : list Z) (R : Z → Z).
Implicit Types (m : memst) (fl : list Z).

(** Entries at or above [UTOP] are not reference sites. *)
Lemma target_wr_kern fl m d i v :
  mm_inv D R fl m → d ∈ D → NUSER ≤ i →
  ∀ s, s ∈ sites D → target (wr d i v m) s = target m s.
Proof.
  intros Hinv Hd Hi s Hs. pose proof Hs as Hs'. apply elem_of_sites in Hs' as [HD Hwf].
  destruct s as [d'|d' i'|d' i' j']; cbn in *; [done|..].
  - rewrite rd_wr_pair; [done|]. intros [= -> ->]. lia.
  - rewrite rd_wr_pair by (intros [= -> ->]; lia).
    destruct (frame_of (rd m d' i')) as [t|] eqn:E; [|done].
    rewrite rd_wr_ne; [done|]. left. intros ->.
    discriminate (table_site_inj D R fl m Hinv (SDir t) (STab d' i') t); auto using sdir_in, stab_in.
    apply stab_in; [done|lia].
Qed.

Lemma wr_kern_inv fl m d i v :
  mm_inv D R fl m → d ∈ D → NUSER ≤ i → mm_inv D R fl (wr d i v m).
Proof. intros Hinv Hd Hi. eapply mm_inv_targets; eauto using target_wr_kern. Qed.

(** *** Detaching an emptied table *)
Definition detach_st (d i t : Z) (m : memst) : memst :=
  set_pages (<[t := MkPageInfo None 0]> (pages m)) (wr d i 0 m).

Lemma detach_inv fl m d i t :
  mm_inv D R fl m → STab d i ∈ sites D → frame_of (rd m d i) = Some t →
  (∀ j, 0 ≤ j < 1024 → frame_of (rd m t j) = None) →
  mm_inv D R fl (detach_st d i t m) ∧ pages m !! t = Some (MkPageInfo None 1) ∧ t ∉ fl ∧
  (∀ s, s ∈ sites D → s ≠ STab d i → target (detach_st d i t m) s = target m s).
Proof.
  intros Hinv Hs Ht Hempty.
  destruct (inv_table _ _ _ _ Hinv (STab d i) t Hs eq_refl Ht) as [Hr1 HR0].
  pose proof (inv_target _ _ _ _ Hinv (STab d i) t Hs Ht) as Hrange.
  assert (t ∉ fl) as Htfl by (intros H; destruct (inv_free _ _ _ _ Hinv t H); lia).
  destruct (proj2 (inv_dom _ _ _ _ Hinv t) Hrange) as [pi Hpi].
  destruct (inv_ref _ _ _ _ Hinv t pi Hpi) as [Href _].
  pose proof (inv_link _ _ _ _ Hinv t pi Hpi Htfl) as Hl.
  assert (pi = MkPageInfo None 1) as -> by (destruct pi; cbn in *; f_equal; [done|lia]).
  destruct (target_wr_pde D R fl m Hinv d i 0 Hs) as [Hself Hoth].
  assert (∀ s, s ∈ sites D → s ≠ STab d i → target (wr d i 0 m) s = target m s) as Hoth'.
  { intros s Hs' Hne. destruct s as [d'|d' i'|d' i' j']; [done|by apply Hoth|].
    destruct (decide (d' = d ∧ i' = i)) as [[-> ->]|Hdi].
    - cbn. rewrite rd_wr_eq, Ht. cbn. symmetry. apply Hempty.
      apply elem_of_sites in Hs' as [_ [_ ?]]. done.
    - apply Hoth; [done|done|]. intros j [= -> -> _]. by apply Hdi. }
  split; [|done]. eapply (mm_inv_update D R fl m _ (STab d i) t _ 0); eauto.
Qed.
End kernel_half.
