(* ===== verification/PmapBoot.v ===== *)
(** * Booting the memory system

    [i386_detect_memory], [boot_alloc] and [page_init]: after them the page
    array satisfies [mm_inv] with no address space yet, the reserved pages
    counted once and every other page on the free list. *)

From stdpp Require Import base gmap list strings.
From Stdlib Require Import ZArith Lia.
From S2P Require Import Prelude Mmu Pmap PmapInv PmapOps.

Set Default Proof Using "Type".

(** Pages [page_init] keeps off the free list. *)
Definition reserved (nbase limit i : Z) : bool :=
  (i =? 0) || (i =? PGNUM MPENTRY_PADDR) || (nbase <=? i) && (i <? limit).

(** The free list after [n] iterations, last page first. *)
Fixpoint boot_list (nbase limit : Z) (n : nat) : list Z :=
  match n with
  | O => []
  | S k => if reserved nbase limit (Z.of_nat k) then boot_list nbase limit k
           else Z.of_nat k :: boot_list nbase limit k
  end.

(** The count each page has after [page_init]. *)
Definition boot_refs (nbase limit n i : Z) : Z :=
  if (0 <=? i) && (i <? n) && reserved nbase limit i then 1 else 0.

Lemma elem_of_boot_list nbase limit n p :
  p ∈ boot_list nbase limit n ↔ 0 ≤ p < Z.of_nat n ∧ reserved nbase limit p = false.
Proof.
  induction n as [|n IH]; cbn [boot_list].
  - split; [by intros ?%elem_of_nil|lia].
  - destruct (reserved nbase limit (Z.of_nat n)) eqn:E.
    + rewrite IH. split; [intros [? ?]; split; [lia|done]|].
      intros [? Hp]. split; [|done]. assert (p ≠ Z.of_nat n) by congruence. lia.
    + rewrite elem_of_cons, IH. split.
      * intros [->|[? ?]]; split; done || lia.
      * intros [? ?]. destruct (decide (p = Z.of_nat n)); [by left|right]. split; [lia|done].
Qed.

Lemma NoDup_boot_list nbase limit n : NoDup (boot_list nbase limit n).
Proof.
  induction n as [|n IH]; cbn [boot_list]; [constructor|].
  case_match; [done|]. constructor; [|done]. rewrite elem_of_boot_list. lia.
Qed.

(** The zeroed page array [mem_init] hands to [page_init]. *)
Record page_array (m : memst) : Prop := MkPageArray {
  pa_np : 0 < npages m ≤ 2 ^ 16;
  pa_pages : ∀ p, pages m !! p =
    if decide (0 ≤ p < npages m) then Some (MkPageInfo None 0) else None;
  pa_list : page_free_list m = None
}.

(** State of the loop of [page_init] before iteration [i]. *)
Record init_inv (nbase limit : Z) (m0 : memst) (i : Z) (m : memst) : Prop := MkInitInv {
  ii_frames : frames m = frames m0;
  ii_static : same_static m0 m ∧ tlb m = tlb m0;
  ii_chain : free_chain (pages m) (page_free_list m) (boot_list nbase limit (Z.to_nat i));
  ii_dom : ∀ p, is_Some (pages m !! p) ↔ 0 ≤ p < npages m;
  ii_new : ∀ p, i ≤ p < npages m → pages m !! p = Some (MkPageInfo None 0);
  ii_ref : ∀ p pi, pages m !! p = Some pi → pp_ref pi = boot_refs nbase limit i p;
  ii_link : ∀ p pi, pages m !! p = Some pi →
    p ∉ boot_list nbase limit (Z.to_nat i) → pp_link pi = None
}.

Lemma page_init_body_eq nbase ioh alloc i m :
  pages m !! i = Some (MkPageInfo None 0) →
  page_init_body nbase ioh alloc i m =
    Ret tt (if reserved nbase (nbase + ioh + alloc) i
            then set_pages (<[i := MkPageInfo None 1]> (pages m)) m else free_st i m).
Proof.
  intros Hi. unfold page_init_body, bind, page_at. rewrite Hi; cbn -[PGNUM].
  unfold reserved. destruct ((i =? 0) || (i =? PGNUM MPENTRY_PADDR)); cbn -[PGNUM]; [done|].
  by destruct ((nbase <=? i) && _).
Qed.

Lemma boot_refs_step nbase limit i p :
  0 ≤ i → boot_refs nbase limit (i + 1) p =
    if decide (p = i) then (if reserved nbase limit i then 1 else 0) else boot_refs nbase limit i p.
Proof.
  intros Hi. unfold boot_refs. case_decide as Hp; [subst p|].
  - by destruct (Z.leb_spec 0 i), (Z.ltb_spec i (i + 1)); try lia.
  - destruct (Z.leb_spec 0 p); [|done].
    by destruct (Z.ltb_spec p (i + 1)), (Z.ltb_spec p i); try lia.
Qed.

Lemma init_inv_step nbase limit m0 i m :
  init_inv nbase limit m0 i m → 0 ≤ i < npages m →
  init_inv nbase limit m0 (i + 1)
    (if reserved nbase limit i then set_pages (<[i := MkPageInfo None 1]> (pages m)) m
     else free_st i m).
Proof.
  intros [Hf Hst Hc Hdom Hnew Hr Hl] Hi.
  assert (i ∉ boot_list nbase limit (Z.to_nat i)) as Hni by (rewrite elem_of_boot_list; lia).
  pose proof (Hnew i ltac:(lia)) as Hpi.
  set (pi := if reserved nbase limit i then MkPageInfo None 1
             else MkPageInfo (page_free_list m) 0).
  set (m' := if reserved nbase limit i then _ else _).
  assert (pages m' = <[i := pi]> (pages m)) as Ep
    by (unfold m', pi; by destruct (reserved nbase limit i)).
  assert (npages m' = npages m ∧ frames m' = frames m ∧ same_static m m' ∧ tlb m' = tlb m)
    as (En & Ef & Es & Et) by (unfold m'; by destruct (reserved nbase limit i)).
  assert (boot_list nbase limit (Z.to_nat (i + 1)) =
          if reserved nbase limit i then boot_list nbase limit (Z.to_nat i)
          else i :: boot_list nbase limit (Z.to_nat i)) as El.
  { replace (Z.to_nat (i + 1)) with (S (Z.to_nat i)) by lia. cbn [boot_list].
    by rewrite Z2Nat.id by lia. }
  split; rewrite ?En, ?Ep, ?El.
  - congruence.
  - destruct Hst. split; [by eapply same_static_trans|congruence].
  - unfold m', pi. destruct (reserved nbase limit i); cbn.
    + by apply free_chain_insert.
    + split; [done|]. eexists. rewrite lookup_insert_eq. split; [done|]. by apply free_chain_insert.
  - intros p. destruct (decide (i = p)) as [<-|Hne]; [rewrite lookup_insert_eq|by rewrite lookup_insert_ne].
    split; [lia|by eexists].
  - intros p Hp. rewrite lookup_insert_ne by lia. apply Hnew. lia.
  - intros p qi. rewrite boot_refs_step by lia. destruct (decide (p = i)) as [->|Hne].
    + rewrite lookup_insert_eq. intros [= <-]. unfold pi. by destruct (reserved nbase limit i).
    + rewrite lookup_insert_ne by done. apply Hr.
  - intros p qi. destruct (decide (i = p)) as [<-|Hne].
    + rewrite lookup_insert_eq. intros [= <-]. unfold pi.
      destruct (reserved nbase limit i); [done|]. intros Hn. exfalso. apply Hn. left.
    + rewrite lookup_insert_ne by done. intros Hq Hn. apply (Hl p); [done|].
      intros Hin. apply Hn. destruct (reserved nbase limit i); [done|by right].
Qed.

(** With no address space the invariant is about the page array alone. *)
Lemma init_inv_done nbase limit m0 m :
  init_inv nbase limit m0 (npages m) m → 0 < npages m ≤ 2 ^ 16 →
  mm_inv [] (boot_refs nbase limit (npages m))
    (boot_list nbase limit (Z.to_nat (npages m))) m.
Proof.
  intros [Hf Hst Hc Hdom Hnew Hr Hl] Hn.
  assert (∀ s, s ∉ sites []) as Hno by (intros s Hs; by apply elem_of_nil in Hs).
  split; auto.
  - constructor.
  - intros p. unfold boot_refs. case_match; lia.
  - apply NoDup_boot_list.
  - intros p [? Hp]%elem_of_boot_list. split; [done|]. unfold boot_refs. rewrite Hp.
    by rewrite andb_false_r.
  - intros p pi Hpi. rewrite (Hr p pi Hpi). split; [done|]. unfold boot_refs. case_match; lia.
  - intros s p Hs. by apply Hno in Hs.
  - intros s t Hs. by apply Hno in Hs.
Qed.

(** The boot allocator's next free address. *)
Definition boot_next (kend : Z) (m : memst) : Z :=
  if nextfree m =? 0 then ROUNDUP kend PGSIZE else nextfree m.

Lemma boot_alloc_0 kend m :
  is_u32 (boot_next kend m) →
  u32 (boot_next kend m - KERNBASE) ≤ u32 (npages m * PGSIZE) →
  boot_alloc kend 0 m = Ret (boot_next kend m) (set_nextfree (boot_next kend m) m).
Proof.
  intros Hb Hle. unfold boot_alloc, bind, gets, modify; cbn -[boot_next KERNBASE ROUNDUP u32].
  change (if nextfree m =? 0 then ROUNDUP kend PGSIZE else nextfree m) with (boot_next kend m).
  change (ROUNDUP 0 PGSIZE) with 0. rewrite Z.add_0_r, (u32_small (boot_next kend m)) by done.
  by destruct (Z.ltb_spec (u32 (npages m * PGSIZE)) (u32 (boot_next kend m - KERNBASE))); [lia|].
Qed.

(** First page after the boot allocations, plus the size of the I/O hole and of
    base memory: the end of the range [page_init] reserves. *)
Definition boot_limit (kend : Z) (m : memst) : Z :=
  npages_basemem m + PGNUM (EXTPHYSMEM - IOPHYSMEM) + PGNUM (u32 (boot_next kend m - KERNBASE)).

Lemma page_array_init nbase limit m : page_array m → init_inv nbase limit m 0 m.
Proof.
  intros [Hn Hp Hl]. split; rewrite ?Hl; auto with toynix; try done.
  - intros p. rewrite Hp. case_decide; split; done || by eexists.
  - intros p ?. by rewrite Hp, decide_True by lia.
  - intros p pi. rewrite Hp. case_decide; [|done]. intros [= <-]. unfold boot_refs.
    destruct (Z.leb_spec 0 p), (Z.ltb_spec p 0); try lia; done.
  - intros p pi. rewrite Hp. case_decide; [|done]. by intros [= <-].
Qed.

Lemma page_init_spec kend m :
  page_array m → is_u32 (boot_next kend m) →
  u32 (boot_next kend m - KERNBASE) ≤ u32 (npages m * PGSIZE) →
  wpr (page_init kend) (λ _ m',
    mm_inv [] (boot_refs (npages_basemem m) (boot_limit kend m) (npages m))
      (boot_list (npages_basemem m) (boot_limit kend m) (Z.to_nat (npages m))) m' ∧
    frames m' = frames m ∧ npages m' = npages m) m.
Proof.
  intros Hpa Hb Hle. unfold page_init. apply wp_bind. eapply wp_intro; [by apply boot_alloc_0|].
  apply wp_bind, wp_gets, wp_bind, wp_gets.
  set (m1 := set_nextfree (boot_next kend m) m).
  assert (page_array m1) as Hpa1 by (destruct Hpa; by split).
  change (npages_basemem m1) with (npages_basemem m). change (npages m1) with (npages m).
  eapply wp_mono_ret.
  - apply (wp_for_up (λ i s, init_inv (npages_basemem m) (boot_limit kend m) m1 i s)).
    + by apply page_array_init.
    + intros i s Hi HI. rewrite Z2Nat.id in Hi by (pose proof (pa_np _ Hpa); lia).
      assert (npages s = npages m) as Hn by (by destruct (ii_static _ _ _ _ _ HI) as [[] _]).
      eapply wp_intro; [apply page_init_body_eq; eapply ii_new; eauto; lia|].
      apply init_inv_step; [done|lia].
  - intros [] s HI. rewrite Z.add_0_l, Z2Nat.id in HI by (pose proof (pa_np _ Hpa); lia).
    destruct (ii_static _ _ _ _ _ HI) as [[Hn _] _]. change (npages m1) with (npages m) in Hn.
    split; [|split; [apply (ii_frames _ _ _ _ _ HI)|done]].
    rewrite <- Hn. apply (init_inv_done _ _ m1); rewrite Hn; [done|apply Hpa].
Qed.

(** Frames of the kernel image and its boot-time allocations, of the I/O hole and
    the two reserved pages stay off the list. *)
Lemma boot_list_safe kend m n p :
  0 ≤ npages_basemem m ≤ PGNUM IOPHYSMEM →
  p ∈ boot_list (npages_basemem m) (boot_limit kend m) n →
  p ≠ 0 ∧ p ≠ PGNUM MPENTRY_PADDR ∧
  ¬ (PGNUM IOPHYSMEM ≤ p < npages_basemem m + PGNUM (EXTPHYSMEM - IOPHYSMEM)) ∧
  ¬ (PGNUM EXTPHYSMEM ≤ p < PGNUM (u32 (boot_next kend m - KERNBASE))).
Proof.
  intros Hn [? Hr]%elem_of_boot_list. unfold reserved, boot_limit in Hr.
  set (a := PGNUM (u32 _)) in *.
  assert (0 ≤ a) by (unfold a; rewrite PGNUM_div; pose proof (u32_range (boot_next kend m - KERNBASE));
                     unfold is_u32 in *; dlia).
  change (PGNUM MPENTRY_PADDR) with 7 in *. change (PGNUM IOPHYSMEM) with 160 in *.
  change (PGNUM EXTPHYSMEM) with 256. change (PGNUM (EXTPHYSMEM - IOPHYSMEM)) with 96 in *.
  destruct (Z.eqb_spec p 0), (Z.eqb_spec p 7), (Z.leb_spec (npages_basemem m) p),
    (Z.ltb_spec p (npages_basemem m + 96 + a)); cbn in Hr; try done; lia.
Qed.
