(* ===== verification/MemInit.v ===== *)
(** * [mem_init] and the kernel's own checks ([kernel/pmap.c])

    The whole of [mem_init]: memory detection, the boot allocations, [page_init],
    the mappings of [kern_pgdir], the switch to it, and the five [check_*]
    functions it runs on the way.  Linker symbols ([end], [percpu_kstacks]) and
    [sizeof(struct Env)] are parameters; a boot-time address [kva] is the plain
    32-bit address and [kva_frame kva] the frame it lies in. *)

From stdpp Require Import base gmap list strings.
From Stdlib Require Import ZArith Lia.
From S2P Require Import Prelude Mmu Pmap.

Definition paddr (kva : Z) : M memst Z :=
  if kva <? KERNBASE then panic "PADDR called with invalid kva" else ret (u32 (kva - KERNBASE)).

Definition kva_frame (kva : Z) : Z := PGNUM (u32 (kva - KERNBASE)).

(** [memset] of the first [n] words of a frame to a word of equal bytes. *)
Definition memset_words (f n w : Z) : M memst unit :=
  for_up (Z.to_nat n) 0 (λ i, modify (wr f i w)).

(** ** The free list *)

(** [for (pp = page_free_list; pp; pp = pp->pp_link) body(pp)]; no list is longer
    than the page array. *)
Fixpoint for_link (fuel : nat) (pp : option Z) (body : Z → M memst unit) : M memst unit :=
  match pp with
  | None => ret tt
  | Some p =>
      match fuel with
      | O => fault
      | S fuel' =>
          do* body p in
          let* pi := page_at p in
          for_link fuel' (pp_link pi) body
      end
  end.

Definition for_free (body : Z → M memst unit) : M memst unit :=
  let* n := gets npages in
  let* fl := gets page_free_list in
  for_link (Z.to_nat n) fl body.

(** The lvalue a [struct PageInfo **] designates: [pp1], [pp2] or a [pp_link]. *)
Inductive link_ref := LVar (k : bool) | LLink (p : Z).

Definition link_store (vars : bool → option Z) (r : link_ref) (v : option Z)
    : M memst (bool → option Z) :=
  match r with
  | LVar k => ret (λ k', if Bool.eqb k k' then v else vars k')
  | LLink p =>
      let* pi := page_at p in
      do* set_page p (MkPageInfo v (pp_ref pi)) in ret vars
  end.

(** The loop that sorts low pages first: [tp] are the two tails, [vars] the
    locals [pp1] ([false]) and [pp2] ([true]). *)
Fixpoint split_low (fuel : nat) (pdx_limit : Z) (pp : option Z)
    (vars : bool → option Z) (tp : bool → link_ref)
    : M memst ((bool → option Z) * (bool → link_ref)) :=
  match pp with
  | None => ret (vars, tp)
  | Some p =>
      match fuel with
      | O => fault
      | S fuel' =>
          let pagetype := pdx_limit <=? PDX (page2pa p) in
          let* vars' := link_store vars (tp pagetype) (Some p) in
          let tp' := λ k, if Bool.eqb pagetype k then LLink p else tp k in
          let* pi := page_at p in
          split_low fuel' pdx_limit (pp_link pi) vars' tp'
      end
  end.

Definition count_free : M memst Z :=
  let* n := gets npages in
  let* fl := gets page_free_list in
  let fix go (fuel : nat) (pp : option Z) (k : Z) : M memst Z :=
    match pp with
    | None => ret k
    | Some p =>
        match fuel with
        | O => fault
        | S fuel' => let* pi := page_at p in go fuel' (pp_link pi) (k + 1)
        end
    end in
  go (Z.to_nat n) fl 0.

(** The assertions on one page of the free list. *)
Definition check_free_page (first_free_page : Z) (p : Z) : M memst unit :=
  let* n := gets npages in
  do* massert (0 <=? p) in
  do* massert (p <? n) in
  do* massert (negb (page2pa p =? 0)) in
  do* massert (negb (page2pa p =? IOPHYSMEM)) in
  do* massert (negb (page2pa p =? EXTPHYSMEM - PGSIZE)) in
  do* massert (negb (page2pa p =? EXTPHYSMEM)) in
  do* (if page2pa p <? EXTPHYSMEM then ret tt else
       let* k := page2kva p in
       massert (first_free_page <=? u32 (Z.shiftl k PGSHIFT + KERNBASE))) in
  massert (negb (page2pa p =? MPENTRY_PADDR)).

(** The last loop: every page is checked, and [nfree_basemem] and [nfree_extmem]
    count the pages below and above 1MB. *)
Fixpoint count_types (first_free_page : Z) (fuel : nat) (pp : option Z) (nb ne : Z) : M memst (Z * Z) :=
  match pp with
  | None => ret (nb, ne)
  | Some p =>
      match fuel with
      | O => fault
      | S fuel' =>
          do* check_free_page first_free_page p in
          let* pi := page_at p in
          if page2pa p <? EXTPHYSMEM
          then count_types first_free_page fuel' (pp_link pi) (nb + 1) ne
          else count_types first_free_page fuel' (pp_link pi) nb (ne + 1)
      end
  end.

Definition check_page_free_list (kend : Z) (only_low_memory : bool) : M memst unit :=
  let pdx_limit := if only_low_memory then 1 else NPDENTRIES in
  let* fl := gets page_free_list in
  let* n := gets npages in
  match fl with
  | None => panic "'page_free_list' is a null pointer!"
  | Some _ =>
      do* (if only_low_memory then
             let* r := split_low (Z.to_nat n) pdx_limit fl (λ _, None) LVar in
             let '(vars, tp) := r in
             let* vars := link_store vars (tp true) None in
             let* vars := link_store vars (tp false) (vars true) in
             modify (set_page_free_list (vars false))
           else ret tt) in
      do* for_free (λ p,
            if PDX (page2pa p) <? pdx_limit then
              let* k := page2kva p in memset_words k 32 0x97979797
            else ret tt) in
      let* first_free_page := boot_alloc kend 0 in
      let* fl := gets page_free_list in
      let* r := count_types first_free_page (Z.to_nat n) fl 0 0 in
      do* massert (0 <? r.1) in
      massert (0 <? r.2)
  end.

(** ** [check_page_alloc] *)

(** [assert((pp = page_alloc(flags)))] *)
Definition must_alloc (flags : Z) : M memst Z :=
  let* pp := page_alloc flags in
  match pp with Some p => ret p | None => panic "assertion failed" end.

(** [assert(!page_alloc(0))] *)
Definition no_alloc : M memst unit :=
  let* pp := page_alloc 0 in
  massert (bool_decide (pp = None)).

Definition distinct3 (pp0 pp1 pp2 : Z) : M memst unit :=
  do* massert (negb (pp1 =? pp0)) in
  massert (negb (pp2 =? pp1) && negb (pp2 =? pp0)).

Definition check_page_alloc : M memst unit :=
  let* nfree := count_free in
  let* pp0 := must_alloc 0 in
  let* pp1 := must_alloc 0 in
  let* pp2 := must_alloc 0 in
  do* distinct3 pp0 pp1 pp2 in
  let* np := gets npages in
  do* massert (page2pa pp0 <? u32 (np * PGSIZE)) in
  do* massert (page2pa pp1 <? u32 (np * PGSIZE)) in
  do* massert (page2pa pp2 <? u32 (np * PGSIZE)) in
  let* fl := gets page_free_list in
  do* modify (set_page_free_list None) in
  do* no_alloc in
  do* page_free pp0 in
  do* page_free pp1 in
  do* page_free pp2 in
  let* pp0 := must_alloc 0 in
  let* pp1 := must_alloc 0 in
  let* pp2 := must_alloc 0 in
  do* distinct3 pp0 pp1 pp2 in
  do* no_alloc in
  let* k := page2kva pp0 in
  do* memset_words k 1024 0x01010101 in
  do* page_free pp0 in
  let* pp := must_alloc ALLOC_ZERO in
  do* massert (pp0 =? pp) in
  let* c := page2kva pp in
  do* for_up 1024 0 (λ i, let* w := load (c, i) in massert (w =? 0)) in
  do* modify (set_page_free_list fl) in
  do* page_free pp0 in
  do* page_free pp1 in
  do* page_free pp2 in
  let* n := count_free in
  massert (nfree - n =? 0).

(** ** [check_page] *)

(** [~0] when nothing is mapped. *)
Definition check_va2pa (pgdir va : Z) : M memst Z :=
  let* pde := load (pgdir, PDX va) in
  if negb (ctrue (Z.land pde PTE_P)) then ret (2 ^ 32 - 1) else
  let* p := KADDR (PTE_ADDR pde) in
  let* e := load (p, PTX va) in
  if negb (ctrue (Z.land e PTE_P)) then ret (2 ^ 32 - 1) else ret (PTE_ADDR e).

Definition assert_va2pa (pgdir va pa : Z) : M memst unit :=
  let* x := check_va2pa pgdir va in massert (x =? pa).

Definition assert_ref (pp n : Z) : M memst unit :=
  let* pi := page_at pp in massert (pp_ref pi =? n).

(** [assert(page_insert(...) == 0)]; there is no current environment yet. *)
Definition must_insert (pgdir pp va perm : Z) : M memst unit :=
  let* r := page_insert None pgdir (Some pp) va perm in massert (r =? 0).

Definition no_insert (pgdir pp va perm : Z) : M memst unit :=
  let* r := page_insert None pgdir (Some pp) va perm in massert (r <? 0).

(** [*pgdir_walk(pgdir, va, 0)] *)
Definition walk_load (pgdir va : Z) : M memst Z :=
  let* w := pgdir_walk pgdir va false in
  let* p := deref w in load p.

Definition walk_clear (pgdir va : Z) : M memst unit :=
  let* w := pgdir_walk pgdir va false in
  let* p := deref w in store p 0.

(** [pgdir[i] = 0; pp->pp_ref = 0], how the checks take a table back. *)
Definition take_back (pgdir i pp : Z) : M memst unit :=
  do* store (pgdir, i) 0 in
  let* pi := page_at pp in
  set_page pp (MkPageInfo (pp_link pi) 0).

(** Up to the point where [pp2] has replaced nothing and can be remapped. *)
Definition check_page_insert (kd pp0 pp1 pp2 : Z) : M memst unit :=
  do* no_alloc in
  let* l := page_lookup kd 0 in
  do* massert (bool_decide (l = None)) in
  do* no_insert kd pp1 0 PTE_W in
  do* page_free pp0 in
  do* must_insert kd pp1 0 PTE_W in
  let* pde := load (kd, 0) in
  do* massert (PTE_ADDR pde =? page2pa pp0) in
  do* assert_va2pa kd 0 (page2pa pp1) in
  do* assert_ref pp1 1 in
  do* assert_ref pp0 1 in
  do* must_insert kd pp2 PGSIZE PTE_W in
  do* assert_va2pa kd PGSIZE (page2pa pp2) in
  do* assert_ref pp2 1 in
  do* no_alloc in
  do* must_insert kd pp2 PGSIZE PTE_W in
  do* assert_va2pa kd PGSIZE (page2pa pp2) in
  do* assert_ref pp2 1 in
  do* no_alloc in
  let* pde := load (kd, PDX PGSIZE) in
  let* ptep := KADDR (PTE_ADDR pde) in
  let* w := pgdir_walk kd PGSIZE false in
  do* massert (bool_decide (w = Some (ptep, PTX PGSIZE))) in
  do* must_insert kd pp2 PGSIZE (Z.lor PTE_W PTE_U) in
  do* assert_va2pa kd PGSIZE (page2pa pp2) in
  do* assert_ref pp2 1 in
  let* e := walk_load kd PGSIZE in
  do* massert (ctrue (Z.land e PTE_U)) in
  let* pde := load (kd, 0) in
  do* massert (ctrue (Z.land pde PTE_U)) in
  do* must_insert kd pp2 PGSIZE PTE_W in
  let* e := walk_load kd PGSIZE in
  do* massert (ctrue (Z.land e PTE_W)) in
  massert (negb (ctrue (Z.land e PTE_U))).

(** From replacing [pp2] by [pp1] to the last unmapping. *)
Definition check_page_remove (kd pp0 pp1 pp2 : Z) : M memst unit :=
  do* no_insert kd pp0 PTSIZE PTE_W in
  do* must_insert kd pp1 PGSIZE PTE_W in
  let* e := walk_load kd PGSIZE in
  do* massert (negb (ctrue (Z.land e PTE_U))) in
  do* assert_va2pa kd 0 (page2pa pp1) in
  do* assert_va2pa kd PGSIZE (page2pa pp1) in
  do* assert_ref pp1 2 in
  do* assert_ref pp2 0 in
  let* pp := must_alloc 0 in
  do* massert (pp =? pp2) in
  do* page_remove None kd 0 in
  do* assert_va2pa kd 0 (2 ^ 32 - 1) in
  do* assert_va2pa kd PGSIZE (page2pa pp1) in
  do* assert_ref pp1 1 in
  do* assert_ref pp2 0 in
  do* must_insert kd pp1 PGSIZE 0 in
  let* pi := page_at pp1 in
  do* massert (ctrue (pp_ref pi)) in
  do* massert (bool_decide (pp_link pi = None)) in
  do* page_remove None kd PGSIZE in
  do* assert_va2pa kd 0 (2 ^ 32 - 1) in
  do* assert_va2pa kd PGSIZE (2 ^ 32 - 1) in
  do* assert_ref pp1 0 in
  do* assert_ref pp2 0 in
  let* pp := must_alloc 0 in
  do* massert (pp =? pp1) in
  no_alloc.

(** The checks of [pgdir_walk]. *)
Definition check_page_walk (kd pp0 : Z) : M memst unit :=
  let* pde := load (kd, 0) in
  do* massert (PTE_ADDR pde =? page2pa pp0) in
  do* store (kd, 0) 0 in
  do* assert_ref pp0 1 in
  let* pi := page_at pp0 in
  do* set_page pp0 (MkPageInfo (pp_link pi) 0) in
  do* page_free pp0 in
  let va := PGSIZE * NPDENTRIES + PGSIZE in
  let* ptep := pgdir_walk kd va true in
  let* pde := load (kd, PDX va) in
  let* ptep1 := KADDR (PTE_ADDR pde) in
  do* massert (bool_decide (ptep = Some (ptep1, PTX va))) in
  do* take_back kd (PDX va) pp0 in
  let* k := page2kva pp0 in
  do* memset_words k 1024 0xFFFFFFFF in
  do* page_free pp0 in
  do* bind (pgdir_walk kd 0 true) (λ _, ret tt) in
  let* ptep := page2kva pp0 in
  do* for_up (Z.to_nat NPTENTRIES) 0 (λ i,
        let* e := load (ptep, i) in massert (Z.land e PTE_P =? 0)) in
  take_back kd 0 pp0.

Definition check_page_mmio (kd : Z) : M memst unit :=
  let* mm1 := mmio_map_region 0 4097 in
  let* mm2 := mmio_map_region 0 4096 in
  do* massert ((MMIOBASE <=? mm1) && (u32 (mm1 + 8096) <? MMIOLIM)) in
  do* massert ((MMIOBASE <=? mm2) && (u32 (mm2 + 8096) <? MMIOLIM)) in
  do* massert ((mm1 mod PGSIZE =? 0) && (mm2 mod PGSIZE =? 0)) in
  do* massert (u32 (mm1 + 8096) <=? mm2) in
  do* assert_va2pa kd mm1 0 in
  do* assert_va2pa kd (u32 (mm1 + PGSIZE)) PGSIZE in
  do* assert_va2pa kd mm2 0 in
  do* assert_va2pa kd (u32 (mm2 + PGSIZE)) (2 ^ 32 - 1) in
  let* e := walk_load kd mm1 in
  do* massert (ctrue (Z.land e (Z.lor (Z.lor PTE_W PTE_PWT) PTE_PCD))) in
  do* massert (negb (ctrue (Z.land e PTE_U))) in
  do* walk_clear kd mm1 in
  do* walk_clear kd (u32 (mm1 + PGSIZE)) in
  walk_clear kd mm2.

Definition check_page : M memst unit :=
  let* kd := gets kern_pgdir in
  let* pp0 := must_alloc 0 in
  let* pp1 := must_alloc 0 in
  let* pp2 := must_alloc 0 in
  do* distinct3 pp0 pp1 pp2 in
  let* fl := gets page_free_list in
  do* modify (set_page_free_list None) in
  do* check_page_insert kd pp0 pp1 pp2 in
  do* check_page_remove kd pp0 pp1 pp2 in
  do* check_page_walk kd pp0 in
  do* modify (set_page_free_list fl) in
  do* page_free pp0 in
  do* page_free pp1 in
  do* page_free pp2 in
  check_page_mmio kd.

(** ** [check_page_installed_pgdir] *)
Definition check_page_installed_pgdir : M memst unit :=
  let* kd := gets kern_pgdir in
  let* pp0 := must_alloc 0 in
  let* pp1 := must_alloc 0 in
  let* pp2 := must_alloc 0 in
  do* page_free pp0 in
  let* k1 := page2kva pp1 in
  do* memset_words k1 1024 0x01010101 in
  let* k2 := page2kva pp2 in
  do* memset_words k2 1024 0x02020202 in
  do* bind (page_insert None kd (Some pp1) PGSIZE PTE_W) (λ _, ret tt) in
  do* assert_ref pp1 1 in
  let* w := va_load32 PGSIZE in
  do* massert (w =? 0x01010101) in
  do* bind (page_insert None kd (Some pp2) PGSIZE PTE_W) (λ _, ret tt) in
  let* w := va_load32 PGSIZE in
  do* massert (w =? 0x02020202) in
  do* assert_ref pp2 1 in
  do* assert_ref pp1 0 in
  do* va_store32 PGSIZE 0x03030303 in
  let* k2 := page2kva pp2 in
  let* w := load (k2, 0) in
  do* massert (w =? 0x03030303) in
  do* page_remove None kd PGSIZE in
  do* assert_ref pp2 0 in
  let* pde := load (kd, 0) in
  do* massert (PTE_ADDR pde =? page2pa pp0) in
  do* store (kd, 0) 0 in
  do* assert_ref pp0 1 in
  let* pi := page_at pp0 in
  do* set_page pp0 (MkPageInfo (pp_link pi) 0) in
  page_free pp0.

Definition NCPU : Z := 8.
Definition NENV : Z := 1024.
Definition sizeof_PageInfo : Z := 8.

Section mem_init.
Context (cmos : Z → Z)           (* the clock chip's memory *)
        (kend : Z)               (* linker symbol [end] *)
        (percpu_kstacks : Z)     (* address of the array *)
        (sizeof_Env : Z).

(** [KSTACKTOP - i * (KSTKSIZE + KSTKGAP)] down to the stack's lowest page. *)
Definition mem_init_mp : M memst unit :=
  for_up (Z.to_nat NCPU) 0 (λ i,
    let kstacktop := KSTACKTOP - i * (KSTKSIZE + KSTKGAP) in
    let* pa := paddr (u32 (percpu_kstacks + i * KSTKSIZE)) in
    let* kd := gets kern_pgdir in
    boot_map_region kd (kstacktop - KSTKSIZE) KSTKSIZE pa PTE_W).

(** [for (i = 0; i < n; i += PGSIZE) assert(check_va2pa(pgdir, va + i) == pa + i)] *)
Definition check_range (pgdir va pa n : Z) : M memst unit :=
  for_up (Z.to_nat (n / PGSIZE)) 0 (λ k,
    assert_va2pa pgdir (u32 (va + k * PGSIZE)) (u32 (pa + k * PGSIZE))).

(** The directory entries [check_kern_pgdir] expects to be present. *)
Definition kern_pde_listed (i : Z) : bool :=
  (i =? PDX UVPT) || (i =? PDX (KSTACKTOP - 1)) || (i =? PDX UPAGES) ||
  (i =? PDX UENVS) || (i =? PDX MMIOBASE).

Definition check_kern_pgdir (pages_kva envs_kva : Z) : M memst unit :=
  let* pgdir := gets kern_pgdir in
  let* np := gets npages in
  let* ppa := paddr pages_kva in
  do* check_range pgdir UPAGES ppa (ROUNDUP (u32 (np * sizeof_PageInfo)) PGSIZE) in
  let* epa := paddr envs_kva in
  do* check_range pgdir UENVS epa (ROUNDUP (u32 (NENV * sizeof_Env)) PGSIZE) in
  do* check_range pgdir KERNBASE 0 (u32 (np * PGSIZE)) in
  do* for_up (Z.to_nat NCPU) 0 (λ n,
        let base := KSTACKTOP - (KSTKSIZE + KSTKGAP) * (n + 1) in
        let* spa := paddr (u32 (percpu_kstacks + n * KSTKSIZE)) in
        do* check_range pgdir (base + KSTKGAP) spa KSTKSIZE in
        for_up (Z.to_nat (KSTKGAP / PGSIZE)) 0 (λ k,
          assert_va2pa pgdir (base + k * PGSIZE) (2 ^ 32 - 1))) in
  for_up (Z.to_nat NPDENTRIES) 0 (λ i,
    let* pde := load (pgdir, i) in
    if kern_pde_listed i then massert (ctrue (Z.land pde PTE_P))
    else if PDX KERNBASE <=? i then
      do* massert (ctrue (Z.land pde PTE_P)) in
      massert (ctrue (Z.land pde PTE_W))
    else massert (pde =? 0)).

Definition CR0_SET : Z := 0x80050023.    (* PE|PG|AM|WP|NE|MP *)
Definition CR0_CLEAR : Z := 0xC.         (* TS|EM *)

(** [memset(pages, 0, sizeof(struct PageInfo) * npages)] *)
Definition zero_pages (n : Z) : gmap Z PageInfo :=
  list_to_map ((λ i, (i, MkPageInfo None 0)) <$> seqZ 0 n).

(** Up to [page_init]: the boot-time allocations; the addresses of [pages] and
    [envs] are returned. *)
Definition mem_init_alloc : M memst (Z * Z) :=
  do* i386_detect_memory cmos in
  let* kd := boot_alloc kend PGSIZE in
  do* modify (set_kern_pgdir (kva_frame kd)) in
  do* modify (zero_frame (kva_frame kd)) in
  let* kpa := paddr kd in
  do* store (kva_frame kd, PDX UVPT) (Z.lor (Z.lor kpa PTE_U) PTE_P) in
  let* np := gets npages in
  let* pages_kva := boot_alloc kend (u32 (sizeof_PageInfo * np)) in
  do* modify (set_pages (zero_pages np)) in
  let* envs_kva := boot_alloc kend (u32 (sizeof_Env * NENV)) in
  do* page_init kend in
  ret (pages_kva, envs_kva).

(** The kernel's part of [kern_pgdir]. *)
Definition mem_init_map (pages_kva envs_kva : Z) : M memst unit :=
  let* kd := gets kern_pgdir in
  let* np := gets npages in
  let* ppa := paddr pages_kva in
  do* boot_map_region kd UPAGES (u32 (sizeof_PageInfo * np)) ppa PTE_U in
  let* epa := paddr envs_kva in
  do* boot_map_region kd UENVS (u32 (sizeof_Env * NENV)) epa PTE_U in
  do* boot_map_region kd KERNBASE (u32 (0 - KERNBASE)) 0 PTE_W in
  mem_init_mp.

Definition mem_init : M memst unit :=
  let* r := mem_init_alloc in
  let '(pages_kva, envs_kva) := r in
  do* check_page_free_list kend true in
  do* check_page_alloc in
  do* check_page in
  do* mem_init_map pages_kva envs_kva in
  do* check_kern_pgdir pages_kva envs_kva in
  let* kd := gets kern_pgdir in
  do* lcr3 kd in
  do* check_page_free_list kend false in
  do* modify (λ m, set_cr0 (Z.ldiff (Z.lor (cr0 m) CR0_SET) CR0_CLEAR) m) in
  check_page_installed_pgdir.
End mem_init.

(** ** A machine *)

(** 640KB of base memory and [ext] 64KB blocks above 16MB. *)
Definition cmos_of (ext : Z) (r : Z) : Z :=
  if r =? NVRAM_BASELO then 640 mod 256
  else if r =? NVRAM_BASELO + 1 then 640 / 256
  else if r =? NVRAM_EXT16LO then ext mod 256
  else if r =? NVRAM_EXT16LO + 1 then ext / 256
  else 0.

(** Memory at power-on: nothing is known about the processor's state. *)
Definition power_on : memst :=
  MkMem 0 0 ∅ None ∅ 0 0 MMIOBASE 0 0 0 0x11 ∅.

Definition is_ret {S A} (o : outcome S A) : bool :=
  match o with Ret _ _ => true | _ => false end.


(** [mem_init] without the mappings above [UTOP] and their check. *)
Definition mem_init_checked (cmos : Z → Z) (kend sizeof_Env : Z) : M memst unit :=
  do* bind (mem_init_alloc cmos kend sizeof_Env) (λ _, ret tt) in
  do* check_page_free_list kend true in
  do* check_page_alloc in
  do* check_page in
  let* kd := gets kern_pgdir in
  do* lcr3 kd in
  do* check_page_free_list kend false in
  check_page_installed_pgdir.

(** On a machine with 640KB of base memory and 128KB above 16MB, the boot
    code runs from power-on through every assertion of the kernel's own checks
    ([check_page_free_list], [check_page_alloc], [check_page] and
    [check_page_installed_pgdir]) without a panic or an invalid access. *)
Theorem mem_init_checks_pass :
  is_ret (mem_init_checked (cmos_of 2) 0xF0150000 1500 power_on) = true.
Proof. vm_compute. reflexivity. Qed.
