(* ===== verification/UserMem.v ===== *)
(** * Checking user pointers ([user_mem_check], [kernel/pmap.c])

    The loop is characterised by the first inaccessible page of the range, for
    every input; the correctness statement is then about the bytes of the
    range. *)

From stdpp Require Import base gmap list strings.
From Stdlib Require Import ZArith Lia.
From S2P Require Import Prelude Mmu Pmap PmapInv PmapOps.

Set Default Proof Using "Type".

(** The byte at [a] may be accessed with every permission of [perm]. *)
Definition accessible (m : memst) (d perm a : Z) : Prop :=
  a < ULIM ∧ ∃ e, pte_of m d (PDX a) (PTX a) = Some e ∧ Z.land e perm = perm.

#[export] Instance accessible_dec m d perm a : Decision (accessible m d perm a).
Proof.
  unfold accessible. apply and_dec; [apply _|].
  destruct (pte_of m d (PDX a) (PTX a)) as [e|]; [|right; naive_solver].
  destruct (decide (Z.land e perm = perm)); [left; eauto|right; naive_solver].
Defined.

(** First inaccessible page among [n] pages from [start]. *)
Fixpoint first_bad (m : memst) (d perm : Z) (n : nat) (start : Z) : option Z :=
  match n with
  | O => None
  | S n' => if decide (accessible m d perm start)
            then first_bad m d perm n' (start + PGSIZE) else Some start
  end.

Lemma first_bad_none m d perm n start :
  first_bad m d perm n start = None ↔
  ∀ k, 0 ≤ k < Z.of_nat n → accessible m d perm (start + k * PGSIZE).
Proof.
  revert start. induction n as [|n IH]; intros start; cbn [first_bad].
  - split; [lia|done].
  - case_decide as Ha.
    + rewrite IH. split; intros H k Hk.
      * destruct (decide (k = 0)) as [->|]; [by rewrite Z.add_0_r|].
        replace (start + k * PGSIZE) with (start + PGSIZE + (k - 1) * PGSIZE) by lia.
        apply H. lia.
      * replace (start + PGSIZE + k * PGSIZE) with (start + (k + 1) * PGSIZE) by lia.
        apply H. lia.
    + split; [done|]. intros H. destruct Ha.
      replace start with (start + 0 * PGSIZE) by lia. apply H. lia.
Qed.

Lemma first_bad_some m d perm n start a :
  first_bad m d perm n start = Some a ↔
  ∃ k, 0 ≤ k < Z.of_nat n ∧ a = start + k * PGSIZE ∧ ¬ accessible m d perm a ∧
    ∀ j, 0 ≤ j < k → accessible m d perm (start + j * PGSIZE).
Proof.
  revert start. induction n as [|n IH]; intros start; cbn [first_bad].
  - split; [done|intros (k & ? & _); lia].
  - case_decide as Ha.
    + rewrite IH. split; intros (k & Hk & -> & Hn & Hj).
      * exists (k + 1). split; [lia|]. split; [lia|]. split; [done|]. intros j ?.
        destruct (decide (j = 0)) as [->|]; [by rewrite Z.add_0_r|].
        replace (start + j * PGSIZE) with (start + PGSIZE + (j - 1) * PGSIZE) by lia.
        apply Hj. lia.
      * destruct (decide (k = 0)) as [->|]; [by rewrite Z.add_0_r in Hn|].
        exists (k - 1). split; [lia|]. split; [lia|].
        replace (start + k * PGSIZE) with (start + PGSIZE + (k - 1) * PGSIZE) in Hn by lia.
        split; [by replace (start + k * PGSIZE) with (start + PGSIZE + (k - 1) * PGSIZE) by lia|].
        intros j ?. replace (start + PGSIZE + j * PGSIZE) with (start + (j + 1) * PGSIZE) by lia.
        apply Hj. lia.
    + split.
      * intros [= <-]. exists 0. split; [lia|]. split; [lia|]. split; [done|]. lia.
      * intros (k & Hk & -> & Hn & Hj). destruct (decide (k = 0)) as [->|].
        -- by rewrite Z.add_0_r.
        -- destruct Ha. rewrite <- (Z.add_0_r start). apply (Hj 0). lia.
Qed.

(** What the body of the loop tests. *)
Lemma accessible_walk m d perm a :
  accessible m d perm a ↔
  match frame_of (rd m d (PDX a)) with
  | None => False
  | Some t => a < ULIM ∧ present (rd m t (PTX a)) = true ∧ Z.land (rd m t (PTX a)) perm = perm
  end.
Proof.
  unfold accessible, pte_of. destruct (frame_of (rd m d (PDX a))) as [t|].
  - destruct (present (rd m t (PTX a))); split.
    + by intros (? & e & [= <-] & ?).
    + intros (? & _ & ?). eauto.
    + by intros (? & e & [=] & _).
    + by intros (_ & [=] & _).
  - split; [|done]. by intros (_ & e & [=] & _).
Qed.

(** All bytes of a page are alike: [a] is as accessible as its page. *)
Lemma ULIM_page a : is_u32 a → (a / 4096 * 4096 < ULIM ↔ a < ULIM).
Proof. intros []. change ULIM with (955 * 4194304 + 3 * 4194304). dlia. Qed.

Lemma page_index a : is_u32 a →
  PDX (a / 4096 * 4096) = PDX a ∧ PTX (a / 4096 * 4096) = PTX a.
Proof.
  intros []. rewrite !PDX_small, !PTX_div by (unfold is_u32; dlia). split; [dlia|].
  f_equal. dlia.
Qed.

Lemma accessible_page m d perm a :
  is_u32 a → accessible m d perm (a / 4096 * 4096) ↔ accessible m d perm a.
Proof.
  intros Ha. unfold accessible. rewrite ULIM_page by done.
  by destruct (page_index a Ha) as [-> ->].
Qed.

(** The rounded bounds of the range. *)
Definition range_start (va : Z) : Z := va / 4096 * 4096.
Definition range_end (va len : Z) : Z :=
  let e := u32 (va + len) in if e mod 4096 =? 0 then e else ROUNDUP e PGSIZE.
Definition range_pages (va len : Z) : nat :=
  Z.to_nat ((range_end va len - range_start va) / 4096).

Lemma range_end_bounds va len :
  0 ≤ range_end va len < 2 ^ 32 ∧ range_end va len mod 4096 = 0.
Proof.
  unfold range_end. pose proof (u32_range (va + len)) as Hr. unfold is_u32 in Hr.
  destruct (Z.eqb_spec (u32 (va + len) mod 4096) 0); [done|].
  unfold ROUNDUP, ROUNDDOWN, PGSIZE. pose proof (u32_range (u32 (u32 (va + len)) + 4096 - 1)) as H.
  unfold is_u32 in H. dlia.
Qed.

Lemma user_mem_check_bounds m d va len perm :
  is_u32 va →
  user_mem_check d va len perm m =
    (let* r := user_mem_check_loop user_mem_fuel d (range_start va) (range_end va len)
                 (Z.lor perm PTE_P) in
     match r with
     | None => ret 0
     | Some bad =>
         do* modify (set_user_mem_check_addr (if bad =? range_start va then va else bad)) in
         ret (- E_FAULT)
     end) m.
Proof.
  intros Hva. unfold user_mem_check.
  change (PGSIZE - 1) with (Z.ones 12). rewrite !Z.land_ones by lia. change (2 ^ 12) with 4096.
  replace (if ctrue (va mod 4096) then ROUNDDOWN va PGSIZE else va) with (range_start va).
  2:{ rewrite ROUNDDOWN_page by done. unfold range_start, ctrue.
      destruct (Z.eqb_spec (va mod 4096) 0); cbn; dlia. }
  replace (if ctrue (u32 (va + len) mod 4096) then _ else _) with (range_end va len)
    by (unfold range_end, ctrue; by destruct (_ =? 0)).
  rewrite ROUNDDOWN_page by done. done.
Qed.

Section check.
Context (m : memst) (d : Z).
(** Every table of the directory is in memory. *)
Hypothesis Htab : ∀ i t, 0 ≤ i < 1024 → frame_of (rd m d i) = Some t → t < npages m.

Lemma user_mem_check_loop_eq perm n : ∀ fuel start,
  start mod 4096 = 0 → 0 ≤ start → start + Z.of_nat n * 4096 < 2 ^ 32 → (n < fuel)%nat →
  user_mem_check_loop fuel d start (start + Z.of_nat n * 4096) (Z.lor perm PTE_P) m =
    Ret (first_bad m d (Z.lor perm PTE_P) n start) m.
Proof using Htab.
  induction n as [|n IH]; intros fuel start Ha H0 Hlt Hfuel.
  - rewrite Z.mul_0_l, Z.add_0_r. destruct fuel; cbn [user_mem_check_loop];
      by rewrite (proj2 (Z.leb_le start start)).
  - destruct fuel as [|fuel]; [lia|]. cbn [user_mem_check_loop first_bad].
    destruct (Z.leb_spec (start + Z.of_nat (S n) * 4096) start); [lia|].
    unfold bind at 1. rewrite pgdir_walk_false by (intros t; apply Htab, PDX_range).
    pose proof (accessible_walk m d (Z.lor perm PTE_P) start) as Hacc.
    destruct (frame_of (rd m d (PDX start))) as [t|]; [|by rewrite decide_False by tauto].
    cbn [fmap option_fmap option_map]. unfold bind, load, gets. cbn [fst snd].
    change (ctrue (Z.land (rd m t (PTX start)) PTE_P)) with (present (rd m t (PTX start))).
    destruct (present (rd m t (PTX start))); cbn [negb];
      [|by rewrite decide_False by (rewrite Hacc; by intros (_ & [=] & _))].
    destruct (Z.eqb_spec (Z.land (rd m t (PTX start)) (Z.lor perm PTE_P)) (Z.lor perm PTE_P));
      cbn [negb]; [|by rewrite decide_False by tauto].
    destruct (Z.leb_spec ULIM start); [by rewrite decide_False by (rewrite Hacc; lia)|].
    rewrite decide_True by tauto.
    rewrite u32_small by (unfold is_u32, PGSIZE; lia).
    replace (start + Z.of_nat (S n) * 4096) with (start + PGSIZE + Z.of_nat n * 4096)
      by (unfold PGSIZE; lia).
    apply IH; unfold PGSIZE; [dlia|lia..].
Qed.

Lemma user_mem_check_eq va len perm :
  is_u32 va →
  user_mem_check d va len perm m =
    match first_bad m d (Z.lor perm PTE_P) (range_pages va len) (range_start va) with
    | None => Ret 0 m
    | Some a =>
        Ret (- E_FAULT) (set_user_mem_check_addr (if a =? range_start va then va else a) m)
    end.
Proof using Htab.
  intros Hva. rewrite user_mem_check_bounds by done.
  pose proof (range_end_bounds va len) as [He Hem]. unfold bind.
  assert (0 ≤ range_start va ∧ range_start va mod 4096 = 0) as [Hs Hsm]
    by (unfold range_start, is_u32 in *; dlia).
  assert (user_mem_check_loop user_mem_fuel d (range_start va) (range_end va len)
            (Z.lor perm PTE_P) m =
          Ret (first_bad m d (Z.lor perm PTE_P) (range_pages va len) (range_start va)) m) as ->;
    [|by destruct (first_bad _ _ _ _ _)].
  unfold range_pages. destruct (Z.le_gt_cases (range_end va len) (range_start va)) as [Hle|Hgt].
  - rewrite Z2Nat.nonpos by dlia.
    unfold user_mem_fuel. destruct (Z.to_nat (2 ^ 20 + 1)); cbn [user_mem_check_loop];
      by rewrite (proj2 (Z.leb_le _ _) Hle).
  - set (n := (range_end va len - range_start va) / 4096).
    assert (0 ≤ n < 2 ^ 20) by (unfold n; dlia).
    replace (range_end va len) with (range_start va + Z.of_nat (Z.to_nat n) * 4096) by
      (rewrite Z2Nat.id by lia; unfold n; dlia).
    apply user_mem_check_loop_eq; [done|done| |].
    + rewrite Z2Nat.id by lia. unfold n; dlia.
    + unfold user_mem_fuel. lia.
Qed.

(** When the range does not wrap, its pages are those of its bytes. *)
Lemma range_bytes va len k :
  is_u32 va → 0 < len → va + len ≤ 2 ^ 32 - 4096 →
  (0 ≤ k < Z.of_nat (range_pages va len) ↔
   ∃ a, va ≤ a < va + len ∧ a / 4096 * 4096 = range_start va + k * PGSIZE).
Proof.
  intros [Hv _] Hl Ho. unfold range_pages, range_end, range_start, PGSIZE.
  rewrite u32_small by (unfold is_u32; lia).
  assert ((if (va + len) mod 4096 =? 0 then va + len else ROUNDUP (va + len) PGSIZE) =
          (va + len + 4095) / 4096 * 4096) as E.
  { rewrite ROUNDUP_page by lia. destruct (Z.eqb_spec ((va + len) mod 4096) 0); [dlia|done]. }
  unfold PGSIZE in E. rewrite E. clear E.
  replace ((va + len + 4095) / 4096 * 4096 - va / 4096 * 4096)
    with (((va + len + 4095) / 4096 - va / 4096) * 4096) by lia.
  rewrite Z.div_mul, Z2Nat.id by dlia. split.
  - intros Hk. destruct (decide (k = 0)) as [->|].
    + exists va. dlia.
    + exists ((va / 4096 + k) * 4096). dlia.
  - intros (a & Ha & E). dlia.
Qed.

(** A range inside one page. *)
Lemma user_mem_check_page va len perm :
  is_u32 va → 0 < len → va mod 4096 + len ≤ 4096 → va + len ≤ 2 ^ 32 - 4096 →
  accessible m d (Z.lor perm PTE_P) va → user_mem_check d va len perm m = Ret 0 m.
Proof using Htab.
  intros Hva Hl Hp Ho Ha. rewrite user_mem_check_eq by done.
  rewrite (proj2 (first_bad_none m d _ _ _)); [done|]. intros k Hk.
  apply range_bytes in Hk as (a & Hr & Ea); [|done..].
  replace (range_start va + k * PGSIZE) with (va / 4096 * 4096) by (rewrite <- Ea; dlia).
  by apply accessible_page.
Qed.
End check.

(** A range with no pages at all: nothing is checked. *)
Lemma user_mem_check_empty m d va len perm :
  is_u32 va → range_end va len ≤ range_start va →
  user_mem_check d va len perm m = Ret 0 m.
Proof.
  intros Hva Hle. rewrite user_mem_check_bounds by done.
  unfold bind, user_mem_fuel. destruct (Z.to_nat (2 ^ 20 + 1)); cbn [user_mem_check_loop];
    by rewrite (proj2 (Z.leb_le _ _) Hle).
Qed.

(** ** Correctness *)

(** C29. For a non-empty range that ends at least a page below the top of the
    address space, [user_mem_check] always returns: 0 exactly when every byte of
    the range is below [ULIM] and mapped with all the permissions asked for, and
    otherwise [-E_FAULT] with [user_mem_check_addr] set to the first byte of the
    range that is not; nothing else changes. *)
Theorem user_mem_check_correct m d va len perm :
  (∀ i t, 0 ≤ i < 1024 → frame_of (rd m d i) = Some t → t < npages m) →
  is_u32 va → 0 < len → va + len ≤ 2 ^ 32 - 4096 →
  let ok := accessible m d (Z.lor perm PTE_P) in
  (user_mem_check d va len perm m = Ret 0 m ∧ ∀ a, va ≤ a < va + len → ok a) ∨
  ∃ a, user_mem_check d va len perm m = Ret (- E_FAULT) (set_user_mem_check_addr a m) ∧
    va ≤ a < va + len ∧ ¬ ok a ∧ ∀ b, va ≤ b < a → ok b.
Proof.
  intros Htab Hva Hl Ho ok. rewrite user_mem_check_eq by done.
  assert (∀ a, va ≤ a < va + len → is_u32 a) as Hu by (unfold is_u32 in *; lia).
  assert (∀ a, va ≤ a < va + len → ∃ k, 0 ≤ k < Z.of_nat (range_pages va len) ∧
            a / 4096 * 4096 = range_start va + k * PGSIZE) as Hk.
  { intros a Ha. exists (a / 4096 - va / 4096).
    assert (a / 4096 * 4096 = range_start va + (a / 4096 - va / 4096) * PGSIZE) as E
      by (unfold range_start, PGSIZE; lia).
    split; [|done]. apply range_bytes; [done..|]. by exists a. }
  destruct (first_bad m d (Z.lor perm PTE_P) (range_pages va len) (range_start va))
    as [s|] eqn:E.
  - right. apply first_bad_some in E as (k & Hkn & -> & Hbad & Hbefore).
    exists (if range_start va + k * PGSIZE =? range_start va then va
            else range_start va + k * PGSIZE).
    apply range_bytes in Hkn as (a & Ha & Hpage); [|done..].
    assert (va / 4096 * 4096 = range_start va) as Hs by done. unfold PGSIZE in *.
    split; [done|]. destruct (Z.eqb_spec (range_start va + k * 4096) (range_start va)) as [Ek|Ek].
    + split; [lia|]. split; [|lia]. rewrite Ek, <- Hs in Hbad.
      intros Hok. apply Hbad. by apply accessible_page.
    + split; [unfold range_start in *; dlia|]. split; [done|].
      intros b Hb. assert (va ≤ b < va + len) as Hb' by dlia.
      destruct (Hk b Hb') as (j & Hj & Hpb). apply accessible_page; [by apply Hu|].
      rewrite Hpb. apply Hbefore. unfold PGSIZE in *. split; [lia|]. dlia.
  - left. split; [done|]. intros a Ha. destruct (Hk a Ha) as (k & Hk' & Hpage).
    apply accessible_page; [by apply Hu|]. rewrite Hpage.
    by apply (proj1 (first_bad_none _ _ _ _ _) E).
Qed.

(** Directory 1, one table (frame 2) with page 3 mapped read-only at 0x1000. *)
Definition um_demo : memst :=
  wr 2 1 0x3005 (wr 1 0 0x2007 (MkMem 8 8 ∅ None ∅ 0 0 MMIOBASE 0 0 0 0 ∅)).

Lemma um_demo_tables i t : frame_of (rd um_demo 1 i) = Some t → t < npages um_demo.
Proof.
  unfold um_demo. rewrite rd_wr_ne by (left; discriminate). rewrite rd_wr.
  case_match; [|done]. vm_compute. by intros [= <-].
Qed.

Lemma user_mem_check_correct_witness :
  user_mem_check 1 0x1ff0 32 4 um_demo = Ret (- E_FAULT) (set_user_mem_check_addr 0x2000 um_demo).
Proof.
  destruct (user_mem_check_correct um_demo 1 0x1ff0 32 4) as [[H _]|(a & H & _)].
  - intros i t _. apply um_demo_tables.
  - split; lia.
  - lia.
  - lia.
  - vm_compute in H. discriminate H.
  - vm_compute in H. injection H as <-. vm_compute. reflexivity.
Defined.

(** The end of the range is computed modulo 2^32 without an overflow check: a
    range that runs past the top of the address space is accepted whatever is
    mapped there, in particular the whole kernel half of memory,
    [user_mem_check(env, KERNBASE, 0x10000000, perm)]. *)
Theorem user_mem_check_wraps m d va len perm :
  is_u32 va → 2 ^ 32 ≤ va + len → len ≤ 2 ^ 32 - 8192 →
  user_mem_check d va len perm m = Ret 0 m.
Proof.
  intros [Hv Hv'] Hlo Hhi. apply user_mem_check_empty; [done|].
  unfold range_end, range_start. replace (u32 (va + len)) with (va + len - 2 ^ 32)
    by (unfold u32; dlia).
  destruct (Z.eqb_spec ((va + len - 2 ^ 32) mod 4096) 0); [|rewrite ROUNDUP_page by lia]; dlia.
Qed.

Lemma user_mem_check_wraps_witness :
  user_mem_check 1 KERNBASE 0x10000000 7 um_demo = Ret 0 um_demo.
Proof.
  apply (user_mem_check_wraps um_demo 1 KERNBASE 0x10000000 7).
  - split; [discriminate|reflexivity].
  - vm_compute. discriminate.
  - vm_compute. discriminate.
Defined.
