(* ===== verification/PmapProps.v ===== *)
(** * What the memory system guarantees

    The properties of [kernel/pmap.c] that its callers rely on, and the corner
    cases its guards miss, with a small booted machine on which they apply. *)

From stdpp Require Import base gmap list strings.
From Stdlib Require Import ZArith Lia.
From S2P Require Import Prelude Mmu Pmap PmapInv PmapOps PmapDir PmapBoot.

Set Default Proof Using "Type".

(** ** A machine of 32 pages, one address space and one free-standing page *)
Module Demo.

Definition kend : Z := 0xF0000000.

Definition raw : memst :=
  MkMem 32 32 (list_to_map ((λ i, (i, MkPageInfo None 0)) <$> seqZ 0 32)) None ∅ 0 0
    MMIOBASE 0 0 0 0 ∅.

Definition booted : memst :=
  match page_init kend raw with Ret _ m => m | _ => raw end.

Definition rest : list Z := boot_list 32 128 30.
Definition R : Z → Z := boot_refs 32 128 32.

(** Page 31 is the directory, page 30 is allocated and unmapped. *)
Definition one_dir : memst :=
  let m := alloc_st true 31 (30 :: rest) booted in
  set_pages (<[31 := MkPageInfo None 1]> (pages m)) m.
Definition mem : memst := alloc_st true 30 rest one_dir.

Lemma raw_array : page_array raw.
Proof.
  split; [done| |done]. intros p. case_decide as Hp.
  - apply elem_of_list_to_map; [|apply list_elem_of_fmap; exists p; split; [done|by apply elem_of_seqZ]].
    rewrite <- list_fmap_compose. apply NoDup_fmap_2; [by intros ?? [=]|apply NoDup_seqZ].
  - apply not_elem_of_list_to_map. rewrite <- list_fmap_compose. cbn.
    intros Hin%list_elem_of_fmap. destruct Hin as (y & -> & ?%elem_of_seqZ). cbn in *. lia.
Qed.

Lemma booted_inv : mm_inv [] R (31 :: 30 :: rest) booted.
Proof.
  assert (is_u32 (boot_next kend raw)) as H1 by (vm_compute; done).
  assert (u32 (boot_next kend raw - KERNBASE) ≤ u32 (npages raw * PGSIZE)) as H2
    by (vm_compute; done).
  pose proof (page_init_spec kend raw raw_array H1 H2) as H. unfold wp in H. unfold booted.
  destruct (page_init kend raw); [|done..]. destruct H as [H _].
  change (npages_basemem raw) with 32 in H. change (npages raw) with 32 in H.
  replace (boot_limit kend raw) with 128 in H by (vm_compute; done).
  replace (31 :: 30 :: rest) with (boot_list 32 128 (Z.to_nat 32)) by (vm_compute; done).
  exact H.
Qed.

Lemma booted_frames : frames booted = ∅.
Proof. vm_compute. reflexivity. Qed.

Lemma mem_inv : mm_inv [31] R rest mem ∧ mappable [31] R rest mem 30.
Proof.
  pose proof (alloc_st_inv _ _ true _ _ _ booted_inv) as H1.
  assert (mm_inv [31] R (30 :: rest) one_dir) as H2.
  { apply add_dir_inv; [done| |reflexivity|].
    - apply (bool_decide_unpack _). vm_compute. exact I.
    - intros i _. unfold frame_of. rewrite rd_alloc_st. done. }
  assert (mm_inv [31] R rest mem) as H3 by exact (alloc_st_inv _ _ true _ _ _ H2).
  split; [exact H3|]. clear H1 H2.
  assert (pages mem !! 30 = Some (MkPageInfo None 0)) as Hpi by reflexivity.
  destruct (inv_ref _ _ _ _ H3 30 _ Hpi) as [Hr _].
  change (pp_ref (MkPageInfo None 0)) with 0 in Hr.
  pose proof (refs_nonneg [31] mem 30). pose proof (inv_R _ _ _ _ H3 30).
  split; [exact (ex_intro _ _ Hpi)| | |].
  - apply (bool_decide_unpack _). vm_compute. exact I.
  - intros Ht. destruct (table_refs _ _ _ _ _ H3 Ht). lia.
  - lia.
Qed.

Lemma mem_tlb : tlb mem = ∅.
Proof. vm_compute. reflexivity. Qed.

Lemma in_dirs : 31 ∈ [31].
Proof. left. Qed.

End Demo.

(** ** Mapping and unmapping *)

(** C1. [page_insert] maps page [p] at [va]: it fails with [-E_NO_MEM] and no
    change only when a page table is needed and no page is free; otherwise it
    returns 0, exactly the entry of [va] changes, in that address space only, to
    [p] with the requested permissions (so [page_lookup] finds [p] there), the
    words of all other pages are untouched, and the reference counts, free list
    and page tables are consistent again. *)
Theorem page_insert_correct D R fl cur m d p va perm :
  mm_inv D R fl m → d ∈ D → is_u32 va → va < UTOP → 0 ≤ perm < 4096 →
  mappable D R fl m p →
  (page_insert cur d (Some p) va perm m = Ret (- E_NO_MEM) m ∧
     fl = [] ∧ frame_of (rd m d (PDX va)) = None) ∨
  ∃ m' fl', page_insert cur d (Some p) va perm m = Ret 0 m' ∧
    mm_inv D R fl' m' ∧
    pte_upd D m m' d (PDX va) (PTX va) (Some (mk_pte p perm)) ∧
    (∃ e, page_lookup d va m' = Ret (Some (p, e)) m') ∧
    (∀ d' i, d' ∈ D → (d', i) ≠ (d, PDX va) → rd m' d' i = rd m d' i) ∧
    data_same D fl m m' ∧ same_static m m'.
Proof.
  intros Hinv Hd Hva Hut Hperm Hmp.
  destruct (page_insert_spec D R cur fl m d p va perm) as [H|(m' & fl' & H & I)];
    [done..|by left|right].
  exists m', fl'. pose proof (user_sites D d va Hd Hva Hut) as Hs. destruct I as [Hi Hp].
  split; [done|]. split; [done|]. split; [done|]. split; [|done].
  assert (pte_of m' d (PDX va) (PTX va) = Some (mk_pte p perm)) as E
    by (rewrite Hp, decide_True by done; done).
  destruct (frame_of (rd m' d (PDX va))) as [t|] eqn:Ht;
    [|unfold pte_of in E; by rewrite Ht in E].
  exists (t, PTX va). rewrite (page_lookup_pte D R fl' m' d va t) by done.
  rewrite E. cbn -[PTX PDX mk_pte]. rewrite mk_pte_frame; [done| |done].
  eapply page_range; [exact Hinv|]. apply Hmp.
Qed.

Lemma page_insert_correct_witness :
  ∃ m' fl', page_insert None 31 (Some 30) 0x800000 7 Demo.mem = Ret 0 m' ∧
    mm_inv [31] Demo.R fl' m'.
Proof.
  destruct Demo.mem_inv as [Hi Hm].
  destruct (page_insert_correct [31] Demo.R Demo.rest None Demo.mem 31 30 0x800000 7)
    as [(_ & H & _)|(m' & fl' & H & I & _)].
  - exact Hi.
  - exact Demo.in_dirs.
  - split; lia.
  - reflexivity.
  - lia.
  - exact Hm.
  - discriminate H.
  - exists m', fl'. split; [exact H|exact I].
Defined.

(** [page_remove] unmaps [va]: exactly that entry disappears, in that address
    space only, every other mapping and all page contents stay, the page that
    was mapped goes to the front of the free list when that was its last
    reference, the counts and the free list stay consistent, and the TLB entry of
    [va] is dropped when the address space is the current one. *)
Theorem page_remove_correct D R fl cur m d va :
  mm_inv D R fl m → d ∈ D → is_u32 va → va < UTOP →
  ∃ m' fl', page_remove cur d va m = Ret tt m' ∧
    mm_inv D R fl' m' ∧
    pte_upd D m m' d (PDX va) (PTX va) None ∧
    fl' = match pte_of m d (PDX va) (PTX va) with
          | None => fl
          | Some e => if decide (refs D m (e / 4096) + R (e / 4096) = 1)
                      then e / 4096 :: fl else fl
          end ∧
    (∀ d' i, d' ∈ D → rd m' d' i = rd m d' i) ∧ data_same D [] m m' ∧ same_static m m' ∧
    (pte_of m d (PDX va) (PTX va) ≠ None → cur = None ∨ cur = Some d →
     tlb m' = delete (PGNUM va) (tlb m)).
Proof.
  intros Hinv Hd Hva Hut.
  destruct (page_remove_spec D R cur fl m d va) as (m' & fl' & H & [? ? ? ? ? ? Htlb]); [done..|].
  exists m', fl'. do 7 (split; [done|]).
  intros Hne Hc. rewrite Htlb. rewrite decide_False by done. by rewrite decide_True.
Qed.

Lemma page_remove_correct_witness :
  ∃ m' fl', page_remove None 31 0x800000 Demo.mem = Ret tt m' ∧ mm_inv [31] Demo.R fl' m'.
Proof.
  destruct Demo.mem_inv as [Hi _].
  destruct (page_remove_correct [31] Demo.R Demo.rest None Demo.mem 31 0x800000)
    as (m' & fl' & H & I & _).
  - exact Hi.
  - exact Demo.in_dirs.
  - split; lia.
  - reflexivity.
  - exists m', fl'. split; [exact H|exact I].
Defined.

(** ** The page allocator *)

(** The free list is a stack.  [page_free] of an allocated, unreferenced page
    pushes it, and the next [page_alloc] pops exactly that page, zeroed when
    [ALLOC_ZERO] is given and with its contents untouched otherwise; both steps
    keep the counts, the list and every address space consistent.  On an empty
    list [page_alloc] returns NULL and changes nothing. *)
Theorem page_free_alloc D R fl m p pi flags :
  mm_inv D R fl m → p ∉ fl → pages m !! p = Some pi → pp_ref pi = 0 →
  (∃ m1, page_free p m = Ret tt m1 ∧ mm_inv D R (p :: fl) m1 ∧
     (∀ f i, rd m1 f i = rd m f i) ∧
     ∃ m2, page_alloc flags m1 = Ret (Some p) m2 ∧ mm_inv D R fl m2 ∧
       pages m2 !! p = Some (MkPageInfo None 0) ∧
       (∀ f i, rd m2 f i =
          if decide (ctrue (Z.land flags ALLOC_ZERO) = true ∧ p = f) then 0 else rd m f i)) ∧
  (fl = [] → page_alloc flags m = Ret None m).
Proof.
  intros Hinv Hp Hpi Hr. split; [|intros ->; by apply (page_alloc_eq D R [])].
  exists (free_st p m). split.
  { apply (page_free_eq [] m p pi); try done. by apply (inv_link _ _ _ _ Hinv p). }
  assert (mm_inv D R (p :: fl) (free_st p m)) as Hinv1 by (by eapply free_st_inv).
  split; [done|]. split; [done|].
  exists (alloc_st (ctrue (Z.land flags ALLOC_ZERO)) p fl (free_st p m)).
  split; [by apply (page_alloc_eq D R (p :: fl))|].
  split; [by apply alloc_st_inv|]. split.
  - unfold alloc_st. destruct (ctrue _); apply lookup_insert_eq.
  - intros f i. by rewrite rd_alloc_st.
Qed.

Lemma page_free_alloc_witness :
  ∃ m1, page_free 30 Demo.mem = Ret tt m1 ∧ mm_inv [31] Demo.R (30 :: Demo.rest) m1.
Proof.
  destruct Demo.mem_inv as [Hi Hm].
  destruct (page_free_alloc [31] Demo.R Demo.rest Demo.mem 30 (MkPageInfo None 0) 1)
    as [(m1 & H & I & _) _].
  - exact Hi.
  - exact (mp_alloc _ _ _ _ _ Hm).
  - reflexivity.
  - reflexivity.
  - exists m1. split; [exact H|exact I].
Defined.

Lemma free_chain_next pages hd fl p :
  free_chain pages hd fl → NoDup fl → p ∈ fl →
  ∃ pi, pages !! p = Some pi ∧ (last fl = Some p ↔ pp_link pi = None).
Proof.
  revert hd. induction fl as [|q fl IH]; intros hd Hc Hnd Hp; [by apply elem_of_nil in Hp|].
  destruct Hc as [-> (qi & Hqi & Hc)]. apply NoDup_cons in Hnd as [Hq Hnd].
  destruct fl as [|q' fl].
  - apply list_elem_of_singleton in Hp as ->. exists qi. cbn in Hc. by rewrite Hc.
  - destruct (decide (p = q)) as [->|Hne].
    + exists qi. split; [done|]. destruct Hc as [-> _]. split; [|done].
      intros Hl. destruct Hq. apply last_Some_elem_of. by rewrite last_cons_cons in Hl.
    + rewrite last_cons_cons. eapply IH; [done|done|]. by apply elem_of_cons in Hp as [?|?].
Qed.

Lemma page_alloc_head m p l r :
  page_free_list m = Some p → pages m !! p = Some (MkPageInfo l r) →
  page_alloc 0 m = Ret (Some p)
    (set_pages (<[p := MkPageInfo None r]> (pages m)) (set_page_free_list l m)).
Proof. intros Hl Hp. unfold page_alloc, bind, gets, page_at. rewrite Hl, Hp. done. Qed.

(** Freeing a page that is already free panics with "Free twice", unless the
    page is the last one of the free list: the test looks at [pp_link], which is
    NULL there.  In that case [page_free] silently links the page to the list it
    already is on; when it was the only free page, it becomes its own successor
    and two consecutive allocations return the same page. *)
Theorem page_free_twice D R fl m p :
  mm_inv D R fl m → p ∈ fl →
  page_free p m = (if decide (last fl = Some p) then Ret tt (free_st p m)
                   else Panic "Free twice") ∧
  (fl = [p] → ∃ m1 m2 m3, page_free p m = Ret tt m1 ∧
     page_alloc 0 m1 = Ret (Some p) m2 ∧ page_alloc 0 m2 = Ret (Some p) m3).
Proof.
  intros Hinv Hp. destruct (free_page_info _ _ _ _ _ Hinv Hp) as (pi & Hpi & Href).
  destruct (free_chain_next _ _ _ p (inv_chain _ _ _ _ Hinv) (inv_nodup _ _ _ _ Hinv) Hp)
    as (pi' & Hpi' & Hl). rewrite Hpi in Hpi'. injection Hpi' as <-.
  assert (page_free p m = if decide (last fl = Some p) then Ret tt (free_st p m)
                          else Panic "Free twice") as E.
  { unfold page_free, bind, page_at, gets. rewrite Hpi. cbn. rewrite Href. cbn.
    case_decide as Hd; case_bool_decide as Hb; try done.
    - apply Hl in Hd. rewrite Hd in Hb. by destruct Hb.
    - destruct (pp_link pi) eqn:El; [by destruct Hb|]. by destruct Hd; apply Hl. }
  split; [done|]. intros ->. rewrite E, decide_True by done.
  pose proof (inv_chain _ _ _ _ Hinv) as [Hh _].
  eexists (free_st p m), _, _. split; [done|]. split.
  - eapply page_alloc_head; [done|]. cbn. apply lookup_insert_eq.
  - eapply page_alloc_head; [exact Hh|]. cbn. apply lookup_insert_eq.
Qed.

Lemma page_free_twice_witness :
  page_free 29 Demo.mem = Panic "Free twice" ∧ 29 ∈ Demo.rest.
Proof.
  assert (29 ∈ Demo.rest) as Hin by (apply (bool_decide_unpack _); vm_compute; exact I).
  split; [|exact Hin]. destruct Demo.mem_inv as [Hi _].
  destruct (page_free_twice [31] Demo.R Demo.rest Demo.mem 29 Hi Hin) as [H _].
  rewrite H. reflexivity.
Defined.

(** [page_init] turns the zeroed page array into a consistent one: every page
    is either reserved (page 0, the page of the other processors' entry code, the
    I/O hole, the kernel image and boot allocations), with count 1, or on the
    free list, with count 0; no free page overlaps the reserved memory. *)
Theorem page_init_correct kend m :
  page_array m → is_u32 (boot_next kend m) →
  u32 (boot_next kend m - KERNBASE) ≤ u32 (npages m * PGSIZE) →
  0 ≤ npages_basemem m ≤ PGNUM IOPHYSMEM →
  ∃ m' fl, page_init kend m = Ret tt m' ∧
    mm_inv [] (boot_refs (npages_basemem m) (boot_limit kend m) (npages m)) fl m' ∧
    (∀ p, 0 ≤ p < npages m →
       p ∈ fl ↔ reserved (npages_basemem m) (boot_limit kend m) p = false) ∧
    (∀ p, p ∈ fl → p ≠ 0 ∧ p ≠ PGNUM MPENTRY_PADDR ∧
       ¬ (PGNUM IOPHYSMEM ≤ p < npages_basemem m + PGNUM (EXTPHYSMEM - IOPHYSMEM)) ∧
       ¬ (PGNUM EXTPHYSMEM ≤ p < PGNUM (u32 (boot_next kend m - KERNBASE)))).
Proof.
  intros Hpa Hb Hle Hnb. pose proof (page_init_spec kend m Hpa Hb Hle) as H.
  apply wpr_inv in H as ([] & m' & E & Hinv & _). eexists m', _. split; [done|].
  split; [exact Hinv|]. split.
  - intros p Hp. rewrite elem_of_boot_list, Z2Nat.id by lia. tauto.
  - intros p. by apply boot_list_safe.
Qed.

Lemma page_init_correct_witness :
  ∃ m' fl, page_init 0xF0000000 (set_npages 32 16 Demo.raw) = Ret tt m' ∧
    mm_inv [] (boot_refs 16 (boot_limit 0xF0000000 (set_npages 32 16 Demo.raw)) 32) fl m'.
Proof.
  destruct (page_init_correct 0xF0000000 (set_npages 32 16 Demo.raw)) as (m' & fl & H & I & _).
  - destruct Demo.raw_array as [H1 H2 H3]. split; [exact H1|exact H2|exact H3].
  - vm_compute. split; [discriminate|reflexivity].
  - vm_compute. discriminate.
  - vm_compute. split; discriminate.
  - exists m', fl. split; [exact H|exact I].
Defined.

(** ** The TLB *)

(** Cached user translations of the loaded directory are those of its tables. *)
Definition tlb_coherent (m : memst) : Prop :=
  ∀ va e, is_u32 va → va < UTOP → tlb m !! PGNUM va = Some e →
    pte_of m (cr3 m) (PDX va) (PTX va) = Some e.

(** [page_remove] keeps the TLB coherent: when the loaded directory is the
    current environment's (or there is none), no cached user translation
    survives the entry it came from. *)
Theorem page_remove_tlb_coherent D R fl cur m d va :
  mm_inv D R fl m → d ∈ D → is_u32 va → va < UTOP →
  cr3 m ∈ D → cur = None ∨ cur = Some (cr3 m) → tlb_coherent m →
  ∃ m', page_remove cur d va m = Ret tt m' ∧ tlb_coherent m'.
Proof.
  intros Hinv Hd Hva Hut Hcr Hcur Hco.
  destruct (page_remove_spec D R cur fl m d va) as (m' & fl' & E & Rm); [done..|].
  exists m'. split; [done|]. intros va' e Hva' Hut' He.
  destruct (rm_static _ _ _ _ _ _ _ _ _ Rm) as (_ & _ & _ & _ & _ & _ & Hcr3 & _).
  rewrite Hcr3. rewrite (rm_pte _ _ _ _ _ _ _ _ _ Rm) by (by apply user_sites).
  rewrite (rm_tlb _ _ _ _ _ _ _ _ _ Rm) in He.
  destruct (decide ((cr3 m, PDX va', PTX va') = (d, PDX va, PTX va))) as [Heq|].
  - injection Heq as Hdd Hi Hj. exfalso.
    assert (PGNUM va' = PGNUM va) as Hn by (by apply page_index_inj).
    destruct (decide (pte_of m d (PDX va) (PTX va) = None)) as [Hnone|].
    + apply Hco in He; [|done..]. by rewrite Hdd, Hi, Hj, Hnone in He.
    + rewrite decide_True in He by (rewrite <- Hdd; done).
      by rewrite Hn, lookup_delete_eq in He.
  - repeat case_decide; try (by apply Hco).
    apply lookup_delete_Some in He as [_ He]. by apply Hco.
Qed.

Lemma page_remove_tlb_coherent_witness :
  ∃ m', page_remove None 31 0x800000 (set_cr3 31 Demo.mem) = Ret tt m' ∧ tlb_coherent m'.
Proof.
  destruct Demo.mem_inv as [Hi _].
  apply (page_remove_tlb_coherent [31] Demo.R Demo.rest None (set_cr3 31 Demo.mem) 31 0x800000).
  - by apply (mm_inv_targets [31] Demo.R Demo.rest Demo.mem).
  - exact Demo.in_dirs.
  - split; lia.
  - reflexivity.
  - exact Demo.in_dirs.
  - left. reflexivity.
  - intros va e _ _ H. change (tlb (set_cr3 31 Demo.mem)) with (tlb Demo.mem) in H.
    rewrite Demo.mem_tlb in H. discriminate H.
Defined.

(** Changing the permissions of a mapped page leaves a stale translation:
    [page_insert] of the page already mapped at [va] rewrites the entry and
    returns 0 without [invlpg], so a cached old entry stays in the TLB even when
    the address space is the current one. *)
Theorem page_insert_same_stale_tlb D R fl cur m d va perm e :
  mm_inv D R fl m → d ∈ D → is_u32 va → va < UTOP → 0 ≤ perm < 4096 →
  pte_of m d (PDX va) (PTX va) = Some e → tlb m !! PGNUM va = Some e →
  ∃ m', page_insert cur d (Some (e / 4096)) va perm m = Ret 0 m' ∧
    pte_of m' d (PDX va) (PTX va) = Some (mk_pte (e / 4096) perm) ∧
    tlb m' !! PGNUM va = Some e.
Proof.
  intros Hinv Hd Hva Hut Hperm He Htlb. pose proof (user_sites D d va Hd Hva Hut) as Hs.
  destruct (frame_of (rd m d (PDX va))) as [t|] eqn:Ht;
    [|unfold pte_of in He; by rewrite Ht in He].
  destruct (spage_stab _ _ _ _ Hs) as [Htab _].
  exists (finish_st t (PTX va) d (PDX va) (e / 4096) perm m). split; [|split; [|done]].
  - eapply page_insert_eq.
    + apply pgdir_walk_present; [done|]. by apply (inv_target _ _ _ _ Hinv (STab d (PDX va))).
    + unfold page_insert_ref. pose proof (pte_of_tab _ _ _ (PTX va) t Ht) as E. rewrite He in E.
      change (ctrue (Z.land (rd m t (PTX va)) PTE_P)) with (present (rd m t (PTX va))).
      destruct (present _); [|done]. unfold bind.
      rewrite (page_lookup_pte D R fl _ _ _ t) by done. rewrite He. cbn -[PTX].
      by rewrite bool_decide_eq_true_2.
  - destruct (remap_inv D R fl m d (PDX va) (PTX va) t e perm) as (Hi & Hu & Hdirs & _); [done..|].
    destruct (or_pde_inv D R fl _ d (PDX va) t perm Hi Htab) as (_ & Hsame & _);
      [by rewrite Hdirs|done|].
    unfold finish_st. rewrite Hsame, Hu by done. by rewrite decide_True.
Qed.

Lemma page_insert_same_stale_tlb_witness :
  ∃ m e m', page_insert (Some 31) 31 (Some 30) 0x800000 1 m = Ret 0 m' ∧
    tlb m' !! PGNUM 0x800000 = Some e ∧ e ≠ mk_pte 30 1.
Proof.
  destruct Demo.mem_inv as [Hi Hm].
  destruct (page_insert_spec [31] Demo.R None Demo.rest Demo.mem 31 30 0x800000 7)
    as [(_ & H & _)|(m1 & fl1 & _ & I)];
    [exact Hi|exact Demo.in_dirs|split; lia|reflexivity|lia|exact Hm|discriminate H|].
  pose proof (ins_pte _ _ _ _ _ _ _ _ _ _ I 31 (PDX 0x800000) (PTX 0x800000)
    (user_sites [31] 31 0x800000 Demo.in_dirs ltac:(split; lia) ltac:(reflexivity))) as Hp.
  rewrite decide_True in Hp by reflexivity.
  set (m := set_tlb {[ PGNUM 0x800000 := mk_pte 30 7 ]} m1).
  destruct (page_insert_same_stale_tlb [31] Demo.R fl1 (Some 31) m 31 0x800000 1 (mk_pte 30 7))
    as (m' & H & _ & Ht).
  - by apply (mm_inv_targets [31] Demo.R fl1 m1); [exact (ins_inv _ _ _ _ _ _ _ _ _ _ I)|..].
  - exact Demo.in_dirs.
  - split; lia.
  - reflexivity.
  - lia.
  - exact Hp.
  - reflexivity.
  - exists m, (mk_pte 30 7), m'. split; [exact H|]. split; [exact Ht|discriminate].
Defined.
