(* ===== verification/Env.v ===== *)
(** * Environments ([kernel/env.c], [kernel/vm.c], [include/env.h])

    The state of the kernel as one processor sees it while it holds the big
    kernel lock: memory ([memst], with this processor's [%cr3] and TLB), the
    [envs] array with its free list, and the [cpus] array.  A [struct Env *] is
    the index in [envs]; [env_pgdir] is the frame of the directory, [None] for
    NULL. *)

From stdpp Require Import base gmap list strings.
From Stdlib Require Import ZArith Lia.
From S2P Require Import Prelude Mmu Pmap MemInit.

(** ** Data *)
Record PushRegs := MkRegs {
  reg_edi : Z; reg_esi : Z; reg_ebp : Z; reg_oesp : Z;
  reg_ebx : Z; reg_edx : Z; reg_ecx : Z; reg_eax : Z
}.

Record Trapframe := MkTf {
  tf_regs : PushRegs;
  tf_es : Z; tf_ds : Z;
  tf_trapno : Z; tf_err : Z;
  tf_eip : Z; tf_cs : Z; tf_eflags : Z;
  tf_esp : Z; tf_ss : Z
}.

Definition zero_regs : PushRegs := MkRegs 0 0 0 0 0 0 0 0.
Definition zero_tf : Trapframe := MkTf zero_regs 0 0 0 0 0 0 0 0 0.

Definition set_reg_eax (v : Z) (tf : Trapframe) : Trapframe :=
  let r := tf_regs tf in
  MkTf (MkRegs (reg_edi r) (reg_esi r) (reg_ebp r) (reg_oesp r) (reg_ebx r) (reg_edx r)
          (reg_ecx r) v)
    (tf_es tf) (tf_ds tf) (tf_trapno tf) (tf_err tf) (tf_eip tf) (tf_cs tf) (tf_eflags tf)
    (tf_esp tf) (tf_ss tf).
Definition set_eip_esp_eflags (eip esp fl : Z) (tf : Trapframe) : Trapframe :=
  MkTf (tf_regs tf) (tf_es tf) (tf_ds tf) (tf_trapno tf) (tf_err tf) eip (tf_cs tf) fl esp
    (tf_ss tf).

(** Values of [env_status]. *)
Inductive env_state := ENV_FREE | ENV_DYING | ENV_RUNNABLE | ENV_RUNNING | ENV_NOT_RUNNABLE.

#[export] Instance env_state_eq_dec : EqDecision env_state.
Proof. solve_decision. Defined.

Inductive EnvType := ENV_TYPE_USER | ENV_TYPE_FS | ENV_TYPE_NS.

#[export] Instance EnvType_eq_dec : EqDecision EnvType.
Proof. solve_decision. Defined.

(** The fields [fd], [offset] and [page_fault] are left out: no code reads or
    sets them, they only travel with the copy of a slot. *)
Record vm_area_struct := MkVma { vm_start : Z; vm_size : Z; vm_page_prot : Z }.

Record Env := MkEnv {
  env_tf : Trapframe;
  env_link : option Z;
  env_id : Z;                 (* int32_t *)
  env_parent_id : Z;
  env_type : EnvType;
  env_status : env_state;
  env_runs : Z;               (* uint32_t *)
  env_cpunum : Z;
  env_pgdir : option Z;
  vma_valid : Z;
  vma : gmap Z vm_area_struct;
  env_pgfault_upcall : Z;
  env_ipc_recving : bool;
  env_ipc_dstva : Z;
  env_ipc_value : Z;
  env_ipc_from : Z;
  env_ipc_perm : Z;
  currentpath : list Z;       (* the string, without its terminator *)
  binaryname : list Z
}.

Definition set_env_tf (x : Trapframe) (e : Env) : Env :=
  MkEnv x (env_link e) (env_id e) (env_parent_id e) (env_type e) (env_status e) (env_runs e)
    (env_cpunum e) (env_pgdir e) (vma_valid e) (vma e) (env_pgfault_upcall e)
    (env_ipc_recving e) (env_ipc_dstva e) (env_ipc_value e) (env_ipc_from e) (env_ipc_perm e)
    (currentpath e) (binaryname e).
Definition set_env_link (x : option Z) (e : Env) : Env :=
  MkEnv (env_tf e) x (env_id e) (env_parent_id e) (env_type e) (env_status e) (env_runs e)
    (env_cpunum e) (env_pgdir e) (vma_valid e) (vma e) (env_pgfault_upcall e)
    (env_ipc_recving e) (env_ipc_dstva e) (env_ipc_value e) (env_ipc_from e) (env_ipc_perm e)
    (currentpath e) (binaryname e).
Definition set_env_id (x : Z) (e : Env) : Env :=
  MkEnv (env_tf e) (env_link e) x (env_parent_id e) (env_type e) (env_status e) (env_runs e)
    (env_cpunum e) (env_pgdir e) (vma_valid e) (vma e) (env_pgfault_upcall e)
    (env_ipc_recving e) (env_ipc_dstva e) (env_ipc_value e) (env_ipc_from e) (env_ipc_perm e)
    (currentpath e) (binaryname e).
Definition set_env_type (x : EnvType) (e : Env) : Env :=
  MkEnv (env_tf e) (env_link e) (env_id e) (env_parent_id e) x (env_status e) (env_runs e)
    (env_cpunum e) (env_pgdir e) (vma_valid e) (vma e) (env_pgfault_upcall e)
    (env_ipc_recving e) (env_ipc_dstva e) (env_ipc_value e) (env_ipc_from e) (env_ipc_perm e)
    (currentpath e) (binaryname e).
Definition set_env_status (x : env_state) (e : Env) : Env :=
  MkEnv (env_tf e) (env_link e) (env_id e) (env_parent_id e) (env_type e) x (env_runs e)
    (env_cpunum e) (env_pgdir e) (vma_valid e) (vma e) (env_pgfault_upcall e)
    (env_ipc_recving e) (env_ipc_dstva e) (env_ipc_value e) (env_ipc_from e) (env_ipc_perm e)
    (currentpath e) (binaryname e).
Definition set_env_runs (x : Z) (e : Env) : Env :=
  MkEnv (env_tf e) (env_link e) (env_id e) (env_parent_id e) (env_type e) (env_status e) x
    (env_cpunum e) (env_pgdir e) (vma_valid e) (vma e) (env_pgfault_upcall e)
    (env_ipc_recving e) (env_ipc_dstva e) (env_ipc_value e) (env_ipc_from e) (env_ipc_perm e)
    (currentpath e) (binaryname e).
Definition set_env_cpunum (x : Z) (e : Env) : Env :=
  MkEnv (env_tf e) (env_link e) (env_id e) (env_parent_id e) (env_type e) (env_status e)
    (env_runs e) x (env_pgdir e) (vma_valid e) (vma e) (env_pgfault_upcall e)
    (env_ipc_recving e) (env_ipc_dstva e) (env_ipc_value e) (env_ipc_from e) (env_ipc_perm e)
    (currentpath e) (binaryname e).
Definition set_env_pgdir (x : option Z) (e : Env) : Env :=
  MkEnv (env_tf e) (env_link e) (env_id e) (env_parent_id e) (env_type e) (env_status e)
    (env_runs e) (env_cpunum e) x (vma_valid e) (vma e) (env_pgfault_upcall e)
    (env_ipc_recving e) (env_ipc_dstva e) (env_ipc_value e) (env_ipc_from e) (env_ipc_perm e)
    (currentpath e) (binaryname e).
Definition set_vma (n : Z) (x : gmap Z vm_area_struct) (e : Env) : Env :=
  MkEnv (env_tf e) (env_link e) (env_id e) (env_parent_id e) (env_type e) (env_status e)
    (env_runs e) (env_cpunum e) (env_pgdir e) n x (env_pgfault_upcall e)
    (env_ipc_recving e) (env_ipc_dstva e) (env_ipc_value e) (env_ipc_from e) (env_ipc_perm e)
    (currentpath e) (binaryname e).
Definition set_pgfault_upcall (x : Z) (e : Env) : Env :=
  MkEnv (env_tf e) (env_link e) (env_id e) (env_parent_id e) (env_type e) (env_status e)
    (env_runs e) (env_cpunum e) (env_pgdir e) (vma_valid e) (vma e) x
    (env_ipc_recving e) (env_ipc_dstva e) (env_ipc_value e) (env_ipc_from e) (env_ipc_perm e)
    (currentpath e) (binaryname e).
Definition set_ipc (recving : bool) (dstva value from perm : Z) (e : Env) : Env :=
  MkEnv (env_tf e) (env_link e) (env_id e) (env_parent_id e) (env_type e) (env_status e)
    (env_runs e) (env_cpunum e) (env_pgdir e) (vma_valid e) (vma e) (env_pgfault_upcall e)
    recving dstva value from perm (currentpath e) (binaryname e).
Definition set_names (path name : list Z) (e : Env) : Env :=
  MkEnv (env_tf e) (env_link e) (env_id e) (env_parent_id e) (env_type e) (env_status e)
    (env_runs e) (env_cpunum e) (env_pgdir e) (vma_valid e) (vma e) (env_pgfault_upcall e)
    (env_ipc_recving e) (env_ipc_dstva e) (env_ipc_value e) (env_ipc_from e) (env_ipc_perm e)
    path name.

Definition env_parent_set (x : Z) (e : Env) : Env :=
  MkEnv (env_tf e) (env_link e) (env_id e) x (env_type e) (env_status e) (env_runs e)
    (env_cpunum e) (env_pgdir e) (vma_valid e) (vma e) (env_pgfault_upcall e)
    (env_ipc_recving e) (env_ipc_dstva e) (env_ipc_value e) (env_ipc_from e) (env_ipc_perm e)
    (currentpath e) (binaryname e).

Inductive cpu_state := CPU_UNUSED | CPU_STARTED | CPU_HALTED.

Record CpuInfo := MkCpu { cpu_status : cpu_state; cpu_env : option Z }.

Record kstate := MkK {
  mem : memst;
  envs : gmap Z Env;
  env_free_list : option Z;
  cpus : gmap Z CpuInfo;
  this : Z;                 (* cpunum() *)
  kernel_locked : bool;     (* the big kernel lock is held by this processor *)
  console : list Z;         (* bytes printed, last first *)
  ticks : Z
}.

Definition set_mem (x : memst) (s : kstate) : kstate :=
  MkK x (envs s) (env_free_list s) (cpus s) (this s) (kernel_locked s) (console s) (ticks s).
Definition set_envs (x : gmap Z Env) (s : kstate) : kstate :=
  MkK (mem s) x (env_free_list s) (cpus s) (this s) (kernel_locked s) (console s) (ticks s).
Definition set_env_free_list (x : option Z) (s : kstate) : kstate :=
  MkK (mem s) (envs s) x (cpus s) (this s) (kernel_locked s) (console s) (ticks s).
Definition set_cpus (x : gmap Z CpuInfo) (s : kstate) : kstate :=
  MkK (mem s) (envs s) (env_free_list s) x (this s) (kernel_locked s) (console s) (ticks s).
Definition set_kernel_locked (x : bool) (s : kstate) : kstate :=
  MkK (mem s) (envs s) (env_free_list s) (cpus s) (this s) x (console s) (ticks s).
Definition set_console (x : list Z) (s : kstate) : kstate :=
  MkK (mem s) (envs s) (env_free_list s) (cpus s) (this s) (kernel_locked s) x (ticks s).
Definition set_ticks (x : Z) (s : kstate) : kstate :=
  MkK (mem s) (envs s) (env_free_list s) (cpus s) (this s) (kernel_locked s) (console s) x.

(** ** Accessors *)
Definition on_mem {A} (m : M memst A) : M kstate A := zoom mem set_mem m.

Definition env_at (i : Z) : M kstate Env := λ s, deref (envs s !! i) s.
Definition upd_env (i : Z) (f : Env → Env) : M kstate unit :=
  let* e := env_at i in modify (λ s, set_envs (<[i := f e]> (envs s)) s).

Definition this_cpu (s : kstate) : CpuInfo :=
  default (MkCpu CPU_UNUSED None) (cpus s !! this s).
Definition curenv (s : kstate) : option Z := cpu_env (this_cpu s).
Definition set_curenv (x : option Z) : M kstate unit :=
  modify (λ s, set_cpus (<[this s := MkCpu (cpu_status (this_cpu s)) x]> (cpus s)) s).

(** What [tlb_invalidate] compares with: [None] when there is no current
    environment; -1, no frame, when it has no directory. *)
Definition cur_dir (s : kstate) : option Z :=
  match curenv s with
  | None => None
  | Some i => Some (default (-1) (envs s !! i ≫= env_pgdir))
  end.

(** [PADDR(dir)] for a directory: it panics on NULL. *)
Definition dir_of (d : option Z) : M kstate Z :=
  match d with Some f => ret f | None => panic "PADDR called with invalid kva" end.

(** The debugging code of [spin_unlock] panics when the lock is not held here. *)
Definition unlock_kernel : M kstate unit := λ s,
  if kernel_locked s then Ret tt (set_kernel_locked false s) else Panic "spin_unlock".

(** The other checks of [spin_lock]; the wait for another processor is not part of
    the state. *)
Definition lock_kernel : M kstate unit := λ s,
  if kernel_locked s then Panic "cannot acquire kernel_lock: already holding"
  else Ret tt (set_kernel_locked true s).

(** ** Identifiers *)
Definition ENVGENSHIFT : Z := 12.
Definition ENVX (envid : Z) : Z := Z.land envid (NENV - 1).

(** [inl r] is the error return, [inr e] the environment stored; the current
    environment may be NULL. *)
Definition envid2env (envid : Z) (checkperm : bool) : M kstate (Z + option Z) :=
  let* cur := gets curenv in
  if envid =? 0 then ret (inr cur) else
  let i := ENVX envid in
  let* e := env_at i in
  if bool_decide (env_status e = ENV_FREE) || negb (env_id e =? envid)
  then ret (inl (- E_BAD_ENV)) else
  if checkperm && negb (bool_decide (cur = Some i)) then
    let* c := deref cur in
    let* ce := env_at c in
    if env_parent_id e =? env_id ce then ret (inr (Some i)) else ret (inl (- E_BAD_ENV))
  else ret (inr (Some i)).

(** ** [env_init]; the per-processor part loads segment registers only. *)
Definition env_init : M kstate unit :=
  do* for_up (Z.to_nat (NENV - 1)) 0 (λ i,
        do* upd_env i (set_env_link (Some (i + 1))) in
        upd_env i (set_env_id 0)) in
  modify (set_env_free_list (Some 0)).

(** ** Address spaces *)
Definition env_setup_vm (e : Z) : M kstate Z :=
  let* pp := on_mem (page_alloc ALLOC_ZERO) in
  match pp with
  | None => ret (- E_NO_MEM)
  | Some p =>
      let* d := on_mem (page2kva p) in
      do* upd_env e (set_env_pgdir (Some d)) in
      do* on_mem (
        let* kd := gets kern_pgdir in
        for_up (Z.to_nat (NPDENTRIES - PDX UTOP)) (PDX UTOP) (λ i,
          let* pde := load (kd, i) in
          if negb (ctrue (Z.land pde PTE_P)) then ret tt else store (d, i) pde)) in
      do* on_mem (page_incref (Some p)) in
      do* on_mem (store (d, PDX UVPT) (Z.lor (Z.lor (PADDR d) PTE_P) PTE_U)) in
      ret 0
  end.

Definition VMA_PER_ENV : Z := 8.

(** [env_add_vma] ([kernel/vm.c]); fields of the slot it does not set stay. *)
Definition env_add_vma (e : option Z) (start size perm : Z) : M kstate Z :=
  match e with
  | None => ret (- E_INVAL)
  | Some i =>
      let* en := env_at i in
      if VMA_PER_ENV <=? vma_valid en then ret (- E_MAX_OPEN) else
      do* upd_env i (λ en, set_vma (vma_valid en + 1)
            (<[vma_valid en := MkVma start size perm]> (vma en)) en) in
      ret 0
  end.

(** [page_insert] for the environment code, with this processor's [curenv]. *)
Definition k_page_insert (d : Z) (pp : option Z) (va perm : Z) : M kstate Z :=
  let* c := gets cur_dir in on_mem (page_insert c d pp va perm).
Definition k_page_remove (d va : Z) : M kstate unit :=
  let* c := gets cur_dir in on_mem (page_remove c d va).

(** [for (; va < end; va += PGSIZE)] over page-aligned bounds. *)
Definition for_pages (va end_ : Z) (body : Z → M kstate unit) : M kstate unit :=
  for_up (Z.to_nat ((end_ - va) / PGSIZE)) 0 (λ k, body (va + k * PGSIZE)).

(** A page mapped for an environment under construction; failure is fatal. *)
Definition insert_or_panic (d : Z) (pp : option Z) (va perm : Z) : M kstate unit :=
  let* r := k_page_insert d pp va perm in
  if ctrue r then panic "page_insert" else ret tt.

Definition region_alloc (e va len : Z) : M kstate unit :=
  let end0 := u32 (va + len) in
  let va := if ctrue (Z.land va (PGSIZE - 1)) then ROUNDDOWN va PGSIZE else va in
  let end_ := if ctrue (Z.land end0 (PGSIZE - 1)) then ROUNDUP end0 PGSIZE else end0 in
  for_pages va end_ (λ va,
    let* p := on_mem (page_alloc 0) in
    match p with
    | None => panic "page_alloc failed"
    | Some _ =>
        let* en := env_at e in
        let* d := deref (env_pgdir en) in
        insert_or_panic d p va PTE_W
    end).

Definition init_stack (e : Z) : M kstate unit :=
  let* p := on_mem (page_alloc 0) in
  match p with
  | None => panic "page_alloc failed"
  | Some _ =>
      let* en := env_at e in
      let* d := deref (env_pgdir en) in
      do* insert_or_panic d p (USTACKTOP - PGSIZE) (Z.lor PTE_U PTE_W) in
      do* for_pages (USTACKTOP - USTKSIZE) (USTACKTOP - PGSIZE) (λ va,
            insert_or_panic d (Some 0) va (Z.lor PTE_U PTE_COW)) in
      let* r := env_add_vma (Some e) (USTACKTOP - USTKSIZE) USTKSIZE (Z.lor PTE_U PTE_W) in
      if ctrue r then panic "add_vma" else ret tt
  end.

(** ** Loading a program *)
Definition ELF_MAGIC : Z := 0x464C457F.
Definition ELF_PROG_LOAD : Z := 1.
Definition ELF_PROG_FLAG_WRITE : Z := 2.

(** A binary image is its bytes by offset; fields are little-endian. *)
Definition image := Z → Z.
Definition le16 (b : image) (o : Z) : Z := b o + 2 ^ 8 * b (o + 1).
Definition le32 (b : image) (o : Z) : Z := le16 b o + 2 ^ 16 * le16 b (o + 2).

Definition e_magic (b : image) : Z := le32 b 0.
Definition e_entry (b : image) : Z := le32 b 24.
Definition e_phoff (b : image) : Z := le32 b 28.
Definition e_phnum (b : image) : Z := le16 b 44.

Record Proghdr := MkPh {
  p_type : Z; p_offset : Z; p_va : Z; p_filesz : Z; p_memsz : Z; p_flags : Z
}.

Definition sizeof_Proghdr : Z := 32.
Definition proghdr (b : image) (k : Z) : Proghdr :=
  let o := e_phoff b + k * sizeof_Proghdr in
  MkPh (le32 b o) (le32 b (o + 4)) (le32 b (o + 8)) (le32 b (o + 16)) (le32 b (o + 20))
    (le32 b (o + 24)).

(** [memcpy(va, binary + off, n)] and [memset(va, 0, n)] through the loaded
    address space. *)
Definition copy_image (b : image) (off va n : Z) : M kstate unit :=
  on_mem (for_up (Z.to_nat n) 0 (λ k, va_store8 (u32 (va + k)) (b (off + k)))).
Definition zero_va (va n : Z) : M kstate unit :=
  on_mem (for_up (Z.to_nat n) 0 (λ k, va_store8 (u32 (va + k)) 0)).

(** One loadable segment. *)
Definition load_segment (e d : Z) (b : image) (ph : Proghdr) : M kstate unit :=
  do* region_alloc e (p_va ph) (p_memsz ph) in
  do* copy_image b (p_offset ph) (p_va ph) (p_filesz ph) in
  do* zero_va (u32 (p_va ph + p_filesz ph)) (u32 (p_memsz ph - p_filesz ph)) in
  let perm := if ctrue (Z.land (p_flags ph) ELF_PROG_FLAG_WRITE)
              then Z.lor PTE_U PTE_W else PTE_U in
  let start := ROUNDDOWN (p_va ph) PGSIZE in
  let end_ := u32 (p_va ph + p_memsz ph) in
  do* for_up (Z.to_nat ((end_ - start + PGSIZE - 1) / PGSIZE)) 0 (λ k,
        insert_or_panic d None (start + k * PGSIZE) perm) in
  let* r := env_add_vma (Some e) (p_va ph) (p_memsz ph) perm in
  if ctrue r then panic "add_vma" else ret tt.

Definition load_icode (e : Z) (b : image) : M kstate unit :=
  let* en := env_at e in
  let* d := dir_of (env_pgdir en) in
  do* on_mem (lcr3 d) in
  if negb (e_magic b =? ELF_MAGIC) then panic "Not a elf binary" else
  do* for_up (Z.to_nat (e_phnum b)) 0 (λ k,
        let ph := proghdr b k in
        if p_type ph =? ELF_PROG_LOAD then load_segment e d b ph else ret tt) in
  do* upd_env e (λ en, set_env_tf
        (set_eip_esp_eflags (e_entry b) (tf_esp (env_tf en)) (tf_eflags (env_tf en)) (env_tf en)) en) in
  do* init_stack e in
  let* kd := gets (λ s, kern_pgdir (mem s)) in
  on_mem (lcr3 kd).

(** ** Creating environments *)
Definition user_tf : Trapframe :=
  MkTf zero_regs (Z.lor GD_UD 3) (Z.lor GD_UD 3) 0 0 0 (Z.lor GD_UT 3) FL_IF USTACKTOP
    (Z.lor GD_UD 3).

(** The generation part moves on at every reuse of the slot; [int] arithmetic. *)
Definition next_env_id (old i : Z) : Z :=
  let generation := Z.land (s32 (old + Z.shiftl 1 ENVGENSHIFT)) (Z.lnot (NENV - 1)) in
  let generation := if generation <=? 0 then Z.shiftl 1 ENVGENSHIFT else generation in
  Z.lor generation i.

(** [inl r] is the error return, [inr e] success with [*newenv_store = e]. *)
Definition env_alloc (parent_id : Z) : M kstate (Z + Z) :=
  let* fl := gets env_free_list in
  match fl with
  | None => ret (inl (- E_NO_FREE_ENV))
  | Some e =>
      let* r := env_setup_vm e in
      if r <? 0 then ret (inl r) else
      do* upd_env e (λ en, set_env_id (next_env_id (env_id en) e) en) in
      do* upd_env e (env_parent_set parent_id) in
      do* upd_env e (set_env_type ENV_TYPE_USER) in
      do* upd_env e (set_env_status ENV_RUNNABLE) in
      do* upd_env e (set_env_runs 0) in
      do* upd_env e (λ en, set_vma 0 (vma en) en) in
      do* upd_env e (set_env_tf user_tf) in
      do* upd_env e (set_pgfault_upcall 0) in
      do* upd_env e (λ en, set_ipc false (env_ipc_dstva en) (env_ipc_value en)
                             (env_ipc_from en) (env_ipc_perm en) en) in
      let* en := env_at e in
      do* modify (set_env_free_list (env_link en)) in
      ret (inr e)
  end.

Definition env_create (b : image) (type : EnvType) : M kstate unit :=
  let* r := env_alloc 0 in
  match r with
  | inl _ => panic "env_alloc"
  | inr e =>
      do* load_icode e b in
      do* upd_env e (set_env_type type) in
      if bool_decide (type = ENV_TYPE_FS) then
        upd_env e (λ en, set_env_tf
          (set_eip_esp_eflags (tf_eip (env_tf en)) (tf_esp (env_tf en))
             (Z.lor (tf_eflags (env_tf en)) FL_IOPL_3) (env_tf en)) en)
      else ret tt
  end.

(** ** Running an environment

    [env_pop_tf] leaves the kernel: the state the processor drops into user mode
    with is the one of [Switch]. *)
Definition env_pop_tf : M kstate unit :=
  let* c := gets curenv in
  let* i := deref c in
  let* n := gets this in
  do* upd_env i (set_env_cpunum n) in
  switch.

Definition env_run (e : Z) : M kstate unit :=
  let* c := gets curenv in
  do* match c with
      | None => ret tt
      | Some i =>
          let* ce := env_at i in
          if bool_decide (env_status ce = ENV_RUNNING)
          then upd_env i (set_env_status ENV_RUNNABLE) else ret tt
      end in
  do* set_curenv (Some e) in
  do* upd_env e (set_env_status ENV_RUNNING) in
  do* upd_env e (λ en, set_env_runs (u32 (env_runs en + 1)) en) in
  let* en := env_at e in
  let* d := dir_of (env_pgdir en) in
  do* on_mem (lcr3 d) in
  do* unlock_kernel in
  env_pop_tf.

(** ** Freeing an environment *)

(** The pages and the table behind one directory entry. *)
Definition env_free_table (d pdeno : Z) : M kstate unit :=
  let* pde := on_mem (load (d, pdeno)) in
  if negb (ctrue (Z.land pde PTE_P)) then ret tt else
  let pa := PTE_ADDR pde in
  let* pt := on_mem (KADDR pa) in
  do* for_up (Z.to_nat NPTENTRIES) 0 (λ pteno,
        let* e := on_mem (load (pt, pteno)) in
        if ctrue (Z.land e PTE_P) then k_page_remove d (PGADDR pdeno pteno 0) else ret tt) in
  do* on_mem (store (d, pdeno) 0) in
  on_mem (let* pp := pa2page pa in page_decref pp).

Definition env_free (e : Z) : M kstate unit :=
  let* c := gets curenv in
  do* (if bool_decide (c = Some e) then
         let* kd := gets (λ s, kern_pgdir (mem s)) in on_mem (lcr3 kd)
       else ret tt) in
  let* en := env_at e in
  let* d := deref (env_pgdir en) in
  do* for_up (Z.to_nat (PDX UTOP)) 0 (env_free_table d) in
  do* upd_env e (set_env_pgdir None) in
  do* on_mem (let* pp := pa2page (PADDR d) in page_decref pp) in
  do* upd_env e (set_env_status ENV_FREE) in
  let* fl := gets env_free_list in
  do* upd_env e (set_env_link fl) in
  modify (set_env_free_list (Some e)).
