(* ===== verification/Sched.v ===== *)
(** * The scheduler and [env_destroy] ([kernel/sched.c], [kernel/env.c])

    [sched_yield] runs the runnable environment that has run least, searched from
    the slot after the current one; it never returns to its caller. *)

From stdpp Require Import base gmap list strings.
From Stdlib Require Import ZArith Lia.
From S2P Require Import Prelude Mmu Pmap MemInit Env.

(** The body of the search: [min_env] so far and the slot looked at. *)
Definition sched_pick (es : gmap Z Env) (i : Z) (min_env : option Z) : option Z :=
  match es !! i with
  | None => min_env
  | Some e =>
      if bool_decide (env_status e = ENV_RUNNABLE) then
        match min_env ≫= λ j, es !! j with
        | Some m => if env_runs e <? env_runs m then Some i else min_env
        | None => Some i
        end
      else min_env
  end.

(** [for (j = 0; j < NENV; j++, i = (i + 1) % NENV)] *)
Fixpoint sched_search (es : gmap Z Env) (n : nat) (i : Z) (min_env : option Z) : option Z :=
  match n with
  | O => min_env
  | S n' => sched_search es n' ((i + 1) mod NENV) (sched_pick es i min_env)
  end.

Definition sched_start (s : kstate) : Z :=
  match curenv s ≫= λ i, envs s !! i with
  | Some e => (ENVX (env_id e) + 1) mod NENV
  | None => 0
  end.

Definition is_live (e : Env) : bool :=
  match env_status e with
  | ENV_RUNNABLE | ENV_RUNNING | ENV_DYING => true
  | _ => false
  end.

(** [sched_halt]: with nothing left to run the processor stays in the monitor;
    otherwise it waits for an interrupt, outside the kernel. *)
Definition sched_halt : M kstate unit :=
  let* es := gets envs in
  if negb (existsb (λ i, match es !! i with Some e => is_live e | None => false end)
             (seqZ 0 NENV))
  then panic "No runnable environments in the system!" else
  do* set_curenv None in
  let* kd := gets (λ s, kern_pgdir (mem s)) in
  do* on_mem (lcr3 kd) in
  do* modify (λ s, set_cpus (<[this s := MkCpu CPU_HALTED (cpu_env (this_cpu s))]> (cpus s)) s) in
  do* unlock_kernel in
  switch.

Definition sched_yield : M kstate unit :=
  let* idle := gets curenv in
  let* start := gets sched_start in
  let* es := gets envs in
  match sched_search es (Z.to_nat NENV) start None with
  | Some e => env_run e
  | None =>
      let* running := match idle with
                      | None => ret false
                      | Some i =>
                          let* e := env_at i in
                          ret (bool_decide (env_status e = ENV_RUNNING))
                      end in
      match idle with
      | Some i => if running then env_run i else sched_halt
      | None => sched_halt
      end
  end.

(** An environment running on another processor is only marked; it is freed when
    it next enters the kernel. *)
Definition env_destroy (e : Z) : M kstate unit :=
  let* c := gets curenv in
  let* en := env_at e in
  if bool_decide (env_status en = ENV_RUNNING) && negb (bool_decide (c = Some e))
  then upd_env e (set_env_status ENV_DYING) else
  do* env_free e in
  if bool_decide (c = Some e) then
    do* set_curenv None in
    sched_yield
  else ret tt.

(** [user_mem_assert] ([kernel/pmap.c]): the environment is destroyed when it may
    not access the range. *)
Definition user_mem_assert (e va len perm : Z) : M kstate unit :=
  let* en := env_at e in
  let* d := deref (env_pgdir en) in
  let* r := on_mem (user_mem_check d va len (Z.lor (Z.lor perm PTE_U) PTE_P)) in
  if r <? 0 then env_destroy e else ret tt.

(** ** What the search finds *)
Definition runnable (es : gmap Z Env) (i : Z) : Prop :=
  ∃ e, es !! i = Some e ∧ env_status e = ENV_RUNNABLE.

Definition runs (es : gmap Z Env) (i : Z) : Z := from_option env_runs 0 (es !! i).

Definition is_runnable (es : gmap Z Env) (i : Z) : bool :=
  match es !! i with Some e => bool_decide (env_status e = ENV_RUNNABLE) | None => false end.

(** Round robin: the first runnable slot in circular order from [i]. *)
Fixpoint first_from (es : gmap Z Env) (n : nat) (i : Z) : option Z :=
  match n with
  | O => None
  | S n' => if is_runnable es i then Some i else first_from es n' ((i + 1) mod NENV)
  end.
Definition first_after (es : gmap Z Env) (start k : Z) : Prop :=
  ∃ d, 0 ≤ d < NENV ∧ k = (start + d) mod NENV ∧ runnable es k ∧ ∀ d', 0 ≤ d' < d → ¬ runnable es ((start + d') mod NENV).

Lemma is_runnable_spec es i : is_runnable es i = true ↔ runnable es i.
Proof.
  unfold is_runnable, runnable. destruct (es !! i) as [e|]; [rewrite bool_decide_eq_true|split; [done|by intros (? & ? & _)]].
  split; [by exists e|by intros (? & [= ->] & ?)].
Qed.

Lemma first_from_some es n : ∀ i k, 0 ≤ i < NENV → first_from es n i = Some k →
  ∃ d, 0 ≤ d < Z.of_nat n ∧ k = (i + d) mod NENV ∧ runnable es k ∧ ∀ d', 0 ≤ d' < d → ¬ runnable es ((i + d') mod NENV).
Proof.
  induction n as [|n IH]; intros i k Hi H; cbn [first_from] in H; [done|]. destruct (is_runnable es i) eqn:E.
  - injection H as <-. exists 0. rewrite Z.add_0_r, Z.mod_small by done. split; [lia|]. split; [done|]. split; [by apply is_runnable_spec|lia].
  - apply IH in H as (d & Hd & -> & Hr & Hall); [|by apply Z.mod_pos_bound]. assert (∀ x, ((i + 1) mod NENV + x) mod NENV = (i + (x + 1)) mod NENV) as Ex.
    { intros x. rewrite Zplus_mod_idemp_l. f_equal. lia. }
    rewrite Ex in *. exists (d + 1). split; [lia|]. split; [done|]. split; [done|]. intros d' Hd'. destruct (decide (d' = 0)) as [->|].
    + rewrite Z.add_0_r, Z.mod_small by done. rewrite <- is_runnable_spec. congruence.
    + specialize (Hall (d' - 1) ltac:(lia)). rewrite Ex in Hall. by replace (d' - 1 + 1) with d' in Hall by lia.
Qed.

(** [o] is the least-run runnable slot among those in [V]. *)
Definition least (es : gmap Z Env) (V : Z → Prop) (o : option Z) : Prop :=
  match o with
  | None => ∀ i, V i → ¬ runnable es i
  | Some k => V k ∧ runnable es k ∧ ∀ i, V i → runnable es i → runs es k ≤ runs es i
  end.

Lemma sched_pick_least es (V : Z → Prop) o i :
  least es V o → least es (λ j, V j ∨ j = i) (sched_pick es i o).
Proof.
  intros Ho. unfold sched_pick. destruct (es !! i) as [e|] eqn:He.
  2:{ assert (¬ runnable es i) as Hn by (intros (? & ? & _); congruence).
      destruct o as [k|]; cbn in *.
      - destruct Ho as (? & ? & Hk). split; [by left|]. split; [done|].
        intros j [Hj| ->] Hr; [by apply Hk|done].
      - intros j [Hj| ->]; [by apply Ho|done]. }
  case_bool_decide as Hst.
  2:{ assert (¬ runnable es i) as Hn by (intros (? & ? & ?); congruence).
      destruct o as [k|]; cbn in *.
      - destruct Ho as (? & ? & Hk). split; [by left|]. split; [done|].
        intros j [Hj| ->] Hr; [by apply Hk|done].
      - intros j [Hj| ->]; [by apply Ho|done]. }
  assert (runnable es i) as Hri by (by exists e).
  assert (runs es i = env_runs e) as Hruns by (unfold runs; by rewrite He).
  destruct o as [k|]; cbn in *.
  - destruct Ho as (HVk & Hrk & Hk). destruct Hrk as (ek & Hek & Hsk). rewrite Hek.
    assert (runs es k = env_runs ek) as Hrunk by (unfold runs; by rewrite Hek).
    destruct (Z.ltb_spec (env_runs e) (env_runs ek)); cbn.
    + split; [by right|]. split; [done|]. intros j [Hj| ->] Hr; [|lia].
      specialize (Hk j Hj Hr). lia.
    + split; [by left|]. split; [by exists ek|]. intros j [Hj| ->] Hr; [by apply Hk|lia].
  - split; [by right|]. split; [done|]. intros j [Hj| ->] Hr; [|lia]. by apply Ho in Hr.
Qed.

Lemma least_ext es (V V' : Z → Prop) o :
  (∀ i, V i ↔ V' i) → least es V o → least es V' o.
Proof. intros H. destruct o; cbn; setoid_rewrite H; done. Qed.

Lemma sched_search_least es n : ∀ (V : Z → Prop) i o,
  0 ≤ i < NENV → least es V o →
  least es (λ j, V j ∨ ∃ k, 0 ≤ k < Z.of_nat n ∧ j = (i + k) mod NENV) (sched_search es n i o).
Proof.
  induction n as [|n IH]; intros V i o Hi Ho; cbn [sched_search].
  - eapply least_ext; [|exact Ho]. intros j. split; [by left|]. intros [?|(k & ? & _)]; [done|lia].
  - eapply least_ext; [|apply IH; [apply Z.mod_pos_bound; done|by apply sched_pick_least]].
    intros j. assert (∀ k, ((i + 1) mod NENV + k) mod NENV = (i + (k + 1)) mod NENV) as E.
    { intros k. rewrite Zplus_mod_idemp_l. f_equal. lia. }
    split.
    + intros [[?| ->]|(k & Hk & ->)]; [by left| |].
      * right. exists 0. rewrite Z.add_0_r, Z.mod_small by done. split; [lia|done].
      * right. exists (k + 1). rewrite E. split; [lia|done].
    + intros [?|(k & Hk & ->)]; [by left; left|]. destruct (decide (k = 0)) as [->|].
      * left. right. by rewrite Z.add_0_r, Z.mod_small.
      * right. exists (k - 1). rewrite E. split; [lia|]. f_equal. lia.
Qed.

(** The search covers the whole array wherever it starts. *)
Lemma sched_search_all es i :
  0 ≤ i < NENV → least es (λ j, 0 ≤ j < NENV) (sched_search es (Z.to_nat NENV) i None).
Proof.
  intros Hi. eapply least_ext; [|apply (sched_search_least es _ (λ _, False) i None Hi); intros ? []].
  intros j. change (Z.of_nat (Z.to_nat NENV)) with 1024. change NENV with 1024 in *. split.
  - intros [[]|(k & ? & ->)]. dlia.
  - intros Hj. right. exists ((j - i) mod 1024). split; [dlia|].
    rewrite Zplus_mod_idemp_r. rewrite Z.mod_small; lia.
Qed.

Lemma sched_start_range s : 0 ≤ sched_start s < NENV.
Proof.
  unfold sched_start. destruct (curenv s ≫= _); [apply Z.mod_pos_bound|]; done.
Qed.

(** ** Running *)

(** The array [envs] is complete, the current environment is in it, every
    environment that may run has a directory, and the kernel lock is held. *)
Record sched_ok (s : kstate) : Prop := MkSchedOk {
  so_dom : ∀ i, is_Some (envs s !! i) ↔ 0 ≤ i < NENV;
  so_cur : ∀ c, curenv s = Some c → 0 ≤ c < NENV;
  so_dir : ∀ i e, envs s !! i = Some e → is_live e = true → is_Some (env_pgdir e);
  so_lock : kernel_locked s = true
}.

(** [envs] when the processor leaves the kernel to run [k]. *)
Definition run_envs (s : kstate) (k : Z) : gmap Z Env :=
  let es := match curenv s with
            | Some c => alter (λ e, if bool_decide (env_status e = ENV_RUNNING)
                                    then set_env_status ENV_RUNNABLE e else e) c (envs s)
            | None => envs s
            end in
  alter (λ e, set_env_cpunum (this s)
          (set_env_runs (u32 (env_runs e + 1)) (set_env_status ENV_RUNNING e))) k es.

Definition run_st (s : kstate) (k d : Z) : kstate :=
  MkK (set_tlb ∅ (set_cr3 d (mem s))) (run_envs s k) (env_free_list s)
    (<[this s := MkCpu (cpu_status (this_cpu s)) (Some k)]> (cpus s)) (this s) false
    (console s) (ticks s).

Lemma curenv_set s x cs : curenv (set_cpus (<[this s := MkCpu cs x]> (cpus s)) s) = x.
Proof. unfold curenv, this_cpu. cbn. by rewrite lookup_insert_eq. Qed.

Lemma upd_env_eq i f s e :
  envs s !! i = Some e → upd_env i f s = Ret tt (set_envs (<[i := f e]> (envs s)) s).
Proof. intros He. unfold upd_env, bind, env_at. by rewrite He. Qed.

Lemma insert_alter_env (es : gmap Z Env) i f e :
  es !! i = Some e → <[i := f e]> es = alter f i es.
Proof.
  intros He. apply map_eq. intros j. destruct (decide (i = j)) as [<-|Hne].
  - by rewrite lookup_insert_eq, lookup_alter_eq, He.
  - by rewrite lookup_insert_ne, lookup_alter_ne.
Qed.

(** The first step of [env_run]: the current environment stops running. *)
Lemma env_run_stop s :
  sched_ok s →
  match curenv s with
  | None => ret tt
  | Some i =>
      let* ce := env_at i in
      if bool_decide (env_status ce = ENV_RUNNING)
      then upd_env i (set_env_status ENV_RUNNABLE) else ret tt
  end s = Ret tt (set_envs (match curenv s with
            | Some c => alter (λ e, if bool_decide (env_status e = ENV_RUNNING)
                                    then set_env_status ENV_RUNNABLE e else e) c (envs s)
            | None => envs s
            end) s).
Proof.
  intros Hok. destruct (curenv s) as [c|] eqn:Hc; [|by destruct s].
  destruct (proj2 (so_dom _ Hok c) (so_cur _ Hok c Hc)) as [e He].
  unfold bind, env_at. rewrite He. cbn.
  rewrite <- (insert_alter_env _ _ _ e He). case_bool_decide.
  - by apply upd_env_eq.
  - rewrite insert_id by done. by destruct s.
Qed.

Lemma env_run_eq s k e d :
  sched_ok s → envs s !! k = Some e → env_pgdir e = Some d →
  env_run k s = Switch (run_st s k d).
Proof.
  intros Hok He Hd. unfold env_run, bind at 1, gets at 1. unfold bind at 1.
  rewrite env_run_stop by done. set (s1 := set_envs _ s).
  assert (∃ e1, envs s1 !! k = Some e1 ∧ env_pgdir e1 = Some d ∧
            env_runs e1 = env_runs e) as (e1 & He1 & Hd1 & Hr1).
  { unfold s1. cbn. destruct (curenv s) as [c|]; [|by exists e].
    destruct (decide (c = k)) as [->|]; [rewrite lookup_alter_eq|rewrite lookup_alter_ne by done];
      rewrite He; cbn; eexists; (split; [done|]); [by case_bool_decide|done]. }
  unfold bind at 1, set_curenv, modify. unfold bind at 1. erewrite upd_env_eq by exact He1.
  unfold bind at 1. erewrite upd_env_eq by apply lookup_insert_eq.
  unfold bind at 1, env_at. cbn. rewrite lookup_insert_eq. cbn. rewrite Hd1. cbn.
  unfold unlock_kernel, env_pop_tf, bind, gets. cbn. rewrite (so_lock _ Hok). cbn.
  unfold curenv at 1, this_cpu at 1. cbn.
  rewrite lookup_insert_eq. cbn. unfold upd_env, bind, env_at. cbn. rewrite lookup_insert_eq. cbn.
  f_equal. unfold run_st. f_equal. rewrite !insert_insert_eq.
  unfold run_envs. by rewrite <- (insert_alter_env _ k _ e1) by exact He1.
Qed.

(** ** [sched_yield] *)

(** The processor runs [k]: it is current and [RUNNING], counted once more, in
    its own address space with a clean TLB, the lock is free, the environment
    that ran before is [RUNNABLE] again, and all others are as they were. *)
Record now_running (s : kstate) (k : Z) (s' : kstate) : Prop := MkNowRunning {
  nr_cur : curenv s' = Some k;
  nr_env : ∃ e e', envs s !! k = Some e ∧ envs s' !! k = Some e' ∧
    env_status e' = ENV_RUNNING ∧ env_runs e' = u32 (env_runs e + 1) ∧
    env_cpunum e' = this s ∧ Some (cr3 (mem s')) = env_pgdir e;
  nr_tlb : tlb (mem s') = ∅;
  nr_lock : kernel_locked s' = false;
  nr_prev : ∀ c e, curenv s = Some c → c ≠ k → envs s !! c = Some e →
    env_status e = ENV_RUNNING → envs s' !! c = Some (set_env_status ENV_RUNNABLE e);
  nr_rest : ∀ j, j ≠ k → curenv s ≠ Some j → envs s' !! j = envs s !! j
}.

Lemma run_st_running s k e d :
  envs s !! k = Some e → env_pgdir e = Some d → now_running s k (run_st s k d).
Proof.
  intros He Hd. split.
  - unfold curenv, this_cpu, run_st. cbn. by rewrite lookup_insert_eq.
  - exists e. cbn. unfold run_envs. rewrite lookup_alter_eq.
    destruct (curenv s) as [c|]; [destruct (decide (c = k)) as [->|];
      [rewrite lookup_alter_eq|rewrite lookup_alter_ne by done]|]; rewrite He; cbn;
      eexists; repeat split; try done; by case_bool_decide.
  - done.
  - done.
  - intros c ec Hc Hne Hec Hst. cbn. unfold run_envs. rewrite Hc, lookup_alter_ne by done.
    rewrite lookup_alter_eq, Hec. cbn. by rewrite bool_decide_eq_true_2.
  - intros j Hj Hcj. cbn. unfold run_envs. rewrite lookup_alter_ne by done.
    destruct (curenv s) as [c|]; [|done]. by rewrite lookup_alter_ne by congruence.
Qed.

Definition any_live (es : gmap Z Env) : Prop :=
  ∃ i e, 0 ≤ i < NENV ∧ es !! i = Some e ∧ is_live e = true.

Lemma sched_halt_spec s :
  kernel_locked s = true →
  (any_live (envs s) ∧ ∃ s', sched_halt s = Switch s' ∧
     curenv s' = None ∧ cpu_status (this_cpu s') = CPU_HALTED ∧
     cr3 (mem s') = kern_pgdir (mem s) ∧ kernel_locked s' = false ∧ envs s' = envs s) ∨
  (¬ any_live (envs s) ∧ sched_halt s = Panic "No runnable environments in the system!").
Proof.
  intros Hlock.
  destruct (existsb (λ i, match envs s !! i with Some e => is_live e | None => false end)
              (seqZ 0 NENV)) eqn:Hex.
  - left. split.
    + apply existsb_exists in Hex as (i & Hi & He). apply list_elem_of_In, elem_of_seqZ in Hi.
      destruct (envs s !! i) as [e|] eqn:E; [|done]. exists i, e. split; [lia|done].
    + eexists. split.
      { unfold sched_halt, bind, gets. rewrite Hex. cbn. unfold unlock_kernel. cbn.
        rewrite Hlock. reflexivity. }
      unfold curenv, this_cpu. cbn.
      rewrite !lookup_insert_eq. done.
  - right. split; [|unfold sched_halt, bind, gets; by rewrite Hex].
    intros (i & e & Hi & He & Hl).
    rewrite <- not_true_iff_false in Hex. apply Hex, existsb_exists. exists i.
    split; [apply list_elem_of_In, elem_of_seqZ; lia|]. by rewrite He.
Qed.

Lemma sched_yield_eq s :
  sched_ok s →
  sched_yield s =
    match sched_search (envs s) (Z.to_nat NENV) (sched_start s) None with
    | Some k => env_run k s
    | None =>
        match curenv s with
        | Some c => if decide (env_status <$> envs s !! c = Some ENV_RUNNING)
                    then env_run c s else sched_halt s
        | None => sched_halt s
        end
    end.
Proof.
  intros Hok. unfold sched_yield, bind, gets. destruct (sched_search _ _ _ _); [done|].
  destruct (curenv s) as [c|] eqn:Hc; [|done].
  destruct (proj2 (so_dom _ Hok c) (so_cur _ Hok c Hc)) as [e He].
  unfold env_at. rewrite He. cbn.
  destruct (decide (env_status e = ENV_RUNNING)) as [->|Hne].
  - by rewrite bool_decide_eq_true_2, decide_True.
  - by rewrite bool_decide_eq_false_2, decide_False by congruence.
Qed.

(** What the search chooses: one of the runnable environments that have run least, the
    first of them in circular order when they all have run equally often.  The comment in
    the code has only the second half, for every case. *)
Lemma sched_search_equal es n : ∀ i o, (∀ j k, runnable es j → runnable es k → runs es j = runs es k) →
  match o with Some k => runnable es k | None => True end →
  sched_search es n i o = match o with Some k => Some k | None => first_from es n i end.
Proof.
  induction n as [|n IH]; intros i o Heq Ho; cbn [sched_search first_from]; [by destruct o|].
  rewrite IH; [|done|].
  - unfold sched_pick, is_runnable. destruct (es !! i) as [e|] eqn:He; [|by destruct o]. case_bool_decide as Hst; [|by destruct o].
    destruct o as [k|]; [|done]. cbn. pose proof Ho as (ek & Hek & _). rewrite Hek.
    assert (runs es i = runs es k) as E by (apply Heq; [by exists e|done]). unfold runs in E. rewrite He, Hek in E. cbn in E.
    destruct (Z.ltb_spec (env_runs e) (env_runs ek)); [lia|done].
  - unfold sched_pick. destruct (es !! i) as [e|] eqn:He; [|done]. case_bool_decide as Hst; [|done].
    assert (runnable es i) by (by exists e). destruct (o ≫= _) as [m|]; [|done]. by destruct (_ <? _).
Qed.

(** [sched_yield] runs one of the runnable environments that have run least. *)
Lemma sched_least_run s : sched_ok s → (∃ j, 0 ≤ j < NENV ∧ runnable (envs s) j) →
  ∃ k s', sched_yield s = Switch s' ∧ 0 ≤ k < NENV ∧ runnable (envs s) k ∧ now_running s k s' ∧
    sched_search (envs s) (Z.to_nat NENV) (sched_start s) None = Some k ∧
    ∀ j, 0 ≤ j < NENV → runnable (envs s) j → runs (envs s) k ≤ runs (envs s) j.
Proof.
  intros Hok (j & Hj & Hr). pose proof (sched_search_all (envs s) _ (sched_start_range s)) as Hl.
  rewrite sched_yield_eq by done. destruct (sched_search _ _ _ _) as [k|]; [|by destruct (Hl j Hj)].
  destruct Hl as (Hk & (e & He & Hst) & Hmin).
  destruct (so_dir _ Hok k e He) as [d Hd]; [unfold is_live; by rewrite Hst|].
  exists k, (run_st s k d). split; [by eapply env_run_eq|]. split; [done|].
  split; [by exists e|]. split; [by eapply run_st_running|done].
Qed.

(** With nothing runnable the processor goes on with what it ran, or halts. *)
Lemma sched_idle s : sched_ok s → (∀ j, 0 ≤ j < NENV → ¬ runnable (envs s) j) →
  (∃ c e s', curenv s = Some c ∧ envs s !! c = Some e ∧ env_status e = ENV_RUNNING ∧
     sched_yield s = Switch s' ∧ now_running s c s') ∨
  ((∀ c e, curenv s = Some c → envs s !! c = Some e → env_status e ≠ ENV_RUNNING) ∧
   ((any_live (envs s) ∧ ∃ s', sched_yield s = Switch s' ∧ curenv s' = None ∧
       cpu_status (this_cpu s') = CPU_HALTED ∧ cr3 (mem s') = kern_pgdir (mem s) ∧
       kernel_locked s' = false ∧ envs s' = envs s) ∨
    (¬ any_live (envs s) ∧
     sched_yield s = Panic "No runnable environments in the system!"))).
Proof.
  intros Hok Hn. pose proof (sched_search_all (envs s) _ (sched_start_range s)) as Hl.
  rewrite sched_yield_eq by done. destruct (sched_search _ _ _ _) as [k|]; [by destruct Hl as (Hk & Hr & _); destruct (Hn k Hk)|].
  clear Hn. pose proof (sched_halt_spec s (so_lock _ Hok)) as Hh.
  destruct (curenv s) as [c|] eqn:Hc; [|right; split; [done|exact Hh]].
  destruct (decide _) as [(e & He & Hst)%fmap_Some|Hn].
  - left. symmetry in Hst. destruct (so_dir _ Hok c e He) as [d Hd]; [unfold is_live; by rewrite Hst|].
    exists c, e, (run_st s c d). do 3 (split; [done|]).
    split; [by eapply env_run_eq|by eapply run_st_running].
  - right. split; [|exact Hh]. intros c' e' [= <-] He' ?. apply Hn. rewrite He'. cbn. congruence.
Qed.

(** C4. [sched_yield] never returns to its caller.  When some environment is runnable it
    runs a runnable one, and so never one that is running on another processor; when all
    that are runnable have run equally often, it is the first of them in circular order
    after the slot of the current environment.  With none runnable the processor goes on
    with its current environment if that is still running; otherwise it halts, with no
    current environment and in the kernel's address space, or, when no environment is
    alive at all, stays in the monitor. *)
Theorem sched_yield_correct s :
  sched_ok s →
  (∃ k s', sched_yield s = Switch s' ∧ 0 ≤ k < NENV ∧ runnable (envs s) k ∧ now_running s k s' ∧
     ((∀ i j, runnable (envs s) i → runnable (envs s) j → runs (envs s) i = runs (envs s) j) →
      first_after (envs s) (sched_start s) k)) ∨
  ((∀ j, 0 ≤ j < NENV → ¬ runnable (envs s) j) ∧
   ((∃ c e s', curenv s = Some c ∧ envs s !! c = Some e ∧ env_status e = ENV_RUNNING ∧
       sched_yield s = Switch s' ∧ now_running s c s') ∨
    ((∀ c e, curenv s = Some c → envs s !! c = Some e → env_status e ≠ ENV_RUNNING) ∧
     ((any_live (envs s) ∧ ∃ s', sched_yield s = Switch s' ∧ curenv s' = None ∧
         cpu_status (this_cpu s') = CPU_HALTED ∧ cr3 (mem s') = kern_pgdir (mem s) ∧
         kernel_locked s' = false ∧ envs s' = envs s) ∨
      (¬ any_live (envs s) ∧
       sched_yield s = Panic "No runnable environments in the system!"))))).
Proof.
  intros Hok. destruct (sched_search (envs s) (Z.to_nat NENV) (sched_start s) None) as [k0|] eqn:E.
  - left. pose proof (sched_search_all (envs s) _ (sched_start_range s)) as Hl. rewrite E in Hl. destruct Hl as (Hk0 & Hr0 & _).
    destruct (sched_least_run s Hok) as (k & s' & Hy & Hk & Hr & Hn & Es & _); [by exists k0|]. exists k, s'. do 4 (split; [done|]).
    intros Heq. rewrite (sched_search_equal _ _ _ None Heq I) in Es. exact (first_from_some _ _ _ _ (sched_start_range s) Es).
  - right. assert (∀ j, 0 ≤ j < NENV → ¬ runnable (envs s) j) as Hn.
    { pose proof (sched_search_all (envs s) _ (sched_start_range s)) as Hl. by rewrite E in Hl. }
    split; [done|]. by apply sched_idle.
Qed.

(** Two environments, the current one running and another runnable. *)
Definition demo_env (id : Z) (st : env_state) (runs : Z) (d : option Z) : Env :=
  MkEnv user_tf None id 0 ENV_TYPE_USER st runs 0 d 0 ∅ 0 false 0 0 0 0 [] [].

Definition demo_envs : gmap Z Env :=
  <[0 := demo_env 4096 ENV_RUNNING 5 (Some 31)]>
    (<[1 := demo_env 4097 ENV_RUNNABLE 3 (Some 29)]>
       (list_to_map ((λ i, (i, demo_env 0 ENV_FREE 0 None)) <$> seqZ 0 1024))).

Definition demo_ks : kstate :=
  MkK (MkMem 32 32 ∅ None ∅ 0 0 MMIOBASE 0 31 0 0 ∅) demo_envs (Some 2)
    {[ 0 := MkCpu CPU_STARTED (Some 0) ]} 0 true [] 0.

Lemma demo_lookup i :
  demo_envs !! i = if decide (i = 0) then Some (demo_env 4096 ENV_RUNNING 5 (Some 31))
    else if decide (i = 1) then Some (demo_env 4097 ENV_RUNNABLE 3 (Some 29))
    else if decide (0 ≤ i < NENV) then Some (demo_env 0 ENV_FREE 0 None) else None.
Proof.
  unfold demo_envs. destruct (decide (i = 0)) as [->|]; [done|].
  rewrite lookup_insert_ne by done. destruct (decide (i = 1)) as [->|]; [done|].
  rewrite lookup_insert_ne by done. case_decide as Hi.
  - apply elem_of_list_to_map.
    + rewrite <- list_fmap_compose. apply NoDup_fmap_2; [by intros ?? [=]|apply NoDup_seqZ].
    + apply list_elem_of_fmap. exists i. split; [done|by apply elem_of_seqZ].
  - apply not_elem_of_list_to_map. rewrite <- list_fmap_compose.
    intros (y & -> & Hy%elem_of_seqZ)%list_elem_of_fmap. by apply Hi.
Qed.

Lemma demo_ok : sched_ok demo_ks.
Proof.
  split.
  - intros i. change (envs demo_ks) with demo_envs. rewrite demo_lookup.
    change NENV with 1024. repeat case_decide; split; intros; done || (by eexists) || lia.
  - intros c. vm_compute. intros [= <-]. split; congruence.
  - intros i e. change (envs demo_ks) with demo_envs. rewrite demo_lookup.
    repeat case_decide; intros [= <-]; done || (by eexists).
  - reflexivity.
Qed.

Lemma sched_yield_correct_witness :
  ∃ s', sched_yield demo_ks = Switch s' ∧ now_running demo_ks 1 s'.
Proof.
  destruct (sched_yield_correct demo_ks demo_ok)
    as [(k & s' & H & Hk & (e & He & Hr) & Hn & _)|[H _]].
  - exists s'. split; [exact H|]. change (envs demo_ks) with demo_envs in He.
    rewrite demo_lookup in He. destruct (decide (k = 0)); [injection He as <-; discriminate Hr|].
    destruct (decide (k = 1)) as [->|]; [exact Hn|].
    destruct (decide (0 ≤ k < NENV)); [injection He as <-; discriminate Hr|discriminate He].
  - exfalso. apply (H 1); [vm_compute; split; congruence|].
    exists (demo_env 4097 ENV_RUNNABLE 3 (Some 29)). split; reflexivity.
Defined.
