(* ===== verification/SchedFair.v ===== *)
(** * The scheduler is fair

    An environment that stays runnable is run after a number of calls of
    [sched_yield] that depends on how far the others are behind it. *)

From stdpp Require Import base gmap list strings.
From Stdlib Require Import ZArith Lia.
From S2P Require Import Prelude Mmu Pmap MemInit Env Sched.

(** How often the environments can run before [k]. *)
Definition gap (es : gmap Z Env) (k j : Z) : Z :=
  if decide (j = k) then 0 else Z.max 0 (runs es k + 1 - runs es j).
Definition behind (es : gmap Z Env) (k : Z) : Z := foldr (λ j n, gap es k j + n) 0 (seqZ 0 NENV).

(** The processor comes back to the scheduler: programs have run and the kernel has
    served them, [k] is still waiting, and no environment has been replaced by one
    that has run less. *)
Record resumes (k : Z) (s1 s : kstate) : Prop := {
  rs_ok : sched_ok s;
  rs_runnable : runnable (envs s) k;
  rs_same : runs (envs s) k = runs (envs s1) k;
  rs_more : ∀ j, 0 ≤ j < NENV → runs (envs s1) j ≤ runs (envs s) j
}.

(** ** Lemmas *)
Lemma sum_le (f g : Z → Z) l : (∀ j, j ∈ l → f j ≤ g j) →
  foldr (λ j n, f j + n) 0 l ≤ foldr (λ j n, g j + n) 0 l.
Proof.
  induction l as [|j l IH]; intros H; cbn; [done|].
  pose proof (H j ltac:(left)). assert (∀ i, i ∈ l → f i ≤ g i) as H' by (intros i Hi; apply H; by right).
  specialize (IH H'). lia.
Qed.

Lemma sum_lt (f g : Z → Z) l m : m ∈ l → f m < g m → (∀ j, j ∈ l → f j ≤ g j) →
  foldr (λ j n, f j + n) 0 l < foldr (λ j n, g j + n) 0 l.
Proof.
  intros Hm Hlt. induction l as [|j l IH]; intros H; [by apply not_elem_of_nil in Hm|]. cbn.
  assert (∀ i, i ∈ l → f i ≤ g i) as H' by (intros i Hi; apply H; by right).
  pose proof (H j ltac:(left)). apply elem_of_cons in Hm as [<-|Hm].
  - pose proof (sum_le f g l H'). lia.
  - specialize (IH Hm H'). lia.
Qed.

Lemma behind_nonneg es k : 0 ≤ behind es k.
Proof.
  unfold behind. induction (seqZ 0 NENV) as [|j l IH]; cbn; [done|].
  unfold gap at 1. case_decide; lia.
Qed.

(** At most, when nobody else has run yet. *)
Lemma behind_bound es k : (∀ j, 0 ≤ runs es j) → behind es k ≤ NENV * (runs es k + 1).
Proof.
  intros H. pose proof (H k) as Hk. unfold behind.
  assert (∀ l : list Z, foldr (λ j n, gap es k j + n) 0 l ≤ Z.of_nat (length l) * (runs es k + 1)) as Hl.
  { induction l as [|j l IH]; cbn [foldr length]; [lia|]. specialize (H j). unfold gap at 1. case_decide; nia. }
  specialize (Hl (seqZ 0 NENV)). by rewrite length_seqZ in Hl.
Qed.

(** Running [m] counts it once more, and nobody else. *)
Lemma run_envs_runs s m j : is_Some (envs s !! m) →
  runs (run_envs s m) j = if decide (j = m) then u32 (runs (envs s) m + 1) else runs (envs s) j.
Proof.
  intros [e He]. unfold run_envs, runs.
  set (es := match curenv s with Some c => _ | None => _ end).
  assert (∀ i, (es !! i = None ↔ envs s !! i = None) ∧
    from_option env_runs 0 (es !! i) = from_option env_runs 0 (envs s !! i)) as Hsame.
  { intros i. unfold es. destruct (curenv s) as [c|]; [|done]. destruct (decide (c = i)) as [->|].
    - rewrite lookup_alter_eq. destruct (envs s !! i); cbn; [by case_bool_decide|done].
    - by rewrite lookup_alter_ne. }
  case_decide as E; [subst j; rewrite lookup_alter_eq|by rewrite lookup_alter_ne; [apply Hsame|]].
  destruct (Hsame m) as [Hn Hv]. rewrite He in *. destruct (es !! m) as [e1|]; [|by destruct (proj1 Hn eq_refl)].
  cbn in *. by rewrite Hv.
Qed.

(** With [k] runnable some environment runs, and it has run no more than [k]. *)
Lemma yield_choice s k : sched_ok s → 0 ≤ k < NENV → runnable (envs s) k →
  ∃ m d, sched_yield s = Switch (run_st s m d) ∧ 0 ≤ m < NENV ∧ runs (envs s) m ≤ runs (envs s) k.
Proof.
  intros Hok Hk Hr. pose proof (sched_search_all (envs s) _ (sched_start_range s)) as Hl.
  rewrite sched_yield_eq by done. destruct (sched_search _ _ _ _) as [m|]; [|by destruct (Hl k)].
  destruct Hl as (Hm & (e & He & Hst) & Hmin).
  destruct (so_dir _ Hok m e He) as [d Hd]; [unfold is_live; by rewrite Hst|].
  exists m, d. split; [by eapply env_run_eq|]. split; [done|]. by apply Hmin.
Qed.

(** Each time another environment runs, the bound goes down. *)
Lemma behind_down s s' k m d :
  sched_ok s → 0 ≤ m < NENV → m ≠ k → runs (envs s) m ≤ runs (envs s) k → 0 ≤ runs (envs s) m →
  runs (envs s) k + 1 < 2 ^ 32 → resumes k (run_st s m d) s' →
  behind (envs s') k < behind (envs s) k ∧ runs (envs s') k = runs (envs s) k ∧
  ∀ j, 0 ≤ j < NENV → runs (envs s) j ≤ runs (envs s') j.
Proof.
  intros Hok Hm Hne Hle H0 Hk [_ _ Hs Hj]. pose proof (proj2 (so_dom _ Hok m) Hm) as He.
  cbn [run_st envs] in *. rewrite run_envs_runs, decide_False in Hs by done.
  assert (∀ j, 0 ≤ j < NENV → runs (envs s) j ≤ runs (envs s') j ∧ (j = m → runs (envs s) m + 1 ≤ runs (envs s') m))
    as Hall.
  { intros j Hr. specialize (Hj j Hr). rewrite run_envs_runs in Hj by done. case_decide as E; [|done].
    subst j. rewrite u32_small in Hj by (unfold is_u32; lia). split; [lia|done]. }
  split; [|split; [done|intros j Hr; by apply Hall]].
  apply (sum_lt _ _ _ m); [apply elem_of_seqZ; lia| |].
  - destruct (Hall m Hm) as [_ H]. specialize (H eq_refl). unfold gap. rewrite !decide_False by done. lia.
  - intros j Hr%elem_of_seqZ. destruct (Hall j ltac:(lia)) as [H _]. unfold gap. case_decide; lia.
Qed.

(** ** The theorem *)

(** C5. The scheduler starves nobody among the environments there are: let [k] be
    runnable and stay so while the scheduler is called again and again, each time
    after whatever the chosen environment did, with no environment replaced by a new
    one.  Then [k] is run, after at most [behind] calls: as many as the runs that the
    other environments are behind it. *)
Theorem sched_fair k (t : nat → kstate) :
  0 ≤ k < NENV → sched_ok (t O) → runnable (envs (t O)) k →
  (∀ j, 0 ≤ j < NENV → 0 ≤ runs (envs (t O)) j) → runs (envs (t O)) k + 1 < 2 ^ 32 →
  (∀ i s1, sched_yield (t i) = Switch s1 → curenv s1 ≠ Some k → resumes k s1 (t (S i))) →
  ∃ i s1, Z.of_nat i ≤ behind (envs (t O)) k ∧ sched_yield (t i) = Switch s1 ∧ curenv s1 = Some k.
Proof.
  intros Hk. remember (Z.to_nat (behind (envs (t O)) k)) as r eqn:Er.
  revert t Er. induction (lt_wf r) as [r _ IH]. intros t Er Hok Hr H0 Hmax Hstep.
  pose proof (behind_nonneg (envs (t O)) k) as Hpos.
  destruct (yield_choice (t O) k Hok Hk Hr) as (m & d & E & Hm & Hle).
  assert (curenv (run_st (t O) m d) = Some m) as Ec.
  { unfold curenv, this_cpu, run_st. cbn. by rewrite lookup_insert_eq. }
  destruct (decide (m = k)) as [->|Hne].
  { exists O, (run_st (t O) k d). split; [cbn; lia|done]. }
  assert (resumes k (run_st (t O) m d) (t 1%nat)) as Hres by (apply Hstep; [done|congruence]).
  destruct (behind_down (t O) (t 1%nat) k m d Hok Hm Hne Hle (H0 m Hm) Hmax Hres) as (Hlt & Hs & Hmore).
  pose proof (behind_nonneg (envs (t 1%nat)) k) as Hpos'.
  destruct (IH (Z.to_nat (behind (envs (t 1%nat)) k)) ltac:(lia) (λ i, t (S i)) eq_refl) as (i & s1 & Hi & H).
  - apply Hres.
  - apply Hres.
  - intros j Hj. specialize (H0 j Hj). specialize (Hmore j Hj). lia.
  - lia.
  - intros i s1. apply Hstep.
  - exists (S i), s1. split; [lia|done].
Qed.

Lemma sched_fair_witness :
  ∃ i s1, Z.of_nat i ≤ behind demo_envs 1 ∧ sched_yield demo_ks = Switch s1 ∧ curenv s1 = Some 1.
Proof.
  apply (sched_fair 1 (λ _, demo_ks)).
  - split; [discriminate|reflexivity].
  - exact demo_ok.
  - exists (demo_env 4097 ENV_RUNNABLE 3 (Some 29)). split; reflexivity.
  - intros j _. change (envs demo_ks) with demo_envs. unfold runs. rewrite demo_lookup.
    repeat case_decide; discriminate.
  - vm_compute. reflexivity.
  - intros i s1 E Hne. exfalso. apply Hne.
    assert (match sched_yield demo_ks with Switch s => curenv s | _ => None end = Some 1) as H
      by (vm_compute; reflexivity). rewrite E in H. exact H.
Defined.
