(* ===== verification/EnvFree.v ===== *)
(** * Taking an address space apart

    The memory side of [env_free]: every mapping below [UTOP] of one directory is
    removed, its tables and then the directory itself are returned.  [wiped]
    relates the memory before and during that work: the other address spaces and
    all page contents are untouched, and no page is lost. *)

From stdpp Require Import base gmap list strings.
From Stdlib Require Import ZArith Lia.
From S2P Require Import Prelude Mmu Pmap PmapInv PmapOps PmapDir MemInit Env.

Set Default Proof Using "Type".

(** A page that is neither referenced nor free. *)
Definition leaked (fl : list Z) (m : memst) (p : Z) : Prop :=
  p ∉ fl ∧ ∃ pi, pages m !! p = Some pi ∧ pp_ref pi = 0.

Section wipe.
Context (D : list Z) (R : Z → Z) (d : Z).
Implicit Types (m : memst) (fl : list Z).

Record wiped m0 fl0 m fl : Prop := MkWiped {
  wi_inv : mm_inv D R fl m;
  wi_other : ∀ d' i j, SPage d' i j ∈ sites D → d' ≠ d → pte_of m d' i j = pte_of m0 d' i j;
  wi_kern : ∀ d' i, d' ∈ D → NUSER ≤ i → rd m d' i = rd m0 d' i;
  wi_gone : ∀ i, 0 ≤ i < NUSER → frame_of (rd m0 d i) = None → frame_of (rd m d i) = None;
  wi_data : ∀ f i, ¬ is_table D m0 f → rd m f i = rd m0 f i;
  wi_table : ∀ f, is_table D m f → is_table D m0 f;
  wi_leak : ∀ p, leaked fl m p → leaked fl0 m0 p;
  wi_fl : ∀ p, p ∈ fl0 → p ∈ fl;
  wi_static : same_static m0 m
}.

Lemma wiped_refl m fl : mm_inv D R fl m → wiped m fl m fl.
Proof. intros. split; auto with toynix. Qed.

Lemma wiped_trans m0 fl0 m1 fl1 m2 fl2 :
  wiped m0 fl0 m1 fl1 → wiped m1 fl1 m2 fl2 → wiped m0 fl0 m2 fl2.
Proof.
  intros W1 W2. split.
  - apply W2.
  - intros. rewrite (wi_other _ _ _ _ W2), (wi_other _ _ _ _ W1) by done. done.
  - intros. rewrite (wi_kern _ _ _ _ W2), (wi_kern _ _ _ _ W1) by done. done.
  - intros i Hi H. apply (wi_gone _ _ _ _ W2), (wi_gone _ _ _ _ W1); done.
  - intros f i Hf. rewrite (wi_data _ _ _ _ W2), (wi_data _ _ _ _ W1); [done|done|].
    intros Ht. by apply Hf, (wi_table _ _ _ _ W1).
  - intros f Hf. by apply (wi_table _ _ _ _ W1), (wi_table _ _ _ _ W2).
  - intros p Hp. by apply (wi_leak _ _ _ _ W1), (wi_leak _ _ _ _ W2).
  - intros p Hp. by apply (wi_fl _ _ _ _ W2), (wi_fl _ _ _ _ W1).
  - eapply same_static_trans; [apply W1|apply W2].
Qed.

(** A count of 0 in the page array is a count of 0 references. *)
Lemma leaked_refs fl m p :
  mm_inv D R fl m → (leaked fl m p ↔ p ∉ fl ∧ 0 ≤ p < npages m ∧ refs D m p + R p = 0).
Proof.
  intros Hinv. split.
  - intros (Hp & pi & Hpi & H0). destruct (inv_ref _ _ _ _ Hinv p pi Hpi) as [Hr _].
    split; [done|]. split; [|lia]. apply (inv_dom _ _ _ _ Hinv). eauto.
  - intros (Hp & Hr & H0). split; [done|].
    destruct (proj2 (inv_dom _ _ _ _ Hinv p) Hr) as [pi Hpi]. exists pi. split; [done|].
    destruct (inv_ref _ _ _ _ Hinv p pi Hpi). lia.
Qed.

Lemma removed_wiped cur fl m va m' fl' :
  mm_inv D R fl m → d ∈ D → is_u32 va → va < UTOP →
  removed D R cur fl m d va m' fl' → wiped m fl m' fl'.
Proof.
  intros Hinv Hd Hva Hut Rm. pose proof (user_sites D d va Hd Hva Hut) as Hs.
  pose proof (rm_fl _ _ _ _ _ _ _ _ _ Rm) as Hfl. split.
  - apply Rm.
  - intros d' i j Hs' Hne. rewrite (rm_pte _ _ _ _ _ _ _ _ _ Rm) by done.
    by rewrite decide_False by congruence.
  - intros. by apply (rm_dirs _ _ _ _ _ _ _ _ _ Rm).
  - intros i Hi H. by rewrite (rm_dirs _ _ _ _ _ _ _ _ _ Rm).
  - intros f i Hf. by apply (rm_data _ _ _ _ _ _ _ _ _ Rm); [apply not_elem_of_nil|].
  - intros f. by eapply removed_tables.
  - intros p. rewrite (leaked_refs fl') by apply Rm. rewrite (leaked_refs fl) by done.
    destruct (rm_static _ _ _ _ _ _ _ _ _ Rm) as [-> _]. intros (Hp & Hrange & H0).
    rewrite (refs_update D m m' (SPage d (PDX va) (PTX va))) in H0;
      [|apply (inv_dirs _ _ _ _ Hinv)|done|by eapply removed_targets].
    rewrite (removed_target_gone _ _ _ _ _ _ _ _ _ Rm Hs), target_pte_of in H0.
    destruct (pte_of m d (PDX va) (PTX va)) as [e|]; cbn in H0.
    + unfold ind in H0. rewrite (decide_False (P := None = Some p)) in H0 by done.
      case_decide as He; [injection He as He; rewrite He in Hfl|].
      * rewrite decide_True in Hfl by lia. subst fl'. exfalso. apply Hp. left.
      * split; [|split; [done|lia]]. intros Hin. apply Hp. rewrite Hfl.
        case_decide; [by right|done].
    + unfold ind in H0. rewrite !(decide_False (P := None = Some p)) in H0 by done. subst fl'.
      split; [done|]. split; [done|lia].
  - intros p Hp. rewrite Hfl. repeat case_match; try done; by right.
  - apply Rm.
Qed.

(** Detaching a table and returning it. *)
Lemma detach_free_wiped fl m i t :
  mm_inv D R fl m → STab d i ∈ sites D → frame_of (rd m d i) = Some t →
  (∀ j, 0 ≤ j < 1024 → frame_of (rd m t j) = None) →
  page_decref t (wr d i 0 m) = Ret tt (free_st t (detach_st d i t m)) ∧
  wiped m fl (free_st t (detach_st d i t m)) (t :: fl) ∧
  frame_of (rd (free_st t (detach_st d i t m)) d i) = None.
Proof.
  intros Hinv Hs Ht Hempty.
  destruct (detach_inv D R fl m d i t Hinv Hs Ht Hempty) as (Hi & Hpi & Htfl & Htgt).
  assert (∀ f k, rd (free_st t (detach_st d i t m)) f k = rd (wr d i 0 m) f k) as Hrd by done.
  assert (pages (detach_st d i t m) !! t = Some (MkPageInfo None 0)) as Hpi0
    by (cbn; apply lookup_insert_eq).
  split; [|split].
  - by rewrite (page_decref_eq (wr d i 0 m) t (MkPageInfo None 1)).
  - split.
    + eapply free_st_inv; eauto.
    + intros d' i' j Hs' Hne. destruct (spage_stab _ _ _ _ Hs') as [Htab' Hdir'].
      assert (target (detach_st d i t m) (STab d' i') = target m (STab d' i')) as E
        by (apply Htgt; [done|congruence]).
      unfold pte_of. cbn in E. change (rd (free_st t (detach_st d i t m))) with (rd (wr d i 0 m)).
      change (rd (detach_st d i t m)) with (rd (wr d i 0 m)) in E. rewrite E.
      destruct (frame_of (rd m d' i')) as [t'|] eqn:E'; [|done].
      rewrite rd_wr_ne; [done|]. left. intros <-.
      discriminate (table_site_inj D R fl m Hinv (SDir d) (STab d' i') d); eauto using stab_sdir.
    + intros d' i' Hd' Hi'. rewrite Hrd, rd_wr_pair; [done|]. intros [= -> ->].
      apply elem_of_sites in Hs as [_ Hs]. cbn in Hs. lia.
    + intros i' Hi' H. rewrite Hrd, rd_wr. by case_match.
    + intros f k Hf. rewrite Hrd. apply rd_wr_ne. left. intros ->. apply Hf, dir_is_table.
      apply stab_sdir, elem_of_sites in Hs. apply Hs.
    + intros f (s & Hs' & Hts & Hf). exists s. split; [done|]. split; [done|].
      change (target (free_st t (detach_st d i t m)) s) with (target (detach_st d i t m) s) in Hf.
      destruct (decide (s = STab d i)) as [->|]; [|by rewrite <- Htgt].
      cbn in Hf. change (rd (detach_st d i t m)) with (rd (wr d i 0 m)) in Hf.
      by rewrite rd_wr_eq in Hf.
    + intros p (Hp & pi & Hpp & H0). apply not_elem_of_cons in Hp as [Hne Hp].
      split; [done|]. exists pi. cbn in Hpp. by rewrite !lookup_insert_ne in Hpp by done.
    + intros p Hp. by right.
    + done.
  - rewrite Hrd. by rewrite rd_wr_eq.
Qed.

(** ** The loops of [env_free] *)

(** [s'] is [s] with the memory wiped further. *)
Definition wiped_k (s : kstate) fl (s' : kstate) fl' : Prop :=
  s' = set_mem (mem s') s ∧ wiped (mem s) fl (mem s') fl'.

Lemma wiped_k_refl s fl : mm_inv D R fl (mem s) → wiped_k s fl s fl.
Proof. intros. split; [by destruct s|by apply wiped_refl]. Qed.

Lemma wiped_k_trans s0 fl0 s1 fl1 s2 fl2 :
  wiped_k s0 fl0 s1 fl1 → wiped_k s1 fl1 s2 fl2 → wiped_k s0 fl0 s2 fl2.
Proof.
  intros [E1 W1] [E2 W2]. split; [|by eapply wiped_trans].
  rewrite E2, E1. by destruct s0.
Qed.

Lemma wiped_k_mem s fl m fl' : wiped (mem s) fl m fl' → wiped_k s fl (set_mem m s) fl'.
Proof. by split. Qed.

(** [pt[pteno]] is looked at and, when present, unmapped. *)
Lemma env_free_entry s fl i t j :
  mm_inv D R fl (mem s) → d ∈ D → 0 ≤ i < NUSER → 0 ≤ j < 1024 →
  frame_of (rd (mem s) d i) = Some t →
  wpr (let* e := on_mem (load (t, j)) in
       if ctrue (Z.land e PTE_P) then k_page_remove d (PGADDR i j 0) else ret tt)
    (λ _ s', ∃ fl', wiped_k s fl s' fl' ∧ frame_of (rd (mem s') d i) = Some t ∧
       frame_of (rd (mem s') t j) = None ∧
       ∀ k, 0 ≤ k < 1024 → frame_of (rd (mem s) t k) = None →
         frame_of (rd (mem s') t k) = None) s.
Proof.
  intros Hinv Hd Hi Hj Ht. apply wp_bind, wp_zoom, wp_gets. cbn [fst snd].
  replace (set_mem (mem s) s) with s by (by destruct s).
  change (ctrue (Z.land (rd (mem s) t j) PTE_P)) with (present (rd (mem s) t j)).
  destruct (present (rd (mem s) t j)) eqn:Hp.
  2:{ apply wp_ret. exists fl. split; [by apply wiped_k_refl|]. split; [done|].
      unfold frame_of at 1. rewrite Hp. done. }
  assert (i < 1024) by (change NUSER with 955 in Hi; lia).
  pose proof (PDX_PGADDR i j 0 ltac:(lia) Hj ltac:(lia)) as HX.
  pose proof (PTX_PGADDR i j 0 ltac:(lia) Hj ltac:(lia)) as HY.
  pose proof (PGADDR_u32 i j 0) as Hu.
  assert (PGADDR i j 0 < UTOP) as Hut by (apply PDX_lt_UTOP; [done|rewrite HX; apply Hi]).
  destruct (page_remove_spec D R (cur_dir s) fl (mem s) d (PGADDR i j 0))
    as (m' & fl' & E & Rm); [done..|].
  unfold k_page_remove. apply wp_bind, wp_gets, wp_zoom. eapply wp_intro; [exact E|].
  exists fl'. assert (frame_of (rd m' d i) = Some t) as Ht'
    by (by rewrite (rm_dirs _ _ _ _ _ _ _ _ _ Rm)).
  assert (∀ k, 0 ≤ k < 1024 → k = j ∨ frame_of (rd (mem s) t k) = None →
            frame_of (rd m' t k) = None) as Hgone.
  { intros k Hk Hor. pose proof (target_pte_of m' d i k) as E1.
    rewrite (rm_pte _ _ _ _ _ _ _ _ _ Rm) in E1 by (by apply spage_in).
    rewrite HX, HY in E1. cbn in E1. rewrite Ht' in E1. rewrite E1.
    destruct (decide ((d, i, k) = (d, i, j))) as [|Hne]; [done|].
    destruct Hor as [->|Hor]; [done|]. rewrite <- target_pte_of. cbn. by rewrite Ht. }
  split; [apply wiped_k_mem; by eapply removed_wiped|]. split; [done|].
  split; [apply Hgone; auto|]. intros k Hk Hn. apply Hgone; auto.
Qed.

Lemma env_free_table_spec s fl i :
  mm_inv D R fl (mem s) → d ∈ D → 0 ≤ i < NUSER →
  wpr (env_free_table d i)
    (λ _ s', ∃ fl', wiped_k s fl s' fl' ∧ frame_of (rd (mem s') d i) = None) s.
Proof.
  intros Hinv Hd Hi. unfold env_free_table. apply wp_bind, wp_zoom, wp_gets. cbn [fst snd].
  replace (set_mem (mem s) s) with s by (by destruct s).
  change (ctrue (Z.land (rd (mem s) d i) PTE_P)) with (present (rd (mem s) d i)).
  destruct (present (rd (mem s) d i)) eqn:Hp; cbn [negb].
  2:{ apply wp_ret. exists fl. split; [by apply wiped_k_refl|]. unfold frame_of. by rewrite Hp. }
  set (t := rd (mem s) d i / 4096).
  assert (frame_of (rd (mem s) d i) = Some t) as Ht by (unfold frame_of; by rewrite Hp).
  pose proof (target_bound D R fl (mem s) d i t Hinv Hd Hi Ht) as Htn.
  apply wp_bind, wp_zoom. eapply wp_intro.
  { apply KADDR_ok. rewrite PGNUM_PTE_ADDR. exact Htn. }
  rewrite PGNUM_PTE_ADDR. fold t. replace (set_mem (mem s) s) with s by (by destruct s).
  apply wp_bind. eapply wp_mono_ret.
  { apply (wp_for_up (λ j s', ∃ fl', wiped_k s fl s' fl' ∧
             frame_of (rd (mem s') d i) = Some t ∧
             ∀ k, 0 ≤ k < j → frame_of (rd (mem s') t k) = None)).
    - exists fl. split; [by apply wiped_k_refl|]. split; [done|lia].
    - change (0 + Z.of_nat (Z.to_nat NPTENTRIES)) with 1024.
      intros j s1 Hj (fl1 & W1 & Ht1 & Hg1). destruct W1 as [E1 W1].
      eapply wp_mono_ret; [eapply env_free_entry; eauto; apply W1|].
      intros [] s2 (fl2 & W2 & Ht2 & Hj2 & Hg2). exists fl2.
      split; [eapply wiped_k_trans; [by split|exact W2]|]. split; [done|].
      intros k Hk. destruct (decide (k = j)) as [->|]; [done|]. apply Hg2; [lia|].
      apply Hg1. lia. }
  change (0 + Z.of_nat (Z.to_nat NPTENTRIES)) with 1024.
  intros [] s1 (fl1 & [E1 W1] & Ht1 & Hg1).
  pose proof (wi_inv _ _ _ _ W1) as Hinv1.
  destruct (detach_free_wiped fl1 (mem s1) i t Hinv1) as (Hdec & W2 & Hgone);
    [by apply stab_in|done|done|].
  apply wp_bind, wp_zoom, wp_modify. cbn [fst snd]. apply wp_zoom, wp_bind.
  eapply wp_intro.
  { apply pa2page_ok. rewrite PGNUM_PTE_ADDR. fold t. cbn.
    destruct (wi_static _ _ _ _ W1) as [-> _]. exact Htn. }
  rewrite PGNUM_PTE_ADDR. fold t. eapply wp_intro; [exact Hdec|]. cbn beta.
  exists (t :: fl1). split; [|exact Hgone].
  eapply wiped_k_trans; [split; [exact E1|exact W1]|]. split; [done|exact W2].
Qed.

(** All tables: the directory ends up empty. *)
Lemma env_free_tables_spec s fl :
  mm_inv D R fl (mem s) → d ∈ D →
  wpr (for_up (Z.to_nat (PDX UTOP)) 0 (env_free_table d))
    (λ _ s', ∃ fl', wiped_k s fl s' fl' ∧ empty_dir (mem s') d) s.
Proof.
  intros Hinv Hd. eapply wp_mono_ret.
  { apply (wp_for_up (λ i s', ∃ fl', wiped_k s fl s' fl' ∧
             ∀ k, 0 ≤ k < i → frame_of (rd (mem s') d k) = None)).
    - exists fl. split; [by apply wiped_k_refl|lia].
    - change (0 + Z.of_nat (Z.to_nat (PDX UTOP))) with NUSER.
      intros i s1 Hi (fl1 & [E1 W1] & Hg1).
      eapply wp_mono_ret; [eapply env_free_table_spec; [apply W1|done|done]|].
      intros [] s2 (fl2 & W2 & Hi2). exists fl2.
      split; [eapply wiped_k_trans; [by split|exact W2]|].
      intros k Hk. destruct (decide (k = i)) as [->|]; [done|].
      apply (wi_gone _ _ _ _ (proj2 W2)); [lia|]. apply Hg1. lia. }
  change (0 + Z.of_nat (Z.to_nat (PDX UTOP))) with NUSER.
  intros [] s' (fl' & W & Hg). exists fl'. split; [done|]. exact Hg.
Qed.
End wipe.
