(* ===== verification/EnvInv.v ===== *)
(** * The kernel invariant and the life of an environment

    [kinv] ties the environments to the memory system: the directories in use
    are those of the environments that are not free, every one of them has the
    kernel's mappings above [UTOP], the free environments form the list
    [env_free_list], and identifiers match slots.  [env_alloc], [env_free] and
    [env_destroy] preserve it. *)

From stdpp Require Import base gmap list strings.
From Stdlib Require Import ZArith Lia.
From S2P Require Import Prelude Mmu Pmap PmapInv PmapOps PmapDir MemInit Env Sched EnvFree.

Set Default Proof Using "Type".

(** ** Directories in use *)
Definition dirs_of (es : gmap Z Env) : list Z :=
  omap (λ i, es !! i ≫= env_pgdir) (seqZ 0 NENV).

Lemma elem_of_dirs es d :
  d ∈ dirs_of es ↔ ∃ i e, 0 ≤ i < NENV ∧ es !! i = Some e ∧ env_pgdir e = Some d.
Proof.
  unfold dirs_of. rewrite list_elem_of_omap. setoid_rewrite elem_of_seqZ.
  setoid_rewrite bind_Some. split.
  - intros (i & Hi & e & He & Hd). exists i, e. split; [lia|done].
  - intros (i & e & Hi & He & Hd). exists i. split; [lia|]. by exists e.
Qed.

Lemma omap_ext_in {A B} (f g : A → option B) (l : list A) :
  (∀ x, x ∈ l → f x = g x) → omap f l = omap g l.
Proof.
  induction l as [|x l IH]; intros H; [done|]. cbn.
  rewrite (H x) by left. rewrite IH; [done|]. intros y Hy. apply H. by right.
Qed.

Lemma dirs_of_insert es i e :
  0 ≤ i < NENV →
  ∃ l1 l2, dirs_of es = l1 ++ option_list (es !! i ≫= env_pgdir) ++ l2 ∧
    dirs_of (<[i := e]> es) = l1 ++ option_list (env_pgdir e) ++ l2.
Proof.
  intros Hi. unfold dirs_of. pose proof (NoDup_seqZ 0 NENV) as Hnd.
  assert (i ∈ seqZ 0 NENV) as Hin by (apply elem_of_seqZ; lia).
  apply list_elem_of_split in Hin as (s1 & s2 & E). rewrite E in *.
  apply NoDup_app in Hnd as (_ & H1 & H2). apply NoDup_cons in H2 as [H2 _].
  exists (omap (λ i, es !! i ≫= env_pgdir) s1), (omap (λ i, es !! i ≫= env_pgdir) s2).
  rewrite !omap_app. cbn [omap list_omap].
  assert (∀ l : list Z, i ∉ l → omap (λ j, <[i := e]> es !! j ≫= env_pgdir) l =
            omap (λ j, es !! j ≫= env_pgdir) l) as Hext.
  { intros l Hl. apply omap_ext_in. intros j Hj. by rewrite lookup_insert_ne by congruence. }
  rewrite !Hext; [|done|].
  2:{ intros Hs1. apply (H1 i Hs1). left. }
  rewrite lookup_insert_eq. cbn [mbind option_bind]. split.
  - by destruct (es !! i ≫= env_pgdir).
  - by destruct (env_pgdir e).
Qed.

Lemma dirs_of_same es i e e' :
  es !! i = Some e → env_pgdir e' = env_pgdir e → dirs_of (<[i := e']> es) = dirs_of es.
Proof.
  intros He Hd. unfold dirs_of. apply omap_ext_in. intros j _.
  destruct (decide (i = j)) as [<-|]; [|by rewrite lookup_insert_ne].
  by rewrite lookup_insert_eq, He.
Qed.

Lemma dirs_of_add es i e e' d :
  0 ≤ i < NENV → es !! i = Some e → env_pgdir e = None → env_pgdir e' = Some d →
  dirs_of (<[i := e']> es) ≡ₚ d :: dirs_of es.
Proof.
  intros Hi He Hn Hd. destruct (dirs_of_insert es i e' Hi) as (l1 & l2 & -> & ->).
  rewrite He, Hd. cbn. rewrite Hn. cbn. by rewrite Permutation_middle.
Qed.

Lemma dirs_of_del es i e e' d :
  0 ≤ i < NENV → es !! i = Some e → env_pgdir e = Some d → env_pgdir e' = None →
  dirs_of es ≡ₚ d :: dirs_of (<[i := e']> es).
Proof.
  intros Hi He Hd Hn. destruct (dirs_of_insert es i e' Hi) as (l1 & l2 & -> & ->).
  rewrite He, Hn. cbn. rewrite Hd. cbn. by rewrite Permutation_middle.
Qed.

(** ** The free list of environments *)
Fixpoint env_chain (es : gmap Z Env) (hd : option Z) (l : list Z) : Prop :=
  match l with
  | [] => hd = None
  | i :: l' => hd = Some i ∧ ∃ e, es !! i = Some e ∧ env_chain es (env_link e) l'
  end.

Lemma env_chain_insert es hd l i e :
  i ∉ l → env_chain es hd l → env_chain (<[i := e]> es) hd l.
Proof.
  revert hd. induction l as [|j l IH]; intros hd Hi; [done|].
  intros [-> (ej & Hj & Hc)]. apply not_elem_of_cons in Hi as [Hne Hi]. split; [done|].
  exists ej. rewrite lookup_insert_ne by done. split; [done|]. by apply IH.
Qed.

(** Changing an environment without touching its link. *)
Lemma env_chain_same es hd l i e e' :
  es !! i = Some e → env_link e' = env_link e →
  env_chain es hd l → env_chain (<[i := e']> es) hd l.
Proof.
  intros He Hl. revert hd. induction l as [|j l IH]; intros hd; [done|].
  intros [-> (ej & Hj & Hc)]. split; [done|]. destruct (decide (i = j)) as [<-|Hne].
  - exists e'. rewrite lookup_insert_eq. split; [done|]. rewrite Hl. apply IH. congruence.
  - exists ej. rewrite lookup_insert_ne by done. split; [done|]. by apply IH.
Qed.

(** ** The invariant *)

(** The part of directory [d] above [UTOP]: the kernel's entries, and the
    directory itself at [UVPT]. *)
Definition kern_half (m : memst) (d : Z) : Prop :=
  ∀ i, NUSER ≤ i < 1024 →
    rd m d i = if i =? PDX UVPT then Z.lor (Z.lor (PADDR d) PTE_P) PTE_U
               else if present (rd m (kern_pgdir m) i) then rd m (kern_pgdir m) i else 0.

(** What [env_status], the identifier and the directory of slot [i] say of each
    other. *)
Record env_ok (efl : list Z) (i : Z) (e : Env) : Prop := MkEnvOk {
  eo_free : i ∈ efl ↔ env_status e = ENV_FREE;
  eo_dir : env_pgdir e = None ↔ env_status e = ENV_FREE;
  eo_id_range : 0 ≤ env_id e < 2 ^ 31;
  eo_id : env_status e ≠ ENV_FREE → 0 < env_id e ∧ ENVX (env_id e) = i
}.

Record kinv (R : Z → Z) (fl efl : list Z) (s : kstate) : Prop := MkKinv {
  ki_mm : mm_inv (dirs_of (envs s)) R fl (mem s);
  ki_dom : ∀ i, is_Some (envs s !! i) ↔ 0 ≤ i < NENV;
  ki_chain : env_chain (envs s) (env_free_list s) efl;
  ki_nodup : NoDup efl;
  ki_env : ∀ i e, envs s !! i = Some e → env_ok efl i e;
  ki_cur : ∀ c, curenv s = Some c → 0 ≤ c < NENV;
  ki_kern_R : 1 ≤ R (kern_pgdir (mem s));
  ki_kern : ∀ i t, NUSER ≤ i < 1024 → frame_of (rd (mem s) (kern_pgdir (mem s)) i) = Some t →
    0 ≤ t < npages (mem s);
  ki_half : ∀ d, d ∈ dirs_of (envs s) → kern_half (mem s) d
}.

Section kinv_lemmas.
Context (R : Z → Z).
Implicit Types (s : kstate) (fl efl : list Z).

Lemma kinv_live_dir fl efl s i e :
  kinv R fl efl s → envs s !! i = Some e → env_status e ≠ ENV_FREE →
  ∃ d, env_pgdir e = Some d ∧ d ∈ dirs_of (envs s).
Proof.
  intros K He Hst. destruct (ki_env _ _ _ _ K i e He) as [_ Hd _ _].
  destruct (env_pgdir e) as [d|] eqn:E; [|by destruct Hst; apply Hd].
  exists d. split; [done|]. apply elem_of_dirs. exists i, e. split; [|done].
  apply (ki_dom _ _ _ _ K). by exists e.
Qed.

(** The kernel's directory is neither free nor part of an address space. *)
Lemma kern_not_table fl efl s :
  kinv R fl efl s → ¬ is_table (dirs_of (envs s)) (mem s) (kern_pgdir (mem s)) ∧
    kern_pgdir (mem s) ∉ fl.
Proof.
  intros K. pose proof (ki_kern_R _ _ _ _ K). pose proof (ki_mm _ _ _ _ K) as Hinv. split.
  - intros Ht. destruct (table_refs _ _ _ _ _ Hinv Ht). lia.
  - intros Hf. destruct (inv_free _ _ _ _ Hinv _ Hf). lia.
Qed.

(** A memory operation that leaves the kernel's half of every directory alone. *)
Lemma kinv_mem fl efl s m' fl' :
  kinv R fl efl s →
  mm_inv (dirs_of (envs s)) R fl' m' →
  npages m' = npages (mem s) → kern_pgdir m' = kern_pgdir (mem s) →
  (∀ i, rd m' (kern_pgdir (mem s)) i = rd (mem s) (kern_pgdir (mem s)) i) →
  (∀ d i, d ∈ dirs_of (envs s) → NUSER ≤ i → rd m' d i = rd (mem s) d i) →
  kinv R fl' efl (set_mem m' s).
Proof.
  intros [] Hmm Hn Hk Hrk Hrd.
  split; cbn [mem envs env_free_list set_mem]; rewrite ?Hn, ?Hk; try done.
  - intros i t. rewrite Hrk. apply ki_kern0.
  - intros d Hd i Hi. rewrite Hk, Hrd, Hrk by (done || lia). by apply ki_half0.
Qed.

(** The invariant looks at memory, the environments and the current one only. *)
Lemma kinv_ext fl efl s s' :
  kinv R fl efl s → mem s' = mem s → envs s' = envs s → env_free_list s' = env_free_list s →
  (∀ c, curenv s' = Some c → 0 ≤ c < NENV) → kinv R fl efl s'.
Proof. intros [] Em Ee El Hc. by split; rewrite ?Em, ?Ee, ?El. Qed.

(** An environment changed in a way the invariant does not see. *)
Lemma kinv_env fl efl s i e e' :
  kinv R fl efl s → envs s !! i = Some e →
  env_link e' = env_link e → env_pgdir e' = env_pgdir e → env_id e' = env_id e →
  (env_status e' = ENV_FREE ↔ env_status e = ENV_FREE) →
  kinv R fl efl (set_envs (<[i := e']> (envs s)) s).
Proof.
  intros K He Hl Hd Hid Hst. pose proof (dirs_of_same _ _ _ e' He Hd) as Hdirs.
  destruct K. split; cbn; rewrite ?Hdirs; auto.
  - intros j. destruct (decide (i = j)) as [<-|]; [|by rewrite lookup_insert_ne].
    rewrite lookup_insert_eq, <- ki_dom0, He. split; intros _; by eexists.
  - by eapply env_chain_same.
  - intros j ej. destruct (decide (i = j)) as [<-|].
    + rewrite lookup_insert_eq. intros [= <-]. destruct (ki_env0 i e He) as [H1 H2 H3 H4].
      split; rewrite ?Hd, ?Hid, ?Hst; auto.
    + rewrite lookup_insert_ne by done. apply ki_env0.
Qed.

(** ** [env_free] *)
Definition freed_env (fl : option Z) (en : Env) : Env :=
  set_env_link fl (set_env_status ENV_FREE (set_env_pgdir None en)).

(** What [env_free] leaves behind: slot [e] is free, no page is lost, and the
    other environments with their address spaces are as they were. *)
Record env_freed fl efl s (e : Z) (en : Env) s' fl' : Prop := MkEnvFreed {
  ef_inv : kinv R fl' (e :: efl) s';
  ef_envs : envs s' = <[e := freed_env (env_free_list s) en]> (envs s);
  ef_cpus : cpus s' = cpus s ∧ this s' = this s ∧ kernel_locked s' = kernel_locked s;
  ef_other : ∀ d i j, SPage d i j ∈ sites (dirs_of (envs s')) →
    pte_of (mem s') d i j = pte_of (mem s) d i j;
  ef_data : ∀ f i, ¬ is_table (dirs_of (envs s)) (mem s) f → rd (mem s') f i = rd (mem s) f i;
  ef_leak : ∀ p, leaked fl' (mem s') p → leaked fl (mem s) p;
  ef_fl : ∀ p, p ∈ fl → p ∈ fl';
  ef_dir : ∀ d, env_pgdir en = Some d → d ∈ fl'
}.

(** Dropping the directory itself. *)
Lemma drop_dir_free D fl m d :
  mm_inv (d :: D) R fl m → empty_dir m d →
  ∃ m', (let* pp := pa2page (PADDR d) in page_decref pp) m = Ret tt m' ∧
    mm_inv D R (d :: fl) m' ∧ (∀ f i, rd m' f i = rd m f i) ∧ same_static m m' ∧
    (∀ p, leaked (d :: fl) m' p → leaked fl m p).
Proof.
  intros Hinv He. destruct (drop_dir_inv R D fl m d Hinv He) as (Hi & Hpi & Hd).
  assert (0 ≤ d < 2 ^ 20) as Hrange by (apply (page_range (d :: D) R fl m d Hinv); by eexists).
  assert (PGNUM (PADDR d) = d) as HP by (by apply PGNUM_page2pa).
  exists (free_st d (set_pages (<[d := MkPageInfo None 0]> (pages m)) m)). split.
  { unfold bind. rewrite pa2page_ok; rewrite HP.
    - by rewrite (page_decref_eq m d (MkPageInfo None 1)).
    - apply (inv_dom _ _ _ _ Hinv). eauto. }
  split; [eapply free_st_inv; [exact Hi|done|cbn; apply lookup_insert_eq|done]|].
  split; [done|]. split; [done|].
  intros p (Hp & pi & Hpp & H0). apply not_elem_of_cons in Hp as [Hne Hp].
  split; [done|]. exists pi. cbn in Hpp. by rewrite !lookup_insert_ne in Hpp by done.
Qed.

(** Storing the freed slot. *)
Lemma kinv_free_slot fl efl s e en d m' fl' :
  kinv R fl efl s → envs s !! e = Some en → env_pgdir en = Some d →
  let es' := <[e := freed_env (env_free_list s) en]> (envs s) in
  mm_inv (dirs_of es') R fl' m' →
  npages m' = npages (mem s) → kern_pgdir m' = kern_pgdir (mem s) →
  (∀ i, rd m' (kern_pgdir (mem s)) i = rd (mem s) (kern_pgdir (mem s)) i) →
  (∀ d' i, d' ∈ dirs_of (envs s) → NUSER ≤ i → rd m' d' i = rd (mem s) d' i) →
  kinv R fl' (e :: efl)
    (MkK m' es' (Some e) (cpus s) (this s) (kernel_locked s) (console s) (ticks s)).
Proof.
  intros K He Hd es' Hmm Hn Hk Hrk Hrd.
  assert (0 ≤ e < NENV) as Her by (apply (ki_dom _ _ _ _ K); eauto).
  pose proof (ki_env _ _ _ _ K e en He) as [Hf1 Hf2 Hf3 Hf4].
  assert (e ∉ efl) as Hefl by (rewrite Hf1, <- Hf2; congruence).
  assert (∀ d', d' ∈ dirs_of es' → d' ∈ dirs_of (envs s)) as Hsub.
  { intros d' Hd'. rewrite (dirs_of_del (envs s) e en (freed_env (env_free_list s) en) d) by done.
    by right. }
  destruct K. split; cbn [mem envs env_free_list]; rewrite ?Hn, ?Hk; try done.
  - intros j. unfold es'. destruct (decide (e = j)) as [<-|]; [|by rewrite lookup_insert_ne].
    rewrite lookup_insert_eq. split; [done|by eexists].
  - split; [done|]. eexists. unfold es'. rewrite lookup_insert_eq. split; [done|].
    by apply env_chain_insert.
  - by apply NoDup_cons.
  - intros j ej. unfold es'. destruct (decide (e = j)) as [<-|Hne].
    + rewrite lookup_insert_eq. intros [= <-]. split; cbn; [|done|done|done].
      split; [done|intros _; left].
    + rewrite lookup_insert_ne by done. intros Hej. destruct (ki_env0 j ej Hej) as [H1 H2 H3 H4].
      split; auto. rewrite <- H1, elem_of_cons. split; [by intros [?|?]|by right].
  - intros i t. rewrite Hrk. apply ki_kern0.
  - intros d' Hd' i Hi. cbn [mem]. rewrite Hk, Hrd, Hrk by (auto || lia).
    apply ki_half0; auto.
Qed.

(** The processor leaves the address space it is about to destroy. *)
Lemma leave_dir D fl s (b : bool) :
  mm_inv D R fl (mem s) →
  ∃ m1, (if b then let* kd := gets (λ s, kern_pgdir (mem s)) in on_mem (lcr3 kd)
         else ret tt) s = Ret tt (set_mem m1 s) ∧
    mm_inv D R fl m1 ∧ (∀ f i, rd m1 f i = rd (mem s) f i) ∧ pages m1 = pages (mem s) ∧
    npages m1 = npages (mem s) ∧ kern_pgdir m1 = kern_pgdir (mem s).
Proof.
  intros Hinv. destruct b.
  - eexists. split; [reflexivity|]. split; [by eapply mm_inv_targets|done].
  - exists (mem s). split; [by destruct s|done].
Qed.

(** The tail of [env_free], after the tables are gone. *)
Lemma env_free_tail s e en d m' :
  envs s !! e = Some en →
  (let* pp := pa2page (PADDR d) in page_decref pp) (mem s) = Ret tt m' →
  (do* upd_env e (set_env_pgdir None) in
   do* on_mem (let* pp := pa2page (PADDR d) in page_decref pp) in
   do* upd_env e (set_env_status ENV_FREE) in
   let* l := gets env_free_list in
   do* upd_env e (set_env_link l) in
   modify (set_env_free_list (Some e))) s =
  Ret tt (MkK m' (<[e := freed_env (env_free_list s) en]> (envs s)) (Some e) (cpus s) (this s)
            (kernel_locked s) (console s) (ticks s)).
Proof.
  intros He Hdec. unfold bind at 1. rewrite (upd_env_eq e _ s en He).
  unfold bind at 1, on_mem at 1, zoom. cbn [mem set_envs]. rewrite Hdec.
  unfold bind at 1. erewrite upd_env_eq by (cbn; apply lookup_insert_eq).
  unfold bind, gets. erewrite upd_env_eq by (cbn; apply lookup_insert_eq).
  cbn. unfold modify, set_env_free_list. cbn. by rewrite !insert_insert_eq.
Qed.

Lemma env_free_spec fl efl s e en :
  kinv R fl efl s → envs s !! e = Some en → env_status en ≠ ENV_FREE →
  ∃ s' fl', env_free e s = Ret tt s' ∧ env_freed fl efl s e en s' fl'.
Proof.
  intros K He Hst. destruct (kinv_live_dir fl efl s e en K He Hst) as (d & Hd & HdD).
  pose proof (ki_mm _ _ _ _ K) as Hinv. set (D := dirs_of (envs s)) in *.
  destruct (leave_dir D fl s (bool_decide (curenv s = Some e)) Hinv)
    as (m1 & Hl & Hinv1 & Hrd1 & Hpg1 & Hn1 & Hk1).
  unfold env_free, bind at 1, gets at 1. unfold bind at 1. rewrite Hl.
  unfold bind at 1, env_at. cbn [envs set_mem]. rewrite He. cbn [deref ret].
  unfold bind at 1. rewrite Hd. cbn [deref ret].
  destruct (wpr_inv _ _ _ (env_free_tables_spec D R d (set_mem m1 s) fl Hinv1 HdD))
    as ([] & s2 & E2 & fl2 & [Es2 W2] & Hempty). unfold bind at 1. rewrite E2.
  cbn [mem set_mem] in W2. set (m2 := mem s2) in *.
  assert (envs s2 = envs s ∧ env_free_list s2 = env_free_list s ∧ cpus s2 = cpus s ∧
          this s2 = this s ∧ kernel_locked s2 = kernel_locked s ∧ console s2 = console s ∧
          ticks s2 = ticks s) as (Ee & Efl & Ec & Et & Ek & Eco & Eti) by (by rewrite Es2).
  set (es' := <[e := freed_env (env_free_list s) en]> (envs s)).
  assert (0 ≤ e < NENV) as Her by (apply (ki_dom _ _ _ _ K); eauto).
  assert (D ≡ₚ d :: dirs_of es') as Hperm by (by apply (dirs_of_del _ _ en)).
  destruct (drop_dir_free (dirs_of es') fl2 m2 d) as (m' & Hdec & Hinv' & Hrd' & Hst' & Hlk');
    [eapply mm_inv_perm; [exact Hperm|apply W2]|done|].
  rewrite <- Ee in He. rewrite (env_free_tail s2 e en d m' He Hdec).
  rewrite Ee, Efl, Ec, Et, Ek, Eco, Eti. fold es'. rewrite Ee in He.
  destruct (kern_not_table fl efl s K) as [Hknt _].
  assert (∀ f, is_table D m1 f → is_table D (mem s) f) as Htab1.
  { intros f (x & Hx & Hts & Hf). exists x. split; [done|]. split; [done|]. rewrite <- Hf.
    destruct x; cbn; rewrite ?Hrd1; try done. }
  assert (∀ f i, ¬ is_table D (mem s) f → rd m' f i = rd (mem s) f i) as Hdata.
  { intros f i Hf. rewrite Hrd', (wi_data _ _ _ _ _ _ _ W2), Hrd1; auto. }
  destruct (wi_static _ _ _ _ _ _ _ W2) as (Hn2 & _ & _ & Hk2 & _).
  destruct Hst' as (Hn3 & _ & _ & Hk3 & _).
  eexists _, (d :: fl2). split; [reflexivity|]. split; cbn [mem envs cpus this kernel_locked].
  - eapply kinv_free_slot; eauto; try congruence.
    intros d' i Hd' Hi. rewrite Hrd', (wi_kern _ _ _ _ _ _ _ W2), Hrd1; done.
  - done.
  - done.
  - intros d' i j Hs. assert (SPage d' i j ∈ sites D ∧ d' ≠ d) as [HsD Hne].
    { apply elem_of_sites in Hs as [Hin Hwf]. split.
      - apply elem_of_sites. split; [|done]. rewrite Hperm. by right.
      - pose proof (inv_dirs _ _ _ _ Hinv) as Hnd. rewrite Hperm in Hnd.
        apply NoDup_cons in Hnd as [Hnd _]. intros ->. done. }
    rewrite (pte_of_ext m' m2) by done. rewrite (wi_other _ _ _ _ _ _ _ W2) by done.
    by apply pte_of_ext.
  - exact Hdata.
  - intros p Hp. apply Hlk', (wi_leak _ _ _ _ _ _ _ W2) in Hp.
    unfold leaked in *. by rewrite Hpg1 in Hp.
  - intros p Hp. right. by apply (wi_fl _ _ _ _ _ _ _ W2).
  - intros d' [= <-]%(eq_trans (eq_sym Hd)). left.
Qed.
End kinv_lemmas.
