(* ===== verification/EnvAlloc.v ===== *)
(** * Creating environments

    [env_setup_vm] builds an empty address space with the kernel's mappings;
    [env_alloc] takes the first free slot, gives it a fresh identifier and
    preserves [kinv]. *)

From stdpp Require Import base gmap list strings.
From Stdlib Require Import ZArith Lia.
From S2P Require Import Prelude Mmu Pmap PmapInv PmapOps PmapDir MemInit Env Sched EnvFree EnvInv.

Set Default Proof Using "Type".

(** ** The directory *)

(** The loop that copies the kernel's entries to directory [d]. *)
Definition copy_kern (d : Z) : M memst unit :=
  let* kd := gets kern_pgdir in
  for_up (Z.to_nat (NPDENTRIES - PDX UTOP)) (PDX UTOP) (λ i,
    let* pde := load (kd, i) in
    if negb (ctrue (Z.land pde PTE_P)) then ret tt else store (d, i) pde).

(** Only words of physical memory differ. *)
Definition only_frames (m m' : memst) : Prop := m' = set_frames (frames m') m.

Lemma only_frames_refl m : only_frames m m.
Proof. by destruct m. Qed.

Lemma only_frames_wr m m' f i v : only_frames m m' → only_frames m (wr f i v m').
Proof. unfold only_frames. intros ->. by destruct m. Qed.

Lemma copy_kern_spec m d :
  d ≠ kern_pgdir m →
  wpr (copy_kern d) (λ _ m', only_frames m m' ∧
    ∀ f k, rd m' f k =
      if decide (f = d ∧ NUSER ≤ k < 1024 ∧ present (rd m (kern_pgdir m) k) = true)
      then rd m (kern_pgdir m) k else rd m f k) m.
Proof.
  intros Hne. unfold copy_kern. apply wp_bind, wp_gets. set (kd := kern_pgdir m) in *.
  eapply wp_mono_ret.
  { apply (wp_for_up (λ i m', only_frames m m' ∧
      ∀ f k, rd m' f k = if decide (f = d ∧ NUSER ≤ k < i ∧ present (rd m kd k) = true)
                         then rd m kd k else rd m f k)).
    - split; [apply only_frames_refl|]. intros f k. rewrite decide_False; [done|].
      unfold NUSER. lia.
    - intros i m' Hi [Hof Hrd]. unfold load. apply wp_bind, wp_gets. cbn [fst snd].
      assert (rd m' kd i = rd m kd i) as Ekd.
      { rewrite Hrd, decide_False; [done|]. intros [-> _]. done. }
      rewrite Ekd. change (ctrue (Z.land (rd m kd i) PTE_P)) with (present (rd m kd i)).
      fold NUSER in Hi. destruct (present (rd m kd i)) eqn:Hp; cbn [negb].
      + apply wp_modify. split; [by apply only_frames_wr|]. intros f k. cbn [fst snd].
        rewrite rd_wr, Hrd. destruct (decide (d = f ∧ i = k)) as [[-> ->]|Hn].
        * rewrite decide_True; [done|]. split; [done|]. split; [lia|done].
        * destruct (decide (f = d ∧ NUSER ≤ k < i ∧ _)) as [Hd|Hd].
          -- rewrite decide_True; [done|].
             destruct Hd as (? & ? & ?). split; [done|]. split; [lia|done].
          -- rewrite decide_False; [done|]. intros (-> & ? & ?). apply Hd.
             split; [done|]. split; [|done]. assert (k ≠ i) by (intros ->; by apply Hn). lia.
      + apply wp_ret. split; [done|]. intros f k. rewrite Hrd.
        destruct (decide (f = d ∧ NUSER ≤ k < i ∧ _)) as [Hd|Hd].
        * rewrite decide_True; [done|].
             destruct Hd as (? & ? & ?). split; [done|]. split; [lia|done].
        * rewrite decide_False; [done|]. intros (-> & ? & Hpk). apply Hd.
          split; [done|]. split; [|done]. assert (k ≠ i) by congruence. lia. }
  change (PDX UTOP + Z.of_nat (Z.to_nat (NPDENTRIES - PDX UTOP))) with 1024. done.
Qed.

(** Everything [env_setup_vm] does to memory once it has its page. *)
Definition setup_dir (p : Z) : M memst unit :=
  do* copy_kern p in
  do* page_incref (Some p) in
  store (p, PDX UVPT) (Z.lor (Z.lor (PADDR p) PTE_P) PTE_U).

Record dir_made D R fl m (p : Z) m' : Prop := MkDirMade {
  dm_inv : mm_inv (p :: D) R fl m';
  dm_empty : empty_dir m' p;
  dm_half : kern_half m' p;
  dm_rd : ∀ f i, f ≠ p → rd m' f i = rd m f i;
  dm_static : same_static m m';
  dm_leak : ∀ q, leaked fl m' q → leaked (p :: fl) m q
}.

Lemma setup_dir_spec D R fl m p :
  mm_inv D R (p :: fl) m → 1 ≤ R (kern_pgdir m) →
  wpr (setup_dir p) (λ _ m', dir_made D R fl m p m') (alloc_st true p fl m).
Proof.
  intros Hinv HRk. set (m1 := alloc_st true p fl m).
  assert (mm_inv D R fl m1) as Hinv1 by (by apply alloc_st_inv).
  assert (p ∉ fl) as Hp by (by apply NoDup_cons, (inv_nodup _ _ _ _ Hinv)).
  assert (pages m1 !! p = Some (MkPageInfo None 0)) as Hpi by (cbn; apply lookup_insert_eq).
  assert (∀ f i, rd m1 f i = if decide (p = f) then 0 else rd m f i) as Hrd1.
  { intros f i. unfold m1. rewrite rd_alloc_st. repeat case_decide; tauto. }
  assert (p ≠ kern_pgdir m) as Hkp.
  { intros E. destruct (inv_free _ _ _ _ Hinv p); [left|]. rewrite <- E in HRk. lia. }
  assert (kern_pgdir m1 = kern_pgdir m) as Ek by done.
  unfold setup_dir. apply wp_bind. eapply wp_mono_ret; [by apply copy_kern_spec|].
  intros [] m2 [Hof2 Hrd2]. rewrite Ek in Hrd2.
  assert (pages m2 = pages m1 ∧ page_free_list m2 = page_free_list m1 ∧
          same_static m1 m2) as (Ep2 & Ef2 & Es2) by (by rewrite Hof2).
  assert (∀ f i, f ≠ p → rd m2 f i = rd m f i) as Hne2.
  { intros f i Hf. rewrite Hrd2, decide_False by tauto. rewrite Hrd1. by case_decide. }
  assert (¬ is_table D m1 p) as Hnt.
  { intros Ht. destruct (table_refs _ _ _ _ _ Hinv1 Ht) as [H1 _].
    destruct (inv_ref _ _ _ _ Hinv1 p _ Hpi) as [H0 _]. cbn [pp_ref] in H0.
    pose proof (inv_R _ _ _ _ Hinv1 p). lia. }
  assert (mm_inv D R fl m2) as Hinv2.
  { apply (mm_inv_rd D R fl m1); [done|by destruct Es2|done|done|].
    intros f Hf i. assert (f ≠ p) by (intros ->; done). rewrite Hne2, Hrd1 by done.
    by case_decide. }
  assert (empty_dir m2 p) as He2.
  { intros i Hi. rewrite Hrd2, decide_False by lia. rewrite Hrd1. by case_decide. }
  rewrite <- Ep2 in Hpi. pose proof (add_dir_inv R D fl m2 p Hinv2 Hp Hpi He2) as Hinv3.
  apply wp_bind. eapply wp_intro.
  { unfold page_incref, bind, page_at. cbn. rewrite Hpi. reflexivity. }
  apply wp_modify. cbn [fst snd pp_link pp_ref]. change (u16 (0 + 1)) with 1.
  set (m3 := set_pages _ m2) in *. set (v := Z.lor (Z.lor (PADDR p) PTE_P) PTE_U).
  assert (NUSER ≤ PDX UVPT < 1024) as Huv by (vm_compute; split; congruence).
  assert (∀ f i, rd (wr p (PDX UVPT) v m3) f i =
            if decide (p = f ∧ PDX UVPT = i) then v else rd m2 f i) as Hrd4.
  { intros f i. apply (rd_wr p (PDX UVPT) v f i m3). }
  split.
  - apply wr_kern_inv; [done|left|lia].
  - intros i Hi. rewrite Hrd4, decide_False by lia. by apply He2.
  - intros i Hi. rewrite Hrd4. change (kern_pgdir (wr p (PDX UVPT) v m3)) with (kern_pgdir m2).
    destruct Es2 as (_ & _ & _ & -> & _). rewrite Ek.
    destruct (Z.eqb_spec i (PDX UVPT)) as [->|Hne]; [by rewrite decide_True|].
    rewrite decide_False by (intros [_ ?]; done). rewrite Hrd4, decide_False by tauto.
    rewrite (Hne2 (kern_pgdir m)) by done.
    assert (rd m1 (kern_pgdir m) i = rd m (kern_pgdir m) i) as E1 by (rewrite Hrd1; by case_decide).
    rewrite Hrd2, E1, Hrd1.
    destruct (present (rd m (kern_pgdir m) i)) eqn:Hpr.
    + by rewrite decide_True by (split; [done|split; [lia|done]]).
    + rewrite decide_False by (intros (_ & _ & ?); done). by rewrite decide_True.
  - intros f i Hf. rewrite Hrd4, decide_False by (intros [? _]; done). by apply Hne2.
  - eapply (same_static_trans m m1); [done|]. by eapply same_static_trans.
  - intros q (Hq & qi & Hqi & H0). cbn in Hqi. rewrite Ep2 in Hqi.
    destruct (decide (p = q)) as [<-|Hne].
    + rewrite lookup_insert_eq in Hqi. by injection Hqi as <-.
    + rewrite lookup_insert_ne in Hqi by done. cbn in Hqi.
      rewrite lookup_insert_ne in Hqi by done. split; [|by exists qi].
      by apply not_elem_of_cons.
Qed.

(** ** Identifiers *)
Lemma land_gen x : Z.land x (Z.lnot (NENV - 1)) = x / 1024 * 1024.
Proof.
  change (NENV - 1) with (Z.ones 10). rewrite <- Z.ldiff_land, Z.ldiff_ones_r by lia.
  by rewrite Z.shiftl_mul_pow2, Z.shiftr_div_pow2 by lia.
Qed.

Lemma ENVX_mod x : ENVX x = x mod 1024.
Proof. unfold ENVX. change (NENV - 1) with (Z.ones 10). by rewrite Z.land_ones by lia. Qed.

Lemma lor_slot g i : 0 ≤ i < 1024 → Z.lor (g * 1024) i = g * 1024 + i.
Proof.
  intros. change 1024 with (2 ^ 10). rewrite <- lor_shiftl_add by lia.
  by rewrite Z.shiftl_mul_pow2.
Qed.

(** A new identifier is positive, names its slot and differs from the last one
    of that slot. *)
Lemma next_env_id_spec old i :
  0 ≤ old < 2 ^ 31 → 0 ≤ i < NENV →
  let id := next_env_id old i in 0 < id < 2 ^ 31 ∧ ENVX id = i ∧ id ≠ old.
Proof.
  intros Hold Hi. unfold next_env_id. rewrite land_gen, ENVX_mod. change NENV with 1024 in Hi.
  change (Z.shiftl 1 ENVGENSHIFT) with 4096. unfold s32.
  destruct (Z.leb_spec (((old + 4096 + 2 ^ 31) mod 2 ^ 32 - 2 ^ 31) / 1024 * 1024) 0) as [Hle|Hgt].
  - assert (Z.lor 4096 i = 4096 + i) as -> by exact (lor_slot 4 i Hi).
    assert (2 ^ 31 - 4096 ≤ old) by dlia. split; [lia|]. split; [dlia|lia].
  - rewrite lor_slot by done.
    assert ((old + 4096 + 2 ^ 31) mod 2 ^ 32 - 2 ^ 31 = old + 4096) as E by dlia.
    rewrite E in *. split; [dlia|]. split; dlia.
Qed.

(** ** [env_alloc] *)

(** The slot after [env_alloc]. *)
Definition new_env (parent i p : Z) (en : Env) : Env :=
  set_ipc false (env_ipc_dstva en) (env_ipc_value en) (env_ipc_from en) (env_ipc_perm en)
    (set_pgfault_upcall 0 (set_env_tf user_tf (set_vma 0 (vma en) (set_env_runs 0
      (set_env_status ENV_RUNNABLE (set_env_type ENV_TYPE_USER (env_parent_set parent
        (set_env_id (next_env_id (env_id en) i) (set_env_pgdir (Some p) en))))))))).

Section alloc.
Context (R : Z → Z).
Implicit Types (s : kstate) (fl efl : list Z).

Lemma env_setup_vm_none efl s e :
  kinv R [] efl s → env_setup_vm e s = Ret (- E_NO_MEM) s.
Proof.
  intros K. unfold env_setup_vm, bind at 1, on_mem, zoom.
  rewrite (page_alloc_eq _ R []) by apply K. by destruct s.
Qed.

Lemma env_setup_vm_spec fl efl s e en p :
  kinv R (p :: fl) efl s → envs s !! e = Some en →
  ∃ m', env_setup_vm e s =
      Ret 0 (set_mem m' (set_envs (<[e := set_env_pgdir (Some p) en]> (envs s)) s)) ∧
    dir_made (dirs_of (envs s)) R fl (mem s) p m'.
Proof.
  intros K He. pose proof (ki_mm _ _ _ _ K) as Hinv.
  destruct (wpr_inv _ _ _ (setup_dir_spec _ R fl (mem s) p Hinv (ki_kern_R _ _ _ _ K)))
    as ([] & m' & E & Hdm). exists m'. split; [|done].
  unfold setup_dir in E. apply bind_ret_inv in E as ([] & ma & Ea & E).
  apply bind_ret_inv in E as ([] & mb & Eb & E). injection E as E.
  unfold env_setup_vm, bind at 1, on_mem at 1, zoom. rewrite (page_alloc_eq _ R (p :: fl)) by done.
  change (ctrue (Z.land ALLOC_ZERO ALLOC_ZERO)) with true.
  assert (0 ≤ p < 2 ^ 20 ∧ p < npages (mem s)) as [Hr Hlt].
  { destruct (free_page_info _ _ _ _ p Hinv) as (pi & Hpi & _); [left|].
    split; [eapply page_range; eauto|]. apply (inv_dom _ _ _ _ Hinv). eauto. }
  unfold bind at 1, on_mem at 1, zoom at 1, page2kva. cbn [mem set_mem].
  rewrite KADDR_ok; rewrite PGNUM_page2pa by done; [|done].
  unfold bind at 1. erewrite upd_env_eq by exact He.
  unfold bind at 1, on_mem at 1, zoom at 1. cbn [mem set_mem set_envs].
  fold (copy_kern p). rewrite Ea. unfold bind at 1, on_mem at 1, zoom at 1. cbn [mem set_mem].
  rewrite Eb. unfold bind, on_mem, zoom. cbn [mem set_mem store modify]. cbn [fst snd] in E.
  cbn. by rewrite E.
Qed.

Lemma env_alloc_eq fl efl s parent i en p m' :
  env_free_list s = Some i → envs s !! i = Some en →
  env_setup_vm i s =
    Ret 0 (set_mem m' (set_envs (<[i := set_env_pgdir (Some p) en]> (envs s)) s)) →
  env_alloc parent s =
    Ret (inr i) (MkK m' (<[i := new_env parent i p en]> (envs s)) (env_link en) (cpus s) (this s)
                   (kernel_locked s) (console s) (ticks s)).
Proof.
  intros Hl He Hs. unfold env_alloc, bind at 1, gets at 1. rewrite Hl.
  unfold bind at 1. rewrite Hs. change (0 <? 0) with false. cbn match.
  do 9 (unfold bind at 1; erewrite upd_env_eq by (cbn; apply lookup_insert_eq)).
  unfold bind, env_at. cbn. rewrite lookup_insert_eq. cbn.
  unfold modify, set_env_free_list. cbn. by rewrite !insert_insert_eq.
Qed.

(** What a successful [env_alloc] leaves behind. *)
Record env_created fl efl s (parent i : Z) s' fl' efl' : Prop := MkCreated {
  ec_efl : efl = i :: efl';
  ec_inv : kinv R fl' efl' s';
  ec_env : ∃ en p, envs s !! i = Some en ∧ fl = p :: fl' ∧
    envs s' = <[i := new_env parent i p en]> (envs s) ∧
    empty_dir (mem s') p ∧ kern_half (mem s') p ∧
    ENVX (next_env_id (env_id en) i) = i ∧ 0 < next_env_id (env_id en) i ∧
    next_env_id (env_id en) i ≠ env_id en;
  ec_cpus : cpus s' = cpus s ∧ this s' = this s;
  ec_other : ∀ d i j, SPage d i j ∈ sites (dirs_of (envs s)) →
    pte_of (mem s') d i j = pte_of (mem s) d i j;
  ec_data : ∀ f k, f ∉ fl → rd (mem s') f k = rd (mem s) f k
}.

(** Storing the new slot. *)
Lemma kinv_new_slot fl efl s i en p m' parent :
  kinv R (p :: fl) (i :: efl) s → envs s !! i = Some en →
  dir_made (dirs_of (envs s)) R fl (mem s) p m' →
  kinv R fl efl (MkK m' (<[i := new_env parent i p en]> (envs s)) (env_link en) (cpus s) (this s)
                   (kernel_locked s) (console s) (ticks s)).
Proof.
  intros K He Hdm. pose proof (ki_env _ _ _ _ K i en He) as [Hf1 Hf2 Hf3 _].
  assert (0 ≤ i < NENV) as Hi by (apply (ki_dom _ _ _ _ K); eauto).
  destruct (next_env_id_spec (env_id en) i Hf3 Hi) as (Hid1 & Hid2 & Hid3).
  assert (env_pgdir en = None) as Hn by (apply Hf2, Hf1; left).
  assert (dirs_of (<[i := new_env parent i p en]> (envs s)) ≡ₚ p :: dirs_of (envs s)) as Hperm
    by (by apply (dirs_of_add _ _ en)).
  assert (i ∉ efl ∧ NoDup efl) as [Hie Hnd] by (apply NoDup_cons, (ki_nodup _ _ _ _ K)).
  destruct (kern_not_table R _ _ _ K) as [Hknt Hkfl].
  assert (p ≠ kern_pgdir (mem s)) as Hkp by (intros ->; apply Hkfl; left).
  assert (∀ d, d ∈ dirs_of (envs s) → d ≠ p) as Hdp.
  { intros d Hd ->. apply (free_not_table _ _ _ _ p (ki_mm _ _ _ _ K)); [left|].
    by apply dir_is_table. }
  destruct (dm_static _ _ _ _ _ _ Hdm) as (Hnp & _ & _ & Hk & _).
  pose proof (dm_rd _ _ _ _ _ _ Hdm) as Hrd.
  destruct K as [_ Kdom Kchain _ Kenv Kcur KR Kkern Khalf].
  split; cbn [mem envs env_free_list]; rewrite ?Hnp, ?Hk; try done.
  - eapply mm_inv_perm; [symmetry; exact Hperm|apply Hdm].
  - intros j. destruct (decide (i = j)) as [<-|]; [|by rewrite lookup_insert_ne].
    rewrite lookup_insert_eq. split; [done|by eexists].
  - destruct Kchain as [_ (e' & He' & Hc)]. rewrite He in He'. injection He' as <-.
    by apply env_chain_insert.
  - intros j ej. destruct (decide (i = j)) as [<-|Hne].
    + rewrite lookup_insert_eq. intros [= <-]. split; cbn.
      * split; [done|intros [=]].
      * split; intros [=].
      * lia.
      * intros _. split; [lia|done].
    + rewrite lookup_insert_ne by done. intros Hej.
      destruct (Kenv j ej Hej) as [H1 H2 H3 H4]. split; auto.
      rewrite <- H1, elem_of_cons. split; [by right|]. by intros [?|?].
  - intros k t. rewrite Hrd by done. apply Kkern.
  - intros d. rewrite Hperm. intros [->|Hd]%elem_of_cons; [apply Hdm|].
    intros k Hk'. cbn [mem]. rewrite Hk, !Hrd by (auto || done). by apply Khalf.
Qed.

Lemma env_alloc_spec fl efl s parent :
  kinv R fl efl s →
  (efl = [] ∧ env_alloc parent s = Ret (inl (- E_NO_FREE_ENV)) s) ∨
  (efl ≠ [] ∧ fl = [] ∧ env_alloc parent s = Ret (inl (- E_NO_MEM)) s) ∨
  ∃ i s' fl' efl', env_alloc parent s = Ret (inr i) s' ∧
    env_created fl efl s parent i s' fl' efl'.
Proof.
  intros K. pose proof (ki_chain _ _ _ _ K) as Hc. destruct efl as [|i efl']; cbn in Hc.
  { left. split; [done|]. unfold env_alloc, bind, gets. by rewrite Hc. }
  right. destruct Hc as [Hl (en & He & Hc)]. destruct fl as [|p fl'].
  { left. split; [done|]. split; [done|]. unfold env_alloc, bind at 1, gets at 1. rewrite Hl.
    unfold bind. by rewrite (env_setup_vm_none _ _ _ K). }
  right. destruct (env_setup_vm_spec fl' _ s i en p K He) as (m' & E & Hdm).
  eexists i, _, fl', efl'. split; [by eapply env_alloc_eq|].
  assert (0 ≤ i < NENV) as Hi by (apply (ki_dom _ _ _ _ K); eauto).
  destruct (next_env_id_spec (env_id en) i) as (Hid1 & Hid2 & Hid3);
    [apply (ki_env _ _ _ _ K i en He)|done|].
  assert (∀ f k, f ≠ p → rd m' f k = rd (mem s) f k) as Hrd by apply Hdm.
  pose proof (ki_mm _ _ _ _ K) as Hinv.
  split; cbn [mem envs cpus this].
  - done.
  - by apply kinv_new_slot.
  - exists en, p. split; [done|]. split; [done|]. split; [done|].
    split; [apply Hdm|]. split; [apply Hdm|]. split; [done|]. split; [lia|done].
  - done.
  - apply pte_same_tables. intros f Hf k. apply Hrd. intros ->.
    by apply (free_not_table _ _ _ _ p Hinv) in Hf; [|left].
  - intros f k Hf. apply Hrd. intros ->. apply Hf. left.
Qed.
End alloc.
