(* ===== verification/KDemo.v ===== *)
(** * A small running kernel

    A machine of 32 pages: all environments free after boot ([boot]), then one
    environment created by [env_alloc] and running on processor 0 ([one]).  Used
    to exhibit the kernel properties on a concrete state. *)

From stdpp Require Import base gmap list strings.
From Stdlib Require Import ZArith Lia.
From S2P Require Import Prelude Mmu Pmap PmapInv PmapOps PmapDir PmapBoot PmapProps MemInit.
From S2P Require Import Env Sched EnvFree EnvInv EnvAlloc.

Set Default Proof Using "Type".

Module KDemo.

Definition R : Z → Z := Demo.R.

Definition free_env (i : Z) : Env :=
  MkEnv zero_tf (if i =? 1023 then None else Some (i + 1)) 0 0 ENV_TYPE_USER ENV_FREE 0 0 None
    0 ∅ 0 false 0 0 0 0 [] [].

Definition free_envs : gmap Z Env :=
  list_to_map ((λ i, (i, free_env i)) <$> seqZ 0 1024).

(** Page 7 is reserved at boot and serves as the kernel's directory. *)
Definition boot : kstate :=
  MkK (set_kern_pgdir 7 Demo.booted) free_envs (Some 0) {[ 0 := MkCpu CPU_STARTED None ]} 0 true
    [] 0.

Definition created : kstate :=
  match env_alloc 0 boot with Ret (inr _) s => s | _ => boot end.

(** Environment 0 runs on this processor. *)
Definition run0 (s : kstate) : kstate :=
  MkK (mem s) (alter (set_env_status ENV_RUNNING) 0 (envs s)) (env_free_list s)
    {[ 0 := MkCpu CPU_STARTED (Some 0) ]} 0 true [] 0.

Definition one : kstate := run0 created.

Lemma free_envs_lookup i :
  free_envs !! i = if decide (0 ≤ i < 1024) then Some (free_env i) else None.
Proof.
  unfold free_envs. case_decide as Hi.
  - apply elem_of_list_to_map.
    + rewrite <- list_fmap_compose. apply NoDup_fmap_2; [by intros ?? [=]|apply NoDup_seqZ].
    + apply list_elem_of_fmap. exists i. split; [done|by apply elem_of_seqZ].
  - apply not_elem_of_list_to_map. rewrite <- list_fmap_compose.
    intros (y & -> & Hy%elem_of_seqZ)%list_elem_of_fmap. by apply Hi.
Qed.

Lemma free_envs_chain n : ∀ k, 0 ≤ k → k + Z.of_nat n = 1024 →
  env_chain free_envs (if k =? 1024 then None else Some k) (seqZ k (Z.of_nat n)).
Proof.
  induction n as [|n IH]; intros k Hk Hn.
  - cbn. by destruct (Z.eqb_spec k 1024); [|lia].
  - rewrite seqZ_cons by lia. destruct (Z.eqb_spec k 1024); [lia|]. split; [done|].
    exists (free_env k). rewrite free_envs_lookup, decide_True by lia. split; [done|].
    replace (Z.pred (Z.of_nat (S n))) with (Z.of_nat n) by lia.
    specialize (IH (Z.succ k) ltac:(lia) ltac:(lia)). cbn.
    destruct (Z.eqb_spec (Z.succ k) 1024), (Z.eqb_spec k 1023); try lia; exact IH.
Qed.

Lemma dirs_free : dirs_of free_envs = [].
Proof.
  unfold dirs_of. rewrite (omap_ext_in _ (λ _, None)); [by induction (seqZ 0 NENV)|].
  intros i _. rewrite free_envs_lookup. by case_decide.
Qed.

Lemma booted_rd f i : rd Demo.booted f i = 0.
Proof.
  pose proof Demo.booted_frames as H. unfold rd. by rewrite H, lookup_empty.
Qed.

Lemma boot_inv : kinv R (31 :: 30 :: Demo.rest) (seqZ 0 1024) boot.
Proof.
  split.
  - change (envs boot) with free_envs. rewrite dirs_free.
    by apply (mm_inv_targets [] R _ Demo.booted); [apply Demo.booted_inv|..].
  - intros i. change (envs boot !! i) with (free_envs !! i). rewrite free_envs_lookup.
    change NENV with 1024. case_decide; split; done || by eexists.
  - exact (free_envs_chain 1024 0 ltac:(lia) ltac:(lia)).
  - apply NoDup_seqZ.
  - intros i e. change (envs boot !! i) with (free_envs !! i). rewrite free_envs_lookup.
    case_decide as Hi; [|done]. intros [= <-]. split; cbn; try done.
    rewrite elem_of_seqZ. split; [done|lia].
  - intros c. vm_compute. done.
  - done.
  - intros i t _. cbn. unfold rd. cbn. fold (rd Demo.booted 7 i).
    change (default 0 (default ∅ (frames Demo.booted !! 7) !! i)) with (rd Demo.booted 7 i).
    rewrite booted_rd. done.
  - intros d. change (envs boot) with free_envs. rewrite dirs_free. by intros ?%elem_of_nil.
Qed.

Lemma created_spec :
  ∃ fl' efl', env_created R (31 :: 30 :: Demo.rest) (seqZ 0 1024) boot 0 0 created fl' efl'.
Proof.
  destruct (env_alloc_spec R _ _ boot 0 boot_inv)
    as [[H _]|[(_ & H & _)|(i & s' & fl' & efl' & E & C)]].
  - discriminate H.
  - discriminate H.
  - unfold created. rewrite E. exists fl', efl'.
    pose proof (ec_efl _ _ _ _ _ _ _ _ _ C) as He. injection He as <- _. exact C.
Qed.

Lemma created_env :
  envs created = <[0 := new_env 0 0 31 (free_env 0)]> free_envs.
Proof.
  destruct created_spec as (fl' & efl' & C).
  destruct (ec_env _ _ _ _ _ _ _ _ _ C) as (en & p & He & Hfl & Henvs & _).
  change (envs boot) with free_envs in *. rewrite free_envs_lookup in He.
  injection He as <-. injection Hfl as <- _. exact Henvs.
Qed.

Lemma created_inv : kinv R (30 :: Demo.rest) (seqZ 1 1023) created.
Proof.
  destruct created_spec as (fl' & efl' & C). pose proof (ec_inv _ _ _ _ _ _ _ _ _ C) as K.
  destruct (ec_env _ _ _ _ _ _ _ _ _ C) as (en & p & _ & Hfl & _). injection Hfl as _ <-.
  pose proof (ec_efl _ _ _ _ _ _ _ _ _ C) as He. rewrite seqZ_cons in He by lia.
  injection He as <-. exact K.
Qed.

(** The running environment. *)
Definition env0 : Env := set_env_status ENV_RUNNING (new_env 0 0 31 (free_env 0)).

Lemma one_lookup i :
  envs one !! i = if decide (i = 0) then Some env0 else free_envs !! i.
Proof.
  unfold one, run0. cbn [envs]. rewrite created_env. case_decide as Hi; [subst i|].
  - by rewrite lookup_alter_eq, lookup_insert_eq.
  - by rewrite lookup_alter_ne, lookup_insert_ne.
Qed.

Lemma run0_inv fl efl s e :
  kinv R fl efl s → envs s !! 0 = Some e → env_status e ≠ ENV_FREE → kinv R fl efl (run0 s).
Proof.
  intros K He Hst.
  eapply (kinv_ext R _ _ (set_envs (<[0 := set_env_status ENV_RUNNING e]> (envs s)) s)).
  - eapply kinv_env; [exact K|exact He|done..|]. split; [done|]. by intros ?%Hst.
  - done.
  - cbn. by rewrite (insert_alter_env _ 0 _ _ He).
  - done.
  - intros c. unfold curenv, this_cpu. cbn. intros [= <-]. split; [done|reflexivity].
Qed.

Lemma one_inv : kinv R (30 :: Demo.rest) (seqZ 1 1023) one.
Proof.
  apply (run0_inv _ _ _ (new_env 0 0 31 (free_env 0))).
  - exact created_inv.
  - rewrite created_env. apply lookup_insert_eq.
  - discriminate.
Qed.

Lemma run0_cur s : curenv (run0 s) = Some 0.
Proof. done. Qed.

Lemma one_cur : curenv one = Some 0.
Proof. apply run0_cur. Qed.

Lemma one_npages : npages (mem one) = 32.
Proof. vm_compute. reflexivity. Qed.

(** No reference count is near its limit. *)
Lemma one_counts p pi : 0 ≤ p < 32 → pages (mem one) !! p = Some pi → pp_ref pi < 2 ^ 16 - 1.
Proof.
  intros Hp Hpi.
  assert (forallb (λ p, match pages (mem one) !! p with
                        | Some pi => pp_ref pi <? 2 ^ 16 - 1 | None => true end) (seqZ 0 32) = true)
    as H by (vm_compute; reflexivity).
  rewrite forallb_forall in H. specialize (H p). rewrite Hpi in H.
  apply Z.ltb_lt, H, list_elem_of_In, elem_of_seqZ. lia.
Qed.

(** ** Two environments on two processors *)

Definition forked : kstate :=
  match env_alloc 4096 one with Ret (inr _) s => s | _ => one end.

(** Environment 1, a child of environment 0, runs on processor 1. *)
Definition run1 (s : kstate) : kstate :=
  MkK (mem s) (alter (set_env_status ENV_RUNNING) 1 (envs s)) (env_free_list s)
    {[ 0 := MkCpu CPU_STARTED (Some 0); 1 := MkCpu CPU_STARTED (Some 1) ]} 0 true [] 0.

Definition two : kstate := run1 forked.

Definition env1 : Env := set_env_status ENV_RUNNING (new_env 4096 1 30 (free_env 1)).

Lemma run1_inv fl efl s e :
  kinv R fl efl s → envs s !! 1 = Some e → env_status e ≠ ENV_FREE → kinv R fl efl (run1 s).
Proof.
  intros K He Hst.
  eapply (kinv_ext R _ _ (set_envs (<[1 := set_env_status ENV_RUNNING e]> (envs s)) s)).
  - eapply kinv_env; [exact K|exact He|done..|]. split; [done|]. by intros ?%Hst.
  - done.
  - cbn. by rewrite (insert_alter_env _ 1 _ _ He).
  - done.
  - intros c. unfold curenv, this_cpu. cbn. intros [= <-]. split; [done|reflexivity].
Qed.

Lemma forked_spec :
  kinv R Demo.rest (seqZ 2 1022) forked ∧
  envs forked = <[1 := new_env 4096 1 30 (free_env 1)]> (envs one).
Proof.
  destruct (env_alloc_spec R _ _ one 4096 one_inv)
    as [[H _]|[(_ & H & _)|(i & s' & fl' & efl' & E & C)]]; [discriminate H|discriminate H|].
  unfold forked. rewrite E. pose proof (ec_efl _ _ _ _ _ _ _ _ _ C) as He.
  rewrite seqZ_cons in He by lia. injection He as <- <-.
  destruct (ec_env _ _ _ _ _ _ _ _ _ C) as (en & p & Hen & Hfl & Henvs & _).
  injection Hfl as <- <-. rewrite one_lookup, decide_False, free_envs_lookup in Hen by done.
  injection Hen as <-. split; [apply (ec_inv _ _ _ _ _ _ _ _ _ C)|exact Henvs].
Qed.

Lemma two_inv : kinv R Demo.rest (seqZ 2 1022) two.
Proof.
  destruct forked_spec as [K He]. apply (run1_inv _ _ _ (new_env 4096 1 30 (free_env 1)) K).
  - rewrite He. apply lookup_insert_eq.
  - discriminate.
Qed.

Lemma two_all i :
  envs two !! i = if decide (i = 0) then Some env0 else if decide (i = 1) then Some env1
                  else free_envs !! i.
Proof.
  destruct forked_spec as [_ He]. unfold two, run1. cbn [envs]. rewrite He.
  destruct (decide (i = 1)) as [->|Hne].
  - by rewrite lookup_alter_eq, lookup_insert_eq.
  - rewrite lookup_alter_ne, lookup_insert_ne by done. apply one_lookup.
Qed.

Lemma two_lookup : envs two !! 0 = Some env0 ∧ envs two !! 1 = Some env1.
Proof. by rewrite !two_all. Qed.

Lemma run1_cur s : curenv (run1 s) = Some 0.
Proof. done. Qed.

Lemma two_room p pi : pages (mem two) !! p = Some pi → pp_ref pi < 2 ^ 16 - 1.
Proof.
  intros Hpi. assert (is_Some (pages (mem two) !! p)) as Hs by (by eexists).
  apply (inv_dom _ _ _ _ (ki_mm _ _ _ _ two_inv)) in Hs.
  assert (npages (mem two) = 32) as Hn by (vm_compute; reflexivity). rewrite Hn in Hs.
  assert (forallb (λ p, match pages (mem two) !! p with
                        | Some pi => pp_ref pi <? 2 ^ 16 - 1 | None => true end) (seqZ 0 32) = true)
    as H by (vm_compute; reflexivity).
  rewrite forallb_forall in H. specialize (H p). rewrite Hpi in H.
  apply Z.ltb_lt, H, list_elem_of_In, elem_of_seqZ. lia.
Qed.

(** Environment 1 waits for a message. *)
Definition env1w : Env := set_env_status ENV_NOT_RUNNABLE (set_ipc true 0x900000 0 0 0 env1).
Definition waiting : kstate := set_envs (<[1 := env1w]> (envs two)) two.

Lemma waiting_inv : kinv R Demo.rest (seqZ 2 1022) waiting.
Proof.
  destruct two_lookup as [_ H1].
  eapply (kinv_env R _ _ two 1 env1); [exact two_inv|exact H1|reflexivity..|].
  split; discriminate.
Qed.

Lemma set_envs_cur x s : curenv (set_envs x s) = curenv s.
Proof. done. Qed.

Lemma waiting_cur : curenv waiting = Some 0.
Proof. unfold waiting. rewrite set_envs_cur. apply run1_cur. Qed.

Lemma set_envs_mem x s : mem (set_envs x s) = mem s.
Proof. done. Qed.

Lemma waiting_room p pi : pages (mem waiting) !! p = Some pi → pp_ref pi < 2 ^ 16 - 1.
Proof. unfold waiting. rewrite set_envs_mem. apply two_room. Qed.

Lemma waiting_lookup i :
  envs waiting !! i = if decide (i = 0) then Some env0 else if decide (i = 1) then Some env1w
                      else free_envs !! i.
Proof.
  unfold waiting. cbn [envs set_envs]. destruct (decide (i = 1)) as [->|Hne].
  - by rewrite lookup_insert_eq.
  - rewrite lookup_insert_ne by done. rewrite two_all. by rewrite (decide_False (P := i = 1)).
Qed.

End KDemo.
