(* ===== verification/Syscall.v ===== *)
(** * System calls ([kernel/syscall.c])

    The handlers that work on environments and address spaces.  Arguments are the
    32-bit words of the registers; a handler returns the [int] for [%eax], or
    leaves the kernel ([Switch]) when it gives the processor away. *)

From stdpp Require Import base gmap list strings.
From Stdlib Require Import ZArith Lia.
From S2P Require Import Prelude Mmu Pmap MemInit Env Sched.

(** ** Helpers *)

(** The current environment, which the handlers assume to exist. *)
Definition cur : M kstate Z := let* c := gets curenv in deref c.

(** [envid2env(...) < 0] returns the error [err] unless it is given. *)
Definition with_env (envid : Z) (checkperm : bool) (err : option Z) (k : Z → M kstate Z)
    : M kstate Z :=
  let* r := envid2env envid checkperm in
  match r with
  | inl x => ret (default x err)
  | inr o => let* i := deref o in k i
  end.

(** [((uint32_t)va % PGSIZE) || ((uint32_t)va >= UTOP)] *)
Definition bad_va (va : Z) : bool := ctrue (va mod PGSIZE) || (UTOP <=? va).

(** [env->env_pgdir] of slot [i]. *)
Definition pgdir_of (i : Z) : M kstate Z :=
  let* e := env_at i in deref (env_pgdir e).

(** ** Output *)

(** The [%.*s] conversion of [vprintfmt]: each byte is read before the remaining
    precision is tested. *)
Definition putch (c : Z) : M kstate unit := modify (λ s, set_console (c :: console s) s).

Definition put_str (s prec : Z) : M kstate unit :=
  let* r := loop (2 ^ 32)%positive (λ k,
    let* ch := on_mem (va_load8 (u32 (s + k))) in
    if (ch =? 0) || negb ((prec <? 0) || (k <? prec)) then ret (inr tt) else
    do* putch ch in
    ret (inl (k + 1))) 0 in
  match r with inr _ => ret tt | inl _ => fault end.

Definition null_str : list Z := [40; 110; 117; 108; 108; 41].    (* "(null)" *)

Definition sys_cputs (s len : Z) : M kstate Z :=
  let* c := cur in
  do* user_mem_assert c s len 0 in
  do* (if s =? 0 then
         for_up (length null_str) 0 (λ k,
           if (s32 len <? 0) || (k <? s32 len)
           then putch (default 0 (null_str !! Z.to_nat k)) else ret tt)
       else put_str s (s32 len)) in
  ret 0.

(** ** Environments *)
Definition sys_getenvid : M kstate Z :=
  let* c := cur in
  let* e := env_at c in
  ret (env_id e).

Definition sys_env_destroy (envid : Z) : M kstate Z :=
  with_env envid true None (λ i, do* env_destroy i in ret 0).

Definition sys_yield : M kstate unit := sched_yield.

Definition sys_exofork : M kstate Z :=
  let* c := cur in
  let* ce := env_at c in
  let* r := env_alloc (env_id ce) in
  match r with
  | inl x => ret x
  | inr i =>
      let* ce := env_at c in
      do* upd_env i (set_env_tf (env_tf ce)) in
      do* upd_env i (set_env_status ENV_NOT_RUNNABLE) in
      do* upd_env i (λ e, set_env_tf (set_reg_eax 0 (env_tf e)) e) in
      do* upd_env i (λ e, set_names (currentpath ce) (binaryname e) e) in
      do* upd_env i (λ e, set_names (currentpath e) [] e) in
      let* e := env_at i in
      ret (env_id e)
  end.

(** The two values of [status] user code may ask for. *)
Definition status_arg (status : Z) : option env_state :=
  if status =? 4 then Some ENV_NOT_RUNNABLE
  else if status =? 2 then Some ENV_RUNNABLE else None.

Definition sys_env_set_status (envid status : Z) : M kstate Z :=
  match status_arg status with
  | None => ret (- E_INVAL)
  | Some st => with_env envid true (Some (- E_BAD_ENV)) (λ i,
      do* upd_env i (set_env_status st) in ret 0)
  end.

Definition sizeof_Trapframe : Z := 68.

(** [tf_eip] is at offset 48 and [tf_esp] at offset 60 of the user's structure. *)
Definition sys_env_set_trapframe (envid tf : Z) : M kstate Z :=
  with_env envid true None (λ i,
    let* c := cur in
    do* user_mem_assert c tf sizeof_Trapframe PTE_W in
    let* eip := on_mem (va_load32 (u32 (tf + 48))) in
    let* esp := on_mem (va_load32 (u32 (tf + 60))) in
    do* upd_env i (λ e, set_env_tf
          (set_eip_esp_eflags eip esp
             (Z.ldiff (Z.lor (tf_eflags (env_tf e)) FL_IF) FL_IOPL_MASK) (env_tf e)) e) in
    ret 0).

Definition sys_env_set_pgfault_upcall (envid upcall : Z) : M kstate Z :=
  with_env envid true (Some (- E_BAD_ENV)) (λ i,
    if upcall =? 0 then ret (- E_INVAL) else
    do* upd_env i (set_pgfault_upcall upcall) in ret 0).

(** ** Memory *)
Definition sys_page_alloc (envid va perm : Z) : M kstate Z :=
  with_env envid true (Some (- E_BAD_ENV)) (λ i,
    if bad_va va then ret (- E_INVAL) else
    let* page := on_mem (page_alloc ALLOC_ZERO) in
    match page with
    | None => ret (- E_NO_MEM)
    | Some p =>
        let* d := pgdir_of i in
        let* r := k_page_insert d (Some p) va (Z.lor perm PTE_U) in
        if r <? 0 then do* on_mem (page_free p) in ret r else ret 0
    end).

(** A read-only source page must not become writable. *)
Definition grants_write (pte perm : Z) : bool :=
  ctrue (Z.land (Z.lnot pte) PTE_W) && ctrue (Z.land perm PTE_W).

(** The page mapped at [va] in environment [i], when it may be shared with [perm];
    [None] where the handlers return [-E_INVAL]. *)
Definition lookup_src (i va perm : Z) : M kstate (option Z) :=
  let* d := pgdir_of i in
  let* r := on_mem (page_lookup d va) in
  match r with
  | None => ret None
  | Some (p, pte) =>
      let* e := on_mem (load pte) in
      if grants_write e perm then ret None else ret (Some p)
  end.

Definition sys_page_map (srcenv_id src dstenv_id dst perm : Z) : M kstate Z :=
  if bad_va src then ret (- E_INVAL) else
  if bad_va dst then ret (- E_INVAL) else
  with_env srcenv_id true (Some (- E_BAD_ENV)) (λ si,
  with_env dstenv_id true (Some (- E_BAD_ENV)) (λ di,
    let* page :=
      (if src =? 0 then
         if ctrue (Z.land perm PTE_W) then ret None else ret (Some 0)
       else lookup_src si src perm) in
    match page with
    | None => ret (- E_INVAL)
    | Some p =>
        let* dd := pgdir_of di in
        let* r := k_page_insert dd (Some p) dst (Z.lor perm PTE_U) in
        if r <? 0 then ret r else ret 0
    end)).

Definition sys_page_unmap (envid va : Z) : M kstate Z :=
  with_env envid true (Some (- E_BAD_ENV)) (λ i,
    if bad_va va then ret (- E_INVAL) else
    let* d := pgdir_of i in
    do* k_page_remove d va in
    ret 0).

(** ** Messages *)

(** The page transfer of [sys_ipc_try_send]: an error, or the permissions the
    receiver is told. *)
Definition ipc_page (c i srcva perm : Z) : M kstate (Z + Z) :=
  let* e := env_at i in
  if ctrue (env_ipc_dstva e) && ctrue srcva then
    let* page := lookup_src c srcva perm in
    match page with
    | None => ret (inl (- E_INVAL))
    | Some p =>
        let* d := pgdir_of i in
        let* r := k_page_insert d (Some p) (env_ipc_dstva e) (Z.lor perm PTE_U) in
        if r <? 0 then ret (inl r) else ret (inr (Z.lor (Z.lor perm PTE_U) PTE_P))
    end
  else ret (inr 0).

Definition sys_ipc_try_send (envid value srcva perm : Z) : M kstate Z :=
  if bad_va srcva then ret (- E_INVAL) else
  with_env envid false None (λ i,
    let* e := env_at i in
    if negb (env_ipc_recving e) then ret (- E_IPC_NOT_RECV) else
    let* c := cur in
    let* r := ipc_page c i srcva perm in
    match r with
    | inl x => ret x
    | inr p =>
        let* ce := env_at c in
        do* upd_env i (λ e, set_ipc false (env_ipc_dstva e) value (env_id ce) p e) in
        do* upd_env i (set_env_status ENV_RUNNABLE) in
        ret 0
    end).

Definition sys_ipc_recv (dstva : Z) : M kstate Z :=
  if bad_va dstva then ret (- E_INVAL) else
  let* c := cur in
  do* upd_env c (λ e, set_ipc true dstva (env_ipc_value e) (env_ipc_from e) (env_ipc_perm e) e) in
  do* upd_env c (λ e, set_env_tf (set_reg_eax 0 (env_tf e)) e) in
  do* upd_env c (set_env_status ENV_NOT_RUNNABLE) in
  do* sched_yield in
  fault.

(** ** Time, areas and names *)
Definition sys_time_msec : M kstate Z :=
  let* t := gets ticks in ret (s32 (t * 10)).

Definition sys_add_vma (envid va memsz perm : Z) : M kstate Z :=
  with_env envid true None (λ i, env_add_vma (Some i) va memsz (Z.lor PTE_U perm)).

Definition sys_copy_vma (src_env dst_env : Z) : M kstate Z :=
  with_env src_env true None (λ si,
  with_env dst_env true None (λ di,
    let* se := env_at si in
    do* for_up (Z.to_nat (vma_valid se)) 0 (λ k,
          let* se := env_at si in
          upd_env di (λ e, set_vma (vma_valid e)
            (match vma se !! k with Some v => <[k := v]> (vma e) | None => vma e end) e)) in
    let* se := env_at si in
    do* upd_env di (λ e, set_vma (vma_valid se) (vma e) e) in
    ret 0)).

(** [strlen] and [strcpy] of a string in user memory; copying more than the
    destination holds writes over the memory behind it. *)
Definition user_strlen (s : Z) : M kstate Z :=
  let* r := loop (2 ^ 32)%positive (λ k,
    let* ch := on_mem (va_load8 (u32 (s + k))) in
    ret (if ch =? 0 then inr k else inl (k + 1))) 0 in
  match r with inr k => ret k | inl _ => fault end.

Fixpoint user_bytes (n : nat) (s : Z) : M kstate (list Z) :=
  match n with
  | O => ret []
  | S n' =>
      let* b := on_mem (va_load8 s) in
      let* l := user_bytes n' (u32 (s + 1)) in
      ret (b :: l)
  end.

Definition MAXPATHLEN : Z := 1024.
Definition MAXNAMELEN : Z := 128.

Definition user_strcpy (s cap : Z) : M kstate (list Z) :=
  let* n := user_strlen s in
  if cap <=? n then fault else user_bytes (Z.to_nat n) s.

Definition sys_chdir (path : Z) : M kstate Z :=
  let* c := cur in
  let* n := user_strlen path in
  do* user_mem_assert c path (u32 (n + 1)) PTE_U in
  let* str := user_strcpy path MAXPATHLEN in
  do* upd_env c (λ e, set_names str (binaryname e) e) in
  ret 0.

Definition sys_env_name (envid name : Z) : M kstate Z :=
  with_env envid true None (λ i,
    let* c := cur in
    let* n := user_strlen name in
    do* user_mem_assert c name (u32 (n + 1)) PTE_U in
    let* str := user_strcpy name MAXNAMELEN in
    do* upd_env i (λ e, set_names (currentpath e) str e) in
    ret 0).
