(* ===== verification/SyscallInv.v ===== *)
(** * System calls preserve the kernel invariant

    Lemmas for the handlers of [Syscall]: resolving an environment identifier,
    and the page operations lifted to [kinv]. *)

From stdpp Require Import base gmap list strings.
From Stdlib Require Import ZArith Lia.
From S2P Require Import Prelude Mmu Pmap PmapInv PmapOps PmapDir MemInit Env Sched EnvFree EnvInv.
From S2P Require Import EnvAlloc Syscall.

Set Default Proof Using "Type".

(** ** Identifiers *)

(** Write permission, in an entry or in a request. *)
Definition writable (e : Z) : bool := Z.testbit e 1.

(** The permissions that the interface allows: [PTE_U] and [PTE_P] are set and no bit
    outside [PTE_SYSCALL] is. *)
Definition perm_ok (perm : Z) : Prop :=
  Z.land perm (Z.lor PTE_U PTE_P) = Z.lor PTE_U PTE_P ∧ Z.land perm PTE_SYSCALL = perm.

Lemma perm_ok_small perm : perm_ok perm → 0 ≤ perm < 4096.
Proof.
  intros [_ <-]. split; [apply Z.land_nonneg; by right|].
  assert (Z.land perm PTE_SYSCALL = Z.land perm PTE_SYSCALL mod 2 ^ 12) as ->; [|apply Z.mod_pos_bound; lia].
  rewrite <- Z.land_ones by lia. by rewrite <- Z.land_assoc.
Qed.

Lemma bad_va_true va : bad_va va = true → UTOP ≤ va ∨ va mod PGSIZE ≠ 0.
Proof.
  unfold bad_va. intros [H|H]%orb_true_iff; [right|left; zbool; done].
  by apply ctrue_true.
Qed.

(** Slot [i] is the environment [envid] names for the caller. *)
Definition names (s : kstate) (envid : Z) (checkperm : bool) (i : Z) : Prop :=
  (envid = 0 ∧ curenv s = Some i) ∨
  (envid ≠ 0 ∧ ∃ e, envs s !! i = Some e ∧ env_status e ≠ ENV_FREE ∧ env_id e = envid ∧
     (checkperm = true → curenv s = Some i ∨
        ∃ c ce, curenv s = Some c ∧ envs s !! c = Some ce ∧ env_parent_id e = env_id ce)).

(** The caller exists and is not free. *)
Definition caller_ok (s : kstate) : Prop :=
  ∃ c ce, curenv s = Some c ∧ envs s !! c = Some ce ∧ env_status ce ≠ ENV_FREE.

(** The page behind a user mapping may be mapped once more. *)
Lemma mapped_mappable D R fl m d i j e :
  mm_inv D R fl m → SPage d i j ∈ sites D → pte_of m d i j = Some e →
  (∀ pi, pages m !! (e / 4096) = Some pi → pp_ref pi < 2 ^ 16 - 1) →
  mappable D R fl m (e / 4096).
Proof.
  intros Hinv Hs He Hroom.
  assert (target m (SPage d i j) = Some (e / 4096)) as Ht by (by rewrite target_pte_of, He).
  pose proof (inv_target _ _ _ _ Hinv _ _ Hs Ht) as Hr.
  destruct (proj2 (inv_dom _ _ _ _ Hinv _) Hr) as [pi Hpi].
  pose proof (refs_pos D m _ _ Hs Ht) as Hpos. pose proof (inv_R _ _ _ _ Hinv (e / 4096)).
  split.
  - by exists pi.
  - intros Hf. destruct (inv_free _ _ _ _ Hinv _ Hf). lia.
  - intros (x & Hx & Hts & Hxt).
    pose proof (table_site_inj D R fl m Hinv x (SPage d i j) _ Hx Hs Hts Hxt Ht) as ->. done.
  - destruct (inv_ref _ _ _ _ Hinv _ pi Hpi) as [<- _]. by apply Hroom.
Qed.

Lemma zero_mappable D R fl m :
  mm_inv D R fl m → 1 ≤ R 0 →
  (∀ pi, pages m !! 0 = Some pi → pp_ref pi < 2 ^ 16 - 1) → mappable D R fl m 0.
Proof.
  intros Hinv HR Hroom.
  assert (0 ≤ 0 < npages m) as Hr by (pose proof (inv_np _ _ _ _ Hinv); lia).
  destruct (proj2 (inv_dom _ _ _ _ Hinv _) Hr) as [pi Hpi]. split.
  - by exists pi.
  - intros Hf. destruct (inv_free _ _ _ _ Hinv _ Hf). lia.
  - intros Ht. destruct (table_refs _ _ _ _ _ Hinv Ht). lia.
  - destruct (inv_ref _ _ _ _ Hinv _ pi Hpi) as [<- _]. by apply Hroom.
Qed.

Section syscalls.
Context (R : Z → Z).
Implicit Types (s : kstate) (fl efl : list Z).

Lemma names_slot fl efl s envid chk i :
  kinv R fl efl s → names s envid chk i → envid ≠ 0 → i = ENVX envid.
Proof.
  intros K [[? _]|(_ & e & He & Hst & Hid & _)] H0; [done|].
  destruct (ki_env _ _ _ _ K i e He) as [_ _ _ Hx]. destruct (Hx Hst) as [_ <-]. by rewrite Hid.
Qed.

Lemma names_live fl efl s envid chk i :
  kinv R fl efl s → caller_ok s → names s envid chk i →
  ∃ e d, envs s !! i = Some e ∧ env_status e ≠ ENV_FREE ∧ env_pgdir e = Some d ∧
    d ∈ dirs_of (envs s).
Proof.
  intros K (c & ce & Hc & Hce & Hst) Hn.
  assert (∃ e, envs s !! i = Some e ∧ env_status e ≠ ENV_FREE) as (e & He & Hse).
  { destruct Hn as [[_ Hi]|(_ & e & He & Hse & _)]; [|by exists e].
    exists ce. rewrite Hc in Hi. injection Hi as <-. done. }
  destruct (kinv_live_dir R fl efl s i e K He Hse) as (d & Hd & HdD).
  exists e, d. done.
Qed.

Lemma envid2env_eq s envid chk c ce e :
  curenv s = Some c → envs s !! c = Some ce → envs s !! ENVX envid = Some e →
  envid2env envid chk s =
    Ret (if envid =? 0 then inr (Some c) else
         if bool_decide (env_status e = ENV_FREE) || negb (env_id e =? envid)
         then inl (- E_BAD_ENV) else
         if chk && negb (bool_decide (Some c = Some (ENVX envid))) then
           if env_parent_id e =? env_id ce then inr (Some (ENVX envid)) else inl (- E_BAD_ENV)
         else inr (Some (ENVX envid))) s.
Proof.
  intros Hc Hce He. unfold envid2env, bind, gets, env_at. rewrite Hc.
  destruct (envid =? 0); [done|]. rewrite He. cbn [deref ret]. destruct (_ || _); [done|].
  destruct (_ && _); [|done]. cbn [deref ret]. rewrite Hce. cbn [deref ret].
  by destruct (_ =? _).
Qed.

Lemma envid2env_spec fl efl s envid chk :
  kinv R fl efl s → caller_ok s →
  (∃ i, names s envid chk i ∧ envid2env envid chk s = Ret (inr (Some i)) s) ∨
  ((∀ i, ¬ names s envid chk i) ∧ envid2env envid chk s = Ret (inl (- E_BAD_ENV)) s).
Proof.
  intros K (c & ce & Hc & Hce & Hst).
  assert (0 ≤ ENVX envid < NENV) as Hx by (rewrite ENVX_mod; change NENV with 1024; dlia).
  destruct (proj2 (ki_dom _ _ _ _ K _) Hx) as [e He].
  rewrite (envid2env_eq s envid chk c ce e) by done.
  destruct (Z.eqb_spec envid 0) as [->|H0].
  { left. exists c. split; [by left|done]. }
  assert (∀ i, names s envid chk i → i = ENVX envid) as Hslot
    by (intros i Hi; by eapply names_slot).
  case_bool_decide as Hf; cbn [orb].
  { right. split; [|done]. intros i Hi. pose proof (Hslot i Hi) as ->.
    destruct Hi as [[? _]|(_ & e' & He' & ? & _)]; [done|]. congruence. }
  destruct (Z.eqb_spec (env_id e) envid) as [Hid|Hid]; cbn [negb].
  2:{ right. split; [|done]. intros i Hi. pose proof (Hslot i Hi) as ->.
      destruct Hi as [[? _]|(_ & e' & He' & _ & ? & _)]; [done|]. congruence. }
  destruct chk; cbn [andb].
  2:{ left. exists (ENVX envid). split; [|done]. right. split; [done|]. by exists e. }
  case_bool_decide as Hcur; cbn [negb].
  { left. exists (ENVX envid). split; [|done]. right. split; [done|]. exists e.
    do 3 (split; [done|]). intros _. left. congruence. }
  destruct (Z.eqb_spec (env_parent_id e) (env_id ce)) as [Hp|Hp].
  - left. exists (ENVX envid). split; [|done]. right. split; [done|]. exists e.
    do 3 (split; [done|]). intros _. right. by exists c, ce.
  - right. split; [|done]. intros i Hi. pose proof (Hslot i Hi) as ->.
    destruct Hi as [[? _]|(_ & e' & He' & _ & _ & Hperm)]; [done|].
    destruct (Hperm eq_refl) as [?|(c' & ce' & ? & ? & ?)]; congruence.
Qed.

Lemma with_env_spec fl efl s envid chk :
  kinv R fl efl s → caller_ok s →
  (∃ i, names s envid chk i ∧ ∀ err k, with_env envid chk err k s = k i s) ∨
  ((∀ i, ¬ names s envid chk i) ∧
   ∀ err k, with_env envid chk err k s = Ret (default (- E_BAD_ENV) err) s).
Proof.
  intros K Hc. unfold with_env, bind.
  destruct (envid2env_spec fl efl s envid chk K Hc) as [(i & Hi & ->)|[Hn ->]].
  - left. by exists i.
  - right. done.
Qed.

(** ** Page operations on the kernel state *)
Lemma kinv_page_insert fl efl s d p va perm :
  kinv R fl efl s → d ∈ dirs_of (envs s) → is_u32 va → va < UTOP → 0 ≤ perm < 4096 →
  mappable (dirs_of (envs s)) R fl (mem s) p →
  (k_page_insert d (Some p) va perm s = Ret (- E_NO_MEM) s ∧ fl = [] ∧
     frame_of (rd (mem s) d (PDX va)) = None) ∨
  ∃ m' fl', k_page_insert d (Some p) va perm s = Ret 0 (set_mem m' s) ∧
    kinv R fl' efl (set_mem m' s) ∧
    inserted (dirs_of (envs s)) R fl (mem s) d p va perm m' fl'.
Proof.
  intros K Hd Hva Hut Hperm Hmp. unfold k_page_insert, bind, gets, on_mem, zoom.
  destruct (page_insert_spec (dirs_of (envs s)) R (cur_dir s) fl (mem s) d p va perm)
    as [(-> & Hfl & Hf)|(m' & fl' & -> & I)]; [apply K|done..| |].
  - left. split; [by destruct s|done].
  - right. exists m', fl'. split; [done|]. split; [|done].
    destruct (kern_not_table R fl efl s K) as [Hknt Hkfl].
    destruct (ins_static _ _ _ _ _ _ _ _ _ _ I) as (Hn & _ & _ & Hk & _).
    eapply kinv_mem; [exact K|apply I|done|done| |].
    + intros i. by apply (ins_data _ _ _ _ _ _ _ _ _ _ I).
    + intros d' i Hd' Hi. apply (ins_dirs _ _ _ _ _ _ _ _ _ _ I); [done|].
      intros [= _ ->]. apply PDX_lt_UTOP in Hut; [|done]. unfold NUSER in Hi. lia.
Qed.

Lemma kinv_page_remove fl efl s d va :
  kinv R fl efl s → d ∈ dirs_of (envs s) → is_u32 va → va < UTOP →
  ∃ m' fl', k_page_remove d va s = Ret tt (set_mem m' s) ∧ kinv R fl' efl (set_mem m' s) ∧
    removed (dirs_of (envs s)) R (cur_dir s) fl (mem s) d va m' fl'.
Proof.
  intros K Hd Hva Hut. unfold k_page_remove, bind, gets, on_mem, zoom.
  destruct (page_remove_spec (dirs_of (envs s)) R (cur_dir s) fl (mem s) d va)
    as (m' & fl' & -> & Rm); [apply K|done..|].
  exists m', fl'. split; [done|]. split; [|done].
  destruct (kern_not_table R fl efl s K) as [Hknt _].
  destruct (rm_static _ _ _ _ _ _ _ _ _ Rm) as (Hn & _ & _ & Hk & _).
  eapply kinv_mem; [exact K|apply Rm|done|done| |].
  - intros i. by apply (rm_data _ _ _ _ _ _ _ _ _ Rm); [apply not_elem_of_nil|].
  - intros d' i Hd' _. by apply (rm_dirs _ _ _ _ _ _ _ _ _ Rm).
Qed.

(** Taking a zeroed page: it is free of references and may be mapped. *)
Lemma kinv_page_alloc fl efl s p :
  kinv R (p :: fl) efl s →
  let m1 := alloc_st true p fl (mem s) in
  on_mem (page_alloc ALLOC_ZERO) s = Ret (Some p) (set_mem m1 s) ∧
  kinv R fl efl (set_mem m1 s) ∧ mappable (dirs_of (envs s)) R fl m1 p ∧
  pages m1 !! p = Some (MkPageInfo None 0).
Proof.
  intros K m1. pose proof (ki_mm _ _ _ _ K) as Hinv.
  assert (mm_inv (dirs_of (envs s)) R fl m1) as Hinv1 by (by apply alloc_st_inv).
  assert (pages m1 !! p = Some (MkPageInfo None 0)) as Hpi by (cbn; apply lookup_insert_eq).
  destruct (inv_ref _ _ _ _ Hinv1 p _ Hpi) as [Hr _]. cbn [pp_ref] in Hr.
  pose proof (refs_nonneg (dirs_of (envs s)) m1 p). pose proof (inv_R _ _ _ _ Hinv1 p).
  split; [unfold on_mem, zoom; by rewrite (page_alloc_eq _ R (p :: fl)) by done|].
  destruct (kern_not_table R _ efl s K) as [_ Hkfl].
  split; [|split; [|done]].
  - eapply kinv_mem; [exact K|done|done|done| |].
    + intros i. unfold m1. rewrite rd_alloc_st, decide_False; [done|].
      intros [_ ->]. apply Hkfl. left.
    + intros d i Hd _. unfold m1. rewrite rd_alloc_st, decide_False; [done|]. intros [_ ->].
      apply (free_not_table _ _ _ _ d Hinv); [left|by apply dir_is_table].
  - split; [by eexists| | |lia].
    + by apply NoDup_cons, (inv_nodup _ _ _ _ Hinv).
    + intros Ht. destruct (table_refs _ _ _ _ _ Hinv1 Ht). lia.
Qed.

(** Giving it back. *)
Lemma kinv_page_free fl efl s p :
  kinv R fl efl s → p ∉ fl → pages (mem s) !! p = Some (MkPageInfo None 0) →
  on_mem (page_free p) s = Ret tt (set_mem (free_st p (mem s)) s) ∧
  kinv R (p :: fl) efl (set_mem (free_st p (mem s)) s).
Proof.
  intros K Hp Hpi. split; [unfold on_mem, zoom; by erewrite page_free_eq by (done || exact [])|].
  eapply kinv_mem; [exact K| |done..]. eapply free_st_inv; [apply K|done|exact Hpi|done].
Qed.

Lemma land_W x : ctrue (Z.land x PTE_W) = writable x.
Proof.
  unfold writable, ctrue. destruct (Z.testbit x 1) eqn:E.
  - apply negb_true_iff, Z.eqb_neq. intros H. apply (f_equal (λ z, Z.testbit z 1)) in H.
    rewrite Z.land_spec, E in H. done.
  - apply negb_false_iff, Z.eqb_eq. apply Z.bits_inj'. intros n Hn.
    rewrite Z.land_spec, Z.bits_0. change PTE_W with (2 ^ 1).
    rewrite Z.pow2_bits_eqb by lia. destruct (Z.eqb_spec 1 n) as [<-|]; [by rewrite E|].
    apply andb_false_r.
Qed.

Lemma grants_write_eq w perm : grants_write w perm = negb (writable w) && writable perm.
Proof.
  unfold grants_write. rewrite !land_W. f_equal. unfold writable.
  by rewrite Z.lnot_spec by lia.
Qed.

(** A shared page: the entry's page, unless write permission would be added. *)
Lemma lookup_src_spec fl efl s i e d va perm :
  kinv R fl efl s → envs s !! i = Some e → env_pgdir e = Some d → d ∈ dirs_of (envs s) →
  is_u32 va → va < UTOP →
  ∃ o, lookup_src i va perm s = Ret o s ∧
    match o with
    | None => ∀ w, pte_of (mem s) d (PDX va) (PTX va) = Some w →
        writable perm = true ∧ writable w = false
    | Some p => ∃ w, pte_of (mem s) d (PDX va) (PTX va) = Some w ∧ p = w / 4096 ∧
        (writable perm = true → writable w = true)
    end.
Proof.
  intros K He Hd HdD Hva Hut. pose proof (ki_mm _ _ _ _ K) as Hinv.
  pose proof (user_sites (dirs_of (envs s)) d va HdD Hva Hut) as Hs.
  unfold lookup_src, bind at 1, pgdir_of, env_at, bind. rewrite He. cbn [deref ret]. rewrite Hd.
  cbn [deref ret]. unfold on_mem at 1, zoom.
  assert (set_mem (mem s) s = s) as Es by (by destruct s).
  destruct (frame_of (rd (mem s) d (PDX va))) as [t|] eqn:Ht.
  - rewrite (page_lookup_pte (dirs_of (envs s)) R fl (mem s) d va t) by done.
    pose proof (pte_of_tab (mem s) d (PDX va) (PTX va) t Ht) as Hpte.
    destruct (pte_of (mem s) d (PDX va) (PTX va)) as [w|] eqn:Hw.
    + assert (rd (mem s) t (PTX va) = w) as Hrd by (destruct (present _); congruence).
      cbn -[PTX PDX grants_write set_mem writable]. rewrite !Es. cbn [fst snd]. rewrite Hrd.
      destruct (grants_write w perm) eqn:Hg; rewrite grants_write_eq in Hg.
      * exists None. split; [done|]. intros ? [= <-].
        apply andb_prop in Hg as [?%negb_true_iff ?]. done.
      * exists (Some (w / 4096)). split; [done|]. exists w. split; [done|]. split; [done|].
        intros Hp. rewrite Hp, andb_true_r in Hg. by apply negb_false_iff.
    + cbn -[set_mem]. rewrite Es. by exists None.
  - rewrite page_lookup_eq; [rewrite Ht|congruence|unfold pte_of; rewrite Ht; done].
    rewrite Es. exists None. split; [done|]. unfold pte_of. by rewrite Ht.
Qed.

(** A page found that way may be mapped once more. *)
Lemma lookup_src_mappable fl efl s d va w :
  kinv R fl efl s → d ∈ dirs_of (envs s) → is_u32 va → va < UTOP →
  (∀ p pi, pages (mem s) !! p = Some pi → pp_ref pi < 2 ^ 16 - 1) →
  pte_of (mem s) d (PDX va) (PTX va) = Some w →
  mappable (dirs_of (envs s)) R fl (mem s) (w / 4096).
Proof.
  intros K Hd Hva Hut Hroom Hw.
  apply (mapped_mappable _ R fl (mem s) d (PDX va) (PTX va) w);
    [apply K|by apply user_sites|done|]. intros pi. apply Hroom.
Qed.
End syscalls.
