(* ===== verification/EnvProps.v ===== *)
(** * What the environment code guarantees

    Creation, lookup and destruction of environments, and the two places where
    an environment running on another processor is not protected. *)

From stdpp Require Import base gmap list strings.
From Stdlib Require Import ZArith Lia.
From S2P Require Import Prelude Mmu Pmap PmapInv PmapOps PmapDir PmapBoot PmapProps MemInit.
From S2P Require Import Env Sched EnvFree EnvInv EnvAlloc KDemo Syscall SyscallInv.

Set Default Proof Using "Type".

(** ** Creation *)

(** [env_alloc] fails without any change exactly when no slot
    ([-E_NO_FREE_ENV]) or no page ([-E_NO_MEM]) is free.  Otherwise it takes the
    first free slot: the new environment is runnable with an empty user address
    space and the kernel's mappings above [UTOP], its identifier is positive,
    names its slot and differs from the last one of the slot, all other
    environments, mappings and page contents are as before, and the kernel
    invariant holds. *)
Theorem env_alloc_correct R fl efl s parent :
  kinv R fl efl s →
  (efl = [] ∧ env_alloc parent s = Ret (inl (- E_NO_FREE_ENV)) s) ∨
  (efl ≠ [] ∧ fl = [] ∧ env_alloc parent s = Ret (inl (- E_NO_MEM)) s) ∨
  ∃ i en p fl' efl' s', env_alloc parent s = Ret (inr i) s' ∧
    efl = i :: efl' ∧ fl = p :: fl' ∧ kinv R fl' efl' s' ∧
    envs s !! i = Some en ∧ envs s' = <[i := new_env parent i p en]> (envs s) ∧
    empty_dir (mem s') p ∧ kern_half (mem s') p ∧
    (let id := next_env_id (env_id en) i in 0 < id ∧ ENVX id = i ∧ id ≠ env_id en) ∧
    (∀ d k j, SPage d k j ∈ sites (dirs_of (envs s)) →
       pte_of (mem s') d k j = pte_of (mem s) d k j) ∧
    (∀ f k, f ∉ fl → rd (mem s') f k = rd (mem s) f k).
Proof.
  intros K. destruct (env_alloc_spec R fl efl s parent K)
    as [H|[H|(i & s' & fl' & efl' & E & C)]]; [by left|by right; left|].
  do 2 right. destruct (ec_env _ _ _ _ _ _ _ _ _ C) as (en & p & He & Hfl & Hs & Hem & Hk & H1 & H2 & H3).
  exists i, en, p, fl', efl', s'. split; [done|]. split; [apply C|]. split; [done|].
  split; [apply C|]. do 4 (split; [done|]). split; [done|]. split; apply C.
Qed.

Lemma env_alloc_correct_witness :
  ∃ s' fl' efl', env_alloc 0 KDemo.boot = Ret (inr 0) s' ∧ kinv KDemo.R fl' efl' s'.
Proof.
  destruct (env_alloc_correct KDemo.R (31 :: 30 :: Demo.rest) (seqZ 0 1024) KDemo.boot 0)
    as [[H _]|[(_ & H & _)|(i & en & p & fl' & efl' & s' & E & He & _ & K & _)]].
  - exact KDemo.boot_inv.
  - discriminate H.
  - discriminate H.
  - rewrite seqZ_cons in He by lia. injection He as <- _. exists s', fl', efl'.
    split; [exact E|exact K].
Defined.

(** ** Lookup *)

(** [envid2env] returns the calling environment for 0; any other identifier
    yields the one environment that is alive and has that identifier, provided the
    caller is that environment or its parent when [checkperm] is set, and
    [-E_BAD_ENV] when there is none; it changes nothing. *)
Theorem envid2env_correct R fl efl s envid chk :
  kinv R fl efl s → caller_ok s →
  (∀ i j, names s envid chk i → names s envid chk j → i = j) ∧
  ((∃ i, names s envid chk i ∧ envid2env envid chk s = Ret (inr (Some i)) s) ∨
   ((∀ i, ¬ names s envid chk i) ∧ envid2env envid chk s = Ret (inl (- E_BAD_ENV)) s)).
Proof.
  intros K Hc. split; [|by eapply envid2env_spec]. intros i j Hi Hj.
  destruct (decide (envid = 0)) as [->|H0].
  - destruct Hi as [[_ Hi]|[? _]]; [|done]. destruct Hj as [[_ Hj]|[? _]]; [|done]. congruence.
  - rewrite (names_slot R fl efl s envid chk i), (names_slot R fl efl s envid chk j); done.
Qed.

Lemma KDemo_caller_ok : caller_ok KDemo.one.
Proof.
  exists 0, KDemo.env0. split; [exact KDemo.one_cur|].
  rewrite KDemo.one_lookup. split; [done|discriminate].
Qed.

Lemma envid2env_correct_witness :
  envid2env 0x1001 true KDemo.one = Ret (inl (- E_BAD_ENV)) KDemo.one.
Proof.
  destruct (envid2env_correct KDemo.R (30 :: Demo.rest) (seqZ 1 1023) KDemo.one 0x1001 true
              KDemo.one_inv KDemo_caller_ok) as [_ [(i & Hi & _)|[_ H]]]; [|exact H].
  destruct Hi as [[H _]|(_ & e & He & Hst & Hid & _)]; [discriminate H|].
  rewrite KDemo.one_lookup in He. destruct (decide (i = 0)).
  - injection He as <-. vm_compute in Hid. discriminate Hid.
  - rewrite KDemo.free_envs_lookup in He. destruct (decide (0 ≤ i < 1024)); [|discriminate He].
    injection He as <-. destruct Hst. reflexivity.
Defined.

(** ** Destruction *)

(** C7. [env_free] of an environment that is not free always completes, with the
    kernel invariant intact: the slot goes to the front of the free list, its
    directory and every page and table only it referred to are free again (no page
    is lost), and the mappings of all other environments and the contents of all
    pages that are not page tables are as before. *)
Theorem env_free_correct R fl efl s e en :
  kinv R fl efl s → envs s !! e = Some en → env_status en ≠ ENV_FREE →
  ∃ s' fl', env_free e s = Ret tt s' ∧ kinv R fl' (e :: efl) s' ∧
    envs s' = <[e := freed_env (env_free_list s) en]> (envs s) ∧
    (∀ d, env_pgdir en = Some d → d ∈ fl') ∧ (∀ p, p ∈ fl → p ∈ fl') ∧
    (∀ p, leaked fl' (mem s') p → leaked fl (mem s) p) ∧
    (∀ d i j, SPage d i j ∈ sites (dirs_of (envs s')) →
       pte_of (mem s') d i j = pte_of (mem s) d i j) ∧
    (∀ f i, ¬ is_table (dirs_of (envs s)) (mem s) f → rd (mem s') f i = rd (mem s) f i).
Proof.
  intros K He Hst. destruct (env_free_spec R fl efl s e en K He Hst) as (s' & fl' & E & []).
  exists s', fl'. done.
Qed.

Lemma env_free_correct_witness :
  ∃ s' fl', env_free 0 KDemo.one = Ret tt s' ∧ kinv KDemo.R fl' (0 :: seqZ 1 1023) s'.
Proof.
  destruct (env_free_correct KDemo.R (30 :: Demo.rest) (seqZ 1 1023) KDemo.one 0 KDemo.env0)
    as (s' & fl' & E & K & _).
  - exact KDemo.one_inv.
  - rewrite KDemo.one_lookup. reflexivity.
  - discriminate.
  - exists s', fl'. split; [exact E|exact K].
Defined.

(** ** Environments running on another processor *)

(** Another processor has environment [e] as its current one. *)
Definition runs_elsewhere (s : kstate) (e : Z) : Prop :=
  ∃ k st, k ≠ this s ∧ cpus s !! k = Some (MkCpu st (Some e)).

(** [env_destroy] only marks an environment that runs on another processor;
    but the mark is not checked: a second [env_destroy] of the same environment,
    now [ENV_DYING], takes its address space apart and puts the slot and the
    directory on the free lists while the other processor still runs it. *)
Theorem env_destroy_twice R fl efl s e en :
  kinv R fl efl s → envs s !! e = Some en → env_status en = ENV_RUNNING →
  curenv s ≠ Some e → runs_elsewhere s e →
  ∃ s1 s2 fl2, env_destroy e s = Ret tt s1 ∧
    envs s1 = <[e := set_env_status ENV_DYING en]> (envs s) ∧
    env_destroy e s1 = Ret tt s2 ∧ kinv R fl2 (e :: efl) s2 ∧
    runs_elsewhere s2 e ∧ ∀ d, env_pgdir en = Some d → d ∈ fl2.
Proof.
  intros K He Hst Hne (k & st & Hk & Hcpu).
  set (s1 := set_envs (<[e := set_env_status ENV_DYING en]> (envs s)) s).
  assert (kinv R fl efl s1) as K1.
  { eapply kinv_env; [exact K|exact He|done..|]. rewrite Hst. split; intros [=]. }
  assert (envs s1 !! e = Some (set_env_status ENV_DYING en)) as He1 by apply lookup_insert_eq.
  assert (curenv s1 ≠ Some e) as Hne1 by done.
  destruct (env_free_spec R fl efl s1 e _ K1 He1) as (s2 & fl2 & E2 & F); [discriminate|].
  exists s1, s2, fl2. split; [|split; [done|split; [|split; [apply F|split]]]].
  - unfold env_destroy, bind, gets, env_at. rewrite He. cbn [deref ret].
    rewrite bool_decide_eq_true_2, bool_decide_eq_false_2 by done. cbn [andb negb].
    by apply upd_env_eq.
  - unfold env_destroy, bind, gets, env_at. rewrite He1. cbn [deref ret].
    rewrite (bool_decide_eq_false_2 (env_status _ = ENV_RUNNING)) by discriminate. cbn [andb].
    rewrite E2. by rewrite bool_decide_eq_false_2.
  - destruct (ef_cpus _ _ _ _ _ _ _ _ F) as (Hc & Ht & _). exists k, st.
    rewrite Hc, Ht. done.
  - intros d Hd. by apply (ef_dir _ _ _ _ _ _ _ _ F).
Qed.

(** Environment 0 runs on processor 0; this processor, 1, is idle. *)
Definition two_cpus : kstate :=
  MkK (mem KDemo.one) (envs KDemo.one) (env_free_list KDemo.one)
    {[ 0 := MkCpu CPU_STARTED (Some 0); 1 := MkCpu CPU_STARTED None ]} 1 true [] 0.

Lemma env_destroy_twice_witness :
  ∃ s1 s2, env_destroy 0 two_cpus = Ret tt s1 ∧ env_destroy 0 s1 = Ret tt s2 ∧
    runs_elsewhere s2 0.
Proof.
  destruct (env_destroy_twice KDemo.R (30 :: Demo.rest) (seqZ 1 1023) two_cpus 0 KDemo.env0)
    as (s1 & s2 & fl2 & E1 & _ & E2 & _ & Hr & _).
  - eapply kinv_ext; [exact KDemo.one_inv|reflexivity..|]. intros c H. discriminate H.
  - exact (KDemo.one_lookup 0).
  - reflexivity.
  - intros H. discriminate H.
  - exists 0, CPU_STARTED. split; [discriminate|reflexivity].
  - exists s1, s2. split; [exact E1|]. split; [exact E2|exact Hr].
Defined.

(** [sys_env_set_status] does not look at the present status: a child that
    runs on another processor becomes [ENV_RUNNABLE] while it is running there,
    and so may be chosen by [sched_yield] a second time. *)
Theorem sys_env_set_status_running R fl efl s envid i en :
  kinv R fl efl s → caller_ok s → names s envid true i → envs s !! i = Some en →
  env_status en = ENV_RUNNING → runs_elsewhere s i →
  ∃ s', sys_env_set_status envid 2 s = Ret 0 s' ∧
    envs s' = <[i := set_env_status ENV_RUNNABLE en]> (envs s) ∧
    runnable (envs s') i ∧ runs_elsewhere s' i.
Proof.
  intros K Hc Hi He Hst (k & st & Hk & Hcpu). unfold sys_env_set_status. cbn [status_arg].
  destruct (with_env_spec R fl efl s envid true K Hc) as [(j & Hj & E)|[Hn _]];
    [|by destruct (Hn i)].
  assert (j = i) as ->.
  { destruct (decide (envid = 0)) as [->|H0].
    - destruct Hi as [[_ Hi]|[? _]]; [|done]. destruct Hj as [[_ Hj]|[? _]]; [|done]. congruence.
    - by rewrite (names_slot R fl efl s envid true i), (names_slot R fl efl s envid true j). }
  exists (set_envs (<[i := set_env_status ENV_RUNNABLE en]> (envs s)) s). split.
  - unfold status_arg. cbn -[with_env]. rewrite E. unfold bind. by rewrite (upd_env_eq i _ s en).
  - split; [done|]. split; [|by exists k, st]. eexists. cbn. by rewrite lookup_insert_eq.
Qed.

Lemma sys_env_set_status_running_witness :
  ∃ s', sys_env_set_status 4097 2 KDemo.two = Ret 0 s' ∧ runnable (envs s') 1 ∧
    runs_elsewhere s' 1.
Proof.
  destruct KDemo.two_lookup as [H0 H1].
  destruct (sys_env_set_status_running KDemo.R Demo.rest (seqZ 2 1022) KDemo.two 4097 1 KDemo.env1)
    as (s' & E & _ & Hr & He).
  - exact KDemo.two_inv.
  - exists 0, KDemo.env0. split; [exact (KDemo.run1_cur _)|]. split; [exact H0|discriminate].
  - right. split; [discriminate|]. exists KDemo.env1. split; [exact H1|].
    split; [discriminate|]. split; [reflexivity|]. intros _. right. exists 0, KDemo.env0.
    split; [exact (KDemo.run1_cur _)|]. split; [exact H0|reflexivity].
  - exact H1.
  - reflexivity.
  - exists 1, CPU_STARTED. split; [discriminate|reflexivity].
  - exists s'. split; [exact E|]. split; [exact Hr|exact He].
Defined.
