(* ===== verification/SyscallProps.v ===== *)
(** * What the system calls guarantee

    For every caller and every argument the memory and process calls return with
    the kernel invariant intact; the properties spell out the result codes and
    the effect of each call, and the cases its checks miss. *)

From stdpp Require Import base gmap list strings.
From Stdlib Require Import ZArith Lia.
From S2P Require Import Prelude Mmu Pmap PmapInv PmapOps PmapDir PmapBoot PmapProps MemInit.
From S2P Require Import Env Sched EnvFree EnvInv EnvAlloc KDemo Syscall SyscallInv.

Set Default Proof Using "Type".

Lemma bad_va_false va : bad_va va = false → va < UTOP.
Proof. unfold bad_va. intros [_ H]%orb_false_iff. zbool. done. Qed.

Lemma perm_user perm : 0 ≤ perm < 4096 → 0 ≤ Z.lor perm PTE_U < 4096.
Proof. intros. apply (lor_small _ _ 12); unfold PTE_U; lia. Qed.

(** ** [sys_page_alloc] *)

(** What a successful call leaves behind. *)
Record page_alloced (s : kstate) (fl : list Z) (envid va perm : Z) (s' : kstate) : Prop :=
  MkPageAlloced {
  pal_envs : envs s' = envs s ∧ cpus s' = cpus s;
  pal_map : ∃ i e d p, names s envid true i ∧ envs s !! i = Some e ∧ env_pgdir e = Some d ∧
    head fl = Some p ∧
    pte_upd (dirs_of (envs s)) (mem s) (mem s') d (PDX va) (PTX va)
      (Some (mk_pte p (Z.lor perm PTE_U))) ∧
    ∀ k, rd (mem s') p k = 0;
  pal_data : data_same (dirs_of (envs s)) fl (mem s) (mem s')
}.

(** The handler once the environment is found and the address accepted. *)
Lemma sys_page_alloc_body R p fl efl s i e d envid va perm :
  kinv R (p :: fl) efl s → names s envid true i → envs s !! i = Some e →
  env_pgdir e = Some d → d ∈ dirs_of (envs s) → is_u32 va → va < UTOP → 0 ≤ perm < 4096 →
  let m1 := alloc_st true p fl (mem s) in
  (∃ s', (let* d := pgdir_of i in
          let* r := k_page_insert d (Some p) va (Z.lor perm PTE_U) in
          if r <? 0 then do* on_mem (page_free p) in ret r else ret 0) (set_mem m1 s) = Ret 0 s' ∧
     ∃ fl', kinv R fl' efl s' ∧ page_alloced s (p :: fl) envid va perm s') ∨
  (fl = [] ∧
   (let* d := pgdir_of i in
    let* r := k_page_insert d (Some p) va (Z.lor perm PTE_U) in
    if r <? 0 then do* on_mem (page_free p) in ret r else ret 0) (set_mem m1 s) =
     Ret (- E_NO_MEM) (set_mem (free_st p m1) (set_mem m1 s)) ∧
   kinv R [p] efl (set_mem (free_st p m1) (set_mem m1 s))).
Proof.
  intros K Hn He Hd HdD Hva Hut Hperm m1.
  destruct (kinv_page_alloc R fl efl s p K) as (_ & K1 & Hmp & Hpi). fold m1 in K1, Hmp, Hpi.
  assert (pgdir_of i (set_mem m1 s) = Ret d (set_mem m1 s)) as Hpd.
  { unfold pgdir_of, bind, env_at. cbn [envs set_mem]. rewrite He. cbn. by rewrite Hd. }
  pose proof (ki_mm _ _ _ _ K) as Hinv.
  assert (∀ f, is_table (dirs_of (envs s)) (mem s) f → f ≠ p) as Hfp
    by (intros f Hf ->; by apply (free_not_table _ _ _ _ p Hinv) in Hf; [|left]).
  assert (∀ f k, f ≠ p → rd m1 f k = rd (mem s) f k) as Hrd1.
  { intros f k Hf. unfold m1. by rewrite rd_alloc_st, decide_False by (intros [_ ->]; done). }
  destruct (kinv_page_insert R fl efl (set_mem m1 s) d p va (Z.lor perm PTE_U) K1)
    as [(E & Hfl & _)|(m' & fl' & E & K' & I)]; [done..|by apply perm_user|done| |].
  - right. split; [done|]. subst fl.
    destruct (kinv_page_free R [] efl (set_mem m1 s) p K1) as [Ef Kf];
      [by apply not_elem_of_nil|done|].
    split; [|exact Kf]. unfold bind at 1. rewrite Hpd. unfold bind at 1. rewrite E.
    change (- E_NO_MEM <? 0) with true. cbn match. unfold bind. by rewrite Ef.
  - left. exists (set_mem m' (set_mem m1 s)). split.
    { unfold bind. by rewrite Hpd, E. }
    exists fl'. split; [exact K'|]. cbn [envs mem set_mem] in *. split; [done| |].
    + exists i, e, d, p. do 4 (split; [done|]). split.
      * eapply pte_same_upd; [|apply I]. apply pte_same_tables. intros f Hf k. apply Hrd1. auto.
      * intros k. cbn [mem set_mem]. rewrite (ins_data _ _ _ _ _ _ _ _ _ _ I); [|apply Hmp..].
        unfold m1. rewrite rd_alloc_st. by rewrite decide_True.
    + intros f k Hf Hnt. apply not_elem_of_cons in Hf as [Hne Hf]. cbn [mem set_mem].
      rewrite (ins_data _ _ _ _ _ _ _ _ _ _ I); [by apply Hrd1|done|].
      intros (x & Hx & Hts & Htx). apply Hnt. exists x. split; [done|]. split; [done|].
      rewrite <- Htx. symmetry. by eapply alloc_target.
Qed.

(** [sys_page_alloc], for any caller, any environment identifier, any
    address and any permission bits below 4096, returns with the kernel invariant
    intact: [-E_BAD_ENV] when the identifier names no environment the caller may
    change, [-E_INVAL] for an address above [UTOP] or unaligned, [-E_NO_MEM] when
    the page or its table cannot be had (no mapping changes and the page is given
    back); otherwise 0, and exactly the entry of [va] in that environment now
    refers to a page that was free and is all zeros. *)
Theorem sys_page_alloc_correct R fl efl s envid va perm :
  kinv R fl efl s → caller_ok s → is_u32 va → 0 ≤ perm < 4096 →
  ∃ r s' fl', sys_page_alloc envid va perm s = Ret r s' ∧ kinv R fl' efl s' ∧
    ((r = - E_BAD_ENV ∧ s' = s ∧ ∀ i, ¬ names s envid true i) ∨
     (r = - E_INVAL ∧ s' = s ∧ (UTOP ≤ va ∨ va mod PGSIZE ≠ 0)) ∨
     (r = - E_NO_MEM ∧ fl' = fl ∧ (length fl ≤ 1)%nat ∧ envs s' = envs s ∧
        pte_same (dirs_of (envs s)) (mem s) (mem s')) ∨
     (r = 0 ∧ page_alloced s fl envid va perm s')).
Proof.
  intros K Hc Hva Hperm. unfold sys_page_alloc.
  destruct (with_env_spec R fl efl s envid true K Hc) as [(i & Hi & ->)|[Hn ->]].
  2:{ exists (- E_BAD_ENV), s, fl. split; [done|]. split; [done|]. by left. }
  destruct (bad_va va) eqn:Hb.
  { exists (- E_INVAL), s, fl. split; [done|]. split; [done|]. right. left.
    split; [done|]. split; [done|]. by apply bad_va_true. }
  apply bad_va_false in Hb. destruct fl as [|p fl].
  { exists (- E_NO_MEM), s, []. unfold bind, on_mem, zoom.
    rewrite (page_alloc_eq _ R []) by apply K. split; [by destruct s|]. split; [done|].
    right. right. left. repeat split; (done || cbn; lia). }
  destruct (names_live R _ efl s envid true i K Hc Hi) as (e & d & He & _ & Hd & HdD).
  destruct (kinv_page_alloc R fl efl s p K) as (E1 & _).
  destruct (sys_page_alloc_body R p fl efl s i e d envid va perm)
    as [(s' & E & fl' & K' & P)|(-> & E & K')]; [done..| |].
  - exists 0, s', fl'. unfold bind at 1. rewrite E1. split; [exact E|]. split; [done|]. auto.
  - eexists (- E_NO_MEM), _, [p]. unfold bind at 1. rewrite E1. split; [exact E|].
    split; [exact K'|]. right. right. left. repeat split; try done.
    apply pte_same_tables. intros f Hf k.
    change (rd (alloc_st true p [] (mem s)) f k = rd (mem s) f k).
    rewrite rd_alloc_st, decide_False; [done|]. intros [_ ->].
    by apply (free_not_table _ _ _ _ f (ki_mm _ _ _ _ K)) in Hf; [|left].
Qed.

Lemma KDemo_caller : caller_ok KDemo.one.
Proof.
  exists 0, KDemo.env0. split; [exact KDemo.one_cur|].
  rewrite KDemo.one_lookup. split; [done|discriminate].
Qed.

Lemma KDemo_names : names KDemo.one 0 true 0.
Proof. left. split; [reflexivity|exact KDemo.one_cur]. Qed.

Lemma sys_page_alloc_correct_witness :
  ∃ s' fl', sys_page_alloc 0 0x800000 7 KDemo.one = Ret 0 s' ∧
    kinv KDemo.R fl' (seqZ 1 1023) s'.
Proof.
  destruct (sys_page_alloc_correct KDemo.R (30 :: Demo.rest) (seqZ 1 1023) KDemo.one 0 0x800000 7)
    as (r & s' & fl' & E & K & [(_ & _ & H)|[(_ & _ & H)|[(_ & _ & H & _)|(-> & _)]]]).
  - exact KDemo.one_inv.
  - exact KDemo_caller.
  - split; lia.
  - lia.
  - destruct (H 0 KDemo_names).
  - vm_compute in H. destruct H as [H|H]; destruct H; reflexivity.
  - vm_compute in H. lia.
  - exists s', fl'. split; [exact E|exact K].
Defined.

(** ** [sys_page_map] *)

(** The page the source address refers to: the zero page for address 0. *)
Definition source_page (s : kstate) (sd src perm p : Z) : Prop :=
  (src = 0 ∧ p = 0 ∧ writable perm = false) ∨
  (src ≠ 0 ∧ ∃ e, pte_of (mem s) sd (PDX src) (PTX src) = Some e ∧ p = e / 4096 ∧
     (writable perm = true → writable e = true)).

(** The lookup half of the handler: [None] stands for [-E_INVAL]. *)
Lemma source_lookup R fl efl s si e sd src perm :
  kinv R fl efl s → envs s !! si = Some e → env_pgdir e = Some sd → sd ∈ dirs_of (envs s) →
  is_u32 src → src < UTOP →
  ∃ o, (if src =? 0 then
          if ctrue (Z.land perm PTE_W) then ret None else ret (Some 0)
        else lookup_src si src perm) s = Ret o s ∧
    match o with
    | None => ∀ p, ¬ source_page s sd src perm p
    | Some p => source_page s sd src perm p
    end.
Proof.
  intros K He Hd HdD Hsrc Hut. destruct (Z.eqb_spec src 0) as [->|H0].
  { rewrite land_W. destruct (writable perm) eqn:Hw.
    - exists None. split; [done|]. intros p [(_ & _ & ?)|[? _]]; congruence.
    - exists (Some 0). split; [done|]. by left. }
  destruct (lookup_src_spec R fl efl s si e sd src perm) as (o & -> & Ho); [done..|].
  exists o. split; [done|]. destruct o as [p|].
  - destruct Ho as (w & ?). right. split; [done|]. by exists w.
  - intros p [[? _]|(_ & w & Hw & _ & Hg)]; [done|].
    destruct (Ho w Hw) as [? ?]. rewrite Hg in *; done.
Qed.

(** What a successful mapping leaves behind. *)
Record page_mapped (s : kstate) (fl : list Z) (src_id src dst_id dst perm : Z) (s' : kstate)
    : Prop := MkPageMapped {
  pmap_envs : envs s' = envs s ∧ cpus s' = cpus s;
  pmap_map : ∃ si se sd di de dd p,
    names s src_id true si ∧ envs s !! si = Some se ∧ env_pgdir se = Some sd ∧
    names s dst_id true di ∧ envs s !! di = Some de ∧ env_pgdir de = Some dd ∧
    source_page s sd src perm p ∧
    pte_upd (dirs_of (envs s)) (mem s) (mem s') dd (PDX dst) (PTX dst)
      (Some (mk_pte p (Z.lor perm PTE_U)));
  pmap_data : data_same (dirs_of (envs s)) fl (mem s) (mem s')
}.

(** [sys_page_map] whatever the permission bits are: the code does not look at them. *)
Lemma sys_page_map_any_perm R fl efl s src_id src dst_id dst perm :
  kinv R fl efl s → caller_ok s → is_u32 src → is_u32 dst → 0 ≤ perm < 4096 → 1 ≤ R 0 →
  (∀ p pi, pages (mem s) !! p = Some pi → pp_ref pi < 2 ^ 16 - 1) →
  ∃ r s' fl', sys_page_map src_id src dst_id dst perm s = Ret r s' ∧ kinv R fl' efl s' ∧
    ((r = - E_INVAL ∧ s' = s ∧
        (UTOP ≤ src ∨ src mod PGSIZE ≠ 0 ∨ UTOP ≤ dst ∨ dst mod PGSIZE ≠ 0 ∨
         ∃ si se sd, names s src_id true si ∧ envs s !! si = Some se ∧
           env_pgdir se = Some sd ∧ ∀ p, ¬ source_page s sd src perm p)) ∨
     (r = - E_BAD_ENV ∧ s' = s ∧
        ((∀ i, ¬ names s src_id true i) ∨ (∀ i, ¬ names s dst_id true i))) ∨
     (r = - E_NO_MEM ∧ s' = s ∧ fl = []) ∨
     (r = 0 ∧ page_mapped s fl src_id src dst_id dst perm s')).
Proof.
  intros K Hc Hsrc Hdst Hperm HR Hroom. unfold sys_page_map.
  destruct (bad_va src) eqn:Hbs.
  { exists (- E_INVAL), s, fl. split; [done|]. split; [done|]. left. split; [done|].
    split; [done|]. apply bad_va_true in Hbs. tauto. }
  destruct (bad_va dst) eqn:Hbd.
  { exists (- E_INVAL), s, fl. split; [done|]. split; [done|]. left. split; [done|].
    split; [done|]. apply bad_va_true in Hbd. tauto. }
  apply bad_va_false in Hbs, Hbd.
  destruct (with_env_spec R fl efl s src_id true K Hc) as [(si & Hsi & ->)|[Hn ->]].
  2:{ exists (- E_BAD_ENV), s, fl. split; [done|]. split; [done|]. right. left. auto. }
  destruct (with_env_spec R fl efl s dst_id true K Hc) as [(di & Hdi & ->)|[Hn ->]].
  2:{ exists (- E_BAD_ENV), s, fl. split; [done|]. split; [done|]. right. left. auto. }
  destruct (names_live R _ efl s _ true si K Hc Hsi) as (se & sd & Hse & _ & Hsd & HsdD).
  destruct (names_live R _ efl s _ true di K Hc Hdi) as (de & dd & Hde & _ & Hdd & HddD).
  destruct (source_lookup R fl efl s si se sd src perm) as (o & E & Ho); [done..|].
  unfold bind at 1. rewrite E. clear E. destruct o as [p|].
  2:{ exists (- E_INVAL), s, fl. split; [done|]. split; [done|]. left. split; [done|].
      split; [done|]. do 4 right. by exists si, se, sd. }
  pose proof (ki_mm _ _ _ _ K) as Hinv.
  assert (mappable (dirs_of (envs s)) R fl (mem s) p) as Hmp.
  { destruct Ho as [(_ & -> & _)|(_ & e & He & -> & _)].
    - apply zero_mappable; [done..|]. intros pi. apply Hroom.
    - apply (mapped_mappable _ R fl (mem s) sd (PDX src) (PTX src) e);
        [done|by apply user_sites|done|]. intros pi. apply Hroom. }
  unfold bind at 1, pgdir_of, env_at, bind at 1. rewrite Hde. cbn [deref ret].
  rewrite Hdd. cbn [deref ret].
  destruct (kinv_page_insert R fl efl s dd p dst (Z.lor perm PTE_U) K)
    as [(E & Hfl & _)|(m' & fl' & E & K' & I)]; [done..|by apply perm_user|done| |];
    unfold bind; rewrite E.
  - exists (- E_NO_MEM), s, fl. split; [done|]. split; [done|]. right. right. by left.
  - exists 0, (set_mem m' s), fl'. split; [done|]. split; [done|]. do 3 right. split; [done|].
    split; [done| |apply I].
    exists si, se, sd, di, de, dd, p. do 7 (split; [done|]). apply I.
Qed.

Lemma KDemo_room p pi : pages (mem KDemo.one) !! p = Some pi → pp_ref pi < 2 ^ 16 - 1.
Proof.
  intros Hpi. pose proof (ki_mm _ _ _ _ KDemo.one_inv) as Hinv.
  assert (0 ≤ p < 32) as Hp.
  { assert (is_Some (pages (mem KDemo.one) !! p)) as H by (by eexists).
    apply (inv_dom _ _ _ _ Hinv) in H. rewrite KDemo.one_npages in H. done. }
  revert p pi Hp Hpi. apply KDemo.one_counts.
Qed.

(** C2. Let any caller map a page with a permission that the interface allows
    ([perm_ok]: [PTE_U] and [PTE_P] set, no bit outside [PTE_SYSCALL]), while no
    page is referenced 65535 times.  Then [sys_page_map] returns with the kernel
    invariant intact.  It fails without any change for bad addresses or
    identifiers, for an unmapped source, for write permission on a read-only
    source, and when no page table can be had; otherwise exactly the destination
    entry changes, to the page of the source with the permissions asked for.  The
    source address 0 stands for the zero page, which is read-only. *)
Theorem sys_page_map_correct R fl efl s src_id src dst_id dst perm :
  kinv R fl efl s → caller_ok s → is_u32 src → is_u32 dst → perm_ok perm → 1 ≤ R 0 →
  (∀ p pi, pages (mem s) !! p = Some pi → pp_ref pi < 2 ^ 16 - 1) →
  ∃ r s' fl', sys_page_map src_id src dst_id dst perm s = Ret r s' ∧ kinv R fl' efl s' ∧
    ((r = - E_INVAL ∧ s' = s ∧
        (UTOP ≤ src ∨ src mod PGSIZE ≠ 0 ∨ UTOP ≤ dst ∨ dst mod PGSIZE ≠ 0 ∨
         ∃ si se sd, names s src_id true si ∧ envs s !! si = Some se ∧
           env_pgdir se = Some sd ∧ ∀ p, ¬ source_page s sd src perm p)) ∨
     (r = - E_BAD_ENV ∧ s' = s ∧
        ((∀ i, ¬ names s src_id true i) ∨ (∀ i, ¬ names s dst_id true i))) ∨
     (r = - E_NO_MEM ∧ s' = s ∧ fl = []) ∨
     (r = 0 ∧ page_mapped s fl src_id src dst_id dst perm s')).
Proof. intros K Hc Hsrc Hdst Hperm. apply sys_page_map_any_perm; [done..|by apply perm_ok_small]. Qed.

Lemma sys_page_map_correct_witness :
  ∃ s' fl', sys_page_map 0 0 0 0x800000 5 KDemo.one = Ret 0 s' ∧
    kinv KDemo.R fl' (seqZ 1 1023) s'.
Proof.
  destruct (sys_page_map_correct KDemo.R (30 :: Demo.rest) (seqZ 1 1023) KDemo.one 0 0 0 0x800000 5)
    as (r & s' & fl' & E & K & H).
  - exact KDemo.one_inv.
  - exact KDemo_caller.
  - split; lia.
  - split; lia.
  - split; reflexivity.
  - vm_compute. discriminate.
  - exact KDemo_room.
  - destruct H as [(_ & _ & H)|[(_ & _ & [H|H])|[(_ & _ & H)|(-> & _)]]].
    + destruct H as [H|[H|[H|[H|(si & se & sd & _ & _ & _ & H)]]]];
        try (vm_compute in H; destruct H; reflexivity).
      destruct (H 0). left. split; [reflexivity|]. split; reflexivity.
    + destruct (H 0 KDemo_names).
    + destruct (H 0 KDemo_names).
    + discriminate H.
    + exists s', fl'. split; [exact E|exact K].
Defined.

(** ** [sys_page_unmap] *)

(** [sys_page_unmap], for any caller and arguments, returns with the kernel
    invariant intact: [-E_BAD_ENV] or [-E_INVAL] without any change, or 0, after
    which nothing is mapped at [va] in that environment, every other mapping of
    every environment is as before, and the page is free again when that was its
    last reference. *)
Theorem sys_page_unmap_correct R fl efl s envid va :
  kinv R fl efl s → caller_ok s → is_u32 va →
  ∃ r s' fl', sys_page_unmap envid va s = Ret r s' ∧ kinv R fl' efl s' ∧
    ((r = - E_BAD_ENV ∧ s' = s ∧ ∀ i, ¬ names s envid true i) ∨
     (r = - E_INVAL ∧ s' = s ∧ (UTOP ≤ va ∨ va mod PGSIZE ≠ 0)) ∨
     (r = 0 ∧ envs s' = envs s ∧ ∃ i e d, names s envid true i ∧ envs s !! i = Some e ∧
        env_pgdir e = Some d ∧
        pte_upd (dirs_of (envs s)) (mem s) (mem s') d (PDX va) (PTX va) None ∧
        data_same (dirs_of (envs s)) [] (mem s) (mem s') ∧
        ∀ w, pte_of (mem s) d (PDX va) (PTX va) = Some w →
          refs (dirs_of (envs s)) (mem s) (w / 4096) + R (w / 4096) = 1 →
          fl' = w / 4096 :: fl)).
Proof.
  intros K Hc Hva. unfold sys_page_unmap.
  destruct (with_env_spec R fl efl s envid true K Hc) as [(i & Hi & ->)|[Hn ->]].
  2:{ exists (- E_BAD_ENV), s, fl. split; [done|]. split; [done|]. by left. }
  destruct (bad_va va) eqn:Hb.
  { exists (- E_INVAL), s, fl. split; [done|]. split; [done|]. right. left.
    split; [done|]. split; [done|]. by apply bad_va_true. }
  apply bad_va_false in Hb.
  destruct (names_live R _ efl s envid true i K Hc Hi) as (e & d & He & _ & Hd & HdD).
  destruct (kinv_page_remove R fl efl s d va K) as (m' & fl' & E & K' & Rm); [done..|].
  exists 0, (set_mem m' s), fl'. split.
  { unfold bind at 1, pgdir_of, env_at, bind at 1. rewrite He. cbn [deref ret]. rewrite Hd.
    cbn [deref ret]. unfold bind. by rewrite E. }
  split; [done|]. right. right. split; [done|]. split; [done|].
  exists i, e, d. do 3 (split; [done|]). split; [apply Rm|]. split; [apply Rm|].
  intros w Hw H1. rewrite (rm_fl _ _ _ _ _ _ _ _ _ Rm), Hw. by rewrite decide_True.
Qed.

Lemma sys_page_unmap_correct_witness :
  ∃ s' fl', sys_page_unmap 0 0x800000 KDemo.one = Ret 0 s' ∧
    kinv KDemo.R fl' (seqZ 1 1023) s'.
Proof.
  destruct (sys_page_unmap_correct KDemo.R (30 :: Demo.rest) (seqZ 1 1023) KDemo.one 0 0x800000)
    as (r & s' & fl' & E & K & [(_ & _ & H)|[(_ & _ & H)|(-> & _)]]).
  - exact KDemo.one_inv.
  - exact KDemo_caller.
  - split; lia.
  - destruct (H 0 KDemo_names).
  - vm_compute in H. destruct H as [H|H]; destruct H; reflexivity.
  - exists s', fl'. split; [exact E|exact K].
Defined.

(** ** Missing checks *)

(** [sys_page_alloc] does not check [perm], although only the bits of
    [PTE_SYSCALL] may be set: bits above the permissions are or-ed into the
    entry.  With [perm = 0x1007] the only environment of the demonstration kernel
    gets its own page directory, frame 31, mapped writable at a user address. *)
Theorem sys_page_alloc_perm_unchecked :
  ∃ s' e, sys_page_alloc 0 0x800000 0x1007 KDemo.one = Ret 0 s' ∧
    env_pgdir KDemo.env0 = Some 31 ∧
    pte_of (mem s') 31 (PDX 0x800000) (PTX 0x800000) = Some e ∧
    e / 4096 = 31 ∧ Z.land e (Z.lor PTE_W PTE_U) = Z.lor PTE_W PTE_U.
Proof.
  assert (match sys_page_alloc 0 0x800000 0x1007 KDemo.one with
          | Ret r s' => Some (r, pte_of (mem s') 31 (PDX 0x800000) (PTX 0x800000))
          | _ => None
          end = Some (0, Some 0x1f007)) as H by (vm_compute; reflexivity).
  destruct (sys_page_alloc 0 0x800000 0x1007 KDemo.one) as [r s'| | |]; try discriminate H.
  assert (r = 0) as -> by congruence. exists s', 0x1f007.
  split; [reflexivity|]. split; [reflexivity|]. split; [congruence|]. split; reflexivity.
Qed.
