(* ===== verification/IpcProps.v ===== *)
(** * Messages, forking and output

    [sys_ipc_try_send] delivers a word and possibly a page; [sys_exofork] makes a
    child that differs from its parent in one register; [sys_cputs] reads one
    byte more than it checked. *)

From stdpp Require Import base gmap list strings.
From Stdlib Require Import ZArith Lia.
From S2P Require Import Prelude Mmu Pmap PmapInv PmapOps PmapDir PmapBoot PmapProps MemInit.
From S2P Require Import Env Sched EnvFree EnvInv EnvAlloc KDemo Syscall SyscallInv.

Set Default Proof Using "Type".

(** ** Sending *)

(** A waiting environment's buffer address was checked by [sys_ipc_recv]. *)
Definition recv_ok (s : kstate) : Prop :=
  ∀ i e, envs s !! i = Some e → env_ipc_recving e = true →
    is_u32 (env_ipc_dstva e) ∧ env_ipc_dstva e < UTOP.

(** The message is in slot [i] and the receiver may run. *)
Definition delivered (value from perm : Z) (e : Env) : Env :=
  set_env_status ENV_RUNNABLE (set_ipc false (env_ipc_dstva e) value from perm e).

(** The effect of a successful send on memory and on the permissions reported:
    nothing without a page, one new mapping of the sender's page with one. *)
Definition ipc_transfer (s s' : kstate) (fl : list Z) (cd d srcva dstva perm p : Z) : Prop :=
  (p = 0 ∧ (srcva = 0 ∨ dstva = 0) ∧ mem s' = mem s) ∨
  (p = Z.lor (Z.lor perm PTE_U) PTE_P ∧ srcva ≠ 0 ∧ dstva ≠ 0 ∧
   ∃ w, pte_of (mem s) cd (PDX srcva) (PTX srcva) = Some w ∧
     (writable perm = true → writable w = true) ∧
     pte_upd (dirs_of (envs s)) (mem s) (mem s') d (PDX dstva) (PTX dstva)
       (Some (mk_pte (w / 4096) (Z.lor perm PTE_U))) ∧
     data_same (dirs_of (envs s)) fl (mem s) (mem s')).

Lemma ipc_page_spec R fl efl s c ce cd i e d srcva perm :
  kinv R fl efl s →
  envs s !! c = Some ce → env_pgdir ce = Some cd → cd ∈ dirs_of (envs s) →
  envs s !! i = Some e → env_pgdir e = Some d → d ∈ dirs_of (envs s) →
  is_u32 srcva → srcva < UTOP → is_u32 (env_ipc_dstva e) → env_ipc_dstva e < UTOP →
  0 ≤ perm < 4096 → (∀ p pi, pages (mem s) !! p = Some pi → pp_ref pi < 2 ^ 16 - 1) →
  (ipc_page c i srcva perm s = Ret (inl (- E_INVAL)) s ∧
     ∀ w, pte_of (mem s) cd (PDX srcva) (PTX srcva) = Some w →
       writable perm = true ∧ writable w = false) ∨
  (ipc_page c i srcva perm s = Ret (inl (- E_NO_MEM)) s ∧ fl = []) ∨
  ∃ p m' fl', ipc_page c i srcva perm s = Ret (inr p) (set_mem m' s) ∧
    kinv R fl' efl (set_mem m' s) ∧
    ipc_transfer s (set_mem m' s) fl cd d srcva (env_ipc_dstva e) perm p.
Proof.
  intros K Hce Hcd HcdD He Hd HdD Hsrc Hsut Hdst Hdut Hperm Hroom.
  assert (env_at i s = Ret e s) as Ee by (unfold env_at; by rewrite He).
  unfold ipc_page. rewrite (bind_eq _ _ _ _ _ Ee).
  destruct (ctrue (env_ipc_dstva e) && ctrue srcva) eqn:Hb.
  2:{ do 2 right. exists 0, (mem s), fl. assert (set_mem (mem s) s = s) as -> by (by destruct s).
      split; [done|]. split; [done|]. left. split; [done|]. split; [|done].
      apply andb_false_iff in Hb as [Hb|Hb]; apply ctrue_false in Hb; auto. }
  apply andb_true_iff in Hb as [Hb1 Hb2]. apply ctrue_true in Hb1, Hb2.
  destruct (lookup_src_spec R fl efl s c ce cd srcva perm) as (o & E & Ho); [done..|].
  rewrite (bind_eq _ _ _ _ _ E). destruct o as [p|]; [|by left]. right.
  destruct Ho as (w & Hw & -> & Hg).
  assert (pgdir_of i s = Ret d s) as Ed.
  { unfold pgdir_of, bind, env_at. rewrite He. cbn. by rewrite Hd. }
  rewrite (bind_eq _ _ _ _ _ Ed).
  assert (0 ≤ Z.lor perm PTE_U < 4096) as Hperm' by (apply (lor_small _ _ 12); unfold PTE_U; lia).
  destruct (kinv_page_insert R fl efl s d (w / 4096) (env_ipc_dstva e) (Z.lor perm PTE_U) K)
    as [(E' & Hfl & _)|(m' & fl' & E' & K' & I)];
    [done..|by apply (lookup_src_mappable R fl efl s cd srcva w)| |]; rewrite (bind_eq _ _ _ _ _ E').
  - by left.
  - right. eexists _, m', fl'. split; [done|]. split; [done|]. right. split; [done|].
    do 2 (split; [done|]). exists w. split; [done|]. split; [done|]. split; apply I.
Qed.

(** [sys_ipc_try_send] whatever the address and the permission bits are: the code does
    not look at the bits, and an address from [UTOP] up is an error. *)
Lemma sys_ipc_try_send_any_perm R fl efl s c ce cd envid value srcva perm :
  kinv R fl efl s → recv_ok s →
  curenv s = Some c → envs s !! c = Some ce → env_status ce ≠ ENV_FREE → env_pgdir ce = Some cd →
  is_u32 srcva → 0 ≤ perm < 4096 →
  (∀ p pi, pages (mem s) !! p = Some pi → pp_ref pi < 2 ^ 16 - 1) →
  ∃ r s' fl', sys_ipc_try_send envid value srcva perm s = Ret r s' ∧ kinv R fl' efl s' ∧
    ((s' = s ∧ (r = - E_INVAL ∧ (bad_va srcva = true ∨
                   ∀ w, pte_of (mem s) cd (PDX srcva) (PTX srcva) = Some w →
                     writable perm = true ∧ writable w = false) ∨
                r = - E_BAD_ENV ∧ (∀ i, ¬ names s envid false i) ∨
                r = - E_IPC_NOT_RECV ∧ (∃ i e, names s envid false i ∧ envs s !! i = Some e ∧
                   env_ipc_recving e = false) ∨
                r = - E_NO_MEM ∧ fl = [])) ∨
     (r = 0 ∧ ∃ i e d p, names s envid false i ∧ envs s !! i = Some e ∧
        env_ipc_recving e = true ∧ env_pgdir e = Some d ∧
        envs s' = <[i := delivered value (env_id ce) p e]> (envs s) ∧
        ipc_transfer s s' fl cd d srcva (env_ipc_dstva e) perm p)).
Proof.
  intros K Hrecv Hc Hce Hst Hcd Hsrc Hperm Hroom. unfold sys_ipc_try_send.
  destruct (bad_va srcva) eqn:Hb.
  { exists (- E_INVAL), s, fl. split; [done|]. split; [done|]. left. auto. }
  assert (srcva < UTOP) as Hsut by (unfold bad_va in Hb; apply orb_false_iff in Hb as [_ ?]; zbool; done).
  assert (caller_ok s) as Hok by (by exists c, ce).
  assert (cd ∈ dirs_of (envs s)) as HcdD.
  { destruct (kinv_live_dir R fl efl s c ce K Hce Hst) as (d' & Hd' & ?). congruence. }
  destruct (with_env_spec R fl efl s envid false K Hok) as [(i & Hi & ->)|[Hn ->]].
  2:{ exists (- E_BAD_ENV), s, fl. split; [done|]. split; [done|]. left. auto. }
  destruct (names_live R _ efl s envid false i K Hok Hi) as (e & d & He & Hse & Hd & HdD).
  unfold bind at 1, env_at at 1. rewrite He. cbn [deref ret].
  destruct (env_ipc_recving e) eqn:Hre; cbn [negb].
  2:{ exists (- E_IPC_NOT_RECV), s, fl. split; [done|]. split; [done|]. left. split; [done|].
      do 2 right. left. split; [done|]. by exists i, e. }
  destruct (Hrecv i e He Hre) as [Hdst Hdut].
  unfold bind at 1, cur, bind at 1, gets. rewrite Hc. cbn [deref ret].
  destruct (ipc_page_spec R fl efl s c ce cd i e d srcva perm)
    as [[E Hno]|[[E Hfl]|(p & m' & fl' & E & K' & Ht)]]; [done..| | |]; unfold bind at 1; rewrite E.
  - exists (- E_INVAL), s, fl. split; [done|]. split; [done|]. left. auto.
  - exists (- E_NO_MEM), s, fl. split; [done|]. split; [done|]. left. split; [done|]. auto 6.
  - exists 0, (set_envs (<[i := delivered value (env_id ce) p e]> (envs s)) (set_mem m' s)), fl'.
    split; [|split].
    + unfold bind at 1, env_at. cbn [envs set_mem]. rewrite Hce. cbn [deref ret].
      unfold bind at 1. erewrite upd_env_eq by exact He. unfold bind.
      erewrite upd_env_eq by (cbn; apply lookup_insert_eq). cbn. by rewrite insert_insert_eq.
    + eapply (kinv_env R fl' efl (set_mem m' s) i e); [exact K'|exact He|done..|].
      split; [intros [=]|]. by intros ?%Hse.
    + right. split; [done|]. exists i, e, d, p. do 5 (split; [done|]). exact Ht.
Qed.

(** C3. Let the caller send to an environment with an address below [UTOP]: either
    0 and no permission, which by [lib/ipc.c] means that no page is sent, or the
    address of a page with a permission that the interface allows ([perm_ok]).  Let
    receivers have given page addresses below [UTOP], as [sys_ipc_recv] checks, and no
    page be referenced 65535 times.  Then [sys_ipc_try_send] returns with the kernel
    invariant intact.  It fails without any change: [-E_INVAL] for an address that is
    not page-aligned or a page that is not mapped or may not be shared so,
    [-E_BAD_ENV] for an unknown receiver, [-E_IPC_NOT_RECV] when the receiver is not
    waiting, [-E_NO_MEM].  Otherwise the receiver has the value, the sender's identifier
    and the permissions, no longer waits and is runnable; a page is mapped in it exactly
    when both sides gave an address; nothing else changes. *)
Theorem sys_ipc_try_send_correct R fl efl s c ce cd envid value srcva perm :
  kinv R fl efl s → recv_ok s →
  curenv s = Some c → envs s !! c = Some ce → env_status ce ≠ ENV_FREE → env_pgdir ce = Some cd →
  0 ≤ srcva < UTOP → (srcva = 0 ∧ perm = 0 ∨ perm_ok perm) →
  (∀ p pi, pages (mem s) !! p = Some pi → pp_ref pi < 2 ^ 16 - 1) →
  ∃ r s' fl', sys_ipc_try_send envid value srcva perm s = Ret r s' ∧ kinv R fl' efl s' ∧
    ((s' = s ∧ (r = - E_INVAL ∧ (srcva mod PGSIZE ≠ 0 ∨
                   ∀ w, pte_of (mem s) cd (PDX srcva) (PTX srcva) = Some w →
                     writable perm = true ∧ writable w = false) ∨
                r = - E_BAD_ENV ∧ (∀ i, ¬ names s envid false i) ∨
                r = - E_IPC_NOT_RECV ∧ (∃ i e, names s envid false i ∧ envs s !! i = Some e ∧
                   env_ipc_recving e = false) ∨
                r = - E_NO_MEM ∧ fl = [])) ∨
     (r = 0 ∧ ∃ i e d p, names s envid false i ∧ envs s !! i = Some e ∧
        env_ipc_recving e = true ∧ env_pgdir e = Some d ∧
        envs s' = <[i := delivered value (env_id ce) p e]> (envs s) ∧
        ipc_transfer s s' fl cd d srcva (env_ipc_dstva e) perm p)).
Proof.
  intros K Hrecv Hc Hce Hst Hcd Hsrc Hperm Hroom. assert (UTOP < 2 ^ 32) as HU by done. assert (is_u32 srcva) as Hu by (unfold is_u32; lia).
  assert (0 ≤ perm < 4096) as Hp by (destruct Hperm as [[_ ->]|?%perm_ok_small]; lia).
  destruct (sys_ipc_try_send_any_perm R fl efl s c ce cd envid value srcva perm) as (r & s' & fl' & E & K' & H); [done..|].
  exists r, s', fl'. split; [done|]. split; [done|]. destruct H as [[Hs [[Hr [Hb|Hb]]|H]]|H]; [|by auto 6..].
  left. split; [done|]. left. split; [done|]. left. apply bad_va_true in Hb as [?|?]; [lia|done].
Qed.

Lemma sys_ipc_try_send_correct_witness :
  ∃ s' fl', sys_ipc_try_send 4097 42 0 0 KDemo.waiting = Ret 0 s' ∧
    kinv KDemo.R fl' (seqZ 2 1022) s'.
Proof.
  destruct (sys_ipc_try_send_correct KDemo.R Demo.rest (seqZ 2 1022) KDemo.waiting 0 KDemo.env0 31
              4097 42 0 0) as (r & s' & fl' & E & K & [(_ & H)|(-> & _)]).
  - exact KDemo.waiting_inv.
  - intros i e He Hr. rewrite KDemo.waiting_lookup in He.
    destruct (decide (i = 0)); [injection He as <-; discriminate Hr|].
    destruct (decide (i = 1)); [injection He as <-; split; [split|]; reflexivity || discriminate|].
    rewrite KDemo.free_envs_lookup in He.
    destruct (decide (0 ≤ i < 1024)); [injection He as <-; discriminate Hr|discriminate He].
  - exact KDemo.waiting_cur.
  - rewrite KDemo.waiting_lookup. reflexivity.
  - discriminate.
  - reflexivity.
  - split; [lia|reflexivity].
  - by left.
  - exact KDemo.waiting_room.
  - exfalso. assert (names KDemo.waiting 4097 false 1) as Hn.
    { right. split; [discriminate|]. exists KDemo.env1w. rewrite KDemo.waiting_lookup.
      split; [reflexivity|]. split; [discriminate|]. split; [reflexivity|discriminate]. }
    assert (sys_ipc_try_send 4097 42 0 0 KDemo.waiting ≠ Ret r s') as Hne; [|by apply Hne].
    destruct H as [[-> _]|[[-> _]|[[-> _]|[-> _]]]]; intros X;
      apply (f_equal (λ o, match o with Ret r _ => r | _ => 1 end)) in X; vm_compute in X;
      discriminate X.
  - exists s', fl'. split; [exact E|exact K].
Defined.

(** ** Forking *)

(** The child as [sys_exofork] leaves it. *)
Definition exo_child (ce e1 : Env) : Env :=
  set_names (currentpath ce) [] (set_env_tf (set_reg_eax 0 (env_tf ce))
    (set_env_status ENV_NOT_RUNNABLE (set_env_tf (env_tf ce) e1))).

Lemma exo_child_fields ce e1 :
  let e' := exo_child ce e1 in
  env_id e' = env_id e1 ∧ env_link e' = env_link e1 ∧ env_pgdir e' = env_pgdir e1 ∧
  env_status e' = ENV_NOT_RUNNABLE ∧ env_tf e' = set_reg_eax 0 (env_tf ce) ∧
  env_parent_id e' = env_parent_id e1 ∧ currentpath e' = currentpath ce ∧ binaryname e' = [].
Proof. done. Qed.

Lemma exo_child_eq s1 i c ce e1 :
  env_at c s1 = Ret ce s1 → envs s1 !! i = Some e1 →
  (let* ce := env_at c in
   do* upd_env i (set_env_tf (env_tf ce)) in
   do* upd_env i (set_env_status ENV_NOT_RUNNABLE) in
   do* upd_env i (λ e, set_env_tf (set_reg_eax 0 (env_tf e)) e) in
   do* upd_env i (λ e, set_names (currentpath ce) (binaryname e) e) in
   do* upd_env i (λ e, set_names (currentpath e) [] e) in
   let* e := env_at i in
   ret (env_id e)) s1 =
  Ret (env_id e1) (set_envs (<[i := exo_child ce e1]> (envs s1)) s1).
Proof.
  intros Ec He1. rewrite (bind_eq _ _ _ _ _ Ec).
  rewrite (bind_eq _ _ _ _ _ (upd_env_eq i _ s1 e1 He1)).
  do 4 (erewrite (bind_eq _ _ _ _ _ (upd_env_eq i _ _ _ (lookup_insert_eq _ _ _))); cbn [envs set_envs]).
  unfold bind, env_at. cbn [envs set_envs]. rewrite lookup_insert_eq. cbn [deref ret].
  rewrite !insert_insert_eq. done.
Qed.

(** The whole call: an environment made by [env_alloc], then made a child of the caller. *)
Lemma sys_exofork_spec R fl efl s c ce :
  kinv R fl efl s → curenv s = Some c → envs s !! c = Some ce → env_status ce ≠ ENV_FREE →
  ((efl = [] ∧ sys_exofork s = Ret (- E_NO_FREE_ENV) s) ∨
   (fl = [] ∧ sys_exofork s = Ret (- E_NO_MEM) s)) ∨
  ∃ i en p s1 fl' efl', env_created R fl efl s (env_id ce) i s1 fl' efl' ∧ i ≠ c ∧ envs s !! i = Some en ∧ fl = p :: fl' ∧
    let e1 := new_env (env_id ce) i p en in
    envs s1 = <[i := e1]> (envs s) ∧ empty_dir (mem s1) p ∧ ENVX (env_id e1) = i ∧ 0 < env_id e1 ∧
    let s' := set_envs (<[i := exo_child ce e1]> (envs s1)) s1 in
    sys_exofork s = Ret (env_id e1) s' ∧ kinv R fl' efl' s' ∧ envs s' = <[i := exo_child ce e1]> (envs s).
Proof.
  intros K Hc Hce Hst. unfold sys_exofork.
  assert (cur s = Ret c s) as Ec by (unfold cur, bind, gets; by rewrite Hc).
  assert (env_at c s = Ret ce s) as Ee by (unfold env_at; by rewrite Hce).
  rewrite (bind_eq _ _ _ _ _ Ec), (bind_eq _ _ _ _ _ Ee).
  destruct (env_alloc_spec R fl efl s (env_id ce) K)
    as [[-> E]|[(_ & -> & E)|(i & s1 & fl' & efl' & E & C)]]; rewrite (bind_eq _ _ _ _ _ E);
    [left; by left|left; by right|right].
  destruct (ec_env _ _ _ _ _ _ _ _ _ C) as (en & p & He & Hfl & Hs1 & Hem & _ & Hid1 & Hid2 & _).
  assert (i ≠ c) as Hic.
  { intros ->. assert (en = ce) as -> by congruence. apply Hst.
    apply (eo_free _ _ _ (ki_env _ _ _ _ K c ce Hce)).
    rewrite (ec_efl _ _ _ _ _ _ _ _ _ C). left. }
  set (e1 := new_env (env_id ce) i p en) in *.
  assert (envs s1 !! i = Some e1) as He1 by (rewrite Hs1; apply lookup_insert_eq).
  assert (env_at c s1 = Ret ce s1) as Ee1
    by (unfold env_at; by rewrite Hs1, lookup_insert_ne, Hce by done).
  pose proof (exo_child_eq s1 i c ce e1 Ee1 He1) as Ex. destruct (exo_child_fields ce e1) as (F1 & F2 & F3 & F4 & _).
  exists i, en, p, s1, fl', efl'. do 8 (split; [done|]). split; [exact Ex|]. split.
  - apply (kinv_env R fl' efl' s1 i e1 _ (ec_inv _ _ _ _ _ _ _ _ _ C) He1); [done..|].
    split; intros [=].
  - cbn [envs set_envs]. by rewrite Hs1, insert_insert_eq.
Qed.

(** [sys_exofork] either fails like [env_alloc], or returns the identifier of
    a new environment that is not yet runnable, has the caller's registers except
    for a 0 in [%eax], the caller as parent, the caller's path, no name, and an
    empty address space; the caller itself is unchanged and the kernel invariant
    holds. *)
Theorem sys_exofork_correct R fl efl s c ce :
  kinv R fl efl s → curenv s = Some c → envs s !! c = Some ce → env_status ce ≠ ENV_FREE →
  ((efl = [] ∧ sys_exofork s = Ret (- E_NO_FREE_ENV) s) ∨
   (fl = [] ∧ sys_exofork s = Ret (- E_NO_MEM) s)) ∨
  ∃ id i e' d fl' efl' s', sys_exofork s = Ret id s' ∧ kinv R fl' efl' s' ∧
    envs s' = <[i := e']> (envs s) ∧ i ≠ c ∧ env_id e' = id ∧ 0 < id ∧ ENVX id = i ∧
    env_status e' = ENV_NOT_RUNNABLE ∧ env_tf e' = set_reg_eax 0 (env_tf ce) ∧
    env_parent_id e' = env_id ce ∧ currentpath e' = currentpath ce ∧ binaryname e' = [] ∧
    env_pgdir e' = Some d ∧ empty_dir (mem s') d.
Proof.
  intros K Hc Hce Hst. destruct (sys_exofork_spec R fl efl s c ce K Hc Hce Hst)
    as [?|(i & en & p & s1 & fl' & efl' & C & Hic & He & Hfl & Hs1 & Hem & Hx & Hpos & E & K' & Es)]; [by left|right].
  destruct (exo_child_fields ce (new_env (env_id ce) i p en)) as (F1 & F2 & F3 & F4 & F5 & F6 & F7 & F8).
  eexists _, i, _, p, fl', efl', _. split; [exact E|]. split; [exact K'|]. split; [exact Es|].
  rewrite F4, F5, F6, F7, F8, F1, F3. by repeat split.
Qed.

Lemma sys_exofork_correct_witness :
  ∃ id fl' efl' s', sys_exofork KDemo.one = Ret id s' ∧ kinv KDemo.R fl' efl' s' ∧ 0 < id.
Proof.
  destruct (sys_exofork_correct KDemo.R (30 :: Demo.rest) (seqZ 1 1023) KDemo.one 0 KDemo.env0)
    as [[[H _]|[H _]]|(id & i & e' & d & fl' & efl' & s' & E & K & _ & _ & _ & Hid & _)].
  - exact KDemo.one_inv.
  - exact KDemo.one_cur.
  - rewrite KDemo.one_lookup. reflexivity.
  - discriminate.
  - discriminate H.
  - discriminate H.
  - exists id, fl', efl', s'. split; [exact E|]. split; [exact K|exact Hid].
Defined.
