(* ===== verification/Console.v ===== *)
(** * The console ([kernel/console.c])

    The serial port, the parallel port, the text screen and the keyboard behind one
    interface: [cons_putc] prints on all outputs, [cons_getc] takes characters from
    a circular buffer that the interrupt handlers fill.  The devices are the queues
    of what they have received and the lists of what was sent to them; polling a
    status register changes nothing, so the busy-waiting loops are left out. *)

From stdpp Require Import base gmap list strings.
From Stdlib Require Import ZArith Lia.
From S2P Require Import Prelude.

Definition CONSBUFSIZE : Z := 512.
Definition CRT_ROWS : Z := 25.
Definition CRT_COLS : Z := 80.
Definition CRT_SIZE : Z := CRT_ROWS * CRT_COLS.

Record constate := MkCons {
  buf : list Z;               (* [cons.buf] *)
  rpos : Z;
  wpos : Z;
  serial_exists : bool;
  shift : Z;                  (* keyboard modifiers *)
  crt_buf : list Z;           (* the cells of the text screen *)
  crt_pos : Z;
  com_rx : list Z;            (* bytes waiting in the serial port *)
  kbd_in : list (Z * Z);      (* status and data of the waiting key events *)
  com_tx : list Z;            (* bytes sent, last first *)
  lpt_tx : list Z;
  reboots : nat               (* writes of 3 to port 0x92 *)
}.

Definition set_ring (b : list Z) (r w : Z) (s : constate) : constate :=
  MkCons b r w (serial_exists s) (shift s) (crt_buf s) (crt_pos s) (com_rx s) (kbd_in s)
    (com_tx s) (lpt_tx s) (reboots s).
Definition set_com_rx (x : list Z) (s : constate) : constate :=
  MkCons (buf s) (rpos s) (wpos s) (serial_exists s) (shift s) (crt_buf s) (crt_pos s) x
    (kbd_in s) (com_tx s) (lpt_tx s) (reboots s).
Definition set_kbd (sh : Z) (x : list (Z * Z)) (n : nat) (s : constate) : constate :=
  MkCons (buf s) (rpos s) (wpos s) (serial_exists s) sh (crt_buf s) (crt_pos s) (com_rx s) x
    (com_tx s) (lpt_tx s) n.
Definition set_crt (b : list Z) (p : Z) (s : constate) : constate :=
  MkCons (buf s) (rpos s) (wpos s) (serial_exists s) (shift s) b p (com_rx s) (kbd_in s)
    (com_tx s) (lpt_tx s) (reboots s).
Definition set_tx (c l : list Z) (s : constate) : constate :=
  MkCons (buf s) (rpos s) (wpos s) (serial_exists s) (shift s) (crt_buf s) (crt_pos s)
    (com_rx s) (kbd_in s) c l (reboots s).

(** ** Serial and parallel port *)

(** -1 when no byte is waiting. *)
Definition serial_proc_data : M constate Z := λ s,
  match com_rx s with
  | [] => Ret (-1) s
  | b :: r => Ret b (set_com_rx r s)
  end.

Definition serial_putc (c : Z) : M constate unit :=
  modify (λ s, set_tx (u8 c :: com_tx s) (lpt_tx s) s).
Definition lpt_putc (c : Z) : M constate unit :=
  modify (λ s, set_tx (com_tx s) (u8 c :: lpt_tx s) s).

(** ** Screen *)

(** [crt_buf[i] = v]; a cell outside the screen is not there. *)
Definition crt_store (i v : Z) : M constate unit := λ s,
  if (0 <=? i) && (i <? CRT_SIZE)
  then Ret tt (set_crt (<[Z.to_nat i := u16 v]> (crt_buf s)) (crt_pos s) s) else Fault.
Definition set_crt_pos (f : Z → Z) : M constate unit :=
  modify (λ s, set_crt (crt_buf s) (u16 (f (crt_pos s))) s).

(** The last part of [cga_putc]: scroll by a line when the screen is full. *)
Definition cga_scroll : M constate unit := λ s,
  if CRT_SIZE <=? crt_pos s
  then Ret tt (set_crt (drop (Z.to_nat CRT_COLS) (crt_buf s) ++
                        replicate (Z.to_nat CRT_COLS) (Z.lor 0x0700 32))
                 (u16 (crt_pos s - CRT_COLS)) s)
  else Ret tt s.

Definition with_attribute (c : Z) : Z :=
  if negb (ctrue (Z.ldiff c 0xFF)) then Z.lor c 0x0700 else c.

Definition set_column0 : M constate unit := set_crt_pos (λ p, p - p mod CRT_COLS).

(** [cga_putc] of a character other than a tabulator. *)
Definition cga_putc_plain (c : Z) : M constate unit :=
  let c := with_attribute c in
  let ch := Z.land c 0xFF in
  do* (if ch =? 8 then
         let* p := gets crt_pos in
         if 0 <? p then
           do* set_crt_pos (λ p, p - 1) in
           let* p := gets crt_pos in
           crt_store p (Z.lor (Z.ldiff c 0xFF) 32)
         else ret tt
       else if ch =? 10 then
         do* set_crt_pos (λ p, p + CRT_COLS) in set_column0
       else if ch =? 13 then set_column0
       else
         let* p := gets crt_pos in
         do* set_crt_pos (λ p, p + 1) in
         crt_store p c) in
  cga_scroll.

(** [cons_putc(' ')], which the tabulator case calls. *)
Definition cons_space : M constate unit :=
  do* serial_putc 32 in
  do* lpt_putc 32 in
  cga_putc_plain 32.

Definition cga_putc (c : Z) : M constate unit :=
  if Z.land (with_attribute c) 0xFF =? 9 then
    do* for_up 5 0 (λ _, cons_space) in cga_scroll
  else cga_putc_plain c.

Definition cons_putc (c : Z) : M constate unit :=
  do* serial_putc c in
  do* lpt_putc c in
  cga_putc c.

(** ** Keyboard *)
Definition SHIFT : Z := 1.
Definition CTL : Z := 2.
Definition ALT : Z := 4.
Definition CAPSLOCK : Z := 8.
Definition NUMLOCK : Z := 16.
Definition SCROLLLOCK : Z := 32.
Definition E0ESC : Z := 64.
Definition KEY_DEL : Z := 0xE9.
Definition KBS_DIB : Z := 0x01.
Definition KBS_TERR : Z := 0x20.

(** A 256-entry table: its first entries in order and the designated ones. *)
Definition key_map (l : list Z) (designated : list (Z * Z)) (i : Z) : Z :=
  match list_find (λ d, d.1 = i) designated with
  | Some (_, (_, v)) => v
  | None => default 0 (l !! Z.to_nat i)
  end.

Definition shiftcode : Z → Z := key_map []
  [(0x1D, CTL); (0x2A, SHIFT); (0x36, SHIFT); (0x38, ALT); (0x9D, CTL); (0xB8, ALT)].
Definition togglecode : Z → Z := key_map []
  [(0x3A, CAPSLOCK); (0x45, NUMLOCK); (0x46, SCROLLLOCK)].

Definition normalmap : Z → Z := key_map
  [0; 27; 49; 50; 51; 52; 53; 54; 55; 56; 57; 48; 45; 61; 8; 9;
   113; 119; 101; 114; 116; 121; 117; 105; 111; 112; 91; 93; 10; 0; 97; 115;
   100; 102; 103; 104; 106; 107; 108; 59; 39; 96; 0; 92; 122; 120; 99; 118;
   98; 110; 109; 44; 46; 47; 0; 42; 0; 32; 0; 0; 0; 0; 0; 0;
   0; 0; 0; 0; 0; 0; 0; 55; 56; 57; 45; 52; 53; 54; 43; 49;
   50; 51; 48; 46; 0; 0; 0; 0]
  [(0xC7, 224); (0x9C, 10); (0xB5, 47); (0xC8, 226); (0xC9, 230); (0xCB, 228);
   (0xCD, 229); (0xCF, 225); (0xD0, 227); (0xD1, 231); (0xD2, 232); (0xD3, 233)].

Definition shiftmap : Z → Z := key_map
  [0; 27; 33; 64; 35; 36; 37; 94; 38; 42; 40; 41; 95; 43; 8; 9;
   81; 87; 69; 82; 84; 89; 85; 73; 79; 80; 123; 125; 10; 0; 65; 83;
   68; 70; 71; 72; 74; 75; 76; 58; 34; 126; 0; 124; 90; 88; 67; 86;
   66; 78; 77; 60; 62; 63; 0; 42; 0; 32; 0; 0; 0; 0; 0; 0;
   0; 0; 0; 0; 0; 0; 0; 55; 56; 57; 45; 52; 53; 54; 43; 49;
   50; 51; 48; 46; 0; 0; 0; 0]
  [(0xC7, 224); (0x9C, 10); (0xB5, 47); (0xC8, 226); (0xC9, 230); (0xCB, 228);
   (0xCD, 229); (0xCF, 225); (0xD0, 227); (0xD1, 231); (0xD2, 232); (0xD3, 233)].

Definition ctlmap : Z → Z := key_map
  [0; 0; 0; 0; 0; 0; 0; 0; 0; 0; 0; 0; 0; 0; 0; 0;
   17; 23; 5; 18; 20; 25; 21; 9; 15; 16; 0; 0; 13; 0; 1; 19;
   4; 6; 7; 8; 10; 11; 12; 0; 0; 0; 0; 28; 26; 24; 3; 22;
   2; 14; 13; 0; 0; 239; 0; 0]
  [(0x97, 224); (0xB5, 239); (0xC8, 226); (0xC9, 230); (0xCB, 228); (0xCD, 229);
   (0xCF, 225); (0xD0, 227); (0xD1, 231); (0xD2, 232); (0xD3, 233)].

Definition charcode (k : Z) : Z → Z :=
  if k =? 0 then normalmap else if k =? 1 then shiftmap else ctlmap.

(** What one byte of the keyboard does to the modifiers, and the character it
    completes (0 for none). *)
Definition kbd_decode (sh data : Z) : Z * Z :=
  if data =? 0xE0 then (Z.lor sh E0ESC, 0)
  else if ctrue (Z.land data 0x80) then
    let data := if ctrue (Z.land sh E0ESC) then data else Z.land data 0x7F in
    (Z.ldiff sh (Z.lor (shiftcode data) E0ESC), 0)
  else
    let '(data, sh) := if ctrue (Z.land sh E0ESC)
                       then (Z.lor data 0x80, Z.ldiff sh E0ESC) else (data, sh) in
    let sh := Z.lxor (Z.lor sh (shiftcode data)) (togglecode data) in
    let c := charcode (Z.land sh (Z.lor CTL SHIFT)) data in
    let c := if ctrue (Z.land sh CAPSLOCK) then
               if (97 <=? c) && (c <=? 122) then c + (65 - 97)
               else if (65 <=? c) && (c <=? 90) then c + (97 - 65) else c
             else c in
    (sh, c).

Definition kbd_reboot (sh c : Z) : bool :=
  (Z.land (Z.lnot sh) (Z.lor CTL ALT) =? 0) && (c =? KEY_DEL).

(** [cprintf] of a text without conversions, see [Print.Kprintf.cprintf_rebooting]. *)
Fixpoint cons_puts (l : list Z) : M constate unit :=
  match l with [] => ret tt | c :: r => do* cons_putc c in cons_puts r end.

(** The bytes of ["Rebooting!\n"]. *)
Definition rebooting : list Z := [82; 101; 98; 111; 111; 116; 105; 110; 103; 33; 10].

(** An event the code refuses (from the mouse) stays in the device. *)
Definition kbd_proc_data : M constate Z := λ s,
  match kbd_in s with
  | [] => Ret (-1) s
  | (stat, data) :: r =>
      if Z.land stat KBS_DIB =? 0 then Ret (-1) s else
      if ctrue (Z.land stat KBS_TERR) then Ret (-1) s else
      let '(sh, c) := kbd_decode (shift s) data in
      (do* (if kbd_reboot sh c then
              do* cons_puts rebooting in
              modify (λ s, set_kbd (shift s) (kbd_in s) (S (reboots s)) s)
            else ret tt) in
       ret c) (set_kbd sh r (reboots s) s)
  end.

(** ** The input buffer *)
Definition cons_push (c : Z) : M constate unit := λ s,
  if wpos s <? CONSBUFSIZE then
    let w := u32 (wpos s + 1) in
    Ret tt (set_ring (<[Z.to_nat (wpos s) := u8 c]> (buf s)) (rpos s)
              (if w =? CONSBUFSIZE then 0 else w) s)
  else Fault.

Fixpoint cons_intr_loop (fuel : nat) (proc : M constate Z) : M constate unit :=
  match fuel with
  | O => fault
  | S fuel' =>
      let* c := proc in
      if c =? -1 then ret tt else
      if c =? 0 then cons_intr_loop fuel' proc else
      do* cons_push c in
      cons_intr_loop fuel' proc
  end.

(** Every round but the last takes an event out of a device. *)
Definition cons_intr (proc : M constate Z) : M constate unit := λ s,
  cons_intr_loop (S (length (com_rx s) + length (kbd_in s))) proc s.

Definition serial_intr : M constate unit :=
  let* e := gets serial_exists in
  if e then cons_intr serial_proc_data else ret tt.
Definition kbd_intr : M constate unit := cons_intr kbd_proc_data.

Definition cons_getc : M constate Z :=
  do* serial_intr in
  do* kbd_intr in
  let* r := gets rpos in
  let* w := gets wpos in
  if negb (r =? w) then
    let* b := gets buf in
    let* c := deref (b !! Z.to_nat r) in
    let r' := u32 (r + 1) in
    do* modify (λ s, set_ring (buf s) (if r' =? CONSBUFSIZE then 0 else r') (wpos s) s) in
    ret c
  else ret 0.

Definition byte (b : Z) : Prop := 0 ≤ b < 256.

(** ** The buffer as a queue *)
Record ring_ok (s : constate) : Prop := MkRingOk {
  ro_buf : length (buf s) = 512%nat;
  ro_rpos : 0 ≤ rpos s < 512;
  ro_wpos : 0 ≤ wpos s < 512
}.

Definition pending (s : constate) : Z := (wpos s - rpos s) mod 512.
Definition slot (s : constate) (i : Z) : Z :=
  default 0 (buf s !! Z.to_nat ((rpos s + i) mod 512)).
Definition queue (s : constate) : list Z := slot s <$> seqZ 0 (pending s).

(** One more character: the 512th empties the queue. *)
Definition enqueue (q : list Z) (c : Z) : list Z :=
  if decide (length q = 511%nat) then [] else q ++ [c].

(** Everything but the buffer is as before. *)
Definition ring_only (s s' : constate) : Prop :=
  ∃ b r w, s' = set_ring b r w s.

Lemma queue_length s : length (queue s) = Z.to_nat (pending s).
Proof. unfold queue. by rewrite length_fmap, length_seqZ. Qed.

Lemma cons_push_spec s c :
  ring_ok s → ∃ s', cons_push c s = Ret tt s' ∧ ring_ok s' ∧ ring_only s s' ∧
    queue s' = enqueue (queue s) (u8 c).
Proof.
  intros [Hb Hr Hw]. unfold cons_push. change CONSBUFSIZE with 512.
  rewrite (proj2 (Z.ltb_lt _ _)) by lia. unfold u32. rewrite Z.mod_small by lia.
  set (w' := if wpos s + 1 =? 512 then 0 else wpos s + 1).
  assert (w' = (wpos s + 1) mod 512) as Hw'.
  { unfold w'. destruct (Z.eqb_spec (wpos s + 1) 512) as [->|]; [done|].
    by rewrite Z.mod_small by lia. }
  eexists. split; [reflexivity|]. split; [|split; [by do 3 eexists|]].
  { split; cbn; [by rewrite length_insert|lia|rewrite Hw'; apply Z.mod_pos_bound; lia]. }
  unfold enqueue. rewrite queue_length. unfold queue, pending. cbn [rpos wpos set_ring].
  set (n := (wpos s - rpos s) mod 512).
  assert (0 ≤ n < 512) as Hn by (apply Z.mod_pos_bound; lia).
  case_decide as Hfull.
  - replace ((w' - rpos s) mod 512) with 0; [done|]. rewrite Hw'. unfold n in *. dlia.
  - replace ((w' - rpos s) mod 512) with (n + 1) by (rewrite Hw'; unfold n in *; dlia).
    rewrite seqZ_app, fmap_app by lia. f_equal.
    + apply list_fmap_ext. intros k i [-> Hi]%lookup_seqZ. unfold slot. cbn.
      rewrite list_lookup_insert_ne; [done|]. unfold n in *. dlia.
    + change (seqZ (0 + n) 1) with [0 + n]. cbn [fmap list_fmap]. f_equal.
      assert ((rpos s + (0 + n)) mod 512 = wpos s) as E by (unfold n; dlia).
      unfold slot. cbn [rpos buf set_ring]. rewrite E.
      by rewrite list_lookup_insert_eq by lia.
Qed.

Lemma ring_only_refl s : ring_only s s.
Proof. exists (buf s), (rpos s), (wpos s). by destruct s. Qed.

(** ** The screen *)
Record screen_ok (s : constate) : Prop := MkScreenOk {
  sc_buf : length (crt_buf s) = 2000%nat;
  sc_pos : 0 ≤ crt_pos s < 2000
}.

Definition blank : Z := 0x0720.

(** A screen whose cursor may be on the line below the last one, scrolled. *)
Definition scrolled (b : list Z) (p : Z) (s s' : constate) : Prop :=
  s' = if decide (p < 2000) then set_crt b p s
       else set_crt (drop 80 b ++ replicate 80 blank) (p - 80) s.

Lemma cga_scroll_eq s :
  0 ≤ crt_pos s < 2 ^ 16 →
  cga_scroll s = Ret tt (if decide (crt_pos s < 2000) then s
    else set_crt (drop 80 (crt_buf s) ++ replicate 80 blank) (crt_pos s - 80) s).
Proof.
  intros Hp. unfold cga_scroll. change CRT_SIZE with 2000. change CRT_COLS with 80.
  case_decide; [by rewrite (proj2 (Z.leb_gt _ _)) by lia|].
  rewrite (proj2 (Z.leb_le _ _)), u16_small by lia. done.
Qed.

Lemma scrolled_ok b p s s' :
  length b = 2000%nat → 0 ≤ p ≤ 2079 → scrolled b p s s' → screen_ok s'.
Proof.
  intros Hb Hp ->. case_decide; split; cbn [crt_buf crt_pos set_crt]; [done|lia| |lia].
  rewrite length_app, length_drop, length_replicate. lia.
Qed.

(** The cell a character is shown as: white on black unless it has attributes. *)
Definition cell (c : Z) : Z := if decide (byte c) then 0x0700 + c else c.

(** What a character does to the cells and the cursor. *)
Definition put_cell (c : Z) (b : list Z) (p : Z) : list Z * Z :=
  if decide (c mod 256 = 8) then
    if decide (0 < p) then (<[Z.to_nat (p - 1) := u16 (cell c / 256 * 256 + 32)]> b, p - 1)
    else (b, p)
  else if decide (c mod 256 = 10) then (b, (p / 80 + 1) * 80)
  else if decide (c mod 256 = 13) then (b, p / 80 * 80)
  else (<[Z.to_nat p := u16 (cell c)]> b, p + 1).

Lemma ldiff_255 c : Z.ldiff c 255 = c / 256 * 256.
Proof.
  change 255 with (Z.ones 8). rewrite Z.ldiff_ones_r, Z.shiftl_mul_pow2, Z.shiftr_div_pow2 by lia.
  done.
Qed.

Lemma land_255 c : Z.land c 255 = c mod 256.
Proof. change 255 with (Z.ones 8). by rewrite Z.land_ones by lia. Qed.

Lemma with_attribute_eq c : with_attribute c = cell c.
Proof.
  unfold with_attribute, cell. rewrite ldiff_255. unfold byte. case_decide.
  - rewrite Z.div_small by lia. cbn [Z.mul ctrue Z.eqb negb]. rewrite Z.lor_comm.
    apply (lor_shiftl_add 7 c 8); lia.
  - rewrite (proj2 (ctrue_true _)); [done|]. dlia.
Qed.

Lemma cell_mod c : cell c mod 256 = c mod 256.
Proof. unfold cell, byte. case_decide; dlia. Qed.

Lemma crt_store_eq i v s :
  0 ≤ i < 2000 →
  crt_store i v s = Ret tt (set_crt (<[Z.to_nat i := u16 v]> (crt_buf s)) (crt_pos s) s).
Proof.
  intros Hi. unfold crt_store. change CRT_SIZE with 2000.
  by rewrite (proj2 (Z.leb_le _ _)), (proj2 (Z.ltb_lt _ _)) by lia.
Qed.

Lemma put_cell_ok c b p :
  length b = 2000%nat → 0 ≤ p < 2000 →
  length (put_cell c b p).1 = 2000%nat ∧ 0 ≤ (put_cell c b p).2 ≤ 2079.
Proof.
  intros Hb Hp. unfold put_cell. repeat case_decide; cbn [fst snd]; rewrite ?length_insert;
    (split; [done|]); dlia.
Qed.

(** The switch of [cga_putc]. *)
Lemma cga_switch_eq c s :
  screen_ok s →
  (if c mod 256 =? 8 then
     let* p := gets crt_pos in
     if 0 <? p then
       do* set_crt_pos (λ p, p - 1) in
       let* p := gets crt_pos in
       crt_store p (cell c / 256 * 256 + 32)
     else ret tt
   else if c mod 256 =? 10 then
     do* set_crt_pos (λ p, p + CRT_COLS) in set_column0
   else if c mod 256 =? 13 then set_column0
   else
     let* p := gets crt_pos in
     do* set_crt_pos (λ p, p + 1) in
     crt_store p (cell c)) s =
  Ret tt (set_crt (put_cell c (crt_buf s) (crt_pos s)).1 (put_cell c (crt_buf s) (crt_pos s)).2 s).
Proof.
  intros [Hb Hp]. unfold put_cell, set_column0. change CRT_COLS with 80.
  unfold set_crt_pos, bind, gets, modify.
  destruct (Z.eqb_spec (c mod 256) 8) as [->|H8].
  { rewrite decide_True by done. destruct (Z.ltb_spec 0 (crt_pos s)).
    - rewrite decide_True by done. rewrite u16_small by lia.
      rewrite crt_store_eq by (cbn; lia). done.
    - rewrite decide_False by lia. by destruct s. }
  rewrite decide_False by done. destruct (Z.eqb_spec (c mod 256) 10) as [->|H10].
  { rewrite decide_True by done. cbn [crt_buf crt_pos set_crt fst snd].
    rewrite (u16_small (crt_pos s + 80)) by lia. rewrite u16_small by dlia.
    unfold set_crt. cbn. do 2 f_equal. dlia. }
  rewrite decide_False by done. destruct (Z.eqb_spec (c mod 256) 13) as [->|H13].
  { rewrite decide_True by done. cbn [crt_buf crt_pos set_crt fst snd].
    rewrite u16_small by dlia. do 2 f_equal. dlia. }
  rewrite decide_False by done. rewrite u16_small, crt_store_eq by lia. done.
Qed.

Lemma cga_putc_plain_eq c s :
  screen_ok s →
  ∃ s', cga_putc_plain c s = Ret tt s' ∧ screen_ok s' ∧
    scrolled (put_cell c (crt_buf s) (crt_pos s)).1 (put_cell c (crt_buf s) (crt_pos s)).2 s s'.
Proof.
  intros Hok. pose proof Hok as [Hb Hp]. pose proof (put_cell_ok c _ _ Hb Hp) as [Hb' Hp'].
  assert (Z.lor (cell c / 256 * 256) 32 = cell c / 256 * 256 + 32) as Hl
    by (rewrite <- (Z.shiftl_mul_pow2 _ 8), lor_shiftl_add, Z.shiftl_mul_pow2 by lia; done).
  unfold cga_putc_plain. rewrite with_attribute_eq, land_255, cell_mod, ldiff_255, Hl.
  rewrite (bind_eq _ _ _ _ _ (cga_switch_eq c s Hok)).
  rewrite cga_scroll_eq by (cbn [crt_pos set_crt]; lia).
  eexists. split; [reflexivity|].
  assert (scrolled (put_cell c (crt_buf s) (crt_pos s)).1 (put_cell c (crt_buf s) (crt_pos s)).2 s
    (if decide (crt_pos (set_crt (put_cell c (crt_buf s) (crt_pos s)).1
                          (put_cell c (crt_buf s) (crt_pos s)).2 s) < 2000) then _ else _)) as Hs
    by (unfold scrolled; cbn [crt_buf crt_pos set_crt]; by case_decide).
  split; [by eapply scrolled_ok|done].
Qed.

(** One character on the screen, with the scrolling; a tabulator is five spaces. *)
Definition scroll_cells (bp : list Z * Z) : list Z * Z :=
  if decide (bp.2 < 2000) then bp else (drop 80 bp.1 ++ replicate 80 blank, bp.2 - 80).
Definition show (c : Z) (bp : list Z * Z) : list Z * Z := scroll_cells (put_cell c bp.1 bp.2).
Definition show_all (c : Z) (bp : list Z * Z) : list Z * Z :=
  if decide (c mod 256 = 9) then Nat.iter 5 (show 32) bp else show c bp.

Definition screen (s : constate) : list Z * Z := (crt_buf s, crt_pos s).

(** Only the outputs change. *)
Definition out_only (s s' : constate) : Prop :=
  ∃ b p t l, s' = set_tx t l (set_crt b p s).

Lemma out_only_trans s1 s2 s3 : out_only s1 s2 → out_only s2 s3 → out_only s1 s3.
Proof. intros (? & ? & ? & ? & ->) (b & p & t & l & ->). by exists b, p, t, l. Qed.

Lemma scrolled_show c s s' :
  scrolled (put_cell c (crt_buf s) (crt_pos s)).1 (put_cell c (crt_buf s) (crt_pos s)).2 s s' →
  screen s' = show c (screen s) ∧ com_tx s' = com_tx s ∧ lpt_tx s' = lpt_tx s ∧ out_only s s'.
Proof.
  unfold scrolled, show, scroll_cells, screen. cbn [fst snd].
  destruct (put_cell c (crt_buf s) (crt_pos s)) as [b p]. cbn [fst snd]. intros ->.
  case_decide; (split; [done|]); split; [done| |done|]; (split; [done|]);
    unfold out_only; do 4 eexists; unfold set_tx, set_crt; reflexivity.
Qed.

Lemma cons_space_spec s :
  screen_ok s → ∃ s', cons_space s = Ret tt s' ∧ screen_ok s' ∧ out_only s s' ∧
    screen s' = show 32 (screen s) ∧ com_tx s' = 32 :: com_tx s ∧ lpt_tx s' = 32 :: lpt_tx s.
Proof.
  intros [Hb Hp]. unfold cons_space, serial_putc, lpt_putc, bind, modify.
  set (s1 := set_tx _ _ _).
  destruct (cga_putc_plain_eq 32 s1) as (s' & E & Hok' & Hs); [by split|].
  apply scrolled_show in Hs as (Hsc & Ht & Hl & Ho).
  exists s'. split; [exact E|]. split; [done|]. split; [|done].
  eapply out_only_trans; [|exact Ho]. by do 4 eexists.
Qed.

Lemma cons_spaces_spec n : ∀ k s,
  screen_ok s → ∃ s', for_up n k (λ _, cons_space) s = Ret tt s' ∧ screen_ok s' ∧ out_only s s' ∧
    screen s' = Nat.iter n (show 32) (screen s) ∧ com_tx s' = replicate n 32 ++ com_tx s ∧
    lpt_tx s' = replicate n 32 ++ lpt_tx s.
Proof.
  induction n as [|n IH]; intros k s Hok.
  { exists s. do 2 (split; [done|]). split; [|done].
    exists (crt_buf s), (crt_pos s), (com_tx s), (lpt_tx s). by destruct s. }
  destruct (cons_space_spec s Hok) as (s1 & E1 & Hok1 & Ho1 & Hs1 & Ht1 & Hl1).
  destruct (IH (k + 1) s1 Hok1) as (s' & E & Hok' & Ho & Hs & Ht & Hl).
  exists s'. cbn [for_up]. rewrite (bind_eq _ _ _ _ _ E1). split; [exact E|]. split; [done|].
  split; [exact (out_only_trans _ _ _ Ho1 Ho)|].
  rewrite Hs, Hs1, Ht, Ht1, Hl, Hl1, Nat.iter_succ_r, replicate_S_end, <- !app_assoc. done.
Qed.

(** Printing a character always completes and keeps the cursor on the screen,
    so no cell outside the screen is ever written.  The serial and the parallel
    port get the byte (and five spaces after a tabulator); the screen shows it:
    a cell is overwritten, backspace, newline and carriage return move the cursor,
    and when the cursor leaves the last line everything moves up one line and the
    last line is blank.  The input side is untouched. *)
Theorem cons_putc_correct c s :
  screen_ok s →
  ∃ s', cons_putc c s = Ret tt s' ∧ screen_ok s' ∧ out_only s s' ∧
    screen s' = show_all c (screen s) ∧
    let sent := (if decide (c mod 256 = 9) then replicate 5 32 else []) ++ [u8 c] in
    com_tx s' = sent ++ com_tx s ∧ lpt_tx s' = sent ++ lpt_tx s.
Proof.
  intros [Hb Hp]. unfold cons_putc, serial_putc, lpt_putc, bind, modify.
  set (s1 := set_tx _ _ (set_tx _ _ s)). assert (screen_ok s1) as Hok1 by (by split).
  assert (out_only s s1) as Ho1 by (by do 4 eexists).
  unfold cga_putc, show_all. rewrite with_attribute_eq, land_255, cell_mod.
  destruct (Z.eqb_spec (c mod 256) 9) as [H9|H9].
  - rewrite !decide_True by done.
    destruct (cons_spaces_spec 5 0 s1 Hok1) as (s2 & E & Hok2 & Ho & Hs & Ht & Hl).
    exists s2. rewrite (bind_eq _ _ _ _ _ E). pose proof Hok2 as [_ Hp2].
    rewrite cga_scroll_eq, decide_True by lia. split; [done|]. split; [done|].
    split; [exact (out_only_trans _ _ _ Ho1 Ho)|]. rewrite Hs, Ht, Hl. done.
  - rewrite !decide_False by done.
    destruct (cga_putc_plain_eq c s1 Hok1) as (s' & E & Hok' & Hs).
    apply scrolled_show in Hs as (Hsc & Ht & Hl & Ho).
    exists s'. split; [exact E|]. split; [done|]. split; [exact (out_only_trans _ _ _ Ho1 Ho)|].
    rewrite Hsc, Ht, Hl. done.
Qed.

(** A text without tabulators: each byte is sent once and shown. *)
Definition plain (c : Z) : Prop := 0 ≤ c < 256 ∧ c ≠ 9.
Definition show_text (l : list Z) (bp : list Z * Z) : list Z * Z := foldl (λ bp c, show c bp) bp l.
Definition put_text (l : list Z) (s : constate) : constate :=
  set_tx (rev l ++ com_tx s) (rev l ++ lpt_tx s) (set_crt (show_text l (screen s)).1 (show_text l (screen s)).2 s).

Lemma cons_putc_plain c s : screen_ok s → plain c → cons_putc c s = Ret tt (put_text [c] s) ∧ screen_ok (put_text [c] s).
Proof.
  intros Hok [Hc H9]. assert (c mod 256 = c) as Hm by (by apply Z.mod_small).
  destruct (cons_putc_correct c s Hok) as (s' & E & Hok' & (b & p & t & l & ->) & Hs & Ht & Hl).
  unfold show_all, u8 in *. change (2 ^ 8) with 256 in *. rewrite Hm in *. destruct (decide (c = 9)) as [|_]; [done|]. cbn [app] in Ht, Hl.
  change (com_tx (set_tx t l (set_crt b p s))) with t in Ht. change (lpt_tx (set_tx t l (set_crt b p s))) with l in Hl. subst t l.
  assert (put_text [c] s = set_tx (c :: com_tx s) (c :: lpt_tx s) (set_crt b p s)) as -> by (unfold put_text, show_text; cbn [foldl]; rewrite <- Hs; done).
  split; [exact E|exact Hok'].
Qed.

Lemma cons_puts_spec l : ∀ s, screen_ok s → Forall plain l → cons_puts l s = Ret tt (put_text l s) ∧ screen_ok (put_text l s).
Proof.
  induction l as [|c l IH]; intros s Hok Hl.
  { assert (put_text [] s = s) as -> by (by destruct s). done. }
  apply Forall_cons in Hl as [Hc Hl]. destruct (cons_putc_plain c s Hok Hc) as [E Hok1]. destruct (IH _ Hok1 Hl) as [E2 Hok2].
  assert (put_text (c :: l) s = put_text l (put_text [c] s)) as ->.
  { assert (screen (put_text [c] s) = show c (screen s)) as Es by (unfold put_text, show_text; cbn [foldl]; unfold screen at 1; cbn; by destruct (show c (screen s))).
    unfold put_text at 1 2. rewrite Es. cbn [rev]. rewrite <- !app_assoc. done. }
  split; [|done]. cbn [cons_puts]. by rewrite (bind_eq _ _ _ _ _ E).
Qed.

(** ** Draining a device *)

(** The characters the serial port delivers. *)
Definition serial_chars (s : constate) : list Z :=
  if serial_exists s then filter (.≠ 0) (com_rx s) else [].

(** The modifiers after the accepted key events, their characters, and the events
    that stay. *)
Definition accepted (stat : Z) : bool :=
  negb (Z.land stat KBS_DIB =? 0) && negb (ctrue (Z.land stat KBS_TERR)).

Fixpoint kbd_run (sh : Z) (evs : list (Z * Z)) : Z * list Z * list (Z * Z) :=
  match evs with
  | [] => (sh, [], [])
  | (stat, data) :: r =>
      if accepted stat then
        let '(sh', c) := kbd_decode sh data in
        let '(sh'', cs, rest) := kbd_run sh' r in
        (sh'', if decide (c = 0) then cs else c :: cs, rest)
      else (sh, [], evs)
  end.

Lemma u8_byte b : byte b → u8 b = b.
Proof. intros. unfold u8. by apply Z.mod_small. Qed.

Lemma key_map_byte l ds i :
  forallb (λ b, (0 <=? b) && (b <? 256)) (l ++ ds.*2) = true → byte (key_map l ds i).
Proof.
  rewrite forallb_forall. intros H.
  assert (∀ b, b ∈ l ++ ds.*2 → byte b) as Hb.
  { intros b Hin%list_elem_of_In. specialize (H b Hin). zbool. done. }
  unfold key_map. destruct (list_find _ _) as [[k [j v]]|] eqn:E.
  - apply list_find_Some in E as (E & _ & _). apply Hb, elem_of_app. right.
    apply list_elem_of_fmap. exists (j, v). split; [done|]. by eapply list_elem_of_lookup_2.
  - destruct (l !! Z.to_nat i) as [b|] eqn:El; cbn; [|by split].
    apply Hb, elem_of_app. left. by eapply list_elem_of_lookup_2.
Qed.

Lemma charcode_byte k d : byte (charcode k d).
Proof. unfold charcode. repeat case_match; by apply key_map_byte. Qed.

Lemma kbd_decode_byte sh d : byte (kbd_decode sh d).2.
Proof.
  unfold kbd_decode. destruct (d =? 0xE0); [by split|].
  destruct (ctrue (Z.land d 0x80)); [by split|].
  assert (∀ k d sh', byte (if ctrue (Z.land sh' CAPSLOCK) then
    if (97 <=? charcode k d) && (charcode k d <=? 122) then charcode k d + (65 - 97)
    else if (65 <=? charcode k d) && (charcode k d <=? 90) then charcode k d + (97 - 65)
    else charcode k d else charcode k d)) as H.
  { intros k d' sh'. pose proof (charcode_byte k d') as [H0 H1].
    repeat case_match; zbool; split; lia. }
  destruct (ctrue (Z.land sh E0ESC)); cbn [snd]; apply H.
Qed.

Lemma serial_drain fuel : ∀ s,
  (length (com_rx s) < fuel)%nat → ring_ok s → Forall byte (com_rx s) →
  ∃ s', cons_intr_loop fuel serial_proc_data s = Ret tt s' ∧ ring_ok s' ∧
    ring_only (set_com_rx [] s) s' ∧
    queue s' = foldl enqueue (queue s) (filter (.≠ 0) (com_rx s)).
Proof.
  induction fuel as [|fuel IH]; intros s Hf Hok Hb; [lia|].
  destruct (com_rx s) as [|b r] eqn:Hrx; cbn [cons_intr_loop]; unfold bind, serial_proc_data at 1;
    rewrite Hrx; cbn beta iota.
  { exists s. split; [done|]. split; [done|]. split; [|done].
    exists (buf s), (rpos s), (wpos s). destruct s; cbn in *; by subst. }
  inversion_clear Hb as [|? ? [H0 H1] Hr]. rewrite (proj2 (Z.eqb_neq b (-1))) by lia.
  cbn in Hf. set (s1 := set_com_rx r s).
  assert (ring_ok s1) as Hok1 by (by destruct Hok).
  destruct (Z.eqb_spec b 0) as [->|Hb0].
  { destruct (IH s1) as (s' & E & Hok' & Hro & Hq); [cbn; lia|done|done|].
    exists s'. rewrite filter_cons_False by (intros H; by apply H). done. }
  destruct (cons_push_spec s1 b Hok1) as (s2 & E2 & Hok2 & (b2 & r2 & w2 & ->) & Hq2).
  rewrite E2. cbn beta iota.
  destruct (IH (set_ring b2 r2 w2 s1)) as (s' & E & Hok' & (b3 & r3 & w3 & ->) & Hq);
    [cbn; lia|done|done|].
  eexists. split; [exact E|]. split; [done|]. split; [by exists b3, r3, w3|].
  rewrite Hq, Hq2, filter_cons_True by done. by rewrite u8_byte.
Qed.

(** What the accepted events print: a text for each Ctrl-Alt-Del. *)
Fixpoint kbd_reboots (sh : Z) (evs : list (Z * Z)) : nat :=
  match evs with
  | [] => 0
  | (stat, data) :: r =>
      if accepted stat then
        let '(sh', c) := kbd_decode sh data in
        ((if kbd_reboot sh' c then 1 else 0) + kbd_reboots sh' r)%nat
      else 0
  end.
Definition warned (k : nat) (s : constate) : constate := Nat.iter k (put_text rebooting) s.

(** The texts come out the same whatever else of the state has changed. *)
Lemma put_text_ring l b r w s : put_text l (set_ring b r w s) = set_ring b r w (put_text l s).
Proof. done. Qed.
Lemma put_text_kbd l sh e n s : put_text l (set_kbd sh e n s) = set_kbd sh e n (put_text l s).
Proof. done. Qed.

Lemma warned_S k s : warned (S k) s = put_text rebooting (warned k s).
Proof. reflexivity. Qed.

Lemma kbd_proc_accepted s stat data r :
  screen_ok s → kbd_in s = (stat, data) :: r → accepted stat = true →
  kbd_proc_data s = let '(sh, c) := kbd_decode (shift s) data in let k := if kbd_reboot sh c then 1%nat else 0%nat in
    Ret c (set_kbd sh r (k + reboots s) (warned k s)).
Proof.
  unfold accepted, kbd_proc_data. intros Hok -> [H1%negb_true_iff H2%negb_true_iff]%andb_prop.
  rewrite H1, H2. destruct (kbd_decode (shift s) data) as [sh c]. destruct (kbd_reboot sh c); [|done].
  destruct (cons_puts_spec rebooting (set_kbd sh r (reboots s) s)) as [E _]; [by destruct Hok|repeat (constructor; [split; [split; done|done]|]); constructor|].
  unfold bind at 1 2. rewrite E, put_text_kbd. change (warned 1 s) with (put_text rebooting s). generalize (put_text rebooting s) as x. intros x. reflexivity.
Qed.

Lemma kbd_proc_refused s :
  match kbd_in s with [] => True | (stat, _) :: _ => accepted stat = false end →
  kbd_proc_data s = Ret (-1) s.
Proof.
  unfold accepted, kbd_proc_data. destruct (kbd_in s) as [|[stat data] r]; [done|].
  destruct (Z.land stat KBS_DIB =? 0); [done|]. by destruct (ctrue _).
Qed.

Lemma warned_fields k s : screen_ok s → screen_ok (warned k s) ∧ ∃ t l b p, warned k s = set_tx t l (set_crt b p s).
Proof.
  intros Hok. induction k as [|k [IH (t & l & b & p & E)]]; [split; [done|]; exists (com_tx s), (lpt_tx s), (crt_buf s), (crt_pos s); by destruct s|].
  split; [apply cons_puts_spec; [done|]; repeat (constructor; [split; [split; done|done]|]); constructor|].
  rewrite warned_S, E. generalize rebooting as l0. intros l0. unfold put_text. by do 4 eexists.
Qed.

Lemma warned_ring k b r w s : warned k (set_ring b r w s) = set_ring b r w (warned k s).
Proof. induction k as [|k IH]; [done|]. rewrite !warned_S, IH. apply put_text_ring. Qed.
Lemma warned_kbd k sh e n s : warned k (set_kbd sh e n s) = set_kbd sh e n (warned k s).
Proof. induction k as [|k IH]; [done|]. rewrite !warned_S, IH. apply put_text_kbd. Qed.
Lemma warned_add k j s : warned k (warned j s) = warned (j + k) s.
Proof. unfold warned. by rewrite (Nat.add_comm j k), Nat.iter_add. Qed.

Lemma warned_outputs k s : screen (warned k s) = Nat.iter k (show_text rebooting) (screen s) ∧
  com_tx (warned k s) = Nat.iter k (app (rev rebooting)) (com_tx s) ∧ lpt_tx (warned k s) = Nat.iter k (app (rev rebooting)) (lpt_tx s) ∧
  ∃ t l b p, warned k s = set_tx t l (set_crt b p s).
Proof.
  induction k as [|k (A & B & C & (t & l & b & p & D))]; [do 3 (split; [done|]); exists (com_tx s), (lpt_tx s), (crt_buf s), (crt_pos s); by destruct s|].
  rewrite !Nat.iter_succ, warned_S, <- A, <- B, <- C. generalize rebooting as l0. intros l0. split; [unfold screen at 1, put_text; cbn; by destruct (show_text _ _)|].
  do 2 (split; [done|]). rewrite D. by do 4 eexists.
Qed.

Lemma kbd_drain fuel : ∀ s,
  (length (kbd_in s) < fuel)%nat → ring_ok s → screen_ok s →
  ∃ s', cons_intr_loop fuel kbd_proc_data s = Ret tt s' ∧ ring_ok s' ∧
    let '(sh, cs, rest) := kbd_run (shift s) (kbd_in s) in
    let k := kbd_reboots (shift s) (kbd_in s) in
    ring_only (set_kbd sh rest (k + reboots s) (warned k s)) s' ∧ queue s' = foldl enqueue (queue s) cs.
Proof.
  induction fuel as [|fuel IH]; intros s Hf Hok Hsc; [lia|]. cbn [cons_intr_loop]. unfold bind.
  assert (∀ sh evs, shift s = sh → kbd_in s = evs → ring_only (set_kbd sh evs (0 + reboots s) (warned 0 s)) s) as Hsame.
  { intros sh evs <- <-. exists (buf s), (rpos s), (wpos s). by destruct s. }
  destruct (kbd_in s) as [|[stat data] r] eqn:Hin.
  { rewrite kbd_proc_refused by (by rewrite Hin). exists s. do 2 (split; [done|]). split; [by apply Hsame|done]. }
  cbn [kbd_run kbd_reboots]. destruct (accepted stat) eqn:Hacc.
  2: { rewrite kbd_proc_refused by (by rewrite Hin). exists s. do 2 (split; [done|]). split; [by apply Hsame|done]. }
  rewrite (kbd_proc_accepted s stat data r Hsc Hin Hacc).
  pose proof (kbd_decode_byte (shift s) data) as [H0 H1].
  destruct (kbd_decode (shift s) data) as [sh c]. cbn [snd] in H0, H1. cbv beta iota zeta.
  rewrite (proj2 (Z.eqb_neq c (-1))) by lia. cbn in Hf. set (j := if kbd_reboot sh c then 1%nat else 0%nat).
  set (s1 := set_kbd sh r (j + reboots s) (warned j s)). destruct (warned_fields j s Hsc) as [Hscj (t & l & b & p & Ej)].
  assert (ring_ok s1 ∧ screen_ok s1 ∧ queue s1 = queue s ∧ kbd_in s1 = r ∧ shift s1 = sh) as (Hok1 & Hsc1 & Hq1 & Hi1 & Hs1).
  { split; [subst s1; rewrite Ej; by destruct Hok|]. split; [by destruct Hscj|]. split; [subst s1; by rewrite Ej|done]. }
  assert (∀ k sh' rest b' r' w', set_kbd sh' rest (k + reboots s1) (warned k (set_ring b' r' w' s1)) = set_ring b' r' w' (set_kbd sh' rest (j + k + reboots s) (warned (j + k) s))) as Hall.
  { intros. rewrite warned_ring. subst s1. rewrite warned_kbd, warned_add. cbn [reboots set_kbd]. by replace (k + (j + reboots s))%nat with (j + k + reboots s)%nat by lia. }
  destruct (Z.eqb_spec c 0) as [->|Hc0].
  { destruct (IH s1) as (s' & E & Hok' & Hk); [rewrite Hi1; lia|done|done|]. exists s'. rewrite Hi1, Hs1, Hq1 in Hk.
    destruct (kbd_run sh r) as [[sh' cs] rest]. destruct Hk as [(b3 & r3 & w3 & ->) Hq]. split; [exact E|]. split; [done|].
    split; [|done]. pose proof (Hall (kbd_reboots sh r) sh' rest (buf s1) (rpos s1) (wpos s1)) as Hx. exists b3, r3, w3.
    assert (set_ring (buf s1) (rpos s1) (wpos s1) s1 = s1) as Es by (by destruct s1). rewrite Es in Hx. rewrite Hx. done. }
  destruct (cons_push_spec s1 c Hok1) as (s2 & E2 & Hok2 & (b2 & r2 & w2 & ->) & Hq2).
  rewrite E2. destruct (IH (set_ring b2 r2 w2 s1)) as (s' & E & Hok' & Hk); [cbn [kbd_in set_ring]; rewrite Hi1; lia|done|by destruct Hsc1|].
  cbn [shift kbd_in set_ring] in Hk. rewrite Hs1, Hi1 in Hk. cbn [reboots set_ring] in Hk.
  destruct (kbd_run sh r) as [[sh' cs] rest]. cbv zeta in Hk. rewrite Hall in Hk. destruct Hk as [(b3 & r3 & w3 & ->) Hq].
  eexists. split; [exact E|]. split; [done|]. rewrite decide_False by done.
  split; [by exists b3, r3, w3|]. rewrite Hq, Hq2, Hq1. by rewrite u8_byte.
Qed.

(** Characters are lost 512 at a time. *)
Lemma enqueue_all q cs :
  (length q < 512)%nat →
  foldl enqueue q cs = drop (512 * (length (q ++ cs) / 512)) (q ++ cs).
Proof.
  intros Hq. induction cs as [|c cs IH] using rev_ind.
  { cbn [foldl]. rewrite app_nil_r, Nat.div_small by done. by rewrite Nat.mul_0_r, drop_0. }
  rewrite foldl_app, IH, (app_assoc q cs [c]). cbn [foldl]. unfold enqueue.
  set (l := q ++ cs). rewrite length_drop, length_app. cbn [length].
  set (L := length l).
  pose proof (Nat.div_mod_eq L 512) as HL. pose proof (Nat.mod_upper_bound L 512) as Hm.
  case_decide as Hfull.
    replace ((L + 1) / 512)%nat with (L / 512 + 1)%nat
      by (apply (Nat.div_unique _ _ _ 0); lia).
    symmetry. apply length_zero_iff_nil. rewrite length_drop, length_app. cbn [length]. fold L. lia.
  - replace ((L + 1) / 512)%nat with (L / 512)%nat
      by (apply (Nat.div_unique _ _ _ (L mod 512 + 1)); lia).
    rewrite drop_app_le by (fold L; lia). done.
Qed.

Definition kbd_chars (s : constate) : list Z := (kbd_run (shift s) (kbd_in s)).1.2.

Lemma cons_getc_take s :
  ring_ok s →
  ∃ s', (let* r := gets rpos in
         let* w := gets wpos in
         if negb (r =? w) then
           let* b := gets buf in
           let* c := deref (b !! Z.to_nat r) in
           let r' := u32 (r + 1) in
           do* modify (λ s, set_ring (buf s) (if r' =? CONSBUFSIZE then 0 else r') (wpos s) s) in
           ret c
         else ret 0) s = Ret (default 0 (head (queue s))) s' ∧
    ring_ok s' ∧ ring_only s s' ∧ queue s' = tail (queue s).
Proof.
  intros Hok. pose proof Hok as [Hb Hr Hw]. unfold bind at 1 2, gets at 1 2.
  unfold queue at 1 3. destruct (Z.eqb_spec (rpos s) (wpos s)) as [E|Hne]; cbn [negb].
  { exists s. replace (pending s) with 0 by (unfold pending; rewrite E, Z.sub_diag; done).
    do 2 (split; [done|]). split; [apply ring_only_refl|]. unfold queue, pending.
    by rewrite E, Z.sub_diag. }
  assert (0 < pending s < 512) as Hp by (unfold pending; dlia).
  destruct (lookup_lt_is_Some_2 (buf s) (Z.to_nat (rpos s))) as [c Hc]; [lia|].
  unfold bind, gets. rewrite Hc. cbn [deref ret modify]. unfold u32. rewrite Z.mod_small by lia.
  rewrite seqZ_cons by lia. cbn [fmap list_fmap head tail default].
  change CONSBUFSIZE with 512. set (r' := if rpos s + 1 =? 512 then 0 else rpos s + 1).
  assert (r' = (rpos s + 1) mod 512) as Hr'.
  { unfold r'. destruct (Z.eqb_spec (rpos s + 1) 512) as [->|]; [done|].
    by rewrite Z.mod_small by lia. }
  eexists. split.
  { cbn. unfold slot. rewrite Z.add_0_r, Z.mod_small, Hc by lia. reflexivity. }
  split; [split; cbn; [done|rewrite Hr'; apply Z.mod_pos_bound; lia|lia]|].
  split; [by do 3 eexists|]. unfold queue, pending at 1. cbn [rpos wpos set_ring].
  replace ((wpos s - r') mod 512) with (pending s - 1) by (rewrite Hr'; unfold pending in *; dlia).
  apply list_eq. intros k. rewrite !list_lookup_fmap.
  destruct (decide (Z.of_nat k < pending s - 1)).
  - rewrite !lookup_seqZ_lt by lia. cbn. f_equal. unfold slot. cbn. do 3 f_equal.
    rewrite Hr'. dlia.
  - by rewrite !lookup_seqZ_ge by lia.
Qed.

(** C32. [cons_getc] is a queue: it always returns, with the oldest character not
    yet read, or 0 when there is none.  The characters waiting in the serial port
    and then those of the keyboard are appended first, in order, without the
    zeros.  The buffer holds 511 characters: each time a 512th is added all of
    them are lost.  Nothing is printed but the warning of [kbd_proc_data], once for
    each Ctrl-Alt-Del among the keys, which also asks for the reset. *)
Theorem cons_getc_correct s :
  ring_ok s → screen_ok s → Forall byte (com_rx s) →
  let all := queue s ++ serial_chars s ++ kbd_chars s in
  let q := drop (512 * (length all / 512)) all in
  let k := kbd_reboots (shift s) (kbd_in s) in
  ∃ s', cons_getc s = Ret (default 0 (head q)) s' ∧ ring_ok s' ∧ queue s' = tail q ∧
    com_rx s' = (if serial_exists s then [] else com_rx s) ∧
    (shift s', kbd_in s') = ((kbd_run (shift s) (kbd_in s)).1.1, (kbd_run (shift s) (kbd_in s)).2) ∧
    screen s' = Nat.iter k (show_text rebooting) (screen s) ∧ reboots s' = (k + reboots s)%nat ∧
    com_tx s' = Nat.iter k (app (rev rebooting)) (com_tx s) ∧ lpt_tx s' = Nat.iter k (app (rev rebooting)) (lpt_tx s).
Proof.
  intros Hok Hsc Hb all q k.
  assert (∃ s1, serial_intr s = Ret tt s1 ∧ ring_ok s1 ∧
    ring_only (set_com_rx (if serial_exists s then [] else com_rx s) s) s1 ∧
    queue s1 = foldl enqueue (queue s) (serial_chars s)) as (s1 & E1 & Hok1 & Hro1 & Hq1).
  { unfold serial_intr, bind, gets, serial_chars. destruct (serial_exists s).
    - apply serial_drain; [lia|done|done].
    - exists s. do 2 (split; [done|]). split; [|done].
      exists (buf s), (rpos s), (wpos s). by destruct s. }
  destruct Hro1 as (b1 & r1 & w1 & Es1).
  destruct (kbd_drain (S (length (com_rx s1) + length (kbd_in s1))) s1) as (s2 & E2 & Hok2 & Hk);
    [lia|done|rewrite Es1; by destruct Hsc|].
  assert (shift s1 = shift s ∧ kbd_in s1 = kbd_in s) as [Esh Ein] by (by rewrite Es1).
  rewrite Esh, Ein in Hk. fold k in Hk. unfold kbd_chars in all.
  destruct (kbd_run (shift s) (kbd_in s)) as [[sh cs] rest]. destruct Hk as [(b2 & r2 & w2 & Es2) Hq2].
  destruct (cons_getc_take s2 Hok2) as (s3 & E3 & Hok3 & (b3 & r3 & w3 & Es3) & Hq3).
  assert (queue s2 = q) as Hq.
  { rewrite Hq2, Hq1, <- foldl_app. apply enqueue_all. rewrite queue_length.
    unfold pending. pose proof (Z.mod_pos_bound (wpos s - rpos s) 512). lia. }
  exists s3. rewrite <- Hq. split; [|split; [done|split; [done|]]].
  - unfold cons_getc. rewrite (bind_eq _ _ _ _ _ E1).
    rewrite (bind_eq kbd_intr _ s1 tt s2 E2). exact E3.
  - rewrite Es3, Es2, Es1. clear. rewrite warned_ring. destruct (warned_outputs k (set_com_rx (if serial_exists s then [] else com_rx s) s)) as (A & B & C & (t & l & b & p & D)).
    cbn [com_rx shift kbd_in reboots com_tx lpt_tx set_ring set_kbd]. rewrite B, C. split; [by rewrite D|]. split; [done|]. split; [exact A|]. done.
Qed.

(** A ring with one free slot, one more byte in the serial port, and Ctrl-Alt-Del. *)
Definition full_cons : constate :=
  MkCons (replicate 512 65) 0 511 true 0 (replicate 2000 blank) 0 [66]
    [(1, 0x1E); (1, 0x1D); (1, 0x38); (1, 0xE0); (1, 0x53)] [] [] 0.

Lemma cons_getc_correct_witness :
  length (queue full_cons) = 511%nat ∧ 
    ∃ s', cons_getc full_cons = Ret 97 s' ∧ queue s' = [KEY_DEL] ∧ reboots s' = 1%nat ∧ com_tx s' = rev rebooting.
Proof.
  split; [vm_compute; reflexivity|].
  destruct (cons_getc_correct full_cons) as (s' & E & _ & Hq & _ & _ & _ & Hr & Ht & _).
  - split; vm_compute; repeat split; congruence.
  - split; vm_compute; repeat split; congruence.
  - repeat constructor; vm_compute; congruence.
  - exists s'. split; [etransitivity; [exact E|]|split; [etransitivity; [exact Hq|]|split; [etransitivity; [exact Hr|]|etransitivity; [exact Ht|]]]]; vm_compute; reflexivity.
Defined.

(** The last cell of the screen, then a newline. *)
Definition last_cell : constate :=
  MkCons [] 0 0 true 0 (replicate 2000 blank) 1999 [] [] [] [] 0.

Lemma cons_putc_correct_witness :
  ∃ s', cons_putc 65 last_cell = Ret tt s' ∧ crt_pos s' = 1920 ∧
    crt_buf s' !! 1919%nat = Some (0x0700 + 65) ∧ com_tx s' = [65].
Proof.
  destruct (cons_putc_correct 65 last_cell) as (s' & E & _ & _ & Hs & Ht & _).
  - split; vm_compute; repeat split; congruence.
  - exists s'. split; [exact E|].
    assert (crt_buf s' = (show_all 65 (screen last_cell)).1) as -> by (rewrite <- Hs; reflexivity).
    assert (crt_pos s' = (show_all 65 (screen last_cell)).2) as -> by (rewrite <- Hs; reflexivity).
    rewrite Ht. vm_compute. repeat split; reflexivity.
Defined.
