(* ===== verification/Spinlock.v ===== *)
(** * The big kernel lock ([kernel/spinlock.c])

    Processors run [spin_lock] and [spin_unlock], with the checks of
    [DEBUG_SPINLOCK], on one lock.  Each access to the lock's fields is a step of
    its own and the steps of different processors interleave in any order
    (sequentially consistent memory).  A processor outside the two functions may
    call either of them at any time, also wrongly. *)

From stdpp Require Import base functions relations.
From Stdlib Require Import ZArith Lia.
From S2P Require Import Prelude.

(** Where a processor is.  The flag says whether it held the lock when it made the
    call it is in. *)
Inductive pc :=
| Outside                      (* does not hold the lock *)
| Critical                     (* holds the lock *)
| LockCheck1 (h : bool)        (* [holding]: reads [locked] *)
| LockCheck2 (h : bool)        (* [holding]: reads [cpu] *)
| LockXchg (h : bool)          (* [xchg(&lk->locked, 1)] *)
| LockSetCpu (h : bool)        (* [lk->cpu = thiscpu] *)
| UnlockCheck1 (h : bool)
| UnlockCheck2 (h : bool)
| UnlockClear (h : bool)       (* [lk->cpu = NULL] *)
| UnlockXchg (h : bool)        (* [xchg(&lk->locked, 0)] *)
| PanicLock (h : bool)         (* "already holding" *)
| PanicUnlock (h : bool).      (* "spin_unlock" *)

Record spinlock := MkLock {
  locked : Z;
  lk_cpu : option nat;
  at_pc : nat → pc
}.

Inductive call := spin_lock | spin_unlock.

Definition goto (c : nat) (p : pc) (s : spinlock) : spinlock :=
  MkLock (locked s) (lk_cpu s) (<[c := p]> (at_pc s)).

(** The next step of processor [c]; [a] is what it calls when it is in neither
    function.  A processor that has panicked makes no step. *)
Definition spin_step (c : nat) (a : call) (s : spinlock) : option spinlock :=
  match at_pc s c with
  | Outside =>
      Some (goto c (match a with spin_lock => LockCheck1 false
                    | spin_unlock => UnlockCheck1 false end) s)
  | Critical =>
      Some (goto c (match a with spin_lock => LockCheck1 true
                    | spin_unlock => UnlockCheck1 true end) s)
  | LockCheck1 h => Some (goto c (if ctrue (locked s) then LockCheck2 h else LockXchg h) s)
  | LockCheck2 h =>
      Some (goto c (if bool_decide (lk_cpu s = Some c) then PanicLock h else LockXchg h) s)
  | LockXchg h =>
      Some (MkLock 1 (lk_cpu s)
              (<[c := if ctrue (locked s) then LockXchg h else LockSetCpu h]> (at_pc s)))
  | LockSetCpu h => Some (MkLock (locked s) (Some c) (<[c := Critical]> (at_pc s)))
  | UnlockCheck1 h =>
      Some (goto c (if ctrue (locked s) then UnlockCheck2 h else PanicUnlock h) s)
  | UnlockCheck2 h =>
      Some (goto c (if bool_decide (lk_cpu s = Some c) then UnlockClear h else PanicUnlock h) s)
  | UnlockClear h => Some (MkLock (locked s) None (<[c := UnlockXchg h]> (at_pc s)))
  | UnlockXchg h => Some (MkLock 0 (lk_cpu s) (<[c := Outside]> (at_pc s)))
  | PanicLock _ | PanicUnlock _ => None
  end.

(** [kernel_lock] as it is initialised, [__spin_initlock]. *)
Definition spin_init : spinlock := MkLock 0 None (λ _, Outside).

Definition run_step (s s' : spinlock) : Prop := ∃ c a, spin_step c a s = Some s'.

(** A run given by who moves and what is called. *)
Fixpoint spin_run (l : list (nat * call)) (s : spinlock) : option spinlock :=
  match l with
  | [] => Some s
  | (c, a) :: l' => match spin_step c a s with Some s' => spin_run l' s' | None => None end
  end.

(** ** The invariant *)

(** The lock was taken by this processor and not yet given back. *)
Definition owns (p : pc) : bool :=
  match p with
  | Critical | LockSetCpu _ => true
  | Outside => false
  | LockCheck1 h | LockCheck2 h | LockXchg h | UnlockCheck1 h | UnlockCheck2 h
  | UnlockClear h | UnlockXchg h | PanicLock h | PanicUnlock h => h
  end.

(** The field [cpu] names this processor. *)
Definition recorded (p : pc) : bool :=
  match p with
  | Critical => true
  | LockCheck1 h | LockCheck2 h | UnlockCheck1 h | UnlockCheck2 h | UnlockClear h
  | PanicLock h => h
  | _ => false
  end.

(** Only correct calls get past the checks, only wrong ones panic. *)
Definition checked (p : pc) : bool :=
  match p with
  | LockXchg h | LockSetCpu h | PanicUnlock h => negb h
  | UnlockClear h | UnlockXchg h | PanicLock h => h
  | _ => true
  end.

Record lock_inv (s : spinlock) : Prop := MkLockInv {
  li_locked : ∀ c, owns (at_pc s c) = true → locked s = 1;
  li_unique : ∀ c c', owns (at_pc s c) = true → owns (at_pc s c') = true → c = c';
  li_cpu : ∀ c, recorded (at_pc s c) = true ↔ lk_cpu s = Some c;
  li_checked : ∀ c, checked (at_pc s c) = true
}.

Lemma spin_init_inv : lock_inv spin_init.
Proof. by split. Qed.

(** A processor moves without touching the lock. *)
Lemma goto_inv s c p :
  lock_inv s → owns p = owns (at_pc s c) → recorded p = recorded (at_pc s c) →
  checked p = true → lock_inv (goto c p s).
Proof.
  intros [Hl Hu Hc Hk] Ho Hr Hp.
  assert (∀ x, owns (at_pc (goto c p s) x) = owns (at_pc s x)) as Eo.
  { intros x. cbn. destruct (decide (c = x)) as [<-|];
      [by rewrite fn_lookup_insert|by rewrite fn_lookup_insert_ne]. }
  assert (∀ x, recorded (at_pc (goto c p s) x) = recorded (at_pc s x)) as Er.
  { intros x. cbn. destruct (decide (c = x)) as [<-|];
      [by rewrite fn_lookup_insert|by rewrite fn_lookup_insert_ne]. }
  split.
  - intros x. rewrite Eo. apply Hl.
  - intros x y. rewrite !Eo. apply Hu.
  - intros x. rewrite Er. apply Hc.
  - intros x. cbn. destruct (decide (c = x)) as [<-|];
      [by rewrite fn_lookup_insert|by rewrite fn_lookup_insert_ne].
Qed.

(** ** Every step keeps it *)

Lemma insert_pc (f : nat → pc) c p x :
  <[c := p]> f x = if decide (c = x) then p else f x.
Proof. case_decide as H; [subst; apply fn_lookup_insert|by apply fn_lookup_insert_ne]. Qed.

Ltac split_inv :=
  split; intros; cbn [at_pc locked lk_cpu] in *;
  repeat match goal with H : context [<[_ := _]> _ _] |- _ => rewrite insert_pc in H end;
  rewrite ?insert_pc; repeat case_decide; subst; cbn in *.

(** The goals the old invariant settles. *)
Ltac lock_auto :=
  try done;
  try match goal with
  | H : ∀ c, owns _ = true → locked _ = 1 |- locked _ = 1 => by eapply H
  | H : ∀ c c', owns _ = true → owns _ = true → c = c' |- _ = _ => by eapply H
  | H : ∀ c, recorded _ = true ↔ _ |- _ ↔ _ => by apply H
  | H : ∀ c, checked _ = true |- checked _ = true => by apply H
  end.

Lemma xchg_inv s c h :
  lock_inv s → at_pc s c = LockXchg h →
  lock_inv (MkLock 1 (lk_cpu s)
    (<[c := if ctrue (locked s) then LockXchg h else LockSetCpu h]> (at_pc s))).
Proof.
  intros [Hl Hu Hc Hk] Hpc. pose proof (Hk c) as Hh. rewrite Hpc in Hh.
  pose proof (Hc c) as Hr. rewrite Hpc in Hr. cbn in Hh, Hr. destruct h; [done|].
  destruct (ctrue (locked s)) eqn:E.
  - split_inv; lock_auto.
  - apply ctrue_false in E.
    assert (∀ x, owns (at_pc s x) = true → False) as Hno
      by (intros x Hx; specialize (Hl x Hx); lia).
    split_inv; lock_auto; by edestruct Hno.
Qed.

Lemma set_cpu_inv s c h :
  lock_inv s → at_pc s c = LockSetCpu h →
  lock_inv (MkLock (locked s) (Some c) (<[c := Critical]> (at_pc s))).
Proof.
  intros [Hl Hu Hc Hk] Hpc. assert (owns (at_pc s c) = true) as Hown by (by rewrite Hpc).
  assert (∀ x, recorded (at_pc s x) = true → owns (at_pc s x) = true) as Hro
    by (intros x; by destruct (at_pc s x)).
  split_inv; lock_auto.
  split; [intros Hx|congruence]. by destruct (Hu c c0 Hown (Hro _ Hx)).
Qed.

Lemma clear_inv s c h :
  lock_inv s → at_pc s c = UnlockClear h →
  lock_inv (MkLock (locked s) None (<[c := UnlockXchg h]> (at_pc s))).
Proof.
  intros [Hl Hu Hc Hk] Hpc. pose proof (Hk c) as Hh. rewrite Hpc in Hh. cbn in Hh. subst h.
  assert (owns (at_pc s c) = true) as Hown by (by rewrite Hpc).
  assert (lk_cpu s = Some c) as Hcpu by (apply Hc; by rewrite Hpc).
  split_inv; lock_auto.
  split; [intros Hx%Hc; congruence|done].
Qed.

Lemma release_inv s c h :
  lock_inv s → at_pc s c = UnlockXchg h →
  lock_inv (MkLock 0 (lk_cpu s) (<[c := Outside]> (at_pc s))).
Proof.
  intros [Hl Hu Hc Hk] Hpc. pose proof (Hk c) as Hh. rewrite Hpc in Hh. cbn in Hh. subst h.
  assert (owns (at_pc s c) = true) as Hown by (by rewrite Hpc).
  pose proof (Hc c) as Hr. rewrite Hpc in Hr.
  split_inv; lock_auto. by destruct (Hu c c0 Hown).
Qed.

Lemma spin_step_inv c a s s' : lock_inv s → spin_step c a s = Some s' → lock_inv s'.
Proof.
  intros Hinv. pose proof (li_checked _ Hinv c) as Hk. pose proof (li_cpu _ Hinv c) as Hc.
  pose proof (li_locked _ Hinv c) as Hl. unfold spin_step.
  destruct (at_pc s c) as [| |h|h|h|h|h|h|h|h|h|h] eqn:Hpc; intros [= <-]; cbn in Hk, Hc, Hl.
  - apply goto_inv; rewrite ?Hpc; by destruct a.
  - apply goto_inv; rewrite ?Hpc; by destruct a.
  - destruct (ctrue (locked s)) eqn:E; apply goto_inv; rewrite ?Hpc; try done; cbn.
    + apply ctrue_false in E. destruct h; [by rewrite Hl in E by done|done].
    + apply ctrue_false in E. destruct h; [by rewrite Hl in E by done|done].
  - case_bool_decide as E; apply goto_inv; rewrite ?Hpc; try done; cbn; [by apply Hc| |];
      destruct h; try done; by destruct E; apply Hc.
  - by apply xchg_inv.
  - by eapply set_cpu_inv.
  - destruct (ctrue (locked s)) eqn:E; apply goto_inv; rewrite ?Hpc; try done; cbn;
      apply ctrue_false in E; destruct h; try done; by rewrite Hl in E by done.
  - case_bool_decide as E; apply goto_inv; rewrite ?Hpc; try done; cbn; [by apply Hc| |];
      destruct h; try done; by destruct E; apply Hc.
  - by eapply clear_inv.
  - by eapply release_inv.
Qed.

Lemma run_inv s : rtc run_step spin_init s → lock_inv s.
Proof.
  intros H. assert (lock_inv spin_init → lock_inv s) as Hi; [|apply Hi, spin_init_inv].
  induction H as [|x y z (c & a & E) _ IH]; [done|]. intros Hx. apply IH. by eapply spin_step_inv.
Qed.

(** C31. Whatever the processors call and however their steps interleave, at most
    one of them holds the lock; while it does the lock is closed and names it.  A
    processor panics in [spin_lock] only if it held the lock already, and in
    [spin_unlock] only if it did not hold it. *)
Theorem spin_mutual_exclusion s :
  rtc run_step spin_init s →
  (∀ c c', at_pc s c = Critical → at_pc s c' = Critical → c = c') ∧
  (∀ c, at_pc s c = Critical → locked s = 1 ∧ lk_cpu s = Some c) ∧
  (∀ c h, at_pc s c = PanicLock h → h = true ∧ lk_cpu s = Some c) ∧
  (∀ c h, at_pc s c = PanicUnlock h → h = false).
Proof.
  intros [Hl Hu Hc Hk]%run_inv. split; [|split; [|split]].
  - intros c c' E E'. apply Hu; [by rewrite E|by rewrite E'].
  - intros c E. split; [apply (Hl c); by rewrite E|apply Hc; by rewrite E].
  - intros c h E. pose proof (Hk c) as H. rewrite E in H. cbn in H. subst h.
    split; [done|]. apply Hc. by rewrite E.
  - intros c h E. pose proof (Hk c) as H. rewrite E in H. by destruct h.
Qed.

Lemma spin_run_reach l : ∀ s s', spin_run l s = Some s' → rtc run_step s s'.
Proof.
  induction l as [|[c a] l IH]; intros s s'; cbn; [intros [= ->]; constructor|].
  destruct (spin_step c a s) as [s1|] eqn:E; [|done]. intros H.
  eapply rtc_l; [by exists c, a|by apply IH].
Qed.

(** Two processors race for the lock; the first one takes it and calls [spin_lock]
    again, the second keeps spinning. *)
Definition race : list (nat * call) :=
  [(0%nat, spin_lock); (1%nat, spin_lock); (0%nat, spin_lock); (1%nat, spin_lock);
   (0%nat, spin_lock); (1%nat, spin_lock); (0%nat, spin_lock); (0%nat, spin_lock);
   (0%nat, spin_lock); (0%nat, spin_lock); (1%nat, spin_lock)].

Lemma spin_mutual_exclusion_witness :
  ∃ s, spin_run race spin_init = Some s ∧ at_pc s 0%nat = PanicLock true ∧
    lk_cpu s = Some 0%nat ∧ at_pc s 1%nat = LockXchg false.
Proof.
  destruct (spin_run race spin_init) as [s|] eqn:E; [|vm_compute in E; discriminate E].
  exists s. split; [reflexivity|].
  assert (at_pc s 0%nat = PanicLock true ∧ at_pc s 1%nat = LockXchg false) as [H0 H1]
    by (vm_compute in E; injection E as <-; split; reflexivity).
  destruct (spin_mutual_exclusion s (spin_run_reach race spin_init s E)) as (_ & _ & H & _).
  split; [exact H0|]. split; [exact (proj2 (H 0%nat true H0))|exact H1].
Defined.
