(* ===== verification/Machine.v ===== *)
(** * Kernel and devices: network card, clock and the system call dispatcher
    ([kernel/e1000.c], [kernel/time.c], [kernel/syscall.c])

    The state of the kernel together with the console and the network card.  The
    card's descriptor rings are in kernel memory; its registers are the two tail
    pointers and the values written once at start-up. *)

From stdpp Require Import base gmap list strings.
From Stdlib Require Import ZArith Lia.
From S2P Require Import Prelude Mmu Pmap MemInit Env Sched Syscall Console.

(** ** State *)
Record tx_desc := MkTx {
  tx_addr : Z; tx_length : Z; tx_cso : Z; tx_cmd : Z; tx_status : Z; tx_css : Z; tx_special : Z
}.
Record rx_desc := MkRx {
  rx_addr : Z; rx_length : Z; rx_checksum : Z; rx_status : Z; rx_errors : Z; rx_special : Z
}.

Record nicst := MkNic {
  tx_desc_table : gmap Z tx_desc;
  rx_desc_table : gmap Z rx_desc;
  e1000_tdt : Z;
  e1000_rdt : Z;
  nic_regs : gmap Z Z              (* the other registers, by offset *)
}.

Record machine := MkMachine { kern : kstate; con : constate; nic : nicst }.

Definition set_kern (x : kstate) (s : machine) : machine := MkMachine x (con s) (nic s).
Definition set_con (x : constate) (s : machine) : machine := MkMachine (kern s) x (nic s).
Definition set_nic (x : nicst) (s : machine) : machine := MkMachine (kern s) (con s) x.

Definition on_k {A} (m : M kstate A) : M machine A := zoom kern set_kern m.
Definition on_con {A} (m : M constate A) : M machine A := zoom con set_con m.

(** ** Network card *)
Definition NTXDESCS : Z := 64.
Definition NRXDESCS : Z := 128.
Definition E1000_TXD_STAT_DD : Z := 1.
Definition E1000_TXD_CMD_RS : Z := 8.
Definition E1000_TXD_CMD_EOP : Z := 1.
Definition E1000_RXD_STAT_DD : Z := 1.

Definition set_tx_desc (i : Z) (d : tx_desc) (n : nicst) : nicst :=
  MkNic (<[i := d]> (tx_desc_table n)) (rx_desc_table n) (e1000_tdt n) (e1000_rdt n) (nic_regs n).
Definition set_tdt (t : Z) (n : nicst) : nicst :=
  MkNic (tx_desc_table n) (rx_desc_table n) t (e1000_rdt n) (nic_regs n).
Definition set_rx_desc (i : Z) (d : rx_desc) (n : nicst) : nicst :=
  MkNic (tx_desc_table n) (<[i := d]> (rx_desc_table n)) (e1000_tdt n) (e1000_rdt n) (nic_regs n).
Definition set_rdt (t : Z) (n : nicst) : nicst :=
  MkNic (tx_desc_table n) (rx_desc_table n) (e1000_tdt n) t (nic_regs n).
Definition set_reg (r v : Z) (n : nicst) : nicst :=
  MkNic (tx_desc_table n) (rx_desc_table n) (e1000_tdt n) (e1000_rdt n) (<[r := v]> (nic_regs n)).

Definition on_nic (f : nicst → nicst) : M machine unit := modify (λ s, set_nic (f (nic s)) s).

Definition e1000_put_tx_desc (addr length flag : Z) : M machine Z :=
  let* t := gets (λ s, e1000_tdt (nic s)) in
  let* tab := gets (λ s, tx_desc_table (nic s)) in
  let* td := deref (tab !! t) in
  if negb (ctrue (Z.land (tx_status td) E1000_TXD_STAT_DD)) then ret (- E_BUSY) else
  let* c := on_k cur in
  let* d := on_k (pgdir_of c) in
  let* pa := on_k (on_mem (user_mem_phy_addr d addr)) in
  match pa with
  | None => ret (- E_INVAL)
  | Some c_paddr =>
      do* on_nic (set_tx_desc t (MkTx c_paddr (u16 length) (tx_cso td)
                    (u8 (Z.lor flag E1000_TXD_CMD_RS)) (tx_status td) (tx_css td)
                    (tx_special td))) in
      do* on_nic (set_tdt (Z.land (t + 1) (NTXDESCS - 1))) in
      ret 0
  end.

(** A byte of physical memory, and [memcpy] from there to a virtual address. *)
Definition pa_load8 (pa : Z) : M memst Z :=
  let* w := load (PGNUM pa, PGOFF pa / 4) in ret (get_byte w (pa mod 4)).

Definition copy_from_pa (va pa n : Z) : M memst unit :=
  for_up (Z.to_nat n) 0 (λ k,
    let* b := pa_load8 (pa + k) in va_store8 (u32 (va + k)) b).

Definition e1000_get_rx_desc (addr length : Z) : M machine Z :=
  let* r := gets (λ s, e1000_rdt (nic s)) in
  let index := Z.land (r + 1) (NRXDESCS - 1) in
  let* tab := gets (λ s, rx_desc_table (nic s)) in
  let* rd := deref (tab !! index) in
  if negb (ctrue (Z.land (rx_status rd) E1000_RXD_STAT_DD)) then ret (- E_EOF) else
  let length := Z.min (rx_length rd) length in
  do* on_k (on_mem (let* _ := KADDR (u32 (rx_addr rd)) in
                    copy_from_pa addr (u32 (rx_addr rd)) length)) in
  do* on_nic (set_rx_desc index (MkRx (rx_addr rd) (rx_length rd) (rx_checksum rd) 0
                (rx_errors rd) (rx_special rd))) in
  do* on_nic (set_rdt index) in
  ret (s32 length).

(** Register offsets. *)
Definition E1000_TCTL : Z := 0x00400.
Definition E1000_TIPG : Z := 0x00410.
Definition E1000_TDBAL : Z := 0x03800.
Definition E1000_TDBAH : Z := 0x03804.
Definition E1000_TDLEN : Z := 0x03808.
Definition E1000_TDH : Z := 0x03810.
Definition E1000_RCTL : Z := 0x00100.
Definition E1000_RDBAL : Z := 0x02800.
Definition E1000_RDBAH : Z := 0x02804.
Definition E1000_RDLEN : Z := 0x02808.
Definition E1000_RDH : Z := 0x02810.
Definition E1000_RAL : Z := 0x05400.
Definition E1000_RAH : Z := 0x05404.

(** [pci_e1000_attach], given the region the PCI code assigned to the card and the
    addresses of the two tables.  [page2pa] of a null page is not an address. *)
Definition pci_e1000_attach (reg_base reg_size tx_pa rx_pa : Z) : M machine Z :=
  let* _ := on_k (on_mem (mmio_map_region reg_base reg_size)) in
  do* for_up (Z.to_nat NTXDESCS) 0 (λ i,
        on_nic (set_tx_desc i (MkTx 0 0 0 0 E1000_TXD_STAT_DD 0 0))) in
  do* on_nic (set_reg E1000_TDBAL tx_pa) in
  do* on_nic (set_reg E1000_TDBAH 0) in
  do* on_nic (set_reg E1000_TDLEN (16 * NTXDESCS)) in
  do* on_nic (set_reg E1000_TDH 0) in
  do* on_nic (set_tdt 0) in
  do* on_nic (set_reg E1000_TCTL (Z.lor (Z.lor (Z.shiftl 1 1) (Z.shiftl 1 3)) (Z.shiftl 0x40 12))) in
  do* on_nic (set_reg E1000_TIPG 10) in
  do* on_nic (set_reg E1000_RAL 0x12005452) in
  do* on_nic (set_reg E1000_RAH (Z.lor 0x5634 (Z.shiftl 1 31))) in
  do* on_nic (set_reg E1000_RDBAL rx_pa) in
  do* on_nic (set_reg E1000_RDBAH 0) in
  do* for_up (Z.to_nat NRXDESCS) 0 (λ i,
        let* p := on_k (on_mem (page_alloc 0)) in
        let* p := deref p in
        let* tab := gets (λ s, rx_desc_table (nic s)) in
        let* rd := deref (tab !! i) in
        on_nic (set_rx_desc i (MkRx (u32 (page2pa p + 4)) (rx_length rd) (rx_checksum rd)
                  (rx_status rd) (rx_errors rd) (rx_special rd)))) in
  do* on_nic (set_reg E1000_RDLEN (16 * NRXDESCS)) in
  do* on_nic (set_reg E1000_RDH 0) in
  do* on_nic (set_rdt (NRXDESCS - 1)) in
  do* on_nic (set_reg E1000_RCTL
        (Z.lor (Z.lor (Z.lor (Z.lor (Z.shiftl 1 1) (Z.shiftl 1 15)) (Z.shiftl 3 16))
                      (Z.shiftl 1 25)) (Z.shiftl 1 26))) in
  ret 0.

(** ** Clock *)
Definition time_init : M kstate unit := modify (set_ticks 0).
Definition time_tick : M kstate unit :=
  do* modify (λ s, set_ticks (u32 (ticks s + 1)) s) in
  let* t := gets ticks in
  if u32 (Z.shiftl t 1) <? t then panic "time_tick: time overflowed" else ret tt.
Definition time_msec : M kstate Z := let* t := gets ticks in ret (u32 (t * 10)).

(** ** System calls on devices *)
Definition sys_cgetc : M machine Z := on_con cons_getc.

Definition MAX_JIF_LEN : Z := PGSIZE - 4.

(** A packet is queued in pieces.  When a piece is refused the code means to try
    again after [sys_yield]; but that never comes back. *)
Fixpoint tx_pieces (fuel : nat) (content length : Z) : M machine unit :=
  if length =? 0 then ret tt else
  match fuel with
  | O => fault
  | S fuel' =>
      let len := Z.min length MAX_JIF_LEN in
      let flag := if length - len =? 0 then E1000_TXD_CMD_EOP else 0 in
      let* r := e1000_put_tx_desc content len flag in
      if r =? 0 then tx_pieces fuel' (u32 (content + len)) (length - len) else
      do* on_k sys_yield in
      fault
  end.

(** Enough rounds for any 32-bit length. *)
Definition tx_fuel (length : Z) : nat := Z.to_nat (length / MAX_JIF_LEN + 1).

Definition sys_tx_pkt (content length : Z) : M machine Z :=
  do* on_k (let* c := cur in user_mem_assert c content length PTE_U) in
  do* tx_pieces (tx_fuel length) content length in
  ret 0.

Definition sys_rx_pkt (content length : Z) : M machine Z :=
  do* on_k (let* c := cur in user_mem_assert c content length (Z.lor PTE_U PTE_W)) in
  e1000_get_rx_desc content length.
