(* ===== verification/Trap.v ===== *)
(** * Traps ([kernel/trap.c]) and the system call dispatcher ([kernel/syscall.c])

    [trap] is the whole of the kernel as user programs see it: it is entered with
    the registers of what was interrupted and always ends by giving the processor
    to some environment, by halting it, or in a panic.  The kernel monitor and
    [sys_debug_info], which only print, are arguments. *)

From stdpp Require Import base gmap list strings.
From Stdlib Require Import ZArith Lia.
From S2P Require Import Prelude Mmu Pmap MemInit Env Sched Syscall Console Machine.

(** ** Numbers *)
Definition T_DEBUG : Z := 1.
Definition T_BRKPT : Z := 3.
Definition T_PGFLT : Z := 14.
Definition T_SYSCALL : Z := 48.
Definition IRQ_OFFSET : Z := 32.
Definition IRQ_TIMER : Z := 0.
Definition IRQ_KBD : Z := 1.
Definition IRQ_SERIAL : Z := 4.
Definition IRQ_SPURIOUS : Z := 7.

Inductive sysno :=
| SYS_cputs | SYS_cgetc | SYS_getenvid | SYS_env_destroy | SYS_yield | SYS_exofork
| SYS_env_set_status | SYS_page_alloc | SYS_page_map | SYS_page_unmap
| SYS_env_set_pgfault_upcall | SYS_ipc_try_send | SYS_ipc_recv | SYS_env_set_trapframe
| SYS_time_msec | SYS_debug_info | SYS_tx_pkt | SYS_rx_pkt | SYS_chdir | SYS_add_vma
| SYS_copy_vma | SYS_env_name.

(** The enumeration in order, so that a number is the position of its call. *)
Definition sysnos : list sysno :=
  [SYS_cputs; SYS_cgetc; SYS_getenvid; SYS_env_destroy; SYS_yield; SYS_exofork;
   SYS_env_set_status; SYS_page_alloc; SYS_page_map; SYS_page_unmap;
   SYS_env_set_pgfault_upcall; SYS_ipc_try_send; SYS_ipc_recv; SYS_env_set_trapframe;
   SYS_time_msec; SYS_debug_info; SYS_tx_pkt; SYS_rx_pkt; SYS_chdir; SYS_add_vma;
   SYS_copy_vma; SYS_env_name].

Section trap.
Variable sys_debug_info : Z → Z → Z → M kstate Z.
Variable monitor : Trapframe → M machine unit.

(** Identifiers, statuses and message values are [int]; permission masks keep
    their bit pattern. *)
Definition syscall (syscallno a1 a2 a3 a4 a5 : Z) : M machine Z :=
  match sysnos !! Z.to_nat syscallno with
  | None => ret (- E_INVAL)
  | Some n =>
      match n with
      | SYS_cputs => on_k (sys_cputs a1 a2)
      | SYS_cgetc => sys_cgetc
      | SYS_getenvid => on_k sys_getenvid
      | SYS_env_destroy => on_k (sys_env_destroy (s32 a1))
      | SYS_yield => do* on_k sys_yield in ret 0
      | SYS_exofork => on_k sys_exofork
      | SYS_env_set_status => on_k (sys_env_set_status (s32 a1) (s32 a2))
      | SYS_env_set_trapframe => on_k (sys_env_set_trapframe (s32 a1) a2)
      | SYS_page_alloc => on_k (sys_page_alloc (s32 a1) a2 a3)
      | SYS_page_map => on_k (sys_page_map (s32 a1) a2 (s32 a3) a4 a5)
      | SYS_page_unmap => on_k (sys_page_unmap (s32 a1) a2)
      | SYS_env_set_pgfault_upcall => on_k (sys_env_set_pgfault_upcall (s32 a1) a2)
      | SYS_ipc_try_send => on_k (sys_ipc_try_send (s32 a1) (s32 a2) a3 a4)
      | SYS_ipc_recv => on_k (sys_ipc_recv a1)
      | SYS_time_msec => on_k sys_time_msec
      | SYS_debug_info => on_k (sys_debug_info (s32 a1) a2 a3)
      | SYS_tx_pkt => sys_tx_pkt a1 a2
      | SYS_rx_pkt => sys_rx_pkt a1 a2
      | SYS_chdir => on_k (sys_chdir a1)
      | SYS_add_vma => on_k (sys_add_vma (s32 a1) a2 a3 a4)
      | SYS_copy_vma => on_k (sys_copy_vma (s32 a1) (s32 a2))
      | SYS_env_name => on_k (sys_env_name (s32 a1) a2)
      end
  end.

(** ** Page faults *)
Definition sizeof_UTrapframe : Z := 52.

(** The words of the [struct UTrapframe] the handler pushes, in order. *)
Definition utrapframe (fault_va : Z) (tf : Trapframe) : list Z :=
  let r := tf_regs tf in
  [fault_va; tf_err tf; reg_edi r; reg_esi r; reg_ebp r; reg_oesp r; reg_ebx r; reg_edx r;
   reg_ecx r; reg_eax r; tf_eip tf; tf_eflags tf; tf_esp tf].

Fixpoint push_words (va : Z) (l : list Z) : M memst unit :=
  match l with
  | [] => ret tt
  | w :: l' => do* va_store32 va w in push_words (u32 (va + 4)) l'
  end.

(** Where the frame goes: below the interrupted frame and a spare word when the
    fault happened on the exception stack, else at the top of it. *)
Definition utf_esp (tf : Trapframe) : Z :=
  if (UXSTACKTOP - PGSIZE <=? tf_esp tf) && (tf_esp tf <? UXSTACKTOP)
  then u32 (tf_esp tf - 4 - sizeof_UTrapframe) else UXSTACKTOP - sizeof_UTrapframe.

(** [tf] is the frame saved in the current environment; [cr2] the faulting
    address. *)
Definition page_fault_handler (cr2 : Z) (tf : Trapframe) : M kstate unit :=
  if negb (Z.land (tf_cs tf) 3 =? 3) then panic "kernel fault" else
  let* c := cur in
  let* e := env_at c in
  do* (if ctrue (env_pgfault_upcall e) then
         let esp := utf_esp tf in
         do* user_mem_assert c esp sizeof_UTrapframe PTE_W in
         do* on_mem (push_words esp (utrapframe cr2 tf)) in
         do* upd_env c (λ e, set_env_tf (set_eip_esp_eflags (tf_eip (env_tf e)) esp
               (tf_eflags (env_tf e)) (env_tf e)) e) in
         do* upd_env c (λ e, set_env_tf (set_eip_esp_eflags (env_pgfault_upcall e)
               (tf_esp (env_tf e)) (tf_eflags (env_tf e)) (env_tf e)) e) in
         env_run c
       else ret tt) in
  env_destroy c.

(** ** Dispatch *)

(** [in_env]: [tf] is the current environment's frame, not one on the kernel
    stack, so that a result written to it is seen by the program. *)
Definition trap_dispatch (cr2 : Z) (in_env : bool) (tf : Trapframe) : M machine unit :=
  let n := tf_trapno tf in
  let r := tf_regs tf in
  if n =? T_PGFLT then on_k (page_fault_handler cr2 tf)
  else if (n =? T_BRKPT) || (n =? T_DEBUG) then monitor tf
  else if n =? T_SYSCALL then
    let* c := on_k (gets curenv) in
    let* ret_ := syscall (reg_eax r) (reg_edx r) (reg_ecx r) (reg_ebx r) (reg_edi r) (reg_esi r) in
    if in_env then
      on_k (let* i := deref c in upd_env i (λ e, set_env_tf (set_reg_eax (u32 ret_) (env_tf e)) e))
    else ret tt
  else if n =? IRQ_OFFSET + IRQ_TIMER then
    let* i := gets (λ s, this (kern s)) in
    do* (if i =? 0 then on_k time_tick else ret tt) in
    on_k sched_yield
  else if n =? IRQ_OFFSET + IRQ_SPURIOUS then ret tt
  else if n =? IRQ_OFFSET + IRQ_KBD then on_con kbd_intr
  else if n =? IRQ_OFFSET + IRQ_SERIAL then on_con serial_intr
  else if tf_cs tf =? GD_KT then panic "unhandled trap in kernel"
  else on_k (let* c := cur in env_destroy c).

(** Entering the kernel from user mode: a dying environment is freed now, any
    other one gets its registers saved. *)
Definition trap_enter (tf : Trapframe) : M kstate unit :=
  do* lock_kernel in
  let* c := gets curenv in
  do* massert (bool_decide (is_Some c)) in
  let* i := deref c in
  let* e := env_at i in
  do* (if bool_decide (env_status e = ENV_DYING) then
         do* env_free i in
         do* set_curenv None in
         sched_yield
       else ret tt) in
  upd_env i (set_env_tf tf).

(** Entering it from kernel mode: the lock was released if the processor was
    halted. *)
Definition trap_resume : M kstate unit :=
  let* st := gets (λ s, cpu_status (this_cpu s)) in
  do* modify (λ s, set_cpus (<[this s := MkCpu CPU_STARTED (cpu_env (this_cpu s))]> (cpus s)) s) in
  match st with CPU_HALTED => lock_kernel | _ => ret tt end.

(** Back to the current environment if it is still running, else to another. *)
Definition trap_leave : M kstate unit :=
  let* c := gets curenv in
  match c with
  | None => sched_yield
  | Some i =>
      let* e := env_at i in
      if bool_decide (env_status e = ENV_RUNNING) then env_run i else sched_yield
  end.

Definition trap (cr2 eflags : Z) (tf : Trapframe) : M machine unit :=
  do* massert (negb (ctrue (Z.land eflags FL_IF))) in
  let user := Z.land (tf_cs tf) 3 =? 3 in
  do* on_k (if user then trap_enter tf else trap_resume) in
  do* trap_dispatch cr2 user tf in
  on_k trap_leave.
End trap.
