(* ===== verification/UserAccess.v ===== *)
(** * Kernel accesses to user memory

    The effect of stores through a mapped page on the bytes of physical memory,
    for the code that writes into the address space it runs in
    ([page_fault_handler], [sys_cputs]). *)

From stdpp Require Import base gmap list strings.
From Stdlib Require Import ZArith Lia.
From S2P Require Import Prelude Mmu Pmap PmapInv PmapOps.

Set Default Proof Using "Type".

(** Byte [o] of page frame [f]. *)
Definition memb (m : memst) (f o : Z) : Z := get_byte (rd m f (o / 4)) (o mod 4).

(** The bytes of a word, and of several. *)
Definition word_bytes (w : Z) : list Z := [get_byte w 0; get_byte w 1; get_byte w 2; get_byte w 3].
Definition words_bytes (l : list Z) : list Z := l ≫= word_bytes.

(** The processor translates [va] to the entry [e]: from the TLB, or from the
    tables when the TLB has nothing. *)
Definition translates (m : memst) (va e : Z) : Prop :=
  tlb m !! PGNUM va = Some e ∨
  (tlb m !! PGNUM va = None ∧ pte_of m (cr3 m) (PDX va) (PTX va) = Some e).

(** The bytes [bs] were written at offset [o] of frame [f], in an address space
    that translates [va] to [e], and nothing else changed. *)
Record written (f o : Z) (bs : list Z) (m m' : memst) : Prop := MkWritten {
  wt_bytes : ∀ o', 0 ≤ o' → memb m' f o' =
    if decide (o ≤ o' < o + Z.of_nat (length bs)) then default 0 (bs !! Z.to_nat (o' - o))
    else memb m f o';
  wt_frames : ∀ f' i, f' ≠ f → rd m' f' i = rd m f' i;
  wt_rest : npages m' = npages m ∧ pages m' = pages m ∧ page_free_list m' = page_free_list m ∧
    kern_pgdir m' = kern_pgdir m ∧ cr3 m' = cr3 m
}.

Lemma get_byte_range w k : 0 ≤ get_byte w k < 256.
Proof.
  unfold get_byte. change 0xFF with (Z.ones 8). rewrite Z.land_ones by lia.
  apply Z.mod_pos_bound. lia.
Qed.

Lemma get_byte_bit w k i :
  0 ≤ k → 0 ≤ i → Z.testbit (get_byte w k) i = if decide (i < 8) then Z.testbit w (8 * k + i) else false.
Proof.
  intros Hk Hi. unfold get_byte. change 0xFF with (Z.ones 8).
  rewrite Z.land_spec, Z.shiftr_spec by lia. case_decide.
  - rewrite Z.ones_spec_low, andb_true_r by lia. f_equal. lia.
  - rewrite Z.ones_spec_high, andb_false_r by lia. done.
Qed.

Lemma get_put_byte w k b k' :
  0 ≤ k → 0 ≤ k' → 0 ≤ b < 256 →
  get_byte (put_byte w k b) k' = if decide (k' = k) then b else get_byte w k'.
Proof.
  intros Hk Hk' Hb. apply Z.bits_inj'. intros i Hi.
  assert (∀ j, 8 ≤ j → Z.testbit b j = false) as Hhigh.
  { intros j Hj. rewrite <- (Z.mod_small b (2 ^ 8)) by lia. by apply Z.mod_pow2_bits_high. }
  assert (∀ n, 0 ≤ n → Z.testbit (put_byte w k b) n =
    if decide (8 * k ≤ n < 8 * k + 8) then Z.testbit b (n - 8 * k) else Z.testbit w n) as Hput.
  { intros n Hn. unfold put_byte. rewrite Z.lor_spec, Z.ldiff_spec.
    destruct (decide (n < 8 * k)) as [Hlt|Hge].
    { rewrite decide_False, !Z.shiftl_spec_low by lia. by rewrite andb_true_r, orb_false_r. }
    rewrite !Z.shiftl_spec by lia. change 0xFF with (Z.ones 8). case_decide.
    - rewrite Z.ones_spec_low, andb_false_r by lia. done.
    - rewrite Z.ones_spec_high, andb_true_r, Hhigh by lia. by rewrite orb_false_r. }
  rewrite get_byte_bit by lia. rewrite Hput by lia. destruct (decide (k' = k)) as [->|Hne].
  - case_decide; [rewrite decide_True by lia; f_equal; lia|by rewrite Hhigh by lia].
  - rewrite get_byte_bit by lia. case_decide; [|done]. by rewrite decide_False by lia.
Qed.

(** ** Translation *)
Definition cached (va e : Z) (m : memst) : memst := set_tlb (<[PGNUM va := e]> (tlb m)) m.

Lemma mmu_walk_eq m va :
  tlb m !! PGNUM va = None →
  mmu_entry va m = match pte_of m (cr3 m) (PDX va) (PTX va) with
                   | Some e => Ret e (cached va e m)
                   | None => Fault
                   end.
Proof.
  intros Ht. unfold mmu_entry, load, pte_of, frame_of, present, bind, gets. rewrite Ht.
  cbn [fst snd]. destruct (ctrue (Z.land (rd m (cr3 m) (PDX va)) PTE_P)); [|reflexivity].
  cbn [negb]. rewrite PGNUM_div. cbv zeta.
  destruct (ctrue (Z.land (rd m (rd m (cr3 m) (PDX va) / 4096) (PTX va)) PTE_P)); reflexivity.
Qed.

Lemma mmu_entry_eq m va e :
  translates m va e → mmu_entry va m = Ret e (cached va e m).
Proof.
  intros [Ht|[Ht Hp]].
  - unfold mmu_entry, bind, gets, cached. rewrite Ht, insert_id by done. by destruct m.
  - by rewrite mmu_walk_eq, Hp.
Qed.

(** ** Stores *)
Lemma va_store8_written m va e b :
  translates m va e → ctrue (Z.land e PTE_W) = true → 0 ≤ b < 256 →
  ∃ m', va_store8 va b m = Ret tt m' ∧ written (e / 4096) (va mod 4096) [b] m m' ∧
    tlb m' = <[PGNUM va := e]> (tlb m).
Proof.
  intros Htr Hw Hb. unfold va_store8. rewrite (bind_eq _ _ _ _ _ (mmu_entry_eq m va e Htr)).
  rewrite Hw. unfold bind, load, store, gets, modify. cbn [negb fst snd].
  rewrite PGNUM_div, PGOFF_mod. eexists. split; [reflexivity|]. split; [|done].
  assert (∀ f i, rd (cached va e m) f i = rd m f i) as Hc by done. split.
  - intros o' Ho'. unfold memb. cbn [length]. rewrite rd_wr, Hc.
    replace (va mod 4) with (va mod 4096 mod 4) by dlia.
    destruct (decide (va mod 4096 = o')) as [<-|Hne].
    + rewrite !decide_True by lia. rewrite Z.sub_diag. cbn.
      rewrite get_put_byte, decide_True by (done || dlia). done.
    + rewrite (decide_False (P := _ ≤ o' < _)) by lia.
      destruct (decide (va mod 4096 / 4 = o' / 4)) as [E|E].
      * rewrite decide_True by done. rewrite get_put_byte by (done || dlia).
        rewrite decide_False by (intros E'; apply Hne; dlia). by rewrite E.
      * rewrite decide_False by naive_solver. done.
  - intros f' i Hf. by rewrite rd_wr_ne, Hc by auto.
  - done.
Qed.

Lemma written_app f o bs1 bs2 m1 m2 m3 :
  0 ≤ o → written f o bs1 m1 m2 → written f (o + Z.of_nat (length bs1)) bs2 m2 m3 →
  written f o (bs1 ++ bs2) m1 m3.
Proof.
  intros Ho [B1 F1 R1] [B2 F2 R2]. split.
  - intros o' Ho'. rewrite B2 by done. rewrite length_app, Nat2Z.inj_add.
    case_decide as H2; [rewrite decide_True by lia|].
    + rewrite lookup_app_r by lia. do 2 f_equal. lia.
    + rewrite B1 by done. case_decide as H1; [rewrite decide_True by lia|by rewrite decide_False by lia].
      by rewrite lookup_app_l by lia.
  - intros f' i Hf. by rewrite F2, F1.
  - naive_solver congruence.
Qed.

Lemma written_nil f o m : written f o [] m m.
Proof. split; [|done..]. intros o' _. rewrite decide_False by (cbn; lia). done. Qed.

(** Addresses of one page. *)
Lemma same_page va k :
  is_u32 va → 0 ≤ k → va mod 4096 + k < 4096 →
  u32 (va + k) = va + k ∧ PGNUM (va + k) = PGNUM va ∧ (va + k) mod 4096 = va mod 4096 + k.
Proof.
  intros Hva Hk Hp. unfold is_u32 in Hva. rewrite !PGNUM_div.
  split; [apply u32_small; unfold is_u32|split]; dlia.
Qed.

Lemma for_store_written va e (g : Z → Z) n : ∀ k m,
  is_u32 va → 0 ≤ k → va mod 4096 + k + Z.of_nat n ≤ 4096 → (∀ i, 0 ≤ g i < 256) →
  (translates m va e ∧ k = 0 ∨ tlb m !! PGNUM va = Some e) → ctrue (Z.land e PTE_W) = true →
  ∃ m', for_up n k (λ k, va_store8 (u32 (va + k)) (g k)) m = Ret tt m' ∧
    written (e / 4096) (va mod 4096 + k) (g <$> seqZ k (Z.of_nat n)) m m' ∧
    (n = 0%nat ∧ m' = m ∨ tlb m' !! PGNUM va = Some e).
Proof.
  induction n as [|n IH]; intros k m Hva Hk Hp Hg Ht Hw; cbn [for_up].
  { exists m. split; [done|]. split; [apply written_nil|]. by left. }
  destruct (same_page va k) as (E1 & E2 & E3); [done|done|lia|]. rewrite E1.
  destruct (va_store8_written m (va + k) e (g k)) as (m1 & Em1 & Hw1 & Htlb); [|done|apply Hg|].
  { destruct Ht as [[Ht ->]|Ht]; [by rewrite Z.add_0_r|left; by rewrite E2]. }
  rewrite (bind_eq _ _ _ _ _ Em1). rewrite E3 in Hw1. rewrite E2 in Htlb.
  destruct (IH (k + 1) m1) as (m' & E' & Hw' & Ht'); [done|lia|lia|done| |done|].
  { right. rewrite Htlb. apply lookup_insert_eq. }
  exists m'. split; [exact E'|]. split.
  - rewrite Nat2Z.inj_succ, seqZ_cons by lia. cbn [fmap list_fmap].
    apply (written_app _ _ [g k] _ m m1 m').
    + pose proof (Z.mod_pos_bound va 4096). lia.
    + done.
    + cbn [length]. replace (va mod 4096 + k + Z.of_nat 1) with (va mod 4096 + (k + 1)) by lia.
      by rewrite Z.pred_succ.
  - right. destruct Ht' as [[-> ->]|Ht']; [rewrite Htlb; apply lookup_insert_eq|done].
Qed.

Lemma va_store32_written m va e w :
  is_u32 va → va mod 4096 + 4 ≤ 4096 → translates m va e → ctrue (Z.land e PTE_W) = true →
  ∃ m', va_store32 va w m = Ret tt m' ∧
    written (e / 4096) (va mod 4096) (word_bytes w) m m' ∧ tlb m' !! PGNUM va = Some e.
Proof.
  intros Hva Hp Ht Hw. destruct (for_store_written va e (get_byte w) 4 0 m) as (m' & E & Hwr & Htlb);
    [done|lia|lia|intros; apply get_byte_range|by left|done|].
  exists m'. split; [exact E|]. rewrite Z.add_0_r in Hwr. split; [exact Hwr|].
  by destruct Htlb as [[? _]|?].
Qed.
