(* ===== verification/TrapProps.v ===== *)
(** * Properties of traps and of the calls that touch user memory or devices *)

From stdpp Require Import base gmap list strings.
From Stdlib Require Import ZArith Lia.
From S2P Require Import Prelude Mmu Pmap PmapInv PmapOps MemInit UserMem UserAccess PmapProps.
From S2P Require Import Env Sched EnvFree EnvInv EnvAlloc KDemo Syscall SyscallInv.
From S2P Require Import Console Machine Trap.

Set Default Proof Using "Type".

(** ** From the kernel invariant *)
Lemma kinv_sched_ok R fl efl s : kinv R fl efl s → kernel_locked s = true → sched_ok s.
Proof.
  intros K Hl. split; [apply K|apply K| |done]. intros i e He Hlive.
  destruct (kinv_live_dir R fl efl s i e K He) as (d & -> & _); [|by eexists].
  intros E. unfold is_live in Hlive. by rewrite E in Hlive.
Qed.

Lemma kinv_tables R fl efl s d :
  kinv R fl efl s → d ∈ dirs_of (envs s) →
  ∀ i t, 0 ≤ i < 1024 → frame_of (rd (mem s) d i) = Some t → t < npages (mem s).
Proof.
  intros K Hd i t Hi Ht. pose proof (ki_mm _ _ _ _ K) as Hinv.
  destruct (decide (i < NUSER)) as [Hu|Hu].
  { apply (inv_target _ _ _ _ Hinv (STab d i) t); [apply stab_in; [done|lia]|done]. }
  rewrite (ki_half _ _ _ _ K d Hd) in Ht by lia. destruct (i =? PDX UVPT).
  - assert (0 ≤ d < npages (mem s)) as Hdn
      by (apply (inv_target _ _ _ _ Hinv (SDir d) d); [by apply sdir_in|done]).
    pose proof (inv_np _ _ _ _ Hinv). unfold frame_of in Ht. rewrite !present_lor in Ht.
    rewrite orb_true_r in Ht. cbn [orb] in Ht. injection Ht as <-.
    rewrite !lor_frame by done. unfold PADDR, PGSHIFT. rewrite Z.shiftl_mul_pow2 by lia.
    rewrite u32_small by (unfold is_u32; lia). dlia.
  - destruct (present (rd (mem s) (kern_pgdir (mem s)) i)) eqn:E; [|done].
    apply (ki_kern _ _ _ _ K i t); [lia|done].
Qed.

(** ** Pushing words onto a user stack *)
Lemma push_words_written e l : ∀ m va,
  is_u32 va → va mod 4096 + 4 * Z.of_nat (length l) ≤ 4096 →
  translates m va e → ctrue (Z.land e PTE_W) = true →
  ∃ m', push_words va l m = Ret tt m' ∧
    written (e / 4096) (va mod 4096) (words_bytes l) m m'.
Proof.
  induction l as [|w l IH]; intros m va Hva Hp Ht Hw; cbn [push_words].
  { exists m. split; [done|apply written_nil]. }
  cbn [length] in Hp.
  destruct (va_store32_written m va e w) as (m1 & E1 & Hw1 & Ht1); [done|lia|done|done|].
  rewrite (bind_eq _ _ _ _ _ E1). destruct l as [|w' l].
  { exists m1. split; [done|exact Hw1]. }
  cbn [length] in Hp. destruct (same_page va 4) as (E2 & E3 & E4); [done|lia|lia|]. rewrite E2.
  destruct (IH m1 (va + 4)) as (m' & E & Hw'); [|cbn [length]; lia| |done|].
  { pose proof (u32_range (va + 4)) as H. by rewrite E2 in H. }
  { left. by rewrite E3. }
  exists m'. split; [exact E|].
  apply (written_app _ _ (word_bytes w) (words_bytes (w' :: l)) m m1 m'); [|done|].
  - pose proof (Z.mod_pos_bound va 4096). lia.
  - rewrite E4 in Hw'. exact Hw'.
Qed.

(** ** Steps that keep the invariant *)
Lemma user_page_not_table R fl efl s d va w :
  kinv R fl efl s → d ∈ dirs_of (envs s) → is_u32 va → va < UTOP →
  pte_of (mem s) d (PDX va) (PTX va) = Some w →
  ¬ is_table (dirs_of (envs s)) (mem s) (w / 4096).
Proof.
  intros K Hd Hva Hut Hw (st & Hst & Hts & Ht). pose proof (ki_mm _ _ _ _ K) as Hinv.
  destruct (inv_table _ _ _ _ Hinv st _ Hst Hts Ht) as [H1 _].
  pose proof (user_sites (dirs_of (envs s)) d va Hd Hva Hut) as Hs.
  assert (target (mem s) (SPage d (PDX va) (PTX va)) = Some (w / 4096)) as Ht'
    by (by rewrite target_pte_of, Hw).
  pose proof (refs_one _ _ _ _ _ H1 Hst Hs Ht Ht') as ->. done.
Qed.

Lemma written_kinv R fl efl s f o bs m' :
  kinv R fl efl s → written f o bs (mem s) m' →
  ¬ is_table (dirs_of (envs s)) (mem s) f → f ≠ kern_pgdir (mem s) →
  kinv R fl efl (set_mem m' s).
Proof.
  intros K [_ Hf (En & Ep & El & Ek & _)] Hnt Hnk.
  assert (∀ d, d ∈ dirs_of (envs s) → d ≠ f) as Hdf.
  { intros d Hd ->. by apply Hnt, dir_is_table. }
  apply (kinv_mem R fl efl s m' fl K); [|done|done| |].
  - apply (mm_inv_rd _ R fl (mem s)); [apply K|done..|]. intros g Hg i. apply Hf. by intros ->.
  - intros i. by apply Hf.
  - intros d i Hd _. by apply Hf, Hdf.
Qed.

Lemma run_st_inv R fl efl s k e d :
  kinv R fl efl s → envs s !! k = Some e → env_status e ≠ ENV_FREE →
  kinv R fl efl (run_st s k d).
Proof.
  intros K He Hst. pose proof (proj1 (ki_dom _ _ _ _ K k) (mk_is_Some _ _ He)) as Hk.
  set (stop := λ e, if bool_decide (env_status e = ENV_RUNNING)
                    then set_env_status ENV_RUNNABLE e else e).
  set (s1 := set_envs (match curenv s with Some c => alter stop c (envs s) | None => envs s end) s).
  assert (kinv R fl efl s1) as K1.
  { unfold s1. destruct (curenv s) as [c|]; [|by destruct s].
    destruct (envs s !! c) as [ec|] eqn:Hc.
    - rewrite <- (insert_alter_env _ _ _ _ Hc). unfold stop.
      eapply kinv_env; [exact K|exact Hc|..]; case_bool_decide as Hr; try done. cbn.
      by rewrite Hr.
    - rewrite alter_id; [by destruct s|]. intros x. by rewrite Hc. }
  assert (∃ e1, envs s1 !! k = Some e1 ∧ env_status e1 ≠ ENV_FREE) as (e1 & He1 & Hst1).
  { unfold s1. cbn. destruct (curenv s) as [c|]; [|by exists e].
    destruct (decide (c = k)) as [->|]; [rewrite lookup_alter_eq|rewrite lookup_alter_ne by done];
      rewrite He; eexists; (split; [done|]); [|done]. unfold stop. by case_bool_decide. }
  assert (kinv R fl efl (set_mem (set_tlb ∅ (set_cr3 d (mem s1))) s1)) as K2.
  { apply (kinv_mem R fl efl s1 _ fl K1); try done.
    apply (mm_inv_rd _ R fl (mem s1)); [apply K1|done..]. }
  eapply kinv_ext; [eapply (kinv_env R fl efl _ k e1); [exact K2|exact He1|..]|..].
  5: done. 5: { cbn. unfold run_envs. symmetry. by rewrite <- (insert_alter_env _ k _ e1 He1). }
  all: try done. intros c. unfold curenv, this_cpu. cbn. rewrite lookup_insert_eq.
  cbn. by intros [= <-].
Qed.

(** ** Page faults *)

(** A page fault of the current environment, which has a handler and an exception
    stack page [w] that its frame fits on. *)
Record upcall_ready (R : Z → Z) (fl efl : list Z) (s : kstate) (c : Z) (e : Env) (w : Z) : Prop := {
  ur_inv : kinv R fl efl s;
  ur_lock : kernel_locked s = true;
  ur_cur : curenv s = Some c;
  ur_env : envs s !! c = Some e;
  ur_run : env_status e = ENV_RUNNING;
  ur_user : Z.land (tf_cs (env_tf e)) 3 = 3;
  ur_esp : is_u32 (tf_esp (env_tf e));
  ur_upcall : env_pgfault_upcall e ≠ 0;
  ur_dir : env_pgdir e = Some (cr3 (mem s));
  ur_tlb : tlb_coherent (mem s);
  ur_pte : pte_of (mem s) (cr3 (mem s)) (PDX (UXSTACKTOP - PGSIZE)) (PTX (UXSTACKTOP - PGSIZE)) =
           Some w;
  ur_perm : Z.land w 7 = 7;
  ur_page : R (w / 4096) = 0;
  ur_fits : UXSTACKTOP - PGSIZE ≤ utf_esp (env_tf e)
}.

Section upcall.
Context (R : Z → Z) (fl efl : list Z) (s : kstate) (c : Z) (e : Env) (w : Z).
Hypothesis H : upcall_ready R fl efl s c e w.

Lemma upcall_esp :
  UXSTACKTOP - PGSIZE ≤ utf_esp (env_tf e) ≤ UXSTACKTOP - sizeof_UTrapframe ∧
  (UXSTACKTOP - PGSIZE ≤ tf_esp (env_tf e) < UXSTACKTOP →
   utf_esp (env_tf e) = tf_esp (env_tf e) - 4 - sizeof_UTrapframe).
Proof using H.
  pose proof (ur_fits _ _ _ _ _ _ _ H) as Hf. pose proof (ur_esp _ _ _ _ _ _ _ H) as [H0 H1].
  revert Hf. unfold utf_esp. change UXSTACKTOP with (4005560320 - 0).
  change PGSIZE with 4096. change sizeof_UTrapframe with 52.
  destruct (Z.leb_spec (4005560320 - 0 - 4096) (tf_esp (env_tf e))); cbn [andb]; [|lia].
  destruct (Z.ltb_spec (tf_esp (env_tf e)) (4005560320 - 0)); [|lia].
  rewrite u32_small by (unfold is_u32; lia). lia.
Qed.

(** The stack page in terms of the frame's address. *)
Lemma upcall_page :
  let esp := utf_esp (env_tf e) in
  is_u32 esp ∧ esp < UTOP ∧ PDX esp = PDX (UXSTACKTOP - PGSIZE) ∧
  PTX esp = PTX (UXSTACKTOP - PGSIZE) ∧ esp mod 4096 + sizeof_UTrapframe ≤ 4096.
Proof using H.
  cbv zeta. destruct upcall_esp as [He _]. revert He. generalize (utf_esp (env_tf e)). intros esp.
  change UXSTACKTOP with (4005560320 - 0). change UTOP with (4005560320 - 0).
  change PGSIZE with 4096. change sizeof_UTrapframe with 52. intros He.
  assert (is_u32 esp) as Hu by (unfold is_u32; lia). rewrite !PDX_div, !PTX_div.
  split; [done|]. split; [lia|]. split; [f_equal; dlia|]. split; [f_equal; dlia|dlia].
Qed.

Lemma upcall_dir : cr3 (mem s) ∈ dirs_of (envs s).
Proof using H.
  destruct (kinv_live_dir R fl efl s c e) as (d & Hd & Hin);
    [exact (ur_inv _ _ _ _ _ _ _ H)|exact (ur_env _ _ _ _ _ _ _ H)| |].
  - rewrite (ur_run _ _ _ _ _ _ _ H). done.
  - rewrite (ur_dir _ _ _ _ _ _ _ H) in Hd. by injection Hd as ->.
Qed.

Lemma upcall_pte :
  pte_of (mem s) (cr3 (mem s)) (PDX (utf_esp (env_tf e))) (PTX (utf_esp (env_tf e))) = Some w.
Proof using H. destruct upcall_page as (_ & _ & -> & -> & _). exact (ur_pte _ _ _ _ _ _ _ H). Qed.

Lemma upcall_assert :
  user_mem_assert c (utf_esp (env_tf e)) sizeof_UTrapframe PTE_W s = Ret tt s.
Proof using H.
  destruct upcall_page as (Hu & Hut & _ & _ & Hp).
  unfold user_mem_assert, bind, env_at. rewrite (ur_env _ _ _ _ _ _ _ H). cbn [deref ret].
  rewrite (ur_dir _ _ _ _ _ _ _ H). cbn [deref ret]. unfold on_mem, zoom.
  rewrite (user_mem_check_page (mem s) (cr3 (mem s))).
  - by destruct s.
  - apply (kinv_tables R fl efl s); [exact (ur_inv _ _ _ _ _ _ _ H)|apply upcall_dir].
  - done.
  - done.
  - done.
  - change UTOP with 4005560320 in Hut. change sizeof_UTrapframe with 52. lia.
  - split; [change ULIM with 4018143232; change UTOP with 4005560320 in Hut; lia|].
    exists w. split; [apply upcall_pte|exact (ur_perm _ _ _ _ _ _ _ H)].
Qed.

Lemma upcall_push cr2 :
  ∃ m', push_words (utf_esp (env_tf e)) (utrapframe cr2 (env_tf e)) (mem s) = Ret tt m' ∧
    written (w / 4096) (utf_esp (env_tf e) mod 4096) (words_bytes (utrapframe cr2 (env_tf e)))
      (mem s) m'.
Proof using H.
  destruct upcall_page as (Hu & Hut & _ & _ & Hp). apply push_words_written; [done|done| |].
  - pose proof upcall_pte as Hw. unfold translates.
    destruct (tlb (mem s) !! PGNUM (utf_esp (env_tf e))) as [w'|] eqn:E; [|by right].
    pose proof (ur_tlb _ _ _ _ _ _ _ H _ _ Hu Hut E) as E'. left. congruence.
  - rewrite land_W. unfold writable.
    assert (Z.testbit (Z.land w 7) 1 = true) as Hb by (by rewrite (ur_perm _ _ _ _ _ _ _ H)).
    rewrite Z.land_spec in Hb. by apply andb_prop in Hb as [? _].
Qed.
End upcall.

(** The environment sent to its handler. *)
Definition upcall_env (e : Env) : Env :=
  set_env_tf (set_eip_esp_eflags (env_pgfault_upcall e) (utf_esp (env_tf e))
                (tf_eflags (env_tf e)) (env_tf e)) e.

(** The two assignments to the saved frame. *)
Lemma upcall_upd s c e :
  envs s !! c = Some e →
  (do* upd_env c (λ e', set_env_tf (set_eip_esp_eflags (tf_eip (env_tf e')) (utf_esp (env_tf e))
         (tf_eflags (env_tf e')) (env_tf e')) e') in
   do* upd_env c (λ e, set_env_tf (set_eip_esp_eflags (env_pgfault_upcall e)
         (tf_esp (env_tf e)) (tf_eflags (env_tf e)) (env_tf e)) e) in
   env_run c) s = env_run c (set_envs (<[c := upcall_env e]> (envs s)) s).
Proof.
  intros He. rewrite (bind_eq _ _ _ _ _ (upd_env_eq c _ s e He)).
  erewrite bind_eq by (apply upd_env_eq; cbn [envs set_envs]; apply lookup_insert_eq).
  cbn [envs set_envs]. by rewrite insert_insert_eq.
Qed.

Lemma run_st_mem s k d : mem (run_st s k d) = set_tlb ∅ (set_cr3 d (mem s)).
Proof. done. Qed.

Section upcall_run.
Context (R : Z → Z) (fl efl : list Z) (s : kstate) (c : Z) (e : Env) (w cr2 : Z) (m' : memst).
Hypothesis H : upcall_ready R fl efl s c e w.
Hypothesis Hpush : push_words (utf_esp (env_tf e)) (utrapframe cr2 (env_tf e)) (mem s) = Ret tt m'.

(** The state [env_run] starts from. *)
Definition upcall_st : kstate := set_envs (<[c := upcall_env e]> (envs s)) (set_mem m' s).

Lemma upcall_handler_eq : page_fault_handler cr2 (env_tf e) s =
  match env_run c upcall_st with Ret _ s1 => env_destroy c s1 | Switch s1 => Switch s1
  | Panic y => Panic y | Fault => Fault end.
Proof using H Hpush.
  unfold page_fault_handler. rewrite (ur_user _ _ _ _ _ _ _ H). cbn [Z.eqb Pos.eqb negb].
  unfold cur. unfold bind at 1 2, gets. rewrite (ur_cur _ _ _ _ _ _ _ H). cbn [deref ret].
  unfold bind at 1, env_at. rewrite (ur_env _ _ _ _ _ _ _ H). cbn [deref ret].
  unfold bind at 1. rewrite (proj2 (ctrue_true _) (ur_upcall _ _ _ _ _ _ _ H)). cbv zeta.
  rewrite (bind_eq _ _ _ _ _ (upcall_assert _ _ _ _ _ _ _ H)).
  erewrite (bind_eq (on_mem _)) by (unfold on_mem, zoom; rewrite Hpush; reflexivity).
  by rewrite (upcall_upd (set_mem m' s) c e (ur_env _ _ _ _ _ _ _ H)).
Qed.

Hypothesis Hwr : written (w / 4096) (utf_esp (env_tf e) mod 4096)
  (words_bytes (utrapframe cr2 (env_tf e))) (mem s) m'.

Lemma upcall_st_inv : kinv R fl efl upcall_st.
Proof using H Hwr.
  pose proof H as [K _ _ He _ _ _ _ _ _ _ _ HR _].
  apply (kinv_env R fl efl (set_mem m' s) c e (upcall_env e)); [|done..].
  apply (written_kinv R fl efl s _ _ _ m' K Hwr).
  - destruct (upcall_page _ _ _ _ _ _ _ H) as (Hu & Hut & _).
    apply (user_page_not_table R fl efl s (cr3 (mem s)) (utf_esp (env_tf e)));
      [done|by eapply upcall_dir|done|done|by eapply upcall_pte].
  - pose proof (ki_kern_R _ _ _ _ K). intros E. rewrite E in HR. lia.
Qed.

Lemma upcall_run_eq : page_fault_handler cr2 (env_tf e) s = Switch (run_st upcall_st c (cr3 (mem s))).
Proof using H Hpush Hwr.
  rewrite upcall_handler_eq.
  rewrite (env_run_eq upcall_st c (upcall_env e) (cr3 (mem s))); [done| | |].
  - apply (kinv_sched_ok R fl efl); [apply upcall_st_inv|exact (ur_lock _ _ _ _ _ _ _ H)].
  - apply lookup_insert_eq.
  - exact (ur_dir _ _ _ _ _ _ _ H).
Qed.

Lemma upcall_envs j :
  envs (run_st upcall_st c (cr3 (mem s))) !! j =
    if decide (j = c) then
      Some (set_env_cpunum (this s) (set_env_runs (u32 (env_runs e + 1))
        (set_env_status ENV_RUNNING (set_env_status ENV_RUNNABLE (upcall_env e)))))
    else envs s !! j.
Proof using H.
  cbn [run_st envs]. unfold run_envs. change (curenv upcall_st) with (curenv s).
  rewrite (ur_cur _ _ _ _ _ _ _ H). case_decide as E; [subst j|].
  - rewrite !lookup_alter_eq. cbn [upcall_st envs set_envs]. rewrite lookup_insert_eq.
    cbn [fmap option_fmap option_map]. rewrite bool_decide_eq_true_2; [done|].
    exact (ur_run _ _ _ _ _ _ _ H).
  - rewrite !lookup_alter_ne by done. cbn [upcall_st envs set_envs].
    by rewrite lookup_insert_ne by done.
Qed.
End upcall_run.

(** C30. A page fault of an environment with a handler and room on its exception
    stack always ends in user mode, in the same environment and address space, at
    the handler, with the stack pointer at a [struct UTrapframe] that holds the
    faulting address, the error code and all registers.  The frame goes to the top
    of the exception stack, or below the interrupted frame and one free word when
    the fault happened there; no other byte of memory and no other environment
    changes, and the kernel invariant holds. *)
Theorem page_fault_upcall R fl efl s c e w cr2 :
  upcall_ready R fl efl s c e w →
  let tf := env_tf e in
  let esp := utf_esp tf in
  ∃ s', page_fault_handler cr2 tf s = Switch s' ∧ kinv R fl efl s' ∧
    curenv s' = Some c ∧ kernel_locked s' = false ∧ cr3 (mem s') = cr3 (mem s) ∧
    (∃ e', envs s' !! c = Some e' ∧ env_status e' = ENV_RUNNING ∧
       env_tf e' = set_eip_esp_eflags (env_pgfault_upcall e) esp (tf_eflags tf) tf) ∧
    (∀ j, j ≠ c → envs s' !! j = envs s !! j) ∧
    written (w / 4096) (esp mod 4096) (words_bytes (utrapframe cr2 tf)) (mem s) (mem s') ∧
    UXSTACKTOP - PGSIZE ≤ esp ∧ esp + sizeof_UTrapframe ≤ UXSTACKTOP ∧
    (UXSTACKTOP - PGSIZE ≤ tf_esp tf < UXSTACKTOP → esp + sizeof_UTrapframe + 4 = tf_esp tf).
Proof.
  intros H. cbv zeta. destruct (upcall_esp _ _ _ _ _ _ _ H) as [Hesp Hrec].
  destruct (upcall_push _ _ _ _ _ _ _ H cr2) as (m' & Epush & Hwr).
  pose proof (upcall_st_inv _ _ _ _ _ _ _ _ _ H Hwr) as K2.
  assert (envs (upcall_st s c e m') !! c = Some (upcall_env e)) as He2 by apply lookup_insert_eq.
  pose proof (run_st_running _ c (upcall_env e) _ He2 (ur_dir _ _ _ _ _ _ _ H)) as Hnr.
  exists (run_st (upcall_st s c e m') c (cr3 (mem s))).
  split; [by eapply upcall_run_eq|].
  split; [apply (run_st_inv _ _ _ _ c _ _ K2 He2); cbn; by rewrite (ur_run _ _ _ _ _ _ _ H)|].
  split; [apply Hnr|]. split; [done|]. split; [done|].
  split; [|split; [|split; [|split; [lia|split; [lia|intros Hin; specialize (Hrec Hin); lia]]]]].
  - eexists. split; [rewrite (upcall_envs _ _ _ _ _ _ _ _ H), decide_True by done; reflexivity|done].
  - intros j Hj. by rewrite (upcall_envs _ _ _ _ _ _ _ _ H), decide_False by done.
  - destruct Hwr as [Hb Hf (? & ? & ? & ? & ?)]. split; [exact Hb|exact Hf|done].
Qed.

(** ** The demonstration kernel with an exception stack *)
Definition UXPAGE : Z := UXSTACKTOP - PGSIZE.

(** Environment 0 has a handler, and its address space is loaded. *)
Definition handler_env : Env := set_pgfault_upcall 0x800020 KDemo.env0.
Definition handler_st (s : kstate) : kstate :=
  set_envs (<[0 := handler_env]> (envs s)) (set_mem (set_tlb ∅ (set_cr3 31 (mem s))) s).

(** A page for the exception stack of directory 31. *)
Definition with_stack (s : kstate) : kstate :=
  match on_mem (page_alloc ALLOC_ZERO) s with
  | Ret (Some p) s => match k_page_insert 31 (Some p) UXPAGE 7 s with Ret _ s' => s' | _ => s end
  | _ => s
  end.
Definition stacked : kstate := with_stack KDemo.one.

Lemma one_dir31 : 31 ∈ dirs_of (envs KDemo.one).
Proof.
  destruct (kinv_live_dir _ _ _ _ 0 KDemo.env0 KDemo.one_inv) as (d & Hd & Hin).
  - by rewrite KDemo.one_lookup.
  - discriminate.
  - by injection Hd as <-.
Qed.

Lemma with_stack_spec R p fl efl s :
  kinv R (p :: fl) efl s → fl ≠ [] → 31 ∈ dirs_of (envs s) →
  ∃ m fl', with_stack s = set_mem m s ∧ kinv R fl' efl (set_mem m s) ∧
    pte_of m 31 (PDX UXPAGE) (PTX UXPAGE) = Some (mk_pte p 7).
Proof.
  intros K Hne Hd. destruct (kinv_page_alloc _ _ _ _ _ K) as (E1 & K1 & Hmp & _).
  unfold with_stack. rewrite E1.
  assert (is_u32 UXPAGE ∧ UXPAGE < UTOP) as [Hu Hut] by (split; [split; [discriminate|]|]; reflexivity).
  destruct (kinv_page_insert R fl efl _ 31 p UXPAGE 7 K1 Hd Hu Hut ltac:(lia) Hmp)
    as [(_ & H & _)|(m' & fl' & E & K' & I)]; [done|].
  rewrite E. exists m', fl'. split; [done|]. split; [exact K'|].
  rewrite (ins_pte _ _ _ _ _ _ _ _ _ _ I 31 (PDX UXPAGE) (PTX UXPAGE)); [by rewrite decide_True|].
  by apply user_sites.
Qed.

Lemma handler_ready fl m s0 :
  let s := set_mem m s0 in
  kinv KDemo.R fl (seqZ 1 1023) s → kernel_locked s0 = true → curenv s0 = Some 0 →
  envs s0 !! 0 = Some KDemo.env0 → pte_of m 31 (PDX UXPAGE) (PTX UXPAGE) = Some (mk_pte 30 7) →
  upcall_ready KDemo.R fl (seqZ 1 1023) (handler_st s) 0 handler_env (mk_pte 30 7).
Proof.
  intros s K Hl Hc He Hp. split; try done.
  - apply (kinv_env _ _ _ (set_mem (set_tlb ∅ (set_cr3 31 (mem s))) s) 0 KDemo.env0); [|done..].
    apply (kinv_mem _ fl _ s _ fl K); [|done..].
    apply (mm_inv_rd _ _ fl (mem s)); [apply K|done..].
  - apply lookup_insert_eq.
Qed.

Lemma rest_more : Demo.rest ≠ [].
Proof. intros H. vm_compute in H. discriminate H. Qed.

Lemma one_locked : kernel_locked KDemo.one = true.
Proof. reflexivity. Qed.

Lemma one_env0 : envs KDemo.one !! 0 = Some KDemo.env0.
Proof. by rewrite KDemo.one_lookup. Qed.

Lemma handler_frame :
  utf_esp (env_tf handler_env) mod 4096 = 4044 ∧ mk_pte 30 7 / 4096 = 30 ∧
  take 2 (words_bytes (utrapframe 0x1234 (env_tf handler_env))) = [0x34; 0x12] ∧
  length (words_bytes (utrapframe 0x1234 (env_tf handler_env))) = 52%nat.
Proof. vm_compute. repeat split. Qed.

Lemma page_fault_upcall_witness :
  ∃ s', page_fault_handler 0x1234 (env_tf handler_env) (handler_st stacked) = Switch s' ∧
    memb (mem s') 30 4044 = 0x34 ∧ memb (mem s') 30 4045 = 0x12.
Proof.
  destruct (with_stack_spec _ _ _ _ _ KDemo.one_inv rest_more one_dir31) as (m & fl & E & K & Hp).
  destruct (page_fault_upcall _ _ _ _ _ _ _ 0x1234
              (handler_ready fl m KDemo.one K one_locked KDemo.one_cur one_env0 Hp))
    as (s' & H & _ & _ & _ & _ & _ & _ & Hw & _).
  exists s'. rewrite <- E in H. split; [exact H|].
  destruct handler_frame as (E1 & E2 & E3 & E4). rewrite E1, E2 in Hw.
  pose proof (wt_bytes _ _ _ _ _ Hw) as B. rewrite E4 in B.
  revert E3 B. generalize (words_bytes (utrapframe 0x1234 (env_tf handler_env))).
  intros [|b0 [|b1 l]] E3 B; [discriminate E3..|]. injection E3 as -> ->.
  split; rewrite B by lia; reflexivity.
Defined.

(** ** Output *)
Lemma loop_fault {S A B} (fuel : positive) (f : A → M S (A + B)) a s :
  f a s = Fault → loop fuel f a s = Fault.
Proof.
  intros E. induction fuel as [p IH|p IH|]; cbn [loop]; unfold bind; [by rewrite E|by rewrite IH|done].
Qed.

(** Any program can stop the kernel: [sys_cputs] with length 0 and the address
    of an unmapped page checks no page at all, and the [%.*s] conversion then reads
    the first byte before it looks at the precision, a page fault in kernel mode. *)
Theorem sys_cputs_empty_faults s c e va :
  curenv s = Some c → envs s !! c = Some e → env_pgdir e = Some (cr3 (mem s)) →
  is_u32 va → va ≠ 0 → va mod PGSIZE = 0 →
  tlb (mem s) !! PGNUM va = None →
  pte_of (mem s) (cr3 (mem s)) (PDX va) (PTX va) = None →
  sys_cputs va 0 s = Fault.
Proof.
  intros Hc He Hd Hva H0 Ha Htlb Hp. change PGSIZE with 4096 in Ha.
  unfold sys_cputs, cur. unfold bind at 1 2, gets. rewrite Hc. cbn [deref ret].
  assert (user_mem_assert c va 0 0 s = Ret tt s) as Ea.
  { unfold user_mem_assert, bind, env_at. rewrite He. cbn [deref ret]. rewrite Hd. cbn [deref ret].
    unfold on_mem, zoom. rewrite user_mem_check_empty; [by destruct s|done|].
    unfold range_end, range_start. rewrite Z.add_0_r, u32_small, Ha by done. cbn [Z.eqb]. dlia. }
  rewrite (bind_eq _ _ _ _ _ Ea). rewrite (proj2 (Z.eqb_neq va 0) H0).
  unfold bind at 1, put_str. unfold bind at 1. rewrite loop_fault; [done|].
  rewrite Z.add_0_r, u32_small by done.
  unfold bind, on_mem, zoom, va_load8, bind. by rewrite mmu_walk_eq, Hp.
Qed.

Lemma handler_walk :
  pte_of (mem (handler_st KDemo.one)) 31 (PDX 0x400000) (PTX 0x400000) = None.
Proof. vm_compute. reflexivity. Qed.

Lemma handler_cur s : curenv (handler_st s) = curenv s.
Proof. done. Qed.

Lemma handler_cr3 s : cr3 (mem (handler_st s)) = 31 ∧ tlb (mem (handler_st s)) = ∅ ∧
  envs (handler_st s) !! 0 = Some handler_env.
Proof. split; [done|]. split; [done|]. apply lookup_insert_eq. Qed.

Lemma sys_cputs_empty_faults_witness : sys_cputs 0x400000 0 (handler_st KDemo.one) = Fault.
Proof.
  destruct (handler_cr3 KDemo.one) as (E1 & E2 & E3).
  apply (sys_cputs_empty_faults (handler_st KDemo.one) 0 handler_env 0x400000).
  - rewrite handler_cur. exact KDemo.one_cur.
  - exact E3.
  - rewrite E1. reflexivity.
  - split; [discriminate|reflexivity].
  - discriminate.
  - reflexivity.
  - rewrite E2. reflexivity.
  - rewrite E1. exact handler_walk.
Defined.
