(* ===== verification/DeviceProps.v ===== *)
(** * Properties of the network card's transmit path ([kernel/e1000.c]) *)

From stdpp Require Import base gmap list strings.
From Stdlib Require Import ZArith Lia.
From S2P Require Import Prelude Mmu Pmap PmapInv PmapOps MemInit PmapProps.
From S2P Require Import Env Sched EnvFree EnvInv EnvAlloc KDemo Syscall SyscallInv.
From S2P Require Import Console Machine Trap UserAccess TrapProps.

Set Default Proof Using "Type".

(** The caller, its address space, and a transmit ring. *)
Record tx_ready (R : Z → Z) (fl efl : list Z) (s : machine) (c : Z) (e : Env) (d : Z) : Prop := {
  txr_inv : kinv R fl efl (kern s);
  txr_cur : curenv (kern s) = Some c;
  txr_env : envs (kern s) !! c = Some e;
  txr_live : env_status e ≠ ENV_FREE;
  txr_dir : env_pgdir e = Some d;
  txr_tdt : 0 ≤ e1000_tdt (nic s) < 64;
  txr_table : ∀ i, 0 ≤ i < 64 → is_Some (tx_desc_table (nic s) !! i)
}.

Definition done_bit (td : tx_desc) : bool := Z.testbit (tx_status td) 0.

(** Where the card finds the byte at [va]. *)
Definition phys (m : memst) (d va : Z) : option Z :=
  (λ w, w / 4096 * 4096 + va mod 4096) <$> pte_of m d (PDX va) (PTX va).

(** A descriptor handed to the card. *)
Definition queued (td : tx_desc) (pa len flag : Z) : tx_desc :=
  MkTx pa (u16 len) (tx_cso td) (u8 (Z.lor flag 8)) (tx_status td) (tx_css td) (tx_special td).

Lemma land_1 x : ctrue (Z.land x 1) = Z.testbit x 0.
Proof.
  change 1 with (Z.ones 1). rewrite Z.land_ones by lia. unfold ctrue.
  rewrite Z.bit0_odd, Zmod_odd. by destruct (Z.odd x).
Qed.

Lemma user_mem_phy_addr_eq D R fl m d va :
  mm_inv D R fl m → d ∈ D → is_u32 va → va < UTOP →
  user_mem_phy_addr d va m = Ret (phys m d va) m.
Proof.
  intros Hinv Hd Hva Hut. unfold user_mem_phy_addr, phys, bind.
  pose proof (user_sites D d va Hd Hva Hut) as Hs.
  destruct (frame_of (rd m d (PDX va))) as [t|] eqn:Ht.
  - rewrite (page_lookup_pte D R fl m d va t) by done.
    destruct (pte_of m d (PDX va) (PTX va)) as [w|] eqn:Hw; [|done]. cbn.
    assert (0 ≤ w / 4096 < npages m) as Hb
      by (apply (inv_target _ _ _ _ Hinv _ _ Hs); by rewrite target_pte_of, Hw).
    pose proof (inv_np _ _ _ _ Hinv). unfold page2pa, PGSHIFT. rewrite PGOFF_mod.
    rewrite u32_small by (unfold is_u32; rewrite Z.shiftl_mul_pow2 by lia; lia).
    rewrite lor_shiftl_add; [done|lia|]. apply Z.mod_pos_bound. lia.
  - assert (pte_of m d (PDX va) (PTX va) = None) as Hn by (unfold pte_of; by rewrite Ht).
    rewrite page_lookup_eq; [by rewrite Ht, Hn|congruence|by rewrite Hn].
Qed.

Lemma next_tail t : 0 ≤ t < 64 → Z.land (t + 1) (NTXDESCS - 1) = (t + 1) mod 64.
Proof. intros. change (NTXDESCS - 1) with (Z.ones 6). by rewrite Z.land_ones by lia. Qed.

Lemma e1000_put_eq R fl efl s c e d va len flag td :
  tx_ready R fl efl s c e d → is_u32 va → va < UTOP →
  tx_desc_table (nic s) !! e1000_tdt (nic s) = Some td →
  e1000_put_tx_desc va len flag s =
    if done_bit td then
      match phys (mem (kern s)) d va with
      | Some pa => Ret 0 (set_nic (set_tdt ((e1000_tdt (nic s) + 1) mod 64)
                            (set_tx_desc (e1000_tdt (nic s)) (queued td pa len flag) (nic s))) s)
      | None => Ret (- E_INVAL) s
      end
    else Ret (- E_BUSY) s.
Proof.
  intros [K Hc He Hl Hd Ht _] Hva Hut Htd. unfold e1000_put_tx_desc.
  unfold bind at 1, gets at 1. unfold bind at 1, gets at 1. unfold bind at 1. rewrite Htd.
  cbn [deref ret]. change E1000_TXD_STAT_DD with 1. rewrite land_1. fold (done_bit td).
  destruct (done_bit td); cbn [negb]; [|done].
  assert (on_k cur s = Ret c s) as Ec.
  { unfold on_k, zoom, cur, bind, gets. rewrite Hc. by destruct s. }
  assert (on_k (pgdir_of c) s = Ret d s) as Ed.
  { unfold on_k, zoom, pgdir_of, bind, env_at. rewrite He. cbn. rewrite Hd. by destruct s. }
  destruct (kinv_live_dir R fl efl (kern s) c e K He Hl) as (d' & Hd' & Hin).
  assert (d' = d) as -> by congruence.
  assert (on_k (on_mem (user_mem_phy_addr d va)) s = Ret (phys (mem (kern s)) d va) s) as Ep.
  { unfold on_k, on_mem, zoom. rewrite (user_mem_phy_addr_eq _ R fl _ d va (ki_mm _ _ _ _ K)) by done.
    by destruct s as [[] ? ?]. }
  rewrite (bind_eq _ _ _ _ _ Ec), (bind_eq _ _ _ _ _ Ed), (bind_eq _ _ _ _ _ Ep).
  destruct (phys (mem (kern s)) d va) as [pa|]; [|done].
  unfold bind, on_nic, modify. by rewrite next_tail.
Qed.

(** ** A sequence of packets *)
Fixpoint send_all (reqs : list (Z * Z * Z)) : M machine (list Z) :=
  match reqs with
  | [] => ret []
  | (va, len, flag) :: rest =>
      let* r := e1000_put_tx_desc va len flag in
      let* rs := send_all rest in
      ret (r :: rs)
  end.

(** Every descriptor is marked as sent. *)
Definition all_done (n : nicst) : Prop :=
  ∀ i, 0 ≤ i < 64 → ∃ td, tx_desc_table n !! i = Some td ∧ done_bit td = true.

Definition mapped (m : memst) (d : Z) (r : Z * Z * Z) : Prop :=
  is_u32 r.1.1 ∧ r.1.1 < UTOP ∧ is_Some (phys m d r.1.1).

(** What [n] requests leave in the ring. *)
Record sent (d : Z) (reqs : list (Z * Z * Z)) (s s' : machine) : Prop := {
  se_kern : kern s' = kern s ∧ con s' = con s;
  se_tdt : e1000_tdt (nic s') = (e1000_tdt (nic s) + Z.of_nat (length reqs)) mod 64;
  se_done : all_done (nic s');
  se_slot : ∀ k va len flag, reqs !! k = Some (va, len, flag) → (length reqs ≤ k + 64)%nat →
    ∃ td, tx_desc_table (nic s') !! ((e1000_tdt (nic s) + Z.of_nat k) mod 64) = Some td ∧
      Some (tx_addr td) = phys (mem (kern s)) d va ∧ tx_length td = u16 len;
  se_other : ∀ j, (∀ k, (k < length reqs)%nat → (e1000_tdt (nic s) + Z.of_nat k) mod 64 ≠ j) →
    tx_desc_table (nic s') !! j = tx_desc_table (nic s) !! j
}.

Lemma send_one R fl efl s c e d va len flag :
  tx_ready R fl efl s c e d → all_done (nic s) → mapped (mem (kern s)) d (va, len, flag) →
  ∃ s1 td pa, e1000_put_tx_desc va len flag s = Ret 0 s1 ∧ tx_ready R fl efl s1 c e d ∧
    all_done (nic s1) ∧ kern s1 = kern s ∧ con s1 = con s ∧
    e1000_tdt (nic s1) = (e1000_tdt (nic s) + 1) mod 64 ∧
    tx_desc_table (nic s1) = <[e1000_tdt (nic s) := queued td pa len flag]> (tx_desc_table (nic s)) ∧
    phys (mem (kern s)) d va = Some pa.
Proof.
  intros H Hdone (Hva & Hut & (pa & Hpa)). cbn [fst snd] in *. pose proof H as [K Hc He Hl Hd Ht Htab].
  destruct (Hdone _ Ht) as (td & Htd & Hb).
  rewrite (e1000_put_eq R fl efl s c e d va len flag td H Hva Hut Htd), Hb, Hpa.
  eexists _, td, pa. split; [reflexivity|]. cbn [kern con nic set_nic set_tdt set_tx_desc
    tx_desc_table e1000_tdt]. split; [|split; [|by repeat split]].
  - split; try done; cbn.
    + apply Z.mod_pos_bound. lia.
    + intros i Hi. destruct (decide (e1000_tdt (nic s) = i)) as [<-|];
        [rewrite lookup_insert_eq; by eexists|rewrite lookup_insert_ne by done; auto].
  - intros i Hi. cbn. destruct (decide (e1000_tdt (nic s) = i)) as [<-|];
      [rewrite lookup_insert_eq; by eexists|rewrite lookup_insert_ne by done; auto].
Qed.

Lemma send_all_spec R fl efl c e d reqs : ∀ s,
  tx_ready R fl efl s c e d → all_done (nic s) → Forall (mapped (mem (kern s)) d) reqs →
  ∃ s', send_all reqs s = Ret (replicate (length reqs) 0) s' ∧ sent d reqs s s'.
Proof.
  induction reqs as [|[[va len] flag] reqs IH]; intros s H Hdone Hm.
  { exists s. split; [done|]. pose proof (txr_tdt _ _ _ _ _ _ _ H).
    split; try done. cbn. rewrite Z.add_0_r, Z.mod_small; lia. }
  inversion_clear Hm as [|? ? Hm1 Hm2].
  destruct (send_one R fl efl s c e d va len flag H Hdone Hm1)
    as (s1 & td & pa & E1 & H1 & Hd1 & Ek & Ec & Et & Etab & Hpa).
  rewrite <- Ek in Hm2. destruct (IH s1 H1 Hd1 Hm2) as (s' & E & [[Ek' Ec'] Ht' Hdn Hsl Ho]).
  pose proof (txr_tdt _ _ _ _ _ _ _ H) as Ht. exists s'. split.
  { cbn [send_all]. rewrite (bind_eq _ _ _ _ _ E1), (bind_eq _ _ _ _ _ E). done. }
  split.
  - by rewrite Ek', Ek, Ec', Ec.
  - rewrite Ht', Et. cbn [length]. dlia.
  - done.
  - intros [|k] va' len' flag' Hk Hlen; cbn [length] in Hlen.
    + injection Hk as -> -> ->. exists (queued td pa len' flag').
      rewrite Z.add_0_r, Z.mod_small by done.
      rewrite Ho, Etab, lookup_insert_eq, Hpa; [done|]. intros k Hk'. rewrite Et. dlia.
    + destruct (Hsl k va' len' flag' Hk) as (td' & Htd' & Ha & Hlen'); [lia|]. exists td'.
      rewrite Ek in Ha. rewrite <- Htd', Et. split; [|done]. f_equal. dlia.
  - intros j Hj. rewrite Ho, Etab, lookup_insert_ne; [done| |].
    + specialize (Hj 0%nat). rewrite Z.add_0_r, Z.mod_small in Hj by done. apply Hj. cbn. lia.
    + intros k Hk. specialize (Hj (S k)). rewrite Et. cbn [length] in Hj.
      intros E'. apply Hj; [lia|]. rewrite <- E'. dlia.
Qed.

(** A full transmit ring is never noticed.  Queueing a packet does not clear
    the descriptor's "done" bit, so the test for a free descriptor always succeeds:
    any number of packets is accepted with 0 while the card has sent nothing, and
    each of the last 64 sits in the descriptor of its turn, over the packet that
    was queued there 64 sends earlier. *)
Theorem e1000_tx_overrun R fl efl s c e d reqs :
  tx_ready R fl efl s c e d → all_done (nic s) → Forall (mapped (mem (kern s)) d) reqs →
  ∃ s', send_all reqs s = Ret (replicate (length reqs) 0) s' ∧ all_done (nic s') ∧
    e1000_tdt (nic s') = (e1000_tdt (nic s) + Z.of_nat (length reqs)) mod 64 ∧
    kern s' = kern s ∧
    ∀ k va len flag, reqs !! k = Some (va, len, flag) → (length reqs ≤ k + 64)%nat →
      ∃ td, tx_desc_table (nic s') !! ((e1000_tdt (nic s) + Z.of_nat k) mod 64) = Some td ∧
        Some (tx_addr td) = phys (mem (kern s)) d va ∧ tx_length td = u16 len.
Proof.
  intros H Hd Hm. destruct (send_all_spec R fl efl c e d reqs s H Hd Hm) as (s' & E & []).
  exists s'. naive_solver.
Qed.

(** ** A card with an idle ring *)
Definition idle_tx : tx_desc := MkTx 0 0 0 0 E1000_TXD_STAT_DD 0 0.
Definition idle_nic : nicst :=
  MkNic (list_to_map ((λ i, (i, idle_tx)) <$> seqZ 0 64)) ∅ 0 0 ∅.
Definition with_nic (s : kstate) (c : constate) : machine := MkMachine s c idle_nic.
Definition idle_con : constate := MkCons [] 0 0 false 0 [] 0 [] [] [] [] 0.

Lemma idle_lookup i : 0 ≤ i < 64 → tx_desc_table idle_nic !! i = Some idle_tx.
Proof.
  intros Hi. apply elem_of_list_to_map.
  - rewrite <- list_fmap_compose. change (fst ∘ _) with (@id Z). rewrite list_fmap_id.
    apply NoDup_seqZ.
  - apply list_elem_of_fmap. exists i. split; [done|]. apply elem_of_seqZ. lia.
Qed.

Lemma idle_ready R fl efl s e d co :
  kinv R fl efl s → curenv s = Some 0 → envs s !! 0 = Some e → env_status e ≠ ENV_FREE →
  env_pgdir e = Some d → tx_ready R fl efl (with_nic s co) 0 e d.
Proof.
  intros. split; try done. intros i Hi. exists idle_tx. exact (idle_lookup i Hi).
Qed.

Lemma idle_all_done s co : all_done (nic (with_nic s co)).
Proof. intros i Hi. exists idle_tx. split; [exact (idle_lookup i Hi)|done]. Qed.

Lemma stack_mapped m len : 
  pte_of m 31 (PDX UXPAGE) (PTX UXPAGE) = Some (mk_pte 30 7) → mapped m 31 (UXPAGE, len, 1).
Proof.
  intros H. split; [split; [discriminate|reflexivity]|]. split; [reflexivity|].
  cbn [fst]. unfold phys. rewrite H. by eexists.
Qed.

Lemma set_mem_cur m s : curenv (set_mem m s) = curenv s ∧ envs (set_mem m s) = envs s.
Proof. done. Qed.

Lemma e1000_tx_overrun_witness :
  ∃ s', send_all (replicate 65 (UXPAGE, 100, 1)) (with_nic stacked idle_con) =
    Ret (replicate 65 0) s' ∧ e1000_tdt (nic s') = 1.
Proof.
  destruct (with_stack_spec _ _ _ _ _ KDemo.one_inv rest_more one_dir31) as (m & fl & E & K & Hp).
  destruct (set_mem_cur m KDemo.one) as [E1 E2]. unfold stacked. rewrite E.
  destruct (e1000_tx_overrun KDemo.R fl (seqZ 1 1023) (with_nic (set_mem m KDemo.one) idle_con)
              0 KDemo.env0 31 (replicate 65 (UXPAGE, 100, 1))) as (s' & H1 & _ & H2 & _).
  - apply idle_ready; [exact K|rewrite E1; exact KDemo.one_cur|rewrite E2; exact one_env0
      |discriminate|reflexivity].
  - apply idle_all_done.
  - apply Forall_replicate. exact (stack_mapped m 100 Hp).
  - exists s'. split; [exact H1|exact H2].
Defined.
