(* ===== verification/Div64.v ===== *)
(** * 64-bit division on a 32-bit machine ([lib/div64.c])

    The compiler turns [/] and [%] on [unsigned long long] into calls of
    [__udivdi3] and [__umoddi3].  They divide by shifting and subtracting; both
    loops run on fuel here, and a run that exhausts it is a [Fault], so a result
    is also a proof that the loops end. *)

From stdpp Require Import base strings.
From Stdlib Require Import ZArith Lia.
From S2P Require Import Prelude.

(** ** The two words of a 64-bit number *)
Record overlay64 := MkOverlay { lower : Z; higher : Z }.

Definition words (num : Z) : overlay64 := MkOverlay (num mod 2 ^ 32) (num / 2 ^ 32).
Definition longw (o : overlay64) : Z := lower o + higher o * 2 ^ 32.

Definition shl32 (x n : Z) : Z := u32 (Z.shiftl x n).

Definition __ashldi3 (num shift : Z) : Z :=
  let o := words num in
  if 32 <=? shift then longw (MkOverlay 0 (shl32 (lower o) (shift - 32)))
  else if shift =? 0 then num
  else longw (MkOverlay (shl32 (lower o) shift)
                (Z.lor (shl32 (higher o) shift) (Z.shiftr (lower o) (32 - shift)))).

Definition __lshrdi3 (num shift : Z) : Z :=
  let o := words num in
  if 32 <=? shift then longw (MkOverlay (Z.shiftr (higher o) (shift - 32)) 0)
  else if shift =? 0 then num
  else longw (MkOverlay (Z.lor (Z.shiftr (lower o) shift) (shl32 (higher o) (32 - shift)))
                (Z.shiftr (higher o) shift)).

(** ** Division *)
Definition MAX_32BIT_UINT : Z := 2 ^ 32 - 1.

(** The inner loop: double [locald] while it is at most [limit]. *)
Fixpoint divide_shift (fuel : nat) (locald limit shifts : Z) : M unit (Z * Z) :=
  match fuel with
  | O => fault
  | S fuel' =>
      if locald <=? limit then divide_shift fuel' (u64 (locald + locald)) limit (shifts + 1)
      else ret (locald, shifts)
  end.

(** The outer loop, which returns quotient and remainder. *)
Fixpoint divide_loop (fuel : nat) (divider dividend result : Z) : M unit (Z * Z) :=
  match fuel with
  | O => fault
  | S fuel' =>
      if divider <=? dividend then
        let* (locald, shifts) := divide_shift 64 divider (__lshrdi3 dividend 1) 0 in
        divide_loop fuel' divider (u64 (dividend - locald)) (Z.lor result (__ashldi3 1 shifts))
      else ret (result, dividend)
  end.

(** The quotient, and what is stored through [rem_p]. *)
Definition _64bit_divide (dividend divider : Z) : M unit (Z * Z) :=
  if divider =? 0 then panic "divide error"
  else if dividend <=? MAX_32BIT_UINT then
    if MAX_32BIT_UINT <? divider then ret (0, divider)
    else ret (u32 dividend / u32 divider, u32 dividend mod u32 divider)
  else divide_loop 65 divider dividend 0.

Definition __udivdi3 (num den : Z) : M unit Z := let* (q, _) := _64bit_divide num den in ret q.
Definition __umoddi3 (num den : Z) : M unit Z := let* (_, v) := _64bit_divide num den in ret v.

(** ** Shifts *)
Definition is_u64 (x : Z) : Prop := 0 ≤ x < 2 ^ 64.

Lemma u64_small x : is_u64 x → u64 x = x.
Proof. intros. by apply Z.mod_small. Qed.

Lemma ashldi3_one k : 0 ≤ k < 64 → __ashldi3 1 k = 2 ^ k.
Proof.
  intros Hk. assert (∀ i : Z, In i (List.map Z.of_nat (seq 0 64)) → __ashldi3 1 i = 2 ^ i) as H.
  { apply List.Forall_forall. by repeat constructor. }
  apply H, List.in_map_iff. exists (Z.to_nat k). rewrite List.in_seq. lia.
Qed.

Lemma lshrdi3_one n : is_u64 n → __lshrdi3 n 1 = n / 2.
Proof.
  intros [H0 H1]. unfold __lshrdi3, words, longw, shl32, u32. cbn [lower higher].
  change (32 <=? 1) with false. change (1 =? 0) with false. cbv iota.
  rewrite !Z.shiftr_div_pow2, Z.shiftl_mul_pow2 by lia. change (32 - 1) with 31.
  replace (n / 2) with ((n mod 2 ^ 32 + n / 2 ^ 32 * 2 ^ 32) / 2) by (f_equal; dlia).
  assert (0 ≤ n mod 2 ^ 32 < 2 ^ 32) as Hlo by (apply Z.mod_pos_bound; lia).
  revert Hlo. generalize (n mod 2 ^ 32), (n / 2 ^ 32). intros lo hi Hlo.
  rewrite Z.lor_comm. replace (hi * 2 ^ 31) with (2 ^ 31 * hi) by lia.
  change (2 ^ 32) with (2 ^ 31 * 2) at 1. rewrite Z.mul_mod_distr_l by lia.
  rewrite (Z.mul_comm (2 ^ 31)), <- Z.shiftl_mul_pow2, lor_shiftl_add by dlia.
  change (2 ^ 1) with 2. dlia.
Qed.

(** ** The loops *)

(** The divisor is shifted to the last place where it still fits. *)
Lemma divide_shift_spec d n : ∀ (fuel : nat) s,
  0 < d → is_u64 n → 0 ≤ s → d * 2 ^ s ≤ n → 64 ≤ s + Z.of_nat fuel →
  ∃ k, divide_shift fuel (d * 2 ^ s) (n / 2) s tt = Ret (d * 2 ^ k, k) tt ∧
    0 ≤ k < 64 ∧ d * 2 ^ k ≤ n < 2 * (d * 2 ^ k).
Proof.
  induction fuel as [|fuel IH]; intros s Hd [H0 H1] Hs Hle Hf.
  { assert (2 ^ 64 ≤ 2 ^ s) by (apply Z.pow_le_mono_r; lia). nia. }
  assert (s < 64) by (apply (Z.pow_lt_mono_r_iff 2); nia).
  cbn [divide_shift]. destruct (Z.leb_spec (d * 2 ^ s) (n / 2)) as [Hc|Hc].
  - assert (2 * (d * 2 ^ s) ≤ n) by dlia.
    replace (u64 (d * 2 ^ s + d * 2 ^ s)) with (d * 2 ^ (s + 1)); [apply IH; try lia; [done|]|].
    + rewrite Z.pow_add_r by lia. lia.
    + rewrite u64_small by (unfold is_u64; lia). rewrite Z.pow_add_r by lia. lia.
  - exists s. split; [done|]. split; [lia|]. dlia.
Qed.

(** A new bit of the quotient lies below those found so far. *)
Lemma lor_new_bit q j k : 0 ≤ k < j → q mod 2 ^ j = 0 → Z.lor q (2 ^ k) = q + 2 ^ k.
Proof.
  intros Hk Hq. apply Z.div_exact in Hq; [|lia]. rewrite Hq, (Z.mul_comm (2 ^ j)).
  rewrite <- Z.shiftl_mul_pow2 by lia. rewrite lor_shiftl_add, Z.shiftl_mul_pow2; try lia.
  split; [lia|]. apply Z.pow_lt_mono_r; lia.
Qed.

Lemma divide_loop_spec d : ∀ (fuel : nat) n q j,
  0 < d → is_u64 n → 0 ≤ j < Z.of_nat fuel → n < d * 2 ^ j → q mod 2 ^ j = 0 →
  divide_loop fuel d n q tt = Ret (q + n / d, n mod d) tt.
Proof.
  induction fuel as [|fuel IH]; intros n q j Hd Hn Hj Hnj Hq; [lia|].
  cbn [divide_loop]. destruct (Z.leb_spec d n) as [Hc|Hc].
  - rewrite lshrdi3_one by done.
    destruct (divide_shift_spec d n 64 0) as (k & E & Hk & Hle & Hlt); try done; [lia|].
    rewrite Z.mul_1_r in E. rewrite (bind_eq _ _ _ _ _ E). cbv beta iota.
    assert (k < j) by (apply (Z.pow_lt_mono_r_iff 2); nia).
    destruct Hn. rewrite u64_small by (unfold is_u64; lia).
    rewrite ashldi3_one, (lor_new_bit q j k) by lia.
    rewrite (IH _ _ k); try lia; [| unfold is_u64; lia |].
    + replace (n - d * 2 ^ k) with (n + (- 2 ^ k) * d) by lia.
      rewrite Z.div_add, Z.mod_add by lia. do 2 f_equal. lia.
    + apply Z.div_exact in Hq; [|lia]. rewrite Hq.
      replace (2 ^ j) with (2 ^ (j - k) * 2 ^ k) by (rewrite <- Z.pow_add_r by lia; f_equal; lia).
      replace (2 ^ (j - k) * 2 ^ k * (q / (2 ^ (j - k) * 2 ^ k)) + 2 ^ k)
        with ((2 ^ (j - k) * (q / (2 ^ (j - k) * 2 ^ k)) + 1) * 2 ^ k) by lia.
      apply Z.mod_mul. lia.
  - destruct Hn. rewrite Z.div_small, Z.mod_small by lia. unfold ret. do 2 f_equal. lia.
Qed.

Lemma div64_spec num den :
  is_u64 num → is_u64 den → den ≠ 0 →
  __udivdi3 num den tt = Ret (num / den) tt ∧
  __umoddi3 num den tt =
    Ret (if (num <? 2 ^ 32) && (2 ^ 32 <=? den) then den else num mod den) tt.
Proof.
  intros Hn [Hd0 Hd1] Hd. unfold __udivdi3, __umoddi3, _64bit_divide, MAX_32BIT_UINT, bind.
  rewrite (proj2 (Z.eqb_neq den 0) Hd).
  destruct (Z.leb_spec num (2 ^ 32 - 1)) as [Hs|Hs].
  - rewrite (proj2 (Z.ltb_lt num (2 ^ 32))) by lia. destruct Hn.
    destruct (Z.ltb_spec (2 ^ 32 - 1) den) as [Hb|Hb]; cbn [andb].
    + rewrite (proj2 (Z.leb_le (2 ^ 32) den)) by lia. rewrite Z.div_small by lia. done.
    + rewrite (proj2 (Z.leb_gt (2 ^ 32) den)) by lia.
      by rewrite !u32_small by (unfold is_u32; lia).
  - rewrite (proj2 (Z.ltb_ge num (2 ^ 32))) by lia. cbn [andb].
    rewrite (divide_loop_spec den 65 num 0 64); [by rewrite Z.add_0_l|lia|done|lia| |done].
    destruct Hn. nia.
Qed.

(** [__udivdi3] is division and [__umoddi3] is the remainder, on all 64-bit
    operands with a nonzero divisor, and both loops end within their 64 rounds; with
    one exception: when the dividend has 32 bits and the divisor has more,
    [__umoddi3] yields the divisor in place of the dividend. *)
Theorem div64_correct num den :
  is_u64 num → is_u64 den → den ≠ 0 →
  __udivdi3 num den tt = Ret (num / den) tt ∧
  __umoddi3 num den tt =
    Ret (if (num <? 2 ^ 32) && (2 ^ 32 <=? den) then den else num mod den) tt.
Proof. apply div64_spec. Qed.

Lemma div64_correct_witness :
  __udivdi3 (2 ^ 40 + 7) 10 tt = Ret 109951162778 tt ∧
  __umoddi3 7 (2 ^ 33) tt = Ret (2 ^ 33) tt.
Proof.
  split.
  - refine (proj1 (div64_correct (2 ^ 40 + 7) 10 _ _ _)); by vm_compute.
  - refine (proj2 (div64_correct 7 (2 ^ 33) _ _ _)); by vm_compute.
Defined.
