(* ===== verification/BlockCache.v ===== *)
(** * The file server's block cache ([fs/block_cache.c], [fs/ide.c])

    The server sees the disk as an array of blocks in its address space, at
    [DISKMAP]: block [n] is the page at [DISKMAP + n * BLKSIZE].  A page comes into
    being on the first access to it, when the page fault handler [bc_pgfault] reads
    the block; [flush_block] writes it back.

    The state is the disk, the pages that are mapped with their dirty bits, the two
    global pointers, and which of the next requests to the kernel and to the drive
    will be refused.  Pointers are 32-bit addresses.  The server's other memory is
    not part of this state: an access outside the disk map is the page fault that
    [bc_pgfault] answers with a panic. *)

From stdpp Require Import base gmap list strings.
From Stdlib Require Import ZArith Lia FunctionalExtensionality.
From S2P Require Import Prelude Mmu.

(** ** Layout *)
Definition SECTSIZE : Z := 512.
Definition BLKSIZE : Z := PGSIZE.
Definition BLKSECTS : Z := BLKSIZE / SECTSIZE.
Definition DISKMAP : Z := 0x10000000.
Definition DISKSIZE : Z := 0xC0000000.

(** ** State *)
Record page := MkPage { bytes : Z → Z; dirty : bool }.

Record fsst := MkFs {
  disk : Z → Z;                 (* the bytes of the disk *)
  cache : gmap Z page;          (* the mapped pages, by block number *)
  super : option Z;             (* the pointers; [None] is null *)
  bitmap : option Z;
  refusals : list bool          (* [true]: the next request fails; none fails
                                   after the end of the list *)
}.

Definition set_disk (x : Z → Z) (s : fsst) : fsst :=
  MkFs x (cache s) (super s) (bitmap s) (refusals s).
Definition set_cache (x : gmap Z page) (s : fsst) : fsst :=
  MkFs (disk s) x (super s) (bitmap s) (refusals s).
Definition set_super (x : option Z) (s : fsst) : fsst :=
  MkFs (disk s) (cache s) x (bitmap s) (refusals s).
Definition set_bitmap (x : option Z) (s : fsst) : fsst :=
  MkFs (disk s) (cache s) (super s) x (refusals s).
Definition set_refusals (x : list bool) (s : fsst) : fsst :=
  MkFs (disk s) (cache s) (super s) (bitmap s) x.

Definition in_map (va : Z) : bool := (DISKMAP <=? va) && (va <? DISKMAP + DISKSIZE).
Definition block_of (va : Z) : Z := (va - DISKMAP) / BLKSIZE.

(** Will the next request be granted? *)
Definition request : M fsst bool := λ s,
  match refusals s with
  | [] => Ret true s
  | r :: rest => Ret (negb r) (set_refusals rest s)
  end.

(** ** The drive *)

(** The sector number the drive puts together from its registers. *)
Definition ide_lba (secno : Z) : Z :=
  Z.lor (Z.land secno 0xFF)
    (Z.lor (Z.shiftl (Z.land (Z.shiftr secno 8) 0xFF) 8)
       (Z.lor (Z.shiftl (Z.land (Z.shiftr secno 16) 0xFF) 16)
          (Z.shiftl (Z.land (Z.shiftr secno 24) 0x0F) 24))).

(** Sectors one after the other, to or from the page at [dst]. *)
Fixpoint read_sectors (n : nat) (lba dst : Z) : M fsst Z :=
  match n with
  | O => ret 0
  | S n' =>
      let* ok := request in
      if negb ok then ret (-1) else
      let* c := gets cache in
      let* p := deref (c !! block_of dst) in
      do* modify (λ s, set_cache (<[block_of dst :=
            MkPage (patch (bytes p) (dst mod PGSIZE) SECTSIZE
                      (λ i, disk s (lba * SECTSIZE + i))) true]> (cache s)) s) in
      read_sectors n' (lba + 1) (dst + SECTSIZE)
  end.

Definition ide_read (secno dst nsecs : Z) : M fsst Z :=
  do* massert (nsecs <=? 256) in
  read_sectors (Z.to_nat nsecs) (ide_lba secno) dst.

Fixpoint write_sectors (n : nat) (lba src : Z) : M fsst Z :=
  match n with
  | O => ret 0
  | S n' =>
      let* ok := request in
      if negb ok then ret (-1) else
      let* c := gets cache in
      let* p := deref (c !! block_of src) in
      do* modify (λ s, set_disk (patch (disk s) (lba * SECTSIZE) SECTSIZE
            (λ i, bytes p (src mod PGSIZE + i))) s) in
      write_sectors n' (lba + 1) (src + SECTSIZE)
  end.

Definition ide_write (secno src nsecs : Z) : M fsst Z :=
  do* massert (nsecs <=? 256) in
  write_sectors (Z.to_nat nsecs) (ide_lba secno) src.

(** ** Pages of the disk map

    What the three system calls do to it: a fresh page of zeros, the same page
    mapped again (which clears the dirty bit the processor keeps in the entry), and
    no page.  The kernel refuses an address that is not page-aligned. *)
Definition bc_page_alloc (va : Z) : M fsst Z :=
  if negb (in_map va) then fault else
  if negb (va mod PGSIZE =? 0) then ret (- E_INVAL) else
  let* ok := request in
  if negb ok then ret (- E_NO_MEM) else
  do* modify (λ s, set_cache (<[block_of va := MkPage (λ _, 0) false]> (cache s)) s) in
  ret 0.

Definition bc_page_remap (va : Z) : M fsst Z :=
  if negb (in_map va) then fault else
  if negb (va mod PGSIZE =? 0) then ret (- E_INVAL) else
  let* ok := request in
  if negb ok then ret (- E_NO_MEM) else
  let* c := gets cache in
  match c !! block_of va with
  | None => ret (- E_INVAL)
  | Some p =>
      do* modify (λ s, set_cache (<[block_of va := MkPage (bytes p) false]> (cache s)) s) in
      ret 0
  end.

Definition bc_page_unmap (va : Z) : M fsst Z :=
  if negb (in_map va) then fault else
  if negb (va mod PGSIZE =? 0) then ret (- E_INVAL) else
  do* modify (λ s, set_cache (delete (block_of va) (cache s)) s) in
  ret 0.

Definition va_is_mapped (va : Z) : M fsst bool :=
  gets (λ s, in_map va && bool_decide (is_Some (cache s !! block_of va))).
Definition va_is_dirty (va : Z) : M fsst bool :=
  gets (λ s, match cache s !! block_of va with Some p => dirty p | None => false end).

(** ** Access to blocks *)

(** The value of the four bytes at offset [o], least significant first. *)
Definition word_at (f : Z → Z) (o : Z) : Z :=
  f o + f (o + 1) * 2 ^ 8 + f (o + 2) * 2 ^ 16 + f (o + 3) * 2 ^ 24.
Definition byte_of (w k : Z) : Z := Z.land (Z.shiftr w (8 * k)) 0xFF.

(** Read a mapped page. *)
Definition peek8 (va : Z) : M fsst Z := λ s,
  match cache s !! block_of va with
  | Some p => Ret (u8 (bytes p (va mod PGSIZE))) s
  | None => Fault
  end.
Definition peek32 (va : Z) : M fsst Z := λ s,
  if va mod PGSIZE <=? PGSIZE - 4 then
    match cache s !! block_of va with
    | Some p => Ret (word_at (λ a, u8 (bytes p a)) (va mod PGSIZE)) s
    | None => Fault
    end
  else Fault.

(** An access: a page that is not there is brought in by the handler. *)
Definition touch_with (handler : Z → M fsst unit) (va : Z) : M fsst unit :=
  let* m := va_is_mapped va in if m then ret tt else handler va.
Definition load32_with (handler : Z → M fsst unit) (va : Z) : M fsst Z :=
  do* touch_with handler va in peek32 va.

(** [s_nblocks] and [block_is_free], with the handler their accesses may enter. *)
Definition s_nblocks_with (handler : Z → M fsst unit) : M fsst Z :=
  let* p := gets super in
  let* p := deref p in
  load32_with handler (p + 4).

Definition block_is_free_with (handler : Z → M fsst unit) (blockno : Z) : M fsst bool :=
  let* p := gets super in
  match p with
  | None => ret false
  | Some _ =>
      let* n := s_nblocks_with handler in
      if n <=? blockno then ret false else
      let* bm := gets bitmap in
      let* bm := deref bm in
      let* w := load32_with handler (bm + 4 * (blockno / 32)) in
      ret (ctrue (Z.land w (Z.shiftl 1 (blockno mod 32))))
  end.

(** The handler reads the super block and the bitmap itself, so it may be entered
    again; a block's bit is at most three bitmap blocks away, and four levels are
    enough. *)
Fixpoint bc_pgfault (fuel : nat) (addr : Z) : M fsst unit :=
  match fuel with
  | O => fault
  | S fuel' =>
      let blockno := block_of addr in
      let block_addr := ROUNDDOWN addr PGSIZE in
      if negb (in_map addr) then panic "page fault in FS" else
      let* p := gets super in
      let* bad := match p with
                  | Some _ => let* n := s_nblocks_with (bc_pgfault fuel') in ret (n <=? blockno)
                  | None => ret false
                  end in
      if bad then panic "reading non-existent block" else
      let* r := bc_page_alloc block_addr in
      if r <? 0 then panic "bc_pgfault: sys_page_alloc" else
      let* r := ide_read (u32 (blockno * BLKSECTS)) block_addr BLKSECTS in
      if r <? 0 then panic "bc_pgfault: ide_read" else
      let* r := bc_page_remap block_addr in
      if r <? 0 then panic "in bc_pgfault, sys_page_map" else
      let* bm := gets bitmap in
      match bm with
      | None => ret tt
      | Some _ =>
          let* fr := block_is_free_with (bc_pgfault fuel') blockno in
          if fr then panic "reading free block" else ret tt
      end
  end.

Definition pgfault : Z → M fsst unit := bc_pgfault 4.

Definition touch (va : Z) : M fsst unit := touch_with pgfault va.
Definition load8 (va : Z) : M fsst Z := do* touch va in peek8 va.
Definition load32 (va : Z) : M fsst Z := do* touch va in peek32 va.
Definition s_nblocks : M fsst Z := s_nblocks_with pgfault.
Definition block_is_free (blockno : Z) : M fsst bool := block_is_free_with pgfault blockno.

(** Write [n] bytes of one page; the processor sets the dirty bit. *)
Definition store_range (va n : Z) (g : Z → Z) : M fsst unit :=
  do* touch va in
  λ s, if va mod PGSIZE + n <=? PGSIZE then
         match cache s !! block_of va with
         | Some p => Ret tt (set_cache (<[block_of va :=
             MkPage (patch (bytes p) (va mod PGSIZE) n g) true]> (cache s)) s)
         | None => Fault
         end
       else Fault.
Definition store32 (va w : Z) : M fsst unit := store_range va 4 (byte_of w).

(** Read [n] bytes of one page. *)
Definition load_range (va n : Z) : M fsst (list Z) :=
  do* touch va in
  λ s, if va mod PGSIZE + n <=? PGSIZE then
         match cache s !! block_of va with
         | Some p => Ret ((λ i, u8 (bytes p (va mod PGSIZE + i))) <$> seqZ 0 n) s
         | None => Fault
         end
       else Fault.

(** ** Blocks *)
Definition diskaddr (blockno : Z) : M fsst Z :=
  if blockno =? 0 then panic "bad block number in diskaddr" else
  let* p := gets super in
  let* bad := match p with
              | Some _ => let* n := s_nblocks in ret (n <=? blockno)
              | None => ret false
              end in
  if bad then panic "bad block number in diskaddr"
  else ret (u32 (DISKMAP + u32 (blockno * BLKSIZE))).

Definition flush_block (addr : Z) : M fsst unit :=
  let block_addr := ROUNDDOWN addr PGSIZE in
  let blockno := block_of addr in
  if negb (in_map addr) then panic "flush_block of bad va" else
  let* m := va_is_mapped addr in
  let* d := va_is_dirty addr in
  if negb m || negb d then ret tt else
  let* r := ide_write (u32 (blockno * BLKSECTS)) block_addr BLKSECTS in
  if r <? 0 then panic "flush_block: ide_write" else
  let* r := bc_page_remap block_addr in
  if r <? 0 then panic "flush_block: sys_page_map" else ret tt.

(** [strcmp(p, name) == 0] for a string in the disk map and one outside it. *)
Fixpoint strcmp_eq (va : Z) (name : list Z) : M fsst bool :=
  let* c := load8 va in
  match name with
  | [] => ret (c =? 0)
  | ch :: rest => if ctrue c && (c =? ch) then strcmp_eq (va + 1) rest else ret false
  end.

(** [strcpy] of such a string, with its final null character. *)
Definition strcpy (va : Z) (name : list Z) : M fsst unit :=
  store_range va (Z.of_nat (length name) + 1) (λ i, (name ++ [0]) !!! Z.to_nat i).

(** ** Start-up *)
Definition sizeof_Super : Z := 264.
Definition OOPS : list Z := [79; 79; 80; 83; 33; 10].

(** One of the two rounds of [check_bc]: overwrite the super block, write it out
    through [flush], drop it, read it again, and put it right. *)
Definition check_bc_round (flush : Z → M fsst unit) : M fsst unit :=
  let* d := diskaddr 1 in
  let* backup := load_range d sizeof_Super in
  do* strcpy d OOPS in
  do* flush d in
  let* m := va_is_mapped d in
  do* massert m in
  let* _ := bc_page_unmap d in
  let* m := va_is_mapped d in
  do* massert (negb m) in
  let* same := strcmp_eq d OOPS in
  do* massert same in
  do* store_range d sizeof_Super (λ i, backup !!! Z.to_nat i) in
  flush_block d.

Definition check_bc : M fsst unit :=
  do* check_bc_round (λ d,
        do* flush_block d in
        do* flush_block d in
        let* m := va_is_mapped d in
        do* massert m in
        let* dt := va_is_dirty d in
        massert (negb dt)) in
  check_bc_round (λ d, flush_block (d + 20)).

(** The handler and the area of the disk map are in place from the start. *)
Definition bc_init : M fsst unit :=
  do* check_bc in
  let* d := diskaddr 1 in
  let* _ := load_range d sizeof_Super in
  ret tt.
