(* ===== verification/BlockImage.v ===== *)
(** * The block cache as a flat image

    What the block cache promises to the file system above it: as long as nothing
    is refused, the cached blocks behave as one flat array of bytes, the image,
    whatever is cached and whatever is dirty.  [iwp] is the weakest precondition of
    code over that image; the rules here are all the file system's proofs use. *)

From stdpp Require Import base gmap list strings.
From Stdlib Require Import ZArith Lia FunctionalExtensionality.
From S2P Require Import Prelude Mmu BlockCache.

Set Default Proof Using "Type".

(** ** The image *)
Definition cur (s : fsst) : Z → Z := λ va,
  u8 (match cache s !! block_of va with
      | Some p => bytes p (va mod 4096)
      | None => disk s (va - DISKMAP)
      end).

Definition BLK (b : Z) : Z := DISKMAP + b * 4096.
Definition nblk (I : Z → Z) : Z := word_at I (BLK 1 + 4).
Definition free (I : Z → Z) (b : Z) : bool :=
  Z.testbit (word_at I (BLK 2 + 4 * (b / 32))) (b mod 32).

(** The first block after the bitmap. *)
Definition first_data (I : Z → Z) : Z := 2 + (nblk I + 32767) / 32768.

Record img_ok (I : Z → Z) : Prop := {
  io_size : first_data I ≤ nblk I ≤ 786432;
  io_reserved : ∀ b, 0 ≤ b < first_data I → free I b = false
}.

(** A block that may be read. *)
Definition avail (I : Z → Z) (b : Z) : Prop := 0 ≤ b < nblk I ∧ free I b = false.

Record fs_ok (s : fsst) : Prop := {
  fo_super : super s = Some (BLK 1);
  fo_bitmap : bitmap s = Some (BLK 2);
  fo_granted : refusals s = [];
  fo_cached : is_Some (cache s !! 1);
  fo_cache : ∀ b p, cache s !! b = Some p → 0 ≤ b < nblk (cur s);
  fo_img : img_ok (cur s)
}.

Definition iwp {A} (m : M fsst A) (Q : A → (Z → Z) → Prop) (I : Z → Z) : Prop :=
  ∀ s, fs_ok s → cur s = I → wpr m (λ a s', fs_ok s' ∧ Q a (cur s')) s.

(** ** Addresses *)
Lemma block_of_BLK b o : 0 ≤ o < 4096 → block_of (BLK b + o) = b.
Proof. intros. unfold block_of, BLK. change BLKSIZE with 4096. dlia. Qed.

Lemma BLK_mod b o : 0 ≤ o < 4096 → (BLK b + o) mod 4096 = o.
Proof. intros. unfold BLK, DISKMAP. dlia. Qed.

Lemma va_split va : va = BLK (block_of va) + va mod 4096.
Proof. unfold block_of, BLK, DISKMAP. change BLKSIZE with 4096. dlia. Qed.

Lemma in_map_spec va : in_map va = true ↔ 0 ≤ block_of va < 786432.
Proof.
  unfold in_map, block_of, DISKMAP, DISKSIZE. change BLKSIZE with 4096.
  rewrite andb_true_iff, Z.leb_le, Z.ltb_lt. split; intros; dlia.
Qed.

Lemma block_near va i : 0 ≤ i → va mod 4096 + i < 4096 →
  block_of (va + i) = block_of va ∧ (va + i) mod 4096 = va mod 4096 + i.
Proof. intros. unfold block_of, DISKMAP. change BLKSIZE with 4096. split; dlia. Qed.

Lemma round_page va : in_map va = true → ROUNDDOWN va PGSIZE = BLK (block_of va).
Proof.
  rewrite in_map_spec. intros H. unfold ROUNDDOWN. change PGSIZE with 4096.
  rewrite u32_small; [|revert H; unfold is_u32, block_of, DISKMAP; change BLKSIZE with 4096; dlia].
  pose proof (va_split va). lia.
Qed.

Lemma BLK_page b : block_of (BLK b) = b ∧ BLK b mod 4096 = 0.
Proof.
  pose proof (block_of_BLK b 0 ltac:(lia)). pose proof (BLK_mod b 0 ltac:(lia)).
  by rewrite Z.add_0_r in *.
Qed.

(** ** Words *)
Lemma u8_range x : 0 ≤ u8 x < 256.
Proof. unfold u8. apply Z.mod_pos_bound. lia. Qed.

Lemma u8_idem x : u8 (u8 x) = u8 x.
Proof. unfold u8. apply Z.mod_mod. lia. Qed.

Lemma word_ext f g o o' : (∀ i, 0 ≤ i < 4 → f (o + i) = g (o' + i)) → word_at f o = word_at g o'.
Proof.
  intros H. unfold word_at. rewrite <- (H 1), <- (H 2), <- (H 3) by lia.
  specialize (H 0 ltac:(lia)). rewrite !Z.add_0_r in H. by rewrite H.
Qed.

Lemma word_range s va : is_u32 (word_at (cur s) va).
Proof.
  unfold is_u32, word_at, cur.
  repeat match goal with |- context [u8 ?x] =>
    let H := fresh in pose proof (u8_range x) as H; revert H; generalize (u8 x); intros ? H end.
  lia.
Qed.

Lemma byte_of_div w k : 0 ≤ k → byte_of w k = w / 2 ^ (8 * k) mod 256.
Proof.
  intros. unfold byte_of. change 0xFF with (Z.ones 8).
  by rewrite Z.land_ones, Z.shiftr_div_pow2 by lia.
Qed.

(** Reading back a word that was written. *)
Lemma word_bytes f o w : (∀ i, 0 ≤ i < 4 → f (o + i) = byte_of w i) → word_at f o = u32 w.
Proof.
  intros H. unfold word_at. rewrite (H 1), (H 2), (H 3) by lia.
  specialize (H 0 ltac:(lia)). rewrite Z.add_0_r in H. rewrite H, !byte_of_div by lia.
  unfold u32. change (2 ^ (8 * 0)) with 1. change (2 ^ (8 * 1)) with 256.
  change (2 ^ (8 * 2)) with 65536. change (2 ^ (8 * 3)) with 16777216.
  change (2 ^ 8) with 256. change (2 ^ 16) with 65536. change (2 ^ 24) with 16777216.
  change (2 ^ 32) with 4294967296. dlia.
Qed.

(** ** Sector transfers *)
Lemma ide_lba_eq n : 0 ≤ n < 2 ^ 28 → ide_lba n = n.
Proof.
  intros [H0 H1]. unfold ide_lba. apply Z.bits_inj'. intros i Hi.
  assert (28 ≤ i → Z.testbit n i = false) as Hhigh.
  { intros. destruct (Z.eq_dec n 0) as [->|]; [apply Z.bits_0|]. apply Z.bits_above_log2; [done|].
    apply Z.log2_lt_pow2; [lia|]. apply (Z.lt_le_trans _ (2 ^ 28)); [done|].
    apply Z.pow_le_mono_r; lia. }
  change 0xFF with (Z.ones 8). change 0x0F with (Z.ones 4).
  rewrite !Z.lor_spec, Z.land_spec, !Z.shiftl_spec, !Z.testbit_ones_nonneg by lia.
  assert (∀ k m, 0 ≤ k → 0 ≤ m → Z.testbit (Z.land (Z.shiftr n k) (Z.ones m)) (i - k) =
            (k <=? i) && (Z.testbit n i && (i - k <? m))) as E.
  { intros k m Hk Hm. destruct (Z.leb_spec k i).
    - rewrite Z.land_spec, Z.shiftr_spec, Z.testbit_ones_nonneg by lia.
      by replace (i - k + k) with i by lia.
    - by rewrite Z.testbit_neg_r by lia. }
  rewrite !E by lia. destruct (Z.testbit n i) eqn:Eb; cbn [andb]; rewrite ?andb_false_r; [|done].
  assert (i < 28) by (destruct (Z.lt_ge_cases i 28) as [|H]; [done|]; discriminate (Hhigh H)).
  zcases; lia.
Qed.

(** Replacing a page of the cache. *)
Definition put_page (b : Z) (p : page) (s : fsst) : fsst := set_cache (<[b := p]> (cache s)) s.

Lemma put_put b p p' s : put_page b p' (put_page b p s) = put_page b p' s.
Proof. unfold put_page, set_cache. cbn. by rewrite insert_insert_eq. Qed.

Lemma put_same b p s : cache s !! b = Some p → put_page b p s = s.
Proof. intros H. unfold put_page, set_cache. rewrite insert_id by done. by destruct s. Qed.

Lemma sector_page b k : 0 ≤ k < 8 → block_of (BLK b + 512 * k) = b ∧ (BLK b + 512 * k) mod 4096 = 512 * k.
Proof. intros. split; [apply block_of_BLK|apply BLK_mod]; lia. Qed.

Lemma read_sectors_spec b : ∀ (n : nat) k p s,
  cache s !! b = Some p → refusals s = [] → 0 ≤ k → k + Z.of_nat n ≤ 8 →
  ∃ p', read_sectors n (b * 8 + k) (BLK b + 512 * k) s = Ret 0 (put_page b p' s) ∧
    ∀ o, bytes p' o = if (512 * k <=? o) && (o <? 512 * (k + Z.of_nat n))
                      then disk s (b * 4096 + o) else bytes p o.
Proof.
  induction n as [|n IH]; intros k p s Hp Hr Hk Hn.
  { exists p. rewrite put_same by done. split; [done|]. intros o.
    zcases; (done || lia). }
  destruct (sector_page b k ltac:(lia)) as [E1 E2]. cbn [read_sectors].
  unfold bind at 1, request. rewrite Hr. cbn [negb].
  unfold bind at 1, gets. unfold bind at 1. rewrite E1, Hp. cbn [deref ret].
  unfold bind at 1, modify. change PGSIZE with 4096. rewrite E2. cbn beta.
  match goal with |- context [<[b := ?q]> (cache s)] => set (q1 := q) end.
  replace (b * 8 + k + 1) with (b * 8 + (k + 1)) by lia.
  replace (BLK b + 512 * k + SECTSIZE) with (BLK b + 512 * (k + 1)) by (unfold SECTSIZE; lia).
  destruct (IH (k + 1) q1 (put_page b q1 s)) as (p' & E & Hb);
    [apply lookup_insert_eq|done|lia|lia|].
  exists p'. change (set_cache (<[b:=q1]> (cache s)) s) with (put_page b q1 s).
  rewrite E, put_put. split; [done|]. intros o. rewrite Hb.
  cbn [disk put_page set_cache q1 bytes]. unfold patch, SECTSIZE.
  replace ((b * 8 + k) * 512 + (o - 512 * k)) with (b * 4096 + o) by lia.
  zcases; (done || lia).
Qed.

Lemma write_sectors_spec b p : ∀ (n : nat) k s,
  cache s !! b = Some p → refusals s = [] → 0 ≤ k → k + Z.of_nat n ≤ 8 →
  ∃ d, write_sectors n (b * 8 + k) (BLK b + 512 * k) s = Ret 0 (set_disk d s) ∧
    ∀ a, d a = if (b * 4096 + 512 * k <=? a) && (a <? b * 4096 + 512 * (k + Z.of_nat n))
               then bytes p (a - b * 4096) else disk s a.
Proof.
  induction n as [|n IH]; intros k s Hp Hr Hk Hn.
  { exists (disk s). split; [by destruct s|]. intros a. zcases; (done || lia). }
  destruct (sector_page b k ltac:(lia)) as [E1 E2]. cbn [write_sectors].
  unfold bind at 1, request. rewrite Hr. cbn [negb].
  unfold bind at 1, gets. unfold bind at 1. rewrite E1, Hp. cbn [deref ret].
  unfold bind at 1, modify. change PGSIZE with 4096. rewrite E2. cbn beta.
  match goal with |- context [set_disk ?q s] => set (d1 := q) end.
  replace (b * 8 + k + 1) with (b * 8 + (k + 1)) by lia.
  replace (BLK b + 512 * k + SECTSIZE) with (BLK b + 512 * (k + 1)) by (unfold SECTSIZE; lia).
  destruct (IH (k + 1) (set_disk d1 s)) as (d & E & Hd); [done|done|lia|lia|].
  exists d. rewrite E. split; [done|]. intros a. rewrite Hd. cbn [disk set_disk].
  unfold d1, patch, SECTSIZE.
  replace (512 * k + (a - (b * 8 + k) * 512)) with (a - b * 4096) by lia.
  zcases; (done || lia).
Qed.

(** ** Bringing a block in *)

(** [s'] is [s] with more blocks cached. *)
Record reads (s s' : fsst) : Prop := {
  rd_cur : cur s' = cur s;
  rd_disk : disk s' = disk s;
  rd_super : super s' = super s;
  rd_bitmap : bitmap s' = bitmap s;
  rd_granted : refusals s' = refusals s;
  rd_old : ∀ b p, cache s !! b = Some p → cache s' !! b = Some p;
  rd_new : ∀ b p, cache s' !! b = Some p → cache s !! b = None → 0 ≤ b < nblk (cur s) ∧ dirty p = false
}.

Lemma reads_refl s : reads s s.
Proof. split; try done. congruence. Qed.

Lemma reads_trans s1 s2 s3 : reads s1 s2 → reads s2 s3 → reads s1 s3.
Proof.
  intros [] []. split; try congruence; [auto|]. intros b p H3 H1.
  destruct (cache s2 !! b) as [q|] eqn:E.
  - assert (q = p) as -> by (apply (inj Some); rewrite <- (rd_old1 _ _ E); done). eauto.
  - destruct (rd_new1 b p H3 E) as [? ?]. split; [|done]. congruence.
Qed.

Lemma reads_ok s s' : fs_ok s → reads s s' → fs_ok s'.
Proof.
  intros [? ? ? [p Hp] ? ?] []. split; try congruence.
  - exists p. auto.
  - intros b q H. rewrite rd_cur0. destruct (cache s !! b) eqn:E; [eauto|]. by eapply rd_new0.
Qed.

(** The block as the drive delivers it. *)
Lemma reads_put s b p :
  fs_ok s → cache s !! b = None → 0 ≤ b < nblk (cur s) →
  (∀ o, 0 ≤ o < 4096 → bytes p o = disk s (b * 4096 + o)) → dirty p = false →
  reads s (put_page b p s).
Proof.
  intros Hok Hn Hb Hp Hd. split; try done.
  - apply functional_extensionality. intros va. unfold cur. cbn [cache put_page set_cache disk].
    destruct (decide (block_of va = b)) as [E|E]; [|by rewrite lookup_insert_ne by done].
    rewrite E, lookup_insert_eq, Hn. rewrite Hp by (apply Z.mod_pos_bound; lia).
    do 2 f_equal. pose proof (va_split va). unfold BLK in *. lia.
  - intros b' q H. cbn. rewrite lookup_insert_ne; [done|congruence].
  - intros b' q H H'. cbn in H. apply lookup_insert_Some in H as [[<- <-]|[_ ?]]; [done|congruence].
Qed.

Lemma peek32_eq s va : is_Some (cache s !! block_of va) → va mod 4096 ≤ 4092 →
  peek32 va s = Ret (word_at (cur s) va) s.
Proof.
  intros [p Hp] Hm. unfold peek32. change PGSIZE with 4096. change (4096 - 4) with 4092.
  rewrite (proj2 (Z.leb_le _ _) Hm), Hp. f_equal. apply word_ext. intros i Hi. unfold cur.
  destruct (block_near va i) as [-> ->]; [lia|lia|]. by rewrite Hp.
Qed.

Lemma touch_cached h s va : 0 ≤ block_of va < 786432 → is_Some (cache s !! block_of va) →
  touch_with h va s = Ret tt s.
Proof.
  intros Hb Hc. unfold touch_with, va_is_mapped, bind, gets.
  rewrite (proj2 (in_map_spec va) Hb). rewrite bool_decide_eq_true_2 by done. done.
Qed.

Lemma nblocks_eq h s : fs_ok s → s_nblocks_with h s = Ret (nblk (cur s)) s.
Proof.
  intros [Hs _ _ Hc _ _]. unfold s_nblocks_with, load32_with, bind, gets. rewrite Hs. cbn [deref ret].
  assert (block_of (BLK 1 + 4) = 1) as E by (apply block_of_BLK; lia).
  rewrite touch_cached by (rewrite E; done || lia). apply peek32_eq; [by rewrite E|by vm_compute].
Qed.

Lemma nblk_bound s : fs_ok s → 3 ≤ nblk (cur s) ≤ 786432.
Proof. intros H. destruct (fo_img _ H) as [Hi _]. unfold first_data in Hi. dlia. Qed.

(** The bitmap block of a block. *)
Definition bm_block (b : Z) : Z := 2 + b / 32768.

Lemma bm_addr b : 0 ≤ b → block_of (BLK 2 + 4 * (b / 32)) = bm_block b ∧
  (BLK 2 + 4 * (b / 32)) mod 4096 ≤ 4092.
Proof.
  intros. unfold block_of, BLK, DISKMAP, bm_block. change BLKSIZE with 4096.
  replace (b / 32768) with (b / 32 / 1024) by (rewrite Z.div_div by lia; done). split; dlia.
Qed.

Lemma bm_reserved s b : fs_ok s → 0 ≤ b < nblk (cur s) →
  2 ≤ bm_block b < first_data (cur s) ∧ bm_block b < 26 ∧ (b < 32768 → bm_block b = 2).
Proof.
  intros H Hb. pose proof (nblk_bound s H). unfold bm_block, first_data. dlia.
Qed.

Lemma free_test w k : 0 ≤ k → ctrue (Z.land w (Z.shiftl 1 k)) = Z.testbit w k.
Proof.
  intros Hk. rewrite Z.shiftl_1_l. destruct (Z.testbit w k) eqn:E.
  - apply ctrue_true. intros H. assert (Z.testbit (Z.land w (2 ^ k)) k = false) as F
      by (by rewrite H, Z.bits_0). by rewrite Z.land_spec, E, Z.pow2_bits_true in F by lia.
  - apply ctrue_false. apply Z.bits_inj'. intros i Hi. rewrite Z.land_spec, Z.bits_0.
    rewrite Z.pow2_bits_eqb by lia. destruct (Z.eqb_spec k i) as [<-|]; [by rewrite E|apply andb_false_r].
Qed.

(** A handler that brings the page of [va] in. *)
Definition brings (h : Z → M fsst unit) (s : fsst) (va : Z) : Prop :=
  ∃ s', h va s = Ret tt s' ∧ reads s s' ∧ is_Some (cache s' !! block_of va).

Lemma touch_brings h s va :
  0 ≤ block_of va < 786432 → is_Some (cache s !! block_of va) ∨ brings h s va →
  ∃ s', touch_with h va s = Ret tt s' ∧ reads s s' ∧ is_Some (cache s' !! block_of va).
Proof.
  intros Hb [Hc|H].
  - exists s. rewrite touch_cached by done. split; [done|]. split; [apply reads_refl|done].
  - destruct (decide (is_Some (cache s !! block_of va))) as [Hc|Hc].
    + exists s. rewrite touch_cached by done. split; [done|]. split; [apply reads_refl|done].
    + unfold touch_with, va_is_mapped, bind, gets.
      rewrite (bool_decide_eq_false_2 _ Hc), andb_false_r. exact H.
Qed.

Lemma free_eq h s b :
  fs_ok s → 0 ≤ b < nblk (cur s) →
  is_Some (cache s !! bm_block b) ∨ brings h s (BLK 2 + 4 * (b / 32)) →
  ∃ s', block_is_free_with h b s = Ret (free (cur s) b) s' ∧ reads s s'.
Proof.
  intros Hok Hb Hh. pose proof (nblk_bound s Hok). pose proof (bm_reserved s b Hok Hb).
  destruct (bm_addr b) as [Ea Em]; [lia|].
  destruct (touch_brings h s (BLK 2 + 4 * (b / 32))) as (s' & E & Hr & Hc); [lia|by rewrite Ea|].
  exists s'. split; [|done]. unfold block_is_free_with. unfold bind at 1, gets at 1.
  rewrite (fo_super _ Hok). rewrite (bind_eq _ _ _ _ _ (nblocks_eq h s Hok)).
  rewrite (proj2 (Z.leb_gt _ _)) by lia. unfold bind at 1, gets. unfold bind at 1.
  rewrite (fo_bitmap _ Hok). cbn [deref ret].
  assert (load32_with h (BLK 2 + 4 * (b / 32)) s = Ret (word_at (cur s) (BLK 2 + 4 * (b / 32))) s') as El.
  { unfold load32_with, bind. rewrite E, peek32_eq by done. by rewrite (rd_cur _ _ Hr). }
  rewrite (bind_eq _ _ _ _ _ El). unfold ret. f_equal. apply free_test. apply Z.mod_pos_bound. lia.
Qed.

(** The first half of the handler: a page with the contents of the block. *)
Lemma load_block_raw s b :
  refusals s = [] → 0 ≤ b < 786432 →
  ∃ s1 s2 p, bc_page_alloc (BLK b) s = Ret 0 s1 ∧
    ide_read (u32 (b * BLKSECTS)) (BLK b) BLKSECTS s1 = Ret 0 s2 ∧
    bc_page_remap (BLK b) s2 = Ret 0 (put_page b p s) ∧ dirty p = false ∧
    ∀ o, 0 ≤ o < 4096 → bytes p o = disk s (b * 4096 + o).
Proof.
  intros Hgr Hb. destruct (BLK_page b) as [E1 E2].
  assert (in_map (BLK b) = true) as Em by (apply in_map_spec; lia).
  set (p0 := MkPage (λ _, 0) false).
  destruct (read_sectors_spec b 8 0 p0 (put_page b p0 s)) as (p & E & Hp);
    [apply lookup_insert_eq|done|lia|lia|]. rewrite put_put in E.
  exists (put_page b p0 s), (put_page b p s), (MkPage (bytes p) false).
  split; [|split; [|split; [|split]]].
  - unfold bc_page_alloc. change PGSIZE with 4096. rewrite Em, E2, E1. cbn [negb Z.eqb].
    unfold bind, request. by rewrite Hgr.
  - unfold ide_read, BLKSECTS. change (BLKSIZE / SECTSIZE) with 8. change (8 <=? 256) with true.
    unfold massert, bind, ret. rewrite u32_small by (unfold is_u32; lia).
    rewrite ide_lba_eq by lia. rewrite !Z.mul_0_r, !Z.add_0_r in E. exact E.
  - unfold bc_page_remap. change PGSIZE with 4096. rewrite Em, E2, E1. cbn [negb Z.eqb].
    unfold bind, request. cbn [refusals put_page set_cache]. rewrite Hgr.
    cbn [negb]. unfold gets, modify. cbn [cache put_page set_cache]. rewrite lookup_insert_eq.
    unfold ret. f_equal. apply (put_put b).
  - done.
  - intros o Ho. cbn [bytes]. rewrite Hp.
    rewrite (proj2 (Z.leb_le _ _)), (proj2 (Z.ltb_lt _ _)) by lia. done.
Qed.

Lemma load_block_eq s b :
  fs_ok s → cache s !! b = None → 0 ≤ b < nblk (cur s) →
  ∃ s1 s2 s3, bc_page_alloc (BLK b) s = Ret 0 s1 ∧
    ide_read (u32 (b * BLKSECTS)) (BLK b) BLKSECTS s1 = Ret 0 s2 ∧
    bc_page_remap (BLK b) s2 = Ret 0 s3 ∧ reads s s3 ∧ is_Some (cache s3 !! b).
Proof.
  intros Hok Hn Hb. pose proof (nblk_bound s Hok).
  destruct (load_block_raw s b (fo_granted _ Hok) ltac:(lia)) as (s1 & s2 & p & E1 & E2 & E3 & Hd & Hp).
  exists s1, s2, (put_page b p s). do 3 (split; [done|]). split; [by apply reads_put|].
  cbn. rewrite lookup_insert_eq. by eexists.
Qed.

(** How deep the handler nests. *)
Definition rank (b : Z) : nat := if b =? 2 then 1 else if b <? 32768 then 2 else 3.

Lemma rank_down b : 0 ≤ b < 786432 → b ≠ bm_block b → (rank (bm_block b) < rank b)%nat.
Proof.
  intros Hb Hne. unfold rank, bm_block in *.
  destruct (Z.eqb_spec (2 + b / 32768) 2), (Z.eqb_spec b 2), (Z.ltb_spec b 32768),
    (Z.ltb_spec (2 + b / 32768) 32768); try lia; exfalso; revert Hne Hb; subst; dlia.
Qed.

Lemma pgfault_spec : ∀ (fuel : nat) s va,
  fs_ok s → cache s !! block_of va = None → avail (cur s) (block_of va) →
  (rank (block_of va) ≤ fuel)%nat → brings (bc_pgfault fuel) s va.
Proof.
  induction fuel as [|fuel IH]; intros s va Hok Hn [Hb Hf] Hrk.
  { unfold rank in Hrk. revert Hrk. zcases; lia. }
  pose proof (nblk_bound s Hok). set (b := block_of va) in *.
  destruct (load_block_eq s b Hok Hn Hb) as (s1 & s2 & s3 & E1 & E2 & E3 & Hr & Hc).
  assert (fs_ok s3) as Hok3 by (by eapply reads_ok).
  destruct (bm_addr b) as [Ea _]; [lia|]. pose proof (bm_reserved s b Hok Hb) as (Hbm & Hbm' & _).
  destruct (free_eq (bc_pgfault fuel) s3 b Hok3) as (s4 & E4 & Hr4).
  - by rewrite (rd_cur _ _ Hr).
  - destruct (decide (is_Some (cache s3 !! bm_block b))) as [?|Hm]; [by left|right].
    apply IH; rewrite ?Ea, ?(rd_cur _ _ Hr); [done|by apply eq_None_not_Some| |].
    + split; [pose proof (io_size _ (fo_img _ Hok)); lia|]. apply (io_reserved _ (fo_img _ Hok)). lia.
    + assert (b ≠ bm_block b) as Hne by (intros E; rewrite <- E in Hm; done).
      pose proof (rank_down b ltac:(lia) Hne). lia.
  - exists s4. split; [|split; [by eapply reads_trans|]].
    + cbn [bc_pgfault]. fold b.
      assert (in_map va = true) as Em by (apply in_map_spec; fold b; lia).
      rewrite (round_page va Em). fold b. rewrite Em. cbn [negb].
      unfold bind at 1, gets at 1. rewrite (fo_super _ Hok).
      erewrite bind_eq by (rewrite (bind_eq _ _ _ _ _ (nblocks_eq _ s Hok)); reflexivity).
      rewrite (proj2 (Z.leb_gt _ _)) by lia.
      rewrite (bind_eq _ _ _ _ _ E1). change (0 <? 0) with false. cbv iota.
      rewrite (bind_eq _ _ _ _ _ E2). change (0 <? 0) with false. cbv iota.
      rewrite (bind_eq _ _ _ _ _ E3). change (0 <? 0) with false. cbv iota.
      unfold bind at 1, gets at 1. rewrite (fo_bitmap _ Hok3).
      rewrite (bind_eq _ _ _ _ _ E4). by rewrite (rd_cur _ _ Hr), Hf.
    + destruct Hc as [p Hp]. exists p. by apply (rd_old _ _ Hr4).
Qed.

Lemma touch_eq s va :
  fs_ok s → avail (cur s) (block_of va) →
  ∃ s', touch va s = Ret tt s' ∧ reads s s' ∧ is_Some (cache s' !! block_of va).
Proof.
  intros Hok Ha. pose proof (nblk_bound s Hok). pose proof Ha as [Hb _]. apply touch_brings; [lia|].
  destruct (cache s !! block_of va) eqn:E; [left; by eexists|right].
  apply pgfault_spec; [done..|]. unfold rank. zcases; lia.
Qed.

(** ** Changing the image *)
Lemma cur_put b p s va :
  cur (put_page b p s) va = if decide (block_of va = b) then u8 (bytes p (va mod 4096)) else cur s va.
Proof.
  unfold cur. cbn [cache put_page set_cache disk]. case_decide as E.
  - by rewrite E, lookup_insert_eq.
  - by rewrite lookup_insert_ne by done.
Qed.

(** Nothing the server relies on is touched: neither the number of blocks nor the
    bitmap. *)
Record same_meta (I I' : Z → Z) : Prop := {
  sm_size : ∀ i, 0 ≤ i < 4 → I' (BLK 1 + 4 + i) = I (BLK 1 + 4 + i);
  sm_bitmap : ∀ va, 2 ≤ block_of va < first_data I → I' va = I va
}.

Lemma same_nblk I I' : same_meta I I' → nblk I' = nblk I.
Proof. intros H. apply word_ext. apply (sm_size _ _ H). Qed.

Lemma same_first I I' : same_meta I I' → first_data I' = first_data I.
Proof. intros H. unfold first_data. by rewrite (same_nblk _ _ H). Qed.

Lemma bm_first I b : 0 ≤ b < nblk I → 2 ≤ bm_block b < first_data I.
Proof. intros. unfold bm_block, first_data. dlia. Qed.

Lemma same_free I I' b : same_meta I I' → 0 ≤ b < nblk I → free I' b = free I b.
Proof.
  intros H Hb. unfold free. f_equal. apply word_ext. intros i Hi. apply (sm_bitmap _ _ H).
  destruct (bm_addr b) as [Ea Em]; [lia|]. destruct (block_near (BLK 2 + 4 * (b / 32)) i) as [-> _];
    [lia|lia|]. rewrite Ea. by apply bm_first.
Qed.

Lemma same_avail I I' b : same_meta I I' → avail I b → avail I' b.
Proof. intros H [? ?]. split; [by rewrite (same_nblk _ _ H)|by rewrite (same_free I I')]. Qed.

Lemma same_img I I' : same_meta I I' → img_ok I → img_ok I'.
Proof.
  intros H [H1 H2]. split; rewrite (same_first _ _ H), ?(same_nblk _ _ H); [done|].
  intros b Hb. rewrite (same_free I I' b H) by lia. auto.
Qed.

Lemma same_refl I : same_meta I I.
Proof. done. Qed.

Lemma same_trans I1 I2 I3 : same_meta I1 I2 → same_meta I2 I3 → same_meta I1 I3.
Proof.
  intros H12 H23. split.
  - intros i Hi. by rewrite (sm_size _ _ H23), (sm_size _ _ H12).
  - intros va Hva. rewrite (sm_bitmap _ _ H23), (sm_bitmap _ _ H12); [done|done|].
    by rewrite (same_first _ _ H12).
Qed.

(** A change in data blocks only. *)
Lemma same_data I I' : (∀ va, 0 ≤ block_of va < first_data I → I' va = I va) → 0 ≤ nblk I → same_meta I I'.
Proof.
  intros H Hn. split; [|intros; apply H; lia]. intros i Hi. apply H.
  rewrite <- Z.add_assoc, block_of_BLK by lia. unfold first_data. dlia.
Qed.

Lemma patch_ext f o n g g' : (∀ i, 0 ≤ i < n → g i = g' i) → patch f o n g = patch f o n g'.
Proof.
  intros H. apply functional_extensionality. intros a. unfold patch. zcases; try done. apply H. lia.
Qed.

Lemma cur_store s va n g p :
  cache s !! block_of va = Some p → va mod 4096 + n ≤ 4096 →
  cur (put_page (block_of va) (MkPage (patch (bytes p) (va mod 4096) n g) true) s) =
  patch (cur s) va n (λ i, u8 (g i)).
Proof.
  intros Hp Hn. apply functional_extensionality. intros a. rewrite cur_put. cbn [bytes].
  pose proof (va_split va) as Ev. pose proof (va_split a) as Ea.
  pose proof (Z.mod_pos_bound va 4096). pose proof (Z.mod_pos_bound a 4096). unfold BLK in *.
  case_decide as E.
  - rewrite E in *. unfold patch at 1. destruct (Z.leb_spec (va mod 4096) (a mod 4096)),
      (Z.ltb_spec (a mod 4096) (va mod 4096 + n)); cbn [andb].
    1: unfold patch; zcases; try lia; do 2 f_equal; lia.
    all: rewrite patch_out by lia; unfold cur; by rewrite E, Hp.
  - rewrite patch_out; [done|]. assert (block_of a < block_of va ∨ block_of va < block_of a) by lia. lia.
Qed.

Lemma put_ok s b p :
  fs_ok s → 0 ≤ b < nblk (cur s) → nblk (cur (put_page b p s)) = nblk (cur s) →
  img_ok (cur (put_page b p s)) → fs_ok (put_page b p s).
Proof.
  intros [H1 H2 H3 [q Hq] H5 H6] Hb Hn Hi. split; try done.
  - cbn. destruct (decide (b = 1)) as [->|]; [rewrite lookup_insert_eq|rewrite lookup_insert_ne by done];
      by eexists.
  - intros b' p' H. rewrite Hn. cbn in H. apply lookup_insert_Some in H as [[<- _]|[_ H]]; [done|eauto].
Qed.

(** ** Rules *)
Section rules.
Context {A B : Type}.

Lemma iwp_ret (a : A) Q I : Q a I → iwp (ret a) Q I.
Proof. intros H s Hok <-. by apply wp_ret. Qed.

Lemma iwp_bind (m : M fsst A) (f : A → M fsst B) Q I :
  iwp m (λ a, iwp (f a) Q) I → iwp (bind m f) Q I.
Proof.
  intros H s Hok E. apply wp_bind. eapply wp_mono_ret; [by apply H|].
  intros a s' [Hok' H']. by apply H'.
Qed.

Lemma iwp_mono (m : M fsst A) Q Q' I :
  iwp m Q I → (∀ a I', Q a I' → Q' a I') → iwp m Q' I.
Proof.
  intros H HQ s Hok E. eapply wp_mono_ret; [by apply H|]. cbn. intros a s' [? ?]. auto.
Qed.

(** A computation that only reads, or writes back. *)
Lemma iwp_reads (m : M fsst A) (a : A) Q I :
  (∀ s, fs_ok s → cur s = I → ∃ s', m s = Ret a s' ∧ reads s s') → Q a I → iwp m Q I.
Proof.
  intros H HQ s Hok E. destruct (H s Hok E) as (s' & Em & Hr). eapply wp_intro; [done|].
  split; [by eapply reads_ok|]. by rewrite (rd_cur _ _ Hr), E.
Qed.
End rules.

Lemma iwp_load8 Q I va : avail I (block_of va) → Q (I va) I → iwp (load8 va) Q I.
Proof.
  intros Ha HQ. apply (iwp_reads _ (I va)); [|done]. intros s Hok <-.
  destruct (touch_eq s va Hok Ha) as (s' & E & Hr & [p Hp]). exists s'. split; [|done].
  unfold load8. rewrite (bind_eq _ _ _ _ _ E). unfold peek8. rewrite Hp, <- (rd_cur _ _ Hr).
  unfold cur. by rewrite Hp.
Qed.

Lemma iwp_load32 Q I va :
  avail I (block_of va) → va mod 4096 ≤ 4092 → Q (word_at I va) I → iwp (load32 va) Q I.
Proof.
  intros Ha Hm HQ. apply (iwp_reads _ (word_at I va)); [|done]. intros s Hok <-.
  destruct (touch_eq s va Hok Ha) as (s' & E & Hr & Hp). exists s'. split; [|done].
  unfold load32. rewrite (bind_eq _ _ _ _ _ E), peek32_eq by done. by rewrite (rd_cur _ _ Hr).
Qed.

Lemma iwp_load_range Q I va n :
  avail I (block_of va) → va mod 4096 + n ≤ 4096 →
  Q ((λ i, I (va + i)) <$> seqZ 0 n) I → iwp (load_range va n) Q I.
Proof.
  intros Ha Hm HQ. apply (iwp_reads _ ((λ i, I (va + i)) <$> seqZ 0 n)); [|done]. intros s Hok <-.
  destruct (touch_eq s va Hok Ha) as (s' & E & Hr & [p Hp]). exists s'. split; [|done].
  unfold load_range. rewrite (bind_eq _ _ _ _ _ E). change PGSIZE with 4096.
  rewrite (proj2 (Z.leb_le _ _) Hm), Hp. f_equal. apply list_fmap_ext. intros i j Hj.
  apply list_elem_of_lookup_2, elem_of_seqZ in Hj. rewrite <- (rd_cur _ _ Hr). unfold cur.
  destruct (block_near va j) as [-> ->]; [lia|lia|]. by rewrite Hp.
Qed.

Lemma iwp_store_range Q I va n g :
  let I' := patch I va n (λ i, u8 (g i)) in
  avail I (block_of va) → va mod 4096 + n ≤ 4096 → nblk I' = nblk I → img_ok I' →
  Q tt I' → iwp (store_range va n g) Q I.
Proof.
  intros I' Ha Hm Hn Hi HQ s Hok <-.
  destruct (touch_eq s va Hok Ha) as (s1 & E & Hr & [p Hp]).
  pose proof (cur_store s1 va n g p Hp Hm) as Ec. rewrite (rd_cur _ _ Hr) in Ec.
  eapply wp_intro.
  - unfold store_range. rewrite (bind_eq _ _ _ _ _ E). change PGSIZE with 4096.
    rewrite (proj2 (Z.leb_le _ _) Hm), Hp. reflexivity.
  - match goal with |- fs_ok ?x ∧ _ =>
      change x with (put_page (block_of va) (MkPage (patch (bytes p) (va mod 4096) n g) true) s1) end.
    rewrite Ec. split; [|done]. apply put_ok; rewrite ?Ec, ?(rd_cur _ _ Hr); try done.
    + by eapply reads_ok.
    + apply Ha.
Qed.

Lemma iwp_store32 Q I va w :
  let I' := patch I va 4 (byte_of w) in
  avail I (block_of va) → va mod 4096 ≤ 4092 → nblk I' = nblk I → img_ok I' →
  Q tt I' → iwp (store32 va w) Q I.
Proof.
  intros I' Ha Hm. assert (I' = patch I va 4 (λ i, u8 (byte_of w i))) as E.
  { apply patch_ext. intros i Hi. unfold u8. rewrite byte_of_div by lia. symmetry.
    apply Z.mod_mod. lia. }
  rewrite E. intros Hn Hi HQ. apply iwp_store_range; [done|lia|done..].
Qed.

Lemma iwp_nblocks Q I : Q (nblk I) I → iwp s_nblocks Q I.
Proof.
  intros HQ. apply (iwp_reads _ (nblk I)); [|done]. intros s Hok <-. exists s.
  split; [apply nblocks_eq, Hok|apply reads_refl].
Qed.

Lemma iwp_block_is_free Q I b : 0 ≤ b < nblk I → Q (free I b) I → iwp (block_is_free b) Q I.
Proof.
  intros Hb HQ. apply (iwp_reads _ (free I b)); [|done]. intros s Hok <-.
  apply free_eq; [done|done|]. destruct (bm_addr b) as [Ea _]; [lia|].
  destruct (cache s !! bm_block b) eqn:E; [left; by eexists|right].
  apply pgfault_spec; rewrite ?Ea; [done|done| |].
  - pose proof (bm_first (cur s) b Hb). pose proof (io_size _ (fo_img _ Hok)).
    split; [lia|]. apply (io_reserved _ (fo_img _ Hok)). lia.
  - unfold rank. zcases; lia.
Qed.

Lemma iwp_get_bitmap Q I : Q (Some (BLK 2)) I → iwp (gets bitmap) Q I.
Proof.
  intros HQ. apply (iwp_reads _ (Some (BLK 2))); [|done]. intros s Hok _. exists s.
  split; [|apply reads_refl]. unfold gets. by rewrite (fo_bitmap _ Hok).
Qed.

Lemma iwp_get_super Q I : Q (Some (BLK 1)) I → iwp (gets super) Q I.
Proof.
  intros HQ. apply (iwp_reads _ (Some (BLK 1))); [|done]. intros s Hok _. exists s.
  split; [|apply reads_refl]. unfold gets. by rewrite (fo_super _ Hok).
Qed.

Lemma iwp_diskaddr Q I b : 0 < b < nblk I → Q (BLK b) I → iwp (diskaddr b) Q I.
Proof.
  intros Hb HQ. apply (iwp_reads _ (BLK b)); [|done]. intros s Hok <-. exists s.
  split; [|apply reads_refl]. pose proof (nblk_bound s Hok). unfold diskaddr, s_nblocks.
  rewrite (proj2 (Z.eqb_neq b 0)) by lia. unfold bind at 1, gets. rewrite (fo_super _ Hok).
  erewrite bind_eq by (rewrite (bind_eq _ _ _ _ _ (nblocks_eq _ s Hok)); reflexivity).
  rewrite (proj2 (Z.leb_gt _ _)) by lia. unfold ret, BLK, DISKMAP. change BLKSIZE with 4096.
  by rewrite !u32_small by (rewrite ?u32_small; unfold is_u32; lia).
Qed.

(** ** Fresh pages, dropped pages, writing back *)
Lemma iwp_page_alloc Q I b :
  let I' := patch I (BLK b) 4096 (λ _, 0) in
  0 ≤ b < nblk I → nblk I' = nblk I → img_ok I' → Q 0 I' → iwp (bc_page_alloc (BLK b)) Q I.
Proof.
  intros I' Hb Hn Hi HQ s Hok <-. pose proof (nblk_bound s Hok). destruct (BLK_page b) as [E1 E2].
  assert (cur (put_page b (MkPage (λ _, 0) false) s) = I') as Ec.
  { apply functional_extensionality. intros a. rewrite cur_put. cbn [bytes]. unfold I'.
    pose proof (va_split a). pose proof (Z.mod_pos_bound a 4096). unfold BLK in *. case_decide.
    - subst b. unfold patch. zcases; (done || lia).
    - rewrite patch_out; [done|]. assert (block_of a < b ∨ b < block_of a) by lia. lia. }
  eapply (wp_intro _ 0 (put_page b (MkPage (λ _, 0) false) s)).
  - unfold bc_page_alloc. change PGSIZE with 4096.
    rewrite (proj2 (in_map_spec (BLK b))), E2, E1 by (rewrite E1; lia). cbn [negb Z.eqb].
    unfold bind, request. by rewrite (fo_granted _ Hok).
  - rewrite Ec. split; [|done]. apply put_ok; rewrite ?Ec; done.
Qed.

(** A dropped page takes its unwritten contents with it. *)
Lemma iwp_page_unmap Q I b :
  first_data I ≤ b < nblk I →
  (∀ I', (∀ va, block_of va ≠ b → I' va = I va) → Q 0 I') → iwp (bc_page_unmap (BLK b)) Q I.
Proof.
  intros Hb HQ s Hok <-. pose proof (nblk_bound s Hok). destruct (BLK_page b) as [E1 E2].
  set (s' := set_cache (delete b (cache s)) s).
  assert (∀ va, block_of va ≠ b → cur s' va = cur s va) as Hout.
  { intros va Hva. unfold cur. cbn. by rewrite lookup_delete_ne. }
  assert (2 ≤ first_data (cur s)) by (unfold first_data; dlia).
  assert (same_meta (cur s) (cur s')) as Hsm by (apply same_data; [intros; apply Hout|]; lia).
  eapply (wp_intro _ 0 s').
  - unfold bc_page_unmap. change PGSIZE with 4096.
    rewrite (proj2 (in_map_spec (BLK b))), E2, E1 by (rewrite E1; lia). done.
  - split; [|by apply HQ]. destruct Hok as [H1 H2 H3 [q Hq] H5 H6]. split; try done.
    + exists q. cbn. by rewrite lookup_delete_ne by lia.
    + intros b' p' H'. cbn in H'. apply lookup_delete_Some in H' as [_ H'].
      rewrite (same_nblk _ _ Hsm). eauto.
    + by eapply same_img.
Qed.

(** What [flush_block] does to the block of a mapped address. *)
Lemma flush_block_raw s va p :
  refusals s = [] → in_map va = true → cache s !! block_of va = Some p → dirty p = true →
  ∃ d, flush_block va s = Ret tt (put_page (block_of va) (MkPage (bytes p) false) (set_disk d s)) ∧
    ∀ a, d a = if decide (a / 4096 = block_of va) then bytes p (a mod 4096) else disk s a.
Proof.
  intros Hgr Em Hp Hd. unfold flush_block. rewrite (round_page va Em), Em. cbn [negb].
  unfold bind at 1, va_is_mapped, gets at 1. unfold bind at 1, va_is_dirty, gets at 1. rewrite Em, Hp.
  rewrite bool_decide_eq_true_2 by (by eexists). rewrite Hd. cbn [andb negb orb].
  apply in_map_spec in Em. set (b := block_of va) in *. destruct (BLK_page b) as [E1 E2].
  destruct (write_sectors_spec b p 8 0 s Hp Hgr) as (d & E & Hdk); [lia|lia|]. exists d. split.
  - erewrite (bind_eq (ide_write _ _ _)).
    2: { unfold ide_write, BLKSECTS. change (BLKSIZE / SECTSIZE) with 8. change (8 <=? 256) with true.
      unfold massert, bind, ret. rewrite u32_small by (unfold is_u32; lia).
      rewrite ide_lba_eq by lia. rewrite !Z.mul_0_r, !Z.add_0_r in E. exact E. }
    change (0 <? 0) with false. cbv iota.
    unfold bc_page_remap. change PGSIZE with 4096. rewrite E1, E2.
    rewrite (proj2 (in_map_spec (BLK b))) by (rewrite E1; lia). cbn [negb Z.eqb].
    unfold bind, request. cbn [refusals set_disk]. rewrite Hgr. cbn [negb].
    unfold gets. cbn [cache set_disk]. rewrite Hp. done.
  - intros a. rewrite Hdk. case_decide; zcases; try (exfalso; dlia); [f_equal; dlia|done..].
Qed.

(** Nothing to write. *)
Lemma flush_block_skip s va :
  in_map va = true → match cache s !! block_of va with Some p => dirty p = false | None => True end →
  flush_block va s = Ret tt s.
Proof.
  intros Em Hc. unfold flush_block. rewrite Em. cbn [negb].
  unfold bind at 1, va_is_mapped, gets at 1. unfold bind at 1, va_is_dirty, gets at 1. rewrite Em.
  destruct (cache s !! block_of va) as [p|].
  - rewrite bool_decide_eq_true_2 by (by eexists). by rewrite Hc.
  - rewrite bool_decide_eq_false_2; [done|]. by intros [? ?].
Qed.

(** Writing a page out leaves the image as it is. *)
Lemma cur_flush s b p d : cache s !! b = Some p →
  (∀ a, d a = if decide (a / 4096 = b) then bytes p (a mod 4096) else disk s a) →
  cur (put_page b (MkPage (bytes p) false) (set_disk d s)) = cur s ∧ cur (set_disk d s) = cur s.
Proof.
  intros Hp Hd. assert (cur (set_disk d s) = cur s) as Ed.
  { apply functional_extensionality. intros a. unfold cur. cbn [cache disk set_disk].
    destruct (cache s !! block_of a) eqn:E; [done|]. rewrite Hd, decide_False; [done|]. intros Eb.
    pose proof (va_split a) as Ea. pose proof (Z.mod_pos_bound a 4096 ltac:(lia)). unfold BLK in Ea.
    assert (block_of a = b) as Ex by (rewrite <- Eb; dlia). rewrite Ex in E. congruence. }
  split; [|done]. apply functional_extensionality. intros a. rewrite cur_put. cbn [bytes].
  case_decide as Eb; [|by rewrite Ed]. unfold cur. by rewrite Eb, Hp.
Qed.

Lemma flush_block_eq s va :
  fs_ok s → in_map va = true →
  ∃ s', flush_block va s = Ret tt s' ∧ cur s' = cur s ∧ fs_ok s' ∧
    (∀ a, a / 4096 ≠ block_of va → disk s' a = disk s a) ∧
    (∀ b, b ≠ block_of va → cache s' !! b = cache s !! b) ∧
    match cache s !! block_of va with
    | Some p => if dirty p then cache s' !! block_of va = Some (MkPage (bytes p) false) ∧
                  ∀ o, 0 ≤ o < 4096 → disk s' (block_of va * 4096 + o) = bytes p o
                else s' = s
    | None => s' = s
    end.
Proof.
  intros Hok Em. set (b := block_of va). destruct (cache s !! b) as [p|] eqn:Hp.
  2: { exists s. rewrite flush_block_skip; [done|done|]. fold b. by rewrite Hp. }
  destruct (dirty p) eqn:Hd.
  2: { exists s. rewrite flush_block_skip; [done|done|]. fold b. by rewrite Hp. }
  destruct (flush_block_raw s va p (fo_granted _ Hok) Em Hp Hd) as (d & E & Hdk). fold b in E, Hdk.
  destruct (cur_flush s b p d Hp Hdk) as [Ec Ed]. set (s' := put_page b (MkPage (bytes p) false) (set_disk d s)) in *.
  exists s'. split; [done|]. split; [done|]. split; [|split; [|split; [|split]]].
  - assert (fs_ok (set_disk d s)) by (destruct Hok; split; rewrite ?Ed; done).
    pose proof (fo_cache _ Hok b p Hp).
    apply put_ok; [done|by rewrite Ed|fold s'; by rewrite Ec, Ed|fold s'; rewrite Ec; apply Hok].
  - intros a Ha. cbn. by rewrite Hdk, decide_False.
  - intros b' Hb'. cbn. by rewrite lookup_insert_ne.
  - apply lookup_insert_eq.
  - intros o Ho. cbn. rewrite Hdk, decide_True by dlia. f_equal. dlia.
Qed.

Lemma iwp_flush Q I va : in_map va = true → Q tt I → iwp (flush_block va) Q I.
Proof.
  intros Hm HQ s Hok <-. destruct (flush_block_eq s va Hok Hm) as (s' & E & Ec & Hok' & _).
  eapply wp_intro; [done|]. by rewrite Ec.
Qed.
