(* ===== verification/Fs.v ===== *)
(** * The file system ([fs/fs.c])

    Super block, free-block bitmap, the block map of a file, directories, paths and
    the operations on files.  A [struct File *] is an address in the disk map; a
    function with an output pointer returns the value stored there next to its
    result; a string that is not in the disk map is the list of its characters. *)

From stdpp Require Import base gmap list strings.
From Stdlib Require Import ZArith Lia.
From S2P Require Import Prelude Mmu BlockCache.

(** ** Layout *)
Definition BLKBITSIZE : Z := BLKSIZE * 8.
Definition MAXNAMELEN : Z := 128.
Definition MAXPATHLEN : Z := 1024.
Definition NDIRECT : Z := 10.
Definition NINDIRECT : Z := BLKSIZE / 4.
Definition sizeof_File : Z := 256.
Definition BLKFILES : Z := BLKSIZE / sizeof_File.
Definition FTYPE_REG : Z := 0.
Definition FTYPE_DIR : Z := 1.
Definition FS_MAGIC : Z := 0x58594f54.

(** Members of [struct File], by address. *)
Definition f_name (f : Z) : Z := f.
Definition f_size (f : Z) : Z := f + MAXNAMELEN.
Definition f_type (f : Z) : Z := f + MAXNAMELEN + 4.
Definition f_direct (f i : Z) : Z := f + MAXNAMELEN + 8 + 4 * i.
Definition f_indirect (f : Z) : Z := f + MAXNAMELEN + 8 + 4 * NDIRECT.
Definition s_root (super : Z) : Z := super + 8.

Definition get_size (f : Z) : M fsst Z := let* w := load32 (f_size f) in ret (s32 w).
Definition put_size (f n : Z) : M fsst unit := store32 (f_size f) (u32 n).

Definition BLKNO2ADDR (x : Z) : Z := u32 (DISKMAP + u32 (x * BLKSIZE)).

(** ** Super block *)
Definition check_super : M fsst unit :=
  let* p := gets super in
  let* p := deref p in
  let* magic := load32 p in
  if negb (magic =? FS_MAGIC) then panic "bad file system magic number" else
  let* n := s_nblocks in
  if DISKSIZE / BLKSIZE <? n then panic "file system is too large" else ret tt.

(** ** Free block bitmap *)

(** The address of [bitmap[blockno / 32]]. *)
Definition bitmap_word (blockno : Z) : M fsst Z :=
  let* bm := gets bitmap in
  let* bm := deref bm in
  ret (bm + 4 * (blockno / 32)).

Definition free_block (blockno : Z) : M fsst unit :=
  if blockno =? 0 then panic "attempt to free zero block" else
  let* a := bitmap_word blockno in
  let* w := load32 a in
  do* store32 a (Z.lor w (Z.shiftl 1 (blockno mod 32))) in
  flush_block a.

Definition alloc_block : M fsst Z :=
  let* n := s_nblocks in
  let* r := search (Z.to_nat n) 0 (λ b,
              let* a := bitmap_word b in
              let* w := load32 a in
              ret (if ctrue (Z.land w (Z.shiftl 1 (b mod 32))) then Some b else None)) in
  match r with
  | None => ret (- E_NO_DISK)
  | Some blockno =>
      let* a := bitmap_word blockno in
      let* w := load32 a in
      do* store32 a (Z.land w (Z.lnot (Z.shiftl 1 (blockno mod 32)))) in
      do* flush_block a in
      ret blockno
  end.

Definition check_bitmap : M fsst unit :=
  let* n := s_nblocks in
  do* for_up (Z.to_nat ((n + BLKBITSIZE - 1) / BLKBITSIZE)) 0 (λ i,
        let* b := block_is_free (2 + i) in massert (negb b)) in
  let* b := block_is_free 0 in
  do* massert (negb b) in
  let* b := block_is_free 1 in
  massert (negb b).

(** The drive is the one that was selected. *)
Definition fs_init : M fsst unit :=
  do* bc_init in
  let* p := diskaddr 1 in
  do* modify (set_super (Some p)) in
  do* check_super in
  let* p := diskaddr 2 in
  do* modify (set_bitmap (Some p)) in
  check_bitmap.

(** ** Blocks of a file *)

(** The result and [*ppdiskbno], the address of the slot. *)
Definition file_block_walk (f filebno : Z) (alloc : bool) : M fsst (Z * Z) :=
  if NINDIRECT + NDIRECT <=? filebno then ret (- E_INVAL, 0)
  else if filebno <? NDIRECT then ret (0, f_direct f filebno)
  else
    let slot := λ block_addr, block_addr + 4 * (filebno - NDIRECT) in
    let* ind := load32 (f_indirect f) in
    if negb (ctrue ind) then
      if negb alloc then ret (- E_NOT_FOUND, 0) else
      let* blockno := alloc_block in
      if blockno <? 0 then ret (- E_NO_DISK, 0) else
      do* store32 (f_indirect f) blockno in
      let block_addr := BLKNO2ADDR blockno in
      let* r := bc_page_alloc block_addr in
      if r <? 0 then panic "file_block_walk sys_page_alloc" else
      do* store_range block_addr BLKSIZE (λ _, 0) in
      ret (0, slot block_addr)
    else ret (0, slot (BLKNO2ADDR ind)).

(** The result and [*blk]. *)
Definition file_get_block (f filebno : Z) : M fsst (Z * Z) :=
  let* (r, pdiskbno) := file_block_walk f filebno true in
  if r <? 0 then ret (r, 0) else
  let* d := load32 pdiskbno in
  if negb (ctrue d) then
    let* r := alloc_block in
    if r <? 0 then ret (r, 0) else
    do* store32 pdiskbno r in
    let* d := load32 pdiskbno in
    let* r := bc_page_alloc (BLKNO2ADDR d) in
    if r <? 0 then panic "file_get_block sys_page_alloc" else
    let* d := load32 pdiskbno in
    ret (0, BLKNO2ADDR d)
  else ret (0, BLKNO2ADDR d).

(** ** Directories *)

(** The slots of a directory's block. *)
Definition search_slots (blk : Z) (test : Z → M fsst bool) : M fsst (option Z) :=
  search (Z.to_nat BLKFILES) 0 (λ j,
    let* b := test (blk + sizeof_File * j) in
    ret (if b then Some (blk + sizeof_File * j) else None)).

(** The first slot that passes the test: [inl] an error, [inr] its address. *)
Definition search_dir (dir nblock : Z) (test : Z → M fsst bool) : M fsst (option (Z + Z)) :=
  search (Z.to_nat nblock) 0 (λ i,
    let* (r, blk) := file_get_block dir i in
    if r <? 0 then ret (Some (inl r)) else
    let* found := search_slots blk test in
    ret (inr <$> found)).

Definition dir_lookup (dir : Z) (name : list Z) : M fsst (Z * Z) :=
  let* size := get_size dir in
  do* massert (Z.rem size BLKSIZE =? 0) in
  let nblock := u32 (Z.quot size BLKSIZE) in
  let* found := search_dir dir nblock (λ fp, strcmp_eq (f_name fp) name) in
  match found with
  | Some (inl r) => ret (r, 0)
  | Some (inr f) => ret (0, f)
  | None => ret (- E_NOT_FOUND, 0)
  end.

Definition dir_alloc_file (dir : Z) : M fsst (Z * Z) :=
  let* size := get_size dir in
  do* massert (Z.rem size BLKSIZE =? 0) in
  let n_block := u32 (Z.quot size BLKSIZE) in
  let* found := search_dir dir n_block (λ fp, let* c := load8 (f_name fp) in ret (c =? 0)) in
  match found with
  | Some (inl r) => ret (r, 0)
  | Some (inr f) => ret (0, f)
  | None =>
      do* put_size dir (size + BLKSIZE) in
      let* (r, blk) := file_get_block dir n_block in
      if r <? 0 then ret (r, 0) else ret (0, blk)
  end.

(** ** Paths *)
Definition SLASH : Z := 47.

Fixpoint skip_slash (p : list Z) : list Z :=
  match p with
  | c :: p' => if c =? SLASH then skip_slash p' else p
  | [] => []
  end.

(** The characters up to the next slash, and the rest. *)
Fixpoint path_elem (p : list Z) : list Z * list Z :=
  match p with
  | c :: p' => if c =? SLASH then ([], p) else let r := path_elem p' in (c :: r.1, r.2)
  | [] => ([], [])
  end.

(** The result of [walk_path] with [*pdir], [*pfile] and [lastelem], which is not
    written on every way out. *)
Record walked := MkWalked {
  w_ret : Z; w_dir : option Z; w_file : option Z; w_last : option (list Z)
}.

Fixpoint walk_from (fuel : nat) (path : list Z) (dir : option Z) (file : Z) : M fsst walked :=
  match path with
  | [] => ret (MkWalked 0 dir (Some file) None)
  | _ :: _ =>
      match fuel with
      | O => fault
      | S fuel' =>
          let (name, rest) := path_elem path in
          if MAXNAMELEN <=? Z.of_nat (length name) then ret (MkWalked (- E_BAD_PATH) None None None) else
          let path' := skip_slash rest in
          let* ty := load32 (f_type file) in
          if negb (ty =? FTYPE_DIR) then ret (MkWalked (- E_NOT_FOUND) None None None) else
          let* (r, found) := dir_lookup file name in
          if r <? 0 then
            match path' with
            | [] => if r =? - E_NOT_FOUND then ret (MkWalked r (Some file) None (Some name))
                    else ret (MkWalked r None None None)
            | _ => ret (MkWalked r None None None)
            end
          else walk_from fuel' path' (Some file) found
      end
  end.

Definition walk_path (path : list Z) : M fsst walked :=
  if negb (bool_decide (head path = Some SLASH)) then ret (MkWalked (- E_BAD_PATH) None None None) else
  let* p := gets super in
  let* p := deref p in
  walk_from (length path) (skip_slash path) None (s_root p).

(** ** File operations *)

(** [(size + BLKSIZE - 1) / BLKSIZE], in [int]. *)
Definition nblocks_of (size : Z) : Z := Z.quot (s32 (size + BLKSIZE - 1)) BLKSIZE.

Definition file_flush (f : Z) : M fsst unit :=
  let* size := get_size f in
  do* for_up (Z.to_nat (nblocks_of size)) 0 (λ i,
        let* (r, p) := file_block_walk f i false in
        if r <? 0 then ret tt else
        let* d := load32 p in
        if d =? 0 then ret tt else
        let* a := diskaddr d in
        flush_block a) in
  do* flush_block f in
  let* ind := load32 (f_indirect f) in
  if ctrue ind then let* a := diskaddr ind in flush_block a else ret tt.

(** The result and [*pf]. *)
Definition file_create (path : list Z) (is_dir : bool) : M fsst (Z * Z) :=
  let* w := walk_path path in
  if w_ret w =? 0 then ret (- E_FILE_EXISTS, 0) else
  if negb (w_ret w =? - E_NOT_FOUND) then ret (w_ret w, 0) else
  match w_dir w with
  | None => ret (w_ret w, 0)
  | Some dir =>
      let* (r, f) := dir_alloc_file dir in
      if r <? 0 then ret (r, 0) else
      let* name := deref (w_last w) in
      do* strcpy (f_name f) name in
      do* store32 (f_type f) (if is_dir then FTYPE_DIR else FTYPE_REG) in
      do* file_flush dir in
      ret (0, f)
  end.

Definition file_open (path : list Z) : M fsst (Z * option Z) :=
  let* w := walk_path path in ret (w_ret w, w_file w).

(** The loop of [file_read] and [file_write]: [step addr pos bn] works on the [bn]
    bytes of the file at [pos], which are at [addr]; [stop] is [offset + count]. *)
Fixpoint file_pieces {A} (fuel : nat) (f pos stop : Z) (acc : A)
    (step : A → Z → Z → Z → M fsst A) : M fsst (Z * A) :=
  if negb (u32 pos <? stop) then ret (0, acc) else
  match fuel with
  | O => fault
  | S fuel' =>
      let* (r, blk) := file_get_block f (u32 (Z.quot pos BLKSIZE)) in
      if r <? 0 then ret (r, acc) else
      let off := Z.rem pos BLKSIZE in
      let bn := s32 (Z.min (u32 (BLKSIZE - off)) (u32 (stop - pos))) in
      let* acc := step acc (u32 (blk + off)) pos bn in
      file_pieces fuel' f (s32 (pos + bn)) stop acc step
  end.

(** Enough rounds for [count] bytes. *)
Definition pieces (count : Z) : nat := Z.to_nat (count / BLKSIZE + 2).

(** The result and the bytes put into [buf]. *)
Definition file_read (f count offset : Z) : M fsst (Z * list Z) :=
  let* size := get_size f in
  if size <=? offset then ret (0, []) else
  let count := Z.min count (u32 (size - offset)) in
  let* (r, buf) := file_pieces (pieces count) f offset (u32 (offset + count)) []
                     (λ buf addr _ bn, let* l := load_range addr bn in ret (buf ++ l)) in
  if r <? 0 then ret (r, buf) else ret (s32 count, buf).

(** Remove block [filebno] of the file. *)
Definition file_free_block (f filebno : Z) : M fsst Z :=
  let* (r, ptr) := file_block_walk f filebno false in
  if r <? 0 then ret r else
  let* d := load32 ptr in
  do* (if ctrue d then
         do* free_block d in
         let* _ := bc_page_unmap (BLKNO2ADDR d) in
         store32 ptr 0
       else ret tt) in
  ret 0.

Definition file_truncate_blocks (f newsize : Z) : M fsst unit :=
  let* size := get_size f in
  let old_nblocks := u32 (nblocks_of size) in
  let new_nblocks := u32 (nblocks_of newsize) in
  do* for_up (Z.to_nat (old_nblocks - new_nblocks)) new_nblocks (λ bno,
        let* _ := file_free_block f bno in ret tt) in
  if negb (new_nblocks <=? NDIRECT) then ret tt else
  let* ind := load32 (f_indirect f) in
  if negb (ctrue ind) then ret tt else
  do* free_block ind in
  let* _ := bc_page_unmap (BLKNO2ADDR ind) in
  store32 (f_indirect f) 0.

Definition file_set_size (f newsize : Z) : M fsst Z :=
  let* size := get_size f in
  do* (if newsize <? size then file_truncate_blocks f newsize else ret tt) in
  do* put_size f newsize in
  do* flush_block f in
  ret 0.

Definition file_write (f : Z) (buf : list Z) (offset : Z) : M fsst Z :=
  let count := Z.of_nat (length buf) in
  let* size := get_size f in
  let* r := if u32 size <? u32 (offset + count) then file_set_size f (s32 (offset + count)) else ret 0 in
  if r <? 0 then ret r else
  let* (r, _) := file_pieces (pieces count) f offset (u32 (offset + count)) tt
                   (λ _ addr pos bn,
                      store_range addr bn (λ i, buf !!! Z.to_nat (pos - offset + i))) in
  if r <? 0 then ret r else ret (s32 count).

(** Drop the cached pages of a file. *)
Definition file_close (f : Z) : M fsst unit :=
  do* for_up (Z.to_nat NDIRECT) 0 (λ i,
        let* d := load32 (f_direct f i) in
        let* _ := bc_page_unmap (BLKNO2ADDR d) in ret tt) in
  let* ind := load32 (f_indirect f) in
  do* (if ctrue ind then
         let* size := get_size f in
         do* for_up (Z.to_nat (Z.quot size BLKSIZE - NDIRECT)) 0 (λ i,
               let* ind := load32 (f_indirect f) in
               let* d := load32 (BLKNO2ADDR ind + 4 * i) in
               let* _ := bc_page_unmap (BLKNO2ADDR d) in ret tt) in
         let* ind := load32 (f_indirect f) in
         let* _ := bc_page_unmap (BLKNO2ADDR ind) in ret tt
       else ret tt) in
  let* _ := bc_page_unmap f in ret tt.

Definition fs_sync : M fsst unit :=
  let* n := s_nblocks in
  for_up (Z.to_nat (n - 1)) 1 (λ i, let* a := diskaddr i in flush_block a).

Definition file_remove (f : Z) : M fsst Z :=
  do* file_truncate_blocks f 0 in
  do* store_range f sizeof_File (λ _, 0) in
  do* flush_block f in
  ret 0.

(** The files of a directory.  From the eleventh block on the code takes a block
    number for an address. *)
Definition file_dir_each_file (dir : Z) (handler : Z → M fsst Z) : M fsst Z :=
  let* ty := load32 (f_type dir) in
  if negb (ty =? FTYPE_DIR) then ret (- E_INVAL) else
  let* size := get_size dir in
  let* r := search (Z.to_nat (Z.quot size BLKSIZE)) 0 (λ i,
              let* sub_f :=
                if i <? NDIRECT then
                  let* d := load32 (f_direct dir i) in ret (BLKNO2ADDR d)
                else
                  let* ind := load32 (f_indirect dir) in
                  load32 (BLKNO2ADDR ind + 4 * (i - NDIRECT)) in
              search (Z.to_nat BLKFILES) 0 (λ j,
                let* c := load8 (f_name (u32 (sub_f + sizeof_File * j))) in
                if ctrue c then
                  let* r := handler (u32 (sub_f + sizeof_File * j)) in
                  ret (if r <? 0 then Some r else None)
                else ret None)) in
  match r with Some r => ret r | None => ret 0 end.

Definition file_rename (dir src_file : Z) : M fsst Z :=
  let* ty := load32 (f_type dir) in
  if negb (ty =? FTYPE_DIR) then ret (- E_INVAL) else
  let* (r, new_file) := dir_alloc_file dir in
  if r <? 0 then ret r else
  let* l := load_range src_file sizeof_File in
  do* store_range new_file sizeof_File (λ i, l !!! Z.to_nat i) in
  do* flush_block new_file in
  do* store_range src_file sizeof_File (λ _, 0) in
  do* flush_block src_file in
  ret 0.
