(* ===== verification/FsBitmap.v ===== *)
(** * The free-block bitmap

    Allocation and release of blocks, as changes of the image of the disk. *)

From stdpp Require Import base gmap list strings.
From Stdlib Require Import ZArith Lia.
From S2P Require Import Prelude Mmu BlockCache BlockImage Fs.

Set Default Proof Using "Type".

(** ** General rules *)
Lemma iwp_img {A} (m : M fsst A) Q I : (img_ok I → iwp m Q I) → iwp m Q I.
Proof. intros H s Hok E. apply H; try done. subst I. apply Hok. Qed.

Lemma iwp_deref {A} (a : A) Q I : Q a I → iwp (deref (Some a)) Q I.
Proof. apply iwp_ret. Qed.

Lemma iwp_massert b Q I : b = true → Q tt I → iwp (massert b) Q I.
Proof. intros ->. apply iwp_ret. Qed.

Lemma iwp_assoc {A} (m n : M fsst unit) (k : M fsst A) Q I :
  iwp (do* (do* m in n) in k) Q I → iwp (do* m in do* n in k) Q I.
Proof.
  intros H s Hok E. specialize (H s Hok E). revert H. unfold wp, bind. by destruct (m s).
Qed.

(** A search whose body leaves the image alone finds the first value. *)
Lemma iwp_search {A} (t : Z → option A) (body : Z → M fsst (option A)) Q I : ∀ (n : nat) lo,
  (∀ i Q', lo ≤ i < lo + Z.of_nat n → Q' (t i) I → iwp (body i) Q' I) →
  ((∀ i, lo ≤ i < lo + Z.of_nat n → t i = None) → Q None I) →
  (∀ i a, lo ≤ i < lo + Z.of_nat n → t i = Some a → (∀ j, lo ≤ j < i → t j = None) → Q (Some a) I) →
  iwp (search n lo body) Q I.
Proof.
  induction n as [|n IH]; intros lo Hb Hnone Hsome; cbn [search].
  { apply iwp_ret, Hnone. lia. }
  apply iwp_bind, Hb; [lia|]. destruct (t lo) as [a|] eqn:E.
  - apply iwp_ret, (Hsome lo); [lia|done|lia].
  - apply IH.
    + intros i Q' Hi. apply Hb. lia.
    + intros H. apply Hnone. intros i Hi. destruct (decide (i = lo)) as [->|]; [done|]. apply H. lia.
    + intros i a Hi Ht Hlt. apply (Hsome i); [lia|done|]. intros j Hj.
      destruct (decide (j = lo)) as [->|]; [done|]. apply Hlt. lia.
Qed.

(** A loop with an invariant on the image. *)
Lemma iwp_for_up (J : Z → (Z → Z) → Prop) body Q : ∀ (n : nat) lo I,
  J lo I →
  (∀ i I', lo ≤ i < lo + Z.of_nat n → J i I' → iwp (body i) (λ _, J (i + 1)) I') →
  (∀ I', J (lo + Z.of_nat n) I' → Q tt I') → iwp (for_up n lo body) Q I.
Proof.
  induction n as [|n IH]; intros lo I HJ Hb HQ; cbn [for_up].
  { apply iwp_ret, HQ. by rewrite Z.add_0_r. }
  apply iwp_bind. eapply iwp_mono; [apply Hb; [lia|done]|]. cbn. intros [] I' HJ'.
  apply IH; [done| |].
  - intros i I'' Hi. apply Hb. lia.
  - intros I'' HJ''. apply HQ. by replace (lo + Z.of_nat (S n)) with (lo + 1 + Z.of_nat n) by lia.
Qed.

(** ** Bits *)

(** [I'] is [I] with the bit of block [b] set to [v]. *)
Record bits (I I' : Z → Z) (b : Z) (v : bool) : Prop := {
  bt_nblk : nblk I' = nblk I;
  bt_free : ∀ b', 0 ≤ b' < nblk I → free I' b' = if decide (b' = b) then v else free I b';
  bt_out : ∀ va, ¬ (2 ≤ block_of va < first_data I) → I' va = I va
}.

Lemma bits_img I I' b v :
  img_ok I → bits I I' b v → (0 ≤ b < first_data I → v = false) → img_ok I'.
Proof.
  intros [H1 H2] [Hn Hf _] Hv. unfold first_data in *.
  split; unfold first_data; rewrite Hn; [done|]. intros b' Hb'. rewrite Hf by lia.
  case_decide as E; [|auto]. apply Hv. lia.
Qed.

Lemma word_patch_same I a w : word_at (patch I a 4 (byte_of w)) a = u32 w.
Proof. apply word_bytes. intros i Hi. by apply patch_in. Qed.

Lemma word_patch_out I a o n g : a + 4 ≤ o ∨ o + n ≤ a → word_at (patch I o n g) a = word_at I a.
Proof. intros H. apply word_ext. intros i Hi. apply patch_out. lia. Qed.

Lemma bm_word_out I b va i : 0 ≤ b < nblk I → 0 ≤ i < 4 → va = BLK 2 + 4 * (b / 32) + i →
  2 ≤ block_of va < first_data I.
Proof.
  intros Hb Hi ->. destruct (bm_addr b) as [Ea Em]; [lia|].
  destruct (block_near (BLK 2 + 4 * (b / 32)) i) as [-> _]; [lia|lia|]. rewrite Ea. by apply bm_first.
Qed.

Lemma patch_bits I b v w :
  0 ≤ b < nblk I → is_u32 w →
  (∀ k, 0 ≤ k < 32 → Z.testbit w k = if decide (k = b mod 32) then v
                       else Z.testbit (word_at I (BLK 2 + 4 * (b / 32))) k) →
  bits I (patch I (BLK 2 + 4 * (b / 32)) 4 (byte_of w)) b v.
Proof.
  intros Hb Hw Ht. assert (∀ va, ¬ 2 ≤ block_of va < first_data I →
    patch I (BLK 2 + 4 * (b / 32)) 4 (byte_of w) va = I va) as Hout.
  { intros va Hva. apply patch_out. destruct (Z.lt_ge_cases va (BLK 2 + 4 * (b / 32))) as [|H1]; [lia|].
    destruct (Z.lt_ge_cases va (BLK 2 + 4 * (b / 32) + 4)) as [H2|]; [|lia].
    exfalso. apply Hva. apply (bm_word_out I b va (va - (BLK 2 + 4 * (b / 32)))); lia. }
  split; [|intros b' Hb'|done].
  - apply word_ext. intros i Hi. apply Hout. rewrite <- Z.add_assoc, block_of_BLK by lia. lia.
  - unfold free. destruct (decide (b' / 32 = b / 32)) as [E|E].
    + rewrite E, word_patch_same, u32_small by done. rewrite Ht by (apply Z.mod_pos_bound; lia).
      destruct (decide (b' mod 32 = b mod 32)) as [Em|Em].
      * rewrite decide_True; [done|]. dlia.
      * rewrite decide_False; [done|]. by intros ->.
    + rewrite decide_False by (by intros ->). f_equal. apply word_patch_out.
      assert (b' / 32 < b / 32 ∨ b / 32 < b' / 32) by lia. lia.
Qed.

Lemma shift_bit k i : 0 ≤ k → 0 ≤ i → Z.testbit (Z.shiftl 1 k) i = bool_decide (i = k).
Proof.
  intros. rewrite Z.shiftl_1_l, Z.pow2_bits_eqb by lia.
  destruct (Z.eqb_spec k i), (bool_decide_reflect (i = k)); congruence.
Qed.

(** Words with one bit changed stay 32 bits wide. *)
Lemma u32_bits x i : 0 ≤ i → Z.testbit (u32 x) i = Z.testbit x i && (i <? 32).
Proof.
  intros Hi. unfold u32. destruct (Z.ltb_spec i 32).
  - rewrite Z.mod_pow2_bits_low by lia. by rewrite andb_true_r.
  - rewrite Z.mod_pow2_bits_high by lia. by rewrite andb_false_r.
Qed.

Lemma u32_high x i : is_u32 x → 32 ≤ i → Z.testbit x i = false.
Proof.
  intros Hx Hi. rewrite <- (u32_small x Hx), u32_bits by lia.
  rewrite (proj2 (Z.ltb_ge i 32)) by lia. apply andb_false_r.
Qed.

Lemma u32_by_bits x : (∀ i, 32 ≤ i → Z.testbit x i = false) → is_u32 x.
Proof.
  intros H. assert (x = u32 x) as ->; [|apply u32_range]. apply Z.bits_inj'. intros i Hi.
  rewrite u32_bits by done. destruct (Z.ltb_spec i 32); [by rewrite andb_true_r|].
  rewrite andb_false_r. by apply H.
Qed.

Lemma land_u32 a b : is_u32 a → is_u32 (Z.land a b).
Proof. intros Ha. apply u32_by_bits. intros i Hi. by rewrite Z.land_spec, (u32_high a). Qed.

Lemma lor_u32 a b : is_u32 a → is_u32 b → is_u32 (Z.lor a b).
Proof.
  intros Ha Hb. apply u32_by_bits. intros i Hi. by rewrite Z.lor_spec, (u32_high a), (u32_high b).
Qed.

(** ** The two operations *)
Lemma iwp_word {A} (m : M fsst A) Q I : ((∀ va, is_u32 (word_at I va)) → iwp m Q I) → iwp m Q I.
Proof. intros H s Hok E. apply H; try done. subst I. intros va. apply word_range. Qed.

Lemma iwp_bitmap_word Q I b : Q (BLK 2 + 4 * (b / 32)) I → iwp (bitmap_word b) Q I.
Proof. intros H. apply iwp_bind, iwp_get_bitmap, iwp_bind, iwp_deref, iwp_ret, H. Qed.

Lemma bm_avail I b : img_ok I → 0 ≤ b < nblk I → avail I (block_of (BLK 2 + 4 * (b / 32))) ∧
  (BLK 2 + 4 * (b / 32)) mod 4096 ≤ 4092 ∧ in_map (BLK 2 + 4 * (b / 32)) = true.
Proof.
  intros [H1 H2] Hb. destruct (bm_addr b) as [Ea Em]; [lia|]. pose proof (bm_first I b Hb).
  split; [|split; [done|]].
  - rewrite Ea. split; [lia|]. apply H2. lia.
  - apply in_map_spec. rewrite Ea. lia.
Qed.

(** Store one word of the bitmap and write it back. *)
Lemma iwp_set_bit Q I b v w :
  img_ok I → 0 ≤ b < nblk I → is_u32 w →
  (∀ k, 0 ≤ k < 32 → Z.testbit w k = if decide (k = b mod 32) then v
                       else Z.testbit (word_at I (BLK 2 + 4 * (b / 32))) k) →
  (b < first_data I → v = false) →
  (∀ I', bits I I' b v → Q tt I') →
  iwp (do* store32 (BLK 2 + 4 * (b / 32)) w in flush_block (BLK 2 + 4 * (b / 32))) Q I.
Proof.
  intros Hi Hb Hw Ht Hv HQ. destruct (bm_avail I b Hi Hb) as (Ha & Hm & Him).
  pose proof (patch_bits I b v w Hb Hw Ht) as Hbits.
  apply iwp_bind, iwp_store32; [done|done|apply Hbits| |].
  - eapply bits_img; [done..|]. intros. apply Hv. lia.
  - apply iwp_flush; [done|]. by apply HQ.
Qed.

Lemma iwp_free_block Q I b :
  first_data I ≤ b < nblk I → (∀ I', bits I I' b true → Q tt I') → iwp (free_block b) Q I.
Proof.
  intros Hb HQ. apply iwp_img. intros Hi. apply iwp_word. intros Hw.
  assert (2 ≤ first_data I) by (unfold first_data in *; dlia).
  unfold free_block. rewrite (proj2 (Z.eqb_neq b 0)) by lia.
  destruct (bm_avail I b Hi ltac:(lia)) as (Ha & Hm & _).
  apply iwp_bind, iwp_bitmap_word, iwp_bind, iwp_load32; [done|done|].
  apply (iwp_set_bit _ _ b true); try done; try lia.
  - apply lor_u32; [apply Hw|]. rewrite Z.shiftl_1_l. split; [lia|].
    apply Z.pow_lt_mono_r; [lia|lia|]. apply Z.mod_pos_bound. lia.
  - intros k Hk. rewrite Z.lor_spec, shift_bit by (try apply Z.mod_pos_bound; lia).
    case_decide as E; [rewrite bool_decide_eq_true_2 by done; apply orb_true_r|].
    rewrite bool_decide_eq_false_2 by done. apply orb_false_r.
Qed.

(** [alloc_block] takes the first free block; with none left it changes nothing. *)
Lemma iwp_alloc_block Q I :
  ((∀ b, 0 ≤ b < nblk I → free I b = false) → Q (- E_NO_DISK) I) →
  (∀ b I', first_data I ≤ b < nblk I → free I b = true → (∀ b', 0 ≤ b' < b → free I b' = false) →
     bits I I' b false → Q b I') →
  iwp alloc_block Q I.
Proof.
  intros Hfull Hgot. apply iwp_img. intros Hi. apply iwp_word. intros Hw.
  apply iwp_bind, iwp_nblocks, iwp_bind. pose proof Hi as [Hs Hr].
  apply (iwp_search (λ b, if free I b then Some b else None)).
  - intros b Q' Hb HQ'. destruct (bm_avail I b Hi ltac:(lia)) as (Ha & Hm & _).
    apply iwp_bind, iwp_bitmap_word, iwp_bind, iwp_load32; [done|done|]. apply iwp_ret.
    by rewrite free_test by (apply Z.mod_pos_bound; lia).
  - intros Hn. apply iwp_ret, Hfull. intros b Hb. specialize (Hn b ltac:(lia)). by destruct (free I b).
  - intros b b' Hb Ht Hlt. destruct (free I b) eqn:Hf; [|done]. injection Ht as <-.
    assert (first_data I ≤ b).
    { destruct (Z.lt_ge_cases b (first_data I)) as [H|]; [|done]. rewrite Hr in Hf by lia. done. }
    destruct (bm_avail I b Hi ltac:(lia)) as (Ha & Hm & _).
    apply iwp_bind, iwp_bitmap_word, iwp_bind, iwp_load32; [done|done|].
    apply iwp_assoc, iwp_bind, (iwp_set_bit _ _ b false); [done|lia|by apply land_u32| |lia|].
    + intros k Hk. rewrite Z.land_spec, Z.lnot_spec, shift_bit by (try apply Z.mod_pos_bound; lia).
      case_decide as E; [rewrite bool_decide_eq_true_2 by done; apply andb_false_r|].
      rewrite bool_decide_eq_false_2 by done. apply andb_true_r.
    + intros I' HI'. apply iwp_ret, Hgot; try done; [lia|]. intros b' Hb'.
      specialize (Hlt b' Hb'). by destruct (free I b').
Qed.
