(* ===== verification/FsFile.v ===== *)
(** * The block map of a file

    What a well-formed file is on the image of the disk, its contents as a function
    from offsets to bytes, and how finding or adding a block changes them. *)

From stdpp Require Import base gmap list strings.
From Stdlib Require Import ZArith Lia.
From S2P Require Import Prelude Mmu BlockCache BlockImage Fs FsBitmap.

Set Default Proof Using "Type".

Lemma img_first I : img_ok I → 3 ≤ first_data I ≤ nblk I ∧ nblk I ≤ 786432.
Proof. intros [H _]. unfold first_data in *. split; [|lia]. dlia. Qed.

(** ** Files on the image *)
Definition size_of (I : Z → Z) (f : Z) : Z := s32 (word_at I (f_size f)).
Definition ind (I : Z → Z) (f : Z) : Z := word_at I (f_indirect f).

(** The disk block of block [n] of the file; 0 is a hole. *)
Definition bmap (I : Z → Z) (f n : Z) : Z :=
  if n <? 10 then word_at I (f_direct f n)
  else if ind I f =? 0 then 0 else word_at I (BLK (ind I f) + 4 * (n - 10)).

Definition MAXBLK : Z := 1034.

(** Byte [i] of the file; a hole reads as zeros. *)
Definition fdata (I : Z → Z) (f i : Z) : Z :=
  let b := bmap I f (i / 4096) in if b =? 0 then 0 else I (BLK b + i mod 4096).

Definition data_blk (I : Z → Z) (b : Z) : Prop := first_data I ≤ b < nblk I ∧ free I b = false.

Record file_ok (I : Z → Z) (f : Z) : Prop := {
  fk_page : f mod 4096 + 256 ≤ 4096;
  fk_avail : avail I (block_of f);
  fk_block : block_of f = 1 ∧ BLK 1 + 8 ≤ f ∨ first_data I ≤ block_of f;
  fk_data : ∀ n, 0 ≤ n < MAXBLK → bmap I f n ≠ 0 →
    data_blk I (bmap I f n) ∧ bmap I f n ≠ block_of f ∧ bmap I f n ≠ ind I f;
  fk_ind : ind I f ≠ 0 → data_blk I (ind I f) ∧ ind I f ≠ block_of f;
  fk_inj : ∀ n m, 0 ≤ n < MAXBLK → 0 ≤ m < MAXBLK → bmap I f n = bmap I f m → bmap I f n ≠ 0 → n = m
}.

(** The blocks of a file: its data and its indirect block. *)
Definition owned (I : Z → Z) (f b : Z) : Prop :=
  b ≠ 0 ∧ (b = ind I f ∨ ∃ n, 0 ≤ n < MAXBLK ∧ b = bmap I f n).

(** The block pointers in the file's descriptor. *)
Definition in_ptrs (f va : Z) : Prop := f_direct f 0 ≤ va < f_indirect f + 4.
Definition in_bitmap (I : Z → Z) (va : Z) : Prop := 2 ≤ block_of va < first_data I.

(** [f] may have got blocks, all of them free before and zero now; nothing else
    changed. *)
Record grows (I I' : Z → Z) (f : Z) : Prop := {
  gr_nblk : nblk I' = nblk I;
  gr_avail : ∀ b, avail I b → avail I' b;
  gr_frame : ∀ va, avail I (block_of va) → ¬ in_bitmap I va → ¬ in_ptrs f va →
    (ind I f = 0 ∨ block_of va ≠ ind I f) → I' va = I va;
  gr_ok : file_ok I' f;
  gr_map : ∀ n, 0 ≤ n < MAXBLK → bmap I f n ≠ 0 → bmap I' f n = bmap I f n;
  gr_ind : ind I f ≠ 0 → ind I' f = ind I f;
  gr_own : ∀ b, owned I' f b → owned I f b ∨ free I b = true;
  gr_data : ∀ i, 0 ≤ i < MAXBLK * 4096 → fdata I' f i = fdata I f i
}.

(** ** Addresses *)
Section addresses.
Context (I : Z → Z) (f : Z).
Hypothesis Hf : file_ok I f.

Lemma member_addr i : 0 ≤ i < 256 → block_of (f + i) = block_of f ∧ (f + i) mod 4096 = f mod 4096 + i.
Proof using Hf. intros. apply block_near; [lia|]. pose proof (fk_page _ _ Hf). lia. Qed.

Lemma member_word k : 0 ≤ k ≤ 252 → avail I (block_of (f + k)) ∧ (f + k) mod 4096 ≤ 4092.
Proof using Hf.
  intros. destruct (member_addr k) as [E1 E2]; [lia|]. rewrite E1, E2.
  pose proof (fk_page _ _ Hf). split; [apply Hf|lia].
Qed.

Lemma slot_word n : 10 ≤ n < MAXBLK → ind I f ≠ 0 →
  block_of (BLK (ind I f) + 4 * (n - 10)) = ind I f ∧
  (BLK (ind I f) + 4 * (n - 10)) mod 4096 ≤ 4092 ∧ avail I (ind I f).
Proof using Hf.
  intros Hn Hi. unfold MAXBLK in Hn. destruct (fk_ind _ _ Hf Hi) as [[? ?] _].
  rewrite block_of_BLK, BLK_mod by lia. split; [done|]. split; [lia|]. split; [|done].
  unfold first_data in *. split; [dlia|lia].
Qed.

Lemma member_not_bitmap i : 0 ≤ i < 256 → ¬ in_bitmap I (f + i).
Proof using Hf.
  intros Hi [? ?]. destruct (member_addr i) as [E _]; [lia|]. rewrite E in *.
  destruct (fk_block _ _ Hf) as [[? _]|]; lia.
Qed.
End addresses.

Lemma words_apart a p : block_of a ≠ block_of p → a mod 4096 ≤ 4092 → p mod 4096 ≤ 4092 →
  a + 4 ≤ p ∨ p + 4 ≤ a.
Proof.
  intros. pose proof (va_split a). pose proof (va_split p).
  pose proof (Z.mod_pos_bound a 4096). pose proof (Z.mod_pos_bound p 4096). unfold BLK in *.
  assert (block_of a < block_of p ∨ block_of p < block_of a) by lia. lia.
Qed.

Lemma BLKNO2ADDR_eq b : 0 ≤ b < 786432 → BLKNO2ADDR b = BLK b.
Proof.
  intros. unfold BLKNO2ADDR, BLK, DISKMAP. change BLKSIZE with 4096.
  by rewrite !u32_small by (rewrite ?u32_small; unfold is_u32; lia).
Qed.

(** A descriptor without blocks. *)
Lemma file_empty_ok I f :
  f mod 4096 + 256 ≤ 4096 → avail I (block_of f) → first_data I ≤ block_of f →
  (∀ n, 0 ≤ n < 10 → word_at I (f_direct f n) = 0) → ind I f = 0 → file_ok I f.
Proof.
  intros H1 H2 H3 H4 H5. assert (∀ n, 0 ≤ n < MAXBLK → bmap I f n = 0) as Hm.
  { intros n Hn. unfold bmap. rewrite H5. destruct (Z.ltb_spec n 10); [apply H4; lia|done]. }
  split; try done; [by right|..].
  - intros n Hn Hz. by rewrite Hm in Hz.
  - intros n m Hn Hm' _ Hz. by rewrite Hm in Hz.
Qed.

(** ** Attaching a fresh block *)

(** Block [b] was free; it is now allocated, zero, and pointed to from [p]. *)
Record attached (I J : Z → Z) (b p : Z) : Prop := {
  at_nblk : nblk J = nblk I;
  at_blk : first_data I ≤ b < nblk I;
  at_was : free I b = true;
  at_free : ∀ b', 0 ≤ b' < nblk I → free J b' = if decide (b' = b) then false else free I b';
  at_zero : ∀ va, block_of va = b → J va = 0;
  at_ptr : word_at J p = b;
  at_out : ∀ va, block_of va ≠ b → ¬ in_bitmap I va → ¬ (p ≤ va < p + 4) → J va = I va
}.

Section attached.
Context (I J : Z → Z) (f b p : Z).
Hypothesis Hf : file_ok I f.
Hypothesis Ha : attached I J b p.

Lemma att_avail b' : avail I b' → avail J b'.
Proof using Ha.
  intros [? ?]. split; [by rewrite (at_nblk _ _ _ _ Ha)|].
  rewrite (at_free _ _ _ _ Ha) by done. by case_decide.
Qed.

Lemma att_first : first_data J = first_data I.
Proof using Ha. unfold first_data. by rewrite (at_nblk _ _ _ _ Ha). Qed.

Lemma att_data b' : data_blk I b' → data_blk J b'.
Proof using Ha.
  intros [H1 H2]. split; [by rewrite att_first, (at_nblk _ _ _ _ Ha)|].
  rewrite (at_free _ _ _ _ Ha); [by case_decide|]. unfold first_data in *. split; [dlia|lia].
Qed.

Lemma att_new : data_blk J b.
Proof using Ha.
  pose proof (at_blk _ _ _ _ Ha). split; [by rewrite att_first, (at_nblk _ _ _ _ Ha)|].
  rewrite (at_free _ _ _ _ Ha); [by rewrite decide_True|]. unfold first_data in *. split; [dlia|lia].
Qed.

Lemma att_fresh b' : avail I b' → b' ≠ b.
Proof using Ha. intros [_ H] ->. pose proof (at_was _ _ _ _ Ha). congruence. Qed.

(** A word of an allocated block outside the bitmap. *)
Lemma att_word a : avail I (block_of a) → a mod 4096 ≤ 4092 → ¬ in_bitmap I a →
  a + 4 ≤ p ∨ p + 4 ≤ a → word_at J a = word_at I a.
Proof using Ha.
  intros Hv Hm Hb Hp. apply word_ext. intros i Hi.
  destruct (block_near a i) as [E _]; [lia|lia|]. apply (at_out _ _ _ _ Ha).
  - rewrite E. by apply att_fresh.
  - unfold in_bitmap. by rewrite E.
  - lia.
Qed.

Lemma att_member k : 0 ≤ k ≤ 252 → f + k + 4 ≤ p ∨ p + 4 ≤ f + k →
  word_at J (f + k) = word_at I (f + k).
Proof using Hf Ha.
  intros Hk Hp. destruct (member_word I f Hf k Hk) as [H1 H2].
  apply att_word; [done|done| |done]. apply (member_not_bitmap I f Hf). lia.
Qed.
End attached.

Lemma data_avail I b : data_blk I b → avail I b ∧ ∀ va, block_of va = b → ¬ in_bitmap I va.
Proof.
  intros [H1 H2]. split; [|unfold in_bitmap; lia]. split; [|done]. unfold first_data in *.
  split; [dlia|lia].
Qed.

Lemma data_pos I b : data_blk I b → 2 ≤ b.
Proof. intros [? _]. unfold first_data in *. dlia. Qed.

(** What the new pointer means: an indirect block, or block [n] of the file. *)
Inductive attach_as (I J : Z → Z) (f b : Z) : Prop :=
| AsIndirect : ind I f = 0 → ind J f = b →
    (∀ m, 0 ≤ m < MAXBLK → bmap J f m = bmap I f m) → attach_as I J f b
| AsBlock n : 0 ≤ n < MAXBLK → bmap I f n = 0 → ind J f = ind I f →
    (∀ m, 0 ≤ m < MAXBLK → bmap J f m = if decide (m = n) then b else bmap I f m) →
    attach_as I J f b.

Section grows.
Context (I J : Z → Z) (f b p : Z).
Hypothesis Hf : file_ok I f.
Hypothesis Ha : attached I J b p.
Hypothesis Has : attach_as I J f b.
Hypothesis Hp : (∀ i, 0 ≤ i < 4 → in_ptrs f (p + i)) ∨
  ind I f ≠ 0 ∧ ∀ i, 0 ≤ i < 4 → block_of (p + i) = ind I f.

Lemma att_old_map m : 0 ≤ m < MAXBLK → bmap I f m ≠ 0 → bmap J f m = bmap I f m.
Proof using Has.
  intros Hm Hn. destruct Has as [_ _ H|n _ Hz _ H]; [by apply H|].
  rewrite H by done. case_decide; congruence.
Qed.

Lemma att_old_ind : ind I f ≠ 0 → ind J f = ind I f.
Proof using Has. intros Hn. by destruct Has. Qed.

(** Every pointer is an old one or leads to the new block. *)
Lemma att_map_cases m : 0 ≤ m < MAXBLK → bmap J f m = bmap I f m ∨ bmap J f m = b.
Proof using Has.
  intros Hm. destruct Has as [_ _ H|n _ _ _ H]; rewrite H by done; [by left|].
  case_decide; [by right|by left].
Qed.

Lemma att_ind_cases : ind J f = ind I f ∨ ind J f = b.
Proof using Has. destruct Has; [by right|by left]. Qed.

Lemma att_own b' : owned J f b' → owned I f b' ∨ b' = b.
Proof using Has.
  intros [H0 [->|(n & Hn & ->)]].
  - destruct att_ind_cases as [E|E]; [left|by right]. rewrite E in *. split; [done|by left].
  - destruct (att_map_cases n Hn) as [E|E]; [left|by right]. rewrite E in *.
    split; [done|]. right. by exists n.
Qed.

(** The pointer lies in no data block. *)
Lemma att_ptr_block va n : 0 ≤ n < MAXBLK → bmap I f n ≠ 0 → block_of va = bmap I f n →
  ¬ (p ≤ va < p + 4).
Proof using Hf Hp.
  intros Hn Hz E Hva. destruct (fk_data _ _ Hf n Hn Hz) as (_ & H1 & H2).
  destruct Hp as [H|[_ H]]; specialize (H (va - p) ltac:(lia));
    replace (p + (va - p)) with va in H by lia; [|congruence].
  apply H1. rewrite <- E. unfold in_ptrs, f_direct, f_indirect, MAXNAMELEN, NDIRECT in H.
  destruct (member_addr I f Hf (va - f)) as [E' _]; [lia|].
  by replace (f + (va - f)) with va in E' by lia.
Qed.

Lemma att_fdata i : 0 ≤ i < MAXBLK * 4096 → fdata J f i = fdata I f i.
Proof using Hf Ha Has Hp.
  intros Hi. unfold fdata. assert (0 ≤ i / 4096 < MAXBLK) as Hn by dlia.
  pose proof (Z.mod_pos_bound i 4096 ltac:(lia)) as Hm.
  destruct (Z.eqb_spec (bmap I f (i / 4096)) 0) as [Hz|Hz].
  - destruct (att_map_cases (i / 4096) Hn) as [E|E]; rewrite E.
    + by rewrite Hz.
    + pose proof (data_pos _ _ (att_new I J b p Ha)). rewrite (proj2 (Z.eqb_neq b 0)) by lia.
      apply (at_zero _ _ _ _ Ha). by apply block_of_BLK.
  - rewrite (att_old_map _ Hn Hz), (proj2 (Z.eqb_neq _ 0) Hz).
    destruct (fk_data _ _ Hf _ Hn Hz) as (Hd & _). destruct (data_avail _ _ Hd) as [Hv Hb].
    assert (block_of (BLK (bmap I f (i / 4096)) + i mod 4096) = bmap I f (i / 4096)) as E
      by (by apply block_of_BLK).
    apply (at_out _ _ _ _ Ha); [rewrite E; by eapply att_fresh|by apply Hb|by eapply att_ptr_block].
Qed.

Lemma att_file_ok : file_ok J f.
Proof using Hf Ha Has.
  pose proof (att_new I J b p Ha) as Hnew. pose proof (data_pos _ _ Hnew) as Hb2.
  assert (∀ b', avail I b' → b' ≠ b) as Hfresh by (intros; by eapply att_fresh).
  assert (block_of f ≠ b) as Hfb by (apply Hfresh, Hf).
  assert (∀ n, 0 ≤ n < MAXBLK → bmap I f n ≠ b) as Hmb.
  { intros n Hn E. destruct (fk_data _ _ Hf n Hn) as (Hd & _); [lia|].
    apply (Hfresh (bmap I f n)); [by apply data_avail|done]. }
  assert (ind I f ≠ b) as Hib.
  { intros E. destruct (fk_ind _ _ Hf) as [Hd _]; [lia|].
    apply (Hfresh (ind I f)); [by apply data_avail|done]. }
  split.
  - apply Hf.
  - eapply att_avail, Hf. done.
  - rewrite (att_first I J b p Ha). apply Hf.
  - intros n Hn Hz. destruct (decide (bmap J f n = b)) as [E|E].
    + rewrite E. split; [done|]. split; [done|]. destruct Has as [? ? H|? ? ? H ?]; [|congruence].
      rewrite (H n Hn) in E. by destruct (Hmb n Hn).
    + destruct (att_map_cases n Hn) as [E'|]; [|done]. rewrite E' in *.
      destruct (fk_data _ _ Hf n Hn Hz) as (H1 & H2 & H3). split; [by eapply att_data|].
      split; [done|]. destruct att_ind_cases as [->| ->]; done.
  - intros Hz. destruct att_ind_cases as [E|E]; rewrite E in *; [|done].
    destruct (fk_ind _ _ Hf Hz). split; [by eapply att_data|done].
  - intros n m Hn Hm E Hz. destruct Has as [? ? H|k ? ? ? H]; rewrite (H n Hn), (H m Hm) in *.
    + by apply (fk_inj _ _ Hf).
    + repeat case_decide; [congruence|by destruct (Hmb m Hm)|by destruct (Hmb n Hn)|].
      by apply (fk_inj _ _ Hf).
Qed.

Lemma att_grows : grows I J f.
Proof using Hf Ha Has Hp.
  split.
  - apply Ha.
  - intros b'. by eapply att_avail.
  - intros va Hv Hb Hn Hi. apply (at_out _ _ _ _ Ha); [by eapply att_fresh|done|]. intros Hva.
    destruct Hp as [H|[H0 H]]; specialize (H (va - p) ltac:(lia));
      replace (p + (va - p)) with va in H by lia; [done|]. destruct Hi; congruence.
  - apply att_file_ok.
  - apply att_old_map.
  - apply att_old_ind.
  - intros b' H. destruct (att_own b' H) as [?| ->]; [by left|right]. apply Ha.
  - apply att_fdata.
Qed.
End grows.

Lemma grows_refl I f : file_ok I f → grows I I f.
Proof. intros. split; try done. intros b ?. by left. Qed.

Lemma grows_first I J f : grows I J f → first_data J = first_data I.
Proof. intros H. unfold first_data. by rewrite (gr_nblk _ _ _ H). Qed.

(** A block the file has and that was not free before is an old one. *)
Lemma grows_old_ind I J f va :
  grows I J f → file_ok I f → avail I (block_of va) → ind J f ≠ 0 → block_of va = ind J f →
  ind I f ≠ 0 ∧ block_of va = ind I f.
Proof.
  intros Hg Hf [_ Hv] Hj E. destruct (decide (ind I f = 0)) as [Hz|Hz].
  2: { split; [done|]. by rewrite E, (gr_ind _ _ _ Hg Hz). }
  destruct (gr_own _ _ _ Hg (ind J f)) as [[_ [H|(n & Hn & H)]]|H].
  - split; [done|by left].
  - congruence.
  - assert (bmap I f n ≠ 0) as Hnz by congruence.
    pose proof (gr_map _ _ _ Hg n Hn Hnz) as Em.
    destruct (fk_data _ _ (gr_ok _ _ _ Hg) n Hn) as (_ & _ & H'); [congruence|].
    exfalso. apply H'. congruence.
  - congruence.
Qed.

Lemma grows_trans I1 I2 I3 f : file_ok I1 f → grows I1 I2 f → grows I2 I3 f → grows I1 I3 f.
Proof.
  intros Hf H12 H23. split.
  - by rewrite (gr_nblk _ _ _ H23), (gr_nblk _ _ _ H12).
  - intros b H. by apply (gr_avail _ _ _ H23), (gr_avail _ _ _ H12).
  - intros va Hv Hb Hp Hi. rewrite (gr_frame _ _ _ H23); [by apply (gr_frame _ _ _ H12)| | |done|].
    + by apply (gr_avail _ _ _ H12).
    + unfold in_bitmap. by rewrite (grows_first _ _ _ H12).
    + destruct (decide (ind I2 f = 0)) as [|Hz]; [by left|right]. intros E.
      destruct (grows_old_ind _ _ _ va H12 Hf Hv Hz E). destruct Hi; congruence.
  - apply H23.
  - intros n Hn Hz. rewrite (gr_map _ _ _ H23 n Hn); rewrite (gr_map _ _ _ H12 n Hn Hz); done.
  - intros Hz. rewrite (gr_ind _ _ _ H23); rewrite (gr_ind _ _ _ H12 Hz); done.
  - intros b Hb. destruct (gr_own _ _ _ H23 b Hb) as [H|H]; [by apply (gr_own _ _ _ H12)|].
    right. destruct (free I1 b) eqn:E; [done|].
    assert (data_blk I3 b) as [[? ?] _].
    { destruct Hb as [H0 [->|(n & Hn & ->)]]; [by apply (fk_ind _ _ (gr_ok _ _ _ H23))|].
      by apply (fk_data _ _ (gr_ok _ _ _ H23) n Hn). }
    assert (avail I1 b) as Hv.
    { split; [|done]. rewrite <- (gr_nblk _ _ _ H12), <- (gr_nblk _ _ _ H23).
      unfold first_data in *. split; [dlia|lia]. }
    apply (gr_avail _ _ _ H12) in Hv as [_ Hv]. congruence.
  - intros i Hi. by rewrite (gr_data _ _ _ H23), (gr_data _ _ _ H12).
Qed.

(** ** The code that attaches a block *)
Lemma patch_patch I o n g : patch (patch I o n g) o n g = patch I o n g.
Proof.
  apply FunctionalExtensionality.functional_extensionality. intros a. unfold patch. by zcases.
Qed.

(** A pointer of a file is outside the data that describes the volume. *)
Lemma ptr_near p va : p mod 4096 ≤ 4092 → p ≤ va < p + 4 → block_of va = block_of p.
Proof.
  intros Hm H. destruct (block_near p (va - p)) as [E _]; [lia|lia|].
  by replace (p + (va - p)) with va in E by lia.
Qed.

Lemma ptr_same I p v :
  2 ≤ first_data I → p mod 4096 ≤ 4092 →
  (block_of p = 1 ∧ BLK 1 + 8 ≤ p ∨ first_data I ≤ block_of p) →
  same_meta I (patch I p 4 (byte_of v)).
Proof.
  intros Hfd Hm Hp. split.
  - intros i H. apply patch_out. destruct Hp as [[E ?]|E]; [unfold BLK in *; lia|].
    assert (block_of (BLK 1 + 4 + i) = 1) by (rewrite <- Z.add_assoc; apply block_of_BLK; lia).
    destruct (Z.lt_ge_cases (BLK 1 + 4 + i) p) as [|Hge]; [by left|].
    destruct (Z.lt_ge_cases (BLK 1 + 4 + i) (p + 4)) as [Hlt|]; [|by right].
    rewrite (ptr_near p (BLK 1 + 4 + i)) in * by lia. lia.
  - intros va H. apply patch_out.
    destruct (Z.lt_ge_cases va p) as [|H1]; [by left|].
    destruct (Z.lt_ge_cases va (p + 4)) as [H2|]; [|by right].
    rewrite (ptr_near p va) in H by lia. destruct Hp as [[? _]|]; lia.
Qed.

Section attach_code.
Context (I I1 : Z → Z) (b p : Z).
Hypothesis Hi : img_ok I.
Hypothesis Hb : first_data I ≤ b < nblk I.
Hypothesis Hfree : free I b = true.
Hypothesis Hbits : bits I I1 b false.
Hypothesis Hv : avail I (block_of p).
Hypothesis Hm : p mod 4096 ≤ 4092.
Hypothesis Hp : block_of p = 1 ∧ BLK 1 + 8 ≤ p ∨ first_data I ≤ block_of p.

Definition att_ptr_img : Z → Z := patch I1 p 4 (byte_of b).
Definition att_img : Z → Z := patch att_ptr_img (BLK b) 4096 (λ _, 0).

Lemma attc_first1 : first_data I1 = first_data I.
Proof using Hbits. unfold first_data. by rewrite (bt_nblk _ _ _ _ Hbits). Qed.

Lemma attc_img1 : img_ok I1.
Proof using Hi Hb Hbits. eapply bits_img; [done..|lia]. Qed.

Lemma attc_ptr_same : same_meta I1 att_ptr_img.
Proof using Hi Hm Hp Hbits.
  pose proof (img_first I Hi). apply ptr_same; rewrite ?attc_first1; (done || lia).
Qed.

Lemma attc_zero_same : same_meta att_ptr_img att_img.
Proof using Hi Hb Hbits Hm Hp.
  pose proof attc_ptr_same as Hs. apply same_data.
  - intros va H. rewrite (same_first _ _ Hs), attc_first1 in H. apply patch_out.
    pose proof (va_split va). pose proof (Z.mod_pos_bound va 4096). unfold BLK in *. lia.
  - rewrite (same_nblk _ _ Hs), (bt_nblk _ _ _ _ Hbits). destruct Hi. unfold first_data in *. dlia.
Qed.

Lemma attc_word : word_at att_ptr_img p = b.
Proof using Hi Hb.
  unfold att_ptr_img. rewrite word_patch_same, u32_small; [done|]. destruct Hi.
  unfold first_data in *. unfold is_u32. split; [dlia|lia].
Qed.

Lemma attc_block_ne : block_of p ≠ b.
Proof using Hv Hfree. intros E. destruct Hv as [_ H]. rewrite E in H. congruence. Qed.

Lemma attc_avail1 b' : avail I b' → avail I1 b'.
Proof using Hbits.
  intros [? ?]. split; [by rewrite (bt_nblk _ _ _ _ Hbits)|].
  rewrite (bt_free _ _ _ _ Hbits) by done. by case_decide.
Qed.

Lemma attc_attached : attached I att_img b p.
Proof using Hi Hb Hfree Hbits Hv Hm Hp.
  pose proof (same_trans _ _ _ attc_ptr_same attc_zero_same) as Hs. split.
  - by rewrite (same_nblk _ _ Hs), (bt_nblk _ _ _ _ Hbits).
  - done.
  - done.
  - intros b' Hb'. rewrite (same_free _ _ b' Hs); [by apply Hbits|].
    by rewrite (bt_nblk _ _ _ _ Hbits).
  - intros va E. unfold att_img. rewrite (va_split va), E.
    rewrite (patch_in _ (BLK b)); [done|]. apply Z.mod_pos_bound. lia.
  - unfold att_img. rewrite word_patch_out; [apply attc_word|].
    pose proof attc_block_ne. pose proof (va_split p). pose proof (Z.mod_pos_bound p 4096).
    unfold BLK in *. assert (block_of p < b ∨ b < block_of p) by lia. lia.
  - intros va H1 H2 H3. unfold att_img. rewrite patch_out.
    2: { pose proof (va_split va). pose proof (Z.mod_pos_bound va 4096). unfold BLK in *.
         assert (block_of va < b ∨ b < block_of va) by lia. lia. }
    unfold att_ptr_img. rewrite patch_out by lia. by apply Hbits.
Qed.
End attach_code.

(** ** Finding a block *)
Definition fslot (I : Z → Z) (f n : Z) : Z :=
  if n <? 10 then f_direct f n else BLK (ind I f) + 4 * (n - 10).
Definition full (I : Z → Z) : Prop := ∀ b, 0 ≤ b < nblk I → free I b = false.

Section slots.
Context (I : Z → Z) (f n : Z).
Hypothesis Hf : file_ok I f.
Hypothesis Hn : 0 ≤ n < MAXBLK.
Hypothesis Hs : n < 10 ∨ ind I f ≠ 0.

Lemma fslot_word : word_at I (fslot I f n) = bmap I f n.
Proof using Hs.
  unfold fslot, bmap. destruct (Z.ltb_spec n 10); [done|]. destruct Hs; [lia|].
  by rewrite (proj2 (Z.eqb_neq _ 0)).
Qed.

Lemma fslot_avail : avail I (block_of (fslot I f n)) ∧ fslot I f n mod 4096 ≤ 4092.
Proof using Hf Hn Hs.
  unfold fslot. destruct (Z.ltb_spec n 10).
  - unfold f_direct, MAXNAMELEN. rewrite <- !Z.add_assoc. apply (member_word I f Hf). lia.
  - destruct Hs as [|Hz]; [lia|]. destruct (slot_word I f Hf n ltac:(lia) Hz) as (-> & ? & ?). done.
Qed.

Lemma fslot_place : block_of (fslot I f n) = 1 ∧ BLK 1 + 8 ≤ fslot I f n ∨
  first_data I ≤ block_of (fslot I f n).
Proof using Hf Hn Hs.
  unfold fslot. destruct (Z.ltb_spec n 10).
  - unfold f_direct, MAXNAMELEN. rewrite <- !Z.add_assoc.
    destruct (member_addr I f Hf (128 + (8 + 4 * n))) as [-> _]; [lia|].
    destruct (fk_block _ _ Hf) as [[-> ?]|]; [left; lia|by right].
  - destruct Hs as [|Hz]; [lia|]. destruct (slot_word I f Hf n ltac:(lia) Hz) as (-> & _ & _).
    right. by destruct (fk_ind _ _ Hf Hz) as [[[? _] _] _].
Qed.

Lemma fslot_owner : (∀ i, 0 ≤ i < 4 → in_ptrs f (fslot I f n + i)) ∨
  ind I f ≠ 0 ∧ ∀ i, 0 ≤ i < 4 → block_of (fslot I f n + i) = ind I f.
Proof using Hn Hs.
  unfold fslot, MAXBLK in *. destruct (Z.ltb_spec n 10).
  - left. intros i Hi. unfold in_ptrs, f_direct, f_indirect, MAXNAMELEN, NDIRECT. lia.
  - destruct Hs as [|Hz]; [lia|]. right. split; [done|]. intros i Hi.
    rewrite <- Z.add_assoc. apply block_of_BLK. lia.
Qed.

Lemma fslot_apart k : 0 ≤ k ≤ 252 → f + k + 4 ≤ f_direct f 0 ∨ f_indirect f ≤ f + k ∨ 10 ≤ n →
  f + k + 4 ≤ fslot I f n ∨ fslot I f n + 4 ≤ f + k.
Proof using Hf Hn Hs.
  intros Hk Hp. destruct (Z.lt_ge_cases n 10).
  - unfold fslot. rewrite (proj2 (Z.ltb_lt n 10)) by done.
    unfold f_direct, f_indirect, MAXNAMELEN, NDIRECT in *. lia.
  - destruct Hs as [|H0]; [lia|]. apply words_apart.
    + unfold fslot. rewrite (proj2 (Z.ltb_ge n 10)) by done.
      destruct (slot_word I f Hf n ltac:(lia) H0) as (-> & _).
      destruct (member_addr I f Hf k) as [-> _]; [lia|]. by destruct (fk_ind _ _ Hf H0).
    + by apply (member_word I f Hf).
    + apply fslot_avail.
Qed.

(** The slots of different blocks are different words. *)
Lemma fslot_set J v :
  (∀ k, 0 ≤ k ≤ 252 → f + k + 4 ≤ fslot I f n ∨ fslot I f n + 4 ≤ f + k → word_at J (f + k) = word_at I (f + k)) →
  (∀ a, ind I f ≠ 0 → block_of a = ind I f → a mod 4096 ≤ 4092 → a + 4 ≤ fslot I f n ∨ fslot I f n + 4 ≤ a →
     word_at J a = word_at I a) →
  word_at J (fslot I f n) = v →
  ind J f = ind I f ∧ ∀ m, 0 ≤ m < MAXBLK → bmap J f m = if decide (m = n) then v else bmap I f m.
Proof using Hf Hn Hs.
  intros Hdesc Hind Hptr. assert (ind J f = ind I f) as Ei.
  { unfold ind, f_indirect, MAXNAMELEN, NDIRECT. rewrite <- !Z.add_assoc.
    apply Hdesc; [lia|]. apply fslot_apart; [lia|]. unfold f_indirect, MAXNAMELEN, NDIRECT. lia. }
  split; [done|]. intros m Hm. unfold bmap at 1. rewrite Ei. unfold bmap, fslot in *.
  destruct (Z.ltb_spec m 10).
  - case_decide as E; [subst m; by rewrite (proj2 (Z.ltb_lt n 10)) in Hptr|].
    unfold f_direct, MAXNAMELEN. rewrite <- !Z.add_assoc. apply Hdesc; [lia|].
    destruct (Z.lt_ge_cases n 10); [|apply fslot_apart; lia].
    rewrite (proj2 (Z.ltb_lt n 10)) by done. unfold f_direct, MAXNAMELEN. lia.
  - destruct (Z.eqb_spec (ind I f) 0) as [H0|H0]; [rewrite decide_False; [done|intros ->; lia]|].
    case_decide as E; [subst m; by rewrite (proj2 (Z.ltb_ge n 10)) in Hptr|].
    destruct (slot_word I f Hf m ltac:(lia) H0) as (E1 & E2 & _). apply Hind; [done|done|done|].
    destruct (Z.lt_ge_cases n 10).
    + apply words_apart; [|done|apply fslot_avail]. rewrite E1. rewrite (proj2 (Z.ltb_lt n 10)) by done.
      unfold f_direct, MAXNAMELEN. rewrite <- !Z.add_assoc.
      destruct (member_addr I f Hf (128 + (8 + 4 * n))) as [-> _]; [lia|]. by destruct (fk_ind _ _ Hf H0).
    + rewrite (proj2 (Z.ltb_ge n 10)) by done. lia.
Qed.

Lemma fslot_attach J b : attached I J b (fslot I f n) → bmap I f n = 0 → attach_as I J f b.
Proof using Hf Hn Hs.
  intros Ha Hz. destruct (fslot_set J b) as [Ei Hmap].
  - intros k Hk Hap. by apply (att_member I J f b (fslot I f n)).
  - intros a H0 E Hm Hap. destruct (fk_ind _ _ Hf H0) as [Hd _]. destruct (data_avail _ _ Hd) as [Hv Hb].
    apply (att_word I J b (fslot I f n)); [done|by rewrite E|done|by apply Hb|done].
  - apply Ha.
  - by apply (AsBlock _ _ _ _ n).
Qed.
End slots.

Lemma fslot_same I J f n :
  n < 10 ∨ ind I f ≠ 0 → (ind I f ≠ 0 → ind J f = ind I f) → fslot J f n = fslot I f n.
Proof.
  intros Hs Hi. unfold fslot. destruct (Z.ltb_spec n 10); [done|]. destruct Hs as [|H0]; [lia|].
  by rewrite (Hi H0).
Qed.

Lemma ind_attach I J f b : file_ok I f → attached I J b (f_indirect f) → ind I f = 0 → attach_as I J f b.
Proof.
  intros Hf Ha Hz. pose proof (at_ptr _ _ _ _ Ha) as Hptr.
  pose proof (data_pos _ _ (att_new I J b _ Ha)) as Hb.
  apply AsIndirect; [done|done|]. intros m Hm. unfold bmap, ind. rewrite Hptr.
  fold (ind I f). rewrite Hz. destruct (Z.ltb_spec m 10).
  - unfold f_direct, MAXNAMELEN. rewrite <- !Z.add_assoc.
    apply (att_member I J f b (f_indirect f)); [done|done|lia|].
    unfold f_indirect, MAXNAMELEN, NDIRECT. lia.
  - rewrite (proj2 (Z.eqb_neq b 0)) by lia. cbn [Z.eqb]. unfold MAXBLK in Hm.
    transitivity (word_at (λ _, 0) 0); [|done]. apply word_ext. intros i Hi.
    apply (at_zero _ _ _ _ Ha). rewrite <- Z.add_assoc. apply block_of_BLK. lia.
Qed.

Lemma ind_place I f : file_ok I f → avail I (block_of (f_indirect f)) ∧ f_indirect f mod 4096 ≤ 4092 ∧
  (block_of (f_indirect f) = 1 ∧ BLK 1 + 8 ≤ f_indirect f ∨ first_data I ≤ block_of (f_indirect f)).
Proof.
  intros Hf. unfold f_indirect, MAXNAMELEN, NDIRECT. rewrite <- !Z.add_assoc.
  destruct (member_word I f Hf (128 + (8 + 4 * 10))) as [H1 H2]; [lia|]. split; [done|]. split; [done|].
  destruct (member_addr I f Hf (128 + (8 + 4 * 10))) as [-> _]; [lia|].
  destruct (fk_block _ _ Hf) as [[-> ?]|]; [left; lia|by right].
Qed.

(** [*p = b; sys_page_alloc(0, BLKNO2ADDR(b), PTE_SYSCALL)] after [b] was
    allocated. *)
Lemma iwp_attach {A} (k : Z → M fsst A) Q I I1 b p :
  img_ok I → first_data I ≤ b < nblk I → free I b = true → bits I I1 b false →
  avail I (block_of p) → p mod 4096 ≤ 4092 →
  (block_of p = 1 ∧ BLK 1 + 8 ≤ p ∨ first_data I ≤ block_of p) →
  (attached I (att_img I1 b p) b p → iwp (k 0) Q (att_img I1 b p)) →
  iwp (let* r := bc_page_alloc (BLKNO2ADDR b) in k r) Q (att_ptr_img I1 b p).
Proof.
  intros Hi Hb Hfr Hbits Hv Hm Hp HQ. pose proof (img_first I Hi).
  pose proof (attc_ptr_same I I1 b p Hi Hbits Hm Hp) as Hs1.
  pose proof (attc_zero_same I I1 b p Hi Hb Hbits Hm Hp) as Hs2.
  rewrite BLKNO2ADDR_eq by lia. apply iwp_bind, iwp_page_alloc.
  - rewrite (same_nblk _ _ Hs1), (bt_nblk _ _ _ _ Hbits). lia.
  - exact (same_nblk _ _ Hs2).
  - exact (same_img _ _ (same_trans _ _ _ Hs1 Hs2) (attc_img1 I I1 b Hi Hb Hbits)).
  - apply HQ. by apply (attc_attached I I1).
Qed.

Lemma iwp_attach_ptr Q I I1 b p :
  img_ok I → first_data I ≤ b < nblk I → bits I I1 b false →
  avail I (block_of p) → p mod 4096 ≤ 4092 →
  (block_of p = 1 ∧ BLK 1 + 8 ≤ p ∨ first_data I ≤ block_of p) →
  Q tt (att_ptr_img I1 b p) → iwp (store32 p b) Q I1.
Proof.
  intros Hi Hb Hbits Hv Hm Hp HQ. pose proof (attc_ptr_same I I1 b p Hi Hbits Hm Hp) as Hs1.
  apply iwp_store32; [by eapply attc_avail1|done|exact (same_nblk _ _ Hs1)| |done].
  exact (same_img _ _ Hs1 (attc_img1 I I1 b Hi Hb Hbits)).
Qed.

Lemma iwp_walk_alloc Q I f n :
  file_ok I f → 0 ≤ n →
  (MAXBLK ≤ n → Q (- E_INVAL, 0) I) →
  (10 ≤ n < MAXBLK → ind I f = 0 → full I → Q (- E_NO_DISK, 0) I) →
  (∀ J, n < MAXBLK → grows I J f → (n < 10 ∨ ind J f ≠ 0) →
     (∀ m, 0 ≤ m < MAXBLK → bmap J f m = bmap I f m) →
     (n < 10 ∨ ind I f ≠ 0 → J = I) → Q (0, fslot J f n) J) →
  iwp (file_block_walk f n true) Q I.
Proof.
  intros Hf Hn HQ1 HQ2 HQ3. apply iwp_img. intros Hi. pose proof (img_first I Hi) as Hfd.
  unfold file_block_walk. change (NINDIRECT + NDIRECT) with MAXBLK. change NDIRECT with 10.
  destruct (Z.leb_spec MAXBLK n); [by apply iwp_ret, HQ1|].
  destruct (Z.ltb_spec n 10).
  { apply iwp_ret. pose proof (HQ3 I) as H'. unfold fslot in H'.
    rewrite (proj2 (Z.ltb_lt n 10)) in H' by done. apply H'; try lia; try done. by apply grows_refl. }
  destruct (ind_place I f Hf) as (Hv & Hm & Hp).
  apply iwp_bind, iwp_load32; [done|done|]. fold (ind I f).
  destruct (ctrue (ind I f)) eqn:Hz; cbn [negb].
  - apply ctrue_true in Hz. apply iwp_ret. destruct (fk_ind _ _ Hf Hz) as [[? ?] _].
    rewrite BLKNO2ADDR_eq by lia. pose proof (HQ3 I) as H'. unfold fslot in H'.
    rewrite (proj2 (Z.ltb_ge n 10)) in H' by done. apply H'; try done; [by apply grows_refl|by right].
  - apply ctrue_false in Hz. apply iwp_bind, iwp_alloc_block.
    { intros Hfull. apply iwp_ret, HQ2; (done || lia). }
    intros b I1 Hb Hfr _ Hbits. rewrite (proj2 (Z.ltb_ge b 0)) by lia.
    apply iwp_bind, (iwp_attach_ptr _ I); try done.
    apply (iwp_attach _ _ I); try done. intros Hatt.
    change (0 <? 0) with false. cbv iota. rewrite BLKNO2ADDR_eq by lia.
    pose proof (att_grows I _ f b _ Hf Hatt (ind_attach _ _ _ _ Hf Hatt Hz)) as Hg.
    assert (ind (att_img I1 b (f_indirect f)) f = b) as Ei by apply Hatt.
    change BLKSIZE with 4096. destruct (BLK_page b) as [E1 E2].
    assert (patch (att_img I1 b (f_indirect f)) (BLK b) 4096 (λ _, u8 0) =
            att_img I1 b (f_indirect f)) as Ep by apply patch_patch.
    apply iwp_img. intros HiJ. apply iwp_bind, iwp_store_range; rewrite ?E1, ?E2, ?Ep; try done.
    { by apply data_avail, (att_new I _ b (f_indirect f)). }
    apply iwp_ret. pose proof (HQ3 (att_img I1 b (f_indirect f))) as H'. unfold fslot in H'.
    rewrite (proj2 (Z.ltb_ge n 10)) in H' by done. rewrite Ei in H'. apply H'; try lia.
    + apply Hg. left. intros i Hi'. unfold in_ptrs, f_direct, f_indirect, MAXNAMELEN, NDIRECT. lia.
    + destruct (ind_attach _ _ _ _ Hf Hatt Hz) as [_ _ Hmap|]; [exact Hmap|lia].
Qed.

Lemma iwp_walk_noalloc Q I f n :
  file_ok I f → 0 ≤ n →
  (MAXBLK ≤ n → Q (- E_INVAL, 0) I) →
  (10 ≤ n < MAXBLK → ind I f = 0 → Q (- E_NOT_FOUND, 0) I) →
  (n < MAXBLK → (n < 10 ∨ ind I f ≠ 0) → Q (0, fslot I f n) I) →
  iwp (file_block_walk f n false) Q I.
Proof.
  intros Hf Hn HQ1 HQ2 HQ3. apply iwp_img. intros Hi. pose proof (img_first I Hi) as Hfd.
  unfold file_block_walk. change (NINDIRECT + NDIRECT) with MAXBLK. change NDIRECT with 10.
  unfold fslot in HQ3.
  destruct (Z.leb_spec MAXBLK n); [by apply iwp_ret, HQ1|].
  destruct (Z.ltb_spec n 10); [apply iwp_ret, HQ3; [done|by left]|].
  destruct (ind_place I f Hf) as (Hv & Hm & _).
  apply iwp_bind, iwp_load32; [done|done|]. fold (ind I f).
  destruct (ctrue (ind I f)) eqn:Hz; cbn [negb]; apply iwp_ret.
  - apply ctrue_true in Hz. destruct (fk_ind _ _ Hf Hz) as [[? ?] _].
    rewrite BLKNO2ADDR_eq by lia. apply HQ3; [done|by right].
  - apply ctrue_false in Hz. apply HQ2; (done || lia).
Qed.

(** [file_get_block] finds the block, or makes one of zeros. *)
Lemma iwp_file_get_block Q I f n :
  file_ok I f → 0 ≤ n →
  (MAXBLK ≤ n → Q (- E_INVAL, 0) I) →
  (∀ J, n < MAXBLK → bmap I f n = 0 → grows I J f → full J →
     (∀ m, 0 ≤ m < MAXBLK → bmap J f m = bmap I f m) → Q (- E_NO_DISK, 0) J) →
  (∀ J, n < MAXBLK → grows I J f → bmap J f n ≠ 0 → (bmap I f n ≠ 0 → J = I) →
     (∀ m, 0 ≤ m < MAXBLK → m ≠ n → bmap J f m = bmap I f m) → Q (0, BLK (bmap J f n)) J) →
  iwp (file_get_block f n) Q I.
Proof.
  intros Hf Hn HQ1 HQ2 HQ3. apply iwp_bind, iwp_walk_alloc; [done|done| | |].
  { intros H. by apply iwp_ret, HQ1. }
  { intros H Hz Hfull. apply iwp_ret, HQ2; [lia| |by apply grows_refl|done|done].
    unfold bmap. rewrite (proj2 (Z.ltb_ge n 10)) by lia. by rewrite Hz. }
  intros J Hlt Hg Hs Em Hsame. change (0 <? 0) with false. cbv iota.
  pose proof (gr_ok _ _ _ Hg) as HfJ. destruct (fslot_avail J f n HfJ ltac:(lia) Hs) as [Hv Hm].
  apply iwp_img. intros HiJ. pose proof (img_first J HiJ) as Hfd.
  apply iwp_bind, iwp_load32; [done|done|]. rewrite (fslot_word J f n Hs).
  destruct (ctrue (bmap J f n)) eqn:Hz; cbn [negb].
  - apply ctrue_true in Hz. apply iwp_ret. destruct (fk_data _ _ HfJ n ltac:(lia) Hz) as ([? ?] & _).
    rewrite BLKNO2ADDR_eq by lia. apply HQ3; [done|done|done| |intros m Hm' _; by apply Em].
    intros Hz'. apply Hsame.
    destruct (Z.lt_ge_cases n 10); [by left|right]. intros E. apply Hz'. unfold bmap.
    rewrite (proj2 (Z.ltb_ge n 10)) by lia. by rewrite E.
  - apply ctrue_false in Hz. apply iwp_bind, iwp_alloc_block.
    { intros Hfull. apply iwp_ret, HQ2; try done. rewrite <- Em by lia. done. }
    intros b I1 Hb Hfr _ Hbits. rewrite (proj2 (Z.ltb_ge b 0)) by lia.
    pose proof (fslot_place J f n HfJ ltac:(lia) Hs) as Hp.
    apply iwp_bind, (iwp_attach_ptr _ J); try done.
    pose proof (attc_ptr_same J I1 b (fslot J f n) HiJ Hbits Hm Hp) as Hs1.
    apply iwp_bind, iwp_load32;
      [by apply (same_avail I1), (attc_avail1 J I1 b)|done|].
    rewrite (attc_word J I1 b (fslot J f n) HiJ Hb).
    apply (iwp_attach _ _ J); try done. intros Hatt. change (0 <? 0) with false. cbv iota.
    pose proof (fslot_attach J f n HfJ ltac:(lia) Hs _ _ Hatt Hz) as Has.
    pose proof (att_grows J _ f b _ HfJ Hatt Has (fslot_owner J f n ltac:(lia) Hs)) as Hg2.
    apply iwp_bind, iwp_load32; [by apply (gr_avail _ _ _ Hg2)|done|].
    rewrite (at_ptr _ _ _ _ Hatt). apply iwp_ret. rewrite BLKNO2ADDR_eq by lia.
    assert (bmap (att_img I1 b (fslot J f n)) f n = b) as Eb.
    { etransitivity; [|exact (at_ptr _ _ _ _ Hatt)]. rewrite <- fslot_word.
      - f_equal. apply (fslot_same J); [done|exact (gr_ind _ _ _ Hg2)].
      - destruct Hs as [|H0]; [by left|right]. by rewrite (gr_ind _ _ _ Hg2 H0). }
    rewrite <- Eb at 1. apply HQ3; [done|by eapply grows_trans|lia| |].
    + intros Hz'. exfalso. apply Hz'. rewrite <- Em by lia. done.
    + intros m Hm' Hne. rewrite <- Em by done. destruct Has as [Hi0 _ Hmap|k Hk Hz' _ Hmap].
      * rewrite Hmap by done. done.
      * rewrite Hmap by done. case_decide as Emk; [|done]. subst m. exfalso. apply Hne.
        rewrite Hmap in Eb by lia. case_decide; [done|]. rewrite Hz in Eb. lia.
Qed.
