(* ===== verification/FsRw.v ===== *)
(** * Reading and writing files

    [file_read], [file_write] and the growing case of [file_set_size] against the
    contents of a file as a function from offsets to bytes. *)

From stdpp Require Import base gmap list strings.
From Stdlib Require Import ZArith Lia.
From S2P Require Import Prelude Mmu BlockCache BlockImage Fs FsBitmap FsFile.

Set Default Proof Using "Type".

Definition MAXFILESIZE : Z := MAXBLK * 4096.

(** The part of the descriptor that operations on the contents may change. *)
Definition in_desc (f va : Z) : Prop := f_size f ≤ va < f_size f + 4 ∨ in_ptrs f va.

(** [f] may have changed, and may have got blocks that were free; nothing else
    changed. *)
Record file_step (I J : Z → Z) (f : Z) : Prop := {
  st_nblk : nblk J = nblk I;
  st_avail : ∀ b, avail I b → avail J b;
  st_frame : ∀ va, avail I (block_of va) → ¬ in_bitmap I va → ¬ in_desc f va →
    ¬ owned I f (block_of va) → J va = I va;
  st_ok : file_ok J f;
  st_map : ∀ n, 0 ≤ n < MAXBLK → bmap I f n ≠ 0 → bmap J f n = bmap I f n;
  st_own : ∀ b, owned J f b → owned I f b ∨ free I b = true
}.

Lemma grows_step I J f : grows I J f → file_step I J f.
Proof.
  intros H. split; try apply H. intros va Hv Hb Hd Ho. apply (gr_frame _ _ _ H); try done.
  - intros ?. apply Hd. by right.
  - destruct (decide (ind I f = 0)) as [|Hz]; [by left|right]. intros E. apply Ho.
    split; [congruence|by left].
Qed.

Lemma owned_data I f b : file_ok I f → owned I f b → data_blk I b.
Proof.
  intros Hf [H0 [->|(n & Hn & ->)]]; [by apply (fk_ind _ _ Hf)|by apply (fk_data _ _ Hf n Hn)].
Qed.

Lemma step_trans I1 I2 I3 f : file_step I1 I2 f → file_step I2 I3 f → file_step I1 I3 f.
Proof.
  intros H12 H23. assert (first_data I2 = first_data I1) as Efd.
  { unfold first_data. by rewrite (st_nblk _ _ _ H12). }
  split.
  - by rewrite (st_nblk _ _ _ H23), (st_nblk _ _ _ H12).
  - intros b H. by apply (st_avail _ _ _ H23), (st_avail _ _ _ H12).
  - intros va Hv Hb Hd Ho. rewrite (st_frame _ _ _ H23); [by apply (st_frame _ _ _ H12)| | |done|].
    + by apply (st_avail _ _ _ H12).
    + unfold in_bitmap. by rewrite Efd.
    + intros H. destruct (st_own _ _ _ H12 _ H) as [|Hf]; [done|]. destruct Hv. congruence.
  - apply H23.
  - intros n Hn Hz. rewrite (st_map _ _ _ H23 n Hn); rewrite (st_map _ _ _ H12 n Hn Hz); done.
  - intros b Hb. pose proof (owned_data _ _ _ (st_ok _ _ _ H23) Hb) as [[? ?] _].
    destruct (st_own _ _ _ H23 b Hb) as [Ho|Ho]; [by apply (st_own _ _ _ H12)|].
    right. destruct (free I1 b) eqn:E; [done|].
    assert (avail I1 b) as Hv.
    { split; [|done]. rewrite <- (st_nblk _ _ _ H12), <- (st_nblk _ _ _ H23).
      unfold first_data in *. split; [dlia|lia]. }
    apply (st_avail _ _ _ H12) in Hv as [_ Hv]. congruence.
Qed.

Lemma own_map I f n : 0 ≤ n < MAXBLK → bmap I f n ≠ 0 → owned I f (bmap I f n).
Proof. intros Hn Hz. split; [done|]. right. by exists n. Qed.

Lemma own_ind I f : ind I f ≠ 0 → owned I f (ind I f).
Proof. intros Hz. split; [done|]. by left. Qed.

Lemma own_self I f : file_ok I f → ¬ owned I f (block_of f).
Proof.
  intros Hf [H0 [H|(n & Hn & H)]].
  - rewrite H in H0. by destruct (fk_ind _ _ Hf H0) as [_ ?].
  - rewrite H in H0. by destruct (fk_data _ _ Hf n Hn H0) as (_ & ? & _).
Qed.

(** ** Changes that keep the block map *)
Section keep_map.
Context (I J : Z → Z) (f : Z).
Hypothesis Hf : file_ok I f.
Hypothesis Hnb : nblk J = nblk I.
Hypothesis Hav : ∀ b, avail I b → b = block_of f ∨ owned I f b → avail J b.
Hypothesis Hptr : ∀ va, in_ptrs f va → J va = I va.
Hypothesis Hslot : ind I f ≠ 0 → ∀ va, block_of va = ind I f → J va = I va.

Lemma keep_ind : ind J f = ind I f.
Proof using Hptr.
  apply word_ext. intros i H. apply Hptr. unfold in_ptrs, f_direct, f_indirect, NDIRECT. lia.
Qed.

Lemma keep_map n : 0 ≤ n < MAXBLK → bmap J f n = bmap I f n.
Proof using Hptr Hslot.
  intros Hn. unfold bmap. rewrite keep_ind. destruct (Z.ltb_spec n 10).
  - apply word_ext. intros i H'. apply Hptr. unfold in_ptrs, f_direct, f_indirect, NDIRECT. lia.
  - destruct (Z.eqb_spec (ind I f) 0) as [|Hz]; [done|]. apply word_ext. intros i H'.
    apply (Hslot Hz). unfold MAXBLK in Hn. rewrite <- Z.add_assoc. apply block_of_BLK. lia.
Qed.

Lemma keep_ok : file_ok J f.
Proof using Hf Hnb Hav Hptr Hslot.
  assert (first_data J = first_data I) as E1 by (unfold first_data; by rewrite Hnb).
  assert (∀ b, data_blk I b → owned I f b → data_blk J b) as Hd.
  { intros b Hb Ho. destruct (data_avail _ _ Hb) as [Hv _]. apply Hav in Hv as [_ Hv]; [|by right].
    split; [rewrite E1, Hnb; apply Hb|done]. }
  split; rewrite ?E1, ?keep_ind.
  - apply Hf.
  - apply Hav; [apply Hf|by left].
  - apply Hf.
  - intros n Hn. rewrite keep_map by done. intros Hz. destruct (fk_data _ _ Hf n Hn Hz) as (?&?&?).
    split; [|done]. apply Hd; [done|]. by apply own_map.
  - intros Hz. destruct (fk_ind _ _ Hf Hz). split; [|done]. apply Hd; [done|]. by apply own_ind.
  - intros n m Hn Hm. rewrite !keep_map by done. by apply Hf.
Qed.

Lemma keep_step : (∀ b, avail I b → avail J b) → (∀ va, avail I (block_of va) → ¬ in_desc f va → ¬ owned I f (block_of va) → J va = I va) →
  file_step I J f.
Proof using Hf Hnb Hav Hptr Hslot.
  intros Hall Hfr. split.
  - done.
  - done.
  - auto.
  - apply keep_ok.
  - intros n Hn _. by apply keep_map.
  - intros b [H0 H]. left. split; [done|]. rewrite keep_ind in H. destruct H as [H|(n & Hn & H)]; [by left|].
    rewrite keep_map in H by done. right. by exists n.
Qed.
End keep_map.

(** ** Writing the contents *)
Section write_data.
Context (I : Z → Z) (f n off len : Z) (g : Z → Z).
Hypothesis Hf : file_ok I f.
Hypothesis Hi : img_ok I.
Hypothesis Hn : 0 ≤ n < MAXBLK.
Hypothesis Hz : bmap I f n ≠ 0.
Hypothesis Ho : 0 ≤ off.
Hypothesis Hlen : off + len ≤ 4096.

Definition data_img : Z → Z := patch I (BLK (bmap I f n) + off) len g.

Lemma wd_out va : block_of va ≠ bmap I f n → data_img va = I va.
Proof using Ho Hlen.
  intros H. apply patch_out. pose proof (va_split va). pose proof (Z.mod_pos_bound va 4096).
  unfold BLK in *. assert (block_of va < bmap I f n ∨ bmap I f n < block_of va) by lia. lia.
Qed.

Lemma wd_same : same_meta I data_img.
Proof using Hf Hi Hn Hz Ho Hlen.
  pose proof (img_first I Hi). destruct (fk_data _ _ Hf n Hn Hz) as ([? _] & _).
  apply same_data; [|lia]. intros va Hva. apply wd_out. lia.
Qed.

Lemma wd_ptr va : in_ptrs f va → data_img va = I va.
Proof using Hf Hn Hz Ho Hlen.
  intros H. apply wd_out. destruct (fk_data _ _ Hf n Hn Hz) as (_ & H1 & _).
  unfold in_ptrs, f_direct, f_indirect, MAXNAMELEN, NDIRECT in H.
  destruct (member_addr I f Hf (va - f)) as [E _]; [lia|].
  replace (f + (va - f)) with va in E by lia. congruence.
Qed.

Lemma wd_slot : ind I f ≠ 0 → ∀ va, block_of va = ind I f → data_img va = I va.
Proof using Hf Hn Hz Ho Hlen.
  intros _ va E. apply wd_out. destruct (fk_data _ _ Hf n Hn Hz) as (_ & _ & H). congruence.
Qed.

Lemma wd_step : file_step I data_img f.
Proof using Hf Hi Hn Hz Ho Hlen.
  apply keep_step; [done|apply same_nblk, wd_same|intros b' Hb _; exact (same_avail _ _ _ wd_same Hb)|apply wd_ptr|apply wd_slot|
    intros b'; apply same_avail, wd_same|].
  intros va _ _ Hown. apply wd_out. intros E. apply Hown. rewrite E. split; [done|]. right. by exists n.
Qed.

Lemma wd_size : size_of data_img f = size_of I f.
Proof using Hf Hn Hz Ho Hlen.
  unfold size_of. f_equal. apply word_ext. intros i Hi'. apply wd_out.
  destruct (fk_data _ _ Hf n Hn Hz) as (_ & H1 & _). unfold f_size, MAXNAMELEN.
  rewrite <- Z.add_assoc. destruct (member_addr I f Hf (128 + i)) as [-> _]; [lia|done].
Qed.

(** The bytes of the file that changed. *)
Lemma wd_fdata i : 0 ≤ i < MAXFILESIZE →
  fdata data_img f i = if (n * 4096 + off <=? i) && (i <? n * 4096 + off + len)
                       then g (i - (n * 4096 + off)) else fdata I f i.
Proof using Hf Hi Hn Hz Ho Hlen.
  intros Hi'. unfold MAXFILESIZE in Hi'. assert (0 ≤ i / 4096 < MAXBLK) as Hk by dlia.
  unfold fdata. rewrite (keep_map I data_img f wd_ptr wd_slot) by done.
  pose proof (Z.mod_pos_bound i 4096 ltac:(lia)) as Hm.
  destruct (decide (i / 4096 = n)) as [E|E].
  - rewrite E, (proj2 (Z.eqb_neq _ 0) Hz). assert (i = n * 4096 + i mod 4096) as Ei by dlia.
    unfold data_img, patch. zcases; try lia; try done. f_equal. lia.
  - assert (i < n * 4096 ∨ n * 4096 + 4096 ≤ i) as Hc by dlia.
    destruct (Z.eqb_spec (bmap I f (i / 4096)) 0) as [|Hz']; [zcases; (done || lia)|].
    rewrite wd_out; [zcases; (done || lia)|]. rewrite block_of_BLK by done. intros E'.
    apply E. by apply (fk_inj _ _ Hf).
Qed.
End write_data.

(** ** The size *)
Section write_size.
Context (I : Z → Z) (f v : Z).
Hypothesis Hf : file_ok I f.
Hypothesis Hi : img_ok I.

Definition size_img : Z → Z := patch I (f_size f) 4 (byte_of v).

Lemma ws_out va : ¬ (f_size f ≤ va < f_size f + 4) → size_img va = I va.
Proof using Type. intros. apply patch_out. lia. Qed.

Lemma ws_block va : f_size f ≤ va < f_size f + 4 → block_of va = block_of f.
Proof using Hf.
  unfold f_size, MAXNAMELEN. intros H. destruct (member_addr I f Hf (va - f)) as [E _]; [lia|].
  by replace (f + (va - f)) with va in E by lia.
Qed.

Lemma ws_same : same_meta I size_img.
Proof using Hf Hi.
  pose proof (img_first I Hi). split.
  - intros i Hi'. apply ws_out. intros H'. pose proof (ws_block _ H') as E.
    rewrite <- Z.add_assoc, block_of_BLK in E by lia.
    destruct (fk_block _ _ Hf) as [[_ ?]|]; [|lia]. unfold f_size, MAXNAMELEN in H'. lia.
  - intros va Hva. apply ws_out. intros H'. rewrite (ws_block _ H') in Hva.
    destruct (fk_block _ _ Hf) as [[? _]|]; lia.
Qed.

Lemma ws_ptr va : in_ptrs f va → size_img va = I va.
Proof using Type. unfold in_ptrs, f_direct. intros H. apply ws_out. unfold f_size. lia. Qed.

Lemma ws_slot : ind I f ≠ 0 → ∀ va, block_of va = ind I f → size_img va = I va.
Proof using Hf.
  intros Hz va E. apply ws_out. intros H. destruct (fk_ind _ _ Hf Hz) as [_ H'].
  rewrite (ws_block _ H) in E. congruence.
Qed.

Lemma ws_step : file_step I size_img f.
Proof using Hf Hi.
  apply keep_step; [done|apply same_nblk, ws_same|intros b' Hb _; exact (same_avail _ _ _ ws_same Hb)|apply ws_ptr|apply ws_slot|
    intros b'; apply same_avail, ws_same|].
  intros va _ Hd _. apply ws_out. intros ?. apply Hd. by left.
Qed.

Lemma ws_size : size_of size_img f = s32 (u32 v).
Proof using Type. unfold size_of, size_img. by rewrite word_patch_same. Qed.

Lemma ws_fdata i : 0 ≤ i < MAXFILESIZE → fdata size_img f i = fdata I f i.
Proof using Hf.
  intros Hi'. unfold MAXFILESIZE in Hi'. assert (0 ≤ i / 4096 < MAXBLK) as Hk by dlia.
  unfold fdata. rewrite (keep_map I size_img f ws_ptr ws_slot) by done.
  destruct (Z.eqb_spec (bmap I f (i / 4096)) 0) as [|Hz]; [done|]. apply ws_out. intros H.
  destruct (fk_data _ _ Hf _ Hk Hz) as (_ & H' & _). pose proof (ws_block _ H) as E.
  rewrite block_of_BLK in E by (apply Z.mod_pos_bound; lia). congruence.
Qed.
End write_size.

Lemma grows_size I J f : img_ok I → file_ok I f → grows I J f → size_of J f = size_of I f.
Proof.
  intros Hi Hf Hg. unfold size_of, f_size, MAXNAMELEN. f_equal. apply word_ext. intros i Hi'.
  rewrite <- !Z.add_assoc.
  destruct (member_addr I f Hf (128 + i)) as [E _]; [lia|].
  apply (gr_frame _ _ _ Hg); [rewrite E; apply Hf| | |].
  - apply (member_not_bitmap I f Hf). lia.
  - unfold in_ptrs, f_direct, MAXNAMELEN. lia.
  - rewrite E. destruct (decide (ind I f = 0)) as [|Hz]; [by left|right].
    destruct (fk_ind _ _ Hf Hz). congruence.
Qed.

(** ** The loop *)

(** One round, for offsets that fit in [int]. *)
Lemma pieces_step {A} (fuel : nat) f pos stop (acc : A) step :
  0 ≤ pos < stop → stop < 2 ^ 31 →
  file_pieces (S fuel) f pos stop acc step =
    (let* (r, blk) := file_get_block f (pos / 4096) in
     if r <? 0 then ret (r, acc) else
     let* acc := step acc (u32 (blk + pos mod 4096)) pos (Z.min (4096 - pos mod 4096) (stop - pos)) in
     file_pieces fuel f (pos + Z.min (4096 - pos mod 4096) (stop - pos)) stop acc step).
Proof.
  intros Hp Hs. pose proof (Z.mod_pos_bound pos 4096 ltac:(lia)). cbn [file_pieces].
  change BLKSIZE with 4096. rewrite (u32_small pos) by (unfold is_u32; lia).
  rewrite (proj2 (Z.ltb_lt pos stop)) by lia. cbn [negb].
  rewrite Z.quot_div_nonneg, Z.rem_mod_nonneg by lia.
  rewrite (u32_small (pos / 4096)) by (unfold is_u32; dlia).
  rewrite (u32_small (4096 - pos mod 4096)), (u32_small (stop - pos)) by (unfold is_u32; lia).
  rewrite (s32_small (Z.min _ _)) by lia. rewrite (s32_small (pos + _)) by lia. done.
Qed.

Lemma pieces_done {A} (fuel : nat) f pos stop (acc : A) step :
  is_u32 pos → stop ≤ pos → file_pieces fuel f pos stop acc step = ret (0, acc).
Proof.
  intros Hp Hs. destruct fuel; cbn [file_pieces]; rewrite (u32_small pos Hp);
    by rewrite (proj2 (Z.ltb_ge pos stop)).
Qed.

(** Rounds that are left. *)
Definition rounds (pos stop : Z) : Z := (stop + 4095) / 4096 - pos / 4096.

Lemma rounds_next pos stop :
  0 ≤ pos < stop → let pos' := pos + Z.min (4096 - pos mod 4096) (stop - pos) in
  pos < pos' ≤ stop ∧ (stop ≤ pos' ∨ rounds pos' stop < rounds pos stop).
Proof. intros H. cbv zeta. unfold rounds. split; [dlia|]. destruct (Z.le_gt_cases (4096 - pos mod 4096) (stop - pos)); dlia. Qed.

Lemma piece_addr b pos : 0 ≤ b < 786432 → 0 ≤ pos → u32 (BLK b + pos mod 4096) = BLK b + pos mod 4096.
Proof. intros. apply u32_small. unfold is_u32, BLK, DISKMAP. dlia. Qed.

Lemma neg_err e : 0 < e → (- e <? 0) = true.
Proof. intros. apply Z.ltb_lt. lia. Qed.

(** ** Reading *)
Definition contents (I : Z → Z) (f pos n : Z) : list Z := fdata I f <$> seqZ pos n.

Lemma contents_length I f pos n : length (contents I f pos n) = Z.to_nat n.
Proof. unfold contents. by rewrite length_fmap, length_seqZ. Qed.

Lemma contents_split I f pos n m : 0 ≤ n → 0 ≤ m →
  contents I f pos (n + m) = contents I f pos n ++ contents I f (pos + n) m.
Proof. intros. unfold contents. by rewrite seqZ_app, fmap_app by lia. Qed.

Lemma contents_ext I J f pos n : 0 ≤ pos → pos + n ≤ MAXFILESIZE →
  (∀ i, 0 ≤ i < MAXFILESIZE → fdata I f i = fdata J f i) → contents I f pos n = contents J f pos n.
Proof.
  intros Hp Hn H. apply list_fmap_ext. intros i x Hx.
  apply list_elem_of_lookup_2, elem_of_seqZ in Hx. apply H. lia.
Qed.

Lemma grows_contents I J f pos n : grows I J f → 0 ≤ pos → pos + n ≤ MAXFILESIZE →
  contents J f pos n = contents I f pos n.
Proof. intros Hg Hp Hn. apply contents_ext; [done|done|]. exact (gr_data _ _ _ Hg). Qed.

(** A piece of one block is a piece of the file. *)
Lemma contents_block I f pos n :
  bmap I f (pos / 4096) ≠ 0 → 0 ≤ pos → 0 ≤ n → pos mod 4096 + n ≤ 4096 →
  (λ i, I (BLK (bmap I f (pos / 4096)) + pos mod 4096 + i)) <$> seqZ 0 n = contents I f pos n.
Proof.
  intros Hz Hp Hn Hm. unfold contents. replace (seqZ pos n) with (Z.add pos <$> seqZ 0 n)
    by (rewrite fmap_add_seqZ; f_equal; lia).
  rewrite <- list_fmap_compose. apply list_fmap_ext. intros i x Hx.
  apply list_elem_of_lookup_2, elem_of_seqZ in Hx. unfold fdata; cbn.
  replace ((pos + x) / 4096) with (pos / 4096) by dlia. rewrite (proj2 (Z.eqb_neq _ 0) Hz).
  f_equal. replace ((pos + x) mod 4096) with (pos mod 4096 + x) by dlia. lia.
Qed.

(** Reading up to [stop] may have filled holes before it. *)
Record filled (I J : Z → Z) (f stop : Z) : Prop := {
  fl_grows : grows I J f;
  fl_map : ∀ n, 0 ≤ n < MAXBLK → stop ≤ n * 4096 → bmap J f n = bmap I f n
}.

Lemma filled_refl I f stop : file_ok I f → filled I I f stop.
Proof. intros. split; [by apply grows_refl|done]. Qed.

Lemma filled_trans I J K f stop : file_ok I f → filled I J f stop → filled J K f stop → filled I K f stop.
Proof.
  intros Hf H1 H2. split; [eapply grows_trans; [done|apply H1|apply H2]|]. intros n Hn Ht.
  by rewrite (fl_map _ _ _ _ H2), (fl_map _ _ _ _ H1).
Qed.

(** No hole between [pos] and [stop]. *)
Definition solid (I : Z → Z) (f pos stop : Z) : Prop := ∀ i, pos ≤ i < stop → bmap I f (i / 4096) ≠ 0.

Lemma iwp_read_pieces f stop : ∀ (fuel : nat) I pos acc Q,
  file_ok I f → 0 ≤ pos ≤ stop → stop ≤ MAXFILESIZE →
  (stop ≤ pos ∨ rounds pos stop ≤ Z.of_nat fuel) →
  (∀ J, filled I J f stop → (solid I f pos stop → J = I) → Q (0, acc ++ contents I f pos (stop - pos)) J) →
  (∀ J acc', filled I J f stop → full J → (∃ i, pos ≤ i < stop ∧ bmap I f (i / 4096) = 0) →
     Z.of_nat (length acc') ≤ Z.of_nat (length acc) + (stop - pos) → Q (- E_NO_DISK, acc') J) →
  iwp (file_pieces fuel f pos stop acc
         (λ buf addr _ bn, let* l := load_range addr bn in ret (buf ++ l))) Q I.
Proof.
  induction fuel as [|fuel IH]; intros I pos acc Q Hf Hp Hs Hfuel HQ1 HQ2;
    (destruct (Z.le_gt_cases stop pos) as [Hd|Hd];
     [rewrite pieces_done by (unfold is_u32, MAXFILESIZE, MAXBLK in *; lia); apply iwp_ret;
      replace (stop - pos) with 0 in HQ1 by lia; specialize (HQ1 I); unfold contents in HQ1;
      cbn in HQ1; rewrite app_nil_r in HQ1; apply HQ1; [by apply filled_refl|done]|]).
  { unfold rounds in Hfuel. exfalso. dlia. }
  rewrite pieces_step by (unfold MAXFILESIZE, MAXBLK in *; lia).
  assert (0 ≤ pos / 4096 < MAXBLK) as Hn by (unfold MAXFILESIZE in Hs; dlia).
  set (bn := Z.min (4096 - pos mod 4096) (stop - pos)).
  pose proof (rounds_next pos stop ltac:(lia)) as Hr. fold bn in Hr. cbv zeta in Hr.
  pose proof (Z.mod_pos_bound pos 4096 ltac:(lia)) as Hm.
  apply iwp_img. intros Hi. apply iwp_bind, iwp_file_get_block; [done|lia|intros; exfalso; lia| |].
  { intros J _ Hz Hg Hfull Hmap. rewrite neg_err by done.
    apply iwp_ret, HQ2; [split; [done|intros; by apply Hmap]|done| |lia]. exists pos. split; [lia|done]. }
  intros J _ Hg Hz Hsame Hmap. change (0 <? 0) with false. cbv iota.
  assert (filled I J f stop) as Hfl.
  { split; [done|]. intros n Hn' Ht. apply Hmap; [done|]. dlia. }
  apply iwp_img. intros HiJ. pose proof (img_first J HiJ).
  destruct (fk_data _ _ (gr_ok _ _ _ Hg) _ Hn Hz) as (Hdb & _). pose proof Hdb as [? _].
  rewrite piece_addr by lia.
  apply iwp_bind, iwp_bind, iwp_load_range.
  { rewrite block_of_BLK by done. by apply data_avail. }
  { rewrite BLK_mod by done. lia. }
  apply iwp_ret. rewrite (contents_block J f pos bn) by (done || lia).
  rewrite (grows_contents I J f pos bn Hg) by lia.
  apply IH; [apply Hg|lia|lia|lia| |].
  - intros K Hgk Hsk. rewrite <- app_assoc. rewrite (grows_contents I J f (pos + bn) _ Hg) by lia.
    rewrite <- contents_split by lia. replace (bn + (stop - (pos + bn))) with (stop - pos) by lia.
    apply HQ1; [by eapply filled_trans|]. intros Hsolid.
    assert (J = I) as -> by (apply Hsame, (Hsolid pos); lia). apply Hsk. intros i Hi'. apply Hsolid. lia.
  - intros K acc' Hgk Hfull (i & Hi' & Hz') Hlen. apply HQ2; [by eapply filled_trans|done| |].
    + exists i. split; [lia|]. destruct (decide (bmap I f (i / 4096) = 0)) as [|Hnz]; [done|].
      rewrite <- (gr_map _ _ _ Hg (i / 4096)) in Hnz; [done| |done]. unfold MAXFILESIZE in Hs. dlia.
    + rewrite length_app, contents_length in Hlen. lia.
Qed.

Lemma pieces_enough offset count : 0 ≤ offset → 0 ≤ count →
  offset + count ≤ offset ∨ rounds offset (offset + count) ≤ Z.of_nat (pieces count).
Proof.
  intros. right. unfold rounds, pieces. change BLKSIZE with 4096.
  rewrite Z2Nat.id by dlia. dlia.
Qed.

(** [file_read] yields the bytes of the file from [offset] on; the disk may be full
    when a hole has to be filled. *)
Lemma iwp_file_read Q I f count offset :
  file_ok I f → 0 ≤ size_of I f ≤ MAXFILESIZE → 0 ≤ offset → is_u32 count →
  let n := Z.min count (size_of I f - offset) in
  (size_of I f ≤ offset → Q (0, []) I) →
  (∀ J, offset < size_of I f → filled I J f (offset + n) → (solid I f offset (offset + n) → J = I) →
     Q (n, contents I f offset n) J) →
  (∀ J buf, offset < size_of I f → filled I J f (offset + n) → full J →
     (∃ i, offset ≤ i < offset + n ∧ bmap I f (i / 4096) = 0) → Z.of_nat (length buf) ≤ n →
     Q (- E_NO_DISK, buf) J) →
  iwp (file_read f count offset) Q I.
Proof.
  intros Hf Hsz Ho Hc n HQ1 HQ2 HQ3.
  destruct (member_word I f Hf 128) as [Hv Hm]; [lia|].
  apply iwp_bind, iwp_bind, iwp_load32; [done|done|]. apply iwp_ret. fold (size_of I f).
  destruct (Z.leb_spec (size_of I f) offset) as [Hle|Hlt]; [by apply iwp_ret, HQ1|].
  unfold MAXFILESIZE, MAXBLK in *. destruct Hc.
  rewrite (u32_small (size_of I f - offset)) by (unfold is_u32; lia). fold n.
  rewrite (u32_small (offset + n)) by (unfold is_u32, n; lia).
  apply iwp_bind, iwp_read_pieces; [done|lia|unfold MAXFILESIZE, MAXBLK; lia|apply pieces_enough; lia| |].
  - intros J Hg Hs. change (0 <? 0) with false. cbv iota. apply iwp_ret.
    rewrite s32_small by lia. replace (offset + n - offset) with n by lia. by apply HQ2.
  - intros J acc Hg Hfull Hh Hlen. rewrite neg_err by done. apply iwp_ret. apply HQ3; try done.
    cbn [length] in Hlen. lia.
Qed.

(** ** Writing *)

(** [I] with bytes [pos <= i < mid] of the file replaced by [h i]. *)
Record wrote (I J : Z → Z) (f pos mid : Z) (h : Z → Z) : Prop := {
  wr_step : file_step I J f;
  wr_size : size_of J f = size_of I f;
  wr_data : ∀ i, 0 ≤ i < MAXFILESIZE →
    fdata J f i = if (pos <=? i) && (i <? mid) then h i else fdata I f i;
  wr_blocks : ∀ i, pos ≤ i < mid → bmap J f (i / 4096) ≠ 0;
  wr_map : ∀ n, 0 ≤ n < MAXBLK → mid ≤ n * 4096 → bmap J f n = bmap I f n
}.

Lemma file_step_refl I f : file_ok I f → file_step I I f.
Proof. intros. by apply grows_step, grows_refl. Qed.

Lemma wrote_nil I f pos h : file_ok I f → wrote I I f pos pos h.
Proof.
  intros. split; [by apply file_step_refl|done| |lia|done]. intros i Hi. zcases; (done || lia).
Qed.

Lemma wrote_app I J K f pos mid stop h :
  pos ≤ mid ≤ stop → 0 ≤ pos → stop ≤ MAXFILESIZE →
  wrote I J f pos mid h → wrote J K f mid stop h → wrote I K f pos stop h.
Proof.
  intros Hm Hp Hs H1 H2. split.
  - eapply step_trans; [apply H1|apply H2].
  - by rewrite (wr_size _ _ _ _ _ _ H2), (wr_size _ _ _ _ _ _ H1).
  - intros i Hi. rewrite (wr_data _ _ _ _ _ _ H2), (wr_data _ _ _ _ _ _ H1) by done.
    zcases; (done || lia).
  - intros i Hi. destruct (Z.lt_ge_cases i mid).
    + rewrite (st_map _ _ _ (wr_step _ _ _ _ _ _ H2)); [apply H1; lia| |apply H1; lia].
      unfold MAXFILESIZE in Hs. dlia.
    + apply H2. lia.
  - intros n Hn Ht. rewrite (wr_map _ _ _ _ _ _ H2), (wr_map _ _ _ _ _ _ H1); (done || lia).
Qed.

(** One piece: a block is found or made, and bytes of it are replaced. *)
Lemma wrote_piece I J f pos n h g :
  img_ok I → file_ok I f → img_ok J → grows I J f → 0 ≤ pos → 0 < n → pos mod 4096 + n ≤ 4096 →
  0 ≤ pos / 4096 < MAXBLK → bmap J f (pos / 4096) ≠ 0 → (∀ i, 0 ≤ i < n → g i = h (pos + i)) →
  (∀ m, 0 ≤ m < MAXBLK → m ≠ pos / 4096 → bmap J f m = bmap I f m) →
  wrote I (data_img J f (pos / 4096) (pos mod 4096) n g) f pos (pos + n) h.
Proof.
  intros HiI HfI Hi Hg Hp Hn0 Hn Hk Hz Hh Hmap. pose proof (Z.mod_pos_bound pos 4096 ltac:(lia)).
  pose proof (gr_ok _ _ _ Hg) as Hf. split.
  - eapply step_trans; [apply grows_step, Hg|]. apply wd_step; (done || lia).
  - rewrite wd_size by (done || lia). by apply grows_size.
  - intros i Hi'. rewrite wd_fdata, (gr_data _ _ _ Hg) by (done || lia).
    replace (pos / 4096 * 4096 + pos mod 4096) with pos by dlia.
    zcases; try done. rewrite Hh by lia. f_equal. lia.
  - intros i Hi'. replace (i / 4096) with (pos / 4096) by dlia.
    rewrite (st_map J (data_img J f (pos / 4096) (pos mod 4096) n g) f); [done| |done|done].
    apply wd_step; (done || lia).
  - intros m Hm Ht. rewrite <- Hmap by (done || dlia).
    apply keep_map; [apply wd_ptr|apply wd_slot|done]; (done || lia).
Qed.

Lemma iwp_write_pieces f stop (buf : list Z) offset : ∀ (fuel : nat) I pos Q,
  let h := λ i, u8 (buf !!! Z.to_nat (i - offset)) in
  file_ok I f → 0 ≤ pos ≤ stop → stop ≤ MAXFILESIZE → offset ≤ pos →
  (stop ≤ pos ∨ rounds pos stop ≤ Z.of_nat fuel) →
  (∀ J, wrote I J f pos stop h → Q (0, tt) J) →
  (∀ J mid, pos ≤ mid ≤ stop → wrote I J f pos mid h → full J → Q (- E_NO_DISK, tt) J) →
  iwp (file_pieces fuel f pos stop tt
         (λ _ addr pos bn, store_range addr bn (λ i, buf !!! Z.to_nat (pos - offset + i)))) Q I.
Proof.
  induction fuel as [|fuel IH]; intros I pos Q h Hf Hp Hs Ho Hfuel HQ1 HQ2;
    (destruct (Z.le_gt_cases stop pos) as [Hd|Hd];
     [rewrite pieces_done by (unfold is_u32, MAXFILESIZE, MAXBLK in *; lia); apply iwp_ret, HQ1;
      replace stop with pos by lia; by apply wrote_nil|]).
  { unfold rounds in Hfuel. exfalso. dlia. }
  rewrite pieces_step by (unfold MAXFILESIZE, MAXBLK in *; lia).
  assert (0 ≤ pos / 4096 < MAXBLK) as Hn by (unfold MAXFILESIZE in Hs; dlia).
  set (bn := Z.min (4096 - pos mod 4096) (stop - pos)).
  pose proof (rounds_next pos stop ltac:(lia)) as Hr. fold bn in Hr. cbv zeta in Hr.
  pose proof (Z.mod_pos_bound pos 4096 ltac:(lia)) as Hm.
  apply iwp_img. intros Hi. apply iwp_bind, iwp_file_get_block; [done|lia|intros; exfalso; lia| |].
  { intros J _ Hz Hg Hfull Hmap. rewrite neg_err by done. apply iwp_ret, (HQ2 J pos); [lia| |done].
    split; [by apply grows_step|by apply grows_size| |lia|intros; by apply Hmap].
    intros i Hi'. rewrite (gr_data _ _ _ Hg) by done. zcases; (done || lia). }
  intros J _ Hg Hz _ Hmap. change (0 <? 0) with false. cbv iota.
  apply iwp_img. intros HiJ. pose proof (img_first J HiJ). pose proof (gr_ok _ _ _ Hg) as HfJ.
  destruct (fk_data _ _ HfJ _ Hn Hz) as (Hdb & _). pose proof Hdb as [? _].
  rewrite piece_addr by lia.
  assert (wrote I (data_img J f (pos / 4096) (pos mod 4096) bn
            (λ i, u8 (buf !!! Z.to_nat (pos - offset + i)))) f pos (pos + bn) h) as Hw.
  { apply wrote_piece; try done; try lia. intros i Hi'. unfold h. do 2 f_equal. lia. }
  pose proof (wd_same J f (pos / 4096) (pos mod 4096) bn
    (λ i, u8 (buf !!! Z.to_nat (pos - offset + i))) HfJ HiJ Hn Hz ltac:(lia) ltac:(lia)) as Hsm.
  apply iwp_bind, iwp_store_range.
  { rewrite block_of_BLK by done. by apply data_avail. }
  { rewrite BLK_mod by done. lia. }
  { exact (same_nblk _ _ Hsm). }
  { exact (same_img _ _ Hsm HiJ). }
  apply IH; [apply Hw|lia|lia|lia|lia| |].
  - intros K HK. apply HQ1. eapply wrote_app; [| | |exact Hw|exact HK]; lia.
  - intros K mid Hmid HK Hfull. apply (HQ2 K mid); [lia| |done].
    eapply wrote_app; [| | |exact Hw|exact HK]; lia.
Qed.

(** Growing a file changes its size only. *)
Lemma iwp_set_size_grow Q I f v :
  file_ok I f → size_of I f ≤ v < 2 ^ 31 → 0 ≤ v → Q 0 (size_img I f v) → iwp (file_set_size f v) Q I.
Proof.
  intros Hf Hv H0 HQ. apply iwp_img. intros Hi. pose proof (img_first I Hi).
  destruct (member_word I f Hf 128) as [Hav Hm]; [lia|].
  apply iwp_bind, iwp_bind, iwp_load32; [done|done|]. apply iwp_ret. fold (size_of I f).
  rewrite (proj2 (Z.ltb_ge v (size_of I f))) by lia. apply iwp_bind, iwp_ret.
  apply iwp_bind. unfold put_size. rewrite u32_small by (unfold is_u32; lia).
  pose proof (ws_same I f v Hf Hi) as Hs.
  apply iwp_store32; [done|done|exact (same_nblk _ _ Hs)|exact (same_img _ _ Hs Hi)|].
  apply iwp_bind, iwp_flush; [|by apply iwp_ret]. apply in_map_spec.
  pose proof (fk_avail _ _ Hf) as [? _]. lia.
Qed.

(** No blocks beyond the end of the file. *)
Definition no_tail (I : Z → Z) (f : Z) : Prop :=
  ∀ n, 0 ≤ n < MAXBLK → size_of I f ≤ n * 4096 → bmap I f n = 0.

(** What [file_write] of [buf] at [offset] has done once it has got to [mid]. *)
Record file_wrote (I J : Z → Z) (f : Z) (buf : list Z) (offset mid : Z) : Prop := {
  fw_step : file_step I J f;
  fw_size : size_of J f = Z.max (size_of I f) (offset + Z.of_nat (length buf));
  fw_data : ∀ i, 0 ≤ i < MAXFILESIZE →
    fdata J f i = if (offset <=? i) && (i <? mid) then u8 (buf !!! Z.to_nat (i - offset))
                  else fdata I f i;
  fw_blocks : ∀ i, offset ≤ i < mid → bmap J f (i / 4096) ≠ 0;
  fw_map : ∀ n, 0 ≤ n < MAXBLK → mid ≤ n * 4096 → bmap J f n = bmap I f n
}.

Lemma iwp_file_write Q I f buf offset :
  let count := Z.of_nat (length buf) in
  file_ok I f → 0 ≤ size_of I f ≤ MAXFILESIZE → 0 ≤ offset → offset + count ≤ MAXFILESIZE →
  (∀ J, file_wrote I J f buf offset (offset + count) → Q count J) →
  (∀ J mid, offset ≤ mid ≤ offset + count → file_wrote I J f buf offset mid → full J →
     Q (- E_NO_DISK) J) →
  iwp (file_write f buf offset) Q I.
Proof.
  intros count Hf Hsz Ho Hmax HQ1 HQ2. apply iwp_img. intros Hi.
  assert (MAXFILESIZE < 2 ^ 31) as Hlim by done.
  destruct (member_word I f Hf 128) as [Hav Hm]; [lia|].
  apply iwp_bind, iwp_bind, iwp_load32; [done|done|]. apply iwp_ret. fold (size_of I f) count.
  rewrite (u32_small (offset + count)), (u32_small (size_of I f)), (s32_small (offset + count))
    by (unfold is_u32; lia).
  assert (∀ J, file_step I J f → size_of J f = Z.max (size_of I f) (offset + count) →
    (∀ i, 0 ≤ i < MAXFILESIZE → fdata J f i = fdata I f i) →
    (∀ n, 0 ≤ n < MAXBLK → bmap J f n = bmap I f n) →
    iwp (let* (r, _) := file_pieces (pieces count) f offset (offset + count) tt
           (λ _ addr pos bn, store_range addr bn (λ i, buf !!! Z.to_nat (pos - offset + i))) in
         if r <? 0 then ret r else ret (s32 count)) Q J) as Hloop.
  { intros J HJ Hsj Hdj Hmj. assert (∀ K mid, wrote J K f offset mid (λ i, u8 (buf !!! Z.to_nat (i - offset))) →
      file_wrote I K f buf offset mid) as Hfw.
    { intros K mid HK. split.
      - eapply step_trans; [done|apply HK].
      - by rewrite (wr_size _ _ _ _ _ _ HK).
      - intros i Hi'. rewrite (wr_data _ _ _ _ _ _ HK), Hdj by done. done.
      - apply HK.
      - intros n Hn Ht. by rewrite (wr_map _ _ _ _ _ _ HK), Hmj. }
    apply iwp_bind, iwp_write_pieces; [apply HJ|lia|done|lia|apply pieces_enough; lia| |].
    - intros K HK. change (0 <? 0) with false. cbv iota. apply iwp_ret.
      rewrite s32_small by lia. apply HQ1. auto.
    - intros K mid Hmid HK Hfull. rewrite neg_err by done. apply iwp_ret. by apply (HQ2 K mid); auto. }
  destruct (Z.ltb_spec (size_of I f) (offset + count)).
  - apply iwp_bind, iwp_set_size_grow; [done|lia|lia|]. change (0 <? 0) with false. cbv iota.
    apply Hloop; [by apply ws_step| |intros; by apply ws_fdata|].
    2: { intros n Hn. apply keep_map; [apply ws_ptr|by apply ws_slot|done]. }
    rewrite ws_size, u32_small, s32_small by (unfold is_u32; lia). lia.
  - apply iwp_bind, iwp_ret. change (0 <? 0) with false. cbv iota.
    apply Hloop; [by apply file_step_refl|lia|done|done].
Qed.

(** ** Writing back *)
Lemma iwp_flush_word Q I b : data_blk I b → Q tt I → iwp (let* a := diskaddr b in flush_block a) Q I.
Proof.
  intros Hb HQ. apply iwp_img. intros Hi. pose proof (img_first I Hi). pose proof Hb as [? _].
  apply iwp_bind, iwp_diskaddr; [lia|]. apply iwp_flush; [|done]. apply in_map_spec.
  destruct (BLK_page b) as [-> _]. lia.
Qed.

(** [file_flush] leaves the image as it is. *)
Lemma iwp_file_flush Q I f :
  file_ok I f → 0 ≤ size_of I f ≤ MAXFILESIZE → Q tt I → iwp (file_flush f) Q I.
Proof.
  intros Hf Hsz HQ. apply iwp_img. intros Hi. pose proof (img_first I Hi).
  destruct (member_word I f Hf 128) as [Hv Hm]; [lia|].
  apply iwp_bind, iwp_bind, iwp_load32; [done|done|]. apply iwp_ret. fold (size_of I f).
  apply iwp_bind, (iwp_for_up (λ _ J, J = I)); [done| |].
  - intros i J Hin ->. apply iwp_bind, iwp_walk_noalloc; [done|lia|..].
    + intros _. rewrite neg_err by done. by apply iwp_ret.
    + intros _ _. rewrite neg_err by done. by apply iwp_ret.
    + intros Hlt Hs. change (0 <? 0) with false. cbv iota.
      destruct (fslot_avail I f i Hf ltac:(lia) Hs) as [Hsv Hsm].
      apply iwp_bind, iwp_load32; [done|done|]. rewrite (fslot_word I f i Hs).
      destruct (Z.eqb_spec (bmap I f i) 0) as [|Hz]; [by apply iwp_ret|].
      apply iwp_flush_word; [|done]. apply (fk_data _ _ Hf i); [lia|done].
  - intros J ->. destruct (ind_place I f Hf) as (Hiv & Him & _).
    apply iwp_bind, iwp_flush.
    { apply in_map_spec. pose proof (fk_avail _ _ Hf) as [? _]. lia. }
    apply iwp_bind, iwp_load32; [done|done|]. fold (ind I f).
    destruct (ctrue (ind I f)) eqn:Hz; [|by apply iwp_ret]. apply ctrue_true in Hz.
    apply iwp_flush_word; [|done]. by apply (fk_ind _ _ Hf).
Qed.
