(* ===== verification/FsTrunc.v ===== *)
(** * Giving blocks back

    [file_free_block], [file_truncate_blocks] and a shrinking [file_set_size] on the
    image: which blocks become free, and what is left of the file. *)

From stdpp Require Import base gmap list strings.
From Stdlib Require Import ZArith Lia.
From S2P Require Import Prelude Mmu BlockCache BlockImage Fs FsBitmap FsFile FsRw.

Set Default Proof Using "Type".

(** ** Detaching a block *)

(** Block [b] is free again, and the pointer at [p] is cleared. *)
Record detached (I J : Z → Z) (b p : Z) : Prop := {
  dt_nblk : nblk J = nblk I;
  dt_free : ∀ b', 0 ≤ b' < nblk I → free J b' = if decide (b' = b) then true else free I b';
  dt_ptr : word_at J p = 0;
  dt_out : ∀ va, block_of va ≠ b → ¬ in_bitmap I va → ¬ (p ≤ va < p + 4) → J va = I va
}.

(** [free_block(b); sys_page_unmap(0, BLKNO2ADDR(b)); *p = 0]. *)
Lemma iwp_detach Q I b p :
  first_data I ≤ b < nblk I → avail I (block_of p) → block_of p ≠ b → p mod 4096 ≤ 4092 →
  (block_of p = 1 ∧ BLK 1 + 8 ≤ p ∨ first_data I ≤ block_of p) →
  (∀ J, detached I J b p → Q tt J) →
  iwp (do* free_block b in let* _ := bc_page_unmap (BLKNO2ADDR b) in store32 p 0) Q I.
Proof.
  intros Hb Hv Hne Hm Hp HQ. apply iwp_img. intros Hi. pose proof (img_first I Hi).
  apply iwp_bind, iwp_free_block; [done|]. intros I1 Hbits.
  assert (first_data I1 = first_data I) as Ef by (unfold first_data; by rewrite (bt_nblk _ _ _ _ Hbits)).
  rewrite BLKNO2ADDR_eq by lia. apply iwp_bind, iwp_page_unmap.
  { by rewrite Ef, (bt_nblk _ _ _ _ Hbits). }
  intros I2 Hout. assert (same_meta I1 I2) as Hs.
  { apply same_data; [intros va Hva; apply Hout; lia|]. rewrite (bt_nblk _ _ _ _ Hbits). lia. }
  assert (avail I2 (block_of p)) as Hv2.
  { apply (same_avail _ _ _ Hs). destruct Hv. split; [by rewrite (bt_nblk _ _ _ _ Hbits)|].
    rewrite (bt_free _ _ _ _ Hbits) by done. by rewrite decide_False. }
  assert (same_meta I2 (patch I2 p 4 (byte_of 0))) as Hs2.
  { apply ptr_same; rewrite ?(same_first _ _ Hs), ?Ef; (done || lia). }
  apply iwp_img. intros Hi2. apply iwp_store32; [done|done|exact (same_nblk _ _ Hs2)|exact (same_img _ _ Hs2 Hi2)|].
  pose proof (same_trans _ _ _ Hs Hs2) as Hs12. apply HQ. split.
  - by rewrite (same_nblk _ _ Hs12), (bt_nblk _ _ _ _ Hbits).
  - intros b' Hb'. rewrite (same_free _ _ b' Hs12) by (by rewrite (bt_nblk _ _ _ _ Hbits)). by apply Hbits.
  - by rewrite word_patch_same.
  - intros va H1 H2 H3. rewrite patch_out by lia. rewrite Hout by done. by apply Hbits.
Qed.

(** ** Losing blocks *)

(** [f] lost blocks, which are free again; nothing else changed. *)
Record shrunk (I J : Z → Z) (f : Z) : Prop := {
  sk_nblk : nblk J = nblk I;
  sk_ok : file_ok J f;
  sk_own : ∀ b, owned J f b → owned I f b;
  sk_free : ∀ b, 0 ≤ b < nblk I → free J b = true ↔ free I b = true ∨ owned I f b ∧ ¬ owned J f b;
  sk_data : ∀ n, 0 ≤ n < MAXBLK → bmap J f n ≠ 0 →
    bmap J f n = bmap I f n ∧ ∀ o, 0 ≤ o < 4096 → J (BLK (bmap I f n) + o) = I (BLK (bmap I f n) + o);
  sk_frame : ∀ va, ¬ in_bitmap I va → ¬ in_ptrs f va → ¬ owned I f (block_of va) → J va = I va
}.

Global Instance owned_dec I f b : Decision (owned I f b).
Proof.
  destruct (decide (b ≠ 0 ∧ (b = ind I f ∨ b ∈ bmap I f <$> seqZ 0 MAXBLK))) as [[H0 H]|H]; [left|right].
  - split; [done|]. destruct H as [|(n & -> & Hn)%list_elem_of_fmap]; [by left|right].
    exists n. rewrite elem_of_seqZ in Hn. split; [lia|done].
  - intros [H0 Ho]. apply H. split; [done|]. destruct Ho as [|(n & Hn & ->)]; [by left|right].
    apply list_elem_of_fmap. exists n. rewrite elem_of_seqZ. split; [done|lia].
Defined.

Lemma shrunk_refl I f : file_ok I f → shrunk I I f.
Proof. intros Hf. split; try done. intros b Hb. split; [by left|]. by intros [|[? ?]]. Qed.

Lemma shrunk_trans I J K f : shrunk I J f → shrunk J K f → shrunk I K f.
Proof.
  intros H1 H2. assert (first_data J = first_data I) as Ef by (unfold first_data; by rewrite (sk_nblk _ _ _ H1)).
  split.
  - by rewrite (sk_nblk _ _ _ H2), (sk_nblk _ _ _ H1).
  - apply H2.
  - intros b Hb. by apply (sk_own _ _ _ H1), (sk_own _ _ _ H2).
  - intros b Hb. rewrite (sk_free _ _ _ H2), (sk_free _ _ _ H1) by (rewrite ?(sk_nblk _ _ _ H1); done).
    pose proof (sk_own _ _ _ H1 b). pose proof (sk_own _ _ _ H2 b).
    destruct (decide (owned J f b)); tauto.
  - intros n Hn Hz. destruct (sk_data _ _ _ H2 n Hn Hz) as [E2 D2]. rewrite E2 in Hz.
    destruct (sk_data _ _ _ H1 n Hn Hz) as [E1 D1]. split; [congruence|]. intros o Ho.
    rewrite <- E1 at 1. rewrite D2, E1 by done. by apply D1.
  - intros va Hb Hp Ho. rewrite (sk_frame _ _ _ H2); [by apply (sk_frame _ _ _ H1)| |done|].
    + unfold in_bitmap. by rewrite Ef.
    + intros Ho'. by apply Ho, (sk_own _ _ _ H1).
Qed.

Lemma shrunk_size I J f : file_ok I f → shrunk I J f → size_of J f = size_of I f.
Proof.
  intros Hf Hs. unfold size_of. f_equal. apply word_ext. intros i Hi. unfold f_size, MAXNAMELEN.
  rewrite <- Z.add_assoc. destruct (member_addr I f Hf (128 + i)) as [E _]; [lia|].
  apply (sk_frame _ _ _ Hs).
  - apply (member_not_bitmap I f Hf). lia.
  - unfold in_ptrs, f_direct, MAXNAMELEN. lia.
  - rewrite E. by apply own_self.
Qed.

(** What losing block [b] means for a file whose pointers are otherwise the same. *)
Section lose.
Context (I J : Z → Z) (f b p : Z).
Hypothesis Hf : file_ok I f.
Hypothesis Hd : detached I J b p.
Hypothesis Hp : (∀ i, 0 ≤ i < 4 → in_ptrs f (p + i)) ∨
  ind I f ≠ 0 ∧ ∀ i, 0 ≤ i < 4 → block_of (p + i) = ind I f.
Hypothesis Ho : owned I f b.
Hypothesis Hmap : ∀ m, 0 ≤ m < MAXBLK →
  bmap J f m = bmap I f m ∧ bmap I f m ≠ b ∨ bmap J f m = 0 ∧ (bmap I f m = 0 ∨ bmap I f m = b).
Hypothesis Hind : ind J f = ind I f ∧ ind I f ≠ b ∨ ind J f = 0 ∧ (ind I f = 0 ∨ ind I f = b).

Lemma ls_own b' : owned J f b' ↔ owned I f b' ∧ b' ≠ b.
Proof using Hmap Hind.
  clear Hp Hd. split.
  - intros [H0 [->|(m & Hm & ->)]].
    + destruct Hind as [[E H]|[E _]]; [|done]. rewrite E in *. split; [by apply own_ind|done].
    + destruct (Hmap m Hm) as [[E H]|[E _]]; [|done]. rewrite E in *. split; [by apply own_map|done].
  - intros [[H0 [->|(m & Hm & ->)]] Hne].
    + destruct Hind as [[E H]|[_ [?|?]]]; [|done|done]. rewrite <- E in *. by apply own_ind.
    + destruct (Hmap m Hm) as [[E H]|[_ [?|?]]]; [|done|done]. rewrite <- E in *. by apply own_map.
Qed.

Lemma ls_avail b' : avail I b' → b' ≠ b → avail J b'.
Proof using Hd.
  intros [H1 H2] Hne. split; [by rewrite (dt_nblk _ _ _ _ Hd)|].
  rewrite (dt_free _ _ _ _ Hd) by done. by rewrite decide_False.
Qed.

Lemma ls_data b' : data_blk I b' → b' ≠ b → data_blk J b'.
Proof using Hd.
  intros Hb Hne. destruct (data_avail _ _ Hb) as [Hv _]. destruct (ls_avail b' Hv Hne) as [_ ?].
  destruct Hb as [? _]. split; [|done]. unfold first_data in *. by rewrite (dt_nblk _ _ _ _ Hd).
Qed.

Lemma ls_ok : file_ok J f.
Proof using Hf Hd Ho Hmap Hind.
  clear Hp. assert (first_data J = first_data I) as Ef by (unfold first_data; by rewrite (dt_nblk _ _ _ _ Hd)).
  assert (block_of f ≠ b) as Hfb by (intros E; rewrite <- E in Ho; by destruct (own_self I f Hf)).
  split; rewrite ?Ef.
  - apply Hf.
  - apply ls_avail; [apply Hf|done].
  - apply Hf.
  - intros n Hn Hz. destruct (Hmap n Hn) as [[E H]|[? _]]; [|done]. rewrite E in *.
    destruct (fk_data _ _ Hf n Hn Hz) as (H1 & H2 & H3). split; [by apply ls_data|]. split; [done|].
    destruct Hind as [[-> _]|[-> _]]; done.
  - intros Hz. destruct Hind as [[E H]|[? _]]; [|done]. rewrite E in *.
    destruct (fk_ind _ _ Hf Hz). split; [by apply ls_data|done].
  - intros n m Hn Hm E Hz. destruct (Hmap n Hn) as [[En _]|[? _]]; [|done].
    destruct (Hmap m Hm) as [[Em _]|[? _]]; [|congruence].
    apply (fk_inj _ _ Hf); [done|done|congruence|congruence].
Qed.

Lemma ls_shrunk : shrunk I J f.
Proof using Hf Hd Hp Ho Hmap Hind.
  split.
  - apply Hd.
  - apply ls_ok.
  - intros b' H. by apply ls_own.
  - intros b' Hb'. rewrite (dt_free _ _ _ _ Hd), ls_own by done. case_decide as E; [|tauto].
    subst b'. split; [|done]. intros _. right. tauto.
  - intros n Hn Hz. destruct (Hmap n Hn) as [[E H]|[? _]]; [|done]. split; [done|]. intros o Hoo.
    rewrite E in Hz. destruct (fk_data _ _ Hf n Hn Hz) as (Hdb & _). destruct (data_avail _ _ Hdb) as [_ Hbm].
    assert (block_of (BLK (bmap I f n) + o) = bmap I f n) as Eb by (by apply block_of_BLK).
    apply (dt_out _ _ _ _ Hd); [congruence|by apply Hbm|]. by eapply (att_ptr_block I f p Hf Hp).
  - intros va Hbm Hptr Hno. apply (dt_out _ _ _ _ Hd); [|done|].
    + intros E. by rewrite E in Hno.
    + intros Hva. destruct Hp as [H|[H0 H]]; specialize (H (va - p) ltac:(lia));
        replace (p + (va - p)) with va in H by lia; [done|]. apply Hno. rewrite H. by apply own_ind.
Qed.
End lose.

(** A word of the descriptor or of the indirect block. *)
Lemma dt_word I J b p a : detached I J b p → block_of a ≠ b → a mod 4096 ≤ 4092 → ¬ in_bitmap I a →
  a + 4 ≤ p ∨ p + 4 ≤ a → word_at J a = word_at I a.
Proof.
  intros Hd Hne Hm Hb Hp. apply word_ext. intros i Hi. destruct (block_near a i) as [E _]; [lia|lia|].
  apply (dt_out _ _ _ _ Hd); [by rewrite E|unfold in_bitmap; by rewrite E|lia].
Qed.

Lemma dt_member I J f b p k : file_ok I f → owned I f b → detached I J b p → 0 ≤ k ≤ 252 →
  f + k + 4 ≤ p ∨ p + 4 ≤ f + k → word_at J (f + k) = word_at I (f + k).
Proof.
  intros Hf Ho Hd Hk Hp. destruct (member_word I f Hf k Hk) as [_ Hm].
  destruct (member_addr I f Hf k) as [E _]; [lia|]. apply (dt_word I J b p); try done.
  - rewrite E. intros E'. rewrite <- E' in Ho. by destruct (own_self I f Hf).
  - apply (member_not_bitmap I f Hf). lia.
Qed.

Lemma lose_block I J f n :
  file_ok I f → 0 ≤ n < MAXBLK → n < 10 ∨ ind I f ≠ 0 → bmap I f n ≠ 0 →
  detached I J (bmap I f n) (fslot I f n) →
  shrunk I J f ∧ ind J f = ind I f ∧ ∀ m, 0 ≤ m < MAXBLK → bmap J f m = if decide (m = n) then 0 else bmap I f m.
Proof.
  intros Hf Hn Hs Hz Hd. pose proof (own_map I f n Hn Hz) as Ho.
  destruct (fk_data _ _ Hf n Hn Hz) as (_ & _ & Hni).
  destruct (fslot_set I f n Hf Hn Hs J 0) as [Ei Hmap].
  - intros k Hk Hap. by eapply dt_member.
  - intros a H0 E Hm Hap. destruct (fk_ind _ _ Hf H0) as [Hdb _]. destruct (data_avail _ _ Hdb) as [_ Hbm].
    eapply dt_word; [done| |done|by apply Hbm|done]. by rewrite E.
  - apply Hd.
  - split; [|done]. apply (ls_shrunk I J f (bmap I f n) (fslot I f n)); try done.
    + by apply fslot_owner.
    + intros m Hm. rewrite Hmap by done. case_decide as E; [subst m; right; split; [done|by right]|].
      left. split; [done|]. intros E'. apply E. apply (fk_inj _ _ Hf); [done|done|done|by rewrite E'].
    + left. done.
Qed.

Lemma lose_ind I J f :
  file_ok I f → ind I f ≠ 0 → (∀ m, 10 ≤ m < MAXBLK → bmap I f m = 0) → detached I J (ind I f) (f_indirect f) →
  shrunk I J f ∧ ind J f = 0 ∧ ∀ m, 0 ≤ m < MAXBLK → bmap J f m = bmap I f m.
Proof.
  intros Hf Hz Htop Hd. pose proof (own_ind I f Hz) as Ho.
  assert (ind J f = 0) as Ei by apply Hd.
  assert (∀ m, 0 ≤ m < MAXBLK → bmap J f m = bmap I f m) as Hmap.
  { intros m Hm. destruct (Z.lt_ge_cases m 10).
    - unfold bmap. rewrite (proj2 (Z.ltb_lt m 10)) by done. unfold f_direct, MAXNAMELEN.
      rewrite <- !Z.add_assoc. eapply dt_member; [done|done|done|lia|].
      unfold f_indirect, MAXNAMELEN, NDIRECT. lia.
    - rewrite Htop by lia. unfold bmap. rewrite (proj2 (Z.ltb_ge m 10)) by done. by rewrite Ei. }
  split; [|done]. apply (ls_shrunk I J f (ind I f) (f_indirect f)); try done.
  - left. intros i Hi. unfold in_ptrs, f_direct, f_indirect, MAXNAMELEN, NDIRECT. lia.
  - intros m Hm. rewrite Hmap by done. destruct (decide (bmap I f m = 0)) as [->|Hnz]; [right; auto|].
    left. split; [done|]. by apply (fk_data _ _ Hf m).
  - right. auto.
Qed.

(** ** The code *)
Lemma iwp_file_free_block Q I f n :
  file_ok I f → 0 ≤ n < MAXBLK →
  (∀ r J, shrunk I J f → ind J f = ind I f →
     (∀ m, 0 ≤ m < MAXBLK → bmap J f m = if decide (m = n) then 0 else bmap I f m) → Q r J) →
  iwp (file_free_block f n) Q I.
Proof.
  intros Hf Hn HQ. assert (bmap I f n = 0 → ∀ r, Q r I) as Hsame.
  { intros Hz r. apply HQ; [by apply shrunk_refl|done|]. intros m _. case_decide; [by subst m|done]. }
  apply iwp_img. intros Hi. pose proof (img_first I Hi). apply iwp_bind, iwp_walk_noalloc; [done|lia|..].
  - lia.
  - intros Hge H0. rewrite neg_err by done. apply iwp_ret, Hsame. unfold bmap.
    rewrite (proj2 (Z.ltb_ge n 10)) by lia. by rewrite H0.
  - intros _ Hs. change (0 <? 0) with false. cbv iota.
    destruct (fslot_avail I f n Hf Hn Hs) as [Hv Hm].
    apply iwp_bind, iwp_load32; [done|done|]. rewrite (fslot_word I f n Hs).
    destruct (ctrue (bmap I f n)) eqn:Hc.
    + apply ctrue_true in Hc. destruct (fk_data _ _ Hf n Hn Hc) as (Hdb & Hnf & Hni).
      apply iwp_bind, iwp_detach; [apply Hdb|done| |done|by apply fslot_place|].
      * unfold fslot. destruct (Z.ltb_spec n 10).
        -- unfold f_direct, MAXNAMELEN. rewrite <- !Z.add_assoc.
           destruct (member_addr I f Hf (128 + (8 + 4 * n))) as [-> _]; [lia|done].
        -- destruct Hs as [|Hz0]; [lia|]. destruct (slot_word I f Hf n ltac:(lia) Hz0) as (-> & _). done.
      * intros J HJ. apply iwp_ret. destruct (lose_block I J f n) as (H1 & H2 & H3); try done. by apply HQ.
    + apply ctrue_false in Hc. apply iwp_bind, iwp_ret, iwp_ret. by apply Hsame.
Qed.

(** What is left of a file that keeps its first [k] blocks. *)
Record cut (I J : Z → Z) (f k : Z) : Prop := {
  ct_shrunk : shrunk I J f;
  ct_kept : ∀ m, 0 ≤ m < MAXBLK → m < k → bmap J f m = bmap I f m;
  ct_gone : ∀ m, 0 ≤ m < MAXBLK → k ≤ m → bmap J f m = 0;
  ct_ind : ind J f = if decide (k ≤ 10) then 0 else ind I f
}.

Lemma nblocks_of_eq size : 0 ≤ size ≤ MAXFILESIZE → nblocks_of size = (size + 4095) / 4096 ∧ is_u32 (nblocks_of size).
Proof.
  intros H. unfold nblocks_of. change BLKSIZE with 4096. unfold MAXFILESIZE, MAXBLK in H.
  rewrite s32_small, Z.quot_div_nonneg by lia. replace (size + 4096 - 1) with (size + 4095) by lia.
  split; [done|]. unfold is_u32. split; dlia.
Qed.

Lemma iwp_truncate Q I f newsize :
  file_ok I f → 0 ≤ size_of I f ≤ MAXFILESIZE → no_tail I f → 0 ≤ newsize ≤ size_of I f →
  (∀ J, cut I J f ((newsize + 4095) / 4096) → Q tt J) → iwp (file_truncate_blocks f newsize) Q I.
Proof.
  intros Hf Hsz Ht Hnew HQ. destruct (nblocks_of_eq (size_of I f) Hsz) as [E1 U1].
  destruct (nblocks_of_eq newsize ltac:(lia)) as [E2 U2].
  destruct (member_word I f Hf 128) as [Hv Hm]; [lia|].
  apply iwp_bind, iwp_bind, iwp_load32; [done|done|]. apply iwp_ret. fold (size_of I f).
  rewrite !u32_small by done. rewrite E1, E2. clear U1 U2 E1 E2.
  set (old := (size_of I f + 4095) / 4096). set (new := (newsize + 4095) / 4096) in *.
  assert (0 ≤ new ≤ old ∧ old ≤ MAXBLK) as Hno by (unfold MAXFILESIZE, MAXBLK, old, new in *; dlia).
  apply iwp_bind, (iwp_for_up (λ i J, shrunk I J f ∧ ind J f = ind I f ∧ ∀ m, 0 ≤ m < MAXBLK →
    bmap J f m = if decide (new ≤ m < i) then 0 else bmap I f m)).
  { split; [by apply shrunk_refl|]. split; [done|]. intros m _. by rewrite decide_False by lia. }
  { intros i J Hin (Hs & Hind & Hmap). apply iwp_bind, iwp_file_free_block; [apply Hs|lia|].
    intros r K HK Hk Hmk. apply iwp_ret. split; [by eapply shrunk_trans|]. split; [congruence|].
    intros m Hm'. rewrite Hmk, Hmap by done. repeat case_decide; try done; lia. }
  rewrite Z2Nat.id by lia. replace (new + (old - new)) with old by lia. intros J (Hs & Hind & Hmap).
  assert (∀ m, 0 ≤ m < MAXBLK → new ≤ m → bmap J f m = 0) as Hgone.
  { intros m Hm' Hge. rewrite Hmap by done. case_decide as Hx; [done|]. apply Ht; [done|].
    unfold old in *. dlia. }
  assert (∀ m, 0 ≤ m < MAXBLK → m < new → bmap J f m = bmap I f m) as Hkept.
  { intros m Hm' Hlt. rewrite Hmap by done. by rewrite decide_False by lia. }
  change NDIRECT with 10. destruct (Z.leb_spec new 10) as [Hle|Hgt]; cbn [negb].
  2: { apply iwp_ret, HQ. split; [done..|]. by rewrite decide_False by lia. }
  pose proof (sk_ok _ _ _ Hs) as HfJ. destruct (ind_place J f HfJ) as (Hiv & Him & Hip).
  apply iwp_bind, iwp_load32; [done|done|]. fold (ind J f).
  destruct (ctrue (ind J f)) eqn:Hz; cbn [negb].
  - apply ctrue_true in Hz. destruct (fk_ind _ _ HfJ Hz) as [Hdb Hne].
    apply iwp_detach; [apply Hdb|done| |done|done|].
    + unfold f_indirect, MAXNAMELEN, NDIRECT. rewrite <- !Z.add_assoc.
      destruct (member_addr J f HfJ (128 + (8 + 4 * 10))) as [-> _]; [lia|done].
    + intros K HK. destruct (lose_ind J K f) as (H1 & H2 & H3); try done; [intros; apply Hgone; lia|].
      apply HQ. split; [by eapply shrunk_trans|..].
      * intros m Hm' Hlt. rewrite H3 by done. by apply Hkept.
      * intros m Hm' Hge. rewrite H3 by done. by apply Hgone.
      * by rewrite decide_True.
  - apply ctrue_false in Hz. apply iwp_ret, HQ. split; [done..|]. by rewrite decide_True.
Qed.

(** ** Setting the size *)
Record resized (I J : Z → Z) (f v : Z) : Prop := {
  rz_nblk : nblk J = nblk I;
  rz_ok : file_ok J f;
  rz_size : size_of J f = v;
  rz_own : ∀ b, owned J f b → owned I f b;
  rz_free : ∀ b, 0 ≤ b < nblk I → free J b = true ↔ free I b = true ∨ owned I f b ∧ ¬ owned J f b;
  rz_frame : ∀ va, ¬ in_bitmap I va → ¬ in_desc f va → ¬ owned I f (block_of va) → J va = I va;
  rz_data : ∀ i, 0 ≤ i < v → i < size_of I f → fdata J f i = fdata I f i;
  rz_tail : no_tail J f
}.

(** Storing the size after the blocks are given back. *)
Section set_size.
Context (I K : Z → Z) (f v : Z).
Hypothesis Hf : file_ok I f.
Hypothesis HiK : img_ok K.
Hypothesis Hs : shrunk I K f.
Hypothesis Hv : 0 ≤ v ≤ MAXFILESIZE.
Hypothesis Hsz : size_of I f ≤ MAXFILESIZE.
Hypothesis Hkept : ∀ m, 0 ≤ m < MAXBLK → m * 4096 < Z.min v (size_of I f) → bmap K f m = bmap I f m.
Hypothesis Hgone : ∀ m, 0 ≤ m < MAXBLK → v ≤ m * 4096 → bmap K f m = 0.

Lemma zs_own b : owned (size_img K f v) f b ↔ owned K f b.
Proof using Hs.
  pose proof (sk_ok _ _ _ Hs) as HfK. unfold owned. rewrite (keep_ind K) by apply ws_ptr.
  assert (∀ n, 0 ≤ n < MAXBLK → bmap (size_img K f v) f n = bmap K f n) as Hm.
  { intros n Hn. apply keep_map; [apply ws_ptr|by apply ws_slot|done]. }
  split; intros [H0 [H|(n & Hn & H)]]; (split; [done|]); [by left|right|by left|right];
    exists n; (split; [done|]); rewrite H; [by apply Hm|by rewrite Hm].
Qed.

Lemma zs_resized : resized I (size_img K f v) f v.
Proof using Hf HiK Hs Hv Hsz Hkept Hgone.
  pose proof (sk_ok _ _ _ Hs) as HfK. pose proof (ws_same K f v HfK HiK) as Hsm. split.
  - by rewrite (same_nblk _ _ Hsm), (sk_nblk _ _ _ Hs).
  - apply (st_ok K), ws_step; done.
  - unfold MAXFILESIZE, MAXBLK in Hv. rewrite ws_size, u32_small, s32_small by (unfold is_u32; lia). done.
  - intros b Hb%zs_own. by apply (sk_own _ _ _ Hs).
  - intros b Hb. rewrite zs_own, (same_free _ _ b Hsm), (sk_free _ _ _ Hs) by (rewrite ?(sk_nblk _ _ _ Hs); done).
    done.
  - intros va Hb Hd Ho. rewrite ws_out; [|intros ?; apply Hd; by left].
    apply (sk_frame _ _ _ Hs); [done| |done]. intros ?. apply Hd. by right.
  - intros i Hi Hlt. rewrite ws_fdata by (done || lia). unfold fdata.
    assert (0 ≤ i / 4096 < MAXBLK) as Hn by (unfold MAXFILESIZE in *; dlia).
    rewrite <- Hkept by (done || dlia). destruct (Z.eqb_spec (bmap K f (i / 4096)) 0) as [|Hz]; [done|].
    destruct (sk_data _ _ _ Hs _ Hn Hz) as [E D]. rewrite E. apply D. dlia.
  - intros n Hn. unfold MAXFILESIZE, MAXBLK in Hv.
    rewrite ws_size, u32_small, s32_small by (unfold is_u32; lia). intros Ht.
    rewrite (keep_map K (size_img K f v) f) by (apply ws_ptr || by apply ws_slot || done). by apply Hgone.
Qed.
End set_size.

Lemma iwp_file_set_size Q I f v :
  file_ok I f → 0 ≤ size_of I f ≤ MAXFILESIZE → no_tail I f → 0 ≤ v ≤ MAXFILESIZE →
  (∀ J, resized I J f v → Q 0 J) → iwp (file_set_size f v) Q I.
Proof.
  intros Hf Hsz Ht Hv HQ. assert (MAXFILESIZE < 2 ^ 31) as Hlim by done.
  apply iwp_img. intros Hi. pose proof (img_first I Hi). destruct (Z.lt_ge_cases v (size_of I f)) as [Hlt|Hge].
  - destruct (member_word I f Hf 128) as [Hav Hm]; [lia|].
    apply iwp_bind, iwp_bind, iwp_load32; [done|done|]. apply iwp_ret. fold (size_of I f).
    rewrite (proj2 (Z.ltb_lt v (size_of I f))) by lia.
    apply iwp_bind, iwp_truncate; [done|done|done|lia|]. intros K Hc. pose proof (ct_shrunk _ _ _ _ Hc) as Hs.
    apply iwp_img. intros HiK. pose proof (sk_ok _ _ _ Hs) as HfK. pose proof (ws_same K f v HfK HiK) as Hsm.
    destruct (member_word K f HfK 128) as [HavK HmK]; [lia|].
    apply iwp_bind. unfold put_size. rewrite u32_small by (unfold is_u32; lia).
    apply iwp_store32; [done|done|exact (same_nblk _ _ Hsm)|exact (same_img _ _ Hsm HiK)|].
    apply iwp_bind, iwp_flush.
    { apply in_map_spec. pose proof (fk_avail _ _ Hf) as [? _]. lia. }
    apply iwp_ret, HQ, zs_resized; try done; [lia|..].
    + intros m Hm' Hlt'. apply (ct_kept _ _ _ _ Hc); [done|]. dlia.
    + intros m Hm' Hge'. apply (ct_gone _ _ _ _ Hc); [done|]. dlia.
  - apply iwp_set_size_grow; [done|lia|lia|]. apply HQ, zs_resized; try done; [by apply shrunk_refl|lia|].
    intros m Hm Hge'. apply Ht; [done|lia].
Qed.
