(* ===== verification/FsDir.v ===== *)
(** * Directories and paths

    A directory is a file whose blocks hold descriptors.  [lookup_name] and [follow]
    say what [dir_lookup] and [walk_path] have to find, as functions of the image of
    the disk. *)

From stdpp Require Import base gmap list strings.
From Stdlib Require Import ZArith Lia.
From S2P Require Import Prelude Mmu BlockCache BlockImage Fs FsBitmap FsFile FsRw.

Set Default Proof Using "Type".

(** ** Searches *)
Fixpoint first {A} (n : nat) (lo : Z) (t : Z → option A) : option A :=
  match n with
  | O => None
  | S n' => match t lo with Some a => Some a | None => first n' (lo + 1) t end
  end.

Lemma first_Some {A} (t : Z → option A) a : ∀ (n : nat) lo,
  first n lo t = Some a ↔
  ∃ i, lo ≤ i < lo + Z.of_nat n ∧ t i = Some a ∧ ∀ j, lo ≤ j < i → t j = None.
Proof.
  induction n as [|n IH]; intros lo; cbn [first].
  - split; [done|]. intros (i & ? & _). lia.
  - destruct (t lo) as [b|] eqn:E.
    + split.
      * intros [= ->]. exists lo. split; [lia|]. split; [done|lia].
      * intros (i & Hi & Ht & Hlt). destruct (decide (i = lo)) as [->|]; [congruence|].
        specialize (Hlt lo ltac:(lia)). congruence.
    + rewrite IH. split; intros (i & Hi & Ht & Hlt).
      * exists i. split; [lia|]. split; [done|]. intros j Hj.
        destruct (decide (j = lo)) as [->|]; [done|]. apply Hlt. lia.
      * assert (i ≠ lo) by congruence. exists i. split; [lia|]. split; [done|]. intros j Hj. apply Hlt. lia.
Qed.

Lemma first_None {A} (t : Z → option A) : ∀ (n : nat) lo,
  first n lo t = None ↔ ∀ i, lo ≤ i < lo + Z.of_nat n → t i = None.
Proof.
  induction n as [|n IH]; intros lo; cbn [first].
  - split; [lia|done].
  - destruct (t lo) as [b|] eqn:E.
    + split; [done|]. intros H. rewrite H in E by lia. done.
    + rewrite IH. split; intros H i Hi.
      * destruct (decide (i = lo)) as [->|]; [done|]. apply H. lia.
      * apply H. lia.
Qed.

Lemma first_ext {A} (t t' : Z → option A) (n : nat) lo :
  (∀ i, lo ≤ i < lo + Z.of_nat n → t i = t' i) → first n lo t = first n lo t'.
Proof.
  revert lo. induction n as [|n IH]; intros lo H; cbn [first]; [done|].
  rewrite (H lo) by lia. destruct (t' lo); [done|]. apply IH. intros i Hi. apply H. lia.
Qed.

Lemma iwp_search_first {A} (t : Z → option A) (body : Z → M fsst (option A)) Q I (n : nat) lo :
  (∀ i Q', lo ≤ i < lo + Z.of_nat n → Q' (t i) I → iwp (body i) Q' I) →
  Q (first n lo t) I → iwp (search n lo body) Q I.
Proof.
  intros Hb HQ. apply (iwp_search t); [done| |].
  - intros H. by rewrite (proj2 (first_None t n lo) H) in HQ.
  - intros i a Hi Ht Hlt. assert (first n lo t = Some a) as E by (apply first_Some; by exists i).
    by rewrite E in HQ.
Qed.

(** ** Names *)
Fixpoint name_eqb (I : Z → Z) (va : Z) (name : list Z) : bool :=
  match name with
  | [] => I va =? 0
  | c :: rest => (I va =? c) && name_eqb I (va + 1) rest
  end.

(** A name that fits in a descriptor. *)
Definition name_ok (name : list Z) : Prop :=
  Forall (λ c, 0 < c < 256) name ∧ Z.of_nat (length name) < 128.

Lemma iwp_strcmp_eq I : ∀ (name : list Z) va Q,
  avail I (block_of va) → va mod 4096 + Z.of_nat (length name) < 4096 → Forall (λ c, 0 < c < 256) name →
  Q (name_eqb I va name) I → iwp (strcmp_eq va name) Q I.
Proof.
  induction name as [|c name IH]; intros va Q Hv Hm Hn HQ; cbn [strcmp_eq name_eqb length] in *.
  - apply iwp_bind, iwp_load8; [done|]. by apply iwp_ret.
  - apply iwp_bind, iwp_load8; [done|]. inversion_clear Hn as [|? ? Hc Hn'].
    destruct (Z.eqb_spec (I va) c) as [E|E]; cbn [andb] in *.
    + assert (ctrue (I va) = true) as -> by (apply ctrue_true; lia). cbn [andb].
      destruct (block_near va 1) as [E1 E2]; [lia|lia|].
      apply IH; [by rewrite E1|rewrite E2; lia|done|done].
    + rewrite andb_false_r. by apply iwp_ret.
Qed.

Lemma name_eqb_spec I : ∀ name va,
  name_eqb I va name = true ↔
  (∀ k, (k < length name)%nat → name !! k = Some (I (va + Z.of_nat k))) ∧
  I (va + Z.of_nat (length name)) = 0.
Proof.
  induction name as [|c name IH]; intros va; cbn [name_eqb length].
  - rewrite Z.add_0_r, Z.eqb_eq. split; [intros H; split; [lia|done]|by intros [_ H]].
  - rewrite andb_true_iff, Z.eqb_eq, IH. split.
    + intros (<- & H1 & H2). split; [|by replace (va + Z.of_nat (S (length name))) with
        (va + 1 + Z.of_nat (length name)) by lia].
      intros [|k] Hk; [by rewrite Z.add_0_r|]. change ((I va :: name) !! S k) with (name !! k).
      rewrite H1 by lia. do 2 f_equal. lia.
    + intros [H1 H2]. split; [|split].
      * specialize (H1 0%nat ltac:(lia)). cbn in H1. rewrite Z.add_0_r in H1. congruence.
      * intros k Hk. specialize (H1 (S k) ltac:(lia)). change ((c :: name) !! S k) with (name !! k) in H1.
        rewrite H1. do 2 f_equal. lia.
      * rewrite <- H2. f_equal. lia.
Qed.

Lemma name_eqb_ext I J name va va' :
  (∀ k, 0 ≤ k ≤ Z.of_nat (length name) → I (va + k) = J (va' + k)) →
  name_eqb I va name = name_eqb J va' name.
Proof.
  revert va va'. induction name as [|c name IH]; intros va va' H; cbn [name_eqb].
  - specialize (H 0 ltac:(cbn; lia)). by rewrite !Z.add_0_r in H; rewrite H.
  - pose proof (H 0 ltac:(cbn; lia)) as E. rewrite !Z.add_0_r in E. rewrite E. f_equal.
    apply IH. intros k Hk. replace (va + 1 + k) with (va + (1 + k)) by lia.
    replace (va' + 1 + k) with (va' + (1 + k)) by lia. apply H. cbn [length]. lia.
Qed.

(** ** Directories *)
Definition slot (I : Z → Z) (d i j : Z) : Z := BLK (bmap I d i) + 256 * j.
Definition dblocks (I : Z → Z) (d : Z) : Z := size_of I d / 4096.

Record dir_ok (I : Z → Z) (d : Z) : Prop := {
  dk_file : file_ok I d;
  dk_size : 0 ≤ size_of I d ≤ MAXFILESIZE;
  dk_mult : size_of I d mod 4096 = 0;
  dk_here : ∀ i, 0 ≤ i < dblocks I d → bmap I d i ≠ 0;
  dk_end : ∀ i, dblocks I d ≤ i < MAXBLK → bmap I d i = 0;
  dk_empty : ∀ i j, 0 ≤ i < dblocks I d → 0 ≤ j < 16 → I (slot I d i j) = 0 →
    ∀ k, 0 ≤ k < 256 → I (slot I d i j + k) = 0
}.

(** The first descriptor of the directory that passes a test. *)
Definition find_slot (I : Z → Z) (d : Z) (test : Z → bool) : option Z :=
  first (Z.to_nat (dblocks I d)) 0 (λ i,
    first 16 0 (λ j, if test (slot I d i j) then Some (slot I d i j) else None)).

Definition lookup_name (I : Z → Z) (d : Z) (name : list Z) : option Z :=
  find_slot I d (λ fp, name_eqb I fp name).

(** No name occurs twice. *)
Definition names_unique (I : Z → Z) (d : Z) : Prop := ∀ n i j i' j', name_ok n → n ≠ [] →
  0 ≤ i < dblocks I d → 0 ≤ j < 16 → 0 ≤ i' < dblocks I d → 0 ≤ j' < 16 →
  name_eqb I (slot I d i j) n = true → name_eqb I (slot I d i' j') n = true → slot I d i j = slot I d i' j'.

Section dir.
Context (I : Z → Z) (d : Z).
Hypothesis Hd : dir_ok I d.

Lemma slot_place i j : 0 ≤ i < dblocks I d → 0 ≤ j < 16 →
  block_of (slot I d i j) = bmap I d i ∧ slot I d i j mod 4096 = 256 * j ∧ data_blk I (bmap I d i).
Proof using Hd.
  intros Hi Hj. unfold slot. rewrite block_of_BLK, BLK_mod by lia. split; [done|]. split; [done|].
  apply (fk_data _ _ (dk_file _ _ Hd)); [|by apply Hd]. pose proof (dk_size _ _ Hd).
  unfold dblocks, MAXFILESIZE in *. dlia.
Qed.

Lemma find_slot_Some test fp : find_slot I d test = Some fp →
  ∃ i j, 0 ≤ i < dblocks I d ∧ 0 ≤ j < 16 ∧ fp = slot I d i j ∧ test fp = true.
Proof using Type.
  intros H. apply first_Some in H as (i & Hi & H & _). apply first_Some in H as (j & Hj & H & _).
  destruct (test (slot I d i j)) eqn:E; [|done]. injection H as <-. exists i, j.
  destruct (Z.lt_ge_cases 0 (dblocks I d)); [|lia]. repeat split; (done || lia).
Qed.

Lemma find_slot_None test : find_slot I d test = None →
  ∀ i j, 0 ≤ i < dblocks I d → 0 ≤ j < 16 → test (slot I d i j) = false.
Proof using Type.
  intros H i j Hi Hj. assert (first 16 0 (λ j, if test (slot I d i j) then Some (slot I d i j) else None) = None)
    as E by (apply (proj1 (first_None _ _ _) H); lia).
  apply (proj1 (first_None _ _ _)) with (i := j) in E; [|lia]. by destruct (test (slot I d i j)).
Qed.

Lemma iwp_get_size Q : Q (size_of I d) I → iwp (get_size d) Q I.
Proof using Hd.
  intros HQ. destruct (member_word I d (dk_file _ _ Hd) 128) as [Hv Hm]; [lia|].
  apply iwp_bind, iwp_load32; [done|done|]. by apply iwp_ret.
Qed.

Lemma iwp_search_dir Q test (testM : Z → M fsst bool) :
  (∀ i j Q', 0 ≤ i < dblocks I d → 0 ≤ j < 16 → Q' (test (slot I d i j)) I →
     iwp (testM (slot I d i j)) Q' I) →
  Q (inr <$> find_slot I d test) I →
  iwp (search_dir d (dblocks I d) testM) Q I.
Proof using Hd.
  intros Ht HQ. assert (0 ≤ dblocks I d ≤ MAXBLK) as Hn.
  { pose proof (dk_size _ _ Hd). unfold dblocks, MAXFILESIZE in *. dlia. }
  apply (iwp_search_first (λ i, inr <$> first 16 0 (λ j,
    if test (slot I d i j) then Some (slot I d i j) else None))).
  - intros i Q' Hi HQ'. rewrite Z2Nat.id in Hi by lia.
    apply iwp_bind, iwp_file_get_block; [apply Hd|lia|intros; exfalso; lia| |].
    { intros J _ Hz. by destruct (dk_here _ _ Hd i). }
    intros J _ _ _ Hsame _. rewrite (Hsame (dk_here _ _ Hd i Hi)). change (0 <? 0) with false. cbv iota.
    unfold search_slots. change (Z.to_nat BLKFILES) with 16%nat. change sizeof_File with 256.
    apply iwp_bind, (iwp_search_first (λ j, if test (slot I d i j) then Some (slot I d i j) else None)).
    + intros j Q'' Hj HQ''. apply iwp_bind, Ht; [done|lia|]. by apply iwp_ret.
    + by apply iwp_ret.
  - unfold find_slot in HQ. set (t := λ i, first 16 0 _) in HQ.
    assert (∀ (n : nat) lo, first n lo (λ i, inr <$> t i) = (inr <$> first n lo t : option (Z + Z))) as E.
    { induction n as [|n IH]; intros lo; cbn [first]; [done|]. destruct (t lo); [done|]. apply IH. }
    by rewrite E.
Qed.

(** The guard and the block count at the head of both directory functions. *)
Lemma dir_head : (Z.rem (size_of I d) BLKSIZE =? 0) = true ∧ u32 (Z.quot (size_of I d) BLKSIZE) = dblocks I d.
Proof using Hd.
  pose proof (dk_size _ _ Hd) as Hs. change BLKSIZE with 4096.
  rewrite Z.rem_mod_nonneg, Z.quot_div_nonneg, (dk_mult _ _ Hd) by lia. split; [done|].
  apply u32_small. unfold is_u32, MAXFILESIZE, MAXBLK, dblocks in *. dlia.
Qed.

Lemma iwp_dir_lookup Q name :
  name_ok name →
  Q (match lookup_name I d name with Some fp => (0, fp) | None => (- E_NOT_FOUND, 0) end) I →
  iwp (dir_lookup d name) Q I.
Proof using Hd.
  intros [Hn Hl] HQ. destruct dir_head as [E1 E2].
  apply iwp_bind, iwp_get_size, iwp_bind, iwp_massert; [done|]. rewrite E2.
  apply iwp_bind, (iwp_search_dir _ (λ fp, name_eqb I fp name)).
  - intros i j Q' Hi Hj HQ'. destruct (slot_place i j Hi Hj) as (Eb & Em & Hdb).
    apply iwp_strcmp_eq; unfold f_name; try done; rewrite ?Eb, ?Em; [by apply data_avail|lia].
  - fold (lookup_name I d name). destruct (lookup_name I d name); by apply iwp_ret.
Qed.
End dir.

(** ** Paths *)

(** The parts of a path between slashes, and those that are not empty. *)
Fixpoint split_path (p : list Z) : list (list Z) :=
  match p with
  | [] => [[]]
  | c :: p' =>
      if c =? SLASH then [] :: split_path p'
      else match split_path p' with w :: ws => (c :: w) :: ws | [] => [[c]] end
  end.
Definition elems (p : list Z) : list (list Z) := filter (λ w, w ≠ []) (split_path p).

Lemma elems_skip p : elems (skip_slash p) = elems p.
Proof.
  induction p as [|c p IH]; [done|]. cbn [skip_slash]. destruct (Z.eqb_spec c SLASH) as [E|E]; [|done].
  rewrite IH. unfold elems. cbn [split_path]. by rewrite (proj2 (Z.eqb_eq _ _) E).
Qed.

Lemma split_elem p : split_path p =
  (path_elem p).1 :: match (path_elem p).2 with [] => [] | _ :: r => split_path r end.
Proof.
  induction p as [|c p IH]; [done|]. cbn [split_path path_elem].
  destruct (Z.eqb_spec c SLASH) as [E|E]; [done|]. by rewrite IH.
Qed.

Lemma path_elem_rest p : (path_elem p).2 = [] ∨ ∃ r, (path_elem p).2 = SLASH :: r.
Proof.
  induction p as [|c p IH]; [by left|]. cbn [path_elem].
  destruct (Z.eqb_spec c SLASH) as [->|E]; [right; by exists p|done].
Qed.

Lemma path_elem_app p : p = (path_elem p).1 ++ (path_elem p).2.
Proof.
  induction p as [|c p IH]; [done|]. cbn [path_elem].
  destruct (Z.eqb_spec c SLASH) as [E|E]; [done|]. cbn. by rewrite <- IH.
Qed.

Lemma skip_slash_head p : head (skip_slash p) ≠ Some SLASH.
Proof.
  induction p as [|c p IH]; [done|]. cbn [skip_slash].
  destruct (Z.eqb_spec c SLASH) as [E|E]; [done|]. cbn. congruence.
Qed.

Lemma skip_slash_length p : (length (skip_slash p) ≤ length p)%nat.
Proof. induction p as [|c p IH]; cbn; [done|]. destruct (c =? SLASH); cbn; lia. Qed.

Lemma skip_slash_Forall P p : Forall P p → Forall P (skip_slash p).
Proof. induction 1 as [|c p Hc Hp IH]; [done|]. cbn. destruct (c =? SLASH); [done|by constructor]. Qed.

(** The first element of a path that does not start with a slash. *)
Lemma elems_step p : p ≠ [] → head p ≠ Some SLASH →
  (path_elem p).1 ≠ [] ∧ elems p = (path_elem p).1 :: elems (skip_slash (path_elem p).2) ∧
  (length (skip_slash (path_elem p).2) < length p)%nat.
Proof.
  intros Hp Hh. assert ((path_elem p).1 ≠ []) as Hn.
  { destruct p as [|c p]; [done|]. cbn. destruct (Z.eqb_spec c SLASH) as [->|]; [done|done]. }
  split; [done|]. split.
  - rewrite elems_skip. unfold elems at 1. rewrite split_elem, filter_cons_True by done. f_equal.
    destruct (path_elem_rest p) as [->|[r ->]]; [done|]. unfold elems. cbn [split_path].
    by rewrite Z.eqb_refl.
  - pose proof (skip_slash_length (path_elem p).2). pose proof (path_elem_app p) as E.
    apply (f_equal length) in E. rewrite length_app in E.
    destruct (path_elem p).1; [done|]. cbn [length] in E. lia.
Qed.

Definition ftype (I : Z → Z) (f : Z) : Z := word_at I (f_type f).

(** What [walk_path] yields for the elements of a path. *)
Fixpoint follow (I : Z → Z) (dir : option Z) (f : Z) (names : list (list Z)) : walked :=
  match names with
  | [] => MkWalked 0 dir (Some f) None
  | n :: ns =>
      if MAXNAMELEN <=? Z.of_nat (length n) then MkWalked (- E_BAD_PATH) None None None
      else if negb (ftype I f =? FTYPE_DIR) then MkWalked (- E_NOT_FOUND) None None None
      else match lookup_name I f n with
           | Some g => follow I (Some f) g ns
           | None => match ns with
                     | [] => MkWalked (- E_NOT_FOUND) (Some f) None (Some n)
                     | _ => MkWalked (- E_NOT_FOUND) None None None
                     end
           end
  end.

(** The files that can be reached from the root, and a tree of sound directories. *)
Definition ROOT : Z := BLK 1 + 8.
Inductive reach (I : Z → Z) : Z → Prop :=
| reach_root : reach I ROOT
| reach_sub d n g : reach I d → ftype I d = FTYPE_DIR → name_ok n → n ≠ [] →
    lookup_name I d n = Some g → reach I g.

Definition tree_ok (I : Z → Z) : Prop := ∀ d, reach I d → ftype I d = FTYPE_DIR → dir_ok I d.

Section tree.
Context (I : Z → Z).
Hypothesis Hi : img_ok I.
Hypothesis Ht : tree_ok I.

Lemma reach_place f : reach I f → avail I (block_of f) ∧ f mod 4096 + 256 ≤ 4096.
Proof using Hi Ht.
  intros [|d n g Hr Hty _ _ Hl].
  - pose proof (img_first I Hi). unfold ROOT. rewrite block_of_BLK, BLK_mod by lia.
    split; [|lia]. split; [lia|]. apply Hi. lia.
  - pose proof (Ht d Hr Hty) as Hd. apply (find_slot_Some I d) in Hl as (i & j & Hbi & Hj & -> & _).
    destruct (slot_place I d Hd i j Hbi Hj) as (-> & -> & Hdb). split; [by apply data_avail|lia].
Qed.

Lemma iwp_walk_from : ∀ (fuel : nat) path dir f Q,
  (length path ≤ fuel)%nat → head path ≠ Some SLASH → Forall (λ c, 0 < c < 256) path → reach I f →
  Q (follow I dir f (elems path)) I → iwp (walk_from fuel path dir f) Q I.
Proof using Hi Ht.
  induction fuel as [|fuel IH]; intros path dir f Q Hl Hh Hc Hr HQ.
  { destruct path; [|cbn in Hl; lia]. by apply iwp_ret. }
  destruct (decide (path = [])) as [->|Hp]; [by apply iwp_ret|].
  destruct (elems_step path Hp Hh) as (Hn & Ee & Hlen). pose proof (path_elem_app path) as Eapp.
  assert (walk_from (S fuel) path dir f =
    (let (name, rest) := path_elem path in
     if MAXNAMELEN <=? Z.of_nat (length name) then ret (MkWalked (- E_BAD_PATH) None None None) else
     let path' := skip_slash rest in
     let* ty := load32 (f_type f) in
     if negb (ty =? FTYPE_DIR) then ret (MkWalked (- E_NOT_FOUND) None None None) else
     let* (r, found) := dir_lookup f name in
     if r <? 0 then
       match path' with
       | [] => if r =? - E_NOT_FOUND then ret (MkWalked r (Some f) None (Some name))
               else ret (MkWalked r None None None)
       | _ => ret (MkWalked r None None None)
       end
     else walk_from fuel path' (Some f) found)) as -> by (by destruct path).
  rewrite Ee in HQ. cbn [follow] in HQ. destruct (path_elem path) as [name rest]. cbn [fst snd] in *.
  rewrite Eapp in Hc. apply Forall_app in Hc as [Hc1 Hc2].
  destruct (Z.leb_spec MAXNAMELEN (Z.of_nat (length name))); [by apply iwp_ret|].
  destruct (reach_place f Hr) as [Hv Hm]. cbv zeta.
  assert (block_of (f_type f) = block_of f ∧ f_type f mod 4096 = f mod 4096 + 132) as [Eb Em].
  { unfold f_type, MAXNAMELEN. rewrite <- Z.add_assoc. apply block_near; lia. }
  apply iwp_bind, iwp_load32; [by rewrite Eb|rewrite Em; lia|]. fold (ftype I f).
  destruct (Z.eqb_spec (ftype I f) FTYPE_DIR) as [Ety|]; cbn [negb] in *; [|by apply iwp_ret].
  pose proof (Ht f Hr Ety) as Hd. apply iwp_bind, (iwp_dir_lookup I f Hd); [done|].
  destruct (lookup_name I f name) as [g|] eqn:El.
  - change (0 <? 0) with false. cbv iota. apply IH; [lia|apply skip_slash_head| | |done].
    + by apply skip_slash_Forall.
    + eapply reach_sub; [done|done| |done|done]. split; [done|]. unfold MAXNAMELEN in *. lia.
  - rewrite neg_err by done. destruct (skip_slash rest) as [|c r] eqn:Er.
    + rewrite Z.eqb_refl. by apply iwp_ret.
    + destruct (elems_step (c :: r)) as (_ & E & _); [done|rewrite <- Er; apply skip_slash_head|].
      rewrite E in HQ. by apply iwp_ret.
Qed.

Lemma iwp_walk_path Q path :
  Forall (λ c, 0 < c < 256) path →
  Q (if decide (head path = Some SLASH) then follow I None ROOT (elems path)
     else MkWalked (- E_BAD_PATH) None None None) I →
  iwp (walk_path path) Q I.
Proof using Hi Ht.
  intros Hc HQ. unfold walk_path. case_decide as E.
  - rewrite bool_decide_eq_true_2 by done. cbn [negb].
    apply iwp_bind, iwp_get_super, iwp_bind, iwp_deref.
    apply iwp_walk_from; [apply skip_slash_length|apply skip_slash_head|by apply skip_slash_Forall|
      apply reach_root|]. by rewrite elems_skip.
  - rewrite bool_decide_eq_false_2 by done. by apply iwp_ret.
Qed.
End tree.
