(* ===== verification/FsCreate.v ===== *)
(** * Making directory entries

    [dir_alloc_file] and [file_create] on the image: which descriptor is taken, and
    what becomes of the directory. *)

From stdpp Require Import base gmap list strings.
From Stdlib Require Import ZArith Lia.
From S2P Require Import Prelude Mmu BlockCache BlockImage Fs FsBitmap FsFile FsRw FsDir.

Set Default Proof Using "Type".

(** ** Writing into one descriptor of a directory *)
Section slot_write.
Context (I : Z → Z) (d i0 j0 o len : Z) (g : Z → Z).
Hypothesis Hi : img_ok I.
Hypothesis Hd : dir_ok I d.
Hypothesis Hi0 : 0 ≤ i0 < dblocks I d.
Hypothesis Hj0 : 0 ≤ j0 < 16.
Hypothesis Ho : 0 ≤ o.
Hypothesis Hlen : 0 ≤ len.
Hypothesis Hol : o + len ≤ 256.

Definition slot_img : Z → Z := data_img I d i0 (256 * j0 + o) len g.

Lemma sw_blk : 0 ≤ i0 < MAXBLK ∧ bmap I d i0 ≠ 0.
Proof using Hd Hi0.
  clear -Hd Hi0. split; [|by apply Hd]. pose proof (dk_size _ _ Hd). unfold dblocks, MAXFILESIZE in *. dlia.
Qed.

Lemma sw_step : file_step I slot_img d.
Proof using Hi Hd Hi0 Hj0 Ho Hlen Hol. destruct sw_blk. apply wd_step; try apply Hd; (done || lia). Qed.

Lemma sw_same : same_meta I slot_img.
Proof using Hi Hd Hi0 Hj0 Ho Hlen Hol. destruct sw_blk. apply wd_same; try apply Hd; (done || lia). Qed.

Lemma sw_size : size_of slot_img d = size_of I d.
Proof using Hd Hi0 Hj0 Ho Hlen Hol. destruct sw_blk. apply wd_size; try apply Hd; (done || lia). Qed.

Lemma sw_map m : 0 ≤ m < MAXBLK → bmap slot_img d m = bmap I d m.
Proof using Hd Hi0 Hj0 Ho Hlen Hol.
  destruct sw_blk. intros Hm. apply keep_map; [apply wd_ptr|apply wd_slot|done]; try apply Hd; (done || lia).
Qed.

Lemma sw_slot i j : 0 ≤ i < dblocks I d → slot slot_img d i j = slot I d i j.
Proof using Hd Hi0 Hj0 Ho Hlen Hol.
  intros H. unfold slot. rewrite sw_map; [done|]. pose proof (dk_size _ _ Hd).
  unfold dblocks, MAXFILESIZE in *. dlia.
Qed.

(** The bytes of the descriptors. *)
Lemma sw_bytes i j k : 0 ≤ i < dblocks I d → 0 ≤ j < 16 → 0 ≤ k < 256 →
  slot_img (slot I d i j + k) =
    if decide (i = i0 ∧ j = j0 ∧ o ≤ k < o + len) then g (k - o) else I (slot I d i j + k).
Proof using Hd Hi0 Hj0 Ho Hlen Hol.
  intros Hbi Hj Hk. destruct sw_blk as [Hm0 Hz0]. destruct (decide (i = i0)) as [->|Hne].
  - unfold slot_img, data_img, slot, patch.
    case_decide as Hc; zcases; try lia; try done. f_equal. lia.
  - rewrite decide_False by (intros (? & _); done). apply wd_out; [lia|lia|].
    destruct (slot_place I d Hd i j Hbi Hj) as (Eb & Em & _).
    destruct (block_near (slot I d i j) k) as [-> _]; [lia|lia|]. rewrite Eb. intros E.
    apply Hne, (fk_inj _ _ (dk_file _ _ Hd)); try done; [|by apply Hd].
    pose proof (dk_size _ _ Hd). unfold dblocks, MAXFILESIZE in *. dlia.
Qed.

Lemma sw_dir : slot_img (slot I d i0 j0) ≠ 0 → dir_ok slot_img d.
Proof using Hi Hd Hi0 Hj0 Ho Hlen Hol.
  intros Hnz. assert (dblocks slot_img d = dblocks I d) as Edb by (unfold dblocks; by rewrite sw_size).
  assert (dblocks I d ≤ MAXBLK) as Hmax.
  { pose proof (dk_size _ _ Hd). unfold dblocks, MAXFILESIZE in *. dlia. }
  split; rewrite ?Edb, ?sw_size; [|exact (dk_size _ _ Hd)|exact (dk_mult _ _ Hd)|..].
  - exact (st_ok _ _ _ sw_step).
  - intros i Hbi. rewrite sw_map by lia. by apply Hd.
  - intros i Hbi. rewrite sw_map by (unfold dblocks in *; pose proof (dk_size _ _ Hd); dlia).
    by apply (dk_end _ _ Hd).
  - intros i j Hbi Hj Hz k Hk. rewrite sw_slot in * by done.
    assert (¬ (i = i0 ∧ j = j0)) as Hne by (by intros [-> ->]).
    rewrite sw_bytes by done. rewrite decide_False by (intros (? & ? & _); by apply Hne).
    apply (dk_empty _ _ Hd); [done|done| |done]. rewrite <- Hz. symmetry.
    pose proof (sw_bytes i j 0 Hbi Hj ltac:(lia)) as E. rewrite Z.add_0_r in E. rewrite E.
    by rewrite decide_False by (intros (? & ? & _); by apply Hne).
Qed.
End slot_write.

(** ** Room for an entry *)

(** [J] is [I] with at most one more block, all empty, in directory [d]; [fp] is an
    empty descriptor of it. *)
Record room (I J : Z → Z) (d fp : Z) : Prop := {
  rm_dir : dir_ok J d;
  rm_step : file_step I J d;
  rm_at : ∃ i j, 0 ≤ i < dblocks J d ∧ 0 ≤ j < 16 ∧ fp = slot J d i j;
  rm_free : J fp = 0;
  rm_more : dblocks I d ≤ dblocks J d;
  rm_old : ∀ i j k, 0 ≤ i < dblocks I d → 0 ≤ j < 16 → 0 ≤ k < 256 →
    slot J d i j = slot I d i j ∧ J (slot I d i j + k) = I (slot I d i j + k);
  rm_new : ∀ i j, dblocks I d ≤ i < dblocks J d → 0 ≤ j < 16 → J (slot J d i j) = 0
}.

Lemma room_here I d fp : dir_ok I d → find_slot I d (λ fp, I fp =? 0) = Some fp → room I I d fp.
Proof.
  intros Hd H. apply find_slot_Some in H as (i & j & Hi & Hj & -> & Hz). apply Z.eqb_eq in Hz.
  split; try done; [by apply file_step_refl, Hd|by exists i, j|lia].
Qed.

Section new_block.
Context (I J : Z → Z) (d : Z).
Hypothesis Hi : img_ok I.
Hypothesis Hd : dir_ok I d.
Hypothesis Hlt : dblocks I d < MAXBLK.
Hypothesis Hg : grows (size_img I d (size_of I d + 4096)) J d.
Hypothesis Hz : bmap J d (dblocks I d) ≠ 0.
Hypothesis Hm : ∀ m, 0 ≤ m < MAXBLK → m ≠ dblocks I d →
  bmap J d m = bmap (size_img I d (size_of I d + 4096)) d m.

Lemma nb_count : 0 ≤ dblocks I d ∧ size_of I d = dblocks I d * 4096.
Proof using Hd.
  pose proof (dk_size _ _ Hd). pose proof (dk_mult _ _ Hd). unfold dblocks. split; dlia.
Qed.

Lemma nb_size : size_of J d = size_of I d + 4096 ∧ dblocks J d = dblocks I d + 1.
Proof using Hi Hd Hlt Hg.
  destruct nb_count as [H0 E]. assert (size_of J d = size_of I d + 4096) as Es.
  { rewrite (grows_size (size_img I d (size_of I d + 4096))).
    - rewrite ws_size, u32_small, s32_small; unfold is_u32, MAXBLK in *; lia.
    - apply (same_img I); [|done]. apply ws_same; [apply Hd|done].
    - apply (st_ok I). apply ws_step; [apply Hd|done].
    - done. }
  split; [done|]. unfold dblocks. rewrite Es. dlia.
Qed.

Lemma nb_map m : 0 ≤ m < MAXBLK → m ≠ dblocks I d → bmap J d m = bmap I d m.
Proof using Hd Hm.
  intros H Hne. rewrite Hm by done.
  apply keep_map; [apply ws_ptr|apply ws_slot|done]. apply Hd.
Qed.

Lemma nb_data i : 0 ≤ i < MAXFILESIZE → fdata J d i = fdata I d i.
Proof using Hd Hg. intros H. rewrite (gr_data _ _ _ Hg i H). apply ws_fdata; [apply Hd|done]. Qed.

(** A byte of a descriptor is a byte of the directory. *)
Lemma nb_byte K i j k : bmap K d i ≠ 0 → 0 ≤ i < MAXBLK → 0 ≤ j < 16 → 0 ≤ k < 256 →
  K (slot K d i j + k) = fdata K d (i * 4096 + 256 * j + k).
Proof using Type.
  intros Hnz Hi' Hj Hk. unfold fdata. replace ((i * 4096 + 256 * j + k) / 4096) with i by dlia.
  rewrite (proj2 (Z.eqb_neq _ 0) Hnz). unfold slot. f_equal.
  replace ((i * 4096 + 256 * j + k) mod 4096) with (256 * j + k) by dlia. lia.
Qed.

Lemma nb_old i j k : 0 ≤ i < dblocks I d → 0 ≤ j < 16 → 0 ≤ k < 256 →
  slot J d i j = slot I d i j ∧ J (slot I d i j + k) = I (slot I d i j + k).
Proof using Hd Hlt Hg Hm.
  intros H Hj Hk. assert (bmap J d i = bmap I d i) as E by (apply nb_map; lia).
  assert (slot J d i j = slot I d i j) as Es by (unfold slot; by rewrite E). split; [done|].
  pose proof (dk_here _ _ Hd i H) as Hnz. rewrite <- Es at 1.
  rewrite !nb_byte by (try lia; congruence). apply nb_data. unfold MAXFILESIZE. lia.
Qed.

Lemma nb_new j k : 0 ≤ j < 16 → 0 ≤ k < 256 → J (slot J d (dblocks I d) j + k) = 0.
Proof using Hd Hlt Hg Hz.
  intros Hj Hk. destruct nb_count as [H0 _]. rewrite nb_byte by (done || lia).
  rewrite nb_data by (unfold MAXFILESIZE; lia). unfold fdata.
  replace ((dblocks I d * 4096 + 256 * j + k) / 4096) with (dblocks I d) by dlia.
  by rewrite (dk_end _ _ Hd) by lia.
Qed.

Lemma room_new : room I J d (BLK (bmap J d (dblocks I d))).
Proof using Hi Hd Hlt Hg Hz Hm.
  destruct nb_count as [H0 E0]. destruct nb_size as [Es Eb].
  assert (slot J d (dblocks I d) 0 = BLK (bmap J d (dblocks I d))) as Esl by (unfold slot; lia).
  split.
  - split; rewrite ?Eb, ?Es.
    + apply Hg.
    + unfold MAXFILESIZE. lia.
    + rewrite E0. replace (dblocks I d * 4096 + 4096) with ((dblocks I d + 1) * 4096) by lia.
      apply Z.mod_mul. lia.
    + intros i H. destruct (decide (i = dblocks I d)) as [->|]; [done|].
      rewrite nb_map by lia. apply (dk_here _ _ Hd). lia.
    + intros i H. rewrite nb_map by lia. apply (dk_end _ _ Hd). lia.
    + intros i j H Hj Hz' k Hk. destruct (decide (i = dblocks I d)) as [->|]; [by apply nb_new|].
      destruct (nb_old i j k) as [E E']; [lia|done|done|]. rewrite E in *. rewrite E'.
      apply (dk_empty _ _ Hd); [lia|done| |done].
      destruct (nb_old i j 0) as [_ E'']; [lia|done|lia|]. rewrite Z.add_0_r in E''. congruence.
  - eapply step_trans; [|by apply grows_step]. apply ws_step; [apply Hd|done].
  - exists (dblocks I d), 0. rewrite Eb, Esl. repeat split; lia.
  - rewrite <- Esl. rewrite <- (Z.add_0_r (slot J d (dblocks I d) 0)). apply nb_new; lia.
  - lia.
  - apply nb_old.
  - intros i j H Hj. assert (i = dblocks I d) as -> by lia.
    rewrite <- (Z.add_0_r (slot J d (dblocks I d) j)). apply nb_new; lia.
Qed.
End new_block.

Lemma first_more {A} (t t' : Z → option A) : ∀ (n m : nat) lo,
  (n ≤ m)%nat → (∀ i, lo ≤ i < lo + Z.of_nat n → t' i = t i) →
  (∀ i, lo + Z.of_nat n ≤ i < lo + Z.of_nat m → t' i = None) → first m lo t' = first n lo t.
Proof.
  induction n as [|n IH]; intros m lo Hle Heq Hnone.
  - apply first_None. intros i Hi. apply Hnone. lia.
  - destruct m as [|m]; [lia|]. cbn [first]. rewrite (Heq lo) by lia. destruct (t lo); [done|].
    apply IH; [lia| |]; intros i Hi; [apply Heq|apply Hnone]; lia.
Qed.

Lemma name_eqb_head I va c n : name_eqb I va (c :: n) = true → I va = c.
Proof. cbn. rewrite andb_true_iff, Z.eqb_eq. by intros [? _]. Qed.

Lemma name_eqb_zero I va n : n ≠ [] → Forall (λ c, 0 < c < 256) n → I va = 0 → name_eqb I va n = false.
Proof.
  intros Hn Hc Hz. destruct n as [|c n]; [done|]. inversion_clear Hc. cbn [name_eqb].
  rewrite Hz, (proj2 (Z.eqb_neq 0 c)) by lia. done.
Qed.

(** A string in memory is one name only. *)
Lemma name_eqb_inj I : ∀ n m va,
  Forall (λ c, 0 < c < 256) n → Forall (λ c, 0 < c < 256) m →
  name_eqb I va n = true → name_eqb I va m = true → n = m.
Proof.
  induction n as [|c n IH]; intros [|c' m] va Hn Hm; cbn [name_eqb]; rewrite ?andb_true_iff, ?Z.eqb_eq.
  - done.
  - inversion_clear Hm. intros E [E' _]. lia.
  - inversion_clear Hn. intros [E' _] E. lia.
  - intros [-> H1] [-> H2]. inversion_clear Hn. inversion_clear Hm. f_equal. by eapply IH.
Qed.

Definition name_image (name : list Z) (i : Z) : Z := u8 ((name ++ [0]) !!! Z.to_nat i).

Lemma name_image_in name (k : nat) c : Forall (λ c, 0 < c < 256) name → name !! k = Some c →
  name_image name (Z.of_nat k) = c.
Proof.
  intros Hn Hk. unfold name_image. rewrite Nat2Z.id.
  rewrite (list_lookup_total_correct _ _ c) by (by apply lookup_app_l_Some).
  rewrite Forall_lookup in Hn. specialize (Hn k c Hk). apply Z.mod_small. lia.
Qed.

Lemma name_image_end name : name_image name (Z.of_nat (length name)) = 0.
Proof.
  unfold name_image. rewrite Nat2Z.id.
  rewrite (list_lookup_total_correct _ _ 0); [done|]. by rewrite list_lookup_middle.
Qed.

(** A new entry [fp] called [name], an empty file of type [ty], in directory [d]. *)
Record created (I L : Z → Z) (d : Z) (name : list Z) (fp ty : Z) : Prop := {
  cr_dir : dir_ok L d;
  cr_step : file_step I L d;
  cr_name : lookup_name L d name = Some fp;
  cr_others : ∀ n, name_ok n → n ≠ [] → n ≠ name → lookup_name L d n = lookup_name I d n;
  cr_type : ftype L fp = ty;
  cr_file : file_ok L fp;
  cr_size : size_of L fp = 0;
  cr_none : ∀ b, ¬ owned L fp b;
  cr_unique : names_unique I d → names_unique L d;
  cr_slots : ∀ i j k, 0 ≤ i < dblocks I d → 0 ≤ j < 16 → I (slot I d i j) ≠ 0 → 0 ≤ k < 256 →
    L (slot I d i j + k) = I (slot I d i j + k)
}.

Section create.
Context (I J : Z → Z) (d fp i0 j0 ty : Z) (name : list Z).
Hypothesis HiJ : img_ok J.
Hypothesis Hr : room I J d fp.
Hypothesis Hi0 : 0 ≤ i0 < dblocks J d.
Hypothesis Hj0 : 0 ≤ j0 < 16.
Hypothesis Hfp : fp = slot J d i0 j0.
Hypothesis Hn : name_ok name.
Hypothesis Hne : name ≠ [].
Hypothesis Hnone : lookup_name I d name = None.
Hypothesis Hty : is_u32 ty.

Definition name_img : Z → Z := slot_img J d i0 j0 0 (Z.of_nat (length name) + 1) (name_image name).
Definition type_img : Z → Z := slot_img name_img d i0 j0 132 4 (byte_of ty).

Lemma ct_len : 0 ≤ Z.of_nat (length name) + 1 ∧ 0 + (Z.of_nat (length name) + 1) ≤ 256.
Proof using Hn. destruct Hn. lia. Qed.

Lemma ct_name_bytes i j k : 0 ≤ i < dblocks J d → 0 ≤ j < 16 → 0 ≤ k < 256 →
  name_img (slot J d i j + k) = if decide (i = i0 ∧ j = j0 ∧ 0 ≤ k < 0 + (Z.of_nat (length name) + 1))
    then name_image name (k - 0) else J (slot J d i j + k).
Proof using Hr Hi0 Hj0 Hn. destruct ct_len. apply sw_bytes; (exact (rm_dir _ _ _ _ Hr) || done || lia). Qed.

Lemma ct_first : name_img (slot J d i0 j0) ≠ 0.
Proof using Hr Hi0 Hj0 Hn Hne.
  rewrite <- (Z.add_0_r (slot J d i0 j0)). rewrite ct_name_bytes by (done || lia).
  rewrite decide_True by lia. change (0 - 0) with (Z.of_nat 0).
  destruct Hn as [Hc _]. destruct (lookup_lt_is_Some_2 name 0) as [c H0].
  { clear -Hne. destruct name; [done|cbn; lia]. }
  rewrite (name_image_in name 0 c) by done. rewrite Forall_lookup in Hc. specialize (Hc _ _ H0). lia.
Qed.

Lemma ct_dir1 : dir_ok name_img d.
Proof using HiJ Hr Hi0 Hj0 Hn Hne.
  destruct ct_len. apply sw_dir; [done|exact (rm_dir _ _ _ _ Hr)|done|done|lia|lia|lia|apply ct_first].
Qed.

Lemma ct_same1 : same_meta J name_img.
Proof using HiJ Hr Hi0 Hj0 Hn. destruct ct_len. apply sw_same; (exact (rm_dir _ _ _ _ Hr) || done || lia). Qed.

Lemma ct_img1 : img_ok name_img.
Proof using HiJ Hr Hi0 Hj0 Hn. exact (same_img _ _ ct_same1 HiJ). Qed.

Lemma ct_db1 : dblocks name_img d = dblocks J d.
Proof using Hr Hi0 Hj0 Hn.
  destruct ct_len. unfold dblocks, name_img. rewrite sw_size; (exact (rm_dir _ _ _ _ Hr) || done || lia).
Qed.

Lemma ct_slot1 i j : 0 ≤ i < dblocks J d → slot name_img d i j = slot J d i j.
Proof using Hr Hi0 Hj0 Hn. intros. destruct ct_len. apply sw_slot; (exact (rm_dir _ _ _ _ Hr) || done || lia). Qed.

Lemma ct_same2 : same_meta name_img type_img.
Proof using HiJ Hr Hi0 Hj0 Hn Hne.
  apply sw_same; rewrite ?ct_db1; try (done || lia); [apply ct_img1|apply ct_dir1].
Qed.

Lemma ct_slot i j : 0 ≤ i < dblocks J d → slot type_img d i j = slot J d i j.
Proof using HiJ Hr Hi0 Hj0 Hn Hne.
  intros H. rewrite <- (ct_slot1 i j H). apply sw_slot; rewrite ?ct_db1; try (done || lia). apply ct_dir1.
Qed.

Lemma ct_db : dblocks type_img d = dblocks J d.
Proof using HiJ Hr Hi0 Hj0 Hn Hne.
  rewrite <- ct_db1. unfold dblocks, type_img.
  rewrite sw_size; rewrite ?ct_db1; try (done || lia). apply ct_dir1.
Qed.

(** All bytes of the descriptors at the end. *)
Lemma ct_bytes i j k : 0 ≤ i < dblocks J d → 0 ≤ j < 16 → 0 ≤ k < 256 →
  type_img (slot J d i j + k) =
    if decide (i = i0 ∧ j = j0) then
      if decide (132 ≤ k < 136) then byte_of ty (k - 132)
      else if decide (k ≤ Z.of_nat (length name)) then name_image name k
      else J (slot J d i j + k)
    else J (slot J d i j + k).
Proof using HiJ Hr Hi0 Hj0 Hn Hne.
  intros Hi Hj Hk. destruct Hn as [_ Hl]. rewrite <- (ct_slot1 i j Hi). unfold type_img.
  rewrite sw_bytes; rewrite ?ct_db1; try (done || lia); [|apply ct_dir1].
  rewrite (ct_slot1 i j Hi), ct_name_bytes by done.
  repeat case_decide; try done; try lia; by rewrite Z.sub_0_r.
Qed.

Lemma ct_step : file_step I type_img d.
Proof using HiJ Hr Hi0 Hj0 Hn Hne.
  destruct ct_len. eapply step_trans; [exact (rm_step _ _ _ _ Hr)|].
  eapply (step_trans _ name_img); apply sw_step; rewrite ?ct_db1;
    (exact (rm_dir _ _ _ _ Hr) || apply ct_dir1 || apply ct_img1 || done || lia).
Qed.

(** Names of the descriptors that were there before. *)
Lemma ct_old_name i j n : name_ok n → 0 ≤ i < dblocks J d → 0 ≤ j < 16 → ¬ (i = i0 ∧ j = j0) →
  name_eqb type_img (slot J d i j) n = name_eqb J (slot J d i j) n.
Proof using HiJ Hr Hi0 Hj0 Hn Hne.
  intros [_ Hl] Hi Hj Hc. apply name_eqb_ext. intros k Hk. rewrite ct_bytes by (done || lia).
  by rewrite decide_False.
Qed.

Lemma ct_old_room i j n : name_ok n → n ≠ [] → 0 ≤ i < dblocks J d → 0 ≤ j < 16 →
  name_eqb J (slot J d i j) n = if decide (i < dblocks I d) then name_eqb I (slot I d i j) n else false.
Proof using Hr.
  intros [Hc Hl] Hnn Hi Hj. case_decide as Hlt.
  - apply name_eqb_ext. intros k Hk.
    destruct (rm_old _ _ _ _ Hr i j k) as [-> ->]; (done || lia).
  - apply name_eqb_zero; [done|done|]. apply (rm_new _ _ _ _ Hr); [lia|done].
Qed.

Lemma ct_new_name : name_eqb type_img (slot J d i0 j0) name = true.
Proof using HiJ Hr Hi0 Hj0 Hn Hne.
  pose proof Hn as [Hc Hl]. apply name_eqb_spec. split.
  - intros k Hk. rewrite ct_bytes by (done || lia). rewrite decide_True by done.
    rewrite decide_False, decide_True by lia. destruct (lookup_lt_is_Some_2 name k Hk) as [c E].
    rewrite E. f_equal. symmetry. by apply name_image_in.
  - rewrite ct_bytes by (done || lia). rewrite decide_True by done.
    rewrite decide_False, decide_True by lia. apply name_image_end.
Qed.

Lemma ct_lookup : lookup_name type_img d name = Some fp.
Proof using HiJ Hr Hi0 Hj0 Hfp Hn Hne Hnone.
  assert (∀ i j, 0 ≤ i < dblocks J d → 0 ≤ j < 16 → ¬ (i = i0 ∧ j = j0) →
    name_eqb type_img (slot type_img d i j) name = false) as Hf.
  { intros i j Hi Hj Hc. rewrite ct_slot, ct_old_name, ct_old_room by done.
    case_decide; [|done]. apply (find_slot_None I d (λ fp, name_eqb I fp name) Hnone); lia. }
  unfold lookup_name, find_slot. rewrite ct_db. apply first_Some. exists i0. split; [lia|]. split.
  - apply first_Some. exists j0. split; [lia|]. rewrite ct_slot by done. rewrite ct_new_name, Hfp.
    split; [done|]. intros j Hj. rewrite Hf by lia. done.
  - intros i Hi. apply first_None. intros j Hj. by rewrite Hf by lia.
Qed.

Lemma ct_others n : name_ok n → n ≠ [] → n ≠ name → lookup_name type_img d n = lookup_name I d n.
Proof using HiJ Hr Hi0 Hj0 Hfp Hn Hne Hnone.
  intros Hok Hnn Hdiff. unfold lookup_name, find_slot. rewrite ct_db.
  assert (∀ i j, 0 ≤ i < dblocks J d → 0 ≤ j < 16 → name_eqb type_img (slot J d i j) n =
    if decide (i < dblocks I d) then name_eqb I (slot I d i j) n else false) as Hs.
  { intros i j Hi Hj. rewrite <- ct_old_room by done. destruct (decide (i = i0 ∧ j = j0)) as [[-> ->]|Hc].
    - rewrite (name_eqb_zero J (slot J d i0 j0)); [|done|apply Hok|rewrite <- Hfp; exact (rm_free _ _ _ _ Hr)].
      destruct (name_eqb type_img (slot J d i0 j0) n) eqn:E; [|done]. exfalso. apply Hdiff.
      eapply name_eqb_inj; [apply Hok|apply Hn|exact E|exact ct_new_name].
    - by apply ct_old_name. }
  pose proof (rm_more _ _ _ _ Hr) as Hmore. apply first_more; [lia| |]; intros i Hi.
  - apply first_ext. intros j Hj. rewrite ct_slot, Hs, decide_True by lia.
    destruct (rm_old _ _ _ _ Hr i j 0) as [-> _]; (done || lia).
  - apply first_None. intros j Hj. rewrite ct_slot, Hs, decide_False by lia. done.
Qed.

(** The rest of the new descriptor is zero. *)
Lemma ct_zero k : 128 ≤ k < 256 → ¬ (132 ≤ k < 136) → type_img (fp + k) = 0.
Proof using HiJ Hr Hi0 Hj0 Hfp Hn Hne.
  intros Hk Hc. destruct Hn as [_ Hl]. rewrite Hfp, ct_bytes by (done || lia).
  rewrite decide_True, !decide_False by (done || lia).
  apply (dk_empty _ _ (rm_dir _ _ _ _ Hr)); [done|done| |lia]. rewrite <- Hfp. exact (rm_free _ _ _ _ Hr).
Qed.

Lemma ct_zero_word a : fp + 136 ≤ a ∧ a + 4 ≤ fp + 256 ∨ a = fp + 128 → word_at type_img a = 0.
Proof using HiJ Hr Hi0 Hj0 Hfp Hn Hne.
  intros Ha. transitivity (word_at (λ _, 0) 0); [|done]. apply word_ext. intros i Hi.
  replace (a + i) with (fp + (a + i - fp)) by lia. apply ct_zero; lia.
Qed.

(** A slot that has a name is the new one, or an old one with the same name. *)
Lemma ct_match n i j : name_ok n → n ≠ [] → 0 ≤ i < dblocks J d → 0 ≤ j < 16 →
  name_eqb type_img (slot J d i j) n = true →
  i = i0 ∧ j = j0 ∧ n = name ∨ i < dblocks I d ∧ name_eqb I (slot I d i j) n = true ∧ n ≠ name.
Proof using HiJ Hr Hi0 Hj0 Hfp Hn Hne Hnone.
  intros Hok Hnn Hi Hj E. destruct (decide (i = i0 ∧ j = j0)) as [[-> ->]|Hc].
  - left. split; [done|]. split; [done|].
    eapply name_eqb_inj; [apply Hok|apply Hn|exact E|exact ct_new_name].
  - right. rewrite ct_old_name, ct_old_room in E by done. case_decide as Hlt; [|done].
    split; [done|]. split; [done|]. intros ->.
    pose proof (find_slot_None I d (λ fp, name_eqb I fp name) Hnone i j) as Hno. cbn in Hno.
    rewrite Hno in E; (done || lia).
Qed.

Lemma ct_unique : names_unique I d → names_unique type_img d.
Proof using HiJ Hr Hi0 Hj0 Hfp Hn Hne Hnone.
  intros Hu n i j i' j' Hok Hnn. rewrite !ct_db. intros Hi Hj Hi' Hj'. rewrite !ct_slot by done. intros E E'.
  apply ct_match in E; [|done..]. apply ct_match in E'; [|done..].
  destruct E as [(-> & -> & ->)|(Hlt & E & Hx)], E' as [(-> & -> & En)|(Hlt' & E' & Hx')]; try done.
  destruct (rm_old _ _ _ _ Hr i j 0) as [-> _]; [lia|done|lia|].
  destruct (rm_old _ _ _ _ Hr i' j' 0) as [-> _]; [lia|done|lia|].
  apply (Hu n); (done || lia).
Qed.

Lemma ct_none b : ¬ owned type_img fp b.
Proof using HiJ Hr Hi0 Hj0 Hfp Hn Hne.
  assert (ind type_img fp = 0) as Ei.
  { apply ct_zero_word. unfold f_indirect, MAXNAMELEN, NDIRECT. lia. }
  intros [H0 [H|(n & Hnn & H)]]; [congruence|]. apply H0. rewrite H. unfold bmap. rewrite Ei.
  destruct (Z.ltb_spec n 10); [|done]. apply ct_zero_word. unfold f_direct, MAXNAMELEN. lia.
Qed.

Lemma ct_old_slots i j k : 0 ≤ i < dblocks I d → 0 ≤ j < 16 → I (slot I d i j) ≠ 0 → 0 ≤ k < 256 →
  type_img (slot I d i j + k) = I (slot I d i j + k).
Proof using HiJ Hr Hi0 Hj0 Hfp Hn Hne.
  intros Hi Hj Hz Hk. pose proof (rm_more _ _ _ _ Hr).
  destruct (rm_old _ _ _ _ Hr i j k Hi Hj Hk) as [Es Eb].
  destruct (rm_old _ _ _ _ Hr i j 0 Hi Hj) as [_ Eb0]; [lia|]. rewrite Z.add_0_r in Eb0.
  rewrite <- Eb, <- Es, ct_bytes, decide_False; [done| |lia|done|done]. intros [-> ->].
  apply Hz. rewrite <- Eb0, <- Es, <- Hfp. exact (rm_free _ _ _ _ Hr).
Qed.

Lemma ct_created : created I type_img d name fp ty.
Proof using HiJ Hr Hi0 Hj0 Hfp Hn Hne Hnone Hty.
  assert (dir_ok type_img d) as HdL.
  { apply sw_dir; rewrite ?ct_db1; try (done || lia); [apply ct_img1|apply ct_dir1|].
    fold type_img. rewrite ct_slot1 by done. rewrite <- (Z.add_0_r (slot J d i0 j0)).
    rewrite ct_bytes by (done || lia). rewrite decide_True, decide_False, decide_True by (done || lia).
    pose proof ct_first as H. rewrite <- (Z.add_0_r (slot J d i0 j0)), ct_name_bytes in H by (done || lia).
    by rewrite decide_True in H by lia. }
  destruct (slot_place type_img d HdL i0 j0) as (Eb & Em & Hdb); [by rewrite ct_db|done|].
  rewrite ct_slot, <- Hfp in Eb, Em by done.
  split; [done|apply ct_step|apply ct_lookup|apply ct_others|..].
  - unfold ftype, f_type, MAXNAMELEN. rewrite <- Z.add_assoc.
    rewrite (word_bytes _ _ ty); [by apply u32_small|]. intros i Hi.
    rewrite <- Z.add_assoc, Hfp, ct_bytes by (done || lia).
    rewrite !decide_True by (done || lia). f_equal. lia.
  - apply file_empty_ok; rewrite ?Eb; [lia|by apply data_avail|apply Hdb| |].
    + intros n H. apply ct_zero_word. unfold f_direct, MAXNAMELEN. lia.
    + apply ct_zero_word. unfold f_indirect, MAXNAMELEN, NDIRECT. lia.
  - unfold size_of. rewrite ct_zero_word; [done|]. unfold f_size, MAXNAMELEN. lia.
  - apply ct_none.
  - apply ct_unique.
  - apply ct_old_slots.
Qed.
End create.

(** ** The code *)
Lemma iwp_dir_alloc Q I d :
  dir_ok I d →
  (∀ J fp, room I J d fp → Q (0, fp) J) →
  (dblocks I d = MAXBLK → Q (- E_INVAL, 0) (size_img I d (size_of I d + 4096))) →
  (∀ J, full J → grows (size_img I d (size_of I d + 4096)) J d → Q (- E_NO_DISK, 0) J) →
  iwp (dir_alloc_file d) Q I.
Proof.
  intros Hd HQ1 HQ2 HQ3. apply iwp_img. intros Hi. destruct (dir_head I d Hd) as [E1 E2].
  destruct (nb_count I d Hd) as [H0 Es].
  assert (dblocks I d ≤ MAXBLK) as Hmax by (pose proof (dk_size _ _ Hd); unfold MAXFILESIZE in *; lia).
  apply iwp_bind, (iwp_get_size I d Hd), iwp_bind, iwp_massert; [done|]. rewrite E2.
  apply iwp_bind, (iwp_search_dir I d Hd _ (λ fp, I fp =? 0)).
  { intros i j Q' Hbi Hj HQ'. destruct (slot_place I d Hd i j Hbi Hj) as (Eb & _ & Hdb).
    apply iwp_bind, iwp_load8; [unfold f_name; rewrite Eb; by apply data_avail|]. by apply iwp_ret. }
  destruct (find_slot I d (λ fp, I fp =? 0)) as [fp|] eqn:Ef; cbn.
  { apply iwp_ret, HQ1. by apply room_here. }
  destruct (member_word I d (dk_file _ _ Hd) 128) as [Hv Hm]; [lia|].
  pose proof (ws_same I d (size_of I d + 4096) (dk_file _ _ Hd) Hi) as Hsm.
  apply iwp_bind. unfold put_size. change BLKSIZE with 4096.
  rewrite u32_small by (unfold is_u32, MAXBLK in *; lia).
  apply iwp_store32; [done|done|exact (same_nblk _ _ Hsm)|exact (same_img _ _ Hsm Hi)|].
  apply iwp_bind, iwp_file_get_block.
  - apply (st_ok I), ws_step; [apply Hd|done].
  - done.
  - intros Hge. rewrite neg_err by done. apply iwp_ret, HQ2. lia.
  - intros J _ _ Hg Hfull _. rewrite neg_err by done. by apply iwp_ret, HQ3.
  - intros J Hlt Hg Hz _ Hmap. apply iwp_ret, HQ1. by apply room_new.
Qed.

(** Storing the name and the type in the descriptor that was found. *)
Lemma iwp_fill_entry Q I J d fp name ty :
  room I J d fp → name_ok name → name ≠ [] → lookup_name I d name = None → is_u32 ty →
  (∀ L, created I L d name fp ty → Q tt L) →
  iwp (do* strcpy (f_name fp) name in store32 (f_type fp) ty) Q J.
Proof.
  intros Hr Hn Hne Hnone Hty HQ. apply iwp_img. intros HiJ.
  destruct (rm_at _ _ _ _ Hr) as (i0 & j0 & Hi0 & Hj0 & Hfp). pose proof (rm_dir _ _ _ _ Hr) as HdJ.
  destruct (slot_place J d HdJ i0 j0 Hi0 Hj0) as (Eb & Em & Hdb). rewrite <- Hfp in Eb, Em.
  destruct (ct_len name Hn) as [Hl1 Hl2].
  assert (patch J (f_name fp) (Z.of_nat (length name) + 1)
    (λ i, u8 ((name ++ [0]) !!! Z.to_nat i)) = name_img J d i0 j0 name) as E1.
  { unfold name_img, slot_img, data_img, f_name. rewrite Hfp. unfold slot. f_equal. lia. }
  pose proof (ct_same1 I J d fp i0 j0 name HiJ Hr Hi0 Hj0 Hn) as Hs1.
  pose proof (ct_same2 I J d fp i0 j0 ty name HiJ Hr Hi0 Hj0 Hn Hne) as Hs2.
  assert (block_of (fp + 132) = block_of fp ∧ (fp + 132) mod 4096 = fp mod 4096 + 132) as [Eb2 Em2]
    by (apply block_near; lia).
  apply iwp_bind. unfold strcpy. apply iwp_store_range; rewrite ?E1.
  - unfold f_name. rewrite Eb. by apply data_avail.
  - unfold f_name. lia.
  - exact (same_nblk _ _ Hs1).
  - exact (same_img _ _ Hs1 HiJ).
  - unfold f_type, MAXNAMELEN. replace (fp + 128 + 4) with (fp + 132) by lia.
    assert (patch (name_img J d i0 j0 name) (fp + 132) 4 (byte_of ty) = type_img J d i0 j0 ty name) as E2.
    { unfold type_img, slot_img, data_img. rewrite Hfp. f_equal. unfold slot.
      pose proof (ct_slot1 I J d fp i0 j0 name Hr Hi0 Hj0 Hn i0 j0 Hi0) as E. unfold slot in E. lia. }
    apply iwp_store32; rewrite ?E2.
    + rewrite Eb2, Eb. apply (same_avail _ _ _ Hs1). by apply data_avail.
    + rewrite Em2. lia.
    + exact (same_nblk _ _ Hs2).
    + exact (same_img _ _ (same_trans _ _ _ Hs1 Hs2) HiJ).
    + apply HQ. by apply (ct_created I J d fp).
Qed.
