(* ===== verification/FsTree.v ===== *)
(** * The tree of files

    The whole volume: every file that can be reached from the root is well formed, no
    block belongs to two of them, and what an operation on one file does to all the
    others. *)

From stdpp Require Import base gmap list strings.
From Stdlib Require Import ZArith Lia.
From S2P Require Import Prelude Mmu BlockCache BlockImage Fs FsBitmap FsFile FsRw FsDir FsCreate.

Set Default Proof Using "Type".

(** A volume in which no block has two owners. *)
Record vol_ok (I : Z → Z) : Prop := {
  vk_dir : tree_ok I;
  vk_file : ∀ f, reach I f → file_ok I f ∧ 0 ≤ size_of I f ≤ MAXFILESIZE;
  vk_tail : ∀ f, reach I f → no_tail I f;
  vk_names : ∀ d, reach I d → ftype I d = FTYPE_DIR → names_unique I d;
  vk_root : ∃ n, name_ok n ∧ name_eqb I ROOT n = true;
  vk_apart : ∀ f g b, reach I f → reach I g → owned I f b → owned I g b → f = g
}.

(** The abstract view of the volume: the file that a list of names leads to. *)
Fixpoint resolve (I : Z → Z) (f : Z) (ns : list (list Z)) : option Z :=
  match ns with
  | [] => Some f
  | n :: ns' =>
      if MAXNAMELEN <=? Z.of_nat (length n) then None
      else if ftype I f =? FTYPE_DIR then g ← lookup_name I f n; resolve I g ns'
      else None
  end.

(** The names that the elements of a path can be. *)
Definition entry_name (n : list Z) : Prop := Forall (λ c, 0 < c < 256) n ∧ n ≠ [].

Lemma follow_resolve I : ∀ ns dir f,
  w_file (follow I dir f ns) = resolve I f ns ∧
  (w_ret (follow I dir f ns) = 0 ↔ is_Some (resolve I f ns)).
Proof.
  assert (∀ x : Z, x ≠ 0 → x = 0 ↔ is_Some (None : option Z)) as Hno.
  { intros x Hx. split; [done|]. intros [? ?]. done. }
  induction ns as [|n ns IH]; intros dir f; cbn [follow resolve]; [split; [done|]; by split|].
  destruct (MAXNAMELEN <=? Z.of_nat (length n)); [split; [done|]; by apply Hno|].
  destruct (ftype I f =? FTYPE_DIR); cbn [negb]; [|split; [done|]; by apply Hno].
  destruct (lookup_name I f n) as [g|]; cbn [mbind option_bind]; [apply IH|].
  destruct ns; (split; [done|]); by apply Hno.
Qed.

(** ** Where the descriptors are *)
Lemma in_desc_off f va : in_desc f va → ∃ k, va = f + k ∧ 128 ≤ k < 180 ∧ ¬ (132 ≤ k < 136).
Proof.
  unfold in_desc, in_ptrs, f_size, f_direct, f_indirect, MAXNAMELEN, NDIRECT.
  intros H. exists (va - f). lia.
Qed.

(** A directory without blocks. *)
Lemma dir_empty I d : file_ok I d → size_of I d = 0 → (∀ b, ¬ owned I d b) → dir_ok I d.
Proof.
  intros Hf Hz Ho. split; unfold dblocks; rewrite ?Hz; try done; try (intros; exfalso; dlia).
  intros i Hbi. destruct (decide (bmap I d i = 0)) as [|Hnz]; [done|].
  destruct (Ho (bmap I d i)). apply own_map; [|done]. change (0 / 4096) with 0 in Hbi. done.
Qed.

Lemma none_tail I f : (∀ b, ¬ owned I f b) → no_tail I f.
Proof.
  intros H n Hn _. destruct (decide (bmap I f n = 0)) as [|Hz]; [done|]. by destruct (H (bmap I f n)); apply own_map.
Qed.

Lemma dir_tail I d : dir_ok I d → no_tail I d.
Proof.
  intros Hd n Hn Hsz. apply (dk_end _ _ Hd). split; [|lia]. unfold dblocks. dlia.
Qed.

Section vol.
Context (I : Z → Z).
Hypothesis Hi : img_ok I.
Hypothesis Hv : vol_ok I.

Lemma entry_of g : reach I g → g = ROOT ∨
  ∃ e i j, reach I e ∧ ftype I e = FTYPE_DIR ∧ dir_ok I e ∧ 0 ≤ i < dblocks I e ∧ 0 ≤ j < 16 ∧
    g = slot I e i j ∧ I g ≠ 0.
Proof using Hv.
  intros [|e n g' He Hty [Hc Hl] Hne Hlook]; [by left|right].
  apply (find_slot_Some I e) in Hlook as (i & j & Hbi & Hj & -> & Hnm).
  exists e, i, j. do 2 (split; [done|]). split; [by apply Hv|]. do 3 (split; [done|]).
  destruct n as [|c n]; [done|]. apply name_eqb_head in Hnm. inversion_clear Hc. lia.
Qed.

Lemma dir_block e i : dir_ok I e → 0 ≤ i < dblocks I e → 0 ≤ i < MAXBLK ∧ bmap I e i ≠ 0.
Proof using Type.
  intros Hd Hbi. split; [|by apply (dk_here _ _ Hd)].
  pose proof (dk_size _ _ Hd). unfold dblocks, MAXFILESIZE in *. dlia.
Qed.

Lemma slot_own e i j : dir_ok I e → 0 ≤ i < dblocks I e → 0 ≤ j < 16 →
  owned I e (block_of (slot I e i j)).
Proof using Type.
  intros Hd Hbi Hj. destruct (slot_place I e Hd i j Hbi Hj) as (-> & _ & _).
  destruct (dir_block e i Hd Hbi). by apply own_map.
Qed.

Lemma slot_not_root e i j : dir_ok I e → 0 ≤ i < dblocks I e → 0 ≤ j < 16 → slot I e i j ≠ ROOT.
Proof using Type.
  intros Hd Hbi Hj E. destruct (slot_place I e Hd i j Hbi Hj) as (_ & Em & _). rewrite E in Em.
  change (ROOT mod 4096) with 8 in Em. lia.
Qed.

Lemma root_block : block_of ROOT = 1.
Proof using Type. unfold ROOT. apply block_of_BLK. lia. Qed.

(** The block of a descriptor is owned by a directory, or is the super block. *)
Lemma desc_owner f g : reach I f → reach I g → owned I g (block_of f) →
  ∃ i j, ftype I g = FTYPE_DIR ∧ dir_ok I g ∧ 0 ≤ i < dblocks I g ∧ 0 ≤ j < 16 ∧
    f = slot I g i j ∧ I f ≠ 0.
Proof using Hi Hv.
  intros Hf Hg Ho. destruct (entry_of f Hf) as [->|(e & i & j & He & Hty & Hd & Hbi & Hj & -> & Hz)].
  - rewrite root_block in Ho. destruct (owned_data _ _ _ (proj1 (vk_file _ Hv g Hg)) Ho) as [? _].
    pose proof (img_first I Hi). lia.
  - pose proof (slot_own e i j Hd Hbi Hj) as Ho'. rewrite (vk_apart _ Hv g e _ Hg He Ho Ho'). by exists i, j.
Qed.

(** Whether it is owned by [g] can be decided. *)
Lemma desc_owned_dec f g : reach I f → reach I g → owned I g (block_of f) ∨ ¬ owned I g (block_of f).
Proof using Hi Hv.
  intros Hf Hg. destruct (entry_of f Hf) as [->|(e & i & j & He & Hty & Hd & Hbi & Hj & -> & Hz)].
  - right. intros Ho. rewrite root_block in Ho.
    destruct (owned_data _ _ _ (proj1 (vk_file _ Hv g Hg)) Ho) as [? _]. pose proof (img_first I Hi). lia.
  - pose proof (slot_own e i j Hd Hbi Hj) as Ho. destruct (decide (e = g)) as [->|Hne]; [by left|right].
    intros Ho'. apply Hne. by eapply (vk_apart _ Hv).
Qed.

Lemma slot_eq e i j i' j' : dir_ok I e → 0 ≤ i < dblocks I e → 0 ≤ i' < dblocks I e →
  0 ≤ j < 16 → 0 ≤ j' < 16 → block_of (slot I e i j) = block_of (slot I e i' j') → i = i'.
Proof using Type.
  intros Hd Hbi Hbi' Hj Hj'. destruct (slot_place I e Hd i j Hbi Hj) as (-> & _ & _).
  destruct (slot_place I e Hd i' j' Hbi' Hj') as (-> & _ & _). intros E.
  destruct (dir_block e i Hd Hbi), (dir_block e i' Hd Hbi'). by apply (fk_inj _ _ (dk_file _ _ Hd)).
Qed.

(** Two descriptors do not overlap. *)
Lemma desc_apart f g : reach I f → reach I g → f ≠ g → f + 256 ≤ g ∨ g + 256 ≤ f.
Proof using Hi Hv.
  intros Hf Hg Hne. destruct (reach_place I Hi (vk_dir _ Hv) f Hf) as [_ Pf].
  destruct (reach_place I Hi (vk_dir _ Hv) g Hg) as [_ Pg].
  destruct (decide (block_of f = block_of g)) as [E|E].
  2: { pose proof (va_split f). pose proof (va_split g). unfold BLK in *.
       pose proof (Z.mod_pos_bound f 4096). pose proof (Z.mod_pos_bound g 4096).
       assert (block_of f < block_of g ∨ block_of g < block_of f) by lia. lia. }
  destruct (entry_of f Hf) as [->|(e & i & j & He & Hty & Hd & Hbi & Hj & -> & Hz)].
  - destruct (entry_of g Hg) as [->|(e & i & j & He & Hty & Hd & Hbi & Hj & -> & Hz)]; [done|].
    pose proof (slot_own e i j Hd Hbi Hj) as Ho. rewrite <- E in Ho.
    destruct (desc_owner ROOT e Hf He Ho) as (i' & j' & _ & _ & Hbi' & Hj' & Er & _).
    by destruct (slot_not_root e i' j' Hd Hbi' Hj').
  - pose proof (slot_own e i j Hd Hbi Hj) as Ho. rewrite E in Ho.
    destruct (desc_owner g e Hg He Ho) as (i' & j' & _ & _ & Hbi' & Hj' & -> & _).
    assert (i = i') as -> by exact (slot_eq e i j i' j' Hd Hbi Hbi' Hj Hj' E). unfold slot in *.
    assert (j ≠ j') by (intros ->; done). lia.
Qed.
End vol.

(** ** A change to one file, seen from the others *)

(** Outside the descriptor and the blocks of [f] nothing changed, and nothing in the
    descriptors that [f] may hold as a directory. *)
Record other_step (I J : Z → Z) (f : Z) : Prop := {
  os_nblk : nblk J = nblk I;
  os_avail : ∀ b, avail I b → ¬ owned I f b → avail J b;
  os_home : ∀ g, reach I g → avail J (block_of g);
  os_frame : ∀ va, avail I (block_of va) → ¬ in_bitmap I va → ¬ (f ≤ va < f + 256) →
    ¬ owned I f (block_of va) → J va = I va;
  os_in : ∀ g, reach I g → owned I f (block_of g) → ∀ k, 0 ≤ k < 256 → J (g + k) = I (g + k);
  os_own : ∀ b, owned J f b → owned I f b ∨ free I b = true
}.

Section step.
Context (I J : Z → Z) (f : Z).
Hypothesis Hi : img_ok I.
Hypothesis Hv : vol_ok I.
Hypothesis Hr : reach I f.
Hypothesis Hs : other_step I J f.

Lemma sp_desc g k : reach I g → g ≠ f → 0 ≤ k < 256 → J (g + k) = I (g + k).
Proof using Hi Hv Hr Hs.
  intros Hg Hne Hk. destruct (vk_file _ Hv g Hg) as [Hf _].
  destruct (member_addr I g Hf k Hk) as [E _].
  destruct (desc_owned_dec I Hi Hv g f Hg Hr) as [Ho|Ho]; [by apply (os_in _ _ _ Hs)|].
  apply (os_frame _ _ _ Hs); rewrite ?E; [apply Hf|by apply member_not_bitmap| |done].
  intros H. destruct (desc_apart I Hi Hv f g Hr Hg); [done|lia|lia].
Qed.

Lemma sp_block g va : reach I g → g ≠ f → owned I g (block_of va) → ¬ (f ≤ va < f + 256) → J va = I va.
Proof using Hv Hr Hs.
  intros Hg Hne Ho Hd. destruct (vk_file _ Hv g Hg) as [Hf _].
  pose proof (owned_data _ _ _ Hf Ho) as Hb. destruct (data_avail _ _ Hb) as [Ha Hbm].
  apply (os_frame _ _ _ Hs); [done|by apply Hbm|done|]. intros Ho'. apply Hne. by eapply (vk_apart _ Hv).
Qed.

Lemma desc_block va : f ≤ va < f + 256 → block_of va = block_of f.
Proof using Hv Hr.
  intros H. destruct (vk_file _ Hv f Hr) as [Hf _]. destruct (member_addr I f Hf (va - f)) as [E _]; [lia|].
  by replace (f + (va - f)) with va in E by lia.
Qed.

Lemma sp_ptr g : reach I g → g ≠ f → ∀ va, in_ptrs g va → J va = I va.
Proof using Hi Hv Hr Hs.
  intros Hg Hne va Hp. replace va with (g + (va - g)) by lia. apply sp_desc; [done|done|].
  revert Hp. unfold in_ptrs, f_direct, f_indirect, MAXNAMELEN, NDIRECT. lia.
Qed.

Lemma sp_ind_block g : reach I g → g ≠ f → ind I g ≠ 0 → ∀ va, block_of va = ind I g → J va = I va.
Proof using Hi Hv Hr Hs.
  intros Hg Hne Hz va E. pose proof (own_ind I g Hz) as Ho. apply (sp_block g); [done|done|by rewrite E|].
  intros Hd%desc_block. rewrite E in Hd. rewrite Hd in Ho.
  destruct (desc_owner I Hi Hv f g Hr Hg Ho) as (i & j & _ & Hdir & Hbi & Hj & Ef & _).
  destruct (slot_place I g Hdir i j Hbi Hj) as (Eb & _). rewrite <- Ef, <- Hd in Eb.
  destruct (dir_block I g i Hdir Hbi) as [Hm Hnz].
  destruct (fk_data _ _ (dk_file _ _ Hdir) i Hm Hnz) as (_ & _ & Hx). by rewrite Eb in Hx.
Qed.

Lemma sp_map g n : reach I g → g ≠ f → 0 ≤ n < MAXBLK → bmap J g n = bmap I g n.
Proof using Hi Hv Hr Hs. intros Hg Hne. apply keep_map; [by apply sp_ptr|by apply sp_ind_block]. Qed.

Lemma sp_ok g : reach I g → g ≠ f → file_ok J g.
Proof using Hi Hv Hr Hs.
  intros Hg Hne. apply (keep_ok I); [exact (proj1 (vk_file _ Hv g Hg))|apply Hs| |by apply sp_ptr|by apply sp_ind_block].
  intros b Hb [->|Ho]; [by apply (os_home _ _ _ Hs)|]. apply (os_avail _ _ _ Hs); [done|]. intros Ho'.
  apply Hne. by eapply (vk_apart _ Hv).
Qed.

Lemma sp_own g b : reach I g → g ≠ f → owned J g b → owned I g b.
Proof using Hi Hv Hr Hs.
  intros Hg Hne [H0 H]. split; [done|]. destruct H as [->|(n & Hn & ->)].
  - left. apply keep_ind. by apply sp_ptr.
  - right. exists n. split; [done|]. by apply sp_map.
Qed.

Lemma sp_apart g h b : reach I g → reach I h → owned J g b → owned J h b → g = h.
Proof using Hi Hv Hr Hs.
  intros Hg Hh Hog Hoh. assert (∀ g, reach I g → owned I g b → free I b = false) as Hfree.
  { intros g' Hg' Ho. by destruct (owned_data _ _ _ (proj1 (vk_file _ Hv g' Hg')) Ho). }
  assert (∀ g, reach I g → owned J g b → owned I g b ∨ g = f ∧ free I b = true) as Hold.
  { intros g' Hg' Ho. destruct (decide (g' = f)) as [->|Hne]; [|left; by apply sp_own].
    destruct (os_own _ _ _ Hs b Ho); auto. }
  destruct (Hold g Hg Hog) as [Ho1|[-> Hf1]], (Hold h Hh Hoh) as [Ho2|[-> Hf2]]; [|..|done].
  - by eapply (vk_apart _ Hv).
  - rewrite (Hfree g Hg Ho1) in Hf2. done.
  - rewrite (Hfree h Hh Ho2) in Hf1. done.
Qed.

Lemma sp_word g k : reach I g → g ≠ f → 0 ≤ k ≤ 252 → word_at J (g + k) = word_at I (g + k).
Proof using Hi Hv Hr Hs.
  intros Hg Hne Hk. apply word_ext. intros i H. rewrite <- Z.add_assoc. apply sp_desc; [done|done|lia].
Qed.

Lemma sp_type_ne g : reach I g → g ≠ f → ftype J g = ftype I g.
Proof using Hi Hv Hr Hs.
  intros Hg Hne. unfold ftype, f_type, MAXNAMELEN. rewrite <- Z.add_assoc. apply sp_word; [done|done|lia].
Qed.

Lemma sp_size g : reach I g → g ≠ f → size_of J g = size_of I g.
Proof using Hi Hv Hr Hs.
  intros Hg Hne. unfold size_of. f_equal. apply sp_word; [done|done|]. unfold MAXNAMELEN. lia.
Qed.

(** The contents of the files that are not directories. *)
Lemma sp_fdata g i : reach I g → g ≠ f → ftype I g ≠ FTYPE_DIR → 0 ≤ i < MAXFILESIZE →
  fdata J g i = fdata I g i.
Proof using Hi Hv Hr Hs.
  intros Hg Hne Hty Hx. assert (0 ≤ i / 4096 < MAXBLK) as Hn by (unfold MAXFILESIZE in *; dlia).
  unfold fdata. rewrite sp_map by done. destruct (Z.eqb_spec (bmap I g (i / 4096)) 0) as [|Hz]; [done|].
  assert (block_of (BLK (bmap I g (i / 4096)) + i mod 4096) = bmap I g (i / 4096)) as E
    by (apply block_of_BLK; dlia).
  pose proof (own_map I g _ Hn Hz) as Ho. apply (sp_block g); [done|done|by rewrite E|].
  intros Hd%desc_block. rewrite E in Hd. rewrite Hd in Ho.
  by destruct (desc_owner I Hi Hv f g Hr Hg Ho) as (? & ? & ? & _).
Qed.

Lemma sp_tail g : reach I g → g ≠ f → no_tail J g.
Proof using Hi Hv Hr Hs.
  intros Hg Hne n Hn. rewrite sp_size, sp_map by done. by apply (vk_tail _ Hv).
Qed.

(** The slots of the directories other than [f]. *)
Section other_dir.
Context (e : Z).
Hypothesis He : reach I e.
Hypothesis Hef : e ≠ f.
Hypothesis Hd : dir_ok I e.

Lemma od_blocks : dblocks J e = dblocks I e.
Proof using Hi Hv Hr Hs He Hef. unfold dblocks. by rewrite sp_size. Qed.

Lemma od_slot i j : 0 ≤ i < dblocks I e → slot J e i j = slot I e i j.
Proof using Hi Hv Hr Hs He Hef Hd.
  intros Hbi. unfold slot. rewrite sp_map; [done|done|done|]. by apply (dir_block I e i Hd Hbi).
Qed.

(** A byte of a slot changes only in the descriptor of [f]. *)
Lemma od_byte i j k : 0 ≤ i < dblocks I e → 0 ≤ j < 16 → 0 ≤ k < 256 →
  J (slot I e i j + k) = I (slot I e i j + k) ∨ slot I e i j = f.
Proof using Hi Hv Hr Hs He Hef Hd.
  intros Hbi Hj Hk. destruct (slot_place I e Hd i j Hbi Hj) as (Eb & Em & Hdb).
  assert (block_of (slot I e i j + k) = block_of (slot I e i j)) as E by (apply block_near; lia).
  pose proof (slot_own I e i j Hd Hbi Hj) as Ho.
  destruct (decide (f ≤ slot I e i j + k < f + 256)) as [Hdesc|Hdesc].
  - right. pose proof (desc_block _ Hdesc) as Ef. rewrite E in Ef. rewrite Ef in Ho.
    destruct (desc_owner I Hi Hv f e Hr He Ho) as (i' & j' & _ & _ & Hbi' & Hj' & Es & _).
    assert (i = i') as <-.
    { apply (slot_eq I e i j i' j' Hd); try done. by rewrite <- Es. }
    rewrite Es in *. unfold slot in *. by assert (j = j') as -> by lia.
  - left. apply (sp_block e); [done|done| |done]. by rewrite E.
Qed.

(** A directory stays one if the slot of [f] does. *)
Lemma od_dir :
  (∀ i j, 0 ≤ i < dblocks I e → 0 ≤ j < 16 → slot I e i j = f → J f = 0 → ∀ k, 0 ≤ k < 256 → J (f + k) = 0) →
  dir_ok J e.
Proof using Hi Hv Hr Hs He Hef Hd.
  intros Hslot. split; rewrite ?od_blocks, ?sp_size by done.
  - by apply sp_ok.
  - apply (dk_size _ _ Hd).
  - apply (dk_mult _ _ Hd).
  - intros i Hbi. rewrite sp_map; [by apply (dk_here _ _ Hd)|done|done|]. by apply (dir_block I e i Hd Hbi).
  - intros i Hbi. rewrite sp_map; [by apply (dk_end _ _ Hd)|done|done|].
    unfold dblocks in Hbi. pose proof (dk_size _ _ Hd). split; [dlia|lia].
  - intros i j Hbi Hj. rewrite od_slot by done. intros Hz k Hk.
    destruct (decide (slot I e i j = f)) as [Ef|Ef]; [rewrite Ef in *; by apply (Hslot i j)|].
    destruct (od_byte i j 0 Hbi Hj) as [E0|]; [lia| |done]. rewrite Z.add_0_r in E0. rewrite E0 in Hz.
    destruct (od_byte i j k Hbi Hj Hk) as [->|]; [|done]. by apply (dk_empty _ _ Hd).
Qed.
End other_dir.
End step.

(** A change that leaves [f] where it is, with its name and its type. *)
Record stays (I J : Z → Z) (f : Z) : Prop := {
  sa_other : other_step I J f;
  sa_file : file_ok J f;
  sa_entry : ∀ k, 0 ≤ k < 256 → ¬ in_desc f (f + k) → J (f + k) = I (f + k)
}.

Lemma step_stays I J f :
  vol_ok I → reach I f → file_step I J f →
  (∀ g, reach I g → owned I f (block_of g) → ∀ k, 0 ≤ k < 256 → J (g + k) = I (g + k)) → stays I J f.
Proof.
  intros Hv Hr Hfs Hin. split; [|apply Hfs|].
  - split; [apply Hfs|intros b Hb _; by apply (st_avail _ _ _ Hfs)| | |done|apply Hfs].
    + intros g Hg. apply (st_avail _ _ _ Hfs), (fk_avail _ _ (proj1 (vk_file _ Hv g Hg))).
    + intros va Ha Hb Hd Ho. apply (st_frame _ _ _ Hfs); try done.
      intros (k & ? & ? & ?)%in_desc_off. lia.
  - intros k Hk Hd. destruct (vk_file _ Hv f Hr) as [Hf _]. destruct (member_addr I f Hf k Hk) as [E _].
    apply (st_frame _ _ _ Hfs); rewrite ?E; [apply Hf|by apply member_not_bitmap|done|by apply own_self].
Qed.

Section stay.
Context (I J : Z → Z) (f : Z).
Hypothesis Hi : img_ok I.
Hypothesis Hv : vol_ok I.
Hypothesis Hr : reach I f.
Hypothesis Hst : stays I J f.

Lemma sp_type g : reach I g → ftype J g = ftype I g.
Proof using Hi Hv Hr Hst.
  intros Hg. destruct (decide (g = f)) as [->|Hne]; [|by apply (sp_type_ne I J f Hi Hv Hr (sa_other _ _ _ Hst))].
  apply word_ext. intros i H. unfold f_type, MAXNAMELEN. rewrite <- !Z.add_assoc.
  apply (sa_entry _ _ _ Hst); [lia|]. intros (k & ? & ? & ?)%in_desc_off. lia.
Qed.

Lemma sp_ok_all g : reach I g → file_ok J g.
Proof using Hi Hv Hr Hst.
  intros Hg. destruct (decide (g = f)) as [->|Hne]; [apply Hst|by apply (sp_ok I J f Hi Hv Hr (sa_other _ _ _ Hst))].
Qed.

Lemma stay_name_byte k : 0 ≤ k < 128 → J (f + k) = I (f + k).
Proof using Hst. intros Hk. apply (sa_entry _ _ _ Hst); [lia|]. intros (k' & ? & ? & ?)%in_desc_off. lia. Qed.

Lemma stay_name e i j n : reach I e → e ≠ f → dir_ok I e → 0 ≤ i < dblocks I e → 0 ≤ j < 16 →
  name_ok n → name_eqb J (slot I e i j) n = name_eqb I (slot I e i j) n.
Proof using Hi Hv Hr Hst.
  intros He Hef Hd Hbi Hj [_ Hl]. apply name_eqb_ext. intros k Hk.
  destruct (od_byte I J f Hi Hv Hr (sa_other _ _ _ Hst) e He Hef Hd i j k) as [|Ef]; [lia|lia|lia|done|].
  rewrite Ef. apply stay_name_byte. lia.
Qed.

Lemma stay_lookup e n : reach I e → e ≠ f → dir_ok I e → name_ok n → lookup_name J e n = lookup_name I e n.
Proof using Hi Hv Hr Hst.
  intros He Hef Hd Hn. unfold lookup_name, find_slot.
  rewrite (od_blocks I J f Hi Hv Hr (sa_other _ _ _ Hst) e He Hef). apply first_ext. intros i Hbi.
  apply first_ext. intros j Hj. rewrite (od_slot I J f Hi Hv Hr (sa_other _ _ _ Hst) e He Hef Hd) by lia.
  by rewrite stay_name by (done || lia).
Qed.

Lemma stay_unique e : reach I e → e ≠ f → dir_ok I e → names_unique I e → names_unique J e.
Proof using Hi Hv Hr Hst.
  intros He Hef Hd Hu n i j i' j' Hn Hne.
  rewrite !(od_blocks I J f Hi Hv Hr (sa_other _ _ _ Hst) e He Hef). intros Hbi Hj Hbi' Hj'.
  rewrite !(od_slot I J f Hi Hv Hr (sa_other _ _ _ Hst) e He Hef Hd), !stay_name by done. by apply Hu.
Qed.

Lemma stay_dir e : reach I e → e ≠ f → dir_ok I e → dir_ok J e.
Proof using Hi Hv Hr Hst.
  intros He Hef Hd. apply (od_dir I J f Hi Hv Hr (sa_other _ _ _ Hst) e He Hef Hd). intros i j Hbi Hj Ef Hz.
  rewrite <- (Z.add_0_r f), stay_name_byte, Z.add_0_r in Hz by lia.
  destruct (entry_of I Hv f Hr) as [->|(_ & _ & _ & _ & _ & _ & _ & _ & _ & Hnz)]; [|done].
  by destruct (slot_not_root I e i j Hd Hbi Hj).
Qed.
Lemma stay_root_name n : name_ok n → name_eqb J ROOT n = name_eqb I ROOT n.
Proof using Hi Hv Hr Hst.
  intros [_ Hl]. apply name_eqb_ext. intros k Hk. destruct (decide (ROOT = f)) as [Ef|Ef].
  - rewrite Ef. apply stay_name_byte. lia.
  - apply (sp_desc I J f Hi Hv Hr (sa_other _ _ _ Hst)); [constructor|done|lia].
Qed.
End stay.

(** ** Working on a file that is not a directory *)
Lemma rg_stays I J f :
  img_ok I → vol_ok I → reach I f → ftype I f ≠ FTYPE_DIR → file_step I J f → stays I J f.
Proof.
  intros Hi Hv Hr Hty Hs. apply step_stays; try done. intros g Hg Ho.
  by destruct (desc_owner I Hi Hv g f Hg Hr Ho) as (? & ? & ? & _).
Qed.

Section regular.
Context (I J : Z → Z) (f : Z).
Hypothesis Hi : img_ok I.
Hypothesis Hv : vol_ok I.
Hypothesis Hr : reach I f.
Hypothesis Hty : ftype I f ≠ FTYPE_DIR.
Hypothesis Hst : stays I J f.

Lemma rg_dir e : reach I e → ftype I e = FTYPE_DIR → e ≠ f ∧ dir_ok I e.
Proof using Hv Hty. intros He E. split; [by intros ->|]. by apply (vk_dir _ Hv). Qed.

Lemma rg_reach g : reach J g ↔ reach I g.
Proof using Hi Hv Hr Hty Hst.
  split.
  - induction 1 as [|d n g Hd IH Ety Hn Hne Hl]; [constructor|].
    rewrite (sp_type I J f Hi Hv Hr Hst d IH) in Ety. destruct (rg_dir d IH Ety).
    rewrite (stay_lookup I J f Hi Hv Hr Hst) in Hl by done. by eapply reach_sub.
  - induction 1 as [|d n g Hd IH Ety Hn Hne Hl]; [constructor|].
    destruct (rg_dir d Hd Ety). eapply (reach_sub J d n); [done| |done|done|].
    + by rewrite (sp_type I J f Hi Hv Hr Hst d Hd).
    + by rewrite (stay_lookup I J f Hi Hv Hr Hst) by done.
Qed.

Lemma rg_resolve : ∀ ns g, reach I g → Forall entry_name ns →
  resolve J g ns = resolve I g ns.
Proof using Hi Hv Hr Hty Hst.
  induction ns as [|n ns IH]; intros g Hg Hns; [done|]. inversion_clear Hns as [|? ? [Hc Hne] Hns'].
  cbn [resolve]. destruct (Z.leb_spec MAXNAMELEN (Z.of_nat (length n))); [done|].
  rewrite (sp_type I J f Hi Hv Hr Hst g Hg).
  destruct (Z.eqb_spec (ftype I g) FTYPE_DIR) as [Ety|]; [|done]. destruct (rg_dir g Hg Ety).
  assert (name_ok n) as Hn by (split; [done|unfold MAXNAMELEN in *; lia]).
  rewrite (stay_lookup I J f Hi Hv Hr Hst g) by done.
  destruct (lookup_name I g n) as [h|] eqn:El; [|done]. cbn. apply IH; [|done]. by eapply reach_sub.
Qed.

Lemma rg_vol : 0 ≤ size_of J f ≤ MAXFILESIZE → no_tail J f → vol_ok J.
Proof using Hi Hv Hr Hty Hst.
  intros Hsz Ht. split.
  - intros e He%rg_reach. rewrite (sp_type I J f Hi Hv Hr Hst e He). intros Ety.
    destruct (rg_dir e He Ety). by apply (stay_dir I J f Hi Hv Hr Hst).
  - intros g Hg%rg_reach. split; [by apply (sp_ok_all I J f Hi Hv Hr Hst)|].
    destruct (decide (g = f)) as [->|Hne]; [done|].
    rewrite (sp_size I J f Hi Hv Hr (sa_other _ _ _ Hst)) by done. by apply (vk_file _ Hv).
  - intros g Hg%rg_reach. destruct (decide (g = f)) as [->|Hne]; [done|]. by apply (sp_tail I J f Hi Hv Hr (sa_other _ _ _ Hst)).
  - intros e He%rg_reach. rewrite (sp_type I J f Hi Hv Hr Hst e He). intros Ety.
    destruct (rg_dir e He Ety). apply (stay_unique I J f Hi Hv Hr Hst); try done. by apply (vk_names _ Hv).
  - destruct (vk_root _ Hv) as (n & Hn & E). exists n. split; [done|]. by rewrite (stay_root_name I J f Hi Hv Hr Hst).
  - intros g h b Hg%rg_reach Hh%rg_reach. by apply (sp_apart I J f Hi Hv Hr (sa_other _ _ _ Hst)).
Qed.
End regular.

(** ** Making an entry *)
Section entry.
Context (I J : Z → Z) (d fp ty : Z) (name : list Z).
Hypothesis Hi : img_ok I.
Hypothesis Hv : vol_ok I.
Hypothesis Hr : reach I d.
Hypothesis Hdt : ftype I d = FTYPE_DIR.
Hypothesis Hn : name_ok name.
Hypothesis Hne : name ≠ [].
Hypothesis Hnone : lookup_name I d name = None.
Hypothesis Hc : created I J d name fp ty.

Lemma en_in g : reach I g → owned I d (block_of g) → ∀ k, 0 ≤ k < 256 → J (g + k) = I (g + k).
Proof using Hi Hv Hr Hc.
  intros Hg Ho k Hk. destruct (desc_owner I Hi Hv g d Hg Hr Ho) as (i & j & _ & _ & Hbi & Hj & -> & Hz).
  by apply (cr_slots _ _ _ _ _ _ Hc).
Qed.

Lemma en_stays : stays I J d.
Proof using Hi Hv Hr Hc. apply step_stays; [done|done|apply (cr_step _ _ _ _ _ _ Hc)|apply en_in]. Qed.

Lemma en_lookup e n : reach I e → ftype I e = FTYPE_DIR → name_ok n → n ≠ [] →
  lookup_name J e n = if decide (e = d ∧ n = name) then Some fp else lookup_name I e n.
Proof using Hi Hv Hr Hc.
  intros He Ety Hok Hnn. destruct (decide (e = d)) as [->|Hed].
  - case_decide as Hx; [destruct Hx as [_ ->]; apply Hc|]. apply (cr_others _ _ _ _ _ _ Hc); [done|done|].
    intros ->. by apply Hx.
  - rewrite decide_False by (intros [? _]; done).
    apply (stay_lookup I J d Hi Hv Hr en_stays); (done || by apply (vk_dir _ Hv)).
Qed.

Lemma en_type e : reach I e → ftype J e = ftype I e.
Proof using Hi Hv Hr Hc. apply (sp_type I J d Hi Hv Hr en_stays). Qed.

Lemma en_empty n : name_ok n → n ≠ [] → lookup_name J fp n = None.
Proof using Hc.
  intros _ _. unfold lookup_name, find_slot, dblocks. by rewrite (cr_size _ _ _ _ _ _ Hc).
Qed.

(** What can be reached afterwards. *)
Lemma en_reach g : reach J g → reach I g ∨ g = fp.
Proof using Hi Hv Hr Hc.
  induction 1 as [|e n g He IH Ety Hok Hnn Hl]; [left; constructor|].
  destruct IH as [IH| ->]; [|by rewrite en_empty in Hl].
  rewrite (en_type e IH) in Ety. rewrite en_lookup in Hl by done.
  case_decide as Hx; [right; by injection Hl|]. left. by eapply reach_sub.
Qed.

Lemma en_below ns h : Forall entry_name ns → resolve J fp ns = Some h ↔ h = fp ∧ ns = [].
Proof using Hc.
  intros Hns. destruct ns as [|n ns]; cbn [resolve].
  { split; [intros [= <-]; done|]. by intros [-> _]. }
  split; [|by intros [_ ?]]. inversion_clear Hns as [|? ? [Hch Hnn] _].
  destruct (Z.leb_spec MAXNAMELEN (Z.of_nat (length n))); [done|].
  destruct (ftype J fp =? FTYPE_DIR); [|done]. by rewrite en_empty.
Qed.

(** The paths that lead to the new file, and all the others. *)
Lemma en_resolve : ∀ ns g h, reach I g → Forall entry_name ns →
  resolve J g ns = Some h ↔
  resolve I g ns = Some h ∨ h = fp ∧ ∃ q, ns = q ++ [name] ∧ resolve I g q = Some d.
Proof using Hi Hv Hr Hdt Hn Hne Hnone Hc.
  induction ns as [|n ns IH]; intros g h Hg Hns.
  { cbn [resolve]. split; [by left|]. intros [H|(_ & [|? ?] & ? & _)]; done. }
  inversion_clear Hns as [|? ? [Hch Hnn] Hns'].
  assert ((∃ q, n :: ns = q ++ [name] ∧ resolve I g q = Some d) ↔
    (g = d ∧ n = name ∧ ns = [] ∨ ∃ q, ns = q ++ [name] ∧ resolve I g (n :: q) = Some d)) as ->.
  { split.
    - intros ([|m q] & E & H); injection E as <- ->; [|right; by exists q].
      left. injection H as ->. done.
    - intros [(-> & -> & ->)|(q & -> & H)]; [by exists []|by exists (n :: q)]. }
  cbn [resolve]. destruct (Z.leb_spec MAXNAMELEN (Z.of_nat (length n))) as [Hlen|Hlen].
  { split; [done|]. intros [?|(_ & [(_ & -> & _)|(q & _ & ?)])]; try done.
    destruct Hn. unfold MAXNAMELEN in *. lia. }
  assert (name_ok n) as Hok by (split; [done|unfold MAXNAMELEN in *; lia]).
  rewrite (en_type g Hg). destruct (Z.eqb_spec (ftype I g) FTYPE_DIR) as [Ety|Ety].
  2: { split; [done|]. intros [?|(_ & [(-> & _)|(q & _ & ?)])]; done. }
  rewrite (en_lookup g n) by done. case_decide as Hx.
  - destruct Hx as [-> ->]. rewrite Hnone. cbn [mbind option_bind]. rewrite en_below by done. split.
    + intros [-> ->]. right. split; [done|]. by left.
    + intros [?|(-> & [(_ & _ & ->)|(q & _ & ?)])]; done.
  - destruct (lookup_name I g n) as [g'|] eqn:El; cbn [mbind option_bind].
    + rewrite IH by (done || by eapply reach_sub). split.
      * intros [H|(-> & Hq)]; [by left|]. right. split; [done|]. by right.
      * intros [H|(-> & [(-> & -> & _)|Hq])]; [by left|by destruct Hx|]. by right.
    + split; [done|]. intros [H|(-> & [(-> & -> & _)|(q & _ & Hq)])]; [done|by destruct Hx|done].
Qed.

Lemma en_vol : vol_ok J.
Proof using Hi Hv Hr Hc.
  split.
  - intros e He Ety. destruct (decide (e = fp)) as [->|Hx].
    { apply dir_empty; [apply (cr_file _ _ _ _ _ _ Hc)|apply (cr_size _ _ _ _ _ _ Hc)|apply (cr_none _ _ _ _ _ _ Hc)]. }
    destruct (en_reach e He) as [Hold|]; [|done]. rewrite (en_type e Hold) in Ety.
    destruct (decide (e = d)) as [->|Hed]; [apply Hc|].
    apply (stay_dir I J d Hi Hv Hr en_stays); (done || by apply (vk_dir _ Hv)).
  - intros g Hg. destruct (decide (g = fp)) as [->|Hx].
    { split; [apply (cr_file _ _ _ _ _ _ Hc)|]. rewrite (cr_size _ _ _ _ _ _ Hc). done. }
    destruct (en_reach g Hg) as [Hold|]; [|done].
    split; [by apply (sp_ok_all I J d Hi Hv Hr en_stays)|].
    destruct (decide (g = d)) as [->|Hne']; [apply (dk_size _ _ (cr_dir _ _ _ _ _ _ Hc))|].
    rewrite (sp_size I J d Hi Hv Hr (sa_other _ _ _ en_stays)) by done. by apply (vk_file _ Hv).
  - intros g Hg. destruct (decide (g = fp)) as [->|Hx].
    { apply none_tail, (cr_none _ _ _ _ _ _ Hc). }
    destruct (en_reach g Hg) as [Hold|]; [|done].
    destruct (decide (g = d)) as [->|Hne']; [apply dir_tail, (cr_dir _ _ _ _ _ _ Hc)|].
    by apply (sp_tail I J d Hi Hv Hr (sa_other _ _ _ en_stays)).
  - intros e He Ety. destruct (decide (e = fp)) as [->|Hx].
    { intros n i j i' j' _ _. unfold dblocks. rewrite (cr_size _ _ _ _ _ _ Hc). change (0 / 4096) with 0. lia. }
    destruct (en_reach e He) as [Hold|]; [|done]. rewrite (en_type e Hold) in Ety.
    destruct (decide (e = d)) as [->|Hed]; [by apply (cr_unique _ _ _ _ _ _ Hc), (vk_names _ Hv)|].
    apply (stay_unique I J d Hi Hv Hr en_stays); (done || by apply (vk_dir _ Hv) || by apply (vk_names _ Hv)).
  - destruct (vk_root _ Hv) as (n & Hok & E). exists n. split; [done|].
    by rewrite (stay_root_name I J d Hi Hv Hr en_stays).
  - intros g h b Hg Hh Ho1 Ho2.
    destruct (en_reach g Hg) as [Hg'| ->]; [|by destruct (cr_none _ _ _ _ _ _ Hc b)].
    destruct (en_reach h Hh) as [Hh'| ->]; [|by destruct (cr_none _ _ _ _ _ _ Hc b)].
    by apply (sp_apart I J d Hi Hv Hr (sa_other _ _ _ en_stays) g h b).
Qed.
(** Nothing gets lost. *)
Lemma en_reach_old g : reach I g → reach J g.
Proof using Hi Hv Hr Hnone Hc.
  induction 1 as [|e n g He IH Ety Hok Hnn Hl]; [constructor|].
  apply (reach_sub J e n g IH); [by rewrite en_type|done|done|].
  rewrite en_lookup by done. case_decide as Hx; [|done]. destruct Hx as [-> ->]. congruence.
Qed.

Lemma en_reach_new : reach J fp.
Proof using Hi Hv Hr Hdt Hn Hne Hnone Hc.
  apply (reach_sub J d name fp); [by apply en_reach_old|by rewrite en_type|done|done|].
  apply (cr_name _ _ _ _ _ _ Hc).
Qed.
End entry.

(** ** The code on a whole volume *)

(** [d] is the directory in which a path leads to the name [n]. *)
Definition parent (I : Z → Z) (f : Z) (ns : list (list Z)) (d : Z) (n : list Z) : Prop :=
  ∃ q, ns = q ++ [n] ∧ resolve I f q = Some d ∧ ftype I d = FTYPE_DIR ∧ Z.of_nat (length n) < MAXNAMELEN.

Lemma parent_cons I f m ns d n : ns ≠ [] → parent I f (m :: ns) d n →
  Z.of_nat (length m) < MAXNAMELEN ∧ ftype I f = FTYPE_DIR ∧
  ∃ g, lookup_name I f m = Some g ∧ parent I g ns d n.
Proof.
  intros Hns ([|x q] & E & Hq & Hrest); injection E as <- ->; [done|]. cbn [resolve] in Hq.
  destruct (Z.leb_spec MAXNAMELEN (Z.of_nat (length m))); [done|].
  destruct (Z.eqb_spec (ftype I f) FTYPE_DIR); [|done]. split; [done|]. split; [done|].
  destruct (lookup_name I f m) as [g|]; [|done]. exists g. split; [done|]. by exists q.
Qed.

(** The three ways in which [walk_path] ends. *)
Lemma follow_cases I : ∀ ns dir f,
  let w := follow I dir f ns in
  w_ret w = 0 ∧ is_Some (resolve I f ns) ∨
  (w_ret w = - E_NOT_FOUND ∨ w_ret w = - E_BAD_PATH) ∧ w_dir w = None ∧ (∀ d n, ¬ parent I f ns d n) ∨
  ∃ d n, w = MkWalked (- E_NOT_FOUND) (Some d) None (Some n) ∧ parent I f ns d n ∧ lookup_name I d n = None.
Proof.
  induction ns as [|m ns IH]; intros dir f; cbn [follow resolve]; [by left; eauto|].
  destruct (decide (ns = [])) as [->|Hns].
  - assert (∀ d n, parent I f [m] d n ↔ f = d ∧ m = n ∧ ftype I d = FTYPE_DIR ∧ Z.of_nat (length m) < MAXNAMELEN)
      as Hp.
    { intros d n. split.
      - intros ([|x q] & E & Hq & Hrest); [injection E as <-|by destruct q]. injection Hq as <-. done.
      - intros (<- & <- & ?). by exists []. }
    destruct (Z.leb_spec MAXNAMELEN (Z.of_nat (length m))).
    { right. left. split; [by right|]. split; [done|]. intros d n (_ & _ & _ & ?)%Hp. lia. }
    destruct (Z.eqb_spec (ftype I f) FTYPE_DIR) as [Ety|Ety]; cbn [negb].
    2: { right. left. split; [by left|]. split; [done|]. intros d n (<- & _ & ? & _)%Hp. done. }
    destruct (lookup_name I f m) as [g|] eqn:El; [left; cbn; eauto|].
    right. right. exists f, m. split; [done|]. split; [by apply Hp|done].
  - destruct (Z.leb_spec MAXNAMELEN (Z.of_nat (length m))).
    { right. left. split; [by right|]. split; [done|].
      intros d n (? & _)%parent_cons; [lia|done]. }
    destruct (Z.eqb_spec (ftype I f) FTYPE_DIR) as [Ety|Ety]; cbn [negb].
    2: { right. left. split; [by left|]. split; [done|]. by intros d n (_ & ? & _)%parent_cons. }
    destruct (lookup_name I f m) as [g|] eqn:El; cbn [mbind option_bind].
    + destruct (IH (Some f) g) as [H0|[(H1 & H2 & H3)|(d & n & E & Hp & Hl)]]; [by left|right; left|right; right].
      * do 2 (split; [done|]). intros d n (_ & _ & g' & E & Hp)%parent_cons; [|done].
        rewrite El in E. injection E as <-. by apply (H3 d n).
      * exists d, n. split; [done|]. split; [|done]. destruct Hp as (q & -> & Hq & Hrest).
        exists (m :: q). split; [done|]. split; [|done]. cbn [resolve].
        rewrite (proj2 (Z.leb_gt _ _)), (proj2 (Z.eqb_eq _ _) Ety), El by done. done.
    + right. left. destruct ns as [|x ns]; [done|]. split; [by left|]. split; [done|].
      intros d n (_ & _ & g & E & _)%parent_cons; [congruence|done].
Qed.

Lemma resolve_reach I : ∀ ns f g, reach I f → Forall entry_name ns → resolve I f ns = Some g → reach I g.
Proof.
  induction ns as [|n ns IH]; intros f g Hf Hns; cbn [resolve]; [by intros [= <-]|].
  inversion_clear Hns as [|? ? [Hc Hne] Hns'].
  destruct (Z.leb_spec MAXNAMELEN (Z.of_nat (length n))); [done|].
  destruct (Z.eqb_spec (ftype I f) FTYPE_DIR) as [Ety|]; [|done].
  destruct (lookup_name I f n) as [h|] eqn:El; [|done]. cbn. apply IH; [|done].
  apply (reach_sub I f n h Hf Ety); [|done|done]. split; [done|]. unfold MAXNAMELEN in *. lia.
Qed.

Lemma elems_names p : Forall (λ c, 0 < c < 256) p → Forall entry_name (elems p).
Proof.
  intros Hp. unfold elems. apply Forall_forall. intros n [Hne Hin]%list_elem_of_filter. split; [|done].
  clear Hne. revert n Hin. apply Forall_forall. induction Hp as [|c p Hc Hp IH]; cbn [split_path].
  { by repeat constructor. }
  destruct (c =? SLASH); [by constructor|]. destruct (split_path p) as [|w ws].
  - constructor; [by constructor|constructor].
  - inversion_clear IH. constructor; [by constructor|done].
Qed.

(** What [file_create] leaves behind when the directory could not get a descriptor:
    its size counts a block that it does not have. *)
Definition overgrown (I J : Z → Z) (d : Z) : Prop := size_of J d = size_of I d + 4096.

Lemma size_img_grown I d : dir_ok I d → size_of (size_img I d (size_of I d + 4096)) d = size_of I d + 4096.
Proof.
  intros Hd. pose proof (dk_size _ _ Hd). unfold MAXFILESIZE, MAXBLK in *.
  rewrite ws_size. rewrite u32_small by (unfold is_u32; lia). apply s32_small. lia.
Qed.

Definition ftype_of (is_dir : bool) : Z := if is_dir then FTYPE_DIR else FTYPE_REG.

(** The file of a path. *)
Definition file_at (I : Z → Z) (path : list Z) : option Z :=
  if decide (head path = Some SLASH) then resolve I ROOT (elems path) else None.

Lemma iwp_file_open Q I path :
  vol_ok I → Forall (λ c, 0 < c < 256) path →
  (∀ r, r = 0 ∧ is_Some (file_at I path) ∨ (r = - E_NOT_FOUND ∨ r = - E_BAD_PATH) ∧ file_at I path = None →
     Q (r, file_at I path) I) →
  iwp (file_open path) Q I.
Proof.
  intros Hv Hc HQ. apply iwp_img. intros Hi. apply iwp_bind, (iwp_walk_path I Hi (vk_dir _ Hv)); [done|].
  apply iwp_ret. unfold file_at in HQ. case_decide; [|apply HQ; right; split; [by right|done]].
  destruct (follow_resolve I (elems path) None ROOT) as [E Hret]. rewrite E. apply HQ.
  destruct (follow_cases I (elems path) None ROOT) as [Hx|[(Hr & _)|(d & n & Ew & _)]]; [by left|right|right].
  - split; [done|]. rewrite <- not_eq_None_Some in Hret. apply dec_stable. rewrite <- Hret. by destruct Hr as [-> | ->].
  - rewrite Ew in *. split; [by left|]. rewrite <- not_eq_None_Some in Hret. apply dec_stable. by rewrite <- Hret.
Qed.

Lemma iwp_file_create Q I path is_dir :
  vol_ok I → Forall (λ c, 0 < c < 256) path →
  (head path = Some SLASH → is_Some (resolve I ROOT (elems path)) → Q (- E_FILE_EXISTS, 0) I) →
  (∀ r, r = - E_NOT_FOUND ∨ r = - E_BAD_PATH →
    (head path = Some SLASH → ∀ d n, ¬ parent I ROOT (elems path) d n) → Q (r, 0) I) →
  (∀ d n J fp, head path = Some SLASH → parent I ROOT (elems path) d n → lookup_name I d n = None →
    name_ok n → n ≠ [] → reach I d → created I J d n fp (ftype_of is_dir) → Q (0, fp) J) →
  (∀ d n J r, head path = Some SLASH → parent I ROOT (elems path) d n → lookup_name I d n = None →
    r = - E_INVAL ∧ size_of I d = MAXFILESIZE ∨ r = - E_NO_DISK ∧ full J → overgrown I J d → Q (r, 0) J) →
  iwp (file_create path is_dir) Q I.
Proof.
  intros Hv Hc Hexists Hno Hyes Hgrown. apply iwp_img. intros Hi.
  apply iwp_bind, (iwp_walk_path I Hi (vk_dir _ Hv)); [done|]. case_decide as Hh.
  2: { cbn. apply iwp_ret, Hno; [by right|done]. }
  destruct (follow_cases I (elems path) None ROOT) as [(E & H)|[(E & E' & H)|(d & n & E & Hp & Hl)]].
  - rewrite E. cbn. by apply iwp_ret, Hexists.
  - destruct (Z.eqb_spec (w_ret (follow I None ROOT (elems path))) 0) as [Ez|_].
    { unfold E_NOT_FOUND, E_BAD_PATH in E. lia. }
    rewrite E'. destruct (negb _); by apply iwp_ret, Hno.
  - rewrite E. cbn [w_ret w_dir w_last]. change (- E_NOT_FOUND =? 0) with false. cbv iota.
    rewrite Z.eqb_refl. cbn [negb]. pose proof Hp as (q & Eq & Hq & Hty & Hlen).
    pose proof (elems_names path Hc) as Hnames. rewrite Eq, Forall_app, Forall_singleton in Hnames.
    destruct Hnames as [Hnq [Hnc Hne]]. assert (reach I d) as Hr by (eapply resolve_reach; [constructor|done|done]).
    assert (name_ok n) as Hn by (by split). pose proof (vk_dir _ Hv d Hr Hty) as Hd.
    apply iwp_bind, (iwp_dir_alloc _ _ _ Hd).
    + intros J fp Hroom. change (0 <? 0) with false. cbv iota. apply iwp_bind, iwp_deref, iwp_assoc.
      apply iwp_bind, (iwp_fill_entry _ I J d fp n (ftype_of is_dir)); try done; [by destruct is_dir|].
      intros L HL. apply iwp_bind, iwp_file_flush; [apply (dk_file _ _ (cr_dir _ _ _ _ _ _ HL))|
        apply (dk_size _ _ (cr_dir _ _ _ _ _ _ HL))|]. apply iwp_ret. by apply (Hyes d n).
    + intros Hfullsz. rewrite neg_err by done. apply iwp_ret, (Hgrown d n); try done; [|by apply size_img_grown].
      left. split; [done|]. destruct (nb_count I d Hd). unfold MAXFILESIZE. lia.
    + intros J Hfull Hg. rewrite neg_err by done. apply iwp_ret, (Hgrown d n); try done; [by right|].
      unfold overgrown. rewrite <- size_img_grown by done. apply grows_size; [|apply (st_ok I), ws_step|done].
      * apply (same_img I); [|done]. apply ws_same; [apply Hd|done].
      * apply Hd.
      * done.
Qed.
