(* ===== verification/FsRemove.v ===== *)
(** * Removing and resizing files

    [file_remove] on the image, and what it and [file_set_size] do to the tree of
    files. *)

From stdpp Require Import base gmap list strings.
From Stdlib Require Import ZArith Lia.
From S2P Require Import Prelude Mmu BlockCache BlockImage Fs FsBitmap FsFile FsRw FsTrunc FsDir FsCreate FsTree.

Set Default Proof Using "Type".

(** The blocks of [f] are free, its descriptor is zero, and nothing else changed. *)
Record removed (I J : Z → Z) (f : Z) : Prop := {
  rv_nblk : nblk J = nblk I;
  rv_free : ∀ b, 0 ≤ b < nblk I → free J b = true ↔ free I b = true ∨ owned I f b;
  rv_frame : ∀ va, ¬ in_bitmap I va → ¬ (f ≤ va < f + 256) → ¬ owned I f (block_of va) → J va = I va;
  rv_zero : ∀ k, 0 ≤ k < 256 → J (f + k) = 0
}.

(** A descriptor is outside the data that describes the volume. *)
Lemma desc_same I f g : 2 ≤ first_data I → file_ok I f → same_meta I (patch I f 256 g).
Proof.
  intros Hfd Hf. assert (∀ va, f ≤ va < f + 256 → block_of va = block_of f) as Hn.
  { intros va H. destruct (member_addr I f Hf (va - f)) as [E _]; [lia|].
    by replace (f + (va - f)) with va in E by lia. }
  assert (∀ va, patch I f 256 g va = I va ∨ block_of va = block_of f ∧ f ≤ va) as Hc.
  { intros va. destruct (Z.lt_ge_cases va f); [left; apply patch_out; lia|].
    destruct (Z.lt_ge_cases va (f + 256)); [right; split; [apply Hn|]; lia|left; apply patch_out; lia]. }
  split.
  - intros i H. destruct (Hc (BLK 1 + 4 + i)) as [|[E Hge]]; [done|]. rewrite <- Z.add_assoc, block_of_BLK in E by lia.
    destruct (fk_block _ _ Hf) as [[_ ?]|]; lia.
  - intros va H. destruct (Hc va) as [|[E _]]; [done|]. rewrite E in H. destruct (fk_block _ _ Hf) as [[? _]|]; lia.
Qed.

Lemma cut_none I J f b : cut I J f 0 → ¬ owned J f b.
Proof.
  intros Hc [H0 [H|(n & Hn & H)]]; apply H0; rewrite H.
  - by rewrite (ct_ind _ _ _ _ Hc), decide_True.
  - by apply (ct_gone _ _ _ _ Hc); [|lia].
Qed.

Lemma iwp_file_remove Q I f :
  file_ok I f → 0 ≤ size_of I f ≤ MAXFILESIZE → no_tail I f →
  (∀ J, removed I J f → Q 0 J) → iwp (file_remove f) Q I.
Proof.
  intros Hf Hsz Ht HQ. apply iwp_img. intros Hi. pose proof (img_first I Hi).
  apply iwp_bind, iwp_truncate; [done|done|done|lia|]. change ((0 + 4095) / 4096) with 0. intros K Hc.
  pose proof (ct_shrunk _ _ _ _ Hc) as Hs. pose proof (sk_ok _ _ _ Hs) as HfK.
  assert (first_data K = first_data I) as Efd by (unfold first_data; by rewrite (sk_nblk _ _ _ Hs)).
  assert (same_meta K (patch K f 256 (λ _, u8 0))) as Hsm by (apply desc_same; [lia|done]).
  apply iwp_img. intros HiK. change sizeof_File with 256. apply iwp_bind, iwp_store_range.
  - apply HfK.
  - apply HfK.
  - exact (same_nblk _ _ Hsm).
  - exact (same_img _ _ Hsm HiK).
  - apply iwp_bind, iwp_flush.
    { apply in_map_spec. destruct (fk_avail _ _ Hf) as [? _]. lia. }
    apply iwp_ret, HQ. split.
    + by rewrite (same_nblk _ _ Hsm), (sk_nblk _ _ _ Hs).
    + intros b Hb. rewrite (same_free _ _ b Hsm), (sk_free _ _ _ Hs) by (rewrite ?(sk_nblk _ _ _ Hs); done).
      pose proof (cut_none _ _ _ b Hc). tauto.
    + intros va Hb Hd Ho. rewrite patch_out by lia. apply (sk_frame _ _ _ Hs); [done| |done].
      unfold in_ptrs, f_direct, f_indirect, MAXNAMELEN, NDIRECT. lia.
    + intros k Hk. by rewrite patch_in.
Qed.

(** ** Looking up a name *)
Lemma lookup_iff I e n g : names_unique I e → name_ok n → n ≠ [] →
  lookup_name I e n = Some g ↔
  ∃ i j, 0 ≤ i < dblocks I e ∧ 0 ≤ j < 16 ∧ g = slot I e i j ∧ name_eqb I g n = true.
Proof.
  intros Hu Hn Hne. split; [apply find_slot_Some|]. intros (i & j & Hi & Hj & -> & E).
  destruct (lookup_name I e n) as [h|] eqn:El.
  - apply (find_slot_Some I e) in El as (i' & j' & Hi' & Hj' & -> & E'). f_equal. by apply (Hu n).
  - pose proof (find_slot_None I e (λ fp, name_eqb I fp n) El i j Hi Hj) as Hf. cbn in Hf. congruence.
Qed.

(** ** The tree without the file *)
Section remove.
Context (I J : Z → Z) (f : Z).
Hypothesis Hi : img_ok I.
Hypothesis Hv : vol_ok I.
Hypothesis Hr : reach I f.
Hypothesis Hroot : f ≠ ROOT.
Hypothesis Hty : ftype I f ≠ FTYPE_DIR.
Hypothesis Hm : removed I J f.

Lemma rv_other : other_step I J f.
Proof using Hi Hv Hr Hty Hm.
  assert (∀ b, avail I b → ¬ owned I f b → avail J b) as Hav.
  { intros b [Hb Hfr] Ho. split; [by rewrite (rv_nblk _ _ _ Hm)|].
    destruct (free J b) eqn:E; [|done]. apply (rv_free _ _ _ Hm) in E as [E|E]; [congruence|done|done]. }
  assert (∀ g, reach I g → ¬ owned I f (block_of g)) as Hno.
  { intros g Hg Ho. by destruct (desc_owner I Hi Hv g f Hg Hr Ho) as (? & ? & ? & _). }
  split; [apply Hm|done| | | |].
  - intros g Hg. apply Hav; [apply (fk_avail _ _ (proj1 (vk_file _ Hv g Hg)))|by apply Hno].
  - intros va _. apply (rv_frame _ _ _ Hm).
  - intros g Hg Ho. by destruct (Hno g Hg).
  - assert (∀ k, 0 ≤ k ≤ 252 → word_at J (f + k) = 0) as Hw.
    { intros k Hk. transitivity (word_at (λ _, 0) 0); [|done]. apply word_ext. intros i Hi'.
      rewrite <- Z.add_assoc. apply (rv_zero _ _ _ Hm). lia. }
    assert (ind J f = 0) as Ei.
    { unfold ind, f_indirect, MAXNAMELEN, NDIRECT. rewrite <- !Z.add_assoc. apply Hw. lia. }
    intros b [H0 [H|(n & Hn & H)]]; destruct H0; rewrite H; [done|]. unfold bmap. rewrite Ei.
    destruct (Z.ltb_spec n 10); [|done]. unfold f_direct, MAXNAMELEN. rewrite <- !Z.add_assoc. apply Hw. lia.
Qed.

Lemma rv_type g : reach I g → g ≠ f → ftype J g = ftype I g.
Proof using Hi Hv Hr Hty Hm. apply (sp_type_ne I J f Hi Hv Hr rv_other). Qed.

Section dir.
Context (e : Z).
Hypothesis He : reach I e.
Hypothesis Hety : ftype I e = FTYPE_DIR.

Lemma rd_ok : e ≠ f ∧ dir_ok I e.
Proof using Hv Hty He Hety. split; [by intros ->|]. by apply (vk_dir _ Hv). Qed.

(** The names that are left. *)
Lemma rd_match i j n : 0 ≤ i < dblocks I e → 0 ≤ j < 16 → name_ok n → n ≠ [] →
  name_eqb J (slot I e i j) n = true ↔ name_eqb I (slot I e i j) n = true ∧ slot I e i j ≠ f.
Proof using Hi Hv Hr Hty Hm He Hety.
  destruct rd_ok as [Hef Hd]. intros Hbi Hj Hn Hne. destruct (decide (slot I e i j = f)) as [Ef|Ef].
  - rewrite Ef. rewrite (name_eqb_zero J f n Hne (proj1 Hn)); [split; [done|]; by intros [_ ?]|].
    pose proof (rv_zero _ _ _ Hm 0). rewrite Z.add_0_r in *. apply H. lia.
  - rewrite (name_eqb_ext J I n _ (slot I e i j)); [tauto|]. intros k Hk. destruct Hn.
    destruct (od_byte I J f Hi Hv Hr rv_other e He Hef Hd i j k) as [|]; (done || lia).
Qed.

Lemma rd_unique : names_unique J e.
Proof using Hi Hv Hr Hty Hm He Hety.
  destruct rd_ok as [Hef Hd]. intros n i j i' j' Hn Hne.
  rewrite !(od_blocks I J f Hi Hv Hr rv_other e He Hef). intros Hbi Hj Hbi' Hj'.
  rewrite !(od_slot I J f Hi Hv Hr rv_other e He Hef Hd) by done.
  rewrite !rd_match by done. intros [E _] [E' _]. by apply (vk_names _ Hv e He Hety n).
Qed.

Lemma rd_lookup n g : name_ok n → n ≠ [] →
  lookup_name J e n = Some g ↔ lookup_name I e n = Some g ∧ g ≠ f.
Proof using Hi Hv Hr Hty Hm He Hety.
  destruct rd_ok as [Hef Hd]. intros Hn Hne.
  rewrite (lookup_iff J e n g rd_unique Hn Hne), (lookup_iff I e n g (vk_names _ Hv e He Hety) Hn Hne).
  rewrite (od_blocks I J f Hi Hv Hr rv_other e He Hef). split.
  - intros (i & j & Hbi & Hj & -> & E). rewrite (od_slot I J f Hi Hv Hr rv_other e He Hef Hd) in * by done.
    apply rd_match in E as [E Ef]; [|done..]. split; [by exists i, j|done].
  - intros [(i & j & Hbi & Hj & -> & E) Hgf]. exists i, j. do 2 (split; [done|]).
    rewrite (od_slot I J f Hi Hv Hr rv_other e He Hef Hd) by done. split; [done|]. by apply rd_match.
Qed.

Lemma rd_dir : dir_ok J e.
Proof using Hi Hv Hr Hty Hm He Hety.
  destruct rd_ok as [Hef Hd]. apply (od_dir I J f Hi Hv Hr rv_other e He Hef Hd).
  intros i j _ _ _ _ k Hk. by apply (rv_zero _ _ _ Hm).
Qed.
End dir.

Lemma rv_reach g : reach J g → reach I g ∧ g ≠ f.
Proof using Hi Hv Hr Hroot Hty Hm.
  induction 1 as [|d n g Hd [IH Hdf] Ety Hn Hne Hl]; [split; [constructor|done]|].
  rewrite rv_type in Ety by done. apply rd_lookup in Hl as [Hl Hgf]; [|done..].
  split; [by eapply reach_sub|done].
Qed.

Lemma rv_reach_old g : reach I g → g ≠ f → reach J g.
Proof using Hi Hv Hr Hroot Hty Hm.
  induction 1 as [|d n g Hd IH Ety Hn Hne Hl]; intros Hgf; [constructor|].
  assert (d ≠ f) as Hdf by (by intros ->). apply (reach_sub J d n g); [by apply IH|by rewrite rv_type|done|done|].
  by apply rd_lookup.
Qed.

Lemma rv_resolve : ∀ ns g h, reach I g → g ≠ f → Forall entry_name ns →
  resolve J g ns = Some h ↔ resolve I g ns = Some h ∧ h ≠ f.
Proof using Hi Hv Hr Hroot Hty Hm.
  induction ns as [|n ns IH]; intros g h Hg Hgf Hns; cbn [resolve].
  { split; [by intros [= <-]|]. by intros [? _]. }
  inversion_clear Hns as [|x ? [Hc Hne] Hns'].
  destruct (Z.leb_spec MAXNAMELEN (Z.of_nat (length n))) as [_|Hlen]; [by split; [|intros [? _]]|].
  rewrite (rv_type g Hg Hgf). destruct (Z.eqb_spec (ftype I g) FTYPE_DIR) as [Ety|_]; [|by split; [|intros [? _]]].
  assert (name_ok n) as Hn by (split; [done|unfold MAXNAMELEN in *; lia]).
  pose proof (λ y, rd_lookup g Hg Ety n y Hn Hne) as Hl.
  destruct (lookup_name I g n) as [g'|] eqn:El; cbn [mbind option_bind].
  - assert (reach I g') as Hx by (by eapply reach_sub). destruct (decide (g' = f)) as [->|Hxf].
    + assert (lookup_name J g n = None) as ->.
      { destruct (lookup_name J g n) as [y|]; [|done]. destruct (proj1 (Hl y) eq_refl) as [[= ->] ?]. done. }
      cbn. split; [done|]. intros [Hres Hhf]. destruct ns as [|m ns]; cbn [resolve] in Hres; [congruence|].
      destruct (MAXNAMELEN <=? _); [done|]. by rewrite (proj2 (Z.eqb_neq _ _) Hty) in Hres.
    + rewrite (proj2 (Hl g')) by done. cbn. by apply IH.
  - assert (lookup_name J g n = None) as ->; [|by split; [|intros [? _]]].
    destruct (lookup_name J g n) as [y|]; [|done]. by destruct (proj1 (Hl y) eq_refl).
Qed.

Lemma rv_vol : vol_ok J.
Proof using Hi Hv Hr Hroot Hty Hm.
  split.
  - intros e [He Hef]%rv_reach. rewrite rv_type by done. by apply rd_dir.
  - intros g [Hg Hgf]%rv_reach. split; [by apply (sp_ok I J f Hi Hv Hr rv_other)|].
    rewrite (sp_size I J f Hi Hv Hr rv_other) by done. by apply (vk_file _ Hv).
  - intros g [Hg Hgf]%rv_reach. by apply (sp_tail I J f Hi Hv Hr rv_other).
  - intros e [He Hef]%rv_reach. rewrite rv_type by done. by apply rd_unique.
  - destruct (vk_root _ Hv) as (n & [Hc Hl] & E). exists n. split; [done|]. rewrite <- E. apply name_eqb_ext.
    intros k Hk. apply (sp_desc I J f Hi Hv Hr rv_other); [constructor|done|lia].
  - intros g h b [Hg _]%rv_reach [Hh _]%rv_reach. by apply (sp_apart I J f Hi Hv Hr rv_other).
Qed.
End remove.

(** ** Other changes of a file that is not a directory *)
Lemma resized_stays I J f v :
  img_ok I → vol_ok I → reach I f → ftype I f ≠ FTYPE_DIR → resized I J f v → stays I J f.
Proof.
  intros Hi Hv Hr Hty Hz.
  assert (∀ b, avail I b → ¬ owned I f b → avail J b) as Hav.
  { intros b [Hb Hfr] Ho. split; [by rewrite (rz_nblk _ _ _ _ Hz)|].
    destruct (free J b) eqn:E; [|done]. apply (rz_free _ _ _ _ Hz) in E as [E|[E _]]; [congruence|done|done]. }
  assert (∀ g, reach I g → ¬ owned I f (block_of g)) as Hno.
  { intros g Hg Ho. by destruct (desc_owner I Hi Hv g f Hg Hr Ho) as (? & ? & ? & _). }
  split; [split|apply Hz|].
  - apply Hz.
  - done.
  - intros g Hg. apply Hav; [apply (fk_avail _ _ (proj1 (vk_file _ Hv g Hg)))|by apply Hno].
  - intros va _ Hb Hd Ho. apply (rz_frame _ _ _ _ Hz); [done| |done].
    intros (k & ? & ? & ?)%in_desc_off. lia.
  - intros g Hg Ho. by destruct (Hno g Hg).
  - intros b Ho. left. by apply (rz_own _ _ _ _ Hz).
  - intros k Hk Hd. destruct (vk_file _ Hv f Hr) as [Hf _]. destruct (member_addr I f Hf k Hk) as [E _].
    apply (rz_frame _ _ _ _ Hz); rewrite ?E; [by apply member_not_bitmap|done|by apply Hno].
Qed.

(** The volume and the paths after a change of a file that is not a directory. *)
Record kept (I J : Z → Z) : Prop := {
  kp_vol : vol_ok J;
  kp_reach : ∀ g, reach I g ↔ reach J g;
  kp_type : ∀ g, reach I g → ftype J g = ftype I g
}.

Lemma kept_refl I : vol_ok I → kept I I.
Proof. by split. Qed.

Lemma stays_kept I J f :
  img_ok I → vol_ok I → reach I f → ftype I f ≠ FTYPE_DIR → stays I J f →
  0 ≤ size_of J f ≤ MAXFILESIZE → no_tail J f → kept I J.
Proof.
  intros Hi Hv Hr Hty Hs Hsz Ht. split; [by apply (rg_vol I J f)| |].
  - intros g. symmetry. by apply (rg_reach I J f).
  - intros g Hg. by apply (sp_type I J f).
Qed.

Lemma resized_kept I J f v :
  img_ok I → vol_ok I → reach I f → ftype I f ≠ FTYPE_DIR → 0 ≤ v ≤ MAXFILESIZE → resized I J f v → kept I J.
Proof.
  intros Hi Hv Hr Hty Hsz Hz. apply (stays_kept I J f); try done.
  - by apply (resized_stays I J f v).
  - by rewrite (rz_size _ _ _ _ Hz).
  - apply Hz.
Qed.

Lemma wrote_kept I J f buf offset mid :
  img_ok I → vol_ok I → reach I f → ftype I f ≠ FTYPE_DIR → 0 ≤ offset →
  mid ≤ offset + Z.of_nat (length buf) → offset + Z.of_nat (length buf) ≤ MAXFILESIZE →
  file_wrote I J f buf offset mid → kept I J.
Proof.
  intros Hi Hv Hr Hty Ho Hmid Hmax Hw. destruct (vk_file _ Hv f Hr) as [_ Hsz].
  apply (stays_kept I J f); try done.
  - apply rg_stays; try done. apply Hw.
  - rewrite (fw_size _ _ _ _ _ _ Hw). lia.
  - intros n Hn. rewrite (fw_size _ _ _ _ _ _ Hw). intros Hge.
    rewrite (fw_map _ _ _ _ _ _ Hw) by lia. apply (vk_tail _ Hv f Hr); lia.
Qed.

(** Reading; a directory has no holes. *)
Lemma filled_kept I J f stop :
  img_ok I → vol_ok I → reach I f → stop ≤ size_of I f → filled I J f stop →
  (ftype I f = FTYPE_DIR → J = I) → kept I J.
Proof.
  intros Hi Hv Hr Hstop Hfl Hdir. destruct (vk_file _ Hv f Hr) as [Hf Hsz].
  destruct (decide (ftype I f = FTYPE_DIR)) as [E|E]; [rewrite (Hdir E); by apply kept_refl|].
  pose proof (grows_size I J f Hi Hf (fl_grows _ _ _ _ Hfl)) as Es. apply (stays_kept I J f); try done.
  - apply rg_stays; try done. apply grows_step, Hfl.
  - by rewrite Es.
  - intros n Hn. rewrite Es. intros Hge. rewrite (fl_map _ _ _ _ Hfl) by lia. apply (vk_tail _ Hv f Hr); lia.
Qed.

Lemma dir_solid I f offset stop : dir_ok I f → 0 ≤ offset → stop ≤ size_of I f → solid I f offset stop.
Proof.
  intros Hd Ho Hs i Hi. apply (dk_here _ _ Hd). unfold dblocks. pose proof (dk_mult _ _ Hd).
  pose proof (dk_size _ _ Hd). dlia.
Qed.
