(* ===== verification/FsMount.v ===== *)
(** * Starting the file system, and what survives a restart

    [fs_init] on any disk with a sound super block and bitmap, including the self
    test of the block cache, and [fs_sync]. *)

From stdpp Require Import base gmap list strings.
From Stdlib Require Import ZArith Lia FunctionalExtensionality.
From S2P Require Import Prelude Mmu BlockCache BlockImage Fs FsBitmap FsFile.

Set Default Proof Using "Type".

(** ** Before the super block is known

    Only block 1 is in the cache, if any. *)
Inductive page1 := Absent | Clean | Dirty.

Definition has (s : fsst) (k : page1) : Prop :=
  match k, cache s !! 1 with
  | Absent, None => True
  | Clean, Some p => dirty p = false ∧ ∀ o, 0 ≤ o < 4096 → u8 (bytes p o) = u8 (disk s (4096 + o))
  | Dirty, Some p => dirty p = true
  | _, _ => False
  end.

Record raw (s : fsst) (I : Z → Z) (k : page1) : Prop := {
  rw_super : super s = None;
  rw_bitmap : bitmap s = None;
  rw_granted : refusals s = [];
  rw_cache : ∀ b p, cache s !! b = Some p → b = 1;
  rw_cur : cur s = I;
  rw_has : has s k
}.

Definition rwp {A} (m : M fsst A) (Q : A → (Z → Z) → page1 → Prop) (I : Z → Z) (k : page1) : Prop :=
  ∀ s, raw s I k → wpr m (λ a s', ∃ I' k', raw s' I' k' ∧ Q a I' k') s.

Lemma rwp_ret {A} (a : A) Q I k : Q a I k → rwp (ret a) Q I k.
Proof. intros HQ s Hs. apply wp_ret. eauto. Qed.

Lemma rwp_bind {A B} (m : M fsst A) (f : A → M fsst B) Q I k :
  rwp m (λ a, rwp (f a) Q) I k → rwp (bind m f) Q I k.
Proof.
  intros H s Hs. apply wp_bind. eapply wp_mono_ret; [by apply H|]. intros a s' (I' & k' & Hs' & H'). by apply H'.
Qed.

Lemma rwp_massert b Q I k : b = true → Q tt I k → rwp (massert b) Q I k.
Proof. intros ->. apply rwp_ret. Qed.

(** Accesses to block 1. *)
Definition fetched (k : page1) : page1 := match k with Absent => Clean | _ => k end.

Lemma raw_page s I k p : raw s I k → cache s !! 1 = Some p → k ≠ Absent.
Proof. intros H Hp ->. pose proof (rw_has _ _ _ H) as Hh. unfold has in Hh. by rewrite Hp in Hh. Qed.

Lemma raw_touch s I k va : raw s I k → block_of va = 1 →
  ∃ s' p, touch va s = Ret tt s' ∧ raw s' I (fetched k) ∧ cache s' !! 1 = Some p.
Proof.
  intros Hs Hva. assert (in_map va = true) as Em by (apply in_map_spec; lia).
  unfold touch, touch_with, va_is_mapped. unfold bind at 1, gets. rewrite Hva, Em.
  destruct (cache s !! 1) as [p|] eqn:Hp.
  { rewrite bool_decide_eq_true_2 by (by eexists). exists s, p. pose proof (raw_page _ _ _ _ Hs Hp).
    split; [done|]. split; [by destruct k|done]. }
  rewrite bool_decide_eq_false_2 by (by intros [? ?]). cbn [andb].
  destruct (load_block_raw s 1 (rw_granted _ _ _ Hs)) as (s1 & s2 & p & E1 & E2 & E3 & Hd & Hb); [lia|].
  exists (put_page 1 p s), p.
  assert (k = Absent) as ->.
  { pose proof (rw_has _ _ _ Hs) as Hh. unfold has in Hh. rewrite Hp in Hh. by destruct k. }
  split; [|split; [|apply lookup_insert_eq]].
  - unfold pgfault. cbn [bc_pgfault]. rewrite Em, Hva, (round_page va Em), Hva. cbn [negb].
    unfold bind at 1, gets. rewrite (rw_super _ _ _ Hs). unfold bind at 1, ret at 1.
    rewrite (bind_eq _ _ _ _ _ E1). change (0 <? 0) with false. cbv iota.
    rewrite (bind_eq _ _ _ _ _ E2). change (0 <? 0) with false. cbv iota.
    rewrite (bind_eq _ _ _ _ _ E3). change (0 <? 0) with false. cbv iota.
    unfold bind. cbn [bitmap put_page set_cache]. by rewrite (rw_bitmap _ _ _ Hs).
  - split; try apply Hs.
    + intros b q H. cbn in H. apply lookup_insert_Some in H as [[<- _]|[_ H]]; [done|]. by apply (rw_cache _ _ _ Hs b q).
    + rewrite <- (rw_cur _ _ _ Hs). apply functional_extensionality. intros a. rewrite cur_put.
      case_decide as Ea; [|done]. unfold cur. rewrite Ea, Hp, Hb by (apply Z.mod_pos_bound; lia).
      do 2 f_equal. pose proof (va_split a) as Hsp. rewrite Ea in Hsp. unfold BLK in Hsp. lia.
    + unfold has. cbn [cache disk put_page set_cache fetched]. rewrite lookup_insert_eq. split; [done|].
      intros o Ho. by rewrite Hb.
Qed.

Lemma rwp_load8 Q I k va : block_of va = 1 → Q (I va) I (fetched k) → rwp (load8 va) Q I k.
Proof.
  intros Hva HQ s Hs. destruct (raw_touch s I k va Hs Hva) as (s' & p & E & Hs' & Hp).
  eapply wp_intro; [|eauto]. unfold load8. rewrite (bind_eq _ _ _ _ _ E). unfold peek8.
  rewrite Hva, Hp. rewrite <- (rw_cur _ _ _ Hs'). unfold cur. by rewrite Hva, Hp.
Qed.

Lemma rwp_load_range Q I k va n : block_of va = 1 → va mod 4096 + n ≤ 4096 →
  Q ((λ i, I (va + i)) <$> seqZ 0 n) I (fetched k) → rwp (load_range va n) Q I k.
Proof.
  intros Hva Hm HQ s Hs. destruct (raw_touch s I k va Hs Hva) as (s' & p & E & Hs' & Hp).
  eapply wp_intro; [|eauto]. unfold load_range. rewrite (bind_eq _ _ _ _ _ E). change PGSIZE with 4096.
  rewrite (proj2 (Z.leb_le _ _) Hm), Hva, Hp. f_equal. apply list_fmap_ext. intros i j Hj.
  apply list_elem_of_lookup_2, elem_of_seqZ in Hj. rewrite <- (rw_cur _ _ _ Hs'). unfold cur.
  destruct (block_near va j) as [-> ->]; [lia|lia|]. by rewrite Hva, Hp.
Qed.

Lemma rwp_store_range Q I k va n g : block_of va = 1 → va mod 4096 + n ≤ 4096 →
  Q tt (patch I va n (λ i, u8 (g i))) Dirty → rwp (store_range va n g) Q I k.
Proof.
  intros Hva Hm HQ s Hs. destruct (raw_touch s I k va Hs Hva) as (s' & p & E & Hs' & Hp).
  rewrite <- Hva in Hp. pose proof (cur_store s' va n g p Hp Hm) as Ec. rewrite (rw_cur _ _ _ Hs') in Ec.
  eapply wp_intro.
  - unfold store_range. rewrite (bind_eq _ _ _ _ _ E). change PGSIZE with 4096.
    rewrite (proj2 (Z.leb_le _ _) Hm), Hp. reflexivity.
  - exists (patch I va n (λ i, u8 (g i))), Dirty. split; [|done]. split; try apply Hs'.
    + intros b q H. cbn in H. apply lookup_insert_Some in H as [[<- _]|[_ H]]; [done|]. by apply (rw_cache _ _ _ Hs' b q).
    + exact Ec.
    + unfold has. cbn [cache set_cache]. by rewrite Hva, lookup_insert_eq.
Qed.

Lemma rwp_flush Q I k va : block_of va = 1 → k ≠ Absent → Q tt I Clean → rwp (flush_block va) Q I k.
Proof.
  intros Hva Hk HQ s Hs. assert (in_map va = true) as Em by (apply in_map_spec; lia).
  pose proof (rw_has _ _ _ Hs) as Hh. unfold has in Hh.
  destruct (cache s !! 1) as [p|] eqn:Hp; [|by destruct k]. destruct k; [done|..].
  - eapply wp_intro; [apply flush_block_skip; [done|]; rewrite Hva, Hp; by destruct Hh|]. eauto.
  - rewrite <- Hva in Hp. destruct (flush_block_raw s va p (rw_granted _ _ _ Hs) Em Hp Hh) as (d & E & Hd).
    destruct (cur_flush s _ p d Hp Hd) as [Ec _]. eapply wp_intro; [exact E|].
    exists I, Clean. split; [|done]. split; try apply Hs.
    + intros b q H. cbn in H. apply lookup_insert_Some in H as [[<- _]|[_ H]]; [done|]. by apply (rw_cache _ _ _ Hs b q).
    + rewrite Ec. apply Hs.
    + unfold has. cbn [cache disk set_cache put_page set_disk]. rewrite Hva, lookup_insert_eq. split; [done|].
      intros o Ho. cbn [bytes]. rewrite Hd, Hva, decide_True by dlia. do 2 f_equal. dlia.
Qed.

Lemma rwp_unmap Q I k : k ≠ Dirty → Q 0 I Absent → rwp (bc_page_unmap (BLK 1)) Q I k.
Proof.
  intros Hk HQ s Hs. eapply wp_intro; [reflexivity|]. exists I, Absent. split; [|done]. split; try apply Hs.
  - intros b q H. cbn in H. apply lookup_delete_Some in H as [_ H]. by apply (rw_cache _ _ _ Hs b q).
  - rewrite <- (rw_cur _ _ _ Hs). apply functional_extensionality. intros a. unfold cur. cbn [cache disk set_cache].
    change (block_of (BLK 1)) with 1. destruct (decide (block_of a = 1)) as [Ea|Ea]; [|by rewrite lookup_delete_ne].
    rewrite Ea, lookup_delete_eq. pose proof (rw_has _ _ _ Hs) as Hh. unfold has in Hh.
    destruct (cache s !! 1) as [p|]; [|done]. destruct k; [done| |done]. destruct Hh as [_ Hh].
    rewrite Hh by (apply Z.mod_pos_bound; lia). do 2 f_equal.
    pose proof (va_split a) as Hsp. rewrite Ea in Hsp. unfold BLK in Hsp. lia.
  - unfold has. cbn [cache set_cache]. change (block_of (BLK 1)) with 1. by rewrite lookup_delete_eq.
Qed.

Lemma rwp_mapped Q I k : Q (match k with Absent => false | _ => true end) I k → rwp (va_is_mapped (BLK 1)) Q I k.
Proof.
  intros HQ s Hs. apply wp_gets. exists I, k. split; [done|]. change (block_of (BLK 1)) with 1.
  change (in_map (BLK 1)) with true. pose proof (rw_has _ _ _ Hs) as Hh. unfold has in Hh.
  destruct (cache s !! 1) as [p|].
  - rewrite bool_decide_eq_true_2 by (by eexists). by destruct k.
  - rewrite bool_decide_eq_false_2 by (by intros [? ?]). by destruct k.
Qed.

Lemma rwp_dirty Q I k : Q (match k with Dirty => true | _ => false end) I k → rwp (va_is_dirty (BLK 1)) Q I k.
Proof.
  intros HQ s Hs. apply wp_gets. exists I, k. split; [done|]. change (block_of (BLK 1)) with 1.
  pose proof (rw_has _ _ _ Hs) as Hh. unfold has in Hh. destruct (cache s !! 1) as [p|]; destruct k; try done.
  - by destruct Hh as [-> _].
  - by rewrite Hh.
Qed.

Lemma rwp_diskaddr Q I k : Q (BLK 1) I k → rwp (diskaddr 1) Q I k.
Proof.
  intros HQ s Hs. eapply wp_intro; [|eauto]. unfold diskaddr. change (1 =? 0) with false. cbv iota.
  unfold bind at 1, gets. by rewrite (rw_super _ _ _ Hs).
Qed.

Lemma rwp_strcmp_eq I : ∀ name va Q k,
  Forall (λ c, 0 < c) name →
  (∀ i, 0 ≤ i ≤ Z.of_nat (length name) → block_of (va + i) = 1) →
  (∀ i, (i < length name)%nat → name !! i = Some (I (va + Z.of_nat i))) →
  I (va + Z.of_nat (length name)) = 0 → Q true I (fetched k) → rwp (strcmp_eq va name) Q I k.
Proof.
  induction name as [|c name IH]; intros va Q k Hpos Hb Hn Hz HQ; cbn [strcmp_eq].
  - apply rwp_bind, rwp_load8; [specialize (Hb 0); rewrite Z.add_0_r in Hb; apply Hb; cbn; lia|].
    rewrite Z.add_0_r in Hz. rewrite Hz. by apply rwp_ret.
  - inversion_clear Hpos. apply rwp_bind, rwp_load8.
    { specialize (Hb 0). rewrite Z.add_0_r in Hb. apply Hb. cbn. lia. }
    pose proof (Hn 0%nat ltac:(cbn; lia)) as E. rewrite Z.add_0_r in E. cbn in E. injection E as E.
    rewrite <- E, Z.eqb_refl. rewrite (proj2 (ctrue_true c)) by lia. cbn [andb].
    apply IH; [done|..].
    + intros i Hi. replace (va + 1 + i) with (va + (1 + i)) by lia. apply Hb. cbn [length]. lia.
    + intros i Hi. specialize (Hn (S i)). replace (va + 1 + Z.of_nat i) with (va + Z.of_nat (S i)) by lia.
      apply Hn. cbn. lia.
    + replace (va + 1 + Z.of_nat (length name)) with (va + Z.of_nat (length (c :: name))) by (cbn [length]; lia). done.
    + by destruct k.
Qed.

Lemma blk1_near i : 0 ≤ i < 4096 → block_of (BLK 1 + i) = 1.
Proof. apply block_of_BLK. Qed.

(** The smashed super block, and what is put back. *)
Lemma restore_eq I : (∀ a, u8 (I a) = I a) →
  patch (patch I (BLK 1) 7 (λ i, u8 ((OOPS ++ [0]) !!! Z.to_nat i))) (BLK 1) sizeof_Super
    (λ i, u8 (((λ j, I (BLK 1 + j)) <$> seqZ 0 sizeof_Super) !!! Z.to_nat i)) = I.
Proof.
  intros Hu. apply functional_extensionality. intros a. unfold patch. change sizeof_Super with 264.
  destruct (Z.le_gt_cases (BLK 1) a), (Z.lt_ge_cases a (BLK 1 + 264)).
  - rewrite (proj2 (Z.leb_le _ _)), (proj2 (Z.ltb_lt a _)) by lia. cbn [andb].
    rewrite (list_lookup_total_correct _ _ (I a)); [done|].
    rewrite list_lookup_fmap, lookup_seqZ_lt by lia. cbn. do 2 f_equal. lia.
  - rewrite (proj2 (Z.ltb_ge a (BLK 1 + 264))) by lia. rewrite !andb_false_r.
    by rewrite (proj2 (Z.ltb_ge a (BLK 1 + 7))), andb_false_r by lia.
  - by rewrite (proj2 (Z.leb_gt (BLK 1) a)) by lia.
  - by rewrite (proj2 (Z.leb_gt (BLK 1) a)) by lia.
Qed.

Lemma rwp_check_round Q I k flush :
  (∀ a, u8 (I a) = I a) →
  (∀ Q' J, Q' tt J Clean → rwp (flush (BLK 1)) Q' J Dirty) →
  Q tt I Clean → rwp (check_bc_round flush) Q I k.
Proof.
  intros Hu Hflush HQ. assert (block_of (BLK 1) = 1 ∧ BLK 1 mod 4096 = 0) as [E1 E2] by apply BLK_page.
  apply rwp_bind, rwp_diskaddr, rwp_bind, rwp_load_range; [done|rewrite E2; by vm_compute|].
  apply rwp_bind. unfold strcpy. apply rwp_store_range; [done|rewrite E2; by vm_compute|].
  change (Z.of_nat (length OOPS) + 1) with 7. set (J := patch I (BLK 1) 7 _).
  apply rwp_bind, Hflush, rwp_bind, rwp_mapped, rwp_bind, rwp_massert; [done|].
  apply rwp_bind, rwp_unmap; [done|]. apply rwp_bind, rwp_mapped, rwp_bind, rwp_massert; [done|].
  assert (∀ i, 0 ≤ i < 7 → J (BLK 1 + i) = u8 ((OOPS ++ [0]) !!! Z.to_nat i)) as HJ.
  { intros i Hi. unfold J. rewrite patch_in by done. done. }
  apply rwp_bind, rwp_strcmp_eq.
  - repeat constructor.
  - intros i Hi. apply blk1_near. cbn in Hi. lia.
  - intros i Hi. cbn in Hi. rewrite HJ by lia. rewrite Nat2Z.id. do 6 (destruct i as [|i]; [done|]). lia.
  - change (Z.of_nat (length OOPS)) with 6. by rewrite HJ.
  - apply rwp_bind, rwp_massert; [done|]. apply rwp_bind, rwp_store_range; [done|rewrite E2; by vm_compute|].
    unfold J. rewrite restore_eq by done. by apply rwp_flush.
Qed.

Lemma rwp_bc_init Q I k : (∀ a, u8 (I a) = I a) → Q tt I Clean → rwp bc_init Q I k.
Proof.
  intros Hu HQ. assert (block_of (BLK 1) = 1 ∧ BLK 1 mod 4096 = 0) as [E1 E2] by apply BLK_page.
  apply rwp_bind, rwp_bind, rwp_check_round; [done| |].
  { intros Q' J HQ'. apply rwp_bind, rwp_flush; [done|done|]. apply rwp_bind, rwp_flush; [done|done|].
    apply rwp_bind, rwp_mapped, rwp_bind, rwp_massert; [done|]. apply rwp_bind, rwp_dirty. by apply rwp_massert. }
  apply rwp_check_round; [done| |].
  { intros Q' J HQ'. apply rwp_flush; [by apply blk1_near|done|done]. }
  apply rwp_bind, rwp_diskaddr, rwp_bind, rwp_load_range; [done|rewrite E2; by vm_compute|]. by apply rwp_ret.
Qed.

(** ** Mounting *)
Definition disk_only (d : Z → Z) : fsst := MkFs d ∅ None None [].

Lemma cur_u8 s a : u8 (cur s a) = cur s a.
Proof. apply u8_idem. Qed.

Lemma raw_disk_only d : raw (disk_only d) (cur (disk_only d)) Absent.
Proof. split; try done. Qed.

Lemma iwp_check_bitmap Q I : Q tt I → iwp check_bitmap Q I.
Proof.
  intros HQ. apply iwp_img. intros Hi. pose proof (img_first I Hi) as Hfd.
  apply iwp_bind, iwp_nblocks. change BLKBITSIZE with 32768.
  assert (∀ b Q', 0 ≤ b < first_data I → Q' tt I →
    iwp (let* x := block_is_free b in massert (negb x)) Q' I) as Hb.
  { intros b Q' Hb HQ'. apply iwp_bind, iwp_block_is_free; [lia|]. apply iwp_massert; [|done].
    by rewrite (io_reserved _ Hi b Hb). }
  apply iwp_bind, (iwp_for_up (λ _ J, J = I)); [done| |].
  - intros i J Hin ->. apply Hb; [|done]. rewrite Z2Nat.id in Hin by dlia. unfold first_data.
    replace (nblk I + 32768 - 1) with (nblk I + 32767) in Hin by lia. lia.
  - intros J ->. apply iwp_bind, iwp_block_is_free; [lia|]. apply iwp_bind, iwp_massert.
    { by rewrite (io_reserved _ Hi 0) by lia. }
    apply Hb; [lia|done].
Qed.

(** The super block is in the cache and the pointer to it is set. *)
Section super_known.
Context (s1 : fsst) (I : Z → Z).
Hypothesis Hs1 : raw s1 I Clean.
Hypothesis Hi : img_ok I.
Hypothesis Hmagic : word_at I (BLK 1) = FS_MAGIC.
Let s2 : fsst := set_super (Some (BLK 1)) s1.

Lemma mt_cached : is_Some (cache s2 !! 1).
Proof using Hs1.
  pose proof (rw_has _ _ _ Hs1) as Hh. unfold has in Hh. cbn. destruct (cache s1 !! 1); [by eexists|done].
Qed.

Lemma mt_load va : block_of va = 1 → va mod 4096 ≤ 4092 → load32 va s2 = Ret (word_at I va) s2.
Proof using Hs1.
  intros Eb Em. pose proof mt_cached as Hc. rewrite <- Eb in Hc. unfold load32, bind, touch.
  rewrite touch_cached by (done || lia). rewrite peek32_eq by done. by rewrite <- (rw_cur _ _ _ Hs1).
Qed.

Lemma mt_nblocks : s_nblocks s2 = Ret (nblk I) s2.
Proof using Hs1. apply (mt_load (BLK 1 + 4)); [by apply blk1_near|by vm_compute]. Qed.

Lemma mt_check_super : check_super s2 = Ret tt s2.
Proof using Hs1 Hi Hmagic.
  pose proof (img_first I Hi). unfold check_super. unfold bind at 1, gets. unfold bind at 1.
  cbn [super s2 set_super deref ret]. destruct (BLK_page 1) as [Eb Em].
  rewrite (bind_eq _ _ _ _ _ (mt_load (BLK 1) Eb ltac:(lia))), Hmagic. cbn [Z.eqb negb].
  change (FS_MAGIC =? FS_MAGIC) with true. cbn [negb]. rewrite (bind_eq _ _ _ _ _ mt_nblocks).
  change (DISKSIZE / BLKSIZE) with 786432. by rewrite (proj2 (Z.ltb_ge _ _)) by lia.
Qed.

Lemma mt_diskaddr : diskaddr 2 s2 = Ret (BLK 2) s2.
Proof using Hs1 Hi.
  pose proof (img_first I Hi). unfold diskaddr. change (2 =? 0) with false. cbv iota.
  unfold bind at 1, gets. cbn [super s2 set_super].
  erewrite bind_eq by (rewrite (bind_eq _ _ _ _ _ mt_nblocks); reflexivity).
  by rewrite (proj2 (Z.leb_gt _ _)) by lia.
Qed.

Lemma mt_ok : fs_ok (set_bitmap (Some (BLK 2)) s2).
Proof using Hs1 Hi.
  pose proof (img_first I Hi). assert (cur (set_bitmap (Some (BLK 2)) s2) = I) as Ec by apply Hs1.
  split; [done|done|apply Hs1|exact mt_cached| |by rewrite Ec].
  intros b p H'. apply (rw_cache _ _ _ Hs1) in H' as ->. rewrite Ec. lia.
Qed.

Lemma mt_mount : ∃ s',
  (let* p := diskaddr 1 in
   do* modify (set_super (Some p)) in
   do* check_super in
   let* p := diskaddr 2 in
   do* modify (set_bitmap (Some p)) in
   check_bitmap) s1 = Ret tt s' ∧ fs_ok s' ∧ cur s' = I.
Proof using Hs1 Hi Hmagic.
  destruct (wpr_inv _ _ _ (iwp_check_bitmap (λ _ J, J = I) I eq_refl _ mt_ok (rw_cur _ _ _ Hs1)))
    as ([] & s' & E & Hok & Ec). exists s'. split; [|done].
  assert (diskaddr 1 s1 = Ret (BLK 1) s1) as Ed1.
  { unfold diskaddr. change (1 =? 0) with false. cbv iota. unfold bind at 1, gets. by rewrite (rw_super _ _ _ Hs1). }
  rewrite (bind_eq _ _ _ _ _ Ed1). unfold bind at 1, modify at 1. fold s2.
  rewrite (bind_eq _ _ _ _ _ mt_check_super), (bind_eq _ _ _ _ _ mt_diskaddr).
  unfold bind at 1, modify at 1. exact E.
Qed.
End super_known.

Lemma fs_init_ok d : let I := cur (disk_only d) in
  img_ok I → word_at I (BLK 1) = FS_MAGIC →
  ∃ s', fs_init (disk_only d) = Ret tt s' ∧ fs_ok s' ∧ cur s' = I.
Proof.
  intros I Hi Hmagic.
  destruct (wpr_inv _ _ _ (rwp_bc_init (λ _ J k, J = I ∧ k = Clean) I Absent (cur_u8 _) (conj eq_refl eq_refl)
    _ (raw_disk_only d))) as ([] & s1 & E1 & J & k & Hs1 & -> & ->).
  unfold fs_init. rewrite (bind_eq _ _ _ _ _ E1). exact (mt_mount s1 I Hs1 Hi Hmagic).
Qed.

(** ** Writing everything out *)

(** The drive has the bytes of block [b]. *)
Definition on_disk (s : fsst) (b : Z) : Prop :=
  ∀ o, 0 ≤ o < 4096 → u8 (disk s (b * 4096 + o)) = cur s (BLK b + o).

(** A page that differs from the disk but is not dirty, or is that of block 0, which is
    never written out. *)
Definition unsaved (s : fsst) (b : Z) : Prop :=
  ∃ p, cache s !! b = Some p ∧ (dirty p = false ∨ b = 0) ∧ ¬ on_disk s b.

Lemma on_disk_dec s b : Decision (on_disk s b).
Proof.
  refine (cast_if (decide (Forall (λ o, u8 (disk s (b * 4096 + o)) = cur s (BLK b + o)) (seqZ 0 4096)))).
  - intros o Ho. rewrite Forall_forall in f. apply f, elem_of_seqZ. lia.
  - intros H. apply n, Forall_forall. intros o Ho%elem_of_seqZ. apply H. lia.
Defined.

Lemma saved_or s b : ¬ unsaved s b → ∀ p, cache s !! b = Some p → dirty p = true ∧ b ≠ 0 ∨ on_disk s b.
Proof.
  intros H p Hp. destruct (on_disk_dec s b) as [|Hn]; [by right|]. left. destruct (dirty p) eqn:Hd.
  - split; [done|]. intros ->. apply H. exists p. auto.
  - destruct H. exists p. auto.
Qed.

Lemma uncached_on_disk s b : cache s !! b = None → on_disk s b.
Proof.
  intros H o Ho. unfold cur. rewrite block_of_BLK, H by done. do 2 f_equal. unfold BLK. lia.
Qed.

(** What [fs_sync] has done up to block [n]. *)
Record synced (s s' : fsst) (n : Z) : Prop := {
  sy_ok : fs_ok s';
  sy_cur : cur s' = cur s;
  sy_cache : ∀ b p, cache s' !! b = Some p → ∃ q, cache s !! b = Some q ∧ bytes q = bytes p ∧ (n ≤ b → q = p);
  sy_done : ∀ b, (∀ p, cache s !! b = Some p → dirty p = true ∧ b ≠ 0 ∨ on_disk s b) → b < n → on_disk s' b;
  sy_rest : ∀ b, n ≤ b → ∀ o, 0 ≤ o < 4096 → disk s' (b * 4096 + o) = disk s (b * 4096 + o)
}.

Lemma on_disk_same s s' b : cur s' = cur s →
  (∀ o, 0 ≤ o < 4096 → disk s' (b * 4096 + o) = disk s (b * 4096 + o)) → on_disk s b → on_disk s' b.
Proof. intros Ec Hd H o Ho. rewrite Ec, Hd by done. by apply H. Qed.

Lemma sync_start s : fs_ok s → synced s s 1.
Proof.
  intros Hok. split; try done; [intros b p H; by exists p|]. intros b Hb Hlt.
  destruct (cache s !! b) as [p|] eqn:E; [|by apply uncached_on_disk].
  destruct (Hb p eq_refl) as [[_ Hz]|]; [|done]. pose proof (fo_cache _ Hok b p E). lia.
Qed.

Lemma sync_step s s1 b :
  synced s s1 b → 1 ≤ b < nblk (cur s) →
  ∃ s2, (let* a := diskaddr b in flush_block a) s1 = Ret tt s2 ∧ synced s s2 (b + 1).
Proof.
  intros [Hok Hc Hcache Hdone Hrest] Hb. pose proof (nblk_bound s1 Hok) as Hnb. rewrite <- Hc in Hb.
  destruct (BLK_page b) as [Eb _].
  destruct (flush_block_eq s1 (BLK b) Hok) as (s2 & E & Ec & Hok2 & Hd & Hca & Hm).
  { apply in_map_spec. rewrite Eb. lia. }
  rewrite Eb in Hd, Hca, Hm. exists s2. split.
  { destruct (wpr_inv _ _ _ (iwp_diskaddr (λ a _, a = BLK b) (cur s1) b ltac:(lia) eq_refl s1 Hok eq_refl))
      as (a & s' & Ea & _ & ->).
    assert (s' = s1) as ->.
    { revert Ea. unfold diskaddr. rewrite (proj2 (Z.eqb_neq b 0)) by lia. unfold bind at 1, gets.
      rewrite (fo_super _ Hok). unfold s_nblocks.
      erewrite bind_eq by (rewrite (bind_eq _ _ _ _ _ (nblocks_eq _ s1 Hok)); reflexivity).
      destruct (nblk (cur s1) <=? b); [done|]. by intros [= _ <-]. }
    by rewrite (bind_eq _ _ _ _ _ Ea). }
  split; [done|congruence|..].
  - intros b' p H. destruct (decide (b' = b)) as [->|Hne].
    + destruct (cache s1 !! b) as [q|] eqn:Eq; [|subst s2; congruence].
      destruct (Hcache b q Eq) as (q0 & H0 & Hbytes & _). exists q0. split; [done|]. split; [|lia].
      destruct (dirty q); [destruct Hm as [Hm _]|subst s2]; simplify_eq/=; congruence.
    + rewrite Hca in H by done. destruct (Hcache b' p H) as (q & ? & ? & Hq). exists q.
      split; [done|]. split; [done|]. intros. apply Hq. lia.
  - intros b' Hb' Hlt. destruct (decide (b' = b)) as [->|Hne].
    + destruct (cache s1 !! b) as [q|] eqn:Eq.
      * destruct (Hcache b q Eq) as (q0 & H0 & Hbytes & Hq). specialize (Hq ltac:(lia)). subst q0.
        destruct (dirty q) eqn:Edq.
        -- destruct Hm as [_ Hm]. intros o Ho. rewrite Hm by done. rewrite Ec. unfold cur.
           by rewrite block_of_BLK, BLK_mod, Eq by done.
        -- subst s2. destruct (Hb' q H0) as [[? _]|Hon]; [congruence|].
           apply (on_disk_same s s1); [done|apply Hrest; lia|done].
      * subst s2. by apply uncached_on_disk.
    + apply (on_disk_same s1 s2); [done| |apply Hdone; [done|lia]].
      intros o Ho. apply Hd. dlia.
  - intros b' Hge o Ho. rewrite Hd by dlia. apply Hrest; [lia|done].
Qed.

Lemma sync_loop s : ∀ (n : nat) b s1,
  synced s s1 b → 1 ≤ b → b + Z.of_nat n ≤ nblk (cur s) →
  ∃ s2, for_up n b (λ i, let* a := diskaddr i in flush_block a) s1 = Ret tt s2 ∧ synced s s2 (b + Z.of_nat n).
Proof.
  induction n as [|n IH]; intros b s1 Hs Hb Hn; cbn [for_up].
  { exists s1. split; [done|]. by rewrite Z.add_0_r. }
  destruct (sync_step s s1 b Hs ltac:(lia)) as (s2 & E & Hs2). rewrite (bind_eq _ _ _ _ _ E).
  destruct (IH (b + 1) s2 Hs2 ltac:(lia) ltac:(lia)) as (s3 & E3 & Hs3). exists s3. split; [done|].
  by replace (b + Z.of_nat (S n)) with (b + 1 + Z.of_nat n) by lia.
Qed.

(** [fs_sync] never fails, and leaves the image as it is. *)
Lemma fs_sync_ok s : fs_ok s → ∃ s', fs_sync s = Ret tt s' ∧ synced s s' (nblk (cur s)).
Proof.
  intros Hok. pose proof (nblk_bound s Hok). unfold fs_sync, s_nblocks.
  rewrite (bind_eq _ _ _ _ _ (nblocks_eq _ s Hok)).
  destruct (sync_loop s (Z.to_nat (nblk (cur s) - 1)) 1 s (sync_start s Hok)) as (s' & E & Hs); [lia|lia|].
  replace (1 + Z.of_nat (Z.to_nat (nblk (cur s) - 1))) with (nblk (cur s)) in Hs by lia. by exists s'.
Qed.

(** After [fs_sync] the disk alone has the image, but for the blocks that were not saved. *)
Lemma sync_image s : fs_ok s →
  ∃ s', fs_sync s = Ret tt s' ∧ fs_ok s' ∧ cur s' = cur s ∧
    ∀ a, ¬ unsaved s (block_of a) → cur (disk_only (disk s')) a = cur s a.
Proof.
  intros Hok. pose proof (nblk_bound s Hok). destruct (fs_sync_ok s Hok) as (s' & E & Hs).
  exists s'. split; [done|]. split; [apply Hs|]. split; [apply Hs|].
  intros a Ha. rewrite <- (sy_cur _ _ _ Hs).
  assert (on_disk s' (block_of a)) as Hon.
  { destruct (Z.lt_ge_cases (block_of a) (nblk (cur s))) as [Hlt|Hge].
    - apply (sy_done _ _ _ Hs); [|done]. by apply saved_or.
    - apply uncached_on_disk. destruct (cache s' !! block_of a) as [p|] eqn:Ep; [|done].
      pose proof (fo_cache _ (sy_ok _ _ _ Hs) _ _ Ep) as Hbd. rewrite (sy_cur _ _ _ Hs) in Hbd. lia. }
  specialize (Hon (a mod 4096) ltac:(apply Z.mod_pos_bound; lia)). rewrite <- va_split in Hon.
  rewrite <- Hon. unfold cur at 1. cbn [cache disk disk_only]. rewrite lookup_empty. do 2 f_equal.
  pose proof (va_split a). unfold BLK in *. lia.
Qed.

(** The super block and the first block of the bitmap make the volume. *)
Lemma img_ok_same I J : img_ok I → (∀ b o, 1 ≤ b < 3 → 0 ≤ o < 4096 → J (BLK b + o) = I (BLK b + o)) →
  img_ok J ∧ word_at J (BLK 1) = word_at I (BLK 1).
Proof.
  intros [H1 H2] HJ. assert (∀ b o, 1 ≤ b < 3 → 0 ≤ o < 4093 → word_at J (BLK b + o) = word_at I (BLK b + o)) as Hw.
  { intros b o Hb Ho. unfold word_at. rewrite <- !Z.add_assoc, !HJ by lia. done. }
  assert (nblk J = nblk I) as En by (unfold nblk; apply Hw; lia). assert (first_data J = first_data I) as Ef by (unfold first_data; by rewrite En).
  split; [|specialize (Hw 1 0); rewrite Z.add_0_r in Hw; apply Hw; lia]. split; rewrite Ef, ?En; [done|]. intros b Hb. rewrite <- (H2 b Hb). unfold free. f_equal.
  assert (b / 32 = 0) as -> by (unfold first_data in *; dlia). apply Hw; lia.
Qed.
