(* ===== verification/FsDemo.v ===== *)
(** * A small disk

    Eight blocks: the boot block, the super block, the bitmap, one block of the root
    directory with the empty file "a", and four free blocks.  [mounted] is the state
    after [fs_init]. *)

From stdpp Require Import base gmap list strings.
From Stdlib Require Import ZArith Lia.
From S2P Require Import Prelude Mmu BlockCache BlockImage Fs FsBitmap FsFile FsRw.

Set Default Proof Using "Type".

(** The words of the disk that are not zero, by address. *)
Definition disk_words : list (Z * Z) :=
  [(4096, FS_MAGIC); (4100, 8);                            (* the super block *)
   (4104, 47); (4104 + 128, 4096); (4104 + 132, 1); (4104 + 136, 3);   (* the root *)
   (8192, 0xF0);                                           (* blocks 4 to 7 are free *)
   (3 * 4096, 97)].                                        (* the file "a" *)

Definition disk0 (a : Z) : Z :=
  match List.find (λ w, w.1 =? a / 4 * 4) disk_words with
  | Some w => byte_of w.2 (a mod 4)
  | None => 0
  end.

Definition unmounted : fsst := MkFs disk0 ∅ None None [].
Definition mounted : fsst := match fs_init unmounted with Ret _ s => s | _ => unmounted end.

(** The root directory and the file. *)
Definition root : Z := BLK 1 + 8.
Definition file_a : Z := BLK 3.

Definition returns {S A} (o : outcome S A) : bool := match o with Ret _ _ => true | _ => false end.

Lemma mounted_ok : fs_init unmounted = Ret tt mounted.
Proof.
  assert (returns (fs_init unmounted) = true) as H by (vm_compute; reflexivity).
  unfold mounted. destruct (fs_init unmounted) as [[] s| | |]; (done || discriminate H).
Qed.

Lemma mounted_ptrs : super mounted = Some (BLK 1) ∧ bitmap mounted = Some (BLK 2) ∧
  refusals mounted = [] ∧ (map_to_list (cache mounted)).*1 = [2; 1].
Proof. vm_compute. repeat split. Qed.

Lemma mounted_nblk : nblk (cur mounted) = 8.
Proof. vm_compute. reflexivity. Qed.

Lemma mounted_free_at b : 0 ≤ b < 8 → free (cur mounted) b = bool_decide (4 ≤ b).
Proof.
  intros Hb. assert (b = 0 ∨ b = 1 ∨ b = 2 ∨ b = 3 ∨ b = 4 ∨ b = 5 ∨ b = 6 ∨ b = 7) as Hc by lia.
  repeat destruct Hc as [->|Hc]; [..|subst b]; vm_compute; reflexivity.
Qed.

Lemma key_in {A} (m : gmap Z A) l b p : (map_to_list m).*1 = l → m !! b = Some p → b ∈ l.
Proof.
  intros <- H. apply elem_of_map_to_list in H. apply list_elem_of_fmap. by exists (b, p).
Qed.

Lemma mounted_cached b p : cache mounted !! b = Some p → b = 1 ∨ b = 2.
Proof.
  destruct mounted_ptrs as (_ & _ & _ & E). intros H.
  pose proof (key_in _ _ _ _ E H) as Hb. clear E H. set_solver.
Qed.

Lemma mounted_super : is_Some (cache mounted !! 1).
Proof.
  assert ((if cache mounted !! 1 then true else false) = true) as H by (vm_compute; reflexivity).
  revert H. generalize (cache mounted !! 1). intros [p|] H; [by exists p|discriminate H].
Qed.

Lemma mounted_img : img_ok (cur mounted).
Proof.
  split; unfold first_data; rewrite mounted_nblk; [vm_compute; split; discriminate|].
  change (2 + (8 + 32767) / 32768) with 3. intros b Hb. rewrite mounted_free_at by lia.
  apply bool_decide_eq_false_2. lia.
Qed.

Lemma mounted_fs_ok : fs_ok mounted.
Proof.
  destruct mounted_ptrs as (H1 & H2 & H3 & _).
  split; [exact H1|exact H2|exact H3|exact mounted_super| |exact mounted_img].
  intros b p H. rewrite mounted_nblk. apply mounted_cached in H. lia.
Qed.

(** ** The empty file *)
Lemma file_a_ptrs n : 0 ≤ n < 10 → word_at (cur mounted) (f_direct file_a n) = 0.
Proof.
  intros Hn. assert (n = 0 ∨ n = 1 ∨ n = 2 ∨ n = 3 ∨ n = 4 ∨ n = 5 ∨ n = 6 ∨ n = 7 ∨ n = 8 ∨ n = 9)
    as Hc by lia. repeat destruct Hc as [->|Hc]; [..|subst n]; vm_compute; reflexivity.
Qed.

Lemma file_a_ind : ind (cur mounted) file_a = 0.
Proof. vm_compute. reflexivity. Qed.

Lemma file_a_size : size_of (cur mounted) file_a = 0.
Proof. vm_compute. reflexivity. Qed.

Lemma file_a_ok : file_ok (cur mounted) file_a.
Proof.
  assert (block_of file_a = 3) as E by (vm_compute; reflexivity).
  apply file_empty_ok; rewrite ?E.
  - vm_compute. discriminate.
  - split; [rewrite mounted_nblk; lia|by rewrite mounted_free_at].
  - unfold first_data. rewrite mounted_nblk. vm_compute. discriminate.
  - apply file_a_ptrs.
  - apply file_a_ind.
Qed.
