(* ===== verification/FsProps.v ===== *)
(** * Properties of the file system *)

From stdpp Require Import base gmap list strings.
From Stdlib Require Import ZArith Lia FunctionalExtensionality.
From S2P Require Import Prelude Mmu BlockCache BlockImage Fs FsBitmap FsFile FsRw FsMount FsDemo.

Set Default Proof Using "Type".

(** A result of the file system code, from its weakest precondition. *)
Lemma iwp_result {A} (m : M fsst A) (Q : A → (Z → Z) → Prop) s :
  fs_ok s → iwp m Q (cur s) → ∃ a s', m s = Ret a s' ∧ fs_ok s' ∧ Q a (cur s').
Proof.
  intros Hok H. destruct (wpr_inv _ _ _ (H s Hok eq_refl)) as (a & s' & E & ? & ?). by exists a, s'.
Qed.

(** [alloc_block] returns the lowest free block, which is never the boot block,
    the super block or a block of the bitmap, and clears its bit and no other bit or
    byte; only when no block is free it returns [-E_NO_DISK], and changes nothing. *)
Theorem alloc_block_correct s :
  fs_ok s →
  ∃ r s', alloc_block s = Ret r s' ∧ fs_ok s' ∧
    (r = - E_NO_DISK ∧ full (cur s) ∧ cur s' = cur s ∨
     first_data (cur s) ≤ r < nblk (cur s) ∧ free (cur s) r = true ∧
     (∀ b, 0 ≤ b < r → free (cur s) b = false) ∧ bits (cur s) (cur s') r false).
Proof.
  intros Hok. apply (iwp_result alloc_block (λ r J, r = - E_NO_DISK ∧ full (cur s) ∧ J = cur s ∨
     first_data (cur s) ≤ r < nblk (cur s) ∧ free (cur s) r = true ∧
     (∀ b, 0 ≤ b < r → free (cur s) b = false) ∧ bits (cur s) J r false) s Hok).
  apply iwp_alloc_block.
  - intros H. by left.
  - intros b J Hb Hf Hlt Hbits. by right.
Qed.

Lemma alloc_block_correct_witness :
  ∃ s', alloc_block mounted = Ret 4 s' ∧ free (cur s') 4 = false ∧ free (cur s') 5 = true.
Proof.
  destruct (alloc_block_correct mounted mounted_fs_ok) as (r & s' & E & _ & H).
  destruct H as [(_ & Hfull & _)|(Hr & Hf & Hlt & Hb)].
  - specialize (Hfull 4). rewrite mounted_nblk, mounted_free_at in Hfull by lia. discriminate Hfull. lia.
  - rewrite mounted_nblk in Hr. assert (r = 4) as ->.
    { destruct (Z.lt_ge_cases r 4) as [H|H].
      - rewrite mounted_free_at in Hf by (unfold first_data in Hr; rewrite mounted_nblk in Hr; dlia).
        apply bool_decide_eq_true_1 in Hf. lia.
      - destruct (Z.eq_dec r 4) as [|Hne]; [done|]. specialize (Hlt 4 ltac:(lia)).
        rewrite mounted_free_at in Hlt by lia. discriminate Hlt. }
    exists s'. split; [exact E|].
    rewrite !(bt_free _ _ _ _ Hb) by (rewrite mounted_nblk; lia).
    split; [reflexivity|]. rewrite decide_False by lia. rewrite mounted_free_at by lia. reflexivity.
Defined.

(** [file_write] of a range below the largest file size either writes all of it
    and returns its length, or stops with [-E_NO_DISK] on a disk with no free block,
    with a prefix written.  The size becomes the old one or the end of the range,
    whichever is larger; in both cases every other byte of the file, every other
    allocated block and every other descriptor is as before, the file got no block
    that was in use, and it is well formed. *)
Theorem file_write_correct s f buf offset :
  let n := Z.of_nat (length buf) in
  fs_ok s → file_ok (cur s) f → 0 ≤ size_of (cur s) f ≤ MAXFILESIZE →
  0 ≤ offset → offset + n ≤ MAXFILESIZE →
  ∃ r s' mid, file_write f buf offset s = Ret r s' ∧ fs_ok s' ∧
    file_wrote (cur s) (cur s') f buf offset mid ∧
    (r = n ∧ mid = offset + n ∨
     r = - E_NO_DISK ∧ full (cur s') ∧ offset ≤ mid ≤ offset + n).
Proof.
  intros n Hok Hf Hsz Ho Hmax.
  destruct (iwp_result (file_write f buf offset) (λ r J, ∃ mid, file_wrote (cur s) J f buf offset mid ∧
    (r = n ∧ mid = offset + n ∨ r = - E_NO_DISK ∧ full J ∧ offset ≤ mid ≤ offset + n)) s Hok)
    as (r & s' & E & Hok' & mid & Hw & Hr).
  - apply iwp_file_write; try done.
    + intros J HJ. exists (offset + n). split; [done|]. by left.
    + intros J mid Hmid HJ Hfull. exists mid. split; [done|]. by right.
  - by exists r, s', mid.
Qed.

Lemma file_write_correct_witness :
  ∃ r s', file_write file_a [104; 105] 0 mounted = Ret r s' ∧ size_of (cur s') file_a = 2.
Proof.
  destruct (file_write_correct mounted file_a [104; 105] 0 mounted_fs_ok file_a_ok)
    as (r & s' & mid & E & _ & Hw & _).
  - rewrite file_a_size. vm_compute. split; discriminate.
  - lia.
  - vm_compute. discriminate.
  - exists r, s'. split; [exact E|]. rewrite (fw_size _ _ _ _ _ _ Hw), file_a_size. reflexivity.
Defined.

(** [file_read] returns the bytes of the file from [offset] to the end of the
    request or of the file, holes as zeros, and leaves the contents of the file as
    they are; it fails only when a hole has to be filled and no block is free. *)
Theorem file_read_correct s f count offset :
  fs_ok s → file_ok (cur s) f → 0 ≤ size_of (cur s) f ≤ MAXFILESIZE → 0 ≤ offset → is_u32 count →
  let n := Z.max 0 (Z.min count (size_of (cur s) f - offset)) in
  ∃ r buf s', file_read f count offset s = Ret (r, buf) s' ∧ fs_ok s' ∧ grows (cur s) (cur s') f ∧
    (r = n ∧ buf = contents (cur s) f offset n ∨
     r = - E_NO_DISK ∧ full (cur s') ∧
     ∃ i, offset ≤ i < offset + n ∧ bmap (cur s) f (i / 4096) = 0).
Proof.
  intros Hok Hf Hsz Ho Hc n.
  destruct (iwp_result (file_read f count offset) (λ rb J, grows (cur s) J f ∧
    (rb.1 = n ∧ rb.2 = contents (cur s) f offset n ∨ rb.1 = - E_NO_DISK ∧ full J ∧
     ∃ i, offset ≤ i < offset + n ∧ bmap (cur s) f (i / 4096) = 0)) s Hok)
    as ([r buf] & s' & E & Hok' & Hg & H); [|by exists r, buf, s'].
  apply iwp_file_read; try done.
  - intros Hle. split; [by apply grows_refl|]. left. assert (n = 0) as -> by lia. done.
  - intros J Hlt Hg _. split; [apply Hg|]. left. destruct Hc.
    assert (n = Z.min count (size_of (cur s) f - offset)) as -> by lia. done.
  - intros J b Hlt Hg Hfull Hh _. split; [apply Hg|]. right. destruct Hc. split; [done|]. split; [done|].
    assert (n = Z.min count (size_of (cur s) f - offset)) as -> by lia. done.
Qed.

Lemma file_read_correct_witness :
  ∃ r s', file_read file_a 10 0 mounted = Ret (r, []) s' ∧ r = 0.
Proof.
  destruct (file_read_correct mounted file_a 10 0 mounted_fs_ok file_a_ok)
    as (r & buf & s' & E & _ & _ & H).
  - rewrite file_a_size. vm_compute. split; discriminate.
  - lia.
  - split; [lia|reflexivity].
  - rewrite file_a_size in H. change (Z.max 0 (Z.min 10 (0 - 0))) with 0 in H.
    destruct H as [[-> ->]|(_ & _ & k & Hk & _)]; [exists 0, s'; split; [exact E|reflexivity]|].
    exfalso. lia.
Defined.

Lemma contents_lookup I f pos n (i : nat) : Z.of_nat i < n →
  contents I f pos n !! i = Some (fdata I f (pos + Z.of_nat i)).
Proof. intros Hi. unfold contents. by rewrite list_lookup_fmap, lookup_seqZ_lt. Qed.

(** What was written is read back: after a [file_write] that reported success,
    [file_read] of the same range returns exactly the bytes written, without needing
    a block. *)
Theorem file_write_read s f buf offset s1 :
  let n := Z.of_nat (length buf) in
  fs_ok s → file_ok (cur s) f → 0 ≤ size_of (cur s) f ≤ MAXFILESIZE →
  0 ≤ offset → offset + n ≤ MAXFILESIZE → Forall (λ b, 0 ≤ b < 256) buf →
  file_write f buf offset s = Ret n s1 →
  ∃ s2, file_read f n offset s1 = Ret (n, buf) s2 ∧ grows (cur s1) (cur s2) f.
Proof.
  intros n Hok Hf Hsz Ho Hmax Hbytes Hwrite.
  destruct (iwp_result (file_write f buf offset) (λ r J, r = - E_NO_DISK ∨
    file_wrote (cur s) J f buf offset (offset + n)) s Hok) as (r & s' & E & Hok1 & Hw).
  { apply iwp_file_write; try done; [by right|by left]. }
  rewrite Hwrite in E. injection E as <- <-. destruct Hw as [Hw|Hw]; [unfold E_NO_DISK in Hw; lia|].
  pose proof (fw_size _ _ _ _ _ _ Hw) as Esz. fold n in Esz.
  destruct (iwp_result (file_read f n offset) (λ rb J, rb = (n, buf) ∧ grows (cur s1) J f) s1 Hok1)
    as ([r b] & s2 & E & _ & Eq & Hg); [|by exists s2; rewrite E, Eq].
  apply iwp_file_read; try lia; [apply Hw|unfold is_u32, MAXFILESIZE, MAXBLK in *; lia|..].
  - intros Hle. assert (length buf = 0%nat) as Hl by lia. apply nil_length_inv in Hl. subst buf.
    split; [done|]. apply grows_refl, Hw.
  - intros J Hlt Hg _. split; [|apply Hg]. assert (Z.min n (size_of (cur s1) f - offset) = n) as -> by lia.
    f_equal. apply list_eq. intros i. destruct (Nat.lt_ge_cases i (length buf)) as [Hi|Hi].
    + rewrite contents_lookup by lia. rewrite (fw_data _ _ _ _ _ _ Hw) by lia.
      rewrite (proj2 (Z.leb_le _ _)), (proj2 (Z.ltb_lt _ _)) by lia. cbn [andb].
      replace (Z.to_nat (offset + Z.of_nat i - offset)) with i by lia.
      destruct (lookup_lt_is_Some_2 buf i Hi) as [x Hx]. rewrite (list_lookup_total_correct _ _ _ Hx), Hx.
      f_equal. rewrite Forall_lookup in Hbytes. apply Z.mod_small. by apply (Hbytes i).
    + rewrite !lookup_ge_None_2; [done|done|]. unfold contents. rewrite length_fmap, length_seqZ. lia.
  - intros J b Hlt Hg Hfull (k & Hk & Hz) _. exfalso.
    assert (Z.min n (size_of (cur s1) f - offset) = n) as Em by lia. rewrite Em in Hk.
    by apply (fw_blocks _ _ _ _ _ _ Hw k).
Qed.

Lemma wrote_mounted : ∃ s1, file_write file_a [104; 105] 0 mounted = Ret 2 s1.
Proof.
  assert ((match file_write file_a [104; 105] 0 mounted with Ret r _ => r | _ => -1 end) = 2) as H
    by (vm_compute; reflexivity).
  revert H. generalize (file_write file_a [104; 105] 0 mounted). intros [r s1| | |] H; try discriminate H.
  exists s1. by rewrite H.
Qed.

Lemma file_write_read_witness :
  ∃ s1 s2, file_write file_a [104; 105] 0 mounted = Ret 2 s1 ∧
    file_read file_a 2 0 s1 = Ret (2, [104; 105]) s2.
Proof.
  destruct wrote_mounted as [s1 E].
  destruct (file_write_read mounted file_a [104; 105] 0 s1 mounted_fs_ok file_a_ok) as (s2 & E2 & _).
  - rewrite file_a_size. vm_compute. split; discriminate.
  - lia.
  - vm_compute. discriminate.
  - repeat constructor; lia.
  - exact E.
  - exists s1, s2. split; [exact E|exact E2].
Defined.

(** C19. What [fs_sync] has written survives.  [fs_sync] always completes and leaves the
    image as it is; a file system that then starts from the disk alone, with an empty
    cache, passes its self tests, and its image is the one before in every block but those
    that were not saved.  These are the pages that differ from the disk without being
    dirty: block 0, and a block that [file_get_block] has put into a hole and nobody has
    written to, which [fs_sync] leaves as the disk has it.  The super block and the bitmap
    must not be among them. *)
Theorem fs_sync_restart s :
  fs_ok s → word_at (cur s) (BLK 1) = FS_MAGIC → (∀ b, 1 ≤ b < first_data (cur s) → ¬ unsaved s b) →
  ∃ s1 s2, fs_sync s = Ret tt s1 ∧ fs_ok s1 ∧ cur s1 = cur s ∧
    fs_init (disk_only (disk s1)) = Ret tt s2 ∧ fs_ok s2 ∧
    (∀ a, ¬ unsaved s (block_of a) → cur s2 a = cur s a) ∧
    ((∀ b, ¬ unsaved s b) → cur s2 = cur s).
Proof.
  intros Hok Hmagic Hc. destruct (sync_image s Hok) as (s1 & E1 & Hok1 & Ec1 & Ed). pose proof (io_size _ (fo_img _ Hok)) as [Hsz _].
  destruct (img_ok_same (cur s) (cur (disk_only (disk s1))) (fo_img _ Hok)) as [Hi Hm].
  { intros b o Hb Ho. apply Ed. rewrite block_of_BLK by done. apply Hc. unfold first_data in *. dlia. }
  destruct (fs_init_ok (disk s1) Hi) as (s2 & E2 & Hok2 & Ec2); [by rewrite Hm|].
  exists s1, s2. do 5 (split; [done|]). rewrite Ec2. split; [exact Ed|]. intros Hall. apply functional_extensionality. intros a. by apply Ed.
Qed.

Lemma mounted_on_disk_b : forallb (λ a, u8 (disk mounted a) =? cur mounted (DISKMAP + a)) (seqZ 4096 8192) = true.
Proof. vm_compute. reflexivity. Qed.

Lemma mounted_on_disk b : b = 1 ∨ b = 2 → on_disk mounted b.
Proof.
  intros Hb o Ho. pose proof mounted_on_disk_b as H. rewrite forallb_forall in H.
  specialize (H (b * 4096 + o)). rewrite <- list_elem_of_In, elem_of_seqZ in H.
  specialize (H ltac:(lia)). apply Z.eqb_eq in H. unfold BLK. rewrite <- Z.add_assoc. exact H.
Qed.

Lemma fs_sync_restart_witness :
  ∃ s1 s2, fs_sync mounted = Ret tt s1 ∧ fs_init (disk_only (disk s1)) = Ret tt s2 ∧
    size_of (cur s2) file_a = 0.
Proof.
  destruct (fs_sync_restart mounted mounted_fs_ok) as (s1 & s2 & E1 & _ & _ & E2 & _ & _ & Ec).
  - vm_compute. reflexivity.
  - intros b _ (p & H & _ & Hn). exact (Hn (mounted_on_disk b (mounted_cached b p H))).
  - exists s1, s2. split; [exact E1|]. split; [exact E2|]. rewrite Ec; [exact file_a_size|]. intros b (p & H & _ & Hn). exact (Hn (mounted_on_disk b (mounted_cached b p H))).
Defined.

(** The small disk with old data in its free blocks. *)
Definition disk_used (a : Z) : Z := if 16384 <=? a then 255 else disk0 a.

(** Grow the file "a" over a hole, read it, and write everything out. *)
Definition grow_and_sync : M fsst (Z * list Z) :=
  let* _ := file_set_size file_a 10 in
  let* r := file_read file_a 10 0 in
  do* fs_sync in
  ret r.

Definition result_of {A} (o : outcome fsst A) : option A := match o with Ret a _ => Some a | _ => None end.

Lemma result_inv {A} (o : outcome fsst A) a : result_of o = Some a → ∃ s, o = Ret a s.
Proof. destruct o as [a' s| | |]; try discriminate. intros [= ->]. by exists s. Qed.

Lemma result_bind {A B} (m : M fsst A) (k : A → M fsst B) s b :
  result_of (bind m k s) = Some b → ∃ a s', m s = Ret a s' ∧ result_of (k a s') = Some b.
Proof. unfold bind. destruct (m s) as [a s'| | |]; try discriminate. by exists a, s'. Qed.

(** A block that [file_get_block] puts into a hole is zero in the cache, but not
    marked dirty, so that [fs_sync] leaves the old data of the disk in place: ten
    bytes that are read as zeros are read as the deleted data after a restart. *)
Theorem hole_read_stale :
  ∃ s s1 s2 s3, fs_init (disk_only disk_used) = Ret tt s ∧
    grow_and_sync s = Ret (10, replicate 10 0) s1 ∧
    fs_init (disk_only (disk s1)) = Ret tt s2 ∧
    file_read file_a 10 0 s2 = Ret (10, replicate 10 255) s3.
Proof.
  assert (result_of ((do* fs_init in
      let* r := grow_and_sync in
      do* modify (λ s, disk_only (disk s)) in
      do* fs_init in
      let* r' := file_read file_a 10 0 in
      ret (r, r')) (disk_only disk_used)) = Some ((10, replicate 10 0), (10, replicate 10 255))) as H
    by (vm_compute; reflexivity).
  apply result_bind in H as ([] & s & E & H). apply result_bind in H as (r & s1 & E1 & H).
  change (result_of (bind (λ s, Ret tt (disk_only (disk s1)))
    (λ _, do* fs_init in let* r' := file_read file_a 10 0 in ret (r, r')) s1) =
    Some ((10, replicate 10 0), (10, replicate 10 255))) in H.
  apply result_bind in H as ([] & s2' & [= <-] & H). apply result_bind in H as ([] & s2 & E2 & H).
  apply result_bind in H as (r' & s3 & E3 & H). injection H as -> ->.
  exists s, s1, s2, s3. exact (conj E (conj E1 (conj E2 E3))).
Qed.
