(* ===== verification/FsTreeProps.v ===== *)
(** * Properties of the tree of files *)

From stdpp Require Import base gmap list strings.
From Stdlib Require Import ZArith Lia.
From S2P Require Import Prelude Mmu BlockCache BlockImage Fs FsBitmap FsFile FsRw FsTrunc FsDir.
From S2P Require Import FsCreate FsTree FsRemove FsDemo FsProps.

Set Default Proof Using "Type".

(** ** The small disk is a sound volume *)
Lemma root_words : size_of (cur mounted) ROOT = 4096 ∧ ftype (cur mounted) ROOT = FTYPE_DIR ∧
  ind (cur mounted) ROOT = 0 ∧ word_at (cur mounted) (f_direct ROOT 0) = 3.
Proof. vm_compute. repeat split. Qed.

Lemma root_direct n : 1 ≤ n < 10 → word_at (cur mounted) (f_direct ROOT n) = 0.
Proof.
  intros Hn. assert (n = 1 ∨ n = 2 ∨ n = 3 ∨ n = 4 ∨ n = 5 ∨ n = 6 ∨ n = 7 ∨ n = 8 ∨ n = 9)
    as Hc by lia. repeat destruct Hc as [->|Hc]; [..|subst n]; vm_compute; reflexivity.
Qed.

Lemma root_map n : 0 ≤ n < MAXBLK → bmap (cur mounted) ROOT n = if decide (n = 0) then 3 else 0.
Proof.
  destruct root_words as (_ & _ & Ei & E0). intros Hn. unfold bmap. rewrite Ei.
  destruct (decide (n = 0)) as [->|Hne]; [exact E0|].
  destruct (Z.ltb_spec n 10); [apply root_direct; lia|reflexivity].
Qed.

Lemma root_zero_b : forallb (λ k, cur mounted (BLK 3 + 4 + k) =? 0) (seqZ 0 4092) = true.
Proof. vm_compute. reflexivity. Qed.

Lemma root_zero k : 4 ≤ k < 4096 → cur mounted (BLK 3 + k) = 0.
Proof.
  intros Hk. pose proof root_zero_b as H. rewrite forallb_forall in H. specialize (H (k - 4)).
  rewrite <- list_elem_of_In, elem_of_seqZ in H. specialize (H ltac:(lia)). apply Z.eqb_eq in H.
  by replace (BLK 3 + 4 + (k - 4)) with (BLK 3 + k) in H by lia.
Qed.

Lemma root_first : cur mounted (BLK 3) = 97.
Proof. vm_compute. reflexivity. Qed.

Lemma block3 : data_blk (cur mounted) 3 ∧ block_of ROOT = 1 ∧ ROOT mod 4096 = 8.
Proof.
  split; [|vm_compute; split; reflexivity]. split; [|rewrite mounted_free_at by lia; reflexivity].
  unfold first_data. rewrite mounted_nblk. change (2 + (8 + 32767) / 32768) with 3. lia.
Qed.

Lemma root_file : file_ok (cur mounted) ROOT.
Proof.
  destruct root_words as (_ & _ & Ei & _), block3 as (Hb & E1 & E2). split; rewrite ?E1, ?E2, ?Ei.
  - lia.
  - clear. split; [rewrite mounted_nblk; lia|]. rewrite mounted_free_at by lia. reflexivity.
  - left. split; [reflexivity|]. unfold ROOT. lia.
  - intros n Hn. rewrite root_map by exact Hn. case_decide; intros Hz; [|lia]. split; [exact Hb|lia].
  - lia.
  - intros n m Hn Hm. rewrite (root_map n Hn), (root_map m Hm). repeat case_decide; lia.
Qed.

Lemma root_dir : dir_ok (cur mounted) ROOT.
Proof.
  destruct root_words as (Es & _ & _ & _). split; unfold dblocks; rewrite ?Es.
  - exact root_file.
  - unfold MAXFILESIZE, MAXBLK. lia.
  - reflexivity.
  - change (4096 / 4096) with 1. intros i Hi. rewrite root_map by (unfold MAXBLK; lia).
    rewrite decide_True by lia. lia.
  - change (4096 / 4096) with 1. intros i Hi. rewrite root_map by lia. rewrite decide_False by lia. reflexivity.
  - change (4096 / 4096) with 1. intros i j Hi Hj. unfold slot. rewrite root_map by (unfold MAXBLK; lia).
    rewrite decide_True by lia. intros Hz k Hk. rewrite <- Z.add_assoc. apply root_zero.
    destruct (decide (j = 0)) as [->|]; [|lia]. rewrite Z.add_0_r, root_first in Hz. discriminate Hz.
Qed.

(** A directory of one block with nothing after its first word. *)
Lemma one_entry I d b n g :
  size_of I d = 4096 → bmap I d 0 = b → (∀ k, 4 ≤ k < 4096 → I (BLK b + k) = 0) →
  name_ok n → n ≠ [] → lookup_name I d n = Some g → g = BLK b.
Proof.
  intros Es Eb Hz [Hc _] Hne H. apply (find_slot_Some I d) in H as (i & j & Hbi & Hj & Eg & Hnm).
  destruct n as [|c n]; [done|]. apply name_eqb_head in Hnm. inversion_clear Hc.
  unfold dblocks in Hbi. rewrite Es in Hbi. change (4096 / 4096) with 1 in Hbi.
  assert (i = 0) as -> by lia. unfold slot in *. rewrite Eb in *. destruct (decide (j = 0)) as [->|].
  - rewrite Eg. lia.
  - rewrite Eg, Hz in Hnm by lia. lia.
Qed.

Lemma one_entry_unique I d b :
  size_of I d = 4096 → bmap I d 0 = b → (∀ k, 4 ≤ k < 4096 → I (BLK b + k) = 0) → names_unique I d.
Proof.
  intros Es Eb Hz n i j i' j' [Hc _] Hne. unfold dblocks. rewrite Es. change (4096 / 4096) with 1.
  intros Hi Hj Hi' Hj'. assert (i = 0) as -> by lia. assert (i' = 0) as -> by lia.
  destruct n as [|c n]; [done|]. inversion_clear Hc. unfold slot. rewrite Eb.
  assert (∀ j, 0 ≤ j < 16 → name_eqb I (BLK b + 256 * j) (c :: n) = true → j = 0) as Hj0.
  { intros k Hk E%name_eqb_head. destruct (decide (k = 0)); [done|]. rewrite Hz in E by lia. lia. }
  intros E E'. by rewrite (Hj0 j Hj E), (Hj0 j' Hj' E').
Qed.

Lemma root_lookup n g : name_ok n → n ≠ [] → lookup_name (cur mounted) ROOT n = Some g → g = file_a.
Proof.
  destruct root_words as (Es & _ & _ & _). intros Hn Hne H.
  refine (one_entry (cur mounted) ROOT 3 n g Es _ root_zero Hn Hne H).
  rewrite root_map by (unfold MAXBLK; lia). reflexivity.
Qed.

Lemma file_a_type : ftype (cur mounted) file_a = FTYPE_REG.
Proof. vm_compute. reflexivity. Qed.

Lemma mounted_reach f : reach (cur mounted) f → f = ROOT ∨ f = file_a.
Proof.
  induction 1 as [|d n g _ IH Hty Hn Hne Hl]; [left; reflexivity|].
  destruct IH as [->| ->]; [right; exact (root_lookup n g Hn Hne Hl)|]. rewrite file_a_type in Hty. discriminate Hty.
Qed.

Lemma file_a_none b : ¬ owned (cur mounted) file_a b.
Proof.
  intros [H0 [H|(n & Hn & H)]]; [rewrite file_a_ind in H; lia|]. apply H0. rewrite H. unfold bmap.
  rewrite file_a_ind. destruct (Z.ltb_spec n 10); [apply file_a_ptrs; lia|reflexivity].
Qed.

Lemma mounted_vol : vol_ok (cur mounted).
Proof.
  split.
  - intros d [->| ->]%mounted_reach Hty; [exact root_dir|]. rewrite file_a_type in Hty. discriminate Hty.
  - intros f [->| ->]%mounted_reach.
    + split; [exact root_file|exact (dk_size _ _ root_dir)].
    + split; [exact file_a_ok|]. rewrite file_a_size. unfold MAXFILESIZE, MAXBLK. lia.
  - intros f [->| ->]%mounted_reach; [exact (dir_tail _ _ root_dir)|exact (none_tail _ _ file_a_none)].
  - intros d [->| ->]%mounted_reach Hty.
    + destruct root_words as (Es & _ & _ & _). refine (one_entry_unique _ _ 3 Es _ root_zero).
      rewrite root_map by (unfold MAXBLK; lia). reflexivity.
    + rewrite file_a_type in Hty. discriminate Hty.
  - exists [47]. split; [split; [repeat constructor; lia|vm_compute; reflexivity]|]. vm_compute. reflexivity.
  - intros f g b [->| ->]%mounted_reach [->| ->]%mounted_reach H1 H2; try reflexivity.
    + destruct (file_a_none b H2).
    + destruct (file_a_none b H1).
Qed.

(** ** The theorems *)

(** C16. [file_open] of an absolute path yields exactly the file that the names of the
    path lead to in the tree, whatever is in the cache, and changes nothing; when
    there is none it returns [-E_NOT_FOUND] or [-E_BAD_PATH]. *)
Theorem file_open_correct s path :
  fs_ok s → vol_ok (cur s) → Forall (λ c, 0 < c < 256) path → head path = Some SLASH →
  ∃ r f s', file_open path s = Ret (r, f) s' ∧ fs_ok s' ∧ cur s' = cur s ∧
    f = resolve (cur s) ROOT (elems path) ∧ (r = 0 ↔ is_Some f) ∧
    (r ≠ 0 → r = - E_NOT_FOUND ∨ r = - E_BAD_PATH).
Proof.
  intros Hok Hv Hc Hh. destruct (iwp_result (file_open path) (λ rf J, J = cur s ∧
    rf.2 = resolve (cur s) ROOT (elems path) ∧ (rf.1 = 0 ↔ is_Some rf.2) ∧
    (rf.1 ≠ 0 → rf.1 = - E_NOT_FOUND ∨ rf.1 = - E_BAD_PATH)) s Hok)
    as ([r f] & s' & E & Hok' & Ec & Ef & Hr & Herr); [|by exists r, f, s'].
  apply iwp_img. intros Hi. apply iwp_bind, (iwp_walk_path _ Hi (vk_dir _ Hv)); [done|].
  rewrite decide_True by done. apply iwp_ret. cbn [fst snd].
  destruct (follow_resolve (cur s) (elems path) None ROOT) as [-> Hret].
  split; [done|]. split; [done|]. split; [done|]. intros Hne.
  destruct (follow_cases (cur s) (elems path) None ROOT) as [[? _]|[[H _]|(d & n & -> & _)]];
    [done|done|by left].
Qed.

Lemma file_open_correct_witness :
  ∃ s', file_open [47; 97] mounted = Ret (0, Some file_a) s' ∧ cur s' = cur mounted.
Proof.
  destruct (file_open_correct mounted [47; 97] mounted_fs_ok mounted_vol) as (r & f & s' & E & _ & Ec & Ef & Hr & _).
  - repeat constructor; lia.
  - reflexivity.
  - assert (resolve (cur mounted) ROOT (elems [47; 97]) = Some file_a) as Hres by (vm_compute; reflexivity).
    rewrite Hres in Ef. subst f. exists s'. split; [|exact Ec].
    rewrite E, (proj2 Hr (ex_intro _ _ eq_refl)). reflexivity.
Defined.

(** The tree of [J] is the tree of [I] with the file [f] called [name] in [d]. *)
Definition tree_with (I J : Z → Z) (d : Z) (name : list Z) (f : Z) : Prop :=
  ∀ ns h, Forall entry_name ns →
    resolve J ROOT ns = Some h ↔
    resolve I ROOT ns = Some h ∨ h = f ∧ ∃ q, ns = q ++ [name] ∧ resolve I ROOT q = Some d.

(** Every file but [d] has its type, its size and its bytes. *)
Definition rest_same (I J : Z → Z) (d : Z) : Prop :=
  ∀ g, reach I g → g ≠ d →
    ftype J g = ftype I g ∧ size_of J g = size_of I g ∧
    (ftype I g ≠ FTYPE_DIR → ∀ i, 0 ≤ i < MAXFILESIZE → fdata J g i = fdata I g i).

(** C15. [file_create] of an absolute path adds exactly one name to the tree: an empty
    file of the type asked for, in the directory the path leads to, while every other
    path leads where it led and every other file keeps its contents.  It reports
    [-E_FILE_EXISTS] exactly for a path that leads to a file, and changes nothing
    when there is no directory for the name.  When the directory is at the largest
    size or the disk is full it fails and leaves the size of the directory one block
    too large. *)
Theorem file_create_correct s path is_dir :
  fs_ok s → vol_ok (cur s) → Forall (λ c, 0 < c < 256) path → head path = Some SLASH →
  ∃ r f s', file_create path is_dir s = Ret (r, f) s' ∧ fs_ok s' ∧
    (r = - E_FILE_EXISTS ∧ is_Some (resolve (cur s) ROOT (elems path)) ∧ cur s' = cur s ∨
     (r = - E_NOT_FOUND ∨ r = - E_BAD_PATH) ∧ cur s' = cur s ∧
       (∀ d n, ¬ parent (cur s) ROOT (elems path) d n) ∨
     ∃ d n, parent (cur s) ROOT (elems path) d n ∧ lookup_name (cur s) d n = None ∧
       (r = 0 ∧ vol_ok (cur s') ∧ tree_with (cur s) (cur s') d n f ∧ rest_same (cur s) (cur s') d ∧
          ftype (cur s') f = ftype_of is_dir ∧ size_of (cur s') f = 0 ∨
        (r = - E_INVAL ∧ size_of (cur s) d = MAXFILESIZE ∨ r = - E_NO_DISK ∧ full (cur s')) ∧
          size_of (cur s') d = size_of (cur s) d + 4096)).
Proof.
  intros Hok Hv Hc Hh. destruct (iwp_result (file_create path is_dir) (λ rf J,
    rf.1 = - E_FILE_EXISTS ∧ is_Some (resolve (cur s) ROOT (elems path)) ∧ J = cur s ∨
    (rf.1 = - E_NOT_FOUND ∨ rf.1 = - E_BAD_PATH) ∧ J = cur s ∧
      (∀ d n, ¬ parent (cur s) ROOT (elems path) d n) ∨
    ∃ d n, parent (cur s) ROOT (elems path) d n ∧ lookup_name (cur s) d n = None ∧
      (rf.1 = 0 ∧ vol_ok J ∧ tree_with (cur s) J d n rf.2 ∧ rest_same (cur s) J d ∧
         ftype J rf.2 = ftype_of is_dir ∧ size_of J rf.2 = 0 ∨
       (rf.1 = - E_INVAL ∧ size_of (cur s) d = MAXFILESIZE ∨ rf.1 = - E_NO_DISK ∧ full J) ∧
         size_of J d = size_of (cur s) d + 4096)) s Hok)
    as ([r f] & s' & E & Hok' & H); [|by exists r, f, s'].
  apply iwp_img. intros Hi. apply iwp_file_create; try done.
  - intros _ H. by left.
  - intros r Hr Hp. right. left. auto.
  - intros d n J fp _ Hp Hl Hn Hne Hr HJ. right. right. exists d, n. do 2 (split; [done|]). left.
    assert (ftype (cur s) d = FTYPE_DIR) as Hty by (destruct Hp as (? & _ & _ & ? & _); done).
    pose proof (cr_step _ _ _ _ _ _ HJ) as Hs. pose proof (en_stays _ _ d _ _ _ Hi Hv Hr HJ) as Hst.
    split; [done|]. split; [by eapply en_vol|]. split; [|split; [|split; [exact (cr_type _ _ _ _ _ _ HJ)|exact (cr_size _ _ _ _ _ _ HJ)]]].
    + intros ns h Hns. by eapply en_resolve; try done; constructor.
    + intros g Hg Hgd. split; [by apply (sp_type _ J d)|]. pose proof (sa_other _ _ _ Hst).
      split; [by apply (sp_size _ J d)|]. intros Hreg i Hx. by apply (sp_fdata _ J d).
  - intros d n J r _ Hp Hl Hr Ho. right. right. exists d, n. auto.
Qed.

Lemma file_create_correct_witness :
  ∃ f s', file_create [47; 98] false mounted = Ret (0, f) s' ∧
    resolve (cur s') ROOT [[98]] = Some f ∧ resolve (cur s') ROOT [[97]] = Some file_a.
Proof.
  destruct (file_create_correct mounted [47; 98] false mounted_fs_ok mounted_vol)
    as (r & f & s' & E & _ & H).
  - repeat constructor; lia.
  - reflexivity.
  - assert (r = 0) as ->.
    { assert ((match file_create [47; 98] false mounted with Ret (r, _) _ => r | _ => 1 end) = 0) as H0
        by (vm_compute; reflexivity). rewrite E in H0. exact H0. }
    assert (∃ d n, parent (cur mounted) ROOT (elems [47; 98]) d n ∧ tree_with (cur mounted) (cur s') d n f)
      as (d & n & (q & Eq & Hq & _) & Ht).
    { destruct H as [[H _]|[([H|H] & _)|(d & n & Hp & _ & H)]]; try discriminate H.
      exists d, n. split; [exact Hp|].
      destruct H as [(_ & _ & H & _)|[[[H _]|[H _]] _]]; [exact H|discriminate H|discriminate H]. }
    change (elems [47; 98]) with ([] ++ [[98]] : list (list Z)) in Eq.
    apply app_inj_tail in Eq as [<- <-].
    assert (resolve (cur mounted) ROOT [[97]] = Some file_a) as Ha by (vm_compute; reflexivity).
    exists f, s'. split; [exact E|]. split.
    + apply Ht; [repeat constructor; (lia || discriminate)|]. right. split; [reflexivity|].
      exists []. split; [reflexivity|exact Hq].
    + apply Ht; [repeat constructor; (lia || discriminate)|]. left. exact Ha.
Defined.

(** C17. [file_write] to a file that is not a directory, at an offset that is not negative
    and with an end not past the largest file size, touches nothing else: the volume stays
    sound, every path leads where it led, and every other file keeps its type, its size
    and its contents, whether the write succeeds or the disk fills up. *)
Theorem file_write_isolated s f buf offset :
  fs_ok s → vol_ok (cur s) → reach (cur s) f → ftype (cur s) f ≠ FTYPE_DIR →
  0 ≤ offset → offset + Z.of_nat (length buf) ≤ MAXFILESIZE →
  ∃ r s', file_write f buf offset s = Ret r s' ∧ fs_ok s' ∧ vol_ok (cur s') ∧
    (∀ ns, Forall entry_name ns → resolve (cur s') ROOT ns = resolve (cur s) ROOT ns) ∧
    rest_same (cur s) (cur s') f.
Proof.
  intros Hok Hv Hr Hty Ho Hmax. destruct (vk_file _ Hv f Hr) as [Hf Hsz].
  assert (∀ mid J, mid ≤ offset + Z.of_nat (length buf) → file_wrote (cur s) J f buf offset mid → vol_ok J ∧
    (∀ ns, Forall entry_name ns → resolve J ROOT ns = resolve (cur s) ROOT ns) ∧ rest_same (cur s) J f) as Hall.
  { intros mid J Hmid HJ. pose proof (fw_step _ _ _ _ _ _ HJ) as Hs. pose proof (fo_img _ Hok) as Hi.
    pose proof (rg_stays (cur s) J f Hi Hv Hr Hty Hs) as Hst. split; [|split].
    - apply (rg_vol (cur s) J f); try done; [rewrite (fw_size _ _ _ _ _ _ HJ); lia|].
      intros n Hn. rewrite (fw_size _ _ _ _ _ _ HJ). intros Hge.
      rewrite (fw_map _ _ _ _ _ _ HJ) by lia. apply (vk_tail _ Hv f Hr); lia.
    - intros ns Hns. apply (rg_resolve (cur s) J f); try done. constructor.
    - intros g Hg Hgf. split; [by apply (sp_type _ J f)|]. pose proof (sa_other _ _ _ Hst).
      split; [by apply (sp_size _ J f)|]. intros Hreg i Hx. by apply (sp_fdata _ J f). }
  apply (iwp_result (file_write f buf offset) (λ _ J, vol_ok J ∧
    (∀ ns, Forall entry_name ns → resolve J ROOT ns = resolve (cur s) ROOT ns) ∧ rest_same (cur s) J f) s Hok).
  apply iwp_file_write; try done; [intros J HJ|intros J mid [_ Hmid] HJ _]; eapply Hall; (done || lia).
Qed.

Lemma file_write_isolated_witness :
  ∃ r s', file_write file_a [104; 105] 0 mounted = Ret r s' ∧
    resolve (cur s') ROOT [[97]] = Some file_a.
Proof.
  assert (resolve (cur mounted) ROOT [[97]] = Some file_a) as Ha by (vm_compute; reflexivity).
  assert (Forall entry_name [[97]]) as Hn by (repeat constructor; (lia || discriminate)).
  destruct (file_write_isolated mounted file_a [104; 105] 0 mounted_fs_ok mounted_vol)
    as (r & s' & E & _ & _ & Hres & _).
  - exact (resolve_reach _ _ _ _ (reach_root _) Hn Ha).
  - rewrite file_a_type. discriminate.
  - lia.
  - vm_compute. discriminate.
  - exists r, s'. split; [exact E|]. rewrite (Hres _ Hn). exact Ha.
Defined.

(** C18. [file_remove] of a file that is not a directory takes exactly that file out of
    the tree: its paths lead nowhere, all others lead where they led, every other file
    keeps its type, its size and its contents, and the blocks that become free are
    exactly its blocks. *)
Theorem file_remove_correct s f :
  fs_ok s → vol_ok (cur s) → reach (cur s) f → f ≠ ROOT → ftype (cur s) f ≠ FTYPE_DIR →
  ∃ s', file_remove f s = Ret 0 s' ∧ fs_ok s' ∧ vol_ok (cur s') ∧ rest_same (cur s) (cur s') f ∧
    (∀ ns g, Forall entry_name ns →
       resolve (cur s') ROOT ns = Some g ↔ resolve (cur s) ROOT ns = Some g ∧ g ≠ f) ∧
    ∀ b, 0 ≤ b < nblk (cur s) → free (cur s') b = true ↔ free (cur s) b = true ∨ owned (cur s) f b.
Proof.
  intros Hok Hv Hr Hroot Hty. destruct (vk_file _ Hv f Hr) as [Hf Hsz]. pose proof (fo_img _ Hok) as Hi.
  destruct (iwp_result (file_remove f) (λ r J, r = 0 ∧ removed (cur s) J f) s Hok)
    as (r & s' & E & Hok' & -> & Hm).
  { apply iwp_file_remove; try done. by apply (vk_tail _ Hv). }
  pose proof (rv_other (cur s) (cur s') f Hi Hv Hr Hty Hm) as Hs.
  exists s'. split; [done|]. split; [done|]. split; [by apply (rv_vol (cur s) (cur s') f)|]. split; [|split].
  - intros g Hg Hgf. split; [by apply (sp_type_ne _ (cur s') f)|]. split; [by apply (sp_size _ (cur s') f)|].
    intros Hreg i Hx. by apply (sp_fdata _ (cur s') f).
  - intros ns g Hns. apply (rv_resolve (cur s) (cur s') f); try done. constructor.
  - apply (rv_free _ _ _ Hm).
Qed.

Lemma file_remove_correct_witness :
  ∃ s', file_remove file_a mounted = Ret 0 s' ∧ resolve (cur s') ROOT [[97]] = None.
Proof.
  assert (resolve (cur mounted) ROOT [[97]] = Some file_a) as Ha by (vm_compute; reflexivity).
  assert (Forall entry_name [[97]]) as Hn by (repeat constructor; (lia || discriminate)).
  destruct (file_remove_correct mounted file_a mounted_fs_ok mounted_vol)
    as (s' & E & _ & _ & _ & Hres & _).
  - exact (resolve_reach _ _ _ _ (reach_root _) Hn Ha).
  - vm_compute. discriminate.
  - rewrite file_a_type. discriminate.
  - exists s'. split; [exact E|]. destruct (resolve (cur s') ROOT [[97]]) as [g|] eqn:Eg; [|reflexivity].
    destruct (proj1 (Hres _ g Hn) Eg) as [Eg' Hne]. rewrite Ha in Eg'. injection Eg' as <-.
    destruct Hne. reflexivity.
Defined.
