(* ===== verification/Serv.v ===== *)
(** * The file server

    The table of open files and the handlers of the requests (fs/serv.c).  The page
    with a request is an array of bytes.  A copy past its end, which in the server's
    address space runs into the block cache, is not followed: its outcome is [Fault]. *)

From stdpp Require Import base gmap list strings.
From Stdlib Require Import ZArith Lia.
From S2P Require Import Prelude Mmu BlockCache Fs.

Set Default Proof Using "Type".

Definition MAXOPEN : Z := 1024.
Definition O_RDONLY : Z := 0x0000.
Definition O_WRONLY : Z := 0x0001.
Definition O_RDWR : Z := 0x0002.
Definition O_ACCMODE : Z := 0x0003.
Definition O_CREAT : Z := 0x0100.
Definition O_TRUNC : Z := 0x0200.
Definition O_EXCL : Z := 0x0400.
Definition O_MKDIR : Z := 0x0800.
Definition devfile_dev_id : Z := 102.

(** The page of the descriptor, which the clients that have the file open share. *)
Record Fd := MkFd { fd_dev_id : Z; fd_offset : Z; fd_omode : Z; fd_file_id : Z }.

(** [o_fd] is the page at [FILEVA + i * PGSIZE] for entry [i]. *)
Record OpenFile := MkOpenFile { o_fileid : Z; o_file : Z; o_mode : Z }.

(** The file system, the table, and for each entry the contents and the number of
    mappings of its descriptor page; and the request page. *)
Record servst := MkServ {
  sfs : fsst;
  opentab : Z → OpenFile;
  fdpage : Z → Fd;
  fdref : Z → Z;
  fsreq : Z → Z
}.

Definition set_sfs (x : fsst) (s : servst) : servst :=
  MkServ x (opentab s) (fdpage s) (fdref s) (fsreq s).
Definition set_open (i : Z) (x : OpenFile) (s : servst) : servst :=
  MkServ (sfs s) (λ j, if j =? i then x else opentab s j) (fdpage s) (fdref s) (fsreq s).
Definition set_fd (i : Z) (x : Fd) (s : servst) : servst :=
  MkServ (sfs s) (opentab s) (λ j, if j =? i then x else fdpage s j) (fdref s) (fsreq s).
Definition set_ref (i : Z) (x : Z) (s : servst) : servst :=
  MkServ (sfs s) (opentab s) (fdpage s) (λ j, if j =? i then x else fdref s j) (fsreq s).
Definition set_req (x : Z → Z) (s : servst) : servst :=
  MkServ (sfs s) (opentab s) (fdpage s) (fdref s) x.

(** Run code of the file system. *)
Definition on_fs {A} (m : M fsst A) : M servst A := zoom sfs set_sfs m.

(** ** The request page *)
Definition req32 (o : Z) : M servst Z := gets (λ s, word_at (λ a, u8 (fsreq s a)) o).

(** The string at offset [o], of at most [n] characters. *)
Fixpoint cstring (p : Z → Z) (o : Z) (n : nat) : option (list Z) :=
  match n with
  | O => None
  | S n' => if u8 (p o) =? 0 then Some [] else cons (u8 (p o)) <$> cstring p (o + 1) n'
  end.

(** [memmove(path, req_path, MAXPATHLEN); path[MAXPATHLEN - 1] = 0]. *)
Definition req_path (o : Z) : M servst (list Z) :=
  let* p := gets fsreq in
  deref (cstring (λ a, if a =? o + (MAXPATHLEN - 1) then 0 else p a) o (Z.to_nat MAXPATHLEN)).

(** A path used where it is, up to the end of the page. *)
Definition req_path_raw (o : Z) : M servst (list Z) :=
  let* p := gets fsreq in deref (cstring p o (Z.to_nat (PGSIZE - o))).

Definition reply_bytes (o : Z) (l : list Z) : M servst unit :=
  if o + Z.of_nat (length l) <=? PGSIZE then
    modify (λ s, set_req (patch (fsreq s) o (Z.of_nat (length l)) (λ i, l !!! Z.to_nat i)) s)
  else fault.
Definition reply32 (o w : Z) : M servst unit :=
  modify (λ s, set_req (patch (fsreq s) o 4 (byte_of w)) s).

(** ** The table of open files *)
Definition serve_init (s : servst) : servst :=
  MkServ (sfs s) (λ i, MkOpenFile i (o_file (opentab s i)) (o_mode (opentab s i))) (fdpage s) (fdref s) (fsreq s).

(** The body of the loop of [openfile_alloc]: take entry [i] unless a client has it. *)
Definition openfile_try (i : Z) : M servst (option (Z * Z)) :=
  let* n := gets (λ s, fdref s i) in
  if 1 <? n then ret None else
  let* r := if n =? 0 then
              let* ok := on_fs request in
              if negb ok then ret (- E_NO_MEM) else
              do* modify (set_ref i 1) in ret 0
            else ret 0 in
  if r <? 0 then ret (Some (r, 0)) else
  let* o := gets (λ s, opentab s i) in
  let id := u32 (o_fileid o + MAXOPEN) in
  do* modify (set_open i (MkOpenFile id (o_file o) (o_mode o))) in
  do* modify (set_fd i (MkFd 0 0 0 0)) in
  ret (Some (s32 id, i)).

(** The result and the entry. *)
Definition openfile_alloc : M servst (Z * Z) :=
  let* r := search (Z.to_nat MAXOPEN) 0 openfile_try in
  match r with
  | Some x => ret x
  | None => ret (- E_MAX_OPEN, 0)
  end.

Definition openfile_lookup (fileid : Z) : M servst (Z * Z) :=
  let i := fileid mod MAXOPEN in
  let* n := gets (λ s, fdref s i) in
  let* o := gets (λ s, opentab s i) in
  if (n <=? 1) || negb (o_fileid o =? fileid) then ret (- E_INVAL, 0) else ret (0, i).

(** [fileisclosed(f) != 0]. *)
Definition closed_in (s : servst) (f : Z) : bool :=
  forallb (λ i, negb ((1 <? fdref s i) && (o_file (opentab s i) =? f))) (seqZ 0 MAXOPEN).
Definition fileisclosed (f : Z) : M servst bool := gets (λ s, closed_in s f).

(** ** The handlers *)

(** The file, created if the mode asks for it. *)
Definition open_or_create (path : list Z) (omode : Z) : M servst (Z * option Z) :=
  if ctrue (Z.land omode (Z.lor O_CREAT O_MKDIR)) then
    let* (r, f) := on_fs (file_create path (ctrue (Z.land omode O_MKDIR))) in
    if (r <? 0) && negb (ctrue (Z.land omode O_EXCL)) && (r =? - E_FILE_EXISTS) then
      on_fs (file_open path)
    else ret (r, Some f)
  else on_fs (file_open path).

Definition open_truncate (omode : Z) (f : option Z) : M servst Z :=
  if ctrue (Z.land omode O_TRUNC) then
    let* f := deref f in on_fs (file_set_size f 0)
  else ret 0.

(** From the second [file_open] on: fill entry [i]. *)
Definition open_finish (path : list Z) (omode i : Z) : M servst (Z * option Z) :=
  let* (r, f) := on_fs (file_open path) in
  if r <? 0 then ret (r, None) else
  let* f := deref f in
  let* ty := on_fs (load32 (f_type f)) in
  if (ty =? FTYPE_DIR) && ctrue (Z.land omode (Z.lor O_RDWR O_WRONLY)) then ret (- E_INVAL, None) else
  let* o := gets (λ s, opentab s i) in
  do* modify (set_fd i (MkFd devfile_dev_id 0 (Z.land omode O_ACCMODE) (o_fileid o))) in
  do* modify (set_open i (MkOpenFile (o_fileid o) f omode)) in
  ret (0, Some i).

(** The result, and the entry whose page is sent along. *)
Definition serve_open : M servst (Z * option Z) :=
  let* path := req_path 0 in
  let* omode := req32 MAXPATHLEN in
  let* (r, i) := openfile_alloc in
  if r <? 0 then ret (r, None) else
  let* (r, f) := open_or_create path omode in
  if r <? 0 then ret (r, None) else
  let* r := open_truncate omode f in
  if r <? 0 then ret (r, None) else
  open_finish path omode i.

Definition serve_set_size : M servst Z :=
  let* fileid := req32 0 in
  let* size := req32 4 in
  let* (r, i) := openfile_lookup fileid in
  if r <? 0 then ret r else
  let* o := gets (λ s, opentab s i) in
  on_fs (file_set_size (o_file o) (s32 size)).

(** [o->o_fd->fd_offset += n]. *)
Definition advance (i n : Z) : M servst unit :=
  modify (λ s, let fd := fdpage s i in
    set_fd i (MkFd (fd_dev_id fd) (s32 (fd_offset fd + n)) (fd_omode fd) (fd_file_id fd)) s).

Definition serve_read : M servst Z :=
  let* fileid := req32 0 in
  let* n := req32 4 in
  let* (r, i) := openfile_lookup fileid in
  if r <? 0 then ret r else
  let* o := gets (λ s, opentab s i) in
  let* fd := gets (λ s, fdpage s i) in
  let* (r, buf) := on_fs (file_read (o_file o) n (fd_offset fd)) in
  do* reply_bytes 0 buf in
  if r <? 0 then ret r else
  do* advance i r in
  ret r.

Definition serve_write : M servst Z :=
  let* fileid := req32 0 in
  let* n := req32 4 in
  let* (r, i) := openfile_lookup fileid in
  if r <? 0 then ret r else
  let* o := gets (λ s, opentab s i) in
  let* fd := gets (λ s, fdpage s i) in
  let* p := gets fsreq in
  if PGSIZE <? 8 + n then fault else
  let* r := on_fs (file_write (o_file o) ((λ a, u8 (p (8 + a))) <$> seqZ 0 n) (fd_offset fd)) in
  if r <? 0 then ret r else
  do* advance i r in
  ret r.

(** The string in a file's descriptor. *)
Fixpoint read_name (fuel : nat) (va : Z) : M fsst (list Z) :=
  match fuel with
  | O => fault
  | S fuel' =>
      let* c := load8 va in
      if c =? 0 then ret [] else
      let* l := read_name fuel' (va + 1) in ret (c :: l)
  end.

Definition serve_stat : M servst Z :=
  let* fileid := req32 0 in
  let* (r, i) := openfile_lookup fileid in
  if r <? 0 then ret r else
  let* o := gets (λ s, opentab s i) in
  let* name := on_fs (read_name (Z.to_nat PGSIZE) (f_name (o_file o))) in
  do* reply_bytes 0 (name ++ [0]) in
  let* size := on_fs (get_size (o_file o)) in
  do* reply32 MAXNAMELEN size in
  let* ty := on_fs (load32 (f_type (o_file o))) in
  do* reply32 (MAXNAMELEN + 4) (if ty =? FTYPE_DIR then 1 else 0) in
  ret 0.

Definition serve_flush : M servst Z :=
  let* fileid := req32 0 in
  let* (r, i) := openfile_lookup fileid in
  if r <? 0 then ret r else
  let* o := gets (λ s, opentab s i) in
  do* on_fs (file_flush (o_file o)) in
  let* c := fileisclosed (o_file o) in
  do* (if c then on_fs (file_close (o_file o)) else ret tt) in
  ret 0.

(** [fuel] bounds the depth of the tree. *)
Fixpoint file_mutex_remove (fuel : nat) (closed : Z → bool) (f : Z) : M fsst Z :=
  match fuel with
  | O => fault
  | S fuel' =>
      let* ty := load32 (f_type f) in
      let* r := if ty =? FTYPE_DIR then file_dir_each_file f (file_mutex_remove fuel' closed)
                else ret 0 in
      if r <? 0 then ret r else
      if negb (closed f) then ret (- E_BUSY) else
      let* r := file_remove f in
      if r <? 0 then ret r else ret 0
  end.

Definition serve_remove (depth : nat) : M servst Z :=
  let* path := req_path 0 in
  let* (r, f) := on_fs (file_open path) in
  if r <? 0 then ret r else
  let* f := deref f in
  let* s := gets id in
  on_fs (file_mutex_remove depth (closed_in s) f).

Definition serve_sync : M servst Z := do* on_fs fs_sync in ret 0.

Fixpoint count_used (n : nat) (i cnt : Z) : M fsst Z :=
  match n with
  | O => ret cnt
  | S n' => let* b := block_is_free i in count_used n' (i + 1) (if b then cnt else cnt + 1)
  end.

Definition serve_info : M servst Z :=
  let* n := on_fs s_nblocks in
  let* cnt := on_fs (count_used (Z.to_nat n) 0 0) in
  let* n := on_fs s_nblocks in
  do* reply32 0 n in
  do* reply32 4 cnt in
  ret 0.

Definition serve_rename : M servst Z :=
  let* src := req_path_raw 0 in
  let* (r, src_file) := on_fs (file_open src) in
  if r <? 0 then ret r else
  let* src_file := deref src_file in
  let* c := fileisclosed src_file in
  if negb c then ret (- E_BUSY) else
  let* dst := req_path_raw MAXPATHLEN in
  let* (r, dst_file) := on_fs (file_open dst) in
  if r <? 0 then ret r else
  let* dst_file := deref dst_file in
  on_fs (file_rename dst_file src_file).

(** ** The loop *)
Definition FSREQ_OPEN : Z := 1.
Definition FSREQ_SET_SIZE : Z := 2.
Definition FSREQ_READ : Z := 3.
Definition FSREQ_WRITE : Z := 4.
Definition FSREQ_STAT : Z := 5.
Definition FSREQ_FLUSH : Z := 6.
Definition FSREQ_REMOVE : Z := 7.
Definition FSREQ_SYNC : Z := 8.
Definition FSREQ_INFO : Z := 9.
Definition FSREQ_RENAME : Z := 10.

(** [handlers[req]]. *)
Definition handlers (depth : nat) (req : Z) : option (M servst Z) :=
  if req =? FSREQ_SET_SIZE then Some serve_set_size
  else if req =? FSREQ_READ then Some serve_read
  else if req =? FSREQ_WRITE then Some serve_write
  else if req =? FSREQ_STAT then Some serve_stat
  else if req =? FSREQ_FLUSH then Some serve_flush
  else if req =? FSREQ_REMOVE then Some (serve_remove depth)
  else if req =? FSREQ_SYNC then Some serve_sync
  else if req =? FSREQ_INFO then Some serve_info
  else if req =? FSREQ_RENAME then Some serve_rename
  else None.

(** One round of the loop of [serve]: the answer to a request that came with a page,
    and the page sent along. *)
Definition serve_one (depth : nat) (req : Z) : M servst (Z * option Z) :=
  if req =? FSREQ_OPEN then serve_open
  else match handlers depth req with
       | Some h => let* r := h in ret (r, None)
       | None => ret (- E_INVAL, None)
       end.
