(* ===== verification/ServInv.v ===== *)
(** * What the file server preserves

    The invariant of the server over all its requests: the volume is sound, and every
    open file is in the tree. *)

From stdpp Require Import base gmap list strings.
From Stdlib Require Import ZArith Lia.
From S2P Require Import Prelude Mmu BlockCache BlockImage Fs FsBitmap FsFile FsRw FsTrunc FsDir.
From S2P Require Import FsCreate FsTree FsRemove FsMount Serv.

Set Default Proof Using "Type".

(** ** The invariant *)
Record tab_ok (s : servst) (I : Z → Z) : Prop := {
  tk_ids : ∀ i, 0 ≤ i < MAXOPEN → is_u32 (o_fileid (opentab s i)) ∧ o_fileid (opentab s i) mod MAXOPEN = i;
  tk_refs : ∀ i, 0 ≤ fdref s i;
  tk_open : ∀ i, 0 ≤ i < MAXOPEN → 1 < fdref s i → reach I (o_file (opentab s i))
}.

Record srv_inv (s : servst) : Prop := {
  sv_fs : fs_ok (sfs s);
  sv_vol : vol_ok (cur (sfs s));
  sv_tab : tab_ok s (cur (sfs s))
}.

(** Code of the file system. *)
Lemma wp_on_fs {A} (m : M fsst A) Q' (Q : A → servst → Prop) s :
  fs_ok (sfs s) → iwp m Q' (cur (sfs s)) →
  (∀ a x, fs_ok x → Q' a (cur x) → Q a (set_sfs x s)) → wpr (on_fs m) Q s.
Proof.
  intros Hok Hm HQ. apply wp_zoom. eapply wp_mono_ret; [by apply (Hm (sfs s))|].
  intros a x [Hx Hq]. by apply HQ.
Qed.

(** Code that keeps the tree. *)
Lemma tab_kept s x I : tab_ok s I → (∀ g, reach I g → reach (cur x) g) → tab_ok (set_sfs x s) (cur x).
Proof. intros [H1 H2 H3] Hr. split; [done|done|]. intros i Hi Hx. apply Hr. by apply H3. Qed.

Lemma inv_kept s x : srv_inv s → fs_ok x → kept (cur (sfs s)) (cur x) → srv_inv (set_sfs x s).
Proof.
  intros [Hf Hv Ht] Hx Hk. split; [done|apply Hk|]. cbn [sfs set_sfs]. eapply tab_kept; [done|].
  intros g. apply (kp_reach _ _ Hk).
Qed.

Lemma inv_same s x : srv_inv s → fs_ok x → cur x = cur (sfs s) → srv_inv (set_sfs x s).
Proof. intros Hs Hx E. apply inv_kept; [done|done|]. rewrite E. apply kept_refl, Hs. Qed.

(** Changes outside the tree. *)
Lemma inv_req s p : srv_inv s → srv_inv (set_req p s).
Proof. intros [? ? []]. by split. Qed.

Lemma inv_fd s i fd : srv_inv s → srv_inv (set_fd i fd s).
Proof. intros [? ? []]. by split. Qed.

Lemma inv_ref s i n : srv_inv s → 0 ≤ n → (1 < n → 1 < fdref s i ∨ reach (cur (sfs s)) (o_file (opentab s i))) →
  srv_inv (set_ref i n s).
Proof.
  intros [Hf Hv [H1 H2 H3]] Hn Hr. split; [done|done|]. split; [done|..]; cbn [fdref opentab set_ref sfs].
  - intros j. destruct (j =? i); [done|apply H2].
  - intros j Hj. destruct (Z.eqb_spec j i) as [->|]; [|by apply H3].
    intros H. destruct (Hr H); [by apply H3|done].
Qed.

(** ** Looking up a file *)
Definition req_fileid (s : servst) : Z := word_at (λ a, u8 (fsreq s a)) 0.
Definition req_arg (s : servst) : Z := word_at (λ a, u8 (fsreq s a)) 4.
Definition req_entry (s : servst) : Z := req_fileid s mod MAXOPEN.
Definition req_file (s : servst) : Z := o_file (opentab s (req_entry s)).
Definition req_offset (s : servst) : Z := fd_offset (fdpage s (req_entry s)).

(** The request names an open file. *)
Definition req_open (s : servst) : Prop :=
  1 < fdref s (req_entry s) ∧ o_fileid (opentab s (req_entry s)) = req_fileid s.

Lemma wp_lookup (Q : Z * Z → servst → Prop) s :
  (req_open s → Q (0, req_entry s) s) → (¬ req_open s → Q (- E_INVAL, 0) s) →
  wpr (openfile_lookup (req_fileid s)) Q s.
Proof.
  intros H1 H2. unfold openfile_lookup. apply wp_bind, wp_gets, wp_bind, wp_gets.
  fold (req_entry s). unfold req_open in *.
  destruct (Z.leb_spec (fdref s (req_entry s)) 1), (Z.eqb_spec (o_fileid (opentab s (req_entry s))) (req_fileid s));
    cbn [negb orb]; apply wp_ret; (apply H1; split; [lia|done]) || (apply H2; intros [? ?]; (lia || done)).
Qed.

Lemma entry_range s : 0 ≤ req_entry s < MAXOPEN.
Proof. apply Z.mod_pos_bound. done. Qed.

Lemma req_reach s : srv_inv s → req_open s → reach (cur (sfs s)) (req_file s).
Proof. intros Hs [Hr _]. apply (tk_open _ _ (sv_tab _ Hs)); [apply entry_range|done]. Qed.

Lemma req_arg_range s : is_u32 (req_arg s).
Proof.
  unfold is_u32, req_arg, word_at.
  pose proof (u8_range (fsreq s 4)). pose proof (u8_range (fsreq s (4 + 1))).
  pose proof (u8_range (fsreq s (4 + 2))). pose proof (u8_range (fsreq s (4 + 3))). lia.
Qed.

Lemma wp_reply (Q : unit → servst → Prop) s o l :
  o + Z.of_nat (length l) ≤ PGSIZE →
  Q tt (set_req (patch (fsreq s) o (Z.of_nat (length l)) (λ i, l !!! Z.to_nat i)) s) →
  wpr (reply_bytes o l) Q s.
Proof. intros H HQ. unfold reply_bytes. rewrite (proj2 (Z.leb_le _ _) H). by apply wp_modify. Qed.

(** ** Reading and writing *)

(** The bytes a client gets. *)
Definition read_count (s : servst) : Z :=
  Z.max 0 (Z.min (req_arg s) (size_of (cur (sfs s)) (req_file s) - req_offset s)).

Lemma wp_serve_read s :
  srv_inv s → (req_open s → 0 ≤ req_offset s ∧ req_arg s ≤ PGSIZE) →
  wpr serve_read (λ r s', srv_inv s' ∧
    (¬ req_open s → r = - E_INVAL ∧ s' = s) ∧
    (req_open s → r = - E_NO_DISK ∧ full (cur (sfs s')) ∧
         (∃ i, req_offset s ≤ i < req_offset s + read_count s ∧ bmap (cur (sfs s)) (req_file s) (i / 4096) = 0) ∨
       r = read_count s ∧
       (∀ k, 0 ≤ k < r → fsreq s' k = fdata (cur (sfs s)) (req_file s) (req_offset s + k)) ∧
       fd_offset (fdpage s' (req_entry s)) = s32 (req_offset s + r))) s.
Proof.
  intros Hs Hg. apply wp_bind, wp_gets, wp_bind, wp_gets. fold (req_fileid s) (req_arg s).
  apply wp_bind, wp_lookup; intros Ho.
  2: { change (- E_INVAL <? 0) with true. cbv iota. apply wp_ret. split; [done|]. split; [done|]. by intros ?. }
  destruct (Hg Ho) as [Hoff Harg]. pose proof (req_reach s Hs Ho) as Hr. pose proof (sv_vol _ Hs) as Hv.
  destruct (vk_file _ Hv _ Hr) as [Hf Hsz]. pose proof (fo_img _ (sv_fs _ Hs)) as Hi.
  change (0 <? 0) with false. cbv iota. apply wp_bind, wp_gets, wp_bind, wp_gets.
  fold (req_file s) (req_offset s). set (I := cur (sfs s)) in *.
  set (n := Z.min (req_arg s) (size_of I (req_file s) - req_offset s)).
  pose proof (req_arg_range s) as Hu. pose proof Hu as [? _]. change PGSIZE with 4096 in *.
  apply wp_bind. eapply (wp_on_fs _ (λ rb J, kept I J ∧ Z.of_nat (length rb.2) ≤ 4096 ∧
    (rb.1 = - E_NO_DISK ∧ full J ∧
       (∃ i, req_offset s ≤ i < req_offset s + read_count s ∧ bmap I (req_file s) (i / 4096) = 0) ∨
     rb.1 = read_count s ∧ rb.2 = contents I (req_file s) (req_offset s) (read_count s))));
    [apply Hs| |].
  - fold I. apply iwp_file_read; try done; fold n.
    + intros Hle. split; [by apply kept_refl|]. split; [done|]. right. unfold read_count. fold I.
      assert (Z.max 0 (Z.min (req_arg s) (size_of I (req_file s) - req_offset s)) = 0) as -> by lia. done.
    + intros J Hlt Hfl Hsolid. split.
      { apply (filled_kept I J (req_file s) (req_offset s + n)); try done; [lia|]. intros Hdir.
        apply Hsolid, dir_solid; [by apply (vk_dir _ Hv)|done|lia]. }
      assert (read_count s = n) as -> by (unfold read_count; fold I; lia).
      split; [|by right]. cbn [snd]. rewrite contents_length. lia.
    + intros J buf Hlt Hfl Hfull (i & Hin & Hz) Hlen. split; [|split; [cbn; lia|]].
      2: { left. split; [done|]. split; [done|]. exists i. split; [unfold read_count; fold I; lia|done]. }
      apply (filled_kept I J (req_file s) (req_offset s + n)); try done; [lia|]. intros Hdir. exfalso.
      apply (dir_solid I (req_file s) (req_offset s) (req_offset s + n) (vk_dir _ Hv _ Hr Hdir) Hoff ltac:(lia) i); done.
  - intros [r buf] x Hx (Hk & Hlen & Hres). cbn [fst snd] in *. pose proof (inv_kept s x Hs Hx Hk) as Hinv.
    apply wp_bind, wp_reply; [done|].
    destruct Hres as [(-> & Hfull)|[-> ->]].
    + rewrite neg_err by done. apply wp_ret. split; [by apply inv_req|]. split; [done|]. intros _. by left.
    + assert (0 ≤ read_count s) as H0 by (unfold read_count; lia). rewrite (proj2 (Z.ltb_ge _ _)) by lia.
      apply wp_bind, wp_modify, wp_ret. split; [by apply inv_fd, inv_req|]. split; [done|]. intros _. right.
      split; [done|]. split.
      * intros k Hk'. cbn [fsreq set_fd set_req]. rewrite contents_length in *. unfold patch.
        rewrite (proj2 (Z.leb_le _ _)), (proj2 (Z.ltb_lt _ _)) by lia. cbn [andb]. rewrite Z.sub_0_r.
        apply list_lookup_total_correct. unfold contents. rewrite list_lookup_fmap, lookup_seqZ_lt by lia. cbn.
        do 2 f_equal. lia.
      * cbn [fdpage set_fd]. by rewrite Z.eqb_refl.
Qed.

(** Lookup of the file, then code of the file system. *)
Lemma wp_serve_set_size s :
  srv_inv s →
  (req_open s → ftype (cur (sfs s)) (req_file s) ≠ FTYPE_DIR ∧ 0 ≤ s32 (req_arg s) ≤ MAXFILESIZE) →
  wpr serve_set_size (λ r s', srv_inv s' ∧ (¬ req_open s → r = - E_INVAL ∧ s' = s) ∧
    (req_open s → r = 0 ∧ size_of (cur (sfs s')) (req_file s) = s32 (req_arg s))) s.
Proof.
  intros Hs Hg. apply wp_bind, wp_gets, wp_bind, wp_gets. fold (req_fileid s) (req_arg s).
  apply wp_bind, wp_lookup; intros Ho.
  2: { change (- E_INVAL <? 0) with true. cbv iota. apply wp_ret. by split; [|split]. }
  destruct (Hg Ho) as [Hty Hsz]. pose proof (req_reach s Hs Ho) as Hr. pose proof (sv_vol _ Hs) as Hv.
  destruct (vk_file _ Hv _ Hr) as [Hf Hsz']. change (0 <? 0) with false. cbv iota.
  apply wp_bind, wp_gets. fold (req_file s).
  apply (wp_on_fs _ (λ r J, r = 0 ∧ resized (cur (sfs s)) J (req_file s) (s32 (req_arg s)))); [apply Hs| |].
  - apply iwp_file_set_size; try done. by apply (vk_tail _ Hv).
  - intros r x Hx [-> HJ]. split; [|split; [done|]].
    + apply inv_kept; [done|done|]. eapply resized_kept; [apply fo_img, Hs|exact Hv|exact Hr|exact Hty|exact Hsz|exact HJ].
    + intros _. split; [done|]. exact (rz_size _ _ _ _ HJ).
Qed.

(** The bytes a client sends. *)
Definition req_bytes (s : servst) : list Z := (λ a, u8 (fsreq s (8 + a))) <$> seqZ 0 (req_arg s).

Lemma req_bytes_length s : Z.of_nat (length (req_bytes s)) = req_arg s.
Proof. unfold req_bytes. rewrite length_fmap, length_seqZ. destruct (req_arg_range s). lia. Qed.

Lemma wp_serve_write s :
  srv_inv s →
  (req_open s → ftype (cur (sfs s)) (req_file s) ≠ FTYPE_DIR ∧ 0 ≤ req_offset s ∧ 8 + req_arg s ≤ PGSIZE ∧
     req_offset s + req_arg s ≤ MAXFILESIZE) →
  wpr serve_write (λ r s', srv_inv s' ∧ (¬ req_open s → r = - E_INVAL ∧ s' = s) ∧
    (req_open s → r = - E_NO_DISK ∧ full (cur (sfs s')) ∨
       r = req_arg s ∧
       file_wrote (cur (sfs s)) (cur (sfs s')) (req_file s) (req_bytes s) (req_offset s) (req_offset s + r) ∧
       fd_offset (fdpage s' (req_entry s)) = s32 (req_offset s + r) ∧
       opentab s' = opentab s ∧ fdref s' = fdref s)) s.
Proof.
  intros Hs Hg. apply wp_bind, wp_gets, wp_bind, wp_gets. fold (req_fileid s) (req_arg s).
  apply wp_bind, wp_lookup; intros Ho.
  2: { change (- E_INVAL <? 0) with true. cbv iota. apply wp_ret. by split; [|split]. }
  destruct (Hg Ho) as (Hty & Hoff & Hpg & Hmax). pose proof (req_reach s Hs Ho) as Hr. pose proof (sv_vol _ Hs) as Hv.
  destruct (vk_file _ Hv _ Hr) as [Hf Hsz]. pose proof (fo_img _ (sv_fs _ Hs)) as Hi.
  pose proof (req_bytes_length s) as Hlen. destruct (req_arg_range s) as [H0 _].
  change (0 <? 0) with false. cbv iota.
  apply wp_bind, wp_gets, wp_bind, wp_gets, wp_bind, wp_gets. fold (req_file s) (req_offset s) (req_bytes s).
  rewrite (proj2 (Z.ltb_ge _ _)) by done. set (I := cur (sfs s)) in *.
  apply wp_bind, (wp_on_fs _ (λ r J, kept I J ∧ (r = - E_NO_DISK ∧ full J ∨
    r = req_arg s ∧ file_wrote I J (req_file s) (req_bytes s) (req_offset s) (req_offset s + r)))); [apply Hs| |].
  - fold I. apply iwp_file_write; try done; rewrite ?Hlen; [done|..].
    + intros J HJ. split; [|by right]. apply (wrote_kept _ _ (req_file s) (req_bytes s) (req_offset s) (req_offset s + req_arg s)); try done; rewrite Hlen; lia.
    + intros J mid [_ Hmid] HJ Hfull. split; [|by left]. apply (wrote_kept _ _ (req_file s) (req_bytes s) (req_offset s) mid); try done; rewrite Hlen; lia.
  - intros r x Hx [Hk Hres]. pose proof (inv_kept s x Hs Hx Hk) as Hinv.
    destruct Hres as [[-> Hfull]|[-> HJ]].
    + rewrite neg_err by done. apply wp_ret. split; [done|]. split; [done|]. intros _. by left.
    + rewrite (proj2 (Z.ltb_ge _ _)) by done. apply wp_bind, wp_modify, wp_ret.
      split; [by apply inv_fd|]. split; [done|]. intros _. right. split; [done|]. split; [done|].
      cbn [fdpage set_fd]. by rewrite Z.eqb_refl.
Qed.

(** ** Names, flushing, counting *)
Lemma iwp_read_name I : ∀ (n : list Z) fuel va Q,
  avail I (block_of va) → va mod 4096 + Z.of_nat (length n) < 4096 → Forall (λ c, 0 < c < 256) n →
  (length n < fuel)%nat → name_eqb I va n = true → Q n I → iwp (read_name fuel va) Q I.
Proof.
  induction n as [|c n IH]; intros [|fuel] va Q Hv Hm Hc Hl Hn HQ; cbn [read_name name_eqb length] in *; try lia.
  - apply iwp_bind, iwp_load8; [done|]. rewrite Hn. by apply iwp_ret.
  - apply andb_true_iff in Hn as [E%Z.eqb_eq Hn]. inversion_clear Hc as [|? ? Hc1 Hc2].
    destruct (block_near va 1) as [E1 E2]; [lia|lia|].
    apply iwp_bind, iwp_load8; [done|]. rewrite E. rewrite (proj2 (Z.eqb_neq c 0)) by lia.
    apply iwp_bind, IH; [by rewrite E1|lia|done|lia|done|]. by apply iwp_ret.
Qed.

Lemma reach_name I f : vol_ok I → reach I f → ∃ n, name_ok n ∧ name_eqb I f n = true.
Proof.
  intros Hv [|d n g Hr Hty Hn _ Hl]; [apply (vk_root _ Hv)|]. exists n. split; [done|].
  apply (find_slot_Some I d) in Hl as (i & j & _ & _ & -> & Hm). done.
Qed.

(** Code that only reads. *)
Lemma wp_on_fs_read {A} (m : M fsst A) (v : A) I (Q : A → servst → Prop) s :
  srv_inv s → cur (sfs s) = I → iwp m (λ a J, a = v ∧ J = I) I →
  (∀ x, cur x = I → srv_inv (set_sfs x s) → Q v (set_sfs x s)) → wpr (on_fs m) Q s.
Proof.
  intros Hs E Hm HQ. eapply wp_on_fs; [apply Hs|rewrite E; exact Hm|].
  intros a x Hx [-> Ex]. apply HQ; [done|]. apply inv_same; [done|done|congruence].
Qed.

Lemma name_written p n : name_ok n →
  name_eqb (patch p 0 (Z.of_nat (length (n ++ [0]))) (λ i, (n ++ [0]) !!! Z.to_nat i)) 0 n = true.
Proof.
  intros [Hn _]. rewrite length_app. cbn [length]. apply name_eqb_spec. split.
  - intros k Hk. rewrite Z.add_0_l. rewrite <- (Z.add_0_l (Z.of_nat k)), patch_in by lia. rewrite Nat2Z.id.
    destruct (lookup_lt_is_Some_2 n k Hk) as [c Hc].
    rewrite Hc. f_equal. symmetry. apply list_lookup_total_correct. rewrite lookup_app_l by lia. done.
  - rewrite patch_in by lia. rewrite Nat2Z.id. apply list_lookup_total_correct.
    rewrite lookup_app_r by lia. by replace (length n - length n)%nat with 0%nat by lia.
Qed.

Lemma wp_serve_stat s :
  srv_inv s → wpr serve_stat (λ r s', srv_inv s' ∧ (¬ req_open s → r = - E_INVAL ∧ s' = s) ∧
    (req_open s → r = 0 ∧ ∃ n, name_ok n ∧ name_eqb (cur (sfs s)) (req_file s) n = true ∧
       name_eqb (fsreq s') 0 n = true ∧
       word_at (fsreq s') MAXNAMELEN = u32 (size_of (cur (sfs s)) (req_file s)) ∧
       word_at (fsreq s') (MAXNAMELEN + 4) =
         if ftype (cur (sfs s)) (req_file s) =? FTYPE_DIR then 1 else 0)) s.
Proof.
  intros Hs. apply wp_bind, wp_gets. fold (req_fileid s). apply wp_bind, wp_lookup; intros Ho.
  2: { change (- E_INVAL <? 0) with true. cbv iota. apply wp_ret. by split; [|split]. }
  pose proof (req_reach s Hs Ho) as Hr. pose proof (sv_vol _ Hs) as Hv.
  destruct (vk_file _ Hv _ Hr) as [Hf Hsz], (reach_name _ _ Hv Hr) as (n & Hn & Hm).
  pose proof Hn as [Hc Hlen]. pose proof (fk_page _ _ Hf) as Hpage.
  change (0 <? 0) with false. cbv iota. apply wp_bind, wp_gets. fold (req_file s). set (I := cur (sfs s)) in *.
  apply wp_bind, (wp_on_fs_read _ n I); [done|done| |].
  { apply (iwp_read_name I n); try done; [apply Hf|unfold f_name; lia|change PGSIZE with 4096; lia]. }
  intros x1 E1 H1. apply wp_bind, wp_reply; [rewrite length_app; change PGSIZE with 4096; cbn [length]; lia|].
  apply wp_bind, (wp_on_fs_read _ (size_of I (req_file s)) I); [by apply inv_req|done| |].
  { destruct (member_word I (req_file s) Hf 128) as [Ha Hb]; [lia|]. by apply iwp_bind, iwp_load32, iwp_ret. }
  intros x2 E2 H2. apply wp_bind, wp_modify.
  apply wp_bind, (wp_on_fs_read _ (ftype I (req_file s)) I); [by apply inv_req|done| |].
  { destruct (member_word I (req_file s) Hf 132) as [Ha Hb]; [lia|]. apply iwp_load32; [| |done].
    all: unfold f_type, MAXNAMELEN; rewrite <- Z.add_assoc; done. }
  intros x3 E3 H3. apply wp_bind, wp_modify, wp_ret. split; [by apply inv_req|]. split; [done|]. intros _.
  split; [done|]. exists n. split; [done|]. split; [done|]. cbn [fsreq set_req set_sfs].
  unfold MAXNAMELEN. split; [|split].
  - rewrite <- (name_written (fsreq s) n Hn). apply name_eqb_ext. intros k Hk.
    rewrite !patch_out by lia. done.
  - rewrite word_patch_out by lia. apply word_patch_same.
  - rewrite word_patch_same. destruct (_ =? _); done.
Qed.

(** A file that is open is not closed, so [serve_flush] does not close it. *)
Lemma closed_spec s f : closed_in s f = true ↔ ∀ i, 0 ≤ i < MAXOPEN → 1 < fdref s i → o_file (opentab s i) ≠ f.
Proof.
  unfold closed_in. rewrite forallb_forall. setoid_rewrite <- list_elem_of_In. setoid_rewrite elem_of_seqZ.
  split.
  - intros H i Hi Hr E. specialize (H i ltac:(lia)). rewrite (proj2 (Z.ltb_lt _ _) Hr), (proj2 (Z.eqb_eq _ _) E) in H.
    done.
  - intros H i Hi. destruct (Z.ltb_spec 1 (fdref s i)) as [Hr|]; [|done]. cbn [andb].
    rewrite (proj2 (Z.eqb_neq _ _)); [done|]. apply H; [lia|done].
Qed.

Lemma wp_serve_flush s :
  srv_inv s → wpr serve_flush (λ r s', srv_inv s' ∧ cur (sfs s') = cur (sfs s) ∧
    r = if decide (req_open s) then 0 else - E_INVAL) s.
Proof.
  intros Hs. apply wp_bind, wp_gets. fold (req_fileid s). apply wp_bind, wp_lookup; intros Ho.
  2: { change (- E_INVAL <? 0) with true. cbv iota. apply wp_ret. by rewrite decide_False. }
  pose proof (req_reach s Hs Ho) as Hr. pose proof (sv_vol _ Hs) as Hv. destruct (vk_file _ Hv _ Hr) as [Hf Hsz].
  rewrite decide_True by done.
  change (0 <? 0) with false. cbv iota. apply wp_bind, wp_gets. fold (req_file s).
  apply wp_bind, (wp_on_fs_read _ tt (cur (sfs s))); [done|done|by apply iwp_file_flush|].
  intros x E Hx. apply wp_bind, wp_gets. assert (closed_in (set_sfs x s) (req_file s) = false) as ->.
  { apply not_true_iff_false. rewrite closed_spec. intros H. destruct Ho as [Ho _].
    by apply (H (req_entry s) (entry_range s) Ho). }
  by apply wp_bind, wp_ret, wp_ret.
Qed.

Lemma wp_serve_sync s :
  srv_inv s → wpr serve_sync (λ r s', srv_inv s' ∧ cur (sfs s') = cur (sfs s) ∧ r = 0) s.
Proof.
  intros Hs. destruct (fs_sync_ok (sfs s) (sv_fs _ Hs)) as (x & E & Hx).
  apply wp_bind, wp_zoom. eapply wp_intro; [exact E|]. apply wp_ret.
  split; [|by split; [apply (sy_cur _ _ _ Hx)|]]. apply inv_same; [done|apply Hx|apply Hx].
Qed.

(** The number of blocks in use. *)
Definition used_blocks (I : Z → Z) (lo : Z) (n : nat) : Z :=
  Z.of_nat (length (filter (λ b, free I b = false) (seqZ lo (Z.of_nat n)))).

Lemma iwp_count_used I : ∀ (n : nat) i cnt Q, 0 ≤ i → i + Z.of_nat n ≤ nblk I →
  Q (cnt + used_blocks I i n) I → iwp (count_used n i cnt) Q I.
Proof.
  induction n as [|n IH]; intros i cnt Q Hi Hn HQ; cbn [count_used].
  { apply iwp_ret. unfold used_blocks in HQ. cbn in HQ. by rewrite Z.add_0_r in HQ. }
  apply iwp_bind, iwp_block_is_free; [lia|]. apply IH; [lia|lia|].
  assert (used_blocks I i (S n) = (if free I i then 0 else 1) + used_blocks I (i + 1) n) as E.
  { unfold used_blocks. rewrite seqZ_cons by lia. replace (Z.pred (Z.of_nat (S n))) with (Z.of_nat n) by lia.
    rewrite filter_cons, <- Z.add_1_r. destruct (free I i) eqn:E.
    - by rewrite decide_False.
    - rewrite decide_True by done. cbn [length]. lia. }
  rewrite E in HQ. destruct (free I i); [by rewrite Z.add_0_l in HQ|by rewrite <- Z.add_assoc].
Qed.

Lemma wp_serve_info s :
  srv_inv s → wpr serve_info (λ r s', srv_inv s' ∧ cur (sfs s') = cur (sfs s) ∧ r = 0 ∧
    word_at (fsreq s') 0 = nblk (cur (sfs s)) ∧
    word_at (fsreq s') 4 = used_blocks (cur (sfs s)) 0 (Z.to_nat (nblk (cur (sfs s))))) s.
Proof.
  intros Hs. pose proof (nblk_bound _ (sv_fs _ Hs)) as Hb. set (I := cur (sfs s)) in *.
  apply wp_bind, (wp_on_fs_read _ (nblk I) I); [done|done|by apply iwp_nblocks|]. intros x1 E1 H1.
  set (n := used_blocks I 0 (Z.to_nat (nblk I))).
  apply wp_bind, (wp_on_fs_read _ n I); [done|done|apply iwp_count_used; [lia|lia|done]|]. intros x2 E2 H2.
  apply wp_bind, (wp_on_fs_read _ (nblk I) I); [done|done|by apply iwp_nblocks|]. intros x3 E3 H3.
  apply wp_bind, wp_modify, wp_bind, wp_modify, wp_ret. split; [by apply inv_req, inv_req|].
  cbn [sfs fsreq set_req set_sfs]. do 2 (split; [done|]).
  assert (0 ≤ n ≤ nblk I) as Hn.
  { unfold n, used_blocks. pose proof (length_filter (λ b, free I b = false) (seqZ 0 (Z.of_nat (Z.to_nat (nblk I))))) as H.
    rewrite length_seqZ in H. lia. }
  split; [rewrite word_patch_out by lia|]; rewrite word_patch_same; apply u32_small; unfold is_u32; lia.
Qed.

(** ** Paths *)
Lemma cstring_some p : ∀ (n : nat) o k, 0 ≤ k < Z.of_nat n → u8 (p (o + k)) = 0 →
  ∃ l, cstring p o n = Some l ∧ Forall (λ c, 0 < c < 256) l.
Proof.
  induction n as [|n IH]; intros o k Hk Hz; [lia|]. cbn [cstring]. pose proof (u8_range (p o)) as Hr.
  destruct (Z.eqb_spec (u8 (p o)) 0) as [|Hne]; [by exists []|].
  assert (k ≠ 0) by (intros ->; by rewrite Z.add_0_r in Hz).
  destruct (IH (o + 1) (k - 1)) as (l & -> & Hl); [lia|by replace (o + 1 + (k - 1)) with (o + k) by lia|].
  exists (u8 (p o) :: l). split; [done|]. constructor; [lia|done].
Qed.

(** The path of a request. *)
Definition path_of (s : servst) : list Z :=
  default [] (cstring (λ a, if a =? MAXPATHLEN - 1 then 0 else fsreq s a) 0 (Z.to_nat MAXPATHLEN)).

Lemma path_of_chars s : Forall (λ c, 0 < c < 256) (path_of s).
Proof.
  destruct (cstring_some (λ a, if a =? MAXPATHLEN - 1 then 0 else fsreq s a) (Z.to_nat MAXPATHLEN) 0 (MAXPATHLEN - 1))
    as (l & E & Hl); [done|done|]. unfold path_of. by rewrite E.
Qed.

Lemma wp_req_path (Q : list Z → servst → Prop) s : Q (path_of s) s → wpr (req_path 0) Q s.
Proof.
  intros HQ. apply wp_bind, wp_gets. rewrite Z.add_0_l.
  destruct (cstring_some (λ a, if a =? MAXPATHLEN - 1 then 0 else fsreq s a) (Z.to_nat MAXPATHLEN) 0 (MAXPATHLEN - 1))
    as (l & E & Hl); [done|done|]. eapply wp_deref; [exact E|]. unfold path_of in HQ. by rewrite E in HQ.
Qed.

(** ** Allocating an entry *)

(** The table after entry [i] has been taken. *)
Record granted (s s' : servst) (i : Z) : Prop := {
  gr_range : 0 ≤ i < MAXOPEN;
  gr_inv : srv_inv s';
  gr_fs : sfs s' = sfs s;
  gr_req : fsreq s' = fsreq s;
  gr_was : fdref s i ≤ 1;
  gr_ref : fdref s' i = 1;
  gr_refs : ∀ j, j ≠ i → fdref s' j = fdref s j;
  gr_id : o_fileid (opentab s' i) = u32 (o_fileid (opentab s i) + MAXOPEN);
  gr_others : ∀ j, j ≠ i → opentab s' j = opentab s j ∧ fdpage s' j = fdpage s j
}.

Lemma next_id x i : 0 ≤ i < MAXOPEN → is_u32 x ∧ x mod MAXOPEN = i →
  is_u32 (u32 (x + MAXOPEN)) ∧ u32 (x + MAXOPEN) mod MAXOPEN = i.
Proof. unfold MAXOPEN, is_u32, u32. intros Hi [Hx E]. dlia. Qed.

Lemma take_entry s i s1 : srv_inv s → 0 ≤ i < MAXOPEN → fdref s i ≤ 1 →
  s1 = s ∧ fdref s i = 1 ∨ s1 = set_ref i 1 s →
  granted s (set_fd i (MkFd 0 0 0 0) (set_open i (MkOpenFile (u32 (o_fileid (opentab s1 i) + MAXOPEN))
    (o_file (opentab s1 i)) (o_mode (opentab s1 i))) s1)) i.
Proof.
  intros Hs Hi Hr H1. pose proof Hs as [Hf Hv [Hid Href Hop]].
  assert (sfs s1 = sfs s ∧ fsreq s1 = fsreq s ∧ opentab s1 = opentab s ∧ fdpage s1 = fdpage s ∧
    fdref s1 i = 1 ∧ ∀ j, j ≠ i → fdref s1 j = fdref s j) as (E1 & E2 & E3 & E4 & E5 & E6).
  { destruct H1 as [[-> E]| ->]; [done|]. cbn. rewrite Z.eqb_refl. do 5 (split; [done|]).
    intros j Hj. by rewrite (proj2 (Z.eqb_neq _ _)). }
  split; cbn [sfs fsreq fdref opentab fdpage set_fd set_open]; rewrite ?E3, ?Z.eqb_refl; try done.
  - split; cbn [sfs set_fd set_open]; [by rewrite E1|by rewrite E1|]. rewrite E1.
    split; cbn [fdref opentab set_fd set_open]; intros j.
    + intros Hj. destruct (Z.eqb_spec j i) as [->|]; [|rewrite E3; by apply Hid]. rewrite ?E3; apply next_id; auto.
    + destruct (decide (j = i)) as [->|Hne]; [rewrite E5; lia|by rewrite E6].
    + intros Hj Hx. destruct (Z.eqb_spec j i) as [->|Hne]; [rewrite E5 in Hx; lia|].
      rewrite E6 in Hx by done. rewrite ?E3. by apply Hop.
  - intros j Hj. rewrite (proj2 (Z.eqb_neq _ _)), E4 by done. done.
Qed.

Lemma wp_openfile_try (Q : option (Z * Z) → servst → Prop) s i :
  srv_inv s → 0 ≤ i < MAXOPEN →
  (1 < fdref s i → Q None s) →
  (∀ s', granted s s' i → Q (Some (s32 (o_fileid (opentab s' i)), i)) s') →
  wpr (openfile_try i) Q s.
Proof.
  intros Hs Hi HQ1 HQ2. apply wp_bind, wp_gets. destruct (Z.ltb_spec 1 (fdref s i)) as [Hr|Hr]; [by apply wp_ret, HQ1|].
  pose proof (tk_refs _ _ (sv_tab _ Hs) i) as H0.
  assert (∀ s1, s1 = s ∧ fdref s i = 1 ∨ s1 = set_ref i 1 s →
    wpr (let* o := gets (λ s, opentab s i) in
         let id := u32 (o_fileid o + MAXOPEN) in
         do* modify (set_open i (MkOpenFile id (o_file o) (o_mode o))) in
         do* modify (set_fd i (MkFd 0 0 0 0)) in
         ret (Some (s32 id, i))) Q s1) as Hrest.
  { intros s1 H1. apply wp_bind, wp_gets, wp_bind, wp_modify, wp_bind, wp_modify, wp_ret.
    specialize (HQ2 _ (take_entry s i s1 Hs Hi Hr H1)). cbn [opentab set_fd set_open] in HQ2.
    by rewrite Z.eqb_refl in HQ2. }
  apply wp_bind. destruct (Z.eqb_spec (fdref s i) 0) as [Hz|Hz].
  - apply wp_bind. eapply wp_intro.
    { unfold on_fs, zoom, request. rewrite (fo_granted _ (sv_fs _ Hs)). reflexivity. }
    assert (set_sfs (sfs s) s = s) as -> by (by destruct s). cbn [negb]. apply wp_bind, wp_modify, wp_ret.
    apply Hrest. by right.
  - apply wp_ret. apply Hrest. left. split; [done|lia].
Qed.

Lemma wp_openfile_alloc (Q : Z * Z → servst → Prop) s :
  srv_inv s →
  (∀ s' i, granted s s' i → (∀ j, 0 ≤ j < i → 1 < fdref s j) → Q (s32 (o_fileid (opentab s' i)), i) s') →
  ((∀ j, 0 ≤ j < MAXOPEN → 1 < fdref s j) → Q (- E_MAX_OPEN, 0) s) →
  wpr openfile_alloc Q s.
Proof.
  intros Hs HQ1 HQ2. unfold openfile_alloc. apply wp_bind.
  assert (∀ (n : nat) lo, 0 ≤ lo → lo + Z.of_nat n = MAXOPEN → (∀ j, 0 ≤ j < lo → 1 < fdref s j) →
    wpr (search n lo openfile_try)
      (λ r s', wpr (match r with Some x => ret x | None => ret (- E_MAX_OPEN, 0) end) Q s') s)
    as Hloop; [|apply (Hloop _ 0); [lia|done|lia]].
  induction n as [|n IH]; intros lo Hlo Hn Hb; cbn [search].
  { apply wp_ret, wp_ret, HQ2. intros j Hj. apply Hb. lia. }
  apply wp_bind, wp_openfile_try; [done|lia|..].
  - intros Hr. apply IH; [lia|lia|]. intros j Hj. destruct (decide (j = lo)) as [->|]; [done|apply Hb; lia].
  - intros s' Hg. apply wp_ret, wp_ret. by apply HQ1.
Qed.

(** ** Opening *)
Definition req_omode (s : servst) : Z := word_at (λ a, u8 (fsreq s a)) MAXPATHLEN.
Definition creates (omode : Z) : bool := ctrue (Z.land omode (Z.lor O_CREAT O_MKDIR)).

Lemma inv_grown s x : srv_inv s → fs_ok x → vol_ok (cur x) → (∀ g, reach (cur (sfs s)) g → reach (cur x) g) →
  srv_inv (set_sfs x s).
Proof. intros Hs Hx Hv Hr. split; [done|done|]. cbn [sfs set_sfs]. by eapply tab_kept; [apply Hs|]. Qed.

(** What [open_or_create] does to the file system: it fails and leaves the image, it
    fails with a directory that is too large, or it yields the file of the path. *)
Inductive opened (I : Z → Z) (path : list Z) (omode : Z) (J : Z → Z) : Z → option Z → Prop :=
| opened_error r f : r = - E_FILE_EXISTS ∨ r = - E_NOT_FOUND ∨ r = - E_BAD_PATH → J = I → opened I path omode J r f
| opened_room r f d : creates omode = true → r = - E_INVAL ∨ r = - E_NO_DISK → overgrown I J d →
    opened I path omode J r f
| opened_old g : file_at I path = Some g → J = I → opened I path omode J 0 (Some g)
| opened_new g : creates omode = true → vol_ok J → (∀ h, reach I h → reach J h) → reach J g →
    file_at J path = Some g → ftype J g = ftype_of (ctrue (Z.land omode O_MKDIR)) →
    opened I path omode J 0 (Some g).

Lemma file_at_reach I path g : vol_ok I → Forall (λ c, 0 < c < 256) path → file_at I path = Some g → reach I g.
Proof.
  unfold file_at. intros Hv Hc. case_decide; [|done]. apply resolve_reach; [constructor|]. by apply elems_names.
Qed.

Lemma iwp_opened I path omode :
  vol_ok I → Forall (λ c, 0 < c < 256) path →
  iwp (file_open path) (λ rf J, opened I path omode J rf.1 rf.2) I.
Proof.
  intros Hv Hc. apply iwp_file_open; [done|done|]. intros r [[-> [g Hg]]|[[->| ->] Hn]]; cbn [fst snd].
  - rewrite Hg. by apply opened_old.
  - apply opened_error; auto.
  - apply opened_error; auto.
Qed.

Lemma wp_open_or_create s path omode (Q : Z * option Z → servst → Prop) :
  srv_inv s → Forall (λ c, 0 < c < 256) path →
  (∀ r f x, fs_ok x → opened (cur (sfs s)) path omode (cur x) r f → Q (r, f) (set_sfs x s)) →
  wpr (open_or_create path omode) Q s.
Proof.
  intros Hs Hc HQ. pose proof (sv_vol _ Hs) as Hv. pose proof (fo_img _ (sv_fs _ Hs)) as Hi. unfold open_or_create.
  fold (creates omode). destruct (creates omode) eqn:Ecr.
  2: { eapply wp_on_fs; [apply Hs|by apply (iwp_opened _ _ omode)|]. intros [r f] x Hx HO. by apply HQ. }
  set (md := ctrue (Z.land omode O_MKDIR)). set (I := cur (sfs s)) in *.
  apply wp_bind, (wp_on_fs _ (λ rf J, opened I path omode J rf.1 (Some rf.2) ∧ (rf.1 = - E_FILE_EXISTS → J = I)));
    [apply Hs| |].
  - fold I. apply iwp_file_create; [done|done|..]; cbn [fst snd].
    + intros _ _. split; [|done]. apply opened_error; auto.
    + intros r [->| ->] _; (split; [apply opened_error; auto|done]).
    + intros d n J fp Hh Hp Hl Hn Hne Hr HJ. split; [|done].
      pose proof Hp as (q & Eq & Hq & Hty & _). pose proof (elems_names path Hc) as Hnm.
      apply opened_new; [done|by eapply en_vol|by eapply en_reach_old|by eapply en_reach_new| |
        exact (cr_type _ _ _ _ _ _ HJ)].
      unfold file_at. rewrite decide_True by done.
      eapply (en_resolve I J d fp); try done; [constructor|]. right. split; [done|]. by exists q.
    + intros d n J r _ _ _ Hr Ho. split; [|by destruct Hr as [[-> _]|[-> _]]].
      eapply opened_room; [done| |done]. destruct Hr as [[-> _]|[-> _]]; auto.
  - intros [r f] x Hx [HO Hsame]. cbn [fst snd] in *.
    destruct ((r <? 0) && negb (ctrue (Z.land omode O_EXCL)) && (r =? - E_FILE_EXISTS)) eqn:E.
    + apply andb_true_iff in E as [_ E%Z.eqb_eq]. specialize (Hsame E).
      eapply (wp_on_fs _ _ _ (set_sfs x s)); [done| |].
      * cbn [sfs set_sfs]. rewrite Hsame. by apply (iwp_opened I path omode).
      * intros [r' f'] y Hy HO'. by apply (HQ r' f' y).
    + apply wp_ret. by apply HQ.
Qed.

(** Truncation is not asked for where there is a directory. *)
Definition open_ok (s : servst) : Prop :=
  ctrue (Z.land (req_omode s) O_TRUNC) = true →
  ctrue (Z.land (req_omode s) O_MKDIR) = false ∧
  ∀ g, file_at (cur (sfs s)) (path_of s) = Some g → ftype (cur (sfs s)) g ≠ FTYPE_DIR.

(** Entry [i] is for the file of the path, with a descriptor at its start; a directory
    is only open for reading. *)
Record answered (s s' : servst) (i : Z) : Prop := {
  an_range : 0 ≤ i < MAXOPEN;
  an_ref : fdref s' i = 1;
  an_file : file_at (cur (sfs s')) (path_of s) = Some (o_file (opentab s' i));
  an_reach : reach (cur (sfs s')) (o_file (opentab s' i));
  an_fd : fdpage s' i = MkFd devfile_dev_id 0 (Z.land (req_omode s) O_ACCMODE) (o_fileid (opentab s' i));
  an_dir : ftype (cur (sfs s')) (o_file (opentab s' i)) = FTYPE_DIR →
    Z.land (req_omode s) (Z.lor O_RDWR O_WRONLY) = 0
}.

Definition open_post (s : servst) (a : Z * option Z) (s' : servst) : Prop :=
  fs_ok (sfs s') ∧
  (creates (req_omode s) = true ∧ (a.1 = - E_INVAL ∨ a.1 = - E_NO_DISK) ∧ a.2 = None ∨
   srv_inv s' ∧ ∀ i, a.2 = Some i → a.1 = 0 ∧ answered s s' i).

Lemma open_refused s r s' : srv_inv s' → open_post s (r, None) s'.
Proof. intros H. split; [apply H|]. by right. Qed.

Lemma inv_open s i x : srv_inv s → fdref s i ≤ 1 → o_fileid x = o_fileid (opentab s i) → srv_inv (set_open i x s).
Proof.
  intros [Hf Hv [H1 H2 H3]] Hr E. split; [done|done|]. split; [|done|]; cbn [opentab set_open sfs fdref]; intros j.
  - destruct (Z.eqb_spec j i) as [->|]; [rewrite E; apply H1|apply H1].
  - destruct (Z.eqb_spec j i) as [->|]; [lia|apply H3].
Qed.

Lemma wp_open_finish s s1 i :
  srv_inv s1 → 0 ≤ i < MAXOPEN → fdref s1 i = 1 →
  wpr (open_finish (path_of s) (req_omode s) i) (open_post s) s1.
Proof.
  intros Hs Hi Hr. pose proof (sv_vol _ Hs) as Hv. pose proof (path_of_chars s) as Hc. set (I := cur (sfs s1)) in *.
  apply wp_bind, (wp_on_fs _ (λ rf J, J = I ∧ rf.2 = file_at I (path_of s) ∧
    (rf.1 = 0 ∧ is_Some rf.2 ∨ rf.1 = - E_NOT_FOUND ∨ rf.1 = - E_BAD_PATH))); [apply Hs| |].
  { fold I. apply iwp_file_open; [done|done|]. intros r H. split; [done|]. split; [done|]. cbn [fst snd]. tauto. }
  intros [r f] x Hx (Ex & Ef & Hres). cbn [fst snd] in *. pose proof (inv_same s1 x Hs Hx Ex) as H1.
  destruct Hres as [[-> [g Eg]]|[->| ->]]; [|rewrite neg_err by done; by apply wp_ret, open_refused..].
  rewrite Eg in Ef. subst f. symmetry in Ef. pose proof (file_at_reach I _ g Hv Hc Ef) as Hg.
  destruct (vk_file _ Hv g Hg) as [Hf _]. change (0 <? 0) with false. cbv iota.
  apply wp_bind. eapply wp_deref; [done|].
  apply wp_bind, (wp_on_fs_read _ (ftype I g) I); [done|done| |].
  { destruct (member_word I g Hf 132) as [Ha Hb]; [lia|]. apply iwp_load32; [| |done].
    all: unfold f_type, MAXNAMELEN; rewrite <- Z.add_assoc; done. }
  intros y Ey H2. destruct ((ftype I g =? FTYPE_DIR) && _) eqn:Ed; [by apply wp_ret, open_refused|].
  apply wp_bind, wp_gets, wp_bind, wp_modify, wp_bind, wp_modify, wp_ret.
  split; [apply H2|]. right. split; [apply inv_open; [by apply inv_fd|cbn; lia|done]|].
  intros j [= <-]. split; [done|]. split; cbn [fdref opentab fdpage sfs set_open set_fd set_sfs];
    rewrite ?Z.eqb_refl, ?Ey; cbn [o_file o_fileid]; try done.
  intros Hd. rewrite Hd, Z.eqb_refl in Ed. by apply ctrue_false.
Qed.

Lemma wp_serve_open s : srv_inv s → open_ok s → wpr serve_open (open_post s) s.
Proof.
  intros Hs Hg. unfold serve_open. apply wp_bind, wp_req_path, wp_bind, wp_gets. fold (req_omode s).
  apply wp_bind, wp_openfile_alloc; [done| |].
  2: { intros _. rewrite neg_err by done. by apply wp_ret, open_refused. }
  intros s1 i Ha _. pose proof (gr_inv _ _ _ Ha) as H1. pose proof (path_of_chars s) as Hc.
  destruct (Z.ltb_spec (s32 (o_fileid (opentab s1 i))) 0); [by apply wp_ret, open_refused|].
  apply wp_bind, wp_open_or_create; [done|done|]. rewrite (gr_fs _ _ _ Ha). set (I := cur (sfs s)) in *.
  assert (∀ x, srv_inv (set_sfs x s1) → ∀ g, reach (cur x) g →
    (ctrue (Z.land (req_omode s) O_TRUNC) = true → ftype (cur x) g ≠ FTYPE_DIR) →
    wpr (let* r := open_truncate (req_omode s) (Some g) in
         if r <? 0 then ret (r, None) else open_finish (path_of s) (req_omode s) i)
      (open_post s) (set_sfs x s1)) as Hend.
  { intros x Hx g Hr Hty. apply wp_bind. unfold open_truncate. destruct (ctrue (Z.land (req_omode s) O_TRUNC)).
    2: { apply wp_ret. apply wp_open_finish; [done|apply Ha|apply Ha]. }
    apply wp_bind. eapply wp_deref; [done|]. pose proof (sv_vol _ Hx) as Hv. destruct (vk_file _ Hv g Hr) as [Hf Hsz].
    apply (wp_on_fs _ (λ r J, r = 0 ∧ resized (cur x) J g 0)); [apply Hx| |].
    - apply iwp_file_set_size; try done. by apply (vk_tail _ Hv).
    - intros r y Hy [-> HJ]. apply wp_open_finish; [|apply Ha|apply Ha].
      apply (inv_kept (set_sfs x s1) y); [done|done|]. cbn [sfs set_sfs].
      eapply resized_kept; [apply (fo_img _ (sv_fs _ Hx))|exact Hv|exact Hr|by apply Hty| |exact HJ].
      by unfold MAXFILESIZE, MAXBLK. }
  intros r f x Hx [r' f' Hr E|r' f' d Hcr Hr _|g Hat E|g Hcr Hv Hrs Hr Hat Hty].
  - assert (r' <? 0 = true) as -> by (by destruct Hr as [->|[->| ->]]). apply wp_ret, open_refused.
    apply inv_same; [done|done|by rewrite (gr_fs _ _ _ Ha)].
  - assert (r' <? 0 = true) as -> by (by destruct Hr as [->| ->]). apply wp_ret. split; [done|]. by left.
  - apply Hend; [apply inv_same; [done|done|by rewrite (gr_fs _ _ _ Ha)]| |]; rewrite E.
    + apply (file_at_reach I (path_of s)); [apply Hs|done|done].
    + intros Ht. by apply Hg.
  - apply Hend; [apply inv_grown; [done|done|done|by rewrite (gr_fs _ _ _ Ha)]|done|].
    intros Ht. destruct (Hg Ht) as [Hmk _]. rewrite Hty, Hmk. done.
Qed.

(** ** Removing *)
Definition remove_ok (s : servst) : Prop :=
  ∀ g, file_at (cur (sfs s)) (path_of s) = Some g → g ≠ ROOT ∧ ftype (cur (sfs s)) g ≠ FTYPE_DIR.

(** A file nobody has open leaves the tree. *)
Lemma inv_removed s x f : srv_inv s → reach (cur (sfs s)) f → f ≠ ROOT → ftype (cur (sfs s)) f ≠ FTYPE_DIR →
  closed_in s f = true → fs_ok x → removed (cur (sfs s)) (cur x) f → srv_inv (set_sfs x s).
Proof.
  intros Hs Hr Hne Hty Hcl Hx HJ. pose proof Hs as [Hf Hv [H1 H2 H3]]. pose proof (fo_img _ Hf) as Hi.
  split; [done|by apply (rv_vol (cur (sfs s)) (cur x) f)|]. split; [done|done|]. intros i Hi' Ho.
  apply (rv_reach_old (cur (sfs s)) (cur x) f); try done; [by apply H3|].
  rewrite closed_spec in Hcl. by apply Hcl.
Qed.

Lemma wp_serve_remove depth s :
  srv_inv s → remove_ok s →
  wpr (serve_remove (S depth)) (λ r s', srv_inv s' ∧
    match file_at (cur (sfs s)) (path_of s) with
    | None => (r = - E_NOT_FOUND ∨ r = - E_BAD_PATH) ∧ cur (sfs s') = cur (sfs s)
    | Some f => if closed_in s f then r = 0 ∧ removed (cur (sfs s)) (cur (sfs s')) f
                else r = - E_BUSY ∧ cur (sfs s') = cur (sfs s)
    end) s.
Proof.
  intros Hs Hg. pose proof (sv_vol _ Hs) as Hv. pose proof (path_of_chars s) as Hc. set (I := cur (sfs s)) in *.
  apply wp_bind, wp_req_path, wp_bind, (wp_on_fs _ (λ rf J, J = I ∧ rf.2 = file_at I (path_of s) ∧
    (rf.1 = 0 ∧ is_Some rf.2 ∨ (rf.1 = - E_NOT_FOUND ∨ rf.1 = - E_BAD_PATH) ∧ rf.2 = None))); [apply Hs| |].
  { fold I. apply iwp_file_open; [done|done|]. intros r H. by split. }
  intros [r f] x Hx (Ex & Ef & Hres). cbn [fst snd] in *. pose proof (inv_same s x Hs Hx Ex) as H1. rewrite <- Ef.
  destruct Hres as [[-> [g ->]]|[Hr ->]].
  2: { assert (r <? 0 = true) as -> by (by destruct Hr as [->| ->]). by apply wp_ret. }
  symmetry in Ef. pose proof (file_at_reach I _ g Hv Hc Ef) as Hr. destruct (Hg g Ef) as [Hroot Hty].
  destruct (vk_file _ Hv g Hr) as [Hf Hsz]. change (0 <? 0) with false. cbv iota.
  apply wp_bind. eapply wp_deref; [done|]. apply wp_bind, wp_gets. unfold id at 1.
  change (closed_in (set_sfs x s)) with (closed_in s). fold I in Ex.
  apply (wp_on_fs _ (λ r J, if closed_in s g then r = 0 ∧ removed I J g else r = - E_BUSY ∧ J = I)); [done| |].
  - cbn [sfs set_sfs file_mutex_remove]. rewrite Ex.
    destruct (member_word I g Hf 132) as [Ha Hb]; [lia|].
    apply iwp_bind, iwp_load32; [unfold f_type, MAXNAMELEN; rewrite <- Z.add_assoc; done..|].
    change (word_at I (f_type g)) with (ftype I g). rewrite (proj2 (Z.eqb_neq (ftype I g) FTYPE_DIR) Hty).
    apply iwp_bind, iwp_ret. change (0 <? 0) with false. cbv iota.
    destruct (closed_in s g); cbn [negb]; [|by apply iwp_ret].
    apply iwp_bind, iwp_file_remove; [done|done|by apply (vk_tail _ Hv)|].
    intros J HJ. change (0 <? 0) with false. by apply iwp_ret.
  - intros r y Hy Hres. change (set_sfs y (set_sfs x s)) with (set_sfs y s). split; [|done].
    destruct (closed_in s g) eqn:Hcl.
    + by apply (inv_removed s y g); try apply Hres.
    + apply inv_same; [done|done|]. apply Hres.
Qed.

(** ** The server *)

(** The limits that the code relies on and does not check: reads and writes that fit in
    the page and do not start before the file, sizes that the file system allows, no change
    to a directory but through [open]; no [rename]. *)
Definition request_ok (s : servst) (req : Z) : Prop :=
  (req = FSREQ_OPEN → open_ok s) ∧
  (req = FSREQ_SET_SIZE → req_open s →
     ftype (cur (sfs s)) (req_file s) ≠ FTYPE_DIR ∧ 0 ≤ s32 (req_arg s) ≤ MAXFILESIZE) ∧
  (req = FSREQ_READ → req_open s → 0 ≤ req_offset s ∧ req_arg s ≤ PGSIZE) ∧
  (req = FSREQ_WRITE → req_open s →
     ftype (cur (sfs s)) (req_file s) ≠ FTYPE_DIR ∧ 0 ≤ req_offset s ∧ 8 + req_arg s ≤ PGSIZE ∧
     req_offset s + req_arg s ≤ MAXFILESIZE) ∧
  (req = FSREQ_REMOVE → remove_ok s) ∧
  req ≠ FSREQ_RENAME.

(** [file_create] found no room for the name. *)
Definition no_room (s : servst) (req : Z) (a : Z * option Z) : Prop :=
  req = FSREQ_OPEN ∧ creates (req_omode s) = true ∧ (a.1 = - E_INVAL ∨ a.1 = - E_NO_DISK).

(** [ipc_send] of the page of an entry: the client maps it. *)
Definition send (pg : option Z) (s : servst) : servst :=
  match pg with Some i => set_ref i (fdref s i + 1) s | None => s end.

(** The invariant out of what a handler does. *)
Ltac inv_of lem := eapply wp_mono_ret; [by apply lem; auto|by intros ? ? [? _]].

Lemma wp_serve_one depth s req :
  srv_inv s → request_ok s req →
  wpr (serve_one (S depth) req) (λ a s', no_room s req a ∨ srv_inv s' ∧ srv_inv (send a.2 s')) s.
Proof.
  intros Hs (Hop & Hss & Hrd & Hwr & Hrm & Hrn). unfold serve_one.
  destruct (Z.eqb_spec req FSREQ_OPEN) as [Er|_].
  { eapply wp_mono_ret; [by apply wp_serve_open; auto|]. intros [r oi] s' [_ [(H1 & H2 & _)|[Hinv Hi]]]; [by left|right].
    split; [done|]. destruct oi as [i|]; [|done]. cbn [send snd] in *. destruct (Hi i eq_refl) as [_ Ha].
    apply inv_ref; [done|rewrite (an_ref _ _ _ Ha); lia|]. intros _. right. apply Ha. }
  assert (∀ h : M servst Z, wpr h (λ _ s', srv_inv s') s →
    wpr (let* r := h in ret (r, None)) (λ a s', no_room s req a ∨ srv_inv s' ∧ srv_inv (send a.2 s')) s) as Hall.
  { intros h Hh. apply wp_bind. eapply wp_mono_ret; [exact Hh|]. intros r s' H. apply wp_ret. by right. }
  unfold handlers.
  destruct (Z.eqb_spec req FSREQ_SET_SIZE); [apply Hall; inv_of wp_serve_set_size|].
  destruct (Z.eqb_spec req FSREQ_READ); [apply Hall; inv_of wp_serve_read|].
  destruct (Z.eqb_spec req FSREQ_WRITE); [apply Hall; inv_of wp_serve_write|].
  destruct (Z.eqb_spec req FSREQ_STAT); [apply Hall; inv_of wp_serve_stat|].
  destruct (Z.eqb_spec req FSREQ_FLUSH); [apply Hall; inv_of wp_serve_flush|].
  destruct (Z.eqb_spec req FSREQ_REMOVE); [apply Hall; inv_of wp_serve_remove|].
  destruct (Z.eqb_spec req FSREQ_SYNC); [apply Hall; inv_of wp_serve_sync|].
  destruct (Z.eqb_spec req FSREQ_INFO); [apply Hall; inv_of wp_serve_info|].
  rewrite (proj2 (Z.eqb_neq _ _) Hrn). apply wp_ret. by right.
Qed.

(** The server at work: a request, after which the page of an entry may be sent;
    and what the clients do: write a new request, write their descriptors, map and
    unmap the pages they have. *)
Inductive srv_step (depth : nat) (s : servst) : servst → Prop :=
| step_serve req a s' : request_ok s req → serve_one depth req s = Ret a s' → ¬ no_room s req a →
    srv_step depth s (send a.2 s')
| step_unsent req a s' : request_ok s req → serve_one depth req s = Ret a s' → ¬ no_room s req a →
    srv_step depth s s'
| step_req p : srv_step depth s (set_req p s)
| step_fd i fd : srv_step depth s (set_fd i fd s)
| step_share i n : 1 < fdref s i → 1 ≤ n → srv_step depth s (set_ref i n s).

Lemma step_inv depth s s' : srv_inv s → srv_step (S depth) s s' → srv_inv s'.
Proof.
  intros Hs [req a s1 Hq E Hroom|req a s1 Hq E Hroom|p|i fd|i n Hi Hn].
  - destruct (wpr_inv _ _ _ (wp_serve_one depth s req Hs Hq)) as (? & ? & E' & H). rewrite E in E'.
    injection E' as <- <-. destruct H as [|[_ ?]]; done.
  - destruct (wpr_inv _ _ _ (wp_serve_one depth s req Hs Hq)) as (? & ? & E' & H). rewrite E in E'.
    injection E' as <- <-. destruct H as [|[? _]]; done.
  - by apply inv_req.
  - by apply inv_fd.
  - apply inv_ref; [done|lia|]. by left.
Qed.

Lemma steps_inv depth s s' : srv_inv s → rtc (srv_step (S depth)) s s' → srv_inv s'.
Proof. intros Hs H. induction H as [|x y z H _ IH]; [done|]. apply IH. by eapply step_inv. Qed.

Lemma init_inv s : fs_ok (sfs s) → vol_ok (cur (sfs s)) → (∀ i, 0 ≤ fdref s i ≤ 1) → srv_inv (serve_init s).
Proof.
  intros Hf Hv Hr. split; [done|done|]. split; cbn [serve_init opentab fdref o_fileid o_file].
  - intros i Hi. unfold is_u32, MAXOPEN in *. split; [lia|]. apply Z.mod_small. lia.
  - intros i. apply Hr.
  - intros i _ Hi. specialize (Hr i). lia.
Qed.
