(* ===== verification/ServProps.v ===== *)
(** * Properties of the file server *)

From stdpp Require Import base gmap list strings.
From Stdlib Require Import ZArith Lia.
From S2P Require Import Prelude Mmu BlockCache BlockImage Fs FsBitmap FsFile FsRw FsTrunc FsDir.
From S2P Require Import FsCreate FsTree FsRemove FsMount FsDemo FsProps FsTreeProps Serv ServInv.

Set Default Proof Using "Type".

(** ** A server on the small disk *)

(** Nothing is open. *)
Definition idle : servst :=
  MkServ mounted (λ _, MkOpenFile 0 0 0) (λ _, MkFd 0 0 0 0) (λ _, 0) (λ _, 0).

(** The page of a request to open "/a" for reading. *)
Definition open_a (k : Z) : Z := if k =? 0 then 47 else if k =? 1 then 97 else 0.

(** The page of a request to write "hi" to, or to read two bytes of, the file 1024. *)
Definition put_hi (k : Z) : Z :=
  if k =? 1 then 4 else if k =? 4 then 2 else if k =? 8 then 104 else if k =? 9 then 105 else 0.

(** A client has the file "a" open for reading, as file 1024. *)
Definition a_open : servst :=
  MkServ mounted (λ i, if i =? 0 then MkOpenFile 1024 file_a O_RDONLY else MkOpenFile i 0 0)
    (λ i, if i =? 0 then MkFd devfile_dev_id 0 O_RDONLY 1024 else MkFd 0 0 0 0)
    (λ i, if i =? 0 then 2 else 0) put_hi.

Lemma file_a_reach : reach (cur mounted) file_a.
Proof.
  assert (resolve (cur mounted) ROOT [[97]] = Some file_a) as Ha by (vm_compute; reflexivity).
  refine (resolve_reach _ _ _ _ (reach_root _) _ Ha). repeat constructor; (lia || discriminate).
Qed.

Lemma a_open_inv : srv_inv a_open.
Proof.
  split; [exact mounted_fs_ok|exact mounted_vol|]. split; unfold a_open; cbn [opentab fdref sfs].
  - intros i Hi. unfold MAXOPEN in *. destruct (Z.eqb_spec i 0) as [->|Hne]; cbn [o_fileid].
    + split; [split; lia|reflexivity].
    + split; [split; lia|]. apply Z.mod_small. lia.
  - intros i. destruct (i =? 0); lia.
  - intros i _ Hr. destruct (i =? 0); [exact file_a_reach|lia].
Qed.

(** ** The theorems *)



(** The client puts its offset back and asks for the bytes again. *)
Definition rewound (s s1 : servst) (p : Z → Z) : servst :=
  let i := req_entry s in
  set_req p (set_fd i (MkFd (fd_dev_id (fdpage s1 i)) (req_offset s) (fd_omode (fdpage s1 i)) (fd_file_id (fdpage s1 i))) s1).

Lemma rewound_req s s1 p : opentab s1 = opentab s → (∀ k, 0 ≤ k < 8 → p k = fsreq s k) →
  req_entry (rewound s s1 p) = req_entry s ∧ req_fileid (rewound s s1 p) = req_fileid s ∧
  req_arg (rewound s s1 p) = req_arg s ∧ req_file (rewound s s1 p) = req_file s ∧
  req_offset (rewound s s1 p) = req_offset s.
Proof.
  intros Eo Hp.
  assert (req_fileid (rewound s s1 p) = req_fileid s) as E1.
  { unfold req_fileid, word_at. cbn [rewound fsreq set_req]. by rewrite !Hp by lia. }
  assert (req_entry (rewound s s1 p) = req_entry s) as E2 by (unfold req_entry; by rewrite E1).
  split; [done|]. split; [done|]. split; [|split].
  - unfold req_arg, word_at. cbn [rewound fsreq set_req]. by rewrite !Hp by lia.
  - unfold req_file. rewrite E2. cbn [rewound opentab set_req set_fd]. by rewrite Eo.
  - unfold req_offset at 1. rewrite E2. cbn [rewound fdpage set_req set_fd]. by rewrite Z.eqb_refl.
Qed.

Lemma req_bytes_at s k : 0 ≤ k < req_arg s → req_bytes s !!! Z.to_nat k = u8 (fsreq s (8 + k)).
Proof.
  intros Hk. apply list_lookup_total_correct. unfold req_bytes.
  rewrite list_lookup_fmap, lookup_seqZ_lt by lia. cbn. do 3 f_equal. lia.
Qed.

(** C20. What one request writes, the next one reads: when [serve_write] accepts the
    bytes of a page, [serve_read] at the same offset returns exactly these bytes,
    whatever else is open, in the cache or on the disk, and in whatever mode the file
    was opened. *)
Theorem serve_write_read s s1 n p :
  srv_inv s → req_open s → request_ok s FSREQ_WRITE →
  serve_write s = Ret n s1 → 0 ≤ n →
  (∀ k, 0 ≤ k < 8 → p k = fsreq s k) →
  n = req_arg s ∧
  ∃ s2, serve_read (rewound s s1 p) = Ret n s2 ∧ ∀ k, 0 ≤ k < n → fsreq s2 k = u8 (fsreq s (8 + k)).
Proof.
  intros Hs Ho Hq E Hn Hp. assert (req_open s → _) as Hg by (apply Hq; done). pose proof (Hg Ho) as (_ & Hoff & Hpg & Hmax).
  destruct (wpr_inv _ _ _ (wp_serve_write s Hs Hg)) as (r & s' & E' & Hinv & _ & H). rewrite E in E'.
  injection E' as <- <-.
  destruct (H Ho) as [[-> _]|(En & Hw & _ & Eo & Er)]; [by destruct Hn|]. split; [done|].
  destruct (rewound_req s s1 p Eo Hp) as (Ee & Ei & Ea & Ef & Eoff).
  assert (req_open (rewound s s1 p)) as Ho'.
  { destruct Ho as [H1 H2]. unfold req_open. rewrite Ee, Ei. cbn [rewound fdref opentab set_req set_fd].
    by rewrite Er, Eo. }
  assert (srv_inv (rewound s s1 p)) as Hinv' by (by apply inv_req, inv_fd).
  assert (read_count (rewound s s1 p) = n) as Ec.
  { unfold read_count. rewrite Ea, Ef, Eoff. cbn [rewound sfs set_req set_fd].
    rewrite (fw_size _ _ _ _ _ _ Hw), req_bytes_length. lia. }
  assert (0 ≤ req_offset (rewound s s1 p) ∧ req_arg (rewound s s1 p) ≤ PGSIZE) as Hrg.
  { rewrite Ea, Eoff. split; [done|]. lia. }
  destruct (wpr_inv _ _ _ (wp_serve_read (rewound s s1 p) Hinv' (λ _, Hrg))) as (r & s2 & E2 & _ & _ & H2).
  rewrite Ec, Ef, Eoff in H2. cbn [rewound sfs set_req set_fd] in H2.
  destruct (H2 Ho') as [(_ & _ & i & Hi & Hz)|(-> & Hd & _)]; [by destruct (fw_blocks _ _ _ _ _ _ Hw i Hi)|].
  exists s2. split; [done|]. intros k Hk. rewrite (Hd k Hk), (fw_data _ _ _ _ _ _ Hw) by lia.
  rewrite (proj2 (Z.leb_le _ _)), (proj2 (Z.ltb_lt _ _)) by lia. cbn [andb].
  replace (req_offset s + k - req_offset s) with k by lia. rewrite req_bytes_at by lia. apply u8_idem.
Qed.

Lemma serve_write_read_witness :
  ∃ s1 s2, serve_write a_open = Ret 2 s1 ∧ serve_read (rewound a_open s1 put_hi) = Ret 2 s2 ∧
    fsreq s2 0 = 104 ∧ fsreq s2 1 = 105.
Proof.
  assert ((match serve_write a_open with Ret r _ => r | _ => -1 end) = 2) as Hr by (vm_compute; reflexivity).
  destruct (serve_write a_open) as [r s1| | |] eqn:E; try discriminate Hr. subst r.
  destruct (serve_write_read a_open s1 2 put_hi a_open_inv) as (_ & s2 & E2 & H2).
  - split; [vm_compute; reflexivity|vm_compute; reflexivity].
  - do 3 (split; [intros Ex; discriminate Ex|]). split; [|split; [intros Ex; discriminate Ex|discriminate]].
    intros _ _. change (req_file a_open) with file_a. change (sfs a_open) with mounted. rewrite file_a_type.
    split; [discriminate|]. vm_compute. repeat split; discriminate.
  - exact E.
  - discriminate.
  - intros k _. reflexivity.
  - exists s1, s2. split; [reflexivity|]. split; [exact E2|].
    split; [rewrite (H2 0) by lia|rewrite (H2 1) by lia]; vm_compute; reflexivity.
Defined.
