(* ===== verification/Malloc.v ===== *)
(** * The heap of a user program ([lib/malloc.c], [lib/sbrk.c])

    [malloc] keeps its blocks in one doubly linked list, in address order from the
    start of the heap to the break; a block is a header of five words followed by its
    data.  Memory is words at addresses that are multiples of four, as all of the
    code's accesses are; an access to a page that is not mapped is a fault.  What a
    page holds when it is mapped is left open: it is what the memory had there. *)

From stdpp Require Import base gmap list strings.
From Stdlib Require Import ZArith Lia.
From S2P Require Import Prelude Mmu.

Set Default Proof Using "Type".

(** The memory, the pages that are mapped, the results of the next calls of
    [sys_page_map] (0 when there are none left), [heap_break] (0 for [NULL]) and
    [base] (0 for [NULL]). *)
Record heap := MkHeap {
  hmem : Z → Z;
  hpages : Z → bool;
  hresults : list Z;
  heap_break : Z;
  hbase : Z
}.

Definition set_hmem (m : Z → Z) (h : heap) : heap := MkHeap m (hpages h) (hresults h) (heap_break h) (hbase h).
Definition set_hpages (p : Z → bool) (h : heap) : heap := MkHeap (hmem h) p (hresults h) (heap_break h) (hbase h).
Definition set_hresults (l : list Z) (h : heap) : heap := MkHeap (hmem h) (hpages h) l (heap_break h) (hbase h).
Definition set_break (b : Z) (h : heap) : heap := MkHeap (hmem h) (hpages h) (hresults h) b (hbase h).
Definition set_hbase (b : Z) (h : heap) : heap := MkHeap (hmem h) (hpages h) (hresults h) (heap_break h) b.

(** ** Memory *)
Definition word_ok (h : heap) (a : Z) : bool := (a mod 4 =? 0) && hpages h (a / PGSIZE).
Definition ld (a : Z) : M heap Z := λ h, if word_ok h a then Ret (hmem h a) h else Fault.
Definition st (a v : Z) : M heap unit := λ h,
  if word_ok h a then Ret tt (set_hmem (upd (hmem h) a v) h) else Fault.

(** [sys_page_map] of the zero page, and [sys_page_unmap]. *)
Definition map_page (p : Z) : M heap Z := λ h,
  match hresults h with
  | [] => Ret 0 (set_hpages (upd (hpages h) p true) h)
  | r :: rest => Ret r (set_hresults rest (if r <? 0 then h else set_hpages (upd (hpages h) p true) h))
  end.
Definition unmap_page (p : Z) : M heap unit := modify (λ h, set_hpages (upd (hpages h) p false) h).

(** ** [sbrk] *)
Definition mbegin : Z := 0x08000000.
Definition mend : Z := 0x10000000.

Definition sbrk (increment : Z) : M heap Z :=
  let* b := gets heap_break in
  do* (if b =? 0 then modify (set_break mbegin) else ret tt) in
  let* b := gets heap_break in
  if increment =? 0 then ret b else
  let new_break := u32 (b + increment) in
  if (new_break <? mbegin) || (mend <? new_break) then ret (u32 (- E_INVAL)) else
  let* r := (if b <? new_break then
       let first := ROUNDUP b PGSIZE / PGSIZE in
       search (Z.to_nat (ROUNDUP new_break PGSIZE / PGSIZE - first)) first (λ p,
         let* r := map_page p in
         if r <? 0 then ret (Some r) else ret None)
     else
       let first := ROUNDUP new_break PGSIZE / PGSIZE in
       do* for_up (Z.to_nat (b / PGSIZE + 1 - first)) 0 (λ k, unmap_page (b / PGSIZE - k)) in
       ret None) in
  match r with
  | Some r => ret (u32 r)
  | None => do* modify (set_break new_break) in ret new_break
  end.

(** ** Blocks *)
Definition MAXMALLOC : Z := 1024 * 1024.
Definition BLOCK_SIZE : Z := 20.
Definition align4 (x : Z) : Z := u32 (Z.shiftl (Z.shiftr (u32 (x + 3)) 2) 2).

Definition b_size (b : Z) : Z := b.
Definition b_prev (b : Z) : Z := b + 4.
Definition b_next (b : Z) : Z := b + 8.
Definition b_free (b : Z) : Z := b + 12.
Definition b_ptr (b : Z) : Z := b + 16.
Definition b_data (b : Z) : Z := b + 20.

(** The block and [*last].  [fuel] bounds the length of the list, and below the number
    of words that [realloc] copies. *)
Fixpoint find_from (fuel : nat) (b last s : Z) : M heap (Z * Z) :=
  if b =? 0 then ret (b, last) else
  match fuel with
  | O => fault
  | S fuel' =>
      let* fr := ld (b_free b) in
      let* ok := (if ctrue fr then let* sz := ld (b_size b) in ret (s <=? sz) else ret false) in
      if ok then ret (b, last) else
      let* next := ld (b_next b) in
      find_from fuel' next b s
  end.
Definition find_block (fuel : nat) (s : Z) : M heap (Z * Z) :=
  let* b := gets hbase in find_from fuel b 0 s.

Definition split_block (b s : Z) : M heap unit :=
  if b =? 0 then ret tt else
  let new := u32 (b_data b + s) in
  let* sz := ld (b_size b) in
  do* st (b_size new) (u32 (sz - s - BLOCK_SIZE)) in
  let* next := ld (b_next b) in
  do* st (b_next new) next in
  do* st (b_prev new) b in
  do* st (b_free new) 1 in
  do* st (b_ptr new) (b_data new) in
  do* st (b_size b) s in
  do* st (b_next b) new in
  let* nn := ld (b_next new) in
  if ctrue nn then let* nn := ld (b_next new) in st (b_prev nn) new else ret tt.

Definition extend_heap (last s : Z) : M heap Z :=
  let* b := sbrk 0 in
  let* r := sbrk (s32 (BLOCK_SIZE + s)) in
  if r =? u32 (-1) then ret 0 else
  do* st (b_size b) s in
  do* st (b_next b) 0 in
  do* st (b_prev b) last in
  do* st (b_ptr b) (b_data b) in
  do* st (b_free b) 0 in
  do* (if ctrue last then st (b_next last) b else modify (set_hbase b)) in
  ret b.

Definition malloc (fuel : nat) (n : Z) : M heap Z :=
  let s := align4 n in
  if MAXMALLOC <=? n then ret 0 else
  let* (b, last) := find_block fuel s in
  if ctrue b then
    let* sz := ld (b_size b) in
    do* (if BLOCK_SIZE + 4 <=? u32 (sz - s) then split_block b s else ret tt) in
    do* st (b_free b) 0 in
    ret (b_data b)
  else
    let* b := extend_heap last s in
    if b =? 0 then ret 0 else ret (b_data b).

Definition get_block (p : Z) : Z := u32 (p - BLOCK_SIZE).

Definition valid_addr (v : Z) : M heap unit :=
  let* base := gets hbase in
  do* massert (ctrue base) in
  let* brk := sbrk 0 in
  do* massert ((base <? v) && (v <? brk)) in
  let* p := ld (b_ptr (get_block v)) in
  massert (v =? p).

Definition fusion (b : Z) : M heap Z :=
  let* next := ld (b_next b) in
  let* ok := (if ctrue next then let* fr := ld (b_free next) in ret (ctrue fr) else ret false) in
  do* (if ok then
         let* sz := ld (b_size b) in
         let* nsz := ld (b_size next) in
         do* st (b_size b) (u32 (sz + (BLOCK_SIZE + nsz))) in
         let* nn := ld (b_next next) in
         do* st (b_next b) nn in
         if ctrue nn then st (b_prev nn) b else ret tt
       else ret tt) in
  ret b.

(** The end of [free]: join the next block, or give the end of the heap back. *)
Definition free_end (b : Z) : M heap unit :=
  let* next := ld (b_next b) in
  if ctrue next then let* _ := fusion b in ret tt else
  let* prev := ld (b_prev b) in
  do* (if ctrue prev then st (b_next prev) 0 else modify (set_hbase 0)) in
  let* sz := ld (b_size b) in
  let* _ := sbrk (s32 (- (sz + BLOCK_SIZE))) in
  ret tt.

Definition free (v : Z) : M heap unit :=
  do* valid_addr v in
  let b := get_block v in
  do* st (b_free b) 1 in
  let* prev := ld (b_prev b) in
  let* pf := (if ctrue prev then let* fr := ld (b_free prev) in ret (ctrue fr) else ret false) in
  let* b := (if pf then fusion prev else ret b) in
  free_end b.

Definition calloc (fuel : nat) (nmemb size : Z) : M heap Z :=
  let n := u32 (nmemb * size) in
  let* new := malloc fuel n in
  if ctrue new then
    do* for_up (Z.to_nat (Z.shiftr (align4 n) 2)) 0 (λ i, st (new + 4 * i) 0) in
    ret new
  else ret new.

Fixpoint copy_words (fuel : nat) (src dst sdata ddata i : Z) : M heap unit :=
  let* ssz := ld (b_size src) in
  let* more := (if 4 * i <? ssz then let* dsz := ld (b_size dst) in ret (4 * i <? dsz) else ret false) in
  if negb more then ret tt else
  match fuel with
  | O => fault
  | S fuel' =>
      let* w := ld (sdata + 4 * i) in
      do* st (ddata + 4 * i) w in
      copy_words fuel' src dst sdata ddata (i + 1)
  end.

Definition copy_block (fuel : nat) (src dst : Z) : M heap unit :=
  let* sdata := ld (b_ptr src) in
  let* ddata := ld (b_ptr dst) in
  copy_words fuel src dst sdata ddata 0.

Definition realloc (fuel : nat) (ptr size : Z) : M heap Z :=
  if ptr =? 0 then malloc fuel size else
  do* valid_addr ptr in
  let s := align4 size in
  let b := get_block ptr in
  let* sz := ld (b_size b) in
  if s <=? sz then
    do* (if BLOCK_SIZE + 4 <=? u32 (sz - s) then split_block b s else ret tt) in
    ret ptr
  else
    let* next := ld (b_next b) in
    let* ok := (if ctrue next then
                  let* fr := ld (b_free next) in
                  if ctrue fr then
                    let* nsz := ld (b_size next) in
                    ret (s <=? u32 (sz + BLOCK_SIZE + nsz))
                  else ret false
                else ret false) in
    if ok then
      let* _ := fusion b in
      let* sz := ld (b_size b) in
      do* (if BLOCK_SIZE + 4 <=? u32 (sz - s) then split_block b s else ret tt) in
      ret ptr
    else
      let* newp := malloc fuel s in
      if newp =? 0 then ret 0 else
      do* copy_block fuel b (get_block newp) in
      do* free ptr in
      ret newp.
