(* ===== verification/MallocInv.v ===== *)
(** * What the heap promises

    The list of blocks that the headers in memory describe, and what the operations
    do to it. *)

From stdpp Require Import base gmap list strings.
From Stdlib Require Import ZArith Lia.
From S2P Require Import Prelude Mmu Malloc.

Set Default Proof Using "Type".

(** ** Blocks in memory *)

(** A block: its size, and whether it is free. *)
Notation blk := (Z * bool)%type.

Definition bword (fr : bool) : Z := if fr then 1 else 0.

Record hdr (m : Z → Z) (p : Z) (x : blk) (prev next : Z) : Prop := {
  hd_size : m p = x.1;
  hd_prev : m (p + 4) = prev;
  hd_next : m (p + 8) = next;
  hd_free : m (p + 12) = bword x.2;
  hd_ptr : m (p + 16) = p + 20;
  hd_fit : 0 ≤ x.1 ∧ x.1 mod 4 = 0
}.

Definition span (bs : list blk) : Z := foldr (λ x n, 20 + x.1 + n) 0 bs.

(** The blocks [bs] from [p] on; [prev] comes before them and [e] is the [next] of the
    last one. *)
Fixpoint seg (m : Z → Z) (p prev : Z) (bs : list blk) (e : Z) : Prop :=
  match bs with
  | [] => True
  | x :: r => hdr m p x prev (if r then e else p + 20 + x.1) ∧ seg m (p + 20 + x.1) p r e
  end.

(** The last block. *)
Fixpoint lastp (prev p : Z) (bs : list blk) : Z :=
  match bs with [] => prev | x :: r => lastp p (p + 20 + x.1) r end.

Definition fits (x : blk) : Prop := 0 ≤ x.1 ∧ x.1 mod 4 = 0.

Lemma seg_fits m p prev bs e : seg m p prev bs e → Forall fits bs.
Proof. revert p prev. induction bs as [|x r IH]; intros p prev; [constructor|]. intros [H1 H2]. constructor; [apply H1|by eapply IH]. Qed.

Lemma span_nonneg bs : Forall fits bs → 0 ≤ span bs.
Proof. induction 1 as [|x r [H _] _ IH]; cbn [span foldr]; [done|]. unfold span in *. lia. Qed.

Lemma span_mod bs : Forall fits bs → span bs mod 4 = 0.
Proof. induction 1 as [|x r [_ H] _ IH]; [done|]. unfold span in *. cbn [foldr]. dlia. Qed.

Lemma span_app l r : span (l ++ r) = span l + span r.
Proof. unfold span. induction l as [|x l IH]; cbn [foldr app]; lia. Qed.

Lemma span_cons x r : span (x :: r) = 20 + x.1 + span r.
Proof. done. Qed.

Lemma lastp_app prev p l r : lastp prev p (l ++ r) = lastp (lastp prev p l) (p + span l) r.
Proof.
  revert prev p. induction l as [|x l IH]; intros prev p; cbn [app lastp].
  - by rewrite Z.add_0_r.
  - rewrite IH, span_cons. f_equal. lia.
Qed.

Lemma seg_app m p prev l r e :
  seg m p prev (l ++ r) e ↔
  seg m p prev l (if r then e else p + span l) ∧ seg m (p + span l) (lastp prev p l) r e.
Proof.
  revert p prev. induction l as [|x l IH]; intros p prev; cbn [app seg lastp].
  - rewrite Z.add_0_r. tauto.
  - rewrite IH, span_cons. replace (p + (20 + x.1 + span l)) with (p + 20 + x.1 + span l) by lia.
    destruct l as [|y l]; [|cbn [app]; tauto]. cbn [app]. destruct r; [tauto|].
    replace (p + 20 + x.1 + span []) with (p + 20 + x.1) by (cbn; lia). tauto.
Qed.

Lemma hdr_ext m m' p x prev next : (∀ k, 0 ≤ k < 20 → m' (p + k) = m (p + k)) →
  hdr m p x prev next → hdr m' p x prev next.
Proof.
  intros H [H1 H2 H3 H4 H5 H6]. pose proof (H 0 ltac:(lia)) as E. rewrite Z.add_0_r in E.
  split; rewrite ?E, ?H by lia; done.
Qed.

Lemma seg_ext m m' p prev bs e : (∀ a, p ≤ a < p + span bs → m' a = m a) →
  seg m p prev bs e → seg m' p prev bs e.
Proof.
  revert p prev. induction bs as [|x r IH]; intros p prev H Hs; [done|]. pose proof (seg_fits _ _ _ _ _ Hs) as Hf.
  inversion_clear Hf as [|? ? [Hx _] Hr]. pose proof (span_nonneg r Hr). rewrite span_cons in H.
  destruct Hs as [H1 H2]. split.
  - eapply hdr_ext; [|done]. intros k Hk. apply H. lia.
  - apply IH; [|done]. intros a Ha. apply H. lia.
Qed.

(** The [next] of the last block, and the [prev] of the first. *)
Lemma seg_set_next m p prev l x e e' :
  seg m p prev (l ++ [x]) e → seg (upd m (p + span l + 8) e') p prev (l ++ [x]) e'.
Proof.
  intros Hs. pose proof (seg_fits _ _ _ _ _ Hs) as Hf. apply Forall_app in Hf as [Hl _].
  pose proof (span_nonneg l Hl). apply seg_app in Hs as [H1 [H2 _]]. apply seg_app. split.
  - eapply seg_ext; [|exact H1]. intros a Ha. apply upd_ne. lia.
  - split; [|done]. destruct H2 as [A B C D E F]. split; rewrite ?upd_ne by lia; try done. by rewrite upd_eq.
Qed.

Lemma seg_set_prev m p prev prev' bs e :
  bs ≠ [] → seg m p prev bs e → seg (upd m (p + 4) prev') p prev' bs e.
Proof.
  destruct bs as [|x r]; [done|]. intros _ [H1 H2]. pose proof (hd_fit _ _ _ _ _ H1) as [Hx _]. split.
  - destruct H1 as [A B C D E F]. split; rewrite ?upd_ne by lia; try done. by rewrite upd_eq.
  - eapply seg_ext; [|exact H2]. intros a Ha. apply upd_ne. lia.
Qed.

(** ** The heap *)
Record heap_ok (h : heap) (bs : list blk) : Prop := {
  ho_seg : seg (hmem h) mbegin 0 bs 0;
  ho_base : hbase h = if bs then 0 else mbegin;
  ho_break : heap_break h = mbegin + span bs ∨ heap_break h = 0 ∧ bs = [];
  ho_room : mbegin + span bs ≤ mend;
  ho_pages : ∀ a, mbegin ≤ a < mbegin + span bs → hpages h (a / PGSIZE) = true;
  ho_granted : hresults h = []
}.

Lemma wp_ld (Q : Z → heap → Prop) h a : word_ok h a = true → Q (hmem h a) h → wpr (ld a) Q h.
Proof. intros H HQ. unfold wp, ld. by rewrite H. Qed.

Lemma wp_st (Q : unit → heap → Prop) h a v :
  word_ok h a = true → Q tt (set_hmem (upd (hmem h) a v) h) → wpr (st a v) Q h.
Proof. intros H HQ. unfold wp, st. by rewrite H. Qed.

(** Code that works on a heap whose words in [[mbegin, e)] can be used, as a
    transformer of the memory. *)
Definition mapped_to (h : heap) (e : Z) : Prop := ∀ a, mbegin ≤ a < e → hpages h (a / PGSIZE) = true.

Definition mwp {A} (e : Z) (c : M heap A) (Q : A → (Z → Z) → Prop) (m : Z → Z) : Prop :=
  ∀ h, mapped_to h e → hmem h = m → wpr c (λ a h', ∃ m', h' = set_hmem m' h ∧ Q a m') h.

Section rules.
Context {A B : Type} (e : Z).

Lemma mwp_ret (a : A) Q m : Q a m → mwp e (ret a) Q m.
Proof. intros H h Hp <-. apply wp_ret. exists (hmem h). by destruct h. Qed.

Lemma mwp_bind (c : M heap A) (f : A → M heap B) Q m :
  mwp e c (λ a m', mwp e (f a) Q m') m → mwp e (bind c f) Q m.
Proof.
  intros H h Hp E. apply wp_bind. eapply wp_mono_ret; [by apply H|]. intros a h' (m' & -> & Hm).
  eapply wp_mono_ret; [by apply Hm|]. intros b h' (m'' & -> & HQ). by exists m''.
Qed.

Lemma mwp_ld (Q : Z → (Z → Z) → Prop) m a : mbegin ≤ a < e → a mod 4 = 0 → Q (m a) m → mwp e (ld a) Q m.
Proof.
  intros Ha E HQ h Hp <-. apply wp_ld; [unfold word_ok; by rewrite E, Hp|]. exists (hmem h). by destruct h.
Qed.

Lemma mwp_st (Q : unit → (Z → Z) → Prop) m a v :
  mbegin ≤ a < e → a mod 4 = 0 → Q tt (upd m a v) → mwp e (st a v) Q m.
Proof. intros Ha E HQ h Hp <-. apply wp_st; [unfold word_ok; by rewrite E, Hp|]. by exists (upd (hmem h) a v). Qed.
End rules.

Lemma mwp_run {A} e (c : M heap A) Q (Q' : A → heap → Prop) h :
  mapped_to h e → mwp e c Q (hmem h) → (∀ a m, Q a m → Q' a (set_hmem m h)) → wpr c Q' h.
Proof. intros Hp H HQ. eapply wp_mono_ret; [by apply H|]. intros a h' (m & -> & Hm). auto. Qed.

(** ** Headers and data *)
Definition header (bs : list blk) (a : Z) : Prop :=
  ∃ l x r, bs = l ++ x :: r ∧ mbegin + span l ≤ a < mbegin + span l + 20.

(** The blocks in use: the address of the data and the size. *)
Fixpoint live_from (p : Z) (bs : list blk) : list (Z * Z) :=
  match bs with
  | [] => []
  | (sz, fr) :: r => (if fr then [] else [(p + 20, sz)]) ++ live_from (p + 20 + sz) r
  end.
Definition live (bs : list blk) : list (Z * Z) := live_from mbegin bs.

Lemma live_from_app p l r : live_from p (l ++ r) = live_from p l ++ live_from (p + span l) r.
Proof.
  revert p. induction l as [|[sz fr] l IH]; intros p; cbn [live_from app].
  - by rewrite Z.add_0_r.
  - rewrite IH, span_cons, <- app_assoc. cbn [fst].
    by replace (p + 20 + sz + span l) with (p + (20 + sz + span l)) by lia.
Qed.

Lemma live_elem bs q sz : (q, sz) ∈ live bs ↔ ∃ l r, bs = l ++ (sz, false) :: r ∧ q = mbegin + span l + 20.
Proof.
  unfold live. generalize mbegin as p. induction bs as [|[s fr] bs IH]; intros p; cbn [live_from].
  { split; [by intros ?%not_elem_of_nil|]. by intros ([|? ?] & ? & ? & _). }
  rewrite elem_of_app, IH. split.
  - intros [H|(l & r & -> & ->)].
    + destruct fr; [by apply not_elem_of_nil in H|]. apply list_elem_of_singleton in H as [= -> ->].
      exists [], bs. split; [done|]. cbn. lia.
    + exists ((s, fr) :: l), r. split; [done|]. rewrite span_cons. cbn [fst]. lia.
  - intros ([|y l] & r & E & ->); injection E.
    + intros -> -> ->. left. apply list_elem_of_singleton. cbn. f_equal. lia.
    + intros -> <-. right. exists l, r. split; [done|]. rewrite span_cons. cbn [fst]. lia.
Qed.

(** Two places in one list. *)
Lemma two_places {A} (l1 l2 : list A) x1 x2 r1 r2 : l1 ++ x1 :: r1 = l2 ++ x2 :: r2 →
  (l1 = l2 ∧ x1 = x2 ∧ r1 = r2) ∨ (∃ k, l1 = l2 ++ x2 :: k) ∨ (∃ k, l2 = l1 ++ x1 :: k).
Proof.
  intros E. apply app_eq_app in E as (k & [[E1 E2]|[E1 E2]]); destruct k as [|z k].
  - rewrite app_nil_r in E1. injection E2 as -> ->. by left.
  - injection E2 as -> _. right. left. by exists k.
  - rewrite app_nil_r in E1. injection E2 as -> ->. by left.
  - injection E2 as -> _. right. right. by exists k.
Qed.

Lemma data_no_header bs l sz fr r a :
  Forall fits bs → bs = l ++ (sz, fr) :: r → mbegin + span l + 20 ≤ a < mbegin + span l + 20 + sz → ¬ header bs a.
Proof.
  intros Hf E Ha (l' & x & r' & E' & Ha'). rewrite E in E'.
  destruct (two_places _ _ _ _ _ _ E') as [(-> & _)|[[k ->]|[k ->]]]; [lia| |].
  - subst bs. apply Forall_app in Hf as [Hf _]. apply Forall_app in Hf as [_ Hf]. inversion_clear Hf as [|? ? [Hx _] Hk].
    pose proof (span_nonneg k Hk). rewrite span_app, span_cons in Ha. lia.
  - rewrite E, E' in Hf. rewrite <- app_assoc in Hf. apply Forall_app in Hf as [_ Hf]. cbn in Hf.
    inversion_clear Hf as [|? ? _ Hk]. apply Forall_app in Hk as [Hk _]. pose proof (span_nonneg k Hk).
    rewrite span_app, span_cons in Ha'. cbn [fst] in Ha'. lia.
Qed.

(** Between two lists of blocks only headers change. *)
Definition only_headers (bs bs' : list blk) (m m' : Z → Z) : Prop :=
  ∀ a, ¬ header bs a → ¬ header bs' a → m' a = m a.

(** Every block of a list keeps its data. *)
Definition same_data (m m' : Z → Z) (lv : list (Z * Z)) : Prop :=
  ∀ q sz, (q, sz) ∈ lv → ∀ k, 0 ≤ k < sz → m' (q + k) = m (q + k).

Lemma headers_data bs bs' m m' lv :
  Forall fits bs → Forall fits bs' → only_headers bs bs' m m' →
  (∀ x, x ∈ lv → x ∈ live bs ∧ x ∈ live bs') → same_data m m' lv.
Proof.
  intros Hf Hf' Hm Hl q sz Hq k Hk. destruct (Hl _ Hq) as [H1 H2].
  apply live_elem in H1 as (l1 & r1 & E1 & Q1), H2 as (l2 & r2 & E2 & Q2). apply Hm.
  - apply (data_no_header bs l1 sz false r1); [done|done|lia].
  - apply (data_no_header bs' l2 sz false r2); [done|done|lia].
Qed.

Lemma header_here bs l x r a : bs = l ++ x :: r → mbegin + span l ≤ a < mbegin + span l + 20 → header bs a.
Proof. intros -> H. by exists l, x, r. Qed.

(** ** The block at a place *)
Record at_block (m : Z → Z) (l : list blk) (x : blk) (r : list blk) (e : Z) : Prop := {
  ab_left : seg m mbegin 0 l (mbegin + span l);
  ab_hdr : hdr m (mbegin + span l) x (lastp 0 mbegin l) (if r then 0 else mbegin + span l + 20 + x.1);
  ab_right : seg m (mbegin + span l + 20 + x.1) (mbegin + span l) r 0;
  ab_lfits : Forall fits l;
  ab_rfits : Forall fits r;
  ab_pos : 0 ≤ span l ∧ span l mod 4 = 0 ∧ 0 ≤ span r ∧ 0 ≤ x.1 ∧ x.1 mod 4 = 0;
  ab_end : mbegin + span l + 20 + x.1 + span r ≤ e
}.

Lemma seg_at m l x r e : seg m mbegin 0 (l ++ x :: r) 0 → mbegin + span (l ++ x :: r) ≤ e → at_block m l x r e.
Proof.
  intros Hs He. pose proof (seg_fits _ _ _ _ _ Hs) as Hf. apply Forall_app in Hf as [Hl Hr].
  inversion_clear Hr as [|? ? Hx Hr']. rewrite span_app, span_cons in He.
  apply seg_app in Hs as [H1 [H2 H3]]. split; try done; [|lia].
  pose proof (span_nonneg l Hl). pose proof (span_mod l Hl). pose proof (span_nonneg r Hr'). by destruct Hx.
Qed.

Lemma at_seg m l x r e : at_block m l x r e → seg m mbegin 0 (l ++ x :: r) 0.
Proof. intros H. apply seg_app. split; [apply H|]. split; [apply H|apply H]. Qed.

Lemma seg_put m l x (r : list blk) :
  seg m mbegin 0 l (mbegin + span l) →
  hdr m (mbegin + span l) x (lastp 0 mbegin l) (if r then 0 else mbegin + span l + 20 + x.1) →
  seg m (mbegin + span l + 20 + x.1) (mbegin + span l) r 0 → seg m mbegin 0 (l ++ x :: r) 0.
Proof. intros H1 H2 H3. apply seg_app. by split; [|split]. Qed.

(** Reading at addresses that were or were not written. *)
Ltac uu := repeat first [rewrite upd_eq by lia | rewrite upd_ne by lia].
Ltac consts := change mbegin with 134217728 in *; change mend with 268435456 in *; change BLOCK_SIZE with 20 in *.

(** ** [split_block] *)
Lemma mwp_split Q m l sz fr r s e :
  at_block m l (sz, fr) r e → e ≤ mend → 0 ≤ s → s mod 4 = 0 → s + 24 ≤ sz →
  (∀ m', seg m' mbegin 0 (l ++ (s, fr) :: (sz - s - 20, true) :: r) 0 →
     only_headers (l ++ (sz, fr) :: r) (l ++ (s, fr) :: (sz - s - 20, true) :: r) m m' → Q tt m') →
  mwp e (split_block (mbegin + span l) s) Q m.
Proof.
  intros Hb He Hs0 Hs4 Hs HQ. pose proof (ab_pos _ _ _ _ _ Hb) as (P1 & P2 & P3 & P4 & P5).
  pose proof (ab_end _ _ _ _ _ Hb) as P6. cbn [fst] in *. remember (mbegin + span l) as b eqn:Eb.
  assert (b mod 4 = 0) as Hb4 by (consts; dlia). remember (b + 20 + s) as new eqn:En.
  assert (new mod 4 = 0) as Hn4 by (consts; dlia).
  destruct (ab_hdr _ _ _ _ _ Hb) as [H1 H2 H3 H4 H5 H6]. rewrite <- Eb in H1, H2, H3, H4, H5. cbn [fst snd] in *.
  unfold split_block. rewrite (proj2 (Z.eqb_neq b 0)) by (consts; lia).
  unfold b_size, b_prev, b_next, b_free, b_ptr, b_data. cbv zeta.
  replace (u32 (b + 20 + s)) with new by (rewrite u32_small; [done|unfold is_u32; consts; lia]).
  apply mwp_bind, mwp_ld; [consts; lia|done|]. rewrite H1.
  replace (u32 (sz - s - BLOCK_SIZE)) with (sz - s - 20) by (rewrite u32_small; [done|unfold is_u32; consts; lia]).
  apply mwp_bind, mwp_st; [consts; lia|done|]. apply mwp_bind, mwp_ld; [consts; lia|dlia|]. uu. rewrite H3.
  do 6 (apply mwp_bind, mwp_st; [consts; lia|dlia|]). apply mwp_bind, mwp_ld; [consts; lia|dlia|]. uu.
  match goal with |- mwp _ _ _ ?x => remember x as m1 eqn:Em1 end.
  assert (hdr m1 b (s, fr) (lastp 0 mbegin l) new) as Hh1.
  { split; cbn [fst snd]; rewrite ?Em1; uu; try done. }
  assert (∀ a, ¬ (b ≤ a < b + 20) → ¬ (new ≤ a < new + 20) → m1 a = m a) as Hout by (intros a A1 A2; rewrite Em1; by uu).
  assert (seg m1 mbegin 0 l b) as Hl.
  { eapply seg_ext; [|rewrite Eb; apply Hb]. intros a Ha. apply Hout; lia. }
  assert (only_headers (l ++ (sz, fr) :: r) (l ++ (s, fr) :: (sz - s - 20, true) :: r) m m1) as Hoh.
  { intros a A1 A2. apply Hout; intros A.
    - apply A1. eapply (header_here _ l); [done|]. lia.
    - apply A2. apply (header_here _ (l ++ [(s, fr)]) (sz - s - 20, true) r); [by rewrite <- app_assoc|].
      rewrite span_app. cbn. lia. }
  destruct r as [|y r].
  - apply mwp_ret, HQ; [|done].
    apply seg_put; [by rewrite <- Eb|rewrite <- Eb; cbn [fst]; by rewrite <- En|]. rewrite <- Eb. cbn [fst seg].
    rewrite <- En. split; [|done]. split; cbn [fst snd]; rewrite ?Em1; uu; try done. split; [lia|dlia].
  - assert (ctrue (b + 20 + sz) = true) as -> by (apply ctrue_true; consts; lia).
    pose proof (ab_right _ _ _ _ _ Hb) as Hr. rewrite <- Eb in Hr. cbn [fst] in Hr.
    assert (20 ≤ span (y :: r)) by (rewrite span_cons in *; pose proof (ab_rfits _ _ _ _ _ Hb) as F;
      inversion_clear F as [|? ? [? _] F']; pose proof (span_nonneg r F'); lia).
    assert (m1 (new + 8) = b + 20 + sz) as E8 by (rewrite Em1; by uu).
    apply mwp_bind, mwp_ld; [consts; lia|dlia|]. rewrite E8. apply mwp_st; [consts; lia|dlia|]. apply HQ.
    + apply seg_put; rewrite <- ?Eb; cbn [fst].
      * eapply seg_ext; [|exact Hl]. intros a Ha. by uu.
      * rewrite <- En. eapply hdr_ext; [|exact Hh1]. intros k Hk. by uu.
      * rewrite <- En. cbn [seg fst]. split.
        -- split; cbn [fst snd]; uu; rewrite ?Em1; uu; try done; [lia|]. split; [lia|dlia].
        -- replace (new + 20 + (sz - s - 20)) with (b + 20 + sz) by lia.
           apply (seg_set_prev m1 (b + 20 + sz) b new (y :: r) 0); [done|]. eapply seg_ext; [|exact Hr]. intros a Ha. apply Hout; lia.
    + intros a A1 A2. rewrite upd_ne; [by apply Hoh|]. intros ->. apply A1.
      apply (header_here _ (l ++ [(sz, fr)]) y r); [by rewrite <- app_assoc|]. rewrite span_app. cbn. lia.
Qed.

(** ** [fusion] *)

(** A block takes in the free block after it. *)
Definition merge (x : blk) (r : list blk) : list blk :=
  match r with
  | (nsz, true) :: r' => (x.1 + (20 + nsz), x.2) :: r'
  | _ => x :: r
  end.

(** What [free] leaves of the blocks: the block joined with the free ones around it, or
    the end of the heap given back. *)
Definition join_end (l : list blk) (sz : Z) (r : list blk) : list blk :=
  match r with [] => l | _ :: _ => l ++ merge (sz, true) r end.
Definition free_blocks (l : list blk) (sz : Z) (r : list blk) : list blk :=
  match last l with
  | Some (psz, true) => join_end (removelast l) (psz + (20 + sz)) r
  | _ => join_end l sz r
  end.

(** What [malloc] makes of the blocks: the first free one that is big enough is used, and
    split when the rest can be a block; otherwise there is a new one at the end. *)
Fixpoint take_fit (bs : list blk) (s : Z) : list blk :=
  match bs with
  | [] => [(s, false)]
  | (sz, fr) :: r =>
      if fr && (s <=? sz) then if 24 <=? sz - s then (s, false) :: (sz - s - 20, true) :: r else (sz, false) :: r
      else (sz, fr) :: take_fit r s
  end.

(** Every free block is followed by a block in use: no two free ones in a row, and the
    heap does not end with a free one. *)
Fixpoint tight (bs : list blk) : Prop :=
  match bs with
  | [] => True
  | (_, fr) :: r => (fr = true → match r with (_, false) :: _ => True | _ => False end) ∧ tight r
  end.

Lemma span_cons_ge x r : Forall fits (x :: r) → 20 + x.1 ≤ span (x :: r) ∧ 0 ≤ x.1 ∧ x.1 mod 4 = 0.
Proof. intros F. inversion_clear F as [|? ? [? ?] F']. pose proof (span_nonneg r F'). rewrite span_cons. lia. Qed.

Lemma mwp_fuse Q m l sz fr nsz r e :
  at_block m l (sz, fr) ((nsz, true) :: r) e → e ≤ mend →
  (∀ m', seg m' mbegin 0 (l ++ (sz + (20 + nsz), fr) :: r) 0 →
     only_headers (l ++ (sz, fr) :: (nsz, true) :: r) (l ++ (sz + (20 + nsz), fr) :: r) m m' →
     Q (mbegin + span l) m') →
  mwp e (fusion (mbegin + span l)) Q m.
Proof.
  intros Hb He HQ. pose proof (ab_pos _ _ _ _ _ Hb) as (P1 & P2 & P3 & P4 & P5).
  pose proof (ab_end _ _ _ _ _ Hb) as P6. cbn [fst] in *.
  pose proof (span_cons_ge _ _ (ab_rfits _ _ _ _ _ Hb)) as (P7 & P8 & P9). cbn [fst] in *.
  remember (mbegin + span l) as b eqn:Eb. assert (b mod 4 = 0) as Hb4 by (consts; dlia).
  destruct (ab_hdr _ _ _ _ _ Hb) as [H1 H2 H3 H4 H5 H6]. rewrite <- Eb in H1, H2, H3, H4, H5.
  destruct (ab_right _ _ _ _ _ Hb) as [[N1 N2 N3 N4 N5 N6] Hr]. rewrite <- Eb in N1, N2, N3, N4, N5, Hr.
  cbn [fst snd bword] in *. remember (b + 20 + sz) as nx eqn:Enx. assert (nx mod 4 = 0) as Hn4 by dlia.
  unfold fusion, b_size, b_prev, b_next, b_free. apply mwp_bind, mwp_ld; [consts; lia|dlia|]. rewrite H3.
  assert (ctrue nx = true) as -> by (apply ctrue_true; consts; lia).
  apply mwp_bind, mwp_bind, mwp_ld; [consts; lia|dlia|]. rewrite N4. apply mwp_ret. change (ctrue 1) with true. cbv iota.
  apply mwp_bind, mwp_bind, mwp_ld; [consts; lia|dlia|]. rewrite H1.
  apply mwp_bind, mwp_ld; [consts; lia|dlia|]. rewrite N1.
  replace (u32 (sz + (BLOCK_SIZE + nsz))) with (sz + (20 + nsz)) by (rewrite u32_small; [done|unfold is_u32; consts; lia]).
  apply mwp_bind, mwp_st; [consts; lia|dlia|]. apply mwp_bind, mwp_ld; [consts; lia|dlia|]. uu. rewrite N3.
  apply mwp_bind, mwp_st; [consts; lia|dlia|].
  match goal with |- mwp _ _ _ ?x => remember x as m1 eqn:Em1 end.
  assert (∀ a, ¬ (b ≤ a < b + 20) → m1 a = m a) as Hout by (intros a A1; rewrite Em1; by uu).
  assert (hdr m1 b (sz + (20 + nsz), fr) (lastp 0 mbegin l) (if r then 0 else nx + 20 + nsz)) as Hh1.
  { split; cbn [fst snd]; rewrite ?Em1; uu; try done. split; [lia|dlia]. }
  assert (seg m1 mbegin 0 l b) as Hl.
  { eapply seg_ext; [|rewrite Eb; apply Hb]. intros a Ha. apply Hout; lia. }
  assert (only_headers (l ++ (sz, fr) :: (nsz, true) :: r) (l ++ (sz + (20 + nsz), fr) :: r) m m1) as Hoh.
  { intros a A1 A2. apply Hout; intros A. apply A1. eapply (header_here _ l); [done|]. lia. }
  assert (seg m1 (nx + 20 + nsz) nx r 0) as Hr1.
  { eapply seg_ext; [|exact Hr]. intros a Ha. apply Hout. lia. }
  destruct r as [|y r].
  - change (ctrue 0) with false. cbv iota. apply mwp_ret, mwp_ret, HQ; [|done].
    apply seg_put; by rewrite <- Eb.
  - assert (ctrue (nx + 20 + nsz) = true) as -> by (apply ctrue_true; consts; lia).
    pose proof (ab_rfits _ _ _ _ _ Hb) as F. inversion_clear F as [|? ? _ F'].
    pose proof (span_cons_ge _ _ F') as (P10 & P11 & P12). rewrite span_cons in P6. cbn [fst] in P6.
    apply mwp_st; [consts; lia|dlia|]. apply mwp_ret, HQ.
    + apply seg_put; rewrite <- ?Eb; cbn [fst]; replace (b + 20 + (sz + (20 + nsz))) with (nx + 20 + nsz) by lia.
      * eapply seg_ext; [|exact Hl]. intros a Ha. by uu.
      * eapply hdr_ext; [|exact Hh1]. intros k Hk. by uu.
      * by apply (seg_set_prev m1 (nx + 20 + nsz) nx b (y :: r) 0).
    + intros a A1 A2. rewrite upd_ne; [by apply Hoh|]. intros ->. apply A1.
      apply (header_here _ (l ++ [(sz, fr); (nsz, true)]) y r); [by rewrite <- app_assoc|].
      rewrite span_app. cbn. lia.
Qed.

Lemma mwp_fusion Q m l x r e :
  at_block m l x r e → e ≤ mend →
  (∀ m', seg m' mbegin 0 (l ++ merge x r) 0 → only_headers (l ++ x :: r) (l ++ merge x r) m m' →
     Q (mbegin + span l) m') →
  mwp e (fusion (mbegin + span l)) Q m.
Proof.
  intros Hb He HQ. destruct x as [sz fr]. destruct r as [|[nsz [|]] r]; [|by apply mwp_fuse with sz fr nsz r|].
  all: pose proof (ab_pos _ _ _ _ _ Hb) as (P1 & P2 & P3 & P4 & P5); pose proof (ab_end _ _ _ _ _ Hb) as P6; cbn [fst] in *.
  all: pose proof (hd_next _ _ _ _ _ (ab_hdr _ _ _ _ _ Hb)) as E; cbn [fst] in E.
  all: unfold fusion, b_next, b_free; apply mwp_bind, mwp_ld; [consts; lia|consts; dlia|]; rewrite E.
  - change (ctrue 0) with false. cbv iota. apply mwp_bind, mwp_ret, mwp_bind, mwp_ret, mwp_ret, HQ; [by eapply at_seg|].
    intros a _ _. done.
  - pose proof (span_cons_ge _ _ (ab_rfits _ _ _ _ _ Hb)) as (P7 & P8 & P9). cbn [fst] in *.
    assert (ctrue (mbegin + span l + 20 + sz) = true) as -> by (apply ctrue_true; consts; lia).
    destruct (ab_right _ _ _ _ _ Hb) as [[N1 N2 N3 N4 N5 N6] Hr]. cbn [fst snd bword] in *.
    apply mwp_bind, mwp_bind, mwp_ld; [consts; lia|consts; dlia|]. rewrite N4. apply mwp_ret.
    change (ctrue 0) with false. cbv iota. apply mwp_bind, mwp_ret, mwp_ret, HQ; [by eapply at_seg|].
    intros a _ _. done.
Qed.

(** ** [find_block] *)
Definition too_small (s : Z) (x : blk) : Prop := x.2 = true → x.1 < s.

Lemma mwp_find_from m s e : ∀ (r l : list blk) fuel Q,
  seg m mbegin 0 (l ++ r) 0 → mbegin + span (l ++ r) ≤ e → e ≤ mend → (length r ≤ fuel)%nat →
  (∀ l1 sz r1, r = l1 ++ (sz, true) :: r1 → s ≤ sz → Forall (too_small s) l1 →
     Q (mbegin + span (l ++ l1), lastp 0 mbegin (l ++ l1)) m) →
  (Forall (too_small s) r → Q (0, lastp 0 mbegin (l ++ r)) m) →
  mwp e (find_from fuel (if r then 0 else mbegin + span l) (lastp 0 mbegin l) s) Q m.
Proof.
  induction r as [|[sz fr] r IH]; intros l fuel Q Hs He Hm Hf HQ1 HQ2.
  { destruct fuel; cbn; apply mwp_ret; rewrite app_nil_r in HQ2; by apply HQ2. }
  destruct fuel as [|fuel]; [cbn in Hf; lia|]. pose proof (seg_at _ _ _ _ _ Hs He) as Hb.
  pose proof (ab_pos _ _ _ _ _ Hb) as (P1 & P2 & P3 & P4 & P5). pose proof (ab_end _ _ _ _ _ Hb) as P6.
  destruct (ab_hdr _ _ _ _ _ Hb) as [H1 H2 H3 H4 H5 H6]. cbn [fst snd] in *. cbn [find_from].
  rewrite (proj2 (Z.eqb_neq (mbegin + span l) 0)) by (consts; lia). unfold b_free, b_size, b_next.
  assert (too_small s (sz, fr) → mwp e (let* next := ld (mbegin + span l + 8) in
    find_from fuel next (mbegin + span l) s) Q m) as Hnext.
  { intros Hsm. apply mwp_bind, mwp_ld; [consts; lia|consts; dlia|]. rewrite H3.
    assert (l ++ (sz, fr) :: r = (l ++ [(sz, fr)]) ++ r) as Eapp by (by rewrite <- app_assoc).
    assert (lastp 0 mbegin (l ++ [(sz, fr)]) = mbegin + span l) as El by (by rewrite lastp_app).
    specialize (IH (l ++ [(sz, fr)]) fuel Q). rewrite El in IH.
    replace (mbegin + span (l ++ [(sz, fr)])) with (mbegin + span l + 20 + sz) in IH by (rewrite span_app; cbn; lia).
    apply IH.
    - by rewrite <- Eapp.
    - by rewrite <- Eapp.
    - done.
    - cbn in Hf. lia.
    - intros l1 sz1 r1 -> Hfit Hl1. rewrite <- app_assoc. apply (HQ1 ((sz, fr) :: l1) sz1 r1); [done|done|by constructor].
    - intros Hr. rewrite <- Eapp. apply HQ2. by constructor. }
  apply mwp_bind, mwp_ld; [consts; lia|consts; dlia|]. rewrite H4. apply mwp_bind. destruct fr; cbn [bword].
  - change (ctrue 1) with true. cbv iota. apply mwp_bind, mwp_ld; [consts; lia|consts; dlia|]. rewrite H1. apply mwp_ret.
    destruct (Z.leb_spec s sz); [|apply Hnext; intros _; cbn; lia]. apply mwp_ret.
    specialize (HQ1 [] sz r eq_refl). rewrite app_nil_r in HQ1. by apply HQ1.
  - change (ctrue 0) with false. cbv iota. apply mwp_ret. apply Hnext. done.
Qed.

(** ** [sbrk] *)
Lemma wp_map_pages (Q : option Z → heap → Prop) : ∀ (n : nat) lo h, hresults h = [] →
  (∀ p', (∀ q, hpages h q = true → p' q = true) → (∀ q, lo ≤ q < lo + Z.of_nat n → p' q = true) →
     Q None (set_hpages p' h)) →
  wpr (search n lo (λ p, let* r := map_page p in if r <? 0 then ret (Some r) else ret None)) Q h.
Proof.
  induction n as [|n IH]; intros lo h Hr HQ; cbn [search].
  { apply wp_ret. specialize (HQ (hpages h)). assert (set_hpages (hpages h) h = h) as E by (by destruct h).
    rewrite E in HQ. apply HQ; [done|lia]. }
  apply wp_bind, wp_bind. unfold map_page. eapply wp_intro; [rewrite Hr; reflexivity|].
  change (0 <? 0) with false. cbv iota. apply wp_ret, IH; [done|]. intros p' H1 H2.
  apply HQ; cbn [hpages set_hpages] in *.
  - intros q Hq. apply H1. unfold upd. by destruct (q =? lo).
  - intros q Hq. destruct (decide (q = lo)) as [->|]; [apply H1; by rewrite upd_eq|apply H2; lia].
Qed.

Lemma wp_sbrk_0 (Q : Z → heap → Prop) h : heap_break h ≠ 0 → Q (heap_break h) h → wpr (sbrk 0) Q h.
Proof.
  intros Hb HQ. unfold sbrk. apply wp_bind, wp_gets. rewrite (proj2 (Z.eqb_neq _ _) Hb).
  by apply wp_bind, wp_ret, wp_bind, wp_gets, wp_ret.
Qed.

Lemma round_up b : 0 ≤ b < 2 ^ 31 → ROUNDUP b PGSIZE / PGSIZE = (b + 4095) / 4096.
Proof.
  intros Hb. rewrite ROUNDUP_page by lia. change PGSIZE with 4096. dlia.
Qed.

Lemma wp_sbrk_up (Q : Z → heap → Prop) h n :
  mbegin ≤ heap_break h → 0 < n → heap_break h + n ≤ mend → hresults h = [] → mapped_to h (heap_break h) →
  (∀ p', mapped_to (set_hpages p' h) (heap_break h + n) →
     Q (heap_break h + n) (set_break (heap_break h + n) (set_hpages p' h))) →
  wpr (sbrk n) Q h.
Proof.
  intros Hb Hn He Hr Hm HQ. remember (heap_break h) as b eqn:Eb. consts.
  unfold sbrk. apply wp_bind, wp_gets. rewrite <- Eb. rewrite (proj2 (Z.eqb_neq b 0)) by lia.
  apply wp_bind, wp_ret, wp_bind, wp_gets. rewrite <- Eb. rewrite (proj2 (Z.eqb_neq n 0)) by lia. cbv zeta.
  rewrite (u32_small (b + n)) by (unfold is_u32; lia). consts.
  rewrite (proj2 (Z.ltb_ge (b + n) 134217728)), (proj2 (Z.ltb_ge 268435456 (b + n))), (proj2 (Z.ltb_lt b (b + n))) by lia.
  cbn [orb]. rewrite !round_up by lia. apply wp_bind, wp_map_pages; [done|]. intros p' H1 H2.
  apply wp_bind, wp_modify, wp_ret, HQ. intros a Ha. cbn [hpages set_hpages]. change PGSIZE with 4096 in *.
  consts. destruct (decide (a < b)); [apply H1, Hm; consts; lia|].
  destruct (decide ((b + 4095) / 4096 ≤ a / 4096)); [apply H2; dlia|].
  apply H1. replace (a / 4096) with ((b - 1) / 4096) by dlia. apply Hm. consts. dlia.
Qed.

Lemma wp_unmap_pages (Q : unit → heap → Prop) top : ∀ (n : nat) lo h,
  (∀ p', (∀ q, q ≤ top - lo - Z.of_nat n → p' q = hpages h q) → (∀ q, top - lo - Z.of_nat n < q ≤ top - lo → p' q = false) →
     (∀ q, top - lo < q → p' q = hpages h q) → Q tt (set_hpages p' h)) →
  wpr (for_up n lo (λ k, unmap_page (top - k))) Q h.
Proof.
  induction n as [|n IH]; intros lo h HQ; cbn [for_up].
  { apply wp_ret. specialize (HQ (hpages h)). assert (set_hpages (hpages h) h = h) as E by (by destruct h).
    rewrite E in HQ. apply HQ; [done|lia|done]. }
  apply wp_bind, wp_modify, IH. intros p' H H1 H2. apply HQ.
  - intros q Hq. rewrite H by lia. cbn [hpages set_hpages]. apply upd_ne. lia.
  - intros q Hq. destruct (decide (q = top - lo)) as [->|]; [|apply H1; lia]. rewrite H2 by lia. by apply upd_eq.
  - intros q Hq. rewrite H2 by lia. apply upd_ne. lia.
Qed.

Lemma wp_sbrk_down (Q : Z → heap → Prop) h n :
  mbegin ≤ heap_break h - n → 0 < n → heap_break h ≤ mend → mapped_to h (heap_break h) →
  (∀ p', mapped_to (set_hpages p' h) (heap_break h - n) → (∀ q, (heap_break h - n + 4095) / 4096 ≤ q ≤ heap_break h / 4096 → p' q = false) →
     Q (heap_break h - n) (set_break (heap_break h - n) (set_hpages p' h))) →
  wpr (sbrk (- n)) Q h.
Proof.
  intros Hb Hn He Hm HQ. remember (heap_break h) as b eqn:Eb. consts.
  unfold sbrk. apply wp_bind, wp_gets. rewrite <- Eb. rewrite (proj2 (Z.eqb_neq b 0)) by lia.
  apply wp_bind, wp_ret, wp_bind, wp_gets. rewrite <- Eb. rewrite (proj2 (Z.eqb_neq (- n) 0)) by lia. cbv zeta.
  replace (b + - n) with (b - n) by lia. rewrite (u32_small (b - n)) by (unfold is_u32; lia). consts.
  rewrite (proj2 (Z.ltb_ge (b - n) 134217728)), (proj2 (Z.ltb_ge 268435456 (b - n))), (proj2 (Z.ltb_ge b (b - n))) by lia.
  cbn [orb]. rewrite !round_up by lia. apply wp_bind, wp_bind, wp_unmap_pages. intros p' H H1 _. change PGSIZE with 4096 in *.
  apply wp_ret, wp_bind, wp_modify, wp_ret, HQ.
  - intros a Ha. cbn [hpages set_hpages]. change PGSIZE with 4096 in *. consts. rewrite H; [apply Hm; consts; lia|]. dlia.
  - intros q Hq. apply H1. dlia.
Qed.

(** ** The operations on the heap *)
Lemma align4_eq n : 0 ≤ n ≤ 2 ^ 32 - 4 → align4 n = (n + 3) / 4 * 4.
Proof.
  intros Hn. unfold align4. rewrite (u32_small (n + 3)) by (unfold is_u32; lia).
  rewrite Z.shiftl_mul_pow2, Z.shiftr_div_pow2 by lia. change (2 ^ 2) with 4.
  apply u32_small. unfold is_u32. dlia.
Qed.

Lemma heap_mapped h bs : heap_ok h bs → mapped_to h (mbegin + span bs).
Proof. intros H a Ha. by apply (ho_pages _ _ H). Qed.

Lemma heap_at h l x r : heap_ok h (l ++ x :: r) → at_block (hmem h) l x r (mbegin + span (l ++ x :: r)).
Proof. intros H. apply seg_at; [apply H|lia]. Qed.

(** Changes of the headers that keep the size of the heap. *)
Lemma heap_mem h bs bs' m : heap_ok h bs → seg m mbegin 0 bs' 0 → span bs' = span bs → (bs' = [] ↔ bs = []) →
  heap_ok (set_hmem m h) bs'.
Proof.
  intros [H1 H2 H3 H4 H5 H6] Hs E Ee. split; cbn [hmem hbase heap_break hpages hresults set_hmem]; rewrite ?E; try done.
  - rewrite H2. destruct bs, bs'; try done; destruct Ee as [E1 E2]; (discriminate (E1 eq_refl) || discriminate (E2 eq_refl)).
  - destruct H3 as [|[? ->]]; [by left|right]. split; [done|]. by apply Ee.
Qed.

Lemma lastp_pos bs prev p : Forall fits bs → 0 < p → bs ≠ [] → 0 < lastp prev p bs.
Proof.
  revert prev p. induction bs as [|x r IH]; intros prev p F Hp Hne; [done|]. inversion_clear F as [|? ? [? _] F'].
  cbn [lastp]. destruct r as [|y r]; [done|]. apply IH; [done|lia|done].
Qed.

Lemma only_headers_refl bs bs' m : only_headers bs bs' m m.
Proof. intros a _ _. done. Qed.

(** A store at heap level. *)
Lemma wp_store (Q : unit → heap → Prop) h e a v :
  mapped_to h e → mbegin ≤ a < e → a mod 4 = 0 → Q tt (set_hmem (upd (hmem h) a v) h) → wpr (st a v) Q h.
Proof. intros Hm Ha E HQ. apply wp_st; [unfold word_ok; by rewrite E, Hm|done]. Qed.

(** The new block at the end. *)
Section new_block.
Context (h : heap) (bs : list blk) (s e : Z).
Hypothesis Hs : seg (hmem h) mbegin 0 bs 0.
Hypothesis Hs0 : 0 ≤ s.
Hypothesis Hs4 : s mod 4 = 0.
Hypothesis He : mbegin + span bs + 20 + s ≤ e.
Hypothesis Hm : e ≤ mend.
Hypothesis Hmap : mapped_to h e.
Let b : Z := mbegin + span bs.

Definition new_hdr (m1 : Z → Z) : Prop :=
  seg m1 mbegin 0 bs 0 ∧ hdr m1 b (s, false) (lastp 0 mbegin bs) 0 ∧ only_headers bs (bs ++ [(s, false)]) (hmem h) m1.

Lemma wp_new_hdr (c : M heap Z) (Q : Z → heap → Prop) :
  (∀ m1, new_hdr m1 → wpr c Q (set_hmem m1 h)) →
  wpr (do* st (b_size b) s in
       do* st (b_next b) 0 in
       do* st (b_prev b) (lastp 0 mbegin bs) in
       do* st (b_ptr b) (b_data b) in
       do* st (b_free b) 0 in c) Q h.
Proof using Hs Hs0 Hs4 He Hm Hmap.
  intros HQ. pose proof (seg_fits _ _ _ _ _ Hs) as F. pose proof (span_nonneg _ F) as P1.
  pose proof (span_mod _ F) as P2. unfold new_hdr in HQ. assert (b mod 4 = 0) as Hb4 by (unfold b; consts; dlia).
  assert (b = mbegin + span bs) as Eb by done. clearbody b.
  unfold b_size, b_next, b_prev, b_ptr, b_free, b_data.
  do 5 (apply wp_bind, (wp_store _ _ e); [exact Hmap|consts; lia|dlia|]; cbn [hmem set_hmem]).
  match goal with |- wp _ _ _ (set_hmem ?x _) => remember x as m1 eqn:Em1 end.
  assert (∀ a, ¬ (b ≤ a < b + 20) → m1 a = hmem h a) as Hout by (intros a A1; rewrite Em1; by uu).
  apply (HQ m1). split; [|split].
  - eapply seg_ext; [|exact Hs]. intros a Ha. apply Hout. lia.
  - split; cbn [fst snd bword]; rewrite ?Em1; uu; done.
  - intros a _ A2. apply Hout. intros A. apply A2. eapply (header_here _ bs); [done|]. lia.
Qed.

(** The list with the new block, once the last block points to it. *)
Lemma new_linked m1 bs0 x : bs = bs0 ++ [x] → new_hdr m1 →
  let m2 := upd m1 (b_next (lastp 0 mbegin bs)) b in
  seg m2 mbegin 0 (bs ++ [(s, false)]) 0 ∧ only_headers bs (bs ++ [(s, false)]) (hmem h) m2.
Proof using Hs Hs0 Hs4 He Hm Hmap.
  intros E (H1 & H2 & H3). pose proof (seg_fits _ _ _ _ _ Hs) as F. unfold b_next. rewrite E in F |- *.
  rewrite lastp_app. cbn [lastp]. apply Forall_app in F as [F0 Fx]. pose proof (span_nonneg _ F0) as P3.
  inversion_clear Fx as [|? ? [P5 P6] _]. assert (b = mbegin + span bs0 + 20 + x.1) as Eb.
  { unfold b. rewrite E, span_app. cbn. lia. }
  split.
  - apply seg_app. rewrite lastp_app. cbn [lastp]. rewrite <- E. fold b. split; [|split; [|done]].
    + rewrite E in H1 |- *. by apply (seg_set_next m1 mbegin 0 bs0 x 0 b).
    + rewrite E, lastp_app in H2. cbn [lastp] in H2. eapply hdr_ext; [|exact H2]. intros k Hk. by rewrite upd_ne by lia.
  - intros a A1 A2. rewrite upd_ne; [rewrite <- E in A1, A2; by apply H3|]. intros ->. apply A1.
    apply (header_here _ bs0 x []); [done|lia].
Qed.
End new_block.

Lemma wp_extend (Q : Z → heap → Prop) h bs s :
  heap_ok h bs → 0 ≤ s → s mod 4 = 0 → mbegin + span bs + 20 + s ≤ mend →
  (∀ h', heap_ok h' (bs ++ [(s, false)]) → only_headers bs (bs ++ [(s, false)]) (hmem h) (hmem h') →
     Q (mbegin + span bs) h') →
  wpr (extend_heap (lastp 0 mbegin bs) s) Q h.
Proof.
  intros Hok Hs0 Hs4 Hroom HQ. pose proof Hok as [H1 H2 H3 H4 H5 H6]. pose proof (seg_fits _ _ _ _ _ H1) as F.
  pose proof (span_nonneg _ F) as P1. unfold extend_heap. apply wp_bind.
  assert (wpr (sbrk 0) (λ b h1, b = mbegin + span bs ∧ h1 = set_break (mbegin + span bs) h) h) as Hz.
  { destruct H3 as [E|[E ->]].
    - apply wp_sbrk_0; [rewrite E; consts; lia|]. split; [done|]. rewrite <- E. by destruct h.
    - unfold sbrk. apply wp_bind, wp_gets. rewrite E. apply wp_bind, wp_modify, wp_bind, wp_gets, wp_ret.
      split; [cbn; lia|]. done. }
  eapply wp_mono_ret; [exact Hz|]. intros ? ? [-> ->]. apply wp_bind.
  assert (s32 (BLOCK_SIZE + s) = 20 + s) as -> by (apply s32_small; consts; lia).
  apply wp_sbrk_up; cbn [heap_break set_break hresults]; [consts; lia|lia|lia|done|exact H5|]. intros p' Hp'.
  rewrite (proj2 (Z.eqb_neq _ (u32 (-1)))) by (change (u32 (-1)) with 4294967295; consts; lia).
  apply (wp_new_hdr _ bs s (mbegin + span bs + (20 + s))); cbn [hmem set_break set_hpages]; try done; [lia|lia|].
  intros m1 Hn. pose proof Hn as (N1 & N2 & N3). apply wp_bind.
  assert (∀ m2, seg m2 mbegin 0 (bs ++ [(s, false)]) 0 → only_headers bs (bs ++ [(s, false)]) (hmem h) m2 →
    Q (mbegin + span bs) (MkHeap m2 p' (hresults h) (mbegin + span bs + (20 + s)) (if bs then mbegin + span bs else mbegin))) as Hend.
  { intros m2 Hs2 Ho2. assert (span (bs ++ [(s, false)]) = span bs + (20 + s)) as Es by (rewrite span_app; cbn; lia).
    apply HQ; [|done]. split; cbn [hmem hbase heap_break hpages hresults]; rewrite ?Es; try done.
    - destruct bs; [cbn; lia|done].
    - left. lia.
    - lia.
    - intros a Ha. apply Hp'. lia. }
  destruct (decide (bs = [])) as [->|Hne].
  - change (ctrue (lastp 0 mbegin [])) with false. cbv iota. apply wp_modify, wp_ret. apply (Hend m1); [|done].
    split; [|done]. exact N2.
  - assert (ctrue (lastp 0 mbegin bs) = true) as ->.
    { apply ctrue_true. pose proof (lastp_pos bs 0 mbegin F ltac:(done) Hne). lia. }
    destruct (exists_last Hne) as (bs0 & x & E).
    assert (seg (hmem h) mbegin 0 bs 0) as Hs by done.
    destruct (new_linked (set_break (mbegin + span bs + (20 + s)) (set_hpages p' (set_break (mbegin + span bs) h)))
      bs s (mbegin + span bs + (20 + s)) H1 Hs0 Hs4 ltac:(lia) ltac:(lia) Hp' m1 bs0 x E Hn) as [L1 L2].
    rewrite E in F. apply Forall_app in F as [F0 _]. pose proof (span_nonneg _ F0). pose proof (span_mod _ F0).
    assert (lastp 0 mbegin bs = mbegin + span bs0) as El by (rewrite E, lastp_app; done).
    assert (span bs0 + 20 ≤ span bs) as Hle.
    { rewrite E, span_app in *. cbn. pose proof (seg_fits _ _ _ _ _ H1) as F. apply Forall_app in F as [_ F].
      inversion_clear F as [|? ? [? _] _]. lia. }
    apply (wp_store _ _ (mbegin + span bs + (20 + s))); [exact Hp'|unfold b_next; rewrite El; consts; lia|
      unfold b_next; rewrite El; consts; dlia|]. apply wp_ret. specialize (Hend _ L1 L2).
    assert (hbase h = mbegin) as Ebase by (rewrite H2; by destruct bs). cbn [hmem set_hmem] in *.
    assert ((if bs then mbegin + span bs else mbegin) = mbegin) as Eb by (by destruct bs). rewrite Eb in Hend.
    unfold set_hmem, set_break, set_hpages. cbn [hmem hpages hresults heap_break hbase]. rewrite Ebase. exact Hend.
Qed.

Lemma mwp_set_free (Q : unit → (Z → Z) → Prop) m l sz fr fr' r e :
  at_block m l (sz, fr) r e →
  (∀ m', seg m' mbegin 0 (l ++ (sz, fr') :: r) 0 → only_headers (l ++ (sz, fr) :: r) (l ++ (sz, fr') :: r) m m' → Q tt m') →
  mwp e (st (b_free (mbegin + span l)) (bword fr')) Q m.
Proof.
  intros Hb HQ. pose proof (ab_pos _ _ _ _ _ Hb) as (P1 & P2 & P3 & P4 & P5). pose proof (ab_end _ _ _ _ _ Hb) as P6.
  cbn [fst] in *. unfold b_free. apply mwp_st; [consts; lia|consts; dlia|]. apply HQ.
  - apply seg_put; cbn [fst].
    + eapply seg_ext; [|apply Hb]. intros a Ha. by uu.
    + destruct (ab_hdr _ _ _ _ _ Hb) as [H1 H2 H3 H4 H5 H6]. split; cbn [fst snd] in *; uu; done.
    + eapply seg_ext; [|apply (ab_right _ _ _ _ _ Hb)]. cbn [fst]. intros a Ha. by uu.
  - intros a A1 A2. apply upd_ne. intros ->. apply A1. apply (header_here _ l (sz, fr) r); [done|lia].
Qed.

Lemma only_headers_trans bs1 bs2 bs3 m1 m2 m3 :
  only_headers bs1 bs2 m1 m2 → only_headers bs2 bs3 m2 m3 → (∀ a, header bs2 a → header bs1 a ∨ header bs3 a) →
  only_headers bs1 bs3 m1 m3.
Proof. intros H1 H2 Hh a A1 A3. assert (¬ header bs2 a) by (intros [?|?]%Hh; done). rewrite H2, H1; done. Qed.

(** Headers do not depend on what is free. *)
Lemma header_flag l sz fr fr' r a : header (l ++ (sz, fr) :: r) a → header (l ++ (sz, fr') :: r) a.
Proof.
  intros (l1 & x & r1 & E & Ha). destruct (two_places _ _ _ _ _ _ E) as [(-> & _)|[[k ->]|[k ->]]].
  - by eapply header_here.
  - apply (header_here _ l1 x (k ++ (sz, fr') :: r)); [|done]. by rewrite <- app_assoc.
  - rewrite span_app, span_cons in Ha. cbn [fst] in Ha. rewrite <- app_assoc in E. apply app_inv_head in E.
    injection E as ->. apply (header_here _ (l ++ (sz, fr') :: k) x r1); [by rewrite <- app_assoc|].
    rewrite span_app, span_cons. cbn [fst]. lia.
Qed.

(** What a block in use adds. *)
Lemma live_used l sz fr r : live (l ++ (sz, fr) :: r) ≡ₚ (if fr then [] else [(mbegin + span l + 20, sz)]) ++ live (l ++ (sz, true) :: r).
Proof.
  unfold live. rewrite !live_from_app. cbn [live_from app]. destruct fr; [done|]. cbn [app]. by rewrite Permutation_middle.
Qed.

Lemma live_split l s sz r : live (l ++ (s, true) :: (sz - s - 20, true) :: r) = live (l ++ (sz, true) :: r).
Proof.
  unfold live. rewrite !live_from_app. cbn [live_from app]. do 2 f_equal. lia.
Qed.

(** [p] is a new block of [sz] bytes. *)
Record allocated (h h' : heap) (bs bs' : list blk) (p sz : Z) : Prop := {
  al_ok : heap_ok h' bs';
  al_live : live bs' ≡ₚ (p, sz) :: live bs;
  al_headers : only_headers bs bs' (hmem h) (hmem h')
}.

Lemma take_fit_small l s r : Forall (too_small s) l → take_fit (l ++ r) s = l ++ take_fit r s.
Proof.
  induction 1 as [|[sz fr] l Hx _ IH]; [done|]. cbn [app take_fit]. destruct fr; cbn [andb]; [|by rewrite IH].
  specialize (Hx eq_refl). cbn in Hx. by rewrite (proj2 (Z.leb_gt _ _)), IH by lia.
Qed.

Lemma take_fit_here l sz r s : Forall (too_small s) l → s ≤ sz → take_fit (l ++ (sz, true) :: r) s =
  l ++ if 24 <=? sz - s then (s, false) :: (sz - s - 20, true) :: r else (sz, false) :: r.
Proof. intros Hl Hs. rewrite take_fit_small by done. cbn [take_fit andb]. by rewrite (proj2 (Z.leb_le _ _)). Qed.

Lemma take_fit_new bs s : Forall (too_small s) bs → take_fit bs s = bs ++ [(s, false)].
Proof. intros H. rewrite <- (app_nil_r bs) at 1. by rewrite take_fit_small. Qed.

Lemma take_fit_tight bs s : tight bs → tight (take_fit bs s).
Proof.
  induction bs as [|[sz fr] bs IH]; [done|]. intros [H1 H2]. specialize (IH H2). cbn [take_fit]. destruct fr; cbn [andb].
  - specialize (H1 eq_refl). destruct (s <=? sz); [destruct (24 <=? sz - s); cbn; naive_solver|]. cbn [tight]. split; [|done]. intros _.
    destruct bs as [|[sz2 [|]] bs]; done.
  - by split.
Qed.

Lemma wp_malloc (Q : Z → heap → Prop) fuel h bs n :
  heap_ok h bs → 0 ≤ n < MAXMALLOC → (length bs ≤ fuel)%nat → mbegin + span bs + 20 + align4 n ≤ mend →
  (∀ h' p sz, allocated h h' bs (take_fit bs (align4 n)) p sz → n ≤ sz → p ≠ 0 → Q p h') →
  wpr (malloc fuel n) Q h.
Proof.
  intros Hok Hn Hfuel Hroom HQ. change MAXMALLOC with 1048576 in *. pose proof (align4_eq n ltac:(lia)) as Es.
  unfold malloc. change MAXMALLOC with 1048576. rewrite (proj2 (Z.leb_gt _ _)) by lia. cbv zeta.
  remember (align4 n) as s eqn:Ea. assert (n ≤ s ∧ 0 ≤ s ∧ s mod 4 = 0) as (S1 & S2 & S3) by dlia. clear Es Ea.
  pose proof (seg_fits _ _ _ _ _ (ho_seg _ _ Hok)) as F. pose proof (span_nonneg _ F) as P1.
  pose proof (heap_mapped h bs Hok) as Hmap. pose proof (ho_room _ _ Hok) as Hend.
  apply wp_bind. unfold find_block. apply wp_bind, wp_gets. rewrite (ho_base _ _ Hok).
  apply (mwp_run (mbegin + span bs) _ (λ bl m, m = hmem h ∧
    ((∃ l sz r, bs = l ++ (sz, true) :: r ∧ s ≤ sz ∧ Forall (too_small s) l ∧ bl.1 = mbegin + span l) ∨ Forall (too_small s) bs ∧ bl = (0, lastp 0 mbegin bs)))); [done| |].
  { pose proof (mwp_find_from (hmem h) s (mbegin + span bs) bs [] fuel) as Hf. cbn [app lastp] in Hf.
    replace (mbegin + span []) with mbegin in Hf by (cbn; lia). apply Hf; [apply Hok|lia|done|done| |].
    - intros l sz r -> Hfit Hsm. split; [done|]. left. by exists l, sz, r.
    - intros Hsm. split; [done|]. by right. }
  intros [b last] m [-> Hb]. assert (set_hmem (hmem h) h = h) as -> by (by destruct h).
  destruct Hb as [(l & sz & r & -> & Hfit & Hsm & E)|[Hsm E]]; cbn [fst] in E; [subst b|injection E as -> ->].
  - pose proof (heap_at _ _ _ _ Hok) as Hb. pose proof (ab_pos _ _ _ _ _ Hb) as (Q1 & Q2 & Q3 & Q4 & Q5).
    pose proof (ab_end _ _ _ _ _ Hb) as Q6. cbn [fst] in *.
    assert (ctrue (mbegin + span l) = true) as -> by (apply ctrue_true; consts; lia).
    apply (mwp_run (mbegin + span (l ++ (sz, true) :: r)) _ (λ p m', p = mbegin + span l + 20 ∧
      ∃ sz' r', take_fit (l ++ (sz, true) :: r) s = l ++ (sz', false) :: r' ∧ seg m' mbegin 0 (l ++ (sz', false) :: r') 0 ∧ n ≤ sz' ∧ span (l ++ (sz', false) :: r') = span (l ++ (sz, true) :: r) ∧
        live (l ++ (sz', true) :: r') = live (l ++ (sz, true) :: r) ∧
        only_headers (l ++ (sz, true) :: r) (l ++ (sz', false) :: r') (hmem h) m')); [done| |].
    + apply mwp_bind, mwp_ld; [unfold b_size; consts; lia|unfold b_size; consts; dlia|]. unfold b_size.
      rewrite (hd_size _ _ _ _ _ (ab_hdr _ _ _ _ _ Hb)). cbn [fst]. rewrite (u32_small (sz - s)) by (unfold is_u32; consts; lia).
      destruct (Z.leb_spec (BLOCK_SIZE + 4) (sz - s)) as [Hsp|Hsp]; change BLOCK_SIZE with 20 in *.
      * apply mwp_bind. eapply mwp_split; [exact Hb|done|done|done|lia|]. intros m1 Hs1 Ho1.
        assert (span (l ++ (s, true) :: (sz - s - 20, true) :: r) = span (l ++ (sz, true) :: r)) as Esp.
        { rewrite !span_app, !span_cons. cbn [fst]. lia. }
        apply mwp_bind, (mwp_set_free _ m1 l s true false ((sz - s - 20, true) :: r)).
        { apply seg_at; [done|]. rewrite Esp. lia. }
        intros m2 Hs2 Ho2. apply mwp_ret. split; [done|]. exists s, ((sz - s - 20, true) :: r).
        split; [rewrite (take_fit_here l sz r s Hsm Hfit), (proj2 (Z.leb_le _ _)) by lia; done|].
        split; [done|]. split; [done|]. split; [rewrite <- Esp; rewrite !span_app, !span_cons; done|].
        split; [apply live_split|]. eapply only_headers_trans; [exact Ho1|exact Ho2|]. intros a Ha. right. by eapply header_flag.
      * apply mwp_bind, mwp_ret. apply mwp_bind, (mwp_set_free _ _ l sz true false r); [exact Hb|].
        intros m2 Hs2 Ho2. apply mwp_ret. split; [done|]. exists sz, r.
        split; [rewrite (take_fit_here l sz r s Hsm Hfit), (proj2 (Z.leb_gt _ _)) by lia; done|]. split; [done|]. split; [lia|].
        split; [by rewrite !span_app, !span_cons|]. done.
    + intros p m' (-> & sz' & r' & Et & Hs' & Hn' & Esp & El & Ho). apply (HQ _ _ sz'); [|done|consts; lia]. rewrite Et.
      split; [|by rewrite live_used, El|done]. apply (heap_mem h (l ++ (sz, true) :: r)); [done|done|done|].
      split; intros E0; by destruct l.
  - change (ctrue 0) with false. cbv iota. apply wp_bind, (wp_extend _ h bs s); [done|done|done|lia|]. intros h' Hok' Ho.
    rewrite (proj2 (Z.eqb_neq _ _)) by (consts; lia). apply wp_ret.
    apply (HQ h' _ s); [|done|unfold b_data; consts; lia]. rewrite (take_fit_new bs s Hsm).
    split; [done| |done]. rewrite live_used. unfold live. rewrite live_from_app. cbn [live_from app]. by rewrite app_nil_r.
Qed.

(** ** [free] *)

(** Only headers of [bs] are written. *)
Definition within (bs : list blk) (m m' : Z → Z) : Prop := ∀ a, ¬ header bs a → m' a = m a.
Definition hsub (bs bs' : list blk) : Prop := ∀ a, header bs' a → header bs a.

Lemma within_trans bs bs' m1 m2 m3 : within bs m1 m2 → hsub bs bs' → within bs' m2 m3 → within bs m1 m3.
Proof. intros H1 Hh H2 a Ha. rewrite H2, H1; [done|done|]. intros H. by apply Ha, Hh. Qed.

Lemma only_within bs bs' m m' : only_headers bs bs' m m' → hsub bs bs' → within bs m m'.
Proof. intros H Hh a Ha. apply H; [done|]. intros Hx. by apply Ha, Hh. Qed.

Lemma within_only bs bs' m m' : within bs m m' → only_headers bs bs' m m'.
Proof. intros H a Ha _. by apply H. Qed.

Lemma hsub_trans bs1 bs2 bs3 : hsub bs1 bs2 → hsub bs2 bs3 → hsub bs1 bs3.
Proof. unfold hsub. auto. Qed.

Lemma hsub_merge l x r : hsub (l ++ x :: r) (l ++ merge x r).
Proof.
  destruct r as [|[nsz [|]] r]; [by intros a| |by intros a]. cbn [merge].
  intros a (l1 & y & r1 & E & Ha). destruct (two_places _ _ _ _ _ _ E) as [(-> & _)|[[k ->]|[k ->]]].
  - by eapply header_here.
  - apply (header_here _ l1 y (k ++ x :: (nsz, true) :: r)); [by rewrite <- app_assoc|done].
  - rewrite span_app, span_cons in Ha. cbn [fst] in Ha. rewrite <- app_assoc in E. apply app_inv_head in E.
    injection E as ->. apply (header_here _ (l ++ x :: (nsz, true) :: k) y r1); [by rewrite <- app_assoc|].
    rewrite span_app, !span_cons. cbn [fst]. lia.
Qed.

Lemma hsub_drop l x : hsub (l ++ [x]) l.
Proof. intros a (l1 & y & r1 & -> & Ha). apply (header_here _ l1 y (r1 ++ [x])); [by rewrite <- app_assoc|done]. Qed.

Lemma hsub_flag l sz fr fr' r : hsub (l ++ (sz, fr) :: r) (l ++ (sz, fr') :: r).
Proof. intros a. apply header_flag. Qed.

Lemma live_merge l sz r : live (l ++ merge (sz, true) r) = live (l ++ (sz, true) :: r).
Proof.
  destruct r as [|[nsz [|]] r]; [done| |done]. unfold live. rewrite !live_from_app. cbn. do 2 f_equal. lia.
Qed.

Lemma live_drop l sz : live (l ++ [(sz, true)]) = live l.
Proof. unfold live. rewrite live_from_app. cbn. by rewrite app_nil_r. Qed.

Lemma span_merge l x r : span (l ++ merge x r) = span (l ++ x :: r).
Proof. destruct r as [|[nsz [|]] r]; [done| |done]. rewrite !span_app. cbn. lia. Qed.

Lemma merge_cons x r : ∃ y r', merge x r = y :: r'.
Proof. destruct r as [|[nsz [|]] r]; cbn; eauto. Qed.

Lemma nonempty_app (l : list blk) x r (l' : list blk) y r' : l ++ x :: r = [] ↔ l' ++ y :: r' = [].
Proof. by destruct l, l'. Qed.

(** Running [fusion]. *)
Lemma wp_fusion (Q : Z → heap → Prop) h l x r :
  heap_ok h (l ++ x :: r) →
  (∀ h', heap_ok h' (l ++ merge x r) → within (l ++ x :: r) (hmem h) (hmem h') → Q (mbegin + span l) h') →
  wpr (fusion (mbegin + span l)) Q h.
Proof.
  intros Hok HQ. apply (mwp_run (mbegin + span (l ++ x :: r)) _ (λ b m', b = mbegin + span l ∧
    seg m' mbegin 0 (l ++ merge x r) 0 ∧ only_headers (l ++ x :: r) (l ++ merge x r) (hmem h) m')); [by apply heap_mapped| |].
  - apply (mwp_fusion _ _ l x r); [by apply heap_at|apply Hok|]. intros m' H1 H2. done.
  - intros b m' (-> & Hs & Ho). apply HQ; [|eapply only_within; [done|apply hsub_merge]].
    apply (heap_mem h (l ++ x :: r)); [done|done|apply span_merge|].
    destruct (merge_cons x r) as (y & r' & ->). apply nonempty_app.
Qed.

(** The last block goes. *)
Lemma heap_drop h l sz m p' :
  heap_ok h (l ++ [(sz, true)]) → seg m mbegin 0 l 0 → mapped_to (set_hpages p' h) (mbegin + span l) →
  heap_ok (MkHeap m p' (hresults h) (mbegin + span l) (if l then 0 else mbegin)) l.
Proof.
  intros [H1 H2 H3 H4 H5 H6] Hs Hp. pose proof (seg_fits _ _ _ _ _ H1) as F. apply Forall_app in F as [_ F].
  inversion_clear F as [|? ? [? _] _]. rewrite span_app in H4. cbn in *. split; cbn; try done; [by left|lia].
Qed.

Lemma seg_cut m l sz : seg m mbegin 0 (l ++ [(sz, true)]) 0 →
  ∃ m', seg m' mbegin 0 l 0 ∧ within (l ++ [(sz, true)]) m m' ∧ (∀ a, mbegin + span l ≤ a → m' a = m a) ∧
    m' = (if l then m else upd m (b_next (lastp 0 mbegin l)) 0).
Proof.
  intros Hs. pose proof (seg_fits _ _ _ _ _ Hs) as F. apply Forall_app in F as [F _].
  apply seg_app in Hs as [H1 _]. destruct (decide (l = [])) as [->|Hne]; [by exists m|].
  destruct (exists_last Hne) as (l0 & x & E). assert (lastp 0 mbegin l = mbegin + span l0) as El by (rewrite E, lastp_app; done).
  assert (span l0 + 20 ≤ span l) as Hle.
  { rewrite E in F |- *. rewrite span_app. apply Forall_app in F as [_ F]. inversion_clear F as [|? ? [? _] _]. cbn. lia. }
  exists (upd m (mbegin + span l0 + 8) 0). split; [|split; [|split; [|by unfold b_next; rewrite El; destruct l]]].
  - rewrite E in *. by eapply seg_set_next.
  - intros a Ha. apply upd_ne. intros ->. apply Ha. rewrite E, <- app_assoc.
    apply (header_here _ l0 x [(sz, true)]); [done|lia].
  - intros a Ha. apply upd_ne. lia.
Qed.

(** Where the heap got shorter there are no pages any more. *)
Definition given_back (h h' : heap) : Prop :=
  heap_break h' < heap_break h → ∀ q, (heap_break h' + 4095) / 4096 ≤ q ≤ heap_break h / 4096 → hpages h' q = false.

Lemma heap_ok_break h h' bs bs' : heap_ok h bs → heap_ok h' bs' → bs ≠ [] → bs' ≠ [] → span bs' = span bs → heap_break h' = heap_break h.
Proof. intros H H' N N' E. destruct (ho_break _ _ H) as [->|[_ ?]], (ho_break _ _ H') as [->|[_ ?]]; try done. by rewrite E. Qed.

Lemma wp_free_end (Q : unit → heap → Prop) h l sz r :
  heap_ok h (l ++ (sz, true) :: r) →
  (∀ h', heap_ok h' (join_end l sz r) → live (join_end l sz r) = live (l ++ (sz, true) :: r) →
     within (l ++ (sz, true) :: r) (hmem h) (hmem h') → given_back h h' → Q tt h') →
  wpr (free_end (mbegin + span l)) Q h.
Proof.
  intros Hok HQ. pose proof (heap_at _ _ _ _ Hok) as Hb. pose proof (ab_pos _ _ _ _ _ Hb) as (P1 & P2 & P3 & P4 & P5).
  pose proof (ab_end _ _ _ _ _ Hb) as P6. pose proof (ho_room _ _ Hok) as P7. cbn [fst] in *.
  pose proof (heap_mapped _ _ Hok) as Hmap. destruct (ab_hdr _ _ _ _ _ Hb) as [H1 H2 H3 H4 H5 H6]. cbn [fst snd] in *.
  assert (∀ k, 0 ≤ k < 20 → k mod 4 = 0 → word_ok h (mbegin + span l + k) = true) as Hw.
  { intros k Hk Hk4. unfold word_ok. rewrite Hmap by lia. apply andb_true_iff. split; [|done]. consts. dlia. }
  pose proof (Hw 0 ltac:(lia) ltac:(done)) as Hw0. rewrite Z.add_0_r in Hw0. pose proof (Hw 4 ltac:(lia) ltac:(done)) as Hw4.
  pose proof (Hw 8 ltac:(lia) ltac:(done)) as Hw8. clear Hw.
  unfold free_end, b_next, b_prev, b_size. apply wp_bind, wp_ld; [done|]. rewrite H3. destruct r as [|y r].
  2: { assert (ctrue (mbegin + span l + 20 + sz) = true) as -> by (apply ctrue_true; consts; lia).
    apply wp_bind, (wp_fusion _ _ l (sz, true) (y :: r)); [done|]. intros h' Hok' Hm. apply wp_ret.
    apply HQ; [exact Hok'|apply (live_merge l sz (y :: r))|done|]. intros Hlt. exfalso.
    rewrite (heap_ok_break _ _ _ _ Hok Hok') in Hlt; [lia|by destruct l|destruct (merge_cons (sz, true) (y :: r)) as (? & ? & ->); by destruct l|apply span_merge]. }
  change (ctrue 0) with false. cbv iota. apply wp_bind, wp_ld; [done|]. rewrite H2.
  destruct (seg_cut _ _ _ (ho_seg _ _ Hok)) as (m' & Hs' & Hm' & Hb' & Em').
  assert (heap_break h = mbegin + span l + 20 + sz) as Ebr.
  { destruct (ho_break _ _ Hok) as [E|[_ E]]; [rewrite E, span_app; cbn; lia|by destruct l]. }
  apply wp_bind. eapply (wp_mono_ret _ (λ _ h1, h1 = set_hmem m' (set_hbase (if l then 0 else mbegin) h))).
  { destruct (decide (l = [])) as [->|Hne].
    - change (ctrue (lastp 0 mbegin [])) with false. cbv iota. apply wp_modify. rewrite Em'. by destruct h.
    - assert (ctrue (lastp 0 mbegin l) = true) as ->.
      { apply ctrue_true. pose proof (lastp_pos l 0 mbegin (ab_lfits _ _ _ _ _ Hb) ltac:(done) Hne). lia. }
      destruct (exists_last Hne) as (l0 & x & E). assert (lastp 0 mbegin l = mbegin + span l0) as El by (rewrite E, lastp_app; done).
      pose proof (ab_lfits _ _ _ _ _ Hb) as F. rewrite E in F. apply Forall_app in F as [F0 Fx].
      pose proof (span_nonneg _ F0). pose proof (span_mod _ F0). inversion_clear Fx as [|? ? [? _] _].
      assert (span l = span l0 + 20 + x.1) as Esp by (rewrite E, span_app; cbn; lia).
      apply (wp_store _ _ _ _ _ Hmap); unfold b_next in *; rewrite ?El in *; [rewrite span_app; cbn; consts; lia|consts; dlia|].
      pose proof (ho_base _ _ Hok) as Ebase. destruct l as [|z l]; [done|]. cbn in Ebase. rewrite Em'. destruct h; cbn in *. by subst. }
  intros _ h1 ->. apply wp_bind, wp_ld; [exact Hw0|]. cbn [hmem set_hmem].
  rewrite Hb', H1 by lia. apply wp_bind.
  assert (s32 (- (sz + BLOCK_SIZE)) = - (20 + sz)) as -> by (rewrite s32_small; consts; lia).
  apply wp_sbrk_down; cbn [heap_break set_hmem set_hbase]; rewrite ?Ebr; [consts; lia|lia|rewrite span_app in P7; cbn in P7; lia| |].
  { intros a Ha. apply Hmap. rewrite span_app. cbn. lia. }
  intros p' Hp' Hu'. replace (mbegin + span l + 20 + sz - (20 + sz)) with (mbegin + span l) in * by lia.
  apply wp_ret. apply HQ; [apply (heap_drop h l sz m' p'); [done|done|exact Hp']|by rewrite live_drop|done|].
  intros _ q Hq. cbn in Hq |- *. apply Hu'. rewrite Ebr in Hq. exact Hq.
Qed.

(** The words of a header can be used. *)
Lemma hdr_word h l x r k : heap_ok h (l ++ x :: r) → 0 ≤ k < 20 → k mod 4 = 0 → word_ok h (mbegin + span l + k) = true.
Proof.
  intros Hok Hk Hk4. pose proof (heap_at _ _ _ _ Hok) as Hb. pose proof (ab_pos _ _ _ _ _ Hb) as (P1 & P2 & P3 & P4 & P5).
  pose proof (ab_end _ _ _ _ _ Hb) as P6. unfold word_ok. rewrite (heap_mapped _ _ Hok) by lia.
  apply andb_true_iff. split; [|done]. consts. dlia.
Qed.

Lemma heap_place h l x r : heap_ok h (l ++ x :: r) →
  0 ≤ span l ∧ 0 ≤ x.1 ∧ 0 ≤ span r ∧ mbegin + span l + 20 + x.1 + span r ≤ mend ∧
  heap_break h = mbegin + span l + 20 + x.1 + span r ∧ hbase h = mbegin.
Proof.
  intros Hok. pose proof (heap_at _ _ _ _ Hok) as Hb. pose proof (ab_pos _ _ _ _ _ Hb) as (P1 & P2 & P3 & P4 & P5).
  pose proof (ho_room _ _ Hok) as P6. rewrite span_app, span_cons in P6.
  repeat (split; [done || lia|]). split.
  - destruct (ho_break _ _ Hok) as [E|[_ E]]; [rewrite E, span_app, span_cons; lia|by destruct l].
  - rewrite (ho_base _ _ Hok). by destruct l.
Qed.

Lemma block_of_ptr l x r h : heap_ok h (l ++ x :: r) → get_block (mbegin + span l + 20) = mbegin + span l.
Proof.
  intros Hok. pose proof (heap_place _ _ _ _ Hok) as (P1 & P2 & P3 & P4 & _). unfold get_block.
  rewrite u32_small; consts; [lia|unfold is_u32; lia].
Qed.

Lemma wp_valid_addr (Q : unit → heap → Prop) h l x r :
  heap_ok h (l ++ x :: r) → 0 < x.1 + span r → Q tt h → wpr (valid_addr (mbegin + span l + 20)) Q h.
Proof.
  intros Hok Hlt HQ. pose proof (heap_place _ _ _ _ Hok) as (P1 & P2 & P3 & P4 & P5 & P6).
  unfold valid_addr. apply wp_bind, wp_gets. rewrite P6. apply wp_bind, wp_massert; [done|].
  apply wp_bind, wp_sbrk_0; [rewrite P5; consts; lia|]. rewrite P5.
  apply wp_bind, wp_massert; [apply andb_true_iff; split; apply Z.ltb_lt; lia|].
  rewrite (block_of_ptr _ _ _ _ Hok). unfold b_ptr. apply wp_bind, wp_ld; [by apply hdr_word with x r|].
  rewrite (hd_ptr _ _ _ _ _ (ab_hdr _ _ _ _ _ (heap_at _ _ _ _ Hok))).
  apply wp_massert; [|done]. apply Z.eqb_refl.
Qed.

Lemma wp_set_free (Q : unit → heap → Prop) h l sz fr fr' r :
  heap_ok h (l ++ (sz, fr) :: r) →
  (∀ h', heap_ok h' (l ++ (sz, fr') :: r) → within (l ++ (sz, fr) :: r) (hmem h) (hmem h') → Q tt h') →
  wpr (st (b_free (mbegin + span l)) (bword fr')) Q h.
Proof.
  intros Hok HQ. apply (mwp_run (mbegin + span (l ++ (sz, fr) :: r)) _ (λ _ m', seg m' mbegin 0 (l ++ (sz, fr') :: r) 0 ∧
    only_headers (l ++ (sz, fr) :: r) (l ++ (sz, fr') :: r) (hmem h) m')); [by apply heap_mapped| |].
  - apply (mwp_set_free _ _ l sz fr fr' r); [by apply heap_at|]. done.
  - intros [] m' [Hs Ho]. apply HQ; [|eapply only_within; [done|apply hsub_flag]].
    apply (heap_mem h (l ++ (sz, fr) :: r)); [done|done|by rewrite !span_app, !span_cons|apply nonempty_app].
Qed.

(** Joining with the block before. *)
Lemma wp_free_prev (Q : unit → heap → Prop) h l sz r :
  heap_ok h (l ++ (sz, true) :: r) →
  (∀ h', heap_ok h' (free_blocks l sz r) → live (free_blocks l sz r) = live (l ++ (sz, true) :: r) →
     within (l ++ (sz, true) :: r) (hmem h) (hmem h') → given_back h h' → Q tt h') →
  wpr (let* prev := ld (b_prev (mbegin + span l)) in
       let* pf := (if ctrue prev then let* fr := ld (b_free prev) in ret (ctrue fr) else ret false) in
       let* b := (if pf then fusion prev else ret (mbegin + span l)) in
       free_end b) Q h.
Proof.
  intros Hok HQ. unfold b_prev, b_free. apply wp_bind, wp_ld; [by apply hdr_word with (sz, true) r|].
  rewrite (hd_prev _ _ _ _ _ (ab_hdr _ _ _ _ _ (heap_at _ _ _ _ Hok))).
  destruct (decide (l = [])) as [->|Hne].
  { change (ctrue (lastp 0 mbegin [])) with false. cbv iota. apply wp_bind, wp_ret, wp_bind, wp_ret.
    by apply (wp_free_end _ _ [] sz r). }
  unfold free_blocks in HQ.
  pose proof (ab_lfits _ _ _ _ _ (heap_at _ _ _ _ Hok)) as F.
  assert (ctrue (lastp 0 mbegin l) = true) as ->.
  { apply ctrue_true. pose proof (lastp_pos l 0 mbegin F ltac:(done) Hne). lia. }
  destruct (exists_last Hne) as (l0 & [psz pfr] & E). assert (lastp 0 mbegin l = mbegin + span l0) as -> by (rewrite E, lastp_app; done).
  assert (l ++ (sz, true) :: r = l0 ++ (psz, pfr) :: (sz, true) :: r) as Eapp by (by rewrite E, <- app_assoc).
  pose proof Hok as Hok'. rewrite Eapp in Hok'. assert (last l = Some (psz, pfr) ∧ removelast l = l0) as [El Er] by (rewrite E; split; [apply last_snoc|apply removelast_last]).
  rewrite El, Er in HQ.
  apply wp_bind, wp_bind, wp_ld; [by apply hdr_word with (psz, pfr) ((sz, true) :: r)|].
  rewrite (hd_free _ _ _ _ _ (ab_hdr _ _ _ _ _ (heap_at _ _ _ _ Hok'))). apply wp_ret. cbn [snd]. destruct pfr; cbn [bword].
  - change (ctrue 1) with true. cbv iota. apply wp_bind, (wp_fusion _ _ l0 (psz, true) ((sz, true) :: r)); [done|].
    cbn [merge fst snd]. intros h1 H1 W1. apply (wp_free_end _ _ l0 (psz + (20 + sz)) r); [done|]. intros h2 H2 L2 W2 B2.
    apply (HQ h2); [done| | |].
    + rewrite L2, Eapp. apply (live_merge l0 psz ((sz, true) :: r)).
    + rewrite Eapp. eapply within_trans; [exact W1|apply (hsub_merge l0 (psz, true) ((sz, true) :: r))|exact W2].
    + unfold given_back in *. rewrite <- (heap_ok_break _ _ _ _ Hok' H1); [exact B2|by destruct l0|by destruct l0|]. rewrite !span_app. cbn. lia.
  - change (ctrue 0) with false. cbv iota. apply wp_bind, wp_ret. by apply (wp_free_end _ _ l sz r).
Qed.

Lemma wp_free (Q : unit → heap → Prop) h l sz r :
  heap_ok h (l ++ (sz, false) :: r) → 0 < sz + span r →
  (∀ h', heap_ok h' (free_blocks l sz r) → live (l ++ (sz, false) :: r) ≡ₚ (mbegin + span l + 20, sz) :: live (free_blocks l sz r) →
     within (l ++ (sz, false) :: r) (hmem h) (hmem h') → given_back h h' → Q tt h') →
  wpr (free (mbegin + span l + 20)) Q h.
Proof.
  intros Hok Hlt HQ. unfold free. apply wp_bind, (wp_valid_addr _ _ l (sz, false) r); [done|done|].
  rewrite (block_of_ptr _ _ _ _ Hok). cbv zeta. apply wp_bind, (wp_set_free _ _ l sz false true r); [done|].
  intros h1 H1 W1. apply (wp_free_prev _ _ l sz r); [done|]. intros h2 H2 L2 W2 B2. apply (HQ h2); [done| | |].
  - rewrite L2. apply (live_used l sz false r).
  - eapply within_trans; [exact W1|apply hsub_flag|exact W2].
  - unfold given_back in *. rewrite <- (heap_ok_break _ _ _ _ Hok H1); [exact B2|by destruct l|by destruct l|]. rewrite !span_app. done.
Qed.

(** ** [realloc] *)

(** Two blocks in use do not touch, nor do their headers. *)
Lemma live_apart bs q t q' t' : Forall fits bs → (q, t) ∈ live bs → (q', t') ∈ live bs → q ≠ q' →
  q + t ≤ q' - 20 ∨ q' + t' ≤ q - 20.
Proof.
  intros F (l & r & E & ->)%live_elem (l' & r' & E' & ->)%live_elem Hne. rewrite E in E'.
  destruct (two_places _ _ _ _ _ _ E') as [(-> & _)|[[k ->]|[k ->]]]; [lia| |].
  - right. subst bs. apply Forall_app in F as [F _]. apply Forall_app in F as [_ F]. inversion_clear F as [|? ? _ Fk].
    pose proof (span_nonneg k Fk). rewrite span_app, span_cons. cbn [fst]. lia.
  - left. rewrite E, E', <- app_assoc in F. apply Forall_app in F as [_ F]. cbn in F. inversion_clear F as [|? ? _ Fk].
    apply Forall_app in Fk as [Fk _]. pose proof (span_nonneg k Fk). rewrite span_app, span_cons. cbn [fst]. lia.
Qed.

Lemma live_from_nodup bs p : Forall fits bs → NoDup (live_from p bs).*1 ∧ ∀ q, q ∈ (live_from p bs).*1 → p < q.
Proof.
  revert p. induction bs as [|[sz fr] bs IH]; intros p F; cbn [live_from].
  { split; [constructor|]. by intros q ?%not_elem_of_nil. }
  inversion_clear F as [|? ? [Hx _] F']. cbn in Hx. destruct (IH (p + 20 + sz) F') as [H1 H2]. destruct fr; cbn [app].
  - split; [done|]. intros q Hq%H2. lia.
  - rewrite fmap_cons. cbn [fst]. split.
    + constructor; [|done]. intros Hq%H2. lia.
    + intros q [->|Hq]%elem_of_cons; [lia|]. apply H2 in Hq. lia.
Qed.

Lemma live_rest bs p sz rest q t : Forall fits bs → live bs ≡ₚ (p, sz) :: rest → (q, t) ∈ rest → q ≠ p.
Proof.
  intros F E Hq ->. destruct (live_from_nodup bs mbegin F) as [Hn _]. fold (live bs) in Hn. rewrite E in Hn.
  rewrite fmap_cons in Hn. cbn [fst] in Hn. inversion_clear Hn as [|? ? Hx _]. apply Hx.
  change p with (p, t).1. by apply list_elem_of_fmap_2.
Qed.

(** The list in memory depends on the headers only. *)
Lemma seg_headers m m' bs l0 prev e :
  seg m (mbegin + span l0) prev bs e → (∀ a, header (l0 ++ bs) a → m' a = m a) → seg m' (mbegin + span l0) prev bs e.
Proof.
  revert l0 prev. induction bs as [|x r IH]; intros l0 prev Hs Hm; [done|]. destruct Hs as [H1 H2]. split.
  - eapply hdr_ext; [|exact H1]. intros k Hk. apply Hm. apply (header_here _ l0 x r); [done|lia].
  - replace (mbegin + span l0 + 20 + x.1) with (mbegin + span (l0 ++ [x])) in * by (rewrite span_app; cbn; lia).
    apply IH; [done|]. intros a Ha. apply Hm. by rewrite <- app_assoc in Ha.
Qed.

Lemma heap_data h bs m : heap_ok h bs → (∀ a, header bs a → m a = hmem h a) → heap_ok (set_hmem m h) bs.
Proof.
  intros Hok Hm. apply (heap_mem h bs); [done| |done|done].
  pose proof (seg_headers (hmem h) m bs [] 0 0) as H. replace (mbegin + span []) with mbegin in H by (cbn; lia).
  apply H; [apply Hok|done].
Qed.

Lemma mwp_copy_words src dst sdata ddata ssz dsz e m0 : ∀ (n fuel : nat) i m Q,
  m src = ssz → m dst = dsz → ssz ≤ dsz → 0 ≤ i → 4 * i + 4 * Z.of_nat n = ssz → (n ≤ fuel)%nat →
  mbegin ≤ src → src + 4 ≤ e → src mod 4 = 0 → mbegin ≤ dst → dst + 4 ≤ e → dst mod 4 = 0 →
  mbegin ≤ sdata → sdata + ssz ≤ e → sdata mod 4 = 0 → mbegin ≤ ddata → ddata + dsz ≤ e → ddata mod 4 = 0 →
  sdata + ssz ≤ ddata ∨ ddata + dsz ≤ sdata → (src < ddata ∨ ddata + dsz ≤ src) → (dst < ddata ∨ ddata + dsz ≤ dst) →
  (∀ a, ¬ (ddata ≤ a < ddata + 4 * i) → m a = m0 a) → (∀ j, 0 ≤ j < i → m (ddata + 4 * j) = m0 (sdata + 4 * j)) →
  (∀ m', (∀ a, ¬ (ddata ≤ a < ddata + ssz) → m' a = m0 a) →
     (∀ j, 0 ≤ j < ssz / 4 → m' (ddata + 4 * j) = m0 (sdata + 4 * j)) → Q tt m') →
  mwp e (copy_words fuel src dst sdata ddata i) Q m.
Proof.
  induction n as [|n IH]; intros fuel i m Q Es Ed Hle Hi En Hf S1 S2 S3 D1 D2 D3 P1 P2 P3 R1 R2 R3 Hap Hs Hd Hm Hc HQ.
  - assert (4 * i = ssz) as Ei by lia. destruct fuel; cbn [copy_words]; unfold b_size.
    all: apply mwp_bind, mwp_ld; [lia|done|]; rewrite Es, (proj2 (Z.ltb_ge _ _)) by lia.
    all: apply mwp_bind, mwp_ret; cbn [negb]; apply mwp_ret, HQ; [by rewrite <- Ei|].
    all: intros j Hj; apply Hc; dlia.
  - destruct fuel as [|fuel]; [lia|]. cbn [copy_words]. unfold b_size.
    apply mwp_bind, mwp_ld; [lia|done|]. rewrite Es, (proj2 (Z.ltb_lt _ _)) by lia.
    apply mwp_bind, mwp_bind, mwp_ld; [lia|done|]. rewrite Ed, (proj2 (Z.ltb_lt _ _)) by lia. apply mwp_ret. cbn [negb].
    apply mwp_bind, mwp_ld; [lia|dlia|]. rewrite Hm by lia. apply mwp_bind, mwp_st; [lia|dlia|].
    apply IH; try done; try lia.
    + by rewrite upd_ne by lia.
    + by rewrite upd_ne by lia.
    + intros a Ha. rewrite upd_ne by lia. apply Hm. lia.
    + intros j Hj. destruct (decide (j = i)) as [->|]; [by rewrite upd_eq|]. rewrite upd_ne by lia. apply Hc. lia.
Qed.

(** A block cut down to [s] bytes, if what is left over makes a block. *)
Lemma wp_shrink (Q : unit → heap → Prop) h l sz fr r s :
  heap_ok h (l ++ (sz, fr) :: r) → 0 ≤ s ≤ sz → s mod 4 = 0 →
  (∀ h' sz' r', heap_ok h' (l ++ (sz', fr) :: r') → s ≤ sz' →
     live (l ++ (sz', true) :: r') = live (l ++ (sz, true) :: r) →
     only_headers (l ++ (sz, fr) :: r) (l ++ (sz', fr) :: r') (hmem h) (hmem h') → Q tt h') →
  wpr (if BLOCK_SIZE + 4 <=? u32 (sz - s) then split_block (mbegin + span l) s else ret tt) Q h.
Proof.
  intros Hok Hs Hs4 HQ. pose proof (heap_place _ _ _ _ Hok) as (P1 & P2 & P3 & P4 & _). cbn [fst] in *.
  rewrite u32_small by (unfold is_u32; consts; lia).
  destruct (Z.leb_spec (BLOCK_SIZE + 4) (sz - s)) as [Hsp|_]; change BLOCK_SIZE with 20 in *.
  - apply (mwp_run (mbegin + span (l ++ (sz, fr) :: r)) _ (λ _ m', seg m' mbegin 0 (l ++ (s, fr) :: (sz - s - 20, true) :: r) 0 ∧
      only_headers (l ++ (sz, fr) :: r) (l ++ (s, fr) :: (sz - s - 20, true) :: r) (hmem h) m')); [by apply heap_mapped| |].
    + eapply mwp_split; [by apply heap_at|apply Hok|lia|done|lia|]. done.
    + intros [] m' [Hs' Ho]. apply (HQ _ s ((sz - s - 20, true) :: r)); [|lia|apply live_split|done].
      apply (heap_mem h (l ++ (sz, fr) :: r)); [done|done| |apply nonempty_app].
      rewrite !span_app, !span_cons. cbn [fst]. lia.
  - apply wp_ret, (HQ h sz r); [done|lia|done|]. intros a _ _. done.
Qed.

(** The block at [p] is now [sz'] bytes at [p'], with its data, and nothing else has
    changed. *)
Record moved (h h' : heap) (bs bs' : list blk) (p sz p' sz' : Z) : Prop := {
  mv_ok : heap_ok h' bs';
  mv_live : ∀ rest, live bs ≡ₚ (p, sz) :: rest → live bs' ≡ₚ (p', sz') :: rest;
  mv_rest : ∀ rest, live bs ≡ₚ (p, sz) :: rest → same_data (hmem h) (hmem h') rest;
  mv_data : ∀ k, 0 ≤ k < Z.min sz sz' → k mod 4 = 0 → hmem h' (p' + k) = hmem h (p + k)
}.

Lemma heap_fits h bs : heap_ok h bs → Forall fits bs.
Proof. intros H. eapply seg_fits, H. Qed.

Lemma resized_here h h' l sz r sz' r' :
  heap_ok h (l ++ (sz, false) :: r) → heap_ok h' (l ++ (sz', false) :: r') →
  live (l ++ (sz', true) :: r') = live (l ++ (sz, true) :: r) →
  only_headers (l ++ (sz, false) :: r) (l ++ (sz', false) :: r') (hmem h) (hmem h') →
  moved h h' (l ++ (sz, false) :: r) (l ++ (sz', false) :: r') (mbegin + span l + 20) sz (mbegin + span l + 20) sz'.
Proof.
  intros Hok Hok' El Ho. pose proof (heap_fits _ _ Hok) as F. pose proof (heap_fits _ _ Hok') as F'.
  assert (∀ rest, live (l ++ (sz, false) :: r) ≡ₚ (mbegin + span l + 20, sz) :: rest →
    live (l ++ (sz, true) :: r) ≡ₚ rest) as Hrest.
  { intros rest E. rewrite (live_used l sz false r) in E. cbn [app] in E. by apply Permutation.Permutation_cons_inv in E. }
  split; [done| | |].
  - intros rest E. rewrite (live_used l sz' false r'). cbn [app]. by rewrite El, (Hrest rest E).
  - intros rest E. eapply headers_data; [exact F|exact F'|exact Ho|]. intros x Hx. rewrite <- (Hrest rest E) in Hx. split.
    + rewrite (live_used l sz false r). by right.
    + rewrite (live_used l sz' false r'). right. by rewrite El.
  - intros k Hk _. apply Ho.
    + apply (data_no_header _ l sz false r); [done|done|lia].
    + apply (data_no_header _ l sz' false r'); [done|done|lia].
Qed.

(** A block in use, by its address. *)
Lemma live_at bs p sz : (p, sz) ∈ live bs → ∃ l r, bs = l ++ (sz, false) :: r ∧ p = mbegin + span l + 20.
Proof. intros H. by apply live_elem in H. Qed.

(** [copy_block] from one block in use to another. *)
Lemma wp_copy_block (Q : unit → heap → Prop) fuel h bs p sz q sz1 :
  heap_ok h bs → (p, sz) ∈ live bs → (q, sz1) ∈ live bs → p ≠ q → sz ≤ sz1 → sz / 4 ≤ Z.of_nat fuel →
  (∀ h', heap_ok h' bs → (∀ a, ¬ (q ≤ a < q + sz) → hmem h' a = hmem h a) →
     (∀ k, 0 ≤ k < sz → k mod 4 = 0 → hmem h' (q + k) = hmem h (p + k)) → Q tt h') →
  wpr (copy_block fuel (p - 20) (q - 20)) Q h.
Proof.
  intros Hok Hp Hq Hne Hle Hf HQ. pose proof (heap_fits _ _ Hok) as F.
  pose proof (live_apart bs p sz q sz1 F Hp Hq Hne) as Hap.
  destruct (live_at _ _ _ Hp) as (l & r & E & Ep), (live_at _ _ _ Hq) as (l1 & r1 & E1 & Eq).
  pose proof Hok as Hok1. rewrite E in Hok1. pose proof Hok as Hok2. rewrite E1 in Hok2.
  pose proof (heap_at _ _ _ _ Hok1) as A. pose proof (heap_at _ _ _ _ Hok2) as B. rewrite <- E in A. rewrite <- E1 in B.
  pose proof (ab_pos _ _ _ _ _ A) as (A1 & A2 & A3 & A4 & A5). pose proof (ab_end _ _ _ _ _ A) as A6.
  pose proof (ab_pos _ _ _ _ _ B) as (B1 & B2 & B3 & B4 & B5). pose proof (ab_end _ _ _ _ _ B) as B6. cbn [fst] in *.
  replace (p - 20) with (mbegin + span l) by lia. replace (q - 20) with (mbegin + span l1) by lia.
  destruct (ab_hdr _ _ _ _ _ A) as [H1 _ _ _ H5 _], (ab_hdr _ _ _ _ _ B) as [N1 _ _ _ N5 _]. cbn [fst] in *.
  apply (mwp_run (mbegin + span bs) _ (λ _ m', (∀ a, ¬ (q ≤ a < q + sz) → m' a = hmem h a) ∧
    (∀ j, 0 ≤ j < sz / 4 → m' (q + 4 * j) = hmem h (p + 4 * j)))); [by apply heap_mapped| |].
  - unfold copy_block, b_ptr. apply mwp_bind, mwp_ld; [consts; lia|consts; dlia|]. rewrite H5, <- Ep.
    apply mwp_bind, mwp_ld; [consts; lia|consts; dlia|]. rewrite N5, <- Eq.
    apply (mwp_copy_words _ _ p q sz sz1 _ (hmem h) (Z.to_nat (sz / 4))); try done; try (consts; lia); try (consts; dlia).
  - intros [] m' [M1 M2]. apply HQ; [|done|].
    + apply (heap_data h bs); [done|]. intros a Ha. apply M1. intros Hin. revert Ha.
      apply (data_no_header bs l1 sz1 false r1); [done|done|lia].
    + intros k Hk Hk4. cbn [hmem set_hmem]. replace k with (4 * (k / 4)) by dlia. apply M2. dlia.
Qed.

(** The case in which the block moves. *)
Lemma wp_realloc_move (Q : Z → heap → Prop) fuel h bs p sz s :
  heap_ok h bs → (p, sz) ∈ live bs → 0 < sz < s → s mod 4 = 0 → s < MAXMALLOC → (length bs ≤ fuel)%nat →
  sz / 4 ≤ Z.of_nat fuel → mbegin + span bs + 20 + s ≤ mend →
  (∀ h' bs' p' sz', moved h h' bs bs' p sz p' sz' → s ≤ sz' → Q p' h') →
  wpr (let* newp := malloc fuel s in
       if newp =? 0 then ret 0 else
       do* copy_block fuel (p - 20) (get_block newp) in
       do* free p in
       ret newp) Q h.
Proof.
  intros Hok Hp Hsz Hs4 Hmax Hf1 Hf2 Hroom HQ. change MAXMALLOC with 1048576 in *.
  pose proof (align4_eq s ltac:(lia)) as Ea. replace ((s + 3) / 4 * 4) with s in Ea by dlia.
  apply wp_bind, (wp_malloc _ fuel h bs s); [done|change MAXMALLOC with 1048576; lia|done|by rewrite Ea|].
  intros h1 q sz1. generalize (take_fit bs (align4 s)) as bs1. intros bs1 [Hok1 El1 Ho1] Hs1 Hq0. rewrite (proj2 (Z.eqb_neq q 0)) by done.
  pose proof (heap_fits _ _ Hok) as F. pose proof (heap_fits _ _ Hok1) as F1.
  assert ((q, sz1) ∈ live bs1) as Hq by (rewrite El1; left).
  assert ((p, sz) ∈ live bs1) as Hp1 by (rewrite El1; by right).
  assert (p ≠ q) as Hne by (eapply live_rest; [exact F1|exact El1|exact Hp]).
  destruct (live_at _ _ _ Hq) as (lq & rq & Eq & Eaq). pose proof Hok1 as Hokq. rewrite Eq in Hokq.
  rewrite Eaq at 1. rewrite (block_of_ptr _ _ _ _ Hokq). replace (mbegin + span lq) with (q - 20) by lia.
  apply wp_bind, (wp_copy_block _ fuel h1 bs1 p sz q sz1); try done; [lia|]. intros h2 Hok2 M1 M2.
  destruct (live_at _ _ _ Hp1) as (lp & rp & Ep & Eap). rewrite Ep in Hok2. rewrite Eap at 1.
  assert (0 ≤ span rp) by (pose proof (heap_place _ _ _ _ Hok2); tauto).
  apply wp_bind, (wp_free _ h2 lp sz rp); [done|lia|]. intros h3. generalize (free_blocks lp sz rp) as bs3. intros bs3 Hok3 El3 W3 _. apply wp_ret, (HQ h3 bs3 q sz1); [|done].
  rewrite <- Ep, <- Eap in *. rewrite El1 in El3.
  assert (∀ rest, live bs ≡ₚ (p, sz) :: rest → live bs3 ≡ₚ (q, sz1) :: rest) as Hlive.
  { intros rest E. rewrite E in El3. apply (Permutation.Permutation_cons_inv (a := (p, sz))). rewrite <- El3. by constructor. }
  split; [done|done| |].
  - intros rest E x t Hx k Hk. assert ((x, t) ∈ live bs) as Hx0 by (rewrite E; by right).
    assert ((x, t) ∈ live bs1) as Hx1 by (rewrite El1; by right).
    destruct (live_at _ _ _ Hx1) as (lx & rx & Ex & Eax).
    rewrite W3 by (apply (data_no_header bs1 lx t false rx); [done|done|lia]).
    assert (x ≠ q) as Hxq by (eapply live_rest; [exact F1|exact El1|exact Hx0]).
    rewrite M1 by (pose proof (live_apart bs1 x t q sz1 F1 Hx1 Hq Hxq); lia).
    apply (headers_data bs bs1 (hmem h) (hmem h1) (live bs) F F1 Ho1) with t; [|done|done].
    intros y Hy. split; [done|]. rewrite El1. by right.
  - intros k Hk Hk4. rewrite W3 by (apply (data_no_header bs1 lq sz1 false rq); [done|done|lia]).
    rewrite M2 by lia. apply (headers_data bs bs1 (hmem h) (hmem h1) (live bs) F F1 Ho1) with sz; [|done|lia].
    intros y Hy. split; [done|]. rewrite El1. by right.
Qed.

Lemma moved_trans h h1 h2 bs bs1 bs2 p sz p1 sz1 p2 sz2 :
  moved h h1 bs bs1 p sz p1 sz1 → moved h1 h2 bs1 bs2 p1 sz1 p2 sz2 → sz ≤ sz1 → moved h h2 bs bs2 p sz p2 sz2.
Proof.
  intros [A1 A2 A3 A4] [B1 B2 B3 B4] Hle. split; [done|auto| |].
  - intros rest E q t Hq k Hk. rewrite (B3 rest (A2 rest E) q t) by done. by apply (A3 rest E q t).
  - intros k Hk Hk4. rewrite B4 by (done || lia). apply A4; [lia|done].
Qed.

(** Growing into the free block that follows. *)
Lemma live_grow l sz nsz r : live (l ++ (sz + (20 + nsz), true) :: r) = live (l ++ (sz, true) :: (nsz, true) :: r).
Proof. exact (live_merge l sz ((nsz, true) :: r)). Qed.

Lemma wp_realloc (Q : Z → heap → Prop) fuel h bs p sz size :
  heap_ok h bs → (p, sz) ∈ live bs → 0 < sz → 0 ≤ size ≤ MAXMALLOC - 4 → (length bs ≤ fuel)%nat →
  sz / 4 ≤ Z.of_nat fuel → mbegin + span bs + 20 + align4 size ≤ mend →
  (∀ h' bs' p' sz', moved h h' bs bs' p sz p' sz' → size ≤ sz' → Q p' h') →
  wpr (realloc fuel p size) Q h.
Proof.
  intros Hok Hp Hsz Hsize Hf1 Hf2 Hroom HQ. change MAXMALLOC with 1048576 in *.
  pose proof (align4_eq size ltac:(lia)) as Es. remember (align4 size) as s eqn:Eas.
  assert (size ≤ s < 1048576 ∧ s mod 4 = 0) as [S1 S2] by dlia. clear Es.
  destruct (live_at _ _ _ Hp) as (l & r & E & Ep). pose proof Hok as Hok'. rewrite E in Hok'.
  pose proof (heap_place _ _ _ _ Hok') as (P1 & P2 & P3 & P4 & P5 & P6). cbn [fst] in *.
  pose proof (heap_at _ _ _ _ Hok') as Hb. destruct (ab_hdr _ _ _ _ _ Hb) as [H1 H2 H3 H4 H5 H6]. cbn [fst snd] in *.
  pose proof (hdr_word h l (sz, false) r 0 Hok' ltac:(lia) ltac:(done)) as W0. rewrite Z.add_0_r in W0.
  unfold realloc. rewrite (proj2 (Z.eqb_neq p 0)) by (consts; lia). rewrite Ep at 1.
  apply wp_bind, (wp_valid_addr _ _ l (sz, false) r); [done|cbn; lia|]. rewrite <- ?Ep. cbv zeta. rewrite <- Eas.
  assert (get_block p = mbegin + span l) as -> by (rewrite Ep; by eapply block_of_ptr).
  unfold b_size. apply wp_bind, wp_ld; [done|]. rewrite H1.
  destruct (Z.leb_spec s sz) as [Hle|Hgt].
  { apply wp_bind, (wp_shrink _ h l sz false r s); [done|lia|done|]. intros h1 sz1 r1 Hok1 Hs1 El Ho. apply wp_ret.
    apply (HQ h1 (l ++ (sz1, false) :: r1) p sz1); [|lia]. rewrite E, Ep. by apply resized_here. }
  assert (wpr (let* newp := malloc fuel s in
    if newp =? 0 then ret 0 else do* copy_block fuel (mbegin + span l) (get_block newp) in do* free p in ret newp) Q h) as Hmove.
  { replace (mbegin + span l) with (p - 20) by lia.
    apply (wp_realloc_move _ fuel h bs p sz s); try done; [change MAXMALLOC with 1048576; lia|].
    intros h' bs' p' sz' Hm Hs'. apply (HQ h' bs' p' sz' Hm). lia. }
  unfold b_next, b_free. apply wp_bind, wp_ld; [by apply hdr_word with (sz, false) r|]. rewrite H3.
  destruct r as [|[nsz nfr] r]; [change (ctrue 0) with false; cbv iota; by apply wp_bind, wp_ret|].
  assert (ctrue (mbegin + span l + 20 + sz) = true) as -> by (apply ctrue_true; consts; lia).
  destruct (ab_right _ _ _ _ _ Hb) as [[N1 N2 N3 N4 N5 N6] _]. cbn [fst snd] in *.
  pose proof (span_cons_ge _ _ (ab_rfits _ _ _ _ _ Hb)) as (P7 & P8 & P9). cbn [fst] in *.
  assert (l ++ (sz, false) :: (nsz, nfr) :: r = (l ++ [(sz, false)]) ++ (nsz, nfr) :: r) as Eapp by (by rewrite <- app_assoc).
  assert (mbegin + span l + 20 + sz = mbegin + span (l ++ [(sz, false)])) as Eadr by (rewrite span_app; cbn; lia).
  assert (∀ k, 0 ≤ k < 20 → k mod 4 = 0 → word_ok h (mbegin + span l + 20 + sz + k) = true) as Hw.
  { intros k Hk Hk4. rewrite Eadr. apply hdr_word with (nsz, nfr) r; [by rewrite <- Eapp|done|done]. }
  pose proof (Hw 0 ltac:(lia) ltac:(done)) as W1. rewrite Z.add_0_r in W1.
  apply wp_bind, wp_bind, wp_ld; [by apply Hw|]. rewrite N4. destruct nfr; cbn [bword]; [|by apply wp_ret].
  change (ctrue 1) with true. cbv iota. apply wp_bind, wp_ld; [done|]. rewrite N1. apply wp_ret.
  change BLOCK_SIZE with 20. rewrite u32_small by (unfold is_u32; consts; lia).
  destruct (Z.leb_spec s (sz + 20 + nsz)) as [Hfit|_]; [|done].
  apply wp_bind, (wp_fusion _ h l (sz, false) ((nsz, true) :: r)); [done|]. cbn [merge fst snd]. intros h1 Hok1 W.
  assert (moved h h1 bs (l ++ (sz + (20 + nsz), false) :: r) p sz p (sz + (20 + nsz))) as Hm1.
  { rewrite E, Ep. apply resized_here; [done|done|apply live_grow|by apply within_only]. }
  apply wp_bind, wp_ld; [pose proof (hdr_word h1 l _ r 0 Hok1 ltac:(lia) ltac:(done)) as W2; by rewrite Z.add_0_r in W2|].
  rewrite (hd_size _ _ _ _ _ (ab_hdr _ _ _ _ _ (heap_at _ _ _ _ Hok1))). cbn [fst].
  apply wp_bind, (wp_shrink _ h1 l _ false r s); [done|lia|done|]. intros h2 sz2 r2 Hok2 Hs2 El2 Ho2. apply wp_ret.
  apply (HQ h2 (l ++ (sz2, false) :: r2) p sz2); [|lia]. eapply moved_trans; [exact Hm1| |lia].
  rewrite Ep. by apply resized_here.
Qed.

(** ** [calloc] *)
Lemma mwp_zero_words q e m0 : ∀ (n : nat) i m Q,
  mbegin ≤ q → q mod 4 = 0 → 0 ≤ i → q + 4 * (i + Z.of_nat n) ≤ e →
  (∀ a, ¬ (q ≤ a < q + 4 * i) → m a = m0 a) → (∀ j, 0 ≤ j < i → m (q + 4 * j) = 0) →
  (∀ m', (∀ a, ¬ (q ≤ a < q + 4 * (i + Z.of_nat n)) → m' a = m0 a) →
     (∀ j, 0 ≤ j < i + Z.of_nat n → m' (q + 4 * j) = 0) → Q tt m') →
  mwp e (for_up n i (λ i, st (q + 4 * i) 0)) Q m.
Proof.
  induction n as [|n IH]; intros i m Q Hq Hq4 Hi He Hm Hz HQ; cbn [for_up].
  { apply mwp_ret, HQ; by rewrite Z.add_0_r. }
  apply mwp_bind, mwp_st; [lia|dlia|]. apply IH; try done; try lia.
  - intros a Ha. rewrite upd_ne by lia. apply Hm. lia.
  - intros j Hj. destruct (decide (j = i)) as [->|]; [by rewrite upd_eq|]. rewrite upd_ne by lia. apply Hz. lia.
  - intros m' H1 H2. apply HQ; [intros a Ha; apply H1; lia|intros j Hj; apply H2; lia].
Qed.

Lemma wp_calloc (Q : Z → heap → Prop) fuel h bs nmemb size :
  heap_ok h bs → 0 ≤ nmemb * size < MAXMALLOC → (length bs ≤ fuel)%nat →
  mbegin + span bs + 20 + align4 (nmemb * size) ≤ mend →
  (∀ h' bs' p sz, heap_ok h' bs' → live bs' ≡ₚ (p, sz) :: live bs → same_data (hmem h) (hmem h') (live bs) →
     nmemb * size ≤ sz → (∀ k, 0 ≤ k < nmemb * size → k mod 4 = 0 → hmem h' (p + k) = 0) → Q p h') →
  wpr (calloc fuel nmemb size) Q h.
Proof.
  intros Hok Hn Hf Hroom HQ. change MAXMALLOC with 1048576 in *. unfold calloc.
  rewrite (u32_small (nmemb * size)) by (unfold is_u32; lia). remember (nmemb * size) as n eqn:En.
  pose proof (align4_eq n ltac:(lia)) as Ea.
  apply wp_bind, (wp_malloc _ fuel h bs n); [done|done|done|done|]. intros h1 q sz1. generalize (take_fit bs (align4 n)) as bs1.
  intros bs1 [Hok1 El1 Ho1] Hs1 Hq0.
  assert (ctrue q = true) as -> by (by apply ctrue_true).
  assert ((q, sz1) ∈ live bs1) as Hq by (rewrite El1; left). pose proof (heap_fits _ _ Hok) as F. pose proof (heap_fits _ _ Hok1) as F1.
  destruct (live_at _ _ _ Hq) as (l & r & E & Eq). pose proof Hok1 as Hokq. rewrite E in Hokq.
  pose proof (heap_at _ _ _ _ Hokq) as A. rewrite <- E in A. pose proof (ab_pos _ _ _ _ _ A) as (A1 & A2 & A3 & A4 & A5).
  pose proof (ab_end _ _ _ _ _ A) as A6. cbn [fst] in *.
  rewrite Ea, Z.shiftr_div_pow2 by lia. change (2 ^ 2) with 4. rewrite Z.div_mul by lia.
  apply wp_bind, (mwp_run (mbegin + span bs1) _ (λ _ m', (∀ a, ¬ (q ≤ a < q + sz1) → m' a = hmem h1 a) ∧
    (∀ j, 0 ≤ j < (n + 3) / 4 → m' (q + 4 * j) = 0))); [by apply heap_mapped| |].
  - apply (mwp_zero_words q _ (hmem h1)); [consts; lia|consts; dlia|lia|dlia|done|lia|]. intros m' H1 H2. split.
    + intros a Ha. apply H1. dlia.
    + intros j Hj. apply H2. lia.
  - intros [] m' [H1 H2]. apply wp_ret, (HQ _ bs1 q sz1); [|done| |done|].
    + apply (heap_data h1 bs1); [done|]. intros a Ha. apply H1. intros Hin. revert Ha.
      apply (data_no_header bs1 l sz1 false r); [done|done|lia].
    + intros x t Hx k Hk. cbn [hmem set_hmem]. assert ((x, t) ∈ live bs1) as Hx1 by (rewrite El1; by right).
      assert (x ≠ q) as Hne by (eapply live_rest; [exact F1|exact El1|exact Hx]).
      rewrite H1 by (pose proof (live_apart bs1 x t q sz1 F1 Hx1 Hq Hne); lia).
      apply (headers_data bs bs1 (hmem h) (hmem h1) (live bs) F F1 Ho1) with t; [|done|done].
      intros y Hy. split; [done|]. rewrite El1. by right.
    + intros k Hk Hk4. cbn [hmem set_hmem]. replace k with (4 * (k / 4)) by dlia. apply H2. dlia.
Qed.
