(* ===== verification/MallocProps.v ===== *)
(** * Properties of the heap *)

From stdpp Require Import base gmap list strings.
From Stdlib Require Import ZArith Lia.
From S2P Require Import Prelude Mmu Malloc MallocInv.

Set Default Proof Using "Type".

(** ** Heaps for the examples *)

(** Before the first [malloc]. *)
Definition fresh_heap : heap := MkHeap (λ _, 0) (λ _, false) [] 0 0.

Lemma fresh_ok : heap_ok fresh_heap [].
Proof. split; try done; [by right|]. cbn. intros a Ha. lia. Qed.

Definition run_heap {A} (c : M heap A) (h : heap) : heap := match c h with Ret _ h' => h' | _ => h end.
Definition run_result {A} (d : A) (c : M heap A) (h : heap) : A := match c h with Ret a _ => a | _ => d end.

(** ** A program that uses the heap *)

(** Calls from the first one on, and stores into the blocks; [l] holds the allocations in
    use and the sizes asked for.  The break leaves room for what is asked for, and the
    kernel gives every page asked for.  [re] tells whether the program calls [realloc]. *)
Inductive trace (re : bool) (fuel : nat) : heap → gmap Z Z → Prop :=
  | trace_start m pg : trace re fuel (MkHeap m pg [] 0 0) ∅
  | trace_malloc h l n p h' : trace re fuel h l → 0 ≤ n < MAXMALLOC → heap_break h + 20 + align4 n ≤ mend →
      malloc fuel n h = Ret p h' → trace re fuel h' (<[p := n]> l)
  | trace_free h l p n h' : trace re fuel h l → l !! p = Some n → 0 < n → free p h = Ret tt h' → trace re fuel h' (delete p l)
  | trace_realloc h l p n m p' h' : re = true → trace re fuel h l → l !! p = Some n → 0 < n → 0 ≤ m ≤ MAXMALLOC - 4 →
      heap_break h + 20 + align4 m ≤ mend → realloc fuel p m h = Ret p' h' → trace re fuel h' (<[p' := m]> (delete p l))
  | trace_store h l p n k v : trace re fuel h l → l !! p = Some n → 0 ≤ k < n → trace re fuel (set_hmem (upd (hmem h) (p + k) v) h) l.

(** The blocks in use are the allocations, and hold what was asked for. *)
Record tracks (l : gmap Z Z) (bs : list blk) : Prop := {
  tk_block p n : l !! p = Some n → ∃ sz, (p, sz) ∈ live bs ∧ 0 ≤ n ≤ sz;
  tk_live p sz : (p, sz) ∈ live bs → is_Some (l !! p) }.

Definition data_kept (l : gmap Z Z) (h h' : heap) : Prop := ∀ q m k, l !! q = Some m → 0 ≤ k < m → hmem h' (q + k) = hmem h (q + k).

Lemma fresh_start m pg : heap_ok (MkHeap m pg [] 0 0) [].
Proof. split; try done; [by right|]. cbn. intros a Ha. lia. Qed.

Lemma room_left h bs n : heap_ok h bs → 0 ≤ n < MAXMALLOC → heap_break h + 20 + align4 n ≤ mend → mbegin + span bs + 20 + align4 n ≤ mend.
Proof.
  intros Hok Hn Hr. destruct (ho_break _ _ Hok) as [E|[_ ->]]; [by rewrite <- E|]. change MAXMALLOC with 1048576 in *.
  rewrite (align4_eq n) by lia. consts. cbn. dlia.
Qed.

Lemma length_span bs : Forall fits bs → 20 * Z.of_nat (length bs) ≤ span bs.
Proof. induction 1 as [|x bs [Hx _] _ IH]; [done|]. rewrite span_cons. cbn [length]. lia. Qed.

Lemma fuel_ok fuel h bs : (mend - mbegin) / 4 ≤ Z.of_nat fuel → heap_ok h bs → (length bs ≤ fuel)%nat.
Proof.
  intros Hf Hok. pose proof (length_span _ (heap_fits _ _ Hok)). pose proof (ho_room _ _ Hok). consts. change ((268435456 - 134217728) / 4) with 33554432 in Hf. lia.
Qed.

Lemma live_place h bs p sz : heap_ok h bs → (p, sz) ∈ live bs →
  p mod 4 = 0 ∧ mbegin + 20 ≤ p ∧ 0 ≤ sz ∧ p + sz ≤ heap_break h ∧ heap_break h ≤ mend ∧ p + sz ≤ mbegin + span bs.
Proof.
  intros Hok (l & r & E & Ep)%live_elem. rewrite E in Hok. pose proof (heap_place _ _ _ _ Hok) as (P1 & P2 & P3 & P4 & P5 & _). cbn [fst] in *.
  pose proof (heap_fits _ _ Hok) as F. apply Forall_app in F as [F _]. pose proof (span_mod _ F). subst bs p. rewrite span_app, span_cons. cbn [fst].
  rewrite P5. consts. split_and!; try lia. dlia.
Qed.

Lemma tracks_new l bs bs' p n sz : tracks l bs → live bs' ≡ₚ (p, sz) :: live bs → 0 ≤ n ≤ sz → tracks (<[p := n]> l) bs'.
Proof.
  intros [T1 T2] E Hn. split.
  - intros q m [(-> & ->)|(Hne & Hq)]%lookup_insert_Some; [exists sz; by rewrite E; split; [left|]|].
    destruct (T1 q m Hq) as (t & Ht & Hm). exists t. rewrite E. split; [by right|done].
  - intros q t. rewrite E. intros [[= -> ->]|Hq]%elem_of_cons; [by rewrite lookup_insert_eq|]. destruct (decide (p = q)) as [->|Hne]; [by rewrite lookup_insert_eq|].
    rewrite lookup_insert_ne by done. by apply (T2 q t).
Qed.

Lemma tracks_free l bs bs' p sz : Forall fits bs → tracks l bs → live bs ≡ₚ (p, sz) :: live bs' → tracks (delete p l) bs'.
Proof.
  intros F [T1 T2] E. split.
  - intros q m [Hne Hq]%lookup_delete_Some. destruct (T1 q m Hq) as (t & Ht & Hm). exists t. rewrite E in Ht. apply elem_of_cons in Ht as [[= -> ->]|Ht]; [done|by split].
  - intros q t Hq. assert (q ≠ p) by (eapply live_rest; [exact F|exact E|exact Hq]). rewrite lookup_delete_ne by done. apply (T2 q t). rewrite E. by right.
Qed.

Lemma data_kept_live l bs m m' h h' : tracks l bs → hmem h = m → hmem h' = m' → same_data m m' (live bs) → data_kept l h h'.
Proof. intros [T1 _] <- <- Hs q n k Hq Hk. destruct (T1 q n Hq) as (t & Ht & Hn). apply (Hs q t Ht). lia. Qed.

(** What one call of [malloc] does, on the list of blocks. *)
Lemma malloc_step fuel h bs n :
  heap_ok h bs → 0 ≤ n < MAXMALLOC → (length bs ≤ fuel)%nat → mbegin + span bs + 20 + align4 n ≤ mend →
  ∃ p sz h', malloc fuel n h = Ret p h' ∧ p ≠ 0 ∧ n ≤ sz ∧ heap_ok h' (take_fit bs (align4 n)) ∧
    live (take_fit bs (align4 n)) ≡ₚ (p, sz) :: live bs ∧ same_data (hmem h) (hmem h') (live bs).
Proof.
  intros Hok Hn Hf Hroom.
  destruct (wpr_inv (malloc fuel n) (λ p h', ∃ sz, allocated h h' bs (take_fit bs (align4 n)) p sz ∧ n ≤ sz ∧ p ≠ 0) h)
    as (p & h' & E & sz & [H1 H2 H3] & Hsz & Hp).
  { apply (wp_malloc _ fuel h bs n); try done. intros h' p sz Ha Hsz Hp. by exists sz. }
  exists p, sz, h'. do 5 (split; [done|]). apply (headers_data bs (take_fit bs (align4 n))); [by eapply heap_fits|by eapply heap_fits|done|].
  intros x Hx. split; [done|]. rewrite H2. by right.
Qed.

(** ... and one call of [free]. *)
Lemma free_step h l sz r : heap_ok h (l ++ (sz, false) :: r) → mbegin + span l + 20 < heap_break h →
  ∃ h', free (mbegin + span l + 20) h = Ret tt h' ∧ heap_ok h' (free_blocks l sz r) ∧
    live (l ++ (sz, false) :: r) ≡ₚ (mbegin + span l + 20, sz) :: live (free_blocks l sz r) ∧
    same_data (hmem h) (hmem h') (live (free_blocks l sz r)) ∧ given_back h h'.
Proof.
  intros Hok Hbr. pose proof (heap_place _ _ _ _ Hok) as (P1 & P2 & P3 & P4 & P5 & _). cbn [fst] in *.
  destruct (wpr_inv (free (mbegin + span l + 20)) (λ _ h', heap_ok h' (free_blocks l sz r) ∧
    live (l ++ (sz, false) :: r) ≡ₚ (mbegin + span l + 20, sz) :: live (free_blocks l sz r) ∧
    within (l ++ (sz, false) :: r) (hmem h) (hmem h') ∧ given_back h h') h) as ([] & h' & Ef & H1 & H2 & H3 & H4).
  { apply (wp_free _ h l sz r); [done|lia|]. intros h' A1 A2 A3 A4. done. }
  exists h'. do 3 (split; [done|]). split; [|done].
  apply (headers_data (l ++ (sz, false) :: r) (free_blocks l sz r)); [by eapply heap_fits|by eapply heap_fits|by apply within_only|].
  intros x Hx. split; [|done]. rewrite H2. by right.
Qed.

Lemma tight_app l r : tight (l ++ r) → tight r.
Proof. induction l as [|[sz fr] l IH]; [done|]. intros [_ H]. by apply IH. Qed.

Lemma tight_cat l r : tight l → tight r → tight (l ++ r).
Proof.
  intros Hl Hr. induction l as [|[s f] l IH]; [done|]. destruct Hl as [H1 H2]. split; [|by apply IH]. intros E. specialize (H1 E). by destruct l as [|[? [|]] l].
Qed.

Lemma tight_pre l x r : tight (l ++ x :: r) → match last l with Some (_, true) => False | _ => True end → tight l.
Proof.
  induction l as [|[s f] l IH]; [done|]. intros [H1 H2] Hl. destruct l as [|y l]; [destruct f; by cbn in Hl|]. rewrite last_cons_cons in Hl. split; [|by apply IH]. exact H1.
Qed.

Lemma join_tight l sz r : tight l → tight r → tight (join_end l sz r).
Proof.
  intros Hl Hr. destruct r as [|[n [|]] r]; cbn [join_end merge fst snd]; [done| |].
  - destruct Hr as [H1 H2]. apply tight_cat; [done|]. split; [|done]. intros _. exact (H1 eq_refl).
  - apply tight_cat; [done|]. by split.
Qed.

(** [free] keeps the heap tight: it leaves no two free blocks in a row, nor one at the end. *)
Lemma free_tight l sz r : tight (l ++ (sz, false) :: r) → tight (free_blocks l sz r).
Proof.
  intros H. assert (tight r) as Hr by (apply tight_app in H as [_ H]; exact H). unfold free_blocks.
  destruct l as [|[psz pfr] l0 _] using rev_ind; [by apply (join_tight [])|]. rewrite last_snoc. destruct pfr.
  - rewrite removelast_last. apply join_tight; [|done]. rewrite <- app_assoc in H. apply (tight_pre _ _ _ H).
    destruct l0 as [|[a [|]] l1 _] using rev_ind; [done| |by rewrite last_snoc]. rewrite <- app_assoc in H. apply tight_app in H as [H _]. destruct (H eq_refl).
  - apply join_tight; [|done]. apply (tight_pre _ _ _ H). by rewrite last_snoc.
Qed.

(** ** The heap along a program *)
Lemma free_live h bs l p n : heap_ok h bs → tracks l bs → l !! p = Some n → 0 < n →
  ∃ h' bs', free p h = Ret tt h' ∧ heap_ok h' bs' ∧ tracks (delete p l) bs' ∧ data_kept (delete p l) h h' ∧ (tight bs → tight bs').
Proof.
  intros Hok T Hp Hn. destruct (tk_block _ _ T p n Hp) as (sz & Hl & Hsz). pose proof (live_place _ _ _ _ Hok Hl) as (_ & _ & _ & Hb & _).
  destruct (live_at _ _ _ Hl) as (a & b & E & Ep). pose proof Hok as Hok'. rewrite E in Hok'.
  destruct (free_step h a sz b Hok') as (h' & Ef & H1 & H2 & H3 & _); [lia|]. rewrite <- Ep in Ef, H2. rewrite <- E in H2.
  assert (tracks (delete p l) (free_blocks a sz b)) as T' by (eapply tracks_free; [exact (heap_fits _ _ Hok)|exact T|exact H2]).
  exists h', (free_blocks a sz b). do 3 (split; [done|]). split; [by eapply data_kept_live|]. rewrite E. apply free_tight.
Qed.

Section traces.
Context (re : bool) (fuel : nat) (Hfuel : (mend - mbegin) / 4 ≤ Z.of_nat fuel).

Lemma malloc_live h bs l n : heap_ok h bs → tracks l bs → 0 ≤ n < MAXMALLOC → heap_break h + 20 + align4 n ≤ mend →
  ∃ p h' bs', malloc fuel n h = Ret p h' ∧ p ≠ 0 ∧ l !! p = None ∧ heap_ok h' bs' ∧ tracks (<[p := n]> l) bs' ∧ data_kept l h h' ∧ (tight bs → tight bs').
Proof using Hfuel.
  intros Hok T Hn Hr. destruct (malloc_step fuel h bs n Hok Hn (fuel_ok _ _ _ Hfuel Hok) (room_left _ _ _ Hok Hn Hr)) as (p & sz & h' & E & Hp & Hsz & H1 & H2 & H3).
  exists p, h', (take_fit bs (align4 n)). do 2 (split; [done|]). split.
  { destruct (l !! p) as [m|] eqn:Hm; [|done]. destruct (tk_block _ _ T p m Hm) as (t & Ht & _). pose proof (live_rest _ _ _ _ p t (heap_fits _ _ H1) H2 Ht). done. }
  split; [done|]. split; [eapply tracks_new; [done|done|lia]|]. split; [by eapply data_kept_live|apply take_fit_tight].
Qed.

Lemma trace_ok h l : trace re fuel h l → ∃ bs, heap_ok h bs ∧ tracks l bs ∧ (re = false → tight bs).
Proof using Hfuel.
  induction 1 as [m pg|h l n p h' _ (bs & Hok & T & Ht) Hn Hr E|h l p n h' _ (bs & Hok & T & Ht) Hl Hn E|h l p n m p' h' Hre _ (bs & Hok & T & Ht) Hl Hn Hm Hr E|h l p n k v _ (bs & Hok & T & Ht) Hl Hk].
  - exists []. split; [apply fresh_start|]. split; [|done]. split; [done|]. by intros p sz ?%not_elem_of_nil.
  - destruct (malloc_live h bs l n Hok T Hn Hr) as (q & h2 & bs' & E2 & _ & _ & H1 & H2 & _ & H4). rewrite E in E2. injection E2 as -> ->. exists bs'. split_and!; [done|done|auto].
  - destruct (free_live h bs l p n Hok T Hl Hn) as (h2 & bs' & E2 & H1 & H2 & _ & H4). rewrite E in E2. injection E2 as ->. exists bs'. split_and!; [done|done|auto].
  - destruct (tk_block _ _ T p n Hl) as (sz & Hs & Hsz). pose proof (live_place _ _ _ _ Hok Hs) as (_ & P2 & P3 & P4 & P5 & _).
    assert (∃ rest, live bs ≡ₚ (p, sz) :: rest) as [rest Er] by (apply elem_of_Permutation; exact Hs).
    assert (0 ≤ m < MAXMALLOC) as Hm' by (change MAXMALLOC with 1048576 in *; lia).
    destruct (wpr_inv (realloc fuel p m) (λ p' h', ∃ bs' sz', moved h h' bs bs' p sz p' sz' ∧ m ≤ sz') h) as (q & h2 & E2 & bs' & sz' & [M1 M2 _ _] & Hs').
    { apply (wp_realloc _ fuel h bs p sz m); try done; [lia|by apply fuel_ok with h| |by apply room_left with h|by intros h2 bs' q sz' Hmv ?; exists bs', sz'].
      consts. change ((268435456 - 134217728) / 4) with 33554432 in Hfuel. dlia. }
    rewrite E in E2. injection E2 as -> ->. exists bs'. split; [done|]. split; [|by rewrite Hre].
    pose proof (heap_fits _ _ Hok) as F. pose proof (M2 rest Er) as Er'. pose proof (heap_fits _ _ M1) as F'. split.
    + intros x t [(-> & ->)|(Hne & [Hxp Hx]%lookup_delete_Some)]%lookup_insert_Some; [exists sz'; rewrite Er'; split; [left|lia]|].
      destruct (tk_block _ _ T x t Hx) as (y & Hy & Ht'). exists y. rewrite Er'. rewrite Er in Hy. apply elem_of_cons in Hy as [[= -> ->]|Hy]; [done|]. split; [by right|done].
    + intros x y. rewrite Er'. intros [[= -> ->]|Hx]%elem_of_cons; [by rewrite lookup_insert_eq|]. destruct (decide (q = x)) as [->|Hne]; [by rewrite lookup_insert_eq|].
      rewrite lookup_insert_ne, lookup_delete_ne by (try done; intros ->; by eapply (live_rest bs x sz rest x y F Er Hx)). apply (tk_live _ _ T x y). rewrite Er. by right.
  - exists bs. split; [|done]. destruct (tk_block _ _ T p n Hl) as (sz & Hs & Hsz). destruct (live_at _ _ _ Hs) as (a & b & E & Ep).
    apply heap_data; [done|]. intros x Hx. apply upd_ne. intros ->. revert Hx. eapply data_no_header; [by eapply heap_fits|exact E|lia].
Qed.

Lemma no_live bs : tight bs → live bs = [] → bs = [].
Proof.
  destruct bs as [|[sz fr] bs]; [done|]. intros [H1 _] Hl. unfold live in Hl. cbn [live_from] in Hl. destruct fr; [|done].
  specialize (H1 eq_refl). by destruct bs as [|[n [|]] bs].
Qed.
End traces.

(** C21. A program that starts with an unused heap, calls [malloc], [free] and [realloc] in
    any order with blocks it has, and writes into them; every block it frees or resizes
    was asked for with a size that is not 0, the heap has room to grow for each request,
    and the kernel gives all pages.  Then the blocks in use are aligned, lie in mapped
    memory below the break, hold the sizes asked for and do not overlap, nor do their
    headers; [malloc] of less than a megabyte, with room to grow, gives a new block and
    leaves the data of all blocks in use as they are, for more it returns [NULL]; [free]
    of a block succeeds and leaves the data of the others.  Without [realloc], when no
    block is in use the whole heap has been given back. *)
Theorem malloc_correct re fuel h l : (mend - mbegin) / 4 ≤ Z.of_nat fuel → trace re fuel h l →
  (∀ p n, l !! p = Some n → p mod 4 = 0 ∧ mbegin + 20 ≤ p ∧ p + n ≤ heap_break h ∧ ∀ a, p ≤ a < p + n → hpages h (a / PGSIZE) = true) ∧
  (∀ p q n m, l !! p = Some n → l !! q = Some m → p ≠ q → p + n ≤ q - 20 ∨ q + m ≤ p - 20) ∧
  (∀ n, 0 ≤ n < MAXMALLOC → heap_break h + 20 + align4 n ≤ mend →
     ∃ p h', malloc fuel n h = Ret p h' ∧ p ≠ 0 ∧ l !! p = None ∧ trace re fuel h' (<[p := n]> l) ∧ data_kept l h h') ∧
  (∀ n, MAXMALLOC ≤ n → malloc fuel n h = Ret 0 h) ∧
  (∀ p n, l !! p = Some n → 0 < n → ∃ h', free p h = Ret tt h' ∧ data_kept (delete p l) h h') ∧
  (re = false → l = ∅ → heap_break h = 0 ∨ heap_break h = mbegin).
Proof.
  intros Hf Hr. destruct (trace_ok re fuel Hf h l Hr) as (bs & Hok & T & Ht). pose proof (heap_fits _ _ Hok) as F. split_and!.
  - intros p n Hp. destruct (tk_block _ _ T p n Hp) as (sz & Hs & Hn). pose proof (live_place _ _ _ _ Hok Hs) as (P1 & P2 & P3 & P4 & _ & P6).
    do 2 (split; [done|]). split; [lia|]. intros a Ha. apply (ho_pages _ _ Hok). lia.
  - intros p q n m Hp Hq Hne. destruct (tk_block _ _ T p n Hp) as (sz & Hs & Hn), (tk_block _ _ T q m Hq) as (t & Hs' & Hm).
    destruct (live_apart bs p sz q t F Hs Hs' Hne); lia.
  - intros n Hn Hroom. destruct (malloc_live fuel Hf h bs l n Hok T Hn Hroom) as (p & h' & bs' & E & Hp & Hl & _ & _ & Hd & _).
    exists p, h'. do 3 (split; [done|]). split; [by eapply trace_malloc|done].
  - intros n Hn. unfold malloc. by rewrite (proj2 (Z.leb_le _ _)).
  - intros p n Hp Hn. destruct (free_live h bs l p n Hok T Hp Hn) as (h' & bs' & E & _ & _ & Hd & _). by exists h'.
  - intros Hre ->. assert (bs = []) as ->; [|destruct (ho_break _ _ Hok) as [E|[E _]]; [right; rewrite E; cbn; lia|by left]].
    apply no_live; [by apply Ht|]. destruct (live bs) as [|[p sz] lv] eqn:El; [done|]. destruct (tk_live _ _ T p sz) as [? ?]; [rewrite El; left|done].
Qed.

Lemma malloc_correct_witness : ∃ fuel h p q h', trace true fuel h (<[p := 100]> ∅) ∧ malloc fuel 1000 h = Ret q h' ∧ q ≠ 0 ∧ q ≠ p.
Proof.
  exists (Z.to_nat 33554432). assert ((mend - mbegin) / 4 ≤ Z.of_nat (Z.to_nat 33554432)) as Hf by (rewrite Z2Nat.id; [vm_compute; discriminate|lia]).
  generalize dependent (Z.to_nat 33554432). intros fuel Hf.
  destruct (malloc_correct true fuel fresh_heap ∅ Hf (trace_start _ _ _ _)) as (_ & _ & Hm & _).
  destruct (Hm 100) as (p & h & E0 & _ & _ & Hr & _); [split; [discriminate|reflexivity]|vm_compute; discriminate|].
  exists h, p. destruct (malloc_correct true fuel h _ Hf Hr) as (_ & _ & Hm' & _).
  destruct (malloc_step fuel fresh_heap [] 100 fresh_ok) as (p1 & sz & h1 & E1 & _ & _ & Hok & _); [split; [discriminate|reflexivity]|cbn; lia|vm_compute; discriminate|].
  rewrite E0 in E1. injection E1 as <- <-.
  destruct (Hm' 1000) as (q & h' & E & Hq & Hn & _); [split; [discriminate|reflexivity]| |].
  - destruct (ho_break _ _ Hok) as [->|[_ Eb]]; [vm_compute; discriminate|discriminate Eb].
  - exists q, h'. split; [exact Hr|]. split; [exact E|]. split; [exact Hq|]. intros ->. by rewrite lookup_insert_eq in Hn.
Defined.

(** C22. [free] of a block in use whose address is below the break (a block of no bytes at
    the end of the heap is not).  Of the list of blocks exactly that one goes: it is
    joined with a free block before it and one behind it, and when nothing follows it is
    given back, with the free block before it, so that the break is where it started and
    the pages past the break are unmapped.  The data of the other blocks stay as they
    are, and if every free block was followed by a block in use it still is. *)
Theorem free_correct h l sz r : heap_ok h (l ++ (sz, false) :: r) → mbegin + span l + 20 < heap_break h →
  ∃ h', free (mbegin + span l + 20) h = Ret tt h' ∧ heap_ok h' (free_blocks l sz r) ∧
    live (l ++ (sz, false) :: r) ≡ₚ (mbegin + span l + 20, sz) :: live (free_blocks l sz r) ∧
    same_data (hmem h) (hmem h') (live (free_blocks l sz r)) ∧ given_back h h' ∧
    (tight (l ++ (sz, false) :: r) → tight (free_blocks l sz r)).
Proof.
  intros Hok Hb. destruct (free_step h l sz r Hok Hb) as (h' & E & H1 & H2 & H3 & H4). exists h'. do 5 (split; [done|]). apply free_tight.
Qed.

(** One block of 100 bytes. *)
Definition one_heap : heap := run_heap (malloc 0 100) fresh_heap.
Definition one_ptr : Z := run_result 0 (malloc 0 100) fresh_heap.

Lemma one_heap_ok : heap_ok one_heap [(100, false)].
Proof.
  split.
  - split; [|exact I]. split; vm_compute; repeat split; discriminate.
  - vm_compute. reflexivity.
  - left. vm_compute. reflexivity.
  - vm_compute. discriminate.
  - intros a Ha. assert (134217728 ≤ a < 134217848) as Hb by exact Ha. clear Ha. change PGSIZE with 4096. replace (a / 4096) with 32768 by dlia. vm_compute. reflexivity.
  - vm_compute. reflexivity.
Qed.

Lemma one_live : live [(100, false)] = [(one_ptr, 100)].
Proof. vm_compute. reflexivity. Qed.

Lemma free_correct_witness : ∃ h', free one_ptr one_heap = Ret tt h' ∧ heap_ok h' [] ∧ heap_break h' = mbegin.
Proof.
  destruct (free_correct one_heap [] 100 [] one_heap_ok) as (h' & E & H1 & _).
  - vm_compute. reflexivity.
  - exists h'. split; [exact E|]. split; [exact H1|].
    assert (run_heap (free one_ptr) one_heap = h') as <- by (unfold run_heap; change one_ptr with (mbegin + span [] + 20); rewrite E; reflexivity). vm_compute. reflexivity.
Defined.

(** [realloc] of a block gives a block of the new size with the same contents up to
    the smaller of the two sizes, in the old place or a new one; every other block in
    use keeps its place and its bytes, and the old block is in use no more unless it
    was resized in place. *)
Theorem realloc_correct fuel h bs p sz rest size :
  heap_ok h bs → live bs ≡ₚ (p, sz) :: rest → 0 < sz → 0 ≤ size ≤ MAXMALLOC - 4 → (length bs ≤ fuel)%nat →
  sz / 4 ≤ Z.of_nat fuel → mbegin + span bs + 20 + align4 size ≤ mend →
  ∃ p' sz' h' bs', realloc fuel p size h = Ret p' h' ∧ size ≤ sz' ∧ heap_ok h' bs' ∧ live bs' ≡ₚ (p', sz') :: rest ∧
    same_data (hmem h) (hmem h') rest ∧
    ∀ k, 0 ≤ k < Z.min sz sz' → k mod 4 = 0 → hmem h' (p' + k) = hmem h (p + k).
Proof.
  intros Hok Hl Hsz Hsize Hf1 Hf2 Hroom. assert ((p, sz) ∈ live bs) as Hp by (rewrite Hl; left).
  destruct (wpr_inv (realloc fuel p size) (λ p' h', ∃ bs' sz', moved h h' bs bs' p sz p' sz' ∧ size ≤ sz') h)
    as (p' & h' & E & bs' & sz' & [M1 M2 M3 M4] & Hs').
  { apply (wp_realloc _ fuel h bs p sz size); try done. intros h' bs' p' sz' Hm Hs'. by exists bs', sz'. }
  exists p', sz', h', bs'. do 3 (split; [done|]). split; [by apply M2|]. split; [by apply M3|done].
Qed.

Lemma realloc_correct_witness :
  ∃ p' sz' h', realloc 40 one_ptr 4000 one_heap = Ret p' h' ∧ 4000 ≤ sz'.
Proof.
  destruct (realloc_correct 40 one_heap [(100, false)] one_ptr 100 [] 4000 one_heap_ok) as (p' & sz' & h' & bs' & E & Hs & _).
  - rewrite one_live. reflexivity.
  - reflexivity.
  - split; discriminate.
  - cbn. repeat constructor.
  - vm_compute. discriminate.
  - vm_compute. discriminate.
  - exists p', sz', h'. split; [exact E|exact Hs].
Defined.

(** A heap of blocks in use, with little room left. *)
Definition full_blocks : list blk := replicate 128 (1048552, false).
Definition full_mem (a : Z) : Z :=
  let i := (a - mbegin) / 1048572 in
  let b := mbegin + i * 1048572 in
  let o := a - b in
  if o =? 0 then 1048552
  else if o =? 4 then (if i =? 0 then 0 else b - 1048572)
  else if o =? 8 then (if i =? 127 then 0 else b + 1048572)
  else if o =? 16 then b + 20 else 0.
Definition full_heap : heap :=
  MkHeap full_mem (λ p, (32768 <=? p) && (p <? 65536)) [] (mbegin + 128 * 1048572) mbegin.

Lemma full_hdr i : 0 ≤ i < 128 →
  hdr full_mem (mbegin + i * 1048572) (1048552, false) (if decide (i = 0) then 0 else mbegin + (i - 1) * 1048572)
    (if decide (i = 127) then 0 else mbegin + (i + 1) * 1048572).
Proof.
  intros Hi. assert (∀ k, 0 ≤ k < 20 → full_mem (mbegin + i * 1048572 + k) =
    if k =? 0 then 1048552 else if k =? 4 then (if i =? 0 then 0 else mbegin + i * 1048572 - 1048572)
    else if k =? 8 then (if i =? 127 then 0 else mbegin + i * 1048572 + 1048572)
    else if k =? 16 then mbegin + i * 1048572 + 20 else 0) as H.
  { intros k Hk. unfold full_mem. replace (mbegin + i * 1048572 + k - mbegin) with (i * 1048572 + k) by lia.
    replace ((i * 1048572 + k) / 1048572) with i by dlia. cbv zeta.
    by replace (mbegin + i * 1048572 + k - (mbegin + i * 1048572)) with k by lia. }
  split; cbn [fst snd bword].
  - pose proof (H 0 ltac:(lia)) as E. by rewrite Z.add_0_r in E.
  - rewrite H by lia. cbn. destruct (Z.eqb_spec i 0); case_decide; (done || lia).
  - rewrite H by lia. cbn. destruct (Z.eqb_spec i 127); case_decide; (done || lia).
  - by rewrite H by lia.
  - by rewrite H by lia.
  - by split.
Qed.

Lemma full_seg : ∀ (n : nat) i, 0 ≤ i → i + Z.of_nat n = 128 →
  seg full_mem (mbegin + i * 1048572) (if decide (i = 0) then 0 else mbegin + (i - 1) * 1048572) (replicate n (1048552, false)) 0.
Proof.
  induction n as [|n IH]; intros i Hi Hn; [exact I|]. cbn [replicate seg]. split.
  - pose proof (full_hdr i ltac:(lia)) as H. cbn [fst].
    assert ((if replicate n (1048552, false) then 0 else mbegin + i * 1048572 + 20 + 1048552) =
      (if decide (i = 127) then 0 else mbegin + (i + 1) * 1048572)) as ->; [|exact H].
    destruct n; cbn [replicate]; destruct (decide (i = 127)); lia.
  - cbn [fst]. specialize (IH (i + 1) ltac:(lia) ltac:(lia)). rewrite decide_False in IH by lia.
    replace (mbegin + i * 1048572 + 20 + 1048552) with (mbegin + (i + 1) * 1048572) by lia.
    by replace (mbegin + (i + 1 - 1) * 1048572) with (mbegin + i * 1048572) in IH by lia.
Qed.

Lemma full_heap_ok : heap_ok full_heap full_blocks.
Proof.
  assert (span full_blocks = 128 * 1048572) as Es by (vm_compute; reflexivity).
  split; rewrite ?Es; cbn [full_heap hmem hbase heap_break hpages hresults].
  - pose proof (full_seg 128 0 ltac:(lia) ltac:(done)) as H. rewrite Z.mul_0_l, Z.add_0_r in H. exact H.
  - reflexivity.
  - by left.
  - vm_compute. discriminate.
  - intros a Ha. change mbegin with 134217728 in Ha. change PGSIZE with 4096. apply andb_true_iff. split; [apply Z.leb_le|apply Z.ltb_lt]; dlia.
  - reflexivity.
Qed.

(** C33. When the heap cannot grow any more [malloc] does not return [NULL]: [sbrk]
    refuses with [-E_INVAL], which [extend_heap] does not take for an error, and the
    caller gets a block past the end of the heap. *)
Theorem malloc_past_end fuel h bs n :
  heap_ok h bs → 0 ≤ n < MAXMALLOC → (length bs ≤ fuel)%nat → bs ≠ [] →
  Forall (too_small (align4 n)) bs → mend < mbegin + span bs + 20 + align4 n →
  mapped_to h (mbegin + span bs + 20) →
  ∃ h', malloc fuel n h = Ret (heap_break h + 20) h' ∧ heap_break h' = heap_break h.
Proof.
  intros Hok Hn Hf Hne Hsm Hfull Hmap. change MAXMALLOC with 1048576 in *. pose proof (align4_eq n ltac:(lia)) as Es.
  remember (align4 n) as s eqn:Ea. assert (0 ≤ s < 1048580) as Hs by dlia. pose proof (heap_fits _ _ Hok) as F.
  pose proof (span_nonneg _ F) as P1. pose proof (span_mod _ F) as P2. pose proof (ho_room _ _ Hok) as P3.
  assert (heap_break h = mbegin + span bs) as Ebr by (destruct (ho_break _ _ Hok) as [|[_ ?]]; done).
  enough (wpr (malloc fuel n) (λ p h', p = heap_break h + 20 ∧ heap_break h' = heap_break h) h) as H.
  { destruct (wpr_inv _ _ _ H) as (p & h' & E & -> & Hb). by exists h'. }
  unfold malloc. change MAXMALLOC with 1048576. rewrite (proj2 (Z.leb_gt _ _)) by lia. cbv zeta. rewrite <- Ea.
  apply wp_bind. unfold find_block. apply wp_bind, wp_gets. rewrite (ho_base _ _ Hok).
  apply (mwp_run (mbegin + span bs) _ (λ bl m, m = hmem h ∧ bl = (0, lastp 0 mbegin bs))); [by apply heap_mapped| |].
  { pose proof (mwp_find_from (hmem h) s (mbegin + span bs) bs [] fuel) as Hfind. cbn [app lastp] in Hfind.
    replace (mbegin + span []) with mbegin in Hfind by (cbn; lia). apply Hfind; [apply Hok|lia|done|done| |done].
    intros l sz r E Hfit _. rewrite E in Hsm. apply Forall_app in Hsm as [_ Hx]. inversion_clear Hx as [|? ? Hx' _].
    specialize (Hx' eq_refl). cbn in Hx'. lia. }
  intros [b last] m [-> [= -> ->]]. assert (set_hmem (hmem h) h = h) as -> by (by destruct h).
  change (ctrue 0) with false. cbv iota. apply wp_bind. unfold extend_heap.
  apply wp_bind, wp_sbrk_0; [rewrite Ebr; consts; lia|]. apply wp_bind. rewrite s32_small by (consts; lia).
  assert (wpr (sbrk (BLOCK_SIZE + s)) (λ r h', r = u32 (- E_INVAL) ∧ h' = h) h) as Hsb.
  { unfold sbrk. apply wp_bind, wp_gets. rewrite Ebr, (proj2 (Z.eqb_neq _ 0)) by (consts; lia).
    apply wp_bind, wp_ret, wp_bind, wp_gets. rewrite Ebr, (proj2 (Z.eqb_neq (BLOCK_SIZE + s) 0)) by (consts; lia). cbv zeta.
    rewrite u32_small by (unfold is_u32; consts; lia). rewrite (proj2 (Z.ltb_lt mend _)) by (consts; lia).
    rewrite orb_true_r. by apply wp_ret. }
  eapply wp_mono_ret; [exact Hsb|]. intros ? ? [-> ->]. change (u32 (- E_INVAL) =? u32 (-1)) with false. cbv iota.
  rewrite Ebr. unfold b_size, b_next, b_prev, b_ptr, b_free, b_data.
  do 5 (apply wp_bind, (wp_store _ _ (mbegin + span bs + 20)); [exact Hmap|consts; lia|consts; dlia|]; cbn [hmem set_hmem]).
  assert (ctrue (lastp 0 mbegin bs) = true) as ->.
  { apply ctrue_true. pose proof (lastp_pos bs 0 mbegin F ltac:(done) Hne). lia. }
  destruct (exists_last Hne) as (l0 & x & E). assert (lastp 0 mbegin bs = mbegin + span l0) as -> by (rewrite E, lastp_app; done).
  rewrite E in F. apply Forall_app in F as [F0 Fx]. pose proof (span_nonneg _ F0). pose proof (span_mod _ F0).
  inversion_clear Fx as [|? ? [? _] _]. assert (span bs = span l0 + 20 + x.1) by (rewrite E, span_app; cbn; lia).
  apply wp_bind, (wp_store _ _ (mbegin + span bs + 20)); [exact Hmap|consts; lia|consts; dlia|]. apply wp_ret.
  rewrite (proj2 (Z.eqb_neq _ 0)) by (consts; lia). by apply wp_ret.
Qed.

Lemma malloc_past_end_witness :
  ∃ h', malloc 128 1000 full_heap = Ret (heap_break full_heap + 20) h' ∧ heap_break h' = heap_break full_heap.
Proof.
  apply (malloc_past_end 128 full_heap full_blocks 1000 full_heap_ok).
  - split; [discriminate|reflexivity].
  - apply le_n.
  - discriminate.
  - apply Forall_replicate. intros E. discriminate E.
  - vm_compute. reflexivity.
  - intros a Ha. assert (134217728 ≤ a < 268434964) as Hb by exact Ha. clear Ha.
    change PGSIZE with 4096. apply andb_true_iff. split; [apply Z.leb_le|apply Z.ltb_lt]; dlia.
Defined.
