(* ===== verification/Math.v ===== *)
(** * [lib/math.c] and [include/math.h]: powers of two and logarithms *)

From stdpp Require Import base list.
From Stdlib Require Import ZArith Lia.
From S2P Require Import Prelude.

Definition is_pow_of_2 (x : Z) : bool := negb (ctrue (Z.land x (u32 (x - 1)))).

Definition smear (k x : Z) : Z := Z.lor x (Z.shiftr x k).

Definition next_pow_of_2 (x : Z) : Z :=
  if is_pow_of_2 x then x else
  let x := smear 1 x in
  let x := smear 2 x in
  let x := smear 4 x in
  let x := smear 8 x in
  let x := smear 16 x in
  u32 (x + 1).

Definition MultiplyDeBruijnBitPosition2 : list Z :=
  [0; 1; 28; 2; 29; 14; 24; 3; 30; 22; 20; 15; 25; 17; 4; 8;
   31; 27; 13; 23; 21; 19; 16; 7; 26; 12; 18; 6; 11; 5; 10; 9].

Definition log_of_2 (number : Z) : Z :=
  let number := if negb (is_pow_of_2 number) then Z.shiftr (next_pow_of_2 number) 1 else number in
  nth (Z.to_nat (Z.land (Z.shiftr (u32 (number * 0x077CB531)) 27) 0x1F)) MultiplyDeBruijnBitPosition2 0.

(** [base] and [index] are [unsigned char], the loop runs [index] times. *)
Fixpoint pow_from (i : nat) (base power : Z) : Z :=
  match i with O => power | S k => pow_from k base (u32 (power * base)) end.
Definition pow (base index : Z) : Z := pow_from (Z.to_nat (u8 index)) (u8 base) 1.

(** ** Powers of two *)
Lemma land_pred_pow2 n : 0 ≤ n → Z.land (2 ^ n) (2 ^ n - 1) = 0.
Proof.
  intros Hn. change (2 ^ n - 1) with (Z.pred (2 ^ n)). rewrite <- Z.ones_equiv, Z.land_ones by done. apply Z.mod_same. lia.
Qed.

Lemma land_pred_zero x : 0 < x → Z.land x (x - 1) = 0 → x = 2 ^ Z.log2 x.
Proof.
  intros Hx H. pose proof (Z.log2_spec x Hx) as [L1 L2]. pose proof (Z.log2_nonneg x) as L0.
  destruct (Z.eq_dec x (2 ^ Z.log2 x)) as [|Hne]; [done|]. exfalso. set (n := Z.log2 x) in *.
  rewrite Z.pow_succ_r in L2 by done.
  assert (Z.log2 (x - 1) = n) as E.
  { apply Z.log2_unique; [done|]. rewrite Z.pow_succ_r by done. lia. }
  assert (Z.testbit (Z.land x (x - 1)) n = true) as T.
  { rewrite Z.land_spec. unfold n at 1. rewrite Z.bit_log2 by done. rewrite <- E, Z.bit_log2; [done|lia]. }
  by rewrite H, Z.bits_0 in T.
Qed.

Lemma is_pow_of_2_spec x : 0 < x < 2 ^ 32 → is_pow_of_2 x = true ↔ x = 2 ^ Z.log2 x.
Proof.
  intros Hx. unfold is_pow_of_2. rewrite u32_small by (unfold is_u32; lia).
  rewrite negb_true_iff, ctrue_false. split; [apply land_pred_zero; lia|].
  intros E. rewrite E. apply land_pred_pow2, Z.log2_nonneg.
Qed.

(** After [smear] the top [2 * k] bits from the highest down are set. *)
Lemma smear_spec n k x :
  0 ≤ k → (∀ i, 0 ≤ i → n - k < i ≤ n → Z.testbit x i = true) → (∀ i, n < i → Z.testbit x i = false) →
  (∀ i, 0 ≤ i → n - 2 * k < i ≤ n → Z.testbit (smear k x) i = true) ∧ (∀ i, n < i → Z.testbit (smear k x) i = false).
Proof.
  intros Hk H1 H2. unfold smear. split; intros i Hi.
  - intros Hr. rewrite Z.lor_spec, Z.shiftr_spec by done. destruct (Z.lt_ge_cases (n - k) i); [by rewrite H1 by lia|].
    rewrite (H1 (i + k)) by lia. apply orb_true_r.
  - destruct (Z.lt_ge_cases i 0); [by rewrite Z.testbit_neg_r|].
    rewrite Z.lor_spec, Z.shiftr_spec by done. by rewrite !H2 by lia.
Qed.

Lemma smear_all x : 0 < x < 2 ^ 32 →
  smear 16 (smear 8 (smear 4 (smear 2 (smear 1 x)))) = 2 ^ (Z.log2 x + 1) - 1.
Proof.
  intros Hx. set (n := Z.log2 x).
  assert (0 ≤ n < 32) as Hn.
  { split; [apply Z.log2_nonneg|]. apply Z.log2_lt_pow2; lia. }
  destruct (smear_spec n 1 x) as [A1 B1]; [done| |intros; apply Z.bits_above_log2; unfold n in *; lia|].
  { intros i Hi Hr. replace i with n by lia. apply Z.bit_log2. lia. }
  destruct (smear_spec n 2 (smear 1 x)) as [A2 B2]; [done|intros; apply A1; lia|done|].
  destruct (smear_spec n 4 (smear 2 (smear 1 x))) as [A3 B3]; [done|intros; apply A2; lia|done|].
  destruct (smear_spec n 8 (smear 4 (smear 2 (smear 1 x)))) as [A4 B4]; [done|intros; apply A3; lia|done|].
  destruct (smear_spec n 16 (smear 8 (smear 4 (smear 2 (smear 1 x))))) as [A5 B5]; [done|intros; apply A4; lia|done|].
  change (2 ^ (n + 1) - 1) with (Z.pred (2 ^ (n + 1))). rewrite <- Z.ones_equiv. apply Z.bits_inj'. intros i Hi. destruct (Z.le_gt_cases i n).
  - rewrite A5, Z.ones_spec_low by lia. done.
  - rewrite B5, Z.ones_spec_high by lia. done.
Qed.

(** [next_pow_of_2] is the least power of two that is not below [x]; past 2^31 it is 0. *)
Lemma next_pow_of_2_spec x : 0 < x < 2 ^ 32 →
  next_pow_of_2 x = if 2 ^ 31 <? x then 0 else 2 ^ Z.log2_up x.
Proof.
  intros Hx. unfold next_pow_of_2. pose proof (Z.log2_spec x ltac:(lia)) as [L1 L2]. pose proof (Z.log2_nonneg x) as L0.
  destruct (is_pow_of_2 x) eqn:E.
  - apply is_pow_of_2_spec in E; [|done]. assert (Z.log2 x < 32) by (apply Z.log2_lt_pow2; lia).
    rewrite (proj2 (Z.ltb_ge _ _)) by (rewrite E; apply Z.pow_le_mono_r; lia). rewrite E at 2. by rewrite Z.log2_up_pow2.
  - assert (x ≠ 2 ^ Z.log2 x) as Hne by (rewrite <- is_pow_of_2_spec, E by done; done).
    rewrite smear_all by done. replace (2 ^ (Z.log2 x + 1) - 1 + 1) with (2 ^ (Z.log2 x + 1)) by lia.
    destruct (Z.ltb_spec (2 ^ 31) x) as [Hb|Hb].
    + replace (Z.log2 x) with 31; [done|]. symmetry. apply Z.log2_unique; lia.
    + assert (Z.log2 x < 31). { apply Z.log2_lt_pow2; [lia|]. destruct (Z.eq_dec x (2 ^ 31)) as [->|]; [done|lia]. }
      rewrite u32_small; [|split; [lia|apply Z.pow_lt_mono_r; lia]]. f_equal. symmetry.
      change (Z.log2 x + 1) with (Z.succ (Z.log2 x)). apply Z.log2_up_unique; [lia|]. rewrite Z.pred_succ. lia.
Qed.

Lemma de_bruijn n : 0 ≤ n < 32 →
  nth (Z.to_nat (Z.land (Z.shiftr (u32 (2 ^ n * 0x077CB531)) 27) 0x1F)) MultiplyDeBruijnBitPosition2 0 = n.
Proof.
  intros Hn. assert (forallb (λ k, nth (Z.to_nat (Z.land (Z.shiftr (u32 (2 ^ Z.of_nat k * 0x077CB531)) 27) 0x1F))
    MultiplyDeBruijnBitPosition2 0 =? Z.of_nat k) (seq 0 32) = true) as H by (vm_compute; reflexivity).
  rewrite forallb_forall in H. specialize (H (Z.to_nat n)). rewrite Z2Nat.id in H by lia. apply Z.eqb_eq, H, in_seq. lia.
Qed.

(** [log_of_2] is the logarithm rounded down, except above 2^31, where it is 0. *)
Lemma log_of_2_spec x : 0 < x < 2 ^ 32 → log_of_2 x = if 2 ^ 31 <? x then 0 else Z.log2 x.
Proof.
  intros Hx. unfold log_of_2. assert (0 ≤ Z.log2 x < 32) as Hl by (split; [apply Z.log2_nonneg|apply Z.log2_lt_pow2; lia]).
  destruct (is_pow_of_2 x) eqn:E; cbn [negb].
  - apply is_pow_of_2_spec in E; [|done].
    rewrite (proj2 (Z.ltb_ge _ _)) by (rewrite E; apply Z.pow_le_mono_r; lia). rewrite E at 1. by apply de_bruijn.
  - assert (x ≠ 2 ^ Z.log2 x) as Hne by (rewrite <- is_pow_of_2_spec, E by done; done).
    rewrite next_pow_of_2_spec by done. destruct (Z.ltb_spec (2 ^ 31) x); [done|].
    assert (Z.log2_up x = Z.log2 x + 1) as ->.
    { destruct (Z.log2_log2_up_exact x ltac:(lia)) as [_ A]. pose proof (Z.le_log2_log2_up x).
      pose proof (Z.le_log2_up_succ_log2 x). destruct (Z.eq_dec (Z.log2 x) (Z.log2_up x)) as [B|]; [|lia].
      destruct (Z.log2_log2_up_exact x ltac:(lia)) as [C _]. destruct (C B) as [k Hk]. exfalso. apply Hne.
      destruct (Z.lt_ge_cases k 0); [rewrite Z.pow_neg_r in Hk by done; lia|]. rewrite Hk, Z.log2_pow2 by done. done. }
    rewrite (Z.shiftr_div_pow2 _ 1), Z.pow_add_r by lia. rewrite Z.div_mul by done. by apply de_bruijn.
Qed.

Lemma pow_from_spec b : ∀ i p, 0 ≤ b → 0 ≤ p → p * b ^ Z.of_nat i < 2 ^ 32 → pow_from i b p = p * b ^ Z.of_nat i.
Proof.
  induction i as [|i IH]; intros p Hb Hp H; cbn [pow_from]; [cbn; lia|].
  rewrite Nat2Z.inj_succ, Z.pow_succ_r in * by lia.
  destruct (Z.eq_dec (p * b) 0) as [E|E]; [rewrite E; rewrite IH; [|done|done|]; rewrite ?(u32_small 0) by done; lia|].
  assert (0 < b ^ Z.of_nat i) by (apply Z.pow_pos_nonneg; lia).
  rewrite u32_small by (unfold is_u32; nia). rewrite IH; nia.
Qed.
