(* ===== verification/Str.v ===== *)
(** * The string and memory routines of [lib/string.c]

    Memory is a function from addresses to bytes, [0 <= m a < 256].  A routine that
    writes memory returns the new memory beside its result.  The loops that run to a
    terminating zero take a bound on the number of steps and give [None] when it is
    used up: the theorems say that the length of the string is enough.  The assembly
    of [memset] and [memmove] is the string instructions with their direction flag,
    element width and repetition count. *)

From stdpp Require Import base list.
From Stdlib Require Import ZArith Lia.
From S2P Require Import Prelude.

Abbreviation mem := (Z → Z).

(** ** Strings *)
Fixpoint strlen_from (fuel : nat) (m : mem) (s n : Z) : option Z :=
  match fuel with
  | O => None
  | S f => if ctrue (m s) then strlen_from f m (s + 1) (n + 1) else Some n
  end.
Definition strlen (fuel : nat) (m : mem) (s : Z) : option Z := strlen_from fuel m s 0.

Fixpoint strnlen_from (size : nat) (m : mem) (s n : Z) : Z :=
  match size with
  | O => n
  | S k => if ctrue (m s) then strnlen_from k m (s + 1) (n + 1) else n
  end.
Definition strnlen (m : mem) (s size : Z) : Z := strnlen_from (Z.to_nat size) m s 0.

(** The copying loop of [strcpy]; the byte is stored before it is tested. *)
Fixpoint strcpy_from (fuel : nat) (m : mem) (dst src : Z) : option mem :=
  match fuel with
  | O => None
  | S f =>
      let c := m src in
      let m' := upd m dst c in
      if ctrue c then strcpy_from f m' (dst + 1) (src + 1) else Some m'
  end.
Definition strcpy (fuel : nat) (m : mem) (dst src : Z) : option (Z * mem) :=
  m' ← strcpy_from fuel m dst src; Some (dst, m').

Definition strcat (fuel : nat) (m : mem) (dst src : Z) : option (Z * mem) :=
  n ← strlen fuel m dst;
  r ← strcpy fuel m (dst + n) src;
  Some (dst, r.2).

Fixpoint strncpy_from (size : nat) (m : mem) (dst src : Z) : mem :=
  match size with
  | O => m
  | S k =>
      let m' := upd m dst (m src) in
      strncpy_from k m' (dst + 1) (if ctrue (m' src) then src + 1 else src)
  end.
Definition strncpy (m : mem) (dst src size : Z) : Z * mem := (dst, strncpy_from (Z.to_nat size) m dst src).

Fixpoint strcmp (fuel : nat) (m : mem) (p q : Z) : option Z :=
  match fuel with
  | O => None
  | S f => if ctrue (m p) && (m p =? m q) then strcmp f m (p + 1) (q + 1) else Some (m p - m q)
  end.

Fixpoint strncmp_from (n : nat) (m : mem) (p q : Z) : Z :=
  match n with
  | O => 0
  | S k => if ctrue (m p) && (m p =? m q) then strncmp_from k m (p + 1) (q + 1) else m p - m q
  end.
Definition strncmp (m : mem) (p q n : Z) : Z := strncmp_from (Z.to_nat n) m p q.

(** [strchr] gives the null pointer, 0, when it finds nothing. *)
Fixpoint strchr (fuel : nat) (m : mem) (s c : Z) : option Z :=
  match fuel with
  | O => None
  | S f => if ctrue (m s) then if m s =? c then Some s else strchr f m (s + 1) c else Some 0
  end.

Fixpoint strfind (fuel : nat) (m : mem) (s c : Z) : option Z :=
  match fuel with
  | O => None
  | S f => if ctrue (m s) then if m s =? c then Some s else strfind f m (s + 1) c else Some s
  end.

(** ** Memory *)

(** Byte [i] of the little-endian word [x]. *)
Definition byte_of (x i : Z) : Z := Z.land (Z.shiftr x (8 * i)) 0xFF.

(** [cld; rep stos] with elements of [w] bytes: [cnt] times, store [a] at [d] and advance. *)
Fixpoint rep_stos (w : Z) (cnt : nat) (d a : Z) (m : mem) : mem :=
  match cnt with
  | O => m
  | S k => rep_stos w k (d + w) a (patch m d w (byte_of a))
  end.

Definition spread (c : Z) : Z :=
  Z.lor (Z.lor (Z.lor (Z.shiftl c 24) (Z.shiftl c 16)) (Z.shiftl c 8)) c.

Definition memset (m : mem) (v c n : Z) : Z * mem :=
  if n =? 0 then (v, m) else
  if (v mod 4 =? 0) && (n mod 4 =? 0) then
    let c := Z.land c 0xFF in
    let c := spread c in
    (v, rep_stos 4 (Z.to_nat (n / 4)) v c m)
  else (v, rep_stos 1 (Z.to_nat n) v c m).

(** [rep movs] with elements of [w] bytes; [dir] is 1 after [cld] and -1 after [std]. *)
Fixpoint rep_movs (w dir : Z) (cnt : nat) (d s : Z) (m : mem) : mem :=
  match cnt with
  | O => m
  | S k => rep_movs w dir k (d + dir * w) (s + dir * w) (patch m d w (λ i, m (s + i)))
  end.

Definition memmove (m : mem) (dst src n : Z) : Z * mem :=
  let s := src in
  let d := dst in
  if (s <? d) && (d <? u32 (s + n)) then
    let s := u32 (s + n) in
    let d := u32 (d + n) in
    if (s mod 4 =? 0) && (d mod 4 =? 0) && (n mod 4 =? 0)
    then (dst, rep_movs 4 (-1) (Z.to_nat (n / 4)) (u32 (d - 4)) (u32 (s - 4)) m)
    else (dst, rep_movs 1 (-1) (Z.to_nat n) (u32 (d - 1)) (u32 (s - 1)) m)
  else
    if (s mod 4 =? 0) && (d mod 4 =? 0) && (n mod 4 =? 0)
    then (dst, rep_movs 4 1 (Z.to_nat (n / 4)) d s m)
    else (dst, rep_movs 1 1 (Z.to_nat n) d s m).

Definition memcpy (m : mem) (dst src n : Z) : Z * mem := memmove m dst src n.

Fixpoint memcmp_from (n : nat) (m : mem) (s1 s2 : Z) : Z :=
  match n with
  | O => 0
  | S k => if negb (m s1 =? m s2) then m s1 - m s2 else memcmp_from k m (s1 + 1) (s2 + 1)
  end.
Definition memcmp (m : mem) (v1 v2 n : Z) : Z := memcmp_from (Z.to_nat n) m v1 v2.

Fixpoint memfind_from (n : nat) (m : mem) (s c : Z) : Z :=
  match n with
  | O => s
  | S k => if m s =? u8 c then s else memfind_from k m (s + 1) c
  end.
Definition memfind (m : mem) (s c n : Z) : Z := memfind_from (Z.to_nat n) m s c.

(** ** Numbers

    [long] arithmetic wraps, as on the processor. *)
Definition is_space (c : Z) : bool := (c =? 32) || (c =? 9).

Fixpoint skip_space (fuel : nat) (m : mem) (s : Z) : option Z :=
  match fuel with
  | O => None
  | S f => if is_space (m s) then skip_space f m (s + 1) else Some s
  end.

Definition digit_of (c : Z) : option Z :=
  if (48 <=? c) && (c <=? 57) then Some (c - 48) else
  if (97 <=? c) && (c <=? 122) then Some (c - 97 + 10) else
  if (65 <=? c) && (c <=? 90) then Some (c - 65 + 10) else None.

Fixpoint digits_from (fuel : nat) (m : mem) (base s val : Z) : option (Z * Z) :=
  match fuel with
  | O => None
  | S f =>
      match digit_of (m s) with
      | None => Some (val, s)
      | Some dig =>
          if base <=? dig then Some (val, s)
          else digits_from f m base (s + 1) (s32 (val * base + dig))
      end
  end.

(** The value, and what is stored in [*endptr]. *)
Definition strtol (fuel : nat) (m : mem) (s base : Z) : option (Z * Z) :=
  s ← skip_space fuel m s;
  let '(s, neg) :=
    if m s =? 43 then (s + 1, false) else if m s =? 45 then (s + 1, true) else (s, false) in
  let '(s, base) :=
    if ((base =? 0) || (base =? 16)) && ((m s =? 48) && (m (s + 1) =? 120)) then (s + 2, 16)
    else if (base =? 0) && (m s =? 48) then (s + 1, 8)
    else if base =? 0 then (s, 10) else (s, base) in
  r ← digits_from fuel m base s 0;
  Some (if (neg : bool) then s32 (- r.1) else r.1, r.2).

(** ** Properties *)

(** The bytes [l], none of them zero, and a terminating zero lie at [p]. *)
Fixpoint cstr (m : mem) (p : Z) (l : list Z) : Prop :=
  match l with
  | [] => m p = 0
  | c :: r => m p = c ∧ c ≠ 0 ∧ cstr m (p + 1) r
  end.

Lemma cstr_ext m m' p l : (∀ a, p ≤ a ≤ p + Z.of_nat (length l) → m' a = m a) → cstr m p l → cstr m' p l.
Proof.
  revert p. induction l as [|c r IH]; intros p H; cbn [cstr length] in *; [rewrite H by lia; done|].
  intros (H1 & H2 & H3). rewrite H by lia. do 2 (split; [done|]). apply IH; [|done]. intros a Ha. apply H. lia.
Qed.

Lemma cstr_at m p l i c : cstr m p l → l !! i = Some c → m (p + Z.of_nat i) = c ∧ c ≠ 0.
Proof.
  revert p i. induction l as [|x r IH]; intros p [|i] H E; try done; cbn in E; destruct H as (H1 & H2 & H3).
  - simplify_eq. by rewrite Z.add_0_r.
  - replace (p + Z.of_nat (S i)) with (p + 1 + Z.of_nat i) by lia. by apply IH.
Qed.

Lemma cstr_end m p l : cstr m p l → m (p + Z.of_nat (length l)) = 0.
Proof.
  revert p. induction l as [|x r IH]; intros p H; cbn [length]; [by rewrite Z.add_0_r|].
  destruct H as (_ & _ & H). replace (p + Z.of_nat (S (length r))) with (p + 1 + Z.of_nat (length r)) by lia. by apply IH.
Qed.

Lemma strlen_ok fuel m p l : cstr m p l → (length l < fuel)%nat → strlen fuel m p = Some (Z.of_nat (length l)).
Proof.
  unfold strlen. intros H Hf. rewrite <- (Z.add_0_l (Z.of_nat _)). generalize 0 as n.
  revert fuel p H Hf. induction l as [|c r IH]; intros [|f] p H Hf n; cbn [length] in Hf; try lia; cbn [strlen_from].
  - cbn in H. rewrite H. cbn. f_equal. lia.
  - destruct H as (-> & Hc & Hr). rewrite (proj2 (ctrue_true c) Hc), (IH f) by (done || lia). f_equal. cbn [length]. lia.
Qed.

Lemma strnlen_ok m p l size : cstr m p l → 0 ≤ size → strnlen m p size = Z.min size (Z.of_nat (length l)).
Proof.
  unfold strnlen. intros H Hs. rewrite <- (Z2Nat.id size) at 2 by done. rewrite <- (Z.add_0_l (Z.min _ _)).
  generalize 0 as n. generalize (Z.to_nat size) as k. clear Hs. intros k. revert p l H.
  induction k as [|k IH]; intros p [|c r] H n; cbn [strnlen_from length]; try lia.
  - cbn in H. rewrite H. cbn. lia.
  - destruct H as (-> & Hc & Hr). rewrite (proj2 (ctrue_true c) Hc), (IH _ r) by done. lia.
Qed.

(** [strcpy] copies forwards, so the destination may overlap the source from below. *)
Lemma strcpy_ok fuel m dst src l :
  cstr m src l → (length l < fuel)%nat → dst ≤ src ∨ src + Z.of_nat (length l) < dst →
  ∃ m', strcpy fuel m dst src = Some (dst, m') ∧ cstr m' dst l ∧
    ∀ a, a < dst ∨ dst + Z.of_nat (length l) < a → m' a = m a.
Proof.
  unfold strcpy. intros H Hf Hd.
  enough (∃ m', strcpy_from fuel m dst src = Some m' ∧ cstr m' dst l ∧
    ∀ a, a < dst ∨ dst + Z.of_nat (length l) < a → m' a = m a) as (m' & -> & G) by by exists m'.
  revert fuel m dst src H Hf Hd. induction l as [|c r IH]; intros [|f] m dst src H Hf Hd; cbn [length] in *; try lia;
    cbn [strcpy_from].
  - cbn in H. rewrite H. eexists. split; [done|]. split; [cbn; by rewrite upd_eq|]. intros a Ha. apply upd_ne. lia.
  - destruct H as (-> & Hc & Hr). rewrite (proj2 (ctrue_true c) Hc).
    destruct (IH f (upd m dst c) (dst + 1) (src + 1)) as (m' & -> & A & B); [|lia|lia|].
    + eapply cstr_ext; [|done]. intros a Ha. apply upd_ne. lia.
    + exists m'. split; [done|]. split; [|intros a Ha; rewrite B by lia; apply upd_ne; lia].
      cbn. split; [rewrite B by lia; by apply upd_eq|done].
Qed.

Lemma strcat_ok fuel m dst src k l :
  cstr m dst k → cstr m src l → (length k < fuel)%nat → (length l < fuel)%nat →
  dst + Z.of_nat (length k) + Z.of_nat (length l) < src ∨ src + Z.of_nat (length l) < dst →
  ∃ m', strcat fuel m dst src = Some (dst, m') ∧ cstr m' dst (k ++ l) ∧
    ∀ a, a < dst ∨ dst + Z.of_nat (length k) + Z.of_nat (length l) < a → m' a = m a.
Proof.
  intros Hk Hl Hf1 Hf2 Hd. unfold strcat. rewrite (strlen_ok _ _ _ k) by done. cbn [mbind option_bind].
  destruct (strcpy_ok fuel m (dst + Z.of_nat (length k)) src l) as (m' & -> & A & B); [done|done|lia|]. cbn.
  exists m'. split; [done|]. split; [|intros; apply B; lia].
  assert (∀ a, dst ≤ a < dst + Z.of_nat (length k) → m' a = m a) as E by (intros; apply B; lia).
  clear - Hk A E. revert dst Hk A E. induction k as [|c r IH]; intros dst Hk A E; cbn [length app cstr] in *.
  - by rewrite Z.add_0_r in A.
  - destruct Hk as (H1 & H2 & H3). rewrite E by lia. do 2 (split; [done|]). apply IH; [done| |intros; apply E; lia].
    by replace (dst + 1 + Z.of_nat (length r)) with (dst + Z.of_nat (S (length r))) by lia.
Qed.

(** [strncpy] writes exactly [size] bytes: the string cut off at [size], zeros after it. *)
Lemma strncpy_ok m dst src l size :
  cstr m src l → 0 ≤ size → src + Z.of_nat (length l) < dst ∨ dst + size ≤ src →
  ∀ a, (strncpy m dst src size).2 a = patch m dst size (λ i, nth (Z.to_nat i) l 0) a.
Proof.
  unfold strncpy. cbn [snd]. intros H Hs Hd. rewrite <- (Z2Nat.id size) in Hd by done.
  replace (patch m dst size) with (patch m dst (Z.of_nat (Z.to_nat size))) by (by rewrite Z2Nat.id).
  revert Hd. generalize (Z.to_nat size) as k. clear Hs size. intros k. revert m dst src l H.
  induction k as [|k IH]; intros m dst src l H Hd a; cbn [strncpy_from]; [by rewrite patch_out by lia|].
  rewrite (upd_ne _ _ _ src) by lia. destruct l as [|c r].
  - cbn in H. rewrite H. cbn [ctrue Z.eqb negb]. rewrite (IH _ _ _ []); [|cbn; rewrite upd_ne by lia; done|cbn in *; lia].
    assert (∀ n, nth n (@nil Z) 0 = 0) as En by by intros [].
    unfold patch, upd. cbn [length] in *. rewrite !En. zcases; (done || lia).
  - destruct H as (-> & Hc & Hr). rewrite (proj2 (ctrue_true c) Hc). cbn [length] in *.
    rewrite (IH _ _ _ r); [| |lia].
    + unfold patch, upd. zcases; try lia; try done.
      * replace (Z.to_nat (a - dst)) with (S (Z.to_nat (a - (dst + 1)))) by lia. done.
      * by replace (Z.to_nat (a - dst)) with 0%nat by lia.
    + eapply cstr_ext; [|done]. intros b Hb. apply upd_ne. lia.
Qed.

(** Order of strings by their first differing byte. *)
Inductive lex : list Z → list Z → Prop :=
| lex_nil c r : lex [] (c :: r)
| lex_lt c d r s : c < d → lex (c :: r) (d :: s)
| lex_eq c r s : lex r s → lex (c :: r) (c :: s).

Definition bytes_of (m : mem) : Prop := ∀ a, 0 ≤ m a < 256.

Lemma strcmp_ok fuel m p q k l :
  bytes_of m → cstr m p k → cstr m q l → (length k < fuel)%nat →
  ∃ r, strcmp fuel m p q = Some r ∧ (r = 0 ↔ k = l) ∧ (r < 0 → lex k l) ∧ (0 < r → lex l k).
Proof.
  intros Hb. revert p q k l. induction fuel as [|f IH]; intros p q k l Hk Hl Hf; [lia|]. cbn [strcmp].
  pose proof (Hb p) as Bp. pose proof (Hb q) as Bq. destruct k as [|c r], l as [|d s]; cbn in Hk, Hl.
  - rewrite Hk, Hl. cbn. eexists. split; [done|]. split; [done|]. lia.
  - destruct Hl as (E & Hd & _). rewrite Hk. cbn. eexists. split; [done|].
    split; [split; [lia|done]|]. split; [constructor|lia].
  - destruct Hk as (E & Hd & _). rewrite E, Hl in *. rewrite (proj2 (ctrue_true c) Hd), (proj2 (Z.eqb_neq c 0) Hd). cbn [andb].
    eexists. split; [done|]. split; [split; [lia|done]|]. split; [lia|constructor].
  - destruct Hk as (E1 & Hc & Hr), Hl as (E2 & Hd & Hs). rewrite E1, E2 in *. rewrite (proj2 (ctrue_true c) Hc).
    destruct (Z.eqb_spec c d) as [->|Hne]; cbn [andb length] in *.
    + destruct (IH (p + 1) (q + 1) r s) as (x & -> & A & B & C); [done|done|lia|]. exists x. split; [done|].
      split; [rewrite A; split; [by intros ->|by intros [= ->]]|]. split; intros; apply lex_eq; auto.
    + eexists. split; [done|]. split; [split; [lia|congruence]|]. split; intros; apply lex_lt; lia.
Qed.

Lemma strchr_ok fuel m p l c :
  cstr m p l → (length l < fuel)%nat → c ≠ 0 →
  strchr fuel m p c = match list_find (eq c) l with Some (i, _) => Some (p + Z.of_nat i) | None => Some 0 end.
Proof.
  revert p l. induction fuel as [|f IH]; intros p l Hl Hf Hc; [lia|]. cbn [strchr]. destruct l as [|d s].
  - cbn in Hl. by rewrite Hl.
  - destruct Hl as (-> & Hd & Hs). rewrite (proj2 (ctrue_true d) Hd). cbn [list_find length] in *.
    destruct (Z.eqb_spec d c) as [->|Hne]; [rewrite decide_True by done; f_equal; lia|].
    rewrite decide_False, (IH _ s) by (done || congruence || lia).
    destruct (list_find _ s) as [[i x]|]; cbn; [f_equal; lia|done].
Qed.

(** *** [memset] *)
Lemma rep_stos_ok w b cnt : ∀ d a m, 0 < w → (∀ i, 0 ≤ i < w → byte_of a i = b) →
  ∀ x, rep_stos w cnt d a m x = patch m d (Z.of_nat cnt * w) (λ _, b) x.
Proof.
  induction cnt as [|k IH]; intros d a m Hw Hb x; cbn [rep_stos]; [by rewrite patch_out by lia|].
  rewrite IH by done. unfold patch. zcases; try nia; try done. apply Hb. lia.
Qed.

Lemma spread_bytes c i : 0 ≤ i < 4 → byte_of (spread (Z.land c 0xFF)) i = u8 c.
Proof.
  intros Hi. change 0xFF with (Z.ones 8). rewrite Z.land_ones by lia. fold (u8 c).
  pose proof (Z.mod_pos_bound c (2 ^ 8) ltac:(lia)) as Hc. fold (u8 c) in Hc. set (b := u8 c) in *. clearbody b.
  assert (forallb (λ k, byte_of (spread (Z.of_nat k)) i =? Z.of_nat k) (seq 0 256) = true) as H.
  { assert (i = 0 ∨ i = 1 ∨ i = 2 ∨ i = 3) as [->|[->|[->| ->]]] by lia; vm_compute; reflexivity. }
  rewrite forallb_forall in H. specialize (H (Z.to_nat b)). rewrite Z2Nat.id in H by lia.
  apply Z.eqb_eq, H, in_seq. lia.
Qed.

Lemma memset_ok m v c n : 0 ≤ n →
  (memset m v c n).1 = v ∧ ∀ x, (memset m v c n).2 x = patch m v n (λ _, u8 c) x.
Proof.
  intros Hn. unfold memset. destruct (Z.eqb_spec n 0) as [->|H0].
  { split; [done|]. intros x. by rewrite patch_out by lia. }
  destruct (Z.eqb_spec (v mod 4) 0), (Z.eqb_spec (n mod 4) 0); cbn [andb]; split; try done; cbn [snd]; intros x.
  1: rewrite (rep_stos_ok 4 (u8 c)); [|lia|intros; by apply spread_bytes].
  2-4: rewrite (rep_stos_ok 1 (u8 c));
    [|lia|intros i Hi; unfold byte_of, u8; replace i with 0 by lia; change 0xFF with (Z.ones 8); by rewrite Z.land_ones].
  all: rewrite Z2Nat.id by dlia; unfold patch; zcases; try done; dlia.
Qed.

(** *** [memmove] *)
Lemma rep_movs_up w cnt : ∀ d s m, 0 < w → d ≤ s ∨ s + Z.of_nat cnt * w ≤ d →
  ∀ x, rep_movs w 1 cnt d s m x = patch m d (Z.of_nat cnt * w) (λ i, m (s + i)) x.
Proof.
  induction cnt as [|k IH]; intros d s m Hw Hd x; cbn [rep_movs]; [by rewrite patch_out by lia|].
  rewrite IH by nia. unfold patch. zcases; try nia; try done; try (f_equal; lia).
Qed.

Lemma rep_movs_down w cnt : ∀ d s m, 0 < w → s ≤ d →
  ∀ x, rep_movs w (-1) cnt (d + (Z.of_nat cnt - 1) * w) (s + (Z.of_nat cnt - 1) * w) m x =
    patch m d (Z.of_nat cnt * w) (λ i, m (s + i)) x.
Proof.
  induction cnt as [|k IH]; intros d s m Hw Hd x; cbn [rep_movs]; [by rewrite patch_out by lia|].
  replace (Z.of_nat (S k) - 1) with (Z.of_nat k) by lia.
  replace (d + Z.of_nat k * w + -1 * w) with (d + (Z.of_nat k - 1) * w) by lia.
  replace (s + Z.of_nat k * w + -1 * w) with (s + (Z.of_nat k - 1) * w) by lia.
  rewrite IH by done. unfold patch. zcases; try nia; try done; f_equal; lia.
Qed.

Lemma move_down w m dst src n :
  0 < w → n mod w = 0 → 0 ≤ src < dst → dst < src + n → src + n < 2 ^ 32 → dst + n ≤ 2 ^ 32 →
  ∀ x, rep_movs w (-1) (Z.to_nat (n / w)) (u32 (u32 (dst + n) - w)) (u32 (src + n - w)) m x =
    patch m dst n (λ i, m (src + i)) x.
Proof.
  intros Hw Hm Hs Ho Hsn Hdn x. assert (n = n / w * w) as En by (Z.div_mod_to_equations; nia).
  assert (0 < n / w) as Hq by nia. assert (w ≤ n) by nia.
  unfold u32. rewrite Zminus_mod_idemp_l, !Z.mod_small by lia.
  pose proof (rep_movs_down w (Z.to_nat (n / w)) dst src m Hw ltac:(lia) x) as E.
  rewrite Z2Nat.id, <- En in E by lia. rewrite <- E. f_equal; nia.
Qed.

Lemma move_up w m dst src n :
  0 < w → n mod w = 0 → 0 ≤ n → dst ≤ src ∨ src + n ≤ dst →
  ∀ x, rep_movs w 1 (Z.to_nat (n / w)) dst src m x = patch m dst n (λ i, m (src + i)) x.
Proof.
  intros Hw Hm Hn Ho x. assert (n = n / w * w) as En by (Z.div_mod_to_equations; nia).
  assert (0 ≤ n / w) as Hq by nia. rewrite rep_movs_up; rewrite ?Z2Nat.id by lia; rewrite <- ?En; done.
Qed.

(** [memmove] is the copy of all [n] bytes at once, whichever way source and
    destination overlap and whether it goes by words or bytes. *)
Theorem memmove_correct m dst src n :
  0 ≤ n → 0 ≤ src → src + n < 2 ^ 32 → 0 ≤ dst → dst + n ≤ 2 ^ 32 →
  (memmove m dst src n).1 = dst ∧ ∀ x, (memmove m dst src n).2 x = patch m dst n (λ i, m (src + i)) x.
Proof.
  intros Hn Hs Hsn Hd Hdn. unfold memmove. rewrite (u32_small (src + n)) by (unfold is_u32; lia).
  destruct (Z.ltb_spec src dst), (Z.ltb_spec dst (src + n)); cbn [andb];
    destruct (_ && _ && (_ =? 0)) eqn:E; cbn [fst snd]; (split; [done|]); intros x; zbool.
  1: apply (move_down 4); (done || lia).
  1: replace (Z.to_nat n) with (Z.to_nat (n / 1)) by (by rewrite Z.div_1_r); apply (move_down 1); (apply Z.mod_1_r || lia).
  1, 3, 5: apply (move_up 4); (done || lia).
  all: replace (Z.to_nat n) with (Z.to_nat (n / 1)) by (by rewrite Z.div_1_r); apply (move_up 1); (apply Z.mod_1_r || lia).
Qed.

Lemma memmove_correct_witness : let m a := (if (100 <=? a) && (a <? 110) then a - 99 else 0) in
  map (memmove m 103 100 7).2 (seqZ 100 12) = [1; 2; 3; 1; 2; 3; 4; 5; 6; 7; 0; 0].
Proof.
  intros m. destruct (memmove_correct m 103 100 7) as [_ H]; [lia..|].
  rewrite (map_ext _ (patch m 103 7 (λ i, m (100 + i)))) by exact H. vm_compute. reflexivity.
Defined.

Lemma memcmp_from_ok m k : ∀ p q,
  (memcmp_from k m p q = 0 ↔ ∀ i, 0 ≤ i < Z.of_nat k → m (p + i) = m (q + i)) ∧
  (memcmp_from k m p q ≠ 0 → ∃ j, 0 ≤ j < Z.of_nat k ∧ (∀ i, 0 ≤ i < j → m (p + i) = m (q + i)) ∧
    memcmp_from k m p q = m (p + j) - m (q + j)).
Proof.
  induction k as [|k IH]; intros p q; cbn [memcmp_from]; [split; [split; [lia|done]|done]|].
  destruct (Z.eqb_spec (m p) (m q)) as [E|E]; cbn [negb].
  - destruct (IH (p + 1) (q + 1)) as [A B]. split.
    + rewrite A. split; intros H i Hi.
      * destruct (Z.eq_dec i 0) as [->|]; [by rewrite !Z.add_0_r|].
        replace (p + i) with (p + 1 + (i - 1)) by lia. replace (q + i) with (q + 1 + (i - 1)) by lia. apply H. lia.
      * replace (p + 1 + i) with (p + (i + 1)) by lia. replace (q + 1 + i) with (q + (i + 1)) by lia. apply H. lia.
    + intros H. destruct (B H) as (j & Hj & H1 & H2). exists (j + 1). split; [lia|]. split.
      * intros i Hi. destruct (Z.eq_dec i 0) as [->|]; [by rewrite !Z.add_0_r|].
        replace (p + i) with (p + 1 + (i - 1)) by lia. replace (q + i) with (q + 1 + (i - 1)) by lia. apply H1. lia.
      * rewrite H2. do 2 f_equal; lia.
  - split; [split; [lia|]|].
    + intros H. specialize (H 0 ltac:(lia)). rewrite !Z.add_0_r in H. done.
    + intros _. exists 0. rewrite !Z.add_0_r. split; [lia|]. split; [lia|done].
Qed.

(** [memcmp] is 0 for equal bytes, else the difference of the first pair that differs. *)
Lemma memcmp_ok m p q n : 0 ≤ n →
  (memcmp m p q n = 0 ↔ ∀ i, 0 ≤ i < n → m (p + i) = m (q + i)) ∧
  (memcmp m p q n ≠ 0 → ∃ j, 0 ≤ j < n ∧ (∀ i, 0 ≤ i < j → m (p + i) = m (q + i)) ∧
    memcmp m p q n = m (p + j) - m (q + j)).
Proof. intros Hn. pose proof (memcmp_from_ok m (Z.to_nat n) p q) as H. by rewrite Z2Nat.id in H. Qed.

(** *** [strtol] *)
Definition digits_value (base : Z) (l : list Z) (v : Z) : Z :=
  foldl (λ v c, v * base + default 0 (digit_of c)) v l.

(** The characters [l] are digits in [base]. *)
Definition are_digits (base : Z) (l : list Z) : Prop := Forall (λ c, ∃ d, digit_of c = Some d ∧ d < base) l.

(** The characters [l] lie at [p]. *)
Definition text_at (m : mem) (p : Z) (l : list Z) : Prop := ∀ i c, l !! i = Some c → m (p + Z.of_nat i) = c.

Lemma text_at_cons m p c l : text_at m p (c :: l) ↔ m p = c ∧ text_at m (p + 1) l.
Proof.
  split.
  - intros H. split; [rewrite <- (Z.add_0_r p); by apply (H 0%nat)|]. intros i x E.
    replace (p + 1 + Z.of_nat i) with (p + Z.of_nat (S i)) by lia. by apply H.
  - intros [H1 H2] [|i] x E; cbn in E; [simplify_eq; by rewrite Z.add_0_r|].
    replace (p + Z.of_nat (S i)) with (p + 1 + Z.of_nat i) by lia. by apply H2.
Qed.

Lemma text_at_app m p k l : text_at m p (k ++ l) ↔ text_at m p k ∧ text_at m (p + Z.of_nat (length k)) l.
Proof.
  revert p. induction k as [|c k IH]; intros p; cbn [app length].
  - rewrite Z.add_0_r. split; [intros H; split; [by intros i x|done]|by intros [_ H]].
  - rewrite !text_at_cons, IH. replace (p + Z.of_nat (S (length k))) with (p + 1 + Z.of_nat (length k)) by lia. tauto.
Qed.

Lemma s32_step v b d : s32 (s32 v * b + d) = s32 (v * b + d).
Proof.
  unfold s32. f_equal. set (w := (v + 2 ^ 31) mod 2 ^ 32 - 2 ^ 31).
  assert (∃ k, w = v + k * 2 ^ 32) as [k ->].
  { exists (- ((v + 2 ^ 31) / 2 ^ 32)). unfold w. rewrite Z.mod_eq by lia. lia. }
  replace ((v + k * 2 ^ 32) * b + d + 2 ^ 31) with (v * b + d + 2 ^ 31 + k * b * 2 ^ 32) by ring.
  by rewrite Z.mod_add by lia.
Qed.

Lemma digits_from_ok m base l : ∀ fuel p v,
  are_digits base l → text_at m p l →
  (∀ d, digit_of (m (p + Z.of_nat (length l))) = Some d → base ≤ d) → (length l < fuel)%nat →
  digits_from fuel m base p (s32 v) = Some (s32 (digits_value base l v), p + Z.of_nat (length l)).
Proof.
  induction l as [|c l IH]; intros [|f] p v Hd Ht He Hf; cbn [length] in *; try lia; cbn [digits_from].
  - rewrite Z.add_0_r in *. destruct (digit_of (m p)) as [d|] eqn:E; [|done]. by rewrite (proj2 (Z.leb_le _ _) (He d eq_refl)).
  - apply text_at_cons in Ht as [-> Ht]. apply Forall_cons in Hd as [(d & Ed & Hd) Hl]. rewrite Ed.
    rewrite (proj2 (Z.leb_gt _ _) Hd), s32_step, IH; try done; try lia.
    + unfold digits_value. cbn [foldl]. rewrite Ed. cbn. do 2 f_equal. lia.
    + by replace (p + 1 + Z.of_nat (length l)) with (p + Z.of_nat (S (length l))) by lia.
Qed.

Lemma skip_space_ok m k : ∀ fuel p,
  Forall (λ c, is_space c = true) k → text_at m p k → is_space (m (p + Z.of_nat (length k))) = false →
  (length k < fuel)%nat → skip_space fuel m p = Some (p + Z.of_nat (length k)).
Proof.
  induction k as [|c k IH]; intros [|f] p Hk Ht He Hf; cbn [length] in *; try lia; cbn [skip_space].
  - rewrite Z.add_0_r in *. by rewrite He.
  - apply text_at_cons in Ht as [-> Ht]. apply Forall_cons in Hk as [-> Hk]. rewrite IH; try done; try lia.
    + f_equal. lia.
    + by replace (p + 1 + Z.of_nat (length k)) with (p + Z.of_nat (S (length k))) by lia.
Qed.

(** The text of a decimal number: blanks, an optional sign, digits. *)
Definition sign_text (neg : bool) : list Z := if neg then [45] else [].

Lemma digit_not_sign base c : are_digits base [c] → c ≠ 43 ∧ c ≠ 45 ∧ is_space c = false.
Proof.
  intros H. apply Forall_singleton in H as (d & E & _). unfold digit_of, is_space in *.
  destruct (Z.eqb_spec c 32), (Z.eqb_spec c 9); subst; try done. repeat split; intros ->; done.
Qed.

(** [strtol] in base 10 reads blanks, a sign and digits up to the first other
    character; the value is taken modulo 2^32. *)
Lemma strtol_decimal fuel m p sp neg c ds :
  Forall (λ c, is_space c = true) sp → are_digits 10 (c :: ds) →
  text_at m p (sp ++ sign_text neg ++ c :: ds) →
  (∀ d, digit_of (m (p + Z.of_nat (length (sp ++ sign_text neg ++ c :: ds)))) = Some d → 10 ≤ d) →
  (length sp < fuel)%nat → (length ds + 1 < fuel)%nat →
  strtol fuel m p 10 = Some (s32 ((if neg then -1 else 1) * digits_value 10 (c :: ds) 0),
    p + Z.of_nat (length (sp ++ sign_text neg ++ c :: ds))).
Proof.
  intros Hsp Hds Ht He Hf1 Hf2. unfold strtol. apply text_at_app in Ht as [T1 T2].
  pose proof (digit_not_sign 10 c (Forall_cons_2 _ _ _ (Forall_inv Hds) (Forall_nil_2 _))) as (C1 & C2 & C3).
  rewrite !length_app in *. pose proof T2 as T3. apply text_at_app in T3 as [T4 T5].
  rewrite (skip_space_ok m sp); [|done|done| |done].
  2: { destruct neg; cbn [sign_text app] in T2; apply text_at_cons in T2 as [-> _]; done. }
  cbn [mbind option_bind]. destruct neg; cbn [sign_text app length] in *.
  - apply text_at_cons in T4 as [E1 _]. rewrite E1. cbn [Z.eqb Pos.eqb orb andb].
    pose proof (digits_from_ok m 10 (c :: ds) fuel (p + Z.of_nat (length sp) + 1) 0) as D.
    change (s32 0) with 0 in D. rewrite D; [|done| | |cbn [length]; lia]; cbn [length] in *.
    + cbn. do 2 f_equal; [|lia]. pose proof (s32_step (digits_value 10 (c :: ds) 0) (-1) 0) as E. 
      rewrite !Z.add_0_r in E. unfold digits_value in E. cbn [foldl] in E. rewrite <- !Z.opp_eq_mul_m1 in E. exact E.
    + by rewrite <- Z.add_assoc in *.
    + intros d. replace (p + Z.of_nat (length sp) + 1 + Z.of_nat (S (length ds))) with (p + Z.of_nat (length sp + S (S (length ds)))) by lia. apply He.
  - pose proof T2 as T6. apply text_at_cons in T6 as [E1 _]. rewrite E1.
    rewrite (proj2 (Z.eqb_neq c 43) C1), (proj2 (Z.eqb_neq c 45) C2). cbn [Z.eqb Pos.eqb orb andb].
    pose proof (digits_from_ok m 10 (c :: ds) fuel (p + Z.of_nat (length sp)) 0) as D.
    change (s32 0) with 0 in D. rewrite D; [|done|done| |cbn [length]; lia]; cbn [length] in *.
    + cbn [mbind option_bind fst snd]. rewrite Z.mul_1_l. do 2 f_equal. lia.
    + intros d. replace (p + Z.of_nat (length sp) + Z.of_nat (S (length ds))) with (p + Z.of_nat (length sp + S (length ds))) by lia. apply He.
Qed.
