(* ===== verification/PrintFmt.v ===== *)
(** * Formatted printing: [lib/printfmt.c]

    [vprintfmt] calls [putch] once for each character of its output and learns
    nothing from it, so it is modelled by the list of the characters it passes to
    [putch], as the [int]s they are.  A format is the list of its bytes before the
    terminating zero and a position in it.  The variable arguments are the words on
    the stack; a pointer to a string is its bytes, a [double] its value.  An argument
    the caller did not pass, or of another kind, is [Bad].  A loop that used up its
    bound would be [Spin]; the bounds are the length of the format and the 64 bits of
    a number. *)

From Stdlib Require Import String Ascii Floats.SpecFloat.
From stdpp Require Import base list.
From Stdlib Require Import ZArith Lia.
From S2P Require Import Prelude Mmu Math Div64 Str.

Open Scope Z_scope.

(** ** Results *)
Inductive pres (A : Type) : Type :=
| Ok (a : A)
| Bad
| Spin.
Arguments Ok {A} a.
Arguments Bad {A}.
Arguments Spin {A}.

Definition pbind {A B} (r : pres A) (f : A → pres B) : pres B :=
  match r with Ok a => f a | Bad => Bad | Spin => Spin end.

Notation "'let!' x := r 'in' k" := (pbind r (λ x, k))
  (at level 200, x pattern, r at level 100, k at level 200,
   format "'[v' 'let!'  x  :=  r  'in' '/' k ']'") : kmonad_scope.

(** The bytes of a string constant. *)
Definition str (s : string) : list Z := map (λ a, Z.of_N (N_of_ascii a)) (list_ascii_of_string s).

Definition error_string : list (option string) :=
  [None;
   Some "unspecified error"; Some "bad environment"; Some "invalid parameter"; Some "out of memory";
   Some "out of environments"; Some "segmentation fault"; Some "env is not recving"; Some "unexpected end of file";
   Some "no free space on disk"; Some "too many files are open"; Some "file or block not found"; Some "invalid path";
   Some "file already exists"; Some "file is not a valid executable"; Some "operation not supported";
   Some "device busy"; Some "bad HTTP request"]%string.

(** ** Numbers *)

(** 64-bit [/] and [%] are calls of the routines of [lib/div64.c]. *)
Definition quotient (num den : Z) : pres Z := match __udivdi3 num den tt with Ret q _ => Ok q | _ => Bad end.
Definition remainder (num den : Z) : pres Z := match __umoddi3 num den tt with Ret r _ => Ok r | _ => Bad end.

Definition MINUS : Z := 45.
Definition ZERO : Z := 48.
Definition SPACE : Z := 32.

Definition digit_char (upper : bool) (d : Z) : Z :=
  nth (Z.to_nat d) (str (if upper then "0123456789ABCDEF" else "0123456789abcdef")) 0.

(** The characters, and the width that [printnum] returns. *)
Fixpoint printnum (fuel : nat) (num base width padc : Z) (upper : bool) : pres (list Z * Z) :=
  match fuel with
  | O => Spin
  | S f =>
      let! (out, w) :=
        if base <=? num then
          let! q := quotient num base in printnum f q base (width - 1) padc upper
        else
          let n := if padc =? MINUS then O else Z.to_nat (width - 1) in
          Ok (replicate n padc, Z.of_nat n) in
      let! d := remainder num base in
      Ok (out ++ [digit_char upper d], w + 1)
  end.

(** The depth of the recursion: a 64-bit number has at most 64 digits. *)
Definition num_fuel : nat := 64.

(** ** Floating point

    The code is compiled for the x87: expressions are evaluated with a significand of
    64 bits, and [(long long)] cuts off the fraction; a value that does not fit gives
    -2^63. *)
Definition ext_sub : spec_float → spec_float → spec_float := SFsub 64 16384.
Definition ext_mul : spec_float → spec_float → spec_float := SFmul 64 16384.
Definition ext_of_Z (n : Z) : spec_float := binary_normalize 64 16384 n 0 false.

Definition to_llong (x : spec_float) : Z :=
  match x with
  | S754_zero _ => 0
  | S754_infinity _ => - 2 ^ 63
  | S754_nan => - 2 ^ 63
  | S754_finite s m e =>
      let n := if 0 <=? e then Z.shiftl (Zpos m) e else Z.shiftr (Zpos m) (- e) in
      let v := if s then - n else n in
      if (- 2 ^ 63 <=? v) && (v <? 2 ^ 63) then v else - 2 ^ 63
  end.

Definition s64 (x : Z) : Z := (x + 2 ^ 63) mod 2 ^ 64 - 2 ^ 63.

Definition printdouble (num : spec_float) (width precision padc : Z) : pres (list Z) :=
  let precision := if precision <? 0 then 6 else precision in
  let inte := to_llong num in
  let sdeci := to_llong (ext_mul (ext_of_Z (pow 10 (precision + 1))) (ext_sub num (ext_of_Z inte))) in
  let sdeci := if sdeci <? 0 then s64 (- sdeci) else sdeci in
  let deci := u64 sdeci in
  let! r := remainder deci 10 in
  let! q := quotient deci 10 in
  let deci := if 5 <=? r then u64 (q + 1) else q in
  let! (out1, _) := printnum num_fuel (u64 inte) 10 width padc false in
  let! (out2, _) := printnum num_fuel deci 10 precision ZERO false in
  Ok (out1 ++ [46] ++ out2).

(** ** Arguments *)
Inductive arg : Type :=
| AWord (w : Z)
| AStr (s : list Z)
| ADouble (x : spec_float).

Definition va_word (ap : list arg) : pres (Z * list arg) :=
  match ap with AWord w :: r => Ok (u32 w, r) | _ => Bad end.
Definition va_llong (ap : list arg) : pres (Z * list arg) :=
  let! (lo, ap) := va_word ap in
  let! (hi, ap) := va_word ap in
  Ok (lo + hi * 2 ^ 32, ap).
Definition va_int (ap : list arg) : pres (Z * list arg) :=
  let! (w, ap) := va_word ap in Ok (s32 w, ap).

Definition getuint (ap : list arg) (lflag : Z) : pres (Z * list arg) :=
  if 2 <=? lflag then va_llong ap else va_word ap.
(** The [long long] as the [unsigned long long] it is assigned to. *)
Definition getint (ap : list arg) (lflag : Z) : pres (Z * list arg) :=
  if 2 <=? lflag then va_llong ap else let! (v, ap) := va_int ap in Ok (u64 v, ap).
Definition getdouble (ap : list arg) : pres (spec_float * list arg) :=
  match ap with ADouble x :: r => Ok (x, r) | _ => Bad end.

(** ** Directives *)
Inductive directive : Type :=
| DMinus | DZero | DDigit | DStar | DDot | DSharp | DLong
| DChar | DErr | DStr | DDec | DUns | DOct | DPtr | DHEX | DHex | DFloat | DPercent | DOther.

#[global] Instance directive_eq_dec : EqDecision directive.
Proof. solve_decision. Defined.

Definition directive_of (ch : Z) : directive :=
  match ch with
  | 45 => DMinus
  | 48 => DZero
  | 49 | 50 | 51 | 52 | 53 | 54 | 55 | 56 | 57 => DDigit
  | 42 => DStar
  | 46 => DDot
  | 35 => DSharp
  | 108 => DLong
  | 99 => DChar
  | 101 => DErr
  | 115 => DStr
  | 100 => DDec
  | 117 => DUns
  | 111 => DOct
  | 112 => DPtr
  | 88 => DHEX
  | 120 => DHex
  | 102 => DFloat
  | 37 => DPercent
  | _ => DOther
  end.

Record conv := MkConv {
  padc : Z;
  width : Z;
  precision : Z;
  lflag : Z;
  altflag : bool;
}.
Definition conv0 : conv := MkConv SPACE (-1) (-1) 0 false.
Definition set_padc (x : Z) (c : conv) : conv := MkConv x (width c) (precision c) (lflag c) (altflag c).
Definition set_width (x : Z) (c : conv) : conv := MkConv (padc c) x (precision c) (lflag c) (altflag c).
Definition set_precision (x : Z) (c : conv) : conv := MkConv (padc c) (width c) x (lflag c) (altflag c).
Definition set_lflag (x : Z) (c : conv) : conv := MkConv (padc c) (width c) (precision c) x (altflag c).
Definition set_altflag (x : bool) (c : conv) : conv := MkConv (padc c) (width c) (precision c) (lflag c) x.

Definition process_precision (c : conv) : conv :=
  if width c <? 0 then set_precision (-1) (set_width (precision c) c) else c.

(** The byte at [pos]; after the last one, the terminating zero. *)
Definition fmt_at (fmt : list Z) (pos : nat) : Z := nth pos fmt 0.

(** [for (precision = 0; ; ++fmt)]: the number at [pos - 1], and where it ends. *)
Fixpoint read_number (fuel : nat) (fmt : list Z) (pos : nat) (ch precision : Z) : pres (Z * nat) :=
  match fuel with
  | O => Spin
  | S f =>
      let precision := s32 (precision * 10 + ch - ZERO) in
      let ch := fmt_at fmt pos in
      if (ch <? 48) || (57 <? ch) then Ok (precision, pos) else read_number f fmt (S pos) ch precision
  end.

(** [char] is signed. *)
Definition s8 (x : Z) : Z := (x + 2 ^ 7) mod 2 ^ 8 - 2 ^ 7.

(** The loop over the characters of [%s], and the width that is left. *)
Fixpoint print_chars (p : list Z) (precision width : Z) (altflag : bool) : list Z * Z :=
  match p with
  | [] => ([], width)
  | b :: r =>
      let ch := s8 b in
      if (precision <? 0) || (0 <=? precision - 1) then
        let '(out, w) := print_chars r (if precision <? 0 then precision else precision - 1) (width - 1) altflag in
        ((if altflag && ((ch <? 32) || (126 <? ch)) then 63 else ch) :: out, w)
      else ([], width)
  end.

Definition spaces (n : Z) : list Z := replicate (Z.to_nat n) SPACE.

Definition print_string (p : list Z) (c : conv) : list Z :=
  let '(pads, w) :=
    if (0 <? width c) && negb (padc c =? MINUS) then
      let w := width c - Z.min (u32 (precision c)) (Z.of_nat (length p)) in
      (replicate (Z.to_nat w) (padc c), Z.min w 0)
    else ([], width c) in
  let '(out, w) := print_chars p (precision c) w (altflag c) in
  pads ++ out ++ spaces w.

(** The code at the label [number]. *)
Definition print_number (num base : Z) (upper : bool) (c : conv) : pres (list Z) :=
  let! (out, num_width) := printnum num_fuel num base (width c) (padc c) upper in
  Ok (out ++ spaces (width c - num_width)).

(** [for (fmt--; fmt[-1] != '%'; fmt--)], from the position before the last byte read. *)
Fixpoint back_up (fmt : list Z) (pos : nat) : pres nat :=
  match pos with
  | O => Bad
  | S q => if fmt_at fmt q =? 37 then Ok pos else back_up fmt q
  end.

(** A position in the format and the arguments that are left, with the output. *)
Record step := MkStep { s_out : list Z; s_pos : nat; s_ap : list arg }.

Section escape.
(** [printfmt], called again for the text of an error. *)
Variable self : list Z → list arg → pres (list Z).

Definition print_error (err : Z) : pres (list Z) :=
  let err := if err <? 0 then s32 (- err) else err in
  if err <? 0 then Bad
  else if MAXERROR <=? err then self (str "error %d") [AWord err]
  else match nth (Z.to_nat err) error_string None with
       | None => self (str "error %d") [AWord err]
       | Some p => self (str "%s") [AStr (str p)]
       end.

(** What follows a [%]: the code from the label [reswitch], with [goto reswitch] as
    the recursive call. *)
Fixpoint escape (fuel : nat) (fmt : list Z) (pos : nat) (c : conv) (ap : list arg) : pres step :=
  match fuel with
  | O => Spin
  | S f =>
      let ch := fmt_at fmt pos in
      let pos := S pos in
      let number num base upper ap pre :=
        let! out := print_number num base upper c in Ok (MkStep (pre ++ out) pos ap) in
      match directive_of ch with
      | DMinus => escape f fmt pos (set_padc MINUS c) ap
      | DZero => escape f fmt pos (set_padc ZERO c) ap
      | DDigit =>
          let! (n, pos) := read_number (S (length fmt)) fmt pos ch 0 in
          escape f fmt pos (process_precision (set_precision n c)) ap
      | DStar =>
          let! (n, ap) := va_int ap in
          escape f fmt pos (process_precision (set_precision n c)) ap
      | DDot => escape f fmt pos (if width c <? 0 then set_width 0 c else c) ap
      | DSharp => escape f fmt pos (set_altflag true c) ap
      | DLong => escape f fmt pos (set_lflag (lflag c + 1) c) ap
      | DChar => let! (ch, ap) := va_int ap in Ok (MkStep [ch] pos ap)
      | DErr =>
          let! (err, ap) := va_int ap in
          let! out := print_error err in Ok (MkStep out pos ap)
      | DStr =>
          match ap with
          | AStr p :: ap => Ok (MkStep (print_string p c) pos ap)
          | AWord 0 :: ap => Ok (MkStep (print_string (str "(null)") c) pos ap)
          | _ => Bad
          end
      | DDec =>
          let! (num, ap) := getint ap (lflag c) in
          if s64 num <? 0 then number (u64 (- num)) 10 false ap [MINUS] else number num 10 false ap []
      | DUns => let! (num, ap) := getuint ap (lflag c) in number num 10 false ap []
      | DOct => let! (num, ap) := getuint ap (lflag c) in number num 8 false ap []
      | DPtr => let! (num, ap) := va_word ap in number num 16 false ap [ZERO; 120]
      | DHEX => let! (num, ap) := getuint ap (lflag c) in number num 16 true ap []
      | DHex => let! (num, ap) := getuint ap (lflag c) in number num 16 false ap []
      | DFloat =>
          let! (x, ap) := getdouble ap in
          let neg := SFltb x (S754_zero false) in
          let! out := printdouble (if neg then SFopp x else x) (width c) (precision c) (padc c) in
          Ok (MkStep ((if neg then [MINUS] else []) ++ out) pos ap)
      | DPercent => Ok (MkStep [ch] pos ap)
      | DOther => let! pos := back_up fmt (pos - 1) in Ok (MkStep [37] pos ap)
      end
  end.

(** The outer loop. *)
Fixpoint format (fuel : nat) (fmt : list Z) (pos : nat) (ap : list arg) : pres (list Z) :=
  match fuel with
  | O => Spin
  | S f =>
      let ch := fmt_at fmt pos in
      if ch =? 37 then
        let! st := escape (S (length fmt)) fmt (S pos) conv0 ap in
        let! out := format f fmt (s_pos st) (s_ap st) in
        Ok (s_out st ++ out)
      else if ch =? 0 then Ok []
      else let! out := format f fmt (S pos) ap in Ok (ch :: out)
  end.
End escape.

(** [%e] calls [printfmt] with a format that has no [%e]: the calls nest twice. *)
Fixpoint vprintfmt_nested (depth : nat) (fmt : list Z) (ap : list arg) : pres (list Z) :=
  match depth with
  | O => Spin
  | S d => format (vprintfmt_nested d) (S (length fmt)) fmt 0 ap
  end.
Definition vprintfmt (fmt : list Z) (ap : list arg) : pres (list Z) := vprintfmt_nested 2 fmt ap.
Definition printfmt (fmt : list Z) (ap : list arg) : pres (list Z) := vprintfmt fmt ap.

(** ** Printing to a string

    [sprintbuf] with the memory it writes to. *)
Record sprintbuf := MkSprintbuf { sp_mem : mem; buf : Z; ebuf : Z; cnt : Z }.

Definition sprintputch (ch : Z) (b : sprintbuf) : sprintbuf :=
  let b := MkSprintbuf (sp_mem b) (buf b) (ebuf b) (cnt b + 1) in
  if buf b <? ebuf b then MkSprintbuf (upd (sp_mem b) (buf b) (u8 ch)) (buf b + 1) (ebuf b) (cnt b) else b.

Definition vsnprintf (m : mem) (bufp n : Z) (fmt : list Z) (ap : list arg) : pres (Z * mem) :=
  if (bufp =? 0) || (n <? 1) then Ok (- E_INVAL, m) else
  let! out := vprintfmt fmt ap in
  let b := foldl (λ b ch, sprintputch ch b) (MkSprintbuf m bufp (bufp + n - 1) 0) out in
  Ok (cnt b, upd (sp_mem b) (buf b) 0).
Definition snprintf (m : mem) (bufp n : Z) (fmt : list Z) (ap : list arg) : pres (Z * mem) := vsnprintf m bufp n fmt ap.

(** ** Numbers *)
Lemma quotient_ok num den : is_u64 num → 0 < den < 2 ^ 32 → quotient num den = Ok (num / den).
Proof.
  intros Hn Hd. unfold quotient. destruct (div64_spec num den) as [E _]; [done|unfold is_u64; lia|lia|]. by rewrite E.
Qed.

Lemma remainder_ok num den : is_u64 num → 0 < den < 2 ^ 32 → remainder num den = Ok (num mod den).
Proof.
  intros Hn Hd. unfold remainder. destruct (div64_spec num den) as [_ E]; [done|unfold is_u64; lia|lia|]. rewrite E.
  rewrite (proj2 (Z.leb_gt (2 ^ 32) den)) by lia. by rewrite andb_false_r.
Qed.

Lemma digit_char_ok upper d : 0 ≤ d < 16 → digit_of (digit_char upper d) = Some d.
Proof.
  intros Hd. assert (forallb (λ k, match digit_of (digit_char upper (Z.of_nat k)) with Some x => x =? Z.of_nat k | None => false end)
    (seq 0 16) = true) as H by (by destruct upper).
  rewrite forallb_forall in H. specialize (H (Z.to_nat d)). rewrite Z2Nat.id in H by lia.
  destruct (digit_of _) as [x|]; [|by discriminate H; apply in_seq; lia].
  f_equal. apply Z.eqb_eq, H, in_seq. lia.
Qed.

Definition pads (padc width : Z) (ds : list Z) : list Z :=
  replicate (if padc =? MINUS then O else Z.to_nat (width - Z.of_nat (length ds))) padc.

(** [ds] are the digits of [num] in [base], without leading zeros. *)
Record digits_of (base num : Z) (ds : list Z) : Prop := MkDigits {
  do_digits : are_digits base ds;
  do_value : digits_value base ds 0 = num;
  do_length : length ds = 1%nat ∨ (1 < length ds)%nat ∧ base ^ (Z.of_nat (length ds) - 1) ≤ num;
}.

Lemma digits_of_one upper base num : 2 ≤ base ≤ 16 → 0 ≤ num < base →
  digits_of base num [digit_char upper (num mod base)].
Proof.
  intros Hb Hn. rewrite Z.mod_small by done. pose proof (digit_char_ok upper num ltac:(lia)) as E. split; [|
    unfold digits_value; cbn [foldl]; by rewrite E|by left].
  apply Forall_singleton. exists num. split; [done|lia].
Qed.

Lemma digits_of_more upper base num ds : 2 ≤ base ≤ 16 → base ≤ num → digits_of base (num / base) ds →
  digits_of base num (ds ++ [digit_char upper (num mod base)]).
Proof.
  intros Hb Hn [A V L]. pose proof (Z.mod_pos_bound num base ltac:(lia)) as Hm.
  pose proof (digit_char_ok upper (num mod base) ltac:(lia)) as E. pose proof (Z.div_mod num base ltac:(lia)) as D. split.
  - apply Forall_app. split; [done|]. apply Forall_singleton. exists (num mod base). split; [done|lia].
  - unfold digits_value in *. rewrite foldl_app, V. cbn [foldl]. rewrite E. cbn. lia.
  - rewrite length_app. cbn [length]. right. destruct L as [->|[L1 L2]]; [split; [lia|cbn; lia]|]. split; [lia|].
    replace (Z.of_nat (length ds + 1) - 1) with (Z.succ (Z.of_nat (length ds) - 1)) by lia. rewrite Z.pow_succ_r by lia. nia.
Qed.

(** [printnum] prints the digits of the number, most significant first, after the
    padding that makes up the width. *)
Lemma printnum_ok base padc upper : 2 ≤ base ≤ 16 → ∀ fuel num width,
  is_u64 num → num < base ^ Z.of_nat (S fuel) →
  ∃ ds, printnum (S fuel) num base width padc upper = Ok (pads padc width ds ++ ds, Z.of_nat (length (pads padc width ds ++ ds))) ∧
    digits_of base num ds.
Proof.
  intros Hb. induction fuel as [|f IH]; intros num width Hn Hlt; cbn [printnum]; fold printnum; pose proof Hn as [Hn0 Hn1].
  all: destruct (Z.leb_spec base num) as [Hge|Hsm]; [|cbn [pbind]; rewrite remainder_ok by (done || lia); cbn [pbind];
    exists [digit_char upper (num mod base)]; unfold pads; cbn [length]; rewrite length_app, length_replicate; cbn [length];
    change (Z.of_nat 1) with 1; split; [do 2 f_equal; destruct (padc =? MINUS); lia|by apply digits_of_one]].
  { cbn in Hlt. lia. }
  rewrite quotient_ok by (done || lia). cbn [pbind]. destruct (IH (num / base) (width - 1)) as (ds & E & D).
  { split; [apply Z.div_pos; lia|]. assert (num / base ≤ num) by (apply Z.div_le_upper_bound; nia). lia. }
  { apply Z.div_lt_upper_bound; [lia|]. rewrite (Nat2Z.inj_succ (S f)), Z.pow_succ_r in Hlt by lia. lia. }
  cbn [printnum] in E. fold printnum in E. rewrite E. cbn [pbind]. rewrite remainder_ok by (done || lia). cbn [pbind].
  exists (ds ++ [digit_char upper (num mod base)]). split; [|by apply digits_of_more].
  unfold pads. rewrite !length_app, !length_replicate. cbn [length].
  replace (width - Z.of_nat (length ds + 1)) with (width - 1 - Z.of_nat (length ds)) by lia.
  rewrite <- app_assoc. do 2 f_equal. lia.
Qed.

Lemma num_fuel_ok base num : 2 ≤ base → is_u64 num → num < base ^ Z.of_nat num_fuel.
Proof.
  intros Hb [_ H]. apply Z.lt_le_trans with (1 := H). change (Z.of_nat num_fuel) with 64. apply Z.pow_le_mono_l. lia.
Qed.

Lemma print_number_ok num base upper c : 2 ≤ base ≤ 16 → is_u64 num →
  ∃ ds, print_number num base upper c =
      Ok (pads (padc c) (width c) ds ++ ds ++ spaces (width c - Z.of_nat (length (pads (padc c) (width c) ds ++ ds)))) ∧
    digits_of base num ds.
Proof.
  intros Hb Hn. destruct (printnum_ok base (padc c) upper Hb 63 num (width c) Hn) as (ds & E & H).
  { apply num_fuel_ok; [lia|done]. }
  exists ds. split; [|done]. unfold print_number, num_fuel. rewrite E. cbn [pbind]. by rewrite <- app_assoc.
Qed.

(** ** Termination *)
Definition returns {A} (r : pres A) : Prop := r ≠ Spin.

Lemma returns_bind {A B} (r : pres A) (f : A → pres B) :
  returns r → (∀ a, r = Ok a → returns (f a)) → returns (pbind r f).
Proof. unfold returns. destruct r; cbn; auto; done. Qed.

Lemma u64_range x : is_u64 (u64 x).
Proof. unfold is_u64, u64. apply Z.mod_pos_bound. lia. Qed.

Lemma word_u64 w : is_u64 (u32 w).
Proof. pose proof (u32_range w) as [??]. unfold is_u64. lia. Qed.

Lemma returns_va_word ap : returns (va_word ap).
Proof. unfold va_word. by destruct ap as [|[]]. Qed.

Lemma returns_va_int ap : returns (va_int ap).
Proof. apply returns_bind; [apply returns_va_word|]. by intros []. Qed.

Lemma va_word_range ap w r : va_word ap = Ok (w, r) → is_u64 w.
Proof. unfold va_word. destruct ap as [|[]]; try done. intros [= <- _]. apply word_u64. Qed.

Lemma va_llong_range ap w r : va_llong ap = Ok (w, r) → is_u64 w.
Proof.
  unfold va_llong. destruct (va_word ap) as [[lo ap1]| |] eqn:E1; try done. cbn [pbind].
  destruct (va_word ap1) as [[hi ap2]| |] eqn:E2; try done. cbn [pbind]. intros [= <- _].
  unfold va_word in *. destruct ap as [|[]], ap1 as [|[]]; try done. simplify_eq.
  match goal with |- is_u64 (u32 ?a + u32 ?b * _) => pose proof (u32_range a) as [??]; pose proof (u32_range b) as [??] end.
  unfold is_u64. lia.
Qed.

Lemma returns_va_llong ap : returns (va_llong ap).
Proof.
  apply returns_bind; [apply returns_va_word|]. intros [lo r] _. apply returns_bind; [apply returns_va_word|]. by intros [].
Qed.

Lemma getuint_ok ap l : returns (getuint ap l) ∧ ∀ n r, getuint ap l = Ok (n, r) → is_u64 n.
Proof.
  unfold getuint. destruct (2 <=? l); split; eauto using returns_va_llong, returns_va_word, va_llong_range, va_word_range.
Qed.

Lemma getint_ok ap l : returns (getint ap l) ∧ ∀ n r, getint ap l = Ok (n, r) → is_u64 n.
Proof.
  unfold getint. destruct (2 <=? l); split; eauto using returns_va_llong, va_llong_range.
  - apply returns_bind; [apply returns_va_int|]. by intros [].
  - intros n r. destruct (va_int ap) as [[v q]| |]; try done. cbn. intros [= <- _]. apply u64_range.
Qed.

Lemma returns_print_number num base upper c : 2 ≤ base ≤ 16 → is_u64 num → returns (print_number num base upper c).
Proof. intros Hb Hn. by destruct (print_number_ok num base upper c Hb Hn) as (ds & -> & _). Qed.

Lemma printnum_returns num width padc : is_u64 num → returns (printnum num_fuel num 10 width padc false).
Proof.
  intros Hn. destruct (printnum_ok 10 padc false ltac:(lia) 63 num width Hn) as (ds & E & _); [by apply num_fuel_ok|].
  unfold num_fuel. by rewrite E.
Qed.

Lemma returns_printdouble x w p c : returns (printdouble x w p c).
Proof.
  unfold printdouble. cbv zeta. match goal with |- context [remainder (u64 ?d)] => pose proof (u64_range d) as Hd; set (deci := u64 d) in * end.
  rewrite remainder_ok, quotient_ok by (done || lia). cbn [pbind].
  apply returns_bind; [apply printnum_returns, u64_range|]. intros [o1 ?] _.
  apply returns_bind; [|by intros []]. apply printnum_returns. case_match; [apply u64_range|]. destruct Hd as [H0 H1].
  split; [by apply Z.div_pos|]. apply Z.div_lt_upper_bound; lia.
Qed.

Lemma fmt_at_end fmt pos : (length fmt ≤ pos)%nat → fmt_at fmt pos = 0.
Proof. apply nth_overflow. Qed.

Lemma read_number_ok fmt : ∀ fuel pos ch v, (pos ≤ length fmt)%nat → (length fmt < pos + fuel)%nat →
  ∃ n pos', read_number fuel fmt pos ch v = Ok (n, pos') ∧ (pos ≤ pos' ≤ length fmt)%nat.
Proof.
  induction fuel as [|f IH]; intros pos ch v H1 H2; [lia|]. cbn [read_number].
  destruct (_ || _) eqn:E; [eexists _, _; split; [done|lia]|].
  assert (pos ≠ length fmt) as Hne by (intros ->; by rewrite fmt_at_end in E).
  edestruct (IH (S pos)) as (n & pos' & E' & H); [lia|lia|]. rewrite E'. eexists _, _. split; [done|lia].
Qed.

Lemma back_up_ok fmt : ∀ pos p0, (p0 < pos)%nat → fmt_at fmt p0 = 37 →
  ∃ q, back_up fmt pos = Ok q ∧ (p0 < q ≤ pos)%nat.
Proof.
  induction pos as [|q IH]; intros p0 H1 H2; [lia|]. cbn [back_up].
  destruct (Z.eqb_spec (fmt_at fmt q) 37) as [E|E]; [by exists (S q)|].
  assert (p0 ≠ q) by (by intros ->). destruct (IH p0) as (r & -> & Hr); [lia|done|]. exists r. split; [done|lia].
Qed.

(** The directives that a scan over characters can end with. *)
Lemma directive_end ch : directive_of ch ≠ DOther → ch ≠ 0.
Proof. by intros H ->. Qed.

Lemma directive_err ch : directive_of ch = DErr → ch = 101.
Proof.
  intros H. destruct ch as [|p|p]; try done. do 7 (destruct p as [p|p|]; try done).
Qed.

(** The format has an [e] after some [%]. *)
Definition errors_in (fmt : list Z) : Prop := ∃ p q, (p < q)%nat ∧ fmt_at fmt p = 37 ∧ fmt_at fmt q = 101.

Section termination.
Context (self : list Z → list arg → pres (list Z)) (fmt : list Z).
Hypothesis Hself : errors_in fmt → ∀ err, returns (print_error self err).

Lemma escape_ok p0 : fmt_at fmt p0 = 37 → ∀ fuel pos c ap,
  (p0 < pos ≤ length fmt)%nat → (length fmt < pos + fuel)%nat →
  returns (escape self fuel fmt pos c ap) ∧
  ∀ st, escape self fuel fmt pos c ap = Ok st → (p0 < s_pos st ≤ length fmt)%nat.
Proof.
  intros H0. induction fuel as [|f IH]; intros pos c ap H1 H2; [lia|].
  assert (∀ A (r : pres A) (k : A → pres step), returns r →
    (∀ a, r = Ok a → returns (k a) ∧ ∀ st, k a = Ok st → (p0 < s_pos st ≤ length fmt)%nat) →
    returns (pbind r k) ∧ ∀ st, pbind r k = Ok st → (p0 < s_pos st ≤ length fmt)%nat) as Hbind.
  { intros A r k Hr Hk. destruct r as [a| |]; [by apply Hk|done|done]. }
  cbn [escape]. destruct (decide (directive_of (fmt_at fmt pos) = DOther)) as [D|D].
  { rewrite D. destruct (back_up_ok fmt (S pos - 1) p0) as (q & E & Hq); [lia|done|]. rewrite E. cbn.
    split; [done|]. intros st [= <-]. cbn. lia. }
  assert (pos < length fmt)%nat as Hp.
  { destruct (decide (pos = length fmt)) as [->|]; [|lia]. exfalso. apply D. by rewrite fmt_at_end. }
  assert (∀ out ap', returns (Ok (MkStep out (S pos) ap')) ∧
    ∀ st, Ok (MkStep out (S pos) ap') = Ok st → (p0 < s_pos st ≤ length fmt)%nat) as Hret.
  { intros out ap'. split; [done|]. intros st [= <-]. cbn. lia. }
  assert (∀ num base upper pre ap', 2 ≤ base ≤ 16 → is_u64 num →
    returns (let! out := print_number num base upper c in Ok (MkStep (pre ++ out) (S pos) ap')) ∧
    ∀ st, (let! out := print_number num base upper c in Ok (MkStep (pre ++ out) (S pos) ap')) = Ok st →
      (p0 < s_pos st ≤ length fmt)%nat) as Hnum.
  { intros. apply Hbind; [by apply returns_print_number|]. intros. apply Hret. }
  pose proof (getuint_ok ap (lflag c)) as [U1 U2]. pose proof (getint_ok ap (lflag c)) as [I1 I2].
  destruct (directive_of (fmt_at fmt pos)) eqn:Ed; try (by apply IH; lia); try done.
  - destruct (read_number_ok fmt (S (length fmt)) (S pos) (fmt_at fmt pos) 0) as (n & pos' & -> & Hn); [lia|lia|].
    cbn [pbind]. apply IH; lia.
  - apply Hbind; [apply returns_va_int|]. intros [n ap'] _. apply IH; lia.
  - apply Hbind; [apply returns_va_int|]. intros [n ap'] _. apply Hret.
  - apply Hbind; [apply returns_va_int|]. intros [n ap'] _. apply Hbind; [|intros; apply Hret]. apply Hself.
    exists p0, pos. split; [lia|]. split; [done|]. by apply directive_err.
  - destruct ap as [|[[]|s|] r]; try done.
  - apply Hbind; [done|]. intros [num ap'] E. case_match; apply Hnum; try lia; [apply u64_range|by eapply I2].
  - apply Hbind; [done|]. intros [num ap'] E. apply Hnum; [lia|by eapply U2].
  - apply Hbind; [done|]. intros [num ap'] E. apply Hnum; [lia|by eapply U2].
  - apply Hbind; [apply returns_va_word|]. intros [num ap'] E. apply Hnum; [lia|by eapply va_word_range].
  - apply Hbind; [done|]. intros [num ap'] E. apply Hnum; [lia|by eapply U2].
  - apply Hbind; [done|]. intros [num ap'] E. apply Hnum; [lia|by eapply U2].
  - apply Hbind; [by destruct ap as [|[]]|]. intros [x ap'] E. apply Hbind; [apply returns_printdouble|]. intros. apply Hret.
Qed.

Lemma format_ok : ∀ fuel pos ap, (pos ≤ length fmt)%nat → (length fmt < pos + fuel)%nat → returns (format self fuel fmt pos ap).
Proof.
  induction fuel as [|f IH]; intros pos ap H1 H2; [lia|]. cbn [format].
  destruct (Z.eqb_spec (fmt_at fmt pos) 37) as [E|E].
  - assert (pos ≠ length fmt) by (intros ->; by rewrite fmt_at_end in E).
    destruct (escape_ok pos E (S (length fmt)) (S pos) conv0 ap) as [A B]; [lia|lia|].
    apply returns_bind; [done|]. intros st Est. specialize (B st Est). apply returns_bind; [|done]. apply IH; lia.
  - destruct (Z.eqb_spec (fmt_at fmt pos) 0) as [E0|E0]; [done|].
    assert (pos ≠ length fmt) by (intros ->; by rewrite fmt_at_end in E0).
    apply returns_bind; [|done]. apply IH; lia.
Qed.
End termination.

Lemma nested_ok d fmt ap : (errors_in fmt → ∀ err, returns (print_error (vprintfmt_nested d) err)) →
  returns (vprintfmt_nested (S d) fmt ap).
Proof. intros H. apply format_ok; [done|lia|lia]. Qed.

(** The two formats of [%e] have none. *)
Lemma no_errors_in : ¬ errors_in (str "error %d") ∧ ¬ errors_in (str "%s").
Proof.
  split; intros (p & q & H & E1 & E2).
  - destruct p as [|[|[|[|[|[|[|[|p]]]]]]]]; try discriminate E1.
    + do 8 (destruct q as [|q]; [lia || discriminate E2|]). by rewrite fmt_at_end in E2 by (cbn; lia).
    + by rewrite fmt_at_end in E1 by (cbn; lia).
  - destruct p as [|[|p]]; try discriminate E1.
    + do 2 (destruct q as [|q]; [lia || discriminate E2|]). by rewrite fmt_at_end in E2 by (cbn; lia).
    + by rewrite fmt_at_end in E1 by (cbn; lia).
Qed.

Lemma print_error_ok err : returns (print_error (vprintfmt_nested 1) err).
Proof.
  unfold print_error. cbv zeta. pose proof no_errors_in as [N1 N2].
  repeat case_match; try discriminate; apply nested_ok; intros Hin; (destruct (N1 Hin) || destruct (N2 Hin)).
Qed.

(** C26. [vprintfmt] terminates on every format, well formed or not, with any
    arguments: each loop ends within the bound, and an unknown directive makes it
    scan the same characters again only once. *)
Theorem vprintfmt_terminates fmt ap : vprintfmt fmt ap ≠ Spin.
Proof. apply nested_ok. intros _. apply print_error_ok. Qed.

(** ** Strings *)
Lemma sprint_fold : ∀ out m p e c, p ≤ e → let k := Z.min (Z.of_nat (length out)) (e - p) in
  ∃ m', foldl (λ b ch, sprintputch ch b) (MkSprintbuf m p e c) out = MkSprintbuf m' (p + k) e (c + Z.of_nat (length out)) ∧
    ∀ a, m' a = patch m p k (λ i, u8 (nth (Z.to_nat i) out 0)) a.
Proof.
  induction out as [|ch out IH]; intros m p e c He k; cbn [foldl length] in *.
  - exists m. split; [f_equal; unfold k; lia|]. intros a. by rewrite patch_out by lia.
  - unfold sprintputch at 2. cbn [Datatypes.id buf ebuf sp_mem cnt]. destruct (Z.ltb_spec p e) as [H|H].
    + destruct (IH (upd m p (u8 ch)) (p + 1) e (c + 1)) as (m' & E & A); [lia|]. rewrite E. exists m'.
      split; [f_equal; unfold k; lia|]. intros a. rewrite A. unfold patch, upd, k. zcases; try lia; try done.
      * by replace (Z.to_nat (a - p)) with (S (Z.to_nat (a - (p + 1)))) by lia.
      * by replace (Z.to_nat (a - p)) with O by lia.
    + destruct (IH m p e (c + 1) He) as (m' & E & A). rewrite E. exists m'.
      split; [f_equal; unfold k; lia|]. intros a. rewrite A. unfold k. rewrite !patch_out by lia. done.
Qed.

Lemma vsnprintf_ok m bufp n fmt ap out : bufp ≠ 0 → 1 ≤ n → vprintfmt fmt ap = Ok out →
  let k := Z.min (Z.of_nat (length out)) (n - 1) in
  ∃ m', vsnprintf m bufp n fmt ap = Ok (Z.of_nat (length out), m') ∧
    ∀ a, m' a = patch m bufp (k + 1) (λ i, if i =? k then 0 else u8 (nth (Z.to_nat i) out 0)) a.
Proof.
  intros Hb Hn E k. unfold vsnprintf. rewrite (proj2 (Z.eqb_neq _ _) Hb), (proj2 (Z.ltb_ge _ _) Hn), E. cbn [orb pbind].
  destruct (sprint_fold out m bufp (bufp + n - 1) 0) as (m' & -> & A); [lia|]. cbn [cnt sp_mem buf].
  eexists. split; [done|]. intros a. replace (bufp + n - 1 - bufp) with (n - 1) in * by lia. fold k in A |- *.
  unfold upd. rewrite A. unfold patch. zcases; (done || lia).
Qed.

(** C28. [vsnprintf] writes the text, cut off after [n - 1] characters, and a zero, and
    nothing outside the [n] bytes of the buffer; it returns the length of the whole text. *)
Theorem vsnprintf_correct m bufp n fmt ap out : bufp ≠ 0 → 1 ≤ n → vprintfmt fmt ap = Ok out →
  let k := Z.min (Z.of_nat (length out)) (n - 1) in
  ∃ m', vsnprintf m bufp n fmt ap = Ok (Z.of_nat (length out), m') ∧
    ∀ a, m' a = patch m bufp (k + 1) (λ i, if i =? k then 0 else u8 (nth (Z.to_nat i) out 0)) a.
Proof. apply vsnprintf_ok. Qed.

Lemma vsnprintf_correct_witness : ∃ m', vsnprintf (λ _, 7) 1000 5 (str "%s=%d") [AStr (str "abc"); AWord 42] = Ok (6, m') ∧
  map m' (seqZ 999 8) = [7; 97; 98; 99; 61; 0; 7; 7].
Proof.
  destruct (vsnprintf_correct (λ _, 7) 1000 5 (str "%s=%d") [AStr (str "abc"); AWord 42] (str "abc=42")) as (m' & E & A);
    [discriminate|discriminate|vm_compute; reflexivity|].
  exists m'. split; [exact E|]. rewrite (map_ext _ _ A). vm_compute. reflexivity.
Defined.

(** ** Numbers read back *)

(** What ["%d"] prints. *)
Lemma printed_d v : - 2 ^ 31 ≤ v < 2 ^ 31 →
  ∃ ds, vprintfmt (str "%d") [AWord (u32 v)] = Ok (sign_text (v <? 0) ++ ds) ∧ digits_of 10 (Z.abs v) ds.
Proof.
  intros Hv. change (vprintfmt (str "%d") [AWord (u32 v)]) with
    (let! st := (let! (num, ap) := getint [AWord (u32 v)] 0 in
       if s64 num <? 0 then let! out := print_number (u64 (- num)) 10 false conv0 in Ok (MkStep ([MINUS] ++ out) 2 ap)
       else let! out := print_number num 10 false conv0 in Ok (MkStep ([] ++ out) 2 ap)) in
     let! out := format (vprintfmt_nested 1) 2 [37; 100] (s_pos st) (s_ap st) in Ok (s_out st ++ out)).
  cbn [getint Z.leb Z.compare va_int va_word pbind].
  replace (s32 (u32 (u32 v))) with v by (unfold s32, u32; dlia). replace (s64 (u64 v)) with v by (unfold s64, u64; dlia).
  assert (∀ num, is_u64 num → ∃ ds, print_number num 10 false conv0 = Ok ds ∧ digits_of 10 num ds) as Hp.
  { intros num Hn. destruct (print_number_ok num 10 false conv0 ltac:(lia) Hn) as (ds & E & D). exists ds. split; [|done].
    rewrite E. unfold pads, spaces, conv0. cbn [padc width]. change (SPACE =? MINUS) with false.
    replace (Z.to_nat (-1 - Z.of_nat (length ds))) with O by lia. cbn [replicate app].
    replace (Z.to_nat (-1 - Z.of_nat (length ds))) with O by lia. cbn [replicate]. by rewrite app_nil_r. }
  destruct (Z.ltb_spec v 0) as [H|H]; cbn [sign_text].
  - destruct (Hp (u64 (- u64 v))) as (ds & -> & D); [apply u64_range|]. cbn [pbind s_pos s_ap s_out].
    exists ds. split; [cbn; by rewrite app_nil_r|]. replace (Z.abs v) with (u64 (- u64 v)); [done|]. unfold u64. dlia.
  - destruct (Hp (u64 v)) as (ds & -> & D); [apply u64_range|]. cbn [pbind s_pos s_ap s_out].
    exists ds. split; [cbn; by rewrite app_nil_r|]. replace (Z.abs v) with (u64 v); [done|]. unfold u64. dlia.
Qed.

(** The printed characters are bytes. *)
Lemma digit_byte base c : are_digits base [c] → u8 c = c.
Proof.
  intros H. apply Forall_singleton in H as (d & E & _). unfold digit_of in E. apply Z.mod_small.
  repeat case_match; try discriminate E; zbool; lia.
Qed.

Lemma chars_ok v ds i c : are_digits 10 ds → (sign_text (v <? 0) ++ ds) !! i = Some c → u8 c = c.
Proof.
  intros Hd H. apply list_elem_of_lookup_2, elem_of_app in H as [H|H].
  - destruct (v <? 0); cbn in H; [|by apply not_elem_of_nil in H]. apply list_elem_of_singleton in H as ->. done.
  - apply (digit_byte 10). apply Forall_singleton. unfold are_digits in Hd. rewrite Forall_forall in Hd. by apply Hd.
Qed.

(** C27. [snprintf] with ["%d"] and [strtol] in base 10 are inverse to each other: every
    [int], printed into a buffer of at least 12 bytes, is read back as itself, and the
    scan ends at the end of the text. *)
Theorem print_strtol m bufp n v fuel : bufp ≠ 0 → 12 ≤ n → - 2 ^ 31 ≤ v < 2 ^ 31 → (12 ≤ fuel)%nat →
  ∃ len m', snprintf m bufp n (str "%d") [AWord (u32 v)] = Ok (len, m') ∧ strtol fuel m' bufp 10 = Some (v, bufp + len).
Proof.
  intros Hb Hn Hv Hf. destruct (printed_d v Hv) as (ds & E & [D1 D2 D3]).
  assert (1 ≤ length ds ≤ 10)%nat as Hlen.
  { destruct D3 as [->|[D3 D4]]; [lia|]. split; [lia|]. apply Nat.nlt_ge. intros Hc.
    assert (10 ^ 10 ≤ 10 ^ (Z.of_nat (length ds) - 1)) by (apply Z.pow_le_mono_r; lia). lia. }
  set (out := sign_text (v <? 0) ++ ds) in *.
  assert (length out = (if (v <? 0)%Z then 1 else 0) + length ds)%nat as Hlo by (unfold out; rewrite length_app; by destruct (v <? 0)).
  destruct (vsnprintf_ok m bufp n _ _ _ Hb ltac:(lia) E) as (m' & Es & A).
  rewrite Z.min_l in A by (rewrite Hlo; destruct (v <? 0); lia).
  assert (text_at m' bufp out) as Ht.
  { intros i c Hc. pose proof (lookup_lt_Some _ _ _ Hc). rewrite A, patch_in by lia. rewrite (proj2 (Z.eqb_neq _ _)) by lia.
    rewrite Nat2Z.id, (nth_lookup_Some _ _ _ _ Hc). eapply (chars_ok v ds i); [done|]. exact Hc. }
  assert (m' (bufp + Z.of_nat (length out)) = 0) as Hz by (rewrite A, patch_in by lia; by rewrite Z.eqb_refl).
  destruct ds as [|d ds]; [cbn in Hlen; lia|].
  exists (Z.of_nat (length out)), m'. split; [exact Es|].
  pose proof (strtol_decimal fuel m' bufp [] (v <? 0) d ds) as S. cbn [app length] in S. fold out in S.
  rewrite S; [|by apply Forall_nil|done|done|by rewrite Hz|lia|cbn [length] in Hlen; lia].
  do 2 f_equal. rewrite D2. destruct (Z.ltb_spec v 0); unfold s32; dlia.
Qed.

Lemma print_strtol_witness : ∃ len m', snprintf (λ _, 0) 4096 16 (str "%d") [AWord (u32 (-2147483648))] = Ok (len, m') ∧
  strtol 20 m' 4096 10 = Some (-2147483648, 4096 + len).
Proof. apply (print_strtol (λ _, 0) 4096 16 (-2147483648) 20); [discriminate|discriminate|split; [discriminate|reflexivity]|lia]. Defined.

(** [%f] loses a carry: 0.96 with one digit after the point is printed as 0.10, the
    rounded fraction 10 being printed with as many digits as it has. *)
Theorem printdouble_carry :
  let x := S754_finite false 8646911284551352 (-53) in
  vprintfmt (str "%.1f") [ADouble x] = Ok (str "0.10").
Proof. vm_compute. reflexivity. Qed.
