(* ===== verification/Print.v ===== *)
(** * The ends of formatted printing: [lib/printf.c], [lib/fprintf.c], [kernel/printf.c]

    Each passes its own [putch] to [vprintfmt].  User programs collect characters in a
    buffer of 256 and hand them to [sys_cputs] or [write]; the kernel puts each on the
    console at once. *)

From stdpp Require Import base list strings.
From Stdlib Require Import ZArith Lia.
From S2P Require Import Prelude Mmu Str PrintFmt Console.

(** ** [lib/printf.c] *)
Module Cprintf.
(** [calls] are the bytes given to [sys_cputs], call by call. *)
Record printbuf := MkPrintbuf { idx : Z; cnt : Z; buf : mem; calls : list (list Z) }.

Definition contents (m : mem) (n : Z) : list Z := map m (seqZ 0 n).

Definition flush (b : printbuf) : printbuf :=
  MkPrintbuf (idx b) (cnt b) (buf b) (calls b ++ [contents (buf b) (idx b)]).

Definition putch (ch : Z) (b : printbuf) : printbuf :=
  let b := MkPrintbuf (idx b + 1) (cnt b) (upd (buf b) (idx b) (u8 ch)) (calls b) in
  let b := if idx b =? 256 - 1 then
             let b := flush b in MkPrintbuf 0 (cnt b) (buf b) (calls b)
           else b in
  MkPrintbuf (idx b) (cnt b + 1) (buf b) (calls b).

(** The count, and the system calls made; [junk] is what the buffer holds at first. *)
Definition vcprintf (junk : mem) (fmt : list Z) (ap : list arg) : pres (Z * list (list Z)) :=
  let! out := vprintfmt fmt ap in
  let b := foldl (λ b ch, putch ch b) (MkPrintbuf 0 0 junk []) out in
  let b := flush b in
  Ok (cnt b, calls b).
Definition cprintf := vcprintf.

(** Never outside the buffer, and nothing lost: what was passed to [sys_cputs] and what
    is still in the buffer are the characters so far. *)
Record buf_ok (b : printbuf) (out : list Z) : Prop := MkBufOk {
  bo_idx : 0 ≤ idx b < 255;
  bo_cnt : cnt b = Z.of_nat (length out);
  bo_calls : Forall (λ c, length c = 255%nat) (calls b);
  bo_text : concat (calls b) ++ contents (buf b) (idx b) = map u8 out;
}.

Lemma contents_upd m n x : 0 ≤ n → contents (upd m n x) (n + 1) = contents m n ++ [x].
Proof.
  intros Hn. unfold contents. rewrite seqZ_app by lia. rewrite map_app. cbn. f_equal.
  - apply map_ext_in. intros a Ha. apply list_elem_of_In, elem_of_seqZ in Ha. apply upd_ne. lia.
  - change (seqZ (0 + n) 1) with [0 + n]. cbn. by rewrite upd_eq by lia.
Qed.

Lemma length_contents m n : length (contents m n) = Z.to_nat n.
Proof. unfold contents. by rewrite length_map, length_seqZ. Qed.

Lemma cputch_ok b out ch : buf_ok b out → buf_ok (putch ch b) (out ++ [ch]).
Proof.
  intros [H1 H2 H3 H4]. unfold putch. cbn [idx cnt buf calls]. change (256 - 1) with 255.
  destruct (Z.eqb_spec (idx b + 1) 255) as [E|E]; split; cbn [idx cnt buf calls flush]; try lia; rewrite ?length_app; try (cbn; lia).
  - apply Forall_app. split; [done|]. apply Forall_singleton. rewrite length_contents. lia.
  - rewrite map_app, <- H4, concat_app, contents_upd by lia. cbn [concat]. by rewrite !app_nil_r, app_assoc.
  - done.
  - rewrite map_app, <- H4, contents_upd by lia. by rewrite app_assoc.
Qed.

(** [cprintf] hands every character to the kernel exactly once and in order, at most
    255 at a time, and returns their number. *)
Lemma vcprintf_ok junk fmt ap out : vprintfmt fmt ap = Ok out →
  ∃ cs, vcprintf junk fmt ap = Ok (Z.of_nat (length out), cs) ∧ concat cs = map u8 out ∧
    Forall (λ c, (length c ≤ 255)%nat) cs.
Proof.
  intros E. unfold vcprintf. rewrite E. cbn [pbind].
  assert (∀ l b pre, buf_ok b pre → buf_ok (foldl (λ b ch, putch ch b) b l) (pre ++ l)) as Hf.
  { induction l as [|c l IH]; intros b pre H; cbn [foldl]; [by rewrite app_nil_r|].
    change (c :: l) with ([c] ++ l). rewrite app_assoc. by apply IH, cputch_ok. }
  destruct (Hf out (MkPrintbuf 0 0 junk []) []) as [H1 H2 H3 H4]; [by split|]. cbn [app] in *.
  eexists. split; [cbn [flush cnt calls]; by rewrite H2|]. split.
  - cbn [flush calls]. rewrite concat_app. cbn [concat]. by rewrite app_nil_r.
  - apply Forall_app. split; [eapply Forall_impl; [done|]; intros c Hc; cbn in Hc; lia|].
    apply Forall_singleton. rewrite length_contents. lia.
Qed.
End Cprintf.

(** ** [lib/fprintf.c] *)
Module Fprintf.
(** [write] is the library call with its result, one for each call in turn; [writes]
    are the bytes given to it. *)
Record printbuf := MkPrintbuf {
  idx : Z; result : Z; error : Z; buf : mem;
  results : list Z; writes : list (list Z) }.

Definition write (b : printbuf) : Z * printbuf :=
  let r := default (- E_INVAL) (head (results b)) in
  (r, MkPrintbuf (idx b) (result b) (error b) (buf b) (tail (results b))
        (writes b ++ [Cprintf.contents (buf b) (idx b)])).

Definition writebuf (b : printbuf) : printbuf :=
  if 0 <? error b then
    let '(r, b) := write b in
    let res := if 0 <? r then result b + r else result b in
    let err := if negb (r =? idx b) then (if r <? 0 then r else 0) else error b in
    MkPrintbuf (idx b) res err (buf b) (results b) (writes b)
  else b.

Definition putch (ch : Z) (b : printbuf) : printbuf :=
  let b := MkPrintbuf (idx b + 1) (result b) (error b) (upd (buf b) (idx b) (u8 ch)) (results b) (writes b) in
  if idx b =? 256 then
    let b := writebuf b in MkPrintbuf 0 (result b) (error b) (buf b) (results b) (writes b)
  else b.

(** The result, and the bytes written, call by call. *)
Definition vfprintf (junk : mem) (rs : list Z) (fmt : list Z) (ap : list arg) : pres (Z * list (list Z)) :=
  let! out := vprintfmt fmt ap in
  let b := foldl (λ b ch, putch ch b) (MkPrintbuf 0 0 1 junk rs []) out in
  let b := if 0 <? idx b then writebuf b else b in
  Ok (if ctrue (result b) then result b else error b, writes b).
Definition fprintf := vfprintf.
Definition printf := vfprintf.

(** Did call [i] take all it was given? *)
Definition full (rs : list Z) (ws : list (list Z)) : Prop :=
  ∀ i c, ws !! i = Some c → rs !! i = Some (Z.of_nat (length c)).

(** Until a call fails or falls short everything is written; after it, nothing. *)
Record fbuf_ok (rs : list Z) (b : printbuf) (out : list Z) : Prop := MkFbufOk {
  fo_idx : 0 ≤ idx b < 256;
  fo_results : results b = drop (length (writes b)) rs;
  fo_text :
    error b = 1 ∧ concat (writes b) ++ Cprintf.contents (buf b) (idx b) = map u8 out ∧
      result b = Z.of_nat (length (concat (writes b))) ∨
    error b ≤ 0 ∧ concat (writes b) `prefix_of` map u8 out ∧ ¬ full rs (writes b);
}.

Lemma full_app rs ws c : full rs (ws ++ [c]) → full rs ws ∧ rs !! length ws = Some (Z.of_nat (length c)).
Proof.
  intros H. split; [|apply H; by rewrite lookup_app_r, Nat.sub_diag by done].
  intros i d E. apply H. rewrite lookup_app_l; [done|]. by eapply lookup_lt_Some.
Qed.

Lemma writebuf_ok rs b out :
  0 < idx b ≤ 256 → results b = drop (length (writes b)) rs →
  (error b = 1 ∧ concat (writes b) ++ Cprintf.contents (buf b) (idx b) = map u8 out ∧
      result b = Z.of_nat (length (concat (writes b))) ∨
    error b ≤ 0 ∧ concat (writes b) `prefix_of` map u8 out ∧ ¬ full rs (writes b)) →
  let b' := writebuf b in
  results b' = drop (length (writes b')) rs ∧ concat (writes b') `prefix_of` map u8 out ∧
  (error b' = 1 ∧ concat (writes b') = map u8 out ∧ result b' = Z.of_nat (length out) ∨
   error b' ≤ 0 ∧ ¬ full rs (writes b')).
Proof.
  intros Hi Hr [(He & Ht & Hs)|(He & Hp & Hn)]; unfold writebuf.
  2: { rewrite (proj2 (Z.ltb_ge _ _)) by lia. split; [done|]. split; [done|by right]. }
  rewrite He. change (0 <? 1) with true. cbn [write idx result error buf results writes].
  assert (concat (writes b ++ [Cprintf.contents (buf b) (idx b)]) = map u8 out) as Hc.
  { rewrite concat_app. cbn [concat]. by rewrite app_nil_r. }
  split; [rewrite Hr, length_app; cbn [length]; rewrite <- drop_drop; by destruct (drop (length (writes b)) rs)|]. rewrite Hc. split; [done|].
  pose proof (f_equal length Hc) as Hl. rewrite concat_app, length_app, length_map in Hl. cbn [concat] in Hl.
  rewrite app_nil_r, Cprintf.length_contents in Hl.
  rewrite Hr, head_lookup, lookup_drop, Nat.add_0_r. destruct (rs !! length (writes b)) as [r|] eqn:E; cbn [default from_option]; unfold id.
  - destruct (Z.eqb_spec r (idx b)) as [->|Hne]; cbn [negb].
    + left. rewrite (proj2 (Z.ltb_lt 0 (idx b))) by lia. split; [done|]. split; [done|]. lia.
    + right. split; [case_match; zbool; lia|]. intros [_ Hf]%full_app. rewrite E, Cprintf.length_contents in Hf. simplify_eq. lia.
  - right. change (- E_INVAL <? 0) with true. destruct (Z.eqb_spec (- E_INVAL) (idx b)) as [Ei|_]; [unfold E_INVAL in Ei; lia|].
    change (- E_INVAL <? 0) with true. cbn [negb]. split; [unfold E_INVAL; lia|]. intros [_ Hf]%full_app. congruence.
Qed.

Lemma fputch_ok rs b out ch : fbuf_ok rs b out → fbuf_ok rs (putch ch b) (out ++ [ch]).
Proof.
  intros [H1 H2 H3]. unfold putch. cbn [idx result error buf results writes].
  set (b1 := MkPrintbuf (idx b + 1) (result b) (error b) (upd (buf b) (idx b) (u8 ch)) (results b) (writes b)).
  assert (error b1 = 1 ∧ concat (writes b1) ++ Cprintf.contents (buf b1) (idx b1) = map u8 (out ++ [ch]) ∧
      result b1 = Z.of_nat (length (concat (writes b1))) ∨
    error b1 ≤ 0 ∧ concat (writes b1) `prefix_of` map u8 (out ++ [ch]) ∧ ¬ full rs (writes b1)) as H.
  { rewrite map_app. unfold b1; cbn [idx result error buf results writes].
    destruct H3 as [(A & B & C)|(A & B & C)]; [left|right]; repeat split; try done.
    - rewrite Cprintf.contents_upd by lia. rewrite app_assoc. by rewrite B.
    - by apply prefix_app_r. }
  destruct (Z.eqb_spec (idx b + 1) 256) as [E|E].
  - destruct (writebuf_ok rs b1 (out ++ [ch])) as (R1 & R2 & R3); [cbn; lia|done|done|].
    split; cbn [idx result error buf results writes]; [lia|done|].
    destruct R3 as [(A & B & C)|(A & B)]; [left|by right]. rewrite B. rewrite length_map. by rewrite app_nil_r.
  - split; [cbn; lia|done|done].
Qed.

(** [fprintf] writes the text in order, up to the first call of [write] that does not take
    all it is given; if none fails, all of it, and the result is the number of
    characters, but 1 when there are none. *)
Lemma vfprintf_ok junk rs fmt ap out : vprintfmt fmt ap = Ok out →
  ∃ r ws, vfprintf junk rs fmt ap = Ok (r, ws) ∧ concat ws `prefix_of` map u8 out ∧
    (full rs ws → concat ws = map u8 out ∧ r = if decide (out = []) then 1 else Z.of_nat (length out)).
Proof.
  intros E. unfold vfprintf. rewrite E. cbn [pbind].
  assert (∀ l b pre, fbuf_ok rs b pre → fbuf_ok rs (foldl (λ b ch, putch ch b) b l) (pre ++ l)) as Hf.
  { induction l as [|c l IH]; intros b pre H; cbn [foldl]; [by rewrite app_nil_r|].
    change (c :: l) with ([c] ++ l). rewrite app_assoc. by apply IH, fputch_ok. }
  destruct (Hf out (MkPrintbuf 0 0 1 junk rs []) []) as [H1 H2 H3]; [split; [done|done|by left]|]. cbn [app] in *.
  set (b := foldl _ _ out) in *. clearbody b. eexists _, _. split; [done|].
  assert (∀ b', error b' = 1 → result b' = Z.of_nat (length out) →
    (if ctrue (result b') then result b' else error b') = if decide (out = []) then 1 else Z.of_nat (length out)) as Hres.
  { intros b' A B. rewrite A, B. destruct (decide (out = [])) as [->|Hne]; [done|].
    rewrite (proj2 (ctrue_true _)); [done|]. by destruct out. }
  destruct (Z.ltb_spec 0 (idx b)) as [Hi|Hi].
  - destruct (writebuf_ok rs b out) as (R1 & R2 & R3); [lia|done|done|]. split; [done|]. intros Hfull.
    destruct R3 as [(A & B & C)|[_ N]]; [|done]. split; [done|]. by apply Hres.
  - assert (idx b = 0) as E0 by lia. rewrite E0 in H3. change (Cprintf.contents (buf b) 0) with (@nil Z) in H3.
    rewrite app_nil_r in H3. destruct H3 as [(A & B & C)|(A & B & C)].
    + rewrite B. split; [done|]. intros _. split; [done|]. apply Hres; [done|]. by rewrite C, B, length_map.
    + split; [done|]. intros Hfull. done.
Qed.
End Fprintf.

(** ** [kernel/printf.c] *)
Module Kprintf.
Definition putch (ch : Z) (cnt : Z) : M constate Z := do* cons_putc ch in ret (cnt + 1).

Fixpoint putchs (out : list Z) (cnt : Z) : M constate Z :=
  match out with
  | [] => ret cnt
  | ch :: r => let* cnt := putch ch cnt in putchs r cnt
  end.

Definition vcprintf (fmt : list Z) (ap : list arg) : M constate Z :=
  match vprintfmt fmt ap with Ok out => putchs out 0 | _ => fault end.
Definition cprintf := vcprintf.

Lemma putchs_puts l : ∀ n s, putchs l n s = (do* cons_puts l in ret (n + Z.of_nat (length l))) s.
Proof.
  induction l as [|c l IH]; intros n s; cbn [putchs cons_puts length]; [unfold bind; cbn; f_equal; lia|].
  unfold bind, putch, bind. destruct (cons_putc c s) as [[] s'| | |]; [|done..]. unfold ret at 1.
  rewrite IH. unfold bind. destruct (cons_puts l s') as [[] s2| | |]; [|done..]. cbn. f_equal. lia.
Qed.

(** The text that the keyboard driver prints. *)
Lemma cprintf_rebooting s : cprintf (str "Rebooting!"%string ++ [10]) [] s = (do* cons_puts rebooting in ret 11) s.
Proof.
  unfold cprintf, vcprintf. assert (vprintfmt (str "Rebooting!"%string ++ [10]) [] = Ok rebooting) as -> by (vm_compute; reflexivity).
  apply putchs_puts.
Qed.
End Kprintf.

(** ** [lib/readline.c]

    [getchar] yields the characters of the input in turn; with the input used up
    [readline] waits, which is [None]. *)
Module Readline.
Definition BUFLEN : Z := 1024.

Record line := MkLine { len : Z; buf : mem; echo : list Z }.

(** [inl] an error and [inr] the line, terminated in the buffer. *)
Fixpoint readline_from (input : list Z) (echoing : bool) (l : line) : option (Z + line) :=
  match input with
  | [] => None
  | c :: input =>
      let put s := if echoing then echo l ++ s else echo l in
      if c <? 0 then Some (inl c)
      else if ((c =? 8) || (c =? 127)) && (0 <? len l) then
        readline_from input echoing (MkLine (len l - 1) (buf l) (put [8; 32; 8]))
      else if (32 <=? c) && (len l <? BUFLEN - 1) then
        readline_from input echoing (MkLine (len l + 1) (upd (buf l) (len l) (u8 c)) (put [c]))
      else if (c =? 10) || (c =? 13) then
        Some (inr (MkLine (len l) (upd (buf l) (len l) 0) (put [10])))
      else readline_from input echoing l
  end.
Definition readline (m : mem) (prompt : option (list Z)) (input : list Z) (echoing : bool) : option (Z + line) :=
  match (match prompt with Some p => vprintfmt (str "%s"%string) [AStr p] | None => Ok [] end) with
  | Ok out => readline_from input echoing (MkLine 0 m out)
  | _ => None
  end.

(** What a line editor with a line of at most 1023 characters keeps of the typed
    characters: the reference is on lists, the last character first. *)
Definition edit (kept : list Z) (c : Z) : list Z :=
  if decide ((c = 8 ∨ c = 127) ∧ kept ≠ []) then tail kept
  else if decide (32 ≤ c ∧ (length kept < 1023)%nat) then c :: kept
  else kept.

Lemma readline_from_ok input echoing m0 : ∀ l kept,
  len l = Z.of_nat (length kept) → (length kept ≤ 1023)%nat → text_at (buf l) 0 (map u8 (reverse kept)) →
  (∀ a, a < 0 ∨ BUFLEN ≤ a → buf l a = m0 a) →
  ∀ pre c rest, input = pre ++ c :: rest → Forall (λ x, 0 ≤ x ∧ x ≠ 10 ∧ x ≠ 13) pre → c = 10 ∨ c = 13 →
  ∃ l', readline_from input echoing l = Some (inr l') ∧
    text_at (buf l') 0 (map u8 (reverse (foldl edit kept pre))) ∧ buf l' (len l') = 0 ∧
    len l' = Z.of_nat (length (foldl edit kept pre)) ∧ len l' < BUFLEN ∧ (∀ a, a < 0 ∨ BUFLEN ≤ a → buf l' a = m0 a).
Proof.
  induction input as [|x input IH]; intros l kept Hl Hk Ht Hm pre c rest E Hp Hc; [by destruct pre|].
  destruct l as [n b e]. cbn [len buf] in *. cbn [readline_from len buf echo]. unfold BUFLEN in *. destruct pre as [|y pre].
  - cbn in E. injection E as -> ->. cbn [foldl].
    rewrite (proj2 (Z.ltb_ge c 0)), (proj2 (Z.eqb_neq c 8)), (proj2 (Z.eqb_neq c 127)), (proj2 (Z.leb_gt 32 c)) by lia. cbn [orb andb].
    replace ((c =? 10) || (c =? 13)) with true by (by destruct Hc as [-> | ->]). eexists. split; [done|]. cbn [len buf].
    split; [|split; [by rewrite upd_eq|split; [done|split; [lia|intros a Ha; rewrite upd_ne by lia; by apply Hm]]]].
    intros i z Hz. pose proof (lookup_lt_Some _ _ _ Hz) as Hi. rewrite length_map, length_reverse in Hi.
    rewrite upd_ne by lia. by apply Ht.
  - cbn in E. injection E as -> ->. apply Forall_cons in Hp as [(Y1 & Y2 & Y3) Hp]. cbn [foldl].
    rewrite (proj2 (Z.ltb_ge y 0)) by lia. unfold edit at 2 4.
    destruct (decide ((y = 8 ∨ y = 127) ∧ kept ≠ [])) as [[Hy Hne]|Hno].
    + destruct kept as [|k kept]; [done|]. cbn [length tail] in *.
      rewrite (proj2 (orb_true_iff (y =? 8) (y =? 127))) by (rewrite !Z.eqb_eq; lia). rewrite (proj2 (Z.ltb_lt 0 n)) by lia. cbn [andb].
      eapply IH; cbn [len buf]; [lia|lia| |done|done|done|done].
      rewrite reverse_cons, map_app in Ht. by apply text_at_app in Ht as [Ht _].
    + replace (((y =? 8) || (y =? 127)) && (0 <? n)) with false.
      2: { symmetry. apply andb_false_iff. destruct kept as [|k kept]; [right; cbn in Hl; apply Z.ltb_ge; lia|left].
           apply orb_false_iff. split; apply Z.eqb_neq; intros ->; apply Hno; split; try done; ((by left) || (by right)). }
      destruct (decide (32 ≤ y ∧ (length kept < 1023)%nat)) as [[Hy Hlen]|Hn2].
      * rewrite (proj2 (Z.leb_le 32 y) Hy), (proj2 (Z.ltb_lt n (1024 - 1))) by lia. cbn [andb].
        eapply IH; cbn [len buf]; [cbn [length]; lia|cbn [length]; lia| |intros a Ha; rewrite upd_ne by lia; by apply Hm|done|done|done].
        rewrite reverse_cons, map_app. apply text_at_app. rewrite length_map, length_reverse. split.
        -- intros i z Hz. pose proof (lookup_lt_Some _ _ _ Hz) as Hi. rewrite length_map, length_reverse in Hi.
           rewrite upd_ne by lia. by apply Ht.
        -- cbn [map]. apply text_at_cons. split; [by rewrite upd_eq by lia|done].
      * replace ((32 <=? y) && (n <? 1024 - 1)) with false.
        2: { symmetry. apply andb_false_iff. destruct (Z.leb_spec 32 y); [right; apply Z.ltb_ge; lia|by left]. }
        rewrite (proj2 (Z.eqb_neq y 10) Y2), (proj2 (Z.eqb_neq y 13) Y3). cbn [orb].
        by eapply IH.
Qed.
End Readline.
