(* ===== verification/Buddy.v ===== *)
(** * The buddy allocator: [lib/buddy.c], [include/buddy.h]

    The pool is a power of two in size.  [manager] is a complete binary tree in an
    array, one byte per node: the logarithm of the largest free block below the node, 0
    when there is none.  An access outside the array is a [Fault]. *)

From stdpp Require Import base list strings.
From Stdlib Require Import ZArith Lia.
From S2P Require Import Prelude Mmu Math.

(** ** The code *)
Record buddy_pool := MkBuddy {
  pool_start : Z;
  pool_size : Z;
  pool_order : Z;
  node_size : Z;
  manager : Z → Z;
  manager_size : Z;
  curr_size : Z;
  lock : Z;
}.

Definition set_manager (m : Z → Z) (b : buddy_pool) : buddy_pool :=
  MkBuddy (pool_start b) (pool_size b) (pool_order b) (node_size b) m (manager_size b) (curr_size b) (lock b).
Definition set_curr_size (x : Z) (b : buddy_pool) : buddy_pool :=
  MkBuddy (pool_start b) (pool_size b) (pool_order b) (node_size b) (manager b) (manager_size b) x (lock b).
Definition lchild_of (x : Z) : Z := u32 (Z.shiftl (x + 1) 1 - 1).
Definition rchild_of (x : Z) : Z := u32 (Z.shiftl (x + 1) 1).
Definition parent_of (x : Z) : Z := u32 (Z.shiftr (u32 (x + 1)) 1 - 1).

Definition buddy_mgs (size node_size : Z) : Z := u32 (Z.shiftl (size / node_size) 1 - 1).

Definition get_order (i : Z) : M buddy_pool Z := λ b,
  if (0 <=? i) && (i <? manager_size b) then Ret (manager b i) b else Fault.
Definition set_order (i v : Z) : M buddy_pool unit := λ b,
  if (0 <=? i) && (i <? manager_size b) then Ret tt (set_manager (upd (manager b) i (u8 v)) b) else Fault.

(** The locks of [lib/itc.c] do nothing: threads give way to each other only where they
    say so. *)
Definition sys_spin_lock_init : M buddy_pool Z := ret 0.
Definition sys_spin_lock (lk : Z) : M buddy_pool unit := ret tt.
Definition sys_spin_unlock (lk : Z) : M buddy_pool unit := ret tt.

(** The loop that fills the manager; [n] entries are left. *)
Fixpoint init_orders (n : nat) (i child_order : Z) (m : Z → Z) : Z → Z :=
  match n with
  | O => m
  | S k =>
      let child_order := if is_pow_of_2 (u32 (i + 1)) then u32 (child_order - 1) else child_order in
      init_orders k (i + 1) child_order (upd m i (u8 child_order))
  end.

(** [area]: is [manager_area] given? *)
Definition buddy_init (start size : Z) (area : bool) (node_size : Z) : M buddy_pool Z :=
  if (size =? 0) || negb area || (node_size =? 0) then ret (- E_INVAL)
  else if negb (is_pow_of_2 size) || negb (is_pow_of_2 node_size) then ret (- E_INVAL)
  else if ctrue (size mod node_size) then ret (- E_INVAL)
  else
    let* r := sys_spin_lock_init in
    if r <? 0 then ret r else
    do* modify (λ b,
      let order := log_of_2 size in
      let mgs := buddy_mgs size node_size in
      MkBuddy start size order node_size (init_orders (Z.to_nat mgs) 0 (u32 (order + 1)) (manager b)) mgs size r) in
    ret 0.

(** [while ((i < manager_size) && (manager[i].order >= order))]. *)
Fixpoint descend (fuel : nat) (order i : Z) : M buddy_pool Z :=
  match fuel with
  | O => fault
  | S f =>
      let* n := gets manager_size in
      if negb (i <? n) then ret i else
      let* o := get_order i in
      if negb (order <=? o) then ret i else
      if rchild_of i <? n then
        let* l := get_order (lchild_of i) in
        descend f order (if order <=? l then lchild_of i else rchild_of i)
      else descend f order (rchild_of i)
  end.

(** The loop that brings the parents up to date after an allocation. *)
Fixpoint resume_alloc (fuel : nat) (i : Z) : M buddy_pool unit :=
  match fuel with
  | O => fault
  | S f =>
      if i =? 0 then ret tt else
      let i := parent_of i in
      let* l := get_order (lchild_of i) in
      let* r := get_order (rchild_of i) in
      do* set_order i (Z.max l r) in
      resume_alloc f i
  end.

(** At most 32 levels, and one step past the leaves. *)
Definition depth_fuel : nat := 34.

Definition buddy_alloc (size : Z) : M buddy_pool Z :=
  if size =? 0 then ret 0 else
  let* b := gets id in
  let size := next_pow_of_2 size in
  let size := Z.max size (node_size b) in
  let* max_order := get_order 0 in
  if Z.shiftl 1 max_order <? size then ret 0 else
  let order := u8 (log_of_2 size) in
  do* sys_spin_lock (lock b) in
  let* i := descend depth_fuel order 0 in
  let i := parent_of i in
  let offset := u32 (u32 ((i + 1) * size) - pool_size b) in
  if s32 offset <? 0 then panic "buddy allocate crash" else
  do* set_order i 0 in
  do* modify (λ b, set_curr_size (u32 (curr_size b - size)) b) in
  do* resume_alloc depth_fuel i in
  do* sys_spin_unlock (lock b) in
  ret (u32 (pool_start b + offset)).

(** [while (i && manager[i].order)]: the node and its order. *)
Fixpoint ascend (fuel : nat) (i order : Z) : M buddy_pool (Z * Z) :=
  match fuel with
  | O => fault
  | S f =>
      if i =? 0 then ret (i, order) else
      let* o := get_order i in
      if o =? 0 then ret (i, order) else ascend f (parent_of i) (u8 (order + 1))
  end.

(** The loop that brings the parents up to date after a release. *)
Fixpoint resume_free (fuel : nat) (i order : Z) : M buddy_pool unit :=
  match fuel with
  | O => fault
  | S f =>
      if i =? 0 then ret tt else
      let i := parent_of i in
      let* l := get_order (lchild_of i) in
      let* r := get_order (rchild_of i) in
      do* set_order i (Z.max l r) in
      do* (if (l =? order) && (r =? order) then let* o := get_order i in set_order i (o + 1) else ret tt) in
      resume_free f i (u8 (order + 1))
  end.

Definition buddy_free (addr : Z) : M buddy_pool unit :=
  if addr =? 0 then ret tt else
  let* b := gets id in
  let offset := u32 (addr - pool_start b) in
  if pool_size b <? offset then panic "buddy invalid addr" else
  do* sys_spin_lock (lock b) in
  let i := u32 (u32 (offset + pool_size b) / node_size b - 1) in
  let order := u8 (log_of_2 (node_size b)) in
  let* (i, order) := ascend depth_fuel i order in
  if negb (offset =? u32 (u32 ((i + 1) * Z.shiftl 1 order) - pool_size b)) then panic "buddy free crash" else
  do* set_order i order in
  do* modify (λ b, set_curr_size (u32 (curr_size b + Z.shiftl 1 order)) b) in
  do* resume_free depth_fuel i order in
  sys_spin_unlock (lock b).
