(* ===== verification/BuddyInv.v ===== *)
(** * The tree of the buddy allocator

    The abstract state is a tree of free, used and split blocks.  [rep] says that the
    array of orders represents it; a zipper of sibling trees describes the way from a
    block to the root, along which both operations bring the array up to date. *)

From stdpp Require Import base list strings.
From Stdlib Require Import ZArith Lia.
From S2P Require Import Prelude Mmu Math Buddy.

Inductive tree : Type :=
| Free
| Used
| Split (l r : tree).

#[global] Instance tree_eq_dec : EqDecision tree.
Proof. solve_decision. Defined.

(** ** Nodes

    The children of node [i] are [2 i + 1] and [2 i + 2]; [x] is below [i]. *)
Definition below (i x : Z) : Prop := ∃ e, 0 ≤ e ∧ (x + 1) / 2 ^ e = i + 1.

Lemma below_refl i : below i i.
Proof. exists 0. split; [done|]. apply Z.div_1_r. Qed.

Lemma below_child i j x : 0 ≤ i → j = 2 * i + 1 ∨ j = 2 * i + 2 → below j x → below i x.
Proof.
  intros Hi Hj (e & He & E). exists (e + 1). split; [lia|]. rewrite Z.pow_add_r, <- Z.div_div by lia. rewrite E. 
  change (2 ^ 1) with 2. dlia.
Qed.

Lemma below_ge i x : 0 ≤ i → below i x → i ≤ x.
Proof.
  intros Hi (e & He & E). assert (0 < 2 ^ e) by (apply Z.pow_pos_nonneg; lia).
  destruct (Z.le_gt_cases (x + 1) 0) as [H0|H0]; [assert ((x + 1) / 2 ^ e ≤ 0) by (apply Z.div_le_upper_bound; lia); lia|].
  pose proof (Z.div_le_upper_bound (x + 1) (2 ^ e) (x + 1) ltac:(lia) ltac:(nia)). lia.
Qed.

(** Nodes of the same level have nothing below them in common. *)
Lemma below_same i j x : 0 ≤ i → 0 ≤ j → Z.log2 (i + 1) = Z.log2 (j + 1) → below i x → below j x → i = j.
Proof.
  intros Hi Hj Hd (e & He & E) (f & Hf & F).
  assert (0 < x + 1) as Hx. { destruct (Z.le_gt_cases (x + 1) 0) as [H|H]; [|done]. assert (0 < 2 ^ e) by (apply Z.pow_pos_nonneg; lia).
    assert ((x + 1) / 2 ^ e ≤ 0) by (apply Z.div_le_upper_bound; lia). lia. }
  assert (∀ g k, 0 ≤ g → 0 ≤ k → (x + 1) / 2 ^ g = k + 1 → Z.log2 (x + 1) = Z.log2 (k + 1) + g) as Hl.
  { intros g k Hg Hk Eg. rewrite <- Eg, <- Z.shiftr_div_pow2, Z.log2_shiftr by lia.
    assert (g ≤ Z.log2 (x + 1)); [|lia]. apply Z.log2_le_pow2; [done|].
    destruct (Z.le_gt_cases (2 ^ g) (x + 1)); [done|]. rewrite Z.div_small in Eg; lia. }
  assert (e = f) as -> by (pose proof (Hl e i He Hi E); pose proof (Hl f j Hf Hj F); lia). lia.
Qed.

Section tree.
(** The pool has [2 ^ h] blocks of the least size, [2 ^ ln]. *)
Context (ln : Z) (h : nat).

(** Node [i] of height [k], and all nodes below it, have the order of their whole block. *)
Fixpoint whole (k : nat) (m : Z → Z) (i : Z) : Prop :=
  m i = ln + Z.of_nat k ∧
  match k with O => True | S k' => whole k' m (2 * i + 1) ∧ whole k' m (2 * i + 2) end.

Definition parts_whole (k : nat) (m : Z → Z) (i : Z) : Prop :=
  match k with O => True | S k' => whole k' m (2 * i + 1) ∧ whole k' m (2 * i + 2) end.

Fixpoint rep (k : nat) (m : Z → Z) (t : tree) (i : Z) {struct t} : Prop :=
  match t with
  | Free => m i = ln + Z.of_nat k ∧ parts_whole k m i
  | Used => m i = 0 ∧ parts_whole k m i
  | Split l r =>
      match k with
      | O => False
      | S k' => rep k' m l (2 * i + 1) ∧ rep k' m r (2 * i + 2) ∧
          m i = Z.max (m (2 * i + 1)) (m (2 * i + 2)) ∧ (l ≠ Free ∨ r ≠ Free)
      end
  end.

Lemma whole_ext k m m' i : 0 ≤ i → (∀ x, below i x → m' x = m x) → whole k m i → whole k m' i.
Proof.
  revert i. induction k as [|k IH]; intros i Hi H [H1 H2]; (split; [by rewrite H by apply below_refl|]); [done|].
  destruct H2 as [A B]. split; apply IH; try done; try lia; intros x Hx; apply H; (eapply below_child; [done| |done]; lia).
Qed.

Lemma parts_whole_ext k m m' i : 0 ≤ i → (∀ x, below i x → x ≠ i → m' x = m x) → parts_whole k m i → parts_whole k m' i.
Proof.
  destruct k as [|k]; intros Hi H Hw; [done|]. destruct Hw as [A B].
  split; (eapply whole_ext; [lia| |done]); intros x Hx; apply H.
  1,3: eapply below_child; [done| |done]; lia.
  all: apply below_ge in Hx; lia.
Qed.

Lemma rep_ext k m m' t i : 0 ≤ i → (∀ x, below i x → m' x = m x) → rep k m t i → rep k m' t i.
Proof.
  revert k i. induction t as [| |l IHl r IHr]; intros k i Hi H Hr; cbn [rep] in *.
  1,2: destruct Hr as [A B]; split; [by rewrite H by apply below_refl|]; eapply parts_whole_ext; [done| |done]; auto.
  destruct k as [|k]; [done|]. destruct Hr as (A & B & C & D).
  assert (∀ j, j = 2 * i + 1 ∨ j = 2 * i + 2 → ∀ x, below j x → m' x = m x) as Hj.
  { intros j Hj x Hx. apply H. by eapply below_child. }
  rewrite !(H i (below_refl i)), !(Hj (2 * i + 1)), !(Hj (2 * i + 2)) by (lia || apply below_refl).
  split; [apply IHl; [lia|apply Hj; lia|done]|]. split; [apply IHr; [lia|apply Hj; lia|done]|done].
Qed.

Lemma whole_parts k m i : whole k m i ↔ m i = ln + Z.of_nat k ∧ parts_whole k m i.
Proof. by destruct k. Qed.

Lemma rep_free_whole k m i : rep k m Free i ↔ whole k m i.
Proof. by rewrite whole_parts. Qed.

(** The value of a node: at most the order of its block, which only a free one has. *)
Lemma rep_value k m t i : 1 ≤ ln → rep k m t i →
  0 ≤ m i ≤ ln + Z.of_nat k ∧ (m i = ln + Z.of_nat k ↔ t = Free).
Proof.
  intros Hln. revert k i. induction t as [| |l IHl r IHr]; intros k i Hr; cbn [rep] in Hr.
  - destruct Hr as [-> _]. split; [lia|done].
  - destruct Hr as [-> _]. split; [lia|]. split; [lia|done].
  - destruct k as [|k]; [done|]. destruct Hr as (A & B & C & D).
    destruct (IHl _ _ A) as [L1 L2], (IHr _ _ B) as [R1 R2]. split; [lia|]. split; [lia|done].
Qed.

(** ** Zippers

    [zip k m i c]: node [i] has height [k], and [c] lists the siblings on the way up,
    each with the side of the node it is the sibling of. *)
Fixpoint zip (k : nat) (m : Z → Z) (i : Z) (c : list (bool * tree)) : Prop :=
  match c with
  | [] => i = 0 ∧ k = h
  | (lt, sib) :: c' =>
      ∃ p, 0 ≤ p ∧ i = (if lt then 2 * p + 1 else 2 * p + 2) ∧
        rep k m sib (if lt then 2 * p + 2 else 2 * p + 1) ∧ zip (S k) m p c'
  end.

Lemma zip_level k m i c : zip k m i c → 0 ≤ i ∧ Z.log2 (i + 1) = Z.of_nat h - Z.of_nat k.
Proof.
  revert k i. induction c as [|[lt sib] c IH]; intros k i H; cbn [zip] in H.
  - destruct H as [-> ->]. split; [done|]. change (Z.log2 (0 + 1)) with 0. lia.
  - destruct H as (p & Hp & -> & _ & H). destruct (IH _ _ H) as [_ E]. split; [destruct lt; lia|].
    replace ((if lt then 2 * p + 1 else 2 * p + 2) + 1) with (if lt then 2 * (p + 1) else 2 * (p + 1) + 1) by (destruct lt; lia).
    destruct lt; [rewrite Z.log2_double by lia; lia|]. rewrite Z.log2_succ_double by lia. lia.
Qed.

Lemma zip_height k m i c : zip k m i c → (k + length c = h)%nat.
Proof.
  revert k i. induction c as [|[lt sib] c IH]; intros k i H; cbn [zip length] in *; [lia|].
  destruct H as (p & _ & _ & _ & H). apply IH in H. lia.
Qed.

(** A change below the node does not concern the zipper. *)
Lemma zip_upd k m i c x v : zip k m i c → below i x → zip k (upd m x v) i c.
Proof.
  revert k i. induction c as [|[lt sib] c IH]; intros k i H Hx; [done|]. pose proof (zip_level _ _ _ _ H) as [L0 L1].
  destruct H as (p & Hp & -> & Hs & H). pose proof (zip_level _ _ _ _ H) as [_ L2]. exists p. do 2 (split; [done|]).
  assert (below p x) as Hpx by (eapply below_child; [done| |done]; destruct lt; lia).
  split; [|by apply IH]. eapply rep_ext; [destruct lt; lia| |done]. intros y Hy. apply upd_ne. intros ->.
  assert ((if lt then 2 * p + 1 else 2 * p + 2) = (if lt then 2 * p + 2 else 2 * p + 1)) as E; [|destruct lt; lia].
  apply (below_same _ _ x); try done; [destruct lt; lia|].
  destruct lt.
  - replace (2 * p + 1 + 1) with (2 * (p + 1)) by lia. replace (2 * p + 2 + 1) with (2 * (p + 1) + 1) by lia.
    rewrite Z.log2_double, Z.log2_succ_double by lia. done.
  - replace (2 * p + 1 + 1) with (2 * (p + 1)) by lia. replace (2 * p + 2 + 1) with (2 * (p + 1) + 1) by lia.
    rewrite Z.log2_double, Z.log2_succ_double by lia. done.
Qed.

(** The tree with [t] at the place of the zipper. *)
Fixpoint plug (t : tree) (c : list (bool * tree)) : tree :=
  match c with
  | [] => t
  | (lt, sib) :: c' => plug (if lt then Split t sib else Split sib t) c'
  end.

(** The same, joining free buddies. *)
Definition join (l r : tree) : tree := if decide (l = Free ∧ r = Free) then Free else Split l r.
Fixpoint plug_join (t : tree) (c : list (bool * tree)) : tree :=
  match c with
  | [] => t
  | (lt, sib) :: c' => plug_join (if lt then join t sib else join sib t) c'
  end.

(** ** Blocks *)
Definition offset_of (k : nat) (i : Z) : Z := (i + 1) * 2 ^ (ln + Z.of_nat k) - 2 ^ (ln + Z.of_nat h).

(** The used blocks: offset and order. *)
Fixpoint used (k : nat) (t : tree) (i : Z) {struct t} : list (Z * Z) :=
  match t with
  | Free => []
  | Used => [(offset_of k i, ln + Z.of_nat k)]
  | Split l r => match k with O => [] | S k' => used k' l (2 * i + 1) ++ used k' r (2 * i + 2) end
  end.

(** The used blocks in the siblings of a zipper. *)
Fixpoint used_zip (k : nat) (i : Z) (c : list (bool * tree)) : list (Z * Z) :=
  match c with
  | [] => []
  | (lt, sib) :: c' =>
      let p := (i - 1) / 2 in
      used k sib (if lt then 2 * p + 2 else 2 * p + 1) ++ used_zip (S k) p c'
  end.

Lemma parent_index (lt : bool) p : ((if lt then 2 * p + 1 else 2 * p + 2) - 1) / 2 = p.
Proof. destruct lt; dlia. Qed.

Lemma used_plug k m t i c : zip k m i c → used h (plug t c) 0 ≡ₚ used k t i ++ used_zip k i c.
Proof.
  revert k t i. induction c as [|[lt sib] c IH]; intros k t i H; cbn [zip plug used_zip] in *.
  - destruct H as [-> ->]. by rewrite app_nil_r.
  - destruct H as (p & Hp & -> & _ & H). rewrite parent_index, (IH (S k) _ p H). rewrite app_assoc. f_equiv.
    destruct lt; cbn [used]; [done|]. by rewrite Permutation_app_comm.
Qed.

Lemma used_join k l r i : used (S k) (join l r) i = used k l (2 * i + 1) ++ used k r (2 * i + 2).
Proof. unfold join. destruct (decide _) as [[-> ->]|]; [done|done]. Qed.

Lemma used_plug_join k m t i c : zip k m i c → used h (plug_join t c) 0 ≡ₚ used k t i ++ used_zip k i c.
Proof.
  revert k t i. induction c as [|[lt sib] c IH]; intros k t i H; cbn [zip plug_join used_zip] in *.
  - destruct H as [-> ->]. by rewrite app_nil_r.
  - destruct H as (p & Hp & -> & _ & H). rewrite parent_index, (IH (S k) _ p H). rewrite app_assoc. f_equiv.
    destruct lt; rewrite used_join; [done|]. by rewrite Permutation_app_comm.
Qed.

(** A block that is not free has a used part. *)
Lemma used_nonempty k m t i : rep k m t i → t ≠ Free → used k t i ≠ [].
Proof.
  revert k i. induction t as [| |l IHl r IHr]; intros k i H Hne; cbn [used]; [done|done|].
  destruct k as [|k]; [done|]. destruct H as (A & B & _ & [D|D]); intros E; apply app_eq_nil in E as [E1 E2].
  - by apply (IHl _ _ A D).
  - by apply (IHr _ _ B D).
Qed.

(** *** Extents *)
Context (Hln : 0 ≤ ln).

Lemma pow_S k : 2 ^ (ln + Z.of_nat (S k)) = 2 * 2 ^ (ln + Z.of_nat k).
Proof. replace (ln + Z.of_nat (S k)) with (Z.succ (ln + Z.of_nat k)) by lia. apply Z.pow_succ_r. lia. Qed.

Lemma offset_left k i : offset_of k (2 * i + 1) = offset_of (S k) i.
Proof. unfold offset_of. rewrite pow_S. lia. Qed.

Lemma offset_right k i : offset_of k (2 * i + 2) = offset_of (S k) i + 2 ^ (ln + Z.of_nat k).
Proof. unfold offset_of. rewrite pow_S. lia. Qed.

Lemma pow_pos k : 0 < 2 ^ (ln + Z.of_nat k).
Proof. apply Z.pow_pos_nonneg; lia. Qed.

(** Used blocks lie inside their node. *)
Lemma used_inside k t i q o : (q, o) ∈ used k t i →
  offset_of k i ≤ q ∧ q + 2 ^ o ≤ offset_of k i + 2 ^ (ln + Z.of_nat k).
Proof.
  revert k i. induction t as [| |l IHl r IHr]; intros k i H; cbn [used] in H.
  - by apply not_elem_of_nil in H.
  - apply list_elem_of_singleton in H as [= -> ->]. lia.
  - destruct k as [|k]; [by apply not_elem_of_nil in H|]. pose proof (pow_pos k). rewrite pow_S.
    apply elem_of_app in H as [H|H]; [apply IHl in H; rewrite offset_left in H|apply IHr in H; rewrite offset_right in H]; lia.
Qed.

Definition used_sum (l : list (Z * Z)) : Z := foldr (λ x n, 2 ^ x.2 + n) 0 l.

Lemma used_sum_app l r : used_sum (l ++ r) = used_sum l + used_sum r.
Proof. unfold used_sum. induction l as [|x l IH]; cbn [app foldr]; [done|]. rewrite IH. lia. Qed.

Lemma used_sum_perm l r : l ≡ₚ r → used_sum l = used_sum r.
Proof. unfold used_sum. induction 1; cbn [foldr]; lia. Qed.

Lemma used_sum_le k t i : 0 ≤ used_sum (used k t i) ≤ 2 ^ (ln + Z.of_nat k).
Proof.
  revert k i. induction t as [| |l IHl r IHr]; intros k i; cbn [used]; pose proof (pow_pos k).
  - cbn. lia.
  - cbn. lia.
  - destruct k as [|k]; [cbn; lia|]. rewrite used_sum_app, pow_S. specialize (IHl k (2 * i + 1)). specialize (IHr k (2 * i + 2)). lia.
Qed.

(** The siblings' blocks do not touch the node. *)
Lemma zip_apart k m i c q o : zip k m i c → (q, o) ∈ used_zip k i c →
  q + 2 ^ o ≤ offset_of k i ∨ offset_of k i + 2 ^ (ln + Z.of_nat k) ≤ q.
Proof.
  revert k i. induction c as [|[lt sib] c IH]; intros k i H Hq; cbn [zip used_zip] in *; [by apply not_elem_of_nil in Hq|].
  destruct H as (p & Hp & -> & _ & H). rewrite parent_index in Hq. pose proof (pow_pos k). apply elem_of_app in Hq as [Hq|Hq].
  - apply used_inside in Hq. destruct lt; rewrite offset_left, offset_right in *; lia.
  - specialize (IH _ _ H Hq). rewrite pow_S in IH. destruct lt; rewrite ?offset_left, ?offset_right; lia.
Qed.

(** A node lies in the pool, at a multiple of its size. *)
Lemma zip_place k m i c : zip k m i c →
  0 ≤ offset_of k i ∧ offset_of k i + 2 ^ (ln + Z.of_nat k) ≤ 2 ^ (ln + Z.of_nat h) ∧
  offset_of k i mod 2 ^ (ln + Z.of_nat k) = 0.
Proof.
  intros H. pose proof (zip_level _ _ _ _ H) as [L0 L1]. pose proof (zip_height _ _ _ _ H) as L2.
  pose proof (Z.log2_spec (i + 1) ltac:(lia)) as [S1 S2]. rewrite L1 in S1, S2. rewrite Z.pow_succ_r in S2 by lia.
  pose proof (pow_pos k) as Hk. assert (2 ^ (ln + Z.of_nat h) = 2 ^ (Z.of_nat h - Z.of_nat k) * 2 ^ (ln + Z.of_nat k)) as E.
  { rewrite <- Z.pow_add_r by lia. f_equal. lia. }
  unfold offset_of. rewrite E. split; [nia|]. split; [nia|].
  rewrite <- Z.mul_sub_distr_r. apply Z.mod_mul. lia.
Qed.

(** Without a free block of the order, every aligned block of it meets a used one. *)
Definition meets (l : list (Z * Z)) (off o : Z) : Prop := ∃ q u, (q, u) ∈ l ∧ q < off + 2 ^ o ∧ off < q + 2 ^ u.

Lemma used_pos k t i q o : (q, o) ∈ used k t i → 0 < 2 ^ o.
Proof.
  revert k i. induction t as [| |l IHl r IHr]; intros k i H; cbn [used] in H.
  - by apply not_elem_of_nil in H.
  - apply list_elem_of_singleton in H as [= -> ->]. apply pow_pos.
  - destruct k as [|k]; [by apply not_elem_of_nil in H|]. apply elem_of_app in H as [H|H]; eauto.
Qed.

Lemma no_room k m t i j off : 1 ≤ ln → rep k m t i → m i < ln + Z.of_nat j → (j ≤ k)%nat → offset_of k i ≤ off →
  off + 2 ^ (ln + Z.of_nat j) ≤ offset_of k i + 2 ^ (ln + Z.of_nat k) → (off - offset_of k i) mod 2 ^ (ln + Z.of_nat j) = 0 →
  meets (used k t i) off (ln + Z.of_nat j).
Proof.
  intros Hln1. revert k i. induction t as [| |l IHl r IHr]; intros k i Hr Hm Hj H1 H2 H3.
  - destruct Hr as [E _]. lia.
  - pose proof (pow_pos j). exists (offset_of k i), (ln + Z.of_nat k). split; [left|]. lia.
  - pose proof (used_nonempty _ _ _ _ Hr) as Hne. destruct k as [|k]; [done|].
    destruct Hr as (A & B & C & D). pose proof (pow_pos j) as Pj. pose proof (pow_pos k) as Pk.
    destruct (decide (j = S k)) as [->|Hjk].
    + destruct (used (S k) (Split l r) i) as [|[q u] rest] eqn:E; [exfalso; by apply Hne|].
      assert ((q, u) ∈ used (S k) (Split l r) i) as Hin by (rewrite E; left).
      pose proof (used_inside _ _ _ _ _ Hin). pose proof (used_pos _ _ _ _ _ Hin). exists q, u. split; [left|]. lia.
    + rewrite pow_S in H2. assert (2 ^ (ln + Z.of_nat k) = 2 ^ (ln + Z.of_nat j) * 2 ^ (Z.of_nat k - Z.of_nat j)) as Ep.
      { rewrite <- Z.pow_add_r by lia. f_equal. lia. }
      assert (0 < 2 ^ (Z.of_nat k - Z.of_nat j)) as P2 by (apply Z.pow_pos_nonneg; lia).
      assert (∃ d, off - offset_of (S k) i = d * 2 ^ (ln + Z.of_nat j)) as [d Ed].
      { exists ((off - offset_of (S k) i) / 2 ^ (ln + Z.of_nat j)). pose proof (Z.div_mod (off - offset_of (S k) i) (2 ^ (ln + Z.of_nat j)) ltac:(lia)). lia. }
      cbn [used]. destruct (Z.lt_ge_cases d (2 ^ (Z.of_nat k - Z.of_nat j))) as [Hd|Hd].
      * destruct (IHl k (2 * i + 1)) as (q & u & Hin & Hq); try done; rewrite ?offset_left; try lia; [nia|].
        exists q, u. split; [apply elem_of_app; by left|done].
      * destruct (IHr k (2 * i + 2)) as (q & u & Hin & Hq); try done; rewrite ?offset_right; try lia; [nia|rewrite Ep|].
        { replace (off - _) with ((d - 2 ^ (Z.of_nat k - Z.of_nat j)) * 2 ^ (ln + Z.of_nat j)) by lia. apply Z.mod_mul. lia. }
        exists q, u. split; [apply elem_of_app; by right|done].
Qed.

(** ** Finding a used block *)
Lemma find_used m t : ∀ k i c q o, rep k m t i → zip k m i c → (q, o) ∈ used k t i →
  ∃ j i' c', o = ln + Z.of_nat j ∧ q = offset_of j i' ∧ rep j m Used i' ∧ zip j m i' c' ∧
    used k t i ++ used_zip k i c ≡ₚ (q, o) :: used_zip j i' c'.
Proof.
  induction t as [| |l IHl r IHr]; intros k i c q o Hr Hz H; cbn [used] in *.
  - by apply not_elem_of_nil in H.
  - apply list_elem_of_singleton in H as [= -> ->]. by exists k, i, c.
  - destruct k as [|k]; [done|]. destruct Hr as (A & B & C & D). pose proof (zip_level _ _ _ _ Hz) as [L _].
    apply elem_of_app in H as [H|H].
    + destruct (IHl k (2 * i + 1) ((true, r) :: c) q o A) as (j & i' & c' & E1 & E2 & E3 & E4 & E5); [by exists i|done|].
      exists j, i', c'. do 4 (split; [done|]). rewrite <- E5. cbn [used_zip].
      replace ((2 * i + 1 - 1) / 2) with i by dlia. by rewrite app_assoc.
    + destruct (IHr k (2 * i + 2) ((false, l) :: c) q o B) as (j & i' & c' & E1 & E2 & E3 & E4 & E5); [by exists i|done|].
      exists j, i', c'. do 4 (split; [done|]). rewrite <- E5. cbn [used_zip].
      replace ((2 * i + 2 - 1) / 2) with i by dlia. by rewrite app_assoc, (Permutation_app_comm (used k l _)).
Qed.

(** The first leaf below a whole node, and the nodes on the way to it. *)
Lemma here i : (i + 1) * 2 ^ Z.of_nat 0 - 1 = i.
Proof. change (2 ^ Z.of_nat 0) with 1. lia. Qed.

Lemma whole_path k m i : whole k m i → ∀ e : nat, (e ≤ k)%nat → m ((i + 1) * 2 ^ Z.of_nat e - 1) = ln + Z.of_nat (k - e).
Proof.
  revert i. induction k as [|k IH]; intros i [H1 H2] e He.
  - replace e with O by lia. by rewrite here.
  - destruct e as [|e]; [by rewrite here|]. destruct H2 as [A _].
    specialize (IH _ A e ltac:(lia)). replace (S k - S e)%nat with (k - e)%nat by lia. rewrite <- IH. f_equal.
    rewrite Nat2Z.inj_succ, Z.pow_succ_r by lia. lia.
Qed.

Lemma parts_path k m i : parts_whole k m i → ∀ e : nat, (0 < e ≤ k)%nat →
  m ((i + 1) * 2 ^ Z.of_nat e - 1) = ln + Z.of_nat (k - e).
Proof.
  intros H [|e] He; [lia|]. destruct k as [|k]; [lia|]. destruct H as [A _]. pose proof (whole_path k m _ A e ltac:(lia)) as E.
  replace (S k - S e)%nat with (k - e)%nat by lia. rewrite <- E. f_equal. rewrite Nat2Z.inj_succ, Z.pow_succ_r by lia. lia.
Qed.
End tree.

(** ** The pool *)
Section pool.
Context (ln : Z) (h : nat).

(** The array of orders [m] stands for [t], and the other fields are as [buddy_init] sets
    them. *)
Record pool_ok (b : buddy_pool) (t : tree) : Prop := MkPoolOk {
  po_ln : 1 ≤ ln;
  po_top : ln + Z.of_nat h ≤ 31;
  po_size : pool_size b = 2 ^ (ln + Z.of_nat h);
  po_node : node_size b = 2 ^ ln;
  po_mgs : manager_size b = 2 ^ (Z.of_nat h + 1) - 1;
  po_tree : rep ln h (manager b) t 0;
  po_curr : curr_size b = pool_size b - used_sum (used ln h h t 0);
  po_start : 0 < pool_start b ∧ pool_start b + pool_size b ≤ 2 ^ 32;
}.

Hypothesis (Hln : 1 ≤ ln) (Htop : ln + Z.of_nat h ≤ 31).

(** The array, during an operation. *)
Definition shape (b : buddy_pool) : Prop := manager_size b = 2 ^ (Z.of_nat h + 1) - 1.

Lemma node_range k m i c : zip ln h k m i c → 0 ≤ i < 2 ^ (Z.of_nat h + 1) - 1 ∧ i < 2 ^ 31 - 1 ∧
  (2 * i + 2 < 2 ^ (Z.of_nat h + 1) - 1 ↔ (0 < k)%nat).
Proof.
  intros H. pose proof (zip_level _ _ _ _ _ _ H) as [L0 L1]. pose proof (zip_height _ _ _ _ _ _ H) as L2.
  pose proof (Z.log2_spec (i + 1) ltac:(lia)) as [S1 S2]. rewrite L1 in S1, S2.
  assert (2 ^ (Z.of_nat h + 1) ≤ 2 ^ 31) by (apply Z.pow_le_mono_r; lia).
  assert (2 ^ Z.succ (Z.of_nat h - Z.of_nat k) ≤ 2 ^ (Z.of_nat h + 1)) by (apply Z.pow_le_mono_r; lia).
  split; [lia|]. split; [lia|]. split; intros Hk.
  - destruct k; [|lia]. exfalso. rewrite Z.sub_0_r in *. rewrite Z.pow_add_r in Hk by lia. lia.
  - assert (2 ^ Z.succ (Z.of_nat h - Z.of_nat k) ≤ 2 ^ Z.of_nat h) by (apply Z.pow_le_mono_r; lia).
    rewrite Z.pow_add_r by lia. lia.
Qed.

Lemma children i : 0 ≤ i < 2 ^ 31 - 1 → lchild_of i = 2 * i + 1 ∧ rchild_of i = 2 * i + 2.
Proof.
  intros Hi. unfold lchild_of, rchild_of. rewrite Z.shiftl_mul_pow2 by lia. change (2 ^ 1) with 2.
  rewrite !u32_small by (unfold is_u32; lia). lia.
Qed.

Lemma parent_eq p i : 0 ≤ p < 2 ^ 31 - 1 → i = 2 * p + 1 ∨ i = 2 * p + 2 → parent_of i = p.
Proof.
  intros Hp Hi. unfold parent_of. rewrite (u32_small (i + 1)) by (unfold is_u32; lia).
  rewrite Z.shiftr_div_pow2 by lia. change (2 ^ 1) with 2.
  assert ((i + 1) / 2 = p + 1) as -> by dlia. replace (p + 1 - 1) with p by lia. apply u32_small. unfold is_u32. lia.
Qed.

Lemma get_order_eq b i : shape b → 0 ≤ i < 2 ^ (Z.of_nat h + 1) - 1 → get_order i b = Ret (manager b i) b.
Proof.
  intros Hs Hi. unfold get_order. rewrite Hs. rewrite (proj2 (Z.leb_le 0 i)), (proj2 (Z.ltb_lt i _)) by lia. done.
Qed.

Lemma set_order_eq b i v : shape b → 0 ≤ i < 2 ^ (Z.of_nat h + 1) - 1 → 0 ≤ v < 256 →
  set_order i v b = Ret tt (set_manager (upd (manager b) i v) b).
Proof.
  intros Hs Hi Hv. unfold set_order. rewrite Hs. rewrite (proj2 (Z.leb_le 0 i)), (proj2 (Z.ltb_lt i _)) by lia.
  unfold u8. by rewrite Z.mod_small.
Qed.

(** *** The search *)
Lemma descend_stop f w i b : (i < 2 ^ (Z.of_nat h + 1) - 1 → 0 ≤ i ∧ manager b i < w) → shape b → descend (S f) w i b = Ret i b.
Proof.
  intros H Hs. cbn [descend]. rewrite (bind_eq (gets manager_size) _ b (manager_size b) b eq_refl), Hs.
  destruct (Z.ltb_spec i (2 ^ (Z.of_nat h + 1) - 1)) as [Hi|Hi]; cbn [negb]; [|done]. specialize (H Hi).
  rewrite (bind_eq _ _ _ (manager b i) b) by (apply get_order_eq; (done || lia)). by rewrite (proj2 (Z.leb_gt w (manager b i))) by lia.
Qed.

Lemma descend_ok j : ∀ k t i c fuel b, shape b → (j ≤ k)%nat → (k + 1 < fuel)%nat →
  rep ln k (manager b) t i → zip ln h k (manager b) i c → ln + Z.of_nat j ≤ manager b i →
  ∃ x i' c', descend fuel (ln + Z.of_nat j) i b = Ret x b ∧ parent_of x = i' ∧ zip ln h j (manager b) i' c' ∧
    rep ln j (manager b) Free i' ∧ used ln h k t i ++ used_zip ln h k i c ≡ₚ used_zip ln h j i' c'.
Proof.
  induction k as [|k IH]; intros t i c [|f] b Hs Hj Hf Hr Hz Hw; try lia.
  all: pose proof (node_range _ _ _ _ Hz) as (N1 & N2 & N3); destruct (children i ltac:(lia)) as [El Er].
  all: pose proof (rep_value _ _ _ _ _ Hln Hr) as [V1 V2].
  all: cbn [descend]; rewrite (bind_eq (gets manager_size) _ b (manager_size b) b eq_refl), Hs, (proj2 (Z.ltb_lt i _)) by lia; cbn [negb].
  all: rewrite (bind_eq _ _ _ (manager b i) b) by (apply get_order_eq; (done || lia)).
  all: rewrite (proj2 (Z.leb_le _ _) Hw), Er, El; cbn [negb].
  - assert (t = Free) as -> by (apply V2; lia). assert (j = O) as -> by lia.
    rewrite (proj2 (Z.ltb_ge _ _)) by (destruct (Z.lt_ge_cases (2 * i + 2) (2 ^ (Z.of_nat h + 1) - 1)); [lia|done]).
    exists (2 * i + 2), i, c. destruct f as [|f]; [lia|]. rewrite descend_stop; [|lia|done]. 
    split; [done|]. split; [apply parent_eq; lia|]. done.
  - rewrite (proj2 (Z.ltb_lt (2 * i + 2) _)) by (apply N3; lia). apply proj2 in N3. specialize (N3 ltac:(lia)).
    rewrite (bind_eq _ _ _ (manager b (2 * i + 1)) b) by (apply get_order_eq; (done || lia)).
    assert (∀ t' sib (lt : bool), rep ln k (manager b) t' (if lt then 2 * i + 1 else 2 * i + 2) →
      rep ln k (manager b) sib (if lt then 2 * i + 2 else 2 * i + 1) → (j ≤ k)%nat →
      ln + Z.of_nat j ≤ manager b (if lt then 2 * i + 1 else 2 * i + 2) →
      used ln h (S k) t i ≡ₚ used ln h k t' (if lt then 2 * i + 1 else 2 * i + 2) ++ used ln h k sib (if lt then 2 * i + 2 else 2 * i + 1) →
      ∃ x i' c', descend f (ln + Z.of_nat j) (if lt then 2 * i + 1 else 2 * i + 2) b = Ret x b ∧ parent_of x = i' ∧
        zip ln h j (manager b) i' c' ∧ rep ln j (manager b) Free i' ∧
        used ln h (S k) t i ++ used_zip ln h (S k) i c ≡ₚ used_zip ln h j i' c') as Hgo.
    { intros t' sib lt H1 H2 H3 H4 H5. destruct (IH t' _ ((lt, sib) :: c) f b Hs H3 ltac:(lia) H1) as (x & i' & c' & E1 & E2 & E3 & E4 & E5).
      { exists i. split; [lia|]. by destruct lt. } { done. }
      exists x, i', c'. do 4 (split; [done|]). rewrite <- E5, H5. cbn [used_zip]. rewrite parent_index. by rewrite app_assoc. }
    destruct t as [| |l r].
    + destruct (proj1 (rep_free_whole _ _ _ _) Hr) as [E0 [Wl Wr]].
      pose proof (proj1 (proj1 (whole_parts _ _ _ _) Wl)) as El'. pose proof (proj1 (proj1 (whole_parts _ _ _ _) Wr)) as Er'.
      destruct (decide (j = S k)) as [->|Hne].
      * rewrite (proj2 (Z.leb_gt _ _)) by lia. exists (2 * i + 2), i, c. destruct f as [|f]; [lia|].
        rewrite descend_stop; [|lia|done]. split; [done|]. split; [apply parent_eq; lia|]. done.
      * rewrite (proj2 (Z.leb_le _ _)) by lia. apply (Hgo Free Free true); try done; lia || by apply rep_free_whole.
    + destruct Hr as [E0 _]. lia.
    + destruct Hr as (A & B & C & D). destruct (Z.leb_spec (ln + Z.of_nat j) (manager b (2 * i + 1))) as [H|H].
      * apply (Hgo l r true); try done. pose proof (rep_value _ _ _ _ _ Hln A). lia.
      * apply (Hgo r l false); try done; [pose proof (rep_value _ _ _ _ _ Hln B); lia|lia|]. cbn [used]. by rewrite Permutation_app_comm.
Qed.

(** *** The way up *)
Lemma set_manager_twice m m' b : set_manager m' (set_manager m b) = set_manager m' b.
Proof. done. Qed.

(** Writing a parent leaves its children as they are. *)
Lemma rep_parent k m t p i v : 0 ≤ p → i = 2 * p + 1 ∨ i = 2 * p + 2 → rep ln k m t i → rep ln k (upd m p v) t i.
Proof.
  intros Hp Hi. apply rep_ext; [lia|]. intros x Hx. apply below_ge in Hx; [|lia]. apply upd_ne. lia.
Qed.

(** One frame of the zipper, as the loops see it. *)
Lemma frame k t i lt sib c b : shape b → rep ln k (manager b) t i → zip ln h k (manager b) i ((lt, sib) :: c) →
  ∃ p l r, 0 < i ∧ parent_of i = p ∧ 0 ≤ p < 2 ^ (Z.of_nat h + 1) - 1 ∧
    get_order (lchild_of p) b = Ret (manager b (2 * p + 1)) b ∧ get_order (rchild_of p) b = Ret (manager b (2 * p + 2)) b ∧
    (l, r) = (if lt then (t, sib) else (sib, t)) ∧
    rep ln k (manager b) l (2 * p + 1) ∧ rep ln k (manager b) r (2 * p + 2) ∧ zip ln h (S k) (manager b) p c.
Proof.
  intros Hs Hr (p & Hp & Ei & Hsib & Hz). pose proof (node_range _ _ _ _ Hz) as (N1 & N2 & N3).
  apply proj2 in N3. specialize (N3 ltac:(lia)). destruct (children p ltac:(lia)) as [El Er].
  exists p, (if lt then t else sib), (if lt then sib else t). split; [destruct lt; lia|].
  split; [apply parent_eq; [lia|destruct lt; lia]|]. split; [done|].
  rewrite El, Er. split; [apply get_order_eq; (done || lia)|]. split; [apply get_order_eq; (done || lia)|].
  split; [by destruct lt|]. rewrite Ei in Hr. by destruct lt.
Qed.

Lemma resume_alloc_ok : ∀ c k t i fuel b, shape b → rep ln k (manager b) t i → t ≠ Free → zip ln h k (manager b) i c →
  (length c < fuel)%nat →
  ∃ m', resume_alloc fuel i b = Ret tt (set_manager m' b) ∧ rep ln h m' (plug t c) 0.
Proof.
  induction c as [|[lt sib] c IH]; intros k t i [|f] b Hs Hr Ht Hz Hf; cbn [length] in *; try lia; cbn [resume_alloc].
  - destruct Hz as [-> ->]. exists (manager b). split; [by destruct b|done].
  - destruct (frame k t i lt sib c b Hs Hr Hz) as (p & l & r & H0 & Ep & Hp & El & Er & Elr & Hl & Hrr & Hz').
    rewrite (proj2 (Z.eqb_neq i 0)) by lia. cbv zeta. rewrite Ep, (bind_eq _ _ _ _ _ El), (bind_eq _ _ _ _ _ Er).
    pose proof (rep_value _ _ _ _ _ Hln Hl) as [VL _]. pose proof (rep_value _ _ _ _ _ Hln Hrr) as [VR _].
    pose proof (zip_height _ _ _ _ _ _ Hz') as Hh. set (v := Z.max _ _).
    rewrite (bind_eq _ _ _ tt (set_manager (upd (manager b) p v) b)) by (apply set_order_eq; (done || lia)).
    destruct (IH (S k) (Split l r) p f (set_manager (upd (manager b) p v) b)) as (m' & -> & R'); [done| |done| |lia|].
    + cbn [manager set_manager]. cbn [rep]. rewrite upd_eq by done. rewrite !upd_ne by lia.
      split; [apply rep_parent; (done || lia)|]. split; [apply rep_parent; (done || lia)|]. split; [done|].
      destruct lt; injection Elr as -> ->; [by left|by right].
    + apply zip_upd; [done|apply below_refl].
    + exists m'. split; [done|]. cbn [plug]. destruct lt; injection Elr as -> ->; done.
Qed.

Lemma resume_free_ok : ∀ c k t i fuel b, shape b → rep ln k (manager b) t i → zip ln h k (manager b) i c →
  (length c < fuel)%nat →
  ∃ m', resume_free fuel i (ln + Z.of_nat k) b = Ret tt (set_manager m' b) ∧ rep ln h m' (plug_join t c) 0.
Proof.
  induction c as [|[lt sib] c IH]; intros k t i [|f] b Hs Hr Hz Hf; cbn [length] in *; try lia; cbn [resume_free].
  - destruct Hz as [-> ->]. exists (manager b). split; [by destruct b|done].
  - destruct (frame k t i lt sib c b Hs Hr Hz) as (p & l & r & H0 & Ep & Hp & El & Er & Elr & Hl & Hrr & Hz').
    rewrite (proj2 (Z.eqb_neq i 0)) by lia. cbv zeta. rewrite Ep, (bind_eq _ _ _ _ _ El), (bind_eq _ _ _ _ _ Er).
    pose proof (rep_value _ _ _ _ _ Hln Hl) as [VL WL]. pose proof (rep_value _ _ _ _ _ Hln Hrr) as [VR WR].
    pose proof (zip_height _ _ _ _ _ _ Hz') as Hh. set (v := Z.max _ _).
    rewrite (bind_eq _ _ _ tt (set_manager (upd (manager b) p v) b)) by (apply set_order_eq; (done || lia)).
    assert (u8 (ln + Z.of_nat k + 1) = ln + Z.of_nat (S k)) as -> by (unfold u8; rewrite Z.mod_small; lia).
    assert (plug_join t ((lt, sib) :: c) = plug_join (join l r) c) as -> by (cbn [plug_join]; destruct lt; injection Elr as -> ->; done).
    set (both := (manager b (2 * p + 1) =? ln + Z.of_nat k) && (manager b (2 * p + 2) =? ln + Z.of_nat k)).
    set (m1 := if both then upd (upd (manager b) p v) p (v + 1) else upd (manager b) p v).
    match goal with |- context [bind ?c _ (set_manager (upd (manager b) p v) b)] => assert (c (set_manager (upd (manager b) p v) b) = Ret tt (set_manager m1 b)) as E1 end.
    { unfold m1. destruct both; [|done].
      rewrite (bind_eq _ _ _ v (set_manager (upd (manager b) p v) b)) by (rewrite get_order_eq by done; cbn; by rewrite upd_eq by done).
      rewrite set_order_eq by (done || lia). done. }
    rewrite (bind_eq _ _ _ _ _ E1). clear E1.
    destruct (IH (S k) (join l r) p f (set_manager m1 b)) as (m' & -> & R'); [done| | |lia|by exists m'].
    + cbn [manager set_manager]. unfold m1, both, join. destruct (decide (l = Free ∧ r = Free)) as [[-> ->]|Hne].
      * pose proof (proj2 WL eq_refl) as E1. pose proof (proj2 WR eq_refl) as E2.
        rewrite (proj2 (Z.eqb_eq _ _) E1), (proj2 (Z.eqb_eq _ _) E2). cbn [andb rep].
        split; [rewrite upd_eq by done; unfold v; rewrite E1, E2; lia|].
        split; apply rep_free_whole; do 2 (apply rep_parent; [lia|lia|]); done.
      * replace (_ && _) with false.
        2: { symmetry. apply andb_false_iff. destruct (Z.eqb_spec (manager b (2 * p + 1)) (ln + Z.of_nat k)) as [E|E]; [right|by left].
             apply Z.eqb_neq. intros E'. apply Hne. by split; [apply WL|apply WR]. }
        cbn [rep]. rewrite upd_eq by done. rewrite !upd_ne by lia.
        split; [apply rep_parent; (done || lia)|]. split; [apply rep_parent; (done || lia)|]. split; [done|].
        destruct (decide (l = Free)); [right; naive_solver|by left].
    + cbn [manager set_manager]. unfold m1. destruct both; repeat apply zip_upd; (done || apply below_refl).
Qed.

(** From the first leaf of a used block up to its node. *)
Lemma ascend_ok i' j : ∀ (e : nat) fuel b c, shape b → rep ln j (manager b) Used i' → zip ln h j (manager b) i' c →
  (e ≤ j)%nat → (e < fuel)%nat →
  ascend fuel ((i' + 1) * 2 ^ Z.of_nat e - 1) (ln + Z.of_nat (j - e)) b = Ret (i', ln + Z.of_nat j) b.
Proof.
  intros e. induction e as [|e IH]; intros [|f] b c Hs Hr Hz He Hf; try lia; cbn [ascend];
    pose proof (node_range _ _ _ _ Hz) as (N1 & N2 & N3); pose proof (zip_height _ _ _ _ _ _ Hz) as Hh.
  - rewrite here, Nat.sub_0_r. destruct (Z.eqb_spec i' 0) as [->|H0]; [done|].
    rewrite (bind_eq _ _ _ (manager b i') b) by (apply get_order_eq; (done || lia)). by destruct Hr as [-> _].
  - set (x := (i' + 1) * 2 ^ Z.of_nat (S e) - 1). pose proof (zip_level _ _ _ _ _ _ Hz) as [L0 L1].
    assert (0 < 2 ^ Z.of_nat e) as P1 by (apply Z.pow_pos_nonneg; lia).
    assert (x = 2 * ((i' + 1) * 2 ^ Z.of_nat e - 1) + 1) as Ex by (unfold x; rewrite Nat2Z.inj_succ, Z.pow_succ_r by lia; lia).
    assert ((i' + 1) * 2 ^ Z.of_nat (S e) < 2 ^ (Z.of_nat h + 1)) as Hx.
    { pose proof (Z.log2_spec (i' + 1) ltac:(lia)) as [_ S2]. rewrite L1 in S2.
      apply Z.lt_le_trans with (2 ^ Z.succ (Z.of_nat h - Z.of_nat j) * 2 ^ Z.of_nat (S e)).
      - apply Z.mul_lt_mono_pos_r; [apply Z.pow_pos_nonneg; lia|done].
      - rewrite <- Z.pow_add_r by lia. apply Z.pow_le_mono_r; lia. }
    assert (2 ^ (Z.of_nat h + 1) ≤ 2 ^ 31) by (apply Z.pow_le_mono_r; lia).
    rewrite (proj2 (Z.eqb_neq x 0)) by nia.
    rewrite (bind_eq _ _ _ (manager b x) b) by (apply get_order_eq; [done|unfold x in *; lia]).
    destruct Hr as [R1 R2]. pose proof (parts_path _ _ _ _ R2 (S e) ltac:(lia)) as Ev. fold x in Ev. rewrite Ev.
    rewrite (proj2 (Z.eqb_neq _ 0)) by lia. rewrite (parent_eq ((i' + 1) * 2 ^ Z.of_nat e - 1)) by (nia || lia).
    replace (u8 _) with (ln + Z.of_nat (j - e)) by (unfold u8; rewrite Z.mod_small; lia). apply (IH f b c); [done|by split|done|lia|lia].
Qed.
End pool.
