(* ===== verification/BuddyProps.v ===== *)
(** * The buddy allocator is correct

    [buddy_init] makes a pool of one free block; from then on the blocks handed out
    never overlap, are aligned to their size, and come back on release; [buddy_alloc]
    refuses only when no aligned block of the size is free. *)

From stdpp Require Import base list strings.
From Stdlib Require Import ZArith Lia.
From S2P Require Import Prelude Mmu Math Buddy BuddyInv.

(** ** Initialisation *)
Definition bit_len (i : Z) : Z := if i =? 0 then 0 else Z.log2 i + 1.

Lemma bit_len_succ i : 0 ≤ i → i + 1 < 2 ^ 32 →
  bit_len (i + 1) = bit_len i + (if is_pow_of_2 (u32 (i + 1)) then 1 else 0).
Proof.
  intros Hi Hb. unfold bit_len. rewrite (proj2 (Z.eqb_neq (i + 1) 0)), u32_small by (unfold is_u32; lia).
  destruct (Z.eqb_spec i 0) as [->|H0]; [done|]. pose proof (Z.log2_spec (i + 1) ltac:(lia)) as [L1 L2].
  pose proof (Z.log2_nonneg (i + 1)). destruct (is_pow_of_2 (i + 1)) eqn:E.
  - apply is_pow_of_2_spec in E; [|lia]. enough (Z.log2 i = Z.log2 (i + 1) - 1) by lia.
    assert (0 < Z.log2 (i + 1)) by (apply Z.log2_pos; lia).
    apply Z.log2_unique; [lia|]. rewrite <- Z.sub_1_r || idtac. 
    replace (Z.succ (Z.log2 (i + 1) - 1)) with (Z.log2 (i + 1)) by lia. split; [|lia].
    replace (Z.log2 (i + 1)) with (Z.succ (Z.log2 (i + 1) - 1)) in E at 1 by lia. rewrite Z.pow_succ_r in E by lia.
    assert (0 < 2 ^ (Z.log2 (i + 1) - 1)) by (apply Z.pow_pos_nonneg; lia). lia.
  - enough (Z.log2 i = Z.log2 (i + 1)) by lia. assert (i + 1 ≠ 2 ^ Z.log2 (i + 1)) as Hne.
    { rewrite <- is_pow_of_2_spec, E by lia. done. }
    apply Z.log2_unique; lia.
Qed.

Lemma init_orders_ok o : ∀ n i m, 0 ≤ i → i + Z.of_nat n < 2 ^ 32 → o ≤ 254 → bit_len (i + Z.of_nat n) ≤ o + 1 →
  ∀ x, init_orders n i (o + 1 - bit_len i) m x = if (i <=? x) && (x <? i + Z.of_nat n) then o - Z.log2 (x + 1) else m x.
Proof.
  induction n as [|n IH]; intros i m Hi Hb Ho Hl x; cbn [init_orders].
  { destruct (Z.leb_spec i x), (Z.ltb_spec x (i + Z.of_nat 0)); try done. lia. }
  pose proof (bit_len_succ i Hi ltac:(lia)) as E.
  assert (∀ y, 0 ≤ y → 0 ≤ bit_len y) as Hnn by (intros y Hy; unfold bit_len; destruct (y =? 0); pose proof (Z.log2_nonneg y); lia).
  assert (bit_len (i + 1) ≤ bit_len (i + Z.of_nat (S n))) as Hm.
  { unfold bit_len. rewrite (proj2 (Z.eqb_neq (i + 1) 0)), (proj2 (Z.eqb_neq (i + Z.of_nat (S n)) 0)) by lia.
    pose proof (Z.log2_le_mono (i + 1) (i + Z.of_nat (S n)) ltac:(lia)). lia. }
  assert ((if is_pow_of_2 (u32 (i + 1)) then u32 (o + 1 - bit_len i - 1) else o + 1 - bit_len i) = o + 1 - bit_len (i + 1)) as Ec.
  { pose proof (Hnn i Hi). destruct (is_pow_of_2 _); [|lia]. rewrite u32_small; [lia|]. unfold is_u32. lia. }
  rewrite Ec, IH; [|lia|lia|lia|by replace (i + 1 + Z.of_nat n) with (i + Z.of_nat (S n)) by lia].
  pose proof (Hnn (i + 1) ltac:(lia)). unfold upd, u8. rewrite (Z.mod_small (o + 1 - bit_len (i + 1))) by lia.
  destruct (Z.leb_spec (i + 1) x), (Z.ltb_spec x (i + 1 + Z.of_nat n)), (Z.leb_spec i x), (Z.ltb_spec x (i + Z.of_nat (S n))), (Z.eqb_spec x i);
    cbn [andb]; try lia. subst. unfold bit_len. rewrite (proj2 (Z.eqb_neq (i + 1) 0)) by lia. lia.
Qed.

Lemma whole_levels ln h m : (∀ x, 0 ≤ x < 2 ^ (Z.of_nat h + 1) - 1 → m x = ln + Z.of_nat h - Z.log2 (x + 1)) →
  ∀ k i, (k ≤ h)%nat → 0 ≤ i → Z.log2 (i + 1) = Z.of_nat h - Z.of_nat k → whole ln k m i.
Proof.
  intros H k. induction k as [|k IH]; intros i Hk Hi Hl.
  all: pose proof (Z.log2_spec (i + 1) ltac:(lia)) as [L1 L2]; rewrite Hl in L2.
  all: assert (2 ^ Z.succ (Z.of_nat h - 0) ≤ 2 ^ (Z.of_nat h + 1)) by (apply Z.pow_le_mono_r; lia).
  - split; [|done]. rewrite H, Hl by (change (Z.of_nat 0) with 0 in L2; lia). lia.
  - assert (2 ^ Z.succ (Z.of_nat h - Z.of_nat (S k)) ≤ 2 ^ Z.succ (Z.of_nat h - 0)) by (apply Z.pow_le_mono_r; lia).
    split; [rewrite H, Hl by lia; lia|]. split; apply IH; try lia.
    + replace (2 * i + 1 + 1) with (2 * (i + 1)) by lia. rewrite Z.log2_double by lia. lia.
    + replace (2 * i + 2 + 1) with (2 * (i + 1) + 1) by lia. rewrite Z.log2_succ_double by lia. lia.
Qed.

(** [buddy_init] makes the pool one free block. *)
Lemma buddy_init_ok ln h start b : 1 ≤ ln → ln + Z.of_nat h ≤ 31 →
  0 < start → start + 2 ^ (ln + Z.of_nat h) ≤ 2 ^ 32 →
  ∃ b', buddy_init start (2 ^ (ln + Z.of_nat h)) true (2 ^ ln) b = Ret 0 b' ∧ pool_ok ln h b' Free.
Proof.
  intros Hln Htop Hs1 Hs2. set (size := 2 ^ (ln + Z.of_nat h)) in *.
  assert (∀ n, 0 ≤ n ≤ 31 → 0 < 2 ^ n ≤ 2 ^ 31) as Hp by (intros; split; [apply Z.pow_pos_nonneg; lia|apply Z.pow_le_mono_r; lia]).
  assert (∀ n, 0 ≤ n ≤ 31 → is_pow_of_2 (2 ^ n) = true) as Hpow.
  { intros n Hn. apply is_pow_of_2_spec; [specialize (Hp n Hn); lia|]. by rewrite Z.log2_pow2 by lia. }
  pose proof (Hp (ln + Z.of_nat h) ltac:(lia)) as P1. pose proof (Hp ln ltac:(lia)) as P2.
  assert (size = 2 ^ Z.of_nat h * 2 ^ ln) as Es by (unfold size; rewrite <- Z.pow_add_r by lia; f_equal; lia).
  assert (is_pow_of_2 size = true) as E2 by (apply Hpow; lia).
  assert (Z.log2 size = ln + Z.of_nat h) as E3 by (unfold size; rewrite Z.log2_pow2; lia).
  assert (size mod 2 ^ ln = 0) as E4 by (rewrite Es; apply Z.mod_mul; lia).
  unfold buddy_init. rewrite (proj2 (Z.eqb_neq size 0)), (proj2 (Z.eqb_neq (2 ^ ln) 0)), (Hpow ln), E2, E4 by (unfold size in *; lia).
  cbn [orb negb]. change (ctrue 0) with false. cbv iota.
  assert (buddy_mgs size (2 ^ ln) = 2 ^ (Z.of_nat h + 1) - 1) as Em.
  { unfold buddy_mgs. rewrite Es, Z.div_mul, Z.shiftl_mul_pow2 by lia. rewrite <- Z.pow_add_r by lia.
    pose proof (Hp (Z.of_nat h + 1) ltac:(lia)). rewrite u32_small; [done|unfold is_u32; lia]. }
  assert (log_of_2 size = ln + Z.of_nat h) as El.
  { rewrite log_of_2_spec by (unfold size in *; lia). rewrite (proj2 (Z.ltb_ge _ _)) by (unfold size in *; lia).
    done. }
  eexists. split; [done|]. rewrite Em, El. pose proof (Hp (Z.of_nat h + 1) ltac:(lia)) as P3.
  split; cbn [pool_size node_size manager_size manager curr_size pool_start]; try done.
  - apply rep_free_whole, (whole_levels ln h); [|done|done|change (Z.log2 (0 + 1)) with 0; lia].
    intros x Hx. rewrite (u32_small (_ + 1)) by (unfold is_u32; lia).
    pose proof (init_orders_ok (ln + Z.of_nat h) (Z.to_nat (2 ^ (Z.of_nat h + 1) - 1)) 0 (manager b)) as E.
    change (bit_len 0) with 0 in E. rewrite Z.sub_0_r in E. rewrite E; [|lia|lia|lia|].
    + rewrite Z2Nat.id, (proj2 (Z.leb_le 0 x)), (proj2 (Z.ltb_lt x _)) by lia. done.
    + rewrite Z2Nat.id by lia. unfold bit_len. case_match; [lia|].
      assert (Z.log2 (0 + (2 ^ (Z.of_nat h + 1) - 1)) < Z.of_nat h + 1) by (apply Z.log2_lt_pow2; [zbool; lia|lia]). lia.
  - cbn. lia.
Qed.

(** ** Allocation *)

(** The order of the block that a request for [n] bytes gets. *)
Definition order_for (ln n : Z) : Z := Z.max (Z.log2_up n) ln.

(** [off] is a place for a block of order [o] in a pool of order [top]. *)
Definition place (top off o : Z) : Prop := 0 ≤ off ∧ off + 2 ^ o ≤ 2 ^ top ∧ off mod 2 ^ o = 0.

Definition apart (off o q u : Z) : Prop := q + 2 ^ u ≤ off ∨ off + 2 ^ o ≤ q.

(** The work of [buddy_alloc] once it knows that there is a block. *)
Lemma buddy_alloc_ok ln h b t n : pool_ok ln h b t → 0 < n ≤ 2 ^ 31 →
  let o := order_for ln n in
  (∃ off b' t', buddy_alloc n b = Ret (pool_start b + off) b' ∧ pool_ok ln h b' t' ∧
     used ln h h t' 0 ≡ₚ (off, o) :: used ln h h t 0 ∧ place (ln + Z.of_nat h) off o ∧
     (∀ q u, (q, u) ∈ used ln h h t 0 → apart off o q u) ∧ pool_start b' = pool_start b) ∨
  (buddy_alloc n b = Ret 0 b ∧ ∀ off, place (ln + Z.of_nat h) off o → meets (used ln h h t 0) off o).
Proof.
  intros [Hln Htop Hsz Hnode Hmgs Htree Hcurr [Hst1 Hst2]] Hn o.
  pose proof (rep_value _ _ _ _ _ Hln Htree) as [V1 V2].
  assert (0 ≤ Z.log2_up n ≤ 31) as Hup.
  { split; [apply Z.log2_up_nonneg|]. apply Z.log2_up_le_pow2; lia. }
  assert (Z.max (next_pow_of_2 n) (node_size b) = 2 ^ o) as Eo.
  { rewrite next_pow_of_2_spec, (proj2 (Z.ltb_ge _ _)), Hnode by lia. unfold o, order_for.
    destruct (Z.max_spec (Z.log2_up n) ln) as [[? ->]|[? ->]];
      [rewrite Z.max_r|rewrite Z.max_l]; try done; apply Z.pow_le_mono_r; lia. }
  assert (ln ≤ o ≤ 31) as Ho by (unfold o, order_for; lia). clearbody o.
  unfold buddy_alloc. rewrite (proj2 (Z.eqb_neq n 0)) by lia. rewrite (bind_eq (gets id) _ b b b eq_refl). cbv zeta. rewrite Eo.
  assert (0 < 2 ^ (Z.of_nat h + 1) - 1) as Hpos by (pose proof (Z.pow_le_mono_r 2 1 (Z.of_nat h + 1)); lia).
  rewrite (bind_eq _ _ _ (manager b 0) b) by (apply (get_order_eq h); [done|lia]).
  rewrite Z.shiftl_mul_pow2, Z.mul_1_l by lia.
  destruct (Z.ltb_spec (2 ^ manager b 0) (2 ^ o)) as [Hno|Hyes].
  - right. split; [done|]. apply Z.pow_lt_mono_r_iff in Hno; [|lia|lia]. intros off (P1 & P2 & P3).
    assert (o ≤ ln + Z.of_nat h) as Hle.
    { apply (Z.pow_le_mono_r_iff 2); [lia|lia|]. lia. }
    pose proof (no_room ln h ltac:(lia) h (manager b) t 0 (Z.to_nat (o - ln)) off Hln Htree) as N.
    replace (ln + Z.of_nat (Z.to_nat (o - ln))) with o in N by lia.
    assert (offset_of ln h h 0 = 0) as E0 by (unfold offset_of; lia). rewrite E0, Z.sub_0_r in N. apply N; try done; lia.
  - left. apply Z.pow_le_mono_r_iff in Hyes; [|lia|lia].
    assert (u8 (log_of_2 (2 ^ o)) = o) as El.
    { assert (0 < 2 ^ o ≤ 2 ^ 31) by (split; [apply Z.pow_pos_nonneg; lia|apply Z.pow_le_mono_r; lia]).
      rewrite log_of_2_spec, (proj2 (Z.ltb_ge _ _)), Z.log2_pow2 by lia. unfold u8. apply Z.mod_small. lia. }
    rewrite El. assert (∃ j : nat, o = ln + Z.of_nat j) as [j Ej] by (exists (Z.to_nat (o - ln)); lia).
    unfold sys_spin_lock. rewrite (bind_eq (ret tt) _ _ tt b eq_refl).
    assert (shape h b) as Hs1 by done.
    destruct (descend_ok ln h Hln Htop j h t 0 [] depth_fuel b Hs1) as (x & i & c & E1 & E2 & Z1 & R1 & U1); [lia|unfold depth_fuel; lia|done|done|cbn; lia|].
    rewrite <- Ej in E1. rewrite (bind_eq _ _ _ _ _ E1), E2. rewrite app_nil_r in U1. 
    pose proof (zip_place ln h ltac:(lia) _ _ _ _ Z1) as (P1 & P2 & P3). pose proof (node_range ln h Hln Htop _ _ _ _ Z1) as (N1 & N2 & _).
    pose proof (pow_pos ln ltac:(lia) j) as Pj. rewrite <- Ej in *. pose proof (zip_height _ _ _ _ _ _ Z1) as Hh.
    assert (2 ^ (ln + Z.of_nat h) ≤ 2 ^ 31) as Ptop by (apply Z.pow_le_mono_r; lia).
    assert (u32 (u32 ((i + 1) * 2 ^ o) - pool_size b) = offset_of ln h j i) as Eoff.
    { unfold offset_of in P1, P2 |- *. rewrite <- Ej, Hsz in *.
      rewrite (u32_small ((i + 1) * 2 ^ o)) by (unfold is_u32; lia). apply u32_small. unfold is_u32. lia. }
    rewrite Eoff. rewrite s32_small, (proj2 (Z.ltb_ge _ 0)) by lia.
    rewrite (bind_eq _ _ _ tt (set_manager (upd (manager b) i 0) b)) by (apply (set_order_eq h); (done || lia)).
    rewrite (bind_eq (modify _) _ _ tt _ eq_refl). set (b2 := set_curr_size _ _).
    destruct (resume_alloc_ok ln h Hln Htop c j Used i depth_fuel b2) as (m' & E3 & R2); [done| |done| |unfold depth_fuel; lia|].
    { cbn. split; [by rewrite upd_eq|]. eapply parts_whole_ext; [lia| |exact (proj2 R1)]. intros y _ Hy. by apply upd_ne. }
    { apply zip_upd; [done|apply below_refl]. }
    rewrite (bind_eq _ _ _ _ _ E3). unfold sys_spin_unlock. rewrite (bind_eq (ret tt) _ _ tt _ eq_refl).
    assert (used ln h h (plug Used c) 0 ≡ₚ (offset_of ln h j i, o) :: used ln h h t 0) as U2.
    { rewrite (used_plug ln h j (manager b) Used i c Z1), U1. cbn [used app]. by rewrite <- Ej. }
    eexists (offset_of ln h j i), _, (plug Used c).
    split; [unfold ret; f_equal; rewrite u32_small; [done|unfold is_u32; rewrite Hsz in *; lia]|]. split; [|split; [done|split; [done|split; [|done]]]].
    + split; cbn; try done.
      rewrite (used_sum_perm _ _ U2). cbn. pose proof (used_sum_le ln h ltac:(lia) h (plug Used c) 0) as S1.
      rewrite (used_sum_perm _ _ U2) in S1. cbn in S1. fold (used_sum (used ln h h t 0)) in *.
      pose proof (used_sum_le ln h ltac:(lia) h t 0) as S2. rewrite Hcurr, Hsz in *. rewrite u32_small; [lia|unfold is_u32; lia].
    + intros q u Hq. rewrite U1 in Hq. pose proof (zip_apart ln h ltac:(lia) _ _ _ _ _ _ Z1 Hq) as A. rewrite <- Ej in A. exact A.
Qed.

(** ** Release *)
Lemma buddy_free_ok ln h b t off o : pool_ok ln h b t → (off, o) ∈ used ln h h t 0 →
  ∃ b' t', buddy_free (pool_start b + off) b = Ret tt b' ∧ pool_ok ln h b' t' ∧
    used ln h h t 0 ≡ₚ (off, o) :: used ln h h t' 0 ∧ pool_start b' = pool_start b.
Proof.
  intros [Hln Htop Hsz Hnode Hmgs Htree Hcurr [Hst1 Hst2]] Hin.
  destruct (find_used ln h (manager b) t h 0 [] off o Htree) as (j & i & c & Eo & Eq & R1 & Z1 & U1); [done|done|].
  rewrite app_nil_r in U1. pose proof (zip_place ln h ltac:(lia) _ _ _ _ Z1) as (P1 & P2 & P3). rewrite <- Eq, <- Eo in *.
  pose proof (pow_pos ln ltac:(lia) j) as Pj. rewrite <- Eo in Pj. pose proof (zip_height _ _ _ _ _ _ Z1) as Hh.
  assert (2 ^ (ln + Z.of_nat h) ≤ 2 ^ 31) as Ptop by (apply Z.pow_le_mono_r; lia).
  pose proof (node_range ln h Hln Htop _ _ _ _ Z1) as (N1 & N2 & _).
  assert (0 < 2 ^ ln ≤ 2 ^ 31) as Pl by (split; [apply Z.pow_pos_nonneg; lia|apply Z.pow_le_mono_r; lia]).
  unfold buddy_free. rewrite (proj2 (Z.eqb_neq _ 0)) by lia. rewrite (bind_eq (gets id) _ b b b eq_refl). cbv zeta.
  replace (pool_start b + off - pool_start b) with off by lia. rewrite (u32_small off) by (unfold is_u32; lia).
  rewrite Hsz, (proj2 (Z.ltb_ge _ _)) by lia.
  unfold sys_spin_lock. rewrite (bind_eq (ret tt) _ _ tt b eq_refl).
  assert (shape h b) as Hs1 by done. rewrite Hnode.
  assert (u8 (log_of_2 (2 ^ ln)) = ln) as El.
  { rewrite log_of_2_spec, (proj2 (Z.ltb_ge _ _)), Z.log2_pow2 by lia. unfold u8. apply Z.mod_small. lia. }
  assert (off + 2 ^ (ln + Z.of_nat h) = (i + 1) * 2 ^ o) as Esum by (rewrite Eq; unfold offset_of; rewrite <- Eo; lia).
  assert (u32 (u32 (off + 2 ^ (ln + Z.of_nat h)) / 2 ^ ln - 1) = (i + 1) * 2 ^ Z.of_nat j - 1) as Ei.
  { rewrite (u32_small (off + _)) by (unfold is_u32; lia). rewrite Esum, Eo, (Z.add_comm ln), Z.pow_add_r, Z.mul_assoc, Z.div_mul by lia.
    apply u32_small. unfold is_u32. assert (0 < 2 ^ Z.of_nat j) by (apply Z.pow_pos_nonneg; lia).
    assert ((i + 1) * 2 ^ Z.of_nat j ≤ (i + 1) * 2 ^ o).
    { apply Z.mul_le_mono_nonneg_l; [lia|]. apply Z.pow_le_mono_r; lia. } nia. }
  rewrite El, Ei. pose proof (ascend_ok ln h Hln Htop i j j depth_fuel b c Hs1 R1 Z1 ltac:(lia) ltac:(unfold depth_fuel; lia)) as Ea.
  rewrite Nat.sub_diag, Z.add_0_r, <- Eo in Ea. rewrite (bind_eq _ _ _ _ _ Ea).
  rewrite Z.shiftl_mul_pow2, Z.mul_1_l, <- Esum by lia. rewrite (u32_small (off + _)) by (unfold is_u32; lia).
  replace (off + 2 ^ (ln + Z.of_nat h) - 2 ^ (ln + Z.of_nat h)) with off by lia. rewrite (u32_small off) by (unfold is_u32; lia).
  rewrite Z.eqb_refl. cbn [negb].
  rewrite (bind_eq _ _ _ tt (set_manager (upd (manager b) i o) b)) by (apply (set_order_eq h); (done || lia)).
  rewrite (bind_eq (modify _) _ _ tt _ eq_refl). set (b2 := set_curr_size _ _).
  destruct (resume_free_ok ln h Hln Htop c j Free i depth_fuel b2) as (m' & E3 & R2); [done| | |unfold depth_fuel; lia|].
  { cbn. split; [by rewrite upd_eq|]. eapply parts_whole_ext; [lia| |exact (proj2 R1)]. intros y _ Hy. by apply upd_ne. }
  { apply zip_upd; [done|apply below_refl]. }
  rewrite <- Eo in E3. rewrite (bind_eq _ _ _ _ _ E3).
  assert (used ln h h t 0 ≡ₚ (off, o) :: used ln h h (plug_join Free c) 0) as U2.
  { rewrite (used_plug_join ln h j (manager b) Free i c Z1), U1. done. }
  eexists _, (plug_join Free c). split; [done|]. split; [|done]. split; cbn; try done.
  pose proof (used_sum_le ln h ltac:(lia) h t 0) as S1. rewrite Hcurr. rewrite (used_sum_perm _ _ U2) in S1 |- *. cbn in S1 |- *.
  fold (used_sum (used ln h h (plug_join Free c) 0)) in *.
  pose proof (used_sum_le ln h ltac:(lia) h (plug_join Free c) 0). rewrite Hsz in *. rewrite u32_small; [lia|unfold is_u32; lia].
Qed.

(** ** The theorems *)

(** C23. [buddy_alloc] hands out a block of the least power of two that holds the
    request: inside the pool, aligned to its size and apart from every block in use,
    which all stay in use.  It refuses only when every aligned block of that size meets
    one in use. *)
Theorem buddy_alloc_correct ln h b t n : pool_ok ln h b t → 0 < n ≤ 2 ^ 31 →
  let o := order_for ln n in
  (∃ off b' t', buddy_alloc n b = Ret (pool_start b + off) b' ∧ pool_ok ln h b' t' ∧
     used ln h h t' 0 ≡ₚ (off, o) :: used ln h h t 0 ∧ place (ln + Z.of_nat h) off o ∧
     (∀ q u, (q, u) ∈ used ln h h t 0 → apart off o q u) ∧ pool_start b' = pool_start b) ∨
  (buddy_alloc n b = Ret 0 b ∧ ∀ off, place (ln + Z.of_nat h) off o → meets (used ln h h t 0) off o).
Proof. apply buddy_alloc_ok. Qed.

(** A pool of four blocks of 16 bytes, and two blocks taken from it. *)
Definition no_pool : buddy_pool := MkBuddy 0 0 0 0 (λ _, 0) 0 0 0.
Definition after {A} (c : M buddy_pool A) (b : buddy_pool) : buddy_pool := match c b with Ret _ b' => b' | _ => b end.
Definition pool0 : buddy_pool := after (buddy_init 0x10000 64 true 16) no_pool.

Lemma pool0_ok : pool_ok 4 2 pool0 Free.
Proof.
  destruct (buddy_init_ok 4 2 0x10000 no_pool) as (b' & E & H); [lia|lia|lia|vm_compute; discriminate|].
  unfold pool0, after. change 64 with (2 ^ (4 + Z.of_nat 2)). change 16 with (2 ^ 4). by rewrite E.
Qed.

Lemma buddy_alloc_correct_witness : ∃ b', buddy_alloc 20 pool0 = Ret 0x10000 b' ∧ curr_size b' = 32.
Proof.
  destruct (buddy_alloc_correct 4 2 pool0 Free 20 pool0_ok) as [(off & b' & t' & E & _)|[E _]].
  - split; [reflexivity|vm_compute; discriminate].
  - exists (after (buddy_alloc 20) pool0). split; vm_compute; reflexivity.
  - vm_compute in E. discriminate E.
Defined.

(** C24. [buddy_free] of a block in use takes exactly that block out of use; when it was
    the last one, the pool is one whole block again. *)
Theorem buddy_free_correct ln h b t off o : pool_ok ln h b t → (off, o) ∈ used ln h h t 0 →
  ∃ b' t', buddy_free (pool_start b + off) b = Ret tt b' ∧ pool_ok ln h b' t' ∧
    used ln h h t 0 ≡ₚ (off, o) :: used ln h h t' 0 ∧
    (used ln h h t' 0 = [] → manager b' 0 = ln + Z.of_nat h ∧ curr_size b' = pool_size b').
Proof.
  intros Hok Hin. destruct (buddy_free_ok ln h b t off o Hok Hin) as (b' & t' & E & Hok' & U & _).
  exists b', t'. do 3 (split; [done|]). intros Hnil. pose proof (po_tree _ _ _ _ Hok') as R. split.
  - destruct (decide (t' = Free)) as [->|Hne]; [exact (proj1 R)|].
    exfalso. by apply (used_nonempty ln h h (manager b') t' 0 R Hne).
  - rewrite (po_curr _ _ _ _ Hok'), Hnil. cbn. lia.
Qed.

Lemma buddy_free_correct_witness : ∃ b1 b2, buddy_alloc 20 pool0 = Ret 0x10000 b1 ∧ buddy_free 0x10000 b1 = Ret tt b2 ∧ manager b2 0 = 6.
Proof.
  destruct (buddy_alloc_ok 4 2 pool0 Free 20 pool0_ok) as [(off & b1 & t1 & E & Hok & U & _ & _ & Es)|[E _]].
  - split; [reflexivity|vm_compute; discriminate].
  - assert (off = 0) as ->.
    { assert (buddy_alloc 20 pool0 = Ret 0x10000 (after (buddy_alloc 20) pool0)) as E' by (vm_compute; reflexivity).
      rewrite E in E'. injection E' as E' _. change (pool_start pool0) with 0x10000 in E'. lia. }
    destruct (buddy_free_correct 4 2 b1 t1 0 (order_for 4 20) Hok) as (b2 & t2 & E2 & _ & U2 & H2); [rewrite U; left|].
    exists b1, b2. split; [exact E|]. rewrite Es in E2. split; [exact E2|]. apply H2.
    rewrite U in U2. apply Permutation.Permutation_cons_inv, Permutation_nil_l in U2. exact (eq_sym U2).
  - vm_compute in E. discriminate E.
Defined.

(** Releasing the first block of the pool a second time is not noticed when the pool
    is not full: the walk from the leaf ends at the root, whose offset is 0 as well, and
    the whole pool counts as free.  The next request gets memory that is in use. *)
Theorem buddy_free_first_twice :
  let b1 := after (buddy_alloc 16) pool0 in
  let b2 := after (buddy_alloc 16) b1 in
  let b3 := after (buddy_free 0x10000) b2 in
  let b4 := after (buddy_free 0x10000) b3 in
  (∃ b, buddy_alloc 16 pool0 = Ret 0x10000 b) ∧ (∃ b, buddy_alloc 16 b1 = Ret 0x10010 b) ∧
  (∃ b, buddy_free 0x10000 b2 = Ret tt b) ∧ (∃ b, buddy_free 0x10000 b3 = Ret tt b) ∧
  curr_size b4 = 64 + 48 ∧ ∃ b, buddy_alloc 64 b4 = Ret 0x10000 b.
Proof.
  cbv zeta. split; [eexists; vm_compute; reflexivity|]. split; [eexists; vm_compute; reflexivity|].
  split; [eexists; vm_compute; reflexivity|]. split; [eexists; vm_compute; reflexivity|].
  split; [vm_compute; reflexivity|]. eexists; vm_compute; reflexivity.
Qed.

(** A request above 2^31 bytes is rounded up to 0 and gets a block of the least size. *)
Lemma buddy_alloc_huge : ∃ b, buddy_alloc (2 ^ 31 + 1) pool0 = Ret 0x10000 b ∧ curr_size b = 48.
Proof. exists (after (buddy_alloc (2 ^ 31 + 1)) pool0). split; vm_compute; reflexivity. Qed.
