(* ===== verification/Pipe.v ===== *)
(** * Pipes: [lib/pipe.c]

    Reader and writer are two processes that share the page of the pipe.  Each access to
    the page is a step of its own, so that the steps of the two interleave in every way.
    [Ring] has the loops of [devpipe_read] and [devpipe_write]; [Closed] has the test
    whether the other end is closed, which compares the reference counts of pages. *)

From stdpp Require Import base list relations.
From Stdlib Require Import ZArith Lia.
From S2P Require Import Prelude.

Definition PIPEBUFSIZ : Z := 32.

(** [off_t] is a signed 32-bit integer. *)
Record Pipe := MkPipe { p_rpos : Z; p_wpos : Z; p_buf : Z → Z }.

Module Ring.
(** ** The reader

    Where [devpipe_read(fd, buf, n)] is; [got] is what it has put in [buf], [i] bytes. *)
Inductive rpc : Type :=
| RIdle
| RFor (n i : Z) (got : list Z)
| RWpos (n i : Z) (got : list Z) (rpos : Z)
| REmpty (n i : Z) (got : list Z)
| RTake (n i : Z) (got : list Z)
| RInc (n i : Z) (got : list Z) (c : Z)
| RDone (result : Z) (got : list Z)
| RFault.

(** One step; [closed] is the answer of [_pipeisclosed].  [%] rounds towards zero, and a
    negative index is outside the buffer. *)
Definition devpipe_read (closed : bool) (pc : rpc) (p : Pipe) : rpc * Pipe :=
  match pc with
  | RFor n i got => (if i <? n then RWpos n i got (p_rpos p) else RDone i got, p)
  | RWpos n i got rpos =>
      (if rpos =? p_wpos p then if 0 <? i then RDone i got else REmpty n i got else RTake n i got, p)
  | REmpty n i got => (if closed then RDone 0 got else RFor n i got, p)
  | RTake n i got =>
      let k := Z.rem (p_rpos p) PIPEBUFSIZ in
      (if k <? 0 then RFault else RInc n i got (p_buf p k), p)
  | RInc n i got c => (RFor n (i + 1) (got ++ [c]), MkPipe (s32 (p_rpos p + 1)) (p_wpos p) (p_buf p))
  | pc => (pc, p)
  end.

(** ** The writer

    [rest] is what [devpipe_write] has still to write, [i] bytes are written. *)
Inductive wpc : Type :=
| WIdle
| WFor (rest : list Z) (i : Z)
| WRpos (rest : list Z) (i : Z) (wpos : Z)
| WFull (rest : list Z) (i : Z)
| WPut (rest : list Z) (i : Z)
| WInc (rest : list Z) (i : Z)
| WDone (result : Z)
| WFault.

Definition devpipe_write (closed : bool) (pc : wpc) (p : Pipe) : wpc * Pipe :=
  match pc with
  | WFor rest i => (match rest with [] => WDone i | _ => WRpos rest i (p_wpos p) end, p)
  | WRpos rest i wpos => (if u32 (p_rpos p + PIPEBUFSIZ) <=? u32 wpos then WFull rest i else WPut rest i, p)
  | WFull rest i => (if closed then WDone 0 else WFor rest i, p)
  | WPut rest i =>
      let k := Z.rem (p_wpos p) PIPEBUFSIZ in
      if k <? 0 then (WFault, p)
      else (WInc rest i, MkPipe (p_rpos p) (p_wpos p) (upd (p_buf p) k (nth 0 rest 0)))
  | WInc rest i => (WFor (tail rest) (i + 1), MkPipe (p_rpos p) (s32 (p_wpos p + 1)) (p_buf p))
  | pc => (pc, p)
  end.

(** ** The two together

    [snt] and [rcv] record the bytes the writer has put into the pipe and the reader has
    taken out. *)
Record sys := MkSys {
  pipe : Pipe; rd : rpc; wr : wpc; rclosed : bool; wclosed : bool; snt : list Z; rcv : list Z }.

(** A new pipe: a page of zeros. *)
Definition start : sys := MkSys (MkPipe 0 0 (λ _, 0)) RIdle WIdle false false [] [].

Definition r_between (pc : rpc) : Prop := match pc with RIdle | RDone _ _ => True | _ => False end.
Definition w_between (pc : wpc) : Prop := match pc with WIdle | WDone _ => True | _ => False end.

Inductive pipe_step : sys → sys → Prop :=
| step_read_call n s : r_between (rd s) → rclosed s = false → 0 ≤ n →
    pipe_step s (MkSys (pipe s) (RFor n 0 []) (wr s) (rclosed s) (wclosed s) (snt s) (rcv s))
| step_read s pc p : devpipe_read (wclosed s) (rd s) (pipe s) = (pc, p) →
    pipe_step s (MkSys p pc (wr s) (rclosed s) (wclosed s) (snt s)
      (match rd s with RInc _ _ _ c => rcv s ++ [c] | _ => rcv s end))
| step_read_close s : r_between (rd s) →
    pipe_step s (MkSys (pipe s) (rd s) (wr s) true (wclosed s) (snt s) (rcv s))
| step_write_call bs s : w_between (wr s) → wclosed s = false →
    pipe_step s (MkSys (pipe s) (rd s) (WFor bs 0) (rclosed s) (wclosed s) (snt s) (rcv s))
| step_write s pc p : devpipe_write (rclosed s) (wr s) (pipe s) = (pc, p) →
    pipe_step s (MkSys p (rd s) pc (rclosed s) (wclosed s)
      (match wr s with WInc rest _ => snt s ++ [nth 0 rest 0] | _ => snt s end) (rcv s))
| step_write_close s : w_between (wr s) →
    pipe_step s (MkSys (pipe s) (rd s) (wr s) (rclosed s) true (snt s) (rcv s)).

Inductive reachable : sys → Prop :=
| reach_start : reachable start
| reach_step s s' : reachable s → pipe_step s s' → reachable s'.

(** ** The invariant *)

(** The bytes taken are the first ones sent, and the others lie in the ring. *)
Record ring_ok (s : sys) : Prop := MkRingOk {
  ro_rpos : p_rpos (pipe s) = Z.of_nat (length (rcv s));
  ro_wpos : p_wpos (pipe s) = Z.of_nat (length (snt s));
  ro_room : (length (rcv s) ≤ length (snt s) ≤ length (rcv s) + 32)%nat;
  ro_prefix : rcv s = take (length (rcv s)) (snt s);
  ro_ring : ∀ k c, snt s !! k = Some c → (length (rcv s) ≤ k)%nat → p_buf (pipe s) (Z.of_nat k mod 32) = c;
}.

Definition got_ok (i : Z) (got rcv : list Z) : Prop := i = Z.of_nat (length got) ∧ got `suffix_of` rcv.

Definition reader_ok (s : sys) : Prop :=
  match rd s with
  | RIdle => True
  | RFor n i got => got_ok i got (rcv s)
  | RWpos n i got r => got_ok i got (rcv s) ∧ r = p_rpos (pipe s)
  | REmpty n i got => got_ok i got (rcv s) ∧ i = 0
  | RTake n i got => got_ok i got (rcv s) ∧ (length (rcv s) < length (snt s))%nat
  | RInc n i got c => got_ok i got (rcv s) ∧ snt s !! length (rcv s) = Some c
  | RDone r got => got_ok r got (rcv s)
  | RFault => False
  end.

Definition writer_ok (s : sys) : Prop :=
  match wr s with
  | WIdle => True
  | WFor rest i => True
  | WRpos rest i w => rest ≠ [] ∧ w = p_wpos (pipe s)
  | WFull rest i => rest ≠ []
  | WPut rest i => rest ≠ [] ∧ (length (snt s) < length (rcv s) + 32)%nat
  | WInc rest i => rest ≠ [] ∧ (length (snt s) < length (rcv s) + 32)%nat ∧
      p_buf (pipe s) (Z.of_nat (length (snt s)) mod 32) = nth 0 rest 0
  | WDone r => True
  | WFault => False
  end.

Definition inv (s : sys) : Prop := ring_ok s ∧ reader_ok s ∧ writer_ok s.

Lemma inv_start : inv start.
Proof. split; [|done]. split; try done; cbn; lia. Qed.

(** Two live positions of the ring have different slots. *)
Lemma slot_ne (a b c : nat) : (c ≤ a < c + 32)%nat → (c ≤ b < c + 32)%nat → a ≠ b → Z.of_nat a mod 32 ≠ Z.of_nat b mod 32.
Proof. intros. dlia. Qed.

Lemma rem_pos (n : nat) : Z.rem (Z.of_nat n) 32 = Z.of_nat n mod 32.
Proof. apply Z.rem_mod_nonneg; lia. Qed.

Lemma slot_nonneg (n : nat) : (Z.of_nat n mod 32 <? 0) = false.
Proof. apply Z.ltb_ge. apply Z.mod_pos_bound. lia. Qed.

Lemma read_ok s pc p : inv s → Z.of_nat (length (snt s)) < 2 ^ 31 → devpipe_read (wclosed s) (rd s) (pipe s) = (pc, p) →
  inv (MkSys p pc (wr s) (rclosed s) (wclosed s) (snt s) (match rd s with RInc _ _ _ c => rcv s ++ [c] | _ => rcv s end)).
Proof.
  intros (HR & Hr & Hw) Hlim E. destruct s as [[rp wp bf] r w rc wc sn rv]. destruct HR as [A B C D F].
  unfold inv, reader_ok, writer_ok in *. cbn [pipe rd wr rclosed wclosed snt rcv p_rpos p_wpos p_buf] in *.
  destruct r as [|n i got|n i got r0|n i got|n i got|n i got c|r got|]; cbn [devpipe_read p_rpos p_wpos p_buf] in E;
    injection E as <- <-.
  - by split.
  - split; [by split|]. split; [|done]. by destruct (i <? n).
  - destruct Hr as [Hg ->]. split; [by split|]. split; [|done]. destruct (Z.eqb_spec rp wp) as [E|E].
    + destruct (Z.ltb_spec 0 i); [done|]. split; [done|]. destruct Hg as [-> _]. lia.
    + split; [done|]. cbn. lia.
  - destruct Hr as [Hg ->]. split; [by split|]. split; [|done]. by destruct wc.
  - destruct Hr as [Hg Hlt]. split; [by split|]. split; [|done]. rewrite A. unfold PIPEBUFSIZ. rewrite rem_pos, slot_nonneg. split; [done|].
    destruct (lookup_lt_is_Some_2 sn _ Hlt) as [c Hc]. cbn. rewrite Hc. f_equal. symmetry. by apply F.
  - destruct Hr as [[-> Hs] Hc]. pose proof (lookup_lt_Some _ _ _ Hc) as Hlt. split.
    + split; cbn [pipe p_rpos p_wpos p_buf snt rcv]; rewrite ?length_app; cbn [length].
      * rewrite A, s32_small by lia. lia.
      * done.
      * lia.
      * rewrite Nat.add_1_r. rewrite (take_S_r _ _ _ Hc). by f_equal.
      * intros k x Hk Hle. apply F; [done|lia].
    + split.
      * split; [rewrite length_app; cbn; lia|]. by apply suffix_app.
      * cbn. rewrite ?length_app. cbn [length]. destruct w; try done; destruct_and?; split_and?; (done || lia).
  - by split.
  - done.
Qed.

Lemma write_ok s pc p : inv s →
  Z.of_nat (length (match wr s with WInc rest _ => snt s ++ [nth 0 rest 0] | _ => snt s end)) < 2 ^ 31 → devpipe_write (rclosed s) (wr s) (pipe s) = (pc, p) →
  inv (MkSys p (rd s) pc (rclosed s) (wclosed s) (match wr s with WInc rest _ => snt s ++ [nth 0 rest 0] | _ => snt s end) (rcv s)).
Proof.
  intros (HR & Hr & Hw) Hlim E. destruct s as [[rp wp bf] r w rc wc sn rv]. destruct HR as [A B C D F].
  unfold inv, reader_ok, writer_ok in *. cbn [pipe rd wr rclosed wclosed snt rcv p_rpos p_wpos p_buf] in *.
  destruct w as [|rest i|rest i w0|rest i|rest i|rest i|r0|]; cbn [devpipe_write p_rpos p_wpos p_buf] in E.
  - injection E as <- <-. by split.
  - injection E as <- <-. split; [by split|]. split; [done|]. by destruct rest.
  - injection E as <- <-. destruct Hw as [Hne ->]. split; [by split|]. split; [done|]. unfold PIPEBUFSIZ.
    rewrite !u32_small by (unfold is_u32; lia). destruct (Z.leb_spec (rp + 32) wp); [done|]. split; [done|]. cbn. lia.
  - injection E as <- <-. split; [by split|]. split; [done|]. by destruct rc.
  - destruct Hw as [Hne Hlt]. unfold PIPEBUFSIZ in E. rewrite B, rem_pos, slot_nonneg in E. injection E as <- <-.
    assert (∀ k c, sn !! k = Some c → (length rv ≤ k)%nat → upd bf (Z.of_nat (length sn) mod 32) (nth 0 rest 0) (Z.of_nat k mod 32) = c) as G.
    { intros k c Hk Hle. pose proof (lookup_lt_Some _ _ _ Hk). rewrite upd_ne; [by apply F|]. apply (slot_ne _ _ (length rv)); lia. }
    split; [by split|]. split; [|split; [done|split; [done|cbn; by rewrite upd_eq]]].
    destruct r; try done; naive_solver.
  - injection E as <- <-. destruct Hw as (Hne & Hlt & Hb). rewrite length_app in Hlim. cbn [length] in Hlim. split.
    + split; cbn [pipe p_rpos p_wpos p_buf snt rcv]; rewrite ?length_app; cbn [length]; [done| |lia| |].
      * rewrite B, s32_small by lia. lia.
      * rewrite take_app_le by lia. done.
      * intros k c Hk Hle. apply lookup_app_Some in Hk as [Hk|[Hk1 Hk2]]; [by apply F|].
        apply list_lookup_singleton_Some in Hk2 as [Hk2 <-]. replace k with (length sn) by lia. done.
    + split; [|done]. cbn. destruct r; try done; rewrite ?length_app; cbn [length].
      * destruct Hr as [H1 H2]. split; [done|lia].
      * destruct Hr as [H1 H2]. split; [done|]. rewrite lookup_app_l; [done|]. by eapply lookup_lt_Some.
  - injection E as <- <-. by split.
  - done.
Qed.

Lemma reachable_inv s : reachable s → Z.of_nat (length (snt s)) < 2 ^ 31 → inv s.
Proof.
  induction 1 as [|s s' Hs IH Hst]; intros Hlim; [apply inv_start|].
  destruct Hst as [n s H1 H2 H3|s pc p E|s H1|bs s H1 H2|s pc p E|s H1]; cbn [snt] in Hlim.
  - destruct (IH Hlim) as (A & B & C). split; [by destruct A; split|]. split; [|done]. split; [done|]. apply suffix_nil.
  - by apply read_ok; [apply IH|..].
  - destruct (IH Hlim) as (A & B & C). by split; [destruct A; split|].
  - destruct (IH Hlim) as (A & B & C). by split; [destruct A; split|].
  - apply write_ok; [|done|done]. apply IH. destruct (wr s); try done. rewrite length_app in Hlim. lia.
  - destruct (IH Hlim) as (A & B & C). by split; [destruct A; split|].
Qed.

(** C25. In every interleaving of a reader and a writer, over any number of calls of any
    size, the bytes taken out of the pipe are those put in, in order and without loss or
    repetition, at most 32 of them on the way; and a call that is finished has returned
    the number of bytes in its buffer, which are the last ones taken.  (As long as fewer
    than 2^31 bytes were sent, where the positions overflow.) *)
Theorem pipe_fifo s : reachable s → Z.of_nat (length (snt s)) < 2 ^ 31 →
  rcv s `prefix_of` snt s ∧ (length (snt s) ≤ length (rcv s) + 32)%nat ∧ rd s ≠ RFault ∧ wr s ≠ WFault ∧
  ∀ r got, rd s = RDone r got → r = Z.of_nat (length got) ∧ got `suffix_of` rcv s.
Proof.
  intros Hr Hlim. destruct (reachable_inv s Hr Hlim) as ([A B C D F] & HR & HW). unfold reader_ok, writer_ok in *.
  split; [rewrite D; apply prefix_take|]. split; [lia|]. split; [by intros E; rewrite E in HR|].
  split; [by intros E; rewrite E in HW|]. intros r got E. by rewrite E in HR.
Qed.

(** Running the steps of one side. *)
Definition do_read (s : sys) : sys :=
  let '(pc, p) := devpipe_read (wclosed s) (rd s) (pipe s) in
  MkSys p pc (wr s) (rclosed s) (wclosed s) (snt s) (match rd s with RInc _ _ _ c => rcv s ++ [c] | _ => rcv s end).
Definition do_write (s : sys) : sys :=
  let '(pc, p) := devpipe_write (rclosed s) (wr s) (pipe s) in
  MkSys p (rd s) pc (rclosed s) (wclosed s) (match wr s with WInc rest _ => snt s ++ [nth 0 rest 0] | _ => snt s end) (rcv s).

Lemma reach_read s : reachable s → reachable (do_read s).
Proof.
  intros H. unfold do_read. destruct (devpipe_read _ _ _) as [pc p] eqn:E. by apply (reach_step s); [|apply step_read].
Qed.
Lemma reach_write s : reachable s → reachable (do_write s).
Proof.
  intros H. unfold do_write. destruct (devpipe_write _ _ _) as [pc p] eqn:E. by apply (reach_step s); [|apply step_write].
Qed.
Lemma reach_reads n s : reachable s → reachable (Nat.iter n do_read s).
Proof. intros H. induction n as [|n IH]; [done|]. by apply reach_read. Qed.
Lemma reach_writes n s : reachable s → reachable (Nat.iter n do_write s).
Proof. intros H. induction n as [|n IH]; [done|]. by apply reach_write. Qed.

Definition call_read (n : Z) (s : sys) : sys := MkSys (pipe s) (RFor n 0 []) (wr s) (rclosed s) (wclosed s) (snt s) (rcv s).
Definition call_write (bs : list Z) (s : sys) : sys := MkSys (pipe s) (rd s) (WFor bs 0) (rclosed s) (wclosed s) (snt s) (rcv s).

(** The writer sends three bytes, the reader asks for ten and gets the three. *)
Definition three : sys := Nat.iter 14 do_read (call_read 10 (Nat.iter 13 do_write (call_write [7; 8; 9] start))).

Lemma three_reachable : reachable three.
Proof.
  apply reach_reads. eapply reach_step; [|apply step_read_call; [exact I|reflexivity|lia]].
  apply reach_writes. eapply reach_step; [apply reach_start|]. by apply step_write_call.
Qed.

Lemma pipe_fifo_witness : rd three = RDone 3 [7; 8; 9] ∧ [7; 8; 9] `suffix_of` rcv three.
Proof.
  split; [vm_compute; reflexivity|].
  destruct (pipe_fifo three three_reachable) as (_ & _ & _ & _ & H); [vm_compute; reflexivity|].
  apply (H 3). vm_compute. reflexivity.
Defined.

(** A reader can be told that the pipe is at its end while bytes are left in it: it
    finds the pipe empty, the writer then writes a byte and closes its end, and only
    now the reader asks whether that end is closed. *)
Theorem pipe_eof_loses : ∃ s, reachable s ∧ rd s = RDone 0 [] ∧ wclosed s = true ∧ snt s = [42] ∧ rcv s = [].
Proof.
  set (s1 := Nat.iter 2 do_read (call_read 1 start)).
  set (s2 := Nat.iter 5 do_write (call_write [42] s1)).
  set (s3 := MkSys (pipe s2) (rd s2) (wr s2) (rclosed s2) true (snt s2) (rcv s2)).
  exists (do_read s3). split; [|vm_compute; done]. apply reach_read.
  eapply reach_step; [|apply step_write_close; exact I]. apply reach_writes.
  eapply reach_step; [|apply step_write_call; [exact I|reflexivity]]. apply reach_reads.
  eapply reach_step; [apply reach_start|]. apply step_read_call; [exact I|reflexivity|lia].
Qed.

(** After 2^31 bytes the positions are negative, and so is the slot of the next byte but
    one: the store is outside the buffer. *)
Lemma pipe_overflow bs : devpipe_write false (WPut bs 0) (MkPipe (- 2 ^ 31 + 1) (- 2 ^ 31 + 1) (λ _, 0)) =
  (WFault, MkPipe (- 2 ^ 31 + 1) (- 2 ^ 31 + 1) (λ _, 0)).
Proof. reflexivity. Qed.
End Ring.

(** ** Is the other end closed?

    A descriptor of the pipe in some process is two mappings: its page in the table of
    descriptors and, at the address that belongs to it, the page of the pipe. *)
Module Closed.
Inductive half : Type := Rd | Wr.

Inductive slot_state : Type :=
| Open           (* both pages are mapped *)
| HalfClosed     (* [devpipe_close] has unmapped the descriptor, not yet the pipe *)
| HalfDup        (* [dup] has mapped the pipe, not yet the descriptor *)
| HalfFork       (* [fork] has mapped the descriptor, at the lower address, not yet the pipe *)
| Gone.

Record slot := MkSlot { side : half; state : slot_state }.

#[global] Instance half_eq_dec : EqDecision half.
Proof. solve_decision. Defined.

Definition has_fd (x : slot) : bool := match state x with Open | HalfFork => true | _ => false end.
Definition has_data (x : slot) : bool := match state x with Open | HalfClosed | HalfDup => true | _ => false end.

(** [pageref] of the descriptor of one end, and of the pipe. *)
Definition pageref_fd (h : half) (l : list slot) : nat :=
  length (filter (λ x, bool_decide (side x = h) && has_fd x) l).
Definition pageref_pipe (l : list slot) : nat := length (filter (λ x, has_data x) l).

(** [_pipeisclosed] of a process that was not interrupted between the two reads. *)
Definition pipeisclosed (h : half) (l : list slot) : bool := bool_decide (pageref_fd h l = pageref_pipe l).

Inductive slot_step : list slot → list slot → Prop :=
| close_fd l1 h l2 : slot_step (l1 ++ MkSlot h Open :: l2) (l1 ++ MkSlot h HalfClosed :: l2)
| close_data l1 h l2 : slot_step (l1 ++ MkSlot h HalfClosed :: l2) (l1 ++ MkSlot h Gone :: l2)
| dup_data l h : MkSlot h Open ∈ l → slot_step l (l ++ [MkSlot h HalfDup])
| dup_fd l1 h l2 : slot_step (l1 ++ MkSlot h HalfDup :: l2) (l1 ++ MkSlot h Open :: l2)
| fork_fd l h : MkSlot h Open ∈ l → slot_step l (l ++ [MkSlot h HalfFork])
| fork_data l1 h l2 : slot_step (l1 ++ MkSlot h HalfFork :: l2) (l1 ++ MkSlot h Open :: l2).

(** What [pipe] sets up. *)
Definition fresh_pipe : list slot := [MkSlot Rd Open; MkSlot Wr Open].

(** Outside [fork] the answer is right: closing unmaps the descriptor first and [dup]
    maps it last, so a descriptor page is never mapped more often than its share of the
    pipe. *)
Lemma pipeisclosed_sound h l : pipeisclosed h l = true → Forall (λ x, state x ≠ HalfFork) l →
  ∀ x, x ∈ l → state x = Open → side x = h.
Proof.
  intros H Hf x Hx Ho. apply bool_decide_eq_true in H. unfold pageref_fd, pageref_pipe in H.
  assert (∀ l, Forall (λ x, state x ≠ HalfFork) l →
    (length (filter (λ x, bool_decide (side x = h) && has_fd x) l) ≤ length (filter (λ x, has_data x) l))%nat) as Hle.
  { clear. induction l as [|y l IH]; intros Hf; [done|]. apply Forall_cons in Hf as [Hy Hf]. specialize (IH Hf).
    rewrite !filter_cons. destruct y as [s st]. unfold has_fd, has_data in *. cbn [state side] in *.
    destruct st, (bool_decide (s = h)); try done; cbn; repeat case_decide; cbn; try lia; done. }
  destruct (decide (side x = h)) as [|Hne]; [done|]. exfalso.
  apply list_elem_of_split in Hx as (l1 & l2 & ->). rewrite !filter_app, !filter_cons, !length_app in H.
  apply Forall_app in Hf as [Hf1 Hf2]. apply Forall_cons in Hf2 as [_ Hf2].
  pose proof (Hle _ Hf1). pose proof (Hle _ Hf2). unfold has_fd, has_data in *. rewrite Ho in *.
  rewrite (bool_decide_eq_false_2 _ Hne) in H. rewrite decide_False, decide_True in H by (cbn; auto). cbn [length] in H. lia.
Qed.

(** While a process forks, another one can take the pipe for closed with its other end
    open: the pages of the descriptors lie below the data pages, and [fork] copies the
    address space upwards. *)
Lemma fork_looks_closed : ∃ l, rtc slot_step fresh_pipe l ∧ pipeisclosed Rd l = true ∧ MkSlot Wr Open ∈ l.
Proof.
  exists [MkSlot Rd Open; MkSlot Wr Open; MkSlot Rd Open; MkSlot Wr Gone; MkSlot Rd HalfFork; MkSlot Wr HalfFork].
  split; [|split; [vm_compute; reflexivity|right; left]]. unfold fresh_pipe.
  eapply rtc_l; [apply (fork_fd _ Rd); left|]. eapply rtc_l; [apply (fork_fd _ Wr); right; left|]. cbn [app].
  eapply rtc_l; [apply (fork_data [_; _] Rd [_])|]. eapply rtc_l; [apply (fork_data [_; _; _] Wr [])|]. cbn [app].
  eapply rtc_l; [apply (close_fd [_; _; _] Wr [])|]. eapply rtc_l; [apply (close_data [_; _; _] Wr [])|]. cbn [app].
  eapply rtc_l; [apply (fork_fd _ Rd); left|]. eapply rtc_l; [apply (fork_fd _ Wr); right; left|]. done.
Qed.

(** Nor are the two reads one: another process, on another processor, may close its end
    between them, and [env_runs] of the caller does not change. *)
Lemma two_reads_look_closed : ∃ l l', rtc slot_step fresh_pipe l ∧ rtc slot_step l l' ∧
  pageref_fd Rd l = pageref_pipe l' ∧ MkSlot Wr Open ∈ l'.
Proof.
  exists [MkSlot Rd Open; MkSlot Wr Open; MkSlot Rd Open], [MkSlot Rd Open; MkSlot Wr Open; MkSlot Rd Gone].
  split; [|split; [|split; [vm_compute; reflexivity|right; left]]]; unfold fresh_pipe.
  - eapply rtc_l; [apply (dup_data _ Rd); left|]. cbn [app]. eapply rtc_l; [apply (dup_fd [_; _] Rd [])|]. done.
  - eapply rtc_l; [apply (close_fd [_; _] Rd [])|]. eapply rtc_l; [apply (close_data [_; _] Rd [])|]. done.
Qed.
End Closed.
