(* ===== verification/Fork.v ===== *)
(** * Copy-on-write fork: [lib/fork.c], [lib/pgfault.c]

    User code over the system calls of the kernel: each call is the handler of
    [kernel/syscall.c], run for the environment that is current.  [uvpd] and [uvpt] are
    the words of the caller's page directory and tables, which the kernel maps for it.
    A [panic] of the library ends the program. *)

From stdpp Require Import base gmap list strings.
From Stdlib Require Import ZArith Lia.
From S2P Require Import Prelude Mmu Pmap Env Sched Syscall.

Definition PTE_SHARE : Z := 0x400.
Definition UTEMP : Z := PTSIZE.
Definition PFTEMP : Z := UTEMP + PTSIZE - PGSIZE.
Definition FEC_WR : Z := 0x2.
Definition FDTABLE : Z := 0xD0000000.
Definition MAXFD : Z := 32.
Definition FILEDATA : Z := FDTABLE + MAXFD * PGSIZE.

(** ** The page tables, as the program sees them *)
Definition own_dir : M kstate Z := let* c := cur in pgdir_of c.

Definition uvpd (va : Z) : M kstate Z :=
  let* d := own_dir in gets (λ s, rd (mem s) d (PDX va)).

(** [uvpt[PGNUM(va)]]: a fault when there is no table. *)
Definition uvpt (va : Z) : M kstate Z :=
  let* d := own_dir in
  let* pde := gets (λ s, rd (mem s) d (PDX va)) in
  if ctrue (Z.land pde PTE_P) then gets (λ s, rd (mem s) (pde / 4096) (PTX va)) else fault.

(** [(uvpd[PDX(va)] & PTE_P) && (uvpt[PGNUM(va)] & PTE_P)] *)
Definition is_mapped (va : Z) : M kstate bool :=
  let* pde := uvpd va in
  if ctrue (Z.land pde PTE_P) then let* pte := uvpt va in ret (ctrue (Z.land pte PTE_P)) else ret false.

(** The wrappers of [lib/syscall.c]: they ask for user access, and take a positive result
    for a broken kernel. *)
Definition checked (c : M kstate Z) : M kstate Z :=
  let* r := c in if 0 <? r then panic "syscall" else ret r.
Definition lib_page_alloc (envid va perm : Z) : M kstate Z := checked (sys_page_alloc envid va (Z.lor perm PTE_U)).
Definition lib_page_map (src_env src dst_env dst perm : Z) : M kstate Z :=
  checked (sys_page_map src_env src dst_env dst (Z.lor perm PTE_U)).
Definition lib_page_unmap (envid va : Z) : M kstate Z := checked (sys_page_unmap envid va).

(** [if (ret < 0) panic(...)]. *)
Definition must (what : string) (c : M kstate Z) : M kstate unit :=
  let* r := c in if r <? 0 then panic what else ret tt.

(** ** [fork] *)
Definition duppage (dst_env pn : Z) : M kstate Z :=
  let va := u32 (Z.shiftl pn 12) in
  let* pte := uvpt va in
  let perm := PGOFF pte in
  if ctrue (Z.land perm PTE_SHARE) then
    do* must "sys_page_map" (lib_page_map 0 va dst_env va perm) in
    ret 0
  else if ctrue (Z.land perm PTE_W) || ctrue (Z.land perm PTE_COW) then
    let perm := Z.land perm (Z.lnot PTE_W) in
    let perm := Z.lor perm PTE_COW in
    do* must "sys_page_map" (lib_page_map 0 va dst_env va perm) in
    do* must "sys_page_map" (lib_page_map 0 va 0 va perm) in
    ret 0
  else
    do* must "sys_page_map" (lib_page_map 0 va dst_env va perm) in
    ret 0.

(** One round of the loop over the pages; [Some] is an early return. *)
Definition copy_page (dst_env pn : Z) (copy : Z → Z → M kstate Z) : M kstate (option Z) :=
  let* b := is_mapped (pn * PGSIZE) in
  if b : bool then
    let* r := copy dst_env pn in
    if r <? 0 then ret (Some r) else ret None
  else ret None.

(** The pages below [USTACKTOP], or the first [n] of them. *)
Definition copy_pages (n : nat) (lo dst_env : Z) (copy : Z → Z → M kstate Z) : M kstate (option Z) :=
  search n lo (λ pn, copy_page dst_env pn copy).

Definition fork_pages (dst_env : Z) : M kstate (option Z) :=
  copy_pages (Z.to_nat (USTACKTOP / PGSIZE)) 0 dst_env duppage.

(** The rest of [fork]; [upcall] is the address of [_pgfault_upcall] and [name] that of
    [thisenv->binaryname]. *)
Definition fork_finish (upcall name envid : Z) : M kstate Z :=
  do* must "fork" (sys_copy_vma 0 envid) in
  do* must "fork" (lib_page_alloc envid (UXSTACKTOP - PGSIZE) PTE_W) in
  do* must "fork" (checked (sys_env_set_pgfault_upcall envid upcall)) in
  do* must "fork" (sys_env_name envid name) in
  do* must "fork" (checked (sys_env_set_status envid 2)) in
  ret envid.

Definition fork (upcall name : Z) : M kstate Z :=
  let* envid := sys_exofork in
  if envid =? 0 then ret 0 else
  let* r := fork_pages envid in
  match r with Some r => ret r | None => fork_finish upcall name envid end.

(** ** [sfork] *)
Definition share_page (dst_env pn : Z) : M kstate Z :=
  let va := u32 (Z.shiftl pn 12) in
  let* pte := uvpt va in
  let perm := PGOFF pte in
  do* must "sys_page_map" (lib_page_map 0 va dst_env va perm) in
  ret 0.

Definition sfork (upcall name : Z) : M kstate Z :=
  let* envid := sys_exofork in
  if envid =? 0 then ret 0 else
  let shared := (FILEDATA + MAXFD * PGSIZE) / PGSIZE in
  let* r := copy_pages (Z.to_nat shared) 0 envid share_page in
  match r with
  | Some r => ret r
  | None =>
      let* r := copy_pages (Z.to_nat (USTACKTOP / PGSIZE - shared)) shared envid duppage in
      match r with Some r => ret r | None => fork_finish upcall name envid end
  end.

(** ** The handler of page faults

    [memcpy] copies word by word: source and destination are pages. *)
Definition copy_frame (dst src : Z) : M kstate unit :=
  for_up 1024 0 (λ k,
    let* w := on_mem (va_load32 (u32 (src + 4 * k))) in
    on_mem (va_store32 (u32 (dst + 4 * k)) w)).

Definition pgfault (addr err : Z) : M kstate unit :=
  let va := addr - addr mod PGSIZE in
  let* bad :=
    (if negb (ctrue (Z.land err FEC_WR)) then ret true
     else let* pte := uvpt addr in ret (negb (ctrue (Z.land pte PTE_COW)))) in
  if bad : bool then panic "pgfault" else
  do* must "sys_page_alloc" (lib_page_alloc 0 PFTEMP PTE_W) in
  do* copy_frame PFTEMP va in
  do* must "sys_page_map" (lib_page_map 0 PFTEMP 0 va PTE_W) in
  must "sys_page_unmap" (lib_page_unmap 0 PFTEMP).

(** [handler] is null before the first call, [upcall] the address of [_pgfault_upcall]. *)
Definition set_pgfault_handler (handler_set : bool) (upcall : Z) : M kstate unit :=
  if negb handler_set then
    do* must "set_pgfault_handler" (lib_page_alloc 0 (UXSTACKTOP - PGSIZE) PTE_W) in
    must "set_pgfault_handler" (checked (sys_env_set_pgfault_upcall 0 upcall))
  else ret tt.
