(* ===== verification/ForkInv.v ===== *)
(** * The steps of fork on the kernel state

    What one call of [sys_page_map] and one [duppage] of [Fork] do to the page tables of
    parent and child, with the kernel invariant kept, and why no reference count
    overflows on the way. *)

From stdpp Require Import base gmap list strings.
From Stdlib Require Import ZArith Lia.
From S2P Require Import Prelude Mmu Pmap PmapInv PmapOps PmapDir MemInit Env Sched EnvFree EnvInv.
From S2P Require Import EnvAlloc Syscall SyscallInv SyscallProps Fork.

(** ** Entries *)
Definition shared (w : Z) : bool := ctrue (Z.land (PGOFF w) PTE_SHARE).
Definition is_cow (w : Z) : bool :=
  negb (shared w) && (ctrue (Z.land (PGOFF w) PTE_W) || ctrue (Z.land (PGOFF w) PTE_COW)).

(** The page of [w], with its permissions, or write-protected and marked. *)
Definition same_pte (w : Z) : Z := mk_pte (w / 4096) (Z.lor (PGOFF w) PTE_U).
Definition cow_perm (w : Z) : Z := Z.lor (Z.land (PGOFF w) (Z.lnot PTE_W)) PTE_COW.
Definition cow_pte (w : Z) : Z := mk_pte (w / 4096) (Z.lor (cow_perm w) PTE_U).

Definition child_pte (w : Z) : Z := if is_cow w then cow_pte w else same_pte w.
Definition parent_pte (w : Z) : Z := if is_cow w then cow_pte w else w.

Lemma PGOFF_range w : 0 ≤ PGOFF w < 4096.
Proof. rewrite PGOFF_mod. apply Z.mod_pos_bound. lia. Qed.

Lemma land_small a b n : 0 ≤ n → 0 ≤ a < 2 ^ n → 0 ≤ Z.land a b < 2 ^ n.
Proof.
  intros Hn Ha. enough (Z.land a b mod 2 ^ n = Z.land a b) as <- by (apply Z.mod_pos_bound; lia).
  apply Z.bits_inj'. intros i Hi. rewrite Z.testbit_mod_pow2 by done. destruct (Z.ltb_spec i n); [done|].
  rewrite <- (Z.mod_small a (2 ^ n)) by done. by rewrite Z.land_spec, Z.mod_pow2_bits_high by lia.
Qed.

Lemma cow_perm_range w : 0 ≤ cow_perm w < 4096.
Proof.
  apply (lor_small _ _ 12); [lia| |unfold PTE_COW; lia]. apply (land_small _ _ 12); [lia|apply PGOFF_range].
Qed.

Lemma writable_PGOFF w : writable (PGOFF w) = writable w.
Proof. unfold writable. rewrite PGOFF_mod. change 4096 with (2 ^ 12). by rewrite Z.mod_pow2_bits_low by lia. Qed.

Lemma writable_mk_pte p perm : 0 ≤ p < 2 ^ 20 → writable (mk_pte p (Z.lor perm PTE_U)) = writable perm.
Proof.
  intros Hp. unfold writable, mk_pte. rewrite page2pa_small by done. unfold PGSHIFT, PTE_P, PTE_U.
  rewrite !Z.lor_spec, Z.shiftl_spec_low by lia. cbn. by rewrite orb_false_r.
Qed.

Lemma cow_perm_readonly w : writable (cow_perm w) = false.
Proof.
  unfold writable, cow_perm. rewrite Z.lor_spec, Z.land_spec. change (Z.testbit (Z.lnot PTE_W) 1) with false.
  by rewrite andb_false_r.
Qed.

Lemma child_pte_frame w : 0 ≤ w / 4096 < 2 ^ 20 → child_pte w / 4096 = w / 4096.
Proof.
  intros H. unfold child_pte, cow_pte, same_pte.
  destruct (is_cow w); apply mk_pte_frame; try done; apply perm_user; [apply cow_perm_range|apply PGOFF_range].
Qed.

Lemma parent_pte_frame w : 0 ≤ w / 4096 < 2 ^ 20 → parent_pte w / 4096 = w / 4096.
Proof.
  intros H. unfold parent_pte. destruct (is_cow w) eqn:E; [|done].
  transitivity (child_pte w / 4096); [unfold child_pte; by rewrite E|by apply child_pte_frame].
Qed.

(** A page both may write to is one that is shared on purpose. *)
Lemma child_pte_writable w : 0 ≤ w / 4096 < 2 ^ 20 → writable (child_pte w) = writable w && shared w.
Proof.
  intros H. unfold child_pte, is_cow. rewrite land_W, writable_PGOFF.
  destruct (shared w); cbn [negb andb].
  - unfold same_pte. by rewrite writable_mk_pte, writable_PGOFF, andb_true_r.
  - rewrite andb_false_r. destruct (writable w) eqn:E; cbn [orb].
    + unfold cow_pte. by rewrite writable_mk_pte, cow_perm_readonly.
    + destruct (ctrue _); [unfold cow_pte; by rewrite writable_mk_pte, cow_perm_readonly|].
      unfold same_pte. by rewrite writable_mk_pte, writable_PGOFF.
Qed.

Lemma parent_pte_writable w : 0 ≤ w / 4096 < 2 ^ 20 → writable (parent_pte w) = writable w && shared w.
Proof.
  intros H. rewrite <- child_pte_writable by done. unfold parent_pte, child_pte.
  destruct (is_cow w) eqn:E; [done|]. unfold same_pte. by rewrite writable_mk_pte, writable_PGOFF.
Qed.

(** ** Counting references

    [sharing m0 m]: from [m0] to [m], directory [sd] and all others kept their pages, and
    [dd] has at most pages of [sd], each at the address it has there. *)
Section counting.
Context (D : list Z) (sd dd : Z).
Implicit Types (m : memst) (fl : list Z).

Record sharing m0 m : Prop := MkSharing {
  sh_same : ∀ d i j, SPage d i j ∈ sites D → d ≠ dd → target m (SPage d i j) = target m0 (SPage d i j);
  sh_child : ∀ i j p, SPage dd i j ∈ sites D → target m (SPage dd i j) = Some p → target m0 (SPage sd i j) = Some p
}.

Definition redir (d : Z) (x : site) : site :=
  match x with SDir _ => SDir d | STab _ i => STab d i | SPage _ i j => SPage d i j end.

Lemma dir_sites_redir d d' : dir_sites d' = redir d' <$> dir_sites d.
Proof.
  unfold dir_sites, table_sites. generalize (seqZ 0 1024) as l2. generalize (seqZ 0 NUSER) as l1. intros l1 l2.
  rewrite fmap_cons. f_equal. induction l1 as [|i l1 IH]; [done|]. cbn [mbind list_bind]. rewrite fmap_app, <- IH. f_equal.
  rewrite fmap_cons. f_equal. rewrite <- list_fmap_compose. done.
Qed.

Lemma length_filter_map_le {A} (f : A → A) (P Q : A → Prop) `{∀ x, Decision (P x)} `{∀ x, Decision (Q x)} (l : list A) :
  (∀ x, x ∈ l → P (f x) → Q x) → (length (filter P (f <$> l)) ≤ length (filter Q l))%nat.
Proof.
  induction l as [|x l IH]; intros HPQ; [done|]. specialize (IH ltac:(intros y Hy; apply HPQ; by right)).
  rewrite fmap_cons, !filter_cons. destruct (decide (P (f x))) as [HP|]; [|case_decide; cbn [length]; lia].
  rewrite decide_True by (apply HPQ; [left|done]). cbn [length]. lia.
Qed.

Lemma refs_redir_le m0 m p :
  (∀ x, x ∈ dir_sites sd → target m (redir dd x) = Some p → target m0 x = Some p) → refs [dd] m p ≤ refs [sd] m0 p.
Proof.
  intros H. unfold refs, sites. cbn [mbind list_bind]. rewrite !app_nil_r, (dir_sites_redir sd dd).
  apply Nat2Z.inj_le, length_filter_map_le. exact H.
Qed.

(** A page that is no table is only found in entries for pages. *)
Lemma not_table_site m p x : ¬ is_table D m p → x ∈ sites D → target m x = Some p → ∃ d i j, x = SPage d i j.
Proof. intros Hn Hx Ht. destruct x as [d|d i|d i j]; [destruct Hn; by eexists|destruct Hn; by eexists|by eauto]. Qed.

Lemma sharing_refs m0 m p : NoDup D → sd ∈ D → dd ∈ D → sharing m0 m → sd ≠ dd →
  ¬ is_table D m0 p → ¬ is_table D m p → refs D m p ≤ 2 * refs D m0 p.
Proof.
  intros Hnd Hsd Hdd [Hs Hc] Hne Hn0 Hn.
  assert (∃ D', D ≡ₚ dd :: D') as [D' Hp] by (destruct (elem_of_Permutation D dd) as [H _]; by destruct (H Hdd) as [k ?]; exists k).
  assert (sd ∈ D') as Hsd' by (rewrite Hp in Hsd; by apply elem_of_cons in Hsd as [?|?]).
  assert (∃ D2, D' ≡ₚ sd :: D2) as [D2 Hp2] by (destruct (elem_of_Permutation D' sd) as [H _]; by destruct (H Hsd') as [k ?]; exists k).
  rewrite Hp, NoDup_cons in Hnd. destruct Hnd as [Hdd' Hnd].
  rewrite !(refs_perm D _ _ _ Hp), !(refs_cons dd D'). 
  assert (refs D' m p = refs D' m0 p) as E1.
  { unfold refs. f_equal. apply filter_length_ext. intros x Hx.
    assert (x ∈ sites D) as HxD by (apply elem_of_sites; apply elem_of_sites in Hx as [? ?]; split; [rewrite Hp; by right|done]).
    assert (site_dir x ≠ dd) as Hxd by (apply elem_of_sites in Hx as [H1 _]; by intros E; rewrite E in H1).
    split; intros Ht.
    - destruct (not_table_site m p x Hn HxD Ht) as (d & i & j & ->). by rewrite <- Hs.
    - destruct (not_table_site m0 p x Hn0 HxD Ht) as (d & i & j & ->). by rewrite Hs. }
  assert (refs [dd] m p ≤ refs [sd] m0 p) as E2.
  { apply refs_redir_le. intros x Hx Ht. apply elem_of_dir_sites in Hx as [Hd Hwf].
    assert (redir dd x ∈ sites D) as HxD by (apply elem_of_sites; by destruct x).
    destruct (not_table_site m p _ Hn HxD Ht) as (d & i & j & E). destruct x; cbn in *; try done.
    injection E as <- <- <-. subst. by apply Hc. }
  rewrite E1, !(refs_perm D' _ _ _ Hp2), !(refs_cons sd D2) in *. pose proof (refs_nonneg [dd] m0 p). pose proof (refs_nonneg D2 m0 p).
  lia.
Qed.
End counting.

(** ** The tables, as the program sees them *)
Lemma uvpt_own s sd va w : own_dir s = Ret sd s → pte_of (mem s) sd (PDX va) (PTX va) = Some w → uvpt va s = Ret w s.
Proof.
  intros F Hw. unfold uvpt. rewrite (bind_eq _ _ _ _ _ F). unfold bind, gets.
  unfold pte_of, frame_of in Hw. fold (present (rd (mem s) sd (PDX va))).
  destruct (present (rd (mem s) sd (PDX va))); [|done]. by destruct (present _); [injection Hw as <-|].
Qed.

Lemma is_mapped_own s sd va : own_dir s = Ret sd s → is_mapped va s = Ret (bool_decide (is_Some (pte_of (mem s) sd (PDX va) (PTX va)))) s.
Proof.
  intros F. unfold is_mapped, uvpd. unfold bind at 1. rewrite (bind_eq _ _ _ _ _ F). unfold gets.
  fold (present (rd (mem s) sd (PDX va))). unfold pte_of, frame_of.
  destruct (present (rd (mem s) sd (PDX va))) eqn:Hd; [|done].
  unfold uvpt. unfold bind at 1. rewrite (bind_eq _ _ _ _ _ F). unfold bind, gets.
  fold (present (rd (mem s) sd (PDX va))). rewrite Hd. cbv zeta. set (x := rd (mem s) _ (PTX va)).
  change (ctrue (Z.land x PTE_P)) with (present x). unfold ret. by destruct (present x).
Qed.

(** ** Parent and child *)
Section family.
Context (R : Z → Z) (efl : list Z) (c i id sd dd : Z) (ce e : Env).
Implicit Types (s : kstate) (fl : list Z) (m : memst).

(** Environment [c] runs, [i] is a child of it with identifier [id]; [sd] and [dd] are
    their directories. *)
Record family s : Prop := MkFamily {
  fa_cur : curenv s = Some c;
  fa_ce : envs s !! c = Some ce;
  fa_cst : env_status ce ≠ ENV_FREE;
  fa_sd : env_pgdir ce = Some sd;
  fa_e : envs s !! i = Some e;
  fa_est : env_status e ≠ ENV_FREE;
  fa_id : env_id e = id;
  fa_pos : 0 < id;
  fa_par : env_parent_id e = env_id ce;
  fa_dd : env_pgdir e = Some dd;
  fa_ne : sd ≠ dd
}.

Lemma family_mem s m : family s → family (set_mem m s).
Proof. intros [? ? ? ? ? ? ? ? ? ? ?]. by split. Qed.

Lemma family_caller s : family s → caller_ok s.
Proof. intros F. exists c, ce. split; [apply F|]. split; [apply F|apply F]. Qed.

Lemma family_dirs fl s : kinv R fl efl s → family s → sd ∈ dirs_of (envs s) ∧ dd ∈ dirs_of (envs s).
Proof.
  intros K F. split.
  - destruct (kinv_live_dir R fl efl s c ce K (fa_ce _ F) (fa_cst _ F)) as (d & E & H). rewrite (fa_sd _ F) in E. by injection E as ->.
  - destruct (kinv_live_dir R fl efl s i e K (fa_e _ F) (fa_est _ F)) as (d & E & H). rewrite (fa_dd _ F) in E. by injection E as ->.
Qed.

(** Whose directory an identifier stands for in a call of the parent. *)
Definition addressed (envid j d : Z) (je : Env) : Prop :=
  (envid = 0 ∧ j = c ∧ d = sd ∧ je = ce) ∨ (envid = id ∧ j = i ∧ d = dd ∧ je = e).

Lemma addressed_with_env fl s envid j d je err k :
  kinv R fl efl s → family s → addressed envid j d je → with_env envid true err k s = k j s.
Proof.
  intros K F A. destruct (with_env_spec R fl efl s envid true K (family_caller s F)) as [(j' & Hj & ->)|[Hn _]].
  - f_equal. destruct A as [(-> & -> & _)|(-> & -> & _)].
    + destruct Hj as [[_ Hj]|[? _]]; [|done]. rewrite (fa_cur _ F) in Hj. by injection Hj as ->.
    + pose proof (fa_pos _ F). rewrite (names_slot R fl efl s id true j' K Hj) by lia.
      destruct (ki_env _ _ _ _ K i e (fa_e _ F)) as [_ _ _ Hx]. destruct (Hx (fa_est _ F)) as [_ <-]. by rewrite (fa_id _ F).
  - exfalso. apply (Hn j). destruct A as [(-> & -> & _)|(-> & -> & _)].
    + left. split; [done|apply F].
    + right. split; [pose proof (fa_pos _ F); lia|]. exists e. split; [apply F|]. split; [apply F|]. split; [apply F|].
      intros _. right. exists c, ce. split; [apply F|]. split; [apply F|apply F].
Qed.

Lemma addressed_dir s envid j d je : family s → addressed envid j d je → pgdir_of j s = Ret d s.
Proof.
  intros F A. unfold pgdir_of, bind, env_at. destruct A as [(_ & -> & -> & _)|(_ & -> & -> & _)].
  - rewrite (fa_ce _ F). cbn. by rewrite (fa_sd _ F).
  - rewrite (fa_e _ F). cbn. by rewrite (fa_dd _ F).
Qed.

(** The parent maps one of its pages again, at the same address, for itself or the
    child. *)
Lemma lib_map_ok fl s envid j d je va w perm :
  kinv R fl efl s → family s → addressed envid j d je → is_u32 va → va mod PGSIZE = 0 → 0 < va < UTOP → 0 ≤ perm < 4096 →
  pte_of (mem s) sd (PDX va) (PTX va) = Some w → (writable perm = true → writable w = true) →
  (∀ pi, pages (mem s) !! (w / 4096) = Some pi → pp_ref pi < 2 ^ 16 - 1) →
  (lib_page_map 0 va envid va perm s = Ret (- E_NO_MEM) s ∧ fl = [] ∧ frame_of (rd (mem s) d (PDX va)) = None) ∨
  ∃ m' fl', lib_page_map 0 va envid va perm s = Ret 0 (set_mem m' s) ∧ kinv R fl' efl (set_mem m' s) ∧
    inserted (dirs_of (envs s)) R fl (mem s) d (w / 4096) va (Z.lor perm PTE_U) m' fl'.
Proof.
  intros K F A Hva Hal Hrg Hp Hw Hwr Hroom. destruct (family_dirs fl s K F) as [HsdD HddD].
  assert (bad_va va = false) as Hb.
  { unfold bad_va, ctrue. rewrite Hal. change (negb (0 =? 0)) with false. cbn [orb]. apply Z.leb_gt. lia. }
  assert (addressed 0 c sd ce) as A0 by (by left).
  assert (d ∈ dirs_of (envs s)) as HdD by (destruct A as [(_ & _ & -> & _)|(_ & _ & -> & _)]; done).
  assert (Z.lor (Z.lor perm PTE_U) PTE_U = Z.lor perm PTE_U) as EU by (by rewrite <- Z.lor_assoc, Z.lor_diag).
  assert (writable (Z.lor perm PTE_U) = writable perm) as EW.
  { unfold writable. rewrite Z.lor_spec. change (Z.testbit PTE_U 1) with false. apply orb_false_r. }
  assert (lookup_src c va (Z.lor perm PTE_U) s = Ret (Some (w / 4096)) s) as El.
  { destruct (lookup_src_spec R fl efl s c ce sd va (Z.lor perm PTE_U)) as (o & E & Ho); try done; [apply F|apply F|lia|].
    rewrite E. destruct o as [p|].
    - destruct Ho as (w' & Hw' & -> & _). by assert (w' = w) as -> by congruence.
    - destruct (Ho w Hw) as [H1 H2]. rewrite EW in H1. rewrite (Hwr H1) in H2. done. }
  assert (mappable (dirs_of (envs s)) R fl (mem s) (w / 4096)) as Hmp.
  { apply (mapped_mappable _ R fl (mem s) sd (PDX va) (PTX va) w); [apply K|apply user_sites; (done || lia)|done..]. }
  assert (sys_page_map 0 va envid va (Z.lor perm PTE_U) s =
    (let* r := k_page_insert d (Some (w / 4096)) va (Z.lor perm PTE_U) in if r <? 0 then ret r else ret 0) s) as Em.
  { unfold sys_page_map. rewrite Hb, (addressed_with_env fl s 0 c sd ce _ _ K F A0).
    rewrite (addressed_with_env fl s envid j d je _ _ K F A). destruct (Z.eqb_spec va 0); [lia|].
    rewrite (bind_eq _ _ _ _ _ El), (bind_eq _ _ _ _ _ (addressed_dir s envid j d je F A)). by rewrite EU. }
  destruct (kinv_page_insert R fl efl s d (w / 4096) va (Z.lor perm PTE_U) K)
    as [(E & Hfl & Hf)|(m' & fl' & E & K' & I)]; [done|done|lia|by apply perm_user|done| |];
    rewrite (bind_eq _ _ _ _ _ E) in Em; unfold lib_page_map, checked; rewrite (bind_eq _ _ _ _ _ Em).
  - left. done.
  - right. exists m', fl'. split; [reflexivity|]. split; [exact K'|exact I].
Qed.

Lemma own_dir_eq s : family s → own_dir s = Ret sd s.
Proof.
  intros F. unfold own_dir, cur, bind, gets. rewrite (fa_cur _ F). cbn [deref ret].
  by apply (addressed_dir s 0 c sd ce F); left.
Qed.

Lemma uvpt_eq s va w : family s → pte_of (mem s) sd (PDX va) (PTX va) = Some w → uvpt va s = Ret w s.
Proof. intros F. by apply uvpt_own, own_dir_eq. Qed.

Lemma is_mapped_eq s va : family s → is_mapped va s = Ret (bool_decide (is_Some (pte_of (mem s) sd (PDX va) (PTX va)))) s.
Proof. intros F. by apply is_mapped_own, own_dir_eq. Qed.
End family.

(** ** How far the copy has come

    The pages below number [n] are dealt with; [m0] is the memory at the start. *)
Definition page_no (i j : Z) : Z := i * 1024 + j.

Record copied (D : list Z) (sd dd : Z) (m0 : memst) (n : Z) (m : memst) : Prop := MkCopied {
  cp_parent : ∀ i j, SPage sd i j ∈ sites D →
    pte_of m sd i j = if page_no i j <? n then parent_pte <$> pte_of m0 sd i j else pte_of m0 sd i j;
  cp_child : ∀ i j, SPage dd i j ∈ sites D →
    pte_of m dd i j = if page_no i j <? n then child_pte <$> pte_of m0 sd i j else None;
  cp_other : ∀ d i j, SPage d i j ∈ sites D → d ≠ sd → d ≠ dd → pte_of m d i j = pte_of m0 d i j;
  cp_data : ∀ d i j w k, SPage d i j ∈ sites D → pte_of m0 d i j = Some w → rd m (w / 4096) k = rd m0 (w / 4096) k
}.

Section copying.
Context (D : list Z) (R : Z → Z) (sd dd : Z) (m0 : memst) (fl0 : list Z).
Context (Inv0 : mm_inv D R fl0 m0) (HsD : sd ∈ D) (HdD : dd ∈ D) (Hne : sd ≠ dd).
Implicit Types (m : memst) (fl : list Z).

Lemma mapped_frame fl m d i j w : mm_inv D R fl m → SPage d i j ∈ sites D → pte_of m d i j = Some w →
  0 ≤ w / 4096 < 2 ^ 20 ∧ w / 4096 ∉ fl ∧ ¬ is_table D m (w / 4096).
Proof.
  intros Inv Hs Hw. assert (target m (SPage d i j) = Some (w / 4096)) as Ht by (by rewrite target_pte_of, Hw).
  pose proof (inv_target _ _ _ _ Inv _ _ Hs Ht). pose proof (inv_np _ _ _ _ Inv). split; [lia|].
  pose proof (refs_pos D m _ _ Hs Ht). pose proof (inv_R _ _ _ _ Inv (w / 4096)). split.
  - intros Hf. destruct (inv_free _ _ _ _ Inv _ Hf). lia.
  - intros (x & Hx & Hts & Hxt).
    pose proof (table_site_inj D R fl m Inv x (SPage d i j) _ Hx Hs Hts Hxt Ht) as ->. done.
Qed.

Lemma copied_start : (∀ i j, SPage dd i j ∈ sites D → pte_of m0 dd i j = None) → copied D sd dd m0 0 m0.
Proof.
  intros He. split; [..|done|done]; intros i j Hs; pose proof Hs as Hs'; apply elem_of_sites in Hs' as [_ [H1 H2]]; unfold page_no.
  - destruct (Z.ltb_spec (i * 1024 + j) 0); [lia|done].
  - destruct (Z.ltb_spec (i * 1024 + j) 0); [lia|auto].
Qed.

Lemma copied_sharing n m : copied D sd dd m0 n m → sharing D sd dd m0 m.
Proof.
  intros [Cp Cc Co _]. split.
  - intros d i j Hs Hd. rewrite !target_pte_of. destruct (decide (d = sd)) as [->|]; [|by rewrite Co].
    rewrite Cp by done. destruct (_ <? _); [|done]. destruct (pte_of m0 sd i j) as [w|] eqn:Hw; [|done]. cbn.
    destruct (mapped_frame _ _ _ _ _ _ Inv0 Hs Hw) as (Hr & _ & _). by rewrite parent_pte_frame.
  - intros i j p Hs. rewrite !target_pte_of, Cc by done. destruct (_ <? _); [|done].
    assert (SPage sd i j ∈ sites D) as Hs' by (apply elem_of_sites; by apply elem_of_sites in Hs as [_ ?]).
    destruct (pte_of m0 sd i j) as [w|] eqn:Hw; [|done]. cbn.
    destruct (mapped_frame _ _ _ _ _ _ Inv0 Hs' Hw) as (Hr & _ & _). by rewrite child_pte_frame.
Qed.

(** Mapping a page of the parent once more keeps to the pages it had. *)
Lemma insert_sharing m m' d va w perm : sharing D sd dd m0 m → d = sd ∨ d = dd → 0 ≤ perm < 4096 → 0 ≤ w / 4096 < 2 ^ 20 →
  SPage sd (PDX va) (PTX va) ∈ sites D → pte_of m sd (PDX va) (PTX va) = Some w →
  pte_upd D m m' d (PDX va) (PTX va) (Some (mk_pte (w / 4096) perm)) → sharing D sd dd m0 m'.
Proof.
  intros [Hs Hc] Hd Hp Hr Hin Hw Hu. split.
  - intros d' i j Hs' Hd'. rewrite <- Hs by done. rewrite !target_pte_of, Hu by done. case_decide as E; [|done].
    injection E as -> -> ->. destruct Hd as [->| ->]; [|done]. rewrite Hw. cbn. by rewrite mk_pte_frame.
  - intros i j p Hs'. rewrite target_pte_of, Hu by done. case_decide as E.
    + injection E as <- -> ->. cbn [fmap option_fmap option_map]. rewrite mk_pte_frame by done. intros [= <-]. rewrite <- Hs by done.
      by rewrite target_pte_of, Hw.
    + rewrite <- target_pte_of. by apply Hc.
Qed.

(** No count overflows when the counts are below half of the range at the start. *)
Lemma sharing_room fl m i j w pi :
  mm_inv D R fl m → sharing D sd dd m0 m → SPage sd i j ∈ sites D → pte_of m sd i j = Some w →
  (∀ i j w, SPage sd i j ∈ sites D → pte_of m0 sd i j = Some w → refs D m0 (w / 4096) + R (w / 4096) < 2 ^ 15) →
  pages m !! (w / 4096) = Some pi → pp_ref pi < 2 ^ 16 - 1.
Proof.
  intros Inv Sh Hs Hw Hb Hpi. destruct (mapped_frame _ _ _ _ _ _ Inv Hs Hw) as (_ & _ & Hn).
  assert (target m0 (SPage sd i j) = Some (w / 4096)) as Ht0.
  { rewrite <- (sh_same _ _ _ _ _ Sh) by done. by rewrite target_pte_of, Hw. }
  rewrite target_pte_of in Ht0. destruct (pte_of m0 sd i j) as [w0|] eqn:Hw0; [|done]. cbn in Ht0. injection Ht0 as E0.
  destruct (mapped_frame _ _ _ _ _ _ Inv0 Hs Hw0) as (_ & _ & Hn0). pose proof (Hb _ _ _ Hs Hw0) as Hlt. rewrite E0 in Hn0, Hlt.
  destruct (inv_ref _ _ _ _ Inv _ _ Hpi) as [-> _]. pose proof (inv_R _ _ _ _ Inv0 (w / 4096)).
  pose proof (sharing_refs D sd dd m0 m (w / 4096) (inv_dirs _ _ _ _ Inv0) HsD HdD Sh Hne Hn0 Hn). lia.
Qed.

Lemma page_no_eq i j i' j' : 0 ≤ j < 1024 → 0 ≤ j' < 1024 → page_no i j = page_no i' j' → i = i' ∧ j = j'.
Proof. unfold page_no. lia. Qed.

(** One page more. *)
Lemma copied_step n m m' w i0 j0 : copied D sd dd m0 n m → page_no i0 j0 = n → 0 ≤ j0 < 1024 → pte_of m0 sd i0 j0 = Some w →
  (∀ d i j, SPage d i j ∈ sites D → pte_of m' d i j =
     if decide ((d, i, j) = (sd, i0, j0)) then Some (parent_pte w)
     else if decide ((d, i, j) = (dd, i0, j0)) then Some (child_pte w) else pte_of m d i j) →
  (∀ d i j w k, SPage d i j ∈ sites D → pte_of m0 d i j = Some w → rd m' (w / 4096) k = rd m (w / 4096) k) →
  copied D sd dd m0 (n + 1) m'.
Proof.
  intros [Cp Cc Co Cd] Hn Hj Hw Hu Hd.
  assert (∀ d i j, SPage d i j ∈ sites D → (i, j) ≠ (i0, j0) → (page_no i j <? n + 1) = (page_no i j <? n)) as Hlt.
  { intros d i j Hs Hij. apply elem_of_sites in Hs as [_ [H1 H2]].
    destruct (Z.ltb_spec (page_no i j) (n + 1)), (Z.ltb_spec (page_no i j) n); try done; try lia.
    destruct Hij. assert (page_no i j = page_no i0 j0) as E by lia. by destruct (page_no_eq _ _ _ _ H2 Hj E) as [-> ->]. }
  split.
  - intros i j Hs. rewrite Hu by done. case_decide as E.
    + injection E as -> ->. rewrite Hn, Hw. by destruct (Z.ltb_spec n (n + 1)); [|lia].
    + rewrite decide_False by congruence. rewrite (Hlt sd) by (done || congruence). by apply Cp.
  - intros i j Hs. rewrite Hu by done. rewrite decide_False by congruence. case_decide as E.
    + injection E as -> ->. rewrite Hn, Hw. by destruct (Z.ltb_spec n (n + 1)); [|lia].
    + rewrite (Hlt dd) by (done || congruence). by apply Cc.
  - intros d i j Hs H1 H2. rewrite Hu by done. rewrite !decide_False by congruence. by apply Co.
  - intros d i j w' k Hs Hw'. by rewrite (Hd d i j), (Cd d i j).
Qed.

(** A page number that is not mapped is skipped. *)
Lemma copied_skip n m i0 j0 : copied D sd dd m0 n m → page_no i0 j0 = n → 0 ≤ j0 < 1024 → pte_of m0 sd i0 j0 = None →
  copied D sd dd m0 (n + 1) m.
Proof.
  intros [Cp Cc Co Cd] Hn Hj Hw. split; [..|done|done]; intros i j Hs; rewrite ?Cp, ?Cc by done;
    apply elem_of_sites in Hs as [_ [H1 H2]];
    destruct (Z.ltb_spec (page_no i j) n), (Z.ltb_spec (page_no i j) (n + 1)); try done; try lia;
    assert (page_no i j = page_no i0 j0) as E by lia; destruct (page_no_eq _ _ _ _ H2 Hj E) as [-> ->]; by rewrite Hw.
Qed.

(** The contents of mapped pages do not change. *)
Lemma insert_data fl m d p va perm m' fl' : mm_inv D R fl m → sharing D sd dd m0 m → inserted D R fl m d p va perm m' fl' →
  (∀ i j, SPage dd i j ∈ sites D → pte_of m0 dd i j = None) →
  ∀ d' i j w k, SPage d' i j ∈ sites D → pte_of m0 d' i j = Some w → rd m' (w / 4096) k = rd m (w / 4096) k.
Proof.
  intros Inv Sh I He d' i j w k Hs Hw. destruct (decide (d' = dd)) as [->|Hd]; [by rewrite He in Hw|].
  assert (target m (SPage d' i j) = Some (w / 4096)) as Ht by (by rewrite (sh_same _ _ _ _ _ Sh), target_pte_of, Hw).
  rewrite target_pte_of in Ht. destruct (pte_of m d' i j) as [w'|] eqn:Hw'; [|done]. cbn in Ht. injection Ht as <-.
  destruct (mapped_frame _ _ _ _ _ _ Inv Hs Hw') as (_ & H1 & H2). by apply (ins_data _ _ _ _ _ _ _ _ _ _ I).
Qed.
End copying.
