(* ===== verification/ForkFinish.v ===== *)
(** * The end of [fork]

    What [fork] does for the child once its pages are shared: the areas of the address
    space, a page for the exception stack, the handler of page faults, the name, and at
    last the status. *)

From stdpp Require Import base gmap list strings.
From Stdlib Require Import ZArith Lia.
From S2P Require Import Prelude Mmu Pmap PmapInv PmapOps MemInit Env Sched EnvFree EnvInv.
From S2P Require Import PmapProps EnvAlloc Syscall SyscallInv SyscallProps Fork ForkInv.

Set Default Proof Using "Type".

(** ** Code that only reads memory

    The processor may cache translations, and the address of a fault is noted. *)
Definition mem_read (m m' : memst) : Prop := ∃ x y, m' = set_tlb x (set_user_mem_check_addr y m).
Definition only_reads (s s' : kstate) : Prop := ∃ m', mem_read (mem s) m' ∧ s' = set_mem m' s.

#[export] Instance mem_read_preorder : PreOrder mem_read.
Proof.
  split.
  - intros m. exists (tlb m), (user_mem_check_addr m). by destruct m.
  - intros m1 m2 m3 (x & y & ->) (x' & y' & ->). by exists x', y'.
Qed.
#[export] Instance only_reads_preorder : PreOrder only_reads.
Proof.
  split.
  - intros s. exists (mem s). split; [reflexivity|by destruct s].
  - intros s1 s2 s3 (m & H & ->) (m' & H' & ->). exists m'. split; [by transitivity m|done].
Qed.

(** When [m] returns, the states before and after are in relation. *)
Definition leads {S A} (r : S → S → Prop) (m : M S A) : Prop := ∀ s a s', m s = Ret a s' → r s s'.

Section leads.
Context {S : Type} (r : S → S → Prop) `{!PreOrder r}.

Lemma leads_ret {A} (a : A) : leads r (ret a).
Proof using PreOrder0. by intros s b s' [= _ <-]. Qed.

Lemma leads_bind {A B} (m : M S A) (f : A → M S B) : leads r m → (∀ a, leads r (f a)) → leads r (bind m f).
Proof using PreOrder0. intros Hm Hf s b s' H. apply bind_ret_inv in H as (a & s1 & E & E'). transitivity s1; [by eapply Hm|by eapply Hf]. Qed.

Lemma leads_gets {A} (g : S → A) : leads r (gets g).
Proof using PreOrder0. by intros s b s' [= _ <-]. Qed.

Lemma leads_loop {A B} fuel (f : A → M S (A + B)) : (∀ a, leads r (f a)) → ∀ a, leads r (loop fuel f a).
Proof using PreOrder0.
  intros Hf. induction fuel as [p IH|p IH|]; intros a; cbn [loop]; [| |done].
  - apply leads_bind; [done|]. intros [a'|b]; [|apply leads_ret]. apply leads_bind; [done|]. intros [a''|b]; [done|apply leads_ret].
  - apply leads_bind; [done|]. intros [a'|b]; [done|apply leads_ret].
Qed.
End leads.

Lemma leads_on_mem {A} (m : M memst A) : leads mem_read m → leads only_reads (on_mem m).
Proof. intros H s a s' E. unfold on_mem, zoom in E. destruct (m (mem s)) as [b m'| | |] eqn:Em; try done. injection E as <- <-. exists m'. split; [by eapply H|done]. Qed.

Lemma va_load8_reads va : leads mem_read (va_load8 va).
Proof.
  unfold va_load8. apply leads_bind; [apply _| |intros e; apply leads_bind; [apply _|apply leads_gets; apply _|intros w; apply leads_ret; apply _]].
  unfold mmu_entry. apply leads_bind; [apply _|apply leads_gets; apply _|]. intros t. destruct (t !! _); [apply leads_ret; apply _|].
  apply leads_bind; [apply _|apply leads_gets; apply _|]. intros d. apply leads_bind; [apply _|apply leads_gets; apply _|]. intros pde.
  destruct (negb _); [done|]. apply leads_bind; [apply _|apply leads_gets; apply _|]. intros e. destruct (negb _); [done|].
  intros m a m' [= _ <-]. exists (<[PGNUM va := e]> (tlb m)), (user_mem_check_addr m). by destruct m.
Qed.

Lemma user_strlen_reads s : leads only_reads (user_strlen s).
Proof.
  unfold user_strlen. apply leads_bind; [apply _| |intros [k|k]; [done|apply leads_ret; apply _]].
  apply leads_loop; [apply _|]. intros k. apply leads_bind; [apply _|apply leads_on_mem, va_load8_reads|]. intros ch. apply leads_ret; apply _.
Qed.

Lemma user_bytes_reads n : ∀ s, leads only_reads (user_bytes n s).
Proof.
  induction n as [|n IH]; intros s; cbn [user_bytes]; [apply leads_ret; apply _|].
  apply leads_bind; [apply _|apply leads_on_mem, va_load8_reads|]. intros b. apply leads_bind; [apply _|done|]. intros l. apply leads_ret; apply _.
Qed.

Lemma user_strcpy_reads s cap : leads only_reads (user_strcpy s cap).
Proof.
  unfold user_strcpy. apply leads_bind; [apply _|apply user_strlen_reads|]. intros n. destruct (cap <=? n); [done|apply user_bytes_reads].
Qed.

Lemma walk_false_same d va : leads eq (pgdir_walk d va false).
Proof.
  unfold pgdir_walk. apply leads_bind; [apply _|apply leads_gets; apply _|]. intros pde. destruct (negb _); [apply leads_ret; apply _|].
  apply leads_bind; [apply _| |intros pt; apply leads_ret; apply _]. unfold KADDR. apply leads_bind; [apply _|apply leads_gets; apply _|]. intros k.
  destruct (_ <=? _); [done|apply leads_ret; apply _].
Qed.

Lemma user_mem_check_reads d va len perm : leads mem_read (user_mem_check d va len perm).
Proof.
  unfold user_mem_check. apply leads_bind; [apply _| |].
  - assert (∀ fuel start end_ perm, leads eq (user_mem_check_loop fuel d start end_ perm)) as H.
    { induction fuel as [|fuel IH]; intros start end_ perm'; cbn [user_mem_check_loop]; (destruct (_ <=? _); [apply leads_ret; apply _|]); [done|].
      apply leads_bind; [apply _|apply walk_false_same|]. intros [p|]; [|apply leads_ret; apply _]. apply leads_bind; [apply _|apply leads_gets; apply _|]. intros e.
      destruct (negb _); [apply leads_ret; apply _|]. destruct (negb _); [apply leads_ret; apply _|]. destruct (_ <=? _); [apply leads_ret; apply _|]. apply IH. }
    intros m a m' E. by rewrite (H _ _ _ _ m a m' E).
  - intros [bad|]; [|apply leads_ret; apply _]. intros m a m' [= _ <-]. exists (tlb m), (if bad =? ROUNDDOWN va PGSIZE then va else bad). by destruct m.
Qed.

(** ** Code that does not come back *)
Definition no_return {S A} (m : M S A) : Prop := leads (λ _ _, False) m.

Lemma no_return_bind {S A B} (m : M S A) (f : A → M S B) : (∀ a, no_return (f a)) → no_return (bind m f).
Proof. intros Hf s b s' H. apply bind_ret_inv in H as (a & s1 & _ & E). by eapply Hf. Qed.

Lemma env_run_no_return e : no_return (env_run e).
Proof. unfold env_run, env_pop_tf. repeat (apply no_return_bind; intros ?). done. Qed.

Lemma sched_yield_no_return : no_return sched_yield.
Proof.
  assert (no_return sched_halt) as Hh.
  { unfold sched_halt. apply no_return_bind. intros es. destruct (negb _); [done|]. repeat (apply no_return_bind; intros ?). done. }
  unfold sched_yield. do 3 (apply no_return_bind; intros ?). destruct (sched_search _ _ _ _); [apply env_run_no_return|].
  apply no_return_bind. intros b. destruct a as [i|]; [destruct b; [apply env_run_no_return|done]|done].
Qed.

(** The check of a pointer of the caller comes back only when the caller may use it. *)
Lemma user_mem_assert_reads s c va len perm r s' : curenv s = Some c → user_mem_assert c va len perm s = Ret r s' → only_reads s s'.
Proof.
  intros Hc E. unfold user_mem_assert in E. apply bind_ret_inv in E as (en & s1 & E1 & E).
  assert (s1 = s) as -> by (unfold env_at in E1; destruct (envs s !! c); [by injection E1|done]).
  apply bind_ret_inv in E as (d & s2 & E2 & E). assert (s2 = s) as -> by (destruct (env_pgdir en); [by injection E2|done]).
  apply bind_ret_inv in E as (x & s3 & E3 & E). pose proof (leads_on_mem _ (user_mem_check_reads d va len _) _ _ _ E3) as Hr.
  destruct (x <? 0); [|injection E as _ <-; exact Hr]. exfalso. assert (curenv s3 = Some c) as Hc3 by (destruct Hr as (m & _ & ->); done).
  unfold env_destroy in E. rewrite (bind_eq (gets curenv) _ _ _ _ eq_refl), Hc3 in E. apply bind_ret_inv in E as (en' & s4 & _ & E).
  rewrite (bool_decide_eq_true_2 (Some c = Some c)) in E by done. cbn [negb] in E. rewrite andb_false_r in E.
  apply bind_ret_inv in E as ([] & s5 & _ & E). apply bind_ret_inv in E as ([] & s6 & _ & E). by eapply sched_yield_no_return.
Qed.

(** ** The steps *)

(** [n] entries of one array of areas put into another, from [lo] on. *)
Fixpoint areas (n : nat) (lo : Z) (src dst : gmap Z vm_area_struct) : gmap Z vm_area_struct :=
  match n with
  | O => dst
  | S n' => areas n' (lo + 1) src (match src !! lo with Some v => <[lo := v]> dst | None => dst end)
  end.

Lemma areas_lookup n : ∀ lo src dst k v, lo ≤ k < lo + Z.of_nat n → src !! k = Some v → areas n lo src dst !! k = Some v.
Proof.
  assert (∀ n lo src dst k, k < lo → areas n lo src dst !! k = dst !! k) as Hlow.
  { induction n0 as [|n0 IH]; intros lo src dst k Hk; cbn [areas]; [done|]. rewrite IH by lia. destruct (src !! lo); [|done]. by rewrite lookup_insert_ne by lia. }
  induction n as [|n IH]; intros lo src dst k v Hk Hv; cbn [areas]; [lia|]. destruct (decide (k = lo)) as [->|]; [|apply IH; [lia|done]].
  rewrite Hlow, Hv by lia. apply lookup_insert_eq.
Qed.

Lemma copy_areas_eq c i ce n : ∀ lo e s, c ≠ i → envs s !! c = Some ce → envs s !! i = Some e →
  for_up n lo (λ k, let* se := env_at c in
     upd_env i (λ e, set_vma (vma_valid e) (match vma se !! k with Some v => <[k := v]> (vma e) | None => vma e end) e)) s =
  Ret tt (set_envs (<[i := set_vma (vma_valid e) (areas n lo (vma ce) (vma e)) e]> (envs s)) s).
Proof.
  induction n as [|n IH]; intros lo e s Hne Hc Hi; cbn [for_up areas].
  - unfold ret. f_equal. rewrite insert_id by (by destruct e). by destruct s.
  - assert (env_at c s = Ret ce s) as E by (unfold env_at; by rewrite Hc). unfold bind at 1. rewrite (bind_eq _ _ _ _ _ E).
    rewrite (upd_env_eq i _ s e Hi). rewrite (IH (lo + 1) (set_vma (vma_valid e) (match vma ce !! lo with Some v => <[lo := v]> (vma e) | None => vma e end) e)); [|done|by cbn; rewrite lookup_insert_ne|by cbn; rewrite lookup_insert_eq].
    cbn. by rewrite insert_insert_eq.
Qed.

(** Calls that change nothing but memory. *)
Definition mem_only (s s' : kstate) : Prop := ∃ m', s' = set_mem m' s.
#[export] Instance mem_only_preorder : PreOrder mem_only.
Proof.
  split.
  - intros s. exists (mem s). by destruct s.
  - intros s1 s2 s3 (m & ->) (m' & ->). by exists m'.
Qed.

Lemma on_mem_mem_only {A} (m : M memst A) : leads mem_only (on_mem m).
Proof. intros s a s' E. unfold on_mem, zoom in E. destruct (m (mem s)) as [b m'| | |]; try done. injection E as _ <-. by exists m'. Qed.

Lemma deref_mem_only {A} (o : option A) : leads mem_only (deref o : M kstate A).
Proof. destruct o; [apply leads_ret; apply _|done]. Qed.

Lemma env_at_mem_only i : leads mem_only (env_at i).
Proof. intros s. exact (deref_mem_only (envs s !! i) s). Qed.

Lemma sys_page_alloc_mem_only envid va perm : leads mem_only (sys_page_alloc envid va perm).
Proof.
  unfold sys_page_alloc, with_env. apply leads_bind; [apply _| |].
  - unfold envid2env. apply leads_bind; [apply _|apply leads_gets; apply _|]. intros cu. destruct (envid =? 0); [apply leads_ret; apply _|].
    apply leads_bind; [apply _|apply env_at_mem_only|]. intros e. destruct (_ || _); [apply leads_ret; apply _|]. destruct (_ && _); [|apply leads_ret; apply _].
    apply leads_bind; [apply _|apply deref_mem_only|]. intros c. apply leads_bind; [apply _|apply env_at_mem_only|]. intros ce. destruct (_ =? _); apply leads_ret; apply _.
  - intros [x|o]; [apply leads_ret; apply _|]. apply leads_bind; [apply _|apply deref_mem_only|]. intros i. destruct (bad_va va); [apply leads_ret; apply _|].
    apply leads_bind; [apply _|apply on_mem_mem_only|]. intros [p|]; [|apply leads_ret; apply _].
    apply leads_bind; [apply _| |]; [apply leads_bind; [apply _|apply env_at_mem_only|intros e; apply deref_mem_only]|]. intros d.
    apply leads_bind; [apply _|apply leads_bind; [apply _|apply leads_gets; apply _|intros cd; apply on_mem_mem_only]|]. intros r.
    destruct (r <? 0); [|apply leads_ret; apply _]. apply leads_bind; [apply _|apply on_mem_mem_only|intros _; apply leads_ret; apply _].
Qed.

Lemma mem_read_kinv R fl efl s m : kinv R fl efl s → mem_read (mem s) m → kinv R fl efl (set_mem m s).
Proof. intros K (x & y & ->). apply (kinv_mem R fl efl s _ fl K); try done. apply (mm_inv_rd _ R fl (mem s)); [apply K|done..]. Qed.

Section finish.
Context (R : Z → Z) (efl : list Z) (c i id sd dd : Z) (ce : Env).
Implicit Types (s : kstate) (fl : list Z) (e : Env).

Lemma family_child s e e' : family c i id sd dd ce e s → c ≠ i → env_status e' ≠ ENV_FREE → env_id e' = env_id e →
  env_parent_id e' = env_parent_id e → env_pgdir e' = env_pgdir e →
  family c i id sd dd ce e' (set_envs (<[i := e']> (envs s)) s).
Proof.
  intros [F1 F2 F3 F4 F5 F6 F7 F8 F9 F10 F11] Hne Hst Hid Hp Hd. split; try done; cbn; [by rewrite lookup_insert_ne|by rewrite lookup_insert_eq|congruence..].
Qed.

Lemma with_child fl s e err k : kinv R fl efl s → family c i id sd dd ce e s → with_env id true err k s = k i s.
Proof. intros K F. apply (addressed_with_env R efl c i id sd dd ce e fl s id i dd e err k K F). by right. Qed.

Lemma with_self fl s e err k : kinv R fl efl s → family c i id sd dd ce e s → with_env 0 true err k s = k c s.
Proof. intros K F. apply (addressed_with_env R efl c i id sd dd ce e fl s 0 c sd ce err k K F). by left. Qed.

Lemma sys_copy_vma_eq fl s e : kinv R fl efl s → family c i id sd dd ce e s → c ≠ i →
  sys_copy_vma 0 id s = Ret 0 (set_envs (<[i := set_vma (vma_valid ce) (areas (Z.to_nat (vma_valid ce)) 0 (vma ce) (vma e)) e]> (envs s)) s).
Proof.
  intros K F Hne. unfold sys_copy_vma. rewrite (with_self fl s e) by done. rewrite (with_child fl s e) by done.
  assert (env_at c s = Ret ce s) as E by (unfold env_at; by rewrite (fa_ce _ _ _ _ _ _ _ _ F)). rewrite (bind_eq _ _ _ _ _ E).
  rewrite (bind_eq _ _ _ _ _ (copy_areas_eq c i ce _ 0 e s Hne (fa_ce _ _ _ _ _ _ _ _ F) (fa_e _ _ _ _ _ _ _ _ F))).
  set (e1 := set_vma (vma_valid e) _ e). set (s1 := set_envs _ s).
  assert (env_at c s1 = Ret ce s1) as E1 by (unfold env_at, s1; cbn; rewrite lookup_insert_ne by done; by rewrite (fa_ce _ _ _ _ _ _ _ _ F)).
  rewrite (bind_eq _ _ _ _ _ E1). assert (envs s1 !! i = Some e1) as Hi by (apply lookup_insert_eq).
  rewrite (bind_eq _ _ _ _ _ (upd_env_eq i _ s1 e1 Hi)). unfold ret. f_equal. unfold s1. cbn. by rewrite insert_insert_eq.
Qed.

(** The name of the child is a string that the parent may read. *)
Lemma sys_env_name_ret fl s e name r s' : kinv R fl efl s → family c i id sd dd ce e s → sys_env_name id name s = Ret r s' →
  r = 0 ∧ ∃ str m, mem_read (mem s) m ∧ s' = set_envs (<[i := set_names (currentpath e) str e]> (envs s)) (set_mem m s).
Proof.
  intros K F E. unfold sys_env_name in E. rewrite (with_child fl s e) in E by done. pose proof (fa_cur _ _ _ _ _ _ _ _ F) as Hc.
  assert (cur s = Ret c s) as Ec by (unfold cur, bind, gets; by rewrite Hc). rewrite (bind_eq _ _ _ _ _ Ec) in E.
  apply bind_ret_inv in E as (n & s1 & E1 & E). apply user_strlen_reads in E1.
  apply bind_ret_inv in E as ([] & s2 & E2 & E). apply user_mem_assert_reads in E2; [|destruct E1 as (m & _ & ->); done].
  apply bind_ret_inv in E as (str & s3 & E3 & E). apply user_strcpy_reads in E3.
  assert (only_reads s s3) as (m & Hm & ->) by (transitivity s1; [done|]; by transitivity s2).
  rewrite (bind_eq _ _ _ _ _ (upd_env_eq i _ (set_mem m s) e (fa_e _ _ _ _ _ _ _ _ F))) in E. injection E as <- <-. split; [done|]. by exists str, m.
Qed.

(** The child as [fork] leaves it: like [e], with the areas of the parent. *)
Record child_ready e (upcall : Z) (str : list Z) (e' : Env) : Prop := {
  cr_status : env_status e' = ENV_RUNNABLE;
  cr_same : env_id e' = env_id e ∧ env_parent_id e' = env_parent_id e ∧ env_pgdir e' = env_pgdir e ∧ env_tf e' = env_tf e ∧ currentpath e' = currentpath e;
  cr_upcall : env_pgfault_upcall e' = upcall;
  cr_name : binaryname e' = str;
  cr_areas : vma_valid e' = vma_valid ce ∧ ∀ k v, 0 ≤ k < vma_valid ce → vma ce !! k = Some v → vma e' !! k = Some v
}.

(** The page of the exception stack. *)
Definition xstack : Z := UXSTACKTOP - PGSIZE.

(** From [s], where the pages are shared, to [s'], where [fork] returns. *)
Record finished s fl e (upcall : Z) s' : Prop := {
  fi_env : ∃ e' str, envs s' = <[i := e']> (envs s) ∧ child_ready e upcall str e';
  fi_cur : curenv s' = Some c;
  fi_stack : ∃ q, head fl = Some q ∧ pte_upd (dirs_of (envs s)) (mem s) (mem s') dd (PDX xstack) (PTX xstack) (Some (mk_pte q (Z.lor PTE_W PTE_U))) ∧ ∀ k, rd (mem s') q k = 0;
  fi_data : data_same (dirs_of (envs s)) fl (mem s) (mem s')
}.

(** The page for the exception stack. *)
Lemma alloc_stack fl s e : kinv R fl efl s → family c i id sd dd ce e s →
  (must "fork" (lib_page_alloc id (UXSTACKTOP - PGSIZE) PTE_W) s = Panic "fork" ∧ (length fl ≤ 1)%nat) ∨
  ∃ m fl' q, must "fork" (lib_page_alloc id (UXSTACKTOP - PGSIZE) PTE_W) s = Ret tt (set_mem m s) ∧ kinv R fl' efl (set_mem m s) ∧ head fl = Some q ∧
    pte_upd (dirs_of (envs s)) (mem s) m dd (PDX xstack) (PTX xstack) (Some (mk_pte q (Z.lor PTE_W PTE_U))) ∧ (∀ k, rd m q k = 0) ∧
    data_same (dirs_of (envs s)) fl (mem s) m.
Proof.
  intros K F. destruct (sys_page_alloc_correct R fl efl s id xstack (Z.lor PTE_W PTE_U)) as (r & s' & fl' & E & K' & H); [done|by eapply family_caller|by split|by split|].
  unfold must, lib_page_alloc, checked. unfold bind. fold xstack. rewrite E.
  assert (∀ j, names s id true j → j = i) as Hi.
  { intros j Hj. pose proof (fa_pos _ _ _ _ _ _ _ _ F). rewrite (names_slot R fl efl s id true j K Hj) by lia.
    destruct (ki_env _ _ _ _ K i e (fa_e _ _ _ _ _ _ _ _ F)) as [_ _ _ Hx]. destruct (Hx (fa_est _ _ _ _ _ _ _ _ F)) as [_ <-]. by rewrite (fa_id _ _ _ _ _ _ _ _ F). }
  destruct H as [(_ & _ & Hn)|[(_ & _ & [H|H])|[(-> & _ & Hl & _)|(-> & P)]]].
  - exfalso. apply (Hn i). right. split; [pose proof (fa_pos _ _ _ _ _ _ _ _ F); lia|]. exists e. split; [apply F|]. split; [apply F|]. split; [apply F|].
    intros _. right. exists c, ce. split; [apply F|]. split; [apply F|apply F].
  - exfalso. by vm_compute in H.
  - exfalso. by vm_compute in H.
  - left. split; [done|exact Hl].
  - right. destruct (sys_page_alloc_mem_only _ _ _ _ _ _ E) as [m ->]. exists m, fl'. destruct (pal_map _ _ _ _ _ _ P) as (j & je & d & q & Hj & Hje & Hd & Hq & Hu & Hz).
    rewrite (Hi j Hj) in Hje. rewrite (fa_e _ _ _ _ _ _ _ _ F) in Hje. injection Hje as <-. rewrite (fa_dd _ _ _ _ _ _ _ _ F) in Hd. injection Hd as <-.
    exists q. split; [done|]. split; [exact K'|]. split; [done|]. split; [exact Hu|]. split; [exact Hz|]. exact (pal_data _ _ _ _ _ _ P).
Qed.

(** The rest, after the page was given. *)
Lemma finish_child fl s e upcall name : kinv R fl efl s → family c i id sd dd ce e s → c ≠ i → upcall ≠ 0 →
  let k := do* must "fork" (checked (sys_env_set_pgfault_upcall id upcall)) in
           do* must "fork" (sys_env_name id name) in
           do* must "fork" (checked (sys_env_set_status id 2)) in ret id in
  (∃ s1, (∀ r x, sys_env_name id name s1 ≠ Ret r x) ∧ curenv s1 = Some c ∧ mem s1 = mem s ∧ ∀ r x, k s ≠ Ret r x) ∨
  ∃ str m, mem_read (mem s) m ∧
    k s = Ret id (set_envs (<[i := set_env_status ENV_RUNNABLE (set_names (currentpath e) str (set_pgfault_upcall upcall e))]> (envs s)) (set_mem m s)).
Proof.
  intros K F Hne Hup k. set (e1 := set_pgfault_upcall upcall e). set (s1 := set_envs (<[i := e1]> (envs s)) s).
  assert (kinv R fl efl s1) as K1 by (apply (kinv_env R fl efl s i e e1 K); [apply F|done..]).
  assert (family c i id sd dd ce e1 s1) as F1 by (apply (family_child s e); try done; apply F).
  assert (must "fork" (checked (sys_env_set_pgfault_upcall id upcall)) s = Ret tt s1) as E1.
  { unfold must, checked, sys_env_set_pgfault_upcall. unfold bind at 1 2. rewrite (with_child fl s e) by done.
    destruct (Z.eqb_spec upcall 0); [done|]. by rewrite (bind_eq _ _ _ _ _ (upd_env_eq i _ s e (fa_e _ _ _ _ _ _ _ _ F))). }
  unfold k. rewrite (bind_eq _ _ _ _ _ E1). destruct (sys_env_name id name s1) as [r s2| | |] eqn:E2.
  - right. destruct (sys_env_name_ret fl s1 e1 name r s2 K1 F1 E2) as (-> & str & m & Hm & ->). exists str, m. split; [exact Hm|].
    set (e2 := set_names _ str e1). set (s2 := set_envs (<[i := e2]> (envs s1)) (set_mem m s1)) in *.
    assert (must "fork" (sys_env_name id name) s1 = Ret tt s2) as E3 by (unfold must; by rewrite (bind_eq _ _ _ _ _ E2)). rewrite (bind_eq _ _ _ _ _ E3).
    assert (kinv R fl efl (set_mem m s1)) as Km by (by apply mem_read_kinv).
    assert (kinv R fl efl s2) as K2 by (apply (kinv_env R fl efl (set_mem m s1) i e1 e2 Km); [apply F1|done..]).
    assert (family c i id sd dd ce e2 s2) as F2 by (apply (family_child (set_mem m s1) e1); try done; [by apply family_mem|apply F1]).
    assert (must "fork" (checked (sys_env_set_status id 2)) s2 = Ret tt (set_envs (<[i := set_env_status ENV_RUNNABLE e2]> (envs s2)) s2)) as E4.
    { unfold must, checked, sys_env_set_status. cbn [status_arg]. change (status_arg 2) with (Some ENV_RUNNABLE). cbv iota. unfold bind at 1 2. rewrite (with_child fl s2 e2) by done.
      by rewrite (bind_eq _ _ _ _ _ (upd_env_eq i _ s2 e2 (fa_e _ _ _ _ _ _ _ _ F2))). }
    rewrite (bind_eq _ _ _ _ _ E4). unfold ret. f_equal. unfold s2, s1. cbn. by rewrite !insert_insert_eq.
  - left. exists s1. split; [by rewrite E2|]. split; [apply F1|]. split; [done|]. unfold must, bind. by rewrite E2.
  - left. exists s1. split; [by rewrite E2|]. split; [apply F1|]. split; [done|]. unfold must, bind. by rewrite E2.
  - left. exists s1. split; [by rewrite E2|]. split; [apply F1|]. split; [done|]. unfold must, bind. by rewrite E2.
Qed.

Lemma fork_finish_ok fl s e upcall name : kinv R fl efl s → family c i id sd dd ce e s → c ≠ i → upcall ≠ 0 →
  (fork_finish upcall name id s = Panic "fork" ∧ (length fl ≤ 1)%nat) ∨
  (∃ s1, (∀ r x, sys_env_name id name s1 ≠ Ret r x) ∧ curenv s1 = Some c ∧ ∀ r x, fork_finish upcall name id s ≠ Ret r x) ∨
  ∃ s' fl', fork_finish upcall name id s = Ret id s' ∧ kinv R fl' efl s' ∧ finished s fl e upcall s'.
Proof.
  intros K F Hne Hup. set (e1 := set_vma (vma_valid ce) (areas (Z.to_nat (vma_valid ce)) 0 (vma ce) (vma e)) e). set (s1 := set_envs (<[i := e1]> (envs s)) s).
  assert (kinv R fl efl s1) as K1 by (apply (kinv_env R fl efl s i e e1 K); [apply F|done..]).
  assert (family c i id sd dd ce e1 s1) as F1 by (apply (family_child s e); try done; apply F).
  assert (must "fork" (sys_copy_vma 0 id) s = Ret tt s1) as E1 by (unfold must; by rewrite (bind_eq _ _ _ _ _ (sys_copy_vma_eq fl s e K F Hne))).
  assert (dirs_of (envs s1) = dirs_of (envs s)) as HD by (by apply (dirs_of_same (envs s) i e e1); [apply F|]).
  unfold fork_finish. rewrite (bind_eq _ _ _ _ _ E1).
  destruct (alloc_stack fl s1 e1 K1 F1) as [[E2 Hl]|(m & fl' & q & E2 & K2 & Hq & Hu & Hz & Hd)]; [left; split; [by unfold bind; rewrite E2|done]|right].
  rewrite (bind_eq _ _ _ _ _ E2). destruct (finish_child fl' (set_mem m s1) e1 upcall name K2 (family_mem _ _ _ _ _ _ _ _ _ F1) Hne Hup) as [(s3 & H1 & H2 & _ & H3)|(str & m' & Hm & E3)].
  - left. by exists s3.
  - right. set (e3 := set_env_status _ _) in E3. assert (kinv R fl' efl (set_mem m' (set_mem m s1))) as K3 by (by apply mem_read_kinv).
    eexists _, fl'. split; [exact E3|]. split; [apply (kinv_env R fl' efl (set_mem m' (set_mem m s1)) i e1 e3 K3); [apply F1|done..|]; cbn; split; [done|by intros ?%(fa_est _ _ _ _ _ _ _ _ F1)]|].
    destruct Hm as (x & y & ->). rewrite HD in *. split.
    + exists e3, str. cbn. rewrite insert_insert_eq. split; [done|]. split; [done|by split_and!|done|done|]. split; [done|].
      intros k v Hk Hv. apply areas_lookup; [|done]. lia.
    + exact (fa_cur _ _ _ _ _ _ _ _ F).
    + exists q. split; [done|]. split; [exact Hu|exact Hz].
    + exact Hd.
Qed.
End finish.

(** ** No child

    [fork] does not look at a failure of [sys_exofork]: it goes on with the error as the
    identifier of the child, which no environment has. *)
Section no_child.
Context (R : Z → Z) (fl efl : list Z) (s : kstate) (c sd r : Z) (ce : Env).
Context (K : kinv R fl efl s) (Hc : curenv s = Some c) (Hce : envs s !! c = Some ce) (Hst : env_status ce ≠ ENV_FREE).
Context (Hsd : env_pgdir ce = Some sd) (Hr : r < 0).

Lemma with_nobody err k : with_env r true err k s = Ret (default (- E_BAD_ENV) err) s.
Proof using K Hc Hce Hst Hr.
  destruct (with_env_spec R fl efl s r true K) as [(i & Hi & _)|[_ H]]; [by exists c, ce| |apply H].
  exfalso. destruct Hi as [[? _]|(_ & e & He & _ & Hid & _)]; [lia|]. destruct (eo_id_range _ _ _ (ki_env _ _ _ _ K i e He)). lia.
Qed.

Lemma with_caller err k : with_env 0 true err k s = k c s.
Proof using K Hc Hce Hst.
  destruct (with_env_spec R fl efl s 0 true K) as [(i & Hi & H)|[Hn _]]; [by exists c, ce| |].
  - rewrite H. destruct Hi as [[_ Hi]|[? _]]; [congruence|done].
  - exfalso. apply (Hn c). by left.
Qed.

Lemma duppage_nobody n w : 0 ≤ n < USTACKTOP / PGSIZE → pte_of (mem s) sd (PDX (n * 4096)) (PTX (n * 4096)) = Some w →
  duppage r n s = Panic "sys_page_map".
Proof using K Hc Hce Hst Hsd Hr.
  intros Hn Hw. change (USTACKTOP / PGSIZE) with 977918 in Hn. assert (own_dir s = Ret sd s) as Eo.
  { unfold own_dir, cur, bind, gets. rewrite Hc. cbn. unfold pgdir_of, bind, env_at. rewrite Hce. cbn. by rewrite Hsd. }
  unfold duppage. rewrite Z.shiftl_mul_pow2 by lia. change (2 ^ 12) with 4096. rewrite u32_small by (unfold is_u32; lia). cbv zeta.
  rewrite (bind_eq _ _ _ _ _ (uvpt_own s sd _ w Eo Hw)).
  assert (bad_va (n * 4096) = false) as Hb.
  { unfold bad_va, ctrue, PGSIZE. rewrite Z.mod_mul by lia. cbn [negb Z.eqb orb]. apply Z.leb_gt. change UTOP with 4005560320. lia. }
  assert (∀ perm, must "sys_page_map" (lib_page_map 0 (n * 4096) r (n * 4096) perm) s = Panic "sys_page_map") as Hm.
  { intros perm. unfold must, lib_page_map, checked, sys_page_map. unfold bind. rewrite Hb, with_caller, with_nobody. done. }
  destruct (ctrue _); [unfold bind; by rewrite Hm|]. destruct (_ || _); unfold bind; by rewrite Hm.
Qed.

Lemma copy_pages_nobody k : ∀ n, 0 ≤ n → n + Z.of_nat k ≤ USTACKTOP / PGSIZE →
  copy_pages k n r duppage s = Ret None s ∨ copy_pages k n r duppage s = Panic "sys_page_map".
Proof using K Hc Hce Hst Hsd Hr.
  assert (own_dir s = Ret sd s) as Eo.
  { unfold own_dir, cur, bind, gets. rewrite Hc. cbn. unfold pgdir_of, bind, env_at. rewrite Hce. cbn. by rewrite Hsd. }
  unfold copy_pages. induction k as [|k IH]; intros n Hn Hk; cbn [search]; [by left|].
  destruct (pte_of (mem s) sd (PDX (n * 4096)) (PTX (n * 4096))) as [w|] eqn:Hw.
  - right. unfold copy_page. unfold bind at 1. rewrite (bind_eq _ _ _ _ _ (is_mapped_own s sd _ Eo)). change PGSIZE with 4096.
    rewrite Hw, bool_decide_eq_true_2 by done. unfold bind. by rewrite (duppage_nobody n w) by (done || lia).
  - assert (copy_page r n duppage s = Ret None s) as E.
    { unfold copy_page. rewrite (bind_eq _ _ _ _ _ (is_mapped_own s sd _ Eo)). change PGSIZE with 4096.
      rewrite Hw, bool_decide_eq_false_2 by (by intros [? ?]). done. }
    rewrite (bind_eq _ _ _ _ _ E). apply IH; lia.
Qed.

Lemma fork_nobody upcall name : sys_exofork s = Ret r s → ∃ w, fork upcall name s = Panic w.
Proof using K Hc Hce Hst Hsd Hr.
  intros E. unfold fork. rewrite (bind_eq _ _ _ _ _ E). destruct (Z.eqb_spec r 0); [lia|]. unfold fork_pages.
  destruct (copy_pages_nobody (Z.to_nat (USTACKTOP / PGSIZE)) 0) as [E'|E']; [lia|by rewrite Z2Nat.id| |].
  - rewrite (bind_eq _ _ _ _ _ E'). exists "fork". unfold fork_finish, must, sys_copy_vma. unfold bind. rewrite with_caller, with_nobody. done.
  - exists "sys_page_map". unfold bind. by rewrite E'.
Qed.
End no_child.
