(* ===== verification/ForkProps.v ===== *)
(** * Fork copies the address space

    The loop of [fork] over all pages, after [sys_exofork], and what parent and child
    have afterwards. *)

From stdpp Require Import base gmap list strings.
From Stdlib Require Import ZArith Lia.
From S2P Require Import Prelude Mmu Pmap PmapInv PmapOps PmapDir MemInit Env Sched EnvFree EnvInv.
From S2P Require Import PmapBoot PmapProps EnvAlloc KDemo Syscall SyscallInv SyscallProps IpcProps Fork ForkInv ForkFinish.

Section fork.
Context (R : Z → Z) (efl : list Z) (c i id sd dd : Z) (ce e : Env) (D : list Z) (m0 : memst) (fl0 : list Z).
Implicit Types (s : kstate) (fl : list Z).

Record forking (n : Z) fl s : Prop := MkForking {
  fk_inv : kinv R fl efl s;
  fk_fam : family c i id sd dd ce e s;
  fk_dirs : dirs_of (envs s) = D;
  fk_copied : copied D sd dd m0 n (mem s)
}.

(** What the loop starts from: a child without pages, counts below half of the range, no
    page at address 0, which [sys_page_map] would take for the zero page. *)
Record fork_start : Prop := MkForkStart {
  fs_inv : mm_inv D R fl0 m0;
  fs_child : ∀ i j, SPage dd i j ∈ sites D → pte_of m0 dd i j = None;
  fs_room : ∀ i j w, SPage sd i j ∈ sites D → pte_of m0 sd i j = Some w →
    refs D m0 (w / 4096) + R (w / 4096) < 2 ^ 15;
  fs_zero : pte_of m0 sd 0 0 = None
}.

Lemma duppage_unfold s n w : family c i id sd dd ce e s → 0 ≤ n < 2 ^ 20 →
  pte_of (mem s) sd (PDX (n * 4096)) (PTX (n * 4096)) = Some w →
  duppage id n s =
    (if is_cow w then
       do* must "sys_page_map" (lib_page_map 0 (n * 4096) id (n * 4096) (cow_perm w)) in
       do* must "sys_page_map" (lib_page_map 0 (n * 4096) 0 (n * 4096) (cow_perm w)) in ret 0
     else do* must "sys_page_map" (lib_page_map 0 (n * 4096) id (n * 4096) (PGOFF w)) in ret 0) s.
Proof.
  intros F Hn Hw. unfold duppage. rewrite Z.shiftl_mul_pow2 by lia. change (2 ^ 12) with 4096.
  rewrite u32_small by (unfold is_u32; lia). cbv zeta. rewrite (bind_eq _ _ _ _ _ (uvpt_eq c i id sd dd ce e s _ w F Hw)).
  unfold is_cow, shared, cow_perm. destruct (ctrue (Z.land (PGOFF w) PTE_SHARE)); cbn [negb andb]; [done|].
  by destruct (ctrue _ || ctrue _).
Qed.

Lemma fork_page_index n : 0 ≤ n < USTACKTOP / PGSIZE →
  is_u32 (n * 4096) ∧ n * 4096 < UTOP ∧ (n * 4096) mod PGSIZE = 0 ∧ page_no (PDX (n * 4096)) (PTX (n * 4096)) = n.
Proof.
  change (USTACKTOP / PGSIZE) with 977918. intros Hn. assert (is_u32 (n * 4096)) as Hu by (unfold is_u32; lia). split; [done|].
  split; [change UTOP with 4005560320; lia|]. split; [unfold PGSIZE; apply Z.mod_mul; lia|].
  unfold page_no. rewrite <- PGNUM_split, PGNUM_div by done. apply Z.div_mul. lia.
Qed.

(** One call of [sys_page_map] on the way. *)
Lemma map_ok fl s envid j d je n w perm :
  fork_start → kinv R fl efl s → family c i id sd dd ce e s → dirs_of (envs s) = D → sharing D sd dd m0 (mem s) →
  addressed c i id sd dd ce e envid j d je → 0 < n < USTACKTOP / PGSIZE → 0 ≤ perm < 4096 →
  pte_of (mem s) sd (PDX (n * 4096)) (PTX (n * 4096)) = Some w → (writable perm = true → writable w = true) →
  (must "sys_page_map" (lib_page_map 0 (n * 4096) envid (n * 4096) perm) s = Panic "sys_page_map" ∧ fl = [] ∧
     frame_of (rd (mem s) d (PDX (n * 4096))) = None) ∨
  ∃ m' fl', must "sys_page_map" (lib_page_map 0 (n * 4096) envid (n * 4096) perm) s = Ret tt (set_mem m' s) ∧
    kinv R fl' efl (set_mem m' s) ∧ sharing D sd dd m0 m' ∧
    pte_upd D (mem s) m' d (PDX (n * 4096)) (PTX (n * 4096)) (Some (mk_pte (w / 4096) (Z.lor perm PTE_U))) ∧
    ∀ d' i j w k, SPage d' i j ∈ sites D → pte_of m0 d' i j = Some w → rd m' (w / 4096) k = rd (mem s) (w / 4096) k.
Proof.
  intros [Inv0 He Hroom Hz] K F HD Sh A Hn Hp Hw Hwr. destruct (fork_page_index n) as (Hu & Hut & Hal & Hno); [lia|].
  destruct (family_dirs R efl c i id sd dd ce e fl s K F) as [HsD HdD]. rewrite HD in HsD, HdD.
  pose proof (user_sites D sd _ HsD Hu Hut) as Hin. pose proof (ki_mm _ _ _ _ K) as Inv. rewrite HD in Inv.
  destruct (mapped_frame D R fl (mem s) sd _ _ w Inv Hin Hw) as (Hfr & _ & _).
  destruct (lib_map_ok R efl c i id sd dd ce e fl s envid j d je (n * 4096) w perm)
    as [(E & Hfl & Hf)|(m' & fl' & E & K' & I)]; try done; [lia| | |]; unfold must.
  - intros pi. by apply (sharing_room D R sd dd m0 fl0 Inv0 HsD HdD (fa_ne _ _ _ _ _ _ _ _ F) fl (mem s) _ _ w pi Inv Sh Hin Hw).
  - left. by rewrite (bind_eq _ _ _ _ _ E).
  - right. exists m', fl'. rewrite (bind_eq _ _ _ _ _ E). rewrite HD in I.
    split; [reflexivity|]. split; [exact K'|]. split; [|split; [apply I|]].
    + eapply (insert_sharing D sd dd m0 (fa_ne _ _ _ _ _ _ _ _ F) (mem s) m' d); [exact Sh| | | |exact Hin|exact Hw|apply I]; [|by apply perm_user|done].
      destruct A as [(_ & _ & -> & _)|(_ & _ & -> & _)]; auto.
    + by eapply (insert_data D R sd dd m0).
Qed.

(** The entries after the calls of [duppage]. *)
Lemma duppage_ok n fl s w : fork_start → forking n fl s → 0 ≤ n < USTACKTOP / PGSIZE →
  pte_of m0 sd (PDX (n * 4096)) (PTX (n * 4096)) = Some w →
  (duppage id n s = Panic "sys_page_map" ∧ fl = [] ∧ frame_of (rd (mem s) dd (PDX (n * 4096))) = None) ∨
  ∃ m' fl', duppage id n s = Ret 0 (set_mem m' s) ∧ forking (n + 1) fl' (set_mem m' s).
Proof.
  intros St [K F HD C] Hn Hw0. destruct (fork_page_index n Hn) as (Hu & Hut & Hal & Hno).
  assert (n ≠ 0) as Hn0 by (intros ->; pose proof (fs_zero St); change (pte_of m0 sd 0 0 = Some w) in Hw0; congruence).
  destruct (family_dirs R efl c i id sd dd ce e fl s K F) as [HsD HdD]. rewrite HD in HsD, HdD.
  pose proof (user_sites D sd _ HsD Hu Hut) as Hin. pose proof (fa_ne _ _ _ _ _ _ _ _ F) as Hne.
  assert (pte_of (mem s) sd (PDX (n * 4096)) (PTX (n * 4096)) = Some w) as Hw.
  { rewrite (cp_parent _ _ _ _ _ _ C) by done. rewrite Hno. by rewrite Z.ltb_irrefl. }
  pose proof (copied_sharing D R sd dd m0 fl0 (fs_inv St) HsD n (mem s) C) as Sh.
  assert (0 ≤ n < 2 ^ 20) as Hn' by (change (USTACKTOP / PGSIZE) with 977918 in Hn; lia).
  rewrite (duppage_unfold s n w F Hn' Hw).
  assert (addressed c i id sd dd ce e id i dd e) as A1 by (by right).
  assert (addressed c i id sd dd ce e 0 c sd ce) as A0 by (by left).
  destruct (is_cow w) eqn:Hcow.
  - destruct (map_ok fl s id i dd e n w (cow_perm w) St K F HD Sh A1) as [(E & Hfl & Hf)|(m1 & fl1 & E & K1 & Sh1 & U1 & D1)];
      [lia|apply cow_perm_range|done|by rewrite cow_perm_readonly|left; by unfold bind; rewrite E|].
    rewrite (bind_eq _ _ _ _ _ E).
    assert (pte_of m1 sd (PDX (n * 4096)) (PTX (n * 4096)) = Some w) as Hw1 by (rewrite U1, decide_False by congruence; done).
    destruct (map_ok fl1 (set_mem m1 s) 0 c sd ce n w (cow_perm w) St K1 (family_mem _ _ _ _ _ _ _ _ _ F) HD Sh1 A0)
      as [(_ & _ & Hf)|(m2 & fl2 & E2 & K2 & Sh2 & U2 & D2)]; [lia|apply cow_perm_range|done|by rewrite cow_perm_readonly| |].
    { exfalso. cbn [mem set_mem] in Hf. unfold pte_of in Hw1. by rewrite Hf in Hw1. }
    right. exists m2, fl2. rewrite (bind_eq _ _ _ _ _ E2). split; [done|]. split; [exact K2|by apply family_mem|done|].
    apply (copied_step D sd dd m0 Hne n (mem s) m2 w _ _ C Hno (PTX_range _) Hw0).
    + intros d' i' j' Hs. rewrite U2, U1 by done. unfold parent_pte, child_pte. by rewrite Hcow.
    + intros d' i' j' w' k Hs Hw'. cbn [mem set_mem] in D2. by rewrite (D2 d' i' j'), (D1 d' i' j').
  - destruct (map_ok fl s id i dd e n w (PGOFF w) St K F HD Sh A1) as [(E & Hfl & Hf)|(m1 & fl1 & E & K1 & Sh1 & U1 & D1)];
      [lia|apply PGOFF_range|done|by rewrite writable_PGOFF|left; by unfold bind; rewrite E|].
    right. exists m1, fl1. rewrite (bind_eq _ _ _ _ _ E). split; [done|]. split; [exact K1|by apply family_mem|done|].
    apply (copied_step D sd dd m0 Hne n (mem s) m1 w _ _ C Hno (PTX_range _) Hw0); [|done].
    intros d' i' j' Hs. rewrite U1 by done. unfold parent_pte, child_pte. rewrite Hcow.
    destruct (decide ((d', i', j') = (sd, PDX (n * 4096), PTX (n * 4096)))) as [[= -> -> ->]|]; [|done].
    by rewrite decide_False by congruence.
Qed.

(** One round of the loop. *)
Lemma copy_page_ok n fl s : fork_start → forking n fl s → 0 ≤ n < USTACKTOP / PGSIZE →
  (copy_page id n duppage s = Panic "sys_page_map" ∧ fl = [] ∧ is_Some (pte_of m0 sd (PDX (n * 4096)) (PTX (n * 4096))) ∧
     frame_of (rd (mem s) dd (PDX (n * 4096))) = None) ∨
  ∃ m' fl', copy_page id n duppage s = Ret None (set_mem m' s) ∧ forking (n + 1) fl' (set_mem m' s).
Proof.
  intros St Fk Hn. pose proof Fk as [K F HD C]. destruct (fork_page_index n Hn) as (Hu & Hut & Hal & Hno).
  destruct (family_dirs R efl c i id sd dd ce e fl s K F) as [HsD _]. rewrite HD in HsD.
  unfold copy_page. rewrite (bind_eq _ _ _ _ _ (is_mapped_eq c i id sd dd ce e s _ F)). change PGSIZE with 4096.
  rewrite (cp_parent _ _ _ _ _ _ C) by (by apply user_sites). rewrite Hno, Z.ltb_irrefl.
  destruct (pte_of m0 sd _ _) as [w|] eqn:Hw.
  - rewrite bool_decide_eq_true_2 by done.
    destruct (duppage_ok n fl s w St Fk Hn Hw) as [(E & Hfl & Hf)|(m' & fl' & E & Fk')].
    + left. split; [unfold bind; by rewrite E|]. done.
    + right. exists m', fl'. rewrite (bind_eq _ _ _ _ _ E). done.
  - rewrite bool_decide_eq_false_2 by (by intros [? ?]). right. exists (mem s), fl.
    assert (set_mem (mem s) s = s) as -> by (by destruct s). split; [done|]. split; [done..|].
    by apply (copied_skip D sd dd m0 n (mem s) _ _ C Hno (PTX_range _)).
Qed.

(** The loop stops early only when a table for the child is missing and memory is out. *)
Lemma copy_pages_ok k : ∀ n fl s, fork_start → forking n fl s → 0 ≤ n → n + Z.of_nat k ≤ USTACKTOP / PGSIZE →
  (∃ m' fl', copy_pages k n id duppage s = Ret None (set_mem m' s) ∧ forking (n + Z.of_nat k) fl' (set_mem m' s)) ∨
  (∃ j m', (j < k)%nat ∧ copy_pages j n id duppage s = Ret None (set_mem m' s) ∧ forking (n + Z.of_nat j) [] (set_mem m' s) ∧
     is_Some (pte_of m0 sd (PDX ((n + Z.of_nat j) * 4096)) (PTX ((n + Z.of_nat j) * 4096))) ∧
     frame_of (rd m' dd (PDX ((n + Z.of_nat j) * 4096))) = None ∧ copy_pages k n id duppage s = Panic "sys_page_map").
Proof.
  unfold copy_pages. induction k as [|k IH]; intros n fl s St Fk Hn Hk.
  { left. exists (mem s), fl. rewrite Z.add_0_r. by destruct s. }
  assert (∀ k' m1, copy_page id n duppage s = Ret None (set_mem m1 s) →
    search (S k') n (λ pn, copy_page id pn duppage) s = search k' (n + 1) (λ pn, copy_page id pn duppage) (set_mem m1 s)) as Hstep.
  { intros k' m1 E. cbn [search]. by rewrite (bind_eq _ _ _ _ _ E). }
  destruct (copy_page_ok n fl s St Fk) as [(E & -> & Hm & Hf)|(m1 & fl1 & E & Fk1)]; [lia| |].
  - right. exists 0%nat, (mem s). rewrite Z.add_0_r. assert (set_mem (mem s) s = s) as -> by (by destruct s).
    split; [lia|]. split; [done|]. split; [done|]. split; [done|]. split; [done|]. cbn [search]. unfold bind. by rewrite E.
  - rewrite (Hstep k m1 E). destruct (IH (n + 1) fl1 (set_mem m1 s) St Fk1) as [(m' & fl' & E' & Fk')|(j & m' & Hj & E' & Fk' & Hm & Hf & Ep)]; [lia|lia| |].
    + left. exists m', fl'. rewrite E'. split; [by destruct s|].
      replace (n + Z.of_nat (S k)) with (n + 1 + Z.of_nat k) by lia. by destruct s.
    + right. exists (S j), m'. rewrite (Hstep j m1 E), E', Ep. replace (n + Z.of_nat (S j)) with (n + 1 + Z.of_nat j) by lia.
      split; [lia|]. split; [by destruct s|]. split; [by destruct s|]. done.
Qed.
End fork.

(** ** From [sys_exofork] on *)

(** The number of pages [fork] looks at. *)
Definition fork_npages : Z := USTACKTOP / PGSIZE.

(** From [s] to [s']: the child with directory [dd] has the pages of the parent with
    directory [sd], at the same addresses. *)
Record forked (s : kstate) (sd dd : Z) (s' : kstate) : Prop := MkForked {
  fd_parent : ∀ i j, SPage sd i j ∈ sites (dirs_of (envs s)) → pte_of (mem s') sd i j =
    if page_no i j <? fork_npages then parent_pte <$> pte_of (mem s) sd i j else pte_of (mem s) sd i j;
  fd_child : ∀ i j, SPage sd i j ∈ sites (dirs_of (envs s)) → pte_of (mem s') dd i j =
    if page_no i j <? fork_npages then child_pte <$> pte_of (mem s) sd i j else None;
  fd_other : ∀ d i j, SPage d i j ∈ sites (dirs_of (envs s)) → d ≠ sd → pte_of (mem s') d i j = pte_of (mem s) d i j;
  fd_data : ∀ d i j w k, SPage d i j ∈ sites (dirs_of (envs s)) → pte_of (mem s) d i j = Some w →
    rd (mem s') (w / 4096) k = rd (mem s) (w / 4096) k;
  (* no page is writable for one of them and visible to the other, unless it is shared *)
  fd_isolated : ∀ i j w wp wc, SPage sd i j ∈ sites (dirs_of (envs s)) → pte_of (mem s) sd i j = Some w →
    pte_of (mem s') sd i j = Some wp → pte_of (mem s') dd i j = Some wc →
    wp / 4096 = w / 4096 ∧ wc / 4096 = w / 4096 ∧ writable wp = writable w && shared w ∧ writable wc = writable w && shared w
}.

(** The address spaces when [fork] returns: the child also has a page [q] for its exception
    stack, full of zeros. *)
Record fork_done (s : kstate) (sd dd q : Z) (s' : kstate) : Prop := MkForkDone {
  fo_parent : ∀ i j, SPage sd i j ∈ sites (dirs_of (envs s)) → pte_of (mem s') sd i j =
    if page_no i j <? fork_npages then parent_pte <$> pte_of (mem s) sd i j else pte_of (mem s) sd i j;
  fo_child : ∀ i j, SPage sd i j ∈ sites (dirs_of (envs s)) → pte_of (mem s') dd i j =
    if page_no i j <? fork_npages then child_pte <$> pte_of (mem s) sd i j
    else if decide ((i, j) = (PDX xstack, PTX xstack)) then Some (mk_pte q (Z.lor PTE_W PTE_U)) else None;
  fo_stack : ∀ k, rd (mem s') q k = 0;
  fo_other : ∀ d i j, SPage d i j ∈ sites (dirs_of (envs s)) → d ≠ sd → pte_of (mem s') d i j = pte_of (mem s) d i j;
  fo_data : ∀ d i j w k, SPage d i j ∈ sites (dirs_of (envs s)) → pte_of (mem s) d i j = Some w →
    rd (mem s') (w / 4096) k = rd (mem s) (w / 4096) k;
  fo_isolated : ∀ i j w wp wc, SPage sd i j ∈ sites (dirs_of (envs s)) → page_no i j < fork_npages → pte_of (mem s) sd i j = Some w →
    pte_of (mem s') sd i j = Some wp → pte_of (mem s') dd i j = Some wc →
    wp / 4096 = w / 4096 ∧ wc / 4096 = w / 4096 ∧ writable wp = writable w && shared w ∧ writable wc = writable w && shared w
}.

Lemma forked_done R fl fl2 efl2 efl s c i sd dd ce e upcall s2 s' : kinv R fl efl s → kinv R fl2 efl2 s2 → sd ∈ dirs_of (envs s) → sd ≠ dd → dd ∉ dirs_of (envs s) →
  dirs_of (envs s2) ≡ₚ dd :: dirs_of (envs s) → forked s sd dd s2 → finished c i dd ce s2 fl2 e upcall s' → ∃ q, head fl2 = Some q ∧ fork_done s sd dd q s'.
Proof.
  intros K0 K Hsd Hne Hdd HD [Fp Fc Fo Fd Fi] [_ _ (q & Hq & Hu & Hz) Hdata]. exists q. split; [done|].
  assert (∀ x, x ∈ sites (dirs_of (envs s)) → x ∈ sites (dirs_of (envs s2))) as Hs.
  { intros x. rewrite !elem_of_sites. intros [H1 H2]. split; [|done]. rewrite HD. by right. }
  assert (∀ a b, SPage sd a b ∈ sites (dirs_of (envs s)) → SPage dd a b ∈ sites (dirs_of (envs s2))) as Hch.
  { intros a b. rewrite !elem_of_sites. intros [_ H]. split; [|done]. cbn. rewrite HD. left. }
  assert (∀ d a b, SPage d a b ∈ sites (dirs_of (envs s)) → pte_of (mem s') d a b = pte_of (mem s2) d a b) as Hold.
  { intros d a b Hin. rewrite Hu by auto. rewrite decide_False; [done|]. intros [= -> _ _]. apply Hdd. by apply elem_of_sites in Hin as [? _]. }
  assert (page_no (PDX xstack) (PTX xstack) = 977919) as Hx by (by vm_compute).
  assert (∀ a b, SPage sd a b ∈ sites (dirs_of (envs s)) → page_no a b < fork_npages → pte_of (mem s') dd a b = pte_of (mem s2) dd a b) as Hlow.
  { intros a b Hin Hlt. rewrite Hu by auto. rewrite decide_False; [done|]. intros [= -> ->]. rewrite Hx in Hlt. change fork_npages with 977918 in Hlt. lia. }
  split.
  - intros a b Hin. rewrite Hold by done. by apply Fp.
  - intros a b Hin. destruct (Z.ltb_spec (page_no a b) fork_npages) as [Hlt|Hge].
    + rewrite Hlow by done. rewrite Fc by done. by destruct (Z.ltb_spec (page_no a b) fork_npages); [|lia].
    + rewrite Hu by auto. destruct (decide ((a, b) = _)) as [[= -> ->]|Hn]; [by rewrite decide_True|].
      rewrite decide_False by congruence. rewrite Fc by done. by destruct (Z.ltb_spec (page_no a b) fork_npages); [lia|].
  - exact Hz.
  - intros d a b Hin Hd. rewrite Hold by done. by apply Fo.
  - intros d a b w k Hin Hw. rewrite <- (Fd d a b w k Hin Hw). destruct (mapped_frame _ R fl (mem s) d a b w (ki_mm _ _ _ _ K0) Hin Hw) as (Hr & _ & _).
    assert (∃ w', pte_of (mem s2) d a b = Some w' ∧ w' / 4096 = w / 4096) as (w' & Hw' & <-).
    { destruct (decide (d = sd)) as [->|Hd]; [|exists w; by rewrite Fo]. rewrite Fp, Hw by done. destruct (_ <? _); [|by exists w].
      exists (parent_pte w). split; [done|]. by apply parent_pte_frame. }
    destruct (mapped_frame _ R fl2 (mem s2) d a b w' (ki_mm _ _ _ _ K) (Hs _ Hin) Hw') as (_ & H1 & H2). by apply Hdata.
  - intros a b w wp wc Hin Hlt Hw. rewrite Hold, Hlow by done. by apply Fi.
Qed.

(** The counts of the pages of the parent are below half of their range. *)
Definition room_to_fork (s : kstate) (sd : Z) : Prop :=
  ∀ i j w pi, SPage sd i j ∈ sites (dirs_of (envs s)) → pte_of (mem s) sd i j = Some w →
    pages (mem s) !! (w / 4096) = Some pi → pp_ref pi < 2 ^ 15.

Section started.
Context (R : Z → Z) (fl efl : list Z) (s : kstate) (c sd : Z) (ce : Env).
Context (K : kinv R fl efl s) (Hc : curenv s = Some c) (Hce : envs s !! c = Some ce) (Hst : env_status ce ≠ ENV_FREE).
Context (Hsd : env_pgdir ce = Some sd) (Hz : pte_of (mem s) sd 0 0 = None) (Hroom : room_to_fork s sd).
Context (i p : Z) (en : Env) (s1 : kstate) (fl' efl' : list Z).
Context (C : env_created R fl efl s (env_id ce) i s1 fl' efl') (Hic : i ≠ c) (Hen : envs s !! i = Some en) (Hfl : fl = p :: fl').
Let e1 := new_env (env_id ce) i p en.
Context (Hs1 : envs s1 = <[i := e1]> (envs s)) (Hem : empty_dir (mem s1) p).
Let e' := exo_child ce e1.
Let s' := set_envs (<[i := e']> (envs s1)) s1.
Context (K' : kinv R fl' efl' s') (Es : envs s' = <[i := e']> (envs s)).
Let D := dirs_of (envs s).
Let D' := dirs_of (envs s').

Lemma started_dirs : D' ≡ₚ p :: D.
Proof.
  unfold D', D. rewrite Es. apply (dirs_of_add _ i en e' p); [apply (ki_dom _ _ _ _ K); eauto|done| |done].
  pose proof (ki_env _ _ _ _ K i en Hen) as [Hf1 Hf2 Hf3 _]. apply Hf2, Hf1. rewrite (ec_efl _ _ _ _ _ _ _ _ _ C). left.
Qed.

Lemma started_sd : sd ∈ D ∧ sd ≠ p.
Proof.
  destruct (kinv_live_dir R fl efl s c ce K Hce Hst) as (d & E & HsD). rewrite Hsd in E. injection E as <-.
  split; [done|]. intros ->. apply (free_not_table _ _ _ _ p (ki_mm _ _ _ _ K)); [rewrite Hfl; left|by apply dir_is_table].
Qed.

(** Sites of the old directories lead where they led. *)
Lemma started_target x : x ∈ sites D → target (mem s1) x = target (mem s) x.
Proof.
  intros Hx. pose proof (ki_mm _ _ _ _ K) as Inv.
  assert (∀ f k, is_table D (mem s) f → rd (mem s1) f k = rd (mem s) f k) as Hrd.
  { intros f k Hf. apply (ec_data _ _ _ _ _ _ _ _ _ C). intros Hff. by apply (free_not_table _ _ _ _ f Inv) in Hff. }
  destruct x as [d|d a|d a b]; [done| |].
  - cbn. rewrite Hrd; [done|]. apply dir_is_table. by apply elem_of_sites in Hx as [? _].
  - rewrite !target_pte_of. f_equal. by apply (ec_other _ _ _ _ _ _ _ _ _ C).
Qed.

Lemma started_refs q : q ≠ p → refs D' (mem s1) q = refs D (mem s) q.
Proof.
  intros Hq. rewrite (refs_perm _ _ _ _ started_dirs), refs_cons, refs_empty_dir, ind_false by done.
  rewrite (refs_same D (mem s) (mem s1)); [lia|]. apply started_target.
Qed.

Lemma started_sites x : x ∈ sites D → x ∈ sites D'.
Proof. rewrite !elem_of_sites. intros [H1 H2]. split; [|done]. rewrite started_dirs. by right. Qed.

Lemma started_pte d a b : SPage d a b ∈ sites D → pte_of (mem s1) d a b = pte_of (mem s) d a b.
Proof. apply (ec_other _ _ _ _ _ _ _ _ _ C). Qed.

Lemma started_sd_site a b : SPage sd a b ∈ sites D' → SPage sd a b ∈ sites D.
Proof. rewrite !elem_of_sites. intros [_ H2]. split; [apply started_sd|done]. Qed.

Lemma started_start : fork_start R sd p D' (mem s1) fl'.
Proof.
  pose proof (ki_mm _ _ _ _ K) as Inv. split.
  - exact (ki_mm _ _ _ _ K').
  - intros a b Hs. apply elem_of_sites in Hs as [_ [H1 H2]]. unfold pte_of. by rewrite Hem.
  - intros a b w Hs Hw. apply started_sd_site in Hs. rewrite started_pte in Hw by done.
    destruct (mapped_frame D R fl (mem s) sd a b w Inv Hs Hw) as (_ & Hnf & _).
    rewrite started_refs by (intros E; rewrite E, Hfl in Hnf; apply Hnf; left).
    assert (0 ≤ w / 4096 < npages (mem s)) as Hr.
    { apply (inv_target _ _ _ _ Inv (SPage sd a b)); [done|]. by rewrite target_pte_of, Hw. }
    destruct (proj2 (inv_dom _ _ _ _ Inv _) Hr) as [pi Hpi].
    destruct (inv_ref _ _ _ _ Inv _ _ Hpi) as [E _]. unfold D. rewrite <- E. by apply (Hroom a b w pi).
  - rewrite started_pte; [done|]. apply spage_in; [apply started_sd|split; [done|reflexivity]|lia].
Qed.

Lemma started_forking : 0 < env_id e1 → forking R efl' c i (env_id e1) sd p ce e' D' (mem s1) 0 fl' s'.
Proof.
  intros Hpos. pose proof (ec_cpus _ _ _ _ _ _ _ _ _ C) as [Hcp Hth].
  destruct (exo_child_fields ce e1) as (F1 & _ & F3 & _ & _ & F6 & _). split; [exact K'| |reflexivity|].
  - split.
    + unfold curenv, this_cpu, s'. cbn [cpus this set_envs]. rewrite Hcp, Hth. exact Hc.
    + rewrite Es, lookup_insert_ne by exact Hic. exact Hce.
    + exact Hst.
    + exact Hsd.
    + rewrite Es. apply lookup_insert_eq.
    + discriminate.
    + exact F1.
    + exact Hpos.
    + exact F6.
    + exact F3.
    + apply started_sd.
  - apply copied_start. exact (fs_child _ _ _ _ _ _ started_start).
Qed.

Lemma started_forked s2 : copied D' sd p (mem s1) fork_npages (mem s2) → forked s sd p s2.
Proof.
  intros [Cp Cc Co Cd]. destruct started_sd as [HsD Hne].
  assert (∀ a b, SPage sd a b ∈ sites D → SPage p a b ∈ sites D') as Hch.
  { intros a b. rewrite !elem_of_sites. intros [_ H]. split; [|done]. cbn. rewrite started_dirs. left. }
  assert (∀ a b, SPage sd a b ∈ sites D → pte_of (mem s2) sd a b =
    if page_no a b <? fork_npages then parent_pte <$> pte_of (mem s) sd a b else pte_of (mem s) sd a b) as Hp.
  { intros a b Hs. rewrite Cp by (by apply started_sites). by rewrite started_pte. }
  assert (∀ a b, SPage sd a b ∈ sites D → pte_of (mem s2) p a b =
    if page_no a b <? fork_npages then child_pte <$> pte_of (mem s) sd a b else None) as Hq.
  { intros a b Hs. rewrite Cc by auto. by rewrite started_pte. }
  split; [done|done|..].
  - intros d a b Hs Hd. rewrite Co; [by apply started_pte|by apply started_sites|done|].
    intros ->. apply elem_of_sites in Hs as [Hs _]. cbn in Hs.
    apply (free_not_table _ _ _ _ p (ki_mm _ _ _ _ K)); [rewrite Hfl; left|by apply dir_is_table].
  - intros d a b w k Hs Hw. destruct (mapped_frame _ R fl (mem s) d a b w (ki_mm _ _ _ _ K) Hs Hw) as (_ & Hnf & _).
    rewrite (Cd d a b w); [|by apply started_sites|by rewrite started_pte]. by apply (ec_data _ _ _ _ _ _ _ _ _ C).
  - intros a b w wp wc Hs Hw. rewrite Hp, Hq, Hw by done. destruct (_ <? _); [|done]. intros [= <-] [= <-].
    destruct (mapped_frame _ R fl (mem s) sd a b w (ki_mm _ _ _ _ K) Hs Hw) as (Hr & _ & _).
    by rewrite parent_pte_frame, child_pte_frame, parent_pte_writable, child_pte_writable.
Qed.
(** The rest of [fork], for this child. *)
Lemma started_finish id upcall name m2 fl2 : upcall ≠ 0 → fork_pages id s' = Ret None (set_mem m2 s') →
  forking R efl' c i id sd p ce e' D' (mem s1) fork_npages fl2 (set_mem m2 s') →
  (∃ s2 fl2, fork_pages id s' = Ret None s2 ∧ kinv R fl2 efl' s2 ∧ (length fl2 ≤ 1)%nat ∧ fork_finish upcall name id (set_mem m2 s') = Panic "fork") ∨
  (∃ s2, curenv s2 = Some c ∧ (∀ r x, sys_env_name id name s2 ≠ Ret r x) ∧ ∀ r x, fork_finish upcall name id (set_mem m2 s') ≠ Ret r x) ∨
  (∃ s3 fl3 e2 str q, fork_finish upcall name id (set_mem m2 s') = Ret id s3 ∧ kinv R fl3 efl' s3 ∧ curenv s3 = Some c ∧ envs s3 = <[i := e2]> (envs s) ∧
     child_ready ce e' upcall str e2 ∧ fork_done s sd p q s3).
Proof.
  intros Hup E2 [K2 Fa2 _ Hcp]. destruct started_sd as [HsD Hne].
  destruct (fork_finish_ok R efl' c i id sd p ce fl2 _ e' upcall name K2 Fa2) as [[E3 Hl]|[(s3 & H1 & H2 & H3)|(s3 & fl3 & E3 & K3 & Fin)]]; [done|done|..].
  - left. by exists (set_mem m2 s'), fl2.
  - right. left. by exists s3.
  - right. right. destruct (forked_done R fl fl2 efl' efl s c i sd p ce e' upcall (set_mem m2 s') s3 K K2 HsD Hne) as (q & _ & Hd); [| | |exact Fin|].
    + intros Hp. apply (free_not_table _ _ _ _ p (ki_mm _ _ _ _ K)); [rewrite Hfl; left|by apply dir_is_table].
    + exact started_dirs.
    + by apply started_forked.
    + destruct (fi_env _ _ _ _ _ _ _ _ _ Fin) as (e2 & str & Ee & Hr). exists s3, fl3, e2, str, q. split; [done|]. split; [done|].
      split; [exact (fi_cur _ _ _ _ _ _ _ _ _ Fin)|]. split; [|done]. rewrite Ee. change (envs (set_mem m2 s')) with (envs s'). by rewrite Es, insert_insert_eq.
Qed.
End started.

(** The child when [sys_exofork] has made it. *)
Record child_of (ce : Env) (id dd : Z) (e' : Env) : Prop := MkChildOf {
  co_id : env_id e' = id;
  co_dir : env_pgdir e' = Some dd;
  co_status : env_status e' = ENV_NOT_RUNNABLE;
  co_tf : env_tf e' = set_reg_eax 0 (env_tf ce);
  co_parent : env_parent_id e' = env_id ce;
  co_path : currentpath e' = currentpath ce
}.

Lemma fork_loop id s1 s2 s upcall name : sys_exofork s = Ret id s1 → id ≠ 0 → fork_pages id s1 = Ret None s2 →
  fork upcall name s = fork_finish upcall name id s2.
Proof. intros E Hid E2. unfold fork. rewrite (bind_eq _ _ _ _ _ E). destruct (Z.eqb_spec id 0); [done|]. by rewrite (bind_eq _ _ _ _ _ E2). Qed.

Lemma fork_loop_panic id s1 w s upcall name : sys_exofork s = Ret id s1 → id ≠ 0 → fork_pages id s1 = Panic w → fork upcall name s = Panic w.
Proof. intros E Hid E2. unfold fork. rewrite (bind_eq _ _ _ _ _ E). destruct (Z.eqb_spec id 0); [done|]. unfold bind. by rewrite E2. Qed.


(** ** An environment with one page, in its address space *)
Definition one_page : kstate :=
  match sys_page_alloc 0 0x800000 2 KDemo.one with Ret _ s => set_mem (set_cr3 31 (mem s)) s | _ => KDemo.one end.

Lemma one_page_spec : ∃ fl', kinv KDemo.R fl' (seqZ 1 1023) one_page ∧ page_alloced KDemo.one (30 :: Demo.rest) 0 0x800000 2 one_page.
Proof.
  destruct (sys_page_alloc_correct KDemo.R (30 :: Demo.rest) (seqZ 1 1023) KDemo.one 0 0x800000 2)
    as (r & s' & fl' & E & K & H); [exact KDemo.one_inv|exact KDemo_caller|split; lia|lia|].
  exists fl'. unfold one_page. rewrite E.
  split; [apply (kinv_mem _ fl' _ s' _ fl' K); [apply (mm_inv_rd _ _ _ (mem s')); [apply K|done..]|done..]|].
  destruct H as [(_ & _ & H)|[(_ & _ & H)|[(_ & _ & H & _)|(_ & H)]]].
  - destruct (H 0 KDemo_names).
  - vm_compute in H. destruct H as [H|H]; destruct H; reflexivity.
  - vm_compute in H. lia.
  - destruct H as [H1 H2 H3]. split; [exact H1|exact H2|exact H3].
Qed.

Lemma one_page_pte i j : SPage 31 i j ∈ sites (dirs_of (envs one_page)) → is_Some (pte_of (mem one_page) 31 i j) → i = 2 ∧ j = 0.
Proof.
  intros Hs Hp. destruct one_page_spec as (fl' & _ & P). destruct (pal_envs _ _ _ _ _ _ P) as [Ee _]. rewrite Ee in Hs.
  destruct (pal_map _ _ _ _ _ _ P) as (i0 & e & d & p & Hn & He & Hd & Hh & Hu & _).
  assert (i0 = 0) as ->.
  { destruct Hn as [[_ Hi]|[Hi _]]; [|destruct Hi; reflexivity]. rewrite KDemo.one_cur in Hi. injection Hi as Hi. symmetry. exact Hi. }
  rewrite KDemo.one_lookup in He. injection He as <-. injection Hd as <-.
  rewrite (Hu _ _ _ Hs) in Hp. destruct (decide _) as [E|_] in Hp; [injection E as -> ->; split; reflexivity|]. exfalso.
  destruct KDemo.created_spec as (fl1 & efl1 & C). destruct (ec_env _ _ _ _ _ _ _ _ _ C) as (en & q & _ & Hfl & _ & Hem & _).
  injection Hfl as <- _. apply elem_of_sites in Hs as [_ [H1 H2]]. unfold pte_of in Hp.
  change (mem KDemo.one) with (mem KDemo.created) in Hp. rewrite (Hem i H1) in Hp. destruct Hp as [? Hp]. discriminate Hp.
Qed.

(** The state after the page of the parent, which is the last one to copy. *)
Definition one_copied : option (Z * kstate) :=
  match sys_exofork one_page with
  | Ret id s1 => match copy_pages 2049 0 id duppage s1 with Ret None s2 => Some (id, s2) | _ => None end
  | _ => None
  end.

(** Nothing is mapped behind it. *)
Definition bare (m : memst) (d : Z) : bool :=
  forallb (λ i, if i =? 2 then forallb (λ j, negb (present (rd m (rd m d 2 / 4096) j))) (seqZ 1 1023) else negb (present (rd m d i))) (seqZ 0 956).

Lemma bare_pte m d n : bare m d = true → 2049 ≤ n < USTACKTOP / PGSIZE → pte_of m d (PDX (n * 4096)) (PTX (n * 4096)) = None.
Proof.
  change (USTACKTOP / PGSIZE) with 977918. intros H Hn. unfold bare in H. rewrite forallb_forall in H.
  assert (is_u32 (n * 4096)) as Hu by (unfold is_u32; lia).
  assert (PDX (n * 4096) = n / 1024) as E1 by (rewrite PDX_small by done; dlia). assert (PTX (n * 4096) = n mod 1024) as E2 by (rewrite PTX_div; dlia).
  rewrite E1, E2. unfold pte_of, frame_of. specialize (H (n / 1024)). destruct (Z.eqb_spec (n / 1024) 2) as [E|E].
  - assert (forallb (λ j, negb (present (rd m (rd m d 2 / 4096) j))) (seqZ 1 1023) = true) as H' by (apply H, list_elem_of_In, elem_of_seqZ; lia).
    rewrite forallb_forall in H'. rewrite E. destruct (present (rd m d 2)); [|done].
    specialize (H' (n mod 1024)). destruct (present (rd m _ (n mod 1024))); [|done]. discriminate H'. apply list_elem_of_In, elem_of_seqZ. dlia.
  - destruct (present (rd m d (n / 1024))); [|done]. discriminate H. apply list_elem_of_In, elem_of_seqZ. dlia.
Qed.

Lemma copy_pages_bare id s sd k : ∀ n, own_dir s = Ret sd s → bare (mem s) sd = true → 2049 ≤ n → n + Z.of_nat k ≤ USTACKTOP / PGSIZE → copy_pages k n id duppage s = Ret None s.
Proof.
  unfold copy_pages. induction k as [|k IH]; intros n Eo Hb Hn Hk; cbn [search]; [done|].
  assert (copy_page id n duppage s = Ret None s) as E.
  { unfold copy_page. rewrite (bind_eq _ _ _ _ _ (is_mapped_own s sd _ Eo)). change PGSIZE with 4096.
    rewrite bare_pte by (done || lia). rewrite bool_decide_eq_false_2 by (by intros [? ?]). done. }
  rewrite (bind_eq _ _ _ _ _ E). apply IH; (done || lia).
Qed.

Lemma copy_pages_app id s s1 k1 : ∀ k2 n, copy_pages k1 n id duppage s = Ret None s1 →
  copy_pages (k1 + k2) n id duppage s = copy_pages k2 (n + Z.of_nat k1) id duppage s1.
Proof.
  unfold copy_pages. revert s. induction k1 as [|k1 IH]; intros s k2 n E; cbn [search Nat.add] in *.
  - injection E as ->. by rewrite Z.add_0_r.
  - apply bind_ret_inv in E as (r & s2 & E1 & E). destruct r as [r|]; [done|]. rewrite (bind_eq _ _ _ _ _ E1), (IH s2 k2 (n + 1) E). f_equal. lia.
Qed.

Lemma one_copied_ok : match one_copied with
  | Some (id, s2) => 0 < id ∧ own_dir s2 = Ret 31 s2 ∧ bare (mem s2) 31 = true ∧ match fork_finish 1 0x800000 id s2 with Ret r _ => r = id | _ => False end
  | None => False end.
Proof. vm_compute. split_and!; reflexivity. Qed.

Lemma one_page_forks : match fork 1 0x800000 one_page with Ret id _ => 0 < id | _ => False end.
Proof.
  pose proof one_copied_ok as H. unfold one_copied in H. destruct (sys_exofork one_page) as [id s1| | |] eqn:E; [|destruct H..].
  destruct (copy_pages 2049 0 id duppage s1) as [[?|] s2| | |] eqn:E2; [destruct H| |destruct H..]. destruct H as (Hid & Eo & Hb & Hf).
  assert (fork_pages id s1 = Ret None s2) as E3.
  { unfold fork_pages. replace (Z.to_nat (USTACKTOP / PGSIZE)) with (2049 + (Z.to_nat (USTACKTOP / PGSIZE) - 2049))%nat by (change (USTACKTOP / PGSIZE) with 977918; lia).
    rewrite (copy_pages_app id s1 s2 2049 _ 0 E2). apply (copy_pages_bare id s2 31); [done|done|lia|]. change (USTACKTOP / PGSIZE) with 977918. lia. }
  rewrite (fork_loop id s1 s2 one_page 1 0x800000 E ltac:(lia) E3). destruct (fork_finish 1 0x800000 id s2); [lia|exact Hf..].
Qed.

Lemma room_check s sd :
  forallb (λ x : Z * PageInfo, pp_ref x.2 <? 2 ^ 15) (map_to_list (pages (mem s))) = true → room_to_fork s sd.
Proof.
  intros H i j w pi _ _ Hpi. apply elem_of_map_to_list in Hpi. rewrite forallb_forall in H.
  apply Z.ltb_lt, (H (w / 4096, pi)), list_elem_of_In, Hpi.
Qed.

Lemma one_page_room : room_to_fork one_page 31.
Proof. apply room_check. vm_compute. reflexivity. Qed.

