(* ===== verification/Inet.v ===== *)
(** * Internet addresses and byte order: [net/lwip/core/ipv4/inet.c]

    Text is the list of its characters, each a byte; reading past the end gives the
    terminating zero.  An address is in network order, as in the code: the first part is
    the least significant byte of the word. *)

From stdpp Require Import base list.
From Stdlib Require Import ZArith Lia.
From S2P Require Import Prelude.

(** ** Byte order: the machine is little-endian *)
Definition htons (n : Z) : Z :=
  Z.lor (Z.shiftl (Z.land n 0xff) 8) (Z.shiftr (Z.land n 0xff00) 8).
Definition ntohs (n : Z) : Z := htons n.

Definition htonl (n : Z) : Z :=
  Z.lor (Z.lor (Z.lor (Z.shiftl (Z.land n 0xff) 24) (Z.shiftl (Z.land n 0xff00) 8))
    (Z.shiftr (Z.land n 0xff0000) 8)) (Z.shiftr (Z.land n 0xff000000) 24).
Definition ntohl (n : Z) : Z := htonl n.

(** ** Characters *)
Definition in_range (c lo up : Z) : bool := (lo <=? c) && (c <=? up).
Definition isprint (c : Z) : bool := in_range c 0x20 0x7f.
Definition isdigit (c : Z) : bool := in_range c 48 57.
Definition isxdigit (c : Z) : bool := isdigit c || in_range c 97 102 || in_range c 65 70.
Definition islower (c : Z) : bool := in_range c 97 122.
Definition isspace (c : Z) : bool := bool_decide (c ∈ [32; 12; 10; 13; 9; 11]).

(** ** Reading an address *)

(** The inner loop: the value and what follows the digits. *)
Fixpoint collect (base val : Z) (cp : list Z) : Z * list Z :=
  match cp with
  | [] => (val, [])
  | c :: cp' =>
      if isdigit c then collect base (u32 (val * base + (c - 48))) cp'
      else if (base =? 16) && isxdigit c then
        collect base (u32 (Z.lor (Z.shiftl val 4) (c + 10 - (if islower c then 97 else 65)))) cp'
      else (val, cp)
  end.

(** [*cp], and the text after it. *)
Definition peek (cp : list Z) : Z := hd 0 cp.

(** One number: [None] when there is no digit. *)
Definition number (cp : list Z) : option (Z * list Z) :=
  let c := peek cp in
  if negb (isdigit c) then None else
  if c =? 48 then
    let cp := tail cp in
    if (peek cp =? 120) || (peek cp =? 88) then Some (collect 16 0 (tail cp)) else Some (collect 8 0 cp)
  else Some (collect 10 0 cp).

(** The outer loop; [room] is the number of parts that may still be stored. *)
Fixpoint aton_parts (room : nat) (parts : list Z) (cp : list Z) : option (list Z * Z * list Z) :=
  match number cp with
  | None => None
  | Some (val, cp) =>
      if peek cp =? 46 then
        match room with
        | O => None
        | S room' => aton_parts room' (parts ++ [val]) (tail cp)
        end
      else Some (parts, val, cp)
  end.

Definition aton_value (parts : list Z) (val : Z) : option Z :=
  match parts with
  | [] => Some val
  | [a] => if 0xffffff <? val then None else Some (Z.lor val (u32 (Z.shiftl a 24)))
  | [a; b] => if 0xffff <? val then None else Some (Z.lor val (Z.lor (u32 (Z.shiftl a 24)) (u32 (Z.shiftl b 16))))
  | [a; b; c] =>
      if 0xff <? val then None
      else Some (Z.lor val (Z.lor (Z.lor (u32 (Z.shiftl a 24)) (u32 (Z.shiftl b 16))) (u32 (Z.shiftl c 8))))
  | _ => Some val
  end.

(** [Some] is the result 1 with the address stored. *)
Definition inet_aton (cp : list Z) : option Z :=
  match aton_parts 3 [] cp with
  | None => None
  | Some (parts, val, cp) =>
      let c := peek cp in
      if negb (c =? 0) && (negb (isprint c) || negb (isspace c)) then None
      else match aton_value parts val with None => None | Some val => Some (htonl val) end
  end.

Definition INADDR_NONE : Z := 0xffffffff.
Definition inet_addr (cp : list Z) : Z :=
  match inet_aton cp with Some a => a | None => INADDR_NONE end.

(** ** Writing an address *)

(** The [do ... while] loop on one byte: the digits in the order they are stored; three
    rounds are enough for a byte. *)
Fixpoint inv_digits (fuel : nat) (b : Z) : list Z :=
  match fuel with
  | O => []
  | S fuel' =>
      let rest := b / 10 in
      (48 + b mod 10) :: (if rest =? 0 then [] else inv_digits fuel' rest)
  end.

Definition byte_text (b : Z) : list Z := rev (inv_digits 3 b).

(** The four bytes with a dot after each, the last dot replaced by the end. *)
Definition s_bytes (a : Z) : list Z :=
  [a mod 256; a / 2 ^ 8 mod 256; a / 2 ^ 16 mod 256; a / 2 ^ 24 mod 256].
Definition inet_ntoa (addr : Z) : list Z :=
  removelast (flat_map (λ b, byte_text b ++ [46]) (s_bytes addr)).

(** ** Byte order *)
Lemma land_field n k w : 0 ≤ k → 0 ≤ w → Z.land n (Z.shiftl (Z.ones w) k) = (n / 2 ^ k) mod 2 ^ w * 2 ^ k.
Proof.
  intros Hk Hw. apply Z.bits_inj'. intros i Hi.
  rewrite Z.land_spec, Z.shiftl_spec by lia. rewrite <- Z.shiftl_mul_pow2, Z.shiftl_spec by lia.
  destruct (Z.lt_ge_cases i k).
  - rewrite !(Z.testbit_neg_r _ (i - k)) by lia. apply andb_false_r.
  - rewrite Z.testbit_ones, Z.testbit_mod_pow2, Z.div_pow2_bits by lia. replace (i - k + k) with i by lia.
    destruct (Z.leb_spec 0 (i - k)); [|lia]. cbn [andb]. destruct (Z.ltb_spec (i - k) w); [|by rewrite andb_false_r].
    by rewrite andb_true_r.
Qed.

Lemma land_byte n k : 0 ≤ k → Z.land n (Z.shiftl 0xff (8 * k)) = (n / 2 ^ (8 * k)) mod 256 * 2 ^ (8 * k).
Proof. intros Hk. apply (land_field n (8 * k) 8); lia. Qed.

Lemma htons_spec n : htons n = n mod 256 * 256 + n / 256 mod 256.
Proof.
  unfold htons. pose proof (land_byte n 0 ltac:(lia)) as E0. pose proof (land_byte n 1 ltac:(lia)) as E1.
  cbn in E0, E1. change (Z.land n 255 = n / 1 mod 256 * 1) in E0. change (Z.land n 0xff00 = n / 256 mod 256 * 256) in E1.
  rewrite E0, E1, Z.div_1_r, Z.mul_1_r. rewrite (Z.shiftr_div_pow2 _ 8) by lia. change (2 ^ 8) with 256.
  rewrite Z.div_mul by lia. apply lor_shiftl_add; [lia|]. apply Z.mod_pos_bound. lia.
Qed.

Lemma lor_add a b n : 0 ≤ n → 0 ≤ b < 2 ^ n → a mod 2 ^ n = 0 → Z.lor a b = a + b.
Proof.
  intros Hn Hb Ha. assert (a = Z.shiftl (a / 2 ^ n) n) as E.
  { rewrite Z.shiftl_mul_pow2 by lia. pose proof (Z.div_mod a (2 ^ n) ltac:(lia)). lia. }
  rewrite E at 1. rewrite lor_shiftl_add by lia. pose proof (Z.div_mod a (2 ^ n) ltac:(lia)). lia.
Qed.

Definition is_byte (b : Z) : Prop := 0 ≤ b < 256.

Lemma lor_bytes a b c d : is_byte a → is_byte b → is_byte c → is_byte d →
  Z.lor (Z.lor (Z.lor (a * 2 ^ 24) (b * 2 ^ 16)) (c * 2 ^ 8)) d = a * 2 ^ 24 + b * 2 ^ 16 + c * 2 ^ 8 + d.
Proof.
  unfold is_byte. intros. rewrite (lor_add (a * 2 ^ 24) _ 24) by (lia || by rewrite Z.mod_mul by lia).
  replace (a * 2 ^ 24 + b * 2 ^ 16) with ((a * 256 + b) * 2 ^ 16) by lia.
  rewrite (lor_add _ (c * 2 ^ 8) 16) by (lia || by rewrite Z.mod_mul by lia).
  replace ((a * 256 + b) * 2 ^ 16 + c * 2 ^ 8) with (((a * 256 + b) * 256 + c) * 2 ^ 8) by lia.
  rewrite (lor_add _ d 8) by (lia || by rewrite Z.mod_mul by lia). lia.
Qed.

Lemma mod_byte n : is_byte (n mod 256).
Proof. apply Z.mod_pos_bound. lia. Qed.

Lemma htonl_spec n : htonl n =
  n mod 256 * 2 ^ 24 + n / 2 ^ 8 mod 256 * 2 ^ 16 + n / 2 ^ 16 mod 256 * 2 ^ 8 + n / 2 ^ 24 mod 256.
Proof.
  unfold htonl. pose proof (land_byte n 0 ltac:(lia)) as E0. pose proof (land_byte n 1 ltac:(lia)) as E1.
  pose proof (land_byte n 2 ltac:(lia)) as E2. pose proof (land_byte n 3 ltac:(lia)) as E3.
  change (Z.land n 255 = n / 1 mod 256 * 1) in E0. change (Z.land n 0xff00 = n / 2 ^ 8 mod 256 * 2 ^ 8) in E1.
  change (Z.land n 0xff0000 = n / 2 ^ 16 mod 256 * 2 ^ 16) in E2. change (Z.land n 0xff000000 = n / 2 ^ 24 mod 256 * 2 ^ 24) in E3.
  rewrite E0, E1, E2, E3, Z.div_1_r, Z.mul_1_r, !Z.shiftl_mul_pow2, !Z.shiftr_div_pow2 by lia.
  replace (n / 2 ^ 16 mod 256 * 2 ^ 16) with (n / 2 ^ 16 mod 256 * 2 ^ 8 * 2 ^ 8) by lia. rewrite !Z.div_mul by lia.
  replace (n / 2 ^ 8 mod 256 * 2 ^ 8 * 2 ^ 8) with (n / 2 ^ 8 mod 256 * 2 ^ 16) by lia.
  apply lor_bytes; apply mod_byte.
Qed.

(** A word is the sum of its bytes. *)
Lemma bytes_of_word a b c d : is_byte a → is_byte b → is_byte c → is_byte d →
  let n := a * 2 ^ 24 + b * 2 ^ 16 + c * 2 ^ 8 + d in
  n mod 256 = d ∧ n / 2 ^ 8 mod 256 = c ∧ n / 2 ^ 16 mod 256 = b ∧ n / 2 ^ 24 mod 256 = a.
Proof.
  intros Ha Hb Hc Hd n. unfold is_byte in *.
  assert (∀ x y, 0 ≤ y < 256 → (x * 256 + y) mod 256 = y ∧ (x * 256 + y) / 256 = x) as H.
  { intros x y Hy. split; [symmetry; apply (Z.mod_unique _ _ x); lia|symmetry; apply (Z.div_unique _ _ _ y); lia]. }
  assert (n = ((a * 256 + b) * 256 + c) * 256 + d) as E by (unfold n; lia).
  assert (n / 2 ^ 8 = (a * 256 + b) * 256 + c) as E1 by (rewrite E; by apply H).
  assert (n / 2 ^ 16 = a * 256 + b) as E2 by (change (2 ^ 16) with (2 ^ 8 * 256); rewrite <- Z.div_div, E1 by lia; by apply H).
  assert (n / 2 ^ 24 = a) as E3 by (change (2 ^ 24) with (2 ^ 16 * 256); rewrite <- Z.div_div, E2 by lia; by apply H).
  rewrite E1, E2, E3. split; [rewrite E; by apply H|]. split; [by apply H|]. split; [by apply H|]. by apply Z.mod_small.
Qed.

Lemma bytes_word n : is_u32 n → n =
  n / 2 ^ 24 mod 256 * 2 ^ 24 + n / 2 ^ 16 mod 256 * 2 ^ 16 + n / 2 ^ 8 mod 256 * 2 ^ 8 + n mod 256.
Proof.
  intros [H1 H2]. change (2 ^ 24) with (2 ^ 8 * (2 ^ 8 * 2 ^ 8)) at 1. change (2 ^ 16) with (2 ^ 8 * 2 ^ 8) at 1.
  rewrite <- !Z.div_div by lia. change (2 ^ 8) with 256. dlia.
Qed.

Lemma htonl_bytes a b c d : is_byte a → is_byte b → is_byte c → is_byte d →
  htonl (a * 2 ^ 24 + b * 2 ^ 16 + c * 2 ^ 8 + d) = d * 2 ^ 24 + c * 2 ^ 16 + b * 2 ^ 8 + a.
Proof. intros Ha Hb Hc Hd. rewrite htonl_spec. by destruct (bytes_of_word a b c d) as (-> & -> & -> & ->). Qed.

(** Swapping twice changes nothing, for words of their width. *)
Lemma htons_ntohs n : 0 ≤ n < 2 ^ 16 → ntohs (htons n) = n.
Proof. intros Hn. unfold ntohs. rewrite !htons_spec. dlia. Qed.

Lemma htonl_ntohl n : is_u32 n → ntohl (htonl n) = n.
Proof.
  intros Hn. unfold ntohl. rewrite (htonl_spec n), htonl_bytes by apply mod_byte. symmetry. by apply bytes_word.
Qed.

Lemma htons_u16 n : 0 ≤ htons n < 2 ^ 16.
Proof. rewrite htons_spec. dlia. Qed.

(** ** Reading back what was written *)
Lemma isdigit_spec d : 0 ≤ d ≤ 9 → isdigit (48 + d) = true.
Proof. intros. unfold isdigit, in_range. apply andb_true_intro. split; apply Z.leb_le; lia. Qed.

Lemma collect_digit base val d cp : 0 ≤ d ≤ 9 → collect base val (48 + d :: cp) = collect base (u32 (val * base + d)) cp.
Proof. intros Hd. cbn [collect]. rewrite isdigit_spec by done. by replace (48 + d - 48) with d by lia. Qed.

(** What may follow a number in the text of an address. *)
Definition ends (cp : list Z) : Prop := isdigit (peek cp) = false ∧ peek cp ≠ 120 ∧ peek cp ≠ 88.

Lemma collect_end base val cp : base ≠ 16 → ends cp → collect base val cp = (val, cp).
Proof.
  intros Hb (He & _). destruct cp as [|c cp]; [done|]. cbn in *. rewrite He. destruct (Z.eqb_spec base 16); [done|]. done.
Qed.

Lemma collect2 x y cp : 0 ≤ x ≤ 9 → 0 ≤ y ≤ 9 → ends cp → collect 10 0 (48 + x :: 48 + y :: cp) = (x * 10 + y, cp).
Proof.
  intros. rewrite !collect_digit, collect_end by done. f_equal.
  rewrite (u32_small (0 * 10 + x)) by (unfold is_u32; lia). by rewrite u32_small by (unfold is_u32; lia).
Qed.

Lemma collect3 x y z cp : 0 ≤ x ≤ 9 → 0 ≤ y ≤ 9 → 0 ≤ z ≤ 9 → ends cp →
  collect 10 0 (48 + x :: 48 + y :: 48 + z :: cp) = ((x * 10 + y) * 10 + z, cp).
Proof.
  intros. rewrite !collect_digit, collect_end by done. f_equal.
  rewrite (u32_small (0 * 10 + x)) by (unfold is_u32; lia). rewrite (u32_small (_ + y)) by (unfold is_u32; lia).
  by rewrite u32_small by (unfold is_u32; lia).
Qed.

Lemma number_byte b cp : 0 ≤ b < 256 → ends cp → number (byte_text b ++ cp) = Some (b, cp).
Proof.
  intros Hb He. unfold byte_text. cbn [inv_digits].
  destruct (Z.eqb_spec (b / 10) 0) as [H1|H1].
  - assert (b mod 10 = b) as -> by dlia. cbn [rev app]. unfold number. cbn [peek hd]. rewrite isdigit_spec by dlia. cbn [negb].
    destruct (Z.eqb_spec (48 + b) 48) as [Hz|Hz]; cbn [tail].
    + assert (b = 0) as -> by lia. destruct He as (H3 & H4 & H5). destruct (Z.eqb_spec (peek cp) 120), (Z.eqb_spec (peek cp) 88); try done.
      cbn [orb]. by rewrite collect_end.
    + rewrite collect_digit, collect_end by (done || dlia). f_equal. f_equal. rewrite u32_small by (unfold is_u32; lia). lia.
  - destruct (Z.eqb_spec (b / 10 / 10) 0) as [H2|H2].
    + cbn [rev app]. unfold number. cbn [peek hd]. rewrite isdigit_spec by dlia. cbn [negb].
      destruct (Z.eqb_spec (48 + (b / 10) mod 10) 48) as [Hz|_]; [dlia|].
      rewrite collect2 by (done || dlia). do 2 f_equal. dlia.
    + assert ((b / 10 / 10 / 10 =? 0) = true) as -> by (apply Z.eqb_eq; dlia). cbn [rev app]. unfold number. cbn [peek hd]. rewrite isdigit_spec by dlia. cbn [negb].
      destruct (Z.eqb_spec (48 + (b / 10 / 10) mod 10) 48) as [Hz|_]; [dlia|].
      rewrite collect3 by (done || dlia). do 2 f_equal. dlia.
Qed.

Lemma removelast_dot (l : list Z) : removelast (l ++ [46]) = l.
Proof. apply removelast_last. Qed.

Lemma ntoa_text a : inet_ntoa a =
  byte_text (a mod 256) ++ 46 :: byte_text (a / 2 ^ 8 mod 256) ++ 46 :: byte_text (a / 2 ^ 16 mod 256) ++
    46 :: byte_text (a / 2 ^ 24 mod 256).
Proof.
  unfold inet_ntoa, s_bytes. cbn [flat_map]. rewrite !app_nil_r, !app_assoc, removelast_dot.
  by rewrite <- !app_assoc.
Qed.

(** Every address comes back from its text: [inet_aton] of what [inet_ntoa] writes
    gives the address, which takes at most the 16 bytes of the buffer. *)
Theorem ntoa_aton a : is_u32 a → inet_aton (inet_ntoa a) = Some a ∧ (length (inet_ntoa a) < 16)%nat.
Proof.
  intros Ha. rewrite ntoa_text. split.
  - unfold inet_aton. pose proof (Z.mod_pos_bound a 256 ltac:(lia)). pose proof (Z.mod_pos_bound (a / 2 ^ 8) 256 ltac:(lia)).
    pose proof (Z.mod_pos_bound (a / 2 ^ 16) 256 ltac:(lia)). pose proof (Z.mod_pos_bound (a / 2 ^ 24) 256 ltac:(lia)).
    do 3 (cbn [aton_parts]; rewrite number_byte; [|done|done]; cbn [peek hd tail]; change (46 =? 46) with true; cbn match).
    cbn [aton_parts]. rewrite <- (app_nil_r (byte_text (a / 2 ^ 24 mod 256))), number_byte by done. cbn -[aton_value htonl].
    unfold aton_value. destruct (Z.ltb_spec 255 (a / 2 ^ 24 mod 256)); [lia|]. f_equal.
    rewrite !Z.shiftl_mul_pow2, !u32_small by (unfold is_u32; lia).
    rewrite (Z.lor_comm (a / 2 ^ 24 mod 256)), lor_bytes, htonl_bytes by apply mod_byte. symmetry. by apply bytes_word.
  - assert (∀ b, (length (byte_text b) ≤ 3)%nat) as Hl.
    { intros b. unfold byte_text. rewrite length_rev. cbn. repeat (destruct (_ =? _); cbn; try lia). }
    rewrite !length_app. cbn [length]. rewrite !length_app. cbn [length]. rewrite length_app. cbn [length].
    pose proof (Hl (a mod 256)). pose proof (Hl (a / 2 ^ 8 mod 256)). pose proof (Hl (a / 2 ^ 16 mod 256)).
    pose proof (Hl (a / 2 ^ 24 mod 256)). lia.
Qed.

Lemma ntoa_aton_witness : inet_ntoa 0x0100007f = [49; 50; 55; 46; 48; 46; 48; 46; 49] ∧ inet_aton (inet_ntoa 0x0100007f) = Some 0x0100007f.
Proof. split; [vm_compute; reflexivity|]. apply (ntoa_aton 0x0100007f). split; lia. Defined.

(** Only the last part is compared with its range: 256.1.1.1 is taken for 0.1.1.1. *)
Lemma aton_part_unchecked : inet_aton [50; 53; 54; 46; 49; 46; 49; 46; 49] = inet_aton [48; 46; 49; 46; 49; 46; 49].
Proof. vm_compute. reflexivity. Qed.

(** An octal number may have the digits 8 and 9, and a hexadecimal one none. *)
Lemma aton_bad_numbers : inet_aton [48; 57] = Some (htonl 9) ∧ inet_aton [48; 120] = Some 0.
Proof. vm_compute. done. Qed.
