(* ===== verification/Chksum.v ===== *)
(** * The Internet checksum: [net/lwip/core/ipv4/inet_chksum.c]

    Memory is a function from addresses to bytes.  The three versions of
    [lwip_standard_chksum], of which the configuration chooses the first, and the sums
    over chains of buffers.  The reference is the sum in one's complement: the data, read
    as one little-endian number, modulo 65535, where only zero data has the sum 0. *)

From stdpp Require Import base list.
From Stdlib Require Import ZArith Lia Znumtheory Zpow_facts.
From S2P Require Import Prelude Inet.

Definition SWAP_BYTES_IN_WORD (w : Z) : Z :=
  Z.lor (Z.shiftl (Z.land w 0xff) 8) (Z.shiftr (Z.land w 0xff00) 8).
Definition FOLD_U32T (u : Z) : Z := Z.shiftr u 16 + Z.land u 0xffff.

(** Loads, at any alignment. *)
Definition ld16 (m : Z → Z) (p : Z) : Z := m p + 256 * m (p + 1).
Definition ld32 (m : Z → Z) (p : Z) : Z := ld16 m p + 2 ^ 16 * ld16 m (p + 2).

(** ** Version 1: two bytes at a time, the first one the most significant *)
Fixpoint sum_octets (fuel : nat) (m : Z → Z) (octetptr len acc : Z) : Z * Z * Z :=
  match fuel with
  | O => (octetptr, len, acc)
  | S fuel' =>
      if 1 <? len then
        let src := Z.lor (Z.shiftl (m octetptr) 8) (m (octetptr + 1)) in
        sum_octets fuel' m (octetptr + 2) (len - 2) (u32 (acc + src))
      else (octetptr, len, acc)
  end.

Definition lwip_standard_chksum (m : Z → Z) (dataptr len : Z) : Z :=
  let '(octetptr, len, acc) := sum_octets (Z.to_nat len) m dataptr len 0 in
  let acc := if 0 <? len then u32 (acc + Z.shiftl (m octetptr) 8) else acc in
  let acc := FOLD_U32T acc in
  let acc := if ctrue (Z.land acc 0xffff0000) then FOLD_U32T acc else acc in
  htons (u16 acc).

(** ** Version 2: aligned words *)
Fixpoint sum_words (fuel : nat) (m : Z → Z) (ps len sum : Z) : Z * Z * Z :=
  match fuel with
  | O => (ps, len, sum)
  | S fuel' => if 1 <? len then sum_words fuel' m (ps + 2) (len - 2) (u32 (sum + ld16 m ps)) else (ps, len, sum)
  end.

Definition chksum_2 (m : Z → Z) (dataptr len : Z) : Z :=
  let odd := Z.land dataptr 1 in
  let '(pb, len, t) := if ctrue odd && (0 <? len) then (dataptr + 1, len - 1, Z.shiftl (m dataptr) 8) else (dataptr, len, 0) in
  let '(ps, len, sum) := sum_words (Z.to_nat len) m pb len 0 in
  let t := if 0 <? len then Z.lor (Z.land t 0xff00) (m ps) else t in
  let sum := u32 (sum + t) in
  let sum := FOLD_U32T sum in
  let sum := FOLD_U32T sum in
  let sum := if ctrue odd then SWAP_BYTES_IN_WORD sum else sum in
  u16 sum.

(** ** Version 3: eight bytes at a time, with the carry added back *)
Definition add_carry (sum x : Z) : Z :=
  let tmp := u32 (sum + x) in if tmp <? sum then u32 (tmp + 1) else tmp.

Fixpoint sum_longs (fuel : nat) (m : Z → Z) (pl len sum : Z) : Z * Z * Z :=
  match fuel with
  | O => (pl, len, sum)
  | S fuel' =>
      if 7 <? len then
        let tmp := add_carry sum (ld32 m pl) in
        let sum := add_carry tmp (ld32 m (pl + 4)) in
        sum_longs fuel' m (pl + 8) (len - 8) sum
      else (pl, len, sum)
  end.

Definition chksum_3 (m : Z → Z) (dataptr len : Z) : Z :=
  let odd := Z.land dataptr 1 in
  let '(pb, len, t) := if ctrue odd && (0 <? len) then (dataptr + 1, len - 1, Z.shiftl (m dataptr) 8) else (dataptr, len, 0) in
  let '(ps, len, sum) := if ctrue (Z.land pb 3) && (1 <? len) then (pb + 2, len - 2, u32 (0 + ld16 m pb)) else (pb, len, 0) in
  let '(pl, len, sum) := sum_longs (Z.to_nat len) m ps len sum in
  let sum := FOLD_U32T sum in
  let '(ps, len, sum) := sum_words (Z.to_nat len) m pl len sum in
  let t := if 0 <? len then Z.lor (Z.land t 0xff00) (m ps) else t in
  let sum := u32 (sum + t) in
  let sum := FOLD_U32T sum in
  let sum := FOLD_U32T sum in
  let sum := if ctrue odd then SWAP_BYTES_IN_WORD sum else sum in
  u16 sum.

(** ** Chains of buffers: payload and length of each *)
Record seg := MkSeg { payload : Z; len : Z }.

Definition not16 (x : Z) : Z := u16 (Z.lnot x).

Fixpoint sum_chain (m : Z → Z) (q : list seg) (acc swapped : Z) : Z * Z :=
  match q with
  | [] => (acc, swapped)
  | s :: q' =>
      let acc := u32 (acc + lwip_standard_chksum m (payload s) (len s)) in
      let acc := FOLD_U32T acc in
      if ctrue (len s mod 2) then sum_chain m q' (SWAP_BYTES_IN_WORD acc) (1 - swapped)
      else sum_chain m q' acc swapped
  end.

Definition inet_chksum (m : Z → Z) (dataptr len : Z) : Z := not16 (lwip_standard_chksum m dataptr len).

Definition inet_chksum_pbuf (m : Z → Z) (p : list seg) : Z :=
  let '(acc, swapped) := sum_chain m p 0 0 in
  let acc := if ctrue swapped then SWAP_BYTES_IN_WORD acc else acc in
  not16 (Z.land acc 0xffff).

(** The words of the pseudo header. *)
Definition add_pseudo (acc src dest proto proto_len : Z) : Z :=
  let acc := u32 (acc + Z.land src 0xffff) in
  let acc := u32 (acc + Z.land (Z.shiftr src 16) 0xffff) in
  let acc := u32 (acc + Z.land dest 0xffff) in
  let acc := u32 (acc + Z.land (Z.shiftr dest 16) 0xffff) in
  let acc := u32 (acc + htons proto) in
  u32 (acc + htons proto_len).

Definition pseudo_end (acc src dest proto proto_len : Z) : Z :=
  let acc := add_pseudo acc src dest proto proto_len in
  let acc := FOLD_U32T acc in
  let acc := FOLD_U32T acc in
  not16 (Z.land acc 0xffff).

Definition inet_chksum_pseudo (m : Z → Z) (p : list seg) (src dest proto proto_len : Z) : Z :=
  let '(acc, swapped) := sum_chain m p 0 0 in
  let acc := if ctrue swapped then SWAP_BYTES_IN_WORD acc else acc in
  pseudo_end acc src dest proto proto_len.

(** [None]: the assertion on what is left fails. *)
Fixpoint sum_partial (m : Z → Z) (q : list seg) (chksum_len acc swapped : Z) : option (Z * Z) :=
  match q with
  | [] => Some (acc, swapped)
  | s :: q' =>
      if chksum_len <=? 0 then Some (acc, swapped) else
      let chklen := if chksum_len <? len s then chksum_len else len s in
      let acc := u32 (acc + lwip_standard_chksum m (payload s) chklen) in
      let chksum_len := u16 (chksum_len - chklen) in
      if 0x7fff <=? chksum_len then None else
      let acc := FOLD_U32T acc in
      if ctrue (len s mod 2) then sum_partial m q' chksum_len (SWAP_BYTES_IN_WORD acc) (1 - swapped)
      else sum_partial m q' chksum_len acc swapped
  end.

Definition inet_chksum_pseudo_partial (m : Z → Z) (p : list seg) (src dest proto proto_len chksum_len : Z) : option Z :=
  match sum_partial m p chksum_len 0 0 with
  | None => None
  | Some (acc, swapped) =>
      let acc := if ctrue swapped then SWAP_BYTES_IN_WORD acc else acc in
      Some (pseudo_end acc src dest proto proto_len)
  end.

(** ** The reference *)

(** The [n] bytes from [p] on as a little-endian number. *)
Fixpoint number_at (m : Z → Z) (p : Z) (n : nat) : Z :=
  match n with O => 0 | S n' => m p + 256 * number_at m (p + 1) n' end.

(** The representative of a sum in one's complement. *)
Definition ones (x : Z) : Z := if x =? 0 then 0 else (x - 1) mod 65535 + 1.
Definition internet_sum (m : Z → Z) (p len : Z) : Z := ones (number_at m p (Z.to_nat len)).

(** ** Sums in one's complement *)
Definition sim (x y : Z) : Prop := 0 ≤ x ∧ 0 ≤ y ∧ (x = 0 ↔ y = 0) ∧ ∃ k, x = y + 65535 * k.

Lemma sim_refl x : 0 ≤ x → sim x x.
Proof. intros. split; [done|]. split; [done|]. split; [done|]. exists 0. lia. Qed.

Lemma sim_sym x y : sim x y → sim y x.
Proof. intros (? & ? & ? & k & ?). split; [done|]. split; [done|]. split; [lia|]. exists (- k). lia. Qed.

Lemma sim_trans x y z : sim x y → sim y z → sim x z.
Proof. intros (? & ? & ? & k & ?) (? & ? & ? & l & ?). split; [done|]. split; [done|]. split; [lia|]. exists (k + l). lia. Qed.

Lemma sim_add x y x' y' : sim x x' → sim y y' → sim (x + y) (x' + y').
Proof. intros (? & ? & ? & k & ?) (? & ? & ? & l & ?). split; [lia|]. split; [lia|]. split; [lia|]. exists (k + l). lia. Qed.

Lemma sim_mul x y c : 0 < c → sim x y → sim (c * x) (c * y).
Proof. intros ? (? & ? & ? & k & ?). split; [lia|]. split; [lia|]. split; [nia|]. exists (c * k). lia. Qed.

Lemma sim_rot x : 0 ≤ x → sim (65536 * x) x.
Proof. intros. split; [lia|]. split; [lia|]. split; [lia|]. exists x. lia. Qed.

Lemma ones_range x : 0 ≤ ones x ≤ 65535.
Proof. unfold ones. destruct (x =? 0); [lia|]. pose proof (Z.mod_pos_bound (x - 1) 65535 ltac:(lia)). lia. Qed.

Lemma ones_small v : 0 ≤ v ≤ 65535 → ones v = v.
Proof. intros. unfold ones. destruct (Z.eqb_spec v 0); [done|]. rewrite Z.mod_small; lia. Qed.

Lemma ones_sim x y : sim x y → ones x = ones y.
Proof.
  intros (Hx & Hy & Hz & k & ->). unfold ones. destruct (Z.eqb_spec (y + 65535 * k) 0), (Z.eqb_spec y 0); try tauto.
  f_equal. replace (y + 65535 * k - 1) with (y - 1 + k * 65535) by lia. by rewrite Z.mod_add by lia.
Qed.

Lemma sim_ones x : 0 ≤ x → sim (ones x) x.
Proof.
  intros Hx. pose proof (ones_range x). unfold ones in *. destruct (Z.eqb_spec x 0); [subst; by apply sim_refl|].
  split; [lia|]. split; [lia|]. pose proof (Z.mod_pos_bound (x - 1) 65535 ltac:(lia)). split; [lia|].
  exists (- ((x - 1) / 65535)). pose proof (Z.div_mod (x - 1) 65535 ltac:(lia)). lia.
Qed.

Lemma ones_eq v x : 0 ≤ v ≤ 65535 → sim v x → v = ones x.
Proof. intros Hv Hs. rewrite <- (ones_small v Hv). by apply ones_sim. Qed.

Lemma fold_spec u : FOLD_U32T u = u / 65536 + u mod 65536.
Proof.
  unfold FOLD_U32T. rewrite Z.shiftr_div_pow2 by lia. change 0xffff with (Z.ones 16). by rewrite Z.land_ones by lia.
Qed.

Lemma fold_sim u : 0 ≤ u → sim (FOLD_U32T u) u.
Proof.
  intros. rewrite fold_spec. pose proof (Z.div_mod u 65536 ltac:(lia)). pose proof (Z.mod_pos_bound u 65536 ltac:(lia)).
  assert (0 ≤ u / 65536) by (apply Z.div_pos; lia). split; [lia|]. split; [lia|]. split; [lia|]. exists (- (u / 65536)). lia.
Qed.

Lemma fold_small u : 0 ≤ u ≤ 65535 → FOLD_U32T u = u.
Proof. intros. rewrite fold_spec, Z.div_small, Z.mod_small; lia. Qed.

(** One step is enough for two words, two for 32 bits. *)
Lemma fold_once u : 0 ≤ u ≤ 2 * 65535 → FOLD_U32T u = ones u.
Proof.
  intros. apply ones_eq; [|apply fold_sim; lia]. rewrite fold_spec. dlia.
Qed.

Lemma fold_range u : 0 ≤ u < 2 ^ 32 → 0 ≤ FOLD_U32T u ≤ 2 * 65535.
Proof. intros. rewrite fold_spec. dlia. Qed.

Lemma fold_twice u : 0 ≤ u < 2 ^ 32 → FOLD_U32T (FOLD_U32T u) = ones u.
Proof. intros. rewrite fold_once by (by apply fold_range). apply ones_sim, fold_sim. lia. Qed.

Lemma swap_htons v : SWAP_BYTES_IN_WORD v = htons v.
Proof. reflexivity. Qed.

(** Swapping the bytes of a word is a multiplication by 256. *)
Lemma htons_ones v : 0 ≤ v ≤ 65535 → htons v = ones (256 * v).
Proof.
  intros Hv. apply ones_eq; [pose proof (htons_u16 v); lia|]. rewrite htons_spec.
  pose proof (Z.div_mod v 256 ltac:(lia)). pose proof (Z.mod_pos_bound v 256 ltac:(lia)).
  assert (0 ≤ v / 256 < 256) by dlia. rewrite (Z.mod_small (v / 256)) by lia.
  split; [lia|]. split; [lia|]. split; [lia|]. exists (- (v / 256)). lia.
Qed.

Lemma htons_ones_sim v x : 0 ≤ v ≤ 65535 → sim v x → htons v = ones (256 * x).
Proof. intros Hv Hs. rewrite htons_ones by done. apply ones_sim. by apply sim_mul. Qed.

Lemma not16_spec v : 0 ≤ v ≤ 65535 → not16 v = 65535 - v.
Proof. intros. unfold not16, Z.lnot, u16. change (2 ^ 16) with 65536. dlia. Qed.

(** ** The loops *)
Section loops.
Context (m : Z → Z) (Hm : ∀ a, is_byte (m a)).

Lemma number_nonneg n : ∀ p, 0 ≤ number_at m p n.
Proof. induction n as [|n IH]; intros p; cbn; [lia|]. pose proof (Hm p). unfold is_byte in *. specialize (IH (p + 1)). lia. Qed.

Lemma number_two p n : number_at m p (S (S n)) = m p + 256 * m (p + 1) + 65536 * number_at m (p + 2) n.
Proof. cbn [number_at]. replace (p + 1 + 1) with (p + 2) by lia. lia. Qed.

Lemma number_app n1 n2 : ∀ p, number_at m p (n1 + n2) = number_at m p n1 + 256 ^ Z.of_nat n1 * number_at m (p + Z.of_nat n1) n2.
Proof.
  induction n1 as [|n1 IH]; intros p; [cbn [number_at Nat.add]; change (256 ^ Z.of_nat 0) with 1; rewrite Z.add_0_r; lia|].
  cbn [number_at Nat.add]. rewrite IH. replace (p + 1 + Z.of_nat n1) with (p + Z.of_nat (S n1)) by lia.
  rewrite Nat2Z.inj_succ, Z.pow_succ_r by lia. ring.
Qed.

Definition tail_byte (w ps l : Z) : Z := if 0 <? l then w * m ps else 0.

Lemma sum_words_ok fuel : ∀ p l sum, 0 ≤ l → (Z.to_nat l ≤ fuel)%nat → 0 ≤ sum → sum + 65535 * (l / 2) < 2 ^ 32 →
  let '(ps, l', s) := sum_words fuel m p l sum in
  0 ≤ l' ≤ 1 ∧ sum ≤ s ≤ sum + 65535 * (l / 2) ∧ sim (s - sum + tail_byte 1 ps l') (number_at m p (Z.to_nat l)).
Proof.
  induction fuel as [|fuel IH]; intros p l sum Hl Hf Hs Hb.
  { assert (l = 0) as -> by lia. cbn [sum_words]. change (0 / 2) with 0. unfold tail_byte. change (0 <? 0) with false.
    split; [lia|]. split; [lia|]. replace (sum - sum + 0) with 0 by lia. by apply sim_refl. }
  cbn [sum_words]. destruct (Z.ltb_spec 1 l) as [H1|H1].
  - pose proof (Hm p) as H2. pose proof (Hm (p + 1)) as H3. unfold is_byte in *. unfold ld16.
    assert (l / 2 = (l - 2) / 2 + 1) as El by dlia. assert (0 ≤ (l - 2) / 2) by dlia.
    rewrite u32_small by (unfold is_u32; lia).
    specialize (IH (p + 2) (l - 2) (sum + (m p + 256 * m (p + 1))) ltac:(lia) ltac:(lia) ltac:(lia) ltac:(lia)).
    destruct (sum_words _ _ _ _ _) as [[ps l'] s]. destruct IH as (I1 & I2 & I3). split; [done|]. split; [lia|].
    replace (Z.to_nat l) with (S (S (Z.to_nat (l - 2)))) by lia. rewrite number_two.
    pose proof (number_nonneg (Z.to_nat (l - 2)) (p + 2)) as I4.
    replace (s - sum + tail_byte 1 ps l') with (m p + 256 * m (p + 1) + (s - (sum + (m p + 256 * m (p + 1))) + tail_byte 1 ps l')) by lia.
    apply sim_add; [apply sim_refl; lia|]. eapply sim_trans; [exact I3|]. by apply sim_sym, sim_rot.
  - split; [lia|]. assert (l / 2 = 0) by dlia. split; [lia|]. replace (sum - sum) with 0 by lia. unfold tail_byte.
    destruct (Z.ltb_spec 0 l); [replace l with 1 by lia|replace l with 0 by lia; by apply sim_refl].
    change (Z.to_nat 1) with 1%nat. cbn [number_at]. pose proof (Hm p). unfold is_byte in *.
    replace (0 + 1 * m p) with (m p + 256 * 0) by lia. apply sim_refl. lia.
Qed.

Lemma sum_octets_ok fuel : ∀ p l acc, 0 ≤ l → (Z.to_nat l ≤ fuel)%nat → 0 ≤ acc → acc + 65535 * (l / 2) < 2 ^ 32 →
  let '(q, l', s) := sum_octets fuel m p l acc in
  0 ≤ l' ≤ 1 ∧ acc ≤ s ≤ acc + 65535 * (l / 2) ∧ sim (s - acc + tail_byte 256 q l') (256 * number_at m p (Z.to_nat l)).
Proof.
  induction fuel as [|fuel IH]; intros p l acc Hl Hf Hs Hb.
  { assert (l = 0) as -> by lia. cbn [sum_octets]. change (0 / 2) with 0. unfold tail_byte. change (0 <? 0) with false.
    split; [lia|]. split; [lia|]. replace (acc - acc + 0) with 0 by lia. by apply sim_refl. }
  cbn [sum_octets]. destruct (Z.ltb_spec 1 l) as [H1|H1].
  - pose proof (Hm p) as H2. pose proof (Hm (p + 1)) as H3. unfold is_byte in *.
    rewrite lor_shiftl_add by lia. change (2 ^ 8) with 256.
    assert (l / 2 = (l - 2) / 2 + 1) as El by dlia. assert (0 ≤ (l - 2) / 2) by dlia.
    rewrite u32_small by (unfold is_u32; lia).
    specialize (IH (p + 2) (l - 2) (acc + (m p * 256 + m (p + 1))) ltac:(lia) ltac:(lia) ltac:(lia) ltac:(lia)).
    destruct (sum_octets _ _ _ _ _) as [[q l'] s]. destruct IH as (I1 & I2 & I3). split; [done|]. split; [lia|].
    replace (Z.to_nat l) with (S (S (Z.to_nat (l - 2)))) by lia. rewrite number_two.
    pose proof (number_nonneg (Z.to_nat (l - 2)) (p + 2)) as I4.
    replace (s - acc + tail_byte 256 q l') with (m p * 256 + (m (p + 1) + (s - (acc + (m p * 256 + m (p + 1))) + tail_byte 256 q l'))) by lia.
    replace (256 * _) with (m p * 256 + (65536 * m (p + 1) + 65536 * (256 * number_at m (p + 2) (Z.to_nat (l - 2))))) by lia.
    apply sim_add; [apply sim_refl; lia|]. apply sim_add; [apply sim_sym, sim_rot; lia|].
    eapply sim_trans; [exact I3|]. apply sim_sym, sim_rot. lia.
  - split; [lia|]. assert (l / 2 = 0) by dlia. split; [lia|]. replace (acc - acc) with 0 by lia. unfold tail_byte.
    destruct (Z.ltb_spec 0 l); [replace l with 1 by lia|replace l with 0 by lia; by apply sim_refl].
    change (Z.to_nat 1) with 1%nat. cbn [number_at]. pose proof (Hm p). unfold is_byte in *.
    replace (256 * (m p + 256 * 0)) with (256 * m p) by lia. apply sim_refl. lia.
Qed.

Lemma add_carry_sim s x : 0 ≤ s < 2 ^ 32 → 0 ≤ x < 2 ^ 32 → 0 ≤ add_carry s x < 2 ^ 32 ∧ sim (add_carry s x) (s + x).
Proof.
  intros Hs Hx. unfold add_carry. destruct (Z.lt_ge_cases (s + x) (2 ^ 32)) as [H|H].
  - rewrite u32_small by (unfold is_u32; lia). destruct (Z.ltb_spec (s + x) s); [lia|]. split; [lia|]. apply sim_refl. lia.
  - assert (u32 (s + x) = s + x - 2 ^ 32) as -> by (unfold u32; symmetry; apply (Z.mod_unique _ _ 1); lia).
    destruct (Z.ltb_spec (s + x - 2 ^ 32) s); [|lia]. rewrite u32_small by (unfold is_u32; lia). split; [lia|].
    split; [lia|]. split; [lia|]. split; [lia|]. exists (- 65537). lia.
Qed.

Lemma ld32_number p n : number_at m p (4 + n) = ld32 m p + 2 ^ 32 * number_at m (p + 4) n.
Proof.
  change (4 + n)%nat with (S (S (S (S n)))). rewrite !number_two. unfold ld32, ld16.
  replace (p + 2 + 1) with (p + 2 + 1) by lia. replace (p + 2 + 2) with (p + 4) by lia. lia.
Qed.

Lemma ld32_range p : 0 ≤ ld32 m p < 2 ^ 32.
Proof.
  unfold ld32, ld16. pose proof (Hm p). pose proof (Hm (p + 1)). pose proof (Hm (p + 2)). pose proof (Hm (p + 2 + 1)).
  unfold is_byte in *. lia.
Qed.

Lemma sim_rot32 x : 0 ≤ x → sim (2 ^ 32 * x) x.
Proof. intros. split; [lia|]. split; [lia|]. split; [lia|]. exists (65537 * x). lia. Qed.

Lemma sum_longs_ok fuel : ∀ p l sum, 0 ≤ l → (Z.to_nat l ≤ fuel)%nat → 0 ≤ sum < 2 ^ 32 →
  let '(q, l', s) := sum_longs fuel m p l sum in
  0 ≤ l' ≤ 7 ∧ 0 ≤ s < 2 ^ 32 ∧ sim (s + number_at m q (Z.to_nat l')) (sum + number_at m p (Z.to_nat l)).
Proof.
  induction fuel as [|fuel IH]; intros p l sum Hl Hf Hs.
  { cbn [sum_longs]. split; [lia|]. split; [done|]. apply sim_refl. pose proof (number_nonneg (Z.to_nat l) p). lia. }
  cbn [sum_longs]. pose proof (number_nonneg (Z.to_nat l) p) as Hn.
  destruct (Z.ltb_spec 7 l) as [H1|H1]; [|split; [lia|]; split; [done|]; apply sim_refl; lia].
  destruct (add_carry_sim sum (ld32 m p) Hs (ld32_range p)) as [R1 S1].
  destruct (add_carry_sim _ (ld32 m (p + 4)) R1 (ld32_range (p + 4))) as [R2 S2].
  specialize (IH (p + 8) (l - 8) _ ltac:(lia) ltac:(lia) R2). destruct (sum_longs _ _ _ _ _) as [[q l'] s].
  destruct IH as (I1 & I2 & I3). split; [done|]. split; [done|]. eapply sim_trans; [exact I3|].
  pose proof (number_nonneg (Z.to_nat (l - 8)) (p + 8)) as Hn8. pose proof (ld32_range p). pose proof (ld32_range (p + 4)).
  replace (Z.to_nat l) with (4 + (4 + Z.to_nat (l - 8)))%nat by lia. rewrite !ld32_number. replace (p + 4 + 4) with (p + 8) by lia.
  eapply sim_trans; [apply sim_add; [exact S2|apply sim_refl; lia]|].
  replace (sum + (ld32 m p + 2 ^ 32 * (ld32 m (p + 4) + 2 ^ 32 * number_at m (p + 8) (Z.to_nat (l - 8)))))
    with (sum + ld32 m p + 2 ^ 32 * ld32 m (p + 4) + 2 ^ 32 * (2 ^ 32 * number_at m (p + 8) (Z.to_nat (l - 8)))) by lia.
  apply sim_add; [apply sim_add; [exact S1|apply sim_sym, sim_rot32; lia]|].
  apply sim_sym. eapply sim_trans; apply sim_rot32; lia.
Qed.

(** ** The three versions *)
Lemma high_bits a : 0 ≤ a < 2 ^ 32 → ctrue (Z.land a 0xffff0000) = (65536 <=? a).
Proof.
  intros Ha. change 0xffff0000 with (Z.shiftl (Z.ones 16) 16). rewrite land_field by lia. change (2 ^ 16) with 65536.
  unfold ctrue. destruct (Z.leb_spec 65536 a).
  - apply negb_true_iff, Z.eqb_neq. rewrite (Z.mod_small (a / 65536)) by dlia. dlia.
  - rewrite Z.div_small by lia. done.
Qed.

Lemma fold_if a : 0 ≤ a ≤ 2 * 65535 → (if ctrue (Z.land a 0xffff0000) then FOLD_U32T a else a) = ones a.
Proof.
  intros. rewrite high_bits by lia. destruct (Z.leb_spec 65536 a); [by apply fold_once|]. symmetry. apply ones_small. lia.
Qed.

Lemma chksum_1_ok p l : 0 ≤ l ≤ 65535 → lwip_standard_chksum m p l = internet_sum m p l.
Proof.
  intros Hl. unfold lwip_standard_chksum. pose proof (sum_octets_ok (Z.to_nat l) p l 0 ltac:(lia) ltac:(lia) ltac:(lia) ltac:(dlia)) as H.
  destruct (sum_octets _ _ _ _ _) as [[q l'] s]. destruct H as (H1 & H2 & H3). assert (l / 2 ≤ 32767) by dlia.
  set (acc := if 0 <? l' then u32 (s + Z.shiftl (m q) 8) else s).
  assert (acc = s - 0 + tail_byte 256 q l') as Ea.
  { unfold acc, tail_byte. pose proof (Hm q). unfold is_byte in *. destruct (0 <? l'); [|lia].
    rewrite Z.shiftl_mul_pow2, u32_small by (unfold is_u32; lia). lia. }
  assert (0 ≤ acc < 2 ^ 32) as Hr by (pose proof (Hm q); unfold is_byte, tail_byte in *; destruct (0 <? l'); lia).
  rewrite <- Ea in H3. clearbody acc.
  rewrite fold_if by (by apply fold_range). pose proof (ones_range (FOLD_U32T acc)).
  unfold u16. rewrite Z.mod_small by lia. pose proof (number_nonneg (Z.to_nat l) p).
  rewrite (htons_ones_sim _ (256 * number_at m p (Z.to_nat l))); [|lia|].
  - unfold internet_sum. apply ones_sim. replace (256 * (256 * number_at m p (Z.to_nat l))) with (65536 * number_at m p (Z.to_nat l)) by lia.
    by apply sim_rot.
  - pose proof (fold_range acc Hr). eapply sim_trans; [apply sim_ones; lia|]. eapply sim_trans; [apply fold_sim; lia|]. done.
Qed.

(** The end of versions 2 and 3. *)
Lemma end_bytes b ps l : is_byte b → (if 0 <? l then Z.lor (Z.land (b * 256) 0xff00) (m ps) else b * 256) = b * 256 + tail_byte 1 ps l.
Proof.
  intros Hb. unfold tail_byte, is_byte in *. destruct (0 <? l); [|lia]. pose proof (land_byte (b * 256) 1 ltac:(lia)) as E.
  change (Z.land (b * 256) 0xff00 = b * 256 / 256 mod 256 * 256) in E. rewrite E, Z.div_mul, Z.mod_small by lia.
  pose proof (Hm ps). unfold is_byte in *. rewrite (lor_add (b * 256) (m ps) 8); [lia|lia|lia|]. apply Z.mod_mul. lia.
Qed.

Lemma finish odd s x : 0 ≤ s < 2 ^ 32 → sim s x →
  u16 (if ctrue odd then SWAP_BYTES_IN_WORD (FOLD_U32T (FOLD_U32T (u32 s))) else FOLD_U32T (FOLD_U32T (u32 s))) =
    if ctrue odd then ones (256 * x) else ones x.
Proof.
  intros Hs Hx. rewrite u32_small, fold_twice by done. pose proof (ones_range s) as Hr. destruct (ctrue odd).
  - rewrite swap_htons, (htons_ones_sim _ x Hr); [|eapply sim_trans; [apply sim_ones; lia|done]].
    apply Z.mod_small. pose proof (ones_range (256 * x)). lia.
  - unfold u16. rewrite Z.mod_small by lia. by apply ones_sim.
Qed.

(** The byte at an odd address comes first, and then the aligned ones. *)
Lemma number_odd p l : 0 < l → sim (256 * (m p * 256 + number_at m (p + 1) (Z.to_nat (l - 1)))) (number_at m p (Z.to_nat l)).
Proof.
  intros Hl. replace (Z.to_nat l) with (S (Z.to_nat (l - 1))) by lia. cbn [number_at]. pose proof (Hm p). unfold is_byte in *.
  pose proof (number_nonneg (Z.to_nat (l - 1)) (p + 1)).
  replace (256 * _) with (65536 * m p + 256 * number_at m (p + 1) (Z.to_nat (l - 1))) by lia.
  apply sim_add; [apply sim_rot; lia|apply sim_refl; lia].
Qed.

(** Summing the words from [pb] on, with [b] at the odd address before, gives the sum of
    all the data. *)
Lemma words_end odd p l pb lb b sum x :
  (if ctrue odd && (0 <? l) then (p + 1, l - 1, Z.shiftl (m p) 8) else (p, l, 0)) = (pb, lb, b * 256) → 0 ≤ l →
  0 ≤ sum < 2 ^ 32 → sim sum (b * 256 + number_at m pb (Z.to_nat lb)) →
  u16 (if ctrue odd then SWAP_BYTES_IN_WORD (FOLD_U32T (FOLD_U32T (u32 sum))) else FOLD_U32T (FOLD_U32T (u32 sum))) = x →
  x = internet_sum m p l.
Proof.
  intros E Hl Hs Hx <-. rewrite (finish _ _ _ Hs Hx). unfold internet_sum. destruct (ctrue odd); cbn [andb] in E.
  - destruct (Z.ltb_spec 0 l).
    + injection E as <- <- Eb. rewrite Z.shiftl_mul_pow2 in Eb by lia. assert (b = m p) as -> by lia. by apply ones_sim, number_odd.
    + injection E as <- <- Eb. assert (l = 0) as -> by lia. assert (b = 0) as -> by lia. done.
  - injection E as <- <- Eb. assert (b = 0) as -> by lia. done.
Qed.

Lemma first_byte odd p l : ∃ pb lb b, (if ctrue odd && (0 <? l) then (p + 1, l - 1, Z.shiftl (m p) 8) else (p, l, 0)) = (pb, lb, b * 256) ∧
  is_byte b ∧ (0 ≤ l → 0 ≤ lb ≤ l).
Proof.
  destruct (ctrue odd && (0 <? l)) eqn:E.
  - apply andb_prop in E as [_ E]. zbool. exists (p + 1), (l - 1), (m p). rewrite Z.shiftl_mul_pow2 by lia.
    split; [done|]. split; [apply Hm|lia].
  - exists p, l, 0. split; [done|]. split; [unfold is_byte; lia|lia].
Qed.

Lemma chksum_2_ok p l : 0 ≤ l ≤ 0x20000 → chksum_2 m p l = internet_sum m p l.
Proof.
  intros Hl. unfold chksum_2. set (odd := Z.land p 1). destruct (first_byte odd p l) as (pb & lb & b & E & Hb & Hlb).
  specialize (Hlb ltac:(lia)). rewrite E. assert (lb / 2 ≤ 65536 ∧ 0 ≤ lb / 2) as Hd by dlia.
  pose proof (sum_words_ok (Z.to_nat lb) pb lb 0 ltac:(lia) ltac:(lia) ltac:(lia) ltac:(lia)) as H.
  destruct (sum_words _ _ _ _ _) as [[ps l'] s]. destruct H as (H1 & H2 & H3). rewrite end_bytes by done.
  unfold is_byte in Hb. pose proof (Hm ps) as Hps. unfold is_byte in Hps.
  eapply (words_end odd p l pb lb b _ _ E); [lia| | |reflexivity].
  - unfold tail_byte. destruct (0 <? l'); lia.
  - replace (s + (b * 256 + tail_byte 1 ps l')) with (b * 256 + (s - 0 + tail_byte 1 ps l')) by lia.
    apply sim_add; [apply sim_refl; lia|done].
Qed.

Lemma first_word pb lb : 0 ≤ lb → ∃ ps ls sum,
  (if ctrue (Z.land pb 3) && (1 <? lb) then (pb + 2, lb - 2, u32 (0 + ld16 m pb)) else (pb, lb, 0)) = (ps, ls, sum) ∧
  0 ≤ ls ≤ lb ∧ 0 ≤ sum < 2 ^ 32 ∧ sim (sum + number_at m ps (Z.to_nat ls)) (number_at m pb (Z.to_nat lb)).
Proof.
  intros Hl. destruct (ctrue (Z.land pb 3) && (1 <? lb)) eqn:E.
  - apply andb_prop in E as [_ E]. zbool. exists (pb + 2), (lb - 2), (ld16 m pb). unfold ld16. pose proof (Hm pb). pose proof (Hm (pb + 1)).
    unfold is_byte in *. rewrite Z.add_0_l, u32_small by (unfold is_u32; lia). split; [done|]. split; [lia|]. split; [lia|].
    replace (Z.to_nat lb) with (S (S (Z.to_nat (lb - 2)))) by lia. rewrite number_two. pose proof (number_nonneg (Z.to_nat (lb - 2)) (pb + 2)).
    apply sim_add; [apply sim_refl; lia|]. by apply sim_sym, sim_rot.
  - exists pb, lb, 0. split; [done|]. split; [lia|]. split; [lia|]. apply sim_refl. apply number_nonneg.
Qed.

Lemma chksum_3_ok p l : 0 ≤ l → chksum_3 m p l = internet_sum m p l.
Proof.
  intros Hl. unfold chksum_3. set (odd := Z.land p 1). destruct (first_byte odd p l) as (pb & lb & b & E & Hb & Hlb).
  specialize (Hlb ltac:(lia)). rewrite E. destruct (first_word pb lb ltac:(lia)) as (ps & ls & sum & -> & Hls & Hsum & Hsim).
  pose proof (sum_longs_ok (Z.to_nat ls) ps ls sum ltac:(lia) ltac:(lia) Hsum) as H.
  destruct (sum_longs _ _ _ _ _) as [[pl l1] s1]. destruct H as (H1 & H2 & H3).
  pose proof (fold_range s1 H2) as Hf. pose proof (fold_sim s1 ltac:(lia)) as Hfs. assert (0 ≤ l1 / 2 ≤ 3) as Hd by dlia.
  pose proof (sum_words_ok (Z.to_nat l1) pl l1 (FOLD_U32T s1) ltac:(lia) ltac:(lia) ltac:(lia) ltac:(lia)) as H.
  destruct (sum_words _ _ _ _ _) as [[p2 l2] s2]. destruct H as (H4 & H5 & H6). rewrite end_bytes by done.
  unfold is_byte in Hb. pose proof (Hm p2) as Hp2. unfold is_byte in Hp2.
  eapply (words_end odd p l pb lb b _ _ E); [lia| | |reflexivity].
  - unfold tail_byte. destruct (0 <? l2); lia.
  - replace (s2 + (b * 256 + tail_byte 1 p2 l2)) with (b * 256 + (FOLD_U32T s1 + (s2 - FOLD_U32T s1 + tail_byte 1 p2 l2))) by lia.
    apply sim_add; [apply sim_refl; lia|]. eapply sim_trans; [apply sim_add; [exact Hfs|exact H6]|].
    eapply sim_trans; [exact H3|exact Hsim].
Qed.
End loops.

(** ** Data as lists of bytes *)
Definition bytes_at (m : Z → Z) (p len : Z) : list Z := (λ k, m (p + k)) <$> seqZ 0 len.
Definition number_of (l : list Z) : Z := foldr (λ b acc, b + 256 * acc) 0 l.

(** The checksum of RFC 1071, in the byte order of the machine. *)
Definition rfc1071 (l : list Z) : Z := 65535 - ones (number_of l).

Definition chain_bytes (m : Z → Z) (q : list seg) : list Z := flat_map (λ s, bytes_at m (payload s) (len s)) q.

Definition pseudo_header (src dest proto proto_len : Z) : list Z :=
  s_bytes src ++ s_bytes dest ++ [0; proto; proto_len / 256; proto_len mod 256].

Lemma number_of_app l1 l2 : number_of (l1 ++ l2) = number_of l1 + 256 ^ Z.of_nat (length l1) * number_of l2.
Proof.
  induction l1 as [|b l1 IH]; [change (number_of l2 = 0 + 1 * number_of l2); lia|].
  cbn [app number_of foldr length]. fold (number_of (l1 ++ l2)). fold (number_of l1). rewrite IH, Nat2Z.inj_succ, Z.pow_succ_r by lia. ring.
Qed.

Lemma length_bytes_at m p l : length (bytes_at m p l) = Z.to_nat l.
Proof. unfold bytes_at. by rewrite length_fmap, length_seqZ. Qed.

Lemma bytes_at_S m p n : bytes_at m p (Z.of_nat (S n)) = m p :: bytes_at m (p + 1) (Z.of_nat n).
Proof.
  unfold bytes_at. rewrite seqZ_cons by lia. cbn [fmap list_fmap]. rewrite Z.add_0_r. f_equal.
  replace (Z.pred (Z.of_nat (S n))) with (Z.of_nat n) by lia.
  apply list_eq. intros k. rewrite !list_lookup_fmap. destruct (decide (k < n)%nat).
  - rewrite !lookup_seqZ_lt by lia. cbn. f_equal. f_equal. lia.
  - rewrite !lookup_seqZ_ge by lia. done.
Qed.

Lemma number_at_of m n : ∀ p, number_at m p n = number_of (bytes_at m p (Z.of_nat n)).
Proof.
  induction n as [|n IH]; intros p; [done|]. rewrite bytes_at_S. cbn [number_at number_of foldr]. fold (number_of (bytes_at m (p + 1) (Z.of_nat n))).
  by rewrite IH.
Qed.

Lemma number_of_nonneg l : Forall is_byte l → 0 ≤ number_of l.
Proof. induction 1 as [|b l Hb _ IH]; [done|]. cbn [number_of foldr]. fold (number_of l). unfold is_byte in *. lia. Qed.

Lemma bytes_at_byte m p l : (∀ a, is_byte (m a)) → Forall is_byte (bytes_at m p l).
Proof. intros Hm. unfold bytes_at. apply Forall_fmap. apply Forall_forall. intros k _. apply Hm. Qed.

Lemma internet_sum_bytes m p l : 0 ≤ l → internet_sum m p l = ones (number_of (bytes_at m p l)).
Proof. intros. unfold internet_sum. rewrite number_at_of. by rewrite Z2Nat.id. Qed.

(** Data after an even number of bytes counts as it is, after an odd number swapped. *)
Lemma sim_pow n x : 0 ≤ x → sim (256 ^ Z.of_nat n * x) (if Z.odd (Z.of_nat n) then 256 * x else x).
Proof.
  intros Hx. induction n as [|n IH]; [change (256 ^ Z.of_nat 0) with 1; rewrite Z.mul_1_l; by apply sim_refl|].
  rewrite Nat2Z.inj_succ, Z.pow_succ_r, <- Z.mul_assoc by lia. rewrite Z.odd_succ, <- Z.negb_odd.
  eapply sim_trans; [apply sim_mul; [lia|exact IH]|]. destruct (Z.odd (Z.of_nat n)); cbn [negb].
  - rewrite Z.mul_assoc. change (256 * 256) with 65536. by apply sim_rot.
  - apply sim_refl. lia.
Qed.

Section chains.
Context (m : Z → Z) (Hm : ∀ a, is_byte (m a)).

Definition seg_ok (s : seg) : Prop := 0 ≤ len s ≤ 65535.
Definition wt (swapped : Z) : Z := if ctrue swapped then 256 else 1.

Lemma chain_nonneg q : 0 ≤ number_of (chain_bytes m q).
Proof.
  apply number_of_nonneg. induction q as [|s q IH]; [constructor|]. cbn. apply Forall_app. split; [by apply bytes_at_byte|done].
Qed.

Lemma odd_len l : ctrue (l mod 2) = Z.odd l.
Proof. rewrite Zmod_odd. by destruct (Z.odd l). Qed.

Lemma sum_chain_ok q : ∀ acc sw, Forall seg_ok q → 0 ≤ acc ≤ 65535 → sw = 0 ∨ sw = 1 →
  let '(acc', sw') := sum_chain m q acc sw in
  0 ≤ acc' ≤ 65535 ∧ (sw' = 0 ∨ sw' = 1) ∧ sim (wt sw' * acc') (wt sw * (acc + number_of (chain_bytes m q))).
Proof.
  induction q as [|s q IH]; intros acc sw Hq Ha Hsw.
  { cbn [sum_chain]. split; [done|]. split; [done|]. change (number_of (chain_bytes m [])) with 0. rewrite Z.add_0_r.
    apply sim_refl. unfold wt. destruct (ctrue sw); lia. }
  apply Forall_cons in Hq as [Hs Hq]. unfold seg_ok in Hs. cbn [sum_chain]. rewrite odd_len.
  rewrite chksum_1_ok, internet_sum_bytes by (done || lia). set (N := number_of (bytes_at m (payload s) (len s))).
  assert (0 ≤ N) as HN by (by apply number_of_nonneg, bytes_at_byte). pose proof (ones_range N) as Hr.
  rewrite u32_small, fold_once by (unfold is_u32; lia). pose proof (chain_nonneg q) as Hc.
  assert (number_of (chain_bytes m (s :: q)) = N + 256 ^ Z.of_nat (Z.to_nat (len s)) * number_of (chain_bytes m q)) as Ec.
  { unfold chain_bytes. cbn [flat_map]. by rewrite number_of_app, length_bytes_at. }
  pose proof (sim_pow (Z.to_nat (len s)) _ Hc) as Hp. rewrite Z2Nat.id in Hp by lia.
  pose proof (ones_range (acc + ones N)) as Hr1.
  assert (sim (ones (acc + ones N)) (acc + N)) as Hs1.
  { eapply sim_trans; [apply sim_ones; lia|]. apply sim_add; [apply sim_refl; lia|by apply sim_ones]. }
  rewrite Ec, Z2Nat.id by lia. set (C := number_of (chain_bytes m q)) in *. set (a1 := ones (acc + ones N)) in *.
  destruct (Z.odd (len s)).
  - rewrite swap_htons, htons_ones by done. pose proof (ones_range (256 * a1)) as Hr2.
    specialize (IH (ones (256 * a1)) (1 - sw) Hq Hr2 ltac:(lia)). destruct (sum_chain _ _ _ _) as [acc' sw']. destruct IH as (I1 & I2 & I3).
    split; [done|]. split; [done|]. eapply sim_trans; [exact I3|]. fold C.
    assert (sim (ones (256 * a1) + C) (256 * (acc + N) + C)) as S1.
    { apply sim_add; [|by apply sim_refl]. eapply sim_trans; [apply sim_ones; lia|]. by apply sim_mul. }
    destruct Hsw as [-> | ->]; cbn [wt ctrue negb Z.eqb].
    + change (wt (1 - 0)) with 256. change (wt 0) with 1. rewrite Z.mul_1_l. eapply sim_trans; [apply sim_mul; [lia|exact S1]|].
      replace (256 * (256 * (acc + N) + C)) with (65536 * (acc + N) + 256 * C) by lia.
      replace (acc + (N + 256 ^ len s * C)) with (acc + N + 256 ^ len s * C) by lia.
      apply sim_add; [apply sim_rot; lia|by apply sim_sym].
    + change (wt (1 - 1)) with 1. change (wt 1) with 256. rewrite Z.mul_1_l. eapply sim_trans; [exact S1|].
      replace (256 * (acc + (N + 256 ^ len s * C))) with (256 * (acc + N) + 256 * (256 ^ len s * C)) by lia.
      apply sim_add; [apply sim_refl; lia|]. apply sim_sym. eapply sim_trans; [apply sim_mul; [lia|exact Hp]|].
      rewrite Z.mul_assoc. by apply sim_rot.
  - specialize (IH a1 sw Hq Hr1 Hsw). destruct (sum_chain _ _ _ _) as [acc' sw']. destruct IH as (I1 & I2 & I3).
    split; [done|]. split; [done|]. eapply sim_trans; [exact I3|]. fold C. apply sim_mul; [unfold wt; destruct (ctrue sw); lia|].
    replace (acc + (N + 256 ^ len s * C)) with (acc + N + 256 ^ len s * C) by lia. apply sim_add; [done|by apply sim_sym].
Qed.

(** The sum of a chain, with the last swap. *)
Lemma chain_sum q : Forall seg_ok q →
  (let '(acc, swapped) := sum_chain m q 0 0 in if ctrue swapped then SWAP_BYTES_IN_WORD acc else acc) = ones (number_of (chain_bytes m q)).
Proof.
  intros Hq. pose proof (sum_chain_ok q 0 0 Hq ltac:(lia) ltac:(by left)) as H. destruct (sum_chain _ _ _ _) as [acc sw].
  destruct H as (H1 & H2 & H3). change (wt 0) with 1 in H3. rewrite Z.mul_1_l, Z.add_0_l in H3. unfold wt in H3. destruct (ctrue sw).
  - rewrite swap_htons, htons_ones by done. by apply ones_sim.
  - rewrite Z.mul_1_l in H3. by apply ones_eq.
Qed.

Lemma land_ones16 v : 0 ≤ v ≤ 65535 → Z.land v 0xffff = v.
Proof. intros. change 0xffff with (Z.ones 16). rewrite Z.land_ones by lia. apply Z.mod_small. lia. Qed.
End chains.

(** ** The pseudo header *)
Lemma number_s_bytes n : is_u32 n → number_of (s_bytes n) = n.
Proof.
  intros Hn. unfold s_bytes, number_of. cbn [foldr]. rewrite (bytes_word n Hn) at 5. lia.
Qed.

Lemma sim_halves n : is_u32 n → sim (Z.land n 0xffff + Z.land (Z.shiftr n 16) 0xffff) n.
Proof.
  intros [? ?]. change 0xffff with (Z.ones 16). rewrite !Z.land_ones, Z.shiftr_div_pow2 by lia. change (2 ^ 16) with 65536.
  rewrite (Z.mod_small (n / 65536)) by dlia. rewrite Z.add_comm, <- fold_spec. by apply fold_sim.
Qed.

Lemma add_pseudo_sim acc src dest proto plen :
  0 ≤ acc ≤ 65535 → is_u32 src → is_u32 dest → is_byte proto → 0 ≤ plen ≤ 65535 →
  0 ≤ add_pseudo acc src dest proto plen < 2 ^ 32 ∧
  sim (add_pseudo acc src dest proto plen) (acc + (src + (dest + (256 * proto + htons plen)))).
Proof.
  intros Ha Hs Hd Hp Hl. unfold is_byte in Hp. assert (∀ n, 0 ≤ Z.land n 0xffff ≤ 65535) as Hw.
  { intros n. assert (Z.land n 0xffff = n mod 2 ^ 16) as -> by (change 0xffff with (Z.ones 16); by rewrite Z.land_ones by lia).
    pose proof (Z.mod_pos_bound n (2 ^ 16) ltac:(lia)). lia. }
  assert (htons proto = 256 * proto) as Ep by (rewrite htons_spec; dlia).
  pose proof (Hw src). pose proof (Hw (Z.shiftr src 16)). pose proof (Hw dest). pose proof (Hw (Z.shiftr dest 16)). pose proof (htons_u16 plen).
  unfold add_pseudo. rewrite Ep.
  repeat match goal with |- context [u32 ?x] =>
    lazymatch x with context [u32 _] => fail | _ => rewrite (u32_small x) by (unfold is_u32; lia) end end. split; [lia|].
  pose proof (sim_halves src Hs) as S1. pose proof (sim_halves dest Hd) as S2.
  replace (acc + Z.land src 65535 + Z.land (Z.shiftr src 16) 65535 + Z.land dest 65535 + Z.land (Z.shiftr dest 16) 65535 + 256 * proto + htons plen)
    with (acc + (Z.land src 65535 + Z.land (Z.shiftr src 16) 65535 + (Z.land dest 65535 + Z.land (Z.shiftr dest 16) 65535 + (256 * proto + htons plen)))) by lia.
  apply sim_add; [apply sim_refl; lia|]. apply sim_add; [exact S1|]. apply sim_add; [exact S2|]. apply sim_refl. lia.
Qed.

Lemma number_pseudo src dest proto plen l : is_u32 src → is_u32 dest → is_byte proto → 0 ≤ plen ≤ 65535 → 0 ≤ number_of l →
  sim (number_of l + (src + (dest + (256 * proto + htons plen)))) (number_of (pseudo_header src dest proto plen ++ l)).
Proof.
  intros Hs Hd Hp Hl Hn. unfold pseudo_header, is_byte, is_u32 in *. rewrite <- !app_assoc, !number_of_app, !number_s_bytes by done.
  change (256 ^ Z.of_nat (length (s_bytes src))) with (2 ^ 32). change (256 ^ Z.of_nat (length (s_bytes dest))) with (2 ^ 32).
  cbn [number_of foldr app]. fold (number_of l). pose proof (htons_u16 plen) as Hh.
  assert (htons plen = plen / 256 + 256 * (plen mod 256)) as Eh.
  { rewrite htons_spec, (Z.mod_small (plen / 256)) by dlia. lia. }
  change (256 ^ Z.of_nat (length _)) with (2 ^ 32).
  replace (0 + 256 * (proto + 256 * (plen / 256 + 256 * (plen mod 256 + 256 * 0))) + 2 ^ 32 * number_of l)
    with (256 * proto + 65536 * htons plen + 2 ^ 32 * number_of l) by (rewrite Eh; lia).
  set (T := 256 * proto + 65536 * htons plen + 2 ^ 32 * number_of l).
  assert (sim T (256 * proto + htons plen + number_of l)) as S1.
  { apply sim_add; [apply sim_add; [apply sim_refl; lia|apply sim_rot; lia]|apply sim_rot32; lia]. }
  replace (number_of l + _) with (src + (dest + (256 * proto + htons plen + number_of l))) by lia.
  apply sim_add; [apply sim_refl; lia|]. apply sim_sym. assert (0 ≤ T) by (unfold T; lia).
  eapply sim_trans; [apply sim_rot32; lia|]. apply sim_add; [apply sim_refl; lia|].
  eapply sim_trans; [by apply sim_rot32|exact S1].
Qed.

(** ** What the checksums are *)

(** The three versions of the sum compute the same function, the sum of RFC 1071 of
    the bytes, for any contents, any alignment of the data and any length the code
    admits (version 1 takes 16-bit lengths, version 2 is documented for up to 0x20000
    bytes, version 3 has no limit): no carry is lost in the accumulators. *)
Theorem chksum_versions_agree m p l : (∀ a, is_byte (m a)) → 0 ≤ l →
  (l ≤ 65535 → lwip_standard_chksum m p l = ones (number_of (bytes_at m p l))) ∧
  (l ≤ 0x20000 → chksum_2 m p l = ones (number_of (bytes_at m p l))) ∧
  chksum_3 m p l = ones (number_of (bytes_at m p l)).
Proof.
  intros Hm Hl. rewrite <- internet_sum_bytes by done. split; [|split].
  - intros. by apply chksum_1_ok.
  - intros. by apply chksum_2_ok.
  - by apply chksum_3_ok.
Qed.

Definition abc (a : Z) : Z := if (0 <=? a) && (a <? 5) then 0xf0 + a else 0.

Lemma abc_byte a : is_byte (abc a).
Proof. unfold abc, is_byte. destruct (Z.leb_spec 0 a), (Z.ltb_spec a 5); cbn; lia. Qed.

Lemma chksum_versions_agree_witness : lwip_standard_chksum abc 1 3 = chksum_3 abc 1 3 ∧ chksum_2 abc 1 3 = 0xf3e4.
Proof.
  destruct (chksum_versions_agree abc 1 3 abc_byte) as (H1 & H2 & H3); [lia|].
  rewrite H1, H2, H3 by lia. split; [reflexivity|vm_compute; reflexivity].
Defined.

(** C40. The checksum of a chain of buffers is that of the bytes in it one after the
    other, wherever the chain is cut, and the checksum of TCP and UDP that of the pseudo
    header followed by these bytes. *)
Theorem chain_checksum m q src dest proto proto_len :
  (∀ a, is_byte (m a)) → Forall seg_ok q → is_u32 src → is_u32 dest → is_byte proto → 0 ≤ proto_len ≤ 65535 →
  inet_chksum_pbuf m q = rfc1071 (chain_bytes m q) ∧
  inet_chksum_pseudo m q src dest proto proto_len = rfc1071 (pseudo_header src dest proto proto_len ++ chain_bytes m q).
Proof.
  intros Hm Hq Hs Hd Hp Hl. pose proof (chain_sum m Hm q Hq) as E. pose proof (chain_nonneg m Hm q) as Hn.
  unfold inet_chksum_pbuf, inet_chksum_pseudo, rfc1071. destruct (sum_chain m q 0 0) as [acc sw]. rewrite !E.
  set (N := number_of (chain_bytes m q)) in *. pose proof (ones_range N) as Hr. split.
  - by rewrite land_ones16, not16_spec.
  - unfold pseudo_end. destruct (add_pseudo_sim (ones N) src dest proto proto_len) as [R1 S1]; [done..|].
    rewrite fold_twice by done. pose proof (ones_range (add_pseudo (ones N) src dest proto proto_len)) as Hr2.
    rewrite land_ones16, not16_spec by done. f_equal. apply ones_sim. eapply sim_trans; [exact S1|].
    eapply sim_trans; [|by apply number_pseudo]. fold N. apply sim_add; [by apply sim_ones|].
    apply sim_refl. pose proof (htons_u16 proto_len). unfold is_u32, is_byte in *. lia.
Qed.

Lemma chain_checksum_witness :
  inet_chksum_pbuf abc [MkSeg 0 3; MkSeg 3 2] = inet_chksum abc 0 5 ∧ inet_chksum_pbuf abc [MkSeg 0 3; MkSeg 3 2] = rfc1071 [0xf0; 0xf1; 0xf2; 0xf3; 0xf4].
Proof.
  split; [vm_compute; reflexivity|].
  apply (chain_checksum abc [MkSeg 0 3; MkSeg 3 2] 0 0 0 0 abc_byte).
  - repeat constructor; cbn; lia.
  - split; lia.
  - split; lia.
  - split; lia.
  - lia.
Defined.

(** ** Checking what was sent *)
Lemma number_upd m a b n : ∀ p, number_at (upd m a b) p n =
  number_at m p n + (if decide (p ≤ a < p + Z.of_nat n) then (b - m a) * 256 ^ (a - p) else 0).
Proof.
  induction n as [|n IH]; intros p; [rewrite decide_False by lia; cbn; lia|].
  cbn [number_at]. rewrite IH. destruct (decide (a = p)) as [->|Ha].
  - rewrite upd_eq, (decide_False (P := p + 1 ≤ p < _)), decide_True by lia. rewrite Z.sub_diag. change (256 ^ 0) with 1. lia.
  - rewrite upd_ne by lia. destruct (decide (p ≤ a < p + Z.of_nat (S n))).
    + rewrite decide_True by lia. replace (a - p) with (Z.succ (a - (p + 1))) by lia. rewrite Z.pow_succ_r by lia. ring.
    + rewrite decide_False by lia. lia.
Qed.

(** Memory with a 16-bit value stored at [f]. *)
Definition st16 (m : Z → Z) (f c : Z) : Z → Z := upd (upd m f (c mod 256)) (f + 1) (c / 256).

Lemma number_st16 m f c p l : p ≤ f → f + 2 ≤ p + l → m f = 0 → m (f + 1) = 0 →
  number_at (st16 m f c) p (Z.to_nat l) = number_at m p (Z.to_nat l) + c * 256 ^ (f - p).
Proof.
  intros H1 H2 H3 H4. unfold st16. rewrite !number_upd, !decide_True by lia. rewrite upd_ne, H3, H4 by lia.
  replace (f + 1 - p) with (Z.succ (f - p)) by lia. rewrite Z.pow_succ_r by lia. pose proof (Z.div_mod c 256 ltac:(lia)) as E.
  rewrite E at 3. ring.
Qed.

Lemma inet_chksum_0 m p l : (∀ a, is_byte (m a)) → 0 ≤ l ≤ 65535 → inet_chksum m p l = 0 ↔ sim (number_at m p (Z.to_nat l)) 65535.
Proof.
  intros Hm Hl. unfold inet_chksum. rewrite chksum_1_ok by done. unfold internet_sum. set (N := number_at m p (Z.to_nat l)).
  assert (0 ≤ N) as HN by (by apply number_nonneg). rewrite not16_spec by apply ones_range. split; intros H.
  - eapply sim_trans; [by apply sim_sym, sim_ones|]. replace (ones N) with 65535 by lia. by apply sim_refl.
  - rewrite (ones_sim _ _ H). reflexivity.
Qed.

Lemma st16_byte m f c : (∀ a, is_byte (m a)) → 0 ≤ c ≤ 65535 → ∀ a, is_byte (st16 m f c a).
Proof.
  intros Hm Hc a. unfold st16, upd. destruct (a =? f + 1); [unfold is_byte; dlia|]. destruct (a =? f); [apply mod_byte|apply Hm].
Qed.

Lemma st16_checks m p l f : (∀ a, is_byte (m a)) → 0 ≤ l ≤ 65535 → p ≤ f → f + 2 ≤ p + l → (f - p) mod 2 = 0 →
  m f = 0 → m (f + 1) = 0 → sim (number_at (st16 m f (inet_chksum m p l)) p (Z.to_nat l)) 65535.
Proof.
  intros Hm Hl H1 H2 Hev H3 H4. rewrite number_st16 by done. unfold inet_chksum. rewrite chksum_1_ok by done. unfold internet_sum.
  set (N := number_at m p (Z.to_nat l)). assert (0 ≤ N) as HN by (by apply number_nonneg). pose proof (ones_range N) as Hr.
  rewrite not16_spec by done. assert (sim (256 ^ (f - p) * (65535 - ones N)) (65535 - ones N)) as Hp.
  { pose proof (sim_pow (Z.to_nat (f - p)) (65535 - ones N) ltac:(lia)) as H. rewrite Z2Nat.id, <- odd_len, Hev in H by lia. exact H. }
  rewrite (Z.mul_comm _ (256 ^ _)). eapply sim_trans; [apply sim_add; [apply sim_sym, sim_ones; exact HN|exact Hp]|].
  replace (ones N + (65535 - ones N)) with 65535 by lia. by apply sim_refl.
Qed.

Lemma byte_changed x d k : 0 ≤ k → d ≠ 0 → -256 < d < 256 → sim x 65535 → ¬ sim (x + d * 256 ^ k) 65535.
Proof.
  intros Hk Hd Hr (_ & _ & _ & i & Hi) (_ & _ & _ & j & Hj).
  assert (rel_prime 65535 256) as Hrp by (apply Zgcd_1_rel_prime; reflexivity).
  assert ((65535 | 256 ^ k * d)) as Hdiv by (exists (j - i); lia).
  apply Gauss in Hdiv; [|by apply rel_prime_Zpower_r]. destruct Hdiv as [y Hy]. lia.
Qed.

(** What is sent with its checksum is accepted: when the two bytes at an even offset
    are zero while the checksum is computed and then hold it, [inet_chksum] over the
    data is 0, the test a receiver makes.  And one in which a byte outside the field was
    changed is rejected. *)
Theorem chksum_verifies m p l f : (∀ a, is_byte (m a)) → 0 ≤ l ≤ 65535 → p ≤ f → f + 2 ≤ p + l → (f - p) mod 2 = 0 →
  m f = 0 → m (f + 1) = 0 →
  inet_chksum (st16 m f (inet_chksum m p l)) p l = 0 ∧
  ∀ a b, p ≤ a < p + l → a ≠ f → a ≠ f + 1 → is_byte b → b ≠ m a →
    inet_chksum (upd (st16 m f (inet_chksum m p l)) a b) p l ≠ 0.
Proof.
  intros Hm Hl H1 H2 Hev H3 H4. pose proof (st16_checks m p l f Hm Hl H1 H2 Hev H3 H4) as Hs.
  assert (0 ≤ inet_chksum m p l ≤ 65535) as Hc.
  { unfold inet_chksum, not16, u16. pose proof (Z.mod_pos_bound (Z.lnot (lwip_standard_chksum m p l)) (2 ^ 16) ltac:(lia)). lia. }
  set (m' := st16 m f (inet_chksum m p l)) in *. assert (∀ a, is_byte (m' a)) as Hm' by (by apply st16_byte).
  split; [by apply inet_chksum_0|]. intros a b Ha Hf Hf1 Hb Hne.
  assert (∀ x, is_byte (upd m' a b x)) as Hu by (intros x; unfold upd; destruct (x =? a); [done|apply Hm']).
  rewrite inet_chksum_0 by done. rewrite number_upd, decide_True by lia.
  assert (m' a = m a) as -> by (unfold m', st16; by rewrite !upd_ne by done).
  pose proof (Hm a). unfold is_byte in *. apply byte_changed; [lia|lia|lia|done].
Qed.

Definition abc0 : Z → Z := st16 abc 2 0.

Lemma chksum_verifies_witness : inet_chksum abc0 0 5 = 0x0d1b ∧ inet_chksum (st16 abc0 2 (inet_chksum abc0 0 5)) 0 5 = 0.
Proof.
  split; [vm_compute; reflexivity|]. apply (chksum_verifies abc0 0 5 2).
  - apply st16_byte; [apply abc_byte|lia].
  - lia.
  - lia.
  - lia.
  - reflexivity.
  - reflexivity.
  - reflexivity.
Defined.
