(* ===== verification/Pbuf.v ===== *)
(** * Packet buffers: [net/lwip/core/pbuf.c], over the pools of [net/lwip/core/memp.c]

    A buffer is a structure at an address, found in [bufs] while it is allocated; its data
    lie in the memory [bytes].  The pools are the lists of their free elements, linked
    through the elements in the code.  The heap of [PBUF_RAM] buffers is a parameter with
    its state; its operations may panic.  Failed assertions panic, as the configuration of
    the port has it. *)

From stdpp Require Import base gmap list strings.
From Stdlib Require Import ZArith Lia.
From S2P Require Import Prelude.

Inductive pbuf_layer : Type := PBUF_TRANSPORT | PBUF_IP | PBUF_LINK | PBUF_RAW.
Inductive pbuf_type : Type := PBUF_RAM | PBUF_ROM | PBUF_REF | PBUF_POOL.

#[global] Instance pbuf_type_eq_dec : EqDecision pbuf_type.
Proof. solve_decision. Defined.

Record pbuf := MkPbuf {
  next : option Z; payload : Z; tot_len : Z; len : Z; ptype : pbuf_type; flags : Z; ref : Z }.

Definition PBUF_TRANSPORT_HLEN : Z := 20.
Definition PBUF_IP_HLEN : Z := 20.
Definition PBUF_LINK_HLEN : Z := 14.
Definition MEM_ALIGNMENT : Z := 4.
Definition PBUF_POOL_BUFSIZE : Z := 2000.

Definition LWIP_MEM_ALIGN_SIZE (size : Z) : Z := Z.land (u32 (size + MEM_ALIGNMENT - 1)) (Z.lnot (MEM_ALIGNMENT - 1)).
Definition LWIP_MEM_ALIGN (addr : Z) : Z := LWIP_MEM_ALIGN_SIZE addr.
Definition SIZEOF_STRUCT_PBUF : Z := LWIP_MEM_ALIGN_SIZE 16.
Definition PBUF_POOL_BUFSIZE_ALIGNED : Z := LWIP_MEM_ALIGN_SIZE PBUF_POOL_BUFSIZE.

Section pbufs.
(** The heap of [mem.c]. *)
Context {H : Type} (mem_malloc : Z → M H (option Z)) (mem_free : Z → M H unit) (mem_realloc : Z → Z → M H (option Z)).

Record pst := MkPst { bufs : gmap Z pbuf; bytes : Z → Z; pool : list Z; refs : list Z; ram : H }.

Definition set_bufs (x : gmap Z pbuf) (s : pst) : pst := MkPst x (bytes s) (pool s) (refs s) (ram s).
Definition set_bytes (x : Z → Z) (s : pst) : pst := MkPst (bufs s) x (pool s) (refs s) (ram s).
Definition set_pool (x : list Z) (s : pst) : pst := MkPst (bufs s) (bytes s) x (refs s) (ram s).
Definition set_refs (x : list Z) (s : pst) : pst := MkPst (bufs s) (bytes s) (pool s) x (ram s).
Definition set_ram (x : H) (s : pst) : pst := MkPst (bufs s) (bytes s) (pool s) (refs s) x.

Definition on_ram {A} (m : M H A) : M pst A := zoom ram set_ram m.

(** ** Structures *)
Definition at_ (p : Z) : M pst pbuf := λ s, deref (bufs s !! p) s.
Definition put (p : Z) (q : pbuf) : M pst unit := modify (λ s, set_bufs (<[p := q]> (bufs s)) s).
Definition upd_buf (p : Z) (f : pbuf → pbuf) : M pst unit := let* q := at_ p in put p (f q).

Definition set_next (x : option Z) (q : pbuf) : pbuf := MkPbuf x (payload q) (tot_len q) (len q) (ptype q) (flags q) (ref q).
Definition set_payload (x : Z) (q : pbuf) : pbuf := MkPbuf (next q) x (tot_len q) (len q) (ptype q) (flags q) (ref q).
Definition set_tot_len (x : Z) (q : pbuf) : pbuf := MkPbuf (next q) (payload q) x (len q) (ptype q) (flags q) (ref q).
Definition set_len (x : Z) (q : pbuf) : pbuf := MkPbuf (next q) (payload q) (tot_len q) x (ptype q) (flags q) (ref q).
Definition set_ref (x : Z) (q : pbuf) : pbuf := MkPbuf (next q) (payload q) (tot_len q) (len q) (ptype q) (flags q) x.
Definition set_flags (x : Z) (q : pbuf) : pbuf := MkPbuf (next q) (payload q) (tot_len q) (len q) (ptype q) x (ref q).

(** ** The pools of [memp.c] *)
Inductive memp_t : Type := MEMP_PBUF | MEMP_PBUF_POOL.

Definition memp_tab (t : memp_t) (s : pst) : list Z := match t with MEMP_PBUF => refs s | MEMP_PBUF_POOL => pool s end.
Definition set_memp_tab (t : memp_t) (x : list Z) (s : pst) : pst :=
  match t with MEMP_PBUF => set_refs x s | MEMP_PBUF_POOL => set_pool x s end.

Definition memp_malloc (t : memp_t) : M pst (option Z) :=
  let* l := gets (memp_tab t) in
  match l with
  | [] => ret None
  | memp :: l' =>
      do* modify (set_memp_tab t l') in
      do* massert (memp mod MEM_ALIGNMENT =? 0) in
      ret (Some memp)
  end.

Definition memp_free (t : memp_t) (mem : Z) : M pst unit :=
  do* massert (mem mod MEM_ALIGNMENT =? 0) in
  modify (λ s, set_memp_tab t (mem :: memp_tab t s) s).

(** The elements of a pool, from [memp] on, and the address after them; then every pool. *)
Fixpoint carve (num : nat) (size memp : Z) (tab : list Z) : list Z * Z :=
  match num with
  | O => (tab, memp)
  | S num' => carve num' size (u32 (memp + size)) (memp :: tab)
  end.

Fixpoint carve_all (memp : Z) (pools : list (nat * Z)) : list (list Z) :=
  match pools with
  | [] => []
  | (num, size) :: pools' => let '(tab, memp') := carve num size memp [] in tab :: carve_all memp' pools'
  end.

(** [pools]: the number of elements and the aligned size of each pool. *)
Definition memp_init (memp_memory : Z) (pools : list (nat * Z)) : list (list Z) :=
  carve_all (LWIP_MEM_ALIGN memp_memory) pools.

(** ** Freeing *)
Definition dealloc (p : Z) (t : pbuf_type) : M pst unit :=
  do* modify (λ s, set_bufs (delete p (bufs s)) s) in
  match t with
  | PBUF_POOL => memp_free MEMP_PBUF_POOL p
  | PBUF_ROM | PBUF_REF => memp_free MEMP_PBUF p
  | PBUF_RAM => on_ram (mem_free p)
  end.

(** Every round but the last takes a buffer out of [bufs]. *)
Fixpoint free_loop (fuel : nat) (p : option Z) (count : Z) : M pst Z :=
  match fuel, p with
  | _, None => ret count
  | O, Some _ => ret count
  | S fuel', Some p =>
      let* b := at_ p in
      do* massert (0 <? ref b) in
      let r := u16 (ref b - 1) in
      do* put p (set_ref r b) in
      if r =? 0 then
        let q := next b in
        do* dealloc p (ptype b) in
        free_loop fuel' q (u8 (count + 1))
      else ret count
  end.

Definition pbuf_free (p : option Z) : M pst Z :=
  match p with
  | None => panic "p != NULL"
  | Some _ => let* n := gets (λ s, size (bufs s)) in free_loop (S n) p 0
  end.

(** ** Allocating *)
Definition layer_offset (layer : pbuf_layer) : Z :=
  match layer with
  | PBUF_TRANSPORT => PBUF_TRANSPORT_HLEN + PBUF_IP_HLEN + PBUF_LINK_HLEN
  | PBUF_IP => PBUF_IP_HLEN + PBUF_LINK_HLEN
  | PBUF_LINK => PBUF_LINK_HLEN
  | PBUF_RAW => 0
  end.

(** The rest of a chain from the pool; each round allots at least one byte. *)
Fixpoint pool_tail (fuel : nat) (p r rem_len : Z) : M pst bool :=
  match fuel with
  | O => ret true
  | S fuel' =>
      if 0 <? rem_len then
        let* q := memp_malloc MEMP_PBUF_POOL in
        match q with
        | None => do* pbuf_free (Some p) in ret false
        | Some q =>
            do* upd_buf r (set_next (Some q)) in
            do* massert (rem_len <? 0xffff) in
            let l := Z.min (u16 rem_len) PBUF_POOL_BUFSIZE_ALIGNED in
            let pay := u32 (q + SIZEOF_STRUCT_PBUF) in
            do* massert (pay mod MEM_ALIGNMENT =? 0) in
            do* put q (MkPbuf None pay (u16 rem_len) l PBUF_POOL 0 1) in
            pool_tail fuel' p q (rem_len - l)
        end
      else ret true
  end.

Definition alloc_pool (offset length : Z) : M pst (option Z) :=
  let* p := memp_malloc MEMP_PBUF_POOL in
  match p with
  | None => ret None
  | Some p =>
      let pay := LWIP_MEM_ALIGN (u32 (p + (SIZEOF_STRUCT_PBUF + offset))) in
      do* massert (pay mod MEM_ALIGNMENT =? 0) in
      let l := Z.min length (PBUF_POOL_BUFSIZE_ALIGNED - LWIP_MEM_ALIGN_SIZE offset) in
      do* massert (u32 (pay + l) <=? u32 (p + SIZEOF_STRUCT_PBUF + PBUF_POOL_BUFSIZE_ALIGNED)) in
      do* put p (MkPbuf None pay length l PBUF_POOL 0 1) in
      let* ok := pool_tail (Z.to_nat length) p p (length - l) in
      if ok : bool then ret (Some p) else ret None
  end.

Definition alloc_ram (offset length : Z) : M pst (option Z) :=
  let* p := on_ram (mem_malloc (LWIP_MEM_ALIGN_SIZE (SIZEOF_STRUCT_PBUF + offset) + LWIP_MEM_ALIGN_SIZE length)) in
  match p with
  | None => ret None
  | Some p =>
      let pay := LWIP_MEM_ALIGN (u32 (p + SIZEOF_STRUCT_PBUF + offset)) in
      do* massert (pay mod MEM_ALIGNMENT =? 0) in
      do* put p (MkPbuf None pay length length PBUF_RAM 0 1) in
      ret (Some p)
  end.

Definition alloc_ref (length : Z) (t : pbuf_type) : M pst (option Z) :=
  let* p := memp_malloc MEMP_PBUF in
  match p with
  | None => ret None
  | Some p => do* put p (MkPbuf None 0 length length t 0 1) in ret (Some p)
  end.

Definition pbuf_alloc (layer : pbuf_layer) (length : Z) (t : pbuf_type) : M pst (option Z) :=
  let offset := layer_offset layer in
  match t with
  | PBUF_POOL => alloc_pool offset length
  | PBUF_RAM => alloc_ram offset length
  | PBUF_ROM | PBUF_REF => alloc_ref length t
  end.

(** ** Changing the length *)

(** The buffer that becomes the last one, and its new length. *)
Fixpoint realloc_skip (fuel : nat) (q rem_len grow : Z) : M pst (Z * Z) :=
  match fuel with
  | O => ret (q, rem_len)
  | S fuel' =>
      let* b := at_ q in
      if len b <? rem_len then
        do* massert (grow <? 0xffff) in
        do* put q (set_tot_len (u16 (tot_len b + u16 grow)) b) in
        match next b with
        | None => panic "pbuf_realloc: q != NULL"
        | Some q' => realloc_skip fuel' q' (u16 (rem_len - len b)) grow
        end
      else ret (q, rem_len)
  end.

(** The new last buffer: its length, and the rest of the chain. *)
Definition realloc_last (q rem_len : Z) : M pst unit :=
  let* b := at_ q in
  let* q :=
    (if bool_decide (ptype b = PBUF_RAM) && negb (rem_len =? len b) then
       let* r := on_ram (mem_realloc q (u32 (payload b - q + rem_len))) in
       match r with None => panic "mem_realloc give q == NULL" | Some r => ret r end
     else ret q) in
  do* upd_buf q (set_len rem_len) in
  do* upd_buf q (set_tot_len rem_len) in
  let* b := at_ q in
  do* (match next b with None => ret tt | Some t => do* pbuf_free (Some t) in ret tt end) in
  upd_buf q (set_next None).

Definition pbuf_realloc (p new_len : Z) : M pst unit :=
  let* b := at_ p in
  if tot_len b <=? new_len then ret tt else
  let grow := new_len - tot_len b in
  let* n := gets (λ s, size (bufs s)) in
  let* last := realloc_skip n p new_len grow in
  realloc_last (fst last) (snd last).

(** The result is the error flag. *)
Definition pbuf_header (p inc : Z) : M pst Z :=
  if inc =? 0 then ret 0 else
  let* b := at_ p in
  if (inc <? 0) && (len b <? - inc) then panic "increment_magnitude <= p->len" else
  let pay := u32 (payload b - inc) in
  let* ok :=
    (match ptype b with
     | PBUF_RAM | PBUF_POOL => ret (u32 (p + SIZEOF_STRUCT_PBUF) <=? pay)
     | PBUF_REF | PBUF_ROM => ret ((inc <? 0) && (- inc <=? len b))
     end) in
  if ok : bool then
    do* put p (set_tot_len (u16 (tot_len b + inc)) (set_len (u16 (len b + inc)) (set_payload pay b))) in
    ret 0
  else ret 1.

(** ** Chains *)
Fixpoint clen_loop (fuel : nat) (p : option Z) (l : Z) : M pst Z :=
  match fuel, p with
  | S fuel', Some p => let* b := at_ p in clen_loop fuel' (next b) (u8 (l + 1))
  | _, _ => ret l
  end.

Definition pbuf_clen (p : option Z) : M pst Z :=
  let* n := gets (λ s, size (bufs s)) in clen_loop (S n) p 0.

Definition pbuf_ref (p : option Z) : M pst unit :=
  match p with None => ret tt | Some p => upd_buf p (λ b, set_ref (u16 (ref b + 1)) b) end.

(** To the last buffer of the first chain, adding the total of [t] to the totals on the way. *)
Fixpoint cat_loop (fuel : nat) (p t : Z) : M pst Z :=
  match fuel with
  | O => ret p
  | S fuel' =>
      let* b := at_ p in
      match next b with
      | None => ret p
      | Some q =>
          let* tb := at_ t in
          do* put p (set_tot_len (u16 (tot_len b + tot_len tb)) b) in
          cat_loop fuel' q t
      end
  end.

Definition pbuf_cat (h t : Z) : M pst unit :=
  let* n := gets (λ s, size (bufs s)) in
  let* p := cat_loop n h t in
  let* b := at_ p in
  do* massert (tot_len b =? len b) in
  let* tb := at_ t in
  do* put p (set_tot_len (u16 (tot_len b + tot_len tb)) b) in
  upd_buf p (set_next (Some t)).

Definition pbuf_chain (h t : Z) : M pst unit :=
  do* pbuf_cat h t in
  pbuf_ref (Some t).

Definition pbuf_dechain (p : Z) : M pst (option Z) :=
  let* b := at_ p in
  match next b with
  | None => do* massert (tot_len b =? len b) in ret None
  | Some q =>
      let* qb := at_ q in
      do* massert (tot_len qb =? tot_len b - len b) in
      do* put q (set_tot_len (u16 (tot_len b - len b)) qb) in
      do* upd_buf p (set_next None) in
      do* upd_buf p (λ b, set_tot_len (len b) b) in
      let* tail_gone := pbuf_free (Some q) in
      let* b := at_ p in
      do* massert (tot_len b =? len b) in
      ret (if 0 <? tail_gone then None else Some q)
  end.

(** ** Copying *)
Definition memcpy_bytes (dst src n : Z) : M pst unit :=
  modify (λ s, set_bytes (patch (bytes s) dst n (λ k, bytes s (src + k))) s).

(** Where the copy is in a chain: the buffer and the offset in it. *)
Definition advance (p : Z) (b : pbuf) (offset : Z) : option Z * Z := if len b <=? offset then (next b, 0) else (Some p, offset).

Definition ERR_OK : Z := 0.

(** [packet queue] in the middle of a copy is an error, which asserts. *)
Definition no_queue (p : option Z) : M pst unit :=
  match p with
  | None => ret tt
  | Some p =>
      let* b := at_ p in
      if len b =? tot_len b then match next b with None => ret tt | Some _ => panic "pbuf_copy() does not allow packet queues!" end
      else ret tt
  end.

Fixpoint copy_loop (fuel : nat) (p_to : option Z) (offset_to : Z) (p_from offset_from : Z) : M pst Z :=
  match fuel with
  | O => ret ERR_OK
  | S fuel' =>
      match p_to with
      | None => panic "p_to != NULL"
      | Some to =>
          let* tb := at_ to in
          let* fb := at_ p_from in
          let n := if len fb - offset_from <=? len tb - offset_to then u16 (len fb - offset_from) else u16 (len tb - offset_to) in
          do* memcpy_bytes (u32 (payload tb + offset_to)) (u32 (payload fb + offset_from)) n in
          let offset_to := u16 (offset_to + n) in
          let offset_from := u16 (offset_from + n) in
          do* massert (offset_to <=? len tb) in
          let '(p_to, offset_to) := if offset_to =? len tb then (next tb, 0) else (Some to, offset_to) in
          do* massert (offset_from <=? len fb) in
          let '(from, offset_from) := advance p_from fb offset_from in
          do* no_queue from in
          do* no_queue p_to in
          match from with None => ret ERR_OK | Some from => copy_loop fuel' p_to offset_to from offset_from end
      end
  end.

(** Every round finishes a buffer of one of the two chains. *)
Definition pbuf_copy (p_to p_from : option Z) : M pst Z :=
  match p_to, p_from with
  | Some to, Some from =>
      let* tb := at_ to in
      let* fb := at_ from in
      if tot_len tb <? tot_len fb then panic "pbuf_copy: target not big enough to hold source" else
      let* n := gets (λ s, size (bufs s)) in
      copy_loop (n + n) p_to 0 from 0
  | _, _ => panic "pbuf_copy: target not big enough to hold source"
  end.

Fixpoint partial_loop (fuel : nat) (p : option Z) (dataptr left l offset copied : Z) : M pst Z :=
  match fuel, p with
  | S fuel', Some p =>
      if l =? 0 then ret copied else
      let* b := at_ p in
      if negb (offset =? 0) && (len b <=? offset) then
        partial_loop fuel' (next b) dataptr left l (u16 (offset - len b)) copied
      else
        let n := u16 (len b - offset) in
        let n := if l <? n then l else n in
        do* memcpy_bytes (u32 (dataptr + left)) (u32 (payload b + offset)) n in
        partial_loop fuel' (next b) dataptr (u16 (left + n)) (u16 (l - n)) 0 (u16 (copied + n))
  | _, _ => ret copied
  end.

Definition pbuf_copy_partial (buf : option Z) (dataptr l offset : Z) : M pst Z :=
  match buf with
  | None => panic "netbuf_copy_partial: invalid buf"
  | Some _ =>
      if dataptr =? 0 then panic "netbuf_copy_partial: invalid dataptr" else
      let* n := gets (λ s, size (bufs s)) in
      partial_loop n buf dataptr 0 l offset 0
  end.
End pbufs.

Arguments pst : clear implicits.
Arguments MkPst {H} _ _ _ _ _.
