(* ===== verification/PbufProps.v ===== *)
(** * Packet buffers: chains, what they hold and how the operations change it *)

From stdpp Require Import base gmap list sorting strings.
From Stdlib Require Import ZArith Lia.
From S2P Require Import Prelude Pbuf.

(** ** Chains *)

(** [l]: the buffers of the chain at [p], with their addresses. *)
Fixpoint linked (b : gmap Z pbuf) (p : option Z) (l : list (Z * pbuf)) : Prop :=
  match l with
  | [] => p = None
  | (a, q) :: l' => p = Some a ∧ b !! a = Some q ∧ linked b (next q) l'
  end.

Fixpoint total (l : list (Z * pbuf)) : Z := match l with [] => 0 | (_, q) :: l' => len q + total l' end.

(** Each [tot_len] is the length of the chain from its buffer on. *)
Fixpoint totals (l : list (Z * pbuf)) : Prop :=
  match l with [] => True | (_, q) :: l' => 0 ≤ len q ∧ tot_len q = len q + total l' ∧ totals l' end.

Definition packet (b : gmap Z pbuf) (p : option Z) (l : list (Z * pbuf)) : Prop :=
  linked b p l ∧ totals l ∧ total l < 65536.

(** The bytes of a packet, by their addresses. *)
Definition addrs (l : list (Z * pbuf)) : list Z := flat_map (λ x, seqZ (payload x.2) (len x.2)) l.
Definition data (f : Z → Z) (l : list (Z * pbuf)) : list Z := f <$> addrs l.

(** [f'] is [f] with the bytes at [src] copied to [dst]. *)
Definition moved (f f' : Z → Z) (dst src : list Z) : Prop := f' <$> dst = f <$> src ∧ ∀ x, x ∉ dst → f' x = f x.

Definition placed (x : Z * pbuf) : Prop := 0 ≤ payload x.2 ∧ payload x.2 + len x.2 < 2 ^ 32.

(** ** Linking *)

Lemma linked_det b : ∀ l l' p, linked b p l → linked b p l' → l = l'.
Proof.
  induction l as [|[a q] l IH]; intros [|[a' q'] l'] p; cbn; [done|naive_solver..|].
  intros (-> & Hq & Hl) (E & Hq' & Hl'). simplify_eq. f_equal. by eapply IH.
Qed.

Lemma linked_from b : ∀ l p a, linked b p l → a ∈ l.*1 → ∃ l1 q l2, l = l1 ++ (a, q) :: l2 ∧ linked b (Some a) ((a, q) :: l2).
Proof.
  induction l as [|[a' q'] l IH]; intros p a Hl Ha; [by apply elem_of_nil in Ha|]. cbn in Ha.
  apply elem_of_cons in Ha as [->|Ha].
  - destruct Hl as (-> & Hq & Hl). by exists [], q', l.
  - destruct Hl as (_ & _ & Hl). destruct (IH _ _ Hl Ha) as (l1 & q & l2 & -> & H). by exists ((a', q') :: l1), q, l2.
Qed.

Lemma linked_nodup b : ∀ l p, linked b p l → NoDup l.*1.
Proof.
  induction l as [|[a q] l IH]; intros p Hl; [constructor|]. cbn. pose proof Hl as (-> & Hq & Hl').
  constructor; [|by eapply IH]. intros Ha. destruct (linked_from _ _ _ _ Hl' Ha) as (l1 & q' & l2 & -> & H).
  pose proof (linked_det _ _ _ _ Hl H) as E. apply (f_equal length) in E. revert E. cbn. rewrite length_app. cbn. lia.
Qed.

Lemma linked_lookup b : ∀ l p a q, linked b p l → (a, q) ∈ l → b !! a = Some q.
Proof.
  induction l as [|[a' q'] l IH]; intros p a q Hl Ha; [by apply elem_of_nil in Ha|]. destruct Hl as (-> & Hq & Hl).
  apply elem_of_cons in Ha as [[= -> ->]|Ha]; [done|]. by eapply IH.
Qed.

Lemma linked_size b l p : linked b p l → (length l ≤ size b)%nat.
Proof.
  intros Hl. pose proof (linked_nodup _ _ _ Hl) as Hn. rewrite <- (length_fmap fst l), <- (size_list_to_set (C := gset Z)) by done.
  rewrite <- size_dom. apply subseteq_size. intros a Ha. apply elem_of_list_to_set, list_elem_of_fmap in Ha as ([a' q] & -> & Hq).
  apply elem_of_dom. exists q. by eapply linked_lookup.
Qed.

Lemma linked_agree b b' : ∀ l p, (∀ a, a ∈ l.*1 → b' !! a = b !! a) → linked b p l → linked b' p l.
Proof.
  induction l as [|[a q] l IH]; intros p Hb; [done|]. intros (-> & Hq & Hl). cbn in Hb. split; [done|]. split.
  - rewrite Hb; [done|]. by left.
  - apply IH; [|done]. intros x Hx. apply Hb. by right.
Qed.

Lemma total_nonneg l : totals l → 0 ≤ total l.
Proof. induction l as [|[a q] l IH]; cbn; [lia|]. intros (H1 & H2 & H3). specialize (IH H3). lia. Qed.

Lemma total_app l1 l2 : total (l1 ++ l2) = total l1 + total l2.
Proof. induction l1 as [|[a q] l1 IH]; cbn; [lia|]. rewrite IH. lia. Qed.

Lemma totals_app l1 l2 : totals (l1 ++ l2) → totals l2.
Proof. induction l1 as [|[a q] l1 IH]; cbn; [done|]. intros (_ & _ & H). by apply IH. Qed.

Definition lens (l : list (Z * pbuf)) : Prop := Forall (λ x, 0 ≤ len x.2) l.

Lemma totals_lens l : totals l → lens l.
Proof. induction l as [|[a q] l IH]; [constructor|]. intros (H1 & H2 & H3). constructor; [done|]. by apply IH. Qed.

Lemma length_addrs l : lens l → Z.of_nat (length (addrs l)) = total l.
Proof.
  induction l as [|[a q] l IH]; [done|]. intros [H1 H3]%Forall_cons. cbn in H1. cbn. fold (addrs l). rewrite length_app, length_seqZ, Nat2Z.inj_add, IH by done. lia.
Qed.

Lemma addrs_app l1 l2 : addrs (l1 ++ l2) = addrs l1 ++ addrs l2.
Proof. apply flat_map_app. Qed.

Lemma data_app f l1 l2 : data f (l1 ++ l2) = data f l1 ++ data f l2.
Proof. unfold data. by rewrite addrs_app, fmap_app. Qed.

(** ** Copying *)

Lemma moved_nil f : moved f f [] [].
Proof. by split. Qed.

Lemma moved_app f f1 f2 d1 s1 d2 s2 : d1 ## d2 → d1 ## s2 →
  moved f f1 d1 s1 → moved f1 f2 d2 s2 → moved f f2 (d1 ++ d2) (s1 ++ s2).
Proof.
  intros Hd Hs [E1 H1] [E2 H2]. split.
  - rewrite !fmap_app. f_equal.
    + rewrite <- E1. apply list_fmap_ext. intros i x Hx. apply H2. intros Hx'. apply (Hd x); [by eapply list_elem_of_lookup_2|done].
    + rewrite E2. apply list_fmap_ext. intros i x Hx. apply H1. intros Hx'. apply (Hs x); [done|by eapply list_elem_of_lookup_2].
  - intros x [Hx1 Hx2]%not_elem_of_app. rewrite H2 by done. by apply H1.
Qed.

Lemma moved_patch f d s n : 0 ≤ n → moved f (patch f d n (λ k, f (s + k))) (seqZ d n) (seqZ s n).
Proof.
  intros Hn. split.
  - apply list_eq. intros i. rewrite !list_lookup_fmap. destruct (decide (i < Z.to_nat n)%nat).
    + rewrite !lookup_seqZ_lt by lia. cbn. rewrite patch_in by lia. done.
    + rewrite !lookup_seqZ_ge by lia. done.
  - intros x Hx. rewrite elem_of_seqZ in Hx. apply patch_out. lia.
Qed.

Lemma moved_data f f' d s l : moved f f' d s → d ## addrs l → data f' l = data f l.
Proof.
  intros [_ Hm] Hd. unfold data. apply list_fmap_ext. intros i x Hx. apply Hm. intros Hx'. apply (Hd x); [done|by eapply list_elem_of_lookup_2].
Qed.

Lemma u8_below x : 0 ≤ u8 x < 256.
Proof. by apply Z.mod_pos_bound. Qed.

Lemma mod4_add x y : x mod 4 = 0 → y mod 4 = 0 → (x + y) mod 4 = 0.
Proof. intros Hx Hy. by rewrite Z.add_mod, Hx, Hy. Qed.

Lemma align_eq x : 0 ≤ x < 2 ^ 32 - 3 → LWIP_MEM_ALIGN_SIZE x = (x + 3) / 4 * 4.
Proof.
  intros Hx. unfold LWIP_MEM_ALIGN_SIZE, MEM_ALIGNMENT. replace (x + 4 - 1) with (x + 3) by lia. rewrite u32_small by (unfold is_u32; lia).
  change (4 - 1) with (Z.ones 2). rewrite <- Z.ldiff_land, Z.ldiff_ones_r, Z.shiftl_mul_pow2, Z.shiftr_div_pow2 by lia. done.
Qed.

(** The room for headers. *)
Definition headroom (layer : pbuf_layer) : Z := LWIP_MEM_ALIGN_SIZE (layer_offset layer).

Lemma headroom_range layer : layer_offset layer ≤ headroom layer ≤ 56 ∧ 0 ≤ layer_offset layer ≤ 54.
Proof. destruct layer; vm_compute; intuition congruence. Qed.

Lemma first_payload layer p : p mod 4 = 0 → 0 ≤ p → p + 16 + 2000 < 2 ^ 32 →
  LWIP_MEM_ALIGN (u32 (p + (SIZEOF_STRUCT_PBUF + layer_offset layer))) = p + 16 + headroom layer.
Proof.
  intros H1 H2 H3. unfold LWIP_MEM_ALIGN, headroom. change SIZEOF_STRUCT_PBUF with 16. pose proof (headroom_range layer).
  rewrite u32_small, !align_eq by (unfold is_u32; lia). dlia.
Qed.

Section ops.
Context {H : Type} (mem_malloc : Z → M H (option Z)) (mem_free : Z → M H unit) (mem_realloc : Z → Z → M H (option Z)).
Implicit Types (s : pst H) (b : gmap Z pbuf).

Lemma at_eq s p q : bufs s !! p = Some q → at_ p s = Ret q s.
Proof. unfold at_. by intros ->. Qed.

Lemma upd_eq_buf s p q f : bufs s !! p = Some q → upd_buf p f s = Ret tt (set_bufs (<[p := f q]> (bufs s)) s).
Proof. intros Hq. unfold upd_buf. by rewrite (bind_eq _ _ _ _ _ (at_eq _ _ _ Hq)). Qed.

Lemma assert_eq s (c : bool) : c = true → massert c s = Ret tt s.
Proof. by intros ->. Qed.

Ltac ld Hq := rewrite (bind_eq _ _ _ _ _ (at_eq _ _ _ Hq)).
Ltac st := rewrite (bind_eq (put _ _) _ _ tt _ eq_refl).
Ltac ast :=
  match goal with |- context [bind (massert ?c) _ ?s] =>
    let Hc := fresh in assert (c = true) as Hc by (zbool; lia); rewrite (bind_eq (massert c) _ s tt s (assert_eq s c Hc)); clear Hc
  end.

(** *** [pbuf_cat] *)

(** The buffers of the first chain once the packet of [tl] bytes at [t] follows. *)
Fixpoint joined (l : list (Z * pbuf)) (t tl : Z) : list (Z * pbuf) :=
  match l with
  | [] => []
  | (a, q) :: l' =>
      let q := set_tot_len (tot_len q + tl) q in
      (a, match l' with [] => set_next (Some t) q | _ => q end) :: joined l' t tl
  end.

Lemma addrs_joined l t tl : addrs (joined l t tl) = addrs l.
Proof. induction l as [|[a q] l IH]; [done|]. cbn. f_equal; [by destruct l|]. exact IH. Qed.

Lemma total_joined l t tl : total (joined l t tl) = total l.
Proof. induction l as [|[a q] l IH]; [done|]. cbn. rewrite IH. by destruct l. Qed.

Lemma keys_joined l t tl : (joined l t tl).*1 = l.*1.
Proof. induction l as [|[a q] l IH]; [done|]. cbn. by rewrite IH. Qed.

Lemma totals_joined l t lt : totals l → totals lt → totals (joined l t (total lt) ++ lt).
Proof.
  intros Hl Ht. induction l as [|[a q] l IH]; [done|]. destruct Hl as (H1 & H2 & H3). cbn. split; [by destruct l|].
  split; [|by apply IH]. rewrite total_app, total_joined. destruct l; cbn in *; lia.
Qed.

Lemma cat_loop_ok t tb lt : tot_len tb = total lt → ∀ lh fuel s h, (length lh ≤ S fuel)%nat →
  linked (bufs s) (Some h) lh → totals lh → t ∉ lh.*1 → bufs s !! t = Some tb → 0 ≤ total lt → total lh + total lt < 65536 →
  ∃ b' a q, cat_loop fuel h t s = Ret a (set_bufs b' s) ∧ b' !! a = Some q ∧ tot_len q = len q ∧ a ∈ lh.*1 ∧ 0 ≤ len q ≤ total lh ∧
    (∀ x, x ∉ lh.*1 → b' !! x = bufs s !! x) ∧
    ∀ b'', (∀ x, x ≠ a → b'' !! x = b' !! x) → b'' !! a = Some (set_next (Some t) (set_tot_len (tot_len q + total lt) q)) →
      linked b'' (Some t) lt → linked b'' (Some h) (joined lh t (total lt) ++ lt).
Proof.
  intros Et. induction lh as [|[a q] lh IH]; intros fuel s h Hf Hl Ht Hn Hb H0 Hm; [done|].
  pose proof (linked_nodup _ _ _ Hl) as Hnd. destruct Hl as ([= ->] & Hq & Hl). destruct Ht as (T1 & T2 & T3). cbn in Hn, Hm, Hnd.
  apply not_elem_of_cons in Hn as [Hn1 Hn2]. apply NoDup_cons in Hnd as [Hnd1 Hnd2].
  pose proof (total_nonneg _ T3). destruct lh as [|[a' q'] lh].
  - exists (bufs s), a, q. cbn in Hl, T2, Hm. split; [|split; [done|]; split; [lia|]; split; [by left|]; split; [cbn; lia|]; split; [done|]].
    + destruct fuel; [by destruct s|]. cbn [cat_loop]. ld Hq. rewrite Hl. by destruct s.
    + intros b'' _ Hb'' Hlt. cbn. split; [done|]. split; [done|]. done.
  - destruct fuel as [|fuel]; [cbn in Hf; lia|]. cbn [cat_loop]. ld Hq. pose proof Hl as (En & _). rewrite En. cbn iota.
    ld Hb. st. set (q1 := set_tot_len _ q).
    assert (q1 = set_tot_len (tot_len q + total lt) q) as E1.
    { unfold q1. rewrite Et, u16_small; [done|]. cbn [total] in *. lia. }
    edestruct (IH fuel (set_bufs (<[a := q1]> (bufs s)) s) a') as (b' & a1 & r & E & Hr & Tr & Ha1 & Hlr & Hfr & Hlk).
    + cbn in *. lia.
    + cbn [bufs set_bufs]. eapply linked_agree; [|rewrite <- En; exact Hl]. intros x Hx. apply lookup_insert_ne. intros <-. done.
    + done.
    + done.
    + cbn [bufs set_bufs]. by rewrite lookup_insert_ne.
    + done.
    + cbn [total] in *. lia.
    + exists b', a1, r. cbn [bufs set_bufs] in Hfr. split; [exact E|]. split; [done|]. split; [done|]. split; [by right|].
      split; [cbn [total] in *; lia|]. split.
      * intros x Hx. cbn in Hx. apply not_elem_of_cons in Hx as [Hx1 Hx2]. rewrite Hfr by done. by apply lookup_insert_ne.
      * intros b'' Hag Hb'' Hlt. cbn [joined app linked]. split; [done|]. split.
        { rewrite Hag by (intros ->; done). rewrite Hfr by done. rewrite lookup_insert_eq, E1. done. }
        change (next (set_tot_len (tot_len q + total lt) q)) with (next q). rewrite En. by apply Hlk.
Qed.

Lemma pbuf_cat_ok s h t lh lt :
  packet (bufs s) (Some h) lh → packet (bufs s) (Some t) lt → lh.*1 ## lt.*1 → total lh + total lt < 65536 →
  ∃ b', pbuf_cat h t s = Ret tt (set_bufs b' s) ∧ packet b' (Some h) (joined lh t (total lt) ++ lt) ∧
    (∀ x, x ∉ lh.*1 → b' !! x = bufs s !! x).
Proof.
  intros (L1 & T1 & M1) (L2 & T2 & M2) Hd Hm. destruct lt as [|[t' tb] lt]; [done|].
  pose proof L2 as ([= ->] & Hb & _). set (lt' := (t', tb) :: lt) in *. pose proof (total_nonneg _ T2).
  assert (tot_len tb = total lt') as Et by (destruct T2 as (_ & -> & _); done).
  edestruct (cat_loop_ok t' tb lt' Et lh (size (bufs s)) s h) as (b' & a & q & E & Hq & Tq & Ha & Hlq & Hfr & Hlk); try done.
  { pose proof (linked_size _ _ _ L1). lia. }
  { intros Hx. apply (Hd t' Hx). by left. }
  assert (t' ∉ lh.*1) as Htn by (intros Hx; apply (Hd t' Hx); by left).
  unfold pbuf_cat. rewrite (bind_eq (gets _) _ _ _ _ eq_refl). rewrite (bind_eq _ _ _ _ _ E).
  rewrite (bind_eq _ _ _ _ _ (at_eq (set_bufs b' s) a q Hq)). ast.
  rewrite (bind_eq _ _ _ _ _ (at_eq (set_bufs b' s) t' tb ltac:(cbn; rewrite Hfr; done))). st.
  rewrite (upd_eq_buf _ a _ _ (lookup_insert_eq _ _ _)). cbn [bufs set_bufs]. rewrite insert_insert_eq.
  eexists. split; [by destruct s|]. rewrite Et, u16_small by lia. split; [split; [|split]|].
  - apply Hlk; [intros; by apply lookup_insert_ne|by rewrite lookup_insert_eq|].
    eapply linked_agree; [|exact L2]. intros x Hx. rewrite lookup_insert_ne; [apply Hfr|]; intros ?; subst; by eapply Hd.
  - by apply totals_joined.
  - rewrite total_app, total_joined. done.
  - intros x Hx. rewrite lookup_insert_ne by (intros ->; done). by apply Hfr.
Qed.
(** *** [pbuf_free] *)

Fixpoint freed (l : list (Z * pbuf)) : list (Z * pbuf) :=
  match l with [] => [] | (a, q) :: l' => if ref q =? 1 then (a, q) :: freed l' else [] end.
Fixpoint kept (l : list (Z * pbuf)) : list (Z * pbuf) :=
  match l with [] => [] | (a, q) :: l' => if ref q =? 1 then kept l' else l end.

Definition keys (P : pbuf_type → bool) (l : list (Z * pbuf)) : list Z := omap (λ x, if P (ptype x.2) then Some x.1 else None) l.

Definition is_pool (t : pbuf_type) : bool := match t with PBUF_POOL => true | _ => false end.
Definition is_refs (t : pbuf_type) : bool := match t with PBUF_ROM | PBUF_REF => true | _ => false end.
Definition is_ram (t : pbuf_type) : bool := match t with PBUF_RAM => true | _ => false end.

Definition counted (x : Z * pbuf) : Prop := x.1 mod 4 = 0 ∧ 1 ≤ ref x.2 < 65536.

(** Blocks given back to the heap one after the other. *)
Fixpoint run_frees (l : list Z) : M H unit := match l with [] => ret tt | a :: l' => do* mem_free a in run_frees l' end.

(** The buffers up to the first one with another reference are gone, each back where it
    came from; that one has a reference less. *)
Record released (l : list (Z * pbuf)) (s s' : pst H) : Prop := {
  rel_gone x : x ∈ (freed l).*1 → bufs s' !! x = None;
  rel_head a q l' : kept l = (a, q) :: l' → bufs s' !! a = Some (set_ref (ref q - 1) q);
  rel_same x : x ∉ (freed l).*1 → fst <$> head (kept l) ≠ Some x → bufs s' !! x = bufs s !! x;
  rel_pool : pool s' = reverse (keys is_pool (freed l)) ++ pool s;
  rel_refs : Pbuf.refs s' = reverse (keys is_refs (freed l)) ++ Pbuf.refs s;
  rel_ram : run_frees (keys is_ram (freed l)) (ram s) = Ret tt (ram s');
  rel_bytes : bytes s' = bytes s }.

Lemma dealloc_eq s a q h : a mod 4 = 0 → run_frees (keys is_ram [(a, q)]) (ram s) = Ret tt h → ∃ s', dealloc mem_free a (ptype q) s = Ret tt s' ∧
  bufs s' = delete a (bufs s) ∧ bytes s' = bytes s ∧ pool s' = keys is_pool [(a, q)] ++ pool s ∧
  Pbuf.refs s' = keys is_refs [(a, q)] ++ Pbuf.refs s ∧ ram s' = h.
Proof.
  intros Ha. unfold dealloc, memp_free, MEM_ALIGNMENT, keys. rewrite (bind_eq (modify _) _ _ tt _ eq_refl), Ha.
  destruct (ptype q) eqn:E; cbn; rewrite E; cbn; [|intros [= <-]; eexists; (split; [reflexivity|done])..].
  unfold on_ram, zoom, bind. cbn. destruct (mem_free a (ram s)) as [[] h'| | |]; cbn; [|done..]. intros [= <-]. eexists. split; [reflexivity|done].
Qed.

Lemma run_frees_app (a b : list Z) h h' : run_frees (a ++ b) h = Ret tt h' → ∃ h1, run_frees a h = Ret tt h1 ∧ run_frees b h1 = Ret tt h'.
Proof.
  revert h. induction a as [|x a IH]; intros h; cbn [app run_frees]; [by exists h|]. unfold bind. destruct (mem_free x h) as [[] h1| | |]; [|done..]. apply IH.
Qed.
Lemma run_frees_cat (a b : list Z) h h1 h' : run_frees a h = Ret tt h1 → run_frees b h1 = Ret tt h' → run_frees (a ++ b) h = Ret tt h'.
Proof.
  revert h. induction a as [|x a IH]; intros h; cbn [app run_frees]; [by intros [= ->]|]. unfold bind. destruct (mem_free x h) as [[] h2| | |]; [|done..]. apply IH.
Qed.

Lemma keys_cons P x l : keys P (x :: l) = keys P [x] ++ keys P l.
Proof. unfold keys. cbn. by destruct (P _). Qed.

Lemma keys_one_rev P x : reverse (keys P [x]) = keys P [x].
Proof. unfold keys. cbn. by destruct (P _). Qed.

Lemma kept_in l x : x ∈ (kept l).*1 → x ∈ l.*1.
Proof. induction l as [|[a q] l IH]; [done|]. cbn. destruct (_ =? _); [|done]. intros Hx. right. by apply IH. Qed.

Lemma freed_in l x : x ∈ (freed l).*1 → x ∈ l.*1.
Proof.
  induction l as [|[a q] l IH]; [done|]. cbn. destruct (_ =? _); [|by intros ?%elem_of_nil]. cbn. rewrite !elem_of_cons.
  intros [->|Hx]; [by left|right; by apply IH].
Qed.

Lemma head_in (l : list (Z * pbuf)) x : fst <$> head l = Some x → x ∈ l.*1.
Proof. destruct l; [done|]. cbn. intros [= ->]. by left. Qed.

Lemma free_loop_ok : ∀ l fuel s p c h, (length l ≤ fuel)%nat → linked (bufs s) p l → Forall counted l → 0 ≤ c < 256 →
  run_frees (keys is_ram (freed l)) (ram s) = Ret tt h →
  ∃ s', free_loop mem_free fuel p c s = Ret (u8 (c + Z.of_nat (length (freed l)))) s' ∧ released l s s'.
Proof.
  induction l as [|[a q] l IH]; intros fuel s p c h Hf Hl Hc H0 Hh.
  { cbn in Hl. subst p. exists s. cbn. rewrite Z.add_0_r. split; [unfold u8; rewrite Z.mod_small by lia; by destruct fuel|].
    split; try done; by intros x ?%elem_of_nil. }
  pose proof (linked_nodup _ _ _ Hl) as Hnd. destruct Hl as (-> & Hq & Hl). apply Forall_cons in Hc as [[Ha Hr] Hc]. cbn in Ha, Hr, Hnd.
  apply NoDup_cons in Hnd as [Hnd1 Hnd2]. destruct fuel as [|fuel]; [cbn in Hf; lia|]. cbn [free_loop freed kept]. ld Hq. ast. st.
  rewrite u16_small by lia. destruct (Z.eqb_spec (ref q) 1) as [E|E].
  - rewrite E. change (1 - 1 =? 0) with true. cbn iota. cbn [freed] in Hh. rewrite (proj2 (Z.eqb_eq _ _) E), keys_cons in Hh.
    pose proof Hh as (h1 & Hh1 & Hh2)%run_frees_app.
    edestruct (dealloc_eq (set_bufs (<[a := set_ref (1 - 1) q]> (bufs s)) s) a q h1 Ha Hh1) as (s1 & E1 & B1 & Y1 & P1 & R1 & M1).
    rewrite (bind_eq _ _ _ _ _ E1). cbn in B1, Y1, P1, R1, M1. rewrite delete_insert_eq in B1.
    edestruct (IH fuel s1 (next q) (u8 (c + 1)) h) as (s' & E' & [G1 G2 G3 G4 G5 G6 G7]); [cbn in Hf; lia| |done| |by rewrite M1|].
    { rewrite B1. eapply linked_agree; [|exact Hl]. intros x Hx. apply lookup_delete_ne. intros ->. done. }
    { apply u8_below. }
    exists s'. split; [rewrite E'; f_equal; cbn [length]; unfold u8; rewrite Zplus_mod_idemp_l; f_equal; lia|].
    assert (freed ((a, q) :: l) = (a, q) :: freed l) as Ef by (cbn; by rewrite (proj2 (Z.eqb_eq _ _) E)).
    assert (kept ((a, q) :: l) = kept l) as Ek by (cbn; by rewrite (proj2 (Z.eqb_eq _ _) E)).
    split; rewrite ?Ef, ?Ek; try done.
    + intros x. cbn. intros [->|Hx]%elem_of_cons; [|by apply G1]. destruct (decide (a ∈ (freed l).*1)); [by apply G1|].
      rewrite G3; [by rewrite B1, lookup_delete_eq|done|]. intros Hx%head_in%kept_in. done.
    + intros x. cbn. intros [Hx1 Hx2]%not_elem_of_cons Hx3. rewrite G3, B1 by done. by apply lookup_delete_ne.
    + rewrite G4, P1, keys_cons, reverse_app, keys_one_rev, <- app_assoc. done.
    + rewrite G5, R1, keys_cons, reverse_app, keys_one_rev, <- app_assoc. done.
    + rewrite keys_cons. eapply run_frees_cat; [exact Hh1|]. by rewrite <- M1.
    + by rewrite G7, Y1.
  - destruct (Z.eqb_spec (ref q - 1) 0); [lia|]. cbn iota. eexists. split; [cbn; rewrite Z.add_0_r; unfold u8; rewrite Z.mod_small by lia; done|].
    split; cbn; rewrite ?(proj2 (Z.eqb_neq _ _) E); try done.
    + by intros x ?%elem_of_nil.
    + intros a' q' l' [= -> -> ->]. apply lookup_insert_eq.
    + intros x _ Hx. apply lookup_insert_ne. intros ->. done.
Qed.

Lemma pbuf_free_ok s p l h : linked (bufs s) (Some p) l → Forall counted l → run_frees (keys is_ram (freed l)) (ram s) = Ret tt h →
  ∃ s', pbuf_free mem_free (Some p) s = Ret (u8 (Z.of_nat (length (freed l)))) s' ∧ released l s s'.
Proof.
  intros Hl Hc Hh. unfold pbuf_free. rewrite (bind_eq (gets _) _ _ _ _ eq_refl).
  destruct (free_loop_ok l (S (size (bufs s))) s (Some p) 0 h) as (s' & E & Hs); [|done|done|lia|done|by exists s'].
  pose proof (linked_size _ _ _ Hl). lia.
Qed.
(** *** [pbuf_realloc] *)

Definition lowered (l : list (Z * pbuf)) (g : Z) : list (Z * pbuf) := (λ x, (x.1, set_tot_len (tot_len x.2 + g) x.2)) <$> l.
Definition cut (r : Z) (q : pbuf) : pbuf := set_next None (set_tot_len r (set_len r q)).

Lemma realloc_skip_ok g : -65536 < g < 0 → ∀ l fuel s p rem, l ≠ [] → (length l ≤ fuel)%nat → linked (bufs s) (Some p) l → totals l →
  total l < 65536 → rem = total l + g → 0 ≤ rem →
  ∃ pre a q post r b', l = pre ++ (a, q) :: post ∧ realloc_skip fuel p rem g s = Ret (a, r) (set_bufs b' s) ∧
    0 ≤ r ≤ len q ∧ rem = total pre + r ∧ (∀ x, x ∉ pre.*1 → b' !! x = bufs s !! x) ∧
    ∀ b'', (∀ x, x ∈ pre.*1 → b'' !! x = b' !! x) → b'' !! a = Some (cut r q) → linked b'' (Some p) (lowered pre g ++ [(a, cut r q)]).
Proof.
  intros Hg. induction l as [|[a q] l IH]; intros fuel s p rem H0 Hf Hl Ht Hm Er Hr; [done|].
  pose proof (linked_nodup _ _ _ Hl) as Hnd. destruct Hl as ([= ->] & Hq & Hl). destruct Ht as (T1 & T2 & T3). cbn in Hnd, Hm, Er.
  apply NoDup_cons in Hnd as [Hnd1 Hnd2]. destruct fuel as [|fuel]; [cbn in Hf; lia|]. cbn [realloc_skip]. ld Hq.
  destruct (Z.ltb_spec (len q) rem) as [Hlt|Hge].
  - ast. st. destruct l as [|[a' q'] l]; [cbn in Er; lia|]. pose proof Hl as (En & Hq' & _). rewrite En. cbn iota.
    set (q1 := set_tot_len _ q). assert (q1 = set_tot_len (tot_len q + g) q) as E1.
    { unfold q1. f_equal. unfold u16. rewrite Zplus_mod_idemp_r. apply Z.mod_small. lia. }
    pose proof (total_nonneg _ T3).
    edestruct (IH fuel (set_bufs (<[a := q1]> (bufs s)) s) a' (rem - len q)) as (pre & a1 & r1 & post & r & b' & E & E' & Hr1 & Hs & Hfr & Hlk);
      [done|cbn in *; lia| |done|lia|lia|lia|].
    { rewrite <- En. eapply linked_agree; [|exact Hl]. intros x Hx. cbn. apply lookup_insert_ne. intros ->. done. }
    rewrite (u16_small (rem - len q)) by lia. rewrite E'. exists ((a, q) :: pre), a1, r1, post, r, b'.
    split; [by rewrite E|]. split; [done|]. split; [done|]. split; [cbn; lia|]. cbn [bufs set_bufs] in Hfr. split.
    + intros x. cbn. intros [Hx1 Hx2]%not_elem_of_cons. rewrite Hfr by done. by apply lookup_insert_ne.
    + intros b'' Hag Ha. cbn. split; [done|]. split.
      * rewrite Hag by (cbn; by left). rewrite Hfr, lookup_insert_eq, E1; [done|]. intros Hx. apply Hnd1. rewrite E, fmap_app. apply elem_of_app. by left.
      * rewrite En. apply Hlk; [|done]. intros x Hx. apply Hag. cbn. by right.
  - exists [], a, q, l, rem, (bufs s). split; [done|]. split; [by destruct s|]. split; [lia|]. split; [cbn; lia|]. split; [done|].
    intros b'' _ Ha. by repeat split.
Qed.

Lemma total_lowered l g : total (lowered l g) = total l.
Proof. unfold lowered. induction l as [|[x y] l IH]; [done|]. cbn. by rewrite IH. Qed.

Lemma addrs_lowered l g : addrs (lowered l g) = addrs l.
Proof. unfold lowered. induction l as [|[x y] l IH]; [done|]. cbn. f_equal. exact IH. Qed.

Lemma totals_lowered l g r a q post : totals (l ++ (a, q) :: post) → 0 ≤ r → g = r - total ((a, q) :: post) →
  totals (lowered l g ++ [(a, cut r q)]).
Proof.
  intros Ht Hr Eg. induction l as [|[x y] l IH]; [cbn; lia|]. destruct Ht as (T1 & T2 & T3).
  cbn [lowered fmap list_fmap app totals fst snd]. fold (lowered l g). split; [done|]. split; [|by apply IH].
  rewrite total_app, total_lowered. rewrite total_app in T2. cbn in *. lia.
Qed.

Lemma take_seqZ p n m : 0 ≤ n ≤ m → take (Z.to_nat n) (seqZ p m) = seqZ p n.
Proof.
  intros Hn. replace m with (n + (m - n)) by lia. rewrite seqZ_app by lia. rewrite take_app_le by (rewrite length_seqZ; lia).
  apply take_ge. rewrite length_seqZ. lia.
Qed.

Lemma addrs_cut l g r a q post : lens (l ++ (a, q) :: post) → 0 ≤ r ≤ len q →
  addrs (lowered l g ++ [(a, cut r q)]) = take (Z.to_nat (total l + r)) (addrs (l ++ (a, q) :: post)).
Proof.
  intros Ht Hr. apply Forall_app in Ht as [Hl _]. pose proof (length_addrs l Hl).
  rewrite !addrs_app, addrs_lowered, take_app, (take_ge (addrs l)) by lia. f_equal.
  replace (Z.to_nat (total l + r) - length (addrs l))%nat with (Z.to_nat r) by lia. cbn. fold (addrs post).
  rewrite app_nil_r, take_app_le by (rewrite length_seqZ; lia). by rewrite take_seqZ.
Qed.

(** The heap operations of a cut: a buffer in the heap that becomes shorter is shrunk, and
    has to stay where it is; then what is freed of the rest is given back. *)
Definition shrink_to (a : Z) (q : pbuf) (r : Z) : M H (option Z) :=
  if bool_decide (ptype q = PBUF_RAM) && negb (r =? len q) then mem_realloc a (u32 (payload q - a + r)) else ret (Some a).
Definition heap_cut (a : Z) (q : pbuf) (r : Z) (post : list (Z * pbuf)) (h h' : H) : Prop :=
  ∃ h1, shrink_to a q r h = Ret (Some a) h1 ∧ run_frees (keys is_ram (freed post)) h1 = Ret tt h'.
Definition shrinks (l : list (Z * pbuf)) (h : H) : Prop := ∀ pre a q post r, l = pre ++ (a, q) :: post → 0 ≤ r ≤ len q → ∃ h', heap_cut a q r post h h'.

(** The rest [post] behind the buffer [q] at [a], which is cut to [r] bytes, loses one
    reference: its buffers up to the first one with another reference are gone, each back
    where it came from, that one has a reference less, and everything but the buffers of
    [pre] and [q] is as before. *)
Record shrunk (pre : list (Z * pbuf)) (a : Z) (q : pbuf) (r : Z) (post : list (Z * pbuf)) (s s' : pst H) : Prop := {
  sh_bytes : bytes s' = bytes s;
  sh_pool : pool s' = reverse (keys is_pool (freed post)) ++ pool s;
  sh_refs : Pbuf.refs s' = reverse (keys is_refs (freed post)) ++ Pbuf.refs s;
  sh_ram : heap_cut a q r post (ram s) (ram s');
  sh_gone x : x ∈ (freed post).*1 → bufs s' !! x = None;
  sh_head y k post' : kept post = (y, k) :: post' → bufs s' !! y = Some (set_ref (ref k - 1) k);
  sh_same x : x ∉ pre.*1 → x ≠ a → x ∉ (freed post).*1 → fst <$> head (kept post) ≠ Some x → bufs s' !! x = bufs s !! x }.

Lemma released_nil s : released [] s s.
Proof. split; try done; by intros x ?%elem_of_nil. Qed.

Lemma free_rest s p l h : linked (bufs s) p l → Forall counted l → run_frees (keys is_ram (freed l)) (ram s) = Ret tt h →
  ∃ s', (match p with None => ret tt | Some t => do* pbuf_free mem_free (Some t) in ret tt end) s = Ret tt s' ∧ released l s s'.
Proof.
  intros Hl Hc Hh. destruct l as [|[a q] l]; [cbn in Hl; subst p; exists s; split; [done|apply released_nil]|].
  pose proof Hl as (-> & _). destruct (pbuf_free_ok s a ((a, q) :: l) h Hl Hc Hh) as (s' & E & Hs). exists s'. split; [|done].
  by rewrite (bind_eq _ _ _ _ _ E).
Qed.

Lemma released_out l s s' x : released l s s' → x ∉ l.*1 → bufs s' !! x = bufs s !! x.
Proof.
  intros Hr Hx. apply (rel_same _ _ _ Hr).
  - intros Hx'. by apply Hx, freed_in.
  - intros Hx'. by apply Hx, kept_in, head_in.
Qed.

Lemma realloc_block s a q r h : shrink_to a q r (ram s) = Ret (Some a) h →
  (if bool_decide (ptype q = PBUF_RAM) && negb (r =? len q) then
     let* r := on_ram (mem_realloc a (u32 (payload q - a + r))) in
     match r with None => panic "mem_realloc give q == NULL" | Some r => ret r end
   else ret a) s = Ret a (set_ram h s).
Proof.
  unfold shrink_to. destruct (_ && _); [|intros [= <-]; by destruct s]. intros E. unfold bind, on_ram, zoom. by rewrite E.
Qed.

Lemma realloc_last_ok s a q r pre post h : bufs s !! a = Some q → linked (bufs s) (next q) post → a ∉ post.*1 → Forall counted post →
  heap_cut a q r post (ram s) h →
  ∃ s', realloc_last mem_free mem_realloc a r s = Ret tt s' ∧ bufs s' !! a = Some (cut r q) ∧ shrunk pre a q r post s s' ∧
    (∀ x, x ≠ a → x ∉ post.*1 → bufs s' !! x = bufs s !! x).
Proof.
  intros Hq Hpost Hna Hc (h1 & Eh1 & Eh). unfold realloc_last. ld Hq.
  rewrite (bind_eq _ _ _ _ _ (realloc_block s a q r h1 Eh1)). rewrite (bind_eq _ _ _ _ _ (upd_eq_buf (set_ram h1 s) a q _ Hq)).
  rewrite (bind_eq _ _ _ _ _ (upd_eq_buf (set_bufs (<[a:=set_len r q]> (bufs s)) (set_ram h1 s)) a _ _ (lookup_insert_eq _ _ _))).
  cbn [bufs set_bufs set_ram bytes pool Pbuf.refs ram]. rewrite insert_insert_eq. set (q1 := set_tot_len r (set_len r q)).
  match goal with |- context [bind _ _ ?t] => set (s1 := t) end.
  rewrite (bind_eq _ _ _ _ _ (at_eq s1 a q1 (lookup_insert_eq _ _ _))).
  destruct (free_rest s1 (next q) post h) as (s2 & E2 & R2); [|done|exact Eh|].
  { eapply linked_agree; [|exact Hpost]. intros x Hx. cbn. apply lookup_insert_ne. intros ->. done. }
  change (next q1) with (next q). rewrite (bind_eq _ _ _ _ _ E2).
  assert (bufs s2 !! a = Some q1) as H2 by (rewrite (released_out _ _ _ _ R2) by done; apply lookup_insert_eq).
  rewrite (upd_eq_buf _ a q1 _ H2). eexists. split; [done|]. cbn [bufs set_bufs bytes pool Pbuf.refs].
  split; [apply lookup_insert_eq|]. pose proof R2 as [G1 G2 G3 G4 G5 G6 G7]. split; [split; try done|].
  - by exists h1.
  - intros x Hx. cbn. rewrite lookup_insert_ne; [by apply G1|]. intros ->. by apply Hna, freed_in.
  - intros y k post' Ek. cbn. rewrite lookup_insert_ne; [by eapply G2|]. intros ->. apply Hna, kept_in. rewrite Ek. by left.
  - intros x _ Hx Hx1 Hx2. cbn. rewrite lookup_insert_ne by done. rewrite G3 by done. by apply lookup_insert_ne.
  - intros x Hx1 Hx2. rewrite lookup_insert_ne by done. rewrite (released_out _ _ _ _ R2) by done. by apply lookup_insert_ne.
Qed.

Lemma linked_suffix b : ∀ pre a q post p, linked b p (pre ++ (a, q) :: post) → b !! a = Some q ∧ linked b (next q) post.
Proof. induction pre as [|[x y] pre IH]; intros a q post p; cbn; [by intros (_ & ? & ?)|]. intros (_ & _ & Hl). by eapply IH. Qed.

Lemma pbuf_realloc_ok s p l n : packet (bufs s) (Some p) l → Forall counted l → 0 ≤ n < total l → shrinks l (ram s) →
  ∃ s' pre a q post, let l' := lowered pre (n - total l) ++ [(a, cut (n - total pre) q)] in
    l = pre ++ (a, q) :: post ∧ 0 ≤ n - total pre ≤ len q ∧ pbuf_realloc mem_free mem_realloc p n s = Ret tt s' ∧
    packet (bufs s') (Some p) l' ∧ total l' = n ∧ addrs l' = take (Z.to_nat n) (addrs l) ∧ shrunk pre a q (n - total pre) post s s'.
Proof.
  intros (L & T & M) Hc Hn Hk. destruct l as [|[p' b0] l0] eqn:El; [done|]. pose proof L as ([= ->] & H0 & _).
  rewrite <- El in *. assert (tot_len b0 = total l) as E0 by (subst l; by destruct T as (_ & -> & _)).
  unfold pbuf_realloc. ld H0. rewrite E0. destruct (Z.leb_spec (total l) n); [lia|]. rewrite (bind_eq (gets _) _ _ _ _ eq_refl).
  edestruct (realloc_skip_ok (n - total l) ltac:(lia) l (size (bufs s)) s p' n) as (pre & a & q & post & r & b' & E & Es & Hr & Ern & Hfr & Hlk);
    [by subst|by eapply linked_size|done|done|done|lia|lia|].
  clear El l0 E0 H0 b0. pose proof (linked_nodup _ _ _ L) as Hnd. rewrite E, fmap_app in Hnd. cbn in Hnd.
  apply NoDup_app in Hnd as (_ & Hnd1 & [Hnd2 _]%NoDup_cons). assert (a ∉ pre.*1) as Hpa by (intros Hx; apply (Hnd1 a Hx); by left).
  rewrite E in L, Hc. destruct (linked_suffix _ _ _ _ _ _ L) as [Hq Hpost]. apply Forall_app in Hc as [_ [_ Hc]%Forall_cons].
  rewrite (bind_eq _ _ _ _ _ Es). cbn [fst snd].
  destruct (Hk pre a q post r E Hr) as [h Hh].
  destruct (realloc_last_ok (set_bufs b' s) a q r pre post h) as (s' & E' & Ha & Hsh & Hs); cbn [bufs set_bufs ram]; try done.
  { by rewrite Hfr. }
  { eapply linked_agree; [|exact Hpost]. intros x Hx. apply Hfr. intros Hx'. apply (Hnd1 x Hx'). by right. }
  exists s', pre, a, q, post. cbn zeta. replace (n - total pre) with r by lia. split; [done|]. split; [done|]. split; [done|]. assert (total l = total pre + total ((a, q) :: post)) as Et by (by rewrite E, total_app).
  assert (total (lowered pre (n - total l) ++ [(a, cut r q)]) = n) as Et' by (rewrite total_app, total_lowered; cbn; lia).
  split; [split; [|split]|split; [done|split]].
  - apply Hlk; [|done]. intros x Hx. apply Hs; [intros ->; done|]. intros Hx'. apply (Hnd1 x Hx). by right.
  - eapply (totals_lowered _ _ _ _ _ post); [by rewrite <- E|lia|lia].
  - lia.
  - rewrite Ern, E. apply addrs_cut; [|lia]. rewrite <- E. by apply totals_lens.
  - destruct Hsh as [G1 G2 G3 G4 G5 G6 G7]. split; try done. intros x Hx1 Hx2 Hx3 Hx4. rewrite G7 by done. by apply Hfr.
Qed.
(** *** [pbuf_copy_partial] *)

Lemma drop_seqZ p n m : 0 ≤ n → drop (Z.to_nat n) (seqZ p m) = seqZ (p + n) (m - n).
Proof.
  intros Hn. destruct (decide (n ≤ m)).
  - replace m with (n + (m - n)) at 1 by lia. rewrite seqZ_app by lia. rewrite drop_app_le by (rewrite length_seqZ; lia).
    rewrite (drop_ge (seqZ p n)); [done|]. rewrite length_seqZ. lia.
  - rewrite drop_ge by (rewrite length_seqZ; lia). by rewrite seqZ_nil by lia.
Qed.

(** The bytes from [off] on of a buffer and those after it, and of these the first [n]. *)
Lemma window q rest n off : 0 ≤ n → 0 ≤ off → off ≤ len q →
  take (Z.to_nat n) (drop (Z.to_nat off) (seqZ (payload q) (len q) ++ rest)) =
  seqZ (payload q + off) (Z.min n (len q - off)) ++ take (Z.to_nat (n - Z.min n (len q - off))) rest.
Proof.
  intros. rewrite drop_app_le by (rewrite length_seqZ; lia). rewrite drop_seqZ, take_app, length_seqZ by lia. f_equal.
  - destruct (Z.min_spec n (len q - off)) as [[? ->]|[? ->]]; [by rewrite take_seqZ by lia|]. apply take_ge. rewrite length_seqZ. lia.
  - f_equal. lia.
Qed.

Lemma copy_eq s d a n : memcpy_bytes d a n s = Ret tt (set_bytes (patch (bytes s) d n (λ k, bytes s (a + k))) s).
Proof. done. Qed.

Lemma partial_loop_ok dp : 0 ≤ dp → ∀ l fuel p s n off c, (length l ≤ fuel)%nat → linked (bufs s) p l → Forall placed l → lens l →
  total l < 65536 → 0 ≤ off < 65536 → 0 ≤ n → 0 ≤ c → c + n < 65536 → dp + c + n < 2 ^ 32 → seqZ (dp + c) n ## addrs l →
  let src := take (Z.to_nat n) (drop (Z.to_nat off) (addrs l)) in
  ∃ f', partial_loop fuel p dp c n off c s = Ret (c + Z.of_nat (length src)) (set_bytes f' s) ∧
    moved (bytes s) f' (seqZ (dp + c) (Z.of_nat (length src))) src.
Proof.
  intros Hdp. induction l as [|[a q] l IH]; intros fuel p s n off c Hf Hl Hp Hlen Hm Ho Hn Hc Hcn Hdc Hd src.
  { cbn in Hl. subst p src. cbn [addrs flat_map]. rewrite drop_nil, take_nil. exists (bytes s). split; [|apply moved_nil].
    destruct fuel; cbn; rewrite Z.add_0_r; by destruct s. }
  destruct Hl as (-> & Hq & Hl). destruct fuel as [|fuel]; [cbn in Hf; lia|]. cbn [partial_loop].
  apply Forall_cons in Hp as [[P1 P2] Hp]. apply Forall_cons in Hlen as [L1 Hlen]. cbn in P1, P2, L1, Hm.
  assert (0 ≤ total l) as Htl by (rewrite <- (length_addrs l Hlen); lia).
  destruct (Z.eqb_spec n 0) as [->|Hn0].
  { subst src. cbn [Z.to_nat take length]. exists (bytes s). split; [rewrite Z.add_0_r; by destruct s|apply moved_nil]. }
  ld Hq. assert (addrs ((a, q) :: l) = seqZ (payload q) (len q) ++ addrs l) as Ea by done.
  destruct (Z.eqb_spec off 0) as [E0|E0]; [|destruct (Z.leb_spec (len q) off) as [Hlo|Hlo]]; cbn [negb andb].
  2:{ destruct (IH fuel (next q) s n (off - len q) c) as (f' & E & Hmv); try done; try lia.
    { cbn in Hf. lia. } { intros x Hx1 Hx2. apply (Hd x Hx1). rewrite Ea. apply elem_of_app. by right. }
    rewrite u16_small by lia. assert (src = take (Z.to_nat n) (drop (Z.to_nat (off - len q)) (addrs l))) as ->.
    { unfold src. rewrite Ea, drop_app_ge by (rewrite length_seqZ; lia). rewrite length_seqZ. do 2 f_equal. lia. }
    by exists f'. }
  all: assert (off ≤ len q) as Hoq by lia; rewrite (u16_small (len q - off)) by lia;
    replace (if n <? len q - off then n else len q - off) with (Z.min n (len q - off)) by (zcases; lia);
    set (m := Z.min n (len q - off)); assert (0 ≤ m ≤ n ∧ off + m ≤ len q) as Hmn by lia;
    rewrite (bind_eq _ _ _ _ _ (copy_eq _ _ _ _)), !u16_small, !u32_small by (unfold is_u32; lia);
    pose proof (moved_patch (bytes s) (dp + c) (payload q + off) m ltac:(lia)) as Hmv1;
    set (f1 := patch (bytes s) _ _ _) in *;
    destruct (IH fuel (next q) (set_bytes f1 s) (n - m) 0 (c + m)) as (f' & E & Hmv); cbn [bufs set_bytes]; try done; try lia;
    [cbn in Hf; lia| |].
  all: try (intros x Hx1 Hx2; apply (Hd x); [apply elem_of_seqZ in Hx1; apply elem_of_seqZ; lia|rewrite Ea; apply elem_of_app; by right]).
  all: assert (src = seqZ (payload q + off) m ++ take (Z.to_nat (n - m)) (addrs l)) as -> by (unfold src; rewrite Ea; apply window; lia);
    rewrite drop_0 in E, Hmv; exists f'; rewrite E, length_app, length_seqZ, Nat2Z.inj_add, Z2Nat.id by lia; split; [f_equal; lia|];
    rewrite seqZ_app by lia; eapply moved_app; [| |exact Hmv1|rewrite Z.add_assoc in Hmv; exact Hmv].
  all: intros x Hx1 Hx2; apply elem_of_seqZ in Hx1; try (apply elem_of_seqZ in Hx2; lia).
  all: apply (Hd x); [apply elem_of_seqZ; lia|]; rewrite Ea; apply elem_of_app; right; apply elem_of_take in Hx2 as (i & Hx2 & _); by eapply list_elem_of_lookup_2.
Qed.
(** *** [pbuf_copy] *)

(** A packet that ends with its last buffer: only that one may be the end of the data. *)
Fixpoint solid (l : list (Z * pbuf)) : Prop := match l with [] => True | _ :: l' => (l' = [] ∨ 0 < total l') ∧ solid l' end.

Lemma no_queue_ok s p l : linked (bufs s) p l → totals l → solid l → no_queue p s = Ret tt s.
Proof.
  destruct l as [|[a q] l]; [by intros ->|]. intros (-> & Hq & Hl) (_ & T & _) [Hs _]. unfold no_queue. ld Hq.
  destruct (Z.eqb_spec (len q) (tot_len q)) as [E|E]; [|done]. destruct Hs as [->|Hs]; [|lia]. cbn in Hl. by rewrite Hl.
Qed.

(** The position [n] bytes further in the first buffer of [l]. *)
Definition step_pos (a : Z) (q : pbuf) (l : list (Z * pbuf)) (off : Z) : list (Z * pbuf) * Z := if len q <=? off then (l, 0) else ((a, q) :: l, off).

Lemma step_addrs a q l off n : 0 ≤ off → 0 ≤ n → off + n ≤ len q →
  drop (Z.to_nat off) (addrs ((a, q) :: l)) =
  seqZ (payload q + off) n ++ (let '(l', off') := step_pos a q l (off + n) in drop (Z.to_nat off') (addrs l')).
Proof.
  intros. change (addrs ((a, q) :: l)) with (seqZ (payload q) (len q) ++ addrs l).
  rewrite drop_app_le by (rewrite length_seqZ; lia). rewrite drop_seqZ by lia.
  replace (len q - off) with (n + (len q - off - n)) by lia. rewrite seqZ_app, <- app_assoc by lia. f_equal.
  unfold step_pos. destruct (Z.leb_spec (len q) (off + n)).
  - rewrite seqZ_nil by lia. done.
  - change (addrs ((a, q) :: l)) with (seqZ (payload q) (len q) ++ addrs l).
    rewrite drop_app_le by (rewrite length_seqZ; lia). rewrite drop_seqZ by lia. f_equal. f_equal; lia.
Qed.

(** A position in a packet. *)
Record here (b : gmap Z pbuf) (p : option Z) (l : list (Z * pbuf)) (off : Z) : Prop := {
  h_linked : linked b p l; h_totals : totals l; h_total : total l < 65536; h_solid : solid l; h_placed : Forall placed l;
  h_off : match l with [] => off = 0 | (_, q) :: _ => 0 ≤ off ≤ len q end }.

Lemma step_here b a q l off : here b (Some a) ((a, q) :: l) off → ∀ n, 0 ≤ n → off + n ≤ len q →
  let '(l', off') := step_pos a q l (off + n) in here b (fst (advance a q (off + n))) l' off' ∧
  snd (advance a q (off + n)) = off' ∧ total l' - off' = total ((a, q) :: l) - off - n.
Proof.
  intros [Hl Ht Hm Hs Hp Ho] n Hn Hb. unfold step_pos, advance. pose proof Hl as (_ & Hq & Hl'). pose proof Ht as (T1 & T2 & T3).
  destruct (Z.leb_spec (len q) (off + n)); cbn [fst snd].
  - split; [|split; [done|cbn; lia]]. cbn in Hm. split; try done; [lia|by destruct Hs|by apply Forall_cons in Hp as [_ Hp]|].
    destruct l as [|[x y] l]; [done|]. destruct T3. lia.
  - split; [|split; [done|cbn; lia]]. split; try done. lia.
Qed.
Lemma here_total b p l off : here b p l off → 0 ≤ off ≤ total l.
Proof.
  intros [_ Ht _ _ _ Ho]. destruct l as [|[a q] l]; [cbn; lia|]. destruct Ht as (_ & _ & T). pose proof (total_nonneg _ T). cbn. lia.
Qed.

(** After a round a packet that is not at its end has bytes left. *)
Lemma step_left b a q l off n l' off' : here b (Some a) ((a, q) :: l) off → step_pos a q l (off + n) = (l', off') →
  l' = [] ∨ 0 < total l' - off'.
Proof.
  intros [_ Ht _ [Hs _] _ _]. destruct Ht as (_ & _ & T). pose proof (total_nonneg _ T). unfold step_pos.
  destruct (Z.leb_spec (len q) (off + n)); intros [= <- <-]; [destruct Hs; [by left|right; lia]|right; cbn; lia].
Qed.

Lemma step_shorter a q l off : (length (fst (step_pos a q l off)) ≤ S (length l))%nat.
Proof. unfold step_pos. destruct (_ <=? _); cbn; lia. Qed.

Lemma round_moved f f1 f' d r n m D S : 0 ≤ n → 0 ≤ m → NoDup (seqZ d n ++ D) → seqZ d n ++ D ## seqZ r n ++ S →
  moved f f1 (seqZ d n) (seqZ r n) → moved f1 f' (take (Z.to_nat m) D) S →
  moved f f' (take (Z.to_nat (n + m)) (seqZ d n ++ D)) (seqZ r n ++ S).
Proof.
  intros Hn Hm (_ & Hnd & _)%NoDup_app Hd H1 H2. rewrite take_app, length_seqZ, take_ge by (rewrite length_seqZ; lia).
  replace (Z.to_nat (n + m) - Z.to_nat n)%nat with (Z.to_nat m) by lia. eapply moved_app; [..|exact H1|exact H2].
  - intros x Hx (i & Hx' & _)%elem_of_take. apply (Hnd x Hx). by eapply list_elem_of_lookup_2.
  - intros x Hx Hx'. apply (Hd x); apply elem_of_app; [by left|by right].
Qed.

Lemma copy_loop_ok : ∀ fuel s to lt ot from lf of_, here (bufs s) (Some to) lt ot → here (bufs s) (Some from) lf of_ →
  (length lt + length lf ≤ fuel)%nat → total lf - of_ ≤ total lt - ot →
  NoDup (drop (Z.to_nat ot) (addrs lt)) → drop (Z.to_nat ot) (addrs lt) ## drop (Z.to_nat of_) (addrs lf) →
  ∃ f', copy_loop fuel (Some to) ot from of_ s = Ret ERR_OK (set_bytes f' s) ∧
    moved (bytes s) f' (take (Z.to_nat (total lf - of_)) (drop (Z.to_nat ot) (addrs lt))) (drop (Z.to_nat of_) (addrs lf)).
Proof.
  induction fuel as [|fuel IH]; intros s to lt ot from lf of_ H1 H2 Hf Hle Hnd Hds.
  { pose proof (h_linked _ _ _ _ H1). destruct lt; [done|]. cbn in Hf. lia. }
  destruct lt as [|[to' tb] lt]; [by destruct H1|]. destruct lf as [|[from' fb] lf]; [by destruct H2|].
  pose proof (h_linked _ _ _ _ H1) as ([= <-] & Ht & _). pose proof (h_linked _ _ _ _ H2) as ([= <-] & Hfr & _).
  pose proof (h_off _ _ _ _ H1) as O1. pose proof (h_off _ _ _ _ H2) as O2. cbn in O1, O2.
  pose proof (h_totals _ _ _ _ H1) as (_ & _ & T1%total_nonneg). pose proof (h_totals _ _ _ _ H2) as (_ & _ & T2%total_nonneg).
  pose proof (h_total _ _ _ _ H1) as M1. pose proof (h_total _ _ _ _ H2) as M2. cbn in M1, M2.
  pose proof (h_placed _ _ _ _ H1) as [P1 _]%Forall_cons. pose proof (h_placed _ _ _ _ H2) as [P2 _]%Forall_cons. unfold placed in P1, P2. cbn in P1, P2.
  cbn [copy_loop]. ld Ht. ld Hfr. rewrite (u16_small (len fb - of_)), (u16_small (len tb - ot)) by lia.
  set (n := if _ <=? _ then _ else _). assert (0 ≤ n ∧ ot + n ≤ len tb ∧ of_ + n ≤ len fb ∧ (len tb <= ot + n ∨ len fb ≤ of_ + n)) as (N1 & N2 & N3 & N4) by (unfold n; zcases; lia).
  clearbody n. rewrite (bind_eq _ _ _ _ _ (copy_eq _ _ _ _)), !u32_small, !u16_small by (unfold is_u32; lia).
  pose proof (moved_patch (bytes s) (payload tb + ot) (payload fb + of_) n N1) as Hmv. set (f1 := patch _ _ _ _) in *. ast.
  replace (if ot + n =? len tb then (next tb, 0) else (Some to, ot + n)) with (advance to tb (ot + n)) by (unfold advance; zcases; (done || lia)).
  pose proof (step_addrs to tb lt ot n) as A1. pose proof (step_here _ _ _ _ _ H1 n N1 N2) as G1.
  pose proof (step_addrs from fb lf of_ n) as A2. pose proof (step_here _ _ _ _ _ H2 n N1 N3) as G2.
  destruct (advance to tb (ot + n)) as [pt ot'], (advance from fb (of_ + n)) as [pf of']. ast. cbn [fst snd] in G1, G2.
  destruct (step_pos to tb lt (ot + n)) as [lt' ot''] eqn:S1, (step_pos from fb lf (of_ + n)) as [lf' of''] eqn:S2.
  destruct G1 as (G1 & -> & E1), G2 as (G2 & -> & E2). rewrite A1, A2 in * by lia.
  rewrite (bind_eq _ _ _ _ _ (no_queue_ok (set_bytes f1 s) pf lf' (h_linked _ _ _ _ G2) (h_totals _ _ _ _ G2) (h_solid _ _ _ _ G2))).
  rewrite (bind_eq _ _ _ _ _ (no_queue_ok (set_bytes f1 s) pt lt' (h_linked _ _ _ _ G1) (h_totals _ _ _ _ G1) (h_solid _ _ _ _ G1))).
  pose proof (here_total _ _ _ _ G2) as K2. replace (total ((from, fb) :: lf) - of_) with (n + (total lf' - of'')) by lia.
  destruct (step_left _ _ _ _ _ _ _ _ H2 S2) as [->|Hpos].
  { pose proof (h_linked _ _ _ _ G2) as Hpf. cbn in Hpf. subst pf. exists f1. split; [done|].
    apply (round_moved _ f1); try done; [lia|]. pose proof (h_off _ _ _ _ G2) as Hof. cbn in Hof. subst of''. cbn. by split. }
  destruct lt' as [|[x1 y1] lt']; [cbn in E1; cbn in *; pose proof (h_off _ _ _ _ G1) as Hot; cbn in Hot; lia|].
  pose proof (h_linked _ _ _ _ G1) as (-> & _). destruct lf' as [|[x2 y2] lf']; [cbn in Hpos, K2; lia|].
  pose proof (h_linked _ _ _ _ G2) as (-> & _). apply NoDup_app in Hnd as Hnd'. destruct Hnd' as (_ & _ & Hnd').
  edestruct (IH (set_bytes f1 s) x1 ((x1, y1) :: lt') ot'' x2 ((x2, y2) :: lf') of'') as (f' & E' & Hmv'); try done; [|lia| |].
  { pose proof (step_shorter to tb lt (ot + n)) as Z1. pose proof (step_shorter from fb lf (of_ + n)) as Z2. rewrite S1 in Z1. rewrite S2 in Z2.
    unfold step_pos in S1, S2. cbn in Z1, Z2, Hf |- *.
    destruct N4 as [N4|N4]; [rewrite (proj2 (Z.leb_le _ _) N4) in S1|rewrite (proj2 (Z.leb_le _ _) N4) in S2]; simplify_eq; cbn in Hf; lia. }
  { intros x Hx1 Hx2. apply (Hds x); apply elem_of_app; by right. }
  exists f'. split; [exact E'|]. apply (round_moved _ f1); try done; lia.
Qed.

Lemma pbuf_copy_ok s to from lt lf : packet (bufs s) (Some to) lt → packet (bufs s) (Some from) lf → solid lt → solid lf →
  Forall placed lt → Forall placed lf → total lf ≤ total lt → NoDup (addrs lt) → addrs lt ## addrs lf →
  ∃ f', pbuf_copy (Some to) (Some from) s = Ret ERR_OK (set_bytes f' s) ∧
    moved (bytes s) f' (take (Z.to_nat (total lf)) (addrs lt)) (addrs lf).
Proof.
  intros (L1 & T1 & M1) (L2 & T2 & M2) S1 S2 P1 P2 Hle Hnd Hd. pose proof (linked_size _ _ _ L1). pose proof (linked_size _ _ _ L2).
  assert (here (bufs s) (Some to) lt 0) as G1 by (split; try done; destruct lt as [|[? ?] ?]; [done|]; destruct T1; lia).
  assert (here (bufs s) (Some from) lf 0) as G2 by (split; try done; destruct lf as [|[? ?] ?]; [done|]; destruct T2; lia).
  destruct lt as [|[to' tb] lt]; [done|]. destruct lf as [|[from' fb] lf]; [done|].
  pose proof L1 as ([= <-] & Ht & _). pose proof L2 as ([= <-] & Hf & _). pose proof T1 as (_ & Et & _). pose proof T2 as (_ & Ef & _).
  unfold pbuf_copy. ld Ht. ld Hf. cbn in Hle. destruct (Z.ltb_spec (tot_len tb) (tot_len fb)); [lia|]. rewrite (bind_eq (gets _) _ _ _ _ eq_refl).
  destruct (copy_loop_ok (size (bufs s) + size (bufs s)) s to _ 0 from _ 0 G1 G2) as (f' & E & Hmv); try done; [lia|cbn; lia|].
  rewrite Z.sub_0_r in Hmv. by exists f'.
Qed.
(** *** [pbuf_alloc] from the pool *)

Definition elements (s : pst H) : Prop := NoDup (pool s) ∧
  Forall (λ a, a mod 4 = 0 ∧ 0 ≤ a ∧ a + 16 + PBUF_POOL_BUFSIZE < 2 ^ 32 ∧ bufs s !! a = None) (pool s).

(** The buffers for [rem] bytes from the elements [els]. *)
Fixpoint filled (els : list Z) (rem : Z) : list (Z * pbuf) :=
  match els with
  | [] => []
  | a :: els' =>
      if 0 <? rem then
        let l := Z.min rem PBUF_POOL_BUFSIZE in
        let rest := filled els' (rem - l) in
        (a, MkPbuf (fst <$> head rest) (a + 16) rem l PBUF_POOL 0 1) :: rest
      else []
  end.

Lemma malloc_eq s a l : pool s = a :: l → a mod 4 = 0 → memp_malloc MEMP_PBUF_POOL s = Ret (Some a) (set_pool l s).
Proof. intros E Ha. unfold memp_malloc. rewrite (bind_eq (gets _) _ _ _ _ eq_refl). cbn [memp_tab]. rewrite E. cbn. unfold MEM_ALIGNMENT. by rewrite Ha. Qed.

Lemma malloc_none s : pool s = [] → memp_malloc MEMP_PBUF_POOL s = Ret None s.
Proof. intros E. unfold memp_malloc. rewrite (bind_eq (gets _) _ _ _ _ eq_refl). cbn [memp_tab]. by rewrite E. Qed.

Lemma filled_keys : ∀ els rem, (filled els rem).*1 `prefix_of` els.
Proof.
  induction els as [|a els IH]; intros rem; [done|]. cbn. destruct (0 <? rem); [|apply prefix_nil]. cbn. by apply prefix_cons.
Qed.

Lemma nothing_taken s rb r : bufs s !! r = Some rb → next rb = None →
  bufs s !! r = Some (set_next None rb) ∧ set_pool (pool s) (set_bufs (bufs s) s) = s.
Proof. intros Hr Hn. split; [rewrite <- Hn; by destruct rb|]. by destruct s. Qed.

Lemma elements_step s a els r q1 q2 : pool s = a :: els → elements s → r ∉ els →
  elements (set_bufs (<[a := q1]> (<[r := q2]> (bufs s))) (set_pool els s)).
Proof.
  intros E [Hn Ha] Hr. rewrite E in Hn, Ha. apply NoDup_cons in Hn as [Hn1 Hn2]. apply Forall_cons in Ha as [_ Ha]. split; [done|].
  cbn. apply Forall_forall. intros x Hx. destruct (proj1 (Forall_forall _ _) Ha x Hx) as (X1 & X2 & X3 & X4). split_and!; try done.
  rewrite !lookup_insert_ne; [done| |]; intros ->; done.
Qed.

Lemma pool_tail_ok p : ∀ els fuel s r rb rem, pool s = els → elements s → bufs s !! r = Some rb → next rb = None → r ∉ els →
  0 ≤ rem < 65535 → rem ≤ Z.of_nat fuel → let l := filled els rem in
  ∃ b', b' !! r = Some (set_next (fst <$> head l) rb) ∧ linked b' (fst <$> head l) l ∧ (∀ x, x ≠ r → x ∉ l.*1 → b' !! x = bufs s !! x) ∧
    let s1 := set_pool (drop (length l) els) (set_bufs b' s) in
    pool_tail mem_free fuel p r rem s =
      if rem <=? PBUF_POOL_BUFSIZE * Z.of_nat (length els) then Ret true s1 else (do* pbuf_free mem_free (Some p) in ret false) s1.
Proof.
  induction els as [|a els IH]; intros fuel s r rb rem Ep He Hr Hnx Hnr Hrem Hfu l.
  - exists (bufs s). destruct (nothing_taken s rb r Hr Hnx) as [Hr' Es]. rewrite Ep in Es. subst l.
    split; [done|]. split; [done|]. split; [done|]. cbn [filled length drop]. rewrite Es, Z.mul_0_r. cbn zeta.
    destruct fuel as [|fuel]; [by replace rem with 0 by lia|]. cbn [pool_tail]. destruct (Z.ltb_spec 0 rem).
    + rewrite (bind_eq _ _ _ _ _ (malloc_none s Ep)). by destruct (Z.leb_spec rem 0); [lia|].
    + by destruct (Z.leb_spec rem 0); [|lia].
  - pose proof He as [Hnd Hall]. rewrite Ep in Hnd, Hall. apply NoDup_cons in Hnd as [Hnd1 Hnd2]. apply Forall_cons in Hall as [(A1 & A2 & A3 & A4) Hall].
    apply not_elem_of_cons in Hnr as [Hn1 Hn2]. subst l. cbn [filled]. destruct (Z.ltb_spec 0 rem) as [Hpos|Hz].
    2:{ exists (bufs s). destruct (nothing_taken s rb r Hr Hnx) as [Hr' Es]. rewrite Ep in Es. split; [done|]. split; [done|]. split; [done|].
      cbn [length drop]. rewrite Es. cbn zeta. replace rem with 0 by lia.
      destruct (Z.leb_spec 0 (PBUF_POOL_BUFSIZE * Z.of_nat (S (length els)))); [|unfold PBUF_POOL_BUFSIZE in *; lia]. by destruct fuel. }
    destruct fuel as [|fuel]; [lia|]. cbn [pool_tail]. rewrite (proj2 (Z.ltb_lt 0 rem)) by lia.
    rewrite (bind_eq _ _ _ _ _ (malloc_eq s a els Ep A1)).
    rewrite (bind_eq _ _ _ _ _ (upd_eq_buf (set_pool els s) r rb _ Hr)). ast. unfold PBUF_POOL_BUFSIZE in *. rewrite !u16_small by lia.
    change SIZEOF_STRUCT_PBUF with 16. change PBUF_POOL_BUFSIZE_ALIGNED with 2000. rewrite u32_small by (unfold is_u32; lia).
    rewrite (bind_eq _ _ _ _ _ (assert_eq _ ((a + 16) mod 4 =? 0) ltac:(apply Z.eqb_eq, mod4_add; (done || by apply mod4_add)))). st. set (m := Z.min rem 2000).
    set (q := MkPbuf None _ _ _ _ _ _).
    destruct (IH fuel (set_bufs (<[a := q]> (<[r := set_next (Some a) rb]> (bufs s))) (set_pool els s)) a q (rem - m))
      as (b' & B1 & B2 & B3 & B4); [done|by apply elements_step|apply lookup_insert_eq|done|done|lia|lia|].
    exists b'. cbn [bufs set_bufs set_pool] in B3. cbn [fmap list_fmap head option_fmap option_map fst linked]. split_and!.
    + rewrite B3; [|done|intros Hx; apply Hn2; eapply elem_of_prefix; [exact Hx|apply filled_keys]]. rewrite lookup_insert_ne, lookup_insert_eq; done.
    + done.
    + exact B1.
    + exact B2.
    + intros x Hx1 [Hx2 Hx3]%not_elem_of_cons. rewrite B3 by done. by rewrite !lookup_insert_ne.
    + cbn zeta in B4 |- *. cbn [length drop]. etransitivity; [exact B4|].
      replace (rem - m <=? 2000 * Z.of_nat (length els)) with (rem <=? 2000 * Z.of_nat (S (length els))) by (zcases; lia). done.
Qed.
Definition inside (x : Z * pbuf) : Prop := x.1 + 16 ≤ payload x.2 ∧ payload x.2 + len x.2 ≤ x.1 + 16 + PBUF_POOL_BUFSIZE.
Definition fresh_buf (x : Z * pbuf) : Prop := ref x.2 = 1 ∧ ptype x.2 = PBUF_POOL ∧ inside x.

Lemma filled_fresh : ∀ els rem, Forall fresh_buf (filled els rem).
Proof.
  induction els as [|a els IH]; intros rem; [constructor|]. cbn. destruct (Z.ltb_spec 0 rem); [|constructor]. constructor; [|apply IH].
  unfold fresh_buf, inside, PBUF_POOL_BUFSIZE. cbn [fst snd ref ptype payload len]. split_and!; (done || lia).
Qed.

Lemma filled_totals : ∀ els rem, 0 ≤ rem ≤ PBUF_POOL_BUFSIZE * Z.of_nat (length els) →
  totals (filled els rem) ∧ total (filled els rem) = rem ∧ solid (filled els rem).
Proof.
  unfold PBUF_POOL_BUFSIZE. induction els as [|a els IH]; intros rem Hr; [cbn in *; lia|]. cbn [filled]. destruct (Z.ltb_spec 0 rem); [|cbn; lia].
  destruct (IH (rem - Z.min rem PBUF_POOL_BUFSIZE)) as (I1 & I2 & I3); [unfold PBUF_POOL_BUFSIZE; cbn [length] in Hr; lia|].
  cbn [totals total solid]. rewrite I2. cbn [len tot_len]. split; [unfold PBUF_POOL_BUFSIZE in *; split_and!; try done; lia|].
  split; [lia|]. split; [|done]. destruct (decide (rem - Z.min rem PBUF_POOL_BUFSIZE = 0)) as [->|]; [left; by destruct els|right].
  unfold PBUF_POOL_BUFSIZE in *. lia.
Qed.

Lemma filled_all : ∀ els rem, PBUF_POOL_BUFSIZE * Z.of_nat (length els) < rem → (filled els rem).*1 = els.
Proof.
  unfold PBUF_POOL_BUFSIZE. induction els as [|a els IH]; intros rem Hr; [done|]. cbn [filled]. destruct (Z.ltb_spec 0 rem); [|cbn [length] in Hr; lia].
  cbn. f_equal. apply IH. unfold PBUF_POOL_BUFSIZE. cbn [length] in Hr. lia.
Qed.

Lemma fresh_freed l : Forall fresh_buf l → freed l = l ∧ keys is_pool l = l.*1 ∧ keys is_refs l = [] ∧ keys is_ram l = [].
Proof.
  induction 1 as [|[a q] l (Hr & Ht & _) _ (I1 & I2 & I3 & I4)]; [done|]. cbn in Hr, Ht. cbn [freed fmap list_fmap]. rewrite Hr. cbn iota.
  change (1 =? 1) with true. cbn iota. rewrite I1. unfold keys in *. cbn. rewrite Ht. cbn. by rewrite I2, I3, I4.
Qed.

Lemma prefix_take {A} (l k : list A) : l `prefix_of` k → take (length l) k = l.
Proof. intros [m ->]. by rewrite take_app_le, take_ge by lia. Qed.

(** The first buffer, behind the room for headers, and the whole chain. *)
Definition first_buf (p : Z) (layer : pbuf_layer) (n : Z) (nx : option Z) : pbuf :=
  MkPbuf nx (p + 16 + headroom layer) n (Z.min n (PBUF_POOL_BUFSIZE - headroom layer)) PBUF_POOL 0 1.
Definition pool_chain (els : list Z) (layer : pbuf_layer) (n : Z) : list (Z * pbuf) :=
  match els with
  | [] => []
  | p :: els' => let rest := filled els' (n - Z.min n (PBUF_POOL_BUFSIZE - headroom layer)) in (p, first_buf p layer n (fst <$> head rest)) :: rest
  end.
Definition enough (els : list Z) (layer : pbuf_layer) (n : Z) : bool :=
  match els with [] => false | _ :: _ => n <=? PBUF_POOL_BUFSIZE * Z.of_nat (length els) - headroom layer end.

Lemma alloc_pool_run s layer n : elements s → 0 ≤ n < 65536 → pool s ≠ [] → let l := pool_chain (pool s) layer n in
  ∃ p b', linked b' (Some p) l ∧ (∀ x, x ∉ l.*1 → b' !! x = bufs s !! x) ∧
    let s1 := set_pool (drop (length l) (pool s)) (set_bufs b' s) in
    pbuf_alloc mem_malloc mem_free layer n PBUF_POOL s =
      if enough (pool s) layer n then Ret (Some p) s1 else (do* pbuf_free mem_free (Some p) in ret None) s1.
Proof.
  intros He Hn Hne. pose proof He as [Hnd Hall]. destruct (pool s) as [|p els] eqn:Ep; [done|]. cbn [enough pool_chain].
  apply NoDup_cons in Hnd as [Hnd1 Hnd2]. apply Forall_cons in Hall as [(A1 & A2 & A3 & A4) Hall]. pose proof (headroom_range layer) as Hh.
  unfold pbuf_alloc, alloc_pool. rewrite (bind_eq _ _ _ _ _ (malloc_eq s p els Ep A1)). rewrite first_payload by (done || unfold PBUF_POOL_BUFSIZE in *; lia).
  change PBUF_POOL_BUFSIZE_ALIGNED with 2000. change SIZEOF_STRUCT_PBUF with 16. fold (headroom layer). unfold PBUF_POOL_BUFSIZE in *.
  assert (headroom layer mod 4 = 0) as Hh4 by (by destruct layer).
  rewrite (bind_eq _ _ _ _ _ (assert_eq _ ((p + 16 + headroom layer) mod 4 =? 0) ltac:(apply Z.eqb_eq, mod4_add; (done || by apply mod4_add)))).
  rewrite !u32_small by (unfold is_u32; lia). ast. st. change (Z.min n (2000 - headroom layer)) with (Z.min n (PBUF_POOL_BUFSIZE - headroom layer)).
  fold (first_buf p layer n None). set (m := Z.min n _) in *. assert (m = Z.min n (2000 - headroom layer)) as Em by done. clearbody m.
  set (s1 := set_bufs _ _).
  destruct (pool_tail_ok p els (Z.to_nat n) s1 p (first_buf p layer n None) (n - m)) as (b' & B1 & B2 & B3 & B4); try done; try lia.
  { split; [done|]. cbn. apply Forall_forall. intros x Hx. destruct (proj1 (Forall_forall _ _) Hall x Hx) as (X1 & X2 & X3 & X4). split_and!; try done.
    rewrite lookup_insert_ne; [done|]. intros ->. done. }
  { apply lookup_insert_eq. }
  exists p, b'. split; [by repeat split|]. split.
  - intros x. cbn [fmap list_fmap]. intros [Hx1 Hx2]%not_elem_of_cons. rewrite B3 by done. cbn. by apply lookup_insert_ne.
  - cbn zeta in B4 |- *. cbn [length drop]. unfold bind at 1. rewrite B4. unfold PBUF_POOL_BUFSIZE.
    replace (n - m <=? 2000 * Z.of_nat (length els)) with (n <=? 2000 * Z.of_nat (S (length els)) - headroom layer) by (zcases; lia).
    clear B4. destruct (n <=? 2000 * Z.of_nat (S (length els)) - headroom layer); [done|]. unfold bind. by destruct (pbuf_free _ _ _).
Qed.

Lemma pool_chain_fresh els layer n : 0 ≤ n → Forall fresh_buf (pool_chain els layer n).
Proof.
  intros Hn. destruct els as [|p els]; [constructor|]. constructor; [|apply filled_fresh]. pose proof (headroom_range layer).
  unfold fresh_buf, inside, first_buf, PBUF_POOL_BUFSIZE. cbn [fst snd ref ptype payload len]. split_and!; (done || lia).
Qed.

Lemma pool_chain_totals els layer n : enough els layer n → 0 ≤ n →
  totals (pool_chain els layer n) ∧ total (pool_chain els layer n) = n ∧ solid (pool_chain els layer n).
Proof.
  unfold enough. destruct els as [|p els]; [done|]. intros He%Is_true_true%Z.leb_le Hn. pose proof (headroom_range layer).
  cbn [pool_chain]. set (m := Z.min n _). assert (m = Z.min n (2000 - headroom layer)) as Em by done. unfold PBUF_POOL_BUFSIZE in He. cbn [length] in He.
  destruct (filled_totals els (n - m)) as (I1 & I2 & I3); [unfold PBUF_POOL_BUFSIZE; lia|]. cbn [totals total solid]. rewrite I2.
  change (len (first_buf _ _ _ _)) with m. change (tot_len (first_buf _ _ _ _)) with n. split_and!; try done; try lia.
  destruct (decide (n - m = 0)) as [->|]; [left; by destruct els|right; lia].
Qed.

Lemma pool_chain_keys els layer n : (pool_chain els layer n).*1 `prefix_of` els.
Proof. destruct els as [|p els]; [done|]. cbn. apply prefix_cons, filled_keys. Qed.

Lemma pool_chain_all els layer n : enough els layer n = false → (pool_chain els layer n).*1 = els.
Proof.
  unfold enough. destruct els as [|p els]; [done|]. intros He%Z.leb_gt. cbn. f_equal. apply filled_all. unfold PBUF_POOL_BUFSIZE in *.
  pose proof (headroom_range layer). cbn [length] in He. lia.
Qed.
Lemma free_fresh s0 s p l : linked (bufs s) (Some p) l → Forall fresh_buf l → Forall (λ x, x.1 mod 4 = 0) l →
  (∀ x, x ∉ l.*1 → bufs s !! x = bufs s0 !! x) → (∀ x, x ∈ l.*1 → bufs s0 !! x = None) →
  ∃ s', pbuf_free mem_free (Some p) s = Ret (u8 (Z.of_nat (length l))) s' ∧ bufs s' = bufs s0 ∧ pool s' = reverse l.*1 ++ pool s ∧
    Pbuf.refs s' = Pbuf.refs s ∧ ram s' = ram s ∧ bytes s' = bytes s.
Proof.
  intros Hl Hf Ha Hs Hn. destruct (fresh_freed l Hf) as (F1 & F2 & F3 & F4).
  destruct (pbuf_free_ok s p l (ram s) Hl) as (s' & E & R); [|by rewrite F1, F4|].
  { apply Forall_forall. intros x Hx. destruct (proj1 (Forall_forall _ _) Hf x Hx) as (Hr1 & _).
    split; [exact (proj1 (Forall_forall _ _) Ha x Hx)|]. rewrite Hr1. lia. }
  pose proof R as [G1 _ _ G4 G5 G6 G7]. rewrite F1 in E, G1, G4, G5, G6. rewrite F2 in G4. rewrite F3 in G5. rewrite F4 in G6. injection G6 as G6. exists s'.
  split_and!; try done. apply map_eq. intros x. destruct (decide (x ∈ l.*1)); [by rewrite G1, Hn|].
  rewrite (released_out l s s' x R) by done. by apply Hs.
Qed.
Lemma taken_back (els k : list Z) : k `prefix_of` els → reverse k ++ drop (length k) els ≡ₚ els.
Proof. intros [m ->]. rewrite drop_app_length, reverse_Permutation. done. Qed.

Lemma elements_aligned s (l : list (Z * pbuf)) : elements s → l.*1 `prefix_of` pool s → Forall (λ x, x.1 mod 4 = 0) l ∧ ∀ x, x ∈ l.*1 → bufs s !! x = None.
Proof.
  intros [_ Ha] Hp. assert (∀ x, x ∈ l.*1 → x mod 4 = 0 ∧ bufs s !! x = None) as Hx.
  { intros x Hx. destruct (proj1 (Forall_forall _ _) Ha x) as (? & _ & _ & ?); [by eapply elem_of_prefix|]. done. }
  split; [|intros x Hx'; by apply Hx]. apply Forall_forall. intros x Hl. apply Hx. by apply list_elem_of_fmap_2.
Qed.

(** *** [pbuf_header] *)

Definition moved_front (inc : Z) (q : pbuf) : pbuf := set_tot_len (tot_len q + inc) (set_len (len q + inc) (set_payload (payload q - inc) q)).

(** Whether the header fits: never one that is revealed in foreign data. *)
Definition header_fits (p : Z) (q : pbuf) (inc : Z) : bool :=
  match ptype q with PBUF_RAM | PBUF_POOL => p + 16 <=? payload q - inc | _ => inc <? 0 end.

Lemma pbuf_header_eq s p q l inc : packet (bufs s) (Some p) ((p, q) :: l) → inc ≠ 0 → - len q ≤ inc → total ((p, q) :: l) + inc < 65536 →
  0 ≤ p → p + 16 < 2 ^ 32 → 0 ≤ payload q - inc < 2 ^ 32 →
  pbuf_header p inc s = if header_fits p q inc then Ret 0 (set_bufs (<[p := moved_front inc q]> (bufs s)) s) else Ret 1 s.
Proof.
  intros ((_ & Hq & _) & (T1 & T2 & T3%total_nonneg) & M) Hi Hl Ht Hp1 Hp2 Hpay. cbn in Ht, M. unfold pbuf_header.
  destruct (Z.eqb_spec inc 0); [done|]. ld Hq. destruct (Z.ltb_spec (len q) (- inc)); [lia|]. rewrite andb_false_r.
  change SIZEOF_STRUCT_PBUF with 16. rewrite (u32_small (payload q - inc)), (u32_small (p + 16)) by (unfold is_u32; lia).
  rewrite (u16_small (len q + inc)), (u16_small (tot_len q + inc)) by lia. unfold header_fits.
  destruct (ptype q); (rewrite (bind_eq (ret _) _ _ _ _ eq_refl)); [by destruct (_ <=? _)| | |by destruct (_ <=? _)].
  all: destruct (Z.ltb_spec inc 0); cbn [andb]; [destruct (Z.leb_spec (- inc) (len q)); [done|lia]|done].
Qed.

Lemma moved_front_packet b p q l inc : packet b (Some p) ((p, q) :: l) → - len q ≤ inc → total ((p, q) :: l) + inc < 65536 →
  packet (<[p := moved_front inc q]> b) (Some p) ((p, moved_front inc q) :: l).
Proof.
  intros (Hl & (T1 & T2 & T3) & M) Hi Ht. pose proof (linked_nodup _ _ _ Hl) as [Hnd _]%NoDup_cons. destruct Hl as (_ & Hq & Hl). cbn in *.
  split; [|cbn; split; [split_and!; try done; lia|lia]]. cbn. split; [done|]. split; [apply lookup_insert_eq|].
  eapply linked_agree; [|exact Hl]. intros x Hx. apply lookup_insert_ne. intros ->. done.
Qed.

(** *** Counting and taking apart *)

Lemma clen_loop_ok s : ∀ l fuel p c, (length l ≤ fuel)%nat → linked (bufs s) p l → 0 ≤ c < 256 →
  clen_loop fuel p c s = Ret (u8 (c + Z.of_nat (length l))) s.
Proof.
  induction l as [|[a q] l IH]; intros fuel p c Hf Hl Hc.
  - cbn in Hl. subst p. rewrite Z.add_0_r. unfold u8. rewrite Z.mod_small by done. by destruct fuel.
  - destruct Hl as (-> & Hq & Hl). destruct fuel as [|fuel]; [cbn in Hf; lia|]. cbn [clen_loop]. ld Hq.
    rewrite IH; [|cbn in Hf; lia|done|apply u8_below]. unfold u8. rewrite Zplus_mod_idemp_l. do 2 f_equal. cbn [length]. lia.
Qed.

(** The number of buffers, as far as a byte can hold it. *)
Lemma pbuf_clen_ok s p l : linked (bufs s) p l → pbuf_clen p s = Ret (u8 (Z.of_nat (length l))) s.
Proof.
  intros Hl. unfold pbuf_clen. rewrite (bind_eq (gets _) _ _ _ _ eq_refl). pose proof (linked_size _ _ _ Hl).
  rewrite (clen_loop_ok s l) by (done || lia). done.
Qed.

(** [pbuf_dechain]: the first buffer is a packet of its own; the rest is returned as a packet
    when it has another reference, and is freed otherwise. *)
Lemma pbuf_dechain_ok s p q a r l : packet (bufs s) (Some p) ((p, q) :: (a, r) :: l) → Forall counted ((a, r) :: l) → (length l < 255)%nat →
  (∃ h, run_frees (keys is_ram (freed ((a, r) :: l))) (ram s) = Ret tt h) →
  ∃ s', pbuf_dechain mem_free p s = Ret (if ref r =? 1 then None else Some a) s' ∧
    packet (bufs s') (Some p) [(p, set_tot_len (len q) (set_next None q))] ∧
    (ref r ≠ 1 → packet (bufs s') (Some a) ((a, set_ref (ref r - 1) r) :: l)).
Proof.
  intros (L & (T1 & T2 & T3) & M) Hc Hlen [h Hh]. pose proof (linked_nodup _ _ _ L) as [Hp _]%NoDup_cons. destruct L as (_ & Hq & L).
  pose proof L as (En & Hr & L'). pose proof T3 as (R1 & R2 & R3). pose proof (total_nonneg _ R3). cbn [total] in *.
  unfold pbuf_dechain. ld Hq. rewrite En. ld Hr. ast. rewrite u16_small by lia.
  replace (set_tot_len (tot_len q - len q) r) with r by (destruct r; unfold set_tot_len; cbn in *; f_equal; lia). st. rewrite (insert_id _ _ _ Hr).
  replace (set_bufs (bufs s) s) with s by (by destruct s). rewrite (bind_eq _ _ _ _ _ (upd_eq_buf s p q _ Hq)).
  rewrite (bind_eq _ _ _ _ _ (upd_eq_buf (set_bufs (<[p := set_next None q]> (bufs s)) s) p _ _ (lookup_insert_eq _ _ _))).
  cbn [bufs set_bufs bytes pool Pbuf.refs ram]. rewrite insert_insert_eq. set (q1 := set_tot_len (len q) (set_next None q)).
  match goal with |- context [bind _ _ ?t] => set (s1 := t) end.
  destruct (pbuf_free_ok s1 a ((a, r) :: l) h) as (s' & E & R); [|done|exact Hh|].
  { eapply linked_agree; [|rewrite <- En; exact L]. intros x Hx. cbn. apply lookup_insert_ne. intros ->. done. }
  rewrite (bind_eq _ _ _ _ _ E). assert (bufs s' !! p = Some q1) as Hp'.
  { rewrite (released_out _ _ _ _ R) by done. apply lookup_insert_eq. }
  ld Hp'. change (tot_len q1) with (len q). change (len q1) with (len q). ast. exists s'. split; [|split].
  - cbn [freed]. destruct (ref r =? 1) eqn:E1; [|done]. unfold u8. rewrite Z.mod_small; [done|].
    assert (length (freed l) ≤ length l)%nat by (clear; induction l as [|[x y] l IH]; cbn; [lia|destruct (_ =? _); cbn; lia]). cbn [length]. lia.
  - split; [by repeat split|]. split; [cbn; lia|cbn; lia].
  - intros Hn. assert (kept ((a, r) :: l) = (a, r) :: l ∧ freed ((a, r) :: l) = []) as [Ek Ef] by (cbn; by rewrite (proj2 (Z.eqb_neq _ _) Hn)).
    split; [|split; [done|cbn; lia]]. split; [done|]. split; [by eapply (rel_head _ _ _ R)|]. eapply linked_agree; [|exact L'].
    intros x Hx. pose proof (linked_nodup _ _ _ L) as [Ha _]%NoDup_cons. rewrite (rel_same _ _ _ R); [|rewrite Ef; apply not_elem_of_nil|rewrite Ek; intros [= <-]; done].
    cbn. apply lookup_insert_ne. intros ->. apply Hp. by right.
Qed.

(** *** [memp_init] *)

(** Where the pools start. *)
Fixpoint pool_starts (memp : Z) (pools : list (nat * Z)) : list Z :=
  match pools with [] => [] | (num, size) :: pools' => memp :: pool_starts (memp + Z.of_nat num * size) pools' end.
Definition pools_size (pools : list (nat * Z)) : Z := foldr (λ x n, Z.of_nat x.1 * x.2 + n) 0 pools.
Definition spaced (memp size : Z) (num : nat) : list Z := (λ i, memp + Z.of_nat i * size) <$> seq 0 num.

Lemma carve_ok size : 0 ≤ size → ∀ num memp tab, 0 ≤ memp → memp + Z.of_nat num * size < 2 ^ 32 →
  carve num size memp tab = (reverse (spaced memp size num) ++ tab, memp + Z.of_nat num * size).
Proof.
  intros Hs. induction num as [|num IH]; intros memp tab Hm Hb; [cbn; f_equal; lia|].
  assert (0 ≤ Z.of_nat num * size) by nia. rewrite Nat2Z.inj_succ, Z.mul_succ_l in *. cbn [carve]. rewrite u32_small by (unfold is_u32; lia).
  rewrite IH by lia. f_equal; [|lia]. unfold spaced. cbn [seq]. rewrite fmap_cons, reverse_cons, <- app_assoc.
  rewrite <- fmap_S_seq, <- list_fmap_compose. cbn [app]. f_equal; [|f_equal; lia]. f_equal. apply list_fmap_ext. intros i x _. cbn [compose]. lia.
Qed.

Lemma pools_size_nonneg pools : Forall (λ x, 0 ≤ x.2) pools → 0 ≤ pools_size pools.
Proof. induction 1 as [|[n z] pools Hx _ IH]; [done|]. change (0 ≤ Z.of_nat n * z + pools_size pools). cbn in Hx. nia. Qed.

(** [memp_init] makes of each pool the list of its elements, back to back in [memp_memory]. *)
Lemma memp_init_ok base pools : 0 ≤ base → base + 3 + pools_size pools < 2 ^ 32 → Forall (λ x, 0 ≤ x.2) pools →
  memp_init base pools = zip_with (λ m x, reverse (spaced m x.2 x.1)) (pool_starts (LWIP_MEM_ALIGN base) pools) pools.
Proof.
  intros Hb Hm Hp. pose proof (pools_size_nonneg _ Hp). assert (base ≤ LWIP_MEM_ALIGN base ≤ base + 3) as Ha.
  { unfold LWIP_MEM_ALIGN. rewrite align_eq by lia. dlia. }
  unfold memp_init. assert (0 ≤ LWIP_MEM_ALIGN base ∧ LWIP_MEM_ALIGN base + pools_size pools < 2 ^ 32) as [H1 H2] by lia.
  clear Hm Ha. revert H1 H2. generalize (LWIP_MEM_ALIGN base). induction Hp as [|[num size] pools Hx Hp IH]; intros m H1 H2; [done|].
  pose proof (pools_size_nonneg _ Hp). cbn in Hx. change (pools_size ((num, size) :: pools)) with (Z.of_nat num * size + pools_size pools) in H2. assert (0 ≤ Z.of_nat num * size) by nia. cbn [carve_all]. rewrite carve_ok by lia. cbn [pool_starts zip_with]. rewrite app_nil_r. f_equal.
  apply IH; lia.
Qed.

(** ** What the operations do *)

(** C38. [pbuf_alloc] of [n] bytes from the pool takes elements from the front of the free
    list and makes of them a packet of exactly [n] bytes, every buffer inside its
    element, with one reference each and the requested headroom in the first; freeing it
    gives the elements back.  When the elements do not suffice the call returns a null
    pointer, with every element it had taken back in the pool and no buffer left. *)
Theorem pbuf_alloc_pool s layer n : elements s → 0 ≤ n < 65536 →
  let l := pool_chain (pool s) layer n in
  (enough (pool s) layer n = true → ∃ p s1 s2,
     pbuf_alloc mem_malloc mem_free layer n PBUF_POOL s = Ret (Some p) s1 ∧ packet (bufs s1) (Some p) l ∧ total l = n ∧
     Forall fresh_buf l ∧ (fst <$> l) ++ pool s1 = pool s ∧ (∀ x, x ∉ l.*1 → bufs s1 !! x = bufs s !! x) ∧
     pbuf_free mem_free (Some p) s1 = Ret (u8 (Z.of_nat (length l))) s2 ∧ bufs s2 = bufs s ∧ pool s2 ≡ₚ pool s) ∧
  (enough (pool s) layer n = false → ∃ s',
     pbuf_alloc mem_malloc mem_free layer n PBUF_POOL s = Ret None s' ∧ bufs s' = bufs s ∧ pool s' ≡ₚ pool s ∧
     Pbuf.refs s' = Pbuf.refs s ∧ ram s' = ram s ∧ bytes s' = bytes s).
Proof.
  intros He Hn l. destruct (decide (pool s = [])) as [E0|E0].
  { rewrite E0. split; [done|]. intros _. exists s. split; [|by rewrite E0]. unfold pbuf_alloc, alloc_pool. by rewrite (bind_eq _ _ _ _ _ (malloc_none s E0)). }
  destruct (alloc_pool_run s layer n He Hn E0) as (p & b' & Hl & Hs & Er). fold l in Hl, Hs, Er. cbn zeta in Er.
  pose proof (pool_chain_keys (pool s) layer n) as Hk. fold l in Hk. destruct (elements_aligned s l He Hk) as [Ha Hb].
  pose proof (pool_chain_fresh (pool s) layer n ltac:(lia)) as Hf. fold l in Hf. set (s1 := set_pool _ _) in Er.
  destruct (free_fresh s s1 p l) as (s2 & E2 & B2 & P2 & R2 & M2 & Y2); [done..|].
  assert (reverse l.*1 ++ drop (length l) (pool s) ≡ₚ pool s) as Hperm by (rewrite <- (length_fmap fst l); by apply taken_back).
  split; intros Eb; rewrite Eb in Er.
  - destruct (pool_chain_totals (pool s) layer n) as (T1 & T2 & _); [by rewrite Eb|lia|]. fold l in T1, T2.
    exists p, s1, s2. split_and!; try done; [split_and!; (done || lia)| |by rewrite P2]. cbn. rewrite <- (length_fmap fst l).
    destruct Hk as [m Hk]. rewrite Hk. by rewrite drop_app_length.
  - exists s2. rewrite (bind_eq _ _ _ _ _ E2) in Er. split_and!; try done. by rewrite P2.
Qed.

(** [pbuf_cat] makes one packet of two: the bytes are those of the first followed by
    those of the second, nothing is copied, and the totals of all buffers are right. *)
Theorem pbuf_cat_data s h t lh lt :
  packet (bufs s) (Some h) lh → packet (bufs s) (Some t) lt → lh.*1 ## lt.*1 → total lh + total lt < 65536 →
  ∃ s' l, pbuf_cat h t s = Ret tt s' ∧ packet (bufs s') (Some h) l ∧ l.*1 = lh.*1 ++ lt.*1 ∧
    data (bytes s') l = data (bytes s) lh ++ data (bytes s) lt ∧ bytes s' = bytes s ∧ pool s' = pool s ∧
    (∀ x, x ∉ lh.*1 → bufs s' !! x = bufs s !! x).
Proof.
  intros H1 H2 Hd Hm. destruct (pbuf_cat_ok s h t lh lt H1 H2 Hd Hm) as (b' & E & Hp & Hf).
  eexists _, _. split; [exact E|]. split; [exact Hp|]. split; [by rewrite fmap_app, keys_joined|]. split; [|done].
  rewrite data_app. unfold data at 1. by rewrite addrs_joined.
Qed.

(** [pbuf_realloc] cuts a packet to its first [n] bytes.  The buffers past the cut lose
    the reference of the packet: those without another one are gone, each back in the
    pool it came from, and buffers that are not of the packet stay as they are. *)
Lemma pbuf_realloc_data s p l n : packet (bufs s) (Some p) l → Forall counted l → 0 ≤ n < total l → shrinks l (ram s) →
  ∃ s' pre a q post, let l' := lowered pre (n - total l) ++ [(a, cut (n - total pre) q)] in
    l = pre ++ (a, q) :: post ∧ 0 ≤ n - total pre ≤ len q ∧ pbuf_realloc mem_free mem_realloc p n s = Ret tt s' ∧ packet (bufs s') (Some p) l' ∧ total l' = n ∧
    data (bytes s') l' = take (Z.to_nat n) (data (bytes s) l) ∧ shrunk pre a q (n - total pre) post s s'.
Proof.
  intros Hp Hc Hn Hk. destruct (pbuf_realloc_ok s p l n Hp Hc Hn Hk) as (s' & pre & a & q & post & El & Hr & E & Hp' & Ht & Ha & Hsh).
  exists s', pre, a, q, post. cbn zeta. split_and!; try done; try lia. rewrite (sh_bytes _ _ _ _ _ _ _ Hsh). unfold data. by rewrite Ha, fmap_take.
Qed.

(** [pbuf_header]: hiding [k] bytes drops them from the front of the packet, revealing
    [k] bytes puts those before the payload in front, when the buffer has them; when it
    has not the call reports failure and changes nothing; hiding more than the first
    buffer holds is fatal. *)
Lemma pbuf_header_data s p q l inc : packet (bufs s) (Some p) ((p, q) :: l) → inc ≠ 0 → total ((p, q) :: l) + inc < 65536 →
  0 ≤ p → p + 16 < 2 ^ 32 → 0 ≤ payload q - inc < 2 ^ 32 →
  (inc < - len q → ∃ why, pbuf_header p inc s = Panic why) ∧
  (- len q ≤ inc → header_fits p q inc = false → pbuf_header p inc s = Ret 1 s) ∧
  (- len q ≤ inc → header_fits p q inc = true → ∃ s' l', pbuf_header p inc s = Ret 0 s' ∧ packet (bufs s') (Some p) l' ∧ bytes s' = bytes s ∧
     (∀ x, x ≠ p → bufs s' !! x = bufs s !! x) ∧
     addrs l' = if inc <? 0 then drop (Z.to_nat (- inc)) (addrs ((p, q) :: l)) else seqZ (payload q - inc) inc ++ addrs ((p, q) :: l)).
Proof.
  intros Hp Hi Ht Hp1 Hp2 Hpay. split; [|split].
  - intros Hl. pose proof Hp as ((_ & Hq & _) & (T1 & _) & _). unfold pbuf_header. destruct (Z.eqb_spec inc 0); [done|]. ld Hq.
    rewrite (proj2 (Z.ltb_lt inc 0)), (proj2 (Z.ltb_lt (len q) (- inc))) by lia. by eexists.
  - intros Hl Hf. rewrite (pbuf_header_eq s p q l) by done. by rewrite Hf.
  - intros Hl Hf. eexists _, ((p, moved_front inc q) :: l). split; [rewrite (pbuf_header_eq s p q l) by done; by rewrite Hf|].
    split; [by apply moved_front_packet|]. split; [done|]. split; [intros x Hx; cbn; by apply lookup_insert_ne|].
    destruct Hp as (_ & (T1 & _) & _). change (addrs ((p, moved_front inc q) :: l)) with (seqZ (payload q - inc) (len q + inc) ++ addrs l).
    change (addrs ((p, q) :: l)) with (seqZ (payload q) (len q) ++ addrs l). destruct (Z.ltb_spec inc 0).
    + rewrite drop_app_le by (rewrite length_seqZ; lia). rewrite drop_seqZ by lia. f_equal. f_equal; lia.
    + rewrite app_assoc. f_equal. rewrite (Z.add_comm (len q)), seqZ_app by lia. f_equal. f_equal; lia.
Qed.

End ops.

(** ** Witnesses *)

Definition demo : pst unit := MkPst
  (<[0x1000 := MkPbuf (Some 0x2000) 0x1040 7 4 PBUF_POOL 0 1]> (<[0x2000 := MkPbuf None 0x2010 3 3 PBUF_POOL 0 1]>
    (<[0x3000 := MkPbuf (Some 0x4000) 0x3010 9 2 PBUF_POOL 0 1]> (<[0x4000 := MkPbuf None 0x4010 7 7 PBUF_RAM 0 1]> ∅))))
  (λ a, a mod 251) [0x10000; 0x10800; 0x11000] [] tt.

Definition demo_from : list (Z * pbuf) := [(0x1000, MkPbuf (Some 0x2000) 0x1040 7 4 PBUF_POOL 0 1); (0x2000, MkPbuf None 0x2010 3 3 PBUF_POOL 0 1)].
Definition demo_to : list (Z * pbuf) := [(0x3000, MkPbuf (Some 0x4000) 0x3010 9 2 PBUF_POOL 0 1); (0x4000, MkPbuf None 0x4010 7 7 PBUF_RAM 0 1)].

Lemma demo_packets : packet (bufs demo) (Some 0x1000) demo_from ∧ packet (bufs demo) (Some 0x3000) demo_to.
Proof. split; (split; [|split]); cbn; repeat split; lia. Qed.

Lemma pbuf_alloc_pool_witness : ∃ p s, pbuf_alloc (λ _, ret None) (λ _, ret tt) PBUF_TRANSPORT 3000 PBUF_POOL demo = Ret (Some p) s ∧
  packet (bufs s) (Some p) (pool_chain (pool demo) PBUF_TRANSPORT 3000).
Proof.
  destruct (pbuf_alloc_pool (λ _, ret None) (λ _, ret tt) demo PBUF_TRANSPORT 3000) as [Hok _].
  - split; [refine (bool_decide_unpack _ _); vm_compute; exact I|]. repeat (apply Forall_cons; split; [split_and!; vm_compute; done|]). constructor.
  - lia.
  - destruct (Hok eq_refl) as (p & s & _ & E & Hp & _). by exists p, s.
Defined.

Lemma pbuf_cat_data_witness : ∃ s l, pbuf_cat 0x1000 0x3000 demo = Ret tt s ∧ packet (bufs s) (Some 0x1000) l ∧
  data (bytes s) l = data (bytes demo) demo_from ++ data (bytes demo) demo_to.
Proof.
  destruct (pbuf_cat_data demo 0x1000 0x3000 demo_from demo_to) as (s & l & E & Hp & _ & Hd & _).
  - apply demo_packets.
  - apply demo_packets.
  - cbn. intros x. rewrite !elem_of_cons, !elem_of_nil. lia.
  - cbn. lia.
  - by exists s, l.
Defined.

