(* ===== verification/LwipMem.v ===== *)
(** * The heap of the network server: [net/lwip/core/mem.c]

    The heap is an array [ram] cut into blocks; a block starts with a [struct mem] that
    holds the offsets of the next and of the previous block and whether the block is in
    use, and the last one, [ram_end], marks the end.  The structures are kept by their
    offsets; at offsets where no block starts their contents are whatever the blocks' data
    leave there.  The semaphore around each operation excludes other threads. *)

From stdpp Require Import base list strings.
From Stdlib Require Import ZArith Lia.
From S2P Require Import Prelude Pbuf.

(** [struct mem] *)
Record mem := MkMem { next : Z; prev : Z; used : Z }.

Definition MIN_SIZE : Z := 12.
Definition MIN_SIZE_ALIGNED : Z := LWIP_MEM_ALIGN_SIZE MIN_SIZE.
Definition SIZEOF_STRUCT_MEM : Z := LWIP_MEM_ALIGN_SIZE 12.
Definition TCP_SND_QUEUELEN : Z := 2 * (16 * 1460) / 1460.
Definition MEM_SIZE : Z := 16 * 4096 * TCP_SND_QUEUELEN + 4096 * TCP_SND_QUEUELEN.
Definition MEM_SIZE_ALIGNED : Z := LWIP_MEM_ALIGN_SIZE MEM_SIZE.

(** The structures and the lowest free block, by their offsets in [ram]. *)
Record heap := MkHeap { nodes : Z → mem; lfree : Z }.

Definition set_nodes (x : Z → mem) (h : heap) : heap := MkHeap x (lfree h).
Definition set_lfree (x : Z) (h : heap) : heap := MkHeap (nodes h) x.

Definition set_next (x : Z) (m : mem) : mem := MkMem x (prev m) (used m).
Definition set_prev (x : Z) (m : mem) : mem := MkMem (next m) x (used m).
Definition set_used (x : Z) (m : mem) : mem := MkMem (next m) (prev m) x.

Definition upd_node (ptr : Z) (f : mem → mem) : M heap unit := modify (λ h, set_nodes (upd (nodes h) ptr (f (nodes h ptr))) h).
Definition node (ptr : Z) : M heap mem := gets (λ h, nodes h ptr).

Section heap.
(** The aligned address of [ram_heap]. *)
Context (ram : Z).

Definition ram_end : Z := MEM_SIZE_ALIGNED.

Definition plug_holes (mem : Z) : M heap unit :=
  do* massert ((0 <=? mem) && (mem <? ram_end)) in
  let* m := node mem in
  do* massert (used m =? 0) in
  do* massert (next m <=? MEM_SIZE_ALIGNED) in
  let nmem := next m in
  let* nm := node nmem in
  do* (if negb (mem =? nmem) && (used nm =? 0) && negb (nmem =? ram_end) then
         do* modify (λ h, if lfree h =? nmem then set_lfree mem h else h) in
         do* upd_node mem (set_next (next nm)) in
         upd_node (next nm) (set_prev mem)
       else ret tt) in
  let* m := node mem in
  let pmem := prev m in
  let* pm := node pmem in
  if negb (pmem =? mem) && (used pm =? 0) then
    do* modify (λ h, if lfree h =? mem then set_lfree pmem h else h) in
    do* upd_node pmem (set_next (next m)) in
    upd_node (next m) (set_prev pmem)
  else ret tt.

(** [mem_init]: one free block and the end, over the contents [f] of the array. *)
Definition mem_init (f : Z → mem) : heap :=
  MkHeap (upd (upd f 0 (MkMem MEM_SIZE_ALIGNED 0 0)) ram_end (MkMem MEM_SIZE_ALIGNED MEM_SIZE_ALIGNED 1)) 0.

Definition mem_free (rmem : Z) : M heap unit :=
  if rmem =? 0 then ret tt else
  do* massert (Z.land rmem (MEM_ALIGNMENT - 1) =? 0) in
  do* massert ((ram <=? rmem) && (rmem <? ram + ram_end)) in
  let mem := rmem - SIZEOF_STRUCT_MEM - ram in
  let* m := node mem in
  do* massert (ctrue (used m)) in
  do* upd_node mem (set_used 0) in
  do* modify (λ h, if mem <? lfree h then set_lfree mem h else h) in
  plug_holes mem.

(** The size of a block for a request. *)
Definition block_size (size : Z) : Z :=
  let size := LWIP_MEM_ALIGN_SIZE size in
  if size <? MIN_SIZE_ALIGNED then MIN_SIZE_ALIGNED else size.

Definition mem_realloc (rmem newsize : Z) : M heap (option Z) :=
  let newsize := block_size newsize in
  if MEM_SIZE_ALIGNED <? newsize then ret None else
  do* massert ((ram <=? rmem) && (rmem <? ram + ram_end)) in
  let mem := rmem - SIZEOF_STRUCT_MEM - ram in
  let ptr := mem in
  let* m := node mem in
  let size := u32 (next m - ptr - SIZEOF_STRUCT_MEM) in
  do* massert (newsize <=? size) in
  if newsize =? size then ret (Some rmem) else
  let mem2 := next m in
  let* m2 := node mem2 in
  let ptr2 := u32 (ptr + SIZEOF_STRUCT_MEM + newsize) in
  if used m2 =? 0 then
    let nxt := next m2 in
    do* modify (λ h, if lfree h =? mem2 then set_lfree ptr2 h else h) in
    do* upd_node ptr2 (λ _, MkMem nxt ptr 0) in
    do* upd_node mem (set_next ptr2) in
    do* (if negb (nxt =? MEM_SIZE_ALIGNED) then upd_node nxt (set_prev ptr2) else ret tt) in
    ret (Some rmem)
  else if u32 (newsize + SIZEOF_STRUCT_MEM + MIN_SIZE_ALIGNED) <=? size then
    do* modify (λ h, if ptr2 <? lfree h then set_lfree ptr2 h else h) in
    do* upd_node ptr2 (λ _, MkMem mem2 ptr 0) in
    do* upd_node mem (set_next ptr2) in
    do* (if negb (mem2 =? MEM_SIZE_ALIGNED) then upd_node mem2 (set_prev ptr2) else ret tt) in
    ret (Some rmem)
  else ret (Some rmem).

(** Blocks are at least 24 bytes apart. *)
Definition walk_fuel : nat := Z.to_nat (MEM_SIZE_ALIGNED / 24 + 2).

(** The lowest free block, when the one that was is now in use. *)
Fixpoint next_free (fuel : nat) (ptr : Z) : M heap Z :=
  match fuel with
  | O => ret ptr
  | S fuel' =>
      let* m := node ptr in
      if ctrue (used m) && negb (ptr =? ram_end) then next_free fuel' (next m) else ret ptr
  end.

(** Take the block at [ptr], and split it when another one fits behind the data. *)
Definition take_block (ptr size : Z) : M heap (option Z) :=
  let* m := node ptr in
  do* (if u32 (size + SIZEOF_STRUCT_MEM + MIN_SIZE_ALIGNED) <=? u32 (next m - (ptr + SIZEOF_STRUCT_MEM)) then
         let ptr2 := u32 (ptr + SIZEOF_STRUCT_MEM + size) in
         do* upd_node ptr2 (λ _, MkMem (next m) ptr 0) in
         do* upd_node ptr (λ m, set_used 1 (set_next ptr2 m)) in
         if negb (next m =? MEM_SIZE_ALIGNED) then upd_node (next m) (set_prev ptr2) else ret tt
       else upd_node ptr (set_used 1)) in
  let* lf := gets lfree in
  do* (if ptr =? lf then
         let* lf := next_free walk_fuel lf in
         do* modify (set_lfree lf) in
         let* m := node lf in
         massert ((lf =? ram_end) || negb (ctrue (used m)))
       else ret tt) in
  do* massert (ram + ptr + SIZEOF_STRUCT_MEM + size <=? ram + ram_end) in
  do* massert ((ram + ptr + SIZEOF_STRUCT_MEM) mod MEM_ALIGNMENT =? 0) in
  do* massert (Z.land (ram + ptr) (MEM_ALIGNMENT - 1) =? 0) in
  ret (Some (ram + ptr + SIZEOF_STRUCT_MEM)).

Fixpoint malloc_loop (fuel : nat) (ptr size : Z) : M heap (option Z) :=
  match fuel with
  | O => ret None
  | S fuel' =>
      if ptr <? u32 (MEM_SIZE_ALIGNED - size) then
        let* m := node ptr in
        if negb (ctrue (used m)) && (size <=? u32 (next m - (ptr + SIZEOF_STRUCT_MEM))) then take_block ptr size
        else malloc_loop fuel' (next m) size
      else ret None
  end.

Definition mem_malloc (size : Z) : M heap (option Z) :=
  if size =? 0 then ret None else
  let size := block_size size in
  if MEM_SIZE_ALIGNED <? size then ret None else
  let* lf := gets lfree in
  malloc_loop walk_fuel lf size.
End heap.
