(* ===== verification/LwipMemProps.v ===== *)
(** * The heap of the network server: a first-fit allocator over a list of blocks *)

From stdpp Require Import base gmap list strings.
From Stdlib Require Import ZArith Lia.
From S2P Require Import Prelude Pbuf LwipMem.

(** ** The heap as a list of blocks *)

(** A block: its size with its structure, and whether it is in use. *)
Notation block := (Z * bool)%type.

Fixpoint bsum (bl : list block) : Z := match bl with [] => 0 | (sz, _) :: bl' => sz + bsum bl' end.

Definition blk (n : Z → mem) (p o sz : Z) (u : bool) : Prop :=
  next (n o) = o + sz ∧ prev (n o) = p ∧ used (n o) = Z.b2z u ∧ 24 ≤ sz ∧ sz mod 4 = 0.

(** The blocks from the offset [o] on are [bl], the block before them is at [p]. *)
Fixpoint seg (n : Z → mem) (p o : Z) (bl : list block) : Prop :=
  match bl with [] => True | (sz, u) :: bl' => blk n p o sz u ∧ seg n o (o + sz) bl' end.

Fixpoint last_off (p o : Z) (bl : list block) : Z := match bl with [] => p | (sz, _) :: bl' => last_off o (o + sz) bl' end.
Fixpoint first_free (o : Z) (bl : list block) : Z :=
  match bl with [] => o | (sz, u) :: bl' => if u : bool then first_free (o + sz) bl' else o end.

(** No free block follows a free block. *)
Fixpoint coalesced (bl : list block) : Prop :=
  match bl with
  | (_, false) :: (((_, false) :: _) as _) => False
  | _ :: bl' => coalesced bl'
  | [] => True
  end.

Definition shape (n : Z → mem) (bl : list block) : Prop := seg n 0 0 bl ∧ bsum bl = MEM_SIZE_ALIGNED ∧ used (n ram_end) = 1.
Definition laid_out (h : heap) (bl : list block) : Prop := shape (nodes h) bl ∧ lfree h = first_free 0 bl.

Definition heap_ok (h : heap) (bl : list block) : Prop := laid_out h bl ∧ coalesced bl.

(** ** Blocks *)

Lemma bsum_app a b : bsum (a ++ b) = bsum a + bsum b.
Proof. induction a as [|[sz u] a IH]; cbn in *; lia. Qed.

Lemma blocks_app n a : ∀ p o b, seg n p o (a ++ b) ↔ seg n p o a ∧ seg n (last_off p o a) (o + bsum a) b.
Proof.
  induction a as [|[sz u] a IH]; intros p o b; cbn; [rewrite Z.add_0_r; naive_solver|]. rewrite IH.
  replace (o + sz + bsum a) with (o + (sz + bsum a)) by lia. naive_solver.
Qed.

Lemma seg_sum n bl : ∀ p o, seg n p o bl → 24 * Z.of_nat (length bl) ≤ bsum bl.
Proof.
  induction bl as [|[sz u] bl IH]; intros p o; cbn [seg length bsum]; [lia|].
  intros [(_ & _ & _ & H & _) Hs]. specialize (IH _ _ Hs). lia.
Qed.

Lemma seg_nonneg n bl p o : seg n p o bl → 0 ≤ bsum bl.
Proof. intros H%seg_sum. lia. Qed.

Lemma seg_agree n n' bl : ∀ p o, (∀ x, o ≤ x < o + bsum bl → n' x = n x) → seg n p o bl → seg n' p o bl.
Proof.
  induction bl as [|[sz u] bl IH]; intros p o Hn; [done|]. cbn [bsum] in Hn. intros [Hb Hs].
  pose proof (seg_nonneg _ _ _ _ Hs). pose proof Hb as (_ & _ & _ & Hsz & _). split.
  - unfold blk. by rewrite Hn by lia.
  - apply IH; [|done]. intros x Hx. apply Hn. lia.
Qed.

(** The structure of the first block gets another predecessor. *)
Lemma seg_reprev n n' bl p p' o : seg n p o bl → (∀ x, o < x < o + bsum bl → n' x = n x) →
  (bl ≠ [] → n' o = set_prev p' (n o)) → seg n' p' o bl.
Proof.
  destruct bl as [|[sz u] bl]; [done|]. cbn [bsum]. intros [(H1 & H2 & H3 & H4 & H5) Hs] Hn Ho. specialize (Ho ltac:(done)).
  pose proof (seg_nonneg _ _ _ _ Hs). split; [unfold blk; rewrite Ho; cbn; done|]. eapply seg_agree; [|done]. intros x Hx. apply Hn. lia.
Qed.

Lemma first_free_app a b : ∀ o, first_free o (a ++ b) = if existsb (λ x, negb x.2) a then first_free o a else first_free (o + bsum a) b.
Proof.
  induction a as [|[sz u] a IH]; intros o; cbn; [by rewrite Z.add_0_r|]. destruct u; cbn; [|done]. rewrite IH. by rewrite Z.add_assoc.
Qed.

Lemma first_free_range n a : ∀ p o, seg n p o a → o ≤ first_free o a ≤ o + bsum a.
Proof.
  induction a as [|[sz u] a IH]; intros p o; cbn [seg first_free bsum]; [lia|].
  intros [(_ & _ & _ & H & _) Hs]. specialize (IH _ _ Hs). pose proof (seg_nonneg _ _ _ _ Hs). destruct u; lia.
Qed.

Lemma first_free_in n a : ∀ p o, seg n p o a → existsb (λ x, negb x.2) a = true → first_free o a < o + bsum a.
Proof.
  induction a as [|[sz u] a IH]; intros p o; cbn [seg first_free bsum existsb snd]; [done|].
  intros [(_ & _ & _ & H & _) Hs]. pose proof (seg_nonneg _ _ _ _ Hs). destruct u; cbn [negb orb]; [|lia]. intros He. specialize (IH _ _ Hs He). lia.
Qed.

(** With a free block at [bsum a] the lowest one is there or before it. *)
Lemma first_free_at n a p o sz b : seg n p o a → first_free o (a ++ (sz, false) :: b) ≤ o + bsum a.
Proof.
  intros Hs. rewrite first_free_app. destruct (existsb _ a) eqn:E; [|cbn; lia]. pose proof (first_free_in _ _ _ _ Hs E). lia.
Qed.

Lemma coalesced_app a x b : coalesced (a ++ (x, true) :: b) ↔ coalesced a ∧ coalesced b.
Proof.
  induction a as [|[sz u] a IH]; [cbn; naive_solver|]. destruct a as [|[sz' u'] a].
  - cbn in *. destruct u; naive_solver.
  - revert IH. cbn. destruct u, u'; cbn; naive_solver.
Qed.

(** ** Running the operations *)

Lemma size_consts : MEM_SIZE_ALIGNED = 2228224 ∧ SIZEOF_STRUCT_MEM = 12 ∧ MIN_SIZE_ALIGNED = 12 ∧ ram_end = 2228224.
Proof. done. Qed.

Ltac consts := change ram_end with 2228224 in *; change MEM_SIZE_ALIGNED with 2228224 in *; change SIZEOF_STRUCT_MEM with 12 in *;
  change MIN_SIZE_ALIGNED with 12 in *.
Ltac stp := rewrite (bind_eq (gets _) _ _ _ _ eq_refl) || rewrite (bind_eq (modify _) _ _ _ _ eq_refl) ||
  rewrite (bind_eq (ret _) _ _ _ _ eq_refl) || rewrite (bind_eq (node _) _ _ _ _ eq_refl) || rewrite (bind_eq (upd_node _ _) _ _ _ _ eq_refl).
Ltac chk :=
  match goal with |- context [bind (massert ?c) _ ?s] =>
    let Hc := fresh in assert (c = true) as Hc by (rewrite ?andb_true_iff, ?Z.eqb_eq, ?Z.ltb_lt, ?Z.leb_le; lia);
    rewrite (bind_eq (massert c) _ s tt s ltac:(by rewrite Hc)); clear Hc
  end.

Lemma next_free_ok h : used (nodes h ram_end) = 1 → ∀ bl fuel p o, (length bl < fuel)%nat → seg (nodes h) p o bl → o + bsum bl = ram_end →
  next_free fuel o h = Ret (first_free o bl) h.
Proof.
  intros He. induction bl as [|[sz u] bl IH]; intros fuel p o Hf Hs Ho; (destruct fuel as [|fuel]; [cbn in Hf; lia|]); cbn [next_free]; stp.
  - cbn in Ho. replace o with ram_end by lia. rewrite Z.eqb_refl, andb_false_r. done.
  - destruct Hs as [(H1 & H2 & H3 & H4 & H5) Hs]. cbn [bsum] in Ho. pose proof (seg_nonneg _ _ _ _ Hs). rewrite H3, H1.
    destruct (Z.eqb_spec o ram_end); [lia|]. destruct u; cbn [Z.b2z ctrue Z.eqb negb andb first_free]; [|done].
    eapply IH; [cbn in Hf; lia|exact Hs|lia].
Qed.

Lemma walk_fuel_enough n bl : shape n bl → (length bl < walk_fuel)%nat.
Proof. intros (Hs%seg_sum & Hb & _). unfold walk_fuel. consts. change (2228224 / 24 + 2) with 92844. lia. Qed.

(** What becomes of a block of [sz] bytes that is taken for [size] bytes. *)
Definition taken_block (sz size : Z) : list block :=
  if size + 24 <=? sz - 12 then [(12 + size, true); (sz - 12 - size, false)] else [(sz, true)].

Lemma bsum_split sz size : bsum (taken_block sz size) = sz.
Proof. unfold taken_block. destruct (_ <=? _); cbn; lia. Qed.

Lemma coalesced_parts a b : coalesced (a ++ b) → coalesced a ∧ coalesced b.
Proof.
  induction a as [|[sz u] a IH]; [cbn; done|]. intros H. destruct a as [|[sz' u'] a].
  - cbn in *. destruct u, b as [|[? []] b]; cbn in *; naive_solver.
  - cbn in *. destruct u, u'; cbn in *; naive_solver.
Qed.

Lemma coalesced_size a x y b : coalesced (a ++ (x, false) :: b) → coalesced (a ++ (y, false) :: b).
Proof.
  induction a as [|[sz u] a IH]; [done|]. destruct a as [|[sz' u'] a]; cbn in *; destruct u; try done. by destruct u'.
Qed.

Lemma coalesced_used x b : coalesced ((x, false) :: b) → coalesced b.
Proof. by intros [_ H]%(coalesced_parts [(x, false)]). Qed.

Lemma split_coalesced a sz size b : coalesced (a ++ (sz, false) :: b) → coalesced (a ++ taken_block sz size ++ b).
Proof.
  intros H. apply coalesced_parts in H as H'. destruct H' as [Ha Hb]. unfold taken_block. destruct (_ <=? _); cbn [app]; apply coalesced_app.
  - split; [done|]. by apply (coalesced_size [] sz).
  - split; [done|]. by eapply coalesced_used.
Qed.

(** The blocks [old] between [a] and [b] become the blocks [mid]. *)
Lemma shape_mid n n' a old mid b : shape n (a ++ old ++ b) → bsum mid = bsum old →
  (∀ x, 0 ≤ x < bsum a → n' x = n x) → seg n' (last_off 0 0 a) (bsum a) mid →
  (∀ x, bsum a + bsum old < x → n' x = n x) →
  (b ≠ [] → n' (bsum a + bsum old) = set_prev (last_off (last_off 0 0 a) (bsum a) mid) (n (bsum a + bsum old))) →
  (b = [] → used (n' (bsum a + bsum old)) = used (n (bsum a + bsum old))) → shape n' (a ++ mid ++ b).
Proof.
  intros ((Sa & Sb)%blocks_app & Hm & He) Hmid Ha Hs Hb Hbp Hbe. apply blocks_app in Sb as [So Sb]. rewrite !bsum_app in Hm.
  pose proof (seg_nonneg _ _ _ _ Sb). split; [|split].
  - apply blocks_app. split; [by eapply seg_agree|]. apply blocks_app. split; [done|]. rewrite Hmid. eapply seg_reprev; [exact Sb| |exact Hbp].
    intros x Hx. apply Hb. lia.
  - rewrite !bsum_app. lia.
  - change ram_end with MEM_SIZE_ALIGNED in *. rewrite <- He. destruct b as [|[sz u] b].
    + cbn in Hm. replace MEM_SIZE_ALIGNED with (bsum a + bsum old) by lia. by apply Hbe.
    + f_equal. apply Hb. destruct Sb as [(_ & _ & _ & ? & _) Sb]. pose proof (seg_nonneg _ _ _ _ Sb). cbn in Hm. lia.
Qed.

Lemma seg_mod n bl : ∀ p o, seg n p o bl → bsum bl mod 4 = 0.
Proof.
  induction bl as [|[sz u] bl IH]; intros p o; [done|]. cbn [seg bsum]. intros [(_ & _ & _ & _ & H) Hs]. specialize (IH _ _ Hs).
  by rewrite Z.add_mod, H, IH.
Qed.

Lemma shape_block n a sz u b : shape n (a ++ (sz, u) :: b) →
  blk n (last_off 0 0 a) (bsum a) sz u ∧ 0 ≤ bsum a ∧ bsum a mod 4 = 0 ∧ 0 ≤ bsum b ∧ bsum a + sz + bsum b = MEM_SIZE_ALIGNED ∧
  (b ≠ [] → prev (n (bsum a + sz)) = bsum a ∧ bsum a + sz < MEM_SIZE_ALIGNED).
Proof.
  intros ((Sa & Sb)%blocks_app & Hm & He). destruct Sb as [Hb Sb]. rewrite bsum_app in Hm. cbn in Hm. pose proof (seg_nonneg _ _ _ _ Sa). pose proof (seg_nonneg _ _ _ _ Sb).
  split; [done|]. split; [done|]. split; [by eapply seg_mod|]. split; [done|]. split; [lia|]. intros Hn. destruct b as [|[sz' u'] b]; [done|].
  destruct Sb as [(_ & H' & _ & ? & _) Sb]. pose proof (seg_nonneg _ _ _ _ Sb). cbn in Hm. split; [done|lia].
Qed.

Lemma set_prev_same m : set_prev (prev m) m = m.
Proof. by destruct m. Qed.

Lemma split_nodes h a sz b size : shape (nodes h) (a ++ (sz, false) :: b) → 12 ≤ size → size mod 4 = 0 → size ≤ sz - 12 →
  let m := nodes h (bsum a) in ∃ n',
  (if u32 (size + SIZEOF_STRUCT_MEM + MIN_SIZE_ALIGNED) <=? u32 (next m - (bsum a + SIZEOF_STRUCT_MEM)) then
     let ptr2 := u32 (bsum a + SIZEOF_STRUCT_MEM + size) in
     do* upd_node ptr2 (λ _, MkMem (next m) (bsum a) 0) in
     do* upd_node (bsum a) (λ m, set_used 1 (set_next ptr2 m)) in
     if negb (next m =? MEM_SIZE_ALIGNED) then upd_node (next m) (set_prev ptr2) else ret tt
   else upd_node (bsum a) (set_used 1)) h = Ret tt (set_nodes n' h) ∧ shape n' (a ++ taken_block sz size ++ b).
Proof.
  intros Sh H12 Hs4 Hsz m. destruct (shape_block _ _ _ _ _ Sh) as ((B1 & B2 & B3 & B4 & B5) & A1 & A2 & A3 & A4 & A5). fold m in B1, B2, B3. consts.
  rewrite !u32_small by (unfold is_u32; lia). rewrite B1. unfold taken_block.
  replace (size + 12 + 12 <=? bsum a + sz - (bsum a + 12)) with (size + 24 <=? sz - 12) by (zcases; lia).
  destruct (Z.leb_spec (size + 24) (sz - 12)) as [Hsp|Hsp].
  - stp. stp. set (n1 := upd (nodes h) (bsum a + 12 + size) (MkMem (bsum a + sz) (bsum a) 0)).
    set (n2 := upd n1 (bsum a) (set_used 1 (set_next (bsum a + 12 + size) (n1 (bsum a))))).
    exists (if bsum a + sz =? 2228224 then n2 else upd n2 (bsum a + sz) (set_prev (bsum a + 12 + size) (n2 (bsum a + sz)))).
    split; [by destruct (bsum a + sz =? 2228224)|]. assert (∀ x, x ≠ bsum a → x ≠ bsum a + 12 + size → n2 x = nodes h x) as Hn2.
    { intros x Hx1 Hx2. unfold n2, n1. by rewrite !upd_ne. }
    assert (n2 (bsum a + 12 + size) = MkMem (bsum a + sz) (bsum a) 0) as E2 by (unfold n2, n1; rewrite upd_ne, upd_eq by lia; done).
    assert (n2 (bsum a) = MkMem (bsum a + 12 + size) (last_off 0 0 a) 1) as E1.
    { unfold n2, n1. rewrite upd_eq, upd_ne by lia. fold m. unfold set_used, set_next. cbn. by rewrite B2. }
    clearbody n2. eapply (shape_mid (nodes h) _ a [(sz, false)]); [exact Sh|cbn; lia|..]; cbn [bsum last_off]; rewrite ?Z.add_0_r.
    + intros x Hx. destruct (_ =? _); [|rewrite upd_ne by lia]; apply Hn2; lia.
    + cbn [seg]. unfold blk. replace (bsum a + (12 + size)) with (bsum a + 12 + size) by lia.
      destruct (_ =? _); rewrite ?(upd_ne _ (bsum a + sz)), ?E1, ?E2 by lia; cbn [next prev used Z.b2z]; split_and!; try done; try lia; dlia.
    + intros x Hx. destruct (_ =? _); [|rewrite upd_ne by lia]; apply Hn2; lia.
    + intros Hb. destruct (Z.eqb_spec (bsum a + sz) 2228224) as [E|E].
      * destruct (A5 Hb). lia.
      * rewrite upd_eq by done. rewrite Hn2 by lia. f_equal. lia.
    + intros ->. cbn in A4. destruct (Z.eqb_spec (bsum a + sz) 2228224); [|lia]. f_equal. apply Hn2; lia.
  - eexists. split; [done|]. eapply (shape_mid (nodes h) _ a [(sz, false)]); [exact Sh|cbn; lia|..]; cbn [bsum last_off]; rewrite ?Z.add_0_r.
    + intros x Hx. apply upd_ne. lia.
    + split; [|done]. unfold blk. rewrite upd_eq by done. done.
    + intros x Hx. apply upd_ne. lia.
    + intros Hb. rewrite upd_ne by lia. rewrite <- (set_prev_same (nodes h (bsum a + sz))) at 1. by rewrite (proj1 (A5 Hb)).
    + intros _. by rewrite upd_ne by lia.
Qed.

Definition all_used (bl : list block) : bool := negb (existsb (λ x, negb x.2) bl).

(** The lowest free block once the one at [bsum a] is split and taken. *)
Lemma first_free_split n a sz size b p : seg n p 0 a →
  first_free 0 (a ++ taken_block sz size ++ b) =
  if bsum a =? first_free 0 (a ++ (sz, false) :: b) then first_free (bsum a) (taken_block sz size ++ b) else first_free 0 (a ++ (sz, false) :: b).
Proof.
  intros Hs. rewrite !(first_free_app a), Z.add_0_l. destruct (existsb _ a) eqn:E; cbn [first_free]; [|by rewrite Z.eqb_refl].
  pose proof (first_free_in _ _ _ _ Hs E). destruct (Z.eqb_spec (bsum a) (first_free 0 a)); [lia|done].
Qed.

Lemma first_free_node n bl : ∀ p o, seg n p o bl → first_free o bl = o + bsum bl ∨ used (n (first_free o bl)) = 0.
Proof.
  induction bl as [|[sz u] bl IH]; intros p o; cbn [seg first_free bsum]; [intros _; left; lia|]. intros [(_ & _ & H & _) Hs]. destruct u; [|by right].
  destruct (IH _ _ Hs) as [->|H']; [left; lia|by right].
Qed.

Lemma lower_lfree h n' a sz size b : lfree h = first_free 0 (a ++ (sz, false) :: b) → shape n' (a ++ taken_block sz size ++ b) →
  ∃ h', (if bsum a =? lfree h then
      let* lf := next_free walk_fuel (lfree h) in
      do* modify (set_lfree lf) in
      let* m := node lf in
      massert ((lf =? ram_end) || negb (ctrue (used m)))
    else ret tt) (set_nodes n' h) = Ret tt h' ∧ laid_out h' (a ++ taken_block sz size ++ b).
Proof.
  intros Hl Sh'. pose proof Sh' as (S1 & S2 & S3). pose proof (walk_fuel_enough _ _ Sh') as Hf. rewrite length_app in Hf. rewrite bsum_app in S2.
  apply blocks_app in S1 as [Sa Sb]. rewrite Z.add_0_l in Sb. pose proof (first_free_split _ a sz size b _ Sa) as Hff. rewrite <- Hl in Hff.
  destruct (Z.eqb_spec (bsum a) (lfree h)) as [E|E]; [|exists (set_nodes n' h); split; [done|]; by split].
  rewrite <- E. assert (length (taken_block sz size ++ b) < walk_fuel)%nat as Hf' by lia.
  rewrite (bind_eq _ _ _ _ _ (next_free_ok (set_nodes n' h) S3 _ _ _ _ Hf' Sb S2)). stp. stp.
  exists (set_lfree (first_free (bsum a) (taken_block sz size ++ b)) (set_nodes n' h)). split; [|by split].
  destruct (first_free_node _ _ _ _ Sb) as [->|H0]; [|cbn; rewrite H0; by rewrite orb_true_r].
  rewrite S2. unfold massert. by rewrite Z.eqb_refl.
Qed.

Lemma land3 x : x mod 4 = 0 → Z.land x (MEM_ALIGNMENT - 1) = 0.
Proof. intros H. change (MEM_ALIGNMENT - 1) with (Z.ones 2). by rewrite Z.land_ones by lia. Qed.

Lemma take_block_ok ram h a sz b size : heap_ok h (a ++ (sz, false) :: b) → 12 ≤ size → size mod 4 = 0 → size ≤ sz - 12 → ram mod 4 = 0 →
  ∃ h', take_block ram (bsum a) size h = Ret (Some (ram + bsum a + 12)) h' ∧ heap_ok h' (a ++ taken_block sz size ++ b).
Proof.
  intros [[Sh Hl] Hc] H12 Hs4 Hsz Hr. destruct (split_nodes h a sz b size Sh H12 Hs4 Hsz) as (n' & En & Sh').
  destruct (shape_block _ _ _ _ _ Sh) as ((_ & _ & _ & B4 & _) & A1 & A2 & A3 & A4 & _). destruct (lower_lfree h n' a sz size b Hl Sh') as (h' & E' & L').
  unfold take_block. stp. rewrite (bind_eq _ _ _ _ _ En). stp. cbn [lfree set_nodes]. rewrite (bind_eq _ _ _ _ _ E').
  exists h'. split; [|split; [done|by apply split_coalesced]]. consts. chk.
  assert ((ram + bsum a) mod 4 = 0) as H4 by (by rewrite Z.add_mod, Hr, A2). rewrite land3 by done.
  unfold MEM_ALIGNMENT. rewrite (Z.add_mod (ram + bsum a) 12), H4 by done. done.
Qed.

(** ** [mem_malloc] *)

(** The first free block that holds [size] bytes. *)
Fixpoint first_fit (bl : list block) (size : Z) : option (list block * Z * list block) :=
  match bl with
  | [] => None
  | (sz, u) :: bl' =>
      if negb u && (size <=? sz - 12) then Some ([], sz, bl')
      else match first_fit bl' size with None => None | Some (a, sz', b) => Some ((sz, u) :: a, sz', b) end
  end.

Lemma first_fit_some bl size a sz b : first_fit bl size = Some (a, sz, b) → bl = a ++ (sz, false) :: b ∧ size ≤ sz - 12.
Proof.
  revert a. induction bl as [|[s u] bl IH]; intros a; cbn; [done|]. destruct (negb u && (size <=? s - 12)) eqn:E.
  - intros [= <- <- <-]. apply andb_true_iff in E as [Eu%negb_true_iff Es%Z.leb_le]. by subst u.
  - destruct (first_fit bl size) as [[[a' s'] b']|]; [|done]. intros [= <- <- <-]. destruct (IH a') as [-> ?]; done.
Qed.

Lemma first_fit_none n bl : ∀ p o size, seg n p o bl → bsum bl ≤ size → first_fit bl size = None.
Proof.
  induction bl as [|[sz u] bl IH]; intros p o size; cbn [seg bsum first_fit]; [done|]. intros [(_ & _ & _ & H & _) Hs] Hle.
  pose proof (seg_nonneg _ _ _ _ Hs). destruct (Z.leb_spec size (sz - 12)); [lia|]. rewrite andb_false_r. rewrite (IH _ _ size Hs); [done|lia].
Qed.

Lemma malloc_loop_ok ram h : ∀ bl fuel p o size, (length bl < fuel)%nat → seg (nodes h) p o bl → o + bsum bl = MEM_SIZE_ALIGNED → 0 ≤ o →
  12 ≤ size ≤ MEM_SIZE_ALIGNED →
  malloc_loop ram fuel o size h = match first_fit bl size with None => Ret None h | Some (a, _, _) => take_block ram (o + bsum a) size h end.
Proof.
  consts. induction bl as [|[sz u] bl IH]; intros fuel p o size Hf Hs Ho H0 Hsz; (destruct fuel as [|fuel]; [cbn in Hf; lia|]); cbn [malloc_loop]; consts;
    rewrite (u32_small (2228224 - size)) by (unfold is_u32; lia).
  - cbn in Ho. destruct (Z.ltb_spec o (2228224 - size)); [lia|done].
  - destruct (Z.ltb_spec o (2228224 - size)) as [Hlt|Hge]; [|rewrite (first_fit_none _ _ _ _ size Hs) by lia; done].
    destruct Hs as [(B1 & B2 & B3 & B4 & B5) Hs]. pose proof (seg_nonneg _ _ _ _ Hs). cbn [bsum] in Ho. cbn [first_fit]. stp. rewrite B1, B3.
    rewrite u32_small by (unfold is_u32; lia). replace (size <=? o + sz - (o + 12)) with (size <=? sz - 12) by (zcases; lia).
    replace (negb (ctrue (Z.b2z u))) with (negb u) by (by destruct u). destruct (negb u && (size <=? sz - 12)); [cbn; by rewrite Z.add_0_r|].
    rewrite (IH _ o (o + sz) size); [|cbn in Hf; lia|done|lia|lia|done]. destruct (first_fit bl size) as [[[a s'] b]|]; [|done].
    cbn [bsum]. by rewrite Z.add_assoc.
Qed.

(** The search may start at the lowest free block. *)
Lemma first_fit_app a b size : existsb (λ x, negb x.2) a = false →
  first_fit (a ++ b) size = match first_fit b size with None => None | Some (x, sz, y) => Some (a ++ x, sz, y) end.
Proof.
  induction a as [|[sz u] a IH]; cbn; [by destruct (first_fit b size) as [[[? ?] ?]|]|]. intros [Hu Ha]%orb_false_iff. rewrite Hu. cbn. rewrite IH by done.
  by destruct (first_fit b size) as [[[? ?] ?]|].
Qed.

Lemma split_free bl : ∃ a b, bl = a ++ b ∧ existsb (λ x, negb x.2) a = false ∧ ∀ o, first_free o bl = o + bsum a.
Proof.
  induction bl as [|[sz [|]] bl (a & b & -> & Ha & Hf)].
  - exists [], []. split_and!; try done. intros o. cbn. lia.
  - exists ((sz, true) :: a), b. split_and!; try done. intros o. cbn. rewrite Hf. lia.
  - exists [], ((sz, false) :: a ++ b). split_and!; try done. intros o. cbn. lia.
Qed.

Lemma block_size_ok size : 0 ≤ size < 2 ^ 32 - 3 → 12 ≤ block_size size ∧ size ≤ block_size size ∧ block_size size mod 4 = 0.
Proof.
  intros H. unfold block_size, MIN_SIZE_ALIGNED, MIN_SIZE. change (LWIP_MEM_ALIGN_SIZE 12) with 12. unfold LWIP_MEM_ALIGN_SIZE, MEM_ALIGNMENT.
  replace (size + 4 - 1) with (size + 3) by lia. rewrite u32_small by (unfold is_u32; lia).
  change (4 - 1) with (Z.ones 2). rewrite <- Z.ldiff_land, Z.ldiff_ones_r, Z.shiftl_mul_pow2, Z.shiftr_div_pow2 by lia. change (2 ^ 2) with 4.
  destruct (Z.ltb_spec ((size + 3) / 4 * 4) 12); [dlia|]. rewrite Z.mod_mul by done. dlia.
Qed.

Lemma mem_malloc_ok ram h bl size : heap_ok h bl → ram mod 4 = 0 → 0 < size < 2 ^ 32 - 3 →
  match first_fit bl (block_size size) with
  | None => mem_malloc ram size h = Ret None h
  | Some (a, sz, b) => ∃ h', mem_malloc ram size h = Ret (Some (ram + bsum a + 12)) h' ∧ heap_ok h' (a ++ taken_block sz (block_size size) ++ b)
  end.
Proof.
  intros Hok Hr Hs. destruct (block_size_ok size) as (K1 & K2 & K3); [lia|]. unfold mem_malloc. destruct (Z.eqb_spec size 0); [lia|].
  pose proof Hok as [[(S1 & S2 & S3) Hl] Hc]. destruct (Z.ltb_spec MEM_SIZE_ALIGNED (block_size size)) as [Hbig|Hle].
  { rewrite (first_fit_none _ _ _ _ _ S1) by lia. done. }
  stp. destruct (split_free bl) as (a & b & -> & Ha & Hf). rewrite Hl, Hf, first_fit_app by done. rewrite bsum_app in S2.
  apply blocks_app in S1 as [Sa Sb]. rewrite Z.add_0_l in Sb. pose proof (seg_nonneg _ _ _ _ Sa).
  rewrite (malloc_loop_ok ram h b walk_fuel (last_off 0 0 a) (0 + bsum a)); [|pose proof (walk_fuel_enough _ _ (proj1 (proj1 Hok))) as Hw; rewrite length_app in Hw; lia|exact Sb|lia|lia|done].
  destruct (first_fit b (block_size size)) as [[[a' sz] b']|] eqn:Eb; [|done]. apply first_fit_some in Eb as [-> Hsz].
  rewrite Z.add_0_l, <- bsum_app. apply take_block_ok; try done. by rewrite <- app_assoc.
Qed.

(** ** [mem_free] *)

(** Two adjacent blocks become one. *)
Lemma merge_nodes n a s1 s2 b : shape n (a ++ (s1, false) :: (s2, false) :: b) →
  let e := bsum a + s1 + s2 in let n1 := upd n (bsum a) (set_next e (n (bsum a))) in
  shape (upd n1 e (set_prev (bsum a) (n1 e))) (a ++ (s1 + s2, false) :: b).
Proof.
  intros Sh e n1. destruct (shape_block _ _ _ _ _ Sh) as ((B1 & B2 & B3 & B4 & B5) & A1 & A2 & _).
  assert (24 ≤ s2 ∧ s2 mod 4 = 0) as [C4 C5].
  { destruct Sh as ((_ & (_ & (_ & _ & _ & ? & ?) & _))%blocks_app & _). done. }
  subst n1 e. cbn zeta. change ((s1, false) :: (s2, false) :: b) with ([(s1, false); (s2, false)] ++ b) in Sh.
  eapply (shape_mid n _ a _ [(s1 + s2, false)]); [exact Sh|cbn; lia|..]; cbn [bsum last_off]; rewrite ?Z.add_0_r, ?Z.add_assoc.
  - intros x Hx. by rewrite !upd_ne by lia.
  - split; [|done]. unfold blk. rewrite upd_ne, upd_eq by lia. cbn [next prev used set_next]. split_and!; try done; try lia. by rewrite Z.add_mod, B5, C5.
  - intros x Hx. by rewrite !upd_ne by lia.
  - intros _. rewrite upd_eq by done. by rewrite upd_ne by lia.
  - intros _. rewrite upd_eq by done. cbn. by rewrite upd_ne by lia.
Qed.

Definition fwd (sz : Z) (b : list block) : Z * list block := match b with (s2, false) :: b' => (sz + s2, b') | _ => (sz, b) end.

(** Freeing the block of [sz] bytes between [a] and [b]. *)
Definition release_block (a : list block) (sz : Z) (b : list block) : list block :=
  let '(sz, b) := fwd sz b in
  match last a with
  | Some (s0, false) => removelast a ++ (s0 + sz, false) :: b
  | _ => a ++ (sz, false) :: b
  end.

Lemma laid_out_lfree h a sz b : laid_out h (a ++ (sz, false) :: b) → lfree h ≤ bsum a.
Proof. intros [(S1 & _) ->]. apply blocks_app in S1 as [Sa _]. pose proof (first_free_at _ _ _ _ sz b Sa). lia. Qed.

Lemma plug_fwd h a sz b : laid_out h (a ++ (sz, false) :: b) → let mem := bsum a in let nmem := bsum a + sz in let nm := nodes h nmem in
  ∃ h1, (if negb (mem =? nmem) && (used nm =? 0) && negb (nmem =? ram_end) then
         do* modify (λ h, if lfree h =? nmem then set_lfree mem h else h) in
         do* upd_node mem (set_next (next nm)) in
         upd_node (next nm) (set_prev mem)
       else ret tt) h = Ret tt h1 ∧ laid_out h1 (a ++ ((fwd sz b).1, false) :: (fwd sz b).2).
Proof.
  intros L mem nmem nm. pose proof (laid_out_lfree _ _ _ _ L) as Hlf. destruct L as [Sh Hl].
  destruct (shape_block _ _ _ _ _ Sh) as ((B1 & B2 & B3 & B4 & B5) & A1 & A2 & A3 & A4 & A5). pose proof Sh as ((_ & (_ & Sb))%blocks_app & _ & He). rewrite Z.add_0_l in Sb.
  destruct b as [|[s2 [|]] b].
  - cbn in A4. assert (used nm = 1) as -> by (unfold nm, nmem; replace (bsum a + sz) with ram_end; [done|change ram_end with MEM_SIZE_ALIGNED; lia]).
    change (1 =? 0) with false. rewrite andb_false_r. cbn [andb]. exists h. split; [done|by split].
  - assert (used nm = 1) as -> by (by destruct Sb as [(_ & _ & Hu & _) _]). change (1 =? 0) with false. rewrite andb_false_r. cbn [andb]. exists h. split; [done|by split].
  - destruct Sb as [(N1 & _ & N3 & N4 & _) Sb]. pose proof (seg_nonneg _ _ _ _ Sb). destruct (A5 ltac:(done)) as [_ Hlt]. fold nmem nm in N1, N3.
    assert (used nm = 0) as -> by done. destruct (Z.eqb_spec mem nmem); [unfold mem, nmem in *; lia|]. destruct (Z.eqb_spec nmem ram_end) as [E|_]; [unfold nmem in *; change ram_end with MEM_SIZE_ALIGNED in E; lia|].
    cbn [negb andb Z.eqb]. stp. destruct (Z.eqb_spec (lfree h) nmem) as [E|_]; [unfold nmem in *; lia|]. stp. eexists. split; [reflexivity|]. split.
    + rewrite N1. apply (merge_nodes (nodes h) a sz s2 b Sh).
    + cbn [lfree set_nodes fwd fst snd]. rewrite Hl, !first_free_app. done.
Qed.

Lemma removelast_snoc {A} (a : list A) x : removelast (a ++ [x]) = a.
Proof. rewrite removelast_app by done. cbn. apply app_nil_r. Qed.

Lemma last_off_snoc a s u : ∀ p o, last_off p o (a ++ [(s, u)]) = o + bsum a.
Proof. induction a as [|[s' u'] a IH]; intros p o; cbn; [lia|]. rewrite IH. lia. Qed.

Lemma plug_back h a sz b : laid_out h (a ++ (sz, false) :: b) → let mem := bsum a in let m := nodes h mem in
  ∃ h1, (let pmem := prev m in
  let* pm := node pmem in
  if negb (pmem =? mem) && (used pm =? 0) then
    do* modify (λ h, if lfree h =? mem then set_lfree pmem h else h) in
    do* upd_node pmem (set_next (next m)) in
    upd_node (next m) (set_prev pmem)
  else ret tt) h = Ret tt h1 ∧
  laid_out h1 (match last a with Some (s0, false) => removelast a ++ (s0 + sz, false) :: b | _ => a ++ (sz, false) :: b end).
Proof.
  intros L mem m. pose proof L as [Sh Hl]. destruct (shape_block _ _ _ _ _ Sh) as ((B1 & B2 & B3 & B4 & B5) & A1 & A2 & A3 & A4 & A5). fold mem m in B1, B2, B3.
  rewrite B2. stp. destruct a as [|[s0 u] a _] using rev_ind; [cbn; exists h; done|]. rewrite last_snoc, last_off_snoc, Z.add_0_l in *. rewrite <- app_assoc in Sh. cbn [app] in Sh.
  destruct (shape_block _ _ _ _ _ Sh) as ((C1 & C2 & C3 & C4 & C5) & D1 & _). unfold mem in *. clear mem. rewrite bsum_app in *. cbn [bsum] in *. rewrite Z.add_0_r in *.
  destruct (Z.eqb_spec (bsum a) (bsum a + s0)); [lia|]. rewrite C3. destruct u; cbn [Z.b2z Z.eqb negb andb]; [by exists h|].
  rewrite <- app_assoc in L. cbn [app] in L. pose proof (laid_out_lfree _ _ _ _ L) as Hlf. stp. destruct (Z.eqb_spec (lfree h) (bsum a + s0)); [lia|]. stp.
  eexists. split; [reflexivity|]. rewrite removelast_snoc. split.
  - rewrite B1. apply (merge_nodes (nodes h) a s0 sz b Sh).
  - cbn [lfree set_nodes]. destruct L as [_ ->]. by rewrite !first_free_app.
Qed.

Lemma plug_holes_ok h a sz b : laid_out h (a ++ (sz, false) :: b) → ∃ h', plug_holes (bsum a) h = Ret tt h' ∧ laid_out h' (release_block a sz b).
Proof.
  intros L. pose proof L as [Sh _]. destruct (shape_block _ _ _ _ _ Sh) as ((B1 & B2 & B3 & B4 & B5) & A1 & A2 & A3 & A4 & A5).
  destruct (plug_fwd h a sz b L) as (h1 & E1 & L1). cbn zeta in E1. cbn [Z.b2z] in B3. unfold plug_holes, release_block. consts. chk. stp. rewrite B3. chk. rewrite B1. chk. stp.
  rewrite (bind_eq _ _ _ _ _ E1). destruct (fwd sz b) as [sz' b']. cbn [fst snd] in L1. stp. destruct (plug_back h1 a sz' b' L1) as (h' & E' & L').
  exists h'. split; [exact E'|exact L'].
Qed.

Lemma coalesced_head s b : coalesced b → (∀ s' b', b ≠ (s', false) :: b') → coalesced ((s, false) :: b).
Proof. destruct b as [|[s' []] b]; [done|done|]. intros _ H. by destruct (H s' b). Qed.

Lemma coalesced_join a s b : coalesced a → coalesced ((s, false) :: b) → (∀ a' s', a ≠ a' ++ [(s', false)]) → coalesced (a ++ (s, false) :: b).
Proof.
  destruct a as [|[s0 u] a _] using rev_ind; [done|]. intros Ha Hb Hn. destruct u; [|by destruct (Hn a s0)].
  rewrite <- app_assoc. cbn [app]. apply coalesced_app. split; [|done]. by apply coalesced_parts in Ha as [? _].
Qed.

Lemma free_coalesced a sz b : coalesced a → coalesced b → coalesced (release_block a sz b).
Proof.
  intros Ha Hb. unfold release_block. assert (let '(s', b') := fwd sz b in ∀ s, coalesced ((s, false) :: b')) as Hf.
  { unfold fwd. destruct b as [|[s2 [|]] b]; [done| |].
    - intros s. apply coalesced_head; [done|]. congruence.
    - intros s. by apply (coalesced_size [] s2). }
  destruct (fwd sz b) as [s' b']. destruct a as [|[s0 u] a _] using rev_ind; [apply Hf|]. rewrite last_snoc, removelast_snoc. destruct u.
  - rewrite <- app_assoc. apply coalesced_app. split; [by apply coalesced_parts in Ha as [? _]|apply Hf].
  - apply coalesced_join; [by apply coalesced_parts in Ha as [? _]|apply Hf|]. intros a' s1 ->. rewrite <- app_assoc in Ha.
    apply coalesced_parts in Ha as [_ Ha]. done.
Qed.

Lemma unused_shape n a sz b : shape n (a ++ (sz, true) :: b) → shape (upd n (bsum a) (set_used 0 (n (bsum a)))) (a ++ (sz, false) :: b).
Proof.
  intros Sh. destruct (shape_block _ _ _ _ _ Sh) as ((B1 & B2 & B3 & B4 & B5) & A1 & A2 & A3 & A4 & A5).
  eapply (shape_mid n _ a [(sz, true)] [(sz, false)]); [exact Sh|done|..]; cbn [bsum last_off]; rewrite ?Z.add_0_r.
  - intros x Hx. apply upd_ne. lia.
  - split; [|done]. unfold blk. by rewrite upd_eq.
  - intros x Hx. apply upd_ne. lia.
  - intros Hb. rewrite upd_ne by lia. rewrite <- (set_prev_same (n (bsum a + sz))) at 1. by rewrite (proj1 (A5 Hb)).
  - intros _. by rewrite upd_ne by lia.
Qed.

Lemma first_free_unused n a sz b : shape n (a ++ (sz, true) :: b) → first_free 0 (a ++ (sz, false) :: b) =
  if bsum a <? first_free 0 (a ++ (sz, true) :: b) then bsum a else first_free 0 (a ++ (sz, true) :: b).
Proof.
  intros Sh. destruct (shape_block _ _ _ _ _ Sh) as ((_ & _ & _ & B4 & _) & A1 & _). destruct Sh as ((Sa & (_ & Sb))%blocks_app & _). rewrite !first_free_app, Z.add_0_l in *.
  destruct (existsb _ a) eqn:E; cbn [first_free].
  - pose proof (first_free_in _ _ _ _ Sa E). destruct (Z.ltb_spec (bsum a) (first_free 0 a)); [lia|done].
  - pose proof (first_free_range _ _ _ _ Sb). destruct (Z.ltb_spec (bsum a) (first_free (bsum a + sz) b)); [done|lia].
Qed.

Lemma mem_free_ok ram h a sz b : heap_ok h (a ++ (sz, true) :: b) → ram mod 4 = 0 → 0 ≤ ram →
  ∃ h', mem_free ram (ram + bsum a + 12) h = Ret tt h' ∧ heap_ok h' (release_block a sz b).
Proof.
  intros [[Sh Hl] Hc] Hr Hp. destruct (shape_block _ _ _ _ _ Sh) as ((B1 & B2 & B3 & B4 & B5) & A1 & A2 & A3 & A4 & A5).
  unfold mem_free. destruct (Z.eqb_spec (ram + bsum a + 12) 0); [lia|]. assert ((ram + bsum a + 12) mod 4 = 0) as H4.
  { rewrite Z.add_mod, (Z.add_mod ram), Hr, A2 by done. done. }
  rewrite (bind_eq (massert _) _ h tt h) by (by rewrite land3). consts. chk. replace (ram + bsum a + 12 - 12 - ram) with (bsum a) by lia. stp. rewrite B3.
  rewrite (bind_eq (massert _) _ h tt h) by done. stp. stp. apply coalesced_app in Hc as [Ha Hb].
  set (h1 := if _ <? _ then _ else _). assert (laid_out h1 (a ++ (sz, false) :: b)) as L1.
  { unfold h1. cbn [lfree set_nodes]. pose proof (first_free_unused _ _ _ _ Sh) as Hff. rewrite <- Hl in Hff. destruct (bsum a <? lfree h); (split; [by apply unused_shape|]); done. }
  destruct (plug_holes_ok _ _ _ _ L1) as (h' & E' & L'). exists h'. split; [exact E'|]. split; [done|]. by apply free_coalesced.
Qed.

(** ** [mem_realloc] *)

(** The blocks after the one of [sz] bytes is shrunk to [size] bytes of data: the rest joins
    the free block behind it, or becomes a block when it is big enough. *)
Definition shrink_block (sz size : Z) (b : list block) : list block :=
  if size =? sz - 12 then (sz, true) :: b
  else match b with
       | (s2, false) :: b' => (12 + size, true) :: (sz + s2 - 12 - size, false) :: b'
       | _ => if size + 24 <=? sz - 12 then (12 + size, true) :: (sz - 12 - size, false) :: b else (sz, true) :: b
       end.

(** The block at [bsum a] ends [size] bytes of data on, a free block up to [e] follows. *)
Definition cut_nodes (n : Z → mem) (o size e : Z) : Z → mem :=
  let n1 := upd n (o + 12 + size) (MkMem e o 0) in
  let n2 := upd n1 o (set_next (o + 12 + size) (n1 o)) in
  if e =? MEM_SIZE_ALIGNED then n2 else upd n2 e (set_prev (o + 12 + size) (n2 e)).

Lemma cut_shape n a sz rest b size : shape n (a ++ ((sz, true) :: rest) ++ b) →
  let S := sz + bsum rest in 12 ≤ size → size mod 4 = 0 → size + 36 ≤ S →
  shape (cut_nodes n (bsum a) size (bsum a + S)) (a ++ [(12 + size, true); (S - 12 - size, false)] ++ b).
Proof.
  intros Sh S H12 Hs4 Hsz. pose proof Sh as ((Sa & (So & Sb)%blocks_app)%blocks_app & Hm & _). rewrite !bsum_app in Hm. change (bsum ((sz, true) :: rest)) with S in Hm, Sb.
  assert (S mod 4 = 0) as HS4 by exact (seg_mod _ _ _ _ So). destruct So as [(B1 & B2 & B3 & B4 & B5) _]. rewrite Z.add_0_l in B1, B2, B3.
  pose proof (seg_nonneg _ _ _ _ Sa). pose proof (seg_nonneg _ _ _ _ Sb). assert (b ≠ [] → bsum a + S < MEM_SIZE_ALIGNED) as Hb.
  { destruct b as [|[s u] b]; [done|]. intros _. destruct Sb as [(_ & _ & _ & ? & _) Sb]. pose proof (seg_nonneg _ _ _ _ Sb). cbn in Hm. lia. }
  unfold cut_nodes. set (n1 := upd n _ _). set (n2 := upd n1 _ _).
  assert (∀ x, x ≠ bsum a → x ≠ bsum a + 12 + size → n2 x = n x) as Hn2 by (intros x Hx1 Hx2; unfold n2, n1; by rewrite !upd_ne).
  assert (n2 (bsum a + 12 + size) = MkMem (bsum a + S) (bsum a) 0) as E2 by (unfold n2, n1; rewrite upd_ne, upd_eq by lia; done).
  assert (n2 (bsum a) = MkMem (bsum a + 12 + size) (last_off 0 0 a) 1) as E1.
  { unfold n2, n1. rewrite upd_eq, upd_ne by lia. unfold set_next. by rewrite B2, B3. }
  clearbody n2. clear n1. eapply (shape_mid n _ a ((sz, true) :: rest)); [exact Sh|cbn; unfold S; lia|..]; change (bsum ((sz, true) :: rest)) with S.
  - intros x Hx. destruct (_ =? _); [|rewrite upd_ne by lia]; apply Hn2; lia.
  - cbn [seg]. unfold blk. replace (bsum a + (12 + size)) with (bsum a + 12 + size) by lia.
    destruct (_ =? _); rewrite ?(upd_ne _ (bsum a + S)), ?E1, ?E2 by lia; cbn [next prev used Z.b2z]; split_and!; try done; try lia; dlia.
  - intros x Hx. destruct (_ =? _); [|rewrite upd_ne by lia]; apply Hn2; lia.
  - intros Hne%Hb. destruct (Z.eqb_spec (bsum a + S) MEM_SIZE_ALIGNED); [lia|]. rewrite upd_eq, Hn2 by lia. cbn [last_off]. f_equal. lia.
  - intros ->. cbn in Hm. destruct (Z.eqb_spec (bsum a + S) MEM_SIZE_ALIGNED); [|lia]. f_equal. apply Hn2; lia.
Qed.

(** The writes of both branches. *)
Lemma cut_run h o size e (r : Z) : 12 ≤ size → o < e →
  (do* upd_node (o + 12 + size) (λ _, MkMem e o 0) in
   do* upd_node o (set_next (o + 12 + size)) in
   do* (if negb (e =? MEM_SIZE_ALIGNED) then upd_node e (set_prev (o + 12 + size)) else ret tt) in
   ret (Some r)) h = Ret (Some r) (set_nodes (cut_nodes (nodes h) o size e) h).
Proof. intros H1 H2. stp. stp. unfold cut_nodes. by destruct (e =? MEM_SIZE_ALIGNED). Qed.

Lemma first_free_grown n a sz s2 b x size : seg n 0 0 a → 24 ≤ sz → first_free 0 (a ++ (12 + size, true) :: (x, false) :: b) =
  if first_free 0 (a ++ (sz, true) :: (s2, false) :: b) =? bsum a + sz then bsum a + 12 + size else first_free 0 (a ++ (sz, true) :: (s2, false) :: b).
Proof.
  intros Sa Hsz. rewrite !first_free_app, Z.add_0_l. destruct (existsb _ a) eqn:E; cbn [first_free].
  - pose proof (first_free_in _ _ _ _ Sa E). destruct (Z.eqb_spec (first_free 0 a) (bsum a + sz)); [lia|done].
  - rewrite Z.eqb_refl. lia.
Qed.

Lemma first_free_made n a sz b x size : shape n (a ++ (sz, true) :: b) → 0 ≤ size < sz - 12 → first_free 0 (a ++ (12 + size, true) :: (x, false) :: b) =
  if bsum a + 12 + size <? first_free 0 (a ++ (sz, true) :: b) then bsum a + 12 + size else first_free 0 (a ++ (sz, true) :: b).
Proof.
  intros ((Sa & (_ & Sb))%blocks_app & _) Hsz. rewrite !first_free_app, Z.add_0_l in *. destruct (existsb _ a) eqn:E; cbn [first_free].
  - pose proof (first_free_in _ _ _ _ Sa E). destruct (Z.ltb_spec (bsum a + 12 + size) (first_free 0 a)); [lia|done].
  - pose proof (first_free_range _ _ _ _ Sb). destruct (Z.ltb_spec (bsum a + 12 + size) (first_free (bsum a + sz) b)); lia.
Qed.

Lemma realloc_grow h a sz s2 b size (r : Z) : heap_ok h (a ++ (sz, true) :: (s2, false) :: b) → 12 ≤ size < sz - 12 → size mod 4 = 0 → ∃ h',
  (do* modify (λ h, if lfree h =? bsum a + sz then set_lfree (bsum a + 12 + size) h else h) in
   do* upd_node (bsum a + 12 + size) (λ _, MkMem (bsum a + sz + s2) (bsum a) 0) in
   do* upd_node (bsum a) (set_next (bsum a + 12 + size)) in
   do* (if negb (bsum a + sz + s2 =? MEM_SIZE_ALIGNED) then upd_node (bsum a + sz + s2) (set_prev (bsum a + 12 + size)) else ret tt) in
   ret (Some r)) h = Ret (Some r) h' ∧ heap_ok h' (a ++ (12 + size, true) :: (sz + s2 - 12 - size, false) :: b).
Proof.
  intros [[Sh Hl] Hc] Hs Hs4. pose proof Sh as ((Sa & ((_ & _ & _ & B4 & _) & (_ & _ & _ & B5 & _) & _))%blocks_app & _).
  pose proof (cut_shape (nodes h) a sz [(s2, false)] b size Sh) as Cs. cbn [bsum app] in Cs. rewrite Z.add_0_r, Z.add_assoc in Cs. specialize (Cs ltac:(lia) Hs4 ltac:(lia)).
  stp. rewrite cut_run by lia. eexists. split; [reflexivity|]. apply coalesced_app in Hc as [Ha Hb]. split; [|apply coalesced_app; split; [done|by apply (coalesced_size [] s2)]].
  pose proof (first_free_grown _ a sz s2 b (sz + s2 - 12 - size) size Sa B4) as Hff. rewrite <- Hl in Hff.
  destruct (lfree h =? bsum a + sz); by split.
Qed.

Lemma realloc_make h a sz b size (r : Z) : heap_ok h (a ++ (sz, true) :: b) → 12 ≤ size → size + 24 ≤ sz - 12 → size mod 4 = 0 → (∀ s b', b ≠ (s, false) :: b') → ∃ h',
  (do* modify (λ h, if bsum a + 12 + size <? lfree h then set_lfree (bsum a + 12 + size) h else h) in
   do* upd_node (bsum a + 12 + size) (λ _, MkMem (bsum a + sz) (bsum a) 0) in
   do* upd_node (bsum a) (set_next (bsum a + 12 + size)) in
   do* (if negb (bsum a + sz =? MEM_SIZE_ALIGNED) then upd_node (bsum a + sz) (set_prev (bsum a + 12 + size)) else ret tt) in
   ret (Some r)) h = Ret (Some r) h' ∧ heap_ok h' (a ++ (12 + size, true) :: (sz - 12 - size, false) :: b).
Proof.
  intros [[Sh Hl] Hc] Hs Hs2 Hs4 Hnb.
  pose proof (cut_shape (nodes h) a sz [] b size Sh) as Cs. cbn [bsum app] in Cs. rewrite Z.add_0_r in Cs. specialize (Cs ltac:(lia) Hs4 ltac:(lia)).
  stp. rewrite cut_run by lia. eexists. split; [reflexivity|]. apply coalesced_app in Hc as [Ha Hb]. split; [|apply coalesced_app; split; [done|by apply coalesced_head]].
  pose proof (first_free_made _ a sz b (sz - 12 - size) size Sh ltac:(lia)) as Hff. rewrite <- Hl in Hff.
  destruct (bsum a + 12 + size <? lfree h); by split.
Qed.

Lemma mem_realloc_ok ram h a sz b newsize : heap_ok h (a ++ (sz, true) :: b) → 0 ≤ newsize < 2 ^ 32 - 3 → block_size newsize ≤ sz - 12 →
  ∃ h', mem_realloc ram (ram + bsum a + 12) newsize h = Ret (Some (ram + bsum a + 12)) h' ∧
    heap_ok h' (a ++ shrink_block sz (block_size newsize) b).
Proof.
  intros Hok Hn Hle. pose proof Hok as [[Sh Hl] Hc]. destruct (block_size_ok newsize Hn) as (K1 & _ & K3). set (size := block_size newsize) in *.
  destruct (shape_block _ _ _ _ _ Sh) as ((B1 & B2 & B3 & B4 & B5) & A1 & A2 & A3 & A4 & A5). pose proof Sh as ((_ & (_ & Sb))%blocks_app & _ & He). rewrite Z.add_0_l in Sb.
  unfold mem_realloc, shrink_block. fold size. clearbody size. consts. destruct (Z.ltb_spec 2228224 size); [lia|]. chk. replace (ram + bsum a + 12 - 12 - ram) with (bsum a) by lia. stp. rewrite B1.
  rewrite (u32_small (bsum a + sz - bsum a - 12)) by (unfold is_u32; lia). chk. replace (bsum a + sz - bsum a - 12) with (sz - 12) by lia.
  destruct (Z.eqb_spec size (sz - 12)) as [->|Hne]; [by exists h|]. stp. rewrite !u32_small by (unfold is_u32; lia).
  assert ((∀ s b', b ≠ (s, false) :: b') → used (nodes h (bsum a + sz)) = 1) as Hu.
  { intros Hnb. destruct b as [|[s2 [|]] b]; [|by destruct Sb as [(_ & _ & Hu & _) _]|by destruct (Hnb s2 b)].
    cbn in A4. by replace (bsum a + sz) with 2228224 by lia. }
  replace (size + 12 + 12) with (size + 24) by lia. assert ((∃ s2 b', b = (s2, false) :: b') ∨ (∀ s b', b ≠ (s, false) :: b')) as [(s2 & b' & ->)|Hnb].
  { destruct b as [|[s2 [|]] b]; [by right|by right|left]. by exists s2, b. }
  - destruct Sb as [(N1 & _ & N3 & _) _]. rewrite N1, N3. apply (realloc_grow h a sz s2 b' size _ Hok); [lia|done].
  - rewrite (Hu Hnb).
    replace (match b with | (s2, false) :: b' => _ | _ => _ end) with (if size + 24 <=? sz - 12 then (12 + size, true) :: (sz - 12 - size, false) :: b else (sz, true) :: b)
      by (destruct b as [|[s [|]] b]; [done|done|by destruct (Hnb s b)]).
    destruct (Z.leb_spec (size + 24) (sz - 12)); [by apply realloc_make|by exists h].
Qed.

(** ** Blocks in use *)

(** A block of [sz] bytes in use at the offset [x], among the blocks from [o] on. *)
Fixpoint used_in (o : Z) (bl : list block) (x sz : Z) : Prop :=
  match bl with [] => False | (s, u) :: bl' => (x = o ∧ sz = s ∧ u = true) ∨ used_in (o + s) bl' x sz end.

Lemma used_in_app a b x sz : ∀ o, used_in o (a ++ b) x sz ↔ used_in o a x sz ∨ used_in (o + bsum a) b x sz.
Proof.
  induction a as [|[s u] a IH]; intros o; cbn [app used_in bsum]; [rewrite Z.add_0_r; tauto|]. rewrite IH, Z.add_assoc. tauto.
Qed.

Lemma used_in_split bl x sz : ∀ o, used_in o bl x sz → ∃ a b, bl = a ++ (sz, true) :: b ∧ x = o + bsum a.
Proof.
  induction bl as [|[s u] bl IH]; intros o; cbn [used_in]; [done|]. intros [(-> & -> & ->)|H]; [exists [], bl; split; [done|cbn; lia]|].
  destruct (IH _ H) as (a & b & -> & ->). exists ((s, u) :: a), b. split; [done|cbn; lia].
Qed.

Lemma used_in_range n bl x sz : ∀ p o, seg n p o bl → used_in o bl x sz → o ≤ x ∧ x + sz ≤ o + bsum bl ∧ 24 ≤ sz.
Proof.
  induction bl as [|[s u] bl IH]; intros p o; cbn [seg used_in bsum]; [done|]. intros [(_ & _ & _ & ? & _) Hs]. pose proof (seg_nonneg _ _ _ _ Hs).
  intros [(-> & -> & _)|H']; [lia|]. specialize (IH _ _ Hs H'). lia.
Qed.

Lemma used_in_apart n bl x sx y sy : ∀ p o, seg n p o bl → used_in o bl x sx → used_in o bl y sy → x ≠ y → x + sx ≤ y ∨ y + sy ≤ x.
Proof.
  induction bl as [|[s u] bl IH]; intros p o; cbn [seg used_in]; [done|]. intros [_ Hs] [(-> & -> & _)|Hx] [(-> & -> & _)|Hy] Hne.
  - done.
  - pose proof (used_in_range _ _ _ _ _ _ Hs Hy). lia.
  - pose proof (used_in_range _ _ _ _ _ _ Hs Hx). lia.
  - by eapply IH.
Qed.

Lemma used_in_mid a old mid b x sz : bsum mid = bsum old → (∀ o, used_in o old x sz → used_in o mid x sz) →
  used_in 0 (a ++ old ++ b) x sz → used_in 0 (a ++ mid ++ b) x sz.
Proof. intros Hs Hm. rewrite !used_in_app, Hs. intros [H|[H|H]]; [by left|right; left; by apply Hm|by right; right]. Qed.

Lemma used_in_free a sz b x s : used_in 0 (a ++ (sz, true) :: b) x s → x ≠ bsum a → used_in 0 (release_block a sz b) x s.
Proof.
  intros H Hx. assert (used_in 0 (a ++ ((fwd sz b).1, false) :: (fwd sz b).2) x s) as Hf.
  { apply used_in_app in H. apply used_in_app. destruct H as [H|[(-> & _)|H]]; [by left|lia|]. right. right.
    unfold fwd. destruct b as [|[s2 [|]] b]; cbn [fst snd]; [done|done|]. destruct H as [(_ & _ & ?)|H]; [done|]. by rewrite Z.add_assoc. }
  unfold release_block. destruct (fwd sz b) as [sz' b']. cbn [fst snd] in Hf. destruct a as [|[s0 u] a _] using rev_ind; [done|]. rewrite last_snoc, removelast_snoc.
  destruct u; [done|]. rewrite <- app_assoc in Hf. cbn [app] in Hf. apply used_in_app in Hf. apply used_in_app. destruct Hf as [Hf|[(_ & _ & ?)|[(_ & _ & ?)|Hf]]]; [by left|done|done|].
  right. right. by rewrite Z.add_assoc.
Qed.

Lemma used_in_shrink a sz size b x s : used_in 0 (a ++ (sz, true) :: b) x s → x ≠ bsum a → used_in 0 (a ++ shrink_block sz size b) x s.
Proof.
  rewrite !used_in_app, Z.add_0_l. intros [H|[(-> & _)|H]] Hx; [by left|lia|]. right. unfold shrink_block. destruct (_ =? _); [by right|].
  destruct b as [|[s2 [|]] b]; [done| |].
  - destruct (_ <=? _); [|by right]. right. right. replace (bsum a + (12 + size) + (sz - 12 - size)) with (bsum a + sz) by lia. done.
  - destruct H as [(_ & _ & ?)|H]; [done|]. right. right. replace (bsum a + (12 + size) + (sz + s2 - 12 - size)) with (bsum a + sz + s2) by lia. done.
Qed.

Lemma shrink_head a sz size b : size ≤ sz - 12 → ∃ s, used_in 0 (a ++ shrink_block sz size b) (bsum a) s ∧ size ≤ s - 12.
Proof.
  intros Hle. unfold shrink_block. destruct (Z.eqb_spec size (sz - 12)); [exists sz; split; [apply used_in_app; right; by left|lia]|].
  destruct b as [|[s2 [|]] b]; try destruct (_ <=? _); first [exists sz; split; [apply used_in_app; right; by left|lia]|exists (12 + size); split; [apply used_in_app; right; by left|lia]].
Qed.

(** The other way: no other block is in use. *)
Lemma used_in_free_inv n a sz b x s : seg n 0 0 (a ++ (sz, true) :: b) → used_in 0 (release_block a sz b) x s →
  used_in 0 (a ++ (sz, true) :: b) x s ∧ x ≠ bsum a.
Proof.
  intros [Sa [(_ & _ & _ & H4 & _) Sb]]%blocks_app H. rewrite Z.add_0_l in *.
  assert (used_in 0 a x s ∨ used_in (bsum a + sz) b x s) as Hx.
  { assert (∀ o, used_in (o + (fwd sz b).1) (fwd sz b).2 x s → used_in (o + sz) b x s) as Hf.
    { intros o. unfold fwd. destruct b as [|[s2 [|]] b]; cbn [fst snd]; [done|done|]. rewrite Z.add_assoc. by right. }
    unfold release_block in H. destruct (fwd sz b) as [sz' b']. cbn [fst snd] in Hf. destruct a as [|[s0 u] a _] using rev_ind.
    - destruct H as [(_ & _ & ?)|H]; [done|]. right. by apply (Hf 0).
    - rewrite last_snoc, removelast_snoc in H. destruct u.
      + apply used_in_app in H as [H|[(_ & _ & ?)|H]]; [by left|done|]. right. apply Hf. exact H.
      + apply used_in_app in H as [H|[(_ & _ & ?)|H]]; [left; apply used_in_app; by left|done|]. right. rewrite bsum_app. cbn [bsum]. rewrite Z.add_0_r. apply Hf.
        rewrite Z.add_assoc in H. exact H. }
  destruct Hx as [Hx|Hx].
  - pose proof (used_in_range _ _ _ _ _ _ Sa Hx). split; [apply used_in_app; by left|lia].
  - pose proof (used_in_range _ _ _ _ _ _ Sb Hx). split; [apply used_in_app; right; by right|lia].
Qed.

Lemma used_in_take_inv a sz size b x s : used_in 0 (a ++ taken_block sz size ++ b) x s → x = bsum a ∨ used_in 0 (a ++ (sz, false) :: b) x s.
Proof.
  rewrite !used_in_app, bsum_split, Z.add_0_l. intros [H|[H|H]]; [right; by left| |right; right; by right].
  unfold taken_block in H. left. destruct (_ <=? _); cbn in H; naive_solver.
Qed.

Lemma used_in_shrink_inv a sz size b x s : used_in 0 (a ++ shrink_block sz size b) x s → x = bsum a ∨ used_in 0 (a ++ (sz, true) :: b) x s.
Proof.
  rewrite !used_in_app, Z.add_0_l. intros [H|H]; [right; by left|]. unfold shrink_block in H. destruct (size =? sz - 12); [destruct H as [(-> & _)|H]; [by left|right; right; by right]|].
  destruct b as [|[s2 [|]] b]; try destruct (size + 24 <=? sz - 12); cbn [used_in] in H |- *;
    rewrite <- ?(Z.add_assoc (bsum a)) in *; try replace (12 + size + (sz - 12 - size)) with sz in H by lia;
    try replace (12 + size + (sz + s2 - 12 - size)) with (sz + s2) in H by lia; naive_solver.
Qed.

(** ** A client of the heap *)

(** Calls from [mem_init] on; [l] holds the live allocations and the sizes asked for. *)
Inductive run (ram : Z) (f : Z → mem) : heap → gmap Z Z → Prop :=
  | run_init : run ram f (mem_init f) ∅
  | run_malloc h l size p h' : run ram f h l → 0 < size < 2 ^ 32 - 3 → mem_malloc ram size h = Ret (Some p) h' → run ram f h' (<[p := size]> l)
  | run_full h l size h' : run ram f h l → 0 < size < 2 ^ 32 - 3 → mem_malloc ram size h = Ret None h' → run ram f h' l
  | run_free h l p n h' : run ram f h l → l !! p = Some n → mem_free ram p h = Ret tt h' → run ram f h' (delete p l)
  | run_realloc h l p n m r h' : run ram f h l → l !! p = Some n → 0 ≤ m ≤ n → mem_realloc ram p m h = Ret r h' → run ram f h' (<[p := m]> l).

(** The blocks in use are the live allocations, and hold the bytes asked for. *)
Record tracked (ram : Z) (l : gmap Z Z) (bl : list block) : Prop := {
  tr_block p n : l !! p = Some n → 0 ≤ n < 2 ^ 32 - 3 ∧ ∃ sz, used_in 0 bl (p - 12 - ram) sz ∧ block_size n ≤ sz - 12;
  tr_live x sz : used_in 0 bl x sz → is_Some (l !! (ram + x + 12)) }.

Lemma mem_init_heap f : heap_ok (mem_init f) [(MEM_SIZE_ALIGNED, false)].
Proof. split; [|done]. split; [|done]. split; [|done]. split; [|done]. unfold blk. cbn. done. Qed.

Lemma block_size_mono m n : 0 ≤ m ≤ n → n < 2 ^ 32 - 3 → block_size m ≤ block_size n.
Proof.
  intros Hm Hn. unfold block_size, MIN_SIZE_ALIGNED, MIN_SIZE, LWIP_MEM_ALIGN_SIZE, MEM_ALIGNMENT. change (Z.land (u32 (12 + 4 - 1)) (Z.lnot (4 - 1))) with 12.
  replace (m + 4 - 1) with (m + 3) by lia. replace (n + 4 - 1) with (n + 3) by lia. rewrite !u32_small by (unfold is_u32; lia).
  change (4 - 1) with (Z.ones 2). rewrite <- !Z.ldiff_land, !Z.ldiff_ones_r, !Z.shiftl_mul_pow2, !Z.shiftr_div_pow2 by lia. change (2 ^ 2) with 4.
  zcases; dlia.
Qed.

Lemma take_tracked ram l a sz size b n : tracked ram l (a ++ (sz, false) :: b) → 0 ≤ n < 2 ^ 32 - 3 → size = block_size n → size ≤ sz - 12 →
  tracked ram (<[ram + bsum a + 12 := n]> l) (a ++ taken_block sz size ++ b).
Proof.
  intros [T1 T2] Hn Hs Hle. split.
  - intros p m [(<- & <-)|(Hne & Hp)]%lookup_insert_Some.
    + split; [done|]. replace (ram + bsum a + 12 - 12 - ram) with (bsum a) by lia. unfold taken_block. destruct (Z.leb_spec (size + 24) (sz - 12)).
      * exists (12 + size). split; [apply used_in_app; right; left; split; [lia|done]|lia].
      * exists sz. split; [apply used_in_app; right; left; split; [lia|done]|lia].
    + destruct (T1 p m Hp) as (Hm & s & Hu & Hms). split; [done|]. exists s. split; [|done].
      apply (used_in_mid a [(sz, false)]); [rewrite bsum_split; cbn; lia| |exact Hu]. intros o. cbn. naive_solver.
  - intros x s [->|H]%used_in_take_inv; [exists n; apply lookup_insert_eq|]. destruct (T2 x s H) as [m Hm].
    destruct (decide (ram + x + 12 = ram + bsum a + 12)) as [->|]; [exists n; apply lookup_insert_eq|]. exists m. by rewrite lookup_insert_ne.
Qed.

Lemma free_tracked n ram l a sz b p : tracked ram l (a ++ (sz, true) :: b) → seg n 0 0 (a ++ (sz, true) :: b) → p = ram + bsum a + 12 →
  tracked ram (delete p l) (release_block a sz b).
Proof.
  intros [T1 T2] Sg ->. split.
  - intros q m [Hne Hq]%lookup_delete_Some. destruct (T1 q m Hq) as (Hm & s & Hu & Hms). split; [done|]. exists s. split; [|done]. apply used_in_free; [done|lia].
  - intros x s H. destruct (used_in_free_inv _ _ _ _ _ _ Sg H) as [Hu Hx]. destruct (T2 x s Hu) as [m Hm]. exists m. apply lookup_delete_Some. split; [lia|done].
Qed.

Lemma shrink_tracked ram l a sz size b m p : tracked ram l (a ++ (sz, true) :: b) → p = ram + bsum a + 12 → 0 ≤ m < 2 ^ 32 - 3 → size = block_size m → size ≤ sz - 12 →
  tracked ram (<[p := m]> l) (a ++ shrink_block sz size b).
Proof.
  intros [T1 T2] -> Hm Hs Hle. split.
  - intros q k [(<- & <-)|(Hne & Hq)]%lookup_insert_Some.
    + split; [done|]. replace (ram + bsum a + 12 - 12 - ram) with (bsum a) by lia. destruct (shrink_head a sz size b Hle) as (s & Hu & Hsz). exists s. by subst size.
    + destruct (T1 q k Hq) as (Hk & s & Hu & Hks). split; [done|]. exists s. split; [|done]. apply used_in_shrink; [done|lia].
  - intros x s [->|H]%used_in_shrink_inv; [exists m; apply lookup_insert_eq|]. destruct (T2 x s H) as [k Hk].
    destruct (decide (ram + x + 12 = ram + bsum a + 12)) as [->|]; [exists m; apply lookup_insert_eq|]. exists k. by rewrite lookup_insert_ne.
Qed.

Section clients.
Context (ram : Z) (f : Z → mem) (Hr : ram mod 4 = 0) (Hp : 0 ≤ ram).

Lemma run_ok h l : run ram f h l → ∃ bl, heap_ok h bl ∧ tracked ram l bl.
Proof.
  induction 1 as [|h l size p h' _ (bl & Hok & Ht) Hs E|h l size h' _ (bl & Hok & Ht) Hs E|h l p n h' _ (bl & Hok & Ht) Hl E|h l p n m r h' _ (bl & Hok & Ht) Hl Hm E].
  - exists [(MEM_SIZE_ALIGNED, false)]. split; [apply mem_init_heap|]. split; [done|]. intros x sz. cbn. naive_solver.
  - pose proof (mem_malloc_ok ram h bl size Hok Hr Hs) as Hma. destruct (first_fit bl _) as [[[a sz] b]|] eqn:Ef; [|congruence].
    apply first_fit_some in Ef as [-> Hsz]. destruct Hma as (h2 & E2 & Hok2). rewrite E in E2. injection E2 as -> ->. eexists. split; [exact Hok2|].
    apply take_tracked; (done || lia).
  - pose proof (mem_malloc_ok ram h bl size Hok Hr Hs) as Hma. destruct (first_fit bl _) as [[[a sz] b]|] eqn:Ef; [|rewrite E in Hma; injection Hma as ->; by exists bl].
    destruct Hma as (h2 & E2 & _). congruence.
  - destruct (tr_block _ _ _ Ht p n Hl) as (Hn & sz & Hu & Hsz). apply used_in_split in Hu as (a & b & -> & Hx). rewrite Z.add_0_l in Hx.
    destruct (mem_free_ok ram h a sz b Hok Hr Hp) as (h2 & E2 & Hok2). replace (ram + bsum a + 12) with p in E2 by lia. rewrite E in E2. injection E2 as ->.
    eexists. split; [exact Hok2|]. eapply free_tracked; [done|apply Hok|lia].
  - destruct (tr_block _ _ _ Ht p n Hl) as (Hn & sz & Hu & Hsz). apply used_in_split in Hu as (a & b & -> & Hx). rewrite Z.add_0_l in Hx.
    pose proof (block_size_mono m n Hm ltac:(lia)). destruct (mem_realloc_ok ram h a sz b m Hok) as (h2 & E2 & Hok2); [lia|lia|].
    replace (ram + bsum a + 12) with p in E2 by lia. rewrite E in E2. injection E2 as -> ->. eexists. split; [exact Hok2|]. apply shrink_tracked; (done || lia).
Qed.

Lemma used_in_mod n bl x sz : ∀ p o, seg n p o bl → used_in o bl x sz → o mod 4 = 0 → x mod 4 = 0.
Proof.
  induction bl as [|[s u] bl IH]; intros p o; cbn [seg used_in]; [done|]. intros [(_ & _ & _ & _ & H4) Hs] [(-> & _)|Hu] Ho; [done|].
  eapply IH; [done|done|]. by rewrite Z.add_mod, Ho, H4.
Qed.

Lemma all_free bl o n p : seg n p o bl → coalesced bl → (∀ x sz, ¬ used_in o bl x sz) → 0 < bsum bl → bl = [(bsum bl, false)].
Proof.
  destruct bl as [|[s u] bl]; [done|]. intros _ Hc Hu _. destruct u; [destruct (Hu o s); by left|]. destruct bl as [|[s' u'] bl]; [cbn; by rewrite Z.add_0_r|].
  destruct u'; [destruct (Hu (o + s) s'); right; by left|done].
Qed.

(** C35. The heap stays well formed: after any calls of [mem_malloc], [mem_free] and
    [mem_realloc] that a client may make, the array is cut without gaps into blocks of at
    least 24 bytes and of aligned sizes, linked in both directions, no two free blocks in
    a row, [lfree] at the lowest free one; the blocks in use are the live allocations. *)
Theorem heap_well_formed h l : run ram f h l → ∃ bl, heap_ok h bl ∧ tracked ram l bl.
Proof. apply run_ok. Qed.

(** C34. What the client gets: live allocations are aligned, hold the bytes asked for, lie in
    the heap and do not overlap; no call it may make next panics, and [mem_realloc] to no
    more than was asked for leaves the data where they are; when nothing is live the heap
    is one free block again. *)
Theorem heap_safe h l : run ram f h l →
  (∀ p n, l !! p = Some n → p mod 4 = 0 ∧ ram + 12 ≤ p ∧ p + n ≤ ram + MEM_SIZE_ALIGNED) ∧
  (∀ p q n m, l !! p = Some n → l !! q = Some m → p ≠ q → p + n ≤ q ∨ q + m ≤ p) ∧
  (∀ size, 0 < size < 2 ^ 32 - 3 → ∃ r h', mem_malloc ram size h = Ret r h') ∧
  (∀ p n, l !! p = Some n → (∃ h', mem_free ram p h = Ret tt h') ∧ ∀ m, 0 ≤ m ≤ n → ∃ h', mem_realloc ram p m h = Ret (Some p) h') ∧
  (l = ∅ → heap_ok h [(MEM_SIZE_ALIGNED, false)]).
Proof.
  intros Hrun. destruct (run_ok h l Hrun) as (bl & Hok & [T1 T2]). pose proof Hok as [[(S1 & S2 & _) _] Hc]. split_and!.
  - intros p n Hl. destruct (T1 p n Hl) as (Hn & sz & Hu & Hsz). pose proof (used_in_range _ _ _ _ _ _ S1 Hu). pose proof (used_in_mod _ _ _ _ _ _ S1 Hu eq_refl) as H4.
    destruct (block_size_ok n Hn) as (_ & ? & _). split_and!; try lia. replace p with (p - 12 - ram + (12 + ram)) by lia. rewrite Z.add_mod, H4, (Z.add_mod 12 ram), Hr by done. done.
  - intros p q n m Hlp Hlq Hne. destruct (T1 p n Hlp) as (Hn & sz & Hu & Hsz). destruct (T1 q m Hlq) as (Hm & sz' & Hu' & Hsz').
    destruct (block_size_ok n Hn) as (_ & ? & _). destruct (block_size_ok m Hm) as (_ & ? & _). destruct (used_in_apart _ _ _ _ _ _ _ _ S1 Hu Hu'); lia.
  - intros size Hs. pose proof (mem_malloc_ok ram h bl size Hok Hr Hs) as Hma. destruct (first_fit bl _) as [[[a sz] b]|]; [destruct Hma as (h' & E & _)|]; by eauto.
  - intros p n Hl. destruct (T1 p n Hl) as (Hn & sz & Hu & Hsz). apply used_in_split in Hu as (a & b & -> & Hx). rewrite Z.add_0_l in Hx.
    assert (p = ram + bsum a + 12) as -> by lia. split.
    + destruct (mem_free_ok ram h a sz b Hok Hr Hp) as (h2 & E2 & _). by exists h2.
    + intros m Hm. pose proof (block_size_mono m n Hm ltac:(lia)). destruct (mem_realloc_ok ram h a sz b m Hok) as (h2 & E2 & _); [lia|lia|]. by exists h2.
  - intros ->. assert (bl = [(MEM_SIZE_ALIGNED, false)]) as <-; [|done]. rewrite <- S2. eapply (all_free bl 0); [done|done| |by rewrite S2].
    intros x sz Hu. destruct (T2 x sz Hu) as [? ?]. done.
Qed.
End clients.

(** C36. On the list of blocks [mem_malloc] takes the first free block that is big enough, and
    cuts off the rest when that can be a block; [mem_free] joins the block with the free
    blocks around it; [mem_realloc] gives the end of the block to the free block behind
    it or makes it a block of its own. *)
Theorem heap_refines ram h bl : heap_ok h bl → ram mod 4 = 0 → 0 ≤ ram →
  (∀ size, 0 < size < 2 ^ 32 - 3 →
     match first_fit bl (block_size size) with
     | None => mem_malloc ram size h = Ret None h
     | Some (a, sz, b) => ∃ h', mem_malloc ram size h = Ret (Some (ram + bsum a + 12)) h' ∧ heap_ok h' (a ++ taken_block sz (block_size size) ++ b)
     end) ∧
  (∀ a sz b, bl = a ++ (sz, true) :: b →
     (∃ h', mem_free ram (ram + bsum a + 12) h = Ret tt h' ∧ heap_ok h' (release_block a sz b)) ∧
     ∀ size, 0 ≤ size < 2 ^ 32 - 3 → block_size size ≤ sz - 12 → ∃ h',
       mem_realloc ram (ram + bsum a + 12) size h = Ret (Some (ram + bsum a + 12)) h' ∧ heap_ok h' (a ++ shrink_block sz (block_size size) b)).
Proof.
  intros Hok Hr Hp. split; [intros size Hs; by apply mem_malloc_ok|]. intros a sz b ->. split; [by apply mem_free_ok|].
  intros size Hs Hle. by apply mem_realloc_ok.
Qed.

(** A request near the end of the address space wraps around to the smallest block. *)
Lemma mem_malloc_wraps : block_size 0xffffffff = 12.
Proof. reflexivity. Qed.

(** ** Witnesses *)

Definition zeroed (_ : Z) : mem := MkMem 0 0 0.

(** Two allocations. *)
Lemma demo_run : ∃ h, run 0x1000 zeroed h (<[4220 := 40]> (<[4108 := 100]> ∅)).
Proof.
  assert (∃ h1, mem_malloc 0x1000 100 (mem_init zeroed) = Ret (Some 4108) h1 ∧ heap_ok h1 (taken_block MEM_SIZE_ALIGNED 100)) as (h1 & E1 & K1).
  { apply (mem_malloc_ok 0x1000 (mem_init zeroed) [(MEM_SIZE_ALIGNED, false)] 100); [apply mem_init_heap|done|lia]. }
  destruct (mem_malloc_ok 0x1000 h1 _ 40 K1 eq_refl ltac:(lia)) as (h2 & E2 & _).
  exists h2. eapply run_malloc; [|lia|exact E2]. eapply run_malloc; [apply run_init|lia|exact E1].
Qed.

Lemma heap_well_formed_witness : ∃ h bl, heap_ok h bl ∧ tracked 0x1000 (<[4220 := 40]> (<[4108 := 100]> ∅)) bl.
Proof.
  destruct demo_run as [h Hrun]. exists h. apply (heap_well_formed 0x1000 zeroed); [reflexivity|lia|exact Hrun].
Defined.

Lemma heap_safe_witness : ∃ h, run 0x1000 zeroed h (<[4220 := 40]> (<[4108 := 100]> ∅)) ∧ ∃ h', mem_free 0x1000 4220 h = Ret tt h'.
Proof.
  destruct demo_run as [h Hrun]. exists h. split; [exact Hrun|].
  destruct (heap_safe 0x1000 zeroed eq_refl ltac:(lia) h _ Hrun) as (_ & _ & _ & Hf & _). apply (Hf 4220 40). reflexivity.
Defined.

Lemma heap_refines_witness : ∃ h', mem_malloc 0x1000 100 (mem_init zeroed) = Ret (Some 4108) h' ∧ heap_ok h' [(112, true); (2228112, false)].
Proof.
  destruct (heap_refines 0x1000 (mem_init zeroed) [(MEM_SIZE_ALIGNED, false)] (mem_init_heap zeroed) eq_refl ltac:(lia)) as [Hm _].
  apply (Hm 100). lia.
Defined.
