(* ===== verification/PbufHeap.v ===== *)
(** * Packet buffers over the heap of [mem.c]

    The operations of [net/lwip/core/mem.c] in place of the parameters of the packet
    buffers, and what the buffers rely on of them. *)

From stdpp Require Import base gmap list strings.
From Stdlib Require Import ZArith Lia.
From S2P Require Import Prelude Pbuf PbufProps LwipMem LwipMemProps.

(** The buffers of a packet that are in the heap are live allocations that hold their data. *)
Definition backed (l : gmap Z Z) (pk : list (Z * pbuf)) : Prop := ∀ a q, (a, q) ∈ pk → ptype q = PBUF_RAM →
  ∃ n, l !! a = Some n ∧ 0 ≤ payload q - a ∧ payload q - a + len q ≤ n.

(** The live allocations once the buffer [q] at [a] is cut to [r] bytes and the rest
    [post] has lost a reference. *)
Definition live_cut (l : gmap Z Z) (a : Z) (q : pbuf) (r : Z) (post : list (Z * pbuf)) : gmap Z Z :=
  foldl (λ l x, delete x l) (if bool_decide (ptype q = PBUF_RAM) && negb (r =? len q) then <[a := payload q - a + r]> l else l)
    (keys is_ram (freed post)).

Lemma keys_freed P (l : list (Z * pbuf)) : keys P (freed l) `sublist_of` l.*1.
Proof.
  induction l as [|[a q] l IH]; [done|]. cbn. destruct (ref q =? 1); [|apply sublist_nil_l]. unfold keys in *. cbn.
  destruct (P (ptype q)); by constructor.
Qed.

Lemma keys_ram (l : list (Z * pbuf)) x : x ∈ keys is_ram (freed l) → ∃ q, (x, q) ∈ l ∧ ptype q = PBUF_RAM.
Proof.
  induction l as [|[a q] l IH]; [by intros ?%elem_of_nil|]. cbn [freed]. destruct (ref q =? 1); [|by intros ?%elem_of_nil].
  rewrite keys_cons, elem_of_app. intros [Hx|Hx].
  - unfold keys in Hx. cbn in Hx. destruct (ptype q) eqn:Et; cbn in Hx; try (by apply elem_of_nil in Hx). apply list_elem_of_singleton in Hx as ->. exists q. split; [by left|done].
  - destruct (IH Hx) as (q' & Hq & Ht). exists q'. split; [by right|done].
Qed.

Section over_heap.
Context (ram : Z) (f : Z → mem) (Hr : ram mod 4 = 0) (Hp : 0 ≤ ram).

(** Live blocks can be given back one after the other. *)
Lemma frees_run ks : ∀ h l, run ram f h l → NoDup ks → (∀ x, x ∈ ks → is_Some (l !! x)) →
  ∃ h', run_frees (mem_free ram) ks h = Ret tt h' ∧ run ram f h' (foldl (λ l x, delete x l) l ks).
Proof.
  induction ks as [|x ks IH]; intros h l Hrun Hnd Hin; [by exists h|]. apply NoDup_cons in Hnd as [Hx Hnd]. destruct (Hin x) as [n Hn]; [by left|].
  destruct (run_ok ram f Hr Hp h l Hrun) as (bl & Hok & [T1 _]). destruct (T1 x n Hn) as (_ & sz & Hu & _).
  apply used_in_split in Hu as (u & v & -> & Hu). rewrite Z.add_0_l in Hu. destruct (mem_free_ok ram h u sz v Hok Hr Hp) as (h1 & E1 & _).
  replace (ram + bsum u + 12) with x in E1 by lia. destruct (IH h1 (delete x l)) as (h' & E & Hrun'); [by eapply run_free|done| |].
  - intros y Hy. rewrite lookup_delete_ne by (intros ->; done). apply Hin. by right.
  - exists h'. split; [|done]. cbn [run_frees]. by rewrite (bind_eq _ _ _ _ _ E1).
Qed.

(** The heap shrinks a block in place. *)
Lemma shrink_run a q r n h l : run ram f h l → (ptype q = PBUF_RAM → l !! a = Some n ∧ 0 ≤ payload q - a ∧ payload q - a + len q ≤ n) → 0 ≤ r ≤ len q →
  ∃ h1, shrink_to (mem_realloc ram) a q r h = Ret (Some a) h1 ∧
    run ram f h1 (if bool_decide (ptype q = PBUF_RAM) && negb (r =? len q) then <[a := payload q - a + r]> l else l).
Proof.
  intros Hrun Hb Hl. unfold shrink_to. case_bool_decide as Ht; cbn [andb]; [|by exists h]. destruct (Z.eqb_spec r (len q)) as [|Hne]; cbn [negb]; [by exists h|].
  destruct (Hb Ht) as (Ha & H0 & Hn). destruct (run_ok ram f Hr Hp h l Hrun) as (bl & Hok & [T1 _]). destruct (T1 a n Ha) as (Hn32 & sz & Hu & Hsz).
  apply used_in_split in Hu as (x & y & -> & Hx). rewrite Z.add_0_l in Hx. rewrite u32_small by (unfold is_u32; lia).
  pose proof (block_size_mono (payload q - a + r) n ltac:(lia) ltac:(lia)).
  destruct (mem_realloc_ok ram h x sz y (payload q - a + r) Hok) as (h' & E & _); [lia|lia|].
  replace (ram + bsum x + 12) with a in E by lia. exists h'. split; [done|]. eapply run_realloc; [done|done| |exact E]. lia.
Qed.

(** What [pbuf_realloc] does to the heap, and that the heap does it. *)
Lemma heap_cut_run b p pk pre a q post r h l : linked b p pk → run ram f h l → backed l pk → pk = pre ++ (a, q) :: post → 0 ≤ r ≤ len q →
  ∃ h', heap_cut (mem_free ram) (mem_realloc ram) a q r post h h' ∧ run ram f h' (live_cut l a q r post).
Proof.
  intros Hl Hrun Hb -> Hle. apply linked_nodup in Hl. rewrite fmap_app in Hl. cbn in Hl. apply NoDup_app in Hl as (_ & _ & [Ha Hnd]%NoDup_cons).
  assert ((a, q) ∈ pre ++ (a, q) :: post) as Hin by (apply elem_of_app; right; by left).
  assert (∃ n, ptype q = PBUF_RAM → l !! a = Some n ∧ 0 ≤ payload q - a ∧ payload q - a + len q ≤ n) as [n Hn].
  { destruct (decide (ptype q = PBUF_RAM)) as [Ht|]; [|by exists 0]. destruct (Hb a q Hin Ht) as [n Hn]. by exists n. }
  destruct (shrink_run a q r n h l Hrun Hn Hle) as (h1 & E1 & Hrun1).
  destruct (frees_run (keys is_ram (freed post)) h1 _ Hrun1) as (h' & E & Hrun').
  - eapply sublist_NoDup; [exact Hnd|apply keys_freed].
  - intros x (q' & Hq & Ht)%keys_ram. assert (x ≠ a) by (intros ->; apply Ha, list_elem_of_fmap; by exists (a, q')).
    destruct (Hb x q') as (m & Hm & _); [apply elem_of_app; right; by right|done|]. exists m. destruct (_ && _); [by rewrite lookup_insert_ne|done].
  - exists h'. split; [by exists h1|exact Hrun'].
Qed.
End over_heap.

(** C37. [pbuf_realloc], with the heap of [mem.c] behind it, cuts a packet to its first [n]
    bytes, for [n] less than its length.  The buffer [q] at [a] in which the cut falls
    becomes the last one, those before it stay, all with the same references.  The rest
    [post] loses the reference of the packet: its buffers up to the first one with another
    reference are gone, each back where it came from; that one has a reference less; no
    other buffer changes.  In the heap the block of [a] is shrunk to the bytes kept, those
    of the freed [PBUF_RAM] buffers are no longer live, and all others are. *)
Theorem pbuf_realloc_heap ram f (s : pst heap) l p pk n : ram mod 4 = 0 → 0 ≤ ram → run ram f (Pbuf.ram s) l → backed l pk →
  packet (bufs s) (Some p) pk → Forall counted pk → 0 ≤ n < total pk →
  ∃ s' pre a q post, let pk' := lowered pre (n - total pk) ++ [(a, cut (n - total pre) q)] in
    pk = pre ++ (a, q) :: post ∧ pbuf_realloc (mem_free ram) (mem_realloc ram) p n s = Ret tt s' ∧ packet (bufs s') (Some p) pk' ∧ total pk' = n ∧
    data (bytes s') pk' = take (Z.to_nat n) (data (bytes s) pk) ∧
    shrunk (mem_free ram) (mem_realloc ram) pre a q (n - total pre) post s s' ∧
    run ram f (Pbuf.ram s') (live_cut l a q (n - total pre) post).
Proof.
  intros Hr Hp Hrun Hb Hk Hc Hn. pose proof Hk as (Hl & _).
  destruct (pbuf_realloc_data (mem_free ram) (mem_realloc ram) s p pk n Hk Hc Hn) as (s' & pre & a & q & post & El & Hle & E & Hk' & Ht & Hd & Hs).
  - intros pre a q post r El Hle. destruct (heap_cut_run ram f Hr Hp _ _ _ _ _ _ _ _ _ _ Hl Hrun Hb El Hle) as (h' & Hh & _). by exists h'.
  - exists s', pre, a, q, post. cbn zeta. split_and!; try done; try lia.
    destruct (heap_cut_run ram f Hr Hp _ _ _ _ _ _ _ _ _ _ Hl Hrun Hb El Hle) as (h' & (h1 & E1 & E2) & Hrun').
    destruct (sh_ram _ _ _ _ _ _ _ _ _ Hs) as (h1' & E1' & E2'). assert (h1' = h1) as -> by congruence. by assert (Pbuf.ram s' = h') as -> by congruence.
Qed.

(** A packet of two buffers in the heap; the second one is freed by a cut in the first. *)
Definition ram_buf : pbuf := MkPbuf (Some 4220) 4124 60 40 PBUF_RAM 0 1.
Definition ram_buf2 : pbuf := MkPbuf None 4236 20 20 PBUF_RAM 0 1.
Definition ram_state (h : heap) : pst heap := MkPst (<[4108 := ram_buf]> {[4220 := ram_buf2]}) (λ a, a mod 251) [] [] h.

Lemma pbuf_realloc_heap_witness : ∃ h s pk, pbuf_realloc (mem_free 0x1000) (mem_realloc 0x1000) 4108 10 (ram_state h) = Ret tt s ∧
  packet (bufs s) (Some 4108) pk ∧ total pk = 10.
Proof.
  destruct demo_run as [h Hrun]. exists h.
  destruct (pbuf_realloc_heap 0x1000 zeroed (ram_state h) _ 4108 [(4108, ram_buf); (4220, ram_buf2)] 10 eq_refl ltac:(lia) Hrun) as (s & pre & a & q & post & _ & E & Hp & Ht & _).
  - intros a q [[= -> ->]|[= -> ->]%list_elem_of_singleton]%elem_of_cons _; [exists 100|exists 40]; (split; [reflexivity|]; cbn; lia).
  - split; [cbn; split_and!; reflexivity|]. cbn. lia.
  - repeat constructor; cbn; lia.
  - cbn. lia.
  - eexists s, _. split; [exact E|]. split; [exact Hp|exact Ht].
Defined.
