(* ===== verification/Thread.v ===== *)
(** * Threads of a program: [lib/thread.c] and its queue ([include/threadq.h])

    Threads are not preempted: a thread runs until it calls [thread_yield], which saves
    where it is ([setjmp]) and continues where the first thread of the queue is
    ([longjmp]).  [K] stands for such a place; the queues are the lists of their contexts. *)

From stdpp Require Import base list strings.
From Stdlib Require Import ZArith Lia.
From S2P Require Import Prelude Mmu.

Definition THREAD_NUM_ONHALT : Z := 4.
Definition stack_size : Z := 4096.

Section thread.
Context {K : Type}.

Record thread_context := MkTc {
  tc_tid : Z; tc_stack_bottom : Z; tc_jb : K; tc_wait_addr : option Z; tc_wakeup : Z; tc_onhalt : list Z }.

(** [called] and [released] record the calls of the halt functions, with their argument,
    and the stacks given back. *)
Record threads := MkThreads {
  max_tid : Z; cur_tc : option thread_context; thread_queue : list thread_context; kill_queue : list thread_context;
  called : list (Z * Z); released : list Z }.

Definition set_jb (x : K) (c : thread_context) : thread_context :=
  MkTc (tc_tid c) (tc_stack_bottom c) x (tc_wait_addr c) (tc_wakeup c) (tc_onhalt c).
Definition set_wait (x : option Z) (c : thread_context) : thread_context :=
  MkTc (tc_tid c) (tc_stack_bottom c) (tc_jb c) x 0 (tc_onhalt c).
Definition set_wakeup (c : thread_context) : thread_context :=
  MkTc (tc_tid c) (tc_stack_bottom c) (tc_jb c) (tc_wait_addr c) 1 (tc_onhalt c).
Definition add_onhalt (f : Z) (c : thread_context) : thread_context :=
  MkTc (tc_tid c) (tc_stack_bottom c) (tc_jb c) (tc_wait_addr c) (tc_wakeup c) (tc_onhalt c ++ [f]).

Definition set_cur (x : option thread_context) (s : threads) : threads := MkThreads (max_tid s) x (thread_queue s) (kill_queue s) (called s) (released s).
Definition set_queue (x : list thread_context) (s : threads) : threads := MkThreads (max_tid s) (cur_tc s) x (kill_queue s) (called s) (released s).
Definition set_kill (x : list thread_context) (s : threads) : threads := MkThreads (max_tid s) (cur_tc s) (thread_queue s) x (called s) (released s).
Definition set_max_tid (x : Z) (s : threads) : threads := MkThreads x (cur_tc s) (thread_queue s) (kill_queue s) (called s) (released s).
Definition set_ended (x : list (Z * Z)) (y : list Z) (s : threads) : threads := MkThreads (max_tid s) (cur_tc s) (thread_queue s) (kill_queue s) x y.

(** ** The queue *)
Definition threadq_push (q : list thread_context) (c : thread_context) : list thread_context := q ++ [c].
Definition threadq_pop (q : list thread_context) : option thread_context * list thread_context :=
  match q with [] => (None, []) | c :: q' => (Some c, q') end.

(** ** Threads *)
Definition self : M threads thread_context := λ s, deref (cur_tc s) s.

Definition thread_id : M threads Z := let* c := self in ret (tc_tid c).

Definition thread_init (s : threads) : threads := set_max_tid 0 (set_queue [] s).

(** [thread_wait] up to its loop, and after it. *)
Definition wait_begin (addr : option Z) : M threads unit := let* c := self in modify (set_cur (Some (set_wait addr c))).
Definition wait_end : M threads unit := let* c := self in modify (set_cur (Some (set_wait None c))).

(** The conditions to leave the loop: the time [p] is past [msec] or before the start [s],
    the word no longer has the value, or a wakeup came. *)
Definition wait_over (changed : bool) (msec s p : Z) : M threads bool :=
  let* c := self in
  ret (negb (p <? msec) || (p <? s) || changed || ctrue (tc_wakeup c)).

Definition thread_wakeup (addr : option Z) : M threads unit :=
  modify (λ s, set_queue ((λ c, if bool_decide (tc_wait_addr c = addr) then set_wakeup c else c) <$> thread_queue s) s).

Definition thread_wakeups_pending : M threads Z :=
  gets (λ s, Z.of_nat (length (filter (λ c, ctrue (tc_wakeup c) = true) (thread_queue s)))).

Definition thread_onhalt (func : Z) : M threads Z :=
  let* c := self in
  if THREAD_NUM_ONHALT <=? Z.of_nat (length (tc_onhalt c)) then ret (- E_NO_MEM) else
  do* modify (set_cur (Some (add_onhalt func c))) in
  ret 0.

Definition alloc_tid : M threads Z :=
  let* tid := gets max_tid in
  do* modify (set_max_tid (u32 (tid + 1))) in
  if u32 (tid + 1) =? 2 ^ 32 - 1 then panic "no more thread ids" else ret tid.

Definition thread_clean (tc : option thread_context) : M threads unit :=
  match tc with
  | None => ret tt
  | Some c => modify (λ s, set_ended (called s ++ ((λ f, (f, tc_tid c)) <$> tc_onhalt c)) (released s ++ [tc_stack_bottom c]) s)
  end.

(** Where the program goes on; [None]: the call returns at once, no thread is waiting. *)
Definition thread_yield (here : K) : M threads (option K) :=
  let* q := gets thread_queue in
  let '(next_tc, q') := threadq_pop q in
  do* modify (set_queue q') in
  match next_tc with
  | None => ret None
  | Some next =>
      do* modify (λ s, match cur_tc s with None => s | Some c => set_queue (threadq_push (thread_queue s) (set_jb here c)) s end) in
      do* modify (set_cur (Some next)) in
      ret (Some (tc_jb next))
  end.

(** [None]: no thread is left and the program exits. *)
Definition thread_halt (here : K) : M threads (option K) :=
  let* k := gets kill_queue in
  let '(old, k') := threadq_pop k in
  do* modify (set_kill k') in
  do* thread_clean old in
  let* c := self in
  do* modify (λ s, set_kill (threadq_push (kill_queue s) c) s) in
  do* modify (set_cur None) in
  thread_yield here.

(** [entry]: the start of the thread; [tc] and [stack]: the results of the calls of [malloc]. *)
Definition thread_create (entry : K) (tc stack : option Z) : M threads (Z + Z) :=
  match tc with
  | None => ret (inl (- E_NO_MEM))
  | Some _ =>
      let* tid := alloc_tid in
      match stack with
      | None => ret (inl (- E_NO_MEM))
      | Some bottom =>
          do* modify (λ s, set_queue (threadq_push (thread_queue s) (MkTc tid bottom entry None 0 [])) s) in
          ret (inr tid)
      end
  end.

(** ** Any sequence of operations *)

Inductive op : Type :=
  | Yield (here : K) | Halt (here : K) | Create (entry : K) (tc stack : option Z) | Wakeup (addr : option Z)
  | Wait_begin (addr : option Z) | Wait_end | Onhalt (func : Z).

Definition run_op (o : op) : M threads unit :=
  match o with
  | Yield j => do* thread_yield j in ret tt
  | Halt j => let* k := thread_halt j in match k with None => switch | Some _ => ret tt end
  | Create e a b => do* thread_create e a b in ret tt
  | Wakeup a => thread_wakeup a
  | Wait_begin a => wait_begin a
  | Wait_end => wait_end
  | Onhalt f => do* thread_onhalt f in ret tt
  end.

Fixpoint run_ops (l : list op) : M threads unit := match l with [] => ret tt | o :: l' => do* run_op o in run_ops l' end.

(** The operations that let another thread run. *)
Definition is_switch (o : op) : bool := match o with Yield _ | Halt _ => true | _ => false end.
Definition switches (l : list op) : nat := length (filter (λ o, is_switch o = true) l).

(** A context may change only in what others set: the wakeup. *)
Definition same_thread (c c' : thread_context) : Prop := tc_tid c' = tc_tid c ∧ tc_jb c' = tc_jb c.

Lemma same_thread_refl c : same_thread c c.
Proof. done. Qed.

Lemma clean_eq k s : ∃ x y, thread_clean k s = Ret tt (set_ended x y s).
Proof. destruct k; [by do 2 eexists|]. exists (called s), (released s). by destruct s. Qed.

Lemma yield_eq j s c q : thread_queue s = c :: q → ∃ s', thread_yield j s = Ret (Some (tc_jb c)) s' ∧ cur_tc s' = Some c ∧ q `prefix_of` thread_queue s'.
Proof.
  intros E. unfold thread_yield. rewrite (bind_eq (gets _) _ _ _ _ eq_refl), E. cbn. destruct (cur_tc s) as [c0|] eqn:Ec; (eexists; split; [reflexivity|]; split; [done|]); cbn; [by eexists|done].
Qed.

Lemma halt_eq j s c0 c q : cur_tc s = Some c0 → thread_queue s = c :: q →
  ∃ s', thread_halt j s = Ret (Some (tc_jb c)) s' ∧ cur_tc s' = Some c ∧ q `prefix_of` thread_queue s'.
Proof.
  intros Ec Eq. unfold thread_halt. rewrite (bind_eq (gets _) _ _ _ _ eq_refl). destruct (threadq_pop (kill_queue s)) as [old k'].
  rewrite (bind_eq (modify _) _ _ _ _ eq_refl). destruct (clean_eq old (set_kill k' s)) as (x & y & E). rewrite (bind_eq _ _ _ _ _ E).
  unfold self. set (s1 := set_ended x y (set_kill k' s)). assert (cur_tc s1 = Some c0) as E1 by done.
  rewrite (bind_eq _ _ s1 c0 s1) by (by rewrite E1). do 2 rewrite (bind_eq (modify _) _ _ _ _ eq_refl). by apply yield_eq.
Qed.

Lemma step_queue o s s' i c : run_op o s = Ret tt s' → thread_queue s !! i = Some c →
  (is_switch o = true → i ≠ 0%nat) →
  ∃ c', thread_queue s' !! (i - (if is_switch o then 1 else 0))%nat = Some c' ∧ same_thread c c'.
Proof.
  intros E Hc Hi. destruct o as [j|j|e a b|a|a| |f]; cbn [is_switch run_op] in *; rewrite ?Nat.sub_0_r.
  - destruct i as [|i]; [by destruct (Hi eq_refl)|]. destruct (thread_queue s) as [|c0 q] eqn:Eq; [done|]. destruct (yield_eq j s c0 q Eq) as (s1 & E1 & _ & [k Hk]).
    rewrite (bind_eq _ _ _ _ _ E1) in E. injection E as <-. exists c. split; [|done]. rewrite Hk. cbn. rewrite Nat.sub_0_r. apply lookup_app_l_Some. exact Hc.
  - destruct i as [|i]; [by destruct (Hi eq_refl)|]. destruct (thread_queue s) as [|c0 q] eqn:Eq; [done|]. destruct (cur_tc s) as [c1|] eqn:Ec.
    + destruct (halt_eq j s c1 c0 q Ec Eq) as (s1 & E1 & _ & [k Hk]). rewrite (bind_eq _ _ _ _ _ E1) in E. injection E as <-. exists c. split; [|done].
      rewrite Hk. cbn. rewrite Nat.sub_0_r. apply lookup_app_l_Some. exact Hc.
    + exfalso. revert E. unfold thread_halt, bind, gets, modify, self. cbn. destruct (threadq_pop (kill_queue s)) as [[?|] k']; cbn; by rewrite Ec.
  - exists c. split; [|done]. destruct a as [a|]; cbn in E; [|by injection E as <-]. unfold bind, alloc_tid, gets, modify in E. cbn in E.
    destruct (u32 (max_tid s + 1) =? 2 ^ 32 - 1); [done|]. destruct b as [b|]; cbn in E; injection E as <-; cbn; [by apply lookup_app_l_Some|done].
  - injection E as <-. cbn. rewrite list_lookup_fmap, Hc. eexists. split; [reflexivity|]. by destruct (bool_decide _).
  - exists c. split; [|done]. unfold wait_begin, bind, self in E. destruct (cur_tc s); [|done]. by injection E as <-.
  - exists c. split; [|done]. unfold wait_end, bind, self in E. destruct (cur_tc s); [|done]. by injection E as <-.
  - exists c. split; [|done]. unfold thread_onhalt, bind, self in E. destruct (cur_tc s); [|done]. cbn in E. destruct (_ <=? _); by injection E as <-.
Qed.

Lemma run_queue l : ∀ s s' i c, run_ops l s = Ret tt s' → thread_queue s !! i = Some c → (switches l ≤ i)%nat →
  ∃ c', thread_queue s' !! (i - switches l)%nat = Some c' ∧ same_thread c c'.
Proof.
  induction l as [|o l IH]; intros s s' i c E Hc Hi.
  - injection E as <-. exists c. cbn. by rewrite Nat.sub_0_r.
  - cbn [run_ops] in E. unfold bind in E. destruct (run_op o s) as [[] s1| | |] eqn:E1; try done. unfold switches in *. rewrite filter_cons in *.
    destruct (step_queue o s s1 i c E1 Hc) as (c1 & H1 & T1). { intros Ho. rewrite decide_True in Hi by done. cbn in Hi. lia. }
    destruct (is_switch o) eqn:Eo.
    + rewrite decide_True in * by done. cbn [length] in *. destruct (IH s1 s' (i - 1)%nat c1 E H1) as (c' & H' & T'); [lia|]. exists c'.
      split; [rewrite <- H'; f_equal; lia|]. unfold same_thread in *. destruct T1, T'. split; congruence.
    + rewrite decide_False in * by done. rewrite Nat.sub_0_r in H1. destruct (IH s1 s' i c1 E H1 Hi) as (c' & H' & T'). exists c'. split; [done|].
      unfold same_thread in *. destruct T1, T'. split; congruence.
Qed.

(** C11. Threads take turns: a thread with [i] others before it in the queue is resumed by the
    switch after the next [i] ones, exactly where it yielded, whatever the threads that
    run until then do: yield, halt, create others, wait and wake up. *)
Theorem thread_fair l j s s' i c : run_ops l s = Ret tt s' → thread_queue s !! i = Some c → switches l = i →
  ∃ s'' c', thread_yield j s' = Ret (Some (tc_jb c)) s'' ∧ cur_tc s'' = Some c' ∧ tc_tid c' = tc_tid c.
Proof.
  intros E Hc Hi. destruct (run_queue l s s' i c E Hc ltac:(lia)) as (c' & H' & T' & J'). rewrite Hi, Nat.sub_diag in H'.
  destruct (thread_queue s') as [|c0 q] eqn:Eq; [done|]. injection H' as ->. destruct (yield_eq j s' c' q Eq) as (s'' & E'' & Ec & _).
  exists s'', c'. split_and!; try done. by rewrite E'', J'.
Qed.
End thread.

Arguments thread_context : clear implicits.
Arguments threads : clear implicits.

Definition demo_threads : threads Z :=
  MkThreads 3 (Some (MkTc 0 0x1000 10 None 0 [])) [MkTc 1 0x2000 11 None 0 []; MkTc 2 0x3000 12 (Some 7) 0 []] [] [] [].

Lemma thread_fair_witness : ∃ s s' c, run_ops [Wakeup (Some 7); Create 13 (Some 1) (Some 0x4000); Halt 20] demo_threads = Ret tt s ∧
  thread_yield 30 s = Ret (Some 12) s' ∧ cur_tc s' = Some c ∧ tc_tid c = 2.
Proof.
  destruct (run_ops [Wakeup (Some 7); Create 13 (Some 1) (Some 0x4000); Halt 20] demo_threads) as [[] s| | |] eqn:E; try (vm_compute in E; discriminate).
  destruct (thread_fair _ 30 demo_threads s 1 (MkTc 2 0x3000 12 (Some 7) 0 []) E eq_refl eq_refl) as (s' & c & H1 & H2 & H3).
  exists s, s', c. split; [reflexivity|]. split; [exact H1|]. split; [exact H2|exact H3].
Defined.
