(* ===== verification/Itc.v ===== *)
(** * Semaphores and mailboxes between threads: [lib/itc.c]

    The threads of the network server are those of [Thread.v]: they run one at a time and
    give up the processor only inside [thread_wait].  A thread that has to wait is
    [Blocked] there, with its local variables; the rest of its call is what it does when it
    is resumed.  The clock is read into the state between two switches. *)

From stdpp Require Import base list strings.
From Stdlib Require Import ZArith Lia.
From S2P Require Import Prelude Mmu Thread.

Definition NSEM : Z := 256.
Definition NMBOX : Z := 128.
Definition MBOXSLOTS : Z := 32.
Definition SYS_SEM_NULL : Z := -1.
Definition SYS_MBOX_NULL : Z := -1.
Definition SYS_ARCH_NOWAIT : Z := 0xfffffffe.
Definition SYS_ARCH_TIMEOUT : Z := 0xffffffff.
Definition ERR_OK : Z := 0.
Definition ERR_MEM : Z := -1.

Record sys_sem_entry := MkSem { s_freed : bool; gen : Z; counter : Z; waiters : Z }.
Record sys_mbox_entry := MkMbox { m_freed : bool; head : Z; nextq : Z; msg : Z → Z; queued_msg : Z; free_msg : Z }.

(** The word the two halves share. *)
Definition sem_v (e : sys_sem_entry) : Z := counter e + 2 ^ 16 * waiters e.

(** The local variables of [sys_arch_sem_wait] and of [thread_wait] inside it. *)
Record waiting := MkWaiting { w_sem : Z; w_tm : Z; w_waited : Z; w_gen : Z; w_a : Z; w_val : Z; w_until : Z; w_start : Z }.

(** Where a thread is: at no call, or in a call that waits. *)
Inductive cont : Type := Idle | In_post (mbox m : Z) (w : waiting) | In_fetch (mbox : Z) (w : waiting).

Record itc := MkItc {
  sems : Z → sys_sem_entry; sem_free : list Z; mboxes : Z → sys_mbox_entry; mbox_free : list Z;
  thr : threads cont; now : Z }.

Definition set_sems (x : Z → sys_sem_entry) (s : itc) : itc := MkItc x (sem_free s) (mboxes s) (mbox_free s) (thr s) (now s).
Definition set_sem_free (x : list Z) (s : itc) : itc := MkItc (sems s) x (mboxes s) (mbox_free s) (thr s) (now s).
Definition set_mboxes (x : Z → sys_mbox_entry) (s : itc) : itc := MkItc (sems s) (sem_free s) x (mbox_free s) (thr s) (now s).
Definition set_mbox_free (x : list Z) (s : itc) : itc := MkItc (sems s) (sem_free s) (mboxes s) x (thr s) (now s).
Definition set_thr (x : threads cont) (s : itc) : itc := MkItc (sems s) (sem_free s) (mboxes s) (mbox_free s) x (now s).
Definition set_now (x : Z) (s : itc) : itc := MkItc (sems s) (sem_free s) (mboxes s) (mbox_free s) (thr s) x.

Definition on_thr {A} (m : M (threads cont) A) : M itc A := zoom thr set_thr m.
(** An index outside the array is an access outside it. *)
Definition sem (i : Z) : M itc sys_sem_entry := λ s, if (0 <=? i) && (i <? NSEM) then Ret (sems s i) s else Fault.
Definition put_sem (i : Z) (e : sys_sem_entry) : M itc unit := modify (λ s, set_sems (upd (sems s) i e) s).
Definition mbox (i : Z) : M itc sys_mbox_entry := λ s, if (0 <=? i) && (i <? NMBOX) then Ret (mboxes s i) s else Fault.
Definition put_mbox (i : Z) (e : sys_mbox_entry) : M itc unit := modify (λ s, set_mboxes (upd (mboxes s) i e) s).

Definition set_counter (x : Z) (e : sys_sem_entry) : sys_sem_entry := MkSem (s_freed e) (gen e) x (waiters e).
Definition set_waiters (x : Z) (e : sys_sem_entry) : sys_sem_entry := MkSem (s_freed e) (gen e) (counter e) x.

(** ** Semaphores *)

(** The entries on their free lists; each is put at the head, so the last one is first. *)
Definition sys_init (s : itc) : itc :=
  let free_sem := λ e, MkSem true (gen e) (counter e) (waiters e) in
  let free_mbox := λ e, MkMbox true (head e) (nextq e) (msg e) (queued_msg e) (free_msg e) in
  MkItc (λ i, if (0 <=? i) && (i <? NSEM) then free_sem (sems s i) else sems s i) (reverse (seqZ 0 NSEM) ++ sem_free s)
    (λ i, if (0 <=? i) && (i <? NMBOX) then free_mbox (mboxes s i) else mboxes s i) (reverse (seqZ 0 NMBOX) ++ mbox_free s) (thr s) (now s).

Definition sys_sem_new (count : Z) : M itc Z :=
  let* l := gets sem_free in
  match l with
  | [] => ret SYS_SEM_NULL
  | i :: l' =>
      do* modify (set_sem_free l') in
      let* e := sem i in
      do* massert (s_freed e) in
      do* put_sem i (MkSem false (s32 (gen e + 1)) count (waiters e)) in
      ret i
  end.

Definition sys_sem_free (i : Z) : M itc unit :=
  let* e := sem i in
  do* massert (negb (s_freed e)) in
  do* put_sem i (MkSem true (s32 (gen e + 1)) (counter e) (waiters e)) in
  modify (λ s, set_sem_free (i :: sem_free s) s).

Definition sys_sem_signal (i : Z) : M itc unit :=
  let* e := sem i in
  do* massert (negb (s_freed e)) in
  do* put_sem i (set_counter (u16 (counter e + 1)) e) in
  if ctrue (waiters e) then
    do* put_sem i (set_waiters 0 (set_counter (u16 (counter e + 1)) e)) in
    on_thr (thread_wakeup (Some i))
  else ret tt.

Inductive wres : Type := Got (waited : Z) | Timed_out | Blocked (w : waiting).

(** The loop of [sys_arch_sem_wait], up to its end or to a switch in [thread_wait]. *)
Fixpoint sem_loop (fuel : nat) (i tm waited g : Z) : M itc wres :=
  match fuel with
  | O => λ _, Fault
  | S fuel' =>
      if (tm =? 0) || (waited <? tm) then
        let* e := sem i in
        if 0 <? counter e then
          do* put_sem i (set_counter (counter e - 1) e) in
          ret (Got waited)
        else if tm =? SYS_ARCH_NOWAIT then ret Timed_out
        else
          let* a := gets now in
          let sleep_until := if tm =? 0 then 2 ^ 32 - 1 else u32 (a + (tm - waited)) in
          let cur_v := sem_v e in
          do* put_sem i (set_waiters 1 e) in
          let* s := gets now in
          do* on_thr (wait_begin (Some i)) in
          let w := MkWaiting i tm waited g a cur_v sleep_until s in
          let* e := sem i in
          let* over := on_thr (wait_over (negb (sem_v e =? cur_v)) sleep_until s s) in
          if over : bool then sem_back fuel' w else ret (Blocked w)
      else ret Timed_out
  end
(** From the end of [thread_wait] on. *)
with sem_back (fuel : nat) (w : waiting) : M itc wres :=
  match fuel with
  | O => λ _, Fault
  | S fuel' =>
      do* on_thr wait_end in
      let* e := sem (w_sem w) in
      if negb (w_gen w =? gen e) then ret Timed_out else
      let* b := gets now in
      sem_loop fuel' (w_sem w) (w_tm w) (u32 (w_waited w + (b - w_a w))) (w_gen w)
  end.

(** The first round may find [v] changed by its own write of [waiters]. *)
Definition sem_fuel : nat := 8.

Definition sys_arch_sem_wait (i tm : Z) : M itc wres :=
  let* e := sem i in
  do* massert (negb (s_freed e)) in
  sem_loop sem_fuel i tm 0 (gen e).

(** Back from [thread_yield] inside [thread_wait]. *)
Definition sem_resume (w : waiting) : M itc wres :=
  let* p := gets now in
  let* e := sem (w_sem w) in
  let* over := on_thr (wait_over (negb (sem_v e =? w_val w)) (w_until w) (w_start w) p) in
  if over : bool then sem_back sem_fuel w else ret (Blocked w).

(** ** Mailboxes *)
Definition sys_mbox_free (i : Z) : M itc unit :=
  let* b := mbox i in
  do* massert (negb (m_freed b)) in
  do* sys_sem_free (queued_msg b) in
  do* sys_sem_free (free_msg b) in
  do* modify (λ s, set_mbox_free (i :: mbox_free s) s) in
  let* b := mbox i in
  put_mbox i (MkMbox true (head b) (nextq b) (msg b) (queued_msg b) (free_msg b)).

Definition sys_mbox_new (size : Z) : M itc Z :=
  do* massert (size <? MBOXSLOTS) in
  let* l := gets mbox_free in
  match l with
  | [] => ret SYS_MBOX_NULL
  | i :: l' =>
      do* modify (set_mbox_free l') in
      let* b := mbox i in
      do* massert (m_freed b) in
      let* q := sys_sem_new 0 in
      let* f := sys_sem_new MBOXSLOTS in
      do* put_mbox i (MkMbox false (-1) 0 (msg b) q f) in
      if (q =? SYS_SEM_NULL) || (f =? SYS_SEM_NULL) then
        do* sys_mbox_free i in ret SYS_MBOX_NULL
      else ret i
  end.

(** What a call comes to: a result, with the message for a fetch, or a wait. *)
Inductive outcome_of : Type := Done (r : Z) (m : option Z) | Waits (k : cont).

Definition post_finish (i m : Z) : M itc outcome_of :=
  let* b := mbox i in
  if nextq b =? head b then ret (Done ERR_MEM None) else
  let slot := nextq b in
  do* put_mbox i (MkMbox (m_freed b) (if head b =? -1 then slot else head b) ((slot + 1) mod MBOXSLOTS) (upd (msg b) slot m) (queued_msg b) (free_msg b)) in
  do* sys_sem_signal (queued_msg b) in
  ret (Done ERR_OK None).

(** The result of the wait is not looked at. *)
Definition post_after (i m : Z) (r : wres) : M itc outcome_of :=
  match r with Blocked w => ret (Waits (In_post i m w)) | _ => post_finish i m end.

Definition sys_mbox_trypost (i m : Z) : M itc outcome_of :=
  let* b := mbox i in
  do* massert (negb (m_freed b)) in
  let* r := sys_arch_sem_wait (free_msg b) 0 in
  post_after i m r.

(** The callers of the source give a place for the message; without one it is dropped. *)
Definition fetch_finish (i waited : Z) : M itc outcome_of :=
  let* b := mbox i in
  let slot := head b in
  if slot =? -1 then panic "no message" else
  let h := (slot + 1) mod MBOXSLOTS in
  do* put_mbox i (MkMbox (m_freed b) (if h =? nextq b then -1 else h) (nextq b) (msg b) (queued_msg b) (free_msg b)) in
  do* sys_sem_signal (free_msg b) in
  ret (Done waited (Some (msg b slot))).

Definition fetch_after (i : Z) (r : wres) : M itc outcome_of :=
  match r with
  | Blocked w => ret (Waits (In_fetch i w))
  | Timed_out => ret (Done SYS_ARCH_TIMEOUT None)
  | Got waited => if waited =? SYS_ARCH_TIMEOUT then ret (Done waited None) else fetch_finish i waited
  end.

Definition sys_arch_mbox_fetch (i tm : Z) : M itc outcome_of :=
  let* b := mbox i in
  do* massert (negb (m_freed b)) in
  let* r := sys_arch_sem_wait (queued_msg b) tm in
  fetch_after i r.

Definition sys_arch_mbox_tryfetch (i : Z) : M itc outcome_of := sys_arch_mbox_fetch i SYS_ARCH_NOWAIT.

(** [sys_mbox_post] asserts that the message was taken. *)
Definition post_checked (r : outcome_of) : M itc outcome_of :=
  match r with Done e _ => do* massert (e =? ERR_OK) in ret r | Waits _ => ret r end.
Definition sys_mbox_post (i m : Z) : M itc outcome_of := let* r := sys_mbox_trypost i m in post_checked r.

(** ** Threads that use a mailbox *)

Inductive choice : Type := Post (m : Z) | Fetch (tm : Z) | Pass.
Inductive event : Type := Posted (m : Z) | Fetched (m : Z).

Definition begin (b : Z) (c : choice) : M itc outcome_of :=
  match c with Post m => sys_mbox_post b m | Fetch tm => sys_arch_mbox_fetch b tm | Pass => ret (Waits Idle) end.

Definition resume (k : cont) : M itc outcome_of :=
  match k with
  | Idle => ret (Done 0 None)
  | In_post i m w => let* r := sem_resume w in let* o := post_after i m r in post_checked o
  | In_fetch i w => let* r := sem_resume w in fetch_after i r
  end.

(** What a call that is done shows. *)
Definition shown (pc : cont) (c : choice) (m : option Z) : list event :=
  match pc, c, m with
  | In_post _ x _, _, _ => [Posted x]
  | Idle, Post x, _ => [Posted x]
  | _, _, Some x => [Fetched x]
  | _, _, None => []
  end.

(** The current thread, at [pc], runs on: [dt] after the last switch it begins the call it
    chooses or goes on with the one it is in, until the call is done or has to wait; then
    the next thread is current. *)
Definition turn (b : Z) (x : Z * choice) (pc : cont) : M itc (cont * list event) :=
  let '(dt, c) := x in
  do* modify (λ s, set_now (now s + dt) s) in
  let* o := match pc with Idle => begin b c | _ => resume pc end in
  match o with
  | Done _ m => ret (Idle, shown pc c m)
  | Waits k => let* y := on_thr (thread_yield k) in ret (match y with None => k | Some k' => k' end, [])
  end.

Fixpoint turns (b : Z) (l : list (Z * choice)) (pc : cont) : M itc (cont * list event) :=
  match l with
  | [] => ret (pc, [])
  | x :: l' => let* r := turn b x pc in let* r' := turns b l' (fst r) in ret (fst r', snd r ++ snd r')
  end.

Definition posted (l : list event) : list Z := omap (λ e, match e with Posted m => Some m | _ => None end) l.
Definition fetched (l : list event) : list Z := omap (λ e, match e with Fetched m => Some m | _ => None end) l.

(** ** Semaphores *)

(** The current thread and what it does when it halts. *)
Definition who (s : itc) : option (Z * list Z) := (λ c, (tc_tid c, tc_onhalt c)) <$> cur_tc (thr s).

(** [s'] is [s] but for [d] taken from the counter of [i], and for who waits. *)
Record but (i d : Z) (s s' : itc) : Prop := {
  but_counter j : counter (sems s' j) = counter (sems s j) - (if j =? i then d else 0);
  but_gen j : gen (sems s' j) = gen (sems s j);
  but_freed j : s_freed (sems s' j) = s_freed (sems s j);
  but_mboxes : mboxes s' = mboxes s;
  but_now : now s' = now s;
  but_queue : tc_jb <$> thread_queue (thr s') = tc_jb <$> thread_queue (thr s);
  but_cur : is_Some (cur_tc (thr s)) → is_Some (cur_tc (thr s'));
  but_who : who s' = who s }.

Lemma but_refl i s : but i 0 s s.
Proof. split; try done. intros j. destruct (_ =? _); lia. Qed.

Lemma but_trans i d1 d2 s s1 s2 : but i d1 s s1 → but i d2 s1 s2 → but i (d1 + d2) s s2.
Proof.
  intros [A1 A2 A3 A4 A5 A6 A7 A8] [B1 B2 B3 B4 B5 B6 B7 B8]. split; try congruence; [|by auto]. intros j. rewrite B1, A1. destruct (_ =? _); lia.
Qed.

Lemma sem_eq i s : 0 ≤ i < NSEM → sem i s = Ret (sems s i) s.
Proof. intros H. unfold sem. rewrite (proj2 (Z.leb_le 0 i)), (proj2 (Z.ltb_lt i NSEM)) by lia. done. Qed.

Lemma mbox_eq i s : 0 ≤ i < NMBOX → mbox i s = Ret (mboxes s i) s.
Proof. intros H. unfold mbox. rewrite (proj2 (Z.leb_le 0 i)), (proj2 (Z.ltb_lt i NMBOX)) by lia. done. Qed.

Lemma on_thr_eq {A} (m : M (threads cont) A) s a t : m (thr s) = Ret a t → on_thr m s = Ret a (set_thr t s).
Proof. intros E. unfold on_thr, zoom. by rewrite E. Qed.

(** Waiting with a value: what a thread that is blocked has noted. *)
Record noted (i tm : Z) (s : itc) (w : waiting) : Prop := {
  n_sem : w_sem w = i; n_tm : w_tm w = tm; n_gen : w_gen w = gen (sems s i);
  n_val : w_val w mod 2 ^ 16 = 0; n_waited : 0 ≤ w_waited w ≤ w_a w; n_a : w_a w ≤ now s;
  n_until : tm = 0 ∨ w_until w = w_a w + (tm - w_waited w) }.

(** What a wait on the semaphore [i] comes to. *)
Definition waits (i tm waited : Z) (s s' : itc) (r : wres) : Prop :=
  match r with
  | Got n => 0 < counter (sems s i) ∧ (n = waited ∧ (tm = 0 ∨ waited < tm)) ∧ but i 1 s s'
  | Timed_out => tm ≠ 0 ∧ (tm = SYS_ARCH_NOWAIT ∨ tm ≤ waited) ∧ but i 0 s s'
  | Blocked w => counter (sems s i) = 0 ∧ tm ≠ SYS_ARCH_NOWAIT ∧ noted i tm s' w ∧ w_a w - w_waited w = now s - waited ∧ (tm = 0 ∨ waited < tm) ∧ but i 0 s s'
  end.

Section waits.
Context (i : Z) (Hi : 0 ≤ i < NSEM).

Lemma put_sem_but s e d : counter e = counter (sems s i) - d → gen e = gen (sems s i) → s_freed e = s_freed (sems s i) →
  but i d s (set_sems (upd (sems s) i e) s).
Proof.
  intros H1 H2 H3. split; try done; intros j; cbn; unfold upd; destruct (Z.eqb_spec j i) as [->|]; (done || lia).
Qed.

Lemma take_ok fuel s tm waited g : 0 < counter (sems s i) → tm = 0 ∨ waited < tm →
  ∃ s', sem_loop (S fuel) i tm waited g s = Ret (Got waited) s' ∧ but i 1 s s'.
Proof.
  intros Hc Ht. cbn [sem_loop]. assert ((tm =? 0) || (waited <? tm) = true) as -> by (apply orb_true_iff; rewrite Z.eqb_eq, Z.ltb_lt; done).
  rewrite (bind_eq _ _ _ _ _ (sem_eq i s Hi)), (proj2 (Z.ltb_lt _ _) Hc). eexists. split; [reflexivity|]. by apply put_sem_but.
Qed.

(** A round with the flag of waiters set ends in the wait. *)
Lemma block_ok fuel s tm waited : counter (sems s i) = 0 → waiters (sems s i) = 1 → is_Some (cur_tc (thr s)) →
  tm ≠ SYS_ARCH_NOWAIT → tm = 0 ∨ waited < tm → 0 ≤ tm < 2 ^ 31 → 0 ≤ waited ≤ now s → now s < 2 ^ 31 →
  ∃ w s', sem_loop (S fuel) i tm waited (gen (sems s i)) s = Ret (Blocked w) s' ∧ but i 0 s s' ∧ noted i tm s' w ∧ w_a w - w_waited w = now s - waited.
Proof.
  intros Hc Hw [c Ec] Hnw Ht Htm Hwd Hnow. cbn [sem_loop]. assert ((tm =? 0) || (waited <? tm) = true) as -> by (apply orb_true_iff; rewrite Z.eqb_eq, Z.ltb_lt; done).
  rewrite (bind_eq _ _ _ _ _ (sem_eq i s Hi)), Hc. cbn [Z.ltb Z.compare]. rewrite (proj2 (Z.eqb_neq _ _) Hnw).
  rewrite (bind_eq (gets _) _ _ _ _ eq_refl), (bind_eq (put_sem _ _) _ _ _ _ eq_refl), (bind_eq (gets _) _ _ _ _ eq_refl).
  set (s1 := set_sems _ s). set (t1 := set_cur (Some (set_wait (Some i) c)) (thr s)).
  assert (on_thr (wait_begin (Some i)) s1 = Ret tt (set_thr t1 s1)) as E1.
  { apply on_thr_eq. unfold wait_begin, bind, self. cbn. rewrite Ec. done. }
  rewrite (bind_eq _ _ _ _ _ E1), (bind_eq _ _ _ _ _ (sem_eq i _ Hi)). cbn [sems set_thr s1 set_sems]. rewrite upd_eq by done.
  assert (set_waiters 1 (sems s i) = sems s i) as -> by (destruct (sems s i); unfold set_waiters; cbn in *; by subst). rewrite Z.eqb_refl.
  set (until := if tm =? 0 then _ else _). assert (now s < until) as Hu.
  { unfold until. destruct (Z.eqb_spec tm 0); [lia|]. rewrite u32_small by (unfold is_u32; lia). lia. }
  assert (on_thr (wait_over (negb true) until (now s1) (now s1)) (set_thr t1 s1) = Ret false (set_thr t1 s1)) as E2.
  { change (now s1) with (now s). unfold on_thr, zoom, wait_over, bind, self. cbn. rewrite (proj2 (Z.ltb_lt _ _) Hu), Z.ltb_irrefl. done. }
  rewrite (bind_eq _ _ _ _ _ E2). eexists _, _. split; [reflexivity|]. split.
  - split; try done; try (intros j; unfold s1; cbn; unfold upd; destruct (Z.eqb_spec j i) as [->|]; cbn; (done || lia)); try (unfold who; cbn; by rewrite Ec).
  - split; [|done]. split; unfold s1; cbn; rewrite ?upd_eq by done; try done; try lia.
    + unfold sem_v. by rewrite Hc, Hw.
    + unfold until. destruct (Z.eqb_spec tm 0); [by left|]. right. rewrite u32_small by (unfold is_u32; lia). done.
Qed.

(** The first round sets the flag, finds the word changed and goes round again. *)
Lemma first_round n s tm waited : counter (sems s i) = 0 → waiters (sems s i) ≠ 1 → is_Some (cur_tc (thr s)) →
  tm ≠ SYS_ARCH_NOWAIT → tm = 0 ∨ waited < tm → 0 ≤ waited ≤ now s → now s < 2 ^ 31 →
  ∃ s1, sem_loop (S (S n)) i tm waited (gen (sems s i)) s = sem_loop n i tm waited (gen (sems s i)) s1 ∧
    but i 0 s s1 ∧ waiters (sems s1 i) = 1 ∧ is_Some (cur_tc (thr s1)).
Proof.
  intros Hc Hw [c Ec] Hnw Ht Hwd Hnow. cbn [sem_loop]. assert ((tm =? 0) || (waited <? tm) = true) as -> by (apply orb_true_iff; rewrite Z.eqb_eq, Z.ltb_lt; done).
  rewrite (bind_eq _ _ _ _ _ (sem_eq i s Hi)), Hc. cbn [Z.ltb Z.compare]. rewrite (proj2 (Z.eqb_neq _ _) Hnw).
  rewrite (bind_eq (gets _) _ _ _ _ eq_refl), (bind_eq (put_sem _ _) _ _ _ _ eq_refl), (bind_eq (gets _) _ _ _ _ eq_refl).
  set (s1 := set_sems _ s). set (t1 := set_cur (Some (set_wait (Some i) c)) (thr s)).
  assert (on_thr (wait_begin (Some i)) s1 = Ret tt (set_thr t1 s1)) as E1 by (apply on_thr_eq; unfold wait_begin, bind, self; cbn; by rewrite Ec).
  rewrite (bind_eq _ _ _ _ _ E1), (bind_eq _ _ _ _ _ (sem_eq i _ Hi)). assert (sems (set_thr t1 s1) i = set_waiters 1 (sems s i)) as Es by (unfold s1; cbn; by rewrite upd_eq).
  rewrite Es. assert ((sem_v (set_waiters 1 (sems s i)) =? sem_v (sems s i)) = false) as ->.
  { apply Z.eqb_neq. unfold sem_v. cbn. lia. }
  set (until := if tm =? 0 then _ else _).
  assert (on_thr (wait_over (negb false) until (now s1) (now s1)) (set_thr t1 s1) = Ret true (set_thr t1 s1)) as E2.
  { unfold on_thr, zoom, wait_over, bind, self. cbn. by rewrite orb_true_r. }
  rewrite (bind_eq _ _ _ _ _ E2). cbn [sem_back w_sem w_gen w_tm w_waited w_a].
  set (t2 := set_cur (Some (set_wait None (set_wait (Some i) c))) t1).
  assert (on_thr wait_end (set_thr t1 s1) = Ret tt (set_thr t2 (set_thr t1 s1))) as E3 by (by apply on_thr_eq).
  rewrite (bind_eq _ _ _ _ _ E3), (bind_eq _ _ _ _ _ (sem_eq i _ Hi)). change (sems (set_thr t2 (set_thr t1 s1)) i) with (sems (set_thr t1 s1) i). rewrite Es. cbn [gen set_waiters].
  rewrite Z.eqb_refl. cbn [negb]. rewrite (bind_eq (gets _) _ _ _ _ eq_refl). change (now (set_thr t2 (set_thr t1 s1))) with (now s).
  replace (u32 (waited + (now s - now s))) with waited by (rewrite u32_small; unfold is_u32; lia).
  exists (set_thr t2 (set_thr t1 s1)). split; [reflexivity|]. split; [|split; [|by eexists]].
  - split; try done; try (intros j; unfold s1; cbn; unfold upd; destruct (Z.eqb_spec j i) as [->|]; cbn; (done || lia)); try (unfold who; cbn; by rewrite Ec).
  - change (waiters (sems (set_thr t1 s1) i) = 1). by rewrite Es.
Qed.

Definition tm_ok (tm : Z) : Prop := 0 ≤ tm < 2 ^ 31 ∨ tm = SYS_ARCH_NOWAIT.

(** The whole wait, from the top of the loop. *)
Lemma sem_loop_ok fuel s tm waited : 0 ≤ counter (sems s i) → is_Some (cur_tc (thr s)) → tm_ok tm → 0 ≤ waited ≤ now s → now s < 2 ^ 31 →
  ∃ r s', sem_loop (3 + fuel) i tm waited (gen (sems s i)) s = Ret r s' ∧ waits i tm waited s s' r.
Proof.
  intros Hc0 Hcur Htm Hwd Hnow. destruct (decide (tm = 0 ∨ waited < tm)) as [Ht|Ht].
  2:{ exists Timed_out, s. split; [|split; [lia|split; [right; lia|apply but_refl]]]. cbn [Nat.add sem_loop].
    destruct (Z.eqb_spec tm 0); [lia|]. destruct (Z.ltb_spec waited tm); [lia|]. done. }
  destruct (decide (0 < counter (sems s i))) as [Hc|Hc].
  { destruct (take_ok (2 + fuel) s tm waited (gen (sems s i)) Hc Ht) as (s' & E & Hb). exists (Got waited), s'. done. }
  assert (counter (sems s i) = 0) as Hz by lia. destruct (decide (tm = SYS_ARCH_NOWAIT)) as [->|Hnw].
  { exists Timed_out, s. split; [|split; [done|split; [by left|apply but_refl]]]. cbn [Nat.add sem_loop]. assert ((SYS_ARCH_NOWAIT =? 0) || (waited <? SYS_ARCH_NOWAIT) = true) as ->.
    { apply orb_true_iff. right. apply Z.ltb_lt. unfold SYS_ARCH_NOWAIT. lia. }
    rewrite (bind_eq _ _ _ _ _ (sem_eq i s Hi)), Hz. cbn [Z.ltb Z.compare]. by rewrite Z.eqb_refl. }
  destruct Htm as [Htm|?]; [|done]. destruct (decide (waiters (sems s i) = 1)) as [Hw|Hw].
  { destruct (block_ok (2 + fuel) s tm waited) as (w & s' & E & Hb & Hn & Ha); try done. exists (Blocked w), s'. done. }
  destruct (first_round (1 + fuel) s tm waited) as (s1 & E1 & Hb1 & Hw1 & Hc1); try done.
  destruct (block_ok fuel s1 tm waited) as (w & s' & E & Hb & Hn & Ha); try done; rewrite ?(but_now _ _ _ _ Hb1) by done; try done.
  { rewrite (but_counter _ _ _ _ Hb1), Z.eqb_refl. lia. }
  exists (Blocked w), s'. change (3 + fuel)%nat with (S (S (1 + fuel))). rewrite E1. rewrite (but_gen _ _ _ _ Hb1) in E. split; [exact E|]. split; [done|]. split; [done|]. split; [done|].
  split; [by rewrite <- (but_now _ _ _ _ Hb1)|]. split; [done|exact (but_trans i 0 0 _ _ _ Hb1 Hb)].
Qed.

(** Back in the loop after the wait is over. *)
Lemma sem_back_ok fuel s w tm : noted i tm s w → 0 ≤ counter (sems s i) → is_Some (cur_tc (thr s)) → tm_ok tm → now s < 2 ^ 31 →
  ∃ n r s', n = w_waited w + (now s - w_a w) ∧ sem_back (4 + fuel) w s = Ret r s' ∧ waits i tm n s s' r.
Proof.
  intros [N1 N2 N3 N4 N5 N6 N7] Hc [c Ec] Htm Hnow. cbn [Nat.add sem_back]. assert (on_thr wait_end s = Ret tt (set_thr (set_cur (Some (set_wait None c)) (thr s)) s)) as E1.
  { apply on_thr_eq. unfold wait_end, bind, self. by rewrite Ec. }
  set (s1 := set_thr _ s) in E1. rewrite (bind_eq _ _ _ _ _ E1), N1, (bind_eq _ _ _ _ _ (sem_eq i s1 Hi)), N3, N2. change (gen (sems s1 i)) with (gen (sems s i)).
  rewrite Z.eqb_refl. cbn [negb]. rewrite (bind_eq (gets _) _ _ _ _ eq_refl). change (now s1) with (now s). rewrite u32_small by (unfold is_u32; lia).
  destruct (sem_loop_ok fuel s1 tm (w_waited w + (now s - w_a w))) as (r & s' & E & Hw); try done; [change (now s1) with (now s); lia|].
  exists (w_waited w + (now s - w_a w)), r, s'. split; [lia|]. split; [exact E|].
  assert (but i 0 s s1) as Hb by (split; try done; [intros j; destruct (_ =? _); cbn; lia|unfold who; cbn; by rewrite Ec]).
  destruct r; unfold waits in *; cbn in Hw |- *; destruct Hw as (W1 & W2); split; try done; [destruct W2 as [W2 W3]; split; [done|]; exact (but_trans i 0 1 _ _ _ Hb W3)|destruct W2 as [W2 W3]; split; [done|]; exact (but_trans i 0 0 _ _ _ Hb W3)|].
  destruct W2 as (W2 & W3 & W4 & W5 & W6). split; [done|]. split; [done|]. split; [done|]. split; [done|]. exact (but_trans i 0 0 _ _ _ Hb W6).
Qed.

(** A thread that comes back from a switch and finds the semaphore available takes it: no
    wakeup is needed, the word it watches has changed. *)
Lemma sem_resume_ok s w tm : noted i tm s w → 0 ≤ counter (sems s i) < 2 ^ 16 → is_Some (cur_tc (thr s)) →
  0 ≤ tm < 2 ^ 31 → now s < 2 ^ 31 →
  ∃ n r s', n = w_waited w + (now s - w_a w) ∧ sem_resume w s = Ret r s' ∧ waits i tm n s s' r.
Proof.
  intros Hn Hc Hcur Htm Hnow. pose proof Hn as [N1 N2 N3 N4 N5 N6 N7]. unfold sem_resume. rewrite (bind_eq (gets _) _ _ _ _ eq_refl), N1, (bind_eq _ _ _ _ _ (sem_eq i s Hi)).
  set (ch := negb (sem_v (sems s i) =? w_val w)). assert (∃ o, on_thr (wait_over ch (w_until w) (w_start w) (now s)) s = Ret o s ∧ (o = false → ch = false ∧ now s < w_until w)) as (o & E & Ho).
  { destruct Hcur as [c Ec]. unfold on_thr, zoom, wait_over, bind, self. rewrite Ec. cbn. eexists. split; [by destruct s|]. intros H. repeat (apply orb_false_iff in H as [H ?]). split; [done|]. by apply negb_false_iff, Z.ltb_lt in H. }
  rewrite (bind_eq _ _ _ _ _ E). destruct o.
  - destruct (sem_back_ok 4 s w tm Hn) as (n & r & s' & H1 & H2 & H3); [lia|done|by left|done|]. by exists n, r, s'.
  - exists (w_waited w + (now s - w_a w)), (Blocked w), s. split; [done|]. split; [done|]. destruct (Ho eq_refl) as [Ho' Hu]. unfold ch in Ho'. apply negb_false_iff, Z.eqb_eq in Ho'.
    split; [|split; [unfold SYS_ARCH_NOWAIT; lia|split; [by split|split; [lia|split; [destruct N7; [by left|right; lia]|apply but_refl]]]]].
    rewrite <- Ho' in N4. unfold sem_v in N4. rewrite Z.mul_comm, Z.mod_add, Z.mod_small in N4 by lia. done.
Qed.

Lemma signal_ok s : s_freed (sems s i) = false → 0 ≤ counter (sems s i) < 2 ^ 16 - 1 → ∃ s', sys_sem_signal i s = Ret tt s' ∧ but i (-1) s s'.
Proof.
  intros Hf Hc. unfold sys_sem_signal. rewrite (bind_eq _ _ _ _ _ (sem_eq i s Hi)), Hf. rewrite (bind_eq (massert (negb false)) _ s tt s eq_refl), (bind_eq (put_sem _ _) _ _ _ _ eq_refl).
  rewrite u16_small by lia. destruct (ctrue (waiters (sems s i))).
  - rewrite (bind_eq (put_sem _ _) _ _ _ _ eq_refl). eexists. split; [reflexivity|].
    split; try done; try (intros j; cbn; unfold upd; destruct (Z.eqb_spec j i) as [->|]; cbn; (done || lia)).
    cbn. rewrite <- list_fmap_compose. apply list_fmap_ext. intros k c _. cbn. by destruct (bool_decide _).
  - eexists. split; [reflexivity|]. apply put_sem_but; cbn; (done || lia).
Qed.
End waits.

(** ** A mailbox as a queue *)

Definition ring (e : sys_mbox_entry) (q : list Z) : Prop :=
  0 ≤ nextq e < MBOXSLOTS ∧
  match q with
  | [] => head e = -1
  | _ => 0 ≤ head e < MBOXSLOTS ∧ nextq e = (head e + Z.of_nat (length q)) mod MBOXSLOTS ∧
         ∀ k, (k < length q)%nat → msg e ((head e + Z.of_nat k) mod MBOXSLOTS) = q !!! k
  end.

(** The mailbox [b] holds the messages [q]; [dq] and [df] are taken from its semaphores. *)
Record holds (b : Z) (q : list Z) (dq df : Z) (s : itc) : Prop := {
  h_b : 0 ≤ b < NMBOX; h_live : m_freed (mboxes s b) = false;
  h_q : 0 ≤ queued_msg (mboxes s b) < NSEM; h_f : 0 ≤ free_msg (mboxes s b) < NSEM; h_ne : queued_msg (mboxes s b) ≠ free_msg (mboxes s b);
  h_qf : s_freed (sems s (queued_msg (mboxes s b))) = false; h_ff : s_freed (sems s (free_msg (mboxes s b))) = false;
  h_qc : counter (sems s (queued_msg (mboxes s b))) = Z.of_nat (length q) - dq;
  h_fc : counter (sems s (free_msg (mboxes s b))) = MBOXSLOTS - Z.of_nat (length q) - df;
  h_len : Z.of_nat (length q) ≤ MBOXSLOTS; h_ring : ring (mboxes s b) q }.

Lemma holds_queued b q dq df d s s' : holds b q dq df s → but (queued_msg (mboxes s b)) d s s' → holds b q (dq + d) df s'.
Proof.
  intros [] [B1 B2 B3 B4 B5 B6 B7 B8]. split; rewrite ?B4, ?B3, ?B1; try done.
  - rewrite Z.eqb_refl. lia.
  - destruct (Z.eqb_spec (free_msg (mboxes s b)) (queued_msg (mboxes s b))); [by destruct h_ne0|lia].
Qed.

Lemma holds_free b q dq df d s s' : holds b q dq df s → but (free_msg (mboxes s b)) d s s' → holds b q dq (df + d) s'.
Proof.
  intros [] [B1 B2 B3 B4 B5 B6 B7 B8]. split; rewrite ?B4, ?B3, ?B1; try done.
  - destruct (Z.eqb_spec (queued_msg (mboxes s b)) (free_msg (mboxes s b))); [by destruct h_ne0|lia].
  - rewrite Z.eqb_refl. lia.
Qed.

(** What no call on the mailbox changes. *)
Record kept (b : Z) (s s' : itc) : Prop := {
  k_gen j : gen (sems s' j) = gen (sems s j);
  k_now : now s' = now s;
  k_queue : tc_jb <$> thread_queue (thr s') = tc_jb <$> thread_queue (thr s);
  k_cur : is_Some (cur_tc (thr s)) → is_Some (cur_tc (thr s'));
  k_sems : queued_msg (mboxes s' b) = queued_msg (mboxes s b) ∧ free_msg (mboxes s' b) = free_msg (mboxes s b);
  k_freed j : s_freed (sems s' j) = s_freed (sems s j);
  k_who : who s' = who s;
  k_other j : j ≠ queued_msg (mboxes s b) → j ≠ free_msg (mboxes s b) → counter (sems s' j) = counter (sems s j) }.

Lemma unchanged_refl b s : kept b s s.
Proof. by split. Qed.

Lemma unchanged_trans b s s1 s2 : kept b s s1 → kept b s1 s2 → kept b s s2.
Proof.
  intros [A1 A2 A3 A4 [A5 A6] A7 A8 A9] [B1 B2 B3 B4 [B5 B6] B7 B8 B9]. split; try congruence; [by auto|split; congruence|].
  intros j Hq Hf. rewrite B9, A9 by congruence. done.
Qed.

Lemma kept_but b i d s s' : i = queued_msg (mboxes s b) ∨ i = free_msg (mboxes s b) → but i d s s' → kept b s s'.
Proof.
  intros Hi [B1 B2 B3 B4 B5 B6 B7 B8]. split; try done; [by rewrite B4|]. intros j Hq Hf. rewrite B1. destruct (Z.eqb_spec j i); [naive_solver|lia].
Qed.

Lemma ring_put e q m : ring e q → Z.of_nat (length q) < MBOXSLOTS → nextq e ≠ head e ∧
  ring (MkMbox (m_freed e) (if head e =? -1 then nextq e else head e) ((nextq e + 1) mod MBOXSLOTS) (upd (msg e) (nextq e) m) (queued_msg e) (free_msg e)) (q ++ [m]).
Proof.
  unfold ring, MBOXSLOTS. intros [Hn Hr] Hl. destruct q as [|x q].
  - rewrite Hr. cbn. split; [lia|]. split; [dlia|]. split; [lia|]. split; [f_equal; lia|]. intros k Hk. replace k with 0%nat by lia. cbn.
    rewrite Z.add_0_r, Z.mod_small by lia. by apply upd_eq.
  - set (l := x :: q) in *. assert (1 ≤ Z.of_nat (length l)) by (unfold l; cbn [length]; lia). clearbody l. destruct Hr as (Hh & En & Hm).
    split; [rewrite En; dlia|]. cbn [nextq head msg]. split; [dlia|]. destruct (Z.eqb_spec (head e) (-1)); [lia|].
    assert (match l ++ [m] with [] => head e = -1 | _ => 0 ≤ head e < 32 ∧ (nextq e + 1) mod 32 = (head e + Z.of_nat (length (l ++ [m]))) mod 32 ∧
      ∀ k, (k < length (l ++ [m]))%nat → upd (msg e) (nextq e) m ((head e + Z.of_nat k) mod 32) = (l ++ [m]) !!! k end) as H'; [|by destruct (l ++ [m])].
    assert (l ++ [m] ≠ []) as Hne by (by destruct l). destruct (l ++ [m]) as [|y l'] eqn:El; [done|]. rewrite <- El. split; [done|].
    rewrite length_app. cbn [length]. split; [rewrite En; rewrite Zplus_mod_idemp_l; f_equal; lia|]. intros k Hk. destruct (decide (k = length l)) as [->|].
    + rewrite upd_eq by (by rewrite En). rewrite lookup_total_app_r by lia. by rewrite Nat.sub_diag.
    + rewrite upd_ne by (rewrite En; dlia). rewrite lookup_total_app_l by lia. apply Hm. lia.
Qed.

Lemma ring_get e x q : ring e (x :: q) → Z.of_nat (length (x :: q)) ≤ MBOXSLOTS → head e ≠ -1 ∧ msg e (head e) = x ∧
  ring (MkMbox (m_freed e) (if (head e + 1) mod MBOXSLOTS =? nextq e then -1 else (head e + 1) mod MBOXSLOTS) (nextq e) (msg e) (queued_msg e) (free_msg e)) q.
Proof.
  unfold ring, MBOXSLOTS. cbn [length]. intros (Hn & Hh & En & Hm) Hl. split; [lia|]. split.
  { specialize (Hm 0%nat ltac:(lia)). cbn in Hm. by rewrite Z.add_0_r, Z.mod_small in Hm by lia. }
  cbn [nextq head msg]. split; [done|]. destruct q as [|y q].
  - cbn in En. rewrite En, Z.eqb_refl. done.
  - cbn [length] in *. destruct (Z.eqb_spec ((head e + 1) mod 32) (nextq e)) as [E|E]; [exfalso; rewrite En in E; dlia|].
    split; [dlia|]. split; [rewrite En, Zplus_mod_idemp_l; f_equal; lia|]. intros k Hk. rewrite Zplus_mod_idemp_l.
    replace (head e + 1 + Z.of_nat k) with (head e + Z.of_nat (S k)) by lia. apply (Hm (S k)). lia.
Qed.

Lemma post_finish_ok b q m s : holds b q 0 1 s → Z.of_nat (length q) < MBOXSLOTS →
  ∃ s', post_finish b m s = Ret (Done ERR_OK None) s' ∧ holds b (q ++ [m]) 0 0 s' ∧ kept b s s'.
Proof.
  intros H Hl. pose proof H as []. destruct (ring_put _ _ m h_ring0 Hl) as [Hne Hr]. unfold post_finish. rewrite (bind_eq _ _ _ _ _ (mbox_eq b s h_b0)).
  rewrite (proj2 (Z.eqb_neq _ _) Hne). rewrite (bind_eq (put_mbox _ _) _ _ _ _ eq_refl). set (s1 := set_mboxes _ s). assert (mboxes s1 b = MkMbox (m_freed (mboxes s b))
    (if head (mboxes s b) =? -1 then nextq (mboxes s b) else head (mboxes s b)) ((nextq (mboxes s b) + 1) mod MBOXSLOTS)
    (upd (msg (mboxes s b)) (nextq (mboxes s b)) m) (queued_msg (mboxes s b)) (free_msg (mboxes s b))) as E1 by (unfold s1; cbn; by rewrite upd_eq).
  destruct (signal_ok (queued_msg (mboxes s b)) h_q0 s1) as (s' & E' & Hb); [done|cbn; unfold MBOXSLOTS in *; lia|]. rewrite (bind_eq _ _ _ _ _ E').
  exists s'. split; [done|]. assert (holds b (q ++ [m]) 1 0 s1) as H1.
  { split; rewrite ?E1; cbn [queued_msg free_msg m_freed]; try done; rewrite length_app; cbn [length]; unfold s1; cbn; lia. }
  assert (queued_msg (mboxes s1 b) = queued_msg (mboxes s b)) as Eq by (by rewrite E1). rewrite <- Eq in Hb. split; [exact (holds_queued b _ 1 0 (-1) _ _ H1 Hb)|].
  eapply unchanged_trans; [|eapply kept_but; [|exact Hb]; auto]. split; try done. by rewrite E1.
Qed.

Lemma fetch_finish_ok b x q s w : holds b (x :: q) 1 0 s →
  ∃ s', fetch_finish b w s = Ret (Done w (Some x)) s' ∧ holds b q 0 0 s' ∧ kept b s s'.
Proof.
  intros H. pose proof H as []. destruct (ring_get _ _ _ h_ring0 h_len0) as (Hne & Hx & Hr). unfold fetch_finish. rewrite (bind_eq _ _ _ _ _ (mbox_eq b s h_b0)).
  rewrite (proj2 (Z.eqb_neq _ _) Hne). rewrite (bind_eq (put_mbox _ _) _ _ _ _ eq_refl). set (s1 := set_mboxes _ s). assert (mboxes s1 b = MkMbox (m_freed (mboxes s b))
    (if (head (mboxes s b) + 1) mod MBOXSLOTS =? nextq (mboxes s b) then -1 else (head (mboxes s b) + 1) mod MBOXSLOTS) (nextq (mboxes s b))
    (msg (mboxes s b)) (queued_msg (mboxes s b)) (free_msg (mboxes s b))) as E1 by (unfold s1; cbn; by rewrite upd_eq).
  cbn [length] in *. destruct (signal_ok (free_msg (mboxes s b)) h_f0 s1) as (s' & E' & Hb); [done|cbn; unfold MBOXSLOTS in *; lia|]. rewrite (bind_eq _ _ _ _ _ E').
  exists s'. split; [by rewrite Hx|]. assert (holds b q 0 1 s1) as H1.
  { split; rewrite ?E1; cbn [queued_msg free_msg m_freed]; try done; unfold s1; cbn; lia. }
  assert (free_msg (mboxes s1 b) = free_msg (mboxes s b)) as Eq by (by rewrite E1). rewrite <- Eq in Hb. split; [exact (holds_free b _ 0 1 (-1) _ _ H1 Hb)|].
  eapply unchanged_trans; [|eapply kept_but; [|exact Hb]; auto]. split; try done. by rewrite E1.
Qed.

(** ** Calls *)

(** Where a thread may be while the mailbox is used. *)
Definition cont_ok (b : Z) (s : itc) (k : cont) : Prop :=
  match k with
  | Idle => True
  | In_post i _ w => i = b ∧ noted (free_msg (mboxes s b)) 0 s w
  | In_fetch i w => i = b ∧ ∃ tm, 0 ≤ tm < 2 ^ 31 ∧ noted (queued_msg (mboxes s b)) tm s w
  end.

Lemma noted_kept b i tm s s' w : noted i tm s w → kept b s s' → noted i tm s' w.
Proof. intros [N1 N2 N3 N4 N5 N6 N7] [K1 K2 _ _ _]. split; try done; [by rewrite K1|by rewrite K2]. Qed.

Lemma cont_kept b s s' k : cont_ok b s k → kept b s s' → cont_ok b s' k.
Proof.
  intros Hk K. pose proof (k_sems _ _ _ K) as [E1 E2]. destruct k as [|i m w|i w]; [done| |]; cbn in *; rewrite ?E1, ?E2.
  - destruct Hk. split; [done|by eapply noted_kept].
  - destruct Hk as (? & tm & ? & ?). split; [done|]. exists tm. split; [done|by eapply noted_kept].
Qed.

(** A call on the mailbox with messages [q]: it is done, with the messages [q'] left and the
    one it got, or it waits. *)
Definition call_ok (b : Z) (q q' : list Z) (put : list Z) (s s' : itc) (o : outcome_of) : Prop :=
  kept b s s' ∧ holds b q' 0 0 s' ∧
  match o with
  | Done _ None => q' = q ++ put
  | Done _ (Some x) => put = [] ∧ x :: q' = q
  | Waits k => q' = q ∧ cont_ok b s' k
  end.

Lemma post_call b q m s s' n r : holds b q 0 0 s → waits (free_msg (mboxes s b)) 0 n s s' r →
  ∃ o s2, (let* o := post_after b m r in post_checked o) s' = Ret o s2 ∧ ∃ q', call_ok b q q' [m] s s2 o.
Proof.
  intros H W. destruct r as [n'| |w]; cbn [waits] in W.
  - destruct W as (Hc & _ & Hb). pose proof (holds_free b q 0 0 1 _ _ H Hb) as H1. rewrite (h_fc _ _ _ _ _ H) in Hc.
    destruct (post_finish_ok b q m s' H1 ltac:(lia)) as (s2 & E & H2 & K2). exists (Done ERR_OK None), s2. split; [by rewrite (bind_eq _ _ _ _ _ E)|].
    exists (q ++ [m]). split; [|done]. eapply unchanged_trans; [eapply kept_but; [|exact Hb]; auto|done].
  - by destruct W.
  - destruct W as (_ & _ & Hn & _ & _ & Hb). exists (Waits (In_post b m w)), s'. split; [done|]. exists q. split; [eapply kept_but; [|exact Hb]; auto|]. split; [exact (holds_free b q 0 0 0 _ _ H Hb)|].
    split; [done|]. cbn. rewrite (but_mboxes _ _ _ _ Hb). done.
Qed.

Lemma fetch_call b q tm s s' n r : holds b q 0 0 s → waits (queued_msg (mboxes s b)) tm n s s' r → tm_ok tm → 0 ≤ n < 2 ^ 31 →
  ∃ o s2, fetch_after b r s' = Ret o s2 ∧ ∃ q', call_ok b q q' [] s s2 o.
Proof.
  intros H W Htm Hn. destruct r as [n'| |w]; cbn [waits] in W.
  - destruct W as (Hc & [-> _] & Hb). pose proof (holds_queued b q 0 0 1 _ _ H Hb) as H1. rewrite (h_qc _ _ _ _ _ H) in Hc. destruct q as [|x q]; [cbn in Hc; lia|].
    destruct (fetch_finish_ok b x q s' n H1) as (s2 & E & H2 & K2). exists (Done n (Some x)), s2. cbn [fetch_after]. unfold SYS_ARCH_TIMEOUT.
    rewrite (proj2 (Z.eqb_neq n 4294967295)) by lia. split; [done|]. exists q. split; [|done]. eapply unchanged_trans; [eapply kept_but; [|exact Hb]; auto|done].
  - destruct W as (_ & _ & Hb). exists (Done SYS_ARCH_TIMEOUT None), s'. split; [done|]. exists q. split; [eapply kept_but; [|exact Hb]; auto|]. split; [exact (holds_queued b q 0 0 0 _ _ H Hb)|].
    by rewrite app_nil_r.
  - destruct W as (_ & Hnw & Hw & _ & _ & Hb). exists (Waits (In_fetch b w)), s'. split; [done|]. exists q. split; [eapply kept_but; [|exact Hb]; auto|]. split; [exact (holds_queued b q 0 0 0 _ _ H Hb)|].
    split; [done|]. cbn. rewrite (but_mboxes _ _ _ _ Hb). split; [done|]. exists tm. split; [by destruct Htm|done].
Qed.

Lemma sem_wait_ok i tm s : 0 ≤ i < NSEM → s_freed (sems s i) = false → 0 ≤ counter (sems s i) → is_Some (cur_tc (thr s)) → tm_ok tm → 0 ≤ now s < 2 ^ 31 →
  ∃ r s', sys_arch_sem_wait i tm s = Ret r s' ∧ waits i tm 0 s s' r.
Proof.
  intros Hi Hf Hc Hcur Htm Hnow. unfold sys_arch_sem_wait. rewrite (bind_eq _ _ _ _ _ (sem_eq i s Hi)), Hf. rewrite (bind_eq (massert (negb false)) _ s tt s eq_refl).
  apply (sem_loop_ok i Hi 5); (done || lia).
Qed.

Lemma begin_ok b q s c : holds b q 0 0 s → is_Some (cur_tc (thr s)) → 0 ≤ now s < 2 ^ 31 → (∀ tm, c = Fetch tm → tm_ok tm) →
  ∃ o s', begin b c s = Ret o s' ∧ ∃ q', call_ok b q q' (match c with Post m => [m] | _ => [] end) s s' o.
Proof.
  intros H Hcur Hnow Htm. pose proof H as []. unfold MBOXSLOTS in *. destruct c as [m|tm|]; cbn [begin].
  - destruct (sem_wait_ok (free_msg (mboxes s b)) 0 s) as (r & s1 & E & W); try done; [lia|by left|]. assert (sys_mbox_trypost b m s = post_after b m r s1) as Et.
    { unfold sys_mbox_trypost. rewrite (bind_eq _ _ _ _ _ (mbox_eq b s h_b0)), h_live0, (bind_eq (massert (negb false)) _ s tt s eq_refl). by rewrite (bind_eq _ _ _ _ _ E). }
    destruct (post_call b q m s s1 0 r H W) as (o & s2 & E2 & Hq). exists o, s2. split; [|done]. unfold sys_mbox_post, bind. rewrite Et. exact E2.
  - destruct (sem_wait_ok (queued_msg (mboxes s b)) tm s) as (r & s1 & E & W); try done; [lia|by apply Htm|]. unfold sys_arch_mbox_fetch.
    rewrite (bind_eq _ _ _ _ _ (mbox_eq b s h_b0)), h_live0, (bind_eq (massert (negb false)) _ s tt s eq_refl), (bind_eq _ _ _ _ _ E).
    apply (fetch_call b q tm s s1 0 r H W); [by apply Htm|lia].
  - exists (Waits Idle), s. split; [done|]. exists q. split; [apply unchanged_refl|]. done.
Qed.

Lemma resume_ok b q s k : k ≠ Idle → holds b q 0 0 s → cont_ok b s k → is_Some (cur_tc (thr s)) → 0 ≤ now s < 2 ^ 31 →
  ∃ o s', resume k s = Ret o s' ∧ ∃ q', call_ok b q q' (match k with In_post _ m _ => [m] | _ => [] end) s s' o.
Proof.
  intros Hk H Hc Hcur Hnow. pose proof H as []. unfold MBOXSLOTS in *. destruct k as [|i m w|i w]; [done| |]; cbn [resume] in *.
  - destruct Hc as [-> Hn]. destruct (sem_resume_ok (free_msg (mboxes s b)) h_f0 s w 0 Hn) as (n & r & s1 & Hn1 & E & W); [lia|done|lia|lia|].
    rewrite (bind_eq _ _ _ _ _ E). by apply (post_call b q m s s1 n r H W).
  - destruct Hc as (-> & tm & Htm & Hn). destruct (sem_resume_ok (queued_msg (mboxes s b)) h_q0 s w tm Hn) as (n & r & s1 & Hn1 & E & W); [lia|done|done|lia|].
    rewrite (bind_eq _ _ _ _ _ E). pose proof (n_waited _ _ _ _ Hn). pose proof (n_a _ _ _ _ Hn). apply (fetch_call b q tm s s1 n r H W); [by left|lia].
Qed.

(** ** Any interleaving *)

Definition good (b : Z) (q : list Z) (pc : cont) (s : itc) : Prop :=
  holds b q 0 0 s ∧ is_Some (cur_tc (thr s)) ∧ cont_ok b s pc ∧ Forall (cont_ok b s) (tc_jb <$> thread_queue (thr s)) ∧ 0 ≤ now s.

Lemma yield_conts k (t : threads cont) : is_Some (cur_tc t) → ∃ y t', thread_yield k t = Ret y t' ∧ is_Some (cur_tc t') ∧
  match y with None => t' = set_queue [] t ∧ thread_queue t = [] | Some k' => ∃ l, tc_jb <$> thread_queue t = k' :: l ∧ tc_jb <$> thread_queue t' = l ++ [k] end.
Proof.
  intros [c Ec]. unfold thread_yield. rewrite (bind_eq (gets _) _ _ _ _ eq_refl). destruct (thread_queue t) as [|c0 q] eqn:Eq; cbn; rewrite ?Ec.
  - eexists None, _. split; [reflexivity|]. split; [by eexists|done].
  - eexists (Some _), _. split; [reflexivity|]. split; [by eexists|]. eexists. split; [reflexivity|]. cbn. rewrite fmap_app. done.
Qed.

Definition allowed (x : Z * choice) : Prop := 0 ≤ fst x ∧ ∀ tm, snd x = Fetch tm → tm_ok tm.

Lemma later b q k s dt : holds b q 0 0 s → cont_ok b s k → 0 ≤ dt → holds b q 0 0 (set_now (now s + dt) s) ∧ cont_ok b (set_now (now s + dt) s) k.
Proof.
  intros H Hk Hdt. split; [destruct H; by split|]. destruct k as [|i m w|i w]; [done| |]; cbn in *.
  - destruct Hk as [? []]. split; [done|]. split; try done. cbn. lia.
  - destruct Hk as (? & tm & ? & []). split; [done|]. exists tm. split; [done|]. split; try done. cbn. lia.
Qed.

Lemma turn_ok b q pc s x : good b q pc s → allowed x → now s + fst x < 2 ^ 31 →
  ∃ pc' ev s', turn b x pc s = Ret (pc', ev) s' ∧ now s' = now s + fst x ∧ ∃ q', good b q' pc' s' ∧ q ++ posted ev = fetched ev ++ q'.
Proof.
  intros (H & Hcur & Hpc & Hall & Hnow) [Hdt Htm] Hlim. destruct x as [dt c]. cbn [fst snd] in *. unfold turn. rewrite (bind_eq (modify _) _ _ _ _ eq_refl).
  set (s1 := set_now (now s + dt) s). assert (∀ k, cont_ok b s k → cont_ok b s1 k) as Hmono by (intros k Hk; by apply (later b q k s dt)).
  pose proof (proj1 (later b q Idle s dt H I Hdt)) as H1. fold s1 in H1.
  assert (∃ o s2, (match pc with Idle => begin b c | _ => resume pc end) s1 = Ret o s2 ∧
    ∃ q', call_ok b q q' (match pc, c with In_post _ m _, _ => [m] | Idle, Post m => [m] | _, _ => [] end) s1 s2 o) as (o & s2 & E & q' & K & H2 & Ho).
  { destruct pc as [|i m w|i w].
    - destruct (begin_ok b q s1 c H1 Hcur ltac:(cbn; lia) Htm) as (o & s2 & E & q' & Hc). exists o, s2. split; [done|]. exists q'. by destruct c.
    - apply (resume_ok b q s1 (In_post i m w)); try done; [by apply Hmono|cbn; lia].
    - apply (resume_ok b q s1 (In_fetch i w)); try done; [by apply Hmono|cbn; lia]. }
  rewrite (bind_eq _ _ _ _ _ E). assert (Forall (cont_ok b s2) (tc_jb <$> thread_queue (thr s2))) as Hall2.
  { rewrite (k_queue _ _ _ K). eapply Forall_impl; [exact Hall|]. intros k Hk. eapply cont_kept; [by apply Hmono|done]. }
  assert (is_Some (cur_tc (thr s2))) as Hcur2 by (by apply (k_cur _ _ _ K)). assert (now s2 = now s + dt) as Hn2 by (by rewrite (k_now _ _ _ K)).
  destruct o as [r m|k].
  - eexists Idle, _, s2. split; [reflexivity|]. split; [done|]. exists q'. split; [split_and!; try done; lia|].
    destruct pc as [|i x w|i w], c as [y|tm|], m as [z|]; cbn; try (by destruct Ho); try (destruct Ho as [_ <-]); try subst q'; rewrite ?app_nil_r; done.
  - destruct Ho as [-> Hk]. destruct (yield_conts k (thr s2) Hcur2) as (y & t' & Ey & Hcur' & Hy). rewrite (bind_eq _ _ _ _ _ (on_thr_eq _ _ _ _ Ey)).
    eexists _, [], (set_thr t' s2). split; [reflexivity|]. split; [done|]. exists q. split; [|cbn; by rewrite app_nil_r].
    assert (∀ k', cont_ok b s2 k' → cont_ok b (set_thr t' s2) k') as Hc'.
    { intros [|i m w|i w]; cbn; [done|intros [? []]; split; [done|by split]|intros (? & tm & ? & []); split; [done|exists tm; split; [done|by split]]]. }
    split; [destruct H2; by split|]. split; [done|]. destruct y as [k'|].
    + destruct Hy as (l & E1 & E2). rewrite E1 in Hall2. apply Forall_cons in Hall2 as [Hk' Hl]. split; [by apply Hc'|]. split; [|cbn; lia]. cbn. rewrite E2.
      apply Forall_app. split; [eapply Forall_impl; [exact Hl|exact Hc']|]. constructor; [by apply Hc'|constructor].
    + destruct Hy as [-> E0]. split; [by apply Hc'|]. split; [constructor|cbn; lia].
Qed.

Definition elapsed (l : list (Z * choice)) : Z := foldr (λ x n, fst x + n) 0 l.

Lemma elapsed_nonneg l : Forall allowed l → 0 ≤ elapsed l.
Proof. induction 1 as [|x l [Hx _] _ IH]; [done|]. change (0 ≤ fst x + elapsed l). lia. Qed.

Lemma turns_ok b l : ∀ q pc s, good b q pc s → Forall allowed l → now s + elapsed l < 2 ^ 31 →
  ∃ pc' ev s', turns b l pc s = Ret (pc', ev) s' ∧ ∃ q', good b q' pc' s' ∧ q ++ posted ev = fetched ev ++ q'.
Proof.
  induction l as [|x l IH]; intros q pc s Hg Hall Hlim.
  - exists pc, [], s. split; [done|]. exists q. split; [done|]. by rewrite app_nil_r.
  - apply Forall_cons in Hall as [Hx Hall]. pose proof (elapsed_nonneg l Hall). cbn [elapsed foldr] in Hlim. fold (elapsed l) in Hlim.
    destruct (turn_ok b q pc s x Hg Hx ltac:(lia)) as (pc1 & ev1 & s1 & E1 & Hn1 & q1 & Hg1 & Hq1).
    destruct (IH q1 pc1 s1 Hg1 Hall ltac:(lia)) as (pc' & ev' & s' & E' & q' & Hg' & Hq').
    exists pc', (ev1 ++ ev'), s'. cbn [turns]. rewrite (bind_eq _ _ _ _ _ E1). cbn [fst snd]. rewrite (bind_eq _ _ _ _ _ E'). split; [done|].
    exists q'. split; [done|]. unfold posted, fetched in *. rewrite !omap_app. rewrite app_assoc, Hq1, <- app_assoc, Hq', app_assoc. done.
Qed.

(** ** A new mailbox *)

Lemma sem_new_ok s i l n : sem_free s = i :: l → 0 ≤ i < NSEM → s_freed (sems s i) = true →
  sys_sem_new n s = Ret i (set_sems (upd (sems s) i (MkSem false (s32 (gen (sems s i) + 1)) n (waiters (sems s i)))) (set_sem_free l s)).
Proof.
  intros E Hi Hf. unfold sys_sem_new. rewrite (bind_eq (gets _) _ _ _ _ eq_refl), E, (bind_eq (modify _) _ _ _ _ eq_refl), (bind_eq _ _ _ _ _ (sem_eq i _ Hi)).
  cbn [sems set_sem_free]. rewrite Hf. done.
Qed.

(** The free lists have what a new mailbox needs. *)
Record room (b i j : Z) (s : itc) : Prop := {
  r_mbox : ∃ l, mbox_free s = b :: l; r_sems : ∃ l, sem_free s = i :: j :: l;
  r_b : 0 ≤ b < NMBOX; r_i : 0 ≤ i < NSEM; r_j : 0 ≤ j < NSEM; r_ne : i ≠ j;
  r_mf : m_freed (mboxes s b) = true; r_if : s_freed (sems s i) = true; r_jf : s_freed (sems s j) = true }.

Lemma mbox_new_ok size s b i j : size < MBOXSLOTS → room b i j s → ∃ s', sys_mbox_new size s = Ret b s' ∧ holds b [] 0 0 s' ∧ thr s' = thr s ∧ now s' = now s.
Proof.
  intros Hs [[lb Eb] [ls Es] Hb Hi Hj Hne Hmf Hif Hjf]. unfold sys_mbox_new. rewrite (bind_eq (massert _) _ s tt s) by (by rewrite (proj2 (Z.ltb_lt _ _) Hs)).
  rewrite (bind_eq (gets _) _ _ _ _ eq_refl), Eb, (bind_eq (modify _) _ _ _ _ eq_refl), (bind_eq _ _ _ _ _ (mbox_eq b _ Hb)). cbn [mboxes set_mbox_free]. rewrite Hmf.
  rewrite (bind_eq (massert true) _ _ tt _ eq_refl). rewrite (bind_eq _ _ _ _ _ (sem_new_ok (set_mbox_free lb s) i (j :: ls) 0 Es Hi Hif)).
  set (s1 := set_sems _ _). assert (s_freed (sems s1 j) = true) as Hj1 by (unfold s1; cbn; by rewrite upd_ne).
  rewrite (bind_eq _ _ _ _ _ (sem_new_ok s1 j ls MBOXSLOTS eq_refl Hj Hj1)), (bind_eq (put_mbox _ _) _ _ _ _ eq_refl). unfold SYS_SEM_NULL.
  destruct (Z.eqb_spec i (-1)); [lia|]. destruct (Z.eqb_spec j (-1)); [lia|]. eexists. split; [reflexivity|]. split; [|done].
  set (e := MkMbox false (-1) 0 (msg (mboxes s b)) i j). match goal with |- holds _ _ _ _ ?x => assert (mboxes x b = e) as Ee by apply upd_eq, eq_refl end.
  split; rewrite ?Ee; cbn [e queued_msg free_msg m_freed]; try done; unfold s1; cbn; rewrite ?(upd_eq _ j), ?(upd_ne _ j), ?(upd_eq _ i) by done; done.
Qed.

(** Without a semaphore left, a new mailbox is freed again, and with it the semaphores it
    never got: an access outside the array of semaphores. *)
Lemma mbox_new_no_sems size s b l : size < MBOXSLOTS → 0 ≤ b < NMBOX → mbox_free s = b :: l → m_freed (mboxes s b) = true → sem_free s = [] →
  sys_mbox_new size s = Fault.
Proof.
  intros Hs Hb Eb Hf Es. unfold sys_mbox_new. rewrite (bind_eq (massert _) _ s tt s) by (by rewrite (proj2 (Z.ltb_lt _ _) Hs)).
  rewrite (bind_eq (gets _) _ _ _ _ eq_refl), Eb, (bind_eq (modify _) _ _ _ _ eq_refl), (bind_eq _ _ _ _ _ (mbox_eq b _ Hb)). cbn [mboxes set_mbox_free]. rewrite Hf.
  set (s1 := set_mbox_free l s). assert (∀ n, sys_sem_new n s1 = Ret SYS_SEM_NULL s1) as En by (intros n; unfold sys_sem_new, bind, gets; cbn; by rewrite Es).
  rewrite (bind_eq (massert true) _ _ tt _ eq_refl), !(bind_eq _ _ _ _ _ (En _)), (bind_eq (put_mbox _ _) _ _ _ _ eq_refl). cbn [SYS_SEM_NULL Z.eqb orb Pos.eqb].
  unfold sys_mbox_free, bind at 1 2. rewrite (mbox_eq b _ Hb). cbn. by rewrite upd_eq.
Qed.

(** C9. A mailbox is a queue of at most 32 messages between threads: whatever the threads do
    with it, in whatever order they get to run and however the clock moves, no call
    panics, the messages fetched are those posted, in the order they were posted, none
    lost and none twice, and those not fetched yet are in the mailbox. *)
Theorem mailbox_fifo size s b i j l : size < MBOXSLOTS → room b i j s → is_Some (cur_tc (thr s)) → Forall (eq Idle) (tc_jb <$> thread_queue (thr s)) →
  Forall allowed l → 0 ≤ now s → now s + elapsed l < 2 ^ 31 →
  ∃ s1 pc ev s', sys_mbox_new size s = Ret b s1 ∧ turns b l Idle s1 = Ret (pc, ev) s' ∧
    ∃ q, posted ev = fetched ev ++ q ∧ (length q ≤ 32)%nat.
Proof.
  intros Hs Hr Hcur Hidle Hl Hnow Hlim. destruct (mbox_new_ok size s b i j Hs Hr) as (s1 & E1 & H1 & Et & En).
  destruct (turns_ok b l [] Idle s1) as (pc & ev & s' & E & q & (Hq & _) & Hev); [|done|lia|].
  - split_and!; try done; rewrite ?Et, ?En; try done. eapply Forall_impl; [exact Hidle|]. by intros k <-.
  - exists s1, pc, ev, s'. split; [done|]. split; [done|]. exists q. split; [done|]. pose proof (h_len _ _ _ _ _ Hq). unfold MBOXSLOTS in *. lia.
Qed.

(** A fetch whose time is over gives up, and leaves the mailbox as it is. *)
Lemma fetch_late b q s w dt c : good b q (In_fetch b w) s → q ≠ [] → 0 ≤ dt → now s + dt < 2 ^ 31 → 0 < w_tm w ≤ w_waited w + (now s + dt - w_a w) →
  ∃ s', turn b (dt, c) (In_fetch b w) s = Ret (Idle, []) s' ∧ holds b q 0 0 s'.
Proof.
  intros (H & Hcur & Hpc & _ & Hnow) Hq Hdt Hlim Hw. pose proof (later b q _ s dt H Hpc Hdt) as [H1 Hk]. set (s1 := set_now (now s + dt) s) in *.
  pose proof H1 as []. unfold MBOXSLOTS in *. destruct Hk as (_ & tm & Htm & Hn). assert (0 < length q)%nat as Hlq by (destruct q; [done|cbn; lia]).
  destruct (sem_resume_ok (queued_msg (mboxes s1 b)) h_q0 s1 w tm Hn) as (n & r & s2 & Hn' & E & W); [lia|done|lia|done|].
  pose proof (n_tm _ _ _ _ Hn) as Et. assert (now s1 = now s + dt) as En by done.
  destruct r as [n'| |w']; cbn [waits] in W; [lia| |lia]. destruct W as (_ & _ & Hb). pose proof (holds_queued b _ 0 0 0 _ _ H1 Hb) as H2. exists s2. split; [|done].
  unfold turn. rewrite (bind_eq (modify _) _ _ _ _ eq_refl). cbn [resume]. unfold bind. fold s1. by rewrite E.
Qed.

Lemma fetch_in_time b x q s w dt c : good b (x :: q) (In_fetch b w) s → 0 ≤ dt → now s + dt < 2 ^ 31 → w_tm w = 0 ∨ w_waited w + (now s + dt - w_a w) < w_tm w →
  ∃ s', turn b (dt, c) (In_fetch b w) s = Ret (Idle, [Fetched x]) s' ∧ holds b q 0 0 s'.
Proof.
  intros (H & Hcur & Hpc & _ & Hnow) Hdt Hlim Hw. pose proof (later b _ _ s dt H Hpc Hdt) as [H1 Hk]. set (s1 := set_now (now s + dt) s) in *.
  pose proof H1 as []. unfold MBOXSLOTS in *. cbn [length] in *. destruct Hk as (_ & tm & Htm & Hn). pose proof (n_tm _ _ _ _ Hn) as Et. assert (now s1 = now s + dt) as En by done.
  destruct (sem_resume_ok (queued_msg (mboxes s1 b)) h_q0 s1 w tm Hn) as (n & r & s2 & Hn' & E & W); [lia|done|lia|done|].
  destruct r as [n'| |w']; cbn [waits] in W; [|unfold SYS_ARCH_NOWAIT in W; lia|lia]. destruct W as (_ & [-> _] & Hb). pose proof (holds_queued b _ 0 0 1 _ _ H1 Hb) as H2.
  destruct (fetch_finish_ok b x q s2 n H2) as (s3 & E3 & H3 & _). exists s3. split; [|done].
  unfold turn. rewrite (bind_eq (modify _) _ _ _ _ eq_refl). cbn [resume]. unfold bind. fold s1. rewrite E. cbn [fetch_after]. unfold SYS_ARCH_TIMEOUT.
  pose proof (n_waited _ _ _ _ Hn). pose proof (n_a _ _ _ _ Hn). rewrite (proj2 (Z.eqb_neq n 4294967295)) by lia. by rewrite E3.
Qed.


(** The server after [sys_init] and [thread_init], with a second thread. *)
Definition demo_itc : itc :=
  sys_init (MkItc (λ _, MkSem false 0 0 0) [] (λ _, MkMbox false 0 0 (λ _, 0) 0 0) []
    (MkThreads 2 (Some (MkTc 0 0 Idle None 0 [])) [MkTc 1 0x2000 Idle None 0 []] [] [] []) 5).

(** The first thread waits for a message, the second posts two, the first has them. *)
Lemma mailbox_fifo_witness : ∃ s1 pc ev s', sys_mbox_new 0 demo_itc = Ret 127 s1 ∧
  turns 127 [(1, Fetch 0); (1, Post 7); (1, Post 8); (2, Pass); (1, Pass); (0, Fetch 10); (1, Fetch 3)] Idle s1 = Ret (pc, ev) s' ∧
  ∃ q, posted ev = fetched ev ++ q ∧ (length q ≤ 32)%nat.
Proof.
  apply (mailbox_fifo 0 demo_itc 127 255 254); try done.
  - split; try done; (eexists; vm_compute; reflexivity).
  - repeat constructor.
  - repeat (constructor; [split; [cbn; lia|]; cbn; intros tm E; simplify_eq; left; lia|]). constructor.
Defined.

(** One message is there, and a thread that waited for it since before. *)
Definition demo_waiting : waiting := MkWaiting 0 0 0 1 5 (2 ^ 16) 0xffffffff 5.
Definition demo_full : itc :=
  MkItc (λ i, if i =? 0 then MkSem false 1 1 0 else MkSem false 1 31 0) [] (λ _, MkMbox false 3 4 (λ _, 77) 0 1) []
    (MkThreads 1 (Some (MkTc 0 0 Idle None 0 [])) [] [] [] []) 9.

