(* ===== verification/Timeouts.v ===== *)
(** * Timeouts of the network server: [net/lwip/core/sys.c], and their table in [lib/itc.c]

    Each thread has a list of timeouts; the time of an entry counts from the one before it.
    They run off while the thread waits for a semaphore or a mailbox.  The waits are those
    of [Itc.v]: while the thread is blocked the other threads run, and [script] says, for
    each time they do, how long that takes and what they do to semaphores and mailboxes.
    When the script is at its end the thread still waits ([Switch]).  [log] records what
    became of timeouts; the code does not read it. *)

From stdpp Require Import base list strings.
From Stdlib Require Import ZArith Lia.
From S2P Require Import Prelude Mmu Thread Itc.

(** A handler: none, that of [sys_sem_wait_timeout], or another function. *)
Inductive sys_timeout_handler : Type := H_null | H_sswt | H_user (f : Z).

#[export] Instance sys_timeout_handler_eq_dec : EqDecision sys_timeout_handler.
Proof. solve_decision. Defined.

Record sys_timeo := MkTimeo { tm_time : Z; tm_h : sys_timeout_handler; tm_arg : Z }.
Record sswt_cb := MkSswt { timeflag : Z; psem : Z }.

Inductive tevent : Type :=
| Set_at (at_ msecs : Z) (h : sys_timeout_handler) (arg : Z)
| Ended_at (at_ : Z) (h : sys_timeout_handler) (arg : Z)
| Unset_at (at_ : Z) (h : sys_timeout_handler) (arg : Z).

(** [table] has for each bucket the threads with their timeouts, [avail] is the number of
    free elements of the pool [MEMP_SYS_TIMEOUT], [mallocs] what the next calls of [malloc]
    come to, and [cbs] the [struct sswt_cb] at each address. *)
Record tmst := MkTmst {
  base : itc; table : Z → list (Z * list sys_timeo); avail : Z; mallocs : list bool;
  cbs : Z → sswt_cb; script : list (Z * (itc → itc)); log : list tevent }.

Definition set_base (x : itc) (s : tmst) : tmst := MkTmst x (table s) (avail s) (mallocs s) (cbs s) (script s) (log s).
Definition set_table (x : Z → list (Z * list sys_timeo)) (s : tmst) : tmst := MkTmst (base s) x (avail s) (mallocs s) (cbs s) (script s) (log s).
Definition set_avail (x : Z) (s : tmst) : tmst := MkTmst (base s) (table s) x (mallocs s) (cbs s) (script s) (log s).
Definition set_mallocs (x : list bool) (s : tmst) : tmst := MkTmst (base s) (table s) (avail s) x (cbs s) (script s) (log s).
Definition set_cbs (x : Z → sswt_cb) (s : tmst) : tmst := MkTmst (base s) (table s) (avail s) (mallocs s) x (script s) (log s).
Definition set_script (x : list (Z * (itc → itc))) (s : tmst) : tmst := MkTmst (base s) (table s) (avail s) (mallocs s) (cbs s) x (log s).
Definition add_log (x : Z → tevent) (s : tmst) : tmst :=
  MkTmst (base s) (table s) (avail s) (mallocs s) (cbs s) (script s) (log s ++ [x (now (base s))]).

Definition on_base {A} (m : M itc A) : M tmst A := zoom base set_base m.

(** ** The table of threads *)

Definition thread_hash_size : Z := 257.
(** The address of [timeout_cleanup]. *)
Definition cleanup_fn : Z := 1.

Fixpoint get_tmo (tid : Z) (l : list (Z * list sys_timeo)) : option (list sys_timeo) :=
  match l with [] => None | (t, x) :: l' => if t =? tid then Some x else get_tmo tid l' end.
Fixpoint put_tmo (tid : Z) (x : list sys_timeo) (l : list (Z * list sys_timeo)) : list (Z * list sys_timeo) :=
  match l with [] => [] | (t, y) :: l' => if t =? tid then (t, x) :: l' else (t, y) :: put_tmo tid x l' end.
Fixpoint drop_tmo (tid : Z) (l : list (Z * list sys_timeo)) : list (Z * list sys_timeo) :=
  match l with [] => [] | (t, y) :: l' => if t =? tid then l' else (t, y) :: drop_tmo tid l' end.

Definition bucket (tid : Z) (s : tmst) : list (Z * list sys_timeo) := table s (tid mod thread_hash_size).
Definition set_bucket (tid : Z) (x : list (Z * list sys_timeo)) (s : tmst) : tmst := set_table (upd (table s) (tid mod thread_hash_size) x) s.

(** The thread's element is freed; the timeouts that are linked to it are not. *)
Definition timeout_cleanup (tid : Z) : M tmst unit := modify (λ s, set_bucket tid (drop_tmo tid (bucket tid s)) s).

(** The list is found by the thread's identifier. *)
Definition sys_arch_timeouts : M tmst Z :=
  let* tid := on_base (on_thr thread_id) in
  let* t := gets (λ s, get_tmo tid (bucket tid s)) in
  match t with
  | Some _ => ret tid
  | None =>
      let* m := gets mallocs in
      match m with
      | true :: m' =>
          do* modify (set_mallocs m') in
          let* r := on_base (on_thr (thread_onhalt cleanup_fn)) in
          if r <? 0 then panic "thread_onhalt failed" else
          do* modify (λ s, set_bucket tid ((tid, []) :: bucket tid s) s) in
          ret tid
      | _ => panic "cannot malloc"
      end
  end.

Definition timeouts (tid : Z) : M tmst (list sys_timeo) := gets (λ s, default [] (get_tmo tid (bucket tid s))).
Definition put_timeouts (tid : Z) (x : list sys_timeo) : M tmst unit := modify (λ s, set_bucket tid (put_tmo tid x (bucket tid s)) s).

(** ** Setting and taking back *)

Definition less (d : Z) (t : sys_timeo) : sys_timeo := MkTimeo (u32 (tm_time t - d)) (tm_h t) (tm_arg t).
Definition more (d : Z) (t : sys_timeo) : sys_timeo := MkTimeo (u32 (tm_time t + d)) (tm_h t) (tm_arg t).

(** The walk of [sys_timeout] from [t] on; [time] is what is left of the new timeout. *)
Fixpoint insert_after (time : Z) (h : sys_timeout_handler) (arg : Z) (t : sys_timeo) (l : list sys_timeo) : list sys_timeo :=
  let time := u32 (time - tm_time t) in
  match l with
  | [] => [t; MkTimeo time h arg]
  | t' :: l' => if time <? tm_time t' then t :: MkTimeo time h arg :: less time t' :: l' else t :: insert_after time h arg t' l'
  end.

Definition insert_timeout (msecs : Z) (h : sys_timeout_handler) (arg : Z) (l : list sys_timeo) : list sys_timeo :=
  match l with
  | [] => [MkTimeo msecs h arg]
  | t :: l' => if msecs <? tm_time t then MkTimeo msecs h arg :: less msecs t :: l' else insert_after msecs h arg t l'
  end.

Definition sys_timeout (msecs : Z) (h : sys_timeout_handler) (arg : Z) : M tmst unit :=
  let* n := gets avail in
  if n =? 0 then panic "sys_timeout: timeout != NULL" else
  do* modify (set_avail (n - 1)) in
  let* tid := sys_arch_timeouts in
  let* l := timeouts tid in
  do* put_timeouts tid (insert_timeout msecs h arg l) in
  modify (add_log (λ n, Set_at n msecs h arg)).

(** [None]: there is no such timeout. *)
Fixpoint remove_timeout (h : sys_timeout_handler) (arg : Z) (l : list sys_timeo) : option (list sys_timeo) :=
  match l with
  | [] => None
  | t :: l' =>
      if bool_decide (tm_h t = h) && (tm_arg t =? arg)
      then Some (match l' with [] => [] | t' :: l'' => more (tm_time t) t' :: l'' end)
      else match remove_timeout h arg l' with None => None | Some x => Some (t :: x) end
  end.

Definition memp_free_timeout : M tmst unit := modify (λ s, set_avail (avail s + 1) s).

Definition sys_untimeout (h : sys_timeout_handler) (arg : Z) : M tmst unit :=
  let* tid := sys_arch_timeouts in
  let* l := timeouts tid in
  match remove_timeout h arg l with
  | None => ret tt
  | Some l' =>
      do* put_timeouts tid l' in
      do* memp_free_timeout in
      modify (add_log (λ n, Unset_at n h arg))
  end.

(** ** Waiting while other threads run *)

Definition others_run (dt : Z) (g : itc → itc) (l : list (Z * (itc → itc))) : M tmst unit :=
  modify (λ s, set_script l (set_base (g (set_now (now (base s) + dt) (base s))) s)).

Fixpoint sem_drive (l : list (Z * (itc → itc))) (r : wres) : M tmst Z :=
  match r with
  | Got n => ret n
  | Timed_out => ret SYS_ARCH_TIMEOUT
  | Blocked w =>
      match l with
      | [] => switch
      | (dt, g) :: l' => do* others_run dt g l' in let* r' := on_base (sem_resume w) in sem_drive l' r'
      end
  end.

Definition arch_sem_wait (sem tm : Z) : M tmst Z :=
  let* r := on_base (sys_arch_sem_wait sem tm) in
  let* l := gets script in
  sem_drive l r.

Fixpoint fetch_drive (l : list (Z * (itc → itc))) (o : outcome_of) : M tmst (Z * option Z) :=
  match o with
  | Done n m => ret (n, m)
  | Waits k =>
      match l with
      | [] => switch
      | (dt, g) :: l' => do* others_run dt g l' in let* o' := on_base (resume k) in fetch_drive l' o'
      end
  end.

Definition arch_mbox_fetch (mbox tm : Z) : M tmst (Z * option Z) :=
  let* o := on_base (sys_arch_mbox_fetch mbox tm) in
  let* l := gets script in
  fetch_drive l o.

(** What the function [f] does about timeouts when it is called with [arg]. *)
Inductive tcall : Type := Timeout (msecs : Z) (h : sys_timeout_handler) (arg : Z) | Untimeout (h : sys_timeout_handler) (arg : Z).

Definition run_tcall (c : tcall) : M tmst unit :=
  match c with Timeout msecs h arg => sys_timeout msecs h arg | Untimeout h arg => sys_untimeout h arg end.

Fixpoint run_tcalls (l : list tcall) : M tmst unit :=
  match l with [] => ret tt | c :: l' => do* run_tcall c in run_tcalls l' end.

Definition sswt_handler (arg : Z) : M tmst unit :=
  let* cb := gets (λ s, cbs s arg) in
  do* modify (λ s, set_cbs (upd (cbs s) arg (MkSswt 1 (psem cb))) s) in
  on_base (sys_sem_signal (psem cb)).

Section handlers.
Context (body : Z → Z → tmst → list tcall).

(** [if (h != NULL) h(arg)]. *)
Definition call_handler (h : sys_timeout_handler) (arg : Z) : M tmst unit :=
  match h with
  | H_null => ret tt
  | H_sswt => sswt_handler arg
  | H_user f => let* l := gets (body f arg) in run_tcalls l
  end.

(** The first timeout has run off. *)
Definition run_off (tid : Z) (t : sys_timeo) (l : list sys_timeo) : M tmst unit :=
  do* put_timeouts tid l in
  do* memp_free_timeout in
  do* modify (add_log (λ n, Ended_at n (tm_h t) (tm_arg t))) in
  call_handler (tm_h t) (tm_arg t).

(** The first timeout after a wait of [time_needed]. *)
Definition count_down (time_needed : Z) (t : sys_timeo) : sys_timeo :=
  MkTimeo (if time_needed <? tm_time t then tm_time t - time_needed else 0) (tm_h t) (tm_arg t).

(** Each jump to [again] takes one of [fuel]; what is done after that many is not shown. *)
Fixpoint sys_mbox_fetch (fuel : nat) (mbox : Z) : M tmst (option Z) :=
  match fuel with
  | O => switch
  | S fuel' =>
      let* tid := sys_arch_timeouts in
      let* l := timeouts tid in
      match l with
      | [] => let* r := arch_mbox_fetch mbox 0 in ret (snd r)
      | t :: l' =>
          let* r := if 0 <? tm_time t then arch_mbox_fetch mbox (tm_time t) else ret (SYS_ARCH_TIMEOUT, None) in
          if fst r =? SYS_ARCH_TIMEOUT then do* run_off tid t l' in sys_mbox_fetch fuel' mbox
          else do* put_timeouts tid (count_down (fst r) t :: l') in ret (snd r)
      end
  end.

Fixpoint sys_sem_wait (fuel : nat) (sem : Z) : M tmst unit :=
  match fuel with
  | O => switch
  | S fuel' =>
      let* tid := sys_arch_timeouts in
      let* l := timeouts tid in
      match l with
      | [] => do* arch_sem_wait sem 0 in ret tt
      | t :: l' =>
          let* r := if 0 <? tm_time t then arch_sem_wait sem (tm_time t) else ret SYS_ARCH_TIMEOUT in
          if r =? SYS_ARCH_TIMEOUT then do* run_off tid t l' in sys_sem_wait fuel' sem
          else put_timeouts tid (count_down r t :: l')
      end
  end.

(** [cb] is the address of the local [sswt_cb]. *)
Definition sys_sem_wait_timeout (fuel : nat) (cb sem timeout : Z) : M tmst Z :=
  do* modify (λ s, set_cbs (upd (cbs s) cb (MkSswt 0 sem)) s) in
  do* (if 0 <? timeout then sys_timeout timeout H_sswt cb else ret tt) in
  do* sys_sem_wait fuel sem in
  let* c := gets (λ s, cbs s cb) in
  if ctrue (timeflag c) then ret 0
  else do* sys_untimeout H_sswt cb in ret 1.

Definition sys_msleep (fuel : nat) (cb ms : Z) : M tmst unit :=
  let* delaysem := on_base (sys_sem_new 0) in
  do* sys_sem_wait_timeout fuel cb delaysem ms in
  on_base (sys_sem_free delaysem).

(** ** A thread that uses timeouts and waits *)

Inductive tprog : Type := Call (c : tcall) | Wait_sem (sem : Z) | Fetch_mbox (mbox : Z).

Definition run_prog1 (fuel : nat) (p : tprog) : M tmst unit :=
  match p with
  | Call c => run_tcall c
  | Wait_sem sem => sys_sem_wait fuel sem
  | Fetch_mbox mbox => do* sys_mbox_fetch fuel mbox in ret tt
  end.

Fixpoint run_prog (fuel : nat) (l : list tprog) : M tmst unit :=
  match l with [] => ret tt | p :: l' => do* run_prog1 fuel p in run_prog fuel l' end.
End handlers.

(** ** When the timeouts are due *)

Abbreviation what := (sys_timeout_handler * Z)%type.

(** Each timeout with its time counted from now, [from] in all. *)
Fixpoint due (from : Z) (l : list sys_timeo) : list (Z * what) :=
  match l with [] => [] | t :: l' => (from + tm_time t, (tm_h t, tm_arg t)) :: due (from + tm_time t) l' end.

(** A list sorted by time: insertion after what is not later, and removal of the first. *)
Fixpoint place (m : Z) (x : what) (l : list (Z * what)) : list (Z * what) :=
  match l with [] => [(m, x)] | y :: l' => if m <? fst y then (m, x) :: y :: l' else y :: place m x l' end.
Fixpoint drop_first (x : what) (l : list (Z * what)) : option (list (Z * what)) :=
  match l with
  | [] => None
  | y :: l' => if bool_decide (snd y = x) then Some l' else match drop_first x l' with None => None | Some r => Some (y :: r) end
  end.

Definition sound_times (l : list sys_timeo) : Prop := Forall (λ t, 0 ≤ tm_time t < 2 ^ 31) l ∧ Forall (λ x, fst x < 2 ^ 31) (due 0 l).

Lemma due_shift d l : ∀ from, due (from + d) l = (λ x, (fst x + d, snd x)) <$> due from l.
Proof.
  induction l as [|t l IH]; intros from; [done|]. cbn. f_equal; [f_equal; lia|]. rewrite <- IH. f_equal. lia.
Qed.

Lemma due_low from l : Forall (λ t, 0 ≤ tm_time t < 2 ^ 31) l → Forall (λ x, from ≤ fst x) (due from l).
Proof.
  intros H. revert from. induction H as [|t l Ht _ IH]; intros from; cbn; constructor; [cbn; lia|].
  eapply Forall_impl; [apply IH|]. cbn. lia.
Qed.

Lemma insert_after_due h arg l : ∀ t time from, 0 ≤ tm_time t ≤ time → time < 2 ^ 31 → Forall (λ t, 0 ≤ tm_time t < 2 ^ 31) l →
  due from (insert_after time h arg t l) = place (from + time) (h, arg) (due from (t :: l)) ∧ Forall (λ t, 0 ≤ tm_time t < 2 ^ 31) (insert_after time h arg t l).
Proof.
  induction l as [|t' l IH]; intros t time from Ht Htime Hl; cbn [insert_after due place fst]; rewrite (u32_small (time - _)) by (unfold is_u32; lia);
    (destruct (Z.ltb_spec (from + time) (from + tm_time t)); [lia|]).
  - split; [cbn; by replace (from + tm_time t + (time - tm_time t)) with (from + time) by lia|]. repeat constructor; cbn; lia.
  - apply Forall_cons in Hl as [Ht' Hl]. destruct (Z.ltb_spec (time - tm_time t) (tm_time t')).
    + destruct (Z.ltb_spec (from + time) (from + tm_time t + tm_time t')); [|lia]. cbn [due]. split.
      * unfold less. cbn. rewrite u32_small by (unfold is_u32; lia). replace (from + tm_time t + (time - tm_time t)) with (from + time) by lia.
        by replace (from + time + (tm_time t' - (time - tm_time t))) with (from + tm_time t + tm_time t') by lia.
      * repeat constructor; try done; cbn; rewrite ?u32_small by (unfold is_u32; lia); lia.
    + destruct (Z.ltb_spec (from + time) (from + tm_time t + tm_time t')); [lia|]. destruct (IH t' (time - tm_time t) (from + tm_time t)) as [IH1 IH2]; [lia|lia|done|].
      split; [|constructor; [lia|done]]. cbn [due]. f_equal. rewrite IH1. cbn [due place fst]. replace (from + tm_time t + (time - tm_time t)) with (from + time) by lia.
      by destruct (Z.ltb_spec (from + time) (from + tm_time t + tm_time t')); [lia|].
Qed.

Lemma place_app m x l : ∃ l1 l2, l = l1 ++ l2 ∧ place m x l = l1 ++ (m, x) :: l2.
Proof.
  induction l as [|y l (l1 & l2 & E & IH)]; cbn; [by exists [], []|]. destruct (m <? fst y); [by exists [], (y :: l)|].
  exists (y :: l1), l2. rewrite IH, E. done.
Qed.

Lemma drop_first_app x l r : drop_first x l = Some r → ∃ l1 d l2, l = l1 ++ (d, x) :: l2 ∧ r = l1 ++ l2.
Proof.
  revert r. induction l as [|[d y] l IH]; intros r; cbn; [done|]. case_bool_decide as E; [intros [= <-]; subst; by exists [], d, l|].
  destruct (drop_first x l) as [r'|]; [|done]. intros [= <-]. destruct (IH r' eq_refl) as (l1 & d' & l2 & -> & ->). by exists ((d, y) :: l1), d', l2.
Qed.

(** [sys_timeout] keeps the list sorted by time, the new timeout after those due no later. *)
Lemma insert_due msecs h arg l : sound_times l → 0 ≤ msecs < 2 ^ 31 →
  due 0 (insert_timeout msecs h arg l) = place msecs (h, arg) (due 0 l) ∧ sound_times (insert_timeout msecs h arg l).
Proof.
  intros [Hl Hd] Hm. assert (due 0 (insert_timeout msecs h arg l) = place msecs (h, arg) (due 0 l) ∧ Forall (λ t, 0 ≤ tm_time t < 2 ^ 31) (insert_timeout msecs h arg l)) as [E F].
  { destruct l as [|t l]; [split; [done|]; repeat constructor; cbn; lia|]. apply Forall_cons in Hl as [Ht Hl]. cbn [insert_timeout]. destruct (Z.ltb_spec msecs (tm_time t)).
    - apply Forall_cons in Hd as [Hdt _]. cbn in Hdt. cbn. rewrite !Z.add_0_l. destruct (Z.ltb_spec msecs (tm_time t)); [|lia]. rewrite u32_small by (unfold is_u32; lia).
      split; [by replace (msecs + (tm_time t - msecs)) with (tm_time t) by lia|].
      constructor; [done|]. constructor; [|done]. cbn. rewrite u32_small by (unfold is_u32; lia). lia.
    - destruct (insert_after_due h arg l t msecs 0) as [E F]; [lia|lia|done|]. split; [by rewrite E|done]. }
  split; [done|]. split; [done|]. rewrite E. destruct (place_app msecs (h, arg) (due 0 l)) as (l1 & l2 & El & ->). rewrite El in Hd. apply Forall_app in Hd as [H1 H2].
  apply Forall_app. split; [done|]. constructor; [cbn; lia|done].
Qed.

(** [sys_untimeout] takes one out, and the others are due when they were. *)
Lemma remove_due h arg l : ∀ from, 0 ≤ from → Forall (λ t, 0 ≤ tm_time t < 2 ^ 31) l → Forall (λ x, fst x < 2 ^ 31) (due from l) →
  match remove_timeout h arg l with
  | None => drop_first (h, arg) (due from l) = None
  | Some l' => drop_first (h, arg) (due from l) = Some (due from l') ∧ Forall (λ t, 0 ≤ tm_time t < 2 ^ 31) l'
  end.
Proof.
  induction l as [|t l IH]; intros from Hf Hl Hd; [done|]. apply Forall_cons in Hl as [Ht Hl]. cbn [due] in Hd. apply Forall_cons in Hd as [Hdt Hd]. cbn in Hdt.
  cbn [remove_timeout due drop_first snd]. destruct (bool_decide (tm_h t = h) && (tm_arg t =? arg)) eqn:Em.
  - apply andb_true_iff in Em as [E1%bool_decide_eq_true E2%Z.eqb_eq]. rewrite bool_decide_true by congruence. destruct l as [|t' l]; [done|].
    apply Forall_cons in Hl as [Ht' Hl]. cbn [due] in Hd. apply Forall_cons in Hd as [Hdt' Hd]. cbn in Hdt'. unfold more. cbn. rewrite u32_small by (unfold is_u32; lia).
    split; [by replace (from + (tm_time t' + tm_time t)) with (from + tm_time t + tm_time t') by lia|]. constructor; [cbn; lia|done].
  - rewrite bool_decide_false by (intros [= E1 E2]; rewrite E1, E2, bool_decide_true, Z.eqb_refl in Em; done). specialize (IH (from + tm_time t) ltac:(lia) Hl Hd).
    destruct (remove_timeout h arg l) as [l'|]; [destruct IH as [-> IH]|by rewrite IH]. split; [done|]. by constructor.
Qed.

(** ** What timeouts are for

    The abstract timers: a multiset of deadlines.  A timeout that ran off was set before,
    its deadline is past, and it is gone. *)
Inductive timers : list tevent → list (Z * what) → Prop :=
| timers_nil : timers [] []
| timers_set l p p' at_ msecs h arg : timers l p → p' ≡ₚ (at_ + msecs, (h, arg)) :: p → timers (l ++ [Set_at at_ msecs h arg]) p'
| timers_ended l p p' at_ d h arg : timers l p → p ≡ₚ (d, (h, arg)) :: p' → d ≤ at_ → timers (l ++ [Ended_at at_ h arg]) p'
| timers_unset l p p' at_ d h arg : timers l p → p ≡ₚ (d, (h, arg)) :: p' → timers (l ++ [Unset_at at_ h arg]) p'.

(** Nothing in the list is due before its deadline. *)
Definition keeps (at_ : Z) (p : Z * what) (x : Z * what) : Prop := snd p = snd x ∧ fst p ≤ at_ + fst x.

(** ** Waiting, with the time it took *)

Definition spent (l : list (Z * (itc → itc))) : Z := foldr (λ x n, fst x + n) 0 l.

Lemma spent_app l1 l2 : spent (l1 ++ l2) = spent l1 + spent l2.
Proof. induction l1 as [|x l1 IH]; [done|]. change (fst x + spent (l1 ++ l2) = fst x + spent l1 + spent l2). lia. Qed.

Lemma spent_cons x l : spent (x :: l) = fst x + spent l.
Proof. done. Qed.

Section waiting.
Context (b : Z) (used : Z → Prop).

(** The semaphores that the thread waits on: those in [used] and those of the mailbox. *)
Definition held (s : itc) (j : Z) : Prop := used j ∨ j = queued_msg (mboxes s b) ∨ j = free_msg (mboxes s b).

(** What other threads leave alone: the thread, the semaphores that it waits on, which they
    neither free nor make anew, and the mailbox [b], which they use as a mailbox. *)
Record calm (s s' : itc) : Prop := {
  c_who : who s' = who s; c_gen j : held s j → gen (sems s' j) = gen (sems s j); c_freed j : held s j → s_freed (sems s' j) = s_freed (sems s j);
  c_q : queued_msg (mboxes s' b) = queued_msg (mboxes s b); c_f : free_msg (mboxes s' b) = free_msg (mboxes s b) }.

Definition world (s : itc) : Prop := (∃ q, holds b q 0 0 s) ∧ ∀ j, 0 ≤ counter (sems s j) < 2 ^ 16.

Definition quiet (x : Z * (itc → itc)) : Prop :=
  0 ≤ fst x ∧ ∀ s, world s → calm s (snd x s) ∧ world (snd x s) ∧ now (snd x s) = now s.

Lemma calm_refl s : calm s s.
Proof. by split. Qed.

Lemma calm_trans s s1 s2 : calm s s1 → calm s1 s2 → calm s s2.
Proof.
  intros [A1 A2 A3 A4 A5] [B1 B2 B3 B4 B5]. assert (∀ j, held s j → held s1 j) as Hh by (unfold held; rewrite A4, A5; done).
  split; [congruence| | |congruence..]; intros j Hj; [rewrite B2, A2|rewrite B3, A3]; auto.
Qed.

Lemma but_calm i d s s' : but i d s s' → calm s s'.
Proof. intros [B1 B2 B3 B4 B5 B6 B7 B8]. split; try done; by rewrite B4. Qed.

(** From [s] to [s'] the thread waited. *)
Record moved (s s' : tmst) : Prop := {
  m_table : table s' = table s; m_avail : avail s' = avail s; m_mallocs : mallocs s' = mallocs s; m_cbs : cbs s' = cbs s; m_log : log s' = log s;
  m_calm : calm (base s) (base s'); m_world : world (base s');
  m_script : ∃ l, script s = l ++ script s' ∧ now (base s') = now (base s) + spent l }.

Lemma moved_refl s : world (base s) → moved s s.
Proof. intros H. split; try done. exists []. split; [done|]. change (spent []) with 0. lia. Qed.

Lemma waited_trans s s1 s2 : moved s s1 → moved s1 s2 → moved s s2.
Proof.
  intros [A1 A2 A3 A4 A5 A6 A7 (l1 & A8 & A9)] [B1 B2 B3 B4 B5 B6 B7 (l2 & B8 & B9)]. split; try congruence; [by eapply calm_trans|].
  exists (l1 ++ l2). rewrite spent_app, A8, B8, <- app_assoc. split; [done|lia].
Qed.

Lemma moved_base s s' x : moved s s' → calm (base s') x → world x → now x = now (base s') → moved s (set_base x s').
Proof.
  intros [A1 A2 A3 A4 A5 A6 A7 (l1 & A8 & A9)] C W N. split; try done; [by eapply calm_trans|]. exists l1. split; [done|]. cbn. lia.
Qed.

(** The outcome of a wait of at most [tm] that took [e]: the time it took, or a timeout when
    the time is over. *)
Definition answer (tm e n : Z) : Prop := n = e ∨ n = SYS_ARCH_TIMEOUT ∧ tm ≠ 0 ∧ tm ≤ e.

Definition room_for (s : tmst) : Prop := 0 ≤ now (base s) ∧ now (base s) + spent (script s) < 2 ^ 31 ∧ Forall quiet (script s).

Lemma spent_nonneg l : Forall quiet l → 0 ≤ spent l.
Proof. induction 1 as [|x l [Hx _] _ IH]; [done|]. rewrite spent_cons. lia. Qed.

Lemma moved_room s s' : room_for s → moved s s' → room_for s' ∧ now (base s) ≤ now (base s').
Proof.
  intros (H1 & H2 & H3) [_ _ _ _ _ _ _ (l & E & En)]. rewrite E in H2, H3. rewrite spent_app in H2. apply Forall_app in H3 as [Hl Hs].
  pose proof (spent_nonneg l Hl). split; [|lia]. split_and!; [lia|lia|done].
Qed.

Lemma others_ok s dt g l : script s = (dt, g) :: l → world (base s) → room_for s →
  ∃ s', others_run dt g l s = Ret tt s' ∧ moved s s' ∧ script s' = l.
Proof.
  intros E W (H1 & H2 & H3). rewrite E in H3. apply Forall_cons in H3 as [[Hdt Hg] _]. cbn in Hdt, Hg. set (s1 := set_now (now (base s) + dt) (base s)).
  assert (world s1) as W1 by (destruct W as [[q []] Hc]; split; [exists q; by split|done]). destruct (Hg s1 W1) as (C & W2 & N).
  eexists. split; [reflexivity|]. split; [|done]. split; try done; cbn.
  - eapply calm_trans; [|exact C]. by split.
  - exists [(dt, g)]. split; [done|]. fold s1. rewrite N, spent_cons. change (spent []) with 0. cbn. lia.
Qed.

Lemma on_base_wp {A} (m : M itc A) a x (Q : A → tmst → Prop) X s : m (base s) = Ret a x → Q a (set_base x s) → wp (on_base m) Q X s.
Proof. intros E H. unfold wp, on_base, zoom. by rewrite E. Qed.

Lemma wp_same {A} (m m' : M tmst A) Q X s s' : m s = m' s' → wp m' Q X s' → wp m Q X s.
Proof. unfold wp. by intros ->. Qed.

Lemma noted_moved i tm s s' w : held (base s) i → room_for s → noted i tm (base s) w → moved s s' → noted i tm (base s') w.
Proof.
  intros Hh Hr [N1 N2 N3 N4 N5 N6 N7] Hm. destruct (moved_room s s' Hr Hm) as [_ Hn]. split; try done; [by rewrite (c_gen _ _ (m_calm _ _ Hm) i Hh)|lia].
Qed.

Lemma who_cur s : is_Some (who s) → is_Some (cur_tc (thr s)).
Proof. unfold who. intros [x H]. destruct (cur_tc (thr s)); [by eexists|done]. Qed.

Definition apart (i : Z) (s : itc) : Prop := i ≠ queued_msg (mboxes s b) ∧ i ≠ free_msg (mboxes s b).

Lemma but_world i d s s' : world s → but i d s s' → apart i s → 0 ≤ counter (sems s i) - d < 2 ^ 16 → world s'.
Proof.
  intros [[q H] Hc] B [Aq Af] Hd. pose proof H as []. split.
  - exists q. destruct B as [B1 B2 B3 B4 B5 B6 B7 B8]. split; rewrite ?B4, ?B3; try done; rewrite B1.
    + destruct (Z.eqb_spec (queued_msg (mboxes s b)) i); [by destruct Aq|lia].
    + destruct (Z.eqb_spec (free_msg (mboxes s b)) i); [by destruct Af|lia].
  - intros j. rewrite (but_counter _ _ _ _ B). destruct (Z.eqb_spec j i) as [->|]; [done|]. specialize (Hc j). lia.
Qed.

Lemma calm_apart i s s' : calm s s' → apart i s → apart i s'.
Proof. intros [] []. split; congruence. Qed.

Section law.
Context (i tm t0 : Z) (Hi : 0 ≤ i < NSEM) (Htm : 0 ≤ tm < 2 ^ 31) (Hu : used i).

(** What a wait comes to, from one switch to its end. *)
Lemma sem_drive_ok l : ∀ s x r n, script s = l → room_for s → world (base s) → apart i (base s) → is_Some (who (base s)) →
  waits i tm n (base s) x r → n = now (base s) - t0 →
  wp (sem_drive l r) (λ k s', moved s s' ∧ answer tm (now (base s') - t0) k) (moved s) (set_base x s).
Proof.
  induction l as [|[dt g] l IH]; intros s x r n Es Hr W Ap Hw Hwt En; (destruct r as [k| |w]; cbn [waits] in Hwt;
    [destruct Hwt as (Hc & [-> _] & Hb)|destruct Hwt as (H0 & Ht & Hb)|destruct Hwt as (Hc & _ & Hn & Ha & _ & Hb)]);
    (assert (moved s (set_base x s)) as Hm by (apply moved_base; [by apply moved_refl|by eapply but_calm|eapply but_world; [done|exact Hb|done|]; destruct W as [_ W]; specialize (W i); lia|by rewrite (but_now _ _ _ _ Hb)])).
  1,4: split; [done|]; left; cbn; rewrite (but_now _ _ _ _ Hb); lia.
  1,3: split; [done|]; right; split; [done|]; split; [done|]; cbn; rewrite (but_now _ _ _ _ Hb); unfold SYS_ARCH_NOWAIT in Ht; lia.
  { done. }
  cbn [sem_drive]. destruct (moved_room _ _ Hr Hm) as [Hr1 _]. destruct (others_ok (set_base x s) dt g l Es (m_world _ _ Hm) Hr1) as (s2 & E2 & Hm2 & Es2).
  apply wp_bind. unfold wp at 1. rewrite E2. pose proof (waited_trans _ _ _ Hm Hm2) as Hm3. destruct (moved_room _ _ Hr Hm3) as [Hr2 Hn2].
  pose proof (noted_moved i tm _ _ w (or_introl Hu) Hr1 Hn Hm2) as Hn3. assert (is_Some (who (base s2))) as Hw2 by (by rewrite (c_who _ _ (m_calm _ _ Hm3))).
  destruct (sem_resume_ok i Hi (base s2) w tm Hn3) as (k & r' & x' & Ek & E3 & Hwt'); [apply (m_world _ _ Hm3)|by apply who_cur|done|destruct Hr2 as (? & ? & ?%spent_nonneg); lia|].
  apply wp_bind. eapply on_base_wp; [exact E3|]. eapply wp_mono.
  - eapply IH; [done|done|exact (m_world _ _ Hm3)|eapply calm_apart; [exact (m_calm _ _ Hm3)|done]|done|exact Hwt'|]. lia.
  - intros a s' [H1 H2]. split; [by eapply waited_trans|done].
  - intros s' H1. by eapply waited_trans.
Qed.
End law.

(** A wait for a semaphore takes the time it says, and a timeout means that the time is over. *)
Lemma arch_sem_wait_ok i tm s : used i → 0 ≤ i < NSEM → 0 ≤ tm < 2 ^ 31 → room_for s → world (base s) → apart i (base s) → is_Some (who (base s)) →
  s_freed (sems (base s) i) = false →
  wp (arch_sem_wait i tm) (λ k s', moved s s' ∧ answer tm (now (base s') - now (base s)) k) (moved s) s.
Proof.
  intros Hu Hi Htm Hr W Ap Hw Hf. destruct Hr as (R1 & R2 & R3) eqn:ER. clear ER. pose proof (spent_nonneg _ R3). unfold arch_sem_wait. apply wp_bind.
  destruct (sem_wait_ok i tm (base s) Hi Hf) as (r & x & E & Hwt); [apply W|by apply who_cur|by left|lia|]. eapply on_base_wp; [exact E|]. apply wp_bind, wp_gets.
  apply (sem_drive_ok i tm (now (base s)) Hi Htm Hu _ s x r 0); try done. lia.
Qed.

Lemma kept_calm s s' : kept b s s' → calm s s'.
Proof. intros [K1 K2 K3 K4 [K5 K6] K7 K8 K9]. by split. Qed.

Lemma kept_world q s s' : world s → kept b s s' → holds b q 0 0 s' → world s'.
Proof.
  intros [_ Hc] K H. split; [by exists q|]. intros j. pose proof (k_sems _ _ _ K) as [E1 E2]. pose proof (h_qc _ _ _ _ _ H) as Hqc. pose proof (h_fc _ _ _ _ _ H) as Hfc. pose proof (h_len _ _ _ _ _ H).
  destruct (decide (j = queued_msg (mboxes s b))) as [->|Hq]; [rewrite <- E1, Hqc; unfold MBOXSLOTS in *; lia|].
  destruct (decide (j = free_msg (mboxes s b))) as [->|Hf]; [rewrite <- E2, Hfc; unfold MBOXSLOTS in *; lia|]. rewrite (k_other _ _ _ K) by done. apply Hc.
Qed.

(** The end of a fetch whose wait came to [r]. *)
Lemma fetch_after_ok q tm n s x r : world s → holds b q 0 0 s → waits (queued_msg (mboxes s b)) tm n s x r → 0 ≤ tm < 2 ^ 31 → 0 ≤ n < 2 ^ 31 →
  ∃ o x', fetch_after b r x = Ret o x' ∧ calm s x' ∧ world x' ∧ now x' = now s ∧
    match o with Done k _ => answer tm n k | Waits k => ∃ w, k = In_fetch b w ∧ r = Blocked w ∧ x' = x end.
Proof.
  intros W H Hwt Htm Hn. destruct r as [n'| |w]; cbn [waits] in Hwt.
  - destruct Hwt as (Hc & [-> _] & Hb). pose proof (holds_queued b q 0 0 1 _ _ H Hb) as H1. rewrite (h_qc _ _ _ _ _ H) in Hc. destruct q as [|y q]; [cbn in Hc; lia|].
    destruct (fetch_finish_ok b y q x n H1) as (x' & E & H2 & K2). assert (kept b s x') as K by (eapply unchanged_trans; [eapply kept_but; [|exact Hb]; auto|done]).
    exists (Done n (Some y)), x'. cbn [fetch_after]. unfold SYS_ARCH_TIMEOUT. rewrite (proj2 (Z.eqb_neq n 4294967295)) by lia.
    split_and!; [done|by apply kept_calm|by eapply kept_world|by rewrite (k_now _ _ _ K)|by left].
  - destruct Hwt as (H0 & Ht & Hb). exists (Done SYS_ARCH_TIMEOUT None), x. split_and!; [done|by eapply but_calm| |by rewrite (but_now _ _ _ _ Hb)|].
    + eapply kept_world; [done|eapply kept_but; [|exact Hb]; auto|exact (holds_queued b q 0 0 0 _ _ H Hb)].
    + right. split; [done|]. split; [done|]. unfold SYS_ARCH_NOWAIT in Ht. lia.
  - destruct Hwt as (_ & _ & _ & _ & _ & Hb). exists (Waits (In_fetch b w)), x. split_and!; [done|by eapply but_calm| |by rewrite (but_now _ _ _ _ Hb)|by exists w].
    eapply kept_world; [done|eapply kept_but; [|exact Hb]; auto|exact (holds_queued b q 0 0 0 _ _ H Hb)].
Qed.

Section fetch_law.
Context (tm t0 : Z) (Htm : 0 ≤ tm < 2 ^ 31) (Ht0 : 0 ≤ t0).

Lemma fetch_drive_ok l : ∀ s x r n, script s = l → room_for s → world (base s) → is_Some (who (base s)) →
  waits (queued_msg (mboxes (base s) b)) tm n (base s) x r → n = now (base s) - t0 → t0 ≤ now (base s) →
  wp (let* o := on_base (fetch_after b r) in fetch_drive l o) (λ k s', moved s s' ∧ answer tm (now (base s') - t0) (fst k)) (moved s) (set_base x s).
Proof.
  induction l as [|[dt g] l IH]; intros s x r n Es Hr W Hw Hwt En Hle; pose proof W as [[q H] _]; pose proof Hr as (R1 & R2 & R3);
    pose proof (spent_nonneg _ R3); destruct (fetch_after_ok q tm n (base s) x r W H Hwt Htm ltac:(lia)) as (o & x' & E & C & W' & N & Ho);
    (assert (moved s (set_base x' s)) as Hm by (by apply moved_base; [by apply moved_refl|..])); apply wp_bind; (eapply on_base_wp; [exact E|]);
    destruct o as [k m|k]; cbn [fetch_drive].
  1,3: split; [done|]; cbn; by rewrite N, <- En.
  { exact Hm. }
  destruct Ho as (w & -> & -> & ->). cbn [waits] in Hwt. destruct Hwt as (Hc & _ & Hn & Ha & _ & Hb). change (set_base x (set_base x s)) with (set_base x s).
  destruct (moved_room _ _ Hr Hm) as [Hr1 _]. destruct (others_ok (set_base x s) dt g l Es W' Hr1) as (s2 & E2 & Hm2 & Es2).
  apply wp_bind. unfold wp at 1. rewrite E2. pose proof (waited_trans _ _ _ Hm Hm2) as Hm3. destruct (moved_room _ _ Hr Hm3) as [Hr2 Hn2].
  set (i := queued_msg (mboxes (base s) b)) in *. assert (queued_msg (mboxes (base s2) b) = i) as Ei by (by rewrite (c_q _ _ (m_calm _ _ Hm3))).
  assert (held (base (set_base x s)) i) as Hh by (right; left; symmetry; exact (c_q _ _ (m_calm _ _ Hm))).
  pose proof (noted_moved i tm _ _ w Hh Hr1 Hn Hm2) as Hn3. assert (is_Some (who (base s2))) as Hw2 by (by rewrite (c_who _ _ (m_calm _ _ Hm3))).
  destruct (sem_resume_ok i (h_q _ _ _ _ _ H) (base s2) w tm Hn3) as (k & r' & y & Ek & E3 & Hwt'); [apply (m_world _ _ Hm3)|by apply who_cur|done|destruct Hr2 as (? & ? & ?%spent_nonneg); lia|].
  rewrite <- Ei in Hwt'. eapply (wp_same _ (let* o := on_base (fetch_after b r') in fetch_drive l o) _ _ _ (set_base y s2)).
  { unfold on_base, zoom, bind. cbn [resume]. unfold bind. rewrite E3. done. }
  eapply wp_mono.
  - eapply IH; [done|done|exact (m_world _ _ Hm3)|done|exact Hwt'| |]; lia.
  - intros a s' [H1 H2]. split; [by eapply waited_trans|done].
  - intros s' H1. by eapply waited_trans.
Qed.
End fetch_law.

(** The same of a fetch from the mailbox. *)
Lemma arch_mbox_fetch_ok tm s : 0 ≤ tm < 2 ^ 31 → room_for s → world (base s) → is_Some (who (base s)) →
  wp (arch_mbox_fetch b tm) (λ k s', moved s s' ∧ answer tm (now (base s') - now (base s)) (fst k)) (moved s) s.
Proof.
  intros Htm Hr W Hw. pose proof Hr as (R1 & R2 & R3). pose proof (spent_nonneg _ R3) as Hs. pose proof W as [[q H] Hc].
  destruct (sem_wait_ok (queued_msg (mboxes (base s) b)) tm (base s)) as (r & x & E & Hwt); [apply H|apply H|apply Hc|by apply who_cur|by left|lia|].
  eapply (wp_same _ (let* o := on_base (fetch_after b r) in fetch_drive (script s) o) _ _ _ (set_base x s)).
  - unfold arch_mbox_fetch, on_base, zoom, bind, gets. unfold sys_arch_mbox_fetch. rewrite (bind_eq _ _ _ _ _ (mbox_eq b (base s) (h_b _ _ _ _ _ H))), (h_live _ _ _ _ _ H).
    rewrite (bind_eq (massert (negb false)) _ _ tt _ eq_refl), (bind_eq _ _ _ _ _ E). cbn [base set_base]. by destruct (fetch_after b r x).
  - eapply fetch_drive_ok; try done; lia.
Qed.

(** ** The thread's timeouts *)

Definition mine (tid : Z) (s : tmst) : list sys_timeo := default [] (get_tmo tid (bucket tid s)).

Lemma get_put tid x l y : get_tmo tid l = Some y → get_tmo tid (put_tmo tid x l) = Some x.
Proof.
  induction l as [|[t z] l IH]; cbn; [done|]. destruct (Z.eqb_spec t tid) as [->|Hne]; cbn; [by rewrite Z.eqb_refl|]. rewrite (proj2 (Z.eqb_neq _ _) Hne). done.
Qed.

Lemma bucket_set tid x s : bucket tid (set_bucket tid x s) = x.
Proof. unfold bucket, set_bucket. cbn. by apply upd_eq. Qed.

(** [k] timeouts can still be set by the program. *)
Record tinv (tid k : Z) (s : tmst) : Prop := {
  ti_who : ∃ hs, who (base s) = Some (tid, hs) ∧ (get_tmo tid (bucket tid s) = None → Z.of_nat (length hs) < THREAD_NUM_ONHALT ∧ ∃ m, mallocs s = true :: m);
  ti_times : sound_times (mine tid s);
  ti_user : Forall (λ t, tm_h t ≠ H_sswt) (mine tid s);
  ti_avail : k ≤ avail s; ti_pool : 0 ≤ k;
  ti_log : ∃ p, timers (log s) p ∧ Forall2 (keeps (now (base s))) p (due 0 (mine tid s));
  ti_world : world (base s); ti_room : room_for s;
  ti_used i : used i → 0 ≤ i < NSEM ∧ apart i (base s) ∧ s_freed (sems (base s) i) = false }.

Lemma tinv_put tid k k' s s' l : tinv tid k s → base s' = base s → script s' = script s → get_tmo tid (bucket tid s') = Some l →
  sound_times l → Forall (λ t, tm_h t ≠ H_sswt) l → k' ≤ avail s' → 0 ≤ k' → (∃ p, timers (log s') p ∧ Forall2 (keeps (now (base s))) p (due 0 l)) → tinv tid k' s'.
Proof.
  intros [T1 T2 T3 T4 T5 T6 T7 T8 T9] Eb Es El H1 H2 H3 H4 H5. assert (mine tid s' = l) as Em by (unfold mine; by rewrite El). split; rewrite ?Em, ?Eb; try done.
  - destruct T1 as (hs & E & _). exists hs. rewrite El. done.
  - unfold room_for in *. by rewrite Eb, Es.
Qed.

Lemma arch_timeouts_ok tid k s : tinv tid k s → ∃ s', sys_arch_timeouts s = Ret tid s' ∧ tinv tid k s' ∧ get_tmo tid (bucket tid s') = Some (mine tid s) ∧
  mine tid s' = mine tid s ∧ avail s' = avail s ∧ log s' = log s ∧ now (base s') = now (base s) ∧ cbs s' = cbs s ∧ script s' = script s ∧ sems (base s') = sems (base s).
Proof.
  intros T. pose proof (ti_who _ _ _ T) as (hs & Ew & Hn). unfold sys_arch_timeouts, who in *. destruct (cur_tc (thr (base s))) as [c|] eqn:Ec; [|done]. injection Ew as Et Eh.
  assert (on_base (on_thr thread_id) s = Ret tid s) as E1.
  { unfold on_base, on_thr, zoom, thread_id, bind, self. rewrite Ec. cbn. rewrite Et. destruct s as [[] ? ? ? ? ? ?]. done. }
  rewrite (bind_eq _ _ _ _ _ E1), (bind_eq (gets _) _ _ _ _ eq_refl). destruct (get_tmo tid (bucket tid s)) as [l|] eqn:El.
  { exists s. split; [done|]. split; [done|]. unfold mine. rewrite El. done. }
  destruct (Hn eq_refl) as [Hl [m Em]]. rewrite (bind_eq (gets _) _ _ _ _ eq_refl), Em, (bind_eq (modify _) _ _ _ _ eq_refl).
  set (s1 := set_mallocs m s). set (t1 := set_cur (Some (add_onhalt cleanup_fn c)) (thr (base s))). set (s2 := set_base (set_thr t1 (base s)) s1).
  assert (on_base (on_thr (thread_onhalt cleanup_fn)) s1 = Ret 0 s2) as E2.
  { unfold on_base, on_thr, zoom, thread_onhalt, bind, self. cbn [base s1 set_mallocs]. rewrite Ec. cbn. rewrite Eh. by destruct (Z.leb_spec THREAD_NUM_ONHALT (Z.of_nat (length hs))); [lia|]. }
  rewrite (bind_eq _ _ _ _ _ E2). cbn [Z.ltb Z.compare]. rewrite (bind_eq (modify _) _ _ _ _ eq_refl). eexists. split; [reflexivity|]. rewrite bucket_set.
  assert (mine tid s = []) as E0 by (unfold mine; by rewrite El). assert (∀ s3, bucket tid s3 = (tid, []) :: bucket tid s2 → mine tid s3 = []) as E3.
  { intros s3 E. unfold mine. rewrite E. cbn. by rewrite Z.eqb_refl. }
  split; [|cbn [get_tmo]; rewrite Z.eqb_refl, E0; split_and!; try done; by apply E3, bucket_set]. destruct T as [T1 T2 T3 T4 T5 T6 T7 T8 T9]. rewrite E0 in *.
  assert (mine tid (set_bucket tid ((tid, []) :: bucket tid s2) s2) = []) as E4 by (by apply E3, bucket_set). split; rewrite ?E4; try done.
  - exists (hs ++ [cleanup_fn]). rewrite bucket_set. cbn. rewrite Z.eqb_refl. split; [|done]. unfold who. cbn. by rewrite Et, Eh.
  - destruct T7 as [[q []] Hc]. split; [exists q; by split|done].
Qed.

Lemma keeps_later at_ at_' p l : at_ ≤ at_' → Forall2 (keeps at_) p l → Forall2 (keeps at_') p l.
Proof. intros H K. eapply Forall2_impl; [exact K|]. unfold keeps. intros x y [H1 H2]. split; [done|lia]. Qed.

Lemma keeps_shift at_ d p l : Forall2 (keeps at_) p (due d l) → Forall2 (keeps (at_ + d)) p (due 0 l).
Proof.
  replace d with (0 + d) at 1 by lia. rewrite due_shift, Forall2_fmap_r. intros K. eapply Forall2_impl; [exact K|]. unfold keeps. intros x y [H1 H2]. cbn in *. split; [done|lia].
Qed.

Lemma sys_timeout_ok tid k s msecs h arg : tinv tid k s → 1 ≤ k → 0 ≤ msecs < 2 ^ 31 → h ≠ H_sswt →
  ∃ s', sys_timeout msecs h arg s = Ret tt s' ∧ tinv tid (k - 1) s'.
Proof.
  intros T Hk Hm Hh. pose proof (ti_avail _ _ _ T). unfold sys_timeout. rewrite (bind_eq (gets _) _ _ _ _ eq_refl). destruct (Z.eqb_spec (avail s) 0); [lia|].
  rewrite (bind_eq (modify _) _ _ _ _ eq_refl). set (s1 := set_avail (avail s - 1) s). assert (tinv tid (k - 1) s1) as T1.
  { destruct T as [T1 T2 T3 T4 T5 T6 T7 T8 T9]. split; try done; [cbn|]; lia. }
  destruct (arch_timeouts_ok tid (k - 1) s1 T1) as (s2 & E2 & T2 & G2 & M2 & A2 & L2 & N2). rewrite (bind_eq _ _ _ _ _ E2), (bind_eq (timeouts tid) _ _ _ _ eq_refl), (bind_eq (put_timeouts _ _) _ _ _ _ eq_refl).
  fold (mine tid s2). set (l := mine tid s2) in *. destruct (insert_due msecs h arg l (ti_times _ _ _ T2) Hm) as [Ed Hs]. eexists. split; [reflexivity|].
  eapply (tinv_put tid (k - 1) (k - 1) s2 _ (insert_timeout msecs h arg l)); try done.
  - change (get_tmo tid (bucket tid (set_bucket tid (put_tmo tid (insert_timeout msecs h arg l) (bucket tid s2)) s2)) = Some (insert_timeout msecs h arg l)). rewrite bucket_set. by eapply get_put.
  - assert (∀ l, Forall (λ t, tm_h t ≠ H_sswt) l ↔ Forall (λ x, fst (snd x) ≠ H_sswt) (due 0 l)) as Hu.
    { intros l0. generalize 0. induction l0 as [|t l0 IH]; intros from; cbn; [done|]. rewrite !Forall_cons, (IH (from + tm_time t)). done. }
    apply Hu. rewrite Ed. destruct (place_app msecs (h, arg) (due 0 l)) as (l1 & l2 & E & ->). pose proof (proj1 (Hu _) (ti_user _ _ _ T2)) as Hl. fold l in Hl. rewrite E in Hl.
    apply Forall_app in Hl as [Hl1 Hl2]. apply Forall_app. split; [done|]. by constructor.
  - apply (ti_avail _ _ _ T2).
  - lia.
  - destruct (ti_log _ _ _ T2) as (p & Hp & Hkp). fold l in Hkp. rewrite Ed. destruct (place_app msecs (h, arg) (due 0 l)) as (l1 & l2 & E & ->). rewrite E in Hkp.
    apply Forall2_app_inv_r in Hkp as (p1 & p2 & K1 & K2 & ->). exists (p1 ++ (now (base s2) + msecs, (h, arg)) :: p2). split.
    + cbn. eapply timers_set; [exact Hp|]. by rewrite Permutation_middle.
    + apply Forall2_app; [done|]. constructor; [|done]. done.
Qed.

Lemma sys_untimeout_ok tid k s h arg : tinv tid k s → ∃ s', sys_untimeout h arg s = Ret tt s' ∧ tinv tid k s'.
Proof.
  intros T. destruct (arch_timeouts_ok tid k s T) as (s2 & E2 & T2 & G2 & M2 & A2 & L2 & N2). unfold sys_untimeout. rewrite (bind_eq _ _ _ _ _ E2), (bind_eq (timeouts tid) _ _ _ _ eq_refl).
  fold (mine tid s2). set (l := mine tid s2) in *. pose proof (ti_times _ _ _ T2) as [Hl Hd]. pose proof (remove_due h arg l 0 ltac:(lia) Hl Hd) as Hr.
  destruct (remove_timeout h arg l) as [l'|] eqn:El; [|by exists s2]. destruct Hr as [Ed Hl']. rewrite (bind_eq (put_timeouts _ _) _ _ _ _ eq_refl), (bind_eq memp_free_timeout _ _ _ _ eq_refl).
  destruct (drop_first_app _ _ _ Ed) as (l1 & d & l2 & E & E'). eexists. split; [reflexivity|]. eapply (tinv_put tid k k s2 _ l'); try done.
  - change (get_tmo tid (bucket tid (set_bucket tid (put_tmo tid l' (bucket tid s2)) s2)) = Some l'). rewrite bucket_set. by eapply get_put.
  - split; [done|]. fold l in Hd. rewrite E in Hd. rewrite E'. apply Forall_app in Hd as [H1 H2]. apply Forall_cons in H2 as [_ H2]. by apply Forall_app.
  - pose proof (ti_user _ _ _ T2) as Hu. fold l in Hu. clear -El Hu. revert l' El Hu. induction l as [|t l IH]; intros l' El Hu; cbn in El; [done|]. apply Forall_cons in Hu as [Hu1 Hu2].
    destruct (_ && _); [injection El as <-; destruct l as [|t' l]; [done|]; apply Forall_cons in Hu2 as [Hu2 Hu3]; by constructor|].
    destruct (remove_timeout h arg l) as [r|]; [|done]. injection El as <-. constructor; [done|by apply IH].
  - cbn. pose proof (ti_avail _ _ _ T2). lia.
  - apply (ti_pool _ _ _ T2).
  - destruct (ti_log _ _ _ T2) as (p & Hp & Hkp). fold l in Hkp. rewrite E in Hkp. rewrite E'. apply Forall2_app_inv_r in Hkp as (p1 & p2 & K1 & K2 & ->).
    apply Forall2_cons_inv_r in K2 as ([d' x] & p2' & [Kx _] & K2 & ->). cbn in Kx. subst x. exists (p1 ++ p2'). split; [|by apply Forall2_app].
    cbn. eapply timers_unset; [exact Hp|]. by rewrite <- Permutation_middle.
Qed.

Lemma tinv_moved tid k s s' : tinv tid k s → moved s s' → tinv tid k s'.
Proof.
  intros [T1 T2 T3 T4 T5 T6 T7 T8 T9] Hm. destruct (moved_room _ _ T8 Hm) as [Hr Hn]. destruct Hm as [A1 A2 A3 A4 A5 A6 A7 A8].
  assert (mine tid s' = mine tid s) as Em by (unfold mine, bucket; by rewrite A1). split; rewrite ?Em, ?A2, ?A5; try done.
  - rewrite (c_who _ _ A6), A3. unfold bucket in *. by rewrite A1.
  - destruct T6 as (p & Hp & Hk). exists p. split; [done|]. by eapply keeps_later.
  - intros i Hi. destruct (T9 i Hi) as (U1 & U2 & U3). split; [done|]. split; [by eapply calm_apart|]. by rewrite (c_freed _ _ A6 i (or_introl Hi)).
Qed.

(** A call a program or a handler may make, and how many timeouts it sets. *)
Definition tcall_ok (c : tcall) : Prop := match c with Timeout msecs h _ => 0 ≤ msecs < 2 ^ 31 ∧ h ≠ H_sswt | Untimeout _ _ => True end.
Definition sets (c : tcall) : Z := match c with Timeout _ _ _ => 1 | Untimeout _ _ => 0 end.
Fixpoint all_sets (l : list tcall) : Z := match l with [] => 0 | c :: l' => sets c + all_sets l' end.

Lemma all_sets_nonneg l : 0 ≤ all_sets l.
Proof. induction l as [|[] l IH]; cbn; lia. Qed.

Lemma run_tcall_ok tid k s c : tinv tid k s → tcall_ok c → sets c ≤ k → ∃ s', run_tcall c s = Ret tt s' ∧ tinv tid (k - sets c) s'.
Proof.
  intros T Hc Hk. destruct c as [msecs h arg|h arg]; cbn in *.
  - destruct Hc. by apply sys_timeout_ok.
  - rewrite Z.sub_0_r. by apply sys_untimeout_ok.
Qed.

Lemma run_tcalls_ok tid l : ∀ k s, tinv tid k s → Forall tcall_ok l → all_sets l ≤ k → ∃ s', run_tcalls l s = Ret tt s' ∧ tinv tid (k - all_sets l) s'.
Proof.
  induction l as [|c l IH]; intros k s T Hl Hk; cbn in *; [exists s; by rewrite Z.sub_0_r|]. apply Forall_cons in Hl as [Hc Hl]. pose proof (all_sets_nonneg l).
  destruct (run_tcall_ok tid k s c T Hc) as (s1 & E1 & T1); [lia|]. destruct (IH (k - sets c) s1 T1 Hl) as (s' & E & T'); [lia|].
  exists s'. rewrite (bind_eq _ _ _ _ _ E1), Z.sub_add_distr. done.
Qed.

Lemma tinv_less tid k k' s : tinv tid k s → 0 ≤ k' ≤ k → tinv tid k' s.
Proof. intros [T1 T2 T3 T4 T5 T6 T7 T8 T9] H. split; try done; lia. Qed.

(** Handlers set at most one timeout each: their own again, as those of the stack do. *)
Context (body : Z → Z → tmst → list tcall) (Hbody : ∀ f arg s, Forall tcall_ok (body f arg s) ∧ all_sets (body f arg s) ≤ 1).

Lemma sound_tail t l : sound_times (t :: l) → sound_times l.
Proof.
  intros [H1 H2]. apply Forall_cons in H1 as [Ht H1]. apply Forall_cons in H2 as [_ H2]. split; [done|]. rewrite due_shift, Forall_fmap in H2. eapply Forall_impl; [exact H2|]. cbn. lia.
Qed.

(** A timeout that has run off is past its deadline. *)
Lemma run_off_ok tid k s t l : tinv tid k s → get_tmo tid (bucket tid s) = Some (t :: l) →
  (∃ p, timers (log s) p ∧ Forall2 (keeps (now (base s) - tm_time t)) p (due 0 (t :: l))) →
  ∃ s', run_off body tid t l s = Ret tt s' ∧ tinv tid k s'.
Proof.
  intros T G (p & Hp & Hk). assert (mine tid s = t :: l) as Em by (unfold mine; by rewrite G). pose proof (ti_times _ _ _ T) as Hs. pose proof (ti_user _ _ _ T) as Hu. rewrite Em in Hs, Hu.
  apply Forall_cons in Hu as [Hut Hu]. unfold run_off. rewrite (bind_eq (put_timeouts _ _) _ _ _ _ eq_refl), (bind_eq memp_free_timeout _ _ _ _ eq_refl), (bind_eq (modify _) _ _ _ _ eq_refl).
  match goal with |- ∃ s', _ ?x = _ ∧ _ => set (s1 := x) end. cbn [due] in Hk. apply Forall2_cons_inv_r in Hk as ([d x] & p' & [Kx Kd] & K & ->). cbn in Kx, Kd. subst x.
  assert (tinv tid (k + 1) s1) as T1.
  { eapply (tinv_put tid k (k + 1) s s1 l); try done.
    - change (get_tmo tid (bucket tid (set_bucket tid (put_tmo tid l (bucket tid s)) s)) = Some l). rewrite bucket_set. by eapply get_put.
    - by eapply sound_tail.
    - cbn. pose proof (ti_avail _ _ _ T). lia.
    - pose proof (ti_pool _ _ _ T). lia.
    - exists p'. split; [cbn; eapply timers_ended; [exact Hp|done|]; cbn; lia|]. rewrite Z.add_0_l in K. apply keeps_shift in K. by replace (now (base s) - tm_time t + tm_time t) with (now (base s)) in K by lia. }
  pose proof (ti_pool _ _ _ T). destruct (tm_h t) as [| |f] eqn:Eh; [exists s1; split; [done|]; eapply tinv_less; [exact T1|lia]|done|]. cbn [call_handler].
  rewrite (bind_eq (gets _) _ _ _ _ eq_refl). destruct (Hbody f (tm_arg t) s1) as [H1 H2]. destruct (run_tcalls_ok tid _ (k + 1) s1 T1 H1) as (s' & E & T'); [lia|].
  exists s'. split; [done|]. eapply tinv_less; [exact T'|]. pose proof (all_sets_nonneg (body f (tm_arg t) s1)). lia.
Qed.

(** A wait that ended before the first timeout. *)
Lemma count_down_ok tid k s s' t l n : tinv tid k s → get_tmo tid (bucket tid s) = Some (t :: l) → moved s s' → n = now (base s') - now (base s) →
  ∃ s2, put_timeouts tid (count_down n t :: l) s' = Ret tt s2 ∧ tinv tid k s2.
Proof.
  intros T G Hm En. pose proof (tinv_moved _ _ _ _ T Hm) as T'. assert (mine tid s = t :: l) as Em by (unfold mine; by rewrite G).
  pose proof (ti_times _ _ _ T) as [Hs Hd]. pose proof (ti_user _ _ _ T) as Hu. rewrite Em in Hs, Hd, Hu. apply Forall_cons in Hs as [Ht Hs]. apply Forall_cons in Hu as [Hut Hu].
  destruct (moved_room _ _ (ti_room _ _ _ T) Hm) as [_ Hn]. set (t' := count_down n t). set (d := tm_time t - tm_time t').
  assert (0 ≤ tm_time t' ≤ tm_time t ∧ 0 ≤ d ≤ n) as [Ht' Hdn] by (unfold d, t', count_down; cbn; destruct (Z.ltb_spec n (tm_time t)); lia).
  assert (due 0 (t :: l) = due d (t' :: l)) as Ed.
  { cbn [due]. replace (0 + tm_time t) with (d + tm_time t') by lia. done. }
  eexists. split; [reflexivity|]. eapply (tinv_put tid k k s' _ (t' :: l)); try done.
  - change (get_tmo tid (bucket tid (set_bucket tid (put_tmo tid (t' :: l) (bucket tid s')) s')) = Some (t' :: l)). rewrite bucket_set. eapply get_put.
    unfold bucket. rewrite (m_table _ _ Hm). exact G.
  - split; [constructor; [lia|done]|]. rewrite Ed in Hd. replace d with (0 + d) in Hd by lia. rewrite due_shift, Forall_fmap in Hd. eapply Forall_impl; [exact Hd|]. cbn. lia.
  - by constructor.
  - apply (ti_avail _ _ _ T').
  - apply (ti_pool _ _ _ T').
  - destruct (ti_log _ _ _ T) as (p & Hp & Hk). rewrite Em, Ed in Hk. exists p. split; [cbn; by rewrite (m_log _ _ Hm)|]. apply keeps_shift in Hk. eapply keeps_later; [|exact Hk]. lia.
Qed.

Lemma over_time tid k s s' t l : tinv tid k s → get_tmo tid (bucket tid s) = Some (t :: l) → moved s s' → tm_time t ≤ now (base s') - now (base s) →
  ∃ s2, run_off body tid t l s' = Ret tt s2 ∧ tinv tid k s2.
Proof.
  intros T G Hm Ht. apply run_off_ok; [by eapply tinv_moved|unfold bucket; rewrite (m_table _ _ Hm); exact G|].
  destruct (ti_log _ _ _ T) as (p & Hp & Hk). assert (mine tid s = t :: l) as Em by (unfold mine; by rewrite G). rewrite Em in Hk.
  exists p. split; [by rewrite (m_log _ _ Hm)|]. eapply keeps_later; [|exact Hk]. lia.
Qed.

Lemma tinv_who tid k s : tinv tid k s → is_Some (who (base s)).
Proof. intros T. destruct (ti_who _ _ _ T) as (hs & -> & _). done. Qed.

Lemma short_wait tid k s s' : tinv tid k s → moved s s' → now (base s') - now (base s) < SYS_ARCH_TIMEOUT.
Proof.
  intros T Hm. destruct (moved_room _ _ (ti_room _ _ _ T) Hm) as [(R1 & R2 & R3%spent_nonneg) _]. destruct (ti_room _ _ _ T) as (? & _). unfold SYS_ARCH_TIMEOUT. lia.
Qed.

Lemma sem_wait_tinv tid k i fuel : used i → ∀ s, tinv tid k s → wp (sys_sem_wait body fuel i) (λ _, tinv tid k) (tinv tid k) s.
Proof.
  intros Hu. induction fuel as [|fuel IH]; intros s T; [done|]. cbn [sys_sem_wait]. destruct (arch_timeouts_ok tid k s T) as (s1 & E1 & T1 & G1 & M1 & _).
  apply wp_bind. eapply wp_intro; [exact E1|]. apply wp_bind, wp_gets. fold (mine tid s1). rewrite M1 in *. destruct (ti_used _ _ _ T1 i Hu) as (U1 & U2 & U3).
  destruct (mine tid s) as [|t l] eqn:Em.
  { apply wp_bind. eapply wp_mono; [apply arch_sem_wait_ok; try done; [apply T1|apply T1|by eapply tinv_who]| |]; [intros n s' [Hm _]|intros s' Hm]; by eapply tinv_moved. }
  pose proof (ti_times _ _ _ T1) as [Hs _]. rewrite M1 in Hs. apply Forall_cons in Hs as [Ht _].
  apply wp_bind. destruct (Z.ltb_spec 0 (tm_time t)) as [Hp|Hz].
  - eapply wp_mono; [apply (arch_sem_wait_ok i (tm_time t)); try done; [apply T1|apply T1|by eapply tinv_who]| |intros s' Hm; by eapply tinv_moved].
    intros n s' [Hm Ha]. cbn beta. pose proof (short_wait _ _ _ _ T1 Hm). destruct (Z.eqb_spec n SYS_ARCH_TIMEOUT) as [->|Hn].
    + destruct (over_time tid k s1 s' t l T1 G1 Hm) as (s2 & E2 & T2); [destruct Ha as [Ha|Ha]; lia|]. apply wp_bind. eapply wp_intro; [exact E2|]. by apply IH.
    + destruct (count_down_ok tid k s1 s' t l n T1 G1 Hm) as (s2 & E2 & T2); [destruct Ha as [Ha|Ha]; [done|by destruct Ha]|]. by eapply wp_intro; [exact E2|].
  - apply wp_ret. cbn beta. rewrite Z.eqb_refl. destruct (over_time tid k s1 s1 t l T1 G1) as (s2 & E2 & T2); [apply moved_refl, T1|lia|].
    apply wp_bind. eapply wp_intro; [exact E2|]. by apply IH.
Qed.

Lemma mbox_fetch_tinv tid k fuel : ∀ s, tinv tid k s → wp (sys_mbox_fetch body fuel b) (λ _, tinv tid k) (tinv tid k) s.
Proof.
  induction fuel as [|fuel IH]; intros s T; [done|]. cbn [sys_mbox_fetch]. destruct (arch_timeouts_ok tid k s T) as (s1 & E1 & T1 & G1 & M1 & _).
  apply wp_bind. eapply wp_intro; [exact E1|]. apply wp_bind, wp_gets. fold (mine tid s1). rewrite M1 in *. destruct (mine tid s) as [|t l] eqn:Em.
  { apply wp_bind. eapply wp_mono; [apply arch_mbox_fetch_ok; [lia|apply T1|apply T1|by eapply tinv_who]| |]; [intros n s' [Hm _]|intros s' Hm]; by eapply tinv_moved. }
  pose proof (ti_times _ _ _ T1) as [Hs _]. rewrite M1 in Hs. apply Forall_cons in Hs as [Ht _].
  apply wp_bind. destruct (Z.ltb_spec 0 (tm_time t)) as [Hp|Hz].
  - eapply wp_mono; [apply (arch_mbox_fetch_ok (tm_time t)); [done|apply T1|apply T1|by eapply tinv_who]| |intros s' Hm; by eapply tinv_moved].
    intros [n m] s' [Hm Ha]. cbn [fst snd] in *. pose proof (short_wait _ _ _ _ T1 Hm). destruct (Z.eqb_spec n SYS_ARCH_TIMEOUT) as [->|Hn].
    + destruct (over_time tid k s1 s' t l T1 G1 Hm) as (s2 & E2 & T2); [destruct Ha as [Ha|Ha]; lia|]. apply wp_bind. eapply wp_intro; [exact E2|]. by apply IH.
    + destruct (count_down_ok tid k s1 s' t l n T1 G1 Hm) as (s2 & E2 & T2); [destruct Ha as [Ha|Ha]; [done|by destruct Ha]|]. apply wp_bind. by eapply wp_intro; [exact E2|].
  - apply wp_ret. cbn [fst]. rewrite Z.eqb_refl. destruct (over_time tid k s1 s1 t l T1 G1) as (s2 & E2 & T2); [apply moved_refl, T1|lia|].
    apply wp_bind. eapply wp_intro; [exact E2|]. by apply IH.
Qed.

Definition prog_ok (p : tprog) : Prop := match p with Call c => tcall_ok c | Wait_sem i => used i | Fetch_mbox m => m = b end.
Definition prog_sets (p : tprog) : Z := match p with Call c => sets c | _ => 0 end.

Fixpoint all_prog_sets (l : list tprog) : Z := match l with [] => 0 | p :: l' => prog_sets p + all_prog_sets l' end.

Lemma run_prog_ok tid fuel l : ∀ k s, tinv tid k s → Forall prog_ok l → all_prog_sets l ≤ k →
  wp (run_prog body fuel l) (λ _, tinv tid 0) (tinv tid 0) s.
Proof.
  induction l as [|p l IH]; intros k s T Hl Hk; [apply wp_ret; eapply tinv_less; [exact T|]; pose proof (ti_pool _ _ _ T); lia|].
  apply Forall_cons in Hl as [Hp Hl]. cbn [all_prog_sets] in Hk. set (n := all_prog_sets l) in *. assert (0 ≤ n) as Hn by (subst n; clear; induction l as [|[[]| |] l IH]; cbn; lia).
  pose proof (ti_pool _ _ _ T). cbn [run_prog]. apply wp_bind. destruct p as [c|i|m]; cbn [prog_ok prog_sets run_prog1] in *.
  - assert (0 ≤ sets c) by (destruct c; cbn; lia). destruct (run_tcall_ok tid k s c T Hp) as (s1 & E1 & T1); [lia|]. eapply wp_intro; [exact E1|]. apply (IH (k - sets c)); [done|done|lia].
  - eapply wp_mono; [by apply sem_wait_tinv| |]; [intros a s' T'; apply (IH k); [done|done|lia]|intros s' T'; eapply tinv_less; [exact T'|lia]].
  - subst m. apply wp_bind. eapply wp_mono; [by apply mbox_fetch_tinv| |]; [intros a s' T'; apply wp_ret, (IH k); [done|done|lia]|intros s' T'; eapply tinv_less; [exact T'|lia]].
Qed.
End waiting.

Lemma timers_pending l p : timers l p → ∀ d h arg, (d, (h, arg)) ∈ p → ∃ at_ msecs, Set_at at_ msecs h arg ∈ l ∧ d = at_ + msecs.
Proof.
  induction 1 as [|l p p' at_ msecs h arg _ IH E|l p p' at_ d h arg _ IH E Hd|l p p' at_ d h arg _ IH E]; intros d0 h0 arg0 Hin; [by apply not_elem_of_nil in Hin|..].
  - rewrite E in Hin. apply elem_of_cons in Hin as [Hin|Hin].
    + injection Hin as -> -> ->. exists at_, msecs. split; [|done]. apply elem_of_app. right. by apply list_elem_of_singleton.
    + destruct (IH _ _ _ Hin) as (a & m & H1 & H2). exists a, m. split; [|done]. apply elem_of_app. by left.
  - destruct (IH d0 h0 arg0) as (a & m & H1 & H2); [rewrite E; apply elem_of_cons; by right|]. exists a, m. split; [|done]. apply elem_of_app. by left.
  - destruct (IH d0 h0 arg0) as (a & m & H1 & H2); [rewrite E; apply elem_of_cons; by right|]. exists a, m. split; [|done]. apply elem_of_app. by left.
Qed.

(** No timeout runs off early, nor one that was not set. *)
Lemma timers_early l p : timers l p → ∀ l1 at_ h arg l2, l = l1 ++ Ended_at at_ h arg :: l2 → ∃ at0 msecs, Set_at at0 msecs h arg ∈ l1 ∧ at0 + msecs ≤ at_.
Proof.
  assert (∀ (l : list tevent) e l1 x l2, l ++ [e] = l1 ++ x :: l2 → l2 = [] ∧ l = l1 ∧ e = x ∨ ∃ l2', l = l1 ++ x :: l2') as Hsnoc.
  { intros l0 e l1 x l2 E. destruct l2 as [|y l2 _] using rev_ind; [apply app_inj_tail in E; naive_solver|]. right. exists l2.
    rewrite app_comm_cons, app_assoc in E. by apply app_inj_tail in E as [-> _]. }
  induction 1 as [|l p p' at_ msecs h arg Ht IH E|l p p' at_ d h arg Ht IH E Hd|l p p' at_ d h arg Ht IH E]; intros l1 a0 h0 arg0 l2 El; [by destruct l1|..];
    destruct (Hsnoc _ _ _ _ _ El) as [(-> & -> & Ex)|[l2' ->]]; try done; try (by eapply IH).
  injection Ex as -> -> ->. destruct (timers_pending _ _ Ht d h0 arg0) as (a & m & H1 & ->); [rewrite E; apply list_elem_of_here|]. by exists a, m.
Qed.

(** A thread that has no timeouts yet, with the semaphores [used] and the mailbox [b]. *)
Record fresh (b : Z) (used : Z → Prop) (tid k : Z) (s : tmst) : Prop := {
  f_who : ∃ hs, who (base s) = Some (tid, hs) ∧ Z.of_nat (length hs) < THREAD_NUM_ONHALT;
  f_malloc : ∃ m, mallocs s = true :: m; f_new : get_tmo tid (bucket tid s) = None; f_log : log s = [];
  f_avail : 0 ≤ k ≤ avail s; f_world : world b (base s); f_room : room_for b used s;
  f_used i : used i → 0 ≤ i < NSEM ∧ apart b i (base s) ∧ s_freed (sems (base s) i) = false }.

Lemma fresh_tinv b used tid k s : fresh b used tid k s → tinv b used tid k s.
Proof.
  intros [(hs & F1 & F2) F3 F4 F5 F6 F7 F8 F9]. assert (mine tid s = []) as Em by (unfold mine; by rewrite F4). split; rewrite ?Em; try done; try lia.
  - exists hs. split; [done|]. intros _. done.
  - exists []. rewrite F5. split; [constructor|done].
Qed.

(** What was recorded is what timers do, the timeouts in the list are those still to come,
    and none ran off before its time. *)
Definition timers_told (tid : Z) (s : tmst) : Prop := ∃ p, timers (log s) p ∧ snd <$> p = snd <$> due 0 (mine tid s) ∧
  ∀ l1 at_ h arg l2, log s = l1 ++ Ended_at at_ h arg :: l2 → ∃ at0 msecs, Set_at at0 msecs h arg ∈ l1 ∧ at0 + msecs ≤ at_.

Lemma tinv_told b used tid k s : tinv b used tid k s → timers_told tid s.
Proof.
  intros T. destruct (ti_log _ _ _ _ _ T) as (p & Hp & Hk). exists p. split; [done|]. split; [|by eapply timers_early].
  clear -Hk. induction Hk as [|x y p l [H _] _ IH]; [done|]. rewrite !fmap_cons, H, IH. done.
Qed.

(** ** Sleeping *)

Section sleep.
Context (b i tm t0 : Z) (Hi : 0 ≤ i < NSEM) (Htm : 0 < tm < 2 ^ 31).

(** The other threads do not signal the semaphore, nor free it. *)
Definition aloof (x : Z * (itc → itc)) : Prop := quiet b (eq i) x ∧ ∀ s, counter (sems (snd x s) i) = counter (sems s i).

(** A wait for a semaphore nobody signals ends with the first switch after its time. *)
Lemma sem_drive_sleep l : ∀ s x w n, script s = l → room_for b (eq i) s → world b (base s) → apart b i (base s) → is_Some (who (base s)) →
  waits i tm n (base s) x (Blocked w) → n = now (base s) - t0 → Forall aloof l → tm ≤ n + spent l →
  ∃ s' pre e, sem_drive l (Blocked w) (set_base x s) = Ret SYS_ARCH_TIMEOUT s' ∧ moved b (eq i) s s' ∧ script s = pre ++ e :: script s' ∧
    now (base s') = now (base s) + spent (pre ++ [e]) ∧ n + spent pre < tm ≤ n + spent (pre ++ [e]) ∧ counter (sems (base s') i) = 0.
Proof.
  induction l as [|[dt g] l IH]; intros s x w n Es Hr W Ap Hw Hwt En Hal Hle; cbn [waits] in Hwt; destruct Hwt as (Hc & _ & Hn & Ha & Hlt & Hb).
  { change (spent []) with 0 in Hle. lia. }
  assert (moved b (eq i) s (set_base x s)) as Hm by (apply moved_base; [by apply moved_refl|by eapply but_calm|eapply but_world; [done|exact Hb|done|]; destruct W as [_ W]; specialize (W i); lia|by rewrite (but_now _ _ _ _ Hb)]).
  apply Forall_cons in Hal as [[_ Hal1] Hal]. rewrite spent_cons in Hle. cbn [fst] in Hle.
  cbn [sem_drive]. destruct (moved_room b (eq i) _ _ Hr Hm) as [Hr1 _]. destruct (others_ok b (eq i) (set_base x s) dt g l Es (m_world _ _ _ _ Hm) Hr1) as (s2 & E2 & Hm2 & Es2).
  rewrite (bind_eq _ _ _ _ _ E2). injection E2 as E2'. assert (counter (sems (base s2) i) = 0) as Hc2.
  { rewrite <- E2'. cbn. specialize (Hal1 (set_now (now x + dt) x)). cbn in Hal1. rewrite Hal1. rewrite (but_counter _ _ _ _ Hb), Z.eqb_refl. lia. }
  pose proof (waited_trans b (eq i) _ _ _ Hm Hm2) as Hm3. destruct (moved_room b (eq i) _ _ Hr Hm3) as [Hr2 Hn2]. assert (now (base s2) = now (base s) + dt) as Ht2.
  { destruct (m_script _ _ _ _ Hm2) as (pre & E & ->). cbn [script set_base] in E. rewrite Es, Es2 in E. assert (pre = [(dt, g)]) as ->.
    { apply (app_inv_tail l). by rewrite <- E. } cbn. rewrite (but_now _ _ _ _ Hb). lia. }
  pose proof (noted_moved b (eq i) i tm _ _ w (or_introl eq_refl) Hr1 Hn Hm2) as Hn3. assert (is_Some (who (base s2))) as Hw2 by (by rewrite (c_who _ _ _ _ (m_calm _ _ _ _ Hm3))).
  destruct (sem_resume_ok i Hi (base s2) w tm Hn3) as (k & r & y & Ek & E3 & Hwt'); [apply (m_world _ _ _ _ Hm3)|by apply who_cur|lia|destruct Hr2 as (? & ? & ?%(spent_nonneg b (eq i))); lia|].
  assert (on_base (sem_resume w) s2 = Ret r (set_base y s2)) as E3' by (unfold on_base, zoom; by rewrite E3). rewrite (bind_eq _ _ _ _ _ E3').
  destruct r as [n'| |w']; cbn [waits] in Hwt'; [lia| |].
  - destruct Hwt' as (_ & Ht & Hb'). exists (set_base y s2), [], (dt, g). split; [by destruct l|]. split.
    { apply moved_base; [done|by eapply but_calm|eapply but_world; [exact (m_world _ _ _ _ Hm3)|exact Hb'|eapply calm_apart; [exact (m_calm _ _ _ _ Hm3)|done]|lia]|by rewrite (but_now _ _ _ _ Hb')]. }
    split; [cbn; by rewrite Es, Es2|]. cbn [base set_base app]. rewrite (but_now _ _ _ _ Hb'), Ht2, spent_cons. change (spent []) with 0. cbn [fst].
    split; [lia|]. split; [unfold SYS_ARCH_NOWAIT in Ht; lia|]. rewrite (but_counter _ _ _ _ Hb'), Z.eqb_refl. lia.
  - destruct (IH s2 y w' k Es2 Hr2 (m_world _ _ _ _ Hm3)) as (s' & pre & e & E & Hm' & Esc & Hnow & Hlim & Hcs); try done; [eapply calm_apart; [exact (m_calm _ _ _ _ Hm3)|done]|lia|lia|].
    exists s', ((dt, g) :: pre), e. split; [done|]. split; [by eapply waited_trans|]. split; [by rewrite Es, <- Es2, Esc|]. rewrite <- app_comm_cons, !spent_cons. cbn [fst]. split; [lia|]. split; [lia|done].
Qed.
End sleep.

Lemma arch_registered tid s hs l : who (base s) = Some (tid, hs) → get_tmo tid (bucket tid s) = Some l → sys_arch_timeouts s = Ret tid s.
Proof.
  unfold who, sys_arch_timeouts. destruct (cur_tc (thr (base s))) as [c|] eqn:Ec; [|done]. intros [= Et _] G.
  assert (on_base (on_thr thread_id) s = Ret tid s) as E1.
  { unfold on_base, on_thr, zoom, thread_id, bind, self. rewrite Ec. cbn. rewrite Et. destruct s as [[] ? ? ? ? ? ?]. done. }
  by rewrite (bind_eq _ _ _ _ _ E1), (bind_eq (gets _) _ _ _ _ eq_refl), G.
Qed.

Lemma timeouts_eq tid s l : get_tmo tid (bucket tid s) = Some l → timeouts tid s = Ret l s.
Proof. unfold timeouts, gets. by intros ->. Qed.

(** The thread is about to wait for [ms], with nothing else to come. *)
Record asleep (b tid cb i ms : Z) (s : tmst) : Prop := {
  as_who : ∃ hs, who (base s) = Some (tid, hs); as_get : get_tmo tid (bucket tid s) = Some [MkTimeo ms H_sswt cb]; as_cb : cbs s cb = MkSswt 0 i;
  as_world : world b (base s); as_room : room_for b (eq i) s; as_i : 0 ≤ i < NSEM; as_apart : apart b i (base s);
  as_live : s_freed (sems (base s) i) = false; as_zero : counter (sems (base s) i) = 0 }.

(** The wait in [sys_sem_wait_timeout]: the timeout runs off and ends the second round. *)
Lemma sem_wait_sleep body fuel b tid cb i ms s : asleep b tid cb i ms s → 0 < ms < 2 ^ 31 → Forall (aloof b i) (script s) → ms ≤ spent (script s) →
  ∃ s' pre e, sys_sem_wait body (S (S fuel)) i s = Ret tt s' ∧ script s = pre ++ e :: script s' ∧ now (base s') = now (base s) + spent (pre ++ [e]) ∧
    spent pre < ms ≤ spent (pre ++ [e]) ∧ avail s' = avail s + 1 ∧ get_tmo tid (bucket tid s') = Some [] ∧ cbs s' cb = MkSswt 1 i ∧ s_freed (sems (base s') i) = false.
Proof.
  intros [[hs A1] A2 A3 A4 A5 A6 A7 A8 A9] Hms Hal Hle. set (n := S fuel).
  cbn [sys_sem_wait]. rewrite (bind_eq _ _ _ _ _ (arch_registered tid s hs _ A1 A2)), (bind_eq _ _ _ _ _ (timeouts_eq _ _ _ A2)). cbn [tm_time].
  rewrite (proj2 (Z.ltb_lt 0 ms)) by lia. pose proof A5 as (R1 & R2 & R3). pose proof (spent_nonneg b (eq i) _ R3). assert (is_Some (who (base s))) as Hw by (by rewrite A1).
  destruct (sem_wait_ok i ms (base s) A6 A8) as (r & x & E & Hwt); [lia|by apply who_cur|left; lia|lia|]. destruct r as [n'| |w]; [cbn [waits] in Hwt; lia|cbn [waits] in Hwt; unfold SYS_ARCH_NOWAIT in Hwt; lia|].
  destruct (sem_drive_sleep b i ms (now (base s)) A6 ltac:(lia) (script s) s x w 0) as (s1 & pre & e & E1 & Hm & Es & Hn & Hlim & Hc); try done; [lia|].
  assert (arch_sem_wait i ms s = Ret SYS_ARCH_TIMEOUT s1) as E1'.
  { unfold arch_sem_wait. assert (on_base (sys_arch_sem_wait i ms) s = Ret (Blocked w) (set_base x s)) as Ew by (unfold on_base, zoom; by rewrite E). by rewrite (bind_eq _ _ _ _ _ Ew). }
  rewrite (bind_eq _ _ _ _ _ E1'), Z.eqb_refl.
  set (s2 := add_log (λ n, Ended_at n H_sswt cb) (set_avail (avail s1 + 1) (set_bucket tid (put_tmo tid [] (bucket tid s1)) s1))).
  assert (cbs s2 cb = MkSswt 0 i) as Ec by (cbn; by rewrite (m_cbs _ _ _ _ Hm)). set (s3 := set_cbs (upd (cbs s2) cb (MkSswt 1 i)) s2).
  assert (s_freed (sems (base s1) i) = false) as Hf1 by (by rewrite (c_freed _ _ _ _ (m_calm _ _ _ _ Hm) i (or_introl eq_refl))).
  destruct (signal_ok i A6 (base s1)) as (y & Ey & Hb); [done|lia|]. set (s4 := set_base y s3).
  assert (run_off body tid (MkTimeo ms H_sswt cb) [] s1 = Ret tt s4) as Eo.
  { change (sswt_handler cb s2 = Ret tt s4). unfold sswt_handler. rewrite (bind_eq (gets _) _ _ _ _ eq_refl), Ec, (bind_eq (modify _) _ _ _ _ eq_refl).
    unfold on_base, zoom. cbn [psem]. change (base (set_cbs _ s2)) with (base s1). by rewrite Ey. }
  rewrite (bind_eq _ _ _ _ _ Eo).
  assert (get_tmo tid (bucket tid s4) = Some []) as G4.
  { change (get_tmo tid (bucket tid (set_bucket tid (put_tmo tid [] (bucket tid s1)) s1)) = Some []). rewrite bucket_set. eapply get_put. unfold bucket. rewrite (m_table _ _ _ _ Hm). exact A2. }
  assert (who (base s4) = Some (tid, hs)) as W4 by (cbn; rewrite (but_who _ _ _ _ Hb), (c_who _ _ _ _ (m_calm _ _ _ _ Hm)); done).
  unfold n. cbn [sys_sem_wait]. rewrite (bind_eq _ _ _ _ _ (arch_registered tid s4 hs _ W4 G4)), (bind_eq _ _ _ _ _ (timeouts_eq _ _ _ G4)).
  destruct (moved_room b (eq i) _ _ A5 Hm) as [(Q1 & Q2 & Q3) _]. pose proof (spent_nonneg b (eq i) _ Q3).
  assert (counter (sems (base s4) i) = 1) as Hc4 by (cbn; rewrite (but_counter _ _ _ _ Hb), Z.eqb_refl; lia).
  destruct (sem_wait_ok i 0 (base s4) A6) as (r & z & Ez & Hz); [cbn; by rewrite (but_freed _ _ _ _ Hb)|lia|apply who_cur; by rewrite W4|by left|cbn; rewrite (but_now _ _ _ _ Hb); lia|].
  destruct r as [k| |w']; cbn [waits] in Hz; [|by destruct Hz|lia]. destruct Hz as (_ & [-> _] & Hbz).
  assert (arch_sem_wait i 0 s4 = Ret 0 (set_base z s4)) as E4.
  { unfold arch_sem_wait. assert (on_base (sys_arch_sem_wait i 0) s4 = Ret (Got 0) (set_base z s4)) as Ew by (unfold on_base, zoom; by rewrite Ez). rewrite (bind_eq _ _ _ _ _ Ew). cbn. by destruct (script s1). }
  rewrite (bind_eq _ _ _ _ _ E4). exists (set_base z s4), pre, e. split; [done|]. split; [done|]. cbn [base set_base]. rewrite (but_now _ _ _ _ Hbz). cbn [base set_base s4]. rewrite (but_now _ _ _ _ Hb).
  split; [lia|]. split; [lia|]. split; [cbn; by rewrite (m_avail _ _ _ _ Hm)|]. split; [exact G4|]. split; [cbn; by apply upd_eq|]. rewrite (but_freed _ _ _ _ Hbz). cbn. by rewrite (but_freed _ _ _ _ Hb).
Qed.

(** A new semaphore is none of the mailbox's. *)
Lemma new_sem_fresh b tid k s i fl : fresh b (λ _, False) tid k s → sem_free (base s) = i :: fl → 0 ≤ i < NSEM → s_freed (sems (base s) i) = true → Forall (aloof b i) (script s) →
  ∃ x, sys_sem_new 0 (base s) = Ret i x ∧ fresh b (eq i) tid k (set_base x s) ∧ counter (sems x i) = 0 ∧ now x = now (base s).
Proof.
  intros [F1 F2 F3 F4 F5 F6 F7 _] Es Hi Hf Hal. eexists. split; [by apply (sem_new_ok _ _ fl)|]. destruct F6 as [[q []] Hc].
  assert (queued_msg (mboxes (base s) b) ≠ i ∧ free_msg (mboxes (base s) b) ≠ i) as [N1 N2] by (split; congruence).
  split; [|split; [cbn; by rewrite upd_eq|done]]. split; try done.
  - split; [exists q; split; cbn; rewrite ?upd_ne by done; done|]. intros j. cbn. unfold upd. destruct (Z.eqb_spec j i); cbn; [lia|apply Hc].
  - destruct F7 as (R1 & R2 & _). split; [exact R1|]. split; [exact R2|]. eapply Forall_impl; [exact Hal|]. by intros x [Hx _].
  - intros j <-. split; [done|]. split; [split; cbn; congruence|]. cbn. by rewrite upd_eq.
Qed.

(** Up to the wait. *)
Lemma sleep_setup b tid k cb i ms s : fresh b (eq i) tid k s → 1 ≤ k → cbs s cb = MkSswt 0 i → counter (sems (base s) i) = 0 →
  ∃ s', sys_timeout ms H_sswt cb s = Ret tt s' ∧ asleep b tid cb i ms s' ∧ script s' = script s ∧ now (base s') = now (base s) ∧ avail s' = avail s - 1.
Proof.
  intros F Hk Hcb Hz. pose proof (f_avail _ _ _ _ _ F). unfold sys_timeout. rewrite (bind_eq (gets _) _ _ _ _ eq_refl). destruct (Z.eqb_spec (avail s) 0); [lia|].
  rewrite (bind_eq (modify _) _ _ _ _ eq_refl). set (s1 := set_avail (avail s - 1) s). assert (tinv b (eq i) tid (k - 1) s1) as T1.
  { apply fresh_tinv. destruct F. split; try done. cbn. lia. }
  assert (mine tid s1 = []) as Em by (unfold mine; by rewrite (f_new _ _ _ _ _ F : get_tmo tid (bucket tid s1) = None)).
  destruct (arch_timeouts_ok b (eq i) tid (k - 1) s1 T1) as (s2 & E2 & T2 & G2 & M2 & A2 & L2 & N2 & C2 & S2 & B2). rewrite Em in *.
  rewrite (bind_eq _ _ _ _ _ E2), (bind_eq _ _ _ _ _ (timeouts_eq _ _ _ G2)), (bind_eq (put_timeouts _ _) _ _ _ _ eq_refl). cbn [insert_timeout].
  eexists. split; [reflexivity|]. split; [|by split_and!]. destruct (ti_used _ _ _ _ _ T2 i eq_refl) as (U1 & U2 & U3). split; try done.
  - destruct (ti_who _ _ _ _ _ T2) as (hs & Ew & _). by exists hs.
  - change (get_tmo tid (bucket tid (set_bucket tid (put_tmo tid [MkTimeo ms H_sswt cb] (bucket tid s2)) s2)) = Some [MkTimeo ms H_sswt cb]). rewrite bucket_set. by eapply get_put.
  - cbn. by rewrite C2.
  - apply T2.
  - apply T2.
  - cbn. by rewrite B2.
Qed.

(** C12. Timeouts are timers.  A thread without timeouts yet runs any program of setting and
    taking back timeouts, waits on the semaphores [used] and fetches from the mailbox [b].
    A timeout runs off once, only if it was set and not taken back, and never before its
    time; no call panics.  The conditions: the times and the clock stay below 2^31, there
    are free elements for the timeouts that the program sets, a handler sets at most one.
    The other threads may signal any semaphore, create and free semaphores and use the
    mailbox, but they do not free the semaphores the thread waits on: a wait that finds
    its semaphore freed returns as if its time were over. *)
Theorem timers_refine b used body tid k s fuel l : (∀ f arg s, Forall tcall_ok (body f arg s) ∧ all_sets (body f arg s) ≤ 1) →
  fresh b used tid k s → Forall (prog_ok b used) l → all_prog_sets l ≤ k →
  wp (run_prog body fuel l) (λ _, timers_told tid) (timers_told tid) s.
Proof.
  intros Hb F Hl Hk. eapply wp_mono; [eapply (run_prog_ok b used body Hb tid fuel l k s); [by apply fresh_tinv|done|done]| |].
  - intros a s' T. eapply tinv_told. exact T.
  - intros s' T. eapply tinv_told. exact T.
Qed.

(** C13. [sys_msleep] called with [0 < ms < 2^31] in a thread that has no timeouts of its
    own sleeps for at least the time asked for and no longer than the other threads make
    it: it returns at the first switch after its time is over, and gives back the timeout
    and the semaphore it took.  It needs a free semaphore [i] and a free timeout; the other
    threads run for long enough and neither signal nor free [i]. *)
Theorem msleep_correct body fuel b tid cb i fl ms s : fresh b (λ _, False) tid 1 s → sem_free (base s) = i :: fl → 0 ≤ i < NSEM → s_freed (sems (base s) i) = true →
  0 < ms < 2 ^ 31 → Forall (aloof b i) (script s) → ms ≤ spent (script s) →
  ∃ s' pre e, sys_msleep body (S (S fuel)) cb ms s = Ret tt s' ∧ script s = pre ++ e :: script s' ∧ now (base s') = now (base s) + spent (pre ++ [e]) ∧
    spent pre < ms ≤ spent (pre ++ [e]) ∧ avail s' = avail s ∧ mine tid s' = [] ∧ s_freed (sems (base s') i) = true.
Proof.
  intros F Es Hi Hf Hms Hal Hle. destruct (new_sem_fresh b tid 1 s i fl F Es Hi Hf Hal) as (x & Ex & Fx & Hx & Nx). unfold sys_msleep.
  assert (on_base (sys_sem_new 0) s = Ret i (set_base x s)) as E1 by (unfold on_base, zoom; by rewrite Ex). rewrite (bind_eq _ _ _ _ _ E1).
  set (s1 := set_cbs (upd (cbs s) cb (MkSswt 0 i)) (set_base x s)). assert (fresh b (eq i) tid 1 s1) as F1 by (destruct Fx; by split).
  destruct (sleep_setup b tid 1 cb i ms s1 F1) as (s2 & E2 & A2 & S2 & N2 & V2); [lia|by apply upd_eq|done|].
  assert (script s2 = script s) as S2' by (by rewrite S2). destruct (sem_wait_sleep body fuel b tid cb i ms s2 A2 Hms) as (s3 & pre & e & E3 & S3 & N3 & L3 & V3 & G3 & C3 & F3); [by rewrite S2'..|].
  assert (sys_sem_wait_timeout body (S (S fuel)) cb i ms (set_base x s) = Ret 0 s3) as E4.
  { unfold sys_sem_wait_timeout. rewrite (bind_eq (modify _) _ _ _ _ eq_refl), (proj2 (Z.ltb_lt 0 ms)) by lia. fold s1. rewrite (bind_eq _ _ _ _ _ E2), (bind_eq _ _ _ _ _ E3), (bind_eq (gets _) _ _ _ _ eq_refl), C3. done. }
  rewrite (bind_eq _ _ _ _ _ E4). unfold sys_sem_free, on_base, zoom. rewrite (bind_eq _ _ _ _ _ (sem_eq i _ Hi)), F3. eexists _, pre, e. split; [reflexivity|].
  split; [rewrite <- S2'; exact S3|]. assert (now (base s1) = now (base s)) as N1 by exact Nx. cbn. split; [by rewrite N3, N2, N1|]. split; [done|]. split; [rewrite V3, V2; cbn; lia|].
  split; [|by rewrite upd_eq]. unfold mine. change (default [] (get_tmo tid (bucket tid s3)) = []). by rewrite G3.
Qed.

(** ** A small server

    One mailbox, with the semaphores 0 and 1, and the free semaphore 5.  The handler of
    function 7 sets itself again after 100 milliseconds. *)
Definition demo_body (f arg : Z) (s : tmst) : list tcall := if f =? 7 then [Timeout 100 (H_user 7) arg] else [].

Definition demo_tm (l : list (Z * (itc → itc))) : tmst :=
  MkTmst (MkItc (λ i, if i =? 1 then MkSem false 1 32 0 else MkSem (negb ((i =? 0) || (i =? 2))) 1 0 0) [5] (λ _, MkMbox false (-1) 0 (λ _, 0) 0 1) []
      (MkThreads 1 (Some (MkTc 3 0 Idle None 0 [])) [] [] [] []) 10)
    (λ _, []) 6 [true] (λ _, MkSswt 0 0) l [].

Lemma demo_world l : world 0 (base (demo_tm l)).
Proof.
  split; [|intros j; cbn; destruct (j =? 1); cbn; lia]. exists []. split; cbn; unfold NMBOX, NSEM, MBOXSLOTS; try done; try lia.
Qed.

Lemma demo_fresh l (used : Z → Prop) : Forall (quiet 0 used) l → spent l < 1000 → (∀ i, used i → i = 2) → fresh 0 used 3 6 (demo_tm l).
Proof.
  intros Hl Hs Hu. split; try done; try (by eexists); [by apply demo_world|change (0 ≤ 10 ∧ 10 + spent l < 2 ^ 31 ∧ Forall (quiet 0 used) l); split_and!; [lia|lia|done]|].
  intros i Hi. rewrite (Hu i Hi). unfold NSEM. split; [lia|]. done.
Qed.

Lemma demo_quiet used n : 0 ≤ n → quiet 0 used (n, id).
Proof. intros Hn. split; [done|]. intros s W. split; [by split|done]. Qed.

Definition demo_prog : list tprog := [Call (Timeout 30 (H_user 7) 1); Call (Timeout 20 (H_user 8) 2); Call (Untimeout (H_user 8) 2); Wait_sem 2; Fetch_mbox 0].

Lemma timers_refine_witness : wp (run_prog demo_body 5 demo_prog) (λ _, timers_told 3) (timers_told 3) (demo_tm [(20, id); (25, id); (150, id)]).
Proof.
  apply (timers_refine 0 (eq 2) demo_body 3 6 _ 5 demo_prog).
  - intros f arg s. unfold demo_body. destruct (f =? 7); cbn; (split; [|lia]); [|constructor]. constructor; [split; [lia|done]|constructor].
  - apply demo_fresh; [repeat (constructor; [apply demo_quiet; lia|]); constructor|cbn; lia|by intros i <-].
  - repeat constructor; try (cbn; lia); done.
  - cbn. lia.
Defined.

Lemma msleep_correct_witness : ∃ s' pre e, sys_msleep demo_body 2 99 40 (demo_tm [(15, id); (30, id); (7, id)]) = Ret tt s' ∧
  [(15, id); (30, id); (7, id)] = pre ++ e :: script s' ∧ now (base s') = 10 + spent (pre ++ [e]) ∧ spent pre < 40 ≤ spent (pre ++ [e]) ∧ avail s' = 6 ∧ mine 3 s' = [] ∧
  s_freed (sems (base s') 5) = true.
Proof.
  apply (msleep_correct demo_body 0 0 3 99 5 [] 40 (demo_tm [(15, id); (30, id); (7, id)])); try done.
  - assert (fresh 0 (λ _, False) 3 6 (demo_tm [(15, id); (30, id); (7, id)])) as F by (apply demo_fresh; [repeat (constructor; [apply demo_quiet; lia|]); constructor|cbn; lia|done]).
    destruct F. by split.
  - repeat (constructor; [split; [apply demo_quiet; lia|done]|]). constructor.
Defined.
