(* ===== verification/Format.v ===== *)
(** * The disk formatter: [fs/fsformat.c]

    The program that makes the first disk: boot block, super block, bitmap, the files one
    after the other and, at the end, the root directory.  It runs on the build host.  The
    disk is an array of bytes, mapped into its memory; the root directory is put together
    in an array [ents] from [malloc].  A [struct File *] points into one or the other.  The
    files of the host are an argument. *)

From stdpp Require Import base list strings.
From Stdlib Require Import ZArith Lia.
From S2P Require Import Prelude Mmu BlockCache Fs.

Definition MAX_DIR_ENTS : Z := 128.
Definition MAXFILESIZE : Z := (NDIRECT + NINDIRECT) * BLKSIZE.

(** A file of the host: whether it is a regular file, its bytes, and how many of them each
    call of [read] delivers. *)
Record hostfile := MkHost { h_regular : bool; h_data : list Z; h_reads : list Z }.

(** [struct Dir] has its array in [ents] and its count in [ents_n]; positions on the disk
    are relative to [diskmap]. *)
Record fmt := MkFmt { disk : Z → Z; diskpos : Z; nblocks : Z; super : Z; bitmap : Z; ents : Z → Z; ents_n : Z }.

Definition set_disk (x : Z → Z) (s : fmt) : fmt := MkFmt x (diskpos s) (nblocks s) (super s) (bitmap s) (ents s) (ents_n s).
Definition set_diskpos (x : Z) (s : fmt) : fmt := MkFmt (disk s) x (nblocks s) (super s) (bitmap s) (ents s) (ents_n s).
Definition set_super (x : Z) (s : fmt) : fmt := MkFmt (disk s) (diskpos s) (nblocks s) x (bitmap s) (ents s) (ents_n s).
Definition set_bitmap (x : Z) (s : fmt) : fmt := MkFmt (disk s) (diskpos s) (nblocks s) (super s) x (ents s) (ents_n s).
Definition set_ents (x : Z → Z) (n : Z) (s : fmt) : fmt := MkFmt (disk s) (diskpos s) (nblocks s) (super s) (bitmap s) x n.

Inductive fptr : Type := On_disk (o : Z) | In_ents (o : Z).

(** [n] bytes stored at an offset from a pointer. *)
Definition poke (p : fptr) (o n : Z) (g : Z → Z) : M fmt unit :=
  match p with
  | On_disk a => modify (λ s, set_disk (patch (disk s) (a + o) n g) s)
  | In_ents a => modify (λ s, set_ents (patch (ents s) (a + o) n g) (ents_n s) s)
  end.
Definition put32 (p : fptr) (o w : Z) : M fmt unit := poke p o 4 (byte_of w).
Definition strcpy (p : fptr) (name : list Z) : M fmt unit :=
  poke p 0 (Z.of_nat (length name) + 1) (λ k, default 0 (name !! Z.to_nat k)).

(** [ROUNDUP] on [uint32_t], and on [int]. *)
Definition ROUNDUP (n v : Z) : Z := u32 (u32 (n - 1) + v - u32 (n - 1) mod v).
Definition ROUNDUP_int (n v : Z) : Z := n - 1 + v - Z.rem (n - 1) v.

Definition blockof (pos : Z) : Z := u32 (pos / BLKSIZE).

Definition alloc (bytes : Z) : M fmt Z :=
  let* start := gets diskpos in
  do* modify (set_diskpos (start + ROUNDUP bytes BLKSIZE)) in
  let* pos := gets diskpos in
  let* n := gets nblocks in
  if n <=? blockof pos then panic "out of disk blocks" else ret start.

(** The host's file is made empty and then [nblocks * BLKSIZE] bytes long, all zero. *)
Definition opendisk : M fmt unit :=
  do* modify (λ s, set_diskpos 0 (set_disk (λ _, 0) s)) in
  do* alloc BLKSIZE in
  let* sup := alloc BLKSIZE in
  do* modify (set_super sup) in
  let* n := gets nblocks in
  do* put32 (On_disk sup) 0 FS_MAGIC in
  do* put32 (On_disk sup) 4 n in
  do* put32 (On_disk (s_root sup)) (f_type 0) FTYPE_DIR in
  do* strcpy (On_disk (s_root sup)) [47] in
  let nbitblocks := (n + BLKBITSIZE - 1) / BLKBITSIZE in
  let* bm := alloc (nbitblocks * BLKSIZE) in
  do* modify (set_bitmap bm) in
  poke (On_disk bm) 0 (nbitblocks * BLKSIZE) (λ _, 0xFF).

(** [garbage] is what the memory from [malloc] holds. *)
Definition startdir (garbage : Z → Z) : M fmt unit := modify (set_ents garbage 0).

Definition diradd (type : Z) (name : list Z) : M fmt fptr :=
  let* n := gets ents_n in
  let out := In_ents (n * sizeof_File) in
  do* modify (λ s, set_ents (ents s) (n + 1) s) in
  if MAX_DIR_ENTS <? n + 1 then panic "too many directory entries" else
  do* strcpy out name in
  do* put32 out (f_type 0) type in
  ret out.

(** The loop of [readn]; the list has what the calls of [read] still to come deliver. *)
Fixpoint readn_from (reads : list Z) (data : list Z) (out p n : Z) : M fmt unit :=
  if p <? n then
    match reads with
    | [] => panic "read: Unexpected EOF"
    | m :: reads' =>
        if m <? 0 then panic "read" else
        if m =? 0 then panic "read: Unexpected EOF" else
        do* poke (On_disk out) p m (λ k, default 0 (data !! Z.to_nat (p + k))) in
        readn_from reads' data out (p + m) n
    end
  else ret tt.
Definition readn (h : hostfile) (out n : Z) : M fmt unit := readn_from (h_reads h) (h_data h) out 0 n.

Definition finishfile (file : fptr) (start_blk len : Z) : M fmt unit :=
  do* put32 file (f_size 0) len in
  let nb := ROUNDUP len BLKSIZE / BLKSIZE in
  do* for_up (Z.to_nat (Z.min nb NDIRECT)) 0 (λ i, put32 file (f_direct 0 i) (u32 (start_blk + i))) in
  if NDIRECT <=? nb then
    let* index := alloc BLKSIZE in
    do* put32 file (f_indirect 0) (blockof index) in
    for_up (Z.to_nat (nb - NDIRECT)) NDIRECT (λ i, put32 (On_disk index) (4 * (i - NDIRECT)) (u32 (start_blk + i)))
  else ret tt.

(** What follows the last ['/']. *)
Definition last_part (name : list Z) : list Z := foldl (λ acc c, if c =? 47 then [] else acc ++ [c]) [] name.

Definition writefile (host : list Z → option hostfile) (name : list Z) : M fmt unit :=
  match host name with
  | None => panic "open"
  | Some h =>
      let size := Z.of_nat (length (h_data h)) in
      if negb (h_regular h) then panic "not a regular file" else
      if MAXFILESIZE <=? size then panic "too large" else
      let* file := diradd FTYPE_REG (last_part name) in
      let* start := alloc size in
      do* readn h start size in
      finishfile file (blockof start) size
  end.

Definition finishdir (f : fptr) : M fmt unit :=
  let* n := gets ents_n in
  let size := n * sizeof_File in
  let* start := alloc size in
  let* e := gets ents in
  do* poke (On_disk start) 0 size e in
  finishfile f (blockof start) (ROUNDUP_int size BLKSIZE).

Definition finishdisk : M fmt unit :=
  let* pos := gets diskpos in
  let* bm := gets bitmap in
  for_up (Z.to_nat (blockof pos)) 0 (λ i,
    let* w := gets (λ s, word_at (disk s) (bm + 4 * (i / 32))) in
    put32 (On_disk bm) (4 * (i / 32)) (Z.land w (Z.lnot (Z.shiftl 1 (i mod 32))))).

Fixpoint writefiles (host : list Z → option hostfile) (names : list (list Z)) : M fmt unit :=
  match names with [] => ret tt | n :: l => do* writefile host n in writefiles host l end.

(** [main], with the number of blocks and the names of its command line. *)
Definition main (host : list Z → option hostfile) (garbage : Z → Z) (names : list (list Z)) : M fmt unit :=
  let* n := gets nblocks in
  if (n <? 2) || (4096 <? n) then panic "usage" else
  do* opendisk in
  let* sup := gets super in
  do* startdir garbage in
  do* writefiles host names in
  do* finishdir (On_disk (s_root sup)) in
  finishdisk.
