(* ===== verification/FormatProps.v ===== *)
(** * What the formatter writes is a file system

    The files lie one after the other on the disk, each followed by its index block when it
    has one, then the blocks of the root directory.  The image is a sound volume that
    [fs_init] accepts, with exactly the files given. *)

From stdpp Require Import base gmap list strings.
From Stdlib Require Import ZArith Lia.
From S2P Require Import Prelude Mmu BlockCache BlockImage Fs FsBitmap FsFile FsRw FsDir FsTree FsMount Format.

(** ** Memory *)

(** The bytes from a pointer on. *)
Definition mem_of (p : fptr) (s : fmt) : Z → Z := match p with On_disk a => λ k, disk s (a + k) | In_ents a => λ k, ents s (a + k) end.

Definition bytes_ok (s : fmt) : Prop := ∀ x, 0 ≤ disk s x < 256 ∧ 0 ≤ ents s x < 256.

(** Only the bytes from [lo] to [hi] after the pointer may have changed. *)
Record frame (p : fptr) (lo hi : Z) (s s' : fmt) : Prop := {
  fr_disk x : match p with On_disk a => ¬ (a + lo ≤ x < a + hi) | In_ents _ => True end → disk s' x = disk s x;
  fr_ents x : match p with In_ents a => ¬ (a + lo ≤ x < a + hi) | On_disk _ => True end → ents s' x = ents s x;
  fr_pos : diskpos s' = diskpos s; fr_nblocks : nblocks s' = nblocks s; fr_super : super s' = super s; fr_bitmap : bitmap s' = bitmap s;
  fr_n : ents_n s' = ents_n s; fr_bytes : bytes_ok s → bytes_ok s' }.

Lemma frame_refl p lo hi s : frame p lo hi s s.
Proof. by split. Qed.

Lemma frame_wide p lo hi lo' hi' s s' : frame p lo hi s s' → lo' ≤ lo → hi ≤ hi' → frame p lo' hi' s s'.
Proof. intros [F1 F2 F3 F4 F5 F6 F7 F8] Hl Hh. split; try done; intros x Hx; [apply F1|apply F2]; destruct p; (done || lia). Qed.

Lemma frame_trans p lo hi s s1 s2 : frame p lo hi s s1 → frame p lo hi s1 s2 → frame p lo hi s s2.
Proof.
  intros [A1 A2 A3 A4 A5 A6 A7 A8] [B1 B2 B3 B4 B5 B6 B7 B8]. split; try congruence; [| |by auto]; intros x Hx; [rewrite B1, A1|rewrite B2, A2]; done.
Qed.

Lemma frame_mem p lo hi s s' k : frame p lo hi s s' → ¬ (lo ≤ k < hi) → mem_of p s' k = mem_of p s k.
Proof. intros [F1 F2 _ _ _ _ _ _] Hk. destruct p; cbn; [apply F1|apply F2]; lia. Qed.

Lemma poke_ok p o n g s : (∀ k, 0 ≤ k < n → 0 ≤ g k < 256) → ∃ s', poke p o n g s = Ret tt s' ∧ frame p o (o + n) s s' ∧ ∀ k, 0 ≤ k < n → mem_of p s' (o + k) = g k.
Proof.
  intros Hg. assert (∀ f a x, ¬ (a + o ≤ x < a + (o + n)) → patch f (a + o) n g x = f x) as Hout.
  { intros f a x Hx. unfold patch. destruct (Z.leb_spec (a + o) x), (Z.ltb_spec x (a + o + n)); try done; lia. }
  assert (∀ f a, (∀ x, 0 ≤ f x < 256) → ∀ x, 0 ≤ patch f (a + o) n g x < 256) as Hb.
  { intros f a Hf x. unfold patch. destruct (Z.leb_spec (a + o) x), (Z.ltb_spec x (a + o + n)); cbn; try apply Hf. apply Hg. lia. }
  assert (∀ f a k, 0 ≤ k < n → patch f (a + o) n g (a + (o + k)) = g k) as Hin.
  { intros f a k Hk. unfold patch. destruct (Z.leb_spec (a + o) (a + (o + k))), (Z.ltb_spec (a + (o + k)) (a + o + n)); try lia. cbn. f_equal. lia. }
  destruct p as [a|a]; (eexists; split; [reflexivity|]; split; [|intros k Hk; by apply Hin]); split; try done; try (intros x Hx; by apply Hout).
  - intros B x. split; [|apply B]. apply Hb. apply B.
  - intros B x. split; [apply B|]. apply Hb. apply B.
Qed.

Lemma byte_of_range w k : 0 ≤ byte_of w k < 256.
Proof. unfold byte_of. change 0xFF with (Z.ones 8). rewrite Z.land_ones by lia. apply Z.mod_pos_bound. lia. Qed.

Lemma put32_ok p o w s : ∃ s', put32 p o w s = Ret tt s' ∧ frame p o (o + 4) s s' ∧ word_at (mem_of p s') o = u32 w.
Proof.
  destruct (poke_ok p o 4 (byte_of w) s) as (s' & E & F & H); [intros; apply byte_of_range|]. exists s'. split; [done|]. split; [done|]. by apply word_bytes.
Qed.

Lemma frame_word p lo hi s s' o : frame p lo hi s s' → o + 4 ≤ lo ∨ hi ≤ o → word_at (mem_of p s') o = word_at (mem_of p s) o.
Proof. intros F Ho. apply word_ext. intros i Hi. apply (frame_mem p lo hi); [done|lia]. Qed.

(** Consecutive words. *)
Lemma put_words p off (w : Z → Z) n : ∀ lo s, ∃ s', for_up n lo (λ i, put32 p (off + 4 * i) (w i)) s = Ret tt s' ∧
  frame p (off + 4 * lo) (off + 4 * (lo + Z.of_nat n)) s s' ∧ ∀ i, lo ≤ i < lo + Z.of_nat n → word_at (mem_of p s') (off + 4 * i) = u32 (w i).
Proof.
  induction n as [|n IH]; intros lo s; cbn [for_up]; [exists s; split; [done|]; split; [apply frame_refl|lia]|].
  destruct (put32_ok p (off + 4 * lo) (w lo) s) as (s1 & E1 & F1 & W1). rewrite (bind_eq _ _ _ _ _ E1). destruct (IH (lo + 1) s1) as (s' & E & F & W).
  exists s'. split; [done|]. split.
  - eapply frame_trans; [eapply frame_wide; [exact F1|lia|lia]|eapply frame_wide; [exact F|lia|lia]].
  - intros i Hi. destruct (decide (i = lo)) as [->|]; [rewrite (frame_word _ _ _ _ _ _ F) by lia; done|]. apply W. lia.
Qed.

(** ** Blocks *)

Definition nb_of (size : Z) : Z := (size + 4095) / 4096.
(** The blocks a file takes, with its index block. *)
Definition span (size : Z) : Z := nb_of size + (if nb_of size <? 10 then 0 else 1).

Lemma ROUNDUP_eq n : 0 ≤ n < 2 ^ 31 → ROUNDUP n BLKSIZE = 4096 * nb_of n.
Proof. intros H. unfold ROUNDUP, nb_of, u32. change BLKSIZE with 4096. dlia. Qed.

Lemma ROUNDUP_int_eq n : 0 < n → ROUNDUP_int n BLKSIZE = 4096 * nb_of n.
Proof. intros H. unfold ROUNDUP_int, nb_of. change BLKSIZE with 4096. rewrite Z.rem_mod_nonneg by lia. dlia. Qed.

Lemma blockof_eq b : 0 ≤ b < 2 ^ 31 → blockof (4096 * b) = b.
Proof. intros H. unfold blockof. change BLKSIZE with 4096. rewrite Z.mul_comm, Z.div_mul by lia. apply u32_small. unfold is_u32. lia. Qed.

Lemma alloc_ok bytes s P : 0 ≤ bytes < 2 ^ 31 → diskpos s = 4096 * P → 0 ≤ P → P + nb_of bytes < nblocks s → nblocks s ≤ 4096 →
  alloc bytes s = Ret (4096 * P) (set_diskpos (4096 * (P + nb_of bytes)) s).
Proof.
  intros Hb Hp HP Hn Hm. unfold alloc, bind, gets, modify. cbn. rewrite Hp, ROUNDUP_eq by done. assert (0 ≤ nb_of bytes) by (unfold nb_of; dlia).
  replace (4096 * P + 4096 * nb_of bytes) with (4096 * (P + nb_of bytes)) by lia. rewrite blockof_eq by lia. by destruct (Z.leb_spec (nblocks s) (P + nb_of bytes)); [lia|].
Qed.

Fixpoint total (l : list Z) : Z := match l with [] => 0 | m :: l' => m + total l' end.

Lemma readn_ok data out n l : Forall (λ c, 0 ≤ c < 256) data → ∀ p s, Forall (λ m, 0 < m) l → p + total l = n → 0 ≤ p →
  ∃ s', readn_from l data out p n s = Ret tt s' ∧ frame (On_disk out) p n s s' ∧ ∀ i, p ≤ i < n → disk s' (out + i) = default 0 (data !! Z.to_nat i).
Proof.
  intros Hd. assert (∀ k, 0 ≤ default 0 (data !! k) < 256) as Hb.
  { intros k. destruct (data !! k) as [c|] eqn:E; cbn; [|lia]. by apply (Forall_lookup_1 _ _ _ _ Hd E). }
  induction l as [|m l IH]; intros p s Hl Hn Hp; cbn [total readn_from] in *.
  - destruct (Z.ltb_spec p n); [lia|]. exists s. split; [done|]. split; [apply frame_refl|lia].
  - apply Forall_cons in Hl as [Hm Hl]. assert (0 ≤ total l) by (clear -Hl; induction Hl; cbn; lia). destruct (Z.ltb_spec p n); [|lia]. destruct (Z.ltb_spec m 0); [lia|]. destruct (Z.eqb_spec m 0); [lia|].
    destruct (poke_ok (On_disk out) p m (λ k, default 0 (data !! Z.to_nat (p + k))) s) as (s1 & E1 & F1 & M1); [intros; apply Hb|]. rewrite (bind_eq _ _ _ _ _ E1).
    destruct (IH (p + m) s1 Hl) as (s' & E & F & M); [lia|lia|]. exists s'. split; [done|]. split.
    + eapply frame_trans; [eapply frame_wide; [exact F1|lia|lia]|eapply frame_wide; [exact F|lia|lia]].
    + intros i Hi. destruct (decide (i < p + m)) as [Hlt|]; [|apply M; lia]. rewrite (fr_disk _ _ _ _ _ F) by lia. specialize (M1 (i - p) ltac:(lia)). cbn in M1.
      replace (p + (i - p)) with i in M1 by lia. done.
Qed.

(** ** A file on the disk

    The descriptor is at offset [o] of the bytes [H]; the data and the index block are on
    the disk [D], from block [st] on. *)
Record placed (D H : Z → Z) (o : Z) (name : list Z) (ty size st : Z) (data : Z → Z) : Prop := {
  pl_name k : 0 ≤ k ≤ Z.of_nat (length name) → H (o + k) = default 0 (name !! Z.to_nat k);
  pl_size : word_at H (o + 128) = size; pl_type : word_at H (o + 132) = ty;
  pl_direct n : 0 ≤ n < 10 → word_at H (o + 136 + 4 * n) = if n <? nb_of size then st + n else 0;
  pl_ind : word_at H (o + 176) = if nb_of size <? 10 then 0 else st + nb_of size;
  pl_index n : 10 ≤ nb_of size → 10 ≤ n < 1034 → word_at D (4096 * (st + nb_of size) + 4 * (n - 10)) = if n <? nb_of size then st + n else 0;
  pl_data i : 0 ≤ i < size → D (4096 * st + i) = data i }.

Lemma nb_bounds size : 0 ≤ size → 0 ≤ nb_of size ∧ size ≤ 4096 * nb_of size < size + 4096.
Proof. intros H. unfold nb_of. split; dlia. Qed.

(** What matters are the descriptor and the blocks of the file. *)
Lemma placed_ext D H D' H' o o' name ty size st data : placed D H o name ty size st data → 0 ≤ size → (length name < 128)%nat →
  (∀ x, 4096 * st ≤ x < 4096 * (st + span size) → D' x = D x) → (∀ k, 0 ≤ k < 256 → H' (o' + k) = H (o + k)) → placed D' H' o' name ty size st data.
Proof.
  intros [P1 P2 P3 P4 P5 P6 P7] Hs Hn HD HH. destruct (nb_bounds size Hs) as [Hnb Hsz].
  assert (∀ a, 0 ≤ a → a + 4 ≤ 256 → word_at H' (o' + a) = word_at H (o + a)) as Hw.
  { intros a Ha Ha'. apply word_ext. intros i Hi. rewrite <- !Z.add_assoc. apply HH. lia. }
  split.
  - intros k Hk. rewrite HH by lia. by apply P1.
  - by rewrite Hw by lia.
  - by rewrite Hw by lia.
  - intros n Hn'. rewrite <- P4 by done. rewrite <- !Z.add_assoc. apply Hw; lia.
  - by rewrite Hw by lia.
  - intros n Hge Hn'. rewrite <- (P6 n Hge Hn'). apply word_ext. intros i Hi. apply HD. unfold span. destruct (Z.ltb_spec (nb_of size) 10); lia.
  - intros i Hi. rewrite HD; [by apply P7|]. unfold span. destruct (Z.ltb_spec (nb_of size) 10); lia.
Qed.

(** Changes on both sides. *)
Record touched (lo hi elo ehi : Z) (s s' : fmt) : Prop := {
  to_disk x : ¬ (lo ≤ x < hi) → disk s' x = disk s x; to_ents x : ¬ (elo ≤ x < ehi) → ents s' x = ents s x;
  to_nblocks : nblocks s' = nblocks s; to_super : super s' = super s; to_bitmap : bitmap s' = bitmap s; to_bytes : bytes_ok s → bytes_ok s' }.

Lemma touched_disk a lo hi s s' elo ehi : frame (On_disk a) lo hi s s' → touched (a + lo) (a + hi) elo ehi s s'.
Proof. intros [F1 F2 F3 F4 F5 F6 F7 F8]. split; try done. intros x _. by apply F2. Qed.

Lemma touched_ents a lo hi s s' dlo dhi : frame (In_ents a) lo hi s s' → touched dlo dhi (a + lo) (a + hi) s s'.
Proof. intros [F1 F2 F3 F4 F5 F6 F7 F8]. split; try done. intros x _. by apply F1. Qed.

Lemma touched_wide lo hi elo ehi lo' hi' elo' ehi' s s' : touched lo hi elo ehi s s' → lo' ≤ lo → hi ≤ hi' → elo' ≤ elo → ehi ≤ ehi' → touched lo' hi' elo' ehi' s s'.
Proof. intros [F1 F2 F3 F4 F5 F6] H1 H2 H3 H4. split; try done; intros x Hx; [apply F1|apply F2]; lia. Qed.

Lemma touched_trans lo hi elo ehi s s1 s2 : touched lo hi elo ehi s s1 → touched lo hi elo ehi s1 s2 → touched lo hi elo ehi s s2.
Proof.
  intros [A1 A2 A3 A4 A5 A6] [B1 B2 B3 B4 B5 B6]. split; try congruence; [| |by auto]; intros x Hx; [rewrite B1, A1|rewrite B2, A2]; done.
Qed.

Lemma touched_pos lo hi elo ehi s x : touched lo hi elo ehi s (set_diskpos x s).
Proof. by split. Qed.

Lemma word_zero f o : (∀ i, 0 ≤ i < 4 → f (o + i) = 0) → word_at f o = 0.
Proof. intros H. unfold word_at. specialize (H 0 ltac:(lia)) as H0. rewrite Z.add_0_r in H0. rewrite H0, (H 1), (H 2), (H 3) by lia. done. Qed.

Lemma mem_word p a s o : p = On_disk a ∨ p = In_ents a → word_at (mem_of p s) o = word_at (match p with On_disk _ => disk s | In_ents _ => ents s end) (a + o).
Proof. intros [->| ->]; apply word_ext; intros i Hi; cbn; f_equal; lia. Qed.

(** The size and the direct blocks. *)
Lemma finish_direct file st len s : 0 ≤ st → st + nb_of len ≤ 4096 → 0 ≤ len < 2 ^ 31 → (∀ k, 136 ≤ k < 176 → mem_of file s k = 0) →
  ∃ s', (do* put32 file (f_size 0) len in for_up (Z.to_nat (Z.min (nb_of len) NDIRECT)) 0 (λ i, put32 file (f_direct 0 i) (u32 (st + i)))) s = Ret tt s' ∧
    frame file 128 176 s s' ∧ (∀ k, 132 ≤ k < 136 → mem_of file s' k = mem_of file s k) ∧ word_at (mem_of file s') 128 = len ∧
    ∀ n, 0 ≤ n < 10 → word_at (mem_of file s') (136 + 4 * n) = if n <? nb_of len then st + n else 0.
Proof.
  intros Hst Hb Hl Hz. destruct (nb_bounds len) as [Hnb _]; [lia|]. change (f_size 0) with 128. destruct (put32_ok file 128 len s) as (s1 & E1 & F1 & W1). rewrite (bind_eq _ _ _ _ _ E1).
  destruct (put_words file 136 (λ i, u32 (st + i)) (Z.to_nat (Z.min (nb_of len) NDIRECT)) 0 s1) as (s' & E & F & W). change NDIRECT with 10 in *. rewrite Z2Nat.id in * by lia.
  exists s'. split; [exact E|]. split; [eapply frame_trans; [eapply frame_wide; [exact F1|lia|lia]|eapply frame_wide; [exact F|lia|lia]]|].
  split; [intros k Hk; rewrite (frame_mem _ _ _ _ _ _ F), (frame_mem _ _ _ _ _ _ F1) by lia; done|]. split; [rewrite (frame_word _ _ _ _ _ _ F) by lia; rewrite W1; apply u32_small; unfold is_u32; lia|].
  intros n Hn. destruct (Z.ltb_spec n (nb_of len)).
  - rewrite W by lia. rewrite !u32_small; unfold is_u32; rewrite ?u32_small; unfold is_u32; lia.
  - rewrite (frame_word _ _ _ _ _ _ F) by lia. apply word_zero. intros i Hi. rewrite (frame_mem _ _ _ _ _ _ F1) by lia. apply Hz. lia.
Qed.

Lemma bind_assoc {S A B C} (m : M S A) (f : A → M S B) (g : B → M S C) s : bind m (λ a, bind (f a) g) s = bind (bind m f) g s.
Proof. unfold bind. by destruct (m s). Qed.

Lemma finishfile_eq file st len : 0 ≤ len < 2 ^ 31 → finishfile file st len = (do* put32 file (f_size 0) len in
  do* for_up (Z.to_nat (Z.min (nb_of len) NDIRECT)) 0 (λ i, put32 file (f_direct 0 i) (u32 (st + i))) in
  if NDIRECT <=? nb_of len then
    let* index := alloc BLKSIZE in
    do* put32 file (f_indirect 0) (blockof index) in
    for_up (Z.to_nat (nb_of len - NDIRECT)) NDIRECT (λ i, put32 (On_disk index) (4 * (i - NDIRECT)) (u32 (st + i)))
  else ret tt).
Proof.
  intros H. unfold finishfile. rewrite ROUNDUP_eq by done. assert (4096 * nb_of len / BLKSIZE = nb_of len) as ->; [|done].
  change BLKSIZE with 4096. rewrite Z.mul_comm. by apply Z.div_mul.
Qed.

(** The index block of a file with ten blocks or more. *)
Lemma finish_index o st len s P : diskpos s = 4096 * P → P + 1 < nblocks s → nblocks s ≤ 4096 → st + nb_of len = P → 0 ≤ st → 10 ≤ nb_of len ≤ 1034 →
  (∀ x, 4096 * P ≤ x < 4096 * (P + 1) → disk s x = 0) →
  ∃ s', (let* index := alloc BLKSIZE in do* put32 (In_ents o) (f_indirect 0) (blockof index) in
      for_up (Z.to_nat (nb_of len - NDIRECT)) NDIRECT (λ i, put32 (On_disk index) (4 * (i - NDIRECT)) (u32 (st + i)))) s = Ret tt s' ∧
    touched (4096 * P) (4096 * (P + 1)) (o + 176) (o + 180) s s' ∧ diskpos s' = 4096 * (P + 1) ∧ ents_n s' = ents_n s ∧ word_at (ents s') (o + 176) = P ∧
    ∀ n, 10 ≤ n < 1034 → word_at (disk s') (4096 * P + 4 * (n - 10)) = if n <? nb_of len then st + n else 0.
Proof.
  intros Hp HP Hm Hst H0 Hnb Hz. rewrite (bind_eq _ _ _ _ _ (alloc_ok BLKSIZE s P ltac:(change BLKSIZE with 4096; lia) Hp ltac:(lia) HP Hm)).
  change (nb_of BLKSIZE) with 1. set (s1 := set_diskpos _ s). rewrite blockof_eq by lia. change (f_indirect 0) with 176. change NDIRECT with 10.
  destruct (put32_ok (In_ents o) 176 P s1) as (s2 & E2 & F2 & W2). rewrite (bind_eq _ _ _ _ _ E2).
  assert (∀ n s, for_up n 10 (λ i, put32 (On_disk (4096 * P)) (4 * (i - 10)) (u32 (st + i))) s = for_up n 10 (λ i, put32 (On_disk (4096 * P)) (-40 + 4 * i) (u32 (st + i))) s) as Ef.
  { intros n. generalize 10 at 1 3. induction n as [|n IH]; intros lo s0; cbn [for_up]; [done|]. replace (4 * (lo - 10)) with (-40 + 4 * lo) by lia. unfold bind. destruct (put32 _ _ _ s0); [|done..]. apply IH. }
  rewrite Ef. destruct (put_words (On_disk (4096 * P)) (-40) (λ i, u32 (st + i)) (Z.to_nat (nb_of len - 10)) 10 s2) as (s' & E & F & W). rewrite Z2Nat.id in * by lia.
  exists s'. split; [exact E|]. split; [|split; [|split; [|split]]].
  - eapply touched_trans; [apply touched_pos|]. fold s1. eapply touched_trans.
    + eapply touched_wide; [exact (touched_ents _ _ _ _ _ (4096 * P) (4096 * P) F2)|lia..].
    + eapply touched_wide; [exact (touched_disk _ _ _ _ _ (o + 176) (o + 176) F)|lia..].
  - rewrite (fr_pos _ _ _ _ _ F), (fr_pos _ _ _ _ _ F2). done.
  - rewrite (fr_n _ _ _ _ _ F), (fr_n _ _ _ _ _ F2). done.
  - rewrite <- (mem_word (In_ents o) o s' 176) by auto. transitivity (word_at (mem_of (In_ents o) s2) 176); [|rewrite W2; apply u32_small; unfold is_u32; lia].
    apply word_ext. intros i Hi. cbn. apply (fr_ents _ _ _ _ _ F). done.
  - intros n Hn. replace (4096 * P + 4 * (n - 10)) with (4096 * P + (-40 + 4 * n)) by lia. change (disk s') with (match On_disk (4096 * P) with On_disk _ => disk s' | In_ents _ => ents s' end).
    rewrite <- mem_word by auto. destruct (Z.ltb_spec n (nb_of len)).
    + rewrite W by lia. rewrite !u32_small; unfold is_u32; rewrite ?u32_small; unfold is_u32; lia.
    + rewrite (frame_word _ _ _ _ _ _ F) by lia. apply word_zero. intros i Hi. cbn. rewrite (fr_disk _ _ _ _ _ F2) by done. apply Hz. lia.
Qed.

Lemma nb_max size : 0 ≤ size < MAXFILESIZE → nb_of size ≤ 1034.
Proof. intros H. change MAXFILESIZE with 4235264 in H. unfold nb_of. dlia. Qed.

Lemma finish_ents o st len s : diskpos s = 4096 * (st + nb_of len) → st + span len < nblocks s → nblocks s ≤ 4096 → 0 ≤ st → 0 ≤ len < MAXFILESIZE →
  (∀ x, 4096 * (st + nb_of len) ≤ x → disk s x = 0) → (∀ k, 136 ≤ k < 180 → ents s (o + k) = 0) →
  ∃ s', finishfile (In_ents o) st len s = Ret tt s' ∧ touched (4096 * (st + nb_of len)) (4096 * (st + span len)) (o + 128) (o + 180) s s' ∧
    diskpos s' = 4096 * (st + span len) ∧ ents_n s' = ents_n s ∧ (∀ k, 132 ≤ k < 136 → ents s' (o + k) = ents s (o + k)) ∧ word_at (ents s') (o + 128) = len ∧
    (∀ n, 0 ≤ n < 10 → word_at (ents s') (o + 136 + 4 * n) = if n <? nb_of len then st + n else 0) ∧
    word_at (ents s') (o + 176) = (if nb_of len <? 10 then 0 else st + nb_of len) ∧
    (10 ≤ nb_of len → ∀ n, 10 ≤ n < 1034 → word_at (disk s') (4096 * (st + nb_of len) + 4 * (n - 10)) = if n <? nb_of len then st + n else 0).
Proof.
  intros Hp Hn Hm Hst Hl Hz He. pose proof (nb_max len Hl) as Hmax. destruct (nb_bounds len) as [Hnb _]; [lia|]. assert (len < 2 ^ 31) as Hl31 by (change MAXFILESIZE with 4235264 in Hl; lia).
  assert (nb_of len ≤ span len) as Hsp by (unfold span; destruct (Z.ltb_spec (nb_of len) 10); lia). rewrite finishfile_eq by lia.
  destruct (finish_direct (In_ents o) st len s) as (s1 & E1 & F1 & T1 & W1 & D1); [done|lia|lia|intros k Hk; apply He; lia|].
  rewrite bind_assoc, (bind_eq _ _ _ _ _ E1). pose proof (touched_ents _ _ _ _ _ (4096 * (st + nb_of len)) (4096 * (st + nb_of len)) F1) as To1.
  assert (∀ n, 0 ≤ n < 10 → word_at (ents s1) (o + 136 + 4 * n) = if n <? nb_of len then st + n else 0) as D1'.
  { intros n Hn'. rewrite <- D1 by done. rewrite <- Z.add_assoc. symmetry. exact (mem_word (In_ents o) o s1 (136 + 4 * n) (or_intror eq_refl)). }
  assert (word_at (ents s1) (o + 128) = len) as W1' by (rewrite <- W1; symmetry; exact (mem_word (In_ents o) o s1 128 (or_intror eq_refl))).
  change NDIRECT with 10 at 1. unfold span in *. destruct (Z.leb_spec 10 (nb_of len)) as [Hge|Hlt].
  - destruct (Z.ltb_spec (nb_of len) 10); [lia|]. destruct (finish_index o st len s1 (st + nb_of len)) as (s' & E & To & Hp' & Hn' & Wi & Wx);
      [by rewrite (fr_pos _ _ _ _ _ F1)|rewrite (fr_nblocks _ _ _ _ _ F1); lia|by rewrite (fr_nblocks _ _ _ _ _ F1)|done|done|lia|intros x Hx; rewrite (fr_disk _ _ _ _ _ F1) by done; apply Hz; lia|].
    assert (∀ a, a + 4 ≤ o + 176 → word_at (ents s') a = word_at (ents s1) a) as Hk by (intros a Ha; apply word_ext; intros i Hi; apply (to_ents _ _ _ _ _ _ To); lia).
    exists s'. split; [exact E|]. split; [eapply touched_trans; (eapply touched_wide; [done|lia..])|]. split; [rewrite Hp'; lia|]. split; [rewrite Hn'; apply F1|].
    split; [intros k Hk'; rewrite (to_ents _ _ _ _ _ _ To) by lia; by apply T1|]. split; [by rewrite Hk by lia|]. split; [intros n Hn''; rewrite Hk by lia; by apply D1'|]. split; [done|]. intros _. exact Wx.
  - destruct (Z.ltb_spec (nb_of len) 10); [|lia]. exists s1. split; [done|]. split; [eapply touched_wide; [exact To1|lia..]|]. split; [rewrite (fr_pos _ _ _ _ _ F1), Hp; lia|]. split; [apply F1|].
    split; [exact T1|]. split; [done|]. split; [done|]. split; [|lia]. apply word_zero. intros i Hi. rewrite (fr_ents _ _ _ _ _ F1) by lia. rewrite <- Z.add_assoc. apply He. lia.
Qed.

(** ** Writing the files *)

(** A file that can be put on the disk. *)
Record host_ok (h : hostfile) : Prop := {
  hk_regular : h_regular h = true; hk_size : Z.of_nat (length (h_data h)) < MAXFILESIZE; hk_bytes : Forall (λ c, 0 ≤ c < 256) (h_data h);
  hk_reads : Forall (λ m, 0 < m) (h_reads h); hk_all : total (h_reads h) = Z.of_nat (length (h_data h)) }.

Definition size_in (data : list Z) : Z := Z.of_nat (length data).
Definition byte_in (data : list Z) (i : Z) : Z := default 0 (data !! Z.to_nat i).

Lemma diradd_ok name s k : ents_n s = k → 0 ≤ k < MAX_DIR_ENTS → name_ok name →
  ∃ s', diradd FTYPE_REG name s = Ret (In_ents (k * 256)) s' ∧ touched 0 0 (256 * k) (256 * k + 136) s s' ∧ diskpos s' = diskpos s ∧ ents_n s' = k + 1 ∧
    (∀ i, 0 ≤ i ≤ Z.of_nat (length name) → ents s' (256 * k + i) = default 0 (name !! Z.to_nat i)) ∧ word_at (ents s') (256 * k + 132) = FTYPE_REG.
Proof.
  intros Hn Hk [Hc Hl]. unfold diradd. rewrite (bind_eq (gets _) _ _ _ _ eq_refl), (bind_eq (modify _) _ _ _ _ eq_refl), Hn. destruct (Z.ltb_spec MAX_DIR_ENTS (k + 1)); [lia|].
  set (s1 := set_ents _ _ s). change sizeof_File with 256. unfold strcpy. destruct (poke_ok (In_ents (k * 256)) 0 (Z.of_nat (length name) + 1) (λ k, default 0 (name !! Z.to_nat k)) s1) as (s2 & E2 & F2 & M2).
  { intros i Hi. destruct (name !! Z.to_nat i) as [c|] eqn:E; cbn; [|lia]. pose proof (Forall_lookup_1 _ _ _ _ Hc E) as H'. cbn in H'. lia. }
  rewrite (bind_eq _ _ _ _ _ E2). change (f_type 0) with 132. destruct (put32_ok (In_ents (k * 256)) 132 FTYPE_REG s2) as (s3 & E3 & F3 & W3). rewrite (bind_eq _ _ _ _ _ E3).
  exists s3. split; [done|]. assert (touched 0 0 (256 * k) (256 * k + 136) s s1) as T1 by (by split). split; [|split; [|split; [|split]]].
  - eapply touched_trans; [exact T1|]. eapply touched_trans; [eapply touched_wide; [exact (touched_ents _ _ _ _ _ 0 0 F2)|lia..]|eapply touched_wide; [exact (touched_ents _ _ _ _ _ 0 0 F3)|lia..]].
  - rewrite (fr_pos _ _ _ _ _ F3), (fr_pos _ _ _ _ _ F2). done.
  - rewrite (fr_n _ _ _ _ _ F3), (fr_n _ _ _ _ _ F2). done.
  - intros i Hi. rewrite (fr_ents _ _ _ _ _ F3) by lia. specialize (M2 i ltac:(lia)). cbn in M2. rewrite Z.add_0_l in M2. by replace (256 * k + i) with (k * 256 + i) by lia.
  - rewrite mem_word with (a := k * 256) in W3 by auto. replace (256 * k + 132) with (k * 256 + 132) by lia. rewrite W3. done.
Qed.

(** What [writefile] leaves: the file in the next blocks, its descriptor in the next entry. *)
Lemma writefile_ok host arg h s k P : host arg = Some h → host_ok h → name_ok (last_part arg) → ents_n s = k → 0 ≤ k < MAX_DIR_ENTS → diskpos s = 4096 * P → 0 ≤ P →
  P + span (size_in (h_data h)) < nblocks s → nblocks s ≤ 4096 → (∀ x, 4096 * P ≤ x → disk s x = 0) → (∀ x, 256 * k ≤ x < 256 * k + 256 → ents s x = 0) →
  ∃ s', writefile host arg s = Ret tt s' ∧ touched (4096 * P) (4096 * (P + span (size_in (h_data h)))) (256 * k) (256 * k + 256) s s' ∧
    diskpos s' = 4096 * (P + span (size_in (h_data h))) ∧ ents_n s' = k + 1 ∧
    placed (disk s') (ents s') (256 * k) (last_part arg) FTYPE_REG (size_in (h_data h)) P (byte_in (h_data h)).
Proof.
  intros Hh [H1 H2 H3 H4 H5] Hname Hn Hk Hp HP Hb Hm Hz He. unfold writefile. rewrite Hh, H1. cbn [negb]. destruct (Z.leb_spec MAXFILESIZE (Z.of_nat (length (h_data h)))); [lia|].
  fold (size_in (h_data h)) in *. set (size := size_in (h_data h)) in *. assert (0 ≤ size) as Hs0 by (unfold size, size_in; lia). destruct (nb_bounds size Hs0) as [Hnb Hsz].
  assert (nb_of size ≤ span size) as Hsp by (unfold span; destruct (Z.ltb_spec (nb_of size) 10); lia). assert (size < 2 ^ 31) as Hs31 by (change MAXFILESIZE with 4235264 in *; lia).
  destruct (diradd_ok (last_part arg) s k Hn Hk Hname) as (s1 & E1 & T1 & P1 & N1 & M1 & Y1). rewrite (bind_eq _ _ _ _ _ E1).
  rewrite (bind_eq _ _ _ _ _ (alloc_ok size s1 P ltac:(lia) ltac:(by rewrite P1) HP ltac:(rewrite (to_nblocks _ _ _ _ _ _ T1); lia) ltac:(by rewrite (to_nblocks _ _ _ _ _ _ T1)))).
  set (s2 := set_diskpos _ s1). destruct (readn_ok (h_data h) (4096 * P) size (h_reads h) H3 0 s2) as (s3 & E3 & F3 & M3); [done|lia|lia|]. unfold readn. rewrite (bind_eq _ _ _ _ _ E3), blockof_eq by lia.
  assert (nblocks s3 = nblocks s) as N3 by (rewrite (fr_nblocks _ _ _ _ _ F3); exact (to_nblocks _ _ _ _ _ _ T1)). assert (∀ x, ents s3 x = ents s1 x) as En3 by (intros x; by rewrite (fr_ents _ _ _ _ _ F3)).
  replace (k * 256) with (256 * k) by lia. destruct (finish_ents (256 * k) P size s3) as (s' & E & T & Hp' & Hn' & Hty & Wsz & Wd & Wi & Wx); try done; [by rewrite (fr_pos _ _ _ _ _ F3)|by rewrite N3|by rewrite N3| | |].
  { intros x Hx. rewrite (fr_disk _ _ _ _ _ F3) by lia. cbn. rewrite (to_disk _ _ _ _ _ _ T1) by lia. apply Hz. lia. }
  { intros i Hi. rewrite En3, (to_ents _ _ _ _ _ _ T1) by lia. apply He. lia. }
  exists s'. split; [exact E|]. split; [|split; [done|split; [rewrite Hn', (fr_n _ _ _ _ _ F3); exact N1|]]].
  - assert (touched (4096 * P) (4096 * P) (256 * k) (256 * k + 136) s s1) as T1' by (split; [intros x _; apply (to_disk _ _ _ _ _ _ T1); lia|apply T1..]).
    eapply touched_trans; [eapply touched_wide; [exact T1'|lia..]|].
    eapply touched_trans; [apply touched_pos|]. fold s2. eapply touched_trans; [eapply touched_wide; [exact (touched_disk _ _ _ _ _ (256 * k) (256 * k) F3)|lia..]|eapply touched_wide; [exact T|lia..]].
  - split; try done.
    + intros i Hi. destruct Hname as [_ Hl]. rewrite (to_ents _ _ _ _ _ _ T) by lia. rewrite En3. by apply M1.
    + rewrite <- Y1. apply word_ext. intros i Hi. rewrite <- Z.add_assoc, Hty by lia. by rewrite En3, Z.add_assoc.
    + intros n Hge Hn''. by apply Wx.
    + intros i Hi. rewrite (to_disk _ _ _ _ _ _ T) by lia. by apply M3.
Qed.

(** The files one after the other. *)
Fixpoint laid (D H : Z → Z) (k P : Z) (files : list (list Z * list Z)) : Prop :=
  match files with
  | [] => True
  | (name, data) :: l => placed D H (256 * k) name FTYPE_REG (size_in data) P (byte_in data) ∧ laid D H (k + 1) (P + span (size_in data)) l
  end.

Fixpoint spans (files : list (list Z * list Z)) : Z := match files with [] => 0 | (_, data) :: l => span (size_in data) + spans l end.

Definition wanted (host : list Z → option hostfile) (arg : list Z) (f : list Z * list Z) : Prop :=
  ∃ h, host arg = Some h ∧ host_ok h ∧ name_ok (last_part arg) ∧ last_part arg ≠ [] ∧ f = (last_part arg, h_data h).

Lemma file_span_nonneg data : 0 ≤ span (size_in data).
Proof. unfold span, size_in. destruct (nb_bounds (Z.of_nat (length data))) as [H _]; [lia|]. destruct (_ <? _); lia. Qed.

Lemma spans_nonneg files : 0 ≤ spans files.
Proof. induction files as [|[n d] l IH]; cbn [spans]; [lia|]. pose proof (file_span_nonneg d). lia. Qed.

Lemma placed_after D H D' H' k name data P Q : placed D H (256 * k) name FTYPE_REG (size_in data) P (byte_in data) → (length name < 128)%nat →
  P + span (size_in data) ≤ Q → (∀ x, x < 4096 * Q → 4096 * P ≤ x → D' x = D x) → (∀ x, x < 256 * (k + 1) → H' x = H x) →
  placed D' H' (256 * k) name FTYPE_REG (size_in data) P (byte_in data).
Proof. intros Hp Hn HQ HD HH. eapply placed_ext; [exact Hp|unfold size_in; lia|done|intros x Hx; apply HD; lia|intros i Hi; apply HH; lia]. Qed.

Lemma writefiles_ok host args files : Forall2 (wanted host) args files → ∀ s k P, ents_n s = k → 0 ≤ k → k + Z.of_nat (length files) ≤ MAX_DIR_ENTS → diskpos s = 4096 * P → 0 ≤ P →
  P + spans files < nblocks s → nblocks s ≤ 4096 → (∀ x, 4096 * P ≤ x → disk s x = 0) → (∀ x, 256 * k ≤ x → ents s x = 0) →
  ∃ s', writefiles host args s = Ret tt s' ∧ touched (4096 * P) (4096 * (P + spans files)) (256 * k) (256 * (k + Z.of_nat (length files))) s s' ∧
    diskpos s' = 4096 * (P + spans files) ∧ ents_n s' = k + Z.of_nat (length files) ∧ laid (disk s') (ents s') k P files.
Proof.
  induction 1 as [|arg f args files (h & Hh & Hok & Hname & _ & ->) _ IH]; intros s k P Hn Hk Hmax Hp HP Hb Hm Hz He; cbn [writefiles spans length laid] in *.
  { exists s. split; [done|]. split; [by split|]. rewrite !Z.add_0_r. done. }
  pose proof (spans_nonneg files). pose proof (file_span_nonneg (h_data h)). set (sp := span (size_in (h_data h))) in *.
  destruct (writefile_ok host arg h s k P Hh Hok Hname Hn) as (s1 & E1 & T1 & P1 & N1 & L1); [lia|done|done|fold sp; lia|done|done|intros x Hx; apply He; lia|]. fold sp in T1, P1.
  rewrite (bind_eq _ _ _ _ _ E1). destruct (IH s1 (k + 1) (P + sp)) as (s' & E & T & P' & N' & L'); [done|lia|lia|done|lia|rewrite (to_nblocks _ _ _ _ _ _ T1); lia|by rewrite (to_nblocks _ _ _ _ _ _ T1)| | |].
  { intros x Hx. rewrite (to_disk _ _ _ _ _ _ T1) by lia. apply Hz. lia. }
  { intros x Hx. rewrite (to_ents _ _ _ _ _ _ T1) by lia. apply He. lia. }
  exists s'. split; [done|]. split; [eapply touched_trans; [eapply touched_wide; [exact T1|lia..]|eapply touched_wide; [exact T|lia..]]|]. split; [rewrite P'; lia|]. split; [rewrite N'; lia|]. split; [|done].
  eapply (placed_after _ _ _ _ _ _ _ _ (P + sp)); [exact L1|destruct Hname; lia|fold sp; lia|intros x Hx Hx'; apply (to_disk _ _ _ _ _ _ T); lia|intros x Hx; apply (to_ents _ _ _ _ _ _ T); lia].
Qed.

(** ** The disk before the files *)

Definition ROOT_off : Z := 4104.

(** Super block, root and bitmap; [used] blocks are taken. *)
Record opened (n : Z) (s : fmt) : Prop := {
  op_pos : diskpos s = 4096 * 3; op_super : super s = 4096; op_bitmap : bitmap s = 8192; op_nblocks : nblocks s = n;
  op_magic : word_at (disk s) 4096 = FS_MAGIC; op_n : word_at (disk s) 4100 = n; op_type : word_at (disk s) (ROOT_off + 132) = FTYPE_DIR;
  op_name k : 0 ≤ k ≤ 1 → disk s (ROOT_off + k) = default 0 ([47] !! Z.to_nat k); op_zero k : 136 ≤ k < 180 → disk s (ROOT_off + k) = 0;
  op_bm x : 8192 ≤ x < 12288 → disk s x = 255; op_rest x : 12288 ≤ x → disk s x = 0; op_bytes x : 0 ≤ disk s x < 256 }.

(** The super block and the root, on a disk of zeros. *)
Lemma super_written n s : 0 ≤ n < 2 ^ 32 → (∀ x, disk s x = 0) →
  ∃ s', (do* put32 (On_disk 4096) 0 FS_MAGIC in do* put32 (On_disk 4096) 4 n in do* put32 (On_disk ROOT_off) 132 FTYPE_DIR in strcpy (On_disk ROOT_off) [47]) s = Ret tt s' ∧
    frame (On_disk 4096) 0 144 s s' ∧ word_at (disk s') 4096 = FS_MAGIC ∧ word_at (disk s') 4100 = n ∧ word_at (disk s') (ROOT_off + 132) = FTYPE_DIR ∧
    ∀ k, 0 ≤ k ≤ 1 → disk s' (ROOT_off + k) = default 0 ([47] !! Z.to_nat k).
Proof.
  intros Hn Hz. unfold ROOT_off. destruct (put32_ok (On_disk 4096) 0 FS_MAGIC s) as (s4 & E4 & F4 & W4). rewrite (bind_eq _ _ _ _ _ E4).
  destruct (put32_ok (On_disk 4096) 4 n s4) as (s5 & E5 & F5 & W5). rewrite (bind_eq _ _ _ _ _ E5). destruct (put32_ok (On_disk 4104) 132 FTYPE_DIR s5) as (s6 & E6 & F6 & W6). rewrite (bind_eq _ _ _ _ _ E6).
  destruct (poke_ok (On_disk 4104) 0 2 (λ k, default 0 ([47] !! Z.to_nat k)) s6) as (s7 & E7 & F7 & M7).
  { intros k Hk. assert (k = 0 ∨ k = 1) as [->| ->] by lia; done. }
  assert (∀ a lo hi s s', frame (On_disk (4096 + a)) lo hi s s' → frame (On_disk 4096) (a + lo) (a + hi) s s') as Hsh.
  { intros a lo hi t t' [G1 G2 G3 G4 G5 G6 G7 G8]. split; try done. intros x Hx. apply G1. lia. }
  apply (Hsh 8) in F6, F7. exists s7. split; [exact E7|].
  split; [eapply frame_trans; [eapply frame_wide; [exact F4|lia..]|eapply frame_trans; [eapply frame_wide; [exact F5|lia..]|eapply frame_trans; [eapply frame_wide; [exact F6|lia..]|eapply frame_wide; [exact F7|lia..]]]]|].
  assert (∀ t o, word_at (disk t) (4096 + o) = word_at (mem_of (On_disk 4096) t) o) as Hw by (intros t o; symmetry; exact (mem_word (On_disk 4096) 4096 t o (or_introl eq_refl))).
  split; [change 4096 with (4096 + 0) at 1; rewrite Hw, (frame_word _ _ _ _ _ _ F7), (frame_word _ _ _ _ _ _ F6), (frame_word _ _ _ _ _ _ F5) by lia; by rewrite W4|].
  split; [change 4100 with (4096 + 4); rewrite Hw, (frame_word _ _ _ _ _ _ F7), (frame_word _ _ _ _ _ _ F6) by lia; rewrite W5; by apply u32_small|].
  split; [|intros k Hk; specialize (M7 k ltac:(lia)); cbn in M7; by rewrite Z.add_0_l in M7].
  change (4104 + 132) with (4096 + 140). rewrite Hw, (frame_word _ _ _ _ _ _ F7) by lia. rewrite <- Hw. change (4096 + 140) with (4104 + 132).
  rewrite <- (mem_word (On_disk 4104) 4104 s6 132) by auto. by rewrite W6.
Qed.

Lemma run4 {S T} (a b c d : M S unit) (k : M S T) s s' : (do* a in do* b in do* c in d) s = Ret tt s' → (do* a in do* b in do* c in do* d in k) s = k s'.
Proof. unfold bind. destruct (a s) as [? s1| | |]; try done. destruct (b s1) as [? s2| | |]; try done. destruct (c s2) as [? s3| | |]; try done. by intros ->. Qed.

Lemma opendisk_ok n s : nblocks s = n → 4 ≤ n ≤ 4096 → (∀ x, 0 ≤ ents s x < 256) → ∃ s', opendisk s = Ret tt s' ∧ opened n s'.
Proof.
  intros Hn Hr He. unfold opendisk. rewrite (bind_eq (modify _) _ _ _ _ eq_refl). set (s0 := set_diskpos 0 _). assert (bytes_ok s0) as B0 by (intros x; split; [cbn; lia|apply He]).
  assert (nb_of BLKSIZE = 1) as E1 by done. assert (0 ≤ BLKSIZE < 2 ^ 31) as Hblk by (change BLKSIZE with 4096; lia). assert (nblocks s0 = n) as N0 by done.
  rewrite (bind_eq _ _ _ _ _ (alloc_ok BLKSIZE s0 0 Hblk eq_refl ltac:(lia) ltac:(lia) ltac:(lia))). set (s1 := set_diskpos _ s0). assert (nblocks s1 = n) as N1 by done.
  rewrite (bind_eq _ _ _ _ _ (alloc_ok BLKSIZE s1 1 Hblk eq_refl ltac:(lia) ltac:(lia) ltac:(lia))). set (s2 := set_diskpos _ s1).
  rewrite (bind_eq (modify _) _ _ _ _ eq_refl). change (4096 * 1) with 4096. set (s3 := set_super 4096 s2). rewrite (bind_eq (gets _) _ _ _ _ eq_refl). change (nblocks s3) with (nblocks s). rewrite Hn.
  change (s_root 4096) with ROOT_off. change (f_type 0) with 132. destruct (super_written n s3) as (s7 & E7 & F7 & W1 & W2 & W3 & M7); [lia|done|].
  change BLKBITSIZE with 32768. replace ((n + 32768 - 1) / 32768) with 1 by dlia. rewrite Z.mul_1_l, (run4 _ _ _ _ _ _ _ E7).
  rewrite (bind_eq _ _ _ _ _ (alloc_ok BLKSIZE s7 2 Hblk ltac:(by rewrite (fr_pos _ _ _ _ _ F7)) ltac:(lia) ltac:(rewrite (fr_nblocks _ _ _ _ _ F7); change (nblocks s3) with (nblocks s); lia)
    ltac:(rewrite (fr_nblocks _ _ _ _ _ F7); change (nblocks s3) with (nblocks s); lia))), (bind_eq (modify _) _ _ _ _ eq_refl), E1.
  set (s8 := set_bitmap _ _). change BLKSIZE with 4096. change (4096 * 2) with 8192. destruct (poke_ok (On_disk 8192) 0 4096 (λ _, 0xFF) s8) as (s9 & E9 & F9 & M9); [lia|].
  exists s9. split; [exact E9|]. assert (∀ x, ¬ 8192 ≤ x < 12288 → disk s9 x = disk s7 x) as D9 by (intros x Hx; rewrite (fr_disk _ _ _ _ _ F9) by lia; done).
  assert (∀ o, o + 4 ≤ 8192 → word_at (disk s9) o = word_at (disk s7) o) as Hw by (intros o Ho; apply word_ext; intros i Hi; apply D9; lia). unfold ROOT_off in *.
  split; rewrite ?Hw by lia; try done.
  - by rewrite (fr_pos _ _ _ _ _ F9).
  - rewrite (fr_super _ _ _ _ _ F9). cbn. by rewrite (fr_super _ _ _ _ _ F7).
  - by rewrite (fr_bitmap _ _ _ _ _ F9).
  - rewrite (fr_nblocks _ _ _ _ _ F9). cbn. by rewrite (fr_nblocks _ _ _ _ _ F7).
  - unfold ROOT_off. by rewrite Hw by lia.
  - intros k Hk. unfold ROOT_off. rewrite D9 by lia. by apply M7.
  - intros k Hk. unfold ROOT_off. rewrite D9 by lia. rewrite (fr_disk _ _ _ _ _ F7) by lia. done.
  - intros x Hx. specialize (M9 (x - 8192) ltac:(lia)). change (disk s9 (8192 + (0 + (x - 8192))) = 255) in M9. by replace (8192 + (0 + (x - 8192))) with x in M9 by lia.
  - intros x Hx. rewrite D9 by lia. rewrite (fr_disk _ _ _ _ _ F7) by lia. done.
  - intros x. by apply (fr_bytes _ _ _ _ _ F9), (fr_bytes _ _ _ _ _ F7).
Qed.

(** ** The root directory and the bitmap *)

Lemma finishdir_ok s n Q : ents_n s = n → 1 ≤ n ≤ MAX_DIR_ENTS → diskpos s = 4096 * Q → 3 ≤ Q → Q + nb_of (256 * n) < nblocks s → nblocks s ≤ 4096 → bytes_ok s →
  (∀ k, 136 ≤ k < 176 → disk s (ROOT_off + k) = 0) →
  ∃ s', finishdir (On_disk ROOT_off) s = Ret tt s' ∧ diskpos s' = 4096 * (Q + nb_of (256 * n)) ∧ bitmap s' = bitmap s ∧ nblocks s' = nblocks s ∧ bytes_ok s' ∧
    (∀ x, ¬ (4096 * Q ≤ x < 4096 * Q + 256 * n) → ¬ (ROOT_off + 128 ≤ x < ROOT_off + 132) → ¬ (ROOT_off + 136 ≤ x < ROOT_off + 176) → disk s' x = disk s x) ∧
    (∀ i, 0 ≤ i < 256 * n → disk s' (4096 * Q + i) = ents s i) ∧ word_at (disk s') (ROOT_off + 128) = 4096 * nb_of (256 * n) ∧
    ∀ k, 0 ≤ k < 10 → word_at (disk s') (ROOT_off + 136 + 4 * k) = if k <? nb_of (256 * n) then Q + k else 0.
Proof.
  intros Hn Hr Hp HQ Hb Hm B Hz. change MAX_DIR_ENTS with 128 in Hr. set (nd := nb_of (256 * n)) in *. assert (1 ≤ nd ≤ 8) as Hnd by (unfold nd, nb_of; dlia).
  assert (nb_of (4096 * nd) = nd) as Hnn by (unfold nb_of at 1; dlia). unfold finishdir. rewrite (bind_eq (gets _) _ _ _ _ eq_refl), Hn. change sizeof_File with 256. replace (n * 256) with (256 * n) by lia.
  rewrite (bind_eq _ _ _ _ _ (alloc_ok (256 * n) s Q ltac:(lia) Hp ltac:(lia) Hb Hm)). fold nd. set (s1 := set_diskpos _ s). rewrite (bind_eq (gets _) _ _ _ _ eq_refl).
  destruct (poke_ok (On_disk (4096 * Q)) 0 (256 * n) (ents s1) s1) as (s2 & E2 & F2 & M2); [intros k Hk; apply B|]. rewrite (bind_eq _ _ _ _ _ E2). rewrite blockof_eq by lia.
  rewrite ROUNDUP_int_eq by lia. fold nd. rewrite finishfile_eq by lia. rewrite Hnn.
  destruct (finish_direct (On_disk ROOT_off) Q (4096 * nd) s2) as (s3 & E3 & F3 & T3 & W3 & D3); [lia|lia|lia|intros k Hk; cbn; rewrite (fr_disk _ _ _ _ _ F2) by (unfold ROOT_off; lia); by apply Hz|].
  rewrite Hnn in E3, D3. rewrite bind_assoc, (bind_eq _ _ _ _ _ E3). change NDIRECT with 10. destruct (Z.leb_spec 10 nd); [lia|].
  exists s3. split; [done|]. split; [rewrite (fr_pos _ _ _ _ _ F3), (fr_pos _ _ _ _ _ F2); done|]. split; [rewrite (fr_bitmap _ _ _ _ _ F3), (fr_bitmap _ _ _ _ _ F2); done|].
  split; [rewrite (fr_nblocks _ _ _ _ _ F3), (fr_nblocks _ _ _ _ _ F2); done|]. split; [by apply (fr_bytes _ _ _ _ _ F3), (fr_bytes _ _ _ _ _ F2)|]. split; [|split; [|split]].
  - intros x H1 H2 H3. destruct (decide (ROOT_off + 128 ≤ x < ROOT_off + 176)) as [Hx|Hx].
    + specialize (T3 (x - ROOT_off) ltac:(lia)). cbn in T3. replace (ROOT_off + (x - ROOT_off)) with x in T3 by lia. rewrite T3. rewrite (fr_disk _ _ _ _ _ F2) by lia. done.
    + rewrite (fr_disk _ _ _ _ _ F3), (fr_disk _ _ _ _ _ F2) by lia. done.
  - intros i Hi. rewrite (fr_disk _ _ _ _ _ F3) by (unfold ROOT_off; lia). specialize (M2 i Hi). cbn in M2. exact M2.
  - rewrite <- W3. symmetry. exact (mem_word (On_disk ROOT_off) ROOT_off s3 128 (or_introl eq_refl)).
  - intros k Hk. rewrite <- D3 by done. rewrite <- Z.add_assoc. symmetry. exact (mem_word (On_disk ROOT_off) ROOT_off s3 (136 + 4 * k) (or_introl eq_refl)).
Qed.

(** Bit [b] of the bitmap. *)
Definition bit (D : Z → Z) (b : Z) : bool := Z.testbit (word_at D (8192 + 4 * (b / 32))) (b mod 32).

Lemma bit_clear D D' i b : (∀ o, o ≠ 8192 + 4 * (i / 32) → o mod 4 = 0 → word_at D' o = word_at D o) →
  word_at D' (8192 + 4 * (i / 32)) = u32 (Z.land (word_at D (8192 + 4 * (i / 32))) (Z.lnot (Z.shiftl 1 (i mod 32)))) → 0 ≤ i → 0 ≤ b →
  bit D' b = bit D b && negb (b =? i).
Proof.
  intros Ho Hw Hi Hb. unfold bit. destruct (decide (b / 32 = i / 32)) as [E|E].
  - rewrite E, Hw. unfold u32. rewrite Z.mod_pow2_bits_low by dlia. rewrite Z.land_spec, Z.lnot_spec by dlia. rewrite Z.shiftl_1_l, Z.pow2_bits_eqb by dlia. do 2 f_equal.
    destruct (Z.eqb_spec (i mod 32) (b mod 32)), (Z.eqb_spec b i); try done; exfalso; dlia.
  - rewrite Ho by (dlia || lia). destruct (Z.eqb_spec b i); [subst; done|]. by rewrite andb_true_r.
Qed.

Lemma clear_bits n : ∀ lo s, 0 ≤ lo → lo + Z.of_nat n ≤ 4096 → ∃ s', for_up n lo (λ i, let* w := gets (λ s, word_at (disk s) (8192 + 4 * (i / 32))) in
    put32 (On_disk 8192) (4 * (i / 32)) (Z.land w (Z.lnot (Z.shiftl 1 (i mod 32))))) s = Ret tt s' ∧
  frame (On_disk 8192) 0 4096 s s' ∧ ∀ b, 0 ≤ b → bit (disk s') b = bit (disk s) b && negb ((lo <=? b) && (b <? lo + Z.of_nat n)).
Proof.
  induction n as [|n IH]; intros lo s Hlo Hle; cbn [for_up].
  { exists s. split; [done|]. split; [apply frame_refl|]. intros b Hb. destruct (Z.leb_spec lo b), (Z.ltb_spec b (lo + Z.of_nat 0)); cbn; rewrite ?andb_true_r; try done; lia. }
  destruct (put32_ok (On_disk 8192) (4 * (lo / 32)) (Z.land (word_at (disk s) (8192 + 4 * (lo / 32))) (Z.lnot (Z.shiftl 1 (lo mod 32)))) s) as (s1 & E1 & F1 & W1).
  assert ((let* w := gets (λ s, word_at (disk s) (8192 + 4 * (lo / 32))) in put32 (On_disk 8192) (4 * (lo / 32)) (Z.land w (Z.lnot (Z.shiftl 1 (lo mod 32))))) s = Ret tt s1) as E1' by exact E1.
  rewrite (bind_eq _ _ _ _ _ E1'). destruct (IH (lo + 1) s1) as (s' & E & F & Hbit); [lia|lia|]. exists s'. split; [done|].
  rewrite (mem_word (On_disk 8192) 8192 s1) in W1 by auto. cbn beta iota in W1. assert (0 ≤ lo / 32 < 128) by dlia. split.
  - eapply frame_trans; [eapply frame_wide; [exact F1|lia|lia]|exact F].
  - intros b Hb. rewrite Hbit by done. rewrite (bit_clear (disk s) (disk s1) lo b) by (try done; intros o Ho Hm; apply word_ext; intros i Hi; apply (fr_disk _ _ _ _ _ F1); dlia).
    rewrite <- andb_assoc. f_equal. destruct (Z.eqb_spec b lo), (Z.leb_spec (lo + 1) b), (Z.leb_spec lo b), (Z.ltb_spec b (lo + 1 + Z.of_nat n)), (Z.ltb_spec b (lo + Z.of_nat (S n))); try done; lia.
Qed.

Lemma finishdisk_ok s U : diskpos s = 4096 * U → 0 ≤ U ≤ 4096 → bitmap s = 8192 → (∀ x, 8192 ≤ x < 12288 → disk s x = 255) →
  ∃ s', finishdisk s = Ret tt s' ∧ frame (On_disk 8192) 0 4096 s s' ∧ ∀ b, 0 ≤ b < 32768 → bit (disk s') b = (U <=? b).
Proof.
  intros Hp HU Hbm Hff. unfold finishdisk. rewrite !(bind_eq (gets _) _ _ _ _ eq_refl), Hp, Hbm, blockof_eq by lia.
  destruct (clear_bits (Z.to_nat U) 0 s) as (s' & E & F & Hbit); [lia|lia|]. exists s'. split; [exact E|]. split; [done|]. intros b Hb. rewrite Hbit by lia. rewrite Z2Nat.id by lia.
  assert (bit (disk s) b = true) as ->.
  { unfold bit. assert (word_at (disk s) (8192 + 4 * (b / 32)) = Z.ones 32) as ->; [|apply Z.ones_spec_low; dlia]. unfold word_at. rewrite !Hff by dlia. done. }
  destruct (Z.leb_spec 0 b), (Z.ltb_spec b (0 + U)), (Z.leb_spec U b); cbn; try done; lia.
Qed.

(** ** The whole disk *)

(** [Q] is the first block of the root directory, [U] the first block that is not used. *)
Record formatted (D : Z → Z) (n Q U : Z) (files : list (list Z * list Z)) : Prop := {
  fm_n : 4 ≤ n ≤ 4096; fm_len : 1 ≤ Z.of_nat (length files) ≤ 128; fm_Q : Q = 3 + spans files; fm_U : U = Q + nb_of (256 * Z.of_nat (length files)); fm_fit : U < n;
  fm_magic : word_at D 4096 = FS_MAGIC; fm_nblk : word_at D 4100 = n;
  fm_root : placed D D ROOT_off [47] FTYPE_DIR (4096 * nb_of (256 * Z.of_nat (length files))) Q (λ i, D (4096 * Q + i));
  fm_files : laid D (λ x, D (4096 * Q + x)) 0 3 files;
  fm_empty i : 256 * Z.of_nat (length files) ≤ i < 4096 * nb_of (256 * Z.of_nat (length files)) → D (4096 * Q + i) = 0;
  fm_bits b : 0 ≤ b < 32768 → bit D b = (U <=? b); fm_bytes x : 0 ≤ D x < 256 }.

Lemma laid_ext D H D' H' files : ∀ k P, Forall (λ f, (length f.1 < 128)%nat) files → 0 ≤ k → (∀ x, 4096 * P ≤ x < 4096 * (P + spans files) → D' x = D x) →
  (∀ x, 256 * k ≤ x < 256 * (k + Z.of_nat (length files)) → H' x = H x) → laid D H k P files → laid D' H' k P files.
Proof.
  induction files as [|[name data] files IH]; intros k P Hn Hk HD HH; cbn [laid spans length] in *; [done|]. apply Forall_cons in Hn as [Hn1 Hn]. cbn in Hn1.
  pose proof (file_span_nonneg data). pose proof (spans_nonneg files). intros [L1 L2]. split.
  - eapply placed_ext; [exact L1|unfold size_in; lia|done|intros x Hx; apply HD; lia|intros i Hi; apply HH; lia].
  - apply IH; [done|lia|intros x Hx; apply HD; lia|intros x Hx; apply HH; lia|done].
Qed.

Lemma main_ok host args files s n : Forall2 (wanted host) args files → nblocks s = n → 1 ≤ Z.of_nat (length files) ≤ 128 → n ≤ 4096 →
  3 + spans files + nb_of (256 * Z.of_nat (length files)) < n → (∀ x, 0 ≤ ents s x < 256) →
  ∃ s' Q U, main host (λ _, 0) args s = Ret tt s' ∧ formatted (disk s') n Q U files.
Proof.
  intros Hw Hn Hlen Hmax Hfit He. pose proof (spans_nonneg files) as Hsp. set (len := Z.of_nat (length files)) in *. assert (1 ≤ nb_of (256 * len) ≤ 8) as Hnd by (unfold nb_of; dlia).
  set (nd := nb_of (256 * len)) in *. unfold main. rewrite (bind_eq (gets _) _ _ _ _ eq_refl), Hn. destruct (Z.ltb_spec n 2); [lia|]. destruct (Z.ltb_spec 4096 n); [lia|]. cbn [orb].
  destruct (opendisk_ok n s Hn) as (s1 & E1 & [O1 O2 O3 O4 O5 O6 O7 O8 O9 O10 O11 O12]); [lia|done|]. rewrite (bind_eq _ _ _ _ _ E1), (bind_eq (gets _) _ _ _ _ eq_refl), O2. change (s_root 4096) with ROOT_off.
  unfold startdir. rewrite (bind_eq (modify _) _ _ _ _ eq_refl). set (s2 := set_ents _ 0 s1).
  destruct (writefiles_ok host args files Hw s2 0 3) as (s3 & E3 & T3 & P3 & N3 & L3); try done; [change MAX_DIR_ENTS with 128; fold len; lia|change (nblocks s2) with (nblocks s1); lia|change (nblocks s2) with (nblocks s1); lia|].
  rewrite (bind_eq _ _ _ _ _ E3). set (Q := 3 + spans files) in *. assert (bytes_ok s3) as B3 by (apply (to_bytes _ _ _ _ _ _ T3); intros x; split; [apply O12|cbn; lia]).
  assert (nblocks s3 = n) as Nb3 by (rewrite (to_nblocks _ _ _ _ _ _ T3); exact O4). assert (∀ x, x < 12288 → disk s3 x = disk s1 x) as D3 by (intros x Hx; by rewrite (to_disk _ _ _ _ _ _ T3) by lia).
  destruct (finishdir_ok s3 len Q) as (s4 & E4 & P4 & Bm4 & Nb4 & B4 & Fr4 & En4 & Sz4 & Di4); [by rewrite N3|change MAX_DIR_ENTS with 128; lia|done|lia|fold nd; lia|lia|done|intros k Hk; rewrite D3 by (unfold ROOT_off; lia); apply O9; lia|].
  fold nd in P4, Sz4, Di4. rewrite (bind_eq _ _ _ _ _ E4). assert (∀ x, x < 12288 → x < 4232 ∨ 4280 ≤ x ∨ 4236 ≤ x < 4240 → disk s4 x = disk s1 x) as D4.
  { intros x Hx Hc. rewrite Fr4 by (unfold ROOT_off; lia). apply D3. lia. }
  destruct (finishdisk_ok s4 (Q + nd)) as (s5 & E5 & F5 & Hbit); [done|lia|rewrite Bm4, (to_bitmap _ _ _ _ _ _ T3); exact O3|intros x Hx; rewrite D4 by lia; by apply O10|].
  assert (∀ x, x < 8192 ∨ 12288 ≤ x → disk s5 x = disk s4 x) as D5 by (intros x Hx; apply (fr_disk _ _ _ _ _ F5); lia).
  assert (∀ o, o + 4 ≤ 8192 → word_at (disk s5) o = word_at (disk s4) o) as W5 by (intros o Ho; apply word_ext; intros i Hi; apply D5; lia).
  assert (∀ o, o + 4 ≤ 4232 ∨ o = 4236 → word_at (disk s4) o = word_at (disk s1) o) as W4 by (intros o Ho; apply word_ext; intros i Hi; apply D4; lia).
  exists s5, Q, (Q + nd). split; [exact E5|].
  assert (Forall (λ f : list Z * list Z, (length f.1 < 128)%nat) files) as Hnames by (clear -Hw; induction Hw as [|a f ? ? (h & _ & _ & [_ Hl] & _ & ->) _ IH]; constructor; [cbn; lia|done]).
  split; try done; try lia.
  - rewrite W5, W4 by lia. done.
  - rewrite W5, W4 by lia. done.
  - fold len nd. assert (nb_of (4096 * nd) = nd) as Hnn by (unfold nb_of at 1; dlia). unfold ROOT_off in *. split; rewrite ?Hnn; try lia; try done.
    + intros k Hk. cbn [length] in Hk. rewrite D5, D4 by lia. apply O8. lia.
    + by rewrite W5 by lia.
    + rewrite W5, W4 by lia. exact O7.
    + intros k Hk. rewrite W5 by lia. by apply Di4.
    + destruct (Z.ltb_spec nd 10); [|lia]. rewrite W5 by lia. apply word_zero. intros i Hi. rewrite D4 by lia. rewrite <- Z.add_assoc. apply O9. lia.
  - eapply laid_ext; [done|lia| | |exact L3].
    + intros x Hx. fold Q in Hx. rewrite D5 by lia. rewrite Fr4 by (unfold ROOT_off; lia). done.
    + intros x Hx. rewrite D5 by lia. apply En4. fold len in Hx. lia.
  - intros i Hi. fold len nd in Hi. rewrite D5 by lia. rewrite Fr4 by (unfold ROOT_off; lia). rewrite (to_disk _ _ _ _ _ _ T3) by (fold Q; lia). apply O11. lia.
  - by apply (fr_bytes _ _ _ _ _ F5).
Qed.

(** ** The image *)

Lemma laid_lookup D H files : ∀ k P j name data, laid D H k P files → files !! j = Some (name, data) →
  placed D H (256 * (k + Z.of_nat j)) name FTYPE_REG (size_in data) (P + spans (take j files)) (byte_in data).
Proof.
  induction files as [|[name0 data0] files IH]; intros k P j name data; [done|]. cbn [laid]. intros [L1 L2] Hj. destruct j as [|j]; cbn in Hj.
  - injection Hj as -> ->. cbn [take spans]. by rewrite !Z.add_0_r.
  - cbn [take spans]. specialize (IH (k + 1) _ j name data L2 Hj). replace (k + Z.of_nat (S j)) with (k + 1 + Z.of_nat j) by lia. by rewrite Z.add_assoc.
Qed.

Lemma spans_take files j name data : files !! j = Some (name, data) → ∀ j', (j < j')%nat → spans (take j files) + span (size_in data) ≤ spans (take j' files) ≤ spans files.
Proof.
  revert j. induction files as [|[name0 data0] files IH]; intros j Hj j' Hlt; [done|]. destruct j' as [|j']; [lia|]. pose proof (file_span_nonneg data0). cbn [take spans].
  assert (∀ m, spans (take m files) ≤ spans files) as Hle.
  { clear. intros m. rewrite <- (take_drop m files) at 2. generalize (take m files), (drop m files). intros l1 l2. induction l1 as [|[n d] l1 IH]; cbn [spans app]; [apply spans_nonneg|lia]. }
  destruct j as [|j]; cbn in Hj; [injection Hj as -> ->; cbn [take spans]; pose proof (spans_nonneg (take j' files)); specialize (Hle j'); lia|].
  cbn [take spans]. specialize (IH j Hj j' ltac:(lia)). lia.
Qed.

Section image.
Context (D : Z → Z) (n Q U : Z) (files : list (list Z * list Z)) (F : formatted D n Q U files).
Definition img : Z → Z := cur (disk_only D).
Let len := Z.of_nat (length files).
Let nd := nb_of (256 * len).

Lemma img_at o : img (DISKMAP + o) = D o.
Proof using F.
  unfold img, cur, disk_only. cbn. rewrite lookup_empty. replace (DISKMAP + o - DISKMAP) with o by lia. unfold u8. apply Z.mod_small. apply (fm_bytes _ _ _ _ _ F).
Qed.

Lemma img_word o : word_at img (DISKMAP + o) = word_at D o.
Proof using F. apply word_ext. intros i Hi. by rewrite <- Z.add_assoc, img_at. Qed.

Lemma img_nblk : nblk img = n.
Proof using F. unfold nblk, BLK. rewrite <- Z.add_assoc, img_word. apply (fm_nblk _ _ _ _ _ F). Qed.

Lemma img_first_data : first_data img = 3.
Proof using F. unfold first_data. rewrite img_nblk. destruct (fm_n _ _ _ _ _ F). dlia. Qed.

Lemma img_free b : 0 ≤ b < 32768 → free img b = (U <=? b).
Proof using F. intros Hb. unfold free, BLK. rewrite <- Z.add_assoc, img_word. by apply (fm_bits _ _ _ _ _ F). Qed.

Lemma img_bounds : 3 ≤ Q ∧ 1 ≤ nd ≤ 8 ∧ U = Q + nd ∧ U < n ≤ 4096.
Proof using F.
  destruct F as [F1 F2 F3 F4 F5 _ _ _ _ _ _ _]. pose proof (spans_nonneg files). unfold nd, len, nb_of in *. split; [lia|]. split; [dlia|]. lia.
Qed.

Lemma img_sound : img_ok img.
Proof using F. pose proof img_bounds. split; rewrite img_first_data; [rewrite img_nblk; lia|]. intros b Hb. rewrite img_free by lia. apply Z.leb_gt. lia. Qed.

(** A descriptor on the disk, as the file system reads it. *)
Section desc.
Context (o : Z) (name : list Z) (ty size st : Z) (data : Z → Z) (P : placed D D o name ty size st data) (Hs : 0 ≤ size < MAXFILESIZE) (Hst : 0 ≤ st).
Let f := DISKMAP + o.

Lemma desc_size : size_of img f = size.
Proof using F P Hs. unfold size_of, f_size, f. change MAXNAMELEN with 128. rewrite <- Z.add_assoc, img_word, (pl_size _ _ _ _ _ _ _ _ P). apply s32_small. change MAXFILESIZE with 4235264 in Hs. lia. Qed.

Lemma desc_type : ftype img f = ty.
Proof using F P. unfold ftype, f_type, f. change MAXNAMELEN with 128. rewrite <- !Z.add_assoc, img_word. apply (pl_type _ _ _ _ _ _ _ _ P). Qed.

Lemma desc_ind : ind img f = if nb_of size <? 10 then 0 else st + nb_of size.
Proof using F P. unfold ind, f_indirect, f. change MAXNAMELEN with 128. change NDIRECT with 10. rewrite <- !Z.add_assoc, img_word. apply (pl_ind _ _ _ _ _ _ _ _ P). Qed.

Lemma desc_bmap k : 0 ≤ k < MAXBLK → bmap img f k = if k <? nb_of size then st + k else 0.
Proof using F P Hst.
  intros Hk. unfold bmap. destruct (Z.ltb_spec k 10) as [H10|H10].
  - unfold f_direct, f. change MAXNAMELEN with 128. replace (DISKMAP + o + 128 + 8 + 4 * k) with (DISKMAP + (o + 136 + 4 * k)) by lia. rewrite img_word. apply (pl_direct _ _ _ _ _ _ _ _ P). lia.
  - rewrite desc_ind. destruct (Z.ltb_spec (nb_of size) 10) as [Hlt|Hge]; [cbn; destruct (Z.ltb_spec k (nb_of size)); [lia|done]|].
    destruct (Z.eqb_spec (st + nb_of size) 0); [lia|]. unfold BLK. rewrite <- Z.add_assoc, img_word. replace ((st + nb_of size) * 4096 + 4 * (k - 10)) with (4096 * (st + nb_of size) + 4 * (k - 10)) by lia.
    apply (pl_index _ _ _ _ _ _ _ _ P); [done|]. unfold MAXBLK in Hk. lia.
Qed.

Lemma desc_data i : 0 < st → 0 ≤ i < size → fdata img f i = data i.
Proof using F P Hs Hst.
  intros H0 Hi. destruct (nb_bounds size) as [Hnb Hsz]; [lia|]. pose proof (nb_max size Hs). assert (0 ≤ i / 4096 < nb_of size) as Hb by (split; dlia). unfold fdata.
  rewrite desc_bmap by (unfold MAXBLK; lia). destruct (Z.ltb_spec (i / 4096) (nb_of size)); [|lia]. cbv zeta. destruct (Z.eqb_spec (st + i / 4096) 0); [lia|].
  unfold BLK. rewrite <- Z.add_assoc, img_at. rewrite <- (pl_data _ _ _ _ _ _ _ _ P i Hi). f_equal. dlia.
Qed.

Lemma desc_name m : name_ok name → name_ok m → name_eqb img f m = true ↔ m = name.
Proof using F P.
  intros [Hn1 Hn2] [Hm1 Hm2]. unfold f. rewrite name_eqb_spec. split.
  - intros [H1 H2]. assert (∀ k : nat, (k ≤ length m)%nat → (k ≤ length name)%nat → default 0 (m !! k) = default 0 (name !! k)) as Heq.
    { intros k Hk Hk'. pose proof (pl_name _ _ _ _ _ _ _ _ P (Z.of_nat k) ltac:(lia)) as Hp. rewrite Nat2Z.id in Hp. destruct (decide (k < length m)%nat) as [Hlt|].
      - rewrite (H1 k Hlt), <- Z.add_assoc, img_at. cbn. exact Hp.
      - assert (k = length m) as -> by lia. rewrite <- Z.add_assoc, img_at in H2. rewrite <- Hp, H2, lookup_ge_None_2 by lia. done. }
    assert (∀ (l : list Z) k, Forall (λ c, 0 < c < 256) l → (k < length l)%nat → default 0 (l !! k) ≠ 0) as Hnz.
    { intros l k Hl Hk. destruct (lookup_lt_is_Some_2 l k Hk) as [c Ec]. rewrite Ec. pose proof (Forall_lookup_1 _ _ _ _ Hl Ec) as Hc. cbn in Hc |- *. lia. }
    assert (length m = length name) as Hlen.
    { destruct (Nat.lt_trichotomy (length m) (length name)) as [Hlt|[?|Hlt]]; [|done|].
      - specialize (Heq (length m) ltac:(lia) ltac:(lia)). rewrite (lookup_ge_None_2 m) in Heq by lia. by destruct (Hnz name (length m) Hn1 Hlt).
      - specialize (Heq (length name) ltac:(lia) ltac:(lia)). rewrite (lookup_ge_None_2 name) in Heq by lia. by destruct (Hnz m (length name) Hm1 Hlt). }
    apply (list_eq_same_length _ _ (length name)); [done|done|]. intros k x y Hk Hx Hy. specialize (Heq k ltac:(lia) ltac:(lia)). rewrite Hx, Hy in Heq. exact Heq.
  - intros ->. split.
    + intros k Hk. rewrite <- Z.add_assoc, img_at. rewrite (pl_name _ _ _ _ _ _ _ _ P) by lia. rewrite Nat2Z.id. destruct (lookup_lt_is_Some_2 name k Hk) as [c Ec]. by rewrite Ec.
    + rewrite <- Z.add_assoc, img_at. rewrite (pl_name _ _ _ _ _ _ _ _ P) by lia. rewrite Nat2Z.id, lookup_ge_None_2 by lia. done.
Qed.

Lemma desc_owned b : 0 < st → owned img f b → st ≤ b < st + span size.
Proof using F P Hs Hst.
  intros H0 [Hb H]. destruct (nb_bounds size) as [Hnb _]; [lia|]. unfold span. destruct H as [->|(k & Hk & ->)].
  - rewrite desc_ind in *. destruct (Z.ltb_spec (nb_of size) 10); lia.
  - rewrite desc_bmap in * by done. destruct (Z.ltb_spec k (nb_of size)); [|lia]. destruct (_ <? 10); lia.
Qed.

Lemma desc_file_ok B : block_of f = B → f mod 4096 + 256 ≤ 4096 → avail img B → (B = 1 ∧ BLK 1 + 8 ≤ f ∨ 3 ≤ B) →
  3 ≤ st → st + span size ≤ U → ¬ (st ≤ B < st + span size) → file_ok img f ∧ no_tail img f.
Proof using F P Hs Hst.
  intros HB Hm Ha Hbl H3 HU Hout. pose proof img_bounds as (HQ & Hnd & EU & Hn). destruct (nb_bounds size) as [Hnb Hsz]; [lia|].
  assert (∀ b, st ≤ b < st + span size → data_blk img b) as Hdata.
  { intros b Hb. split; [rewrite img_first_data, img_nblk; lia|]. rewrite img_free by lia. apply Z.leb_gt. lia. }
  assert (∀ k, 0 ≤ k < MAXBLK → bmap img f k ≠ 0 → bmap img f k = st + k ∧ k < nb_of size) as Hbm.
  { intros k Hk. rewrite desc_bmap by done. destruct (Z.ltb_spec k (nb_of size)); [done|congruence]. }
  unfold span in *. split; [split|].
  - done.
  - by rewrite HB.
  - rewrite HB, img_first_data. done.
  - intros k Hk Hnz. destruct (Hbm k Hk Hnz) as [-> Hlt]. split; [apply Hdata; destruct (_ <? 10); lia|]. rewrite HB, desc_ind. split; destruct (_ <? 10); lia.
  - rewrite desc_ind, HB. destruct (Z.ltb_spec (nb_of size) 10); [done|]. intros _. split; [apply Hdata; lia|lia].
  - intros k k' Hk Hk' E Hnz. destruct (Hbm k Hk Hnz) as [Ek _]. rewrite E in Hnz. destruct (Hbm k' Hk' Hnz) as [Ek' _]. lia.
  - intros k Hk. rewrite desc_size. intros Hle. rewrite desc_bmap by done. destruct (Z.ltb_spec k (nb_of size)); [lia|done].
Qed.
End desc.

(** The root directory and the files in it. *)
Hypothesis Hnames : Forall (λ f, name_ok f.1 ∧ f.1 ≠ [] ∧ size_in f.2 < MAXFILESIZE) files.
Hypothesis Hdup : NoDup files.*1.
Definition slot_at (k : Z) : Z := DISKMAP + (4096 * Q + 256 * k).

Lemma root_eq : ROOT = DISKMAP + ROOT_off.
Proof using Type. done. Qed.

Lemma root_size : 0 ≤ 4096 * nd < MAXFILESIZE ∧ nb_of (4096 * nd) = nd.
Proof using F. pose proof img_bounds as (_ & Hnd & _). change MAXFILESIZE with 4235264. split; [lia|]. unfold nb_of. dlia. Qed.

Lemma fmt_root_file : file_ok img ROOT ∧ no_tail img ROOT.
Proof using F.
  rewrite root_eq. pose proof img_bounds as (HQ & Hnd & EU & Hn). destruct root_size as [Hs Hnb].
  assert (span (4096 * nd) = nd) as Hsp by (unfold span; rewrite Hnb; destruct (Z.ltb_spec nd 10); lia).
  apply (desc_file_ok _ _ _ _ _ _ (fm_root _ _ _ _ _ F) Hs ltac:(lia) 1); fold len nd; rewrite ?Hsp; try lia; try done.
  - split; [rewrite img_nblk; lia|]. rewrite img_free by lia. apply Z.leb_gt. lia.
  - left. done.
Qed.

Lemma root_dblocks : dblocks img ROOT = nd ∧ size_of img ROOT = 4096 * nd.
Proof using F.
  rewrite root_eq. destruct root_size as [Hs Hnb]. pose proof (desc_size _ _ _ _ _ _ (fm_root _ _ _ _ _ F) Hs) as E. fold len nd in E. unfold dblocks. rewrite E. split; [dlia|done].
Qed.

Lemma root_bmap i : 0 ≤ i < MAXBLK → bmap img ROOT i = if i <? nd then Q + i else 0.
Proof using F.
  intros Hi. rewrite root_eq. pose proof img_bounds as (HQ & _). rewrite (desc_bmap _ _ _ _ _ _ (fm_root _ _ _ _ _ F) ltac:(lia)) by done. fold len nd. by rewrite (proj2 root_size).
Qed.

Lemma root_slot i j : 0 ≤ i < nd → slot img ROOT i j = slot_at (16 * i + j).
Proof using F.
  intros Hi. pose proof img_bounds as (_ & Hnd & _). unfold slot, slot_at, BLK. rewrite root_bmap by (unfold MAXBLK; lia). destruct (Z.ltb_spec i nd); [|lia]. change BLKSIZE with 4096. lia.
Qed.

Lemma slot_empty k : len ≤ k < 16 * nd → ∀ i, 0 ≤ i < 256 → img (slot_at k + i) = 0.
Proof using F. intros Hk i Hi. unfold slot_at. rewrite <- !Z.add_assoc, img_at, Z.add_assoc. rewrite <- Z.add_assoc. apply (fm_empty _ _ _ _ _ F). fold len nd. lia. Qed.

Lemma slot_placed (k : nat) name data : files !! k = Some (name, data) →
  placed D D (4096 * Q + 256 * Z.of_nat k) name FTYPE_REG (size_in data) (3 + spans (take k files)) (byte_in data).
Proof using F.
  intros Hk. pose proof (laid_lookup _ _ _ _ _ _ _ _ (fm_files _ _ _ _ _ F) Hk) as H. destruct H as [H1 H2 H3 H4 H5 H6 H7]. rewrite Z.add_0_l in *.
  assert (∀ o, word_at (λ x, D (4096 * Q + x)) o = word_at D (4096 * Q + o)) as E by (intros o; apply word_ext; intros i Hi; f_equal; lia).
  rewrite E in H2, H3, H5. rewrite Z.add_assoc in H2, H3, H5. split; [|exact H2|exact H3| |exact H5|exact H6|exact H7].
  - intros i Hi. rewrite <- Z.add_assoc. exact (H1 i Hi).
  - intros i Hi. specialize (H4 i Hi). rewrite E in H4. rewrite <- H4. f_equal. lia.
Qed.

Lemma size_small (k : nat) name data : files !! k = Some (name, data) → name_ok name ∧ name ≠ [] ∧ 0 ≤ size_in data < MAXFILESIZE.
Proof using Hnames. intros Hk. pose proof (Forall_lookup_1 _ _ _ _ Hnames Hk) as (H1 & H2 & H3). cbn in *. unfold size_in in *. split; [done|]. split; [done|lia]. Qed.

Lemma slot_block k : 0 ≤ k < 16 * nd → block_of (slot_at k) = Q + k / 16 ∧ slot_at k mod 4096 = 256 * (k mod 16).
Proof using Type. intros Hk. unfold slot_at. replace (DISKMAP + (4096 * Q + 256 * k)) with (BLK (Q + k / 16) + 256 * (k mod 16)) by (unfold BLK; change BLKSIZE with 4096; dlia). rewrite block_of_BLK, BLK_mod by dlia. done. Qed.

Lemma slot_file (k : nat) name data : files !! k = Some (name, data) →
  file_ok img (slot_at (Z.of_nat k)) ∧ no_tail img (slot_at (Z.of_nat k)) ∧ size_of img (slot_at (Z.of_nat k)) = size_in data ∧ ftype img (slot_at (Z.of_nat k)) = FTYPE_REG.
Proof using F Hnames.
  intros Hk. destruct (size_small k name data Hk) as (_ & _ & Hs). pose proof (slot_placed k name data Hk) as P. pose proof img_bounds as (HQ & Hnd & EU & Hn).
  pose proof (spans_nonneg (take k files)). pose proof (spans_take files k name data Hk (S k) ltac:(lia)). pose proof (fm_Q _ _ _ _ _ F) as EQ. pose proof (lookup_lt_Some _ _ _ Hk) as Hlt.
  assert (0 ≤ Z.of_nat k < 16 * nd) as Hk' by (unfold nd, nb_of, len; dlia). destruct (slot_block _ Hk') as [HB HM]. assert (0 ≤ Z.of_nat k / 16 < nd) by dlia.
  unfold slot_at in *. rewrite (desc_size _ _ _ _ _ _ P Hs), (desc_type _ _ _ _ _ _ P). apply and_assoc. split; [|done].
  apply (desc_file_ok _ _ _ _ _ _ P Hs ltac:(lia) (Q + Z.of_nat k / 16)); try lia.
  - rewrite HM. dlia.
  - split; [rewrite img_nblk; lia|]. rewrite img_free by lia. apply Z.leb_gt. lia.
Qed.

(** A slot of the root with a name is the slot of a file. *)
Lemma slot_name k m : 0 ≤ k < 16 * nd → name_ok m → m ≠ [] → name_eqb img (slot_at k) m = true → ∃ (j : nat) data, k = Z.of_nat j ∧ files !! j = Some (m, data).
Proof using F Hnames.
  intros Hk Hm Hne E. destruct (Z.lt_ge_cases k len) as [Hlt|Hge].
  - destruct (lookup_lt_is_Some_2 files (Z.to_nat k)) as [[name data] Ej]; [unfold len in Hlt; lia|]. exists (Z.to_nat k), data. rewrite Z2Nat.id by lia. split; [done|].
    pose proof (slot_placed _ _ _ Ej) as P. rewrite Z2Nat.id in P by lia. destruct (size_small _ _ _ Ej) as (Hname & _). apply (desc_name _ _ _ _ _ _ P m Hname Hm) in E. by subst.
  - exfalso. apply name_eqb_spec in E as [E _]. destruct m as [|c m]; [done|]. specialize (E 0%nat ltac:(cbn; lia)). rewrite slot_empty in E by lia. injection E as ->.
    destruct Hm as [Hm _]. apply Forall_cons in Hm as [Hm _]. lia.
Qed.

Lemma slot_named (j : nat) name data : files !! j = Some (name, data) → name_eqb img (slot_at (Z.of_nat j)) name = true.
Proof using F Hnames. intros Ej. destruct (size_small _ _ _ Ej) as (Hname & _). by apply (desc_name _ _ _ _ _ _ (slot_placed _ _ _ Ej)). Qed.

Lemma files_inj j j' name data data' : files !! j = Some (name, data) → files !! j' = Some (name, data') → j = j'.
Proof using Hdup. intros H H'. apply (NoDup_lookup _ j j' name Hdup); rewrite list_lookup_fmap; [by rewrite H|by rewrite H']. Qed.

Lemma root_lookup_file (j : nat) name data : files !! j = Some (name, data) → lookup_name img ROOT name = Some (slot_at (Z.of_nat j)).
Proof using F Hnames Hdup.
  intros Ej. destruct (size_small _ _ _ Ej) as (Hname & Hne & _). destruct root_dblocks as [Ed _]. pose proof (lookup_lt_Some _ _ _ Ej) as Hlt.
  assert (0 ≤ Z.of_nat j < 16 * nd) as Hj by (unfold nd, nb_of, len; dlia). unfold lookup_name. destruct (find_slot _ _ _) as [fp|] eqn:E.
  - apply find_slot_Some in E as (i & k & Hi & Hk & -> & E). rewrite Ed in Hi. rewrite root_slot in * by done. apply slot_name in E as (j' & data' & E' & Ej'); [|lia|done|done].
    rewrite E'. by rewrite (files_inj _ _ _ _ _ Ej Ej').
  - apply (find_slot_None _ _ _) with (i := Z.of_nat j / 16) (j := Z.of_nat j mod 16) in E; [|rewrite Ed; dlia|dlia]. rewrite root_slot in E by dlia.
    replace (16 * (Z.of_nat j / 16) + Z.of_nat j mod 16) with (Z.of_nat j) in E by dlia. by rewrite (slot_named _ _ _ Ej) in E.
Qed.

Lemma fmt_root_lookup name g : name_ok name → name ≠ [] → lookup_name img ROOT name = Some g → ∃ (j : nat) data, g = slot_at (Z.of_nat j) ∧ files !! j = Some (name, data).
Proof using F Hnames.
  intros Hn Hne E. destruct root_dblocks as [Ed _]. apply find_slot_Some in E as (i & k & Hi & Hk & -> & E). rewrite Ed in Hi. rewrite root_slot in * by done.
  apply slot_name in E as (j' & data' & E' & Ej'); [|lia|done|done]. exists j', data'. by rewrite E'.
Qed.

Lemma reach_cases f : reach img f → f = ROOT ∨ ∃ (j : nat) name data, f = slot_at (Z.of_nat j) ∧ files !! j = Some (name, data).
Proof using F Hnames.
  induction 1 as [|d m g Hr IH Hty Hm Hne Hl]; [by left|]. right. destruct IH as [->|(j & name & data & -> & Ej)].
  - destruct (fmt_root_lookup _ _ Hm Hne Hl) as (j & data & -> & Ej). by exists j, m, data.
  - destruct (slot_file _ _ _ Ej) as (_ & _ & _ & Hty'). by rewrite Hty' in Hty.
Qed.

Lemma slot_full (j : nat) name data : files !! j = Some (name, data) → img (slot_at (Z.of_nat j)) ≠ 0.
Proof using F Hnames.
  intros Ej E0. destruct (size_small _ _ _ Ej) as ([Hc _] & Hne & _). pose proof (slot_named _ _ _ Ej) as E. apply name_eqb_spec in E as [E _]. destruct name as [|c name]; [done|].
  specialize (E 0%nat ltac:(cbn; lia)). rewrite Z.add_0_r, E0 in E. injection E as ->. apply Forall_cons in Hc as [Hc _]. lia.
Qed.

Lemma fmt_root_dir : dir_ok img ROOT.
Proof using F Hnames.
  destruct root_dblocks as [Ed Es]. pose proof img_bounds as (HQ & Hnd & EU & Hn). split.
  - apply fmt_root_file.
  - rewrite Es. unfold FsRw.MAXFILESIZE, MAXBLK. lia.
  - rewrite Es. dlia.
  - intros i Hi. rewrite Ed in Hi. rewrite root_bmap by (unfold MAXBLK; lia). destruct (Z.ltb_spec i nd); lia.
  - intros i Hi. rewrite Ed in Hi. rewrite root_bmap by lia. destruct (Z.ltb_spec i nd); lia.
  - intros i j Hi Hj. rewrite Ed in Hi. rewrite root_slot by done. intros E0 k Hk. destruct (Z.lt_ge_cases (16 * i + j) len) as [Hlt|Hge]; [exfalso|apply slot_empty; lia].
    destruct (lookup_lt_is_Some_2 files (Z.to_nat (16 * i + j))) as [[name data] Ej]; [unfold len in Hlt; lia|].
    apply (slot_full _ _ _ Ej). by rewrite Z2Nat.id by lia.
Qed.

Lemma root_names : names_unique img ROOT.
Proof using F Hnames Hdup.
  intros m i j i' j' Hm Hne Hi Hj Hi' Hj'. destruct root_dblocks as [Ed _]. rewrite Ed in *. rewrite !root_slot by done. intros E E'.
  apply slot_name in E as (k & data & Ek & Hk); [|lia|done|done]. apply slot_name in E' as (k' & data' & Ek' & Hk'); [|lia|done|done].
  by rewrite Ek, Ek', (files_inj _ _ _ _ _ Hk Hk').
Qed.

Lemma root_owned b : owned img ROOT b → Q ≤ b < Q + nd.
Proof using F.
  intros Ho. rewrite root_eq in Ho. pose proof img_bounds as (HQ & Hnd & _). destruct root_size as [Hs Hnb].
  pose proof (desc_owned _ _ _ _ _ _ (fm_root _ _ _ _ _ F) Hs ltac:(lia) b ltac:(lia) Ho) as H. fold len nd in H. unfold span in H. rewrite Hnb in H. destruct (Z.ltb_spec nd 10); lia.
Qed.

Lemma slot_owned (j : nat) name data b : files !! j = Some (name, data) → owned img (slot_at (Z.of_nat j)) b →
  3 + spans (take j files) ≤ b < 3 + spans (take j files) + span (size_in data).
Proof using F Hnames.
  intros Ej Ho. destruct (size_small _ _ _ Ej) as (_ & _ & Hs). pose proof (spans_nonneg (take j files)).
  exact (desc_owned _ _ _ _ _ _ (slot_placed _ _ _ Ej) Hs ltac:(lia) b ltac:(lia) Ho).
Qed.

Lemma owned_apart f g b : reach img f → reach img g → owned img f b → owned img g b → f = g.
Proof using F Hnames.
  intros Hf Hg Of Og. pose proof (fm_Q _ _ _ _ _ F) as EQ.
  destruct (reach_cases f Hf) as [->|(j & name & data & -> & Ej)], (reach_cases g Hg) as [->|(j' & name' & data' & -> & Ej')]; [done|..].
  - apply root_owned in Of. apply (slot_owned _ _ _ _ Ej') in Og. pose proof (spans_take _ _ _ _ Ej' (S j') ltac:(lia)). lia.
  - apply root_owned in Og. apply (slot_owned _ _ _ _ Ej) in Of. pose proof (spans_take _ _ _ _ Ej (S j) ltac:(lia)). lia.
  - apply (slot_owned _ _ _ _ Ej) in Of. apply (slot_owned _ _ _ _ Ej') in Og. destruct (Nat.lt_trichotomy j j') as [Hlt|[->|Hlt]]; [|done|].
    + pose proof (spans_take _ _ _ _ Ej j' Hlt). lia.
    + pose proof (spans_take _ _ _ _ Ej' j Hlt). lia.
Qed.

Lemma root_type : ftype img ROOT = FTYPE_DIR.
Proof using F. rewrite root_eq. apply (desc_type _ _ _ _ _ _ (fm_root _ _ _ _ _ F)). Qed.

Lemma img_vol : vol_ok img.
Proof using F Hnames Hdup.
  assert (∀ f, reach img f → ftype img f = FTYPE_DIR → f = ROOT) as Hdir.
  { intros f Hf Hty. destruct (reach_cases f Hf) as [->|(j & name & data & -> & Ej)]; [done|]. destruct (slot_file _ _ _ Ej) as (_ & _ & _ & E). by rewrite E in Hty. }
  split.
  - intros f Hf Hty. rewrite (Hdir f Hf Hty). apply fmt_root_dir.
  - intros f Hf. destruct (reach_cases f Hf) as [->|(j & name & data & -> & Ej)]; [split; apply fmt_root_dir|].
    destruct (slot_file _ _ _ Ej) as (Hk & _ & -> & _). destruct (size_small _ _ _ Ej) as (_ & _ & Hs). split; [done|]. change (FsRw.MAXFILESIZE) with MAXFILESIZE. lia.
  - intros f Hf. destruct (reach_cases f Hf) as [->|(j & name & data & -> & Ej)]; [apply fmt_root_file|]. by destruct (slot_file _ _ _ Ej) as (_ & Hk & _).
  - intros f Hf Hty. rewrite (Hdir f Hf Hty). apply root_names.
  - exists [47]. assert (name_ok [47]) as Hn by (split; [repeat constructor; lia|cbn; lia]). split; [done|]. rewrite root_eq. by apply (desc_name _ _ _ _ _ _ (fm_root _ _ _ _ _ F)).
  - exact owned_apart.
Qed.

(** The volume is the directory of the files it was made from, and nothing else. *)
Lemma img_resolve name : name_ok name → name ≠ [] →
  match resolve img ROOT [name] with
  | Some f => ∃ data, (name, data) ∈ files ∧ ftype img f = FTYPE_REG ∧ size_of img f = size_in data ∧ ∀ i, 0 ≤ i < size_in data → fdata img f i = byte_in data i
  | None => name ∉ files.*1
  end.
Proof using F Hnames Hdup.
  intros Hn Hne. unfold resolve. change MAXNAMELEN with 128. destruct (Z.leb_spec 128 (Z.of_nat (length name))); [destruct Hn; lia|]. rewrite root_type. cbn [Z.eqb FTYPE_DIR Pos.eqb].
  destruct (lookup_name img ROOT name) as [f|] eqn:E; cbn.
  - destruct (fmt_root_lookup _ _ Hn Hne E) as (j & data & -> & Ej). exists data. destruct (slot_file _ _ _ Ej) as (_ & _ & Hsz & Hty). destruct (size_small _ _ _ Ej) as (_ & _ & Hs).
    split; [by eapply list_elem_of_lookup_2|]. split; [done|]. split; [done|]. intros i Hi. pose proof (spans_nonneg (take j files)).
    apply (desc_data _ _ _ _ _ _ (slot_placed _ _ _ Ej) Hs ltac:(lia) i ltac:(lia) Hi).
  - intros Hin. apply list_elem_of_fmap in Hin as ([name' data] & -> & Hin). apply list_elem_of_lookup in Hin as [j Ej]. cbn in E. by rewrite (root_lookup_file _ _ _ Ej) in E.
Qed.

(** Exactly the blocks of the files and of the root directory are in use. *)
Lemma span_owned (j : nat) name data b : files !! j = Some (name, data) → 3 + spans (take j files) ≤ b < 3 + spans (take j files) + span (size_in data) →
  owned img (slot_at (Z.of_nat j)) b.
Proof using F Hnames.
  intros Ej Hb. destruct (size_small _ _ _ Ej) as (_ & _ & Hs). pose proof (spans_nonneg (take j files)). pose proof (slot_placed _ _ _ Ej) as P. pose proof (nb_max _ Hs).
  unfold slot_at. split; [lia|]. unfold span in Hb. destruct (Z.lt_ge_cases (b - (3 + spans (take j files))) (nb_of (size_in data))) as [Hlt|Hge].
  - right. exists (b - (3 + spans (take j files))). split; [unfold MAXBLK; lia|]. rewrite (desc_bmap _ _ _ _ _ _ P ltac:(lia)) by (unfold MAXBLK; lia). destruct (Z.ltb_spec (b - (3 + spans (take j files))) (nb_of (size_in data))); lia.
  - left. rewrite (desc_ind _ _ _ _ _ _ P). destruct (Z.ltb_spec (nb_of (size_in data)) 10); lia.
Qed.

Lemma spans_find b : 0 ≤ b < spans files → ∃ (j : nat) name data, files !! j = Some (name, data) ∧ spans (take j files) ≤ b < spans (take j files) + span (size_in data).
Proof using Type.
  clear. revert b. induction files as [|[name data] l IH]; intros b Hb; cbn [spans] in Hb; [lia|]. destruct (Z.lt_ge_cases b (span (size_in data))) as [Hlt|Hge].
  - exists 0%nat, name, data. cbn [take spans]. split; [done|lia].
  - destruct (IH (b - span (size_in data))) as (j & name' & data' & Ej & H); [lia|]. exists (S j), name', data'. cbn [take spans]. split; [done|lia].
Qed.

Lemma reach_file (j : nat) name data : files !! j = Some (name, data) → reach img (slot_at (Z.of_nat j)).
Proof using F Hnames Hdup. intros Ej. destruct (size_small _ _ _ Ej) as (H1 & H2 & _). exact (reach_sub img ROOT name _ (reach_root img) root_type H1 H2 (root_lookup_file _ _ _ Ej)). Qed.

Lemma img_used b : 3 ≤ b < n → free img b = false ↔ ∃ f, reach img f ∧ owned img f b.
Proof using F Hnames Hdup.
  intros Hb. pose proof img_bounds as (HQ & Hnd & EU & Hn). pose proof (fm_Q _ _ _ _ _ F) as EQ. rewrite img_free by lia. rewrite Z.leb_gt. split.
  - intros HU. destruct (Z.lt_ge_cases b Q) as [Hlt|Hge].
    + destruct (spans_find (b - 3)) as (j & name & data & Ej & H); [lia|]. exists (slot_at (Z.of_nat j)). split; [by eapply reach_file|]. apply (span_owned _ _ _ _ Ej). lia.
    + exists ROOT. split; [apply reach_root|]. split; [lia|]. right. exists (b - Q). split; [unfold MAXBLK; lia|]. rewrite root_bmap by (unfold MAXBLK; lia). destruct (Z.ltb_spec (b - Q) nd); lia.
  - intros (f & Hf & Ho). destruct (reach_cases f Hf) as [->|(j & name & data & -> & Ej)]; [apply root_owned in Ho; lia|].
    apply (slot_owned _ _ _ _ Ej) in Ho. pose proof (spans_take _ _ _ _ Ej (S j) ltac:(lia)). lia.
Qed.
End image.

Lemma wanted_names host args files : Forall2 (wanted host) args files → Forall (λ f, name_ok f.1 ∧ f.1 ≠ [] ∧ size_in f.2 < MAXFILESIZE) files.
Proof. induction 1 as [|arg f args files (h & _ & Hh & H1 & H2 & ->) _ IH]; constructor; [|done]. cbn. split; [done|]. split; [done|apply Hh]. Qed.

(** Two files, the first read in two pieces and named through a directory. *)
Definition sample_host (arg : list Z) : option hostfile :=
  if decide (arg = [100; 47; 97]) then Some (MkHost true [1; 2; 3] [2; 1])
  else if decide (arg = [98]) then Some (MkHost true [7] [1]) else None.
Definition sample_fmt : fmt := MkFmt (λ _, 0) 0 64 0 0 (λ _, 0) 0.

(** With no file to write the root directory gets a size of one block and the number of a block that the
    bitmap leaves free: [ROUNDUP] of an [int] zero is a whole block. *)
Lemma format_empty_root : match main sample_host (λ _, 0) [] sample_fmt with
  | Ret _ s' => word_at (disk s') (ROOT_off + 128) = 4096 ∧ word_at (disk s') (ROOT_off + 136) = 3 ∧ bit (disk s') 3 = true
  | _ => False end.
Proof. vm_compute. done. Qed.

(** C14. A volume made by the formatter mounts and holds the files it was given. Let the program be run on a disk of at
    most 4096 blocks with one to 128 readable files (each of fewer bytes than [MAXFILESIZE], with a base name
    that fits in a descriptor, the base names all different) that fit on the disk with the super block, the
    bitmap and the root directory, and let the memory for the directory entries come as zeros. Then [main]
    returns, whatever the sizes of the reads; the server's [fs_init] on the disk that [main] leaves returns;
    the file system is then sound, in its blocks, its bitmap and its tree; a name leads from the root to a regular file
    with exactly the size and the bytes of the given file of that base name, and no other name leads
    anywhere; and beyond the reserved blocks the bitmap marks as used exactly the blocks of those files and of the root. *)
Theorem format_mounts host args files s n : Forall2 (wanted host) args files → NoDup files.*1 → nblocks s = n → 1 ≤ Z.of_nat (length files) ≤ 128 → n ≤ 4096 →
  3 + spans files + nb_of (256 * Z.of_nat (length files)) < n → (∀ x, 0 ≤ ents s x < 256) →
  ∃ s' t, main host (λ _, 0) args s = Ret tt s' ∧ fs_init (disk_only (disk s')) = Ret tt t ∧ fs_ok t ∧ vol_ok (cur t) ∧
    (∀ name, name_ok name → name ≠ [] →
       match resolve (cur t) ROOT [name] with
       | Some f => ∃ data, (name, data) ∈ files ∧ ftype (cur t) f = FTYPE_REG ∧ size_of (cur t) f = size_in data ∧
           ∀ i, 0 ≤ i < size_in data → fdata (cur t) f i = byte_in data i
       | None => name ∉ files.*1
       end) ∧
    (∀ b, 3 ≤ b < n → free (cur t) b = false ↔ ∃ f, reach (cur t) f ∧ owned (cur t) f b).
Proof.
  intros Hw Hdup Hn Hlen Hmax Hfit He. pose proof (wanted_names _ _ _ Hw) as Hnames. destruct (main_ok host args files s n Hw Hn Hlen Hmax Hfit He) as (s' & Q & U & E & F).
  destruct (fs_init_ok (disk s')) as (t & Et & Hok & Hcur).
  - by eapply img_sound.
  - change (BLK 1) with (DISKMAP + 4096). rewrite (img_word _ _ _ _ _ F). apply (fm_magic _ _ _ _ _ F).
  - exists s', t. rewrite Hcur. change (cur (disk_only (disk s'))) with (img (disk s')). split; [done|]. split; [done|]. split; [done|]. split; [by eapply img_vol|].
    split; [intros name; by eapply img_resolve|intros b; by eapply img_used].
Qed.

Lemma format_mounts_witness : ∃ s' t, main sample_host (λ _, 0) [[100; 47; 97]; [98]] sample_fmt = Ret tt s' ∧ fs_init (disk_only (disk s')) = Ret tt t ∧ vol_ok (cur t) ∧
  is_Some (resolve (cur t) ROOT [[97]]) ∧ resolve (cur t) ROOT [[99]] = None.
Proof.
  assert (∀ c, 0 < c < 128 → name_ok [c] ∧ [c] ≠ []) as Hc by (intros c H; split; [split; [repeat constructor; lia|cbn; lia]|done]).
  assert (∀ arg data reads c, sample_host arg = Some (MkHost true data reads) → Z.of_nat (length data) < MAXFILESIZE → Forall (λ c, 0 ≤ c < 256) data → Forall (λ m, 0 < m) reads →
    total reads = Z.of_nat (length data) → last_part arg = [c] → 0 < c < 128 → wanted sample_host arg ([c], data)) as Hw.
  { intros arg data reads c E H1 H2 H3 H4 E' H5. destruct (Hc c H5). exists (MkHost true data reads). rewrite E'. repeat (split; [done|]). done. }
  destruct (format_mounts sample_host [[100; 47; 97]; [98]] [([97], [1; 2; 3]); ([98], [7])] sample_fmt 64) as (s' & t & E & Et & _ & Hv & Hf & _).
  - constructor; [apply (Hw _ [1; 2; 3] [2; 1])|constructor; [apply (Hw _ [7] [1])|constructor]]; try reflexivity; try lia; repeat (constructor; [lia|]); constructor.
  - by apply (bool_decide_unpack _).
  - done.
  - cbn. lia.
  - lia.
  - reflexivity.
  - intros x. cbn. lia.
  - exists s', t. split; [exact E|]. split; [exact Et|]. split; [exact Hv|]. split.
    + destruct (Hc 97) as [H1 H2]; [lia|]. specialize (Hf [97] H1 H2). destruct (resolve _ _ _); [done|]. exfalso. apply Hf. cbn. constructor.
    + destruct (Hc 99) as [H1 H2]; [lia|]. specialize (Hf [99] H1 H2). destruct (resolve _ _ _); [|done]. destruct Hf as (data & Hin & _). clear -Hin. set_solver.
Defined.
